(* ===== verification/_CoqProject ===== *)
-Q . S2P
Prelude.v
JsValue.v
JsNumber.v
JsArith.v
JsMap.v
Hex.v
Parser.v
Database.v
Db.v
TrancheApy.v
SmeRisk.v
Reorg.v
PollLoop.v
Backfill.v
Api.v
ApiSpec.v
Sdk.v
Abi.v
ContractAbi.v
ErrorTables.v
SdkMarkets.v
SdkClients.v
AccessControlClient.v
GovernanceClient.v
PoolClient.v
AsteraClient.v
SdkEvents.v
SdkConform.v
Oracle.v
Verifier.v
OracleService.v
Screening.v
Monitor.v
ComplianceApi.v
RateModel.v
WebhookUrl.v
Notifications.v
Csrf.v
Auth.v
EventStream.v
Alerts.v
SseEvents.v
Backtest.v
ReadQueue.v
RpcPool.v
Stellar.v
Amounts.v
WebAbi.v
WebInvoice.v
WebPool.v
WebMarket.v
WebContracts.v
WebTranche.v
WebAccess.v
WebKyc.v
WebErrors.v
WebConform.v
Apy.v
Revenue.v
WebCache.v
Analytics.v
WebSession.v
WebHistory.v
WebImport.v
WebForms.v
PageTx.v
InvoicePage.v
Portfolio.v
InvestPages.v
UserPages.v
AdminRoles.v
AdminInvoices.v
SmeDashboard.v
AdminSettings.v
AdminReviews.v
Pages.v
PageSamples.v
ChainSamples.v
Samples.v
WebSamples.v
