(* ===== verification/Prelude.v ===== *)
(** * Astera: a verification library for its off-chain services

    Astera finances invoices on the Stellar network. Its Soroban contracts
    (contracts/, Rust) hold the state; everything modelled here is TypeScript
    around them:

    - the indexer (indexer/src) reads the contracts' events from Horizon into
      Postgres, survives reorganisations of the chain, and serves a REST API;
    - the SDK (packages/sdk/src) calls the contracts: it simulates, signs, submits
      and decodes;
    - the oracle service (oracle-service/src) follows the registry's events and
      votes on the verification of invoices through the SDK;
    - the compliance service (compliance-service/src) screens the addresses it
      sees deposit, and writes its verdicts on chain;
    - the web application (frontend) signs users in, streams the indexer's events to
      its pages, sends notifications, and calls the contracts itself
      (frontend/lib/stellar.ts and contracts.ts);
    - tools/backtest replays stored credit events.

    ** How the code is embedded

    A function that only computes is a Rocq function. JavaScript values of type
    [any] are [jsval] (JsValue.v), numbers IEEE doubles (JsNumber.v, JsArith.v) or
    integers where the code keeps them integral, bigints [Z], [Map]s the ordered
    lists of JsMap.v. A call that may throw returns [result]; one that also changes
    state or the world is [M S A], a function from a state to a result and a state
    (below, with its notation). Third-party code (Postgres, stellar-sdk, jose, DNS,
    [fetch], clocks, file writes) is an argument: a record of operations ([Backend],
    [Chain], [Server]) or a class with the laws that are relied on ([Postgres],
    [EventStore], [ScreenerProvider], [JoseLaws]). Code between the turns of an event
    loop is a transition system whose steps are the callbacks: Verifier.v,
    EventStream.v, SseEvents.v, ReadQueue.v, RpcPool.v; Monitor.v interleaves the two
    halves of a handler that awaits.

    ** The files

    Shared: this file (exceptions, the monad, strings, sorting), JsValue, JsNumber,
    JsArith, JsMap, Hex.

    The indexer: Parser (parser.ts); Database (the tables, and what is relied on of
    Postgres); Db, TrancheApy, SmeRisk (db.ts); Reorg (reorg.ts); PollLoop
    (index.ts, metrics.ts); Backfill (backfill.ts); Api (api.ts) with ApiSpec, what
    its answers mean. The loop is proved against the class [EventStore], which
    Db and Reorg implement. Shown: events are stored once, in order of arrival
    ([ingestion_order]); queries are the filter, sort and page they should be
    ([getEvents_correct]); the cursor never passes an event that is not stored and
    goes back behind a rollback, which is all or nothing whatever statement the
    connection loses ([poll_at_least_once], [reorg_rewinds],
    [check_tip_chain], [rollbackFrom_correct]); aggregates are the sums over
    the stored events they stand for ([recomputeTrancheApy_correct],
    [recomputeSmeRiskSignals_correct], [attestations_correct]); a replay of the events
    returns as many of each ledger as are stored, though ties at the border of two
    pages may be broken differently in each ([getAllEvents_complete],
    [ties_lose_an_event]); how often a backfill retries ([backfill_retries]).

    The SDK: Sdk (base.ts, errors.ts, stellar.ts), Abi and ContractAbi (the interfaces
    of the contracts and what [scValToNative] makes of their answers), ErrorTables,
    the fourteen clients (clients/*.ts: files of their own, and Modules of
    SdkClients and SdkMarkets), AsteraClient
    (astera-client.ts), SdkEvents (events.ts). SdkConform puts them together:
    the calls listed as such are calls of the contracts, those listed as lost always
    fail; the listed readers decode answers to what they mean; failures are named; the
    facade cannot write.

    The oracle service: Oracle (retry.ts, consensus.ts), Verifier (verifier.ts),
    OracleService (staking.ts, listener.ts, index.ts). Shown: no verification runs
    twice or beyond the limit and the queue drains, no effect of the stream is
    skipped over restarts and refused writes of the cursor, and the tracker's
    statuses, votes and pause are those a separate specification reads off the
    history of its inputs.

    The compliance service: Screening (validation.ts, screener.ts), Monitor
    (monitor.ts), ComplianceApi (index.ts). Shown: which requests the token guards and
    what each is refused with; a submission has the contract's types as far as its
    screener answered with them (one that answers otherwise, or a target that is no
    URL, is not caught: [submissions_valid]); structuring is flagged exactly when
    its definition holds.

    The web application, its server: RateModel (lib/rate-model.ts and the curve of
    contracts/pool it must agree with), WebhookUrl, Notifications, Csrf, Auth,
    EventStream (app/api/events: an invariant of every interleaving, and that no event
    is ever sent while the indexer's route fails), Alerts (lib/monitoring.ts and the notification
    service; its Modules for the page of the notification settings, the bell, the route
    api/health and the page of the storage). Its pages: SseEvents (lib/sse-events.ts).

    Its calls of the contracts: ReadQueue and RpcPool (the queue and the connection
    pool of lib/stellar.ts), Stellar (simulation and submission), Amounts; WebAbi
    (the shape of the calls of lib/contracts.ts), the files WebInvoice, WebPool, WebMarket,
    WebTranche, WebAccess and the Modules of WebContracts for the groups of contracts, WebKyc, WebErrors; WebConform puts them together
    as SdkConform does. Each group lists its functions in the
    inductive [web_called], those that never succeed in [web_lost], and the readers
    with the meaning of their answers in [web_reads]. Shown: the limits of the queue
    and that a read waiting for the rate is started; that a sixth concurrent read
    that waits for I/O stops the event loop; that the pool counts calls right, fails over and tries at
    most three times; that a transaction is submitted by one call at a time, and
    three times when it fails; that the readers whose simulations start from the
    placeholder address never return.

    Its pages and what they share: Apy (lib/apy.ts, and Modules for the earnings
    calculator, the scenario modeler and the waterfall simulation), Revenue (lib/revenue.ts, with the
    cache it shares with analytics.ts in the Module TtlCache), Analytics (lib/analytics.ts), WebCache
    (lib/cache.ts, useContractEvents.ts, swrConfig.ts, errorHandling.ts; [swr] is the
    class [Swr]), WebSession (lib/auth.ts, hooks/useAdminGuard.ts, lib/env.ts),
    WebHistory (app/history), WebImport (app/invoice/import), WebForms
    (app/invoice/new, lib/invoiceTemplates.ts, app/admin/aging). Shown: which hooks
    an event or a mutation makes read again, and which it forgets
    ([events_refresh], [mutation_refreshes]); that a request is repeated at most once
    and only with a new token; that the guard of the admin pages lets in whom it
    should, and nobody when the placeholder address is refused; what the history
    lists and loses ([history_of_published]); that an import tries every row once
    and its file of results can be read back; that the aging report partitions the
    funded invoices; that the projected interest is the contract's or one stroop
    less; that the volume figures of the revenue page are always zero, as the status
    of an invoice arrives in a form it does not look for.

    The pages that act for a user: PageTx, what their handlers share (signing, submitting,
    messages; the tracked transactions of lib/store.ts, lib/simulateFee.ts and two hooks),
    InvoicePage (app/invoice/[id]), Portfolio (app/portfolio, the lender's table and the
    badge of the insurance), InvestPages (app/invest and its three subpages), UserPages
    (app/governance, app/arbitration/jurors, app/dashboard/credit), SmeDashboard
    (app/dashboard with its filters, its board and the card of the credit score);
    AdminRoles, AdminInvoices, AdminSettings and AdminReviews for the pages under
    app/admin. A page's [useState] cells are a record, a handler a function of the monad
    over the page (its record, the messages shown, the connection to the chain), and a
    page's actions an inductive predicate; Pages puts all actions together. Shown: every
    transaction that a page sends was signed by the wallet ([pages_send_what_was_signed]);
    no repayment is beyond what is due ([repay_within_due]) and no percentage out of its
    range is proposed ([percentages_in_range]); a batch goes on after a failure
    ([batch_tries_every_invoice]); a vote that was committed can be revealed
    ([committed_vote_can_be_revealed]); an address of the dashboard is read back
    ([address_roundtrip]), scanning misses no invoice ([every_own_invoice_is_listed]).
    And where the pages do not do what they mean to: a status arrives as the array of its
    name, so that the page of an invoice fails to render ([invoice_page_breaks]), nothing is
    offered to vote on ([no_vote_is_offered]), nothing to fund or to mark
    ([administrators_see_no_status]), and nothing is found by its status
    ([no_row_has_a_status]); a choice that was not touched is sent as another than is
    shown ([untouched_choices_are_reversed]); a hook called in a handler loses what was
    signed ([labelled_pages_send_nothing]); the dashboard's second page is empty
    ([next_page_is_blank]).

    PageSamples, ChainSamples, Samples and WebSamples apply the theorems with hypotheses
    at concrete inputs; those of the SDK are at the end of SdkConform.

    ** Bounds and fuel

    Loops with a counter run on it: three attempts of an RPC call, twenty polls of a
    transaction in the web application, thirty in the SDK. [getAllEvents] pages
    through at most [maxReplay] events, for which [replay_fuel] turns are enough;
    [runBackfill] runs over the list of Horizon's answers; [retryWithBackoff] has one
    unit of fuel for each attempt it may make. All other recursion is structural.

    ** Idealisations

    Numbers that the code only uses as integers (identifiers, amounts in stroops,
    basis points, ledgers) are integers, so passing a fraction to an encoder is
    not considered, except for due dates of invoices. The encoding of a call's
    arguments happens when the transaction is built. A promise that lost a race
    with a time-out goes on running; what it does is put before the caller's next
    step. [Promise.all] runs its calls in the order they are started. Strings are
    sequences of bytes, whose lengths and slices are those of JavaScript on ASCII; texts
    with a NUL character and numbers beyond a column's type are not sent to Postgres as
    parameters of a query. Nothing else happens on a page while one of its handlers runs, and
    what is started without being awaited runs where it is started; SWR keeps the error of
    a fetcher to itself; a number that is no u32 is refused where the arguments are made;
    what is typed or chosen is any change of the page's own record; effects run after the
    change that they depend on.

    ** Not modelled

    What the contracts do (Rust): only their interfaces, events, errors and the rate
    curve. The other React components, hooks and pages (the charts of
    revenue and analytics, onboarding, the landing page, navigation, dialogs), which are markup over the library code, and all markup; the formatting of dates and currencies (Intl). Process wiring: servers, migrations, loggers, signals. The
    mock service, deployment scripts, benchmarks and tests. The parser of URLs, whose
    result is an argument. *)
From stdpp Require Export base tactics list list_numbers sorting strings gmap pretty.
From Stdlib Require Export ZArith Lia.

#[global] Open Scope Z_scope.

(** ** JavaScript exceptions and results *)

(** The exceptions the modelled code raises or lets through: the class of the
    thrown [Error] and its message. *)
Inductive exn :=
| EError (msg : string)
| ETypeError (msg : string)
| ERangeError (msg : string)
| EReferenceError (msg : string)
| ESyntaxError (msg : string).

(** A completed JavaScript call: it returned or it threw. *)
Inductive result (A : Type) :=
| Ok (a : A)
| Throw (e : exn).
Arguments Ok {A} a.
Arguments Throw {A} e.

#[export] Instance exn_eq_dec : EqDecision exn.
Proof. solve_decision. Defined.

#[export] Instance result_eq_dec {A} `{EqDecision A} : EqDecision (result A).
Proof. solve_decision. Defined.

#[export] Instance result_ret : MRet result := λ A a, Ok a.

#[export] Instance result_bind : MBind result := λ A B f m,
  match m with Ok a => f a | Throw e => Throw e end.

#[export] Instance result_map : FMap result := λ A B f m,
  match m with Ok a => Ok (f a) | Throw e => Throw e end.

(** The [err.message] of a caught exception. *)
Definition exn_message (e : exn) : string :=
  match e with
  | EError m | ETypeError m | ERangeError m | EReferenceError m | ESyntaxError m => m
  end.

(** ** Stateful code that can throw

    [M S A] is code over a state [S]: what it wrote before it threw is kept,
    as it is in JavaScript. *)
Definition M (S A : Type) : Type := S → result A * S.

#[export] Instance M_ret S : MRet (M S) := λ A a s, (Ok a, s).

#[export] Instance M_bind S : MBind (M S) := λ A B f m s,
  match m s with
  | (Ok a, s') => f a s'
  | (Throw e, s') => (Throw e, s')
  end.

#[export] Instance M_fmap S : FMap (M S) := λ A B f m, m ≫= λ a, mret (f a).

Definition get_state {S} : M S S := λ s, (Ok s, s).
Definition put_state {S} (s : S) : M S unit := λ _, (Ok tt, s).
Definition modify {S} (f : S → S) : M S unit := λ s, (Ok tt, f s).
Definition throw {S A} (e : exn) : M S A := λ s, (Throw e, s).
Definition lift_result {S A} (r : result A) : M S A := λ s, (r, s).

(** [try { m } catch (e) { h e }]: the handler runs in the state [m] left. *)
Definition try_catch {S A} (m : M S A) (h : exn → M S A) : M S A := λ s,
  match m s with
  | (Ok a, s') => (Ok a, s')
  | (Throw e, s') => h e s'
  end.

(** [for (const x of l) body(x)]. *)
Fixpoint for_each {S A} (l : list A) (body : A → M S unit) : M S unit :=
  match l with
  | [] => mret tt
  | x :: l' => body x ≫= λ _, for_each l' body
  end.

(** A loop whose body applies an update computed from the element, or throws. *)
Lemma for_each_update {S A B} (f : A → option B) (g : B → S → S) (e : exn) l (s : S) :
  let body := λ x, match f x with Some r => modify (g r) | None => throw e end in
  match mapM f l with
  | Some rs => for_each l body s = (Ok tt, foldl (λ s r, g r s) s rs)
  | None => ∃ s', for_each l body s = (Throw e, s')
  end.
Proof.
  revert s. induction l as [|x l IH]; intros s; simpl; [done|].
  unfold mbind, M_bind. destruct (f x) as [r|]; simpl; [|eauto].
  specialize (IH (g r s)). destruct (mapM f l) as [rs|]; simpl; exact IH.
Qed.

Lemma for_each_app {S A} (l1 l2 : list A) (body : A → M S unit) s :
  for_each (l1 ++ l2) body s = (for_each l1 body ≫= λ _, for_each l2 body) s.
Proof.
  revert s. induction l1 as [|x l1 IH]; intros s; simpl; [done|].
  unfold mbind, M_bind in *. destruct (body x s) as [[[]|e] s']; [apply IH|done].
Qed.

(** Nested loops are one loop over the pairs. *)
Lemma for_each_nested {S A B} (l : list A) (g : A → list B) (body : A → B → M S unit) s :
  for_each l (λ x, for_each (g x) (body x)) s
  = for_each (concat (map (λ x, map (pair x) (g x)) l)) (λ p, body p.1 p.2) s.
Proof.
  assert (∀ x l s, for_each (map (pair x) l) (λ p, body p.1 p.2) s = for_each l (body x) s) as Hin.
  { intros x l'. induction l' as [|y l' IH]; intros s'; simpl; [done|].
    unfold mbind, M_bind. destruct (body x y s') as [[[]|e] s'']; [apply IH|done]. }
  revert s. induction l as [|x l IH]; intros s; simpl; [done|].
  rewrite for_each_app. unfold mbind, M_bind. rewrite Hin.
  destruct (for_each (g x) (body x) s) as [[[]|e] s']; [apply IH|done].
Qed.

(** The elements of [Promise.all(l.map(f))] and [l.map(f)], when no call threw. *)
Lemma mapM_Ok_elem {A B} (f : A → result B) l l' x y :
  mapM f l = Ok l' → x ∈ l → f x = Ok y → y ∈ l'.
Proof.
  revert l'. induction l as [|z l IH]; intros l' E Hx Hy; [by apply not_elem_of_nil in Hx|].
  cbn [mapM] in E. destruct (f z) as [b|e] eqn:Ez; [|done]. cbn [mbind result_bind] in E.
  destruct (mapM f l) as [bs|e] eqn:El; [|done]. injection E as <-.
  apply elem_of_cons in Hx as [->|Hx]; [|right; by eapply IH].
  rewrite Ez in Hy. injection Hy as ->. left.
Qed.

(** ** Triples

    [triple P m Q E]: from a state in [P], [m] returns in [Q] or throws in [E]. *)
Definition triple {S A} (P : S → Prop) (m : M S A) (Q : A → S → Prop) (E : S → Prop) : Prop :=
  ∀ s, P s → match m s with (Ok a, s') => Q a s' | (Throw _, s') => E s' end.

Section triples.
Context {S : Type}.

Lemma triple_ret {A} (a : A) (Q : A → S → Prop) E : triple (Q a) (mret a) Q E.
Proof. by intros s. Qed.

Lemma triple_ret' {A} (P : S → Prop) (a : A) (Q : A → S → Prop) E :
  (∀ s, P s → Q a s) → triple P (mret a) Q E.
Proof. done. Qed.

Lemma triple_bind {A B} P (m : M S A) R (f : A → M S B) Q E :
  triple P m R E → (∀ a, triple (R a) (f a) Q E) → triple P (m ≫= f) Q E.
Proof.
  intros Hm Hf s Hs. unfold mbind, M_bind. specialize (Hm s Hs).
  destruct (m s) as [[a|e] s']; [by apply Hf|done].
Qed.

Lemma triple_modify P (f : S → S) (Q : unit → S → Prop) E :
  (∀ s, P s → Q tt (f s)) → triple P (modify f) Q E.
Proof. intros H s Hs. by apply H. Qed.

Lemma triple_get P (Q : S → S → Prop) E : (∀ s, P s → Q s s) → triple P get_state Q E.
Proof. intros H s Hs. by apply H. Qed.

Lemma triple_throw {A} (P : S → Prop) e (Q : A → S → Prop) : triple P (throw e) Q P.
Proof. by intros s. Qed.

Lemma triple_lift {A} (P : S → Prop) (r : result A) (Q : A → S → Prop) (E : S → Prop) :
  (∀ s, P s → match r with Ok a => Q a s | Throw _ => E s end) → triple P (lift_result r) Q E.
Proof. intros Hr s Hs. unfold lift_result. specialize (Hr s Hs). by destruct r. Qed.

Lemma triple_conseq {A} (P P' : S → Prop) (m : M S A) (Q Q' : A → S → Prop) (E E' : S → Prop) :
  triple P' m Q' E' → (∀ s, P s → P' s) → (∀ a s, Q' a s → Q a s) → (∀ s, E' s → E s) →
  triple P m Q E.
Proof.
  intros Hm HP HQ HE s Hs. specialize (Hm s (HP s Hs)). destruct (m s) as [[a|e] s']; auto.
Qed.

Lemma triple_try_catch {A} P (m : M S A) h Q R E :
  triple P m Q R → (∀ e, triple R (h e) Q E) → triple P (try_catch m h) Q E.
Proof.
  intros Hm Hh s Hs. unfold try_catch. specialize (Hm s Hs).
  destruct (m s) as [[a|e] s']; [done|by apply Hh].
Qed.

Lemma triple_True {A} (P : S → Prop) (m : M S A) : triple P m (λ _ _, True) (λ _, True).
Proof. intros s _. by destruct (m s) as [[] ?]. Qed.

Lemma triple_for_each {A} (I : S → Prop) (l : list A) (body : A → M S unit) E :
  (∀ x, x ∈ l → triple I (body x) (λ _, I) E) → triple I (for_each l body) (λ _, I) E.
Proof.
  induction l as [|x l IH]; intros Hb; simpl; [by intros st|].
  apply (triple_bind _ _ (λ _, I)); [apply Hb; left|]. intros u. apply IH. intros y Hy. apply Hb. by right.
Qed.

End triples.

(** ** Invariants

    [keeps I m]: [m] leaves [I] true, whether it returns or throws. *)
Definition keeps {S A} (I : S → Prop) (m : M S A) : Prop := triple I m (λ _, I) I.

Section keeps.
Context {S : Type} (I : S → Prop).

Lemma keeps_ret {A} (a : A) : keeps I (mret a).
Proof. by intros s. Qed.

Lemma keeps_throw {A} e : keeps I (throw (A := A) e).
Proof. by intros s. Qed.

Lemma keeps_lift {A} (r : result A) : keeps I (lift_result r).
Proof. apply triple_lift. by destruct r. Qed.

Lemma keeps_get : keeps I get_state.
Proof. by intros s. Qed.

Lemma keeps_bind {A B} (m : M S A) (f : A → M S B) :
  keeps I m → (∀ a, keeps I (f a)) → keeps I (m ≫= f).
Proof. intros Hm Hf. by apply (triple_bind _ _ (λ _, I)). Qed.

Lemma keeps_try_catch {A} (m : M S A) h :
  keeps I m → (∀ e, keeps I (h e)) → keeps I (try_catch m h).
Proof. intros Hm Hh. by apply (triple_try_catch _ _ _ _ I). Qed.

Lemma keeps_lift_bind {A B} (r : result A) (f : A → M S B) :
  (∀ a, r = Ok a → keeps I (f a)) → keeps I (lift_result r ≫= f).
Proof. intros Hf s Hs. unfold mbind, M_bind, lift_result. destruct r as [a|e]; [by apply Hf|done]. Qed.

(** A fact the first call establishes about its answer. *)
Lemma keeps_bind_fact {A B} (F : A → Prop) (m : M S A) (f : A → M S B) :
  triple I m (λ a s, I s ∧ F a) I → (∀ a, F a → keeps I (f a)) → keeps I (m ≫= f).
Proof.
  intros Hm Hf. apply (triple_bind _ _ _ _ _ _ Hm). intros a s [Hs Ha]. by apply Hf.
Qed.

Lemma mapM_keeps {A B} (f : A → M S B) l : (∀ x, keeps I (f x)) → keeps I (mapM f l).
Proof.
  intros Hf. induction l as [|x l IH]; cbn [mapM]; [apply keeps_ret|].
  apply keeps_bind; [apply Hf|intros b]. apply keeps_bind; [exact IH|intros bs; apply keeps_ret].
Qed.

Lemma for_each_keeps {A} (f : A → M S unit) l : (∀ x, keeps I (f x)) → keeps I (for_each l f).
Proof. intros Hf. apply triple_for_each. intros x _. apply Hf. Qed.

Lemma keeps_total {A} (m : M S A) s : keeps I m → I s → I (m s).2.
Proof. intros Hm Hs. specialize (Hm s Hs). by destruct (m s) as [[] ?]. Qed.

End keeps.

Create HintDb keeps discriminated.
#[export] Hint Resolve keeps_ret keeps_throw keeps_lift keeps_get : keeps.

(** One step per construct of the code; leaves the operations it does not know. *)
Ltac keep_steps :=
  repeat first
    [ solve [auto with keeps nocore]
    | match goal with
      | |- keeps _ (_ ≫= _) => apply keeps_bind; [|intros ?]
      | |- keeps _ (try_catch _ _) => apply keeps_try_catch; [|intros ?]
      end
    | case_match ].

(** ** Strings

    JavaScript strings are modelled as sequences of ASCII code units, on which
    the case mappings and [String.prototype.trim] are the ones below. *)
Definition ascii_lower (c : Ascii.ascii) : Ascii.ascii :=
  let n := Ascii.nat_of_ascii c in
  if ((65 <=? n) && (n <=? 90))%nat then Ascii.ascii_of_nat (n + 32) else c.

Definition ascii_upper (c : Ascii.ascii) : Ascii.ascii :=
  let n := Ascii.nat_of_ascii c in
  if ((97 <=? n) && (n <=? 122))%nat then Ascii.ascii_of_nat (n - 32) else c.

Fixpoint str_map (f : Ascii.ascii → Ascii.ascii) (s : string) : string :=
  match s with
  | EmptyString => EmptyString
  | String c s' => String (f c) (str_map f s')
  end.

(** [s.toLowerCase()] and [s.toUpperCase()]. *)
Definition toLowerCase : string → string := str_map ascii_lower.
Definition toUpperCase : string → string := str_map ascii_upper.

Definition is_space (c : Ascii.ascii) : bool :=
  let n := Ascii.nat_of_ascii c in
  ((n =? 32) || ((9 <=? n) && (n <=? 13)))%nat.

Fixpoint trim_start (s : string) : string :=
  match s with
  | String c s' => if is_space c then trim_start s' else s
  | EmptyString => EmptyString
  end.

Fixpoint trim_end (s : string) : string :=
  match s with
  | EmptyString => EmptyString
  | String c s' =>
      match trim_end s' with
      | EmptyString => if is_space c then EmptyString else String c EmptyString
      | t => String c t
      end
  end.

(** [s.trim()]. *)
Definition trim (s : string) : string := trim_end (trim_start s).

(** [s.startsWith(p)], [s.includes(p)] and [s.slice(n)] for [n >= 0]. *)
Definition startsWith (p s : string) : bool := String.prefix p s.
Definition includes (p s : string) : bool :=
  match String.index 0 p s with Some _ => true | None => false end.
Fixpoint str_drop (n : nat) (s : string) : string :=
  match n, s with
  | S n', String _ s' => str_drop n' s'
  | _, _ => s
  end.
Fixpoint str_take (n : nat) (s : string) : string :=
  match n, s with
  | S n', String c s' => String c (str_take n' s')
  | _, _ => EmptyString
  end.

(** [s.split(c)] for one character. *)
Fixpoint split_char (c : Ascii.ascii) (s : string) : list string :=
  match s with
  | EmptyString => [EmptyString]
  | String x s' =>
      if Ascii.eqb x c then EmptyString :: split_char c s'
      else match split_char c s' with
           | [] => [String x EmptyString]
           | w :: ws => String x w :: ws
           end
  end.

Fixpoint str_forallb (p : Ascii.ascii → bool) (s : string) : bool :=
  match s with
  | EmptyString => true
  | String c s' => p c && str_forallb p s'
  end.

(** [new Set([...]).has(s)] and [[...].includes(s)] on string constants. *)
Definition one_of (l : list string) (s : string) : bool := existsb (String.eqb s) l.

(** *** Lemmas on strings *)
Lemma append_cons c s t : String c s +:+ t = String c (s +:+ t).
Proof. done. Qed.
Lemma append_empty t : "" +:+ t = t.
Proof. done. Qed.

Lemma startsWith_empty s : startsWith "" s = true.
Proof. by destruct s. Qed.

Lemma startsWith_app p s : startsWith p (p +:+ s) = true.
Proof.
  unfold startsWith. induction p as [|c p IH]; [apply startsWith_empty|].
  rewrite append_cons. cbn -[Ascii.ascii_dec]. by destruct (Ascii.ascii_dec c c).
Qed.

Lemma toLowerCase_app s t : toLowerCase (s +:+ t) = toLowerCase s +:+ toLowerCase t.
Proof. induction s as [|c s IH]; [done|]. rewrite !append_cons. unfold toLowerCase in *. cbn [str_map]. by rewrite IH. Qed.

Lemma append_nil_r s : s +:+ "" = s.
Proof. induction s as [|c s IH]; [done|]. by rewrite append_cons, IH. Qed.

Lemma append_assoc s t u : s +:+ (t +:+ u) = (s +:+ t) +:+ u.
Proof. induction s as [|c s IH]; [done|]. by rewrite !append_cons, IH. Qed.

Lemma existsb_false_Forall {A} (p : A → bool) l : existsb p l = false ↔ Forall (λ x, p x = false) l.
Proof.
  induction l as [|x l IH]; [by split|]. cbn [existsb]. by rewrite orb_false_iff, Forall_cons, IH.
Qed.

Lemma one_of_In l s : one_of l s = true ↔ s ∈ l.
Proof.
  unfold one_of. rewrite existsb_exists. setoid_rewrite <-list_elem_of_In.
  split; [intros (x&?&->%String.eqb_eq)|intros ?; exists s; rewrite String.eqb_refl]; done.
Qed.

(** ** Sorting

    [Array.prototype.sort] is stable; [sort_by f] is [l.sort((a, b) => f(a) - f(b))]. *)
Section sort_by.
Context {A : Type} (f : A → Z).

Fixpoint insert_by (x : A) (l : list A) : list A :=
  match l with
  | [] => [x]
  | y :: l' => if f x <=? f y then x :: l else y :: insert_by x l'
  end.

Fixpoint sort_by (l : list A) : list A :=
  match l with
  | [] => []
  | x :: l' => insert_by x (sort_by l')
  end.

Definition ascending : list A → Prop := StronglySorted (λ a b, f a ≤ f b).

Lemma insert_by_perm x l : insert_by x l ≡ₚ x :: l.
Proof.
  induction l as [|y l IH]; simpl; [done|].
  destruct (f x <=? f y); [done|]. rewrite IH. constructor.
Qed.

Lemma sort_by_perm l : sort_by l ≡ₚ l.
Proof. induction l as [|x l IH]; simpl; [done|]. by rewrite insert_by_perm, IH. Qed.

Lemma insert_by_ascending x l : ascending l → ascending (insert_by x l).
Proof.
  unfold ascending. induction 1 as [|y l Hl IH Hy]; simpl; [repeat constructor|].
  destruct (Z.leb_spec (f x) (f y)).
  - repeat constructor; try done. eapply Forall_impl; [done|]. simpl; lia.
  - constructor; [done|]. rewrite insert_by_perm. constructor; [lia|done].
Qed.

Lemma sort_by_ascending l : ascending (sort_by l).
Proof. induction l; simpl; [constructor|]. by apply insert_by_ascending. Qed.

Lemma insert_by_filter (P : A → Prop) `{!∀ x, Decision (P x)} x l :
  (∀ y, y ∈ l → P x → P y → f x ≤ f y) →
  filter P (insert_by x l) = filter P (x :: l).
Proof.
  induction l as [|y l IH]; intros Hle; [done|]. simpl.
  destruct (Z.leb_spec (f x) (f y)); [done|].
  rewrite filter_cons, IH by (intros; apply Hle; set_solver).
  rewrite !filter_cons. repeat case_decide; try done.
  assert (f x ≤ f y) by (apply Hle; [left|done|done]). lia.
Qed.

(** Stability: the elements of one key keep their relative order. *)
Lemma sort_by_stable (k : Z) l :
  filter (λ x, f x = k) (sort_by l) = filter (λ x, f x = k) l.
Proof.
  induction l as [|x l IH]; [done|]. simpl.
  rewrite insert_by_filter by (intros; simpl in *; lia).
  rewrite !filter_cons. by rewrite IH.
Qed.

Lemma insert_by_id x l : Forall (λ y, f x ≤ f y) l → insert_by x l = x :: l.
Proof. destruct 1 as [|y l Hy Hl]; simpl; [done|]. by rewrite (proj2 (Z.leb_le _ _) Hy). Qed.

Lemma sort_by_id l : ascending l → sort_by l = l.
Proof. unfold ascending. induction 1 as [|x l Hl IH Hx]; simpl; [done|]. by rewrite IH, insert_by_id. Qed.

End sort_by.

Lemma ascending_map {A B} (f : B → Z) (g : A → B) l :
  ascending (λ x, f (g x)) l → ascending f (map g l).
Proof.
  unfold ascending. induction 1 as [|x l Hl IH Hx]; simpl; constructor; [done|].
  rewrite Forall_map. exact Hx.
Qed.

Lemma ascending_filter {A} (f : A → Z) (P : A → Prop) `{!∀ x, Decision (P x)} l :
  ascending f l → ascending f (filter P l).
Proof.
  unfold ascending. induction 1 as [|x l Hl IH Hx]; [constructor|]. rewrite filter_cons.
  case_decide; [|done]. constructor; [done|]. apply Forall_forall. intros y [_ Hy]%list_elem_of_filter.
  rewrite Forall_forall in Hx. by apply Hx.
Qed.

(** ** Insertion-ordered sets of strings: [Array.from(new Set(l))] *)
Fixpoint set_add (x : string) (l : list string) : list string :=
  match l with
  | [] => [x]
  | y :: l' => if String.eqb x y then l else y :: set_add x l'
  end.

Definition js_set (l : list string) : list string := foldl (λ s x, set_add x s) [] l.

Lemma elem_of_set_add x y l : y ∈ set_add x l ↔ y = x ∨ y ∈ l.
Proof.
  induction l as [|z l IH]; simpl; [set_solver|].
  destruct (String.eqb_spec x z); set_solver.
Qed.

Lemma NoDup_set_add x l : NoDup l → NoDup (set_add x l).
Proof.
  induction 1 as [|y l Hy Hl IH]; simpl; [repeat constructor; set_solver|].
  destruct (String.eqb_spec x y); constructor; try done.
  rewrite elem_of_set_add. set_solver.
Qed.

Lemma elem_of_foldl_set_add y l s :
  y ∈ foldl (λ s x, set_add x s) s l ↔ y ∈ s ∨ y ∈ l.
Proof.
  revert s. induction l as [|x l IH]; intros s; simpl; [set_solver|].
  rewrite IH, elem_of_set_add. set_solver.
Qed.

Lemma elem_of_js_set y l : y ∈ js_set l ↔ y ∈ l.
Proof. unfold js_set. rewrite elem_of_foldl_set_add. set_solver. Qed.

Lemma NoDup_foldl_set_add l s : NoDup s → NoDup (foldl (λ s x, set_add x s) s l).
Proof. revert s. induction l; intros s Hs; simpl; auto using NoDup_set_add. Qed.

Lemma NoDup_js_set l : NoDup (js_set l).
Proof. apply NoDup_foldl_set_add. constructor. Qed.

Create HintDb astera discriminated.
#[export] Hint Resolve sort_by_perm sort_by_ascending NoDup_js_set NoDup_set_add : astera.

(** ** Prefixes by an integer count: [LIMIT], [OFFSET] and [slice] *)
Fixpoint takeZ {A} (n : Z) (l : list A) : list A :=
  match l with
  | [] => []
  | x :: l' => if n <=? 0 then [] else x :: takeZ (n - 1) l'
  end.

Fixpoint dropZ {A} (n : Z) (l : list A) : list A :=
  match l with
  | [] => []
  | x :: l' => if n <=? 0 then l else dropZ (n - 1) l'
  end.

Definition lengthZ {A} (l : list A) : Z := Z.of_nat (length l).

Lemma takeZ_take {A} n (l : list A) : takeZ n l = take (Z.to_nat n) l.
Proof.
  revert n. induction l as [|x l IH]; intros n; simpl; [by rewrite take_nil|].
  destruct (Z.leb_spec n 0) as [Hn|Hn].
  - by replace (Z.to_nat n) with 0%nat by lia.
  - rewrite IH. replace (Z.to_nat n) with (S (Z.to_nat (n - 1))) by lia. done.
Qed.

Lemma dropZ_drop {A} n (l : list A) : dropZ n l = drop (Z.to_nat n) l.
Proof.
  revert n. induction l as [|x l IH]; intros n; simpl; [by rewrite drop_nil|].
  destruct (Z.leb_spec n 0) as [Hn|Hn].
  - by replace (Z.to_nat n) with 0%nat by lia.
  - rewrite IH. replace (Z.to_nat n) with (S (Z.to_nat (n - 1))) by lia. done.
Qed.

Lemma takeZ_dropZ {A} n (l : list A) : takeZ n l ++ dropZ n l = l.
Proof. by rewrite takeZ_take, dropZ_drop, take_drop. Qed.

Lemma takeZ_ge {A} n (l : list A) : lengthZ l ≤ n → takeZ n l = l.
Proof. unfold lengthZ. intros. rewrite takeZ_take. apply take_ge. lia. Qed.

Lemma lengthZ_takeZ {A} n (l : list A) : 0 ≤ n → lengthZ (takeZ n l) = Z.min n (lengthZ l).
Proof. unfold lengthZ. intros. rewrite takeZ_take, length_take. lia. Qed.

Lemma lengthZ_dropZ {A} n (l : list A) :
  0 ≤ n → lengthZ (dropZ n l) = Z.max 0 (lengthZ l - n).
Proof. unfold lengthZ. intros. rewrite dropZ_drop, length_drop. lia. Qed.

Lemma dropZ_dropZ {A} n k (l : list A) : 0 ≤ n → 0 ≤ k → dropZ k (dropZ n l) = dropZ (n + k) l.
Proof. intros. rewrite !dropZ_drop, drop_drop. f_equal. lia. Qed.

Lemma lengthZ_app {A} (l1 l2 : list A) : lengthZ (l1 ++ l2) = lengthZ l1 + lengthZ l2.
Proof. unfold lengthZ. rewrite length_app. lia. Qed.

Lemma lengthZ_nonneg {A} (l : list A) : 0 ≤ lengthZ l.
Proof. unfold lengthZ. lia. Qed.

(** ** Sums *)
Definition sum_by {A} (f : A → Z) (l : list A) : Z := foldr (λ x acc, f x + acc) 0 l.

Lemma sum_by_app {A} (f : A → Z) l1 l2 : sum_by f (l1 ++ l2) = sum_by f l1 + sum_by f l2.
Proof. induction l1 as [|x l1 IH]; simpl; lia. Qed.

Lemma sum_by_nonneg {A} (f : A → Z) l : Forall (λ x, 0 ≤ f x) l → 0 ≤ sum_by f l.
Proof. induction 1; simpl; lia. Qed.

Lemma sum_by_le {A} (f g : A → Z) l : Forall (λ x, f x ≤ g x) l → sum_by f l ≤ sum_by g l.
Proof. induction 1; simpl; lia. Qed.

Lemma sum_by_perm {A} (f : A → Z) l1 l2 : l1 ≡ₚ l2 → sum_by f l1 = sum_by f l2.
Proof. induction 1; simpl; lia. Qed.

Lemma sum_by_ext {A} (f g : A → Z) l : (∀ x, f x = g x) → sum_by f l = sum_by g l.
Proof. intros H. unfold sum_by. induction l as [|x l IH]; [done|]. cbn. by rewrite H, IH. Qed.

Lemma sum_by_add {A} (f g : A → Z) l : sum_by (λ x, f x + g x) l = sum_by f l + sum_by g l.
Proof. induction l as [|x l IH]; simpl; lia. Qed.

Lemma sum_by_const {A} c (l : list A) : sum_by (λ _, c) l = c * lengthZ l.
Proof. unfold lengthZ. induction l as [|x l IH]; simpl; lia. Qed.

Lemma sum_by_map {A B} (f : B → Z) (g : A → B) l : sum_by f (map g l) = sum_by (λ x, f (g x)) l.
Proof. induction l as [|x l IH]; simpl; lia. Qed.

Lemma sum_by_filter_le {A} (f : A → Z) (P : A → Prop) `{!∀ x, Decision (P x)} l :
  Forall (λ x, 0 ≤ f x) l → 0 ≤ sum_by f (filter P l) ≤ sum_by f l.
Proof.
  induction 1 as [|x l Hx Hl IH]; simpl; [done|]. rewrite filter_cons.
  case_decide; simpl; lia.
Qed.

Lemma filter_none {A} (P : A → Prop) `{!∀ x, Decision (P x)} l :
  (∀ x, x ∈ l → ¬ P x) → filter P l = [].
Proof.
  induction l as [|x l IH]; intros Hl; [done|]. rewrite filter_cons, decide_False.
  - apply IH. intros y Hy. apply Hl. by right.
  - apply Hl. left.
Qed.

Lemma filter_all {A} (P : A → Prop) `{!∀ x, Decision (P x)} (l : list A) :
  (∀ x, x ∈ l → P x) → filter P l = l.
Proof.
  induction l as [|x l IH]; intros Hl; [done|]. rewrite filter_cons, decide_True.
  - f_equal. apply IH. intros y Hy. apply Hl. by right.
  - apply Hl. left.
Qed.

Lemma filter_in_iff {A} (P Q : A → Prop) `{!∀ x, Decision (P x), !∀ x, Decision (Q x)} (l : list A) :
  (∀ x, x ∈ l → (P x ↔ Q x)) → filter P l = filter Q l.
Proof.
  induction l as [|x l IH]; intros Hl; [done|]. rewrite !filter_cons, IH.
  - specialize (Hl x ltac:(left)). repeat case_decide; tauto.
  - intros y Hy. apply Hl. by right.
Qed.

Lemma foldr_max_attained (l : list Z) : foldr Z.max 0 l = 0 ∨ foldr Z.max 0 l ∈ l.
Proof.
  induction l as [|x l IH]; simpl; [by left|].
  destruct (Z.max_spec x (foldr Z.max 0 l)) as [[_ ->]|[_ ->]].
  - destruct IH; [by left|right; by right].
  - right. left.
Qed.

(** ** Automation *)

(** Case analysis on every [match] of the goal and of the hypotheses. *)
Ltac case_matches := repeat (case_match; simplify_eq/=); try done.

(** Turns boolean tests of the code into the propositions they decide. *)
Ltac bool_props :=
  repeat match goal with
  | H : _ && _ = true |- _ => apply andb_prop in H as [??]
  | H : _ && _ = false |- _ => apply andb_false_iff in H as [?|?]
  | H : _ || _ = false |- _ => apply orb_false_iff in H as [??]
  | H : _ || _ = true |- _ => apply orb_true_iff in H as [?|?]
  | H : negb _ = true |- _ => apply negb_true_iff in H
  | H : negb _ = false |- _ => apply negb_false_iff in H
  | H : String.eqb _ _ = true |- _ => apply String.eqb_eq in H
  | H : String.eqb _ _ = false |- _ => apply String.eqb_neq in H
  | H : (_ <=? _) = true |- _ => apply Z.leb_le in H
  | H : (_ <=? _) = false |- _ => apply Z.leb_gt in H
  | H : (_ <? _) = true |- _ => apply Z.ltb_lt in H
  | H : (_ <? _) = false |- _ => apply Z.ltb_ge in H
  | H : (_ =? _) = true |- _ => apply Z.eqb_eq in H
  | H : (_ =? _) = false |- _ => apply Z.eqb_neq in H
  end.

(** Inverts a chain of option binds that returned. *)
Ltac invert_binds H :=
  unfold mbind, option_bind in H;
  repeat match type of H with
  | match ?x with _ => _ end = Some _ => destruct x eqn:?; [|discriminate H]
  end;
  injection H as H.
