(* ===== verification/JsValue.v ===== *)
(** * JavaScript values

    The values the services read with static type [any] or [unknown]: decoded
    JSON and decoded Soroban values. Numbers are integers ([JNum]); a number
    with a fraction only appears as the decimal string it was sent as. The own
    properties of an object are listed in property order, each key once. *)
From S2P Require Import Prelude.
From Stdlib Require Import Ascii.

Inductive jsval :=
| JUndef
| JNull
| JBool (b : bool)
| JNum (n : Z)
| JBig (n : Z)
| JStr (s : string)
| JArr (l : list jsval)
| JObj (o : list (string * jsval)).

(** [Boolean(v)]. *)
Definition truthy (v : jsval) : bool :=
  match v with
  | JUndef | JNull => false
  | JBool b => b
  | JNum n | JBig n => negb (n =? 0)
  | JStr s => negb (String.eqb s "")
  | JArr _ | JObj _ => true
  end.

(** [v === null || v === undefined]. *)
Definition nullish (v : jsval) : bool :=
  match v with JUndef | JNull => true | _ => false end.

(** [a || b] and [a ?? b]. *)
Definition js_or (a b : jsval) : jsval := if truthy a then a else b.
Definition js_coalesce (a b : jsval) : jsval := if nullish a then b else a.

(** [typeof v === 'object'] ([null] included) and [Array.isArray(v)]. *)
Definition is_object (v : jsval) : bool :=
  match v with JNull | JArr _ | JObj _ => true | _ => false end.
Definition is_array (v : jsval) : bool :=
  match v with JArr _ => true | _ => false end.

(** [String(v)]. *)
Fixpoint js_String (v : jsval) : string :=
  match v with
  | JUndef => "undefined"
  | JNull => "null"
  | JBool b => if b then "true" else "false"
  | JNum n | JBig n => pretty n
  | JStr s => s
  | JArr l =>
      String.concat "," (map (λ x, match x with JUndef | JNull => "" | _ => js_String x end) l)
  | JObj _ => "[object Object]"
  end.

(** [l[i]] on an array. *)
Definition arr_get (l : list jsval) (i : nat) : jsval := default JUndef (l !! i).

(** The value of an own property, [undefined] when there is none. *)
Fixpoint obj_get (o : list (string * jsval)) (k : string) : jsval :=
  match o with
  | [] => JUndef
  | (k', v) :: o' => if String.eqb k k' then v else obj_get o' k
  end.

(** [v.k] for a key that is no built-in property of strings and arrays. *)
Definition get_prop (v : jsval) (k : string) : result jsval :=
  match v with
  | JUndef | JNull => Throw (ETypeError ("Cannot read properties of nullish, reading " +:+ k))
  | JObj o => Ok (obj_get o k)
  | _ => Ok JUndef
  end.

(** [v?.k]. *)
Definition get_prop_opt (v : jsval) (k : string) : jsval :=
  match v with JObj o => obj_get o k | _ => JUndef end.

(** [v?.[0]]. *)
Definition get_first_opt (v : jsval) : jsval :=
  match v with
  | JArr l => arr_get l 0
  | JStr (String c _) => JStr (String c "")
  | JObj o => obj_get o "0"
  | _ => JUndef
  end.

(** The environment: [None] for an unset variable. *)
Definition env_or (env : string → option string) (k d : string) : string :=
  match env k with Some s => if String.eqb s "" then d else s | None => d end.

(** [/^S[A-Z2-7]{55}$/]. *)
Definition is_base32 (c : ascii) : bool :=
  let n := Ascii.nat_of_ascii c in
  ((65 <=? n) && (n <=? 90) || (50 <=? n) && (n <=? 55))%nat.

Definition valid_secret_key (s : string) : bool :=
  match s with
  | String "S"%char s' => (String.length s' =? 55)%nat && str_forallb is_base32 s'
  | _ => false
  end.

(** ** Numerals *)

Definition digit_val (c : Ascii.ascii) : option Z :=
  let n := Z.of_nat (Ascii.nat_of_ascii c) in
  if (48 <=? n) && (n <=? 57) then Some (n - 48)
  else if (97 <=? n) && (n <=? 122) then Some (n - 87)
  else if (65 <=? n) && (n <=? 90) then Some (n - 55)
  else None.

(** The value of a digit string in base [b] after the prefix of value [acc]. *)
Fixpoint digits_from (b acc : Z) (s : string) : option Z :=
  match s with
  | EmptyString => Some acc
  | String c s' =>
      match digit_val c with
      | Some d => if d <? b then digits_from b (acc * b + d) s' else None
      | None => None
      end
  end.

Definition parse_digits (b : Z) (s : string) : option Z :=
  match s with EmptyString => None | _ => digits_from b 0 s end.

Definition parse_signed (s : string) : option Z :=
  match s with
  | String "-"%char s' => Z.opp <$> parse_digits 10 s'
  | String "+"%char s' => parse_digits 10 s'
  | _ => parse_digits 10 s
  end.

(** [StringToBigInt]: decimal with an optional sign, or 0x/0o/0b, trimmed; the
    empty string is 0. [None] is the [SyntaxError] of [BigInt(s)]. *)
Definition bigint_of_string (s : string) : option Z :=
  let t := trim s in
  if String.eqb t "" then Some 0
  else if startsWith "0x" t || startsWith "0X" t then parse_digits 16 (str_drop 2 t)
  else if startsWith "0o" t || startsWith "0O" t then parse_digits 8 (str_drop 2 t)
  else if startsWith "0b" t || startsWith "0B" t then parse_digits 2 (str_drop 2 t)
  else parse_signed t.

(** [parseInt(s, 10)], [None] for [NaN]. *)
Fixpoint digits_prefix (s : string) : string :=
  match s with
  | String c s' =>
      match digit_val c with
      | Some d => if d <? 10 then String c (digits_prefix s') else EmptyString
      | None => EmptyString
      end
  | EmptyString => EmptyString
  end.

Definition parseInt (s : string) : option Z :=
  match trim_start s with
  | String "-"%char s' => Z.opp <$> parse_digits 10 (digits_prefix s')
  | String "+"%char s' => parse_digits 10 (digits_prefix s')
  | t => parse_digits 10 (digits_prefix t)
  end.

(** [BigInt(v)]: [None] when it throws, on [null], [undefined], objects and strings
    that are no integer literal. *)
Definition js_BigInt (v : jsval) : option Z :=
  match v with
  | JUndef | JNull => None
  | JBool b => Some (if b then 1 else 0)
  | JNum n | JBig n => Some n
  | JStr s => bigint_of_string s
  | JArr _ | JObj _ => bigint_of_string (js_String v)
  end.

(** [v === s] for a string constant [s]. *)
Definition is_str (v : jsval) (s : string) : bool :=
  match v with JStr s' => String.eqb s' s | _ => false end.

(** ** [JSON.stringify] *)

Definition hex_digit (n : nat) : ascii :=
  Ascii.ascii_of_nat (if (n <? 10)%nat then 48 + n else 87 + n).

(** A character of a string literal. *)
Definition json_char (c : ascii) : string :=
  let n := Ascii.nat_of_ascii c in
  if (n =? 34)%nat then String "\" (String c "")
  else if (n =? 92)%nat then "\\"
  else if (n =? 8)%nat then "\b"
  else if (n =? 9)%nat then "\t"
  else if (n =? 10)%nat then "\n"
  else if (n =? 12)%nat then "\f"
  else if (n =? 13)%nat then "\r"
  else if (n <? 32)%nat then
    "\u00" +:+ String (hex_digit (n / 16)) (String (hex_digit (n mod 16)) "")
  else String c "".

Definition json_string (s : string) : string :=
  let quote := Ascii.ascii_of_nat 34 in
  let fix go s := match s with
    | EmptyString => String quote ""
    | String c s' => json_char c +:+ go s'
    end in
  String quote (go s).

(** [JSON.stringify(v)] of a value decoded from JSON: [undefined] is [null] in an
    array and leaves out the property of an object. *)
Fixpoint JSON_stringify (v : jsval) : string :=
  match v with
  | JUndef | JNull => "null"
  | JBool b => if b then "true" else "false"
  | JNum n | JBig n => pretty n
  | JStr s => json_string s
  | JArr l => "[" +:+ String.concat "," (map JSON_stringify l) +:+ "]"
  | JObj o =>
      let fix members o := match o with
        | [] => []
        | (k, x) :: o' =>
            match x with
            | JUndef => members o'
            | _ => (json_string k +:+ ":" +:+ JSON_stringify x) :: members o'
            end
        end in
      "{" +:+ String.concat "," (members o) +:+ "}"
  end.

(** ** Lemmas *)

Lemma digit_val_pretty (d : N) :
  (d < 10)%N → digit_val (pretty_N_char d) = Some (Z.of_N d).
Proof.
  intros Hd. destruct d as [|p]; [done|].
  do 4 (destruct p as [p|p|]; try reflexivity); lia.
Qed.

Lemma digits_from_pretty_go (x : N) (s : string) :
  digits_from 10 0 (pretty_N_go x s) = digits_from 10 (Z.of_N x) s.
Proof.
  revert s. induction (N.lt_wf_0 x) as [x _ IH]; intros s.
  destruct (decide (x = 0)%N) as [->|Hx]; [by rewrite pretty_N_go_0|].
  rewrite pretty_N_go_step by lia.
  rewrite IH by (apply N.div_lt; lia). cbn [digits_from].
  assert (x `mod` 10 < 10)%N by (apply N.mod_lt; lia).
  rewrite digit_val_pretty by done.
  rewrite (proj2 (Z.ltb_lt _ _)) by lia.
  f_equal. pose proof (N.div_mod x 10 ltac:(done)).  lia.
Qed.

Lemma pretty_N_head (x : N) : ∃ d s, (d < 10)%N ∧ pretty x = String (pretty_N_char d) s.
Proof.
  unfold pretty, pretty_N. case_decide as Hx; [by exists 0%N, ""|].
  assert (∀ s, ∃ d s', (d < 10)%N ∧ pretty_N_go x s = String (pretty_N_char d) s') as H; [|apply H].
  clear -Hx. induction (N.lt_wf_0 x) as [x _ IH]; intros s.
  rewrite pretty_N_go_step by lia.
  destruct (decide (x `div` 10 = 0)%N) as [->|].
  - rewrite pretty_N_go_0. eexists _, _. split; [apply N.mod_lt; lia|done].
  - apply IH; [apply N.div_lt; lia|done].
Qed.

Lemma parse_digits_pretty (x : N) : parse_digits 10 (pretty x) = Some (Z.of_N x).
Proof.
  unfold parse_digits. destruct (pretty_N_head x) as (d&s&_&E). rewrite E, <-E.
  unfold pretty, pretty_N. case_decide as Hx; [by subst|]. apply digits_from_pretty_go.
Qed.

(** The characters of the decimal numeral of an integer. *)
Definition numeral_char (c : ascii) : bool :=
  Ascii.eqb c "-" || match digit_val c with Some d => d <? 10 | None => false end.

Lemma pretty_N_forallb (p : ascii → bool) (x : N) :
  (∀ d, (d < 10)%N → p (pretty_N_char d) = true) → str_forallb p (pretty x) = true.
Proof.
  intros Hp. unfold pretty, pretty_N. case_decide as Hx; [simpl; rewrite andb_true_r; by apply (Hp 0%N)|].
  assert (∀ s, str_forallb p s = true → str_forallb p (pretty_N_go x s) = true) as H; [|by apply H].
  clear Hx. induction (N.lt_wf_0 x) as [x _ IH]; intros s Hs.
  destruct (decide (x = 0)%N) as [->|]; [by rewrite pretty_N_go_0|].
  rewrite pretty_N_go_step by lia. apply IH; [apply N.div_lt; lia|]. cbn [str_forallb].
  rewrite Hs, andb_true_r. apply Hp, N.mod_lt. lia.
Qed.

Lemma pretty_N_numeral (x : N) : str_forallb numeral_char (pretty x) = true.
Proof.
  apply pretty_N_forallb. intros d Hd. unfold numeral_char. rewrite digit_val_pretty by done.
  apply orb_true_iff. right. apply Z.ltb_lt. lia.
Qed.

Lemma pretty_Z_pos p : pretty (Z.pos p) = pretty (N.pos p).
Proof. done. Qed.

Lemma pretty_Z_neg p : pretty (Z.neg p) = String "-" (pretty (N.pos p)).
Proof. done. Qed.

Lemma pretty_Z_numeral (n : Z) : str_forallb numeral_char (pretty n) = true.
Proof.
  destruct n as [|p|p]; [done|rewrite pretty_Z_pos; apply pretty_N_numeral|].
  rewrite pretty_Z_neg. apply pretty_N_numeral.
Qed.

Lemma pretty_Z_nonempty (n : Z) : String.eqb (pretty n) "" = false.
Proof.
  destruct n as [|p|p]; [done| |done].
  destruct (pretty_N_head (N.pos p)) as (d&s&_&E). by rewrite pretty_Z_pos, E.
Qed.

Lemma parse_signed_pretty (n : Z) : parse_signed (pretty n) = Some n.
Proof.
  destruct n as [|p|p]; [done| |].
  - rewrite pretty_Z_pos. pose proof (parse_digits_pretty (N.pos p)) as Hp.
    destruct (pretty_N_head (N.pos p)) as (d&s&Hd&E). rewrite E in Hp |- *.
    assert (pretty_N_char d ≠ "-"%char ∧ pretty_N_char d ≠ "+"%char) as [H1 H2].
    { destruct d as [|q]; [done|]. by do 4 (destruct q as [q|q|]; try done). }
    unfold parse_signed.
    by destruct (pretty_N_char d) as [[] [] [] [] [] [] [] []].
  - rewrite pretty_Z_neg. cbn [parse_signed]. by rewrite parse_digits_pretty.
Qed.

Lemma trim_end_id s : str_forallb (λ c, negb (is_space c)) s = true → trim_end s = s.
Proof.
  induction s as [|c s IH]; simpl; [done|]. intros [Hc Hs]%andb_prop.
  rewrite IH by done. destruct s; [|done]. by destruct (is_space c).
Qed.

Lemma trim_id s : str_forallb (λ c, negb (is_space c)) s = true → trim s = s.
Proof.
  intros Hs. unfold trim. destruct s as [|c s]; [done|].
  pose proof Hs as [Hc _]%andb_prop. simpl trim_start. destruct (is_space c); [done|].
  apply trim_end_id, Hs.
Qed.

Lemma str_forallb_impl (p q : ascii → bool) s :
  (∀ c, p c = true → q c = true) → str_forallb p s = true → str_forallb q s = true.
Proof. intros Hpq. induction s; simpl; rewrite ?andb_true_iff; naive_solver. Qed.

Lemma numeral_not_space c : numeral_char c = true → negb (is_space c) = true.
Proof. by destruct c as [[] [] [] [] [] [] [] []]. Qed.

Lemma numeral_no_radix (x : ascii) s :
  str_forallb numeral_char s = true → numeral_char x = false →
  startsWith (String "0" (String x "")) s = false.
Proof.
  unfold startsWith. destruct s as [|c [|c' s]]; simpl; [done|by case_match|].
  intros [_ [Hc' _]%andb_prop]%andb_prop Hx.
  by repeat case_match; subst; try congruence.
Qed.

(** [BigInt(n.toString())] is [n]. *)
Lemma bigint_of_string_pretty (n : Z) : bigint_of_string (pretty n) = Some n.
Proof.
  pose proof (pretty_Z_numeral n) as Hn. unfold bigint_of_string.
  rewrite trim_id by (eapply str_forallb_impl; [apply numeral_not_space|done]).
  rewrite pretty_Z_nonempty. rewrite !numeral_no_radix by done. apply parse_signed_pretty.
Qed.

(** [parseInt(n.toString(), 10)] is [n]. *)
Lemma digits_prefix_pretty (x : N) : digits_prefix (pretty x) = pretty x.
Proof.
  assert (∀ s, str_forallb (λ c, match digit_val c with Some d => d <? 10 | None => false end) s
    = true → digits_prefix s = s) as H.
  { intros s. induction s as [|c s IH]; simpl; [done|]. intros [Hc Hs]%andb_prop.
    destruct (digit_val c) as [d|]; [|done]. by rewrite Hc, IH. }
  apply H, pretty_N_forallb. intros d Hd. rewrite digit_val_pretty by done. apply Z.ltb_lt. lia.
Qed.

Lemma parseInt_pretty (n : Z) : parseInt (pretty n) = Some n.
Proof.
  pose proof (pretty_Z_numeral n) as Hn. unfold parseInt.
  assert (trim_start (pretty n) = pretty n) as ->.
  { destruct (pretty n) as [|c s]; [done|]. simpl in *. apply andb_prop in Hn as [Hc _].
    apply numeral_not_space in Hc. by destruct (is_space c). }
  destruct n as [|p|p]; [done| |].
  - rewrite pretty_Z_pos. pose proof (parse_digits_pretty (N.pos p)) as Hp.
    pose proof (digits_prefix_pretty (N.pos p)) as Hd.
    destruct (pretty_N_head (N.pos p)) as (d&s&Hlt&E). rewrite E in Hp, Hd |- *.
    assert (pretty_N_char d ≠ "-"%char ∧ pretty_N_char d ≠ "+"%char) as [H1 H2].
    { destruct d as [|q]; [done|]. by do 4 (destruct q as [q|q|]; try done). }
    rewrite <-Hd in Hp. by destruct (pretty_N_char d) as [[] [] [] [] [] [] [] []].
  - rewrite pretty_Z_neg. by rewrite digits_prefix_pretty, parse_digits_pretty.
Qed.
