(* ===== verification/JsNumber.v ===== *)
(** * JavaScript numbers

    A number is an IEEE 754 binary64 datum, with the rounding of the Standard
    Library's executable specification. [Number_of_string] is [Number(s)]: a
    decimal numeral is rounded once, from its exact value. *)
From S2P Require Import Prelude JsValue.
From Stdlib Require Import Ascii SpecFloat.
#[local] Open Scope string_scope.
#[local] Open Scope list_scope.
#[local] Open Scope Z_scope.

Notation number := spec_float.

(** [NaN], [Infinity] and the number nearest to an integer. *)
Definition NaN : number := S754_nan.
Definition Infinity : number := S754_infinity false.
Definition num_of_Z (z : Z) : number := binary_normalize 53 1024 z 0 false.

(** The number nearest to [z / d]. *)
Definition num_of_ratio (z : Z) (d : positive) : number :=
  match z with
  | Z0 => S754_zero false
  | Zpos m =>
      let '(mz, ez, lz) := SFdiv_core_binary 53 1024 (Zpos m) 0 (Zpos d) 0 in
      binary_round_aux 53 1024 false mz ez lz
  | Zneg m =>
      let '(mz, ez, lz) := SFdiv_core_binary 53 1024 (Zpos m) 0 (Zpos d) 0 in
      binary_round_aux 53 1024 true mz ez lz
  end.

(** [a + b], [a - b], [a * b], [a / b], [-a]. *)
Definition num_add : number → number → number := SFadd 53 1024.
Definition num_sub : number → number → number := SFsub 53 1024.
Definition num_mul : number → number → number := SFmul 53 1024.
Definition num_div : number → number → number := SFdiv 53 1024.
Definition num_opp : number → number := SFopp.

(** [a < b], [a <= b], [a === b]; all false on [NaN]. *)
Definition num_ltb : number → number → bool := SFltb.
Definition num_leb : number → number → bool := SFleb.
Definition num_eqb : number → number → bool := SFeqb.

(** [Number.isNaN], [Number.isFinite]. *)
Definition isNaN (x : number) : bool := match x with S754_nan => true | _ => false end.
Definition isFinite (x : number) : bool :=
  match x with S754_zero _ | S754_finite _ _ _ => true | _ => false end.

(** The value of a number that is an integer. *)
Definition num_to_Z (x : number) : option Z :=
  match x with
  | S754_zero _ => Some 0
  | S754_finite s m e =>
      let v := if s then Zneg m else Zpos m in
      if 0 <=? e then Some (v * 2 ^ e)
      else if v mod 2 ^ (- e) =? 0 then Some (v / 2 ^ (- e)) else None
  | _ => None
  end.

Definition MAX_SAFE_INTEGER : Z := 9007199254740991.

(** [Number.isInteger] and [Number.isSafeInteger]. *)
Definition isInteger (x : number) : bool := match num_to_Z x with Some _ => true | None => false end.
Definition isSafeInteger (x : number) : bool :=
  match num_to_Z x with Some z => Z.abs z <=? MAX_SAFE_INTEGER | None => false end.

(** ** [Number(s)] *)

(** The longest prefix of decimal digits and the rest. *)
Fixpoint span_digits (s : string) : string * string :=
  match s with
  | String c s' =>
      match digit_val c with
      | Some d => if d <? 10 then let '(a, b) := span_digits s' in (String c a, b) else ("", s)
      | None => ("", s)
      end
  | EmptyString => ("", "")
  end.

(** [m * 10 ^ k], correctly rounded. *)
Definition num_of_decimal (neg : bool) (m k : Z) : number :=
  let v := if 0 <=? k then num_of_ratio (m * 10 ^ k) 1
           else num_of_ratio m (Z.to_pos (10 ^ (- k))) in
  if neg then num_opp v else v.

(** The exponent part after the digits: [Some 0] when there is none. *)
Definition parse_exponent (s : string) : option Z :=
  match s with
  | EmptyString => Some 0
  | String c s' => if Ascii.eqb c "e" || Ascii.eqb c "E" then parse_signed s' else None
  end.

(** [StrUnsignedDecimalLiteral]. *)
Definition parse_unsigned_decimal (neg : bool) (s : string) : number :=
  if String.eqb s "Infinity" then S754_infinity neg
  else
    let '(int, rest) := span_digits s in
    let '(frac, rest) := match rest with
      | String "."%char s' => span_digits s'
      | _ => ("", rest)
      end in
    match parse_digits 10 (int +:+ frac), parse_exponent rest with
    | Some m, Some e => num_of_decimal neg m (e - Z.of_nat (String.length frac))
    | _, _ => NaN
    end.

Definition Number_of_string (s : string) : number :=
  let t := trim s in
  let radix b := match parse_digits b (str_drop 2 t) with Some z => num_of_Z z | None => NaN end in
  if String.eqb t "" then S754_zero false
  else if startsWith "0x" t || startsWith "0X" t then radix 16
  else if startsWith "0o" t || startsWith "0O" t then radix 8
  else if startsWith "0b" t || startsWith "0B" t then radix 2
  else match t with
       | String "-"%char t' => parse_unsigned_decimal true t'
       | String "+"%char t' => parse_unsigned_decimal false t'
       | _ => parse_unsigned_decimal false t
       end.

(** [Number(v)]. *)
Definition js_Number (v : jsval) : number :=
  match v with
  | JUndef => NaN
  | JNull => S754_zero false
  | JBool b => if b then num_of_Z 1 else S754_zero false
  | JNum n | JBig n => num_of_Z n
  | JStr s => Number_of_string s
  | JArr _ => Number_of_string (js_String v)
  | JObj _ => NaN
  end.

Example Number_tenth : Number_of_string " 0.1 " = S754_finite false 7205759403792794 (-56).
Proof. by vm_compute. Qed.
Example Number_rounds : Number_of_string "9007199254740993" = num_of_Z 9007199254740992.
Proof. by vm_compute. Qed.
Example Number_exponent : Number_of_string "-1.5e3" = num_of_Z (-1500).
Proof. by vm_compute. Qed.
Example Number_garbage : Number_of_string "12px" = NaN.
Proof. by vm_compute. Qed.
Example Number_dot : Number_of_string "." = NaN.
Proof. by vm_compute. Qed.

