(* ===== verification/JsArith.v ===== *)
(** * Arithmetic on JavaScript numbers

    The operations of [JsNumber] on safe integers: sums, differences and products
    that stay below [2 ^ 53] are exact, and [Math.floor(a / b)] is the integer
    quotient. The rounding of the Standard Library's specification is related to
    the exact rational [num / den] it rounds. *)
From S2P Require Import Prelude JsValue JsNumber.
From Stdlib Require Import SpecFloat.
#[local] Open Scope Z_scope.

(** [Math.floor(x)] as an integer, [None] when it is [NaN] or infinite. *)
Definition floor_Z (x : number) : option Z :=
  match x with
  | S754_zero _ => Some 0
  | S754_finite s m e =>
      let v := if s then Zneg m else Zpos m in
      Some (if 0 <=? e then v * 2 ^ e else v / 2 ^ (- e))
  | _ => None
  end.

(** [Math.floor(x)], [Math.min(x, y)] and [Math.max(x, y)] ([-0] aside). *)
Definition Math_floor (x : number) : number :=
  match floor_Z x with Some z => num_of_Z z | None => x end.
(** [Math.round(x)]: to the nearest integer, halves up. *)
Definition Math_round (x : number) : number :=
  match x with
  | S754_finite s m e =>
      let v := if s then Zneg m else Zpos m in
      if 0 <=? e then x else num_of_Z ((2 * v + 2 ^ (- e)) / 2 ^ (1 - e))
  | _ => x
  end.

Definition Math_min (x y : number) : number :=
  if isNaN x || isNaN y then NaN else if num_ltb y x then y else x.
Definition Math_max (x y : number) : number :=
  if isNaN x || isNaN y then NaN else if num_ltb x y then y else x.

(** ** Digits *)
Lemma digits2_pos_spec p : 2 ^ (Zpos (digits2_pos p) - 1) ≤ Zpos p < 2 ^ Zpos (digits2_pos p).
Proof.
  induction p as [p IH|p IH|]; cbn [digits2_pos]; [| |simpl; lia];
    rewrite Pos2Z.inj_succ; replace (Z.succ (Zpos (digits2_pos p)) - 1) with (Zpos (digits2_pos p)) by lia;
    rewrite Z.pow_succ_r by lia;
    replace (2 ^ Zpos (digits2_pos p)) with (2 * 2 ^ (Zpos (digits2_pos p) - 1)) in * by
      (rewrite <-Z.pow_succ_r by lia; f_equal; lia); lia.
Qed.

Lemma digits_unique p d : 0 < d → 2 ^ (d - 1) ≤ Zpos p < 2 ^ d → Zpos (digits2_pos p) = d.
Proof.
  intros Hd Hp. pose proof (digits2_pos_spec p) as H.
  destruct (Z.lt_trichotomy (Zpos (digits2_pos p)) d) as [Hlt|[?|Hlt]]; [|done|].
  - assert (2 ^ Zpos (digits2_pos p) ≤ 2 ^ (d - 1)) by (apply Z.pow_le_mono_r; lia). lia.
  - assert (2 ^ d ≤ 2 ^ (Zpos (digits2_pos p) - 1)) by (apply Z.pow_le_mono_r; lia). lia.
Qed.

(** ** What a location says

    [located m l num den]: [num / den] is in [m, m + 1), at [l] relative to the
    middle. *)
Definition located (m : Z) (l : location) (num den : Z) : Prop :=
  match l with
  | loc_Exact => num = m * den
  | loc_Inexact c => m * den < num < (m + 1) * den ∧ (2 * num ?= (2 * m + 1) * den) = c
  end.

Definition located_rec (r : shr_record) : Z → Z → Prop :=
  located (shr_m r) (loc_of_shr_record r).

Lemma located_bounds m l num den : 0 < den → located m l num den → m * den ≤ num < (m + 1) * den.
Proof. destruct l as [|[]]; simpl; nia. Qed.

Lemma shr_record_of_loc_located m l num den :
  located m l num den → located_rec (shr_record_of_loc m l) num den.
Proof. by destruct l as [|[]]. Qed.

Ltac compare_to_order :=
  repeat match goal with
  | H : _ ∧ _ |- _ => destruct H
  | H : (_ ?= _) = Lt |- _ => rewrite Z.compare_lt_iff in H
  | H : (_ ?= _) = Gt |- _ => rewrite Z.compare_gt_iff in H
  | H : (_ ?= _) = Eq |- _ => rewrite Z.compare_eq_iff in H
  end;
  rewrite ?Z.compare_lt_iff, ?Z.compare_gt_iff, ?Z.compare_eq_iff.

Lemma located_halve h (b r s : bool) num den :
  0 < den →
  located (2 * h + Z.b2z b)
    (loc_of_shr_record {| shr_m := 2 * h + Z.b2z b; shr_r := r; shr_s := s |}) num den →
  located h (loc_of_shr_record {| shr_m := h; shr_r := b; shr_s := r || s |}) num (2 * den).
Proof.
  intros Hd Hl. destruct b, r, s; cbn [loc_of_shr_record located orb Z.b2z] in *;
    compare_to_order; try split; try lia; rewrite ?Z.compare_lt_iff, ?Z.compare_gt_iff; lia.
Qed.

Lemma shr_1_halve r : 0 ≤ shr_m r → ∃ b,
  shr_m r = 2 * (shr_m r / 2) + Z.b2z b
  ∧ shr_1 r = {| shr_m := shr_m r / 2; shr_r := b; shr_s := shr_r r || shr_s r |}.
Proof.
  destruct r as [m r s]. cbn [shr_m shr_r shr_s]. intros Hm.
  destruct m as [|[p|p|]|]; [exists false|exists true|exists false|exists true|lia]; try done.
  - assert (Zpos p~1 / 2 = Zpos p) as -> by (symmetry; apply Z.div_unique with 1; lia). done.
  - assert (Zpos p~0 / 2 = Zpos p) as -> by (symmetry; apply Z.div_unique with 0; lia).
    split; [simpl; lia|done].
Qed.

Lemma located_shr_1 r num den :
  0 < den → 0 ≤ shr_m r → located_rec r num den →
  0 ≤ shr_m (shr_1 r) ∧ shr_m (shr_1 r) = shr_m r / 2 ∧ located_rec (shr_1 r) num (2 * den).
Proof.
  intros Hd Hm Hl. destruct (shr_1_halve r Hm) as (b&Eb&->).
  split_and!; [apply Z.div_pos; lia|done|]. apply located_halve; [done|].
  destruct r as [m r s]. cbn [shr_m shr_r shr_s] in *. rewrite <-Eb. exact Hl.
Qed.

Lemma iter_pos_nat {A} (f : A → A) p x : iter_pos f p x = Nat.iter (Pos.to_nat p) f x.
Proof.
  revert x. induction p as [p IH|p IH|]; intros x; cbn [iter_pos]; [| |done].
  - rewrite !IH, <-Nat.iter_add, <-Nat.iter_succ_r. f_equal. lia.
  - rewrite !IH, <-Nat.iter_add. f_equal. lia.
Qed.

Lemma located_iter n r num den :
  0 < den → 0 ≤ shr_m r → located_rec r num den →
  let r' := Nat.iter n shr_1 r in
  0 ≤ shr_m r' ∧ shr_m r' = shr_m r / 2 ^ Z.of_nat n ∧ located_rec r' num (den * 2 ^ Z.of_nat n).
Proof.
  intros Hd Hm Hl. induction n as [|n IH]; cbn [Nat.iter nat_rect].
  - by rewrite Z.div_1_r, Z.mul_1_r.
  - destruct IH as (Hm1&E1&Hl1).
    pose proof (Z.pow_pos_nonneg 2 (Z.of_nat n) ltac:(lia) ltac:(lia)).
    destruct (located_shr_1 _ num (den * 2 ^ Z.of_nat n) ltac:(nia) Hm1 Hl1) as (Hm2&E2&Hl2).
    rewrite Nat2Z.inj_succ, Z.pow_succ_r by lia.
    split_and!; [done| |by replace (den * (2 * 2 ^ Z.of_nat n)) with (2 * (den * 2 ^ Z.of_nat n)) by lia].
    etrans; [exact E2|]. rewrite E1, Z.div_div, (Z.mul_comm 2) by lia. done.
Qed.

(** ** Rounding

    [shr] by [n] and rounding to nearest: the rounded mantissa is within half a
    unit of the exact value. *)
Lemma shr_spec m l e n num den :
  0 < den → 0 ≤ m → 0 ≤ n → located m l num den →
  ∃ r, shr (shr_record_of_loc m l) e n = (r, e + n)
    ∧ shr_m r = m / 2 ^ n ∧ located_rec r num (den * 2 ^ n).
Proof.
  intros Hd Hm Hn Hl. apply shr_record_of_loc_located in Hl as Hr.
  assert (shr_m (shr_record_of_loc m l) = m) as Em by (by destruct l as [|[]]).
  destruct n as [|p|]; [| |lia]; cbn [shr].
  - eexists. split; [f_equal; lia|]. by rewrite Em, Z.div_1_r, Z.mul_1_r.
  - eexists. split; [done|]. rewrite iter_pos_nat.
    destruct (located_iter (Pos.to_nat p) _ num den Hd ltac:(by rewrite Em) Hr) as (_&E&Hl').
    rewrite positive_nat_Z in E, Hl'. by rewrite E, Em.
Qed.

Lemma round_nearest_even_spec m l num den :
  0 < den → located m l num den →
  m ≤ round_nearest_even m l ≤ m + 1
  ∧ - den ≤ 2 * (round_nearest_even m l * den - num) ≤ den
  ∧ (num = m * den → round_nearest_even m l = m).
Proof.
  intros Hd Hl. destruct l as [|[]]; cbn [located round_nearest_even] in *; compare_to_order;
    try destruct (Z.even m); split_and!; try intros ->; try lia.
Qed.

Lemma Zdigits2_unique m d : 0 < d → 2 ^ (d - 1) ≤ m < 2 ^ d → Zdigits2 m = d.
Proof.
  intros Hd Hm. pose proof (Z.pow_pos_nonneg 2 (d - 1) ltac:(lia) ltac:(lia)).
  destruct m as [|p|p]; [lia| |lia]. by apply digits_unique.
Qed.

Lemma shr_fexp_digits m e l d :
  53 ≤ d → 2 ^ (d - 1) ≤ m < 2 ^ d → -1074 ≤ e →
  shr_fexp 53 1024 m e l = shr (shr_record_of_loc m l) e (d - 53).
Proof.
  intros Hd Hm He. unfold shr_fexp. rewrite (Zdigits2_unique m d) by lia.
  f_equal. unfold fexp, emin. lia.
Qed.

(** The canonical datum nearest to [num / den * 2 ^ e]: its mantissa, scaled to
    the unit the value is rounded to, is [R]. *)
Definition rounds_to (f : number) (s : bool) (m e d num den : Z) : Prop :=
  let j := d - 53 in
  ∃ M c R, f = S754_finite s M (e + j + c) ∧ 2 ^ 52 ≤ Zpos M < 2 ^ 53 ∧ 0 ≤ c ≤ 1
    ∧ R = Zpos M * 2 ^ c
    ∧ - (den * 2 ^ j) ≤ 2 * (R * (den * 2 ^ j) - num) ≤ den * 2 ^ j
    ∧ (num = m / 2 ^ j * (den * 2 ^ j) → R = m / 2 ^ j).

Lemma binary_round_aux_spec s m e l d num den :
  0 < den → located m l num den → 53 ≤ d → 2 ^ (d - 1) ≤ m < 2 ^ d → -1074 ≤ e → e + d ≤ 1000 →
  rounds_to (binary_round_aux 53 1024 s m e l) s m e d num den.
Proof.
  intros Hden Hl Hd Hm He Hmax. unfold binary_round_aux.
  assert (0 ≤ m) by (pose proof (Z.pow_nonneg 2 (d - 1)); lia).
  rewrite (shr_fexp_digits m e l d) by lia.
  destruct (shr_spec m l e (d - 53) num den) as (r&->&Er&Hr); [done..|lia|done|].
  set (j := d - 53) in *. assert (0 < 2 ^ j) by (apply Z.pow_pos_nonneg; lia).
  assert (2 ^ 52 ≤ shr_m r < 2 ^ 53) as Hb.
  { rewrite Er. split; [apply Z.div_le_lower_bound; [lia|]|apply Z.div_lt_upper_bound; [lia|]];
      rewrite <-Z.pow_add_r by lia; unfold j;
      [replace (d - 53 + 52) with (d - 1) by lia|replace (d - 53 + 53) with d by lia]; lia. }
  destruct (round_nearest_even_spec (shr_m r) (loc_of_shr_record r) num (den * 2 ^ j)) as (Hle&Herr&Hex);
    [nia|done|].
  set (R := round_nearest_even (shr_m r) (loc_of_shr_record r)) in *. rewrite Er in Hex.
  unfold rounds_to. fold j. destruct (Z.ltb_spec R (2 ^ 53)) as [HR|HR].
  - rewrite (shr_fexp_digits R (e + j) loc_Exact 53) by lia. change (53 - 53) with 0.
    cbn [shr shr_record_of_loc shr_m]. destruct R as [|M|] eqn:ER; [lia| |lia].
    rewrite (proj2 (Z.leb_le _ _)) by lia. exists M, 0, (Zpos M). rewrite Z.add_0_r. split_and!; try done; lia.
  - assert (R = 2 ^ 53) as ER by lia.
    rewrite (shr_fexp_digits R (e + j) loc_Exact 54) by lia. rewrite ER.
    change (54 - 53) with 1. change (2 ^ 53) with (Zpos (2 ^ 53)%positive).
    cbn [shr shr_record_of_loc iter_pos]. cbn -[Z.pow Z.add Z.mul Z.leb Z.sub]. rewrite (proj2 (Z.leb_le _ _)) by lia.
    eexists _, 1, R. split_and!; [done|simpl; lia..|by rewrite ER| | |]; try done; lia.
Qed.

(** ** Integers below [2 ^ 53]

    The canonical datum of a positive integer [v]. *)
Definition represents (f : number) (v : Z) : Prop :=
  ∃ M k, f = S754_finite false M (- k) ∧ 0 ≤ k ≤ 52 ∧ Zpos M = v * 2 ^ k ∧ 2 ^ 52 ≤ Zpos M < 2 ^ 53.

Definition safe (v : Z) : Prop := 0 ≤ v < 2 ^ 53.

Lemma represents_unique f g v : 0 < v → represents f v → represents g v → f = g.
Proof.
  intros Hv (M1&k1&->&Hk1&E1&B1) (M2&k2&->&Hk2&E2&B2).
  assert (∀ j k, 0 ≤ j → j < k → 2 * (v * 2 ^ j) ≤ v * 2 ^ k) as H.
  { intros j k Hj Hjk. replace (2 * (v * 2 ^ j)) with (v * 2 ^ (Z.succ j))
      by (rewrite Z.pow_succ_r by lia; lia).
    apply Z.mul_le_mono_nonneg_l, Z.pow_le_mono_r; lia. }
  assert (k1 = k2) as ->.
  { destruct (Z.lt_trichotomy k1 k2) as [Hlt|[?|Hlt]]; [|done|].
    - specialize (H k1 k2). lia.
    - specialize (H k2 k1). lia. }
  do 2 f_equal. lia.
Qed.

Lemma represents_scale f M k v :
  0 < v → 0 ≤ k → f = S754_finite false M (- k) → Zpos M = v * 2 ^ k → 2 ^ 52 ≤ Zpos M < 2 ^ 53 →
  represents f v.
Proof.
  intros Hv Hk -> E B. exists M, k. split_and!; try done; [|lia..].
  destruct (Z.le_gt_cases k 52) as [|Hk']; [done|].
  assert (2 ^ 53 ≤ 2 ^ k) by (apply Z.pow_le_mono_r; lia). nia.
Qed.

(** Rounding a mantissa that holds an integer exactly. *)
Lemma binary_round_aux_int m k v d :
  0 < v < 2 ^ 53 → 0 ≤ k ≤ 800 → 53 ≤ d ≤ 200 → 2 ^ (d - 1) ≤ m < 2 ^ d → m = v * 2 ^ k →
  represents (binary_round_aux 53 1024 false m (- k) loc_Exact) v.
Proof.
  intros Hv Hk Hd Hm E.
  destruct (binary_round_aux_spec false m (- k) loc_Exact d m 1) as (M&c&R&Ef&HM&Hc&ER&_&Hex);
    [lia|simpl; lia|lia..|].
  set (j := d - 53) in *.
  assert (j ≤ k) as Hjk.
  { destruct (Z.le_gt_cases j k) as [|Hgt]; [done|]. exfalso.
    assert (2 ^ k ≤ 2 ^ (j - 1)) by (apply Z.pow_le_mono_r; lia).
    assert (2 ^ (d - 1) = 2 ^ 53 * 2 ^ (j - 1)) by (rewrite <-Z.pow_add_r by lia; f_equal; lia).
    pose proof (Z.pow_pos_nonneg 2 (j - 1) ltac:(lia)). nia. }
  assert (2 ^ k = 2 ^ (k - j) * 2 ^ j) as Ek by (rewrite <-Z.pow_add_r by lia; f_equal; lia).
  assert (0 < 2 ^ j) by (apply Z.pow_pos_nonneg; lia).
  assert (m / 2 ^ j = v * 2 ^ (k - j)) as Em.
  { rewrite E, Ek, Z.mul_assoc, Z.div_mul by lia. done. }
  rewrite Em in Hex. specialize (Hex ltac:(lia)).
  assert (v * 2 ^ (k - j) < 2 ^ 53) as Hlt.
  { rewrite <-Em. apply Z.div_lt_upper_bound; [lia|]. rewrite <-Z.pow_add_r by lia.
    replace (j + 53) with d by lia. lia. }
  assert (c = 0) as -> by (destruct (decide (c = 1)) as [->|]; lia).
  apply (represents_scale _ M (k - j)); try done; try lia.
  rewrite Ef. f_equal. lia.
Qed.

Lemma iter_xO m n : Zpos (Pos.iter xO m n) = Zpos m * 2 ^ Zpos n.
Proof.
  induction n as [|n IH] using Pos.peano_ind; [rewrite Z.pow_1_r; simpl; lia|].
  rewrite Pos.iter_succ, Pos2Z.inj_xO, IH, Pos2Z.inj_succ, Z.pow_succ_r by lia. lia.
Qed.

Lemma shl_align_spec m e e' : e' ≤ e →
  ∃ m', shl_align m e e' = (m', e') ∧ Zpos m' = Zpos m * 2 ^ (e - e').
Proof.
  intros He. unfold shl_align. destruct (e' - e) as [|p|p] eqn:E; [|lia|].
  - exists m. replace e' with e by lia. by rewrite Z.sub_diag, Z.pow_0_r, Z.mul_1_r.
  - eexists. split; [done|]. rewrite iter_xO. do 2 f_equal. lia.
Qed.

Lemma binary_round_int m k v :
  0 < v < 2 ^ 53 → 0 ≤ k ≤ 100 → Zpos m = v * 2 ^ k →
  represents (binary_round 53 1024 false m (- k)) v.
Proof.
  intros Hv Hk E. unfold binary_round. pose proof (digits2_pos_spec m) as Hd.
  set (d := Zpos (digits2_pos m)) in *.
  assert (d ≤ 160) as Hd'.
  { destruct (Z.le_gt_cases d 160) as [|Hgt]; [done|].
    assert (2 ^ 160 ≤ 2 ^ (d - 1)) by (apply Z.pow_le_mono_r; lia).
    assert (2 ^ k ≤ 2 ^ 100) by (apply Z.pow_le_mono_r; lia). nia. }
  assert (fexp 53 1024 (d + - k) = d - k - 53) as -> by (unfold fexp, emin; lia).
  destruct (Z.le_gt_cases 53 d) as [H53|H53].
  - unfold shl_align. replace (d - k - 53 - - k) with (d - 53) by lia.
    assert ((match d - 53 with Zneg n => (Pos.iter xO m n, d - k - 53) | _ => (m, - k) end) = (m, - k)) as ->.
    { destruct (d - 53) eqn:Ed; [done|done|lia]. }
    apply (binary_round_aux_int _ k v d); [done|lia..|done].
  - destruct (shl_align_spec m (- k) (d - k - 53)) as (m'&->&Em'); [lia|].
    replace (- k - (d - k - 53)) with (53 - d) in Em' by lia.
    replace (d - k - 53) with (- (k + (53 - d))) by lia.
    assert (2 ^ 52 = 2 ^ (d - 1) * 2 ^ (53 - d)) as H52
      by (rewrite <-Z.pow_add_r by lia; f_equal; lia).
    assert (2 ^ 53 = 2 ^ d * 2 ^ (53 - d)) as H53' by (rewrite <-Z.pow_add_r by lia; f_equal; lia).
    pose proof (Z.pow_pos_nonneg 2 (53 - d) ltac:(lia) ltac:(lia)).
    apply (binary_round_aux_int _ _ v 53); [done|lia|lia| |].
    + change (53 - 1) with 52. rewrite H52, H53', Em'. nia.
    + rewrite Em', E, Z.pow_add_r by lia. lia.
Qed.

Lemma num_of_Z_represents v : 0 < v < 2 ^ 53 → represents (num_of_Z v) v.
Proof.
  intros Hv. destruct v as [|p|p]; [lia| |lia].
  apply (binary_round_int p 0); [done|lia|lia].
Qed.

Lemma represents_num f v : 0 < v < 2 ^ 53 → represents f v → f = num_of_Z v.
Proof. intros Hv Hf. eapply represents_unique; [|done|]; [lia|by apply num_of_Z_represents]. Qed.

(** ** Exact operations *)
Lemma num_of_Z_0 : num_of_Z 0 = S754_zero false.
Proof. done. Qed.

Lemma safe_cases v : safe v → v = 0 ∨ represents (num_of_Z v) v ∧ 0 < v < 2 ^ 53.
Proof.
  unfold safe. intros Hv. destruct (decide (v = 0)) as [->|]; [by left|].
  right. split; [apply num_of_Z_represents|]; lia.
Qed.

Lemma num_mul_exact a b :
  safe a → safe b → a * b < 2 ^ 53 → num_mul (num_of_Z a) (num_of_Z b) = num_of_Z (a * b).
Proof.
  intros Ha Hb Hab.
  destruct (safe_cases a Ha) as [->|[(M1&k1&->&Hk1&E1&B1) Ha']].
  { rewrite Z.mul_0_l, num_of_Z_0.
    by destruct (safe_cases b Hb) as [->|[(M2&k2&->&_) _]]. }
  destruct (safe_cases b Hb) as [->|[(M2&k2&->&Hk2&E2&B2) Hb']]; [by rewrite Z.mul_0_r|].
  apply represents_num; [nia|]. cbn [num_mul SFmul xorb].
  replace (- k1 + - k2) with (- (k1 + k2)) by lia.
  assert (∃ d, 53 ≤ d ≤ 200 ∧ 2 ^ (d - 1) ≤ Zpos (M1 * M2) < 2 ^ d) as (d&Hd&Hm).
  { rewrite Pos2Z.inj_mul. destruct (Z.lt_ge_cases (Zpos M1 * Zpos M2) (2 ^ 105)).
    - exists 105. split; [lia|]. split; [|lia]. change (105 - 1) with 104. nia.
    - exists 106. split; [lia|]. split; [change (106 - 1) with 105; lia|]. nia. }
  apply (binary_round_aux_int _ _ _ d); [nia|lia|done|done|].
  rewrite Pos2Z.inj_mul, E1, E2, Z.pow_add_r by lia. lia.
Qed.

(** The sum of two aligned mantissas. *)
Lemma binary_normalize_int m k v :
  0 ≤ v < 2 ^ 53 → 0 ≤ k ≤ 100 → m = v * 2 ^ k → binary_normalize 53 1024 m (- k) false = num_of_Z v.
Proof.
  intros Hv Hk E. pose proof (Z.pow_pos_nonneg 2 k ltac:(lia) ltac:(lia)).
  destruct (decide (v = 0)) as [->|]; [by rewrite E|].
  destruct m as [|m|m]; [nia| |nia]. apply represents_num; [lia|].
  apply binary_round_int; [lia|done|done].
Qed.

Lemma num_add_signed (s : bool) a b :
  safe a → safe b → safe (if s then a - b else a + b) → 0 < a → 0 < b →
  SFadd 53 1024 (num_of_Z a) (if s then SFopp (num_of_Z b) else num_of_Z b)
  = num_of_Z (if s then a - b else a + b).
Proof.
  intros Ha Hb Hab Ha0 Hb0.
  destruct (safe_cases a Ha) as [->|[(M1&k1&->&Hk1&E1&B1) Ha']]; [lia|].
  destruct (safe_cases b Hb) as [->|[(M2&k2&->&Hk2&E2&B2) Hb']]; [lia|].
  assert ((if s then SFopp (S754_finite false M2 (- k2)) else S754_finite false M2 (- k2))
    = S754_finite s M2 (- k2)) as -> by (by destruct s).
  cbn [SFadd]. set (k := Z.max k1 k2).
  replace (Z.min (- k1) (- k2)) with (- k) by lia.
  destruct (shl_align_spec M1 (- k1) (- k)) as (m1&->&Em1); [lia|].
  destruct (shl_align_spec M2 (- k2) (- k)) as (m2&->&Em2); [lia|]. cbn [fst cond_Zopp].
  assert (∀ v j, 0 ≤ j ≤ k → v * 2 ^ j * 2 ^ (- j - - k) = v * 2 ^ k) as H.
  { intros v j Hj. rewrite <-Z.mul_assoc, <-Z.pow_add_r by lia. do 2 f_equal. lia. }
  rewrite E1, H in Em1 by lia. rewrite E2, H in Em2 by lia.
  apply binary_normalize_int; [exact Hab|lia|].
  destruct s; cbn [cond_Zopp]; rewrite ?Pos2Z.opp_pos; lia.
Qed.

Lemma num_add_exact a b :
  safe a → safe b → a + b < 2 ^ 53 → num_add (num_of_Z a) (num_of_Z b) = num_of_Z (a + b).
Proof.
  intros Ha Hb Hab. unfold num_add, safe in *.
  destruct (decide (a = 0)) as [->|].
  { rewrite num_of_Z_0. destruct (safe_cases b Hb) as [->|[(M2&k2&E&_) _]]; [done|].
    by rewrite Z.add_0_l, E. }
  destruct (decide (b = 0)) as [->|].
  { destruct (safe_cases a Ha) as [->|[(M2&k2&E&_) _]]; [done|]. by rewrite Z.add_0_r, E. }
  apply (num_add_signed false); unfold safe; lia.
Qed.

Lemma num_sub_exact a b :
  safe a → safe b → b ≤ a → num_sub (num_of_Z a) (num_of_Z b) = num_of_Z (a - b).
Proof.
  intros Ha Hb Hab. unfold num_sub, safe in *.
  assert (SFsub 53 1024 (num_of_Z a) (num_of_Z b)
    = SFadd 53 1024 (num_of_Z a) (SFopp (num_of_Z b))) as ->.
  { destruct (safe_cases a Ha) as [->|[(M1&k1&->&_) _]], (safe_cases b Hb) as [->|[(M2&k2&->&_) _]];
      reflexivity. }
  destruct (decide (b = 0)) as [->|].
  { rewrite Z.sub_0_r. destruct (safe_cases a Ha) as [->|[(M2&k2&E&_) _]]; [done|]. by rewrite E. }
  apply (num_add_signed true); unfold safe; lia.
Qed.

(** ** Comparisons *)
Lemma SFcompare_exact a b :
  safe a → safe b → SFcompare (num_of_Z a) (num_of_Z b) = Some (a ?= b).
Proof.
  assert (∀ M1 M2 k1 k2 a b, Zpos M1 = a * 2 ^ k1 → Zpos M2 = b * 2 ^ k2 → 0 < b →
    Zpos M1 < 2 ^ 53 → 2 ^ 52 ≤ Zpos M2 → 0 ≤ k2 < k1 → a < b) as Hlt.
  { intros M1 M2 k1 k2 a' b' E1 E2 Hb B1 B2 Hk.
    assert (2 ^ k1 = 2 ^ (k1 - k2) * 2 ^ k2) as Ek by (rewrite <-Z.pow_add_r by lia; f_equal; lia).
    assert (2 ^ 1 ≤ 2 ^ (k1 - k2)) by (apply Z.pow_le_mono_r; lia).
    pose proof (Z.pow_pos_nonneg 2 k2 ltac:(lia) ltac:(lia)).
    destruct (Z.lt_ge_cases a' b'); [done|]. nia. }
  intros Ha Hb.
  destruct (safe_cases a Ha) as [->|[(M1&k1&->&Hk1&E1&B1) Ha']],
    (safe_cases b Hb) as [->|[(M2&k2&->&Hk2&E2&B2) Hb']].
  - done.
  - cbn [SFcompare num_of_Z binary_normalize]. by rewrite (proj2 (Z.compare_lt_iff _ _)) by lia.
  - cbn [SFcompare num_of_Z binary_normalize].
    by rewrite (proj2 (Z.compare_gt_iff _ _)) by lia.
  - cbn [SFcompare]. f_equal. change (Pos.compare_cont Eq M1 M2) with (Zpos M1 ?= Zpos M2).
    destruct (Z.compare_spec (- k1) (- k2)) as [E|Hk|Hk].
    + assert (k1 = k2) as -> by lia. pose proof (Z.pow_pos_nonneg 2 k2 ltac:(lia) ltac:(lia)).
      rewrite E1, E2. symmetry. apply Zmult_compare_compat_r. lia.
    + symmetry. apply Z.compare_lt_iff. by eapply (Hlt M1 M2 k1 k2); try lia.
    + symmetry. apply Z.compare_gt_iff. by eapply (Hlt M2 M1 k2 k1); try lia.
Qed.

Lemma num_ltb_exact a b : safe a → safe b → num_ltb (num_of_Z a) (num_of_Z b) = (a <? b).
Proof.
  intros Ha Hb. unfold num_ltb, SFltb, Z.ltb. rewrite SFcompare_exact by done. by destruct (a ?= b).
Qed.

Lemma num_leb_exact a b : safe a → safe b → num_leb (num_of_Z a) (num_of_Z b) = (a <=? b).
Proof.
  intros Ha Hb. unfold num_leb, SFleb, Z.leb. rewrite SFcompare_exact by done. by destruct (a ?= b).
Qed.

(** ** [Math.floor(a / b)] *)
Lemma new_location_located q d r : 0 < d → 0 ≤ r < d → located q (new_location d r) (d * q + r) d.
Proof.
  intros Hd Hr. unfold new_location, new_location_even, new_location_odd.
  destruct (Z.even d) eqn:Ev; (destruct (Z.eqb_spec r 0) as [->|Hr0]; cbn [located]; [lia|]).
  - split; [nia|]. destruct (Z.compare_spec (2 * r) d);
      rewrite ?Z.compare_lt_iff, ?Z.compare_gt_iff, ?Z.compare_eq_iff; lia.
  - assert (2 * r ≠ d) as Hne.
    { intros <-. by rewrite Z.even_mul in Ev. }
    destruct (Z.compare_spec (2 * r + 1) d); split; try lia;
      rewrite ?Z.compare_lt_iff, ?Z.compare_gt_iff; lia.
Qed.

Lemma floor_Z_pos M e n : Zpos M * 2 ^ Z.max 0 e < (n + 1) * 2 ^ Z.max 0 (- e) →
  n * 2 ^ Z.max 0 (- e) ≤ Zpos M * 2 ^ Z.max 0 e → floor_Z (S754_finite false M e) = Some n.
Proof.
  intros H1 H2. cbn [floor_Z]. f_equal. destruct (Z.leb_spec 0 e) as [He|He].
  - rewrite (Z.max_r 0 e), (Z.max_l 0 (- e)), Z.mul_1_r in * by lia. lia.
  - rewrite (Z.max_l 0 e), (Z.max_r 0 (- e)), Z.mul_1_r in * by lia.
    symmetry. apply Z.div_unique with (Zpos M - n * 2 ^ (- e)); lia.
Qed.

Section floor_div.
Context (a b : Z) (M1 M2 : positive) (k1 k2 : Z).
Hypotheses (Ha : 0 < a) (Hb : 0 < b) (Hk1 : 0 ≤ k1 ≤ 52) (Hk2 : 0 ≤ k2 ≤ 52)
  (E1 : Zpos M1 = a * 2 ^ k1) (B1 : 2 ^ 52 ≤ Zpos M1 < 2 ^ 53)
  (E2 : Zpos M2 = b * 2 ^ k2) (B2 : 2 ^ 52 ≤ Zpos M2 < 2 ^ 53).

Lemma SFdiv_core_canonical :
  SFdiv_core_binary 53 1024 (Zpos M1) (- k1) (Zpos M2) (- k2)
  = (Zpos M1 * 2 ^ 53 / Zpos M2, k2 - k1 - 53, new_location (Zpos M2) ((Zpos M1 * 2 ^ 53) mod Zpos M2)).
Proof.
  unfold SFdiv_core_binary. rewrite (Zdigits2_unique (Zpos M1) 53), (Zdigits2_unique (Zpos M2) 53) by lia.
  assert (Z.min (fexp 53 1024 (53 + - k1 - (53 + - k2))) (- k1 - - k2) = k2 - k1 - 53) as ->
    by (unfold fexp, emin; lia).
  replace (- k1 - - k2 - (k2 - k1 - 53)) with 53 by lia.
  rewrite Z.shiftl_mul_pow2 by lia.
  unfold Z.div, Z.modulo. by destruct (Z.div_eucl (Zpos M1 * 2 ^ 53) (Zpos M2)).
Qed.

Lemma quotient_bounds j R : 0 ≤ j ≤ 1 →
  - (Zpos M2 * 2 ^ j) ≤ 2 * (R * (Zpos M2 * 2 ^ j) - Zpos M1 * 2 ^ 53) ≤ Zpos M2 * 2 ^ j →
  a / b * 2 ^ (53 + k1 - k2 - j) ≤ R < (a / b + 1) * 2 ^ (53 + k1 - k2 - j).
Proof.
  intros Hj Herr. set (P := 53 + k1 - k2 - j). assert (0 ≤ P) by lia.
  pose proof (Z.div_mod a b ltac:(lia)) as Hn. pose proof (Z.mod_pos_bound a b Hb) as Hr.
  set (n := a / b) in *. set (r := a mod b) in *.
  pose proof (Z.pow_pos_nonneg 2 k2 ltac:(lia) ltac:(lia)) as Hk.
  pose proof (Z.pow_pos_nonneg 2 j ltac:(lia) ltac:(lia)) as Hj'.
  pose proof (Z.pow_pos_nonneg 2 P ltac:(lia) ltac:(lia)) as HP.
  assert (Zpos M1 * 2 ^ 53 = a * 2 ^ P * (2 ^ k2 * 2 ^ j)) as EM.
  { rewrite E1, <-!Z.mul_assoc, <-!Z.pow_add_r by lia. do 2 f_equal. lia. }
  rewrite EM, E2 in Herr.
  assert (- b ≤ 2 * (R * b - a * 2 ^ P) ≤ b) as Hq.
  { assert (0 < 2 ^ k2 * 2 ^ j) by nia. set (w := 2 ^ k2 * 2 ^ j) in *.
    replace (b * 2 ^ k2 * 2 ^ j) with (b * w) in Herr by (unfold w; lia). nia. }
  assert (b < 2 * 2 ^ P) as HbP.
  { assert (2 ^ 53 ≤ 2 * 2 ^ P * 2 ^ k2); [|nia].
    rewrite <-Z.pow_succ_r, <-Z.pow_add_r by lia. apply Z.pow_le_mono_r; lia. }
  set (Q := 2 ^ P) in *. split; nia.
Qed.

(** The quotient is a canonical number, half a unit at most from the exact one. *)
Lemma quotient_error : ∃ M j c,
  num_div (S754_finite false M1 (- k1)) (S754_finite false M2 (- k2))
  = S754_finite false M (c - (53 + k1 - k2 - j))
  ∧ 2 ^ 52 ≤ Zpos M < 2 ^ 53 ∧ 0 ≤ c ≤ 1 ∧ 0 ≤ j ≤ 1
  ∧ - (Zpos M2 * 2 ^ j) ≤ 2 * (Zpos M * 2 ^ c * (Zpos M2 * 2 ^ j) - Zpos M1 * 2 ^ 53) ≤ Zpos M2 * 2 ^ j.
Proof.
  unfold num_div, SFdiv. rewrite SFdiv_core_canonical. cbn [xorb].
  set (m := Zpos M1 * 2 ^ 53 / Zpos M2).
  pose proof (Z.div_mod (Zpos M1 * 2 ^ 53) (Zpos M2) ltac:(lia)) as Hdm. fold m in Hdm.
  pose proof (Z.mod_pos_bound (Zpos M1 * 2 ^ 53) (Zpos M2) ltac:(lia)) as Hr.
  set (r := (Zpos M1 * 2 ^ 53) mod Zpos M2) in *.
  assert (2 ^ 52 ≤ m < 2 ^ 54) as Hm by nia.
  assert (∃ d, 53 ≤ d ≤ 54 ∧ 2 ^ (d - 1) ≤ m < 2 ^ d) as (d&Hd&Hmd).
  { destruct (Z.lt_ge_cases m (2 ^ 53)); [exists 53|exists 54]; lia. }
  destruct (binary_round_aux_spec false m (k2 - k1 - 53) (new_location (Zpos M2) r) d
    (Zpos M1 * 2 ^ 53) (Zpos M2)) as (M&c&R&->&HM&Hc&ER&Herr&_);
    [lia|rewrite Hdm; by apply new_location_located|lia..|].
  exists M, (d - 53), c. rewrite <- ER. split_and!; try done; try lia. f_equal. lia.
Qed.

(** It lies between the multiples of its unit that enclose the integer quotient. *)
Lemma quotient_form : ∃ M P c,
  num_div (S754_finite false M1 (- k1)) (S754_finite false M2 (- k2)) = S754_finite false M (c - P)
  ∧ 2 ^ 52 ≤ Zpos M < 2 ^ 53 ∧ 0 ≤ c ≤ 1 ∧ 0 ≤ P
  ∧ a / b * 2 ^ P ≤ Zpos M * 2 ^ c < (a / b + 1) * 2 ^ P.
Proof.
  destruct quotient_error as (M&j&c&->&HM&Hc&Hj&Herr).
  apply quotient_bounds in Herr as [Hlo Hhi]; [|lia..].
  exists M, (53 + k1 - k2 - j), c. split_and!; try done; lia.
Qed.

Lemma floor_quotient : floor_Z (num_div (S754_finite false M1 (- k1)) (S754_finite false M2 (- k2)))
  = Some (a / b).
Proof.
  destruct quotient_form as (M&P&c&->&HM&Hc&HP&Hlo&Hhi).
  destruct (decide (c = 0)) as [->|]; [|assert (c = 1) as -> by lia].
  - rewrite Z.pow_0_r, Z.mul_1_r in *. apply floor_Z_pos;
      replace (Z.max 0 (0 - P)) with 0 by lia; replace (Z.max 0 (- (0 - P))) with P by lia; lia.
  - rewrite Z.pow_1_r in *. destruct (decide (P = 0)) as [->|].
    + rewrite Z.pow_0_r in *. apply floor_Z_pos; change (Z.max 0 (1 - 0)) with 1;
        change (Z.max 0 (- (1 - 0))) with 0; lia.
    + replace P with (Z.succ (P - 1)) in Hlo, Hhi by lia. rewrite Z.pow_succ_r in Hlo, Hhi by lia.
      apply floor_Z_pos; replace (Z.max 0 (1 - P)) with 0 by lia;
        replace (Z.max 0 (- (1 - P))) with (P - 1) by lia; lia.
Qed.
End floor_div.

(** [Math.floor(a / b)] of safe integers is the integer quotient: the rounding of
    [a / b] never crosses an integer. *)
Lemma floor_div_exact a b :
  safe a → safe b → 0 < b → Math_floor (num_div (num_of_Z a) (num_of_Z b)) = num_of_Z (a / b).
Proof.
  intros Ha Hb Hb0. unfold Math_floor.
  destruct (safe_cases b Hb) as [->|[(M2&k2&->&Hk2&E2&B2) _]]; [lia|].
  destruct (safe_cases a Ha) as [->|[(M1&k1&->&Hk1&E1&B1) Ha']].
  - by rewrite Z.div_0_l by lia.
  - by rewrite (floor_quotient a b M1 M2 k1 k2) by (done || lia).
Qed.

Lemma num_to_Z_exact v : safe v → num_to_Z (num_of_Z v) = Some v.
Proof.
  intros Hv. destruct (safe_cases v Hv) as [->|[(M&k&->&Hk&E&B) _]]; [done|]. cbn [num_to_Z].
  pose proof (Z.pow_pos_nonneg 2 k ltac:(lia) ltac:(lia)).
  destruct (Z.leb_spec 0 (- k)) as [H0|H0].
  - assert (k = 0) as -> by lia. f_equal. cbn. lia.
  - rewrite Z.opp_involutive, E, Z.mod_mul, Z.div_mul by lia. done.
Qed.

Lemma floor_exact v : safe v → Math_floor (num_of_Z v) = num_of_Z v.
Proof.
  intros Hv. unfold Math_floor.
  destruct (safe_cases v Hv) as [->|[(M&k&E'&Hk&E&B) Hv']]; [done|]. rewrite E' at 1. cbn [floor_Z].
  pose proof (Z.pow_pos_nonneg 2 k ltac:(lia) ltac:(lia)).
  destruct (Z.leb_spec 0 (- k)) as [H0|H0].
  - assert (k = 0) as -> by lia. f_equal. cbn. lia.
  - rewrite Z.opp_involutive, E, Z.div_mul by lia. done.
Qed.

Lemma isInteger_exact v : safe v → isInteger (num_of_Z v) = true.
Proof. intros Hv. unfold isInteger. by rewrite num_to_Z_exact. Qed.

Lemma isNaN_num_of_Z v : safe v → isNaN (num_of_Z v) = false.
Proof. intros Hv. by destruct (safe_cases v Hv) as [->|[(M&k&->&_) _]]. Qed.

Lemma Math_min_exact a b : safe a → safe b → Math_min (num_of_Z a) (num_of_Z b) = num_of_Z (Z.min a b).
Proof.
  intros Ha Hb. unfold Math_min. rewrite !isNaN_num_of_Z, num_ltb_exact by done. cbn [orb].
  destruct (Z.ltb_spec b a); f_equal; lia.
Qed.

Lemma Math_max_exact a b : safe a → safe b → Math_max (num_of_Z a) (num_of_Z b) = num_of_Z (Z.max a b).
Proof.
  intros Ha Hb. unfold Math_max. rewrite !isNaN_num_of_Z, num_ltb_exact by done. cbn [orb].
  destruct (Z.ltb_spec a b); f_equal; lia.
Qed.

(** ** Quotients *)

(** [Math.ceil(x)]. *)
Definition ceil_Z (x : number) : option Z := Z.opp <$> floor_Z (num_opp x).

Lemma floor_Z_div a b :
  safe a → safe b → 0 < b → floor_Z (num_div (num_of_Z a) (num_of_Z b)) = Some (a / b).
Proof.
  intros Ha Hb Hb0. destruct (safe_cases b Hb) as [->|[(M2&k2&->&Hk2&E2&B2) _]]; [lia|].
  destruct (safe_cases a Ha) as [->|[(M1&k1&->&Hk1&E1&B1) Ha']].
  - by rewrite Z.div_0_l by lia.
  - by rewrite (floor_quotient a b M1 M2 k1 k2) by (done || lia).
Qed.

(** Canonical positive numbers are ordered as their values. *)
Lemma canonical_compare M1 e1 M2 e2 K :
  2 ^ 52 ≤ Zpos M1 < 2 ^ 53 → 2 ^ 52 ≤ Zpos M2 < 2 ^ 53 → 0 ≤ e1 + K → 0 ≤ e2 + K →
  SFcompare (S754_finite false M1 e1) (S754_finite false M2 e2)
  = Some (Zpos M1 * 2 ^ (e1 + K) ?= Zpos M2 * 2 ^ (e2 + K)).
Proof.
  intros B1 B2 H1 H2. cbn [SFcompare].
  assert (∀ M M' x y, 2 ^ 52 ≤ Zpos M' → Zpos M < 2 ^ 53 → 0 ≤ x → x < y →
    Zpos M * 2 ^ x < Zpos M' * 2 ^ y) as Hlt.
  { intros M M' x y HM' HM Hx Hxy. replace y with (Z.succ x + (y - Z.succ x)) by lia.
    rewrite Z.pow_add_r, Z.pow_succ_r by lia. pose proof (Z.pow_pos_nonneg 2 x ltac:(lia) Hx).
    pose proof (Z.pow_pos_nonneg 2 (y - Z.succ x) ltac:(lia) ltac:(lia)).
    set (X := 2 ^ x) in *. set (t := 2 ^ (y - Z.succ x)) in *.
    assert (Zpos M * X < Zpos M' * (2 * X)) by nia.
    assert (Zpos M' * (2 * X) * 1 ≤ Zpos M' * (2 * X) * t) by (apply Z.mul_le_mono_nonneg_l; lia). lia. }
  f_equal. destruct (Z.compare_spec e1 e2) as [->|Hc|Hc].
  - pose proof (Z.pow_pos_nonneg 2 (e2 + K) ltac:(lia) ltac:(lia)).
    change (Pos.compare_cont Eq M1 M2) with (Zpos M1 ?= Zpos M2).
    destruct (Z.compare_spec (Zpos M1) (Zpos M2)) as [->|H'|H']; symmetry.
    + by apply Z.compare_eq_iff.
    + apply Z.compare_lt_iff. nia.
    + apply Z.compare_gt_iff. nia.
  - symmetry. apply Z.compare_lt_iff, Hlt; lia.
  - symmetry. apply Z.compare_gt_iff, Hlt; lia.
Qed.

(** A quotient is at least an integer exactly when the integer quotient is. *)
Lemma leb_div_exact n a b :
  safe n → safe a → safe b → 0 < b → num_leb (num_of_Z n) (num_div (num_of_Z a) (num_of_Z b)) = (n <=? a / b).
Proof.
  intros Hn Ha Hb Hb0. destruct (safe_cases b Hb) as [->|[(M2&k2&->&Hk2&E2&B2) _]]; [lia|].
  destruct (safe_cases a Ha) as [->|[(M1&k1&->&Hk1&E1&B1) Ha']].
  - rewrite Z.div_0_l by lia. change (num_div _ _) with (num_of_Z 0). by apply num_leb_exact.
  - destruct (quotient_form a b M1 M2 k1 k2) as (M&P&c&->&HM&Hc&HP&Hlo&Hhi); [lia..|].
    assert (0 ≤ a / b) by (apply Z.div_pos; lia).
    destruct (safe_cases n Hn) as [->|[(M3&k3&->&Hk3&E3&B3) Hn']].
    { transitivity true; [done|symmetry; apply Z.leb_le; lia]. }
    unfold num_leb, SFleb. rewrite (canonical_compare _ _ _ _ (k3 + P)) by lia.
    replace (- k3 + (k3 + P)) with P by lia. replace (c - P + (k3 + P)) with (c + k3) by lia.
    rewrite E3, Z.pow_add_r by lia.
    pose proof (Z.pow_pos_nonneg 2 k3 ltac:(lia) ltac:(lia)).
    pose proof (Z.pow_pos_nonneg 2 P ltac:(lia) ltac:(lia)).
    set (V := Zpos M * 2 ^ c) in *. replace (Zpos M * (2 ^ c * 2 ^ k3)) with (V * 2 ^ k3) by (unfold V; lia).
    destruct (Z.leb_spec n (a / b)) as [Hle|Hgt].
    + assert (n * 2 ^ P ≤ V) by nia.
      destruct (Z.compare_spec (n * 2 ^ k3 * 2 ^ P) (V * 2 ^ k3)); [done|done|exfalso; nia].
    + assert ((a / b + 1) * 2 ^ P ≤ n * 2 ^ P) by (apply Z.mul_le_mono_nonneg_r; lia).
      rewrite (proj2 (Z.compare_gt_iff _ _)); [done|].
      replace (n * 2 ^ k3 * 2 ^ P) with (n * 2 ^ P * 2 ^ k3) by lia. apply Z.mul_lt_mono_pos_r; lia.
Qed.

(** ** Negation *)
Lemma binary_round_aux_opp m e l :
  binary_round_aux 53 1024 true m e l = num_opp (binary_round_aux 53 1024 false m e l).
Proof.
  unfold binary_round_aux. destruct (shr_fexp _ _ _ _ _) as [r e1]. destruct (shr_fexp _ _ _ _ _) as [r2 e2].
  destruct (shr_m r2); [done| |done]. by destruct (e2 <=? _).
Qed.

Lemma num_of_Z_opp p : num_of_Z (Zneg p) = num_opp (num_of_Z (Zpos p)).
Proof.
  unfold num_of_Z, binary_normalize, binary_round. destruct (shl_align _ _ _) as [m e].
  apply binary_round_aux_opp.
Qed.

Lemma num_div_opp m1 e1 m2 e2 :
  num_div (S754_finite true m1 e1) (S754_finite false m2 e2)
  = num_opp (num_div (S754_finite false m1 e1) (S754_finite false m2 e2)).
Proof.
  unfold num_div. cbn [SFdiv]. destruct (SFdiv_core_binary _ _ _ _ _ _) as [[q e] l].
  apply binary_round_aux_opp.
Qed.

Lemma num_opp_involutive x : num_opp (num_opp x) = x.
Proof. by destruct x as [[]|[]| |[] m e]. Qed.

Lemma binary_normalize_opp m e : m ≠ 0 →
  binary_normalize 53 1024 m e false = num_opp (binary_normalize 53 1024 (- m) e false).
Proof.
  assert (∀ p e, binary_round 53 1024 true p e = num_opp (binary_round 53 1024 false p e)) as H.
  { intros p e'. unfold binary_round. destruct (shl_align _ _ _). apply binary_round_aux_opp. }
  destruct m as [|p|p]; intros Hm; [done|..]; unfold binary_normalize.
  - change (- Zpos p) with (Zneg p). cbn beta iota. by rewrite H, num_opp_involutive.
  - change (- Zneg p) with (Zpos p). cbn beta iota. apply H.
Qed.

(** The difference that is less than 0. *)
Lemma num_sub_less a b : safe a → safe b → a < b → num_sub (num_of_Z a) (num_of_Z b) = num_opp (num_of_Z (b - a)).
Proof.
  intros Ha Hb Hab. rewrite <- num_sub_exact by (done || lia). pose proof (num_sub_exact b a Hb Ha ltac:(lia)) as E.
  destruct (safe_cases (b - a)) as [?|[(M&k&Ed&_) _]]; [unfold safe in *; lia|lia|]. rewrite Ed in E.
  destruct (safe_cases b Hb) as [->|[(M2&k2&E2&_) _]]; [unfold safe in *; lia|].
  destruct (safe_cases a Ha) as [->|[(M1&k1&E1&_) _]]; [by rewrite num_of_Z_0, E2|]. rewrite E1, E2 in *.
  unfold num_sub in *. cbn [SFsub] in *. rewrite (Z.min_comm (- k1)). set (e := Z.min (- k2) (- k1)) in *.
  cbn [cond_Zopp] in *. set (m1 := Zpos (shl_align M1 _ _).1) in *. set (m2 := Zpos (shl_align M2 _ _).1) in *.
  replace (m2 - m1) with (- (m1 - m2)) in * by lia. apply binary_normalize_opp. intros H0. by rewrite H0 in E.
Qed.

(** [Math.ceil(-a / b)]. *)
Lemma ceil_Z_div_neg a b :
  safe a → safe b → 0 < b → ceil_Z (num_div (num_of_Z (- a)) (num_of_Z b)) = Some (- (a / b)).
Proof.
  intros Ha Hb Hb0. unfold ceil_Z. destruct a as [|p|p]; [|change (- Z.pos p) with (Z.neg p)|unfold safe in Ha; lia].
  - change (- 0) with 0. destruct (safe_cases b Hb) as [->|[(M2&k2&->&_) _]]; [lia|].
    by rewrite Z.div_0_l by lia.
  - rewrite num_of_Z_opp. destruct (safe_cases b Hb) as [->|[(M2&k2&Eb&_) _]]; [lia|].
    destruct (safe_cases _ Ha) as [?|[(M1&k1&Ea&_) _]]; [lia|].
    assert (num_div (num_opp (num_of_Z (Zpos p))) (num_of_Z b)
      = num_opp (num_div (num_of_Z (Zpos p)) (num_of_Z b))) as ->.
    { rewrite Ea, Eb. apply num_div_opp. }
    by rewrite num_opp_involutive, floor_Z_div by done.
Qed.

(** [a / a]. *)
Lemma num_div_self a : safe a → 0 < a → num_div (num_of_Z a) (num_of_Z a) = num_of_Z 1.
Proof.
  intros Ha Ha0. destruct (safe_cases a Ha) as [->|[(M&k&->&Hk&E&B) _]]; [lia|].
  unfold num_div. cbn [SFdiv xorb].
  rewrite (SFdiv_core_canonical M M k k) by done.
  rewrite Z.mul_comm, Z.div_mul, Z.mod_mul by lia.
  replace (k - k - 53) with (- 53) by lia.
  assert (new_location (Zpos M) 0 = loc_Exact) as ->
    by (unfold new_location, new_location_even, new_location_odd; by destruct (Z.even _)).
  apply represents_num; [lia|]. apply (binary_round_aux_int _ 53 1 54); lia.
Qed.

(** ** Products

    The product of canonical numbers, half a unit at most from the exact one. *)
Lemma product_error M1 M2 e1 e2 :
  2 ^ 52 ≤ Zpos M1 < 2 ^ 53 → 2 ^ 52 ≤ Zpos M2 < 2 ^ 53 → -1074 ≤ e1 + e2 ≤ 800 →
  ∃ M j c, num_mul (S754_finite false M1 e1) (S754_finite false M2 e2) = S754_finite false M (e1 + e2 + j + c)
    ∧ 2 ^ 52 ≤ Zpos M < 2 ^ 53 ∧ 0 ≤ c ≤ 1 ∧ 52 ≤ j ≤ 53
    ∧ - 2 ^ j ≤ 2 * (Zpos M * 2 ^ c * 2 ^ j - Zpos M1 * Zpos M2) ≤ 2 ^ j.
Proof.
  intros H1 H2 He. unfold num_mul, SFmul. cbn [xorb].
  assert (2 ^ 104 ≤ Zpos (M1 * M2) < 2 ^ 106) as Hm by (rewrite Pos2Z.inj_mul; nia).
  assert (∃ d, 105 ≤ d ≤ 106 ∧ 2 ^ (d - 1) ≤ Zpos (M1 * M2) < 2 ^ d) as (d&Hd&Hmd).
  { destruct (Z.lt_ge_cases (Zpos (M1 * M2)) (2 ^ 105)); [exists 105|exists 106]; lia. }
  destruct (binary_round_aux_spec false (Zpos (M1 * M2)) (e1 + e2) loc_Exact d (Zpos (M1 * M2)) 1)
    as (M&c&R&->&HM&Hc&ER&Herr&_); [lia|cbn; lia|lia..|].
  exists M, (d - 53), c. rewrite <- ER. rewrite Z.mul_1_l in Herr. rewrite <- Pos2Z.inj_mul.
  split_and!; try done; lia.
Qed.

(** [Math.round] of a number less than a half from an integer. *)
Lemma round_near M e n :
  e < 0 → - 2 ^ (- e) < 2 * (Zpos M - n * 2 ^ (- e)) < 2 ^ (- e) →
  Math_round (S754_finite false M e) = num_of_Z n.
Proof.
  intros He Hn. unfold Math_round. destruct (Z.leb_spec 0 e); [lia|]. f_equal.
  pose proof (Z.pow_pos_nonneg 2 (- e) ltac:(lia) ltac:(lia)).
  replace (2 ^ (1 - e)) with (2 * 2 ^ (- e)) by (rewrite <- Z.pow_succ_r by lia; f_equal; lia).
  symmetry. apply (Z.div_unique _ _ _ (2 * Zpos M + 2 ^ (- e) - 2 * 2 ^ (- e) * n)); lia.
Qed.
