(* ===== verification/JsMap.v ===== *)
(** * JavaScript [Map]s with string keys

    A [Map] iterates over its keys in the order of their first insertion, which
    the services rely on; it is modelled as the list of its entries in that
    order. [jm_to_gmap] forgets the order, and the lemmas below show that the
    operations implement those of [gmap]. *)
From S2P Require Import Prelude.

Section jsmap.
Context {V : Type}.
Implicit Types (m : list (string * V)) (k : string) (v : V).

(** [m.get(k)]. *)
Fixpoint jm_get k m : option V :=
  match m with
  | [] => None
  | (k', v) :: m' => if String.eqb k k' then Some v else jm_get k m'
  end.

(** [m.has(k)]. *)
Definition jm_has k m : bool := match jm_get k m with Some _ => true | None => false end.

(** [m.set(k, v)]: a key already there keeps its place. *)
Fixpoint jm_set k v m : list (string * V) :=
  match m with
  | [] => [(k, v)]
  | (k', v') :: m' => if String.eqb k k' then (k', v) :: m' else (k', v') :: jm_set k v m'
  end.

(** [m.delete(k)]. *)
Definition jm_delete k m : list (string * V) := filter (λ kv, negb (String.eqb k kv.1)) m.

(** [m.keys()] and [m.values()], in iteration order. *)
Definition jm_keys m : list string := m.*1.
Definition jm_values m : list V := m.*2.

(** Every key is listed once. *)
Definition jm_wf m : Prop := NoDup (jm_keys m).

Definition jm_to_gmap m : gmap string V := list_to_map m.

Lemma jm_get_set_eq k v m : jm_get k (jm_set k v m) = Some v.
Proof.
  induction m as [|[k' v'] m IH]; simpl; [by rewrite String.eqb_refl|].
  destruct (String.eqb_spec k k'); simpl.
  - subst. by rewrite String.eqb_refl.
  - destruct (String.eqb_spec k k'); congruence.
Qed.

Lemma jm_get_set_ne k k' v m : k ≠ k' → jm_get k' (jm_set k v m) = jm_get k' m.
Proof.
  intros Hne. induction m as [|[k'' v''] m IH]; simpl.
  - destruct (String.eqb_spec k' k); congruence.
  - destruct (String.eqb_spec k k''); simpl; destruct (String.eqb_spec k' k''); congruence.
Qed.

Lemma jm_get_delete_eq k m : jm_get k (jm_delete k m) = None.
Proof.
  induction m as [|[k' v'] m IH]; [done|]. unfold jm_delete. rewrite filter_cons. simpl.
  destruct (String.eqb_spec k k') as [->|Hne]; simpl; [apply IH|].
  destruct (String.eqb_spec k k'); [congruence|apply IH].
Qed.

Lemma jm_get_delete_ne k k' m : k ≠ k' → jm_get k' (jm_delete k m) = jm_get k' m.
Proof.
  intros Hne. induction m as [|[k'' v'] m IH]; [done|]. unfold jm_delete. rewrite filter_cons. simpl.
  destruct (String.eqb_spec k k'') as [->|]; simpl.
  - destruct (String.eqb_spec k' k''); [congruence|apply IH].
  - destruct (String.eqb_spec k' k''); [done|apply IH].
Qed.

Lemma jm_get_Some_in k v m : jm_get k m = Some v → (k, v) ∈ m.
Proof.
  induction m as [|[k' v'] m IH]; simpl; [done|].
  destruct (String.eqb_spec k k'); intros; simplify_eq; [left|right; auto].
Qed.

Lemma jm_in_get k v m : jm_wf m → (k, v) ∈ m → jm_get k m = Some v.
Proof.
  unfold jm_wf, jm_keys. induction m as [|[k' v'] m IH]; simpl; [set_solver|].
  intros [Hk Hm]%NoDup_cons [?|?]%elem_of_cons; simplify_eq.
  - by rewrite String.eqb_refl.
  - destruct (String.eqb_spec k k') as [->|]; [|auto].
    exfalso. apply Hk, list_elem_of_fmap. by eexists (_, _).
Qed.

Lemma jm_get_None k m : jm_get k m = None ↔ k ∉ jm_keys m.
Proof.
  unfold jm_keys. induction m as [|[k' v'] m IH]; simpl; [set_solver|].
  destruct (String.eqb_spec k k'); set_solver.
Qed.

Lemma jm_keys_set k v m :
  jm_keys (jm_set k v m) = if jm_has k m then jm_keys m else jm_keys m ++ [k].
Proof.
  unfold jm_has, jm_keys. induction m as [|[k' v'] m IH]; simpl; [done|].
  destruct (String.eqb_spec k k'); csimpl; [done|]. rewrite IH. by case_match.
Qed.

Lemma jm_wf_empty : jm_wf [].
Proof. constructor. Qed.

Lemma jm_wf_set k v m : jm_wf m → jm_wf (jm_set k v m).
Proof.
  unfold jm_wf. rewrite jm_keys_set. unfold jm_has. destruct (jm_get k m) eqn:Hk; [done|].
  intros Hm. apply NoDup_app. split_and!; [done| |apply NoDup_singleton].
  apply jm_get_None in Hk. set_solver.
Qed.

Lemma jm_wf_delete k m : jm_wf m → jm_wf (jm_delete k m).
Proof.
  unfold jm_wf, jm_keys, jm_delete. induction m as [|[k' v'] m IH]; simpl; [done|].
  rewrite NoDup_cons, filter_cons. intros [Hk Hm]. case_decide; [|auto]. simpl.
  constructor; [|auto]. intros ([??]&->&[??]%list_elem_of_filter)%list_elem_of_fmap.
  apply Hk, list_elem_of_fmap. by eexists (_, _).
Qed.

(** The operations implement those of finite maps. *)
Lemma jm_get_to_gmap k m : jm_get k m = jm_to_gmap m !! k.
Proof.
  unfold jm_to_gmap. induction m as [|[k' v] m IH]; simpl; [done|].
  destruct (String.eqb_spec k k') as [->|].
  - by rewrite lookup_insert_eq.
  - by rewrite lookup_insert_ne.
Qed.

Lemma jm_set_to_gmap k v m : jm_to_gmap (jm_set k v m) = <[k:=v]> (jm_to_gmap m).
Proof.
  apply map_eq. intros k'. rewrite <-jm_get_to_gmap. destruct (decide (k = k')) as [->|].
  - by rewrite lookup_insert_eq, jm_get_set_eq.
  - by rewrite lookup_insert_ne, jm_get_set_ne, jm_get_to_gmap.
Qed.

Lemma jm_delete_to_gmap k m : jm_to_gmap (jm_delete k m) = delete k (jm_to_gmap m).
Proof.
  apply map_eq. intros k'. rewrite <-jm_get_to_gmap. destruct (decide (k = k')) as [->|].
  - by rewrite lookup_delete_eq, jm_get_delete_eq.
  - by rewrite lookup_delete_ne, jm_get_delete_ne, jm_get_to_gmap.
Qed.

(** ** Grouping

    [for (const x of l) m.set(key(x), upd(m.get(key(x)), x))] *)
Section group.
Context {X : Type} (key : X → string) (upd : option V → X → V).

Definition group_by (l : list X) : list (string * V) :=
  foldl (λ m x, jm_set (key x) (upd (jm_get (key x) m) x) m) [] l.

(** What one group accumulates. *)
Definition group_acc (l : list X) : option V := foldl (λ o x, Some (upd o x)) None l.

Lemma group_acc_snoc l x : group_acc (l ++ [x]) = Some (upd (group_acc l) x).
Proof. unfold group_acc. by rewrite foldl_app. Qed.

Lemma group_by_snoc l x :
  group_by (l ++ [x])
  = jm_set (key x) (upd (jm_get (key x) (group_by l)) x) (group_by l).
Proof. unfold group_by. by rewrite foldl_app. Qed.

(** Each key accumulates the elements that have it, in order. *)
Lemma jm_get_group_by k l :
  jm_get k (group_by l) = group_acc (filter (λ x, key x = k) l).
Proof.
  induction l as [|x l IH] using rev_ind; [done|].
  rewrite group_by_snoc, filter_app, filter_cons, filter_nil.
  destruct (decide (key x = k)) as [<-|Hne].
  - by rewrite jm_get_set_eq, group_acc_snoc, IH.
  - by rewrite jm_get_set_ne, app_nil_r.
Qed.

Lemma group_by_wf l : jm_wf (group_by l).
Proof.
  induction l as [|x l IH] using rev_ind; [constructor|].
  rewrite group_by_snoc. by apply jm_wf_set.
Qed.

End group.

End jsmap.

#[export] Hint Rewrite @jm_get_set_eq @jm_get_delete_eq : jsmap.
#[export] Hint Rewrite @jm_get_set_ne @jm_get_delete_ne using done : jsmap.
#[export] Hint Resolve jm_wf_empty jm_wf_set jm_wf_delete : astera.
