(* ===== verification/Hex.v ===== *)
(** * Bytes as text

    Hexadecimal, [b.toString(16).padStart(2, '0')] of each byte, joined: how the web
    app writes tickets and transaction hashes; and [encodeURIComponent]. *)
From S2P Require Import Prelude.
From S2P Require Import JsValue.
From Stdlib Require Import Ascii.
#[local] Open Scope string_scope.
#[local] Open Scope list_scope.

Definition hex_byte (b : nat) : string :=
  String (hex_digit (b / 16)) (String (hex_digit (b mod 16)) "").

Definition hex_bytes (bytes : list nat) : string := String.concat "" (map hex_byte bytes).

Lemma String_eq c s c' s' : String c s = String c' s' → c = c' ∧ s = s'.
Proof. by intros [= -> ->]. Qed.

Lemma hex_byte_inj a b : (a < 256)%nat → (b < 256)%nat → hex_byte a = hex_byte b → a = b.
Proof.
  intros Ha Hb. unfold hex_byte. intros [H1 [H2 _]%String_eq]%String_eq.
  assert (∀ x y, (x < 16)%nat → (y < 16)%nat → hex_digit x = hex_digit y → x = y) as Hinj.
  { intros x y Hx Hy. do 16 (destruct x as [|x]; [do 16 (destruct y as [|y]; [done|]); lia|]). lia. }
  apply Hinj in H1; [|apply Nat.Div0.div_lt_upper_bound; lia..].
  apply Hinj in H2; [|apply Nat.mod_upper_bound; lia..].
  rewrite (Nat.div_mod_eq a 16), (Nat.div_mod_eq b 16). congruence.
Qed.

Lemma hex_bytes_cons b bytes : hex_bytes (b :: bytes) = hex_byte b +:+ hex_bytes bytes.
Proof. unfold hex_bytes. destruct bytes as [|b' bytes]; [done|]. done. Qed.

Lemma hex_bytes_inj bytes bytes' :
  Forall (λ b, (b < 256)%nat) bytes → Forall (λ b, (b < 256)%nat) bytes' →
  hex_bytes bytes = hex_bytes bytes' → bytes = bytes'.
Proof.
  intros H. revert bytes'. induction H as [|b bytes Hb H IH]; intros [|b' bytes'] H' E;
    rewrite ?hex_bytes_cons in E; [done..|].
  apply Forall_cons in H' as [Hb' H']. unfold hex_byte in E. rewrite !append_cons, !append_empty in E.
  apply String_eq in E as [E1 [E2 E]%String_eq]. f_equal; [|by apply IH].
  apply hex_byte_inj; [done..|]. unfold hex_byte. by rewrite E1, E2.
Qed.

(** ** Percent-encoding *)

(** [encodeURIComponent(s)] of ASCII text. *)
Definition unreserved (c : ascii) : bool :=
  let n := nat_of_ascii c in
  (((65 <=? n) && (n <=? 90)) || ((97 <=? n) && (n <=? 122)) || ((48 <=? n) && (n <=? 57)))%nat
  || one_of ["-"; "_"; "."; "!"; "~"; "*"; "'"; "("; ")"] (String c "").

Definition upper_hex (n : nat) : ascii := ascii_upper (hex_digit n).

Fixpoint encodeURIComponent (s : string) : string :=
  match s with
  | EmptyString => EmptyString
  | String c s' =>
      if unreserved c then String c (encodeURIComponent s')
      else String "%" (String (upper_hex (nat_of_ascii c / 16))
             (String (upper_hex (nat_of_ascii c mod 16)) (encodeURIComponent s')))
  end.
