(* ===== verification/Parser.v ===== *)
(** * indexer/src/parser.ts: Horizon records to indexed events

    A Horizon record is read with static type [any]; the model types its scalar
    fields as Horizon sends them ([None] for an absent one) and keeps the three
    fields whose shape the parser inspects ([contract], [topic], [value]) as
    JavaScript values. *)
From S2P Require Import Prelude JsValue.
From Stdlib Require Import Ascii.
#[local] Open Scope string_scope.
#[local] Open Scope list_scope.
#[local] Open Scope Z_scope.

Inductive ContractType :=
| CT_invoice | CT_pool | CT_credit_score | CT_oracle_registry | CT_compliance | CT_tranche | CT_insurance
| CT_access_control | CT_arbitration | CT_governance | CT_referral | CT_share | CT_unknown.

#[export] Instance ContractType_eq_dec : EqDecision ContractType.
Proof. solve_decision. Defined.

(** The string the union type stands for, as stored in [events.contract_type]. *)
Definition contract_type_string (t : ContractType) : string :=
  match t with
  | CT_invoice => "invoice" | CT_pool => "pool" | CT_credit_score => "credit_score"
  | CT_oracle_registry => "oracle_registry" | CT_compliance => "compliance"
  | CT_tranche => "tranche" | CT_insurance => "insurance"
  | CT_access_control => "access_control" | CT_arbitration => "arbitration"
  | CT_governance => "governance" | CT_referral => "referral" | CT_share => "share"
  | CT_unknown => "unknown"
  end.

Record IndexedEvent := {
  ev_id : string;
  ev_contractId : jsval;
  ev_contractType : ContractType;
  ev_eventType : string;
  ev_topic : string * string;
  ev_value : jsval;
  ev_actor : option string;
  ev_ledgerSequence : Z;
  ev_ledgerCloseAt : string;
  ev_txHash : string;
  ev_createdAt : string;
}.

(** ** The configured contract ids: [(process.env.X || '').trim()] *)
Record ContractIds := {
  CREDIT_SCORE_CONTRACT_ID : string;
  INVOICE_CONTRACT_ID : string;
  POOL_CONTRACT_ID : string;
  SECONDARY_MARKET_CONTRACT_ID : string;
  ORACLE_REGISTRY_CONTRACT_ID : string;
  COMPLIANCE_CONTRACT_ID : string;
  TRANCHE_CONTRACT_ID : string;
  AUCTION_CONTRACT_ID : string;
  INSURANCE_CONTRACT_ID : string;
  ACCESS_CONTROL_CONTRACT_ID : string;
  ARBITRATION_CONTRACT_ID : string;
  GOVERNANCE_CONTRACT_ID : string;
  REFERRAL_CONTRACT_ID : string;
  SHARE_CONTRACT_ID : string;
}.

Definition contract_ids_of_env (env : string → option string) : ContractIds :=
  let get name := trim (default "" (env name)) in {|
    CREDIT_SCORE_CONTRACT_ID := get "CREDIT_SCORE_CONTRACT_ID";
    INVOICE_CONTRACT_ID := get "INVOICE_CONTRACT_ID";
    POOL_CONTRACT_ID := get "POOL_CONTRACT_ID";
    SECONDARY_MARKET_CONTRACT_ID := get "SECONDARY_MARKET_CONTRACT_ID";
    ORACLE_REGISTRY_CONTRACT_ID := get "ORACLE_REGISTRY_CONTRACT_ID";
    COMPLIANCE_CONTRACT_ID := get "COMPLIANCE_CONTRACT_ID";
    TRANCHE_CONTRACT_ID := get "TRANCHE_CONTRACT_ID";
    AUCTION_CONTRACT_ID := get "AUCTION_CONTRACT_ID";
    INSURANCE_CONTRACT_ID := get "INSURANCE_CONTRACT_ID";
    ACCESS_CONTROL_CONTRACT_ID := get "ACCESS_CONTROL_CONTRACT_ID";
    ARBITRATION_CONTRACT_ID := get "ARBITRATION_CONTRACT_ID";
    GOVERNANCE_CONTRACT_ID := get "GOVERNANCE_CONTRACT_ID";
    REFERRAL_CONTRACT_ID := get "REFERRAL_CONTRACT_ID";
    SHARE_CONTRACT_ID := get "SHARE_CONTRACT_ID" |}.

(** ** The event subtypes of each contract *)
Definition ORACLE_REGISTRY_EVENT_TYPES : list string :=
  ["registrd"; "dreg_req"; "dreg_done"; "slashed"; "rnd_open"; "voted"; "consensus";
   "rnd_exp"; "fallback"; "inv_set"; "cfg_upd"; "paused"; "unpaused"].
Definition SECONDARY_MARKET_EVENT_TYPES : list string :=
  ["lst_open"; "lst_cncl"; "lst_buy"; "ord_open"; "ord_cncl"; "ord_fill"; "ord_exp"].
Definition AUCTION_EVENT_TYPES : list string :=
  ["col_risk"; "col_safe"; "auc_liq"; "risk_cfg"; "sale_open"; "sale_take"; "sale_exp"].
Definition COMPLIANCE_EVENT_TYPES : list string :=
  ["screened"; "review"; "scr_prop"; "scr_reg"; "scr_del"; "scr_can"; "int_set"; "tl_set";
   "paused"; "unpaused"].
Definition TRANCHE_EVENT_TYPES : list string :=
  ["deposit"; "withdraw"; "fund"; "repay"; "default"; "config"].
Definition INSURANCE_EVENT_TYPES : list string :=
  ["init"; "cfg_set"; "mcr_set"; "funded"; "paused"; "unpaused"; "covered"; "claimed"; "min_rsv"].
Definition CREDIT_SCORE_EVENT_TYPES : list string :=
  ["payment"; "default"; "score_cfg"; "thresh"; "lt_upd"; "hist_upd"; "att_reg"; "att_deact";
   "att_sub"; "att_disp"; "att_res"].

(** [ID && contractId === ID] *)
Definition is_contract (configured : string) (contractId : jsval) : bool :=
  negb (String.eqb configured "")
  && match contractId with JStr s => String.eqb s configured | _ => false end.

Definition classifyContract (ids : ContractIds)
    (contractId : jsval) (contractType eventType : string) : ContractType :=
  if is_contract (CREDIT_SCORE_CONTRACT_ID ids) contractId then CT_credit_score
  else if is_contract (INVOICE_CONTRACT_ID ids) contractId then CT_invoice
  else if is_contract (POOL_CONTRACT_ID ids) contractId then CT_pool
  else if is_contract (SECONDARY_MARKET_CONTRACT_ID ids) contractId then CT_pool
  else if is_contract (ORACLE_REGISTRY_CONTRACT_ID ids) contractId then CT_oracle_registry
  else if is_contract (COMPLIANCE_CONTRACT_ID ids) contractId then CT_compliance
  else if is_contract (TRANCHE_CONTRACT_ID ids) contractId then CT_tranche
  else if is_contract (AUCTION_CONTRACT_ID ids) contractId then CT_pool
  else if is_contract (INSURANCE_CONTRACT_ID ids) contractId then CT_insurance
  else if is_contract (ACCESS_CONTROL_CONTRACT_ID ids) contractId then CT_access_control
  else if is_contract (ARBITRATION_CONTRACT_ID ids) contractId then CT_arbitration
  else if is_contract (GOVERNANCE_CONTRACT_ID ids) contractId then CT_governance
  else if is_contract (REFERRAL_CONTRACT_ID ids) contractId then CT_referral
  else if is_contract (SHARE_CONTRACT_ID ids) contractId then CT_share
  else if String.eqb contractType "CREDIT" || one_of CREDIT_SCORE_EVENT_TYPES eventType
    then CT_credit_score
  else if String.eqb contractType "ORACLE" || one_of ORACLE_REGISTRY_EVENT_TYPES eventType
    then CT_oracle_registry
  else if String.eqb contractType "COMPLY" || one_of COMPLIANCE_EVENT_TYPES eventType
    then CT_compliance
  else if String.eqb contractType "TRANCHE" || one_of TRANCHE_EVENT_TYPES eventType
    then CT_tranche
  else if String.eqb contractType "INSURNCE" || one_of INSURANCE_EVENT_TYPES eventType
    then CT_insurance
  else if String.eqb (toLowerCase contractType) "access_control" then CT_access_control
  else if String.eqb (toLowerCase contractType) "arbitration" then CT_arbitration
  else if String.eqb (toLowerCase contractType) "governance" then CT_governance
  else if String.eqb (toLowerCase contractType) "referral" then CT_referral
  else if String.eqb (toLowerCase contractType) "share" then CT_share
  else if String.eqb contractType "invoice" then CT_invoice
  else if String.eqb contractType "pool" then CT_pool
  else if one_of SECONDARY_MARKET_EVENT_TYPES eventType then CT_pool
  else if String.eqb contractType "auction" || one_of AUCTION_EVENT_TYPES eventType then CT_pool
  else CT_unknown.

(** ** Records *)
Record HorizonRecord := {
  r_type : string;
  r_id : option string;
  r_paging_token : option string;
  r_contract : jsval;
  r_topic : jsval;
  r_value : jsval;
  r_ledger_sequence : option Z;
  r_created_at : option string;
  r_transaction_hash : option string;
}.

(** [s || d] on an optional string field. *)
Definition str_or (s : option string) (d : string) : string :=
  match s with Some s => if String.eqb s "" then d else s | None => d end.

Definition parseTopic (record : HorizonRecord) : option (string * string) :=
  let topic := js_or (r_topic record) (get_prop_opt (get_first_opt (r_contract record)) "topic") in
  match topic with
  | JArr [] => None
  | JArr [t0] => Some (js_String t0, "generic")
  | JArr (t0 :: t1 :: _) => Some (js_String t0, js_String t1)
  | _ => None
  end.

Definition parseValue (record : HorizonRecord) : jsval :=
  js_coalesce (r_value record)
    (js_coalesce (get_prop_opt (get_first_opt (r_contract record)) "value") JNull).

(** [/^(G[A-Z2-7]{55}|C[A-Z2-7]{55})$/] *)
Definition base32_char (c : ascii) : bool :=
  let n := Ascii.nat_of_ascii c in
  (((65 <=? n) && (n <=? 90)) || ((50 <=? n) && (n <=? 55)))%nat.

Definition stellar_address (s : string) : bool :=
  match s with
  | String c s' =>
      (Ascii.eqb c "G" || Ascii.eqb c "C")
      && (String.length s' =? 55)%nat && str_forallb base32_char s'
  | EmptyString => false
  end.

(** [isStellarAddress(v) ? v : null] *)
Definition isStellarAddress (v : jsval) : option string :=
  match v with
  | JStr s => if stellar_address s then Some s else None
  | _ => None
  end.

(** The first Stellar address of a list of candidates. *)
Definition first_address (l : list jsval) : option string := head (omap isStellarAddress l).

(** [if (isStellarAddress(value[i])) return value[i]; break;]: [Some] is the
    returned actor, [None] falls out of the [switch]. *)
Definition return_address_at (l : list jsval) (i : nat) : option (option string) :=
  match isStellarAddress (arr_get l i) with
  | Some a => Some (Some a)
  | None => None
  end.

(** Two such positions in turn. *)
Definition return_address_at2 (l : list jsval) (i j : nat) : option (option string) :=
  match return_address_at l i with Some r => Some r | None => return_address_at l j end.

(** The [if]-[else if] chain over the contract topics, each with its [switch]. *)
Definition actor_by_schema (contractType eventType : string) (l : list jsval)
    : option (option string) :=
  if String.eqb contractType "POOL" then
    if one_of ["deposit"; "withdraw"; "repaid"; "part_pay"; "yld_claim"; "wd_full"; "wd_queue";
               "wd_cncl"] eventType then return_address_at l 0
    else if one_of ["col_dep"; "col_topup"; "col_liq"] eventType then return_address_at l 1
    else if one_of ["set_risk"] eventType then return_address_at l 0
    else if one_of ["lst_open"; "lst_cncl"] eventType then return_address_at l 2
    else if one_of ["lst_buy"] eventType then return_address_at l 3
    else None
  else if String.eqb contractType "auction" then
    if one_of ["sale_open"; "sale_take"; "sale_exp"; "auc_liq"] eventType
      then return_address_at l 1
    else if one_of ["risk_cfg"] eventType then return_address_at l 0
    else if one_of ["col_risk"; "col_safe"] eventType then Some None
    else None
  else if String.eqb contractType "market" then
    if one_of ["ord_open"; "ord_cncl"; "ord_exp"] eventType then return_address_at l 2
    else if one_of ["ord_fill"] eventType then return_address_at l 3
    else None
  else if String.eqb contractType "INVOICE" then
    if one_of ["created"] eventType then return_address_at2 l 1 0
    else if one_of ["funded"; "paid"; "cancelled"; "resolved"] eventType
      then return_address_at2 l 1 0
    else if one_of ["paused"; "unpaused"] eventType then return_address_at l 0
    else None
  else if String.eqb contractType "CREDIT" then
    if one_of ["payment"; "default"] eventType then return_address_at l 0 else None
  else if String.eqb contractType "INSURNCE" then
    if one_of ["covered"] eventType then return_address_at l 1
    else if one_of ["funded"; "mcr_set"; "min_rsv"] eventType then return_address_at l 0
    else if one_of ["claimed"] eventType then Some None
    else None
  else None.

(** Tranche events: a typed position, or no actor. *)
Definition actor_of_tranche (contractType eventType : string) (l : list jsval)
    : option (option string) :=
  if String.eqb contractType "TRANCHE" then
    if one_of ["deposit"; "withdraw"; "fund"; "repay"; "default"; "config"] eventType
      then Some (isStellarAddress (arr_get l 0))
    else None
  else None.

Definition actor_of_array (contractType eventType : string) (l : list jsval) : option string :=
  match actor_by_schema contractType eventType l with
  | Some r => r
  | None =>
      match actor_of_tranche contractType eventType l with
      | Some r => r
      | None => first_address l
      end
  end.

Definition actor_of_object (o : list (string * jsval)) : option string :=
  let candidates :=
    map (obj_get o) ["actor"; "owner"; "caller"; "investor"; "sme"; "user"; "sender"; "screener"] in
  match first_address candidates with
  | Some a => Some a
  | None => first_address (o.*2)
  end.

Definition extractActor (contractType eventType : string) (value : jsval) : option string :=
  if negb (truthy value) then None
  else match isStellarAddress value with
  | Some a => Some a
  | None =>
      match value with
      | JObj o => actor_of_object o
      | JArr [] => None
      | JArr l => actor_of_array contractType eventType l
      | _ => None
      end
  end.

(** One turn of the loop of [parseEvents]: [None] for a skipped record. [now]
    is [new Date().toISOString()]. *)
Definition parse_record (ids : ContractIds) (now : string) (record : HorizonRecord)
    : option IndexedEvent :=
  if negb (String.eqb (r_type record) "contract") then None
  else match parseTopic record with
  | None => None
  | Some (contractType, eventType) =>
      let contractId := js_or (r_contract record) (JStr "") in
      let value := parseValue record in
      Some {|
        ev_id := str_or (r_id record)
          (match r_paging_token record with Some t => t | None => "undefined" end);
        ev_contractId := contractId;
        ev_contractType := classifyContract ids contractId contractType eventType;
        ev_eventType := str_or (Some eventType) "unknown";
        ev_topic := (contractType, eventType);
        ev_value := value;
        ev_actor := extractActor contractType eventType value;
        ev_ledgerSequence := default 0 (r_ledger_sequence record);
        ev_ledgerCloseAt := str_or (r_created_at record) now;
        ev_txHash := str_or (r_transaction_hash record) "";
        ev_createdAt := now |}
  end.

Definition parseEvents (ids : ContractIds) (now : string) (records : list HorizonRecord)
    : list IndexedEvent :=
  omap (parse_record ids now) records.

(** ** Address extraction *)

(** [a] is [v] itself, an element of the array [v] or the value of an own
    property of the object [v]. *)
Definition occurs (a : string) (v : jsval) : Prop :=
  match v with
  | JArr l => JStr a ∈ l
  | JObj o => ∃ k, (k, JStr a) ∈ o
  | _ => v = JStr a
  end.

(** Events whose payload carries no actor: auction keeper events and insurance
    claims, and the tranche events whose first component is no address. *)
Definition actorless (contractType eventType : string) (l : list jsval) : Prop :=
  (contractType = "auction" ∧ eventType ∈ ["col_risk"; "col_safe"])
  ∨ (contractType = "INSURNCE" ∧ eventType = "claimed")
  ∨ (contractType = "TRANCHE"
     ∧ eventType ∈ ["deposit"; "withdraw"; "fund"; "repay"; "default"; "config"]
     ∧ isStellarAddress (arr_get l 0) = None).

Lemma one_of_spec l s : one_of l s = true ↔ s ∈ l.
Proof.
  unfold one_of. rewrite existsb_exists. setoid_rewrite <-list_elem_of_In.
  setoid_rewrite String.eqb_eq. naive_solver.
Qed.

Lemma isStellarAddress_Some v a :
  isStellarAddress v = Some a ↔ v = JStr a ∧ stellar_address a = true.
Proof.
  destruct v as [| | | | |s| |]; simpl; try (by split; [|intros [??]]).
  destruct (stellar_address s) eqn:E; split; try done.
  - by intros [= <-].
  - by intros [[= <-] _].
  - intros [[= ->] ?]. congruence.
Qed.

Lemma first_address_Some l a :
  first_address l = Some a → JStr a ∈ l ∧ stellar_address a = true.
Proof.
  unfold first_address. intros H%head_Some_elem_of.
  apply list_elem_of_omap in H as (v&Hv&[-> ?]%isStellarAddress_Some). done.
Qed.

Lemma first_address_None l :
  first_address l = None ↔ ∀ a, JStr a ∈ l → stellar_address a = false.
Proof.
  unfold first_address. split.
  - intros H%head_None a Ha. destruct (stellar_address a) eqn:E; [|done].
    assert (a ∈ omap isStellarAddress l) as Hin; [|by rewrite H, elem_of_nil in Hin].
    apply list_elem_of_omap. exists (JStr a). by rewrite isStellarAddress_Some.
  - intros H. destruct (head _) as [a|] eqn:E; [|done].
    apply head_Some_elem_of, list_elem_of_omap in E as (v&Hv&[-> Ha]%isStellarAddress_Some).
    apply H in Hv. congruence.
Qed.

Lemma arr_get_elem l i a : arr_get l i = JStr a → JStr a ∈ l.
Proof.
  unfold arr_get. destruct (l !! i) eqn:E; simpl; [|done]. intros ->.
  by eapply list_elem_of_lookup_2.
Qed.

Lemma obj_get_elem o k a : obj_get o k = JStr a → (k, JStr a) ∈ o.
Proof.
  induction o as [|[k' v] o IH]; simpl; [done|].
  destruct (String.eqb_spec k k') as [->|]; [intros ->; left|right; auto].
Qed.

Lemma return_address_at_Some l i r :
  return_address_at l i = Some r → ∃ a, r = Some a ∧ JStr a ∈ l ∧ stellar_address a = true.
Proof.
  unfold return_address_at. case_match eqn:E; [|done]. intros [= <-].
  apply isStellarAddress_Some in E as [E ?]. eauto using arr_get_elem.
Qed.

Lemma return_address_at2_Some l i j r :
  return_address_at2 l i j = Some r → ∃ a, r = Some a ∧ JStr a ∈ l ∧ stellar_address a = true.
Proof.
  unfold return_address_at2. case_match eqn:E; intros; simplify_eq; eauto using return_address_at_Some.
Qed.

(** The schema [switch] returns an address of the tuple, or gives up on one of
    the actorless events. *)
Lemma actor_by_schema_Some ct et l r :
  actor_by_schema ct et l = Some r →
  (r = None ∧ actorless ct et l) ∨ ∃ a, r = Some a ∧ JStr a ∈ l ∧ stellar_address a = true.
Proof.
  unfold actor_by_schema, actorless. intros H.
  repeat case_match; simplify_eq; bool_props; subst;
    eauto using return_address_at_Some, return_address_at2_Some;
    left; rewrite one_of_spec in *; split; set_solver.
Qed.

Lemma actor_of_tranche_Some ct et l r :
  actor_of_tranche ct et l = Some r →
  (r = None ∧ actorless ct et l) ∨ ∃ a, r = Some a ∧ JStr a ∈ l ∧ stellar_address a = true.
Proof.
  unfold actor_of_tranche, actorless. intros H. repeat case_match; simplify_eq; bool_props; subst.
  rewrite one_of_spec in *. destruct (isStellarAddress (arr_get l 0)) as [a|] eqn:E.
  - apply isStellarAddress_Some in E as [E ?]. right. eauto using arr_get_elem.
  - left. split; [done|]. auto.
Qed.

Lemma actor_of_array_spec ct et l :
  match actor_of_array ct et l with
  | Some a => JStr a ∈ l ∧ stellar_address a = true
  | None => actorless ct et l ∨ ∀ a, JStr a ∈ l → stellar_address a = false
  end.
Proof.
  unfold actor_of_array.
  destruct (actor_by_schema ct et l) as [r|] eqn:E1.
  { apply actor_by_schema_Some in E1 as [[-> ?]|(a&->&?&?)]; eauto. }
  destruct (actor_of_tranche ct et l) as [r|] eqn:E2.
  { apply actor_of_tranche_Some in E2 as [[-> ?]|(a&->&?&?)]; eauto. }
  destruct (first_address l) eqn:E3; [by apply first_address_Some|].
  right. by apply first_address_None.
Qed.

(** An actorless event has no actor, whatever addresses its payload holds. *)
Lemma actor_of_array_actorless ct et l : actorless ct et l → actor_of_array ct et l = None.
Proof.
  unfold actorless, actor_of_array, actor_by_schema, actor_of_tranche.
  intros [[-> Het]|[[-> ->]|(->&Het&Hl)]]; [|done|].
  - rewrite !elem_of_cons, elem_of_nil in Het. by destruct Het as [->|[->|[]]].
  - apply one_of_spec in Het. cbn -[one_of]. by rewrite Het, Hl.
Qed.

Lemma actor_of_object_spec o :
  match actor_of_object o with
  | Some a => (∃ k, (k, JStr a) ∈ o) ∧ stellar_address a = true
  | None => ∀ k a, (k, JStr a) ∈ o → stellar_address a = false
  end.
Proof.
  unfold actor_of_object. destruct (first_address _) as [a|] eqn:E1.
  { apply first_address_Some in E1 as [(k&Hk%eq_sym&_)%list_elem_of_fmap ?].
    eauto using obj_get_elem. }
  destruct (first_address o.*2) as [a|] eqn:E2.
  - apply first_address_Some in E2 as [([k v]&->&?)%list_elem_of_fmap ?]. eauto.
  - intros k a Ha. apply (proj1 (first_address_None _) E2).
    apply list_elem_of_fmap. by exists (k, JStr a).
Qed.

(** ** Classification *)

(** The configured ids and the category of the contract each one names, in the
    order [classifyContract] tries them. *)
Definition id_table (ids : ContractIds) : list (string * ContractType) := [
  (CREDIT_SCORE_CONTRACT_ID ids, CT_credit_score);
  (INVOICE_CONTRACT_ID ids, CT_invoice);
  (POOL_CONTRACT_ID ids, CT_pool);
  (SECONDARY_MARKET_CONTRACT_ID ids, CT_pool);
  (ORACLE_REGISTRY_CONTRACT_ID ids, CT_oracle_registry);
  (COMPLIANCE_CONTRACT_ID ids, CT_compliance);
  (TRANCHE_CONTRACT_ID ids, CT_tranche);
  (AUCTION_CONTRACT_ID ids, CT_pool);
  (INSURANCE_CONTRACT_ID ids, CT_insurance);
  (ACCESS_CONTROL_CONTRACT_ID ids, CT_access_control);
  (ARBITRATION_CONTRACT_ID ids, CT_arbitration);
  (GOVERNANCE_CONTRACT_ID ids, CT_governance);
  (REFERRAL_CONTRACT_ID ids, CT_referral);
  (SHARE_CONTRACT_ID ids, CT_share)].

(** The topic-based classification, for a contract that matches no id. *)
Definition classify_by_topic : string → string → ContractType :=
  classifyContract (contract_ids_of_env (λ _, None)) (JStr "").

Fixpoint classify_by_table (tbl : list (string * ContractType)) (cid : jsval) (d : ContractType)
    : ContractType :=
  match tbl with
  | [] => d
  | (i, t) :: tbl' => if is_contract i cid then t else classify_by_table tbl' cid d
  end.

Lemma classifyContract_table ids cid ct et :
  classifyContract ids cid ct et = classify_by_table (id_table ids) cid (classify_by_topic ct et).
Proof. reflexivity. Qed.

Lemma is_contract_spec i cid : is_contract i cid = true ↔ i ≠ "" ∧ cid = JStr i.
Proof.
  unfold is_contract. rewrite andb_true_iff, negb_true_iff, String.eqb_neq.
  destruct cid; try (split; [by intros [??]|by intros [??]]).
  rewrite String.eqb_eq. split; intros [??]; split; congruence.
Qed.

Lemma classify_by_table_in tbl i t d :
  NoDup (filter (λ x, x ≠ "") tbl.*1) → (i, t) ∈ tbl → i ≠ "" →
  classify_by_table tbl (JStr i) d = t.
Proof.
  induction tbl as [|[i' t'] tbl IH]; simpl; [set_solver|].
  intros Hnd Hin Hi. destruct (is_contract i' (JStr i)) eqn:E.
  - apply is_contract_spec in E as [? [= <-]].
    apply elem_of_cons in Hin as [[= ->]|Hin]; [done|]. exfalso.
    rewrite filter_cons_True in Hnd by done. apply NoDup_cons in Hnd as [Hnotin _].
    apply Hnotin, list_elem_of_filter. split; [done|]. apply list_elem_of_fmap. by exists (i, t).
  - apply elem_of_cons in Hin as [[= -> ->]|Hin].
    + assert (is_contract i' (JStr i') = true) by (by apply is_contract_spec). congruence.
    + apply IH; [|done..]. rewrite filter_cons in Hnd. case_decide; [|done].
      by apply NoDup_cons in Hnd as [_ ?].
Qed.

(** Event types that [classifyContract] claims for another contract before it
    looks at an [invoice] or [pool] topic. *)
Definition claimed_event_types : list string :=
  CREDIT_SCORE_EVENT_TYPES ++ ORACLE_REGISTRY_EVENT_TYPES ++ COMPLIANCE_EVENT_TYPES
  ++ TRANCHE_EVENT_TYPES ++ INSURANCE_EVENT_TYPES.

Lemma one_of_app l l' s : one_of (l ++ l') s = one_of l s || one_of l' s.
Proof. apply existsb_app. Qed.

(** What [extractActor] returns is a Stellar address (56 characters, [G] or
    [C] then base32) that occurs in the event's value: no actor is invented. *)
Theorem extractActor_sound ct et v a :
  extractActor ct et v = Some a → stellar_address a = true ∧ occurs a v.
Proof.
  unfold extractActor. destruct (negb _); [done|]. destruct (isStellarAddress v) eqn:Ev.
  { intros [= ->]. apply isStellarAddress_Some in Ev as [-> ?]. done. }
  destruct v as [| | | | | |l|o]; try done.
  - destruct l as [|x l]; [done|]. intros H.
    pose proof (actor_of_array_spec ct et (x :: l)) as Hs. rewrite H in Hs. naive_solver.
  - intros H. pose proof (actor_of_object_spec o) as Hs. rewrite H in Hs. naive_solver.
Qed.

Lemma extractActor_sound_witness :
  extractActor "POOL" "deposit"
    (JArr [JStr "GBRPYHIL2CI3FNQ4BXLFMNDLFJUNPU2HY3ZMFXYCZTM6WPIXY6OROLET"; JStr "1000"])
    = Some "GBRPYHIL2CI3FNQ4BXLFMNDLFJUNPU2HY3ZMFXYCZTM6WPIXY6OROLET"
  ∧ stellar_address "GBRPYHIL2CI3FNQ4BXLFMNDLFJUNPU2HY3ZMFXYCZTM6WPIXY6OROLET" = true.
Proof.
  split; [reflexivity|].
  apply (extractActor_sound "POOL" "deposit"
    (JArr [JStr "GBRPYHIL2CI3FNQ4BXLFMNDLFJUNPU2HY3ZMFXYCZTM6WPIXY6OROLET"; JStr "1000"])).
  reflexivity.
Defined.

(** [extractActor] misses nothing: it returns no actor for an object exactly
    when no own property is an address, and for a tuple exactly when the event
    is an actorless one or no component is an address. *)
Theorem extractActor_complete ct et v :
  extractActor ct et v = None ↔
  match v with
  | JArr l => actorless ct et l ∨ ∀ a, JStr a ∈ l → stellar_address a = false
  | JObj o => ∀ k a, (k, JStr a) ∈ o → stellar_address a = false
  | JStr s => stellar_address s = false
  | _ => True
  end.
Proof.
  unfold extractActor. destruct v as [| |b|n|n|s|l|o]; simpl;
    try (by split); try (destruct b; by split); try (destruct (Z.eqb n 0); by split).
  - destruct (String.eqb_spec s "") as [->|]; simpl; [done|].
    by destruct (stellar_address s).
  - destruct l as [|x l].
    { split; [|done]. intros _. right. intros a []%elem_of_nil. }
    pose proof (actor_of_array_spec ct et (x :: l)) as Hs. split.
    + intros H. by rewrite H in Hs.
    + intros [H|H]; [by apply actor_of_array_actorless|].
      destruct (actor_of_array _ _ _) as [a|]; [|done]. destruct Hs as [Ha%H ?]. congruence.
  - pose proof (actor_of_object_spec o) as Hs. split.
    + intros H. by rewrite H in Hs.
    + intros H. destruct (actor_of_object o) as [a|]; [|done].
      destruct Hs as [[k Ha%H] ?]. congruence.
Qed.

(** Once the configured contract ids are pairwise distinct, an event of a
    configured contract gets that contract's category, whatever its topics. *)
Theorem classifyContract_by_id ids i t ct et :
  NoDup (filter (λ x, x ≠ "") (id_table ids).*1) → (i, t) ∈ id_table ids → i ≠ "" →
  classifyContract ids (JStr i) ct et = t.
Proof. intros. rewrite classifyContract_table. by apply classify_by_table_in. Qed.

Definition demo_env (name : string) : option string :=
  if String.eqb name "POOL_CONTRACT_ID" then Some " CPOOL "
  else if String.eqb name "INVOICE_CONTRACT_ID" then Some "CINVOICE" else None.

Lemma classifyContract_by_id_witness :
  classifyContract (contract_ids_of_env demo_env) (JStr "CPOOL") "pool" "deposit" = CT_pool.
Proof.
  apply (classifyContract_by_id (contract_ids_of_env demo_env)).
  - vm_compute. repeat constructor; set_solver.
  - vm_compute. set_solver.
  - done.
Defined.

(** For a contract no configured id names, a [pool] or [invoice] topic gives
    its own category only when the event type is not one of those another
    contract claims first: a pool [deposit] is filed under [tranche], a funded
    invoice under [insurance] and a defaulted one under [credit_score]. *)
Theorem classify_by_topic_shadowed et :
  (classify_by_topic "pool" et = CT_pool ↔ et ∉ claimed_event_types)
  ∧ (classify_by_topic "invoice" et = CT_invoice ↔ et ∉ claimed_event_types)
  ∧ classify_by_topic "pool" "deposit" = CT_tranche
  ∧ classify_by_topic "invoice" "funded" = CT_insurance
  ∧ classify_by_topic "invoice" "default" = CT_credit_score.
Proof.
  assert (∀ P, (P ↔ et ∉ claimed_event_types) ↔ (P ↔ one_of claimed_event_types et = false)) as Hiff.
  { intros P. rewrite <-one_of_spec. destruct (one_of claimed_event_types et); naive_solver. }
  rewrite !Hiff. unfold claimed_event_types. rewrite !one_of_app.
  unfold classify_by_topic, classifyContract. cbn -[one_of].
  destruct (one_of CREDIT_SCORE_EVENT_TYPES et), (one_of ORACLE_REGISTRY_EVENT_TYPES et),
    (one_of COMPLIANCE_EVENT_TYPES et), (one_of TRANCHE_EVENT_TYPES et),
    (one_of INSURANCE_EVENT_TYPES et); split_and!; done.
Qed.
