(* ===== verification/Database.v ===== *)
(** * The indexer's Postgres database

    The tables of indexer/migrations/, and what the SQL statements of the
    indexer rely on Postgres and node-pg for ([Postgres]): the text form of a
    parameter, the value a [jsonb] column gives back, and the order of rows an
    [ORDER BY] leaves open. *)
From S2P Require Import Prelude JsValue JsMap Parser.
#[local] Open Scope string_scope.
#[local] Open Scope list_scope.
#[local] Open Scope Z_scope.

(** A row of [events]. *)
Record EventRow := {
  row_id : string;
  row_contract_id : string;
  row_contract_type : ContractType;
  row_event_type : string;
  row_topic : string * string;
  row_value : jsval;
  row_actor_address : option string;
  row_ledger_sequence : Z;
  row_ledger_close_at : string;
  row_tx_hash : string;
  row_created_at : string;
}.

(** A row of [ledger_hashes], keyed by the ledger sequence. *)
Record LedgerHashRow := {
  lh_hash : string;
  lh_prev_hash : string;
}.

(** A row of [reorg_log]. *)
Record ReorgLogRow := {
  rl_reorg_ledger : Z;
  rl_rolled_back_from : Z;
  rl_events_removed : Z;
  rl_detail : string;
}.

Inductive TrancheClass := Senior | Junior.

#[export] Instance TrancheClass_eq_dec : EqDecision TrancheClass.
Proof. solve_decision. Defined.

(** A row of [tranche_apy], keyed by the token and the class; [NUMERIC] columns
    hold the decimal string they were given. *)
Record TrancheApyDbRow := {
  ta_token : string;
  ta_tranche_class : TrancheClass;
  ta_realized_principal : string;
  ta_realized_return : string;
  ta_closed_positions : Z;
  ta_realized_apy_bps : Z;
  ta_updated_at : string;
}.

(** A row of [sme_risk_signals], keyed by the SME. *)
Record SmeRiskDbRow := {
  sr_sme : string;
  sr_debtor_concentration_bps : Z;
  sr_invoice_size_risk_bps : Z;
  sr_total_volume : string;
  sr_updated_at : string;
}.

Record Database := {
  db_events : list EventRow;
  db_ledger_hashes : gmap Z LedgerHashRow;
  db_reorg_log : list ReorgLogRow;
  db_tranche_apy : list TrancheApyDbRow;
  db_sme_risk_signals : list SmeRiskDbRow;
}.

Definition empty_database : Database := {|
  db_events := []; db_ledger_hashes := ∅; db_reorg_log := [];
  db_tranche_apy := []; db_sme_risk_signals := [] |}.

Definition set_events (l : list EventRow) (db : Database) : Database := {|
  db_events := l; db_ledger_hashes := db_ledger_hashes db; db_reorg_log := db_reorg_log db;
  db_tranche_apy := db_tranche_apy db; db_sme_risk_signals := db_sme_risk_signals db |}.

Definition set_ledger_hashes (m : gmap Z LedgerHashRow) (db : Database) : Database := {|
  db_events := db_events db; db_ledger_hashes := m; db_reorg_log := db_reorg_log db;
  db_tranche_apy := db_tranche_apy db; db_sme_risk_signals := db_sme_risk_signals db |}.

Definition set_reorg_log (l : list ReorgLogRow) (db : Database) : Database := {|
  db_events := db_events db; db_ledger_hashes := db_ledger_hashes db; db_reorg_log := l;
  db_tranche_apy := db_tranche_apy db; db_sme_risk_signals := db_sme_risk_signals db |}.

Definition set_tranche_apy (l : list TrancheApyDbRow) (db : Database) : Database := {|
  db_events := db_events db; db_ledger_hashes := db_ledger_hashes db;
  db_reorg_log := db_reorg_log db; db_tranche_apy := l;
  db_sme_risk_signals := db_sme_risk_signals db |}.

Definition set_sme_risk_signals (l : list SmeRiskDbRow) (db : Database) : Database := {|
  db_events := db_events db; db_ledger_hashes := db_ledger_hashes db;
  db_reorg_log := db_reorg_log db; db_tranche_apy := db_tranche_apy db;
  db_sme_risk_signals := l |}.

(** ** What the statements rely on Postgres for *)

Class Postgres := {
  (** the value a [text] column gives back for a parameter; [None] when the
      statement fails on it, as it does on a NUL character *)
  pg_text : jsval → option string;
  (** the value a [jsonb] column gives back for a value sent as JSON text *)
  pg_jsonb : jsval → option jsval;
  (** the [toISOString] of the time a [timestamptz] column gives back *)
  pg_timestamptz : string → option string;
  (** the text a [NUMERIC] column gives back for an integer *)
  pg_numeric : Z → option string;
  (** [ORDER BY ledger_sequence], ascending ([true]) or descending, in one
      execution of a query: another may order the rows of a ledger differently,
      which a list of [Postgres] expresses (Api.v, [getAllEvents_on]) *)
  pg_order_by_ledger : bool → list EventRow → list EventRow;
  (** [ORDER BY token, tranche_class] and [ORDER BY sme] *)
  pg_order_tranche_apy : list TrancheApyDbRow → list TrancheApyDbRow;
  pg_order_sme : list SmeRiskDbRow → list SmeRiskDbRow;
  pg_text_string : ∀ s t, pg_text (JStr s) = Some t → t = s;
  pg_numeric_text : ∀ z t, pg_numeric z = Some t → t = pretty z;
  pg_order_by_ledger_perm : ∀ asc l, pg_order_by_ledger asc l ≡ₚ l;
  pg_order_by_ledger_asc : ∀ l, ascending row_ledger_sequence (pg_order_by_ledger true l);
  pg_order_by_ledger_desc :
    ∀ l, ascending (λ r, - row_ledger_sequence r) (pg_order_by_ledger false l);
  pg_order_tranche_apy_perm : ∀ l, pg_order_tranche_apy l ≡ₚ l;
  pg_order_sme_perm : ∀ l, pg_order_sme l ≡ₚ l;
}.

#[export] Hint Resolve pg_order_by_ledger_perm pg_order_by_ledger_asc pg_order_by_ledger_desc
  pg_order_tranche_apy_perm pg_order_sme_perm : astera.

(** A Postgres that breaks ties by insertion order. *)
Definition stable_postgres : Postgres.
Proof.
  refine {|
    pg_text := λ v, match v with JStr s => Some s | _ => None end;
    pg_jsonb := Some;
    pg_timestamptz := Some;
    pg_numeric := λ z, Some (pretty z);
    pg_order_by_ledger := λ asc l,
      if asc then sort_by row_ledger_sequence l
      else sort_by (λ r, - row_ledger_sequence r) l;
    pg_order_tranche_apy := λ l, l;
    pg_order_sme := λ l, l |}.
  - congruence.
  - congruence.
  - intros [] l; apply sort_by_perm.
  - intros l. apply sort_by_ascending.
  - intros l. apply sort_by_ascending.
  - done.
  - done.
Defined.

(** A value sent to an [INTEGER] column. *)
Definition pg_integer (z : Z) : option Z :=
  if (-2147483648 <=? z) && (z <=? 2147483647) then Some z else None.

Lemma pg_integer_Some z z' : pg_integer z = Some z' → z' = z ∧ -2147483648 ≤ z ≤ 2147483647.
Proof.
  unfold pg_integer. destruct (_ && _) eqn:E; [|done]. apply andb_prop in E as [?%Z.leb_le ?%Z.leb_le].
  intros [= <-]. done.
Qed.

(** [BEGIN] ... [COMMIT], and on an exception [ROLLBACK] and rethrow. *)
Definition transaction {A} (m : M Database A) : M Database A := λ db,
  match m db with
  | (Ok a, db') => (Ok a, db')
  | (Throw e, _) => (Throw e, db)
  end.

(** ** [INSERT ... ON CONFLICT (key) DO UPDATE] *)
Section upsert.
Context {A K : Type} `{EqDecision K} (key : A → K).

Fixpoint upsert (r : A) (tbl : list A) : list A :=
  match tbl with
  | [] => [r]
  | x :: tbl' => if decide (key x = key r) then r :: tbl' else x :: upsert r tbl'
  end.

Fixpoint find_key (k : K) (tbl : list A) : option A :=
  match tbl with
  | [] => None
  | x :: tbl' => if decide (key x = k) then Some x else find_key k tbl'
  end.

(** The key is a primary key. *)
Definition keys_wf (tbl : list A) : Prop := NoDup (key <$> tbl).

Lemma find_key_upsert r k tbl :
  find_key k (upsert r tbl) = if decide (key r = k) then Some r else find_key k tbl.
Proof. induction tbl as [|x tbl IH]; simpl; repeat (case_decide; simpl); congruence. Qed.

Lemma elem_of_key_upsert r k tbl : k ∈ key <$> upsert r tbl ↔ k = key r ∨ k ∈ key <$> tbl.
Proof.
  induction tbl as [|x tbl IH]; simpl; [set_solver|]. case_decide; csimpl; set_solver.
Qed.

Lemma keys_wf_upsert r tbl : keys_wf tbl → keys_wf (upsert r tbl).
Proof.
  unfold keys_wf. induction tbl as [|x tbl IH]; csimpl; [intros; apply NoDup_singleton|].
  intros [Hx Ht]%NoDup_cons. case_decide as Hk; csimpl.
  - rewrite <-Hk. by constructor.
  - constructor; [|auto]. rewrite elem_of_key_upsert. intros [|]; congruence.
Qed.

Lemma find_key_Some k tbl x : find_key k tbl = Some x → x ∈ tbl ∧ key x = k.
Proof.
  induction tbl as [|y tbl IH]; simpl; [done|]. case_decide; intros; simplify_eq.
  - split; [left|done].
  - destruct IH; [done|]. split; [by right|done].
Qed.

Lemma find_key_elem tbl x : keys_wf tbl → x ∈ tbl → find_key (key x) tbl = Some x.
Proof.
  unfold keys_wf. induction tbl as [|y tbl IH]; csimpl; [set_solver|].
  intros [Hy Ht]%NoDup_cons [->|Hx]%elem_of_cons; [by rewrite decide_True|].
  rewrite decide_False; [auto|]. intros Heq. apply Hy. rewrite Heq.
  apply list_elem_of_fmap. eauto.
Qed.

(** A loop of upserts of distinct keys. *)
Lemma find_key_foldl_upsert rows k tbl :
  keys_wf rows →
  find_key k (foldl (λ t r, upsert r t) tbl rows)
  = match find_key k rows with Some r => Some r | None => find_key k tbl end.
Proof.
  unfold keys_wf. revert tbl. induction rows as [|r rows IH]; intros tbl; csimpl; [done|].
  intros [Hr Hrows]%NoDup_cons. rewrite IH, find_key_upsert by done.
  case_decide; [|done]. destruct (find_key k rows) as [x|] eqn:E; [|done].
  apply find_key_Some in E as [Hx <-]. exfalso. apply Hr.
  apply list_elem_of_fmap. eexists; split; [|done]. done.
Qed.

Lemma keys_wf_foldl_upsert rows tbl : keys_wf tbl → keys_wf (foldl (λ t r, upsert r t) tbl rows).
Proof. revert tbl. induction rows; simpl; auto using keys_wf_upsert. Qed.

(** [WHERE key = k] finds at most one row. *)
Lemma filter_find_key k tbl :
  keys_wf tbl → filter (λ r, key r = k) tbl = option_list (find_key k tbl).
Proof.
  unfold keys_wf. induction tbl as [|x tbl IH]; csimpl; [done|].
  intros [Hx Ht]%NoDup_cons. rewrite filter_cons. case_decide as Hk; [|auto]. simpl. f_equal.
  apply filter_none. intros y Hy Hyk. apply Hx. rewrite Hk, <-Hyk.
  apply list_elem_of_fmap. eauto.
Qed.

End upsert.
