(* ===== verification/Db.v ===== *)
(** * indexer/src/db.ts: the event store

    [storeEvents] and [getEvents] over the [events] table. The query builder of
    [getEvents] is modelled with the clauses it assembles and the numbered
    parameters they refer to; [exec_query] gives the assembled statement its
    SQL meaning, and [getEvents_spec] is the specification it implements. *)
From S2P Require Import Prelude JsValue JsMap Parser Database.
#[local] Open Scope string_scope.
#[local] Open Scope list_scope.
#[local] Open Scope Z_scope.

Section db.
Context {PG : Postgres}.

(** ** storeEvents *)

(** The columns of one event; [None] when Postgres refuses a value. An array of
    strings comes back from a [jsonb] column as it was sent. *)
Definition row_of_event (e : IndexedEvent) : option EventRow :=
  id ← pg_text (JStr (ev_id e));
  contract_id ← pg_text (ev_contractId e);
  event_type ← pg_text (JStr (ev_eventType e));
  _ ← pg_jsonb (JArr [JStr (ev_topic e).1; JStr (ev_topic e).2]);
  value ← match ev_value e with JUndef => Some JNull | v => pg_jsonb v end;
  actor ← match ev_actor e with Some a => Some <$> pg_text (JStr a) | None => Some None end;
  close_at ← pg_timestamptz (ev_ledgerCloseAt e);
  tx_hash ← pg_text (JStr (ev_txHash e));
  created_at ← pg_timestamptz (ev_createdAt e);
  Some {|
    row_id := id;
    row_contract_id := contract_id;
    row_contract_type := ev_contractType e;
    row_event_type := event_type;
    row_topic := ev_topic e;
    row_value := value;
    row_actor_address := actor;
    row_ledger_sequence := ev_ledgerSequence e;
    row_ledger_close_at := close_at;
    row_tx_hash := tx_hash;
    row_created_at := created_at |}.

Definition has_id (i : string) (tbl : list EventRow) : bool :=
  existsb (λ r, String.eqb i (row_id r)) tbl.

(** [INSERT ... ON CONFLICT (id) DO NOTHING] of one row. *)
Definition insert_row (tbl : list EventRow) (r : EventRow) : list EventRow :=
  if has_id (row_id r) tbl then tbl else tbl ++ [r].

Definition insert_rows (tbl rows : list EventRow) : list EventRow := foldl insert_row tbl rows.

Record StoreResult := { inserted : Z; skipped : Z }.

Definition storeEvents (events : list IndexedEvent) : M Database StoreResult := λ db,
  match events with
  | [] => (Ok {| inserted := 0; skipped := 0 |}, db)
  | _ =>
      match mapM row_of_event events with
      | None => (Throw (EError "insert failed"), db)
      | Some rows =>
          let tbl := insert_rows (db_events db) rows in
          let rowCount := lengthZ tbl - lengthZ (db_events db) in
          (Ok {| inserted := rowCount; skipped := lengthZ events - rowCount |},
           set_events tbl db)
      end
  end.

(** ** getEvents *)

Record GetEventsOptions := {
  o_contractId : option string;
  o_contractType : option string;
  o_eventType : option string;
  o_actorAddress : option string;
  o_limit : option Z;
  o_offset : option Z;
  (** [Some None] is [NaN] *)
  o_afterLedger : option (option Z);
  o_beforeLedger : option (option Z);
}.

Definition no_options : GetEventsOptions := {|
  o_contractId := None; o_contractType := None; o_eventType := None; o_actorAddress := None;
  o_limit := None; o_offset := None; o_afterLedger := None; o_beforeLedger := None |}.

Inductive column := col_contract_id | col_contract_type | col_event_type | col_actor_address.

Inductive param := PText (s : string) | PNumber (n : option Z).

(** [column = $n], [ledger_sequence > $n] and [ledger_sequence < $n]. *)
Inductive clause :=
| CEq (c : column) (n : nat)
| CAfter (n : nat)
| CBefore (n : nat).

Record Query := {
  q_where : list clause;
  q_ascending : bool;
  q_limit_idx : nat;
  q_offset_idx : nat;
  q_params : list param;
}.

(** The state of the builder: [clauses] and [params]. *)
Definition builder : Type := list clause * list param.

Definition add_clause (c : column) (v : option string) (b : builder) : builder :=
  match v with
  | Some s =>
      if String.eqb s "" then b
      else let params := b.2 ++ [PText s] in (b.1 ++ [CEq c (length params)], params)
  | None => b
  end.

Definition add_after (v : option (option Z)) (b : builder) : builder :=
  match v with
  | Some n => let params := b.2 ++ [PNumber n] in (b.1 ++ [CAfter (length params)], params)
  | None => b
  end.

Definition add_before (v : option (option Z)) (b : builder) : builder :=
  match v with
  | Some n => let params := b.2 ++ [PNumber n] in (b.1 ++ [CBefore (length params)], params)
  | None => b
  end.

Definition build_query (o : GetEventsOptions) : Query :=
  let b := add_clause col_contract_id (o_contractId o) ([], []) in
  let b := add_clause col_contract_type (o_contractType o) b in
  let b := add_clause col_event_type (o_eventType o) b in
  let b := add_clause col_actor_address (o_actorAddress o) b in
  let b := add_after (o_afterLedger o) b in
  let b := add_before (o_beforeLedger o) b in
  let params := b.2 ++ [PNumber (Some (default 50 (o_limit o)))] in
  let limitIdx := length params in
  let params := params ++ [PNumber (Some (default 0 (o_offset o)))] in
  let offsetIdx := length params in
  {| q_where := b.1;
     q_ascending := match o_afterLedger o with Some _ => true | None => false end;
     q_limit_idx := limitIdx;
     q_offset_idx := offsetIdx;
     q_params := params |}.

(** The parameter [$n], counted from 1, as a [text] or a [bigint]. Postgres also
    refuses a text with a NUL character and a number beyond [bigint]: such
    parameters are not considered. *)
Definition text_param (ps : list param) (n : nat) : option string :=
  match ps !! pred n with Some (PText s) => Some s | _ => None end.
Definition bigint_param (ps : list param) (n : nat) : option Z :=
  match ps !! pred n with Some (PNumber (Some z)) => Some z | _ => None end.

Definition column_of (c : column) (r : EventRow) : option string :=
  match c with
  | col_contract_id => Some (row_contract_id r)
  | col_contract_type => Some (contract_type_string (row_contract_type r))
  | col_event_type => Some (row_event_type r)
  | col_actor_address => row_actor_address r
  end.

(** A [NULL] column equals nothing. *)
Definition eq_text (o : option string) (s : string) : bool :=
  match o with Some s' => String.eqb s' s | None => false end.

(** The condition a clause puts on a row; [None] when its parameter does not
    convert to the column's type. *)
Definition eval_clause (ps : list param) (c : clause) : option (EventRow → bool) :=
  match c with
  | CEq col n => s ← text_param ps n; Some (λ r, eq_text (column_of col r) s)
  | CAfter n => z ← bigint_param ps n; Some (λ r, z <? row_ledger_sequence r)%Z
  | CBefore n => z ← bigint_param ps n; Some (λ r, row_ledger_sequence r <? z)%Z
  end.

Definition exec_query (db : Database) (q : Query) : result (list EventRow) :=
  match mapM (eval_clause (q_params q)) (q_where q),
        bigint_param (q_params q) (q_limit_idx q),
        bigint_param (q_params q) (q_offset_idx q) with
  | Some conds, Some limit, Some offset =>
      if (limit <? 0)%Z || (offset <? 0)%Z then Throw (EError "LIMIT must not be negative")
      else
        let rows := filter (λ r, forallb (λ p : EventRow → bool, p r) conds) (db_events db) in
        Ok (takeZ limit (dropZ offset (pg_order_by_ledger (q_ascending q) rows)))
  | _, _, _ => Throw (EError "invalid input syntax")
  end.

Definition rowToEvent (row : EventRow) : IndexedEvent := {|
  ev_id := row_id row;
  ev_contractId := JStr (row_contract_id row);
  ev_contractType := row_contract_type row;
  ev_eventType := row_event_type row;
  ev_topic := row_topic row;
  ev_value := row_value row;
  ev_actor := row_actor_address row;
  ev_ledgerSequence := row_ledger_sequence row;
  ev_ledgerCloseAt := row_ledger_close_at row;
  ev_txHash := row_tx_hash row;
  ev_createdAt := row_created_at row |}.

Definition getEvents (db : Database) (o : GetEventsOptions) : result (list IndexedEvent) :=
  map rowToEvent <$> exec_query db (build_query o).

(** [SELECT ledger_sequence ... ORDER BY ledger_sequence DESC LIMIT 1]. *)
Definition getLatestLedger (db : Database) : option string :=
  match pg_order_by_ledger false (db_events db) with
  | [] => None
  | r :: _ => Some (pretty (row_ledger_sequence r))
  end.

(** ** The specification of getEvents *)

Definition text_matches (o : option string) (s : option string) : bool :=
  match o with
  | Some x => if String.eqb x "" then true else eq_text s x
  | None => true
  end.

Definition row_matches (o : GetEventsOptions) (after before : option Z) (r : EventRow) : bool :=
  text_matches (o_contractId o) (Some (row_contract_id r))
  && text_matches (o_contractType o) (Some (contract_type_string (row_contract_type r)))
  && text_matches (o_eventType o) (Some (row_event_type r))
  && text_matches (o_actorAddress o) (row_actor_address r)
  && match after with Some a => (a <? row_ledger_sequence r)%Z | None => true end
  && match before with Some b => (row_ledger_sequence r <? b)%Z | None => true end.

(** A bound is absent, a number, or ([None]) [NaN]. *)
Definition bound (b : option (option Z)) : option (option Z) :=
  match b with None => Some None | Some None => None | Some (Some z) => Some (Some z) end.

Definition getEvents_spec (db : Database) (o : GetEventsOptions) : result (list IndexedEvent) :=
  match bound (o_afterLedger o), bound (o_beforeLedger o) with
  | Some after, Some before =>
      let limit := default 50%Z (o_limit o) in
      let offset := default 0%Z (o_offset o) in
      if (limit <? 0)%Z || (offset <? 0)%Z then Throw (EError "LIMIT must not be negative")
      else
        let asc := match after with Some _ => true | None => false end in
        Ok (map rowToEvent (takeZ limit (dropZ offset
          (pg_order_by_ledger asc (filter (row_matches o after before) (db_events db))))))
  | _, _ => Throw (EError "invalid input syntax")
  end.

(** ** The table as a map from primary keys to rows *)

Definition keyed (r : EventRow) : string * EventRow := (row_id r, r).

(** The first row of each id. *)
Definition events_map (tbl : list EventRow) : gmap string EventRow := list_to_map (keyed <$> tbl).

(** The primary key of [events]. *)
Definition events_wf (tbl : list EventRow) : Prop := NoDup (row_id <$> tbl).

Lemma events_map_lookup_has tbl i : has_id i tbl = true ↔ is_Some (events_map tbl !! i).
Proof.
  unfold events_map. induction tbl as [|r tbl IH]; simpl; [by rewrite lookup_empty; split; [|intros []]|].
  destruct (String.eqb_spec i (row_id r)) as [->|Hne]; simpl.
  - by rewrite lookup_insert_eq.
  - by rewrite lookup_insert_ne.
Qed.

Lemma has_id_elem tbl i : has_id i tbl = true ↔ i ∈ row_id <$> tbl.
Proof.
  induction tbl as [|r tbl IH]; csimpl; [by rewrite elem_of_nil|].
  rewrite orb_true_iff, String.eqb_eq, elem_of_cons, IH. done.
Qed.

Lemma events_map_app tbl1 tbl2 : events_map (tbl1 ++ tbl2) = events_map tbl1 ∪ events_map tbl2.
Proof. unfold events_map. by rewrite fmap_app, list_to_map_app. Qed.

Lemma events_map_Some tbl i r : events_map tbl !! i = Some r → r ∈ tbl ∧ row_id r = i.
Proof.
  intros H%elem_of_list_to_map_2. apply list_elem_of_fmap in H as (r'&[= -> ->]&?). done.
Qed.

Lemma events_map_elem tbl r : events_wf tbl → r ∈ tbl → events_map tbl !! row_id r = Some r.
Proof.
  intros Hwf Hr. apply elem_of_list_to_map_1.
  - by rewrite <-list_fmap_compose.
  - apply list_elem_of_fmap. eauto.
Qed.

Lemma events_map_insert_row tbl r :
  events_map (insert_row tbl r) = events_map tbl ∪ {[row_id r := r]}.
Proof.
  unfold insert_row. destruct (has_id (row_id r) tbl) eqn:Hh.
  - apply events_map_lookup_has in Hh as [r' Hr']. symmetry. apply map_eq. intros i.
    destruct (decide (i = row_id r)) as [->|].
    + rewrite lookup_union, Hr', lookup_singleton_eq. done.
    + rewrite lookup_union, lookup_singleton_ne by done. by destruct (events_map tbl !! i).
  - rewrite events_map_app. f_equal.
Qed.

(** Inserting is the union of maps that prefers the rows already there. *)
Lemma events_map_insert_rows tbl rows :
  events_map (insert_rows tbl rows) = events_map tbl ∪ events_map rows.
Proof.
  revert tbl. unfold insert_rows. induction rows as [|r rows IH]; intros tbl; simpl.
  - unfold events_map at 3. simpl. by rewrite map_union_empty.
  - rewrite IH, events_map_insert_row, <-map_union_assoc. f_equal.
    symmetry. apply insert_union_singleton_l.
Qed.

Lemma events_wf_insert_row tbl r : events_wf tbl → events_wf (insert_row tbl r).
Proof.
  unfold events_wf, insert_row. intros Hwf. destruct (has_id (row_id r) tbl) eqn:Hh; [done|].
  rewrite fmap_app. apply NoDup_app. split_and!; [done| |apply NoDup_singleton].
  intros i Hi. apply has_id_elem in Hi. csimpl. intros ->%list_elem_of_singleton. congruence.
Qed.

Lemma events_wf_insert_rows tbl rows : events_wf tbl → events_wf (insert_rows tbl rows).
Proof.
  revert tbl. unfold insert_rows. induction rows; simpl; eauto using events_wf_insert_row.
Qed.

Lemma insert_rows_app tbl rows1 rows2 :
  insert_rows tbl (rows1 ++ rows2) = insert_rows (insert_rows tbl rows1) rows2.
Proof. apply foldl_app. Qed.

(** Rows are only appended, each under a new id. *)
Lemma insert_rows_prefix tbl rows : ∃ new, insert_rows tbl rows = tbl ++ new.
Proof.
  revert tbl. unfold insert_rows. induction rows as [|r rows IH]; intros tbl; simpl.
  - exists []. by rewrite app_nil_r.
  - destruct (IH (insert_row tbl r)) as [new ->]. unfold insert_row.
    case_match; [by exists new|]. exists (r :: new). by rewrite <-app_assoc.
Qed.

(** Rows whose ids are all there leave the table as it is. *)
Lemma insert_rows_present tbl rows :
  Forall (λ r, has_id (row_id r) tbl = true) rows → insert_rows tbl rows = tbl.
Proof.
  unfold insert_rows. induction 1 as [|r rows Hr Hrows IH]; simpl; [done|].
  unfold insert_row at 2. by rewrite Hr.
Qed.

Lemma insert_rows_has tbl rows r : r ∈ rows → has_id (row_id r) (insert_rows tbl rows) = true.
Proof.
  intros Hr. apply events_map_lookup_has. rewrite events_map_insert_rows, lookup_union.
  assert (is_Some (events_map rows !! row_id r)) as [r' ->].
  { apply events_map_lookup_has, has_id_elem, list_elem_of_fmap. eauto. }
  destruct (events_map tbl !! row_id r); eauto.
Qed.

Lemma events_map_size tbl : events_wf tbl → size (events_map tbl) = length tbl.
Proof.
  intros Hwf. unfold events_map. rewrite map_size_list_to_map.
  - apply length_fmap.
  - by rewrite <-list_fmap_compose.
Qed.

Lemma events_map_perm tbl1 tbl2 :
  events_wf tbl1 → events_wf tbl2 → events_map tbl1 = events_map tbl2 → tbl1 ≡ₚ tbl2.
Proof.
  intros Hwf1 Hwf2 Heq.
  assert (∀ tbl, events_wf tbl → map_to_list (events_map tbl) ≡ₚ keyed <$> tbl) as Hl.
  { intros tbl Hwf. apply map_to_list_to_map. by rewrite <-list_fmap_compose. }
  assert (∀ tbl, (keyed <$> tbl).*2 = tbl) as Hk.
  { intros tbl. rewrite <-list_fmap_compose. apply list_fmap_id. }
  rewrite <-(Hk tbl1), <-(Hk tbl2), <-(Hl tbl1), <-(Hl tbl2), Heq by done. done.
Qed.

(** A row without the time it was indexed at. *)
Definition strip_created (r : EventRow) : EventRow := {|
  row_id := row_id r; row_contract_id := row_contract_id r;
  row_contract_type := row_contract_type r; row_event_type := row_event_type r;
  row_topic := row_topic r; row_value := row_value r; row_actor_address := row_actor_address r;
  row_ledger_sequence := row_ledger_sequence r; row_ledger_close_at := row_ledger_close_at r;
  row_tx_hash := row_tx_hash r; row_created_at := "" |}.

Lemma strip_created_ids (tbl : list EventRow) : row_id <$> (strip_created <$> tbl) = row_id <$> tbl.
Proof. by rewrite <-list_fmap_compose. Qed.

Lemma events_map_strip (tbl : list EventRow) : events_map (strip_created <$> tbl) = strip_created <$> events_map tbl.
Proof.
  unfold events_map. induction tbl as [|r tbl IH]; csimpl; [by rewrite fmap_empty|].
  by rewrite fmap_insert, IH.
Qed.

(** Rows of the same event, whenever they were indexed. *)
Definition rows_agree (rows1 rows2 : list EventRow) : Prop :=
  ∀ r1 r2, r1 ∈ rows1 → r2 ∈ rows2 → row_id r1 = row_id r2 → strip_created r1 = strip_created r2.

Lemma insert_rows_comm tbl rows1 rows2 :
  events_wf tbl → rows_agree rows1 rows2 →
  strip_created <$> insert_rows (insert_rows tbl rows1) rows2
  ≡ₚ strip_created <$> insert_rows (insert_rows tbl rows2) rows1.
Proof.
  intros Hwf Hag. apply events_map_perm.
  - unfold events_wf. rewrite strip_created_ids. by repeat apply events_wf_insert_rows.
  - unfold events_wf. rewrite strip_created_ids. by repeat apply events_wf_insert_rows.
  - rewrite !events_map_strip, !events_map_insert_rows, <-!map_union_assoc, !map_fmap_union.
    f_equal. apply map_eq. intros i. rewrite !lookup_union, !lookup_fmap.
    destruct (events_map rows1 !! i) as [r1|] eqn:E1, (events_map rows2 !! i) as [r2|] eqn:E2;
      simpl; try done.
    apply events_map_Some in E1 as [? ?], E2 as [? ?].
    assert (strip_created r1 = strip_created r2) as Hr by (apply Hag; congruence).
    by rewrite Hr.
Qed.

(** ** storeEvents on the map *)

Definition store_outcome (events : list IndexedEvent) (db : Database) (rows : list EventRow)
    : result StoreResult * Database :=
  let tbl := insert_rows (db_events db) rows in
  let n := lengthZ tbl - lengthZ (db_events db) in
  (Ok {| inserted := n; skipped := lengthZ events - n |}, set_events tbl db).

Lemma storeEvents_eq db events :
  storeEvents events db =
  match mapM row_of_event events with
  | Some rows => store_outcome events db rows
  | None => (Throw (EError "insert failed"), db)
  end.
Proof.
  destruct events as [|e events]; [|done]. unfold store_outcome. simpl.
  rewrite Z.sub_diag. by destruct db.
Qed.

(** The events table is a map from event ids to rows (its primary key is
    never violated), and [storeEvents] is the union of that map with the
    batch's that prefers the rows already stored: nothing is overwritten,
    removed or reordered, every event of the batch is there afterwards, and the
    counts it reports are exact. A batch with a value Postgres refuses stores
    nothing. *)
Theorem storeEvents_union db events :
  events_wf (db_events db) →
  match mapM row_of_event events with
  | None => ∃ e, storeEvents events db = (Throw e, db)
  | Some rows => ∃ new r,
      storeEvents events db = (Ok r, set_events (db_events db ++ new) db)
      ∧ events_wf (db_events db ++ new)
      ∧ events_map (db_events db ++ new) = events_map (db_events db) ∪ events_map rows
      ∧ inserted r = lengthZ new
      ∧ inserted r + skipped r = lengthZ events
  end.
Proof.
  intros Hwf. rewrite storeEvents_eq. destruct (mapM row_of_event events) as [rows|]; [|eauto].
  unfold store_outcome. destruct (insert_rows_prefix (db_events db) rows) as [new E].
  pose proof (events_wf_insert_rows _ rows Hwf) as Hwf'.
  pose proof (events_map_insert_rows (db_events db) rows) as Hmap. rewrite E in *.
  eexists new, _. split; [done|]. split_and!; try done; simpl; unfold lengthZ;
    rewrite ?length_app; lia.
Qed.

(** Two batches stored one after the other; the number of rows they added. *)
Definition store_both (batch1 batch2 : list IndexedEvent) : M Database Z :=
  r1 ← storeEvents batch1; r2 ← storeEvents batch2; mret (inserted r1 + inserted r2).

Lemma store_both_eq db batch1 batch2 rows1 rows2 :
  mapM row_of_event batch1 = Some rows1 → mapM row_of_event batch2 = Some rows2 →
  let tbl := insert_rows (insert_rows (db_events db) rows1) rows2 in
  store_both batch1 batch2 db = (Ok (lengthZ tbl - lengthZ (db_events db)), set_events tbl db).
Proof.
  intros H1 H2. unfold store_both, mbind, M_bind. rewrite storeEvents_eq, H1. simpl.
  rewrite storeEvents_eq, H2. simpl. unfold mret, M_ret. do 2 f_equal. lia.
Qed.

(** The event id of a record. *)
Definition record_id (record : HorizonRecord) : string :=
  str_or (r_id record) (match r_paging_token record with Some t => t | None => "undefined" end).

Lemma parse_record_strip ids now1 now2 record e1 e2 r1 r2 :
  (∃ s, r_created_at record = Some s ∧ s ≠ "") →
  parse_record ids now1 record = Some e1 → parse_record ids now2 record = Some e2 →
  row_of_event e1 = Some r1 → row_of_event e2 = Some r2 →
  strip_created r1 = strip_created r2.
Proof.
  intros (s&Hs&Hne) H1 H2 Hr1 Hr2. unfold parse_record in *.
  destruct (negb _); [done|]. destruct (parseTopic record) as [[ct et]|]; [|done].
  rewrite Hs in *. simpl in *. apply String.eqb_neq in Hne. rewrite Hne in *. simplify_eq.
  unfold row_of_event in *. simpl in *. unfold mbind, option_bind in *.
  repeat case_match; simplify_eq; done.
Qed.

Lemma parse_record_id ids now record e :
  parse_record ids now record = Some e → ev_id e = record_id record.
Proof.
  unfold parse_record. destruct (negb _); [done|].
  by destruct (parseTopic record) as [[ct et]|]; [intros [= <-]|].
Qed.

Lemma row_of_event_id e r : row_of_event e = Some r → row_id r = ev_id e.
Proof.
  unfold row_of_event, mbind, option_bind. intros H.
  destruct (pg_text (JStr (ev_id e))) eqn:E; [|done]. apply pg_text_string in E.
  by repeat case_match; simplify_eq/=.
Qed.

Lemma parsed_rows ids now records rows r :
  mapM row_of_event (parseEvents ids now records) = Some rows → r ∈ rows →
  ∃ record e, record ∈ records ∧ parse_record ids now record = Some e
    ∧ row_of_event e = Some r ∧ row_id r = record_id record.
Proof.
  intros H [i Hi]%list_elem_of_lookup. apply mapM_Some in H.
  destruct (Forall2_lookup_r _ _ _ _ _ H Hi) as (e&He&Hr).
  apply list_elem_of_lookup_2, list_elem_of_omap in He as (record&?&Hp).
  exists record, e. split_and!; try done.
  by rewrite (row_of_event_id _ _ Hr), (parse_record_id _ _ _ _ Hp).
Qed.

(** C2. Ingestion is insensitive to order and to repetition: the live tail and
    a backfill that fetch overlapping records, at different times, leave the
    same table and add the same number of rows whichever writes first, up to
    the order of rows and the time each was indexed at. Records with the same
    id are the same record, and carry the time of their ledger. *)
Theorem ingestion_order ids now_live now_back live back db rows_live rows_back :
  events_wf (db_events db) →
  (∀ r1 r2, r1 ∈ live → r2 ∈ back → record_id r1 = record_id r2 → r1 = r2) →
  Forall (λ r, ∃ s, r_created_at r = Some s ∧ s ≠ "") live →
  mapM row_of_event (parseEvents ids now_live live) = Some rows_live →
  mapM row_of_event (parseEvents ids now_back back) = Some rows_back →
  ∃ n tbl1 tbl2,
    store_both (parseEvents ids now_live live) (parseEvents ids now_back back) db
      = (Ok n, set_events tbl1 db)
    ∧ store_both (parseEvents ids now_back back) (parseEvents ids now_live live) db
      = (Ok n, set_events tbl2 db)
    ∧ strip_created <$> tbl1 ≡ₚ strip_created <$> tbl2.
Proof.
  intros Hwf Hids Hat H1 H2. rewrite (store_both_eq db _ _ _ _ H1 H2), (store_both_eq db _ _ _ _ H2 H1).
  assert (strip_created <$> insert_rows (insert_rows (db_events db) rows_live) rows_back
    ≡ₚ strip_created <$> insert_rows (insert_rows (db_events db) rows_back) rows_live) as Hp.
  { apply insert_rows_comm; [done|]. intros r1 r2 Hr1 Hr2 Hid.
    destruct (parsed_rows _ _ _ _ _ H1 Hr1) as (x1&e1&Hx1&?&?&?).
    destruct (parsed_rows _ _ _ _ _ H2 Hr2) as (x2&e2&Hx2&?&?&?).
    assert (x1 = x2) as <- by (apply Hids; congruence).
    rewrite Forall_forall in Hat. eauto using parse_record_strip. }
  eexists _, _, _. split; [done|]. split; [|exact Hp].
  apply Permutation_length in Hp. rewrite !length_fmap in Hp. unfold lengthZ. by rewrite Hp.
Qed.

(** [storeEvents] is idempotent: once a batch is stored, storing it again
    adds nothing, reports every event as skipped and leaves the database as it
    is. *)
Theorem storeEvents_idempotent events db r db' :
  storeEvents events db = (Ok r, db') →
  storeEvents events db' = (Ok {| inserted := 0; skipped := lengthZ events |}, db').
Proof.
  rewrite !storeEvents_eq. destruct (mapM row_of_event events) as [rows|] eqn:E; [|done].
  unfold store_outcome. intros [= <- <-]. simpl.
  rewrite (insert_rows_present _ rows), Z.sub_diag, Z.sub_0_r; [done|].
  apply Forall_forall. intros x Hx. by apply insert_rows_has.
Qed.

(** ** getEvents implements its specification *)

(** The clauses of [b] convert and mean [P], whatever parameters follow; or one
    of them does not convert. *)
Definition builder_sem (b : builder) (P : option (EventRow → bool)) : Prop :=
  ∀ rest, match P with
  | Some P => ∃ conds, mapM (eval_clause (b.2 ++ rest)) b.1 = Some conds
      ∧ ∀ r, forallb (λ p : EventRow → bool, p r) conds = P r
  | None => mapM (eval_clause (b.2 ++ rest)) b.1 = None
  end.

Definition and_cond (P Q : option (EventRow → bool)) : option (EventRow → bool) :=
  p ← P; q ← Q; Some (λ r, p r && q r).

Lemma mapM_snoc {A B} (f : A → option B) l x :
  mapM f (l ++ [x]) = (ys ← mapM f l; y ← f x; Some (ys ++ [y])).
Proof.
  induction l as [|z l IH]; simpl; [by destruct (f x)|].
  rewrite IH. destruct (f z); simpl; [|done]. by destruct (mapM f l), (f x).
Qed.

Lemma builder_sem_ext b P Q :
  (∀ r, P r = Q r) → builder_sem b (Some P) → builder_sem b (Some Q).
Proof.
  intros Heq H rest. destruct (H rest) as (conds&?&Hc). exists conds. split; [done|].
  intros r. by rewrite Hc.
Qed.

(** Appending a clause on the parameter appended with it. *)
Lemma builder_sem_snoc b P (c : nat → clause) x Q :
  builder_sem b P →
  (∀ ps rest, eval_clause (ps ++ [x] ++ rest) (c (length (ps ++ [x]))) = Q) →
  builder_sem (b.1 ++ [c (length (b.2 ++ [x]))], b.2 ++ [x]) (and_cond P Q).
Proof.
  intros Hb Hc rest. simpl. rewrite mapM_snoc, <-app_assoc, Hc. specialize (Hb ([x] ++ rest)).
  destruct P as [P|]; simpl in *; [|by rewrite Hb].
  destruct Hb as (conds&->&Hconds), Q as [Q|]; simpl; [|done].
  eexists. split; [done|]. intros r. rewrite forallb_app, Hconds. simpl. by rewrite andb_true_r.
Qed.

Lemma lookup_last_param (ps rest : list param) x :
  (ps ++ [x] ++ rest) !! pred (length (ps ++ [x])) = Some x.
Proof.
  rewrite length_app. simpl. rewrite Nat.add_1_r. simpl.
  by rewrite lookup_app_r, Nat.sub_diag by lia.
Qed.

Lemma bigint_last_param (ps rest : list param) n :
  bigint_param (ps ++ [PNumber n] ++ rest) (length (ps ++ [PNumber n])) = n.
Proof. unfold bigint_param. rewrite lookup_last_param. by destruct n. Qed.

Lemma add_clause_sem c v b P :
  builder_sem b P →
  builder_sem (add_clause c v b) (and_cond P (Some (λ r, text_matches v (column_of c r)))).
Proof.
  assert (∀ b P, builder_sem b P → builder_sem b (and_cond P (Some (λ _, true)))) as Hid.
  { intros b' [P'|] Hb; [|done]. simpl. eapply builder_sem_ext; [|exact Hb].
    intros r. by rewrite andb_true_r. }
  intros Hb. unfold add_clause, text_matches. destruct v as [s|]; [|by apply Hid].
  destruct (String.eqb s ""); [by apply Hid|].
  apply (builder_sem_snoc b P (CEq c) (PText s)); [done|].
  intros ps rest. cbn [eval_clause]. unfold text_param. by rewrite lookup_last_param.
Qed.

Definition after_cond (v : option (option Z)) : option (EventRow → bool) :=
  match v with
  | None => Some (λ _, true)
  | Some None => None
  | Some (Some a) => Some (λ r, (a <? row_ledger_sequence r)%Z)
  end.

Definition before_cond (v : option (option Z)) : option (EventRow → bool) :=
  match v with
  | None => Some (λ _, true)
  | Some None => None
  | Some (Some a) => Some (λ r, (row_ledger_sequence r <? a)%Z)
  end.

Lemma add_bound_sem (c : nat → clause) (cond : option (option Z) → option (EventRow → bool)) v b P :
  cond None = Some (λ _, true) →
  (∀ ps rest n, eval_clause (ps ++ [PNumber n] ++ rest) (c (length (ps ++ [PNumber n])))
                = cond (Some n)) →
  builder_sem b P →
  builder_sem match v with
    | Some n => let params := b.2 ++ [PNumber n] in (b.1 ++ [c (length params)], params)
    | None => b end (and_cond P (cond v)).
Proof.
  intros Hn Hc Hb. destruct v as [n|].
  - apply (builder_sem_snoc b P c (PNumber n)); auto.
  - rewrite Hn. destruct P as [P|]; [|done]. simpl. eapply builder_sem_ext; [|exact Hb].
    intros r. by rewrite andb_true_r.
Qed.

Lemma add_after_sem v b P :
  builder_sem b P → builder_sem (add_after v b) (and_cond P (after_cond v)).
Proof.
  apply (add_bound_sem CAfter after_cond); [done|]. intros ps rest n.
  cbn [eval_clause]. rewrite bigint_last_param. by destruct n.
Qed.

Lemma add_before_sem v b P :
  builder_sem b P → builder_sem (add_before v b) (and_cond P (before_cond v)).
Proof.
  apply (add_bound_sem CBefore before_cond); [done|]. intros ps rest n.
  cbn [eval_clause]. rewrite bigint_last_param. by destruct n.
Qed.

(** The clauses and parameters of [build_query], before LIMIT and OFFSET. *)
Definition query_builder (o : GetEventsOptions) : builder :=
  add_before (o_beforeLedger o) (add_after (o_afterLedger o)
    (add_clause col_actor_address (o_actorAddress o) (add_clause col_event_type (o_eventType o)
      (add_clause col_contract_type (o_contractType o)
        (add_clause col_contract_id (o_contractId o) ([], [])))))).

Definition query_cond (o : GetEventsOptions) : option (EventRow → bool) :=
  match bound (o_afterLedger o), bound (o_beforeLedger o) with
  | Some after, Some before => Some (row_matches o after before)
  | _, _ => None
  end.

Lemma query_builder_sem o : builder_sem (query_builder o) (query_cond o).
Proof.
  assert (builder_sem ([], []) (Some (λ _, true))) as H0 by (intros rest; by exists []).
  apply (add_clause_sem col_contract_id (o_contractId o)),
    (add_clause_sem col_contract_type (o_contractType o)),
    (add_clause_sem col_event_type (o_eventType o)),
    (add_clause_sem col_actor_address (o_actorAddress o)),
    (add_after_sem (o_afterLedger o)), (add_before_sem (o_beforeLedger o)) in H0.
  fold (query_builder o) in H0. unfold query_cond, row_matches.
  destruct (o_afterLedger o) as [[a|]|], (o_beforeLedger o) as [[bf|]|]; simpl in *; exact H0.
Qed.

(** The rows of the specification. *)
Definition page_rows (db : Database) (o : GetEventsOptions) : result (list EventRow) :=
  match bound (o_afterLedger o), bound (o_beforeLedger o) with
  | Some after, Some before =>
      let limit := default 50%Z (o_limit o) in
      let offset := default 0%Z (o_offset o) in
      if (limit <? 0)%Z || (offset <? 0)%Z then Throw (EError "LIMIT must not be negative")
      else
        let asc := match after with Some _ => true | None => false end in
        Ok (takeZ limit (dropZ offset
          (pg_order_by_ledger asc (filter (row_matches o after before) (db_events db)))))
  | _, _ => Throw (EError "invalid input syntax")
  end.

Lemma exec_query_spec db o : exec_query db (build_query o) = page_rows db o.
Proof.
  pose proof (query_builder_sem o) as Hsem. unfold exec_query.
  set (b := query_builder o) in *.
  set (limit := PNumber (Some (default 50 (o_limit o)))).
  set (offset := PNumber (Some (default 0 (o_offset o)))).
  change (build_query o) with {|
    q_where := b.1;
    q_ascending := match o_afterLedger o with Some _ => true | None => false end;
    q_limit_idx := length (b.2 ++ [limit]);
    q_offset_idx := length ((b.2 ++ [limit]) ++ [offset]);
    q_params := (b.2 ++ [limit]) ++ [offset] |}. cbn [q_where q_ascending q_limit_idx q_offset_idx q_params].
  assert (bigint_param ((b.2 ++ [limit]) ++ [offset]) (length (b.2 ++ [limit]))
    = Some (default 50 (o_limit o))) as -> by (rewrite <-app_assoc; apply bigint_last_param).
  assert (bigint_param ((b.2 ++ [limit]) ++ [offset]) (length ((b.2 ++ [limit]) ++ [offset]))
    = Some (default 0 (o_offset o))) as -> by apply (bigint_last_param (b.2 ++ [limit]) []).
  rewrite <-(app_assoc b.2 [limit] [offset]).
  specialize (Hsem ([limit] ++ [offset])). unfold query_cond in Hsem. unfold page_rows.
  destruct (bound (o_afterLedger o)) as [after|] eqn:Ea; [|by rewrite Hsem].
  destruct (bound (o_beforeLedger o)) as [before|] eqn:Eb; [|by rewrite Hsem].
  destruct Hsem as (conds&->&Hconds).
  destruct ((default 50 (o_limit o) <? 0) || (default 0 (o_offset o) <? 0)); [done|].
  simpl. do 3 f_equal.
  assert (match after with Some _ => true | None => false end
    = match o_afterLedger o with Some _ => true | None => false end) as ->
    by (destruct (o_afterLedger o) as [[]|]; by simplify_eq/=).
  f_equal. apply list_filter_iff. intros r. by rewrite Hconds.
Qed.

(** C4. [getEvents] implements its specification: the query it assembles, with
    its clauses and numbered parameters, returns the page [offset],[limit] of
    the rows every given filter matches, oldest first when [afterLedger] is
    given and newest first otherwise; a bound that is [NaN] or a negative
    [limit] or [offset] is an error. *)
Theorem getEvents_correct db o : getEvents db o = getEvents_spec db o.
Proof.
  unfold getEvents. rewrite exec_query_spec. unfold page_rows, getEvents_spec.
  destruct (bound (o_afterLedger o)), (bound (o_beforeLedger o)); try done.
  by destruct (_ || _).
Qed.

End db.
