(* ===== verification/TrancheApy.v ===== *)
(** * indexer/src/db.ts: realized tranche yields

    [recomputeTrancheApy] folds the tranche events into an accumulator per token
    and writes the [tranche_apy] table in one transaction; [getTrancheApy] reads
    it back. The specification is declarative: the positions the event stream
    closes, and the sums over those of a token. *)
From S2P Require Import Prelude JsValue JsMap Parser Database Db.
#[local] Open Scope string_scope.
#[local] Open Scope list_scope.
#[local] Open Scope Z_scope.

(** [BigInt(String(v ?? 0))], 0 when it throws. *)
Definition toBigInt (v : jsval) : Z :=
  default 0 (bigint_of_string (js_String (js_coalesce v (JNum 0)))).

(** An accumulator, the two of a token, and the principal deployed in an
    invoice. *)
Record Acc := { principal : Z; ret : Z; closed : Z }.
Record Bucket := { b_Senior : Acc; b_Junior : Acc }.
Record Deployment := { d_token : string; d_senior : Z; d_junior : Z }.

Definition empty_acc : Acc := {| principal := 0; ret := 0; closed := 0 |}.
Definition empty_bucket : Bucket := {| b_Senior := empty_acc; b_Junior := empty_acc |}.

Definition add_position (p r : Z) (a : Acc) : Acc :=
  {| principal := principal a + p; ret := ret a + r; closed := closed a + 1 |}.

Record ApyState := {
  agg : list (string * Bucket);
  deployed : list (string * Deployment);
}.

(** [bucket(token)]: the token's accumulators, created when there are none. *)
Definition bucket (token : string) (st : ApyState) : Bucket :=
  default empty_bucket (jm_get token (agg st)).

(** One turn of the loop over the ordered events. *)
Definition tranche_step (st : ApyState) (evt : IndexedEvent) : ApyState :=
  match ev_value evt with
  | JArr v =>
      if (length v <? 4)%nat then st
      else
        let invoiceId := js_String (arr_get v 0) in
        let token := js_String (arr_get v 1) in
        if String.eqb (ev_eventType evt) "fund" then
          {| agg := agg st;
             deployed := jm_set invoiceId
               {| d_token := token;
                  d_senior := toBigInt (arr_get v 2);
                  d_junior := toBigInt (arr_get v 3) |} (deployed st) |}
        else if String.eqb (ev_eventType evt) "repay" then
          match jm_get invoiceId (deployed st) with
          | None => st
          | Some dep =>
              let b := bucket token st in
              {| agg := jm_set token
                   {| b_Senior := add_position (d_senior dep)
                        (toBigInt (arr_get v 2) - d_senior dep) (b_Senior b);
                      b_Junior := add_position (d_junior dep)
                        (toBigInt (arr_get v 3) - d_junior dep) (b_Junior b) |} (agg st);
                 deployed := jm_delete invoiceId (deployed st) |}
          end
        else if String.eqb (ev_eventType evt) "default" then
          let dep := jm_get invoiceId (deployed st) in
          let b := bucket token st in
          let juniorLoss := toBigInt (arr_get v 2) in
          let seniorLoss := toBigInt (arr_get v 3) in
          {| agg := jm_set token
               {| b_Senior := add_position
                    (match dep with Some d => d_senior d | None => seniorLoss end)
                    (- seniorLoss) (b_Senior b);
                  b_Junior := add_position
                    (match dep with Some d => d_junior d | None => juniorLoss end)
                    (- juniorLoss) (b_Junior b) |} (agg st);
             deployed := jm_delete invoiceId (deployed st) |}
        else st
  | _ => st
  end.

(** [Number((acc.ret * 10_000n) / acc.principal)]: [BigInt] division truncates. *)
Definition apy_bps (a : Acc) : Z :=
  if 0 <? principal a then Z.quot (ret a * 10000) (principal a) else 0.

Definition class_acc (cls : TrancheClass) (b : Bucket) : Acc :=
  match cls with Senior => b_Senior b | Junior => b_Junior b end.

(** The key of [tranche_apy]. *)
Definition ta_key (r : TrancheApyDbRow) : string * TrancheClass := (ta_token r, ta_tranche_class r).

Section tranche_apy.
Context {PG : Postgres}.

Definition tranche_row (updatedAt token : string) (cls : TrancheClass) (acc : Acc)
    : option TrancheApyDbRow :=
  token ← pg_text (JStr token);
  realized_principal ← pg_numeric (principal acc);
  realized_return ← pg_numeric (ret acc);
  closed_positions ← pg_integer (closed acc);
  realized_apy_bps ← pg_integer (apy_bps acc);
  updated_at ← pg_timestamptz updatedAt;
  Some {|
    ta_token := token;
    ta_tranche_class := cls;
    ta_realized_principal := realized_principal;
    ta_realized_return := realized_return;
    ta_closed_positions := closed_positions;
    ta_realized_apy_bps := realized_apy_bps;
    ta_updated_at := updated_at |}.

Definition upsert_tranche (updatedAt token : string) (cls : TrancheClass) (acc : Acc)
    : M Database unit :=
  match tranche_row updatedAt token cls acc with
  | Some row => modify (λ db, set_tranche_apy (upsert ta_key row (db_tranche_apy db)) db)
  | None => throw (EError "upsert failed")
  end.

(** [SELECT * FROM events WHERE contract_type = 'tranche' ORDER BY
    ledger_sequence ASC LIMIT 100000]. *)
Definition tranche_events (db : Database) : list IndexedEvent :=
  map rowToEvent (takeZ 100000 (pg_order_by_ledger true
    (filter (λ r, row_contract_type r = CT_tranche) (db_events db)))).

Definition recomputeTrancheApy (updatedAt : string) : M Database unit :=
  db ← get_state;
  let ordered := tranche_events db in
  let st := foldl tranche_step {| agg := []; deployed := [] |} ordered in
  transaction (for_each (agg st) (λ tb,
    for_each [Senior; Junior] (λ cls,
      upsert_tranche updatedAt tb.1 cls (class_acc cls tb.2)))).

Record TrancheApyRow := {
  tr_token : string;
  tr_trancheClass : TrancheClass;
  tr_realizedPrincipal : Z;
  tr_realizedReturn : Z;
  tr_closedPositions : Z;
  tr_realizedApyBps : Z;
  tr_updatedAt : string;
}.

(** [token] is absent or empty: every row. *)
Definition getTrancheApy (db : Database) (token : option string) : list TrancheApyRow :=
  let rows := match token with
    | Some t => if String.eqb t "" then db_tranche_apy db
                else filter (λ r, ta_token r = t) (db_tranche_apy db)
    | None => db_tranche_apy db
    end in
  map (λ r, {|
    tr_token := ta_token r;
    tr_trancheClass := ta_tranche_class r;
    tr_realizedPrincipal := toBigInt (JStr (ta_realized_principal r));
    tr_realizedReturn := toBigInt (JStr (ta_realized_return r));
    tr_closedPositions := ta_closed_positions r;
    tr_realizedApyBps := ta_realized_apy_bps r;
    tr_updatedAt := ta_updated_at r |}) (pg_order_tranche_apy rows).

End tranche_apy.

(** ** The specification: the positions an event stream closes *)

(** Invoice, token and the two amounts of a tranche event. *)
Definition tranche_tuple (evt : IndexedEvent) : option (string * string * Z * Z) :=
  match ev_value evt with
  | JArr v =>
      if (length v <? 4)%nat then None
      else Some (js_String (arr_get v 0), js_String (arr_get v 1),
                 toBigInt (arr_get v 2), toBigInt (arr_get v 3))
  | _ => None
  end.

(** The principal (senior, junior) deployed in an invoice after the events
    [past], newest first: that of its last [fund] when no [repay] or [default]
    came after it. *)
Fixpoint live_deployment (invoice : string) (past : list IndexedEvent) : option (Z * Z) :=
  match past with
  | [] => None
  | e :: past' =>
      match tranche_tuple e with
      | Some (i, _, a, b) =>
          if String.eqb invoice i then
            if String.eqb (ev_eventType e) "fund" then Some (a, b)
            else if one_of ["repay"; "default"] (ev_eventType e) then None
            else live_deployment invoice past'
          else live_deployment invoice past'
      | None => live_deployment invoice past'
      end
  end.

(** A closed position: principal and return of each tranche. *)
Record Position := {
  p_token : string;
  p_senior : Z * Z;
  p_junior : Z * Z;
}.

(** The position an event closes, given the events before it. *)
Definition closes (past : list IndexedEvent) (e : IndexedEvent) : option Position :=
  match tranche_tuple e with
  | Some (i, t, a, b) =>
      if String.eqb (ev_eventType e) "repay" then
        match live_deployment i past with
        | Some (s, j) => Some {| p_token := t; p_senior := (s, a - s); p_junior := (j, b - j) |}
        | None => None
        end
      else if String.eqb (ev_eventType e) "default" then
        let '(s, j) := default (b, a) (live_deployment i past) in
        Some {| p_token := t; p_senior := (s, - b); p_junior := (j, - a) |}
      else None
  | None => None
  end.

Fixpoint positions (past todo : list IndexedEvent) : list Position :=
  match todo with
  | [] => []
  | e :: todo' => option_list (closes past e) ++ positions (e :: past) todo'
  end.

Definition tranche_of (cls : TrancheClass) (p : Position) : Z * Z :=
  match cls with Senior => p_senior p | Junior => p_junior p end.

(** The sums over the positions of a token. *)
Definition acc_of (cls : TrancheClass) (ps : list Position) : Acc := {|
  principal := sum_by (λ p, (tranche_of cls p).1) ps;
  ret := sum_by (λ p, (tranche_of cls p).2) ps;
  closed := lengthZ ps |}.

Definition of_token (t : string) (ps : list Position) : list Position :=
  filter (λ p, p_token p = t) ps.

Definition bucket_of (ps : list Position) : option Bucket :=
  match ps with
  | [] => None
  | _ => Some {| b_Senior := acc_of Senior ps; b_Junior := acc_of Junior ps |}
  end.

(** The maps after the events [past] (newest first) that closed [ps]. *)
Definition agrees (past : list IndexedEvent) (ps : list Position) (st : ApyState) : Prop :=
  jm_wf (agg st)
  ∧ (∀ i, (λ d, (d_senior d, d_junior d)) <$> jm_get i (deployed st) = live_deployment i past)
  ∧ ∀ t, jm_get t (agg st) = bucket_of (of_token t ps).

Lemma acc_of_snoc cls ps p :
  acc_of cls (ps ++ [p]) = add_position (tranche_of cls p).1 (tranche_of cls p).2 (acc_of cls ps).
Proof.
  unfold acc_of, add_position, lengthZ. simpl. rewrite !sum_by_app, length_app. simpl.
  f_equal; lia.
Qed.

Lemma bucket_agrees past ps st t :
  agrees past ps st →
  bucket t st = {| b_Senior := acc_of Senior (of_token t ps);
                   b_Junior := acc_of Junior (of_token t ps) |}.
Proof.
  intros (_&_&Ha). unfold bucket. rewrite Ha. by destruct (of_token t ps).
Qed.

Lemma bucket_of_snoc ps p :
  bucket_of (ps ++ [p]) = Some {|
    b_Senior := add_position (p_senior p).1 (p_senior p).2 (acc_of Senior ps);
    b_Junior := add_position (p_junior p).1 (p_junior p).2 (acc_of Junior ps) |}.
Proof.
  rewrite <-(acc_of_snoc Senior), <-(acc_of_snoc Junior). by destruct ps.
Qed.

(** Closing a position adds it to its token's sums. *)
Lemma agg_close past ps st p :
  agrees past ps st →
  let b := bucket (p_token p) st in
  let m := jm_set (p_token p) {|
    b_Senior := add_position (p_senior p).1 (p_senior p).2 (b_Senior b);
    b_Junior := add_position (p_junior p).1 (p_junior p).2 (b_Junior b) |} (agg st) in
  jm_wf m ∧ ∀ t, jm_get t m = bucket_of (of_token t (ps ++ [p])).
Proof.
  intros Hag b m. subst b m. rewrite (bucket_agrees _ _ _ _ Hag). destruct Hag as (Hwf&_&Ha).
  split; [by apply jm_wf_set|]. intros t. unfold of_token. rewrite filter_app, filter_cons, filter_nil.
  case_decide as Ht.
  - subst. by rewrite jm_get_set_eq, bucket_of_snoc.
  - rewrite app_nil_r, jm_get_set_ne by done. apply Ha.
Qed.

Lemma deployed_delete past ps st e i t a b :
  agrees past ps st → tranche_tuple e = Some (i, t, a, b) →
  ev_eventType e = "repay" ∨ ev_eventType e = "default" →
  ∀ j, (λ d, (d_senior d, d_junior d)) <$> jm_get j (jm_delete i (deployed st))
       = live_deployment j (e :: past).
Proof.
  intros (_&Hd&_) Ht He j. simpl. rewrite Ht. destruct (String.eqb_spec j i) as [->|Hne].
  - rewrite jm_get_delete_eq. by destruct He as [-> | ->].
  - rewrite jm_get_delete_ne by done. apply Hd.
Qed.

(** The loop body on the tuple of an event. *)
Definition close_position (invoice : string) (p : Position) (st : ApyState) : ApyState :=
  let b := bucket (p_token p) st in
  {| agg := jm_set (p_token p) {|
       b_Senior := add_position (p_senior p).1 (p_senior p).2 (b_Senior b);
       b_Junior := add_position (p_junior p).1 (p_junior p).2 (b_Junior b) |} (agg st);
     deployed := jm_delete invoice (deployed st) |}.

Lemma tranche_step_tuple st e :
  tranche_step st e =
  match tranche_tuple e with
  | None => st
  | Some (i, t, a, b) =>
      let dep := (λ d, (d_senior d, d_junior d)) <$> jm_get i (deployed st) in
      if String.eqb (ev_eventType e) "fund" then
        {| agg := agg st;
           deployed := jm_set i {| d_token := t; d_senior := a; d_junior := b |} (deployed st) |}
      else if String.eqb (ev_eventType e) "repay" then
        match dep with
        | Some (s, j) =>
            close_position i {| p_token := t; p_senior := (s, a - s); p_junior := (j, b - j) |} st
        | None => st
        end
      else if String.eqb (ev_eventType e) "default" then
        let '(s, j) := default (b, a) dep in
        close_position i {| p_token := t; p_senior := (s, - b); p_junior := (j, - a) |} st
      else st
  end.
Proof.
  unfold tranche_step, tranche_tuple. destruct (ev_value e); try done.
  destruct (length l <? 4)%nat; [done|]. cbv zeta. by destruct (jm_get _ (deployed st)).
Qed.

Lemma close_position_agrees past ps st e i t a b p :
  agrees past ps st → tranche_tuple e = Some (i, t, a, b) →
  ev_eventType e = "repay" ∨ ev_eventType e = "default" →
  agrees (e :: past) (ps ++ [p]) (close_position i p st).
Proof.
  intros Hag Ht He. destruct (agg_close _ _ _ p Hag) as [Hwf Hm].
  split_and!; [done| |done]. by eapply deployed_delete.
Qed.

Lemma tranche_step_agrees past ps st e :
  agrees past ps st →
  agrees (e :: past) (ps ++ option_list (closes past e)) (tranche_step st e).
Proof.
  intros Hag. pose proof Hag as (Hwf&Hd&Ha). rewrite tranche_step_tuple. unfold closes.
  assert ((∀ i, live_deployment i (e :: past) = live_deployment i past) →
    agrees (e :: past) (ps ++ []) st) as Hskip.
  { rewrite app_nil_r. intros Hl. split_and!; try done. intros i. by rewrite Hl. }
  destruct (tranche_tuple e) as [[[[i t] a] b]|] eqn:Ht.
  2:{ apply Hskip. intros i. simpl. by rewrite Ht. }
  cbv zeta. rewrite (Hd i).
  destruct (String.eqb_spec (ev_eventType e) "fund") as [Hf|Hf].
  { rewrite Hf. simpl. rewrite app_nil_r. split_and!; try done. intros i'. simpl. rewrite Ht, Hf.
    destruct (String.eqb_spec i' i) as [->|]; simpl.
    - by rewrite jm_get_set_eq.
    - by rewrite jm_get_set_ne by done. }
  destruct (String.eqb_spec (ev_eventType e) "repay") as [Hr|Hr].
  { destruct (live_deployment i past) as [[s j]|] eqn:El.
    - eapply close_position_agrees; eauto.
    - apply Hskip. intros i'. simpl. rewrite Ht, Hr. simpl.
      by destruct (String.eqb_spec i' i) as [->|]. }
  destruct (String.eqb_spec (ev_eventType e) "default") as [Hdf|Hdf].
  { destruct (default (b, a) (live_deployment i past)) as [s j].
    eapply close_position_agrees; eauto. }
  apply Hskip. intros i'. simpl. rewrite Ht.
  apply String.eqb_neq in Hf, Hr, Hdf. unfold one_of. simpl.
  rewrite Hf, Hr, Hdf. by destruct (String.eqb i' i).
Qed.

Lemma tranche_fold_agrees todo past ps st :
  agrees past ps st →
  agrees (rev todo ++ past) (ps ++ positions past todo) (foldl tranche_step st todo).
Proof.
  revert past ps st. induction todo as [|e todo IH]; intros past ps st Hag; simpl.
  - by rewrite app_nil_r.
  - rewrite app_assoc, <-(app_assoc (rev todo)). apply IH, tranche_step_agrees, Hag.
Qed.

(** The accumulators of the loop are the sums over the positions closed. *)
Lemma tranche_fold_spec events t :
  let st := foldl tranche_step {| agg := []; deployed := [] |} events in
  jm_wf (agg st) ∧ jm_get t (agg st) = bucket_of (of_token t (positions [] events)).
Proof.
  destruct (tranche_fold_agrees events [] [] {| agg := []; deployed := [] |}) as (?&_&?).
  - split_and!; [apply jm_wf_empty|done|done].
  - done.
Qed.

Section correct.
Context {PG : Postgres}.

(** The upserts of a recomputation, in order. *)
Definition upserts (m : list (string * Bucket)) : list ((string * Bucket) * TrancheClass) :=
  concat (map (λ tb, map (pair tb) [Senior; Junior]) m).

Definition row_of_upsert (updatedAt : string) (u : (string * Bucket) * TrancheClass)
    : option TrancheApyDbRow :=
  tranche_row updatedAt u.1.1 u.2 (class_acc u.2 u.1.2).

Lemma tranche_row_key updatedAt t cls acc row :
  tranche_row updatedAt t cls acc = Some row → ta_key row = (t, cls).
Proof.
  unfold tranche_row. intros H. invert_binds H. subst. unfold ta_key. simpl.
  f_equal. by apply pg_text_string.
Qed.

Lemma upserts_cons updatedAt t b m rows :
  mapM (row_of_upsert updatedAt) (upserts ((t, b) :: m)) = Some rows →
  ∃ rs rj rows', tranche_row updatedAt t Senior (b_Senior b) = Some rs
    ∧ tranche_row updatedAt t Junior (b_Junior b) = Some rj
    ∧ mapM (row_of_upsert updatedAt) (upserts m) = Some rows' ∧ rows = rs :: rj :: rows'.
Proof.
  intros H%mapM_Some. inversion H as [|u1 rs l1 l2 H1 H2]; subst.
  inversion H2 as [|u2 rj l3 l4 H3 H4]; subst.
  eexists rs, rj, _. split_and!; try done. by apply mapM_Some.
Qed.

Lemma find_key_upserts updatedAt m rows t cls :
  mapM (row_of_upsert updatedAt) (upserts m) = Some rows →
  find_key ta_key (t, cls) rows
  = (b ← jm_get t m; tranche_row updatedAt t cls (class_acc cls b)).
Proof.
  revert rows. induction m as [|[t' b] m IH]; intros rows Hm; [by injection Hm as <-|].
  apply upserts_cons in Hm as (rs&rj&rows'&Es&Ej&Er&->). simpl.
  rewrite (tranche_row_key _ _ _ _ _ Es), (tranche_row_key _ _ _ _ _ Ej), (IH rows') by done.
  destruct (String.eqb_spec t t') as [<-|Hne]; simpl.
  - by destruct cls; repeat (case_decide; simplify_eq/=).
  - by repeat (case_decide; simplify_eq/=).
Qed.

Lemma elem_of_upsert_keys updatedAt m (rows : list TrancheApyDbRow) (k : string * TrancheClass) :
  mapM (row_of_upsert updatedAt) (upserts m) = Some rows →
  k ∈ ta_key <$> rows → k.1 ∈ jm_keys m.
Proof.
  intros Hm [r [-> Hr]]%list_elem_of_fmap.
  destruct (jm_get (ta_key r).1 m) eqn:E.
  - apply jm_get_Some_in in E. apply list_elem_of_fmap. by eexists (_, _).
  - exfalso. pose proof (find_key_upserts _ _ _ (ta_key r).1 (ta_key r).2 Hm) as Hf.
    rewrite E in Hf. simpl in Hf. clear -Hf Hr. induction rows as [|x rows IH]; [set_solver|].
    simpl in Hf. case_decide as Hx; [done|].
    apply elem_of_cons in Hr as [->|Hr]; [|by apply IH].
    by apply Hx.
Qed.

Lemma keys_wf_upserts updatedAt m rows :
  jm_wf m → mapM (row_of_upsert updatedAt) (upserts m) = Some rows → keys_wf ta_key rows.
Proof.
  unfold jm_wf, keys_wf. revert rows. induction m as [|[t b] m IH]; intros rows Hwf Hm.
  { injection Hm as <-. constructor. }
  apply upserts_cons in Hm as (rs&rj&rows'&Es&Ej&Er&->). csimpl.
  apply tranche_row_key in Es, Ej. rewrite Es, Ej. apply NoDup_cons in Hwf as [Ht Hwf].
  assert (∀ c, (t, c) ∉ ta_key <$> rows') as Hc.
  { intros c Hin. by apply (elem_of_upsert_keys _ _ _ _ Er) in Hin. }
  constructor; [|constructor; [apply Hc|by apply IH]].
  intros [|]%elem_of_cons; [done|]. by eapply Hc.
Qed.

Lemma upserts_row updatedAt m rows t b cls :
  mapM (row_of_upsert updatedAt) (upserts m) = Some rows → jm_get t m = Some b →
  is_Some (tranche_row updatedAt t cls (class_acc cls b)).
Proof.
  intros Hm%mk_is_Some Hb%jm_get_Some_in. rewrite mapM_is_Some, Forall_forall in Hm.
  apply (Hm ((t, b), cls)). unfold upserts. rewrite list_elem_of_In, in_concat.
  exists (map (pair (t, b)) [Senior; Junior]). rewrite <-!list_elem_of_In. split.
  - apply list_elem_of_fmap. by exists (t, b).
  - destruct cls; set_solver.
Qed.

(** The recomputation as a whole. *)
Lemma recomputeTrancheApy_eq updatedAt db :
  let m := agg (foldl tranche_step {| agg := []; deployed := [] |} (tranche_events db)) in
  match mapM (row_of_upsert updatedAt) (upserts m) with
  | Some rows => recomputeTrancheApy updatedAt db =
      (Ok tt, set_tranche_apy (foldl (λ t r, upsert ta_key r t) (db_tranche_apy db) rows) db)
  | None => ∃ e, recomputeTrancheApy updatedAt db = (Throw e, db)
  end.
Proof.
  intros m. unfold recomputeTrancheApy, mbind, M_bind, get_state. fold m. cbv beta iota.
  unfold transaction. rewrite for_each_nested. fold (upserts m).
  pose proof (for_each_update (row_of_upsert updatedAt)
    (λ row db, set_tranche_apy (upsert ta_key row (db_tranche_apy db)) db)
    (EError "upsert failed") (upserts m) db) as Hl.
  assert (∀ rows db, foldl (λ db row, set_tranche_apy (upsert ta_key row (db_tranche_apy db)) db) db rows
    = set_tranche_apy (foldl (λ t r, upsert ta_key r t) (db_tranche_apy db) rows) db) as Hs.
  { intros rows. induction rows as [|r rows IH]; intros d; simpl; [by destruct d|]. by rewrite IH. }
  assert (∀ l d, for_each l (λ p, upsert_tranche updatedAt p.1.1 p.2 (class_acc p.2 p.1.2)) d
    = for_each l (λ x, match row_of_upsert updatedAt x with
        | Some r => modify (λ db, set_tranche_apy (upsert ta_key r (db_tranche_apy db)) db)
        | None => throw (EError "upsert failed") end) d) as -> by done.
  cbv zeta in Hl. destruct (mapM (row_of_upsert updatedAt) (upserts m)) as [rows|].
  - by rewrite Hl, Hs.
  - destruct Hl as [s' ->]. eauto.
Qed.

(** The table a recomputation writes, by key. *)
Lemma recomputed_lookup updatedAt db rows t cls :
  let m := agg (foldl tranche_step {| agg := []; deployed := [] |} (tranche_events db)) in
  let tbl := foldl (λ t r, upsert ta_key r t) (db_tranche_apy db) rows in
  mapM (row_of_upsert updatedAt) (upserts m) = Some rows →
  match bucket_of (of_token t (positions [] (tranche_events db))) with
  | Some b => ∃ row, tranche_row updatedAt t cls (class_acc cls b) = Some row
      ∧ find_key ta_key (t, cls) tbl = Some row
  | None => find_key ta_key (t, cls) tbl = find_key ta_key (t, cls) (db_tranche_apy db)
  end.
Proof.
  intros m tbl Hrows. destruct (tranche_fold_spec (tranche_events db) t) as [Hm <-].
  fold m in Hm |- *. unfold tbl.
  rewrite find_key_foldl_upsert by (eapply keys_wf_upserts; done).
  rewrite (find_key_upserts _ _ _ t cls Hrows). destruct (jm_get t m) as [b|] eqn:Eb; [|done]. simpl.
  destruct (upserts_row _ _ _ _ _ cls Hrows Eb) as [row Hrow]. rewrite Hrow. eauto.
Qed.

Lemma recomputeTrancheApy_Ok updatedAt db db' :
  recomputeTrancheApy updatedAt db = (Ok tt, db') →
  ∃ rows,
    mapM (row_of_upsert updatedAt)
      (upserts (agg (foldl tranche_step {| agg := []; deployed := [] |} (tranche_events db))))
      = Some rows
    ∧ db' = set_tranche_apy (foldl (λ t r, upsert ta_key r t) (db_tranche_apy db) rows) db.
Proof.
  intros H. pose proof (recomputeTrancheApy_eq updatedAt db) as Heq. cbv zeta in Heq.
  destruct (mapM _ _) as [rows|]; [|destruct Heq; congruence].
  exists rows. split; congruence.
Qed.

(** C34. Recomputing the realized yields is one transaction: it either fails and
    leaves the database as it was, or writes for every token with closed
    positions and both classes exactly the sums over the positions that the
    stored tranche events close, in ledger order. The primary key is kept, no
    other table changes, and the rows of tokens without a closed position stay
    as they were. *)
Theorem recomputeTrancheApy_correct updatedAt db :
  keys_wf ta_key (db_tranche_apy db) →
  match recomputeTrancheApy updatedAt db with
  | (Throw _, db') => db' = db
  | (Ok _, db') =>
      db' = set_tranche_apy (db_tranche_apy db') db
      ∧ keys_wf ta_key (db_tranche_apy db')
      ∧ ∀ t cls,
          match bucket_of (of_token t (positions [] (tranche_events db))) with
          | Some b => ∃ row, tranche_row updatedAt t cls (class_acc cls b) = Some row
              ∧ find_key ta_key (t, cls) (db_tranche_apy db') = Some row
          | None => find_key ta_key (t, cls) (db_tranche_apy db')
                    = find_key ta_key (t, cls) (db_tranche_apy db)
          end
  end.
Proof.
  intros Hwf. destruct (recomputeTrancheApy updatedAt db) as [[[]|e] db'] eqn:Er.
  - destruct (recomputeTrancheApy_Ok _ _ _ Er) as (rows&Hrows&->).
    split_and!; [done|by apply keys_wf_foldl_upsert|].
    intros t cls. by apply (recomputed_lookup updatedAt).
  - pose proof (recomputeTrancheApy_eq updatedAt db) as Heq. cbv zeta in Heq.
    destruct (mapM _ _); [|destruct Heq]; congruence.
Qed.

Lemma toBigInt_pretty z : toBigInt (JStr (pretty z)) = z.
Proof. unfold toBigInt. simpl. by rewrite bigint_of_string_pretty. Qed.

Lemma tranche_row_inv updatedAt t cls acc row :
  tranche_row updatedAt t cls acc = Some row →
  ta_token row = t ∧ ta_tranche_class row = cls
  ∧ ta_realized_principal row = pretty (principal acc)
  ∧ ta_realized_return row = pretty (ret acc)
  ∧ ta_closed_positions row = closed acc ∧ ta_realized_apy_bps row = apy_bps acc.
Proof.
  unfold tranche_row. intros H. invert_binds H. subst. simpl.
  split_and!; try done.
  - by apply pg_text_string.
  - by apply pg_numeric_text.
  - by apply pg_numeric_text.
  - by apply pg_integer_Some.
  - by apply pg_integer_Some.
Qed.

(** A token with a row for each class has no other. *)
Lemma token_rows tbl t rs rj :
  keys_wf ta_key tbl →
  find_key ta_key (t, Senior) tbl = Some rs → find_key ta_key (t, Junior) tbl = Some rj →
  filter (λ r, ta_token r = t) tbl ≡ₚ [rs; rj].
Proof.
  intros Hwf Hs Hj.
  destruct (find_key_Some _ _ _ _ Hs) as [Hsi Hsk], (find_key_Some _ _ _ _ Hj) as [Hji Hjk].
  apply NoDup_Permutation.
  - apply NoDup_filter. by eapply NoDup_fmap_1.
  - constructor; [|constructor; [set_solver|constructor]].
    intros ->%list_elem_of_singleton. congruence.
  - intros r. rewrite list_elem_of_filter, elem_of_cons, list_elem_of_singleton. split.
    + intros [Hr Hin]. pose proof (find_key_elem _ _ _ Hwf Hin) as Hf.
      unfold ta_key in Hf at 2. rewrite Hr in Hf. destruct (ta_tranche_class r); simplify_eq; auto.
    + unfold ta_key in Hsk, Hjk. intros [->| ->]; (split; [congruence|done]).
Qed.

(** What a reader of the API gets of a row. *)
Definition figures (y : TrancheApyRow) : string * TrancheClass * (Z * Z * Z * Z) :=
  (tr_token y, tr_trancheClass y,
   (tr_realizedPrincipal y, tr_realizedReturn y, tr_closedPositions y, tr_realizedApyBps y)).

Definition figures_of (t : string) (ps : list Position) (cls : TrancheClass)
    : string * TrancheClass * (Z * Z * Z * Z) :=
  let a := acc_of cls ps in (t, cls, (principal a, ret a, closed a, apy_bps a)).

(** Reading the yields of a token back after a recomputation gives its two
    rows with the exact integer sums over its closed positions: nothing is lost
    in the decimal strings the [NUMERIC] columns hold. *)
Theorem getTrancheApy_recomputed updatedAt db db' t :
  keys_wf ta_key (db_tranche_apy db) → recomputeTrancheApy updatedAt db = (Ok tt, db') → t ≠ "" →
  let ps := of_token t (positions [] (tranche_events db)) in ps ≠ [] →
  figures <$> getTrancheApy db' (Some t) ≡ₚ figures_of t ps <$> [Senior; Junior].
Proof.
  intros Hwf (rows&Hrows&->)%recomputeTrancheApy_Ok Ht ps Hps.
  set (tbl := foldl (λ t r, upsert ta_key r t) (db_tranche_apy db) rows).
  assert (keys_wf ta_key tbl) as Hwf' by (by apply keys_wf_foldl_upsert).
  assert (∀ cls, ∃ row, tranche_row updatedAt t cls (acc_of cls ps) = Some row
    ∧ find_key ta_key (t, cls) tbl = Some row) as Hcls.
  { intros cls. pose proof (recomputed_lookup updatedAt db rows t cls Hrows) as Hl.
    fold tbl ps in Hl. destruct ps as [|p ps']; [done|]. simpl in Hl. by destruct cls. }
  destruct (Hcls Senior) as (rs&Hrs&Hfs), (Hcls Junior) as (rj&Hrj&Hfj).
  assert (filter (λ r, ta_token r = t) tbl ≡ₚ [rs; rj]) as Hp.
  { by apply token_rows. }
  unfold getTrancheApy. apply String.eqb_neq in Ht. rewrite Ht.
  rewrite pg_order_tranche_apy_perm. rewrite Hp. simpl.
  destruct (tranche_row_inv _ _ _ _ _ Hrs) as (Ets&Ecs&Eps&Ers&Exs&Eas),
    (tranche_row_inv _ _ _ _ _ Hrj) as (Etj&Ecj&Epj&Erj&Exj&Eaj).
  unfold figures. csimpl.
  rewrite Eps, Ers, Epj, Erj, !toBigInt_pretty, Ets, Ecs, Exs, Eas, Etj, Ecj, Exj, Eaj. done.
Qed.

(** ** No realized yield is below -100% *)

(** A stream the tranche contract emits: amounts are not negative, and the
    losses of a default are within the principal deployed. *)
Definition sane_event (past : list IndexedEvent) (e : IndexedEvent) : Prop :=
  ∀ i t a b, tranche_tuple e = Some (i, t, a, b) →
    0 ≤ a ∧ 0 ≤ b
    ∧ (ev_eventType e = "default" → ∀ s j, live_deployment i past = Some (s, j) → b ≤ s ∧ a ≤ j).

Fixpoint sane_stream (past todo : list IndexedEvent) : Prop :=
  match todo with
  | [] => True
  | e :: todo' => sane_event past e ∧ sane_stream (e :: past) todo'
  end.

Definition deployed_nonneg (past : list IndexedEvent) : Prop :=
  ∀ i s j, live_deployment i past = Some (s, j) → 0 ≤ s ∧ 0 ≤ j.

(** A position cannot lose more than its principal. *)
Definition limited_loss (cls : TrancheClass) (p : Position) : Prop :=
  0 ≤ (tranche_of cls p).1 ∧ - (tranche_of cls p).1 ≤ (tranche_of cls p).2.

Lemma deployed_nonneg_step past e :
  sane_event past e → deployed_nonneg past → deployed_nonneg (e :: past).
Proof.
  intros Hs Hp i s j. cbn [live_deployment]. destruct (tranche_tuple e) as [[[[i' t] a] b]|] eqn:Ht; [|apply Hp].
  destruct (Hs _ _ _ _ Ht) as (?&?&_).
  destruct (String.eqb i i'); [|apply Hp]. destruct (String.eqb _ "fund").
  - intros [= <- <-]. done.
  - destruct (one_of ["repay"; "default"] (ev_eventType e)); [done|apply Hp].
Qed.

Lemma closes_limited cls past e p :
  sane_event past e → deployed_nonneg past → closes past e = Some p → limited_loss cls p.
Proof.
  unfold closes, limited_loss. intros Hs Hp.
  destruct (tranche_tuple e) as [[[[i t] a] b]|] eqn:Ht; [|done].
  destruct (Hs _ _ _ _ Ht) as (?&?&Hd). destruct (String.eqb_spec (ev_eventType e) "repay").
  { destruct (live_deployment i past) as [[s j]|] eqn:El; [|done].
    intros [= <-]. destruct (Hp _ _ _ El). destruct cls; simpl; lia. }
  destruct (String.eqb_spec (ev_eventType e) "default") as [He|]; [|done].
  specialize (Hd He). destruct (live_deployment i past) as [[s j]|] eqn:El; simpl.
  - intros [= <-]. destruct (Hp _ _ _ El), (Hd s j eq_refl). destruct cls; simpl; lia.
  - intros [= <-]. destruct cls; simpl; lia.
Qed.

Lemma positions_limited cls past todo :
  sane_stream past todo → deployed_nonneg past → Forall (limited_loss cls) (positions past todo).
Proof.
  revert past. induction todo as [|e todo IH]; intros past; simpl; [constructor|].
  intros [Hs Htodo] Hp. apply Forall_app. split; [|by apply IH; [|apply deployed_nonneg_step]].
  destruct (closes past e) eqn:Ec; simpl; repeat constructor; by eapply closes_limited.
Qed.

Lemma apy_bps_floor cls ps : Forall (limited_loss cls) ps → -10000 ≤ apy_bps (acc_of cls ps).
Proof.
  intros Hps. unfold apy_bps. destruct (Z.ltb_spec 0 (principal (acc_of cls ps))) as [Hpos|]; [|lia].
  assert (- principal (acc_of cls ps) ≤ ret (acc_of cls ps)).
  { clear Hpos. simpl. induction Hps as [|p ps [??] ? IH]; simpl; lia. }
  transitivity (Z.quot (-10000 * principal (acc_of cls ps)) (principal (acc_of cls ps))).
  - rewrite Z.quot_mul by lia. done.
  - apply Z.quot_le_mono; lia.
Qed.

(** On the streams the tranche contract emits, with no negative amount and
    losses within the principal deployed, no stored yield is below -10000 basis
    points: a tranche cannot lose more than was put in. *)
Theorem realized_apy_floor updatedAt db db' t cls row :
  sane_stream [] (tranche_events db) →
  of_token t (positions [] (tranche_events db)) ≠ [] →
  recomputeTrancheApy updatedAt db = (Ok tt, db') →
  find_key ta_key (t, cls) (db_tranche_apy db') = Some row →
  -10000 ≤ ta_realized_apy_bps row.
Proof.
  intros Hs Hps (rows&Hrows&->)%recomputeTrancheApy_Ok Hrow.
  pose proof (recomputed_lookup updatedAt db rows t cls Hrows) as Hl. simpl in *.
  destruct (of_token t (positions [] (tranche_events db))) as [|p ps] eqn:Eps; [done|].
  cbn [bucket_of] in Hl. rewrite <-Eps in Hl.
  destruct Hl as (row'&Hrow'&Hf). assert (row' = row) as -> by congruence.
  destruct (tranche_row_inv _ _ _ _ _ Hrow') as (_&_&_&_&_&->).
  assert (∀ c, Forall (limited_loss c) (of_token t (positions [] (tranche_events db)))) as Hall.
  { intros c. apply Forall_forall. intros x [_ Hx]%list_elem_of_filter. revert x Hx.
    apply Forall_forall, positions_limited; [done|]. by intros i s j. }
  destruct cls; apply apy_bps_floor, Hall.
Qed.

End correct.
