(* ===== verification/SmeRisk.v ===== *)
(** * indexer/src/db.ts: risk signals of an SME

    [recomputeSmeRiskSignals] groups the [created] events of invoices by owner
    and debtor and writes [sme_risk_signals] in one transaction;
    [getSmeRiskSignals] reads it back. *)
From S2P Require Import Prelude JsValue JsMap Parser Database Db TrancheApy.
#[local] Open Scope string_scope.
#[local] Open Scope list_scope.
#[local] Open Scope Z_scope.

(** The accumulator of an SME. *)
Record SmeAcc := {
  total : Z;
  amounts : list Z;
  byDebtor : list (string * Z);
}.

Definition empty_sme_acc : SmeAcc := {| total := 0; amounts := []; byDebtor := [] |}.

(** An invoice as its [created] event tells it. *)
Record Created := { c_owner : string; c_amount : Z; c_debtor : string }.

(** The event's tuple; [None] when the loop skips it. *)
Definition created_of (evt : IndexedEvent) : option Created :=
  match ev_value evt with
  | JArr v =>
      if (length v <? 2)%nat then None
      else
        let owner := js_String (js_coalesce (arr_get v 1) (JStr "")) in
        if String.eqb owner "" then None
        else Some {|
          c_owner := owner;
          c_amount := toBigInt (arr_get v 2);
          c_debtor :=
            if (5 <? length v)%nat then js_String (js_coalesce (arr_get v 5) (JStr "unknown"))
            else "unknown" |}
  | _ => None
  end.

Definition add_created (acc : option SmeAcc) (c : Created) : SmeAcc :=
  let acc := default empty_sme_acc acc in
  {| total := total acc + c_amount c;
     amounts := amounts acc ++ [c_amount c];
     byDebtor := jm_set (c_debtor c)
       (default 0 (jm_get (c_debtor c) (byDebtor acc)) + c_amount c) (byDebtor acc) |}.

(** One turn of the loop over the ordered events. *)
Definition sme_step (bySme : list (string * SmeAcc)) (evt : IndexedEvent) : list (string * SmeAcc) :=
  match created_of evt with
  | Some c => jm_set (c_owner c) (add_created (jm_get (c_owner c) bySme) c) bySme
  | None => bySme
  end.

Definition maxDebtorVolume (acc : SmeAcc) : Z :=
  foldl (λ mx vol, if mx <? vol then vol else mx) 0 (jm_values (byDebtor acc)).

Definition debtorBps (acc : SmeAcc) : Z := Z.quot (maxDebtorVolume acc * 10000) (total acc).

Definition largeInvoiceThreshold (acc : SmeAcc) : Z :=
  Z.quot (total acc) (lengthZ (amounts acc)) * 3.

Definition largeVolume (acc : SmeAcc) : Z :=
  foldl (λ lv amount, if largeInvoiceThreshold acc <=? amount then lv + amount else lv) 0
    (amounts acc).

Definition sizeBps (acc : SmeAcc) : Z := Z.quot (largeVolume acc * 10000) (total acc).

Section sme_risk.
Context {PG : Postgres}.

Definition sme_row (updatedAt sme : string) (acc : SmeAcc) : option SmeRiskDbRow :=
  sme ← pg_text (JStr sme);
  debtor_concentration_bps ← pg_integer (debtorBps acc);
  invoice_size_risk_bps ← pg_integer (sizeBps acc);
  total_volume ← pg_numeric (total acc);
  updated_at ← pg_timestamptz updatedAt;
  Some {|
    sr_sme := sme;
    sr_debtor_concentration_bps := debtor_concentration_bps;
    sr_invoice_size_risk_bps := invoice_size_risk_bps;
    sr_total_volume := total_volume;
    sr_updated_at := updated_at |}.

(** The body of the loop over [bySme]: [continue] on a total of 0. *)
Definition upsert_sme (updatedAt sme : string) (acc : SmeAcc) : M Database unit :=
  if total acc =? 0 then mret tt
  else match sme_row updatedAt sme acc with
  | Some row =>
      modify (λ db, set_sme_risk_signals (upsert sr_sme row (db_sme_risk_signals db)) db)
  | None => throw (EError "upsert failed")
  end.

(** [SELECT * FROM events WHERE contract_type = 'invoice' AND event_type =
    'created' ORDER BY ledger_sequence ASC LIMIT 100000]. *)
Definition created_events (db : Database) : list IndexedEvent :=
  map rowToEvent (takeZ 100000 (pg_order_by_ledger true
    (filter (λ r, row_contract_type r = CT_invoice ∧ row_event_type r = "created")
      (db_events db)))).

Definition recomputeSmeRiskSignals (updatedAt : string) : M Database unit :=
  db ← get_state;
  let bySme := foldl sme_step [] (created_events db) in
  transaction (for_each bySme (λ sa, upsert_sme updatedAt sa.1 sa.2)).

Record SmeRiskSignalRow := {
  sg_sme : string;
  sg_debtorConcentrationBps : Z;
  sg_invoiceSizeRiskBps : Z;
  sg_totalVolume : Z;
  sg_updatedAt : string;
}.

Definition getSmeRiskSignals (db : Database) (sme : option string) : list SmeRiskSignalRow :=
  let rows := match sme with
    | Some s => if String.eqb s "" then db_sme_risk_signals db
                else filter (λ r, sr_sme r = s) (db_sme_risk_signals db)
    | None => db_sme_risk_signals db
    end in
  map (λ r, {|
    sg_sme := sr_sme r;
    sg_debtorConcentrationBps := sr_debtor_concentration_bps r;
    sg_invoiceSizeRiskBps := sr_invoice_size_risk_bps r;
    sg_totalVolume := toBigInt (JStr (sr_total_volume r));
    sg_updatedAt := sr_updated_at r |}) (pg_order_sme rows).

End sme_risk.

(** ** The specification *)

(** The invoices of an SME, and what a debtor owes on them. *)
Definition invoices_of (sme : string) (events : list IndexedEvent) : list Created :=
  filter (λ c, c_owner c = sme) (omap created_of events).

Definition volume (l : list Created) : Z := sum_by c_amount l.

Definition debtor_volume (d : string) (l : list Created) : Z :=
  volume (filter (λ c, c_debtor c = d) l).

(** The largest volume of one debtor, 0 when none is positive. *)
Definition largest_debtor (l : list Created) : Z :=
  foldr Z.max 0 (map (λ d, debtor_volume d l) (map c_debtor l)).

(** The volume of the invoices of at least three times the mean. *)
Definition large_volume (l : list Created) : Z :=
  volume (filter (λ c, Z.quot (volume l) (lengthZ l) * 3 ≤ c_amount c) l).

Lemma sme_fold events :
  foldl sme_step [] events = group_by c_owner add_created (omap created_of events).
Proof.
  unfold group_by. generalize (@nil (string * SmeAcc)).
  induction events as [|e events IH]; intros m; [done|]. cbn [foldl]. rewrite IH.
  unfold sme_step. cbn [omap list_omap]. by destruct (created_of e).
Qed.

(** What the loop accumulates for one SME. *)
Definition acc_inv (l : list Created) (acc : SmeAcc) : Prop :=
  total acc = volume l ∧ amounts acc = map c_amount l ∧ jm_wf (byDebtor acc)
  ∧ ∀ d, jm_get d (byDebtor acc)
         = match filter (λ c, c_debtor c = d) l with
           | [] => None
           | l' => Some (volume l')
           end.

Lemma volume_snoc l c : volume (l ++ [c]) = volume l + c_amount c.
Proof. unfold volume. rewrite sum_by_app. simpl. lia. Qed.

Lemma acc_inv_step l acc c :
  acc_inv l (default empty_sme_acc acc) → acc_inv (l ++ [c]) (add_created acc c).
Proof.
  intros (Ht&Ha&Hwf&Hd). unfold add_created. split_and!; simpl.
  - by rewrite Ht, volume_snoc.
  - by rewrite Ha, map_app.
  - by apply jm_wf_set.
  - intros d. rewrite filter_app, filter_cons, filter_nil. case_decide as Hc.
    + subst. rewrite jm_get_set_eq, Hd. destruct (filter _ l) as [|x l'] eqn:El.
      { unfold volume. simpl. f_equal. lia. }
      f_equal. symmetry. apply (volume_snoc (x :: l')).
    + by rewrite jm_get_set_ne, app_nil_r.
Qed.

Lemma group_acc_inv l :
  acc_inv l (default empty_sme_acc (group_acc add_created l)).
Proof.
  induction l as [|c l IH] using rev_ind.
  - split_and!; try done. apply jm_wf_empty.
  - rewrite group_acc_snoc. by apply acc_inv_step.
Qed.

Lemma group_acc_cons l : l ≠ [] → ∃ acc, group_acc add_created l = Some acc.
Proof. destruct l as [|c l _] using rev_ind; [done|]. rewrite group_acc_snoc. eauto. Qed.

Lemma foldl_max_le (l : list Z) (m b : Z) :
  foldl (λ mx vol, if mx <? vol then vol else mx) m l ≤ b ↔ m ≤ b ∧ Forall (λ v, v ≤ b) l.
Proof.
  revert m. induction l as [|v l IH]; intros m; simpl; [rewrite Forall_nil; tauto|].
  rewrite IH, Forall_cons. destruct (Z.ltb_spec m v); simpl; intuition lia.
Qed.

Lemma foldr_max_le (l : list Z) (b : Z) : foldr Z.max 0 l ≤ b ↔ 0 ≤ b ∧ Forall (λ v, v ≤ b) l.
Proof. induction l as [|v l IH]; simpl; [rewrite Forall_nil; tauto|]. rewrite Z.max_lub_iff, IH, Forall_cons. tauto. Qed.

Lemma debtor_volume_cons l d :
  filter (λ c, c_debtor c = d) l ≠ [] ↔ d ∈ map c_debtor l.
Proof.
  split.
  - intros H. destruct (filter _ l) as [|c l'] eqn:E; [done|].
    assert (c ∈ filter (λ c, c_debtor c = d) l) as [? ?]%list_elem_of_filter
      by (rewrite E; left). apply list_elem_of_fmap. eauto.
  - intros (c&->&Hc)%list_elem_of_fmap E.
    assert (c ∈ filter (λ c', c_debtor c' = c_debtor c) l) as Hin by by apply list_elem_of_filter.
    rewrite E in Hin. by apply elem_of_nil in Hin.
Qed.

Lemma maxDebtorVolume_spec l acc : acc_inv l acc → maxDebtorVolume acc = largest_debtor l.
Proof.
  intros (_&_&Hwf&Hd). unfold maxDebtorVolume, largest_debtor.
  assert (∀ b, Forall (λ v, v ≤ b) (jm_values (byDebtor acc))
    ↔ Forall (λ v, v ≤ b) (map (λ d, debtor_volume d l) (map c_debtor l))) as Hb.
  { intros b. rewrite !Forall_forall. split.
    - intros H v (d&->&Hin)%list_elem_of_fmap. apply debtor_volume_cons in Hin. apply H.
      apply list_elem_of_fmap. exists (d, debtor_volume d l). split; [done|].
      apply jm_get_Some_in. rewrite Hd. unfold debtor_volume. by destruct (filter _ l).
    - intros H v ([d v']&->&Hin)%list_elem_of_fmap. simpl.
      apply jm_in_get in Hin; [|done]. rewrite Hd in Hin.
      apply H, list_elem_of_fmap. exists d. rewrite <-debtor_volume_cons. unfold debtor_volume.
      by destruct (filter _ l); simplify_eq. }
  apply Z.le_antisymm.
  - apply foldl_max_le. by rewrite Hb, <-foldr_max_le.
  - apply foldr_max_le. by rewrite <-Hb, <-foldl_max_le.
Qed.

Lemma foldl_large (th : Z) (l : list Z) (m : Z) :
  foldl (λ lv amount, if th <=? amount then lv + amount else lv) m l
  = m + sum_by (λ a, if th <=? a then a else 0) l.
Proof.
  revert m. induction l as [|a l IH]; intros m; simpl; [lia|].
  rewrite IH. destruct (th <=? a); lia.
Qed.

Lemma sum_by_filter (th : Z) (l : list Created) :
  sum_by (λ a, if th <=? a then a else 0) (map c_amount l)
  = volume (filter (λ c, th ≤ c_amount c) l).
Proof.
  induction l as [|c l IH]; simpl; [done|]. rewrite IH, filter_cons.
  destruct (Z.leb_spec th (c_amount c)); case_decide; try lia. done.
Qed.

Lemma largeVolume_spec l acc : acc_inv l acc → largeVolume acc = large_volume l.
Proof.
  intros (Ht&Ha&_&_). unfold largeVolume, largeInvoiceThreshold.
  rewrite foldl_large, Ht, Ha, sum_by_filter. unfold lengthZ. by rewrite length_map.
Qed.

(** The figures of an SME with volume. *)
Definition sme_figures (sme : string) (l : list Created) : string * Z * Z * Z :=
  (sme, Z.quot (largest_debtor l * 10000) (volume l),
   Z.quot (large_volume l * 10000) (volume l), volume l).

Definition signal_figures (s : SmeRiskSignalRow) : string * Z * Z * Z :=
  (sg_sme s, sg_debtorConcentrationBps s, sg_invoiceSizeRiskBps s, sg_totalVolume s).

Section correct.
Context {PG : Postgres}.

Definition row_of_sme (updatedAt : string) (sa : string * SmeAcc) : option (option SmeRiskDbRow) :=
  if total sa.2 =? 0 then Some None else Some <$> sme_row updatedAt sa.1 sa.2.

Lemma sme_row_inv updatedAt sme acc row :
  sme_row updatedAt sme acc = Some row →
  sr_sme row = sme ∧ sr_debtor_concentration_bps row = debtorBps acc
  ∧ sr_invoice_size_risk_bps row = sizeBps acc ∧ sr_total_volume row = pretty (total acc).
Proof.
  unfold sme_row. intros H. invert_binds H. subst. simpl.
  split_and!.
  - by apply pg_text_string.
  - by apply pg_integer_Some.
  - by apply pg_integer_Some.
  - by apply pg_numeric_text.
Qed.

(** The rows a recomputation writes. *)
Lemma recomputeSmeRiskSignals_eq updatedAt db :
  let m := group_by c_owner add_created (omap created_of (created_events db)) in
  match mapM (row_of_sme updatedAt) m with
  | Some rows => recomputeSmeRiskSignals updatedAt db =
      (Ok tt, set_sme_risk_signals
        (foldl (λ t r, upsert sr_sme r t) (db_sme_risk_signals db) (omap id rows)) db)
  | None => ∃ e, recomputeSmeRiskSignals updatedAt db = (Throw e, db)
  end.
Proof.
  intros m. unfold recomputeSmeRiskSignals, mbind, M_bind, get_state. rewrite sme_fold. fold m.
  unfold transaction.
  set (g := λ (row : option SmeRiskDbRow) db, match row with
    | Some row => set_sme_risk_signals (upsert sr_sme row (db_sme_risk_signals db)) db
    | None => db end).
  pose proof (for_each_update (row_of_sme updatedAt) g (EError "upsert failed") m db) as Hl.
  assert (∀ rows db, foldl (λ db row, g row db) db rows
    = set_sme_risk_signals (foldl (λ t r, upsert sr_sme r t) (db_sme_risk_signals db)
        (omap id rows)) db) as Hs.
  { intros rows. induction rows as [|[r|] rows IH]; intros d; cbn; [by destruct d| |apply IH].
    by rewrite IH. }
  assert (∀ l d, for_each l (λ sa, upsert_sme updatedAt sa.1 sa.2) d
    = for_each l (λ x, match row_of_sme updatedAt x with
        | Some r => modify (g r) | None => throw (EError "upsert failed") end) d) as ->.
  { intros l. induction l as [|sa l IH]; intros d; simpl; [done|].
    unfold mbind, M_bind. unfold upsert_sme at 1, row_of_sme at 1.
    destruct (total sa.2 =? 0); [apply IH|].
    destruct (sme_row updatedAt sa.1 sa.2); simpl; [apply IH|done]. }
  cbv zeta in Hl. destruct (mapM (row_of_sme updatedAt) m) as [rows|].
  - by rewrite Hl, Hs.
  - destruct Hl as [s' ->]. eauto.
Qed.

Lemma sme_rows_spec updatedAt m rows :
  jm_wf m → mapM (row_of_sme updatedAt) m = Some rows →
  keys_wf sr_sme (omap id rows)
  ∧ (∀ sme, sme ∈ sr_sme <$> omap id rows → sme ∈ jm_keys m)
  ∧ ∀ sme acc, jm_get sme m = Some acc →
      if total acc =? 0 then find_key sr_sme sme (omap id rows) = None
      else ∃ row, sme_row updatedAt sme acc = Some row
        ∧ find_key sr_sme sme (omap id rows) = Some row.
Proof.
  revert rows. induction m as [|[s a] m IH]; intros rows Hwf Hm%mapM_Some.
  { apply Forall2_nil_inv_l in Hm as ->. split_and!; [constructor|set_solver|done]. }
  apply Forall2_cons_inv_l in Hm as (row&rows'&Hrow&Hm%mapM_Some&->).
  apply NoDup_cons in Hwf as [Hs Hwf].
  destruct (IH rows' Hwf Hm) as (Hk&Hin&Hget). clear IH.
  assert (find_key sr_sme s (omap id rows') = None) as Hnone.
  { destruct (find_key _ s _) as [r|] eqn:E; [|done]. apply find_key_Some in E as [Hr <-].
    exfalso. apply Hs, Hin, list_elem_of_fmap. eauto. }
  unfold row_of_sme in Hrow. simpl in Hrow. destruct (total a =? 0) eqn:Ea.
  - injection Hrow as <-. cbn. split_and!; [done|set_solver|].
    intros sme acc. destruct (String.eqb_spec sme s) as [->|]; [|apply Hget].
    intros [= <-]. by rewrite Ea.
  - destruct (sme_row updatedAt s a) as [r|] eqn:Er; [|done]. injection Hrow as <-.
    destruct (sme_row_inv _ _ _ _ Er) as (Hsme&_). cbn. rewrite Hsme. split_and!.
    + unfold keys_wf. csimpl. rewrite Hsme. constructor; [|done]. intros Hx. by apply Hs, Hin.
    + set_solver.
    + intros sme acc. destruct (String.eqb_spec sme s) as [->|Hne].
      * intros [= <-]. rewrite Ea, decide_True by done. eauto.
      * intros Hg. rewrite decide_False by congruence. by apply Hget.
Qed.

Lemma getSmeRiskSignals_key db s :
  keys_wf sr_sme (db_sme_risk_signals db) → s ≠ "" →
  map signal_figures (getSmeRiskSignals db (Some s))
  = match find_key sr_sme s (db_sme_risk_signals db) with
    | Some r => [(sr_sme r, sr_debtor_concentration_bps r, sr_invoice_size_risk_bps r,
                  toBigInt (JStr (sr_total_volume r)))]
    | None => []
    end.
Proof.
  intros Hwf Hs%String.eqb_neq. unfold getSmeRiskSignals. rewrite Hs, filter_find_key by done.
  destruct (find_key _ _ _) as [r|]; simpl.
  - pose proof (pg_order_sme_perm [r]) as Hp. by apply Permutation_singleton_r in Hp as ->.
  - pose proof (pg_order_sme_perm []) as Hp. by apply Permutation_nil_r in Hp as ->.
Qed.

Lemma group_created_inv l sme :
  match jm_get sme (group_by c_owner add_created l) with
  | Some acc => acc_inv (filter (λ c, c_owner c = sme) l) acc
  | None => filter (λ c, c_owner c = sme) l = []
  end.
Proof.
  rewrite jm_get_group_by. pose proof (group_acc_inv (filter (λ c, c_owner c = sme) l)) as Hinv.
  destruct (group_acc _ _) eqn:E; [done|].
  destruct (filter _ l) as [|c l'] eqn:El; [done|].
  destruct (group_acc_cons (c :: l')); [done|congruence].
Qed.

(** Recomputing the risk signals is one transaction: it fails and changes
    nothing, or an SME whose stored invoices have volume reads back exactly the
    debtor concentration, the invoice-size risk and the total volume that its
    invoices define, and every other SME reads what it read before. *)
Theorem recomputeSmeRiskSignals_correct updatedAt db :
  keys_wf sr_sme (db_sme_risk_signals db) →
  match recomputeSmeRiskSignals updatedAt db with
  | (Throw _, db') => db' = db
  | (Ok _, db') =>
      db' = set_sme_risk_signals (db_sme_risk_signals db') db
      ∧ keys_wf sr_sme (db_sme_risk_signals db')
      ∧ ∀ sme, sme ≠ "" →
          let l := invoices_of sme (created_events db) in
          map signal_figures (getSmeRiskSignals db' (Some sme))
          = if volume l =? 0 then map signal_figures (getSmeRiskSignals db (Some sme))
            else [sme_figures sme l]
  end.
Proof.
  intros Hwf. pose proof (recomputeSmeRiskSignals_eq updatedAt db) as Heq. cbv zeta in Heq.
  set (m := group_by _ _ _) in Heq. destruct (mapM _ m) as [rows|] eqn:Hrows.
  2:{ by destruct Heq as [e ->]. }
  rewrite Heq. destruct (sme_rows_spec _ _ _ (group_by_wf _ _ _) Hrows) as (Hk&Hin&Hget).
  split; [done|]. split; [by apply keys_wf_foldl_upsert|]. intros sme Hsme l.
  rewrite !getSmeRiskSignals_key by (done || by apply keys_wf_foldl_upsert). simpl.
  rewrite find_key_foldl_upsert by done.
  pose proof (group_created_inv (omap created_of (created_events db)) sme) as Hacc.
  fold m in Hacc. fold (invoices_of sme (created_events db)) in Hacc. fold l in Hacc.
  destruct (jm_get sme m) as [acc|] eqn:Em.
  - specialize (Hget sme acc Em). destruct Hacc as (Ht&Ha). rewrite Ht in Hget.
    pose proof (conj Ht Ha : acc_inv l acc) as Hacc. destruct (volume l =? 0).
    + by rewrite Hget.
    + destruct Hget as (row&Hrow&->). destruct (sme_row_inv _ _ _ _ Hrow) as (->&->&->&->).
      unfold sme_figures, debtorBps, sizeBps.
      by rewrite toBigInt_pretty, Ht, (maxDebtorVolume_spec _ _ Hacc), (largeVolume_spec _ _ Hacc).
  - rewrite Hacc. simpl. destruct (find_key _ sme (omap id rows)) as [r|] eqn:Er; [|done].
    apply find_key_Some in Er as [Hr <-]. exfalso.
    apply jm_get_None in Em. apply Em, Hin, list_elem_of_fmap. eauto.
Qed.

Lemma bps_le a b : 0 < b → a ≤ b → Z.quot (a * 10000) b ≤ 10000.
Proof.
  intros. transitivity (Z.quot (10000 * b) b); [apply Z.quot_le_mono; lia|].
  by rewrite Z.quot_mul by lia.
Qed.

Lemma bps_full a b : 0 < b → 0 ≤ a ≤ b → Z.quot (a * 10000) b = 10000 ↔ a = b.
Proof.
  intros Hb Ha. rewrite Z.quot_div_nonneg by lia. split; [|intros ->].
  - intros H. pose proof (Z.div_mod (a * 10000) b ltac:(lia)).
    pose proof (Z.mod_pos_bound (a * 10000) b Hb). nia.
  - by rewrite Z.mul_comm, Z.div_mul by lia.
Qed.

(** Risk signals are proportions: when no stored amount is negative, both
    figures are between 0 and 10000 basis points, the volume is positive, and
    the concentration is 10000 exactly when one debtor owes the whole volume. *)
Theorem sme_figures_bounds sme l :
  Forall (λ c, 0 ≤ c_amount c) l → volume l ≠ 0 →
  let '(_, concentration, size_risk, vol) := sme_figures sme l in
  0 ≤ concentration ≤ 10000 ∧ 0 ≤ size_risk ≤ 10000 ∧ 0 < vol
  ∧ (concentration = 10000 ↔ ∃ d, debtor_volume d l = vol).
Proof.
  intros Hpos Hne. simpl.
  assert (0 < volume l) as Hv by (pose proof (sum_by_nonneg c_amount l Hpos); unfold volume in *; lia).
  assert (∀ d, 0 ≤ debtor_volume d l ≤ volume l) as Hd
    by (intros d; by apply (sum_by_filter_le c_amount)).
  assert (0 ≤ large_volume l ≤ volume l) as Hlarge by (by apply (sum_by_filter_le c_amount)).
  assert (0 ≤ largest_debtor l ≤ volume l) as Hmax.
  { split; [by destruct (proj1 (foldr_max_le _ _) (Z.le_refl (largest_debtor l)))|].
    apply foldr_max_le. split; [lia|]. apply Forall_forall.
    intros v (d&->&_)%list_elem_of_fmap. apply Hd. }
  rewrite bps_full by lia.
  split; [split; [apply Z.quot_pos; lia|apply bps_le; lia]|].
  split; [split; [apply Z.quot_pos; lia|apply bps_le; lia]|].
  split; [lia|]. split.
  - intros Hl. destruct (foldr_max_attained (map (λ d, debtor_volume d l) (map c_debtor l))) as [H0|H].
    + unfold largest_debtor in *. lia.
    + apply list_elem_of_fmap in H as (d&Hdv&_). exists d. unfold largest_debtor in Hl. congruence.
  - intros [d Hdv]. apply Z.le_antisymm; [lia|]. rewrite <-Hdv.
    pose proof (proj1 (foldr_max_le _ _) (Z.le_refl (largest_debtor l))) as [_ Hall].
    rewrite Forall_forall in Hall. apply Hall, list_elem_of_fmap. exists d. split; [done|].
    apply debtor_volume_cons. intros E. unfold debtor_volume in Hdv. rewrite E in Hdv.
    change (volume []) with 0 in Hdv. lia.
Qed.

End correct.
