(* ===== verification/Reorg.v ===== *)
(** * indexer/src/reorg.ts: the hash chain of indexed ledgers

    [ledger_hashes] records the hash and the parent's hash of indexed ledgers;
    [detectReorg] compares a new ledger's parent hash with what was recorded,
    and [rollbackFrom] forgets everything from a ledger on, in a transaction of a
    client whose connection may lose any of its statements. *)
From S2P Require Import Prelude JsValue JsMap Parser Database Db.
#[local] Open Scope string_scope.
#[local] Open Scope list_scope.
#[local] Open Scope Z_scope.

Record LedgerMeta := {
  sequence : Z;
  hash : string;
  prevHash : string;
}.

(** [fetchLedgerMeta] on the answer of Horizon, which may be an error. *)
Definition fetchLedgerMeta (ledger : Z → result (string * string)) (seq : Z) : option LedgerMeta :=
  match ledger seq with
  | Ok (h, p) => Some {| sequence := seq; hash := h; prevHash := p |}
  | Throw _ => None
  end.

Definition detectReorg (meta : LedgerMeta) : M Database bool := λ db,
  match db_ledger_hashes db !! (sequence meta - 1) with
  | None => (Ok false, db)
  | Some row => (Ok (negb (String.eqb (lh_hash row) (prevHash meta))), db)
  end.

Definition recordLedgerHash (meta : LedgerMeta) : M Database unit :=
  modify (λ db, set_ledger_hashes
    (<[sequence meta := {| lh_hash := hash meta; lh_prev_hash := prevHash meta |}]>
      (db_ledger_hashes db)) db).

(** [DELETE FROM events WHERE ledger_sequence >= $1]; its row count. *)
Definition delete_events (fromLedger : Z) : M Database Z := λ db,
  let kept := filter (λ r, row_ledger_sequence r < fromLedger) (db_events db) in
  (Ok (lengthZ (db_events db) - lengthZ kept), set_events kept db).

(** [DELETE FROM ledger_hashes WHERE ledger_sequence >= $1]. *)
Definition delete_hashes (fromLedger : Z) : M Database unit :=
  modify (λ db, set_ledger_hashes
    (filter (λ kv, kv.1 < fromLedger) (db_ledger_hashes db)) db).

(** [INSERT INTO reorg_log]: [events_removed] is an [INTEGER]. *)
Definition insert_reorg_log (fromLedger eventsRemoved : Z) : M Database unit :=
  match pg_integer eventsRemoved with
  | Some n => modify (λ db, set_reorg_log (db_reorg_log db ++ [{|
      rl_reorg_ledger := fromLedger;
      rl_rolled_back_from := fromLedger;
      rl_events_removed := n;
      rl_detail := ("Rolled back " +:+ pretty n +:+ " event(s) from ledger "
                    +:+ pretty fromLedger +:+ " onward")%string |}]) db)
  | None => throw (EError "integer out of range")
  end.

(** *** The client's transaction

    The statements of one call, each of which the connection may lose. *)
Inductive Statement := BEGIN | DELETE_EVENTS | DELETE_HASHES | INSERT_LOG | COMMIT | ROLLBACK.

#[export] Instance Statement_eq_dec : EqDecision Statement.
Proof. solve_decision. Defined.

Record Connection := {
  (** [pool.connect()] throws *)
  cn_refused : option exn;
  (** a statement throws, instead of being executed *)
  cn_fault : Statement → option exn;
  (** but a [COMMIT] that throws may have been executed *)
  cn_committed : bool;
}.

(** The database, the transaction the client has open, and whether the client
    is back in the pool. *)
Record Session := {
  se_db : Database;
  se_tx : option Database;
  se_released : bool;
}.

Definition session_of (db : Database) : Session :=
  {| se_db := db; se_tx := None; se_released := true |}.

Section client.
Context (cn : Connection).

Definition connect : M Session unit := λ s,
  match cn_refused cn with
  | Some e => (Throw e, s)
  | None => (Ok tt, {| se_db := se_db s; se_tx := se_tx s; se_released := false |})
  end.

Definition release : M Session unit :=
  modify (λ s, {| se_db := se_db s; se_tx := se_tx s; se_released := true |}).

Definition begin_tx : M Session unit := λ s,
  match cn_fault cn BEGIN with
  | Some e => (Throw e, s)
  | None => (Ok tt, {| se_db := se_db s; se_tx := Some (se_db s); se_released := se_released s |})
  end.

(** A statement inside the transaction; one the server refuses changes nothing. *)
Definition in_tx {A} (st : Statement) (m : M Database A) : M Session A := λ s,
  match cn_fault cn st with
  | Some e => (Throw e, s)
  | None =>
      match m (default (se_db s) (se_tx s)) with
      | (Ok a, db) => (Ok a, {| se_db := se_db s; se_tx := Some db; se_released := se_released s |})
      | (Throw e, _) => (Throw e, s)
      end
  end.

Definition commit_tx : M Session unit := λ s,
  let s' := {| se_db := default (se_db s) (se_tx s); se_tx := None; se_released := se_released s |} in
  match cn_fault cn COMMIT with
  | Some e => (Throw e, if cn_committed cn then s' else s)
  | None => (Ok tt, s')
  end.

Definition rollback_tx : M Session unit := λ s,
  match cn_fault cn ROLLBACK with
  | Some e => (Throw e, s)
  | None => (Ok tt, {| se_db := se_db s; se_tx := None; se_released := se_released s |})
  end.

(** [try { ... } finally { client.release(); }] *)
Definition finally_release {A} (m : M Session A) : M Session A := λ s,
  let '(r, s') := m s in (r, (release s').2).

Definition rollbackFrom (fromLedger : Z) : M Session Z :=
  _ ← connect;
  finally_release (try_catch (
    _ ← begin_tx;
    eventsRemoved ← in_tx DELETE_EVENTS (delete_events fromLedger);
    _ ← in_tx DELETE_HASHES (delete_hashes fromLedger);
    _ ← in_tx INSERT_LOG (insert_reorg_log fromLedger eventsRemoved);
    _ ← commit_tx;
    mret eventsRemoved)
    (λ err, _ ← rollback_tx; throw err)).

End client.

(** A connection that loses nothing; what a call does to the database on it. *)
Definition connected : Connection :=
  {| cn_refused := None; cn_fault := λ _, None; cn_committed := true |}.

Definition rollback_database (fromLedger : Z) : M Database Z := λ db,
  let '(r, s) := rollbackFrom connected fromLedger (session_of db) in (r, se_db s).

(** What the poll loop does with the metadata of a batch's highest ledger:
    [true] when it rolled back. *)
Definition check_tip (meta : LedgerMeta) : M Database bool :=
  reorg ← detectReorg meta;
  if reorg : bool then rollback_database (sequence meta - 1) ≫= λ _, mret true
  else recordLedgerHash meta ≫= λ _, mret false.

(** Recorded neighbours are linked. *)
Definition chain_linked (m : gmap Z LedgerHashRow) : Prop :=
  ∀ s h h', m !! s = Some h → m !! (s + 1) = Some h' → lh_prev_hash h' = lh_hash h.

(** What a rollback leaves. *)
Definition rolled_back (fromLedger : Z) (db db' : Database) (removed : Z) : Prop :=
  db_events db' = filter (λ r, row_ledger_sequence r < fromLedger) (db_events db)
  ∧ (∀ s, db_ledger_hashes db' !! s
          = if decide (s < fromLedger) then db_ledger_hashes db !! s else None)
  ∧ removed = lengthZ (filter (λ r, fromLedger ≤ row_ledger_sequence r) (db_events db))
  ∧ (∃ row, db_reorg_log db' = db_reorg_log db ++ [row]
      ∧ rl_rolled_back_from row = fromLedger ∧ rl_events_removed row = removed)
  ∧ db_tranche_apy db' = db_tranche_apy db
  ∧ db_sme_risk_signals db' = db_sme_risk_signals db.

Lemma filter_partition_length (n : Z) (l : list EventRow) :
  lengthZ (filter (λ r, row_ledger_sequence r < n) l)
  + lengthZ (filter (λ r, n ≤ row_ledger_sequence r) l) = lengthZ l.
Proof.
  unfold lengthZ. induction l as [|r l IH]; [done|]. rewrite !filter_cons.
  repeat case_decide; cbn [length]; lia.
Qed.

Definition removed_count (fromLedger : Z) (db : Database) : Z :=
  lengthZ (filter (λ r, fromLedger ≤ row_ledger_sequence r) (db_events db)).

(** The three statements of the body. *)
Lemma body_statements fromLedger db :
  ∃ db1 db2,
    delete_events fromLedger db = (Ok (removed_count fromLedger db), db1)
    ∧ delete_hashes fromLedger db1 = (Ok tt, db2)
    ∧ (if decide (removed_count fromLedger db ≤ 2147483647) then
         ∃ db3, insert_reorg_log fromLedger (removed_count fromLedger db) db2 = (Ok tt, db3)
           ∧ rolled_back fromLedger db db3 (removed_count fromLedger db)
       else insert_reorg_log fromLedger (removed_count fromLedger db) db2
            = (Throw (EError "integer out of range"), db2)).
Proof.
  pose proof (filter_partition_length fromLedger (db_events db)) as Hlen.
  unfold removed_count, delete_events, delete_hashes, modify. eexists _, _. split_and!; [|done|].
  { f_equal. f_equal. lia. }
  unfold insert_reorg_log, pg_integer.
  pose proof (lengthZ_nonneg (filter (λ r, fromLedger ≤ row_ledger_sequence r) (db_events db))) as Hnn.
  set (n := lengthZ (filter (λ r, fromLedger ≤ row_ledger_sequence r) (db_events db))) in *.
  case_decide as Hn.
  - eexists. rewrite (proj2 (Z.leb_le _ _) Hn), (proj2 (Z.leb_le (-2147483648) _)) by lia.
    split; [done|]. split_and!; try done.
    + intros s. simpl. rewrite map_lookup_filter. destruct (db_ledger_hashes db !! s); simpl.
      * by repeat case_decide; simpl; repeat case_guard.
      * by case_decide.
    + by eexists.
  - rewrite (proj2 (Z.leb_gt n 2147483647)), andb_false_r by lia. done.
Qed.

(** The first statement that fails, with its error; the log's is refused when
    the count is no [INTEGER]. *)
Definition first_failure (cn : Connection) (removed : Z) : option (Statement * exn) :=
  let lost st := pair st <$> cn_fault cn st in
  head (omap id [lost BEGIN; lost DELETE_EVENTS; lost DELETE_HASHES; lost INSERT_LOG;
    (if decide (removed ≤ 2147483647) then None
     else Some (INSERT_LOG, EError "integer out of range"));
    lost COMMIT]).

(** A lost statement, whether the [ROLLBACK] is lost too or not. *)
Ltac lost_statement cn := by destruct (cn_fault cn ROLLBACK).

(** C26. A rollback is all or nothing, whatever the connection loses. When every
    statement is executed, no event and no recorded hash from the ledger on is
    left, everything before it and every other table is as it was, and the
    count it returns and logs is the number of events removed. When no client
    is to be had, or a statement fails, or the count overflows the [INTEGER]
    column of the log, the call throws and the database is as it was, unless
    what was lost is only the answer to an executed [COMMIT]. The error is the
    failed statement's, or the [ROLLBACK]'s when that fails too. The client is
    back in the pool in every case, with no transaction open unless the
    [ROLLBACK] failed. *)
Theorem rollbackFrom_correct cn fromLedger db :
  let removed := removed_count fromLedger db in
  let '(r, s) := rollbackFrom cn fromLedger (session_of db) in
  se_released s = true
  ∧ (cn_fault cn ROLLBACK = None → se_tx s = None)
  ∧ match cn_refused cn, first_failure cn removed with
    | Some e, _ => r = Throw e ∧ se_db s = db
    | None, None =>
        r = Ok removed ∧ se_tx s = None ∧ rolled_back fromLedger db (se_db s) removed
        ∧ Forall (λ row, row_ledger_sequence row < fromLedger) (db_events (se_db s))
    | None, Some (st, e) =>
        r = Throw (default e (cn_fault cn ROLLBACK))
        ∧ (if decide (st = COMMIT ∧ cn_committed cn = true)
           then rolled_back fromLedger db (se_db s) removed else se_db s = db)
    end.
Proof.
  intros removed. destruct (body_statements fromLedger db) as (db1&db2&E1&E2&E3).
  fold removed in E1, E3. unfold rollbackFrom, connect, mbind, M_bind.
  destruct (cn_refused cn) as [e|]; [done|].
  unfold finally_release, try_catch, begin_tx, in_tx, commit_tx, rollback_tx, release, modify, throw,
    mret, M_ret, first_failure, session_of, connect.
  destruct (cn_fault cn BEGIN) as [e|].
  { lost_statement cn. }
  destruct (cn_fault cn DELETE_EVENTS) as [e|].
  { lost_statement cn. }
  cbn -[delete_events delete_hashes insert_reorg_log]. rewrite E1.
  destruct (cn_fault cn DELETE_HASHES) as [e|].
  { lost_statement cn. }
  cbn -[delete_events delete_hashes insert_reorg_log]. rewrite E2.
  destruct (cn_fault cn INSERT_LOG) as [e|].
  { lost_statement cn. }
  cbn -[delete_events delete_hashes insert_reorg_log decide]. case_decide as Hn.
  2:{ rewrite E3. by destruct (cn_fault cn ROLLBACK). }
  destruct E3 as (db3&E3&Hr). rewrite E3.
  destruct (cn_fault cn COMMIT) as [e|].
  - destruct (cn_committed cn); by destruct (cn_fault cn ROLLBACK).
  - simpl. split_and!; try done. destruct Hr as [-> _].
    apply Forall_forall. by intros row [? _]%list_elem_of_filter.
Qed.

(** On a connection that loses nothing. *)
Lemma rollbackFrom_cases fromLedger db :
  match rollback_database fromLedger db with
  | (Ok removed, db') => rolled_back fromLedger db db' removed
  | (Throw _, db') => db' = db
  end.
Proof.
  destruct (body_statements fromLedger db) as (db1&db2&E1&E2&E3).
  unfold rollback_database, rollbackFrom, connect, mbind, M_bind.
  cbn -[delete_events delete_hashes insert_reorg_log].
  unfold finally_release, try_catch, in_tx. cbn -[delete_events delete_hashes insert_reorg_log].
  rewrite E1. cbn -[delete_events delete_hashes insert_reorg_log].
  rewrite E2. cbn -[delete_events delete_hashes insert_reorg_log].
  case_decide; [destruct E3 as (db3&E3&Hr)|]; by rewrite E3.
Qed.

Lemma rolled_back_linked fromLedger db db' removed :
  rolled_back fromLedger db db' removed →
  chain_linked (db_ledger_hashes db) → chain_linked (db_ledger_hashes db').
Proof.
  intros (_&Hm&_) Hc s h h'. rewrite !Hm. repeat case_decide; try done. apply Hc.
Qed.

(** The recorded hashes stay a linked chain: checking a ledger at or above
    every recorded one keeps it so, whether the check records the ledger or
    rolls back. The check rolls back exactly when the parent was recorded with
    another hash, and the same ledger is not reported twice: after the rollback
    it is recorded. *)
Theorem check_tip_chain meta db b db' :
  chain_linked (db_ledger_hashes db) →
  (∀ s, sequence meta < s → db_ledger_hashes db !! s = None) →
  check_tip meta db = (Ok b, db') →
  chain_linked (db_ledger_hashes db')
  ∧ (b = true ↔ ∃ row, db_ledger_hashes db !! (sequence meta - 1) = Some row
                  ∧ lh_hash row ≠ prevHash meta)
  ∧ (b = true → check_tip meta db' =
      (Ok false, set_ledger_hashes (<[sequence meta :=
        {| lh_hash := hash meta; lh_prev_hash := prevHash meta |}]> (db_ledger_hashes db')) db')).
Proof.
  intros Hc Htop. unfold check_tip, mbind, M_bind.
  destruct (detectReorg meta db) as [r d] eqn:Ed. unfold detectReorg in Ed.
  assert (r = Ok true ∧ d = db ∧ (∃ row, db_ledger_hashes db !! (sequence meta - 1) = Some row
      ∧ lh_hash row ≠ prevHash meta)
    ∨ r = Ok false ∧ d = db ∧ ∀ row, db_ledger_hashes db !! (sequence meta - 1) = Some row →
      lh_hash row = prevHash meta) as [(->&->&Hne)|(->&->&Heq)].
  { destruct (db_ledger_hashes db !! (sequence meta - 1)) as [row|].
    - destruct (String.eqb_spec (lh_hash row) (prevHash meta)); simplify_eq/=; [right|left];
        split_and!; try done; [by intros ? [= <-]|eauto].
    - simplify_eq. right. done. }
  - pose proof (rollbackFrom_cases (sequence meta - 1) db) as Hr.
    destruct (rollback_database _ db) as [[n|e] d]; [|done]. intros [= <- <-].
    split; [by eapply rolled_back_linked|]. split; [done|]. intros _. unfold detectReorg.
    destruct Hr as (_&Hm&_). rewrite Hm, decide_False by lia. done.
  - intros [= <- <-]. split; [|split; [|done]].
    + intros s h h'. simpl. intros H1 H2.
      destruct (decide (s = sequence meta)) as [->|Hs].
      { rewrite lookup_insert_ne, Htop in H2 by lia. done. }
      rewrite lookup_insert_ne in H1 by done.
      destruct (decide (s + 1 = sequence meta)) as [Hs1|Hs1].
      * rewrite Hs1, lookup_insert_eq in H2. simplify_eq/=. symmetry. apply Heq.
        by replace (sequence meta - 1) with s by lia.
      * rewrite lookup_insert_ne in H2 by done. by eapply Hc.
    + split; [done|]. intros (row&Hrow&Hne). by apply Heq in Hrow.
Qed.
