(* ===== verification/PollLoop.v ===== *)
(** * indexer/src/index.ts: configuration and the live-tail poll loop

    One iteration of [pollLoop] is [poll_iteration]: the code of the [try] and
    of the [catch] over the loop's variables, the shared [state] and a store.
    The store is an interface, [EventStore]: the operations of db.ts and reorg.ts
    the loop calls, which may throw at any call, and what the loop relies on
    them for. What Horizon answers during an iteration is a [HorizonView]. *)
From S2P Require Import Prelude JsValue JsMap Parser Database Db TrancheApy SmeRisk Reorg.
From Stdlib Require Import Ascii.
#[local] Open Scope string_scope.
#[local] Open Scope list_scope.
#[local] Open Scope Z_scope.

(** ** Configuration *)

(** [.filter(Boolean)] on strings. *)
Definition nonempty (l : list string) : list string :=
  filter (λ s, negb (String.eqb s "")) l.

Definition CONTRACT_IDS (env : string → option string) : list string :=
  let INVOICE_POOL_CONTRACT_IDS := nonempty (split_char "," (env_or env "CONTRACT_IDS" "")) in
  let CREDIT_SCORE_CONTRACT_ID := trim (env_or env "CREDIT_SCORE_CONTRACT_ID" "") in
  let ORACLE_REGISTRY_CONTRACT_ID := trim (env_or env "ORACLE_REGISTRY_CONTRACT_ID" "") in
  let SECONDARY_MARKET_CONTRACT_ID := trim (env_or env "SECONDARY_MARKET_CONTRACT_ID" "") in
  let INSURANCE_CONTRACT_ID := trim (env_or env "INSURANCE_CONTRACT_ID" "") in
  let ADDITIONAL_CONTRACT_IDS := map (λ k, trim (env_or env k ""))
    ["ACCESS_CONTROL_CONTRACT_ID"; "ARBITRATION_CONTRACT_ID"; "GOVERNANCE_CONTRACT_ID";
     "REFERRAL_CONTRACT_ID"; "SHARE_CONTRACT_ID"] in
  js_set (nonempty (INVOICE_POOL_CONTRACT_IDS
    ++ [CREDIT_SCORE_CONTRACT_ID; ORACLE_REGISTRY_CONTRACT_ID; SECONDARY_MARKET_CONTRACT_ID;
        INSURANCE_CONTRACT_ID] ++ ADDITIONAL_CONTRACT_IDS)).

(** [args.indexOf(x)], [None] for -1. *)
Fixpoint index_of (x : string) (args : list string) : option nat :=
  match args with
  | [] => None
  | y :: args' => if String.eqb x y then Some 0%nat else S <$> index_of x args'
  end.

Record BackfillArgs := { ba_startLedger : Z; ba_endLedger : option Z }.

Definition parseBackfillArgs (args : list string) : result (option BackfillArgs) :=
  match index_of "--backfill" args with
  | None => Ok None
  | Some backfillIdx =>
      match args !! S backfillIdx ≫= parseInt with
      | None => Throw (EError "--backfill requires a numeric starting ledger sequence")
      | Some startLedger =>
          let endLedger :=
            match index_of "--to" args with
            | Some toIdx =>
                match args !! S toIdx with
                | Some s => if String.eqb s "" then None else parseInt s
                | None => None
                end
            | None => None
            end in
          Ok (Some {| ba_startLedger := startLedger; ba_endLedger := endLedger |})
      end
  end.

(** ** The store the loop writes to *)
Class EventStore (S : Type) := {
  es_storeEvents : list IndexedEvent → M S StoreResult;
  es_detectReorg : LedgerMeta → M S bool;
  es_recordLedgerHash : LedgerMeta → M S unit;
  es_rollbackFrom : Z → M S Z;
  es_recomputeTrancheApy : string → M S unit;
  es_recomputeSmeRiskSignals : string → M S unit;
  (** an event with this id is stored *)
  es_has : string → S → Prop;
  es_store_has : ∀ evs,
    triple (λ _, True) (es_storeEvents evs)
      (λ _ s, ∀ e, e ∈ evs → es_has (ev_id e) s) (λ _, True);
  es_store_keeps : ∀ i evs,
    triple (es_has i) (es_storeEvents evs) (λ _, es_has i) (es_has i);
  es_detect_keeps : ∀ i meta,
    triple (es_has i) (es_detectReorg meta) (λ _, es_has i) (es_has i);
  es_record_keeps : ∀ i meta,
    triple (es_has i) (es_recordLedgerHash meta) (λ _, es_has i) (es_has i);
  es_apy_keeps : ∀ i now,
    triple (es_has i) (es_recomputeTrancheApy now) (λ _, es_has i) (es_has i);
  es_risk_keeps : ∀ i now,
    triple (es_has i) (es_recomputeSmeRiskSignals now) (λ _, es_has i) (es_has i);
}.

(** ** The loop *)

Record HorizonView := {
  (** the effects after a cursor: [response.records], which may be absent *)
  hv_effects : string → result (option (list HorizonRecord));
  (** hash and parent hash of a ledger *)
  hv_ledger : Z → result (string * string);
  (** the sequence of the newest ledger, when the answer has one *)
  hv_tip : result (option Z);
  (** [new Date().toISOString()] *)
  hv_now : string;
}.

Record PollState (S : Type) := {
  cursor : option string;
  consecutiveFailures : Z;
  lastProcessedLedger : string;
  indexerActive : bool;
  (** the counters and the gauge of metrics.ts; [Some None] is [NaN] *)
  eventsIndexedTotal : Z;
  reorgsDetectedTotal : Z;
  pollErrorsTotal : Z;
  indexerLagLedgers : option (option Z);
  store : S;
}.
Arguments cursor {S} _.
Arguments consecutiveFailures {S} _.
Arguments lastProcessedLedger {S} _.
Arguments indexerActive {S} _.
Arguments eventsIndexedTotal {S} _.
Arguments reorgsDetectedTotal {S} _.
Arguments pollErrorsTotal {S} _.
Arguments indexerLagLedgers {S} _.
Arguments store {S} _.

Section poll.
Context {S : Type} `{EventStore S}.
Context (ids : ContractIds) (POLLING_INTERVAL_MS : Z).
Implicit Types st : PollState S.

(** Assignments to the loop's variables. *)
Definition upd_cursor (f : option string → option string) st : PollState S := {|
  cursor := f (cursor st); consecutiveFailures := consecutiveFailures st;
  lastProcessedLedger := lastProcessedLedger st; indexerActive := indexerActive st;
  eventsIndexedTotal := eventsIndexedTotal st; reorgsDetectedTotal := reorgsDetectedTotal st;
  pollErrorsTotal := pollErrorsTotal st; indexerLagLedgers := indexerLagLedgers st;
  store := store st |}.

Definition set_processed (l : string) st : PollState S := {|
  cursor := cursor st; consecutiveFailures := consecutiveFailures st;
  lastProcessedLedger := l; indexerActive := indexerActive st;
  eventsIndexedTotal := eventsIndexedTotal st; reorgsDetectedTotal := reorgsDetectedTotal st;
  pollErrorsTotal := pollErrorsTotal st; indexerLagLedgers := indexerLagLedgers st;
  store := store st |}.

Definition set_health (failures : Z) (active : bool) st : PollState S := {|
  cursor := cursor st; consecutiveFailures := failures;
  lastProcessedLedger := lastProcessedLedger st; indexerActive := active;
  eventsIndexedTotal := eventsIndexedTotal st; reorgsDetectedTotal := reorgsDetectedTotal st;
  pollErrorsTotal := pollErrorsTotal st; indexerLagLedgers := indexerLagLedgers st;
  store := store st |}.

Definition inc_metrics (events reorgs errors : Z) st : PollState S := {|
  cursor := cursor st; consecutiveFailures := consecutiveFailures st;
  lastProcessedLedger := lastProcessedLedger st; indexerActive := indexerActive st;
  eventsIndexedTotal := eventsIndexedTotal st + events;
  reorgsDetectedTotal := reorgsDetectedTotal st + reorgs;
  pollErrorsTotal := pollErrorsTotal st + errors; indexerLagLedgers := indexerLagLedgers st;
  store := store st |}.

Definition set_lag (lag : option Z) st : PollState S := {|
  cursor := cursor st; consecutiveFailures := consecutiveFailures st;
  lastProcessedLedger := lastProcessedLedger st; indexerActive := indexerActive st;
  eventsIndexedTotal := eventsIndexedTotal st; reorgsDetectedTotal := reorgsDetectedTotal st;
  pollErrorsTotal := pollErrorsTotal st; indexerLagLedgers := Some lag; store := store st |}.

Definition set_store (s : S) st : PollState S := {|
  cursor := cursor st; consecutiveFailures := consecutiveFailures st;
  lastProcessedLedger := lastProcessedLedger st; indexerActive := indexerActive st;
  eventsIndexedTotal := eventsIndexedTotal st; reorgsDetectedTotal := reorgsDetectedTotal st;
  pollErrorsTotal := pollErrorsTotal st; indexerLagLedgers := indexerLagLedgers st;
  store := s |}.

(** [await] of an operation of the store. *)
Definition with_store {A} (m : M S A) : M (PollState S) A := λ st,
  let '(r, s) := m (store st) in (r, set_store s st).

(** The highest ledger of a batch:
    [Array.from(new Set(...)).sort((a, b) => a - b)] and its last element. *)
Definition tip_ledger (events : list IndexedEvent) : Z :=
  default 0 (last (sort_by id (remove_dups (map ev_ledgerSequence events)))).

(** The reorg check of a stored batch; [true] when one was detected. *)
Definition check_reorg (view : HorizonView) (events : list IndexedEvent) : M (PollState S) bool :=
  let tipLedger := tip_ledger events in
  match fetchLedgerMeta (hv_ledger view) tipLedger with
  | None => mret false
  | Some meta =>
      with_store (es_detectReorg meta) ≫= λ reorgDetected,
      if reorgDetected : bool then
        modify (inc_metrics 0 1 0) ≫= λ _,
        let rollbackPoint := tipLedger - 1 in
        with_store (es_rollbackFrom rollbackPoint) ≫= λ _,
        modify (upd_cursor (λ _, Some (pretty rollbackPoint))) ≫= λ _,
        modify (set_processed (pretty rollbackPoint)) ≫= λ _,
        mret true
      else
        with_store (es_recordLedgerHash meta) ≫= λ _, mret false
  end.

(** The derived tables, refreshed when an event of their contract is in the
    batch; their failures are caught. *)
Definition refresh_derived (view : HorizonView) (events : list IndexedEvent)
    : M (PollState S) unit :=
  (if existsb (λ e, bool_decide (ev_contractType e = CT_tranche)) events then
     try_catch (with_store (es_recomputeTrancheApy (hv_now view))) (λ _, mret tt)
   else mret tt) ≫= λ _,
  if existsb (λ e, bool_decide (ev_contractType e = CT_invoice)) events then
    try_catch (with_store (es_recomputeSmeRiskSignals (hv_now view))) (λ _, mret tt)
  else mret tt.

Definition process_batch (view : HorizonView) (events : list IndexedEvent)
    : M (PollState S) bool :=
  match last events with
  | None => mret false
  | Some lastEvent =>
      with_store (es_storeEvents events) ≫= λ _,
      modify (inc_metrics (lengthZ events) 0 0) ≫= λ _,
      modify (upd_cursor (λ _, Some (pretty (ev_ledgerSequence lastEvent)))) ≫= λ _,
      modify (set_processed (pretty (ev_ledgerSequence lastEvent))) ≫= λ _,
      check_reorg view events ≫= λ reorgDetected,
      refresh_derived view events ≫= λ _,
      mret reorgDetected
  end.

(** [Math.max(0, tipSequence - parseInt(cursor, 10))], when both are there. *)
Definition update_lag (view : HorizonView) : M (PollState S) unit :=
  try_catch (
    lift_result (hv_tip view) ≫= λ tip,
    get_state ≫= λ st,
    match tip, cursor st with
    | Some tipSequence, Some c =>
        if (tipSequence =? 0) || String.eqb c "" then mret tt
        else modify (set_lag ((λ n, Z.max 0 (tipSequence - n)) <$> parseInt c))
    | _, _ => mret tt
    end) (λ _, mret tt).

(** [cursor = lastRecord.paging_token || cursor], unless a reorg rewound it. *)
Definition advance_cursor (records : list HorizonRecord) (reorgDetected : bool)
    : M (PollState S) unit :=
  match last records with
  | Some lastRecord =>
      if negb reorgDetected then
        modify (upd_cursor (λ c, match r_paging_token lastRecord with
          | Some t => if String.eqb t "" then c else Some t
          | None => c end))
      else mret tt
  | None => mret tt
  end.

(** The body of the [try]. *)
Definition poll_body (view : HorizonView) : M (PollState S) unit :=
  get_state ≫= λ st,
  lift_result (hv_effects view (default "" (cursor st))) ≫= λ response,
  let records := default [] response in
  let events := parseEvents ids (hv_now view) records in
  process_batch view events ≫= λ reorgDetected,
  advance_cursor records reorgDetected ≫= λ _,
  update_lag view ≫= λ _,
  modify (set_health 0 true).

Definition BASE_DELAY_MS : Z := 1000.
Definition MAX_DELAY_MS : Z := 60000.
Definition BACKOFF_MULTIPLIER : Z := 2.
Definition ALERT_THRESHOLD : Z := 10.

Definition backoff_delay (failures : Z) : Z :=
  Z.min (BASE_DELAY_MS * BACKOFF_MULTIPLIER ^ (failures - 1)) MAX_DELAY_MS.

(** One iteration: the delay it sleeps and the state it leaves. *)
Definition poll_iteration (view : HorizonView) st : Z * PollState S :=
  match poll_body view st with
  | (Ok _, st') => (POLLING_INTERVAL_MS, st')
  | (Throw _, st') =>
      let failures := consecutiveFailures st' + 1 in
      let active := if ALERT_THRESHOLD <=? failures then false else indexerActive st' in
      (backoff_delay failures, inc_metrics 0 0 1 (set_health failures active st'))
  end.

Fixpoint poll_iterations (views : list HorizonView) st : list Z * PollState S :=
  match views with
  | [] => ([], st)
  | view :: views' =>
      let '(delay, st') := poll_iteration view st in
      let '(delays, st'') := poll_iterations views' st' in
      (delay :: delays, st'')
  end.

(** The lookback applied to the cursor at startup; [None] is [NaN]. *)
Definition lookback_cursor (lookback : option Z) (latest : option string) : option string :=
  match latest with
  | None => None
  | Some c =>
      if String.eqb c "" then Some c
      else match parseInt c, lookback with
           | Some n, Some k => Some (pretty (Z.max 0 (n - k)))
           | _, _ => Some "NaN"
           end
  end.

(** ** At least once: the cursor only leaves a batch that is stored *)

Lemma triple_with_store {A} (P : PollState S → Prop) (m : M S A) Q E :
  (∀ st, P st → match m (store st) with
                | (Ok a, s) => Q a (set_store s st)
                | (Throw _, s) => E (set_store s st)
                end) →
  triple P (with_store m) Q E.
Proof.
  intros Hm st Hst. unfold with_store. specialize (Hm st Hst).
  destruct (m (store st)) as [[a|e] s]; exact Hm.
Qed.

(** Since [reorgs] reorgs were counted: another was, or the batch is stored. *)
Definition batch_stored (reorgs : Z) (events : list IndexedEvent) st : Prop :=
  reorgs < reorgsDetectedTotal st
  ∨ reorgsDetectedTotal st = reorgs ∧ ∀ e, e ∈ events → es_has (ev_id e) (store st).

Lemma batch_stored_op {A} reorgs events (m : M S A) :
  (∀ i, triple (es_has i) m (λ _, es_has i) (es_has i)) →
  triple (batch_stored reorgs events) (with_store m)
    (λ _, batch_stored reorgs events) (batch_stored reorgs events).
Proof.
  intros Hm. apply triple_with_store. intros st Hst.
  assert (∀ s, (∀ i, es_has i (store st) → es_has i s) →
    batch_stored reorgs events (set_store s st)) as Hk.
  { intros s Hs. destruct Hst as [|[? ?]]; [by left|right; split; [done|]]. simpl. auto. }
  destruct (m (store st)) as [r s] eqn:Em.
  assert (∀ i, es_has i (store st) → es_has i s) as Hs.
  { intros i Hi. specialize (Hm i _ Hi). rewrite Em in Hm. by destruct r. }
  destruct r; auto.
Qed.

(** Once a reorg was counted nothing is left to keep. *)
Lemma reorg_counted_op {A} reorgs (m : M S A) :
  triple (λ st, reorgs < reorgsDetectedTotal st) (with_store m)
    (λ _ st, reorgs < reorgsDetectedTotal st) (λ st, reorgs < reorgsDetectedTotal st).
Proof. apply triple_with_store. intros st Hst. by destruct (m (store st)) as [[] ?]. Qed.

Lemma check_reorg_stored reorgs view events :
  triple (batch_stored reorgs events) (check_reorg view events)
    (λ _, batch_stored reorgs events) (batch_stored reorgs events).
Proof.
  unfold check_reorg. destruct (fetchLedgerMeta _ _) as [meta|]; [|by intros st].
  eapply triple_bind; [apply batch_stored_op; auto using es_detect_keeps|]. intros [].
  - apply (triple_bind _ _ (λ _ st, reorgs < reorgsDetectedTotal st)).
    { apply triple_modify. intros st [|[? _]]; simpl; lia. }
    intros _. apply (triple_bind _ _ (λ _ st, reorgs < reorgsDetectedTotal st)).
    { eapply triple_conseq; [apply (reorg_counted_op reorgs)|done|done|]. by left. }
    intros n st Hst. by left.
  - eapply triple_bind; [apply batch_stored_op; auto using es_record_keeps|].
    by intros ? st.
Qed.

Lemma refresh_derived_stored reorgs view events :
  triple (batch_stored reorgs events) (refresh_derived view events)
    (λ _, batch_stored reorgs events) (batch_stored reorgs events).
Proof.
  assert (∀ (b : bool) (m : M S unit), (∀ i, triple (es_has i) m (λ _, es_has i) (es_has i)) →
    triple (batch_stored reorgs events)
      (if b then try_catch (with_store m) (λ _, mret tt) else mret tt)
      (λ _, batch_stored reorgs events) (batch_stored reorgs events)) as Hif.
  { intros [] m Hm; [|by intros st]. eapply triple_try_catch; [by apply batch_stored_op|].
    by intros e st. }
  unfold refresh_derived. eapply triple_bind; [apply Hif; auto using es_apy_keeps|].
  intros u. apply Hif. auto using es_risk_keeps.
Qed.

Lemma process_batch_stored st0 view events :
  triple (λ st, st = st0) (process_batch view events)
    (λ _, batch_stored (reorgsDetectedTotal st0) events)
    (λ st, cursor st = cursor st0 ∨ batch_stored (reorgsDetectedTotal st0) events st).
Proof.
  set (r0 := reorgsDetectedTotal st0). unfold process_batch.
  destruct (last events) as [lastEvent|] eqn:El.
  2:{ apply last_None in El as ->. intros st ->. right. split; [done|set_solver]. }
  apply (triple_bind _ _ (λ _, batch_stored r0 events)).
  { apply triple_with_store. intros st ->. pose proof (es_store_has events (store st0) I) as Hs.
    destruct (es_storeEvents events (store st0)) as [[a|e] s]; [by right|by left]. }
  intros r. apply (triple_conseq _ (batch_stored r0 events) _ _ (λ _, batch_stored r0 events)
    _ (batch_stored r0 events)); [|done|done|by right].
  assert (∀ f, (∀ st, reorgsDetectedTotal (f st) = reorgsDetectedTotal st) →
    (∀ st, store (f st) = store st) →
    triple (batch_stored r0 events) (modify f) (λ _, batch_stored r0 events)
      (batch_stored r0 events)) as Hmod.
  { intros f Hr Hs. apply triple_modify. unfold batch_stored. intros st. by rewrite Hr, Hs. }
  eapply triple_bind; [apply Hmod; [intros st; simpl; lia|done]|]. intros u1.
  eapply triple_bind; [by apply Hmod|]. intros u2.
  eapply triple_bind; [by apply Hmod|]. intros u3.
  eapply triple_bind; [apply check_reorg_stored|]. intros b.
  eapply triple_bind; [apply refresh_derived_stored|]. by intros u st.
Qed.

(** Code that only moves the cursor or sets the gauge and the health keeps it. *)
Lemma batch_stored_ext reorgs events st st' :
  reorgsDetectedTotal st' = reorgsDetectedTotal st → store st' = store st →
  batch_stored reorgs events st → batch_stored reorgs events st'.
Proof. unfold batch_stored. by intros -> ->. Qed.

Lemma update_lag_frame (P : PollState S → Prop) view :
  (∀ st lag, P st → P (set_lag lag st)) → triple P (update_lag view) (λ _, P) P.
Proof.
  intros HP. unfold update_lag. apply (triple_try_catch _ _ _ _ P); [|by intros e s].
  apply (triple_bind _ _ (λ _, P)); [apply triple_lift; by destruct (hv_tip view)|]. intros tip.
  apply (triple_bind _ _ (λ _, P)); [by apply triple_get|].
  intros st. destruct tip, (cursor st); try by intros ?.
  destruct (_ || _); [by intros ?|]. apply triple_modify. auto.
Qed.

Lemma advance_cursor_frame (P : PollState S → Prop) records reorg :
  (∀ st f, P st → P (upd_cursor f st)) → triple P (advance_cursor records reorg) (λ _, P) P.
Proof.
  intros HP. unfold advance_cursor. destruct (last records); [|by intros s].
  destruct (negb reorg); [|by intros s]. apply triple_modify. auto.
Qed.

Lemma poll_body_stored st0 view records :
  hv_effects view (default "" (cursor st0)) = Ok records →
  let events := parseEvents ids (hv_now view) (default [] records) in
  triple (λ st, st = st0) (poll_body view)
    (λ _, batch_stored (reorgsDetectedTotal st0) events)
    (λ st, cursor st = cursor st0 ∨ batch_stored (reorgsDetectedTotal st0) events st).
Proof.
  intros Hrec events. set (K := batch_stored (reorgsDetectedTotal st0) events).
  assert (∀ st st', reorgsDetectedTotal st' = reorgsDetectedTotal st → store st' = store st →
    K st → K st') as HK by (intros; by eapply batch_stored_ext).
  unfold poll_body. eapply triple_bind.
  { apply (triple_get _ (λ a st, a = st0 ∧ st = st0)). by intros st ->. }
  intros st1. apply (triple_bind _ _ (λ r st, r = records ∧ st = st0)).
  { apply triple_lift. intros st [-> ->]. by rewrite Hrec. }
  intros response.
  eapply (triple_bind _ _ (λ _, K)).
  { intros st [-> ->]. by apply process_batch_stored. }
  intros b. apply (triple_conseq _ K _ _ (λ _, K) _ K); [|done|done|by right].
  eapply triple_bind; [apply advance_cursor_frame; intros; by eapply HK|]. intros u.
  eapply triple_bind; [apply update_lag_frame; intros; by eapply HK|]. intros u'.
  apply triple_modify. intros st. by apply HK.
Qed.

(** C1. Ingestion is at least once, whatever fails: an iteration that moves the
    cursor (and detects no reorg) leaves every event of the batch it fetched in
    the store, also when a later step of the iteration throws. *)
Theorem poll_at_least_once view st delay st' records e :
  poll_iteration view st = (delay, st') →
  hv_effects view (default "" (cursor st)) = Ok records →
  e ∈ parseEvents ids (hv_now view) (default [] records) →
  cursor st' ≠ cursor st → reorgsDetectedTotal st' = reorgsDetectedTotal st →
  es_has (ev_id e) (store st').
Proof.
  intros Hit Hrec He Hc Hr. pose proof (poll_body_stored st view records Hrec st eq_refl) as Hb.
  unfold poll_iteration in Hit. destruct (poll_body view st) as [[u|err] s]; injection Hit as <- <-.
  - destruct Hb as [|[_ Hin]]; [lia|by apply Hin].
  - simpl in *. destruct Hb as [|[|[_ Hin]]]; [done|lia|by apply Hin].
Qed.

(** ** Outages *)

(** Horizon answers no request of the iteration. *)
Definition outage (view : HorizonView) : Prop := ∀ c, ∃ e, hv_effects view c = Throw e.

Lemma poll_iteration_outage view st :
  outage view →
  poll_iteration view st =
  (backoff_delay (consecutiveFailures st + 1),
   inc_metrics 0 0 1 (set_health (consecutiveFailures st + 1)
     (if ALERT_THRESHOLD <=? consecutiveFailures st + 1 then false else indexerActive st) st)).
Proof.
  intros Hv. unfold poll_iteration, poll_body, mbind, M_bind, get_state, lift_result.
  by destruct (Hv (default "" (cursor st))) as [e ->].
Qed.

Lemma poll_iterations_outage views st :
  Forall outage views →
  let n := lengthZ views in
  let '(delays, st') := poll_iterations views st in
  delays = (λ k, backoff_delay (consecutiveFailures st + k + 1)) <$> seqZ 0 n
  ∧ cursor st' = cursor st ∧ store st' = store st
  ∧ lastProcessedLedger st' = lastProcessedLedger st
  ∧ consecutiveFailures st' = consecutiveFailures st + n
  ∧ pollErrorsTotal st' = pollErrorsTotal st + n
  ∧ indexerActive st' = indexerActive st
      && ((n =? 0) || (consecutiveFailures st' <? ALERT_THRESHOLD)).
Proof.
  intros Hv. revert st. induction Hv as [|view views Hview Hviews IH]; intros st.
  { simpl. change (lengthZ (@nil HorizonView)) with 0. split_and!; try done; try lia.
    by destruct (indexerActive st). }
  cbn [poll_iterations]. rewrite poll_iteration_outage by done.
  set (st1 := inc_metrics 0 0 1 _). specialize (IH st1). cbv zeta in IH.
  destruct (poll_iterations views st1) as [delays st']. destruct IH as (->&->&->&->&Hf&->&->).
  assert (lengthZ (view :: views) = Z.succ (lengthZ views)) as -> by (unfold lengthZ; simpl; lia).
  pose proof (lengthZ_nonneg views).
  rewrite (seqZ_cons 0 (Z.succ (lengthZ views))) by lia. rewrite Hf. subst st1. simpl. split_and!; try done; try lia.
  - f_equal; [f_equal; lia|]. replace (Z.pred (Z.succ (lengthZ views))) with (lengthZ views) by lia.
    replace (Z.succ 0) with (1 + 0) by lia. rewrite <-fmap_add_seqZ, <-list_fmap_compose.
    apply list_fmap_ext. intros i k _. simpl. f_equal. lia.
  - unfold ALERT_THRESHOLD.
    destruct (indexerActive st); [|by repeat case_match]. simpl.
    repeat match goal with |- context [?a <=? ?b] => destruct (Z.leb_spec a b)
      | |- context [?a <? ?b] => destruct (Z.ltb_spec a b)
      | |- context [?a =? ?b] => destruct (Z.eqb_spec a b) end; simpl; lia || done.
Qed.

Lemma poll_body_health view :
  triple (λ _, True) (poll_body view)
    (λ _ st, consecutiveFailures st = 0 ∧ indexerActive st = true) (λ _, True).
Proof.
  unfold poll_body. do 5 (eapply triple_bind; [apply triple_True|]; intros ?).
  by apply triple_modify.
Qed.

(** During an outage of Horizon the loop retries for ever after 1, 2, 4, 8,
    16, 32 and then 60 seconds, moves nothing, counts every failure, and
    reports the indexer inactive from the tenth failure on; the first iteration
    that succeeds resets the count and reports it active again. *)
Theorem outage_and_recovery views st :
  Forall outage views → consecutiveFailures st = 0 → indexerActive st = true →
  let '(delays, st') := poll_iterations views st in
  delays = (λ k, Z.min (1000 * 2 ^ k) 60000) <$> seqZ 0 (lengthZ views)
  ∧ cursor st' = cursor st ∧ store st' = store st
  ∧ lastProcessedLedger st' = lastProcessedLedger st
  ∧ pollErrorsTotal st' = pollErrorsTotal st + lengthZ views
  ∧ (indexerActive st' = false ↔ 10 ≤ lengthZ views)
  ∧ ∀ view st'', poll_body view st' = (Ok tt, st'') →
      poll_iteration view st' = (POLLING_INTERVAL_MS, st'')
      ∧ consecutiveFailures st'' = 0 ∧ indexerActive st'' = true.
Proof.
  intros Hv Hf Ha. pose proof (poll_iterations_outage views st Hv) as Hp. cbv zeta in Hp.
  destruct (poll_iterations views st) as [delays st'].
  destruct Hp as (->&?&?&?&Hf'&?&Ha'). rewrite Hf in Hf'. split_and!; try done.
  - apply list_fmap_ext. intros i k _. unfold backoff_delay.
    by replace (consecutiveFailures st + k + 1 - 1) with k by lia.
  - rewrite Ha', Ha, Hf'. unfold ALERT_THRESHOLD. pose proof (lengthZ_nonneg views). simpl.
    rewrite orb_false_iff, Z.eqb_neq, Z.ltb_ge. lia.
  - intros view st'' Hb. unfold poll_iteration. rewrite Hb. split; [done|].
    pose proof (poll_body_health view st' I) as Hh. by rewrite Hb in Hh.
Qed.

End poll.

(** ** The database is such a store *)
Section database.
Context {PG : Postgres}.

(** An operation that leaves the [events] table alone. *)
Definition keeps_events {A} (m : M Database A) : Prop := ∀ db, db_events (m db).2 = db_events db.

Lemma keeps_events_triple {A} (m : M Database A) (P : list EventRow → Prop) :
  keeps_events m →
  triple (λ db, P (db_events db)) m (λ _ db, P (db_events db)) (λ db, P (db_events db)).
Proof. intros Hm db Hdb. specialize (Hm db). destruct (m db) as [[a|e] db']; simpl in *; by rewrite Hm. Qed.

Lemma detectReorg_keeps meta : keeps_events (detectReorg meta).
Proof. intros db. unfold detectReorg. by destruct (db_ledger_hashes db !! _). Qed.

Lemma recordLedgerHash_keeps meta : keeps_events (recordLedgerHash meta).
Proof. by intros db. Qed.

Lemma recomputeTrancheApy_keeps now : keeps_events (recomputeTrancheApy now).
Proof.
  intros db. pose proof (recomputeTrancheApy_eq now db) as Heq. cbv zeta in Heq.
  destruct (mapM _ _); [by rewrite Heq|by destruct Heq as [e ->]].
Qed.

Lemma recomputeSmeRiskSignals_keeps now : keeps_events (recomputeSmeRiskSignals now).
Proof.
  intros db. pose proof (recomputeSmeRiskSignals_eq now db) as Heq. cbv zeta in Heq.
  destruct (mapM _ _); [by rewrite Heq|by destruct Heq as [e ->]].
Qed.

Lemma storeEvents_has evs :
  triple (λ _, True) (storeEvents evs)
    (λ _ db, ∀ e, e ∈ evs → has_id (ev_id e) (db_events db) = true) (λ _, True).
Proof.
  intros db _. rewrite storeEvents_eq. destruct (mapM row_of_event evs) as [rows|] eqn:E; [|done].
  simpl. intros e He. apply mapM_Some in E. apply list_elem_of_lookup in He as [i Hi].
  destruct (Forall2_lookup_l _ _ _ _ _ E Hi) as (r&Hr&Her).
  rewrite <-(row_of_event_id _ _ Her). apply insert_rows_has. by eapply list_elem_of_lookup_2.
Qed.

Lemma storeEvents_keeps i evs :
  triple (λ db, has_id i (db_events db) = true) (storeEvents evs)
    (λ _ db, has_id i (db_events db) = true) (λ db, has_id i (db_events db) = true).
Proof.
  intros db Hi. rewrite storeEvents_eq. destruct (mapM row_of_event evs) as [rows|]; [|done].
  simpl. destruct (insert_rows_prefix (db_events db) rows) as [new ->].
  unfold has_id. rewrite existsb_app. by rewrite (Hi : existsb _ _ = true).
Qed.

#[export] Instance database_store : EventStore Database.
Proof.
  refine {|
    es_storeEvents := storeEvents;
    es_detectReorg := detectReorg;
    es_recordLedgerHash := recordLedgerHash;
    es_rollbackFrom := rollback_database;
    es_recomputeTrancheApy := recomputeTrancheApy;
    es_recomputeSmeRiskSignals := recomputeSmeRiskSignals;
    es_has := λ i db, has_id i (db_events db) = true |}.
  - apply storeEvents_has.
  - apply storeEvents_keeps.
  - intros i meta. apply (keeps_events_triple _ (λ l, has_id i l = true)), detectReorg_keeps.
  - intros i meta. apply (keeps_events_triple _ (λ l, has_id i l = true)), recordLedgerHash_keeps.
  - intros i now. apply (keeps_events_triple _ (λ l, has_id i l = true)), recomputeTrancheApy_keeps.
  - intros i now.
    apply (keeps_events_triple _ (λ l, has_id i l = true)), recomputeSmeRiskSignals_keeps.
Defined.

(** ** A reorg rewinds the loop *)
Context (ids : ContractIds).

(** Rolled back below [tip], and the cursor with it. *)
Definition rewound (tip : Z) (st : PollState Database) : Prop :=
  cursor st = Some (pretty (tip - 1)) ∧ lastProcessedLedger st = pretty (tip - 1)
  ∧ Forall (λ r, row_ledger_sequence r < tip - 1) (db_events (store st)).

Definition reorg_outcome (reorgs tip : Z) (b : bool) (st : PollState Database) : Prop :=
  if b then rewound tip st else reorgsDetectedTotal st = reorgs.

Lemma check_reorg_outcome reorgs view events :
  triple (λ st, reorgsDetectedTotal st = reorgs) (check_reorg view events)
    (reorg_outcome reorgs (tip_ledger events)) (λ _, True).
Proof.
  unfold check_reorg. destruct (fetchLedgerMeta _ _) as [meta|]; [|by intros st].
  apply (triple_bind _ _ (λ _ st, reorgsDetectedTotal st = reorgs)).
  { apply triple_with_store. intros st Hst. by destruct (es_detectReorg _ _) as [[] ?]. }
  intros []; [|].
  - eapply triple_bind; [apply triple_True|]. intros u1.
    apply (triple_bind _ _ (λ _ st, Forall (λ r, row_ledger_sequence r < tip_ledger events - 1)
      (db_events (store st)))).
    { apply triple_with_store. intros st _. simpl.
      pose proof (rollbackFrom_cases (tip_ledger events - 1) (store st)) as Hr.
      destruct (rollback_database _ _) as [[n|e] db]; [|done]. destruct Hr as [Hr _]. simpl. rewrite Hr.
      apply Forall_forall. by intros r [? _]%list_elem_of_filter. }
    intros n. by intros st Hst.
  - apply (triple_bind _ _ (λ _ st, reorgsDetectedTotal st = reorgs)); [|by intros u st].
    apply triple_with_store. intros st Hst. by destruct (es_recordLedgerHash _ _) as [[] ?].
Qed.

Lemma reorg_outcome_op {A} reorgs tip b (m : M Database A) :
  keeps_events m →
  triple (reorg_outcome reorgs tip b) (with_store m)
    (λ _, reorg_outcome reorgs tip b) (reorg_outcome reorgs tip b).
Proof.
  intros Hm. apply triple_with_store. intros st Hst. specialize (Hm (store st)).
  assert (reorg_outcome reorgs tip b (set_store (m (store st)).2 st)) as H.
  { destruct b; [|exact Hst]. destruct Hst as (?&?&?). split_and!; try done. simpl. by rewrite Hm. }
  by destruct (m (store st)) as [[] ?].
Qed.

Lemma refresh_derived_outcome reorgs tip b view events :
  triple (reorg_outcome reorgs tip b) (refresh_derived view events)
    (λ _, reorg_outcome reorgs tip b) (λ _, True).
Proof.
  assert (∀ (c : bool) (m : M Database unit), keeps_events m →
    triple (reorg_outcome reorgs tip b)
      (if c then try_catch (with_store m) (λ _, mret tt) else mret tt)
      (λ _, reorg_outcome reorgs tip b) (λ _, True)) as Hif.
  { intros [] m Hm; [|by intros st].
    eapply triple_try_catch; [by apply reorg_outcome_op|]. by intros e st. }
  unfold refresh_derived. eapply triple_bind; [apply Hif, recomputeTrancheApy_keeps|].
  intros u. apply Hif, recomputeSmeRiskSignals_keeps.
Qed.

Lemma insert_by_last {A} (f : A → Z) x l :
  ∃ y, last (insert_by f x l) = Some y ∧ (y = x ∨ y ∈ l).
Proof.
  destruct (last (insert_by f x l)) as [y|] eqn:E.
  - exists y. split; [done|]. apply last_Some_elem_of in E. rewrite insert_by_perm in E. set_solver.
  - exfalso. apply last_None in E. pose proof (insert_by_perm f x l) as Hp. rewrite E in Hp.
    by apply Permutation_nil_l in Hp.
Qed.

Lemma ascending_last {A} (f : A → Z) l y :
  ascending f l → last l = Some y → Forall (λ x, f x ≤ f y) l.
Proof.
  unfold ascending. intros Hs. induction Hs as [|x l Hl IH Hx]; [done|]. intros Hlast.
  destruct l as [|z l]; [simpl in Hlast; simplify_eq; repeat constructor; lia|].
  rewrite last_cons_cons in Hlast. constructor; [|by apply IH].
  apply last_Some_elem_of in Hlast. rewrite Forall_forall in Hx. by apply Hx.
Qed.

(** The tip is the highest ledger of the batch. *)
Lemma tip_ledger_max events e : e ∈ events → ev_ledgerSequence e ≤ tip_ledger events.
Proof.
  intros He. unfold tip_ledger. set (l := remove_dups _).
  assert (ev_ledgerSequence e ∈ sort_by id l) as Hin.
  { rewrite sort_by_perm. unfold l. rewrite elem_of_remove_dups. apply list_elem_of_fmap. eauto. }
  destruct (last (sort_by id l)) as [y|] eqn:El.
  - pose proof (ascending_last id _ _ (sort_by_ascending id l) El) as Hall.
    rewrite Forall_forall in Hall. by apply Hall.
  - apply last_None in El. rewrite El in Hin. by apply elem_of_nil in Hin.
Qed.

(** When an iteration detects a reorg it leaves the database without any
    event from the ledger before the batch's highest one on, and the cursor and
    the reported ledger at that ledger: the page it read does not move the
    cursor past the rewind. *)
Theorem reorg_rewinds view (st st' : PollState Database) records :
  hv_effects view (default "" (cursor st)) = Ok records →
  poll_body ids view st = (Ok tt, st') →
  reorgsDetectedTotal st' ≠ reorgsDetectedTotal st →
  let events := parseEvents ids (hv_now view) (default [] records) in
  rewound (tip_ledger events) st'
  ∧ Forall (λ e, ev_ledgerSequence e ≤ tip_ledger events) events.
Proof.
  intros Hrec Hb Hr events. split.
  2:{ apply Forall_forall. apply tip_ledger_max. }
  set (r0 := reorgsDetectedTotal st) in *. set (tip := tip_ledger events).
  assert (triple (λ s, s = st) (poll_body ids view)
    (λ _ s, ∃ b, reorg_outcome r0 tip b s) (λ _, True)) as Ht.
  { unfold poll_body. eapply triple_bind.
    { apply (triple_get _ (λ a s, a = st ∧ s = st)). by intros s ->. }
    intros st1. apply (triple_bind _ _ (λ r s, r = records ∧ reorgsDetectedTotal s = r0)).
    { apply triple_lift. intros s [-> ->]. by rewrite Hrec. }
    intros response. apply (triple_bind _ _ (reorg_outcome r0 tip)).
    { intros s [-> Hs]. revert s Hs. fold events. unfold process_batch.
      destruct (last events); [|by intros s].
      apply (triple_bind _ _ (λ _ s, reorgsDetectedTotal s = r0)).
      { apply triple_with_store. intros s Hs. by destruct (es_storeEvents _ _) as [[] ?]. }
      intros r. apply (triple_bind _ _ (λ _ s, reorgsDetectedTotal s = r0)).
      { apply triple_modify. intros s. simpl. lia. }
      intros u1. apply (triple_bind _ _ (λ _ s, reorgsDetectedTotal s = r0)); [by apply triple_modify|].
      intros u2. apply (triple_bind _ _ (λ _ s, reorgsDetectedTotal s = r0)); [by apply triple_modify|].
      intros u3. eapply triple_bind; [apply check_reorg_outcome|]. intros b.
      eapply triple_bind; [apply refresh_derived_outcome|]. by intros u s. }
    intros b. apply (triple_bind _ _ (λ _, reorg_outcome r0 tip b)).
    { unfold advance_cursor. destruct (last _); [|by intros s]. by destruct b; intros s. }
    intros u. eapply (triple_bind _ _ (λ _, reorg_outcome r0 tip b)).
    { eapply triple_conseq; [apply (update_lag_frame (reorg_outcome r0 tip b))|done|done|done].
      intros s lag. by destruct b. }
    intros u'. apply triple_modify. intros s Hs. exists b. by destruct b. }
  specialize (Ht st eq_refl). rewrite Hb in Ht. destruct Ht as [[] Ho]; [done|]. by simpl in Ho.
Qed.

(** On a restart the loop resumes from the highest stored ledger less the
    lookback, and never from a negative one. *)
Theorem restart_cursor (db : Database) lookback :
  match lookback_cursor (Some lookback) (getLatestLedger db) with
  | None => db_events db = []
  | Some c => ∃ latest,
      c = pretty (Z.max 0 (latest - lookback))
      ∧ (∃ r, r ∈ db_events db ∧ row_ledger_sequence r = latest)
      ∧ Forall (λ r, row_ledger_sequence r ≤ latest) (db_events db)
  end.
Proof.
  unfold getLatestLedger. pose proof (pg_order_by_ledger_perm false (db_events db)) as Hp.
  pose proof (pg_order_by_ledger_desc (db_events db)) as Hs.
  destruct (pg_order_by_ledger false (db_events db)) as [|r l].
  - by apply Permutation_nil_l in Hp.
  - unfold lookback_cursor. rewrite pretty_Z_nonempty, parseInt_pretty.
    exists (row_ledger_sequence r). split; [done|]. split.
    + exists r. split; [|done]. rewrite <-Hp. left.
    + rewrite <-Hp. apply StronglySorted_inv in Hs as [_ Hs]. constructor; [lia|].
      eapply Forall_impl; [done|]. simpl. lia.
Qed.

End database.

(** ** A store that fails

    Any store behind a connection that may be down: each operation takes the
    next answer of a schedule, and throws when it is [false]. *)
Section faulty.
Context {S : Type} `{EventStore S}.

Definition faulty_op {A} (m : M S A) : M (S * list bool) A := λ '(s, schedule),
  match schedule with
  | false :: schedule' => (Throw (EError "Connection terminated"), (s, schedule'))
  | _ => let '(r, s') := m s in (r, (s', tl schedule))
  end.

Lemma faulty_triple {A} P (m : M S A) (Q : A → S → Prop) E :
  triple P m Q E → (∀ s, P s → E s) →
  triple (λ s, P s.1) (faulty_op m) (λ a s, Q a s.1) (λ s, E s.1).
Proof.
  intros Hm HPE [s schedule] Hs. specialize (Hm s Hs). unfold faulty_op.
  destruct schedule as [|[] ?]; simpl; try by destruct (m s) as [[] ?]. by apply HPE.
Qed.

Definition faulty_store : EventStore (S * list bool).
Proof.
  refine {|
    es_storeEvents := λ evs, faulty_op (es_storeEvents evs);
    es_detectReorg := λ meta, faulty_op (es_detectReorg meta);
    es_recordLedgerHash := λ meta, faulty_op (es_recordLedgerHash meta);
    es_rollbackFrom := λ n, faulty_op (es_rollbackFrom n);
    es_recomputeTrancheApy := λ now, faulty_op (es_recomputeTrancheApy now);
    es_recomputeSmeRiskSignals := λ now, faulty_op (es_recomputeSmeRiskSignals now);
    es_has := λ i s, es_has i s.1 |}.
  - intros evs. by apply (faulty_triple (λ _, True) _ (λ _ s, ∀ e, e ∈ evs → es_has (ev_id e) s) (λ _, True));
      [apply es_store_has|].
  - intros i evs. by apply (faulty_triple (es_has i) _ (λ _, es_has i) (es_has i)); [apply es_store_keeps|].
  - intros i meta. by apply (faulty_triple (es_has i) _ (λ _, es_has i) (es_has i)); [apply es_detect_keeps|].
  - intros i meta. by apply (faulty_triple (es_has i) _ (λ _, es_has i) (es_has i)); [apply es_record_keeps|].
  - intros i now. by apply (faulty_triple (es_has i) _ (λ _, es_has i) (es_has i)); [apply es_apy_keeps|].
  - intros i now. by apply (faulty_triple (es_has i) _ (λ _, es_has i) (es_has i)); [apply es_risk_keeps|].
Defined.

End faulty.
