(* ===== verification/Backfill.v ===== *)
(** * indexer/src/backfill.ts: indexing a ledger range

    [backfill_step] is one turn of the loop of [runBackfill] against an
    [EventStore] and one answer of Horizon; [runBackfill] runs it over the
    answers of successive requests, which is also its fuel. *)
From S2P Require Import Prelude JsValue JsMap Parser Database Db Reorg PollLoop.
#[local] Open Scope string_scope.
#[local] Open Scope list_scope.
#[local] Open Scope Z_scope.

Record BackfillState (S : Type) := {
  bf_currentLedger : Z;
  bf_totalEvents : Z;
  bf_retryCount : Z;
  (** the gauge of the ledger most recently processed *)
  bf_progress : option Z;
  bf_store : S;
}.
Arguments bf_currentLedger {S} _.
Arguments bf_totalEvents {S} _.
Arguments bf_retryCount {S} _.
Arguments bf_progress {S} _.
Arguments bf_store {S} _.

(** The effects after a cursor, up to 100, and the clock. *)
Record PageView := {
  pv_effects : string → result (option (list HorizonRecord));
  pv_now : string;
}.

Inductive outcome (S : Type) :=
| Continue (delayMs : Z) (st : BackfillState S)
| Finished (r : result unit) (st : BackfillState S).
Arguments Continue {S} _ _.
Arguments Finished {S} _ _.

Section backfill.
Context {S : Type} `{EventStore S}.
Context (ids : ContractIds) (contractIds : list string) (endLedger : option Z).
Implicit Types st : BackfillState S.

Definition bf_set_ledger (n : Z) st : BackfillState S := {|
  bf_currentLedger := n; bf_totalEvents := bf_totalEvents st; bf_retryCount := bf_retryCount st;
  bf_progress := bf_progress st; bf_store := bf_store st |}.

Definition bf_set_retry (n : Z) st : BackfillState S := {|
  bf_currentLedger := bf_currentLedger st; bf_totalEvents := bf_totalEvents st;
  bf_retryCount := n; bf_progress := bf_progress st; bf_store := bf_store st |}.

(** The assignments after a page is stored. *)
Definition bf_indexed (count ledger : Z) st : BackfillState S := {|
  bf_currentLedger := ledger; bf_totalEvents := bf_totalEvents st + count;
  bf_retryCount := bf_retryCount st; bf_progress := Some ledger; bf_store := bf_store st |}.

Definition bf_with_store {A} (m : M S A) : M (BackfillState S) A := λ st,
  let '(r, s) := m (bf_store st) in
  (r, {| bf_currentLedger := bf_currentLedger st; bf_totalEvents := bf_totalEvents st;
         bf_retryCount := bf_retryCount st; bf_progress := bf_progress st; bf_store := s |}).

(** [contractIds.length === 0 || contractIds.includes(e.contractId)] *)
Definition watched (e : IndexedEvent) : bool :=
  match contractIds with
  | [] => true
  | _ => match ev_contractId e with JStr s => one_of contractIds s | _ => false end
  end.

Definition page_events (view : PageView) (records : list HorizonRecord) : list IndexedEvent :=
  filter (λ e, watched e) (parseEvents ids (pv_now view) records).

Definition reached_end st : bool :=
  match endLedger with Some n => n <=? bf_currentLedger st | None => false end.

(** [if (events.length > 0) { ... }] *)
Definition store_page (events : list IndexedEvent) : M (BackfillState S) unit :=
  match last events with
  | None => mret tt
  | Some lastEvent =>
      bf_with_store (es_storeEvents events) ≫= λ _,
      modify (bf_indexed (lengthZ events) (ev_ledgerSequence lastEvent))
  end.

(** The ledger of the next request. *)
Definition next_ledger (lastRecord : HorizonRecord) (currentLedger : Z) : Z :=
  let nextLedger := match r_ledger_sequence lastRecord with
    | Some n => if n =? 0 then currentLedger + 1 else n
    | None => currentLedger + 1 end in
  if nextLedger =? currentLedger then currentLedger + 1 else nextLedger.

(** The body of the [try]: [true] for [break]. *)
Definition backfill_body (view : PageView) : M (BackfillState S) bool :=
  get_state ≫= λ st,
  lift_result (pv_effects view (pretty (bf_currentLedger st))) ≫= λ response,
  modify (bf_set_retry 0) ≫= λ _,
  let records := default [] response in
  match last records with
  | None => mret true
  | Some lastRecord =>
      store_page (page_events view records) ≫= λ _,
      get_state ≫= λ st,
      if reached_end st then mret true
      else
        modify (bf_set_ledger (next_ledger lastRecord (bf_currentLedger st))) ≫= λ _,
        mret false
  end.

Definition maxRetries : Z := 8.

Definition backfill_step (view : PageView) st : outcome S :=
  match backfill_body view st with
  | (Ok true, st') => Finished (Ok tt) st'
  | (Ok false, st') => Continue 100 st'
  | (Throw _, st') =>
      let retryCount := bf_retryCount st' + 1 in
      let retryCount := retryCount + 1 in
      let st'' := bf_set_retry retryCount st' in
      if maxRetries <? retryCount then
        Finished (Throw (EError ("[backfill] Aborting after " +:+ pretty maxRetries
                                 +:+ " consecutive failures")%string)) st''
      else Continue (Z.min (1000 * 2 ^ (retryCount - 1)) 60000) st''
  end.

(** The delays slept, and what the loop did when the answers suffice. *)
Fixpoint backfill_loop (views : list PageView) st : list Z * outcome S :=
  match views with
  | [] => ([], Continue 0 st)
  | view :: views' =>
      match backfill_step view st with
      | Continue delayMs st' =>
          let '(delays, o) := backfill_loop views' st' in (delayMs :: delays, o)
      | Finished r st' => ([], Finished r st')
      end
  end.

Definition runBackfill (startLedger : Z) (s : S) (views : list PageView) : list Z * outcome S :=
  backfill_loop views {|
    bf_currentLedger := startLedger; bf_totalEvents := 0; bf_retryCount := 0;
    bf_progress := None; bf_store := s |}.

(** ** Retries *)

Definition page_outage (view : PageView) : Prop := ∀ c, ∃ e, pv_effects view c = Throw e.

Lemma backfill_step_outage view st :
  page_outage view →
  backfill_step view st =
  let st' := bf_set_retry (bf_retryCount st + 2) st in
  if 8 <? bf_retryCount st + 2 then
    Finished (Throw (EError "[backfill] Aborting after 8 consecutive failures")) st'
  else Continue (Z.min (1000 * 2 ^ (bf_retryCount st + 1)) 60000) st'.
Proof.
  intros Hv. unfold backfill_step, backfill_body, mbind, M_bind, get_state, lift_result.
  destruct (Hv (pretty (bf_currentLedger st))) as [e ->]. cbv zeta.
  replace (bf_retryCount st + 1 + 1) with (bf_retryCount st + 2) by lia.
  by replace (bf_retryCount st + 2 - 1) with (bf_retryCount st + 1) by lia.
Qed.

Definition outage_delays : list Z := [2000; 8000; 32000; 60000].

(** Turns of an outage, after [k] failures. *)
Lemma backfill_loop_outage views k st :
  Forall page_outage views → (k ≤ 4)%nat → bf_retryCount st = 2 * Z.of_nat k →
  backfill_loop views st =
  if (k + length views <? 5)%nat then
    (take (length views) (drop k outage_delays),
     Continue 0 (bf_set_retry (2 * (Z.of_nat k + lengthZ views)) st))
  else (drop k outage_delays,
        Finished (Throw (EError "[backfill] Aborting after 8 consecutive failures"))
          (bf_set_retry 10 st)).
Proof.
  intros Hv. revert k st. induction Hv as [|view views Hview Hv IH]; intros k st Hk Hst.
  { rewrite Nat.add_0_r. destruct (Nat.ltb_spec k 5); [|lia]. simpl. rewrite Z.add_0_r, <-Hst.
    by destruct st. }
  cbn [backfill_loop]. rewrite backfill_step_outage by done. cbv zeta. rewrite Hst.
  destruct (decide (k = 4%nat)) as [->|Hne]; [done|].
  destruct (Z.ltb_spec 8 (2 * Z.of_nat k + 2)); [lia|].
  rewrite (IH (k + 1)%nat) by (simpl; lia). cbn [length].
  replace (k + 1 + length views)%nat with (k + (1 + length views))%nat by lia. simpl plus.
  assert (bf_set_retry (2 * (Z.of_nat (k + 1) + lengthZ views)) (bf_set_retry (2 * Z.of_nat k + 2) st)
    = bf_set_retry (2 * (Z.of_nat k + lengthZ (view :: views))) st) as ->.
  { unfold bf_set_retry, lengthZ. simpl. f_equal. lia. }
  do 4 (destruct k as [|k]; [by destruct (_ <? 5)%nat|]). lia.
Qed.

(** Horizon answers, with events to store. *)
Definition page_served (view : PageView) : Prop :=
  ∀ c, ∃ records, pv_effects view c = Ok (Some records) ∧ page_events view records ≠ [].

Lemma page_events_last view records :
  page_events view records ≠ [] → ∃ r e, last records = Some r ∧ last (page_events view records) = Some e.
Proof.
  intros Hne. destruct (last records) as [r|] eqn:Er.
  - destruct (last (page_events view records)) as [e|] eqn:Ee; [by exists r, e|].
    by apply last_None in Ee.
  - apply last_None in Er as ->. done.
Qed.

(** A turn whose page cannot be stored: the answered request took the count
    back to 0. *)
Lemma backfill_step_unstored view st :
  page_served view → (∀ evs s, ∃ e, es_storeEvents evs s = (Throw e, s)) →
  backfill_step view st = Continue 2000 (bf_set_retry 2 st).
Proof.
  intros Hv Hs. destruct (Hv (pretty (bf_currentLedger st))) as (records&Hrec&Hne).
  destruct (page_events_last view records Hne) as (r&lastEvent&Hr&Hlast).
  unfold backfill_step, backfill_body, store_page, bf_with_store, mbind, M_bind, get_state,
    lift_result, modify. rewrite Hrec.
  change (default [] (Some records)) with records. rewrite Hr, Hlast.
  destruct (Hs (page_events view records) (bf_store st)) as [e He]. simpl. rewrite He.
  by destruct st.
Qed.

Lemma backfill_loop_unstored views st :
  Forall page_served views → (∀ evs s, ∃ e, es_storeEvents evs s = (Throw e, s)) →
  backfill_loop views st
  = (replicate (length views) 2000,
     Continue 0 (match views with [] => st | _ => bf_set_retry 2 st end)).
Proof.
  intros Hv Hs. revert st. induction Hv as [|view views Hview Hv IH]; intros st; [done|].
  cbn [backfill_loop]. rewrite backfill_step_unstored by done. rewrite IH. simpl. by destruct views.
Qed.

(** C40. How often a backfill retries. When nothing failed before and Horizon
    fails, each failure is counted twice: the loop waits 2, 8, 32 and 60
    seconds and gives up at the fifth failure in a row, with the message that
    it aborts after 8, leaving its ledger and the store as they were. When
    Horizon answers with events and it is the database that fails, the answered
    request has just reset the count: the loop repeats the same page every 2
    seconds and never gives up, however long that lasts. *)
Theorem backfill_retries views st :
  bf_retryCount st = 0 →
  (Forall page_outage views →
     backfill_loop views st =
     if (length views <? 5)%nat then
       (take (length views) outage_delays,
        Continue 0 (bf_set_retry (2 * lengthZ views) st))
     else (outage_delays,
           Finished (Throw (EError "[backfill] Aborting after 8 consecutive failures"))
             (bf_set_retry 10 st)))
  ∧ (Forall page_served views → (∀ evs s, ∃ e, es_storeEvents evs s = (Throw e, s)) →
     ∃ st', backfill_loop views st = (replicate (length views) 2000, Continue 0 st')
       ∧ bf_currentLedger st' = bf_currentLedger st ∧ bf_store st' = bf_store st
       ∧ bf_totalEvents st' = bf_totalEvents st).
Proof.
  intros H0. split.
  - intros Hv. rewrite (backfill_loop_outage views 0) by (done || lia). by rewrite !drop_0.
  - intros Hv Hs. rewrite backfill_loop_unstored by done. eexists. split; [done|]. by destruct views.
Qed.

End backfill.
