(* ===== verification/Api.v ===== *)
(** * indexer/src/api.ts: the REST handlers

    A handler is a function from the database it queries and its request to a
    [reply]. [req.query] values are [jsval]s ([JUndef] when absent, an array when
    repeated); path parameters are strings. The replay of all events,
    [getAllEvents], is also modelled over a database that changes between its
    queries. *)
From S2P Require Import Prelude JsValue JsNumber JsMap Parser Database Db TrancheApy SmeRisk.
From Stdlib Require Import Ascii.
#[local] Open Scope string_scope.
#[local] Open Scope list_scope.
#[local] Open Scope Z_scope.

(** [res.json(a)], or [res.status(status).json({ error })]. *)
Inductive reply (A : Type) :=
| Reply (a : A)
| Fail (status : Z) (error : string).
Arguments Reply {A} a.
Arguments Fail {A} status error.

(** [catch (err) { res.status(500).json({ error: err.message }) }], and the one
    that answers 400 to a [RangeError]. *)
Definition catch_500 {A} (r : result (reply A)) : reply A :=
  match r with Ok x => x | Throw e => Fail 500 (exn_message e) end.
Definition catch_range {A} (r : result (reply A)) : reply A :=
  match r with
  | Ok x => x
  | Throw (ERangeError m) => Fail 400 m
  | Throw e => Fail 500 (exn_message e)
  end.

(** ** Paging *)

Definition MAX_PAGE_SIZE : Z := 500.
Definition MAX_OFFSET : Z := 1000000.

(** [Math.max(1000, parseInt(env ?? "100000", 10) || 100000)]. *)
Definition MAX_REPLAY_EVENTS (env : option string) : Z :=
  let n := match parseInt (match env with Some s => s | None => "100000" end) with
    | Some n => if n =? 0 then 100000 else n
    | None => 100000 end in
  Z.max 1000 n.

(** [/^\d+$/] *)
Definition all_digits (s : string) : bool :=
  negb (String.eqb s "")
  && str_forallb (λ c, match digit_val c with Some d => d <? 10 | None => false end) s.

(** [Number(value)] of a digit string is exact up to [MAX_SAFE_INTEGER], and not
    a safe integer above it. *)
Definition parseBoundedInteger (value : jsval) (fallback maximum : Z) (name : string) : result Z :=
  match value with
  | JUndef => Ok fallback
  | JStr s =>
      match (if all_digits s then parse_digits 10 s else None) with
      | None => Throw (ERangeError (name +:+ " must be a non-negative integer"))
      | Some parsed =>
          if (MAX_SAFE_INTEGER <? parsed) || (maximum <? parsed)
          then Throw (ERangeError (name +:+ " must be at most " +:+ pretty maximum))
          else Ok parsed
      end
  | _ => Throw (ERangeError (name +:+ " must be a non-negative integer"))
  end.

Definition with_page (o : GetEventsOptions) (limit offset : Z) : GetEventsOptions := {|
  o_contractId := o_contractId o; o_contractType := o_contractType o;
  o_eventType := o_eventType o; o_actorAddress := o_actorAddress o;
  o_limit := Some limit; o_offset := Some offset;
  o_afterLedger := o_afterLedger o; o_beforeLedger := o_beforeLedger o |}.

Definition pageSize : Z := 500.

(** The loop of [getAllEvents] from its [n]-th query on; [fetch n offset] is what
    that query returns. [None] when the fuel runs out. *)
Fixpoint replay_pages (maxReplay : Z) (fetch : nat → Z → result (list IndexedEvent))
    (fuel n : nat) (offset : Z) (events : list IndexedEvent)
    : option (result (list IndexedEvent)) :=
  match fuel with
  | O => None
  | S fuel' =>
      match fetch n offset with
      | Throw e => Some (Throw e)
      | Ok page =>
          let events := events ++ page in
          if maxReplay <? lengthZ events then
            Some (Throw (ERangeError ("event replay exceeds the " +:+ pretty maxReplay
                                      +:+ " event safety limit")))
          else if lengthZ page <? pageSize then Some (Ok events)
          else replay_pages maxReplay fetch fuel' (S n) (offset + lengthZ page) events
      end
  end.

Definition replay_fuel (maxReplay : Z) : nat := Z.to_nat (maxReplay / pageSize + 2).

(** ** Reconstructing ids from event values *)

Definition extract_id (value : jsval) : option string :=
  if nullish value then None
  else
    let candidate := match value with JArr l => arr_get l 0 | _ => value end in
    if nullish candidate then None
    else if is_object candidate then None
    else Some (js_String candidate).

Definition extractCoFundingInvoiceId : jsval → option string := extract_id.
Definition extractListingId : jsval → option string := extract_id.
Definition extractInvoiceId : jsval → option string := extract_id.

Definition roundApproved (value : jsval) : bool :=
  match value with
  | JArr l => if (length l <? 2)%nat then false else truthy (arr_get l 1)
  | _ => false
  end.

(** The element [i] of an array value that is a string equal to [s] up to case. *)
Definition address_at (i : nat) (lower : string) (value : jsval) : bool :=
  match value with
  | JArr l => match arr_get l i with JStr s => String.eqb (toLowerCase s) lower | _ => false end
  | _ => false
  end.

Definition COFUNDING_EVENT_TYPES : list string :=
  ["cf_open"; "cf_commit"; "cf_wthdw"; "cf_cncl"; "cf_exp"; "cf_fin"].
Definition ATTESTATION_LIFECYCLE_EVENT_TYPES : list string := ["att_sub"; "att_disp"; "att_res"].
Definition LISTING_EVENT_TYPES : list string := ["lst_open"; "lst_cncl"; "lst_buy"].
Definition ORDER_BOOK_EVENT_TYPES : list string := ["ord_open"; "ord_cncl"; "ord_fill"; "ord_exp"].

(** An event as the histories list it. *)
Record EventView := {
  vw_eventType : string;
  vw_value : jsval;
  vw_ledgerSequence : Z;
  vw_ledgerCloseAt : string;
  vw_txHash : string;
}.

Definition view_of (evt : IndexedEvent) : EventView := {|
  vw_eventType := ev_eventType evt; vw_value := ev_value evt;
  vw_ledgerSequence := ev_ledgerSequence evt; vw_ledgerCloseAt := ev_ledgerCloseAt evt;
  vw_txHash := ev_txHash evt |}.

(** [.sort((a, b) => a.ledgerSequence - b.ledgerSequence)] *)
Definition by_ledger : list IndexedEvent → list IndexedEvent := sort_by ev_ledgerSequence.

(** The [switch] of a co-funding round; [None] leaves the status as it is. *)
Definition cofunding_status (evt : IndexedEvent) : option string :=
  if String.eqb (ev_eventType evt) "cf_open" then Some "Open"
  else if String.eqb (ev_eventType evt) "cf_fin" then Some "Filled"
  else if String.eqb (ev_eventType evt) "cf_exp" then Some "Expired"
  else if String.eqb (ev_eventType evt) "cf_cncl" then Some "Cancelled"
  else None.

(** The [switch] of a verification round. *)
Definition round_status (evt : IndexedEvent) : option string :=
  if String.eqb (ev_eventType evt) "rnd_open" then Some "Open"
  else if one_of ["consensus"; "fallback"] (ev_eventType evt) then
    Some (if roundApproved (ev_value evt) then "ConsensusApproved" else "ConsensusRejected")
  else if String.eqb (ev_eventType evt) "rnd_exp" then Some "Expired"
  else None.

(** [let status = init; for (const evt of events) switch ...] *)
Definition replay_status (status_of : IndexedEvent → option string) (init : string)
    (events : list IndexedEvent) : string :=
  foldl (λ status evt, default status (status_of evt)) init events.

Record RoundReply := {
  rd_invoiceId : string;
  rd_status : string;
  rd_events : list EventView;
}.

(** ** Attestations *)
Record AttestationState := {
  at_status : string;
  at_attestor : option string;
  at_scoreContribution : option number;
}.

Definition attestation_init : AttestationState :=
  {| at_status := "Active"; at_attestor := None; at_scoreContribution := None |}.

Definition event_values (evt : IndexedEvent) : list jsval :=
  match ev_value evt with JArr l => l | _ => [] end.

Definition attestation_step (st : AttestationState) (evt : IndexedEvent) : AttestationState :=
  let value := event_values evt in
  if String.eqb (ev_eventType evt) "att_sub" then {|
    at_status := "Active";
    at_attestor := match arr_get value 2 with JStr s => Some s | _ => None end;
    at_scoreContribution :=
      match arr_get value 3 with JUndef => None | v => Some (js_Number v) end |}
  else if String.eqb (ev_eventType evt) "att_disp" then {|
    at_status := "Disputed"; at_attestor := at_attestor st;
    at_scoreContribution := at_scoreContribution st |}
  else if String.eqb (ev_eventType evt) "att_res" then {|
    at_status := if truthy (arr_get value 1) then "Active" else "Revoked";
    at_attestor := at_attestor st; at_scoreContribution := at_scoreContribution st |}
  else st.

Record Attestation := {
  an_id : string;
  an_sme : string;
  an_state : AttestationState;
  an_events : list EventView;
}.

(** [Array.isArray(v) ? String(v[0]) : null] *)
Definition tuple_id (evt : IndexedEvent) : option string :=
  match ev_value evt with JArr l => Some (js_String (arr_get l 0)) | _ => None end.

Record RiskSignalReply := {
  rs_sme : string;
  rs_debtorConcentrationBps : Z;
  rs_invoiceSizeRiskBps : Z;
  rs_totalVolume : string;
  rs_updatedAt : option string;
}.

Record RateSample := {
  rt_timestamp : number;
  rt_utilizationBps : number;
  rt_rateBps : number;
  rt_ledgerSequence : Z;
  rt_txHash : string;
}.

Record FlaggedAddress := {
  fl_address : string;
  fl_status : string;
  fl_reasonCode : jsval;
  fl_at : string;
  fl_txHash : string;
}.

Record OwnerInvoice := {
  oi_invoiceId : jsval;
  oi_status : jsval;
  oi_amount : jsval;
  oi_createdAt : string;
  oi_txHash : string;
}.

Record SearchReply := {
  se_invoiceIds : list number;
  se_page : Z;
  se_pageSize : Z;
  se_total : Z;
}.

Record TrancheReply := {
  tp_realizedPrincipal : string;
  tp_realizedReturn : string;
  tp_closedPositions : Z;
  tp_realizedApyBps : Z;
  tp_realizedApyPct : number;
  tp_updatedAt : option string;
}.

(** The sort of samples: a comparator that is [NaN] counts as 0. *)
Fixpoint insert_sample (x : RateSample) (l : list RateSample) : list RateSample :=
  match l with
  | [] => [x]
  | y :: l' =>
      if num_ltb (rt_timestamp y) (rt_timestamp x) then y :: insert_sample x l' else x :: l
  end.

Definition sort_samples : list RateSample → list RateSample := foldr insert_sample [].

(** [/api/invoices/search]: the entry of an invoice. *)
Record InvoiceEntry := { in_latest : IndexedEvent; in_searchable : string }.

Definition search_step (m : list (string * InvoiceEntry)) (evt : IndexedEvent)
    : list (string * InvoiceEntry) :=
  match extractInvoiceId (ev_value evt) with
  | None => m
  | Some invoiceId =>
      let existing := jm_get invoiceId m in
      jm_set invoiceId {|
        in_latest := match existing with Some e => in_latest e | None => evt end;
        in_searchable := toLowerCase (match existing with Some e => in_searchable e | None => "" end
          +:+ " " +:+ JSON_stringify (ev_value evt)) |} m
  end.

Definition query_string (q : jsval) : option string := match q with JStr s => Some s | _ => None end.

(** [Number.parseInt(String(q ?? d), 10) || z] *)
Definition query_int (q : jsval) (d : string) (z : Z) : Z :=
  match parseInt (js_String (js_coalesce q (JStr d))) with
  | Some n => if n =? 0 then z else n
  | None => z
  end.

(** [getAllEvents] of a database that does not change meanwhile. Each page is a
    query of its own, and Postgres may order the rows of one ledger differently
    in each: [pgs n] is the Postgres the [n]-th query meets. *)
Definition getAllEvents_on (maxReplay : Z) (pgs : nat → Postgres) (db : Database)
    (o : GetEventsOptions) : result (list IndexedEvent) :=
  default (Throw (EError "out of fuel"))
    (replay_pages maxReplay (λ n offset, getEvents (PG := pgs n) db (with_page o pageSize offset))
       (replay_fuel maxReplay) 0 0 []).

Section handlers.
Context {PG : Postgres}.
Context (maxReplay : Z).

(** The same with one order in all its queries. *)
Definition getAllEvents : Database → GetEventsOptions → result (list IndexedEvent) :=
  getAllEvents_on maxReplay (λ _, PG).

Definition of_type (contractType : string) : GetEventsOptions := {|
  o_contractId := None; o_contractType := Some contractType; o_eventType := None;
  o_actorAddress := None; o_limit := None; o_offset := None;
  o_afterLedger := None; o_beforeLedger := None |}.

Definition of_types (contractType eventType : string) : GetEventsOptions := {|
  o_contractId := None; o_contractType := Some contractType; o_eventType := Some eventType;
  o_actorAddress := None; o_limit := None; o_offset := None;
  o_afterLedger := None; o_beforeLedger := None |}.

(** ** /health, /ledger/latest *)
Record Health := {
  hl_lastProcessedLedger : option string;
  hl_latestStoredLedger : option number;
  hl_indexerActive : bool;
}.

(** [state] is the loop's [{ lastProcessedLedger, indexerActive? }]. *)
Definition get_health (db : Database) (state : option (string * option bool)) : reply Health :=
  let latestStoredLedger := getLatestLedger db in
  let nonempty s := if String.eqb s "" then None else Some s in
  Reply {|
    hl_lastProcessedLedger :=
      match state ≫= λ s, nonempty s.1 with
      | Some l => Some l
      | None => latestStoredLedger ≫= nonempty
      end;
    hl_latestStoredLedger := Number_of_string <$> (latestStoredLedger ≫= nonempty);
    hl_indexerActive := default false (state ≫= snd) |}.

Definition get_ledger_latest (db : Database) : reply (option number) :=
  Reply (Number_of_string <$>
    (getLatestLedger db ≫= λ s, if String.eqb s "" then None else Some s)).

(** ** /events *)

(** [parsePagination] is a free identifier of api.ts; the handlers are given
    what it evaluates to. [None] is the [null] the handlers test for. *)
Definition Pagination : Type := jsval → Z → Z → result (option Z).

Definition unbound_parsePagination : Pagination :=
  λ _ _ _, Throw (EReferenceError "parsePagination is not defined").

(** [const { limit = d } = req.query] *)
Definition query_default (q : jsval) (d : string) : jsval :=
  match q with JUndef => JStr d | _ => q end.

(** [typeof q === "string" ? parseInt(q, 10) : undefined] *)
Definition query_ledger (q : jsval) : option (option Z) := parseInt <$> query_string q.

(** [contract_id as string | undefined] reaches the query as it is: an array or
    an object is sent to Postgres as the text it converts to. *)
Definition query_text (q : jsval) : result (option string) :=
  match q with
  | JUndef => Ok None
  | JStr s => Ok (Some s)
  | _ => match pg_text q with
         | Some s => Ok (Some s)
         | None => Throw (EError "invalid parameter")
         end
  end.

Record EventsQuery := {
  eq_contract_id : jsval; eq_contract_type : jsval; eq_event_type : jsval;
  eq_actor_address : jsval; eq_limit : jsval; eq_offset : jsval;
  eq_after_ledger : jsval; eq_before_ledger : jsval;
}.

Section paginated.
Context (parsePagination : Pagination).

Definition limit_error : string :=
  "limit must be an integer from 0 to 500 and offset must be a non-negative integer".

(** The two checks the four event handlers share, then the query. *)
Definition paginated (error : string) (limit offset : jsval)
    (query : Z → Z → result (list IndexedEvent)) : reply (list IndexedEvent) :=
  catch_range (
    let limit := query_default limit "50" in
    let offset := query_default offset "0" in
    parsedLimit ← parsePagination limit 50 500;
    parsedOffset ← parsePagination offset 0 MAX_SAFE_INTEGER;
    match parsedLimit, parsedOffset with
    | Some _, Some _ =>
        l ← parseBoundedInteger limit 50 MAX_PAGE_SIZE "limit";
        o ← parseBoundedInteger offset 0 MAX_OFFSET "offset";
        events ← query l o;
        Ok (Reply events)
    | _, _ => Ok (Fail 400 error)
    end).

Definition get_events (db : Database) (q : EventsQuery) : reply (list IndexedEvent) :=
  paginated limit_error (eq_limit q) (eq_offset q) (λ limit offset,
    contractId ← query_text (eq_contract_id q);
    contractType ← query_text (eq_contract_type q);
    eventType ← query_text (eq_event_type q);
    actorAddress ← query_text (eq_actor_address q);
    getEvents db {|
      o_contractId := contractId; o_contractType := contractType;
      o_eventType := eventType; o_actorAddress := actorAddress;
      o_limit := Some limit; o_offset := Some offset;
      o_afterLedger := query_ledger (eq_after_ledger q);
      o_beforeLedger := query_ledger (eq_before_ledger q) |}).

Definition get_events_actor (db : Database) (actorAddress : string) (limit offset : jsval)
    : reply (list IndexedEvent) :=
  paginated "invalid limit or offset" limit offset (λ limit offset,
    getEvents db {|
      o_contractId := None; o_contractType := None; o_eventType := None;
      o_actorAddress := Some actorAddress; o_limit := Some limit; o_offset := Some offset;
      o_afterLedger := None; o_beforeLedger := None |}).

Definition get_events_contract (db : Database) (contractId : string) (limit offset : jsval)
    : reply (list IndexedEvent) :=
  paginated "invalid limit or offset" limit offset (λ limit offset,
    getEvents db {|
      o_contractId := Some contractId; o_contractType := None; o_eventType := None;
      o_actorAddress := None; o_limit := Some limit; o_offset := Some offset;
      o_afterLedger := None; o_beforeLedger := None |}).

Definition get_events_type (db : Database) (eventType : string) (limit offset : jsval)
    : reply (list IndexedEvent) :=
  paginated "invalid limit or offset" limit offset (λ limit offset,
    getEvents db {|
      o_contractId := None; o_contractType := None; o_eventType := Some eventType;
      o_actorAddress := None; o_limit := Some limit; o_offset := Some offset;
      o_afterLedger := None; o_beforeLedger := None |}).

(** ** /compliance *)

(** Newest first: the first flagged event of an address stays. *)
Definition flagged_step (latest : list (string * FlaggedAddress)) (evt : IndexedEvent)
    : list (string * FlaggedAddress) :=
  let component i := match ev_value evt with
    | JArr l => js_String (js_coalesce (arr_get l i) (JStr "")) | _ => "" end in
  let address := component 0%nat in
  if String.eqb address "" then latest
  else
    let status := component 1%nat in
    if negb (String.eqb status "Flagged") && negb (String.eqb status "Blocked") then latest
    else if jm_has address latest then latest
    else jm_set address {|
      fl_address := address;
      fl_status := status;
      fl_reasonCode := match ev_value evt with JArr l => arr_get l 2 | _ => JNull end;
      fl_at := ev_ledgerCloseAt evt;
      fl_txHash := ev_txHash evt |} latest.

(** The newest [limit] events of the compliance contract. *)
Definition compliance_events (db : Database) (eventType : option string) (limit : Z)
    : result (list IndexedEvent) :=
  getEvents db {|
    o_contractId := None; o_contractType := Some "compliance"; o_eventType := eventType;
    o_actorAddress := None; o_limit := Some limit; o_offset := Some 0;
    o_afterLedger := None; o_beforeLedger := None |}.

Definition get_compliance_flagged (db : Database) (limit : jsval)
    : reply (list FlaggedAddress) :=
  catch_range (
    let limit := query_default limit "100" in
    parsedLimit ← parsePagination limit 100 500;
    match parsedLimit with
    | None => Ok (Fail 400 "invalid limit")
    | Some _ =>
        l ← parseBoundedInteger limit 100 MAX_PAGE_SIZE "limit";
        events ← compliance_events db (Some "screened") l;
        Ok (Reply (jm_values (foldl flagged_step [] events)))
    end).

Definition screens (address : string) (value : jsval) : bool :=
  match value with
  | JArr v => String.eqb (js_String (js_coalesce (arr_get v 0) (JStr ""))) address
  | _ => false
  end.

Definition get_compliance_history (db : Database) (address : string) (limit : jsval)
    : reply (list EventView) :=
  catch_range (
    let limit := query_default limit "100" in
    parsedLimit ← parsePagination limit 100 500;
    match parsedLimit with
    | None => Ok (Fail 400 "invalid limit")
    | Some _ =>
        l ← parseBoundedInteger limit 100 MAX_PAGE_SIZE "limit";
        events ← compliance_events db None l;
        Ok (Reply (map view_of (filter (λ evt, screens address (ev_value evt)) events)))
    end).

End paginated.

(** ** Invoices *)
Definition get_invoices_search (db : Database) (q status page size : jsval) : reply SearchReply :=
  catch_500 (
    let query := match query_string q with Some s => toLowerCase (trim s) | None => "" end in
    let status := match query_string status with Some s => toLowerCase s | None => "" end in
    let page := Z.max 0 (query_int page "0" 0) in
    let pageSize := Z.min 100 (Z.max 1 (query_int size "20" 20)) in
    events ← getAllEvents db (of_type "invoice");
    let invoicesById := foldl search_step [] events in
    let matches := sort_by (λ e, - ev_ledgerSequence (in_latest e.2)) (filter (λ e,
      (String.eqb query "" || includes query e.1 || includes query (in_searchable e.2))
      && (String.eqb status ""
          || String.eqb (toLowerCase (ev_eventType (in_latest e.2))) status
          || includes status (in_searchable e.2))) invoicesById) in
    let start := page * pageSize in
    Ok (Reply {|
      se_invoiceIds := map (λ e, Number_of_string e.1) (takeZ pageSize (dropZ start matches));
      se_page := page; se_pageSize := pageSize; se_total := lengthZ matches |})).

(** The owner a value mentions. *)
Definition matches_owner (ownerLower : string) (value : jsval) : bool :=
  existsb (λ c,
    if negb (truthy c) then false
    else match c with
    | JStr s => String.eqb (toLowerCase s) ownerLower
    | JArr _ | JObj _ => includes ownerLower (toLowerCase (JSON_stringify c))
    | _ => false
    end)
    [get_prop_opt value "owner"; get_prop_opt value "sme"; get_prop_opt value "address";
     get_prop_opt value "from"; value].

Definition matches_status (statusFilter : option string) (evt : IndexedEvent) : bool :=
  match statusFilter with
  | None => true
  | Some s =>
      String.eqb s ""
      || String.eqb (toLowerCase (ev_eventType evt)) (toLowerCase s)
      || match get_prop_opt (ev_value evt) "status" with
         | JStr t => String.eqb (toLowerCase t) (toLowerCase s)
         | _ => false
         end
  end.

Definition owner_invoice (evt : IndexedEvent) : OwnerInvoice :=
  let v := ev_value evt in
  {| oi_invoiceId := js_coalesce (js_coalesce (get_prop_opt v "invoice_id")
       (js_coalesce (get_prop_opt v "invoiceId") (get_prop_opt v "id"))) JNull;
     oi_status := js_or (get_prop_opt v "status") (JStr (ev_eventType evt));
     oi_amount := js_coalesce (js_coalesce (get_prop_opt v "amount") (get_prop_opt v "value")) JNull;
     oi_createdAt := ev_ledgerCloseAt evt;
     oi_txHash := ev_txHash evt |}.

Definition get_invoices_by_owner (db : Database) (address : string) (status : jsval)
    : reply (list OwnerInvoice) :=
  if String.eqb address "" then Fail 400 "address path param is required"
  else catch_500 (
    let statusFilter := query_string status in
    events ← getEvents db (with_page (of_type "invoice") 1000 0);
    let ownerLower := toLowerCase address in
    Ok (Reply (map owner_invoice (filter (λ evt,
      truthy (ev_value evt) && matches_owner ownerLower (ev_value evt)
      && matches_status statusFilter evt) events)))).

(** ** Co-funding rounds *)

(** [new Set()] and [set.add(id)] over the events for which [id_of] gives one. *)
Definition collect_ids (id_of : IndexedEvent → option string) (events : list IndexedEvent)
    : list string := js_set (omap id_of events).

Definition get_cofunding_rounds (db : Database) : reply (list string) :=
  catch_500 (
    events ← getAllEvents db (of_type "pool");
    Ok (Reply (collect_ids (λ evt,
      if String.eqb (ev_eventType evt) "cf_open" then extractCoFundingInvoiceId (ev_value evt)
      else None) events))).

Definition get_cofunding_round (db : Database) (invoiceId : string) : reply RoundReply :=
  if String.eqb invoiceId "" then Fail 400 "invoiceId path param is required"
  else catch_500 (
    events ← getAllEvents db (of_type "pool");
    let matches := by_ledger (filter (λ evt,
      one_of COFUNDING_EVENT_TYPES (ev_eventType evt)
      && eq_text (extractCoFundingInvoiceId (ev_value evt)) invoiceId) events) in
    match matches with
    | [] => Ok (Fail 404 ("No co-funding round found for invoice " +:+ invoiceId))
    | _ => Ok (Reply {|
        rd_invoiceId := invoiceId;
        rd_status := replay_status cofunding_status "Unknown" matches;
        rd_events := map view_of matches |})
    end).

Definition get_cofunding_investor (db : Database) (address : string) : reply (list string) :=
  if String.eqb address "" then Fail 400 "address path param is required"
  else catch_500 (
    let addressLower := toLowerCase address in
    events ← getAllEvents db (of_types "pool" "cf_commit");
    Ok (Reply (collect_ids (λ evt,
      if address_at 1 addressLower (ev_value evt) then extractCoFundingInvoiceId (ev_value evt)
      else None) events))).

(** ** Secondary market *)

(** [Array.from(opened).filter((id) => !closed.has(id))] *)
Definition still_open (opened closed : list string) : list string :=
  filter (λ id, negb (one_of closed id)) opened.

Definition get_listings_open (db : Database) : reply (list string) :=
  catch_500 (
    events ← getAllEvents db (of_type "pool");
    let id_if (p : string → bool) evt :=
      if one_of LISTING_EVENT_TYPES (ev_eventType evt) && p (ev_eventType evt)
      then extractListingId (ev_value evt) else None in
    let opened := collect_ids (id_if (String.eqb "lst_open")) events in
    let closed := collect_ids (id_if (λ t, negb (String.eqb "lst_open" t))) events in
    Ok (Reply (still_open opened closed))).

Definition get_listings_seller (db : Database) (address : string) : reply (list string) :=
  if String.eqb address "" then Fail 400 "address path param is required"
  else catch_500 (
    let addressLower := toLowerCase address in
    events ← getAllEvents db (of_types "pool" "lst_open");
    Ok (Reply (collect_ids (λ evt,
      if address_at 2 addressLower (ev_value evt) then extractListingId (ev_value evt)
      else None) events))).

(** The orders an event adds to [opened], in turn. *)
Definition opened_orders (evt : IndexedEvent) : list string :=
  if String.eqb (ev_eventType evt) "ord_open" then option_list (extractListingId (ev_value evt))
  else if String.eqb (ev_eventType evt) "ord_fill" then
    match ev_value evt with
    | JArr l => omap (λ v, match v with JUndef => None | _ => Some (js_String v) end)
                  [arr_get l 0; arr_get l 1]
    | _ => []
    end
  else [].

Definition get_orders_open (db : Database) : reply (list string) :=
  catch_500 (
    events ← getAllEvents db (of_type "pool");
    let opened := js_set (concat (map opened_orders events)) in
    let closed := collect_ids (λ evt,
      if one_of ["ord_cncl"; "ord_exp"] (ev_eventType evt) then extractListingId (ev_value evt)
      else None) events in
    Ok (Reply (still_open opened closed))).

Definition get_orders_owner (db : Database) (address : string) : reply (list string) :=
  if String.eqb address "" then Fail 400 "address path param is required"
  else catch_500 (
    let addressLower := toLowerCase address in
    events ← getEvents db (with_page (of_types "pool" "ord_open") 2000 0);
    Ok (Reply (collect_ids (λ evt,
      if address_at 2 addressLower (ev_value evt) then extractListingId (ev_value evt)
      else None) events))).

(** ** Oracle rounds *)
Definition get_oracle_round (db : Database) (invoiceId : string) : reply RoundReply :=
  if String.eqb invoiceId "" then Fail 400 "invoiceId path param is required"
  else catch_500 (
    events ← getAllEvents db (of_type "oracle_registry");
    let matches := by_ledger (filter (λ evt,
      eq_text (extractInvoiceId (ev_value evt)) invoiceId) events) in
    match matches with
    | [] => Ok (Fail 404 ("No round found for invoice " +:+ invoiceId))
    | _ => Ok (Reply {|
        rd_invoiceId := invoiceId;
        rd_status := replay_status round_status "Unknown" matches;
        rd_events := map view_of matches |})
    end).

(** ** Credit score *)
Definition attestation_ids (smeLower : string) (events : list IndexedEvent) : list string :=
  collect_ids (λ evt,
    if String.eqb (ev_eventType evt) "att_sub" && address_at 1 smeLower (ev_value evt)
    then tuple_id evt else None) events.

Definition lifecycle_events (attestationIds : list string) (events : list IndexedEvent)
    : list IndexedEvent :=
  by_ledger (filter (λ evt,
    one_of ATTESTATION_LIFECYCLE_EVENT_TYPES (ev_eventType evt)
    && match tuple_id evt with Some id => one_of attestationIds id | None => false end) events).

Definition attestation_of (sme : string) (lifecycleEvents : list IndexedEvent) (id : string)
    : Attestation :=
  let idEvents := filter (λ evt, eq_text (tuple_id evt) id) lifecycleEvents in
  {| an_id := id; an_sme := sme;
     an_state := foldl attestation_step attestation_init idEvents;
     an_events := map view_of idEvents |}.

Definition get_attestations (db : Database) (sme : string) : reply (list Attestation) :=
  if String.eqb sme "" then Fail 400 "sme path param is required"
  else catch_500 (
    let smeLower := toLowerCase sme in
    events ← getAllEvents db (of_type "credit_score");
    let attestationIds := attestation_ids smeLower events in
    let lifecycleEvents := lifecycle_events attestationIds events in
    Ok (Reply (map (attestation_of sme lifecycleEvents) attestationIds))).

Definition get_risk_signals (db : Database) (sme : string) : reply RiskSignalReply :=
  if String.eqb sme "" then Fail 400 "sme path param is required"
  else Reply
    match getSmeRiskSignals db (Some sme) with
    | [] => {| rs_sme := sme; rs_debtorConcentrationBps := 0; rs_invoiceSizeRiskBps := 0;
               rs_totalVolume := "0"; rs_updatedAt := None |}
    | row :: _ => {|
        rs_sme := sg_sme row;
        rs_debtorConcentrationBps := sg_debtorConcentrationBps row;
        rs_invoiceSizeRiskBps := sg_invoiceSizeRiskBps row;
        rs_totalVolume := pretty (sg_totalVolume row);
        rs_updatedAt := Some (sg_updatedAt row) |}
    end.

(** ** Rate history *)

(** [from === undefined || s.timestamp >= from] and the like. *)
Definition in_range (from to : option number) (t : number) : bool :=
  match from with Some f => num_leb f t | None => true end
  && match to with Some u => num_leb t u | None => true end.

Definition get_rate_history (db : Database) (token : string) (from to : jsval)
    : reply (list RateSample) :=
  if String.eqb token "" then Fail 400 "token path param is required"
  else catch_500 (
    let from := Number_of_string <$> query_string from in
    let to := Number_of_string <$> query_string to in
    if match from with Some f => isNaN f | None => false end
       || match to with Some u => isNaN u | None => false end
    then Ok (Fail 400 "from/to must be unix timestamps in seconds")
    else
      events ← getAllEvents db (of_types "pool" "rate_snap");
      Ok (Reply (sort_samples (filter (λ s, in_range from to (rt_timestamp s))
        (omap (λ evt, match ev_value evt with
          | JArr l =>
              match arr_get l 0 with
              | JStr t =>
                  if String.eqb t token then Some {|
                    rt_timestamp := js_Number (arr_get l 1);
                    rt_utilizationBps := js_Number (arr_get l 2);
                    rt_rateBps := js_Number (arr_get l 3);
                    rt_ledgerSequence := ev_ledgerSequence evt;
                    rt_txHash := ev_txHash evt |}
                  else None
              | _ => None
              end
          | _ => None
          end) events))))).

(** ** Tranche yields *)
Definition tranche_reply (r : TrancheApyRow) : TrancheReply := {|
  tp_realizedPrincipal := pretty (tr_realizedPrincipal r);
  tp_realizedReturn := pretty (tr_realizedReturn r);
  tp_closedPositions := tr_closedPositions r;
  tp_realizedApyBps := tr_realizedApyBps r;
  tp_realizedApyPct := num_div (num_of_Z (tr_realizedApyBps r)) (num_of_Z 100);
  tp_updatedAt := Some (tr_updatedAt r) |}.

Definition empty_tranche_reply : TrancheReply := {|
  tp_realizedPrincipal := "0"; tp_realizedReturn := "0"; tp_closedPositions := 0;
  tp_realizedApyBps := 0; tp_realizedApyPct := num_of_Z 0; tp_updatedAt := None |}.

Definition get_tranches_apy (db : Database) (token : jsval)
    : reply (list (string * TrancheClass * TrancheReply)) :=
  Reply (map (λ r, (tr_token r, tr_trancheClass r, tranche_reply r))
    (getTrancheApy db (query_string token))).

(** Senior and junior of one token. *)
Definition get_tranche_apy (db : Database) (token : string) : reply (TrancheReply * TrancheReply) :=
  if String.eqb token "" then Fail 400 "token path param is required"
  else
    let rows := getTrancheApy db (Some token) in
    let find_class cls :=
      match filter (λ r, tr_trancheClass r = cls) rows with
      | r :: _ => tranche_reply r
      | [] => empty_tranche_reply
      end in
    Reply (find_class Senior, find_class Junior).

End handlers.

(** ** The replay of all events *)
Section replay.
Context (maxReplay : Z).

(** Whatever the queries return, the loop ends within its fuel. *)
Lemma replay_pages_total fetch fuel n offset events :
  lengthZ events ≤ maxReplay → maxReplay - lengthZ events < pageSize * Z.of_nat fuel →
  ∃ r, replay_pages maxReplay fetch fuel n offset events = Some r
    ∧ ∀ evs, r = Ok evs → lengthZ evs ≤ maxReplay.
Proof.
  revert n offset events. induction fuel as [|fuel IH]; intros n offset events Hle Hfuel.
  { simpl in Hfuel. lia. }
  cbn [replay_pages]. destruct (fetch n offset) as [page|e]; [|by eexists].
  destruct (Z.ltb_spec maxReplay (lengthZ (events ++ page))); [by eexists|].
  destruct (Z.ltb_spec (lengthZ page) pageSize); [eexists; split; [done|]; by intros evs [= <-]|].
  apply IH; [done|]. unfold lengthZ in *. rewrite length_app in *. unfold pageSize in *. lia.
Qed.

Lemma replay_fuel_enough : 0 ≤ maxReplay → maxReplay < pageSize * Z.of_nat (replay_fuel maxReplay).
Proof.
  intros H. unfold replay_fuel, pageSize. pose proof (Z.div_pos maxReplay 500 H ltac:(lia)).
  rewrite Z2Nat.id by lia. pose proof (Z.mul_succ_div_gt maxReplay 500 ltac:(lia)). lia.
Qed.

Definition replay_error : exn :=
  ERangeError ("event replay exceeds the " +:+ pretty maxReplay +:+ " event safety limit").

(** From its [n]-th query on the loop reads the pages of [l], after [events]. *)
Lemma replay_pages_list fetch l fuel n events :
  (∀ m offset, (n ≤ m)%nat → 0 ≤ offset →
    fetch m offset = Ok (takeZ pageSize (dropZ offset l))) →
  lengthZ events ≤ lengthZ l → lengthZ events ≤ maxReplay →
  maxReplay - lengthZ events < pageSize * Z.of_nat fuel →
  replay_pages maxReplay fetch fuel n (lengthZ events) events
  = Some (if maxReplay <? lengthZ l then Throw replay_error
          else Ok (events ++ dropZ (lengthZ events) l)).
Proof.
  revert n events. induction fuel as [|fuel IH]; intros n events Hfetch Hle Hmax Hfuel.
  { simpl in Hfuel. lia. }
  cbn [replay_pages]. set (k := lengthZ events) in *.
  assert (0 ≤ k) by apply lengthZ_nonneg. rewrite Hfetch by done.
  assert (lengthZ (takeZ pageSize (dropZ k l)) = Z.min pageSize (lengthZ l - k)) as Hpage.
  { rewrite lengthZ_takeZ, lengthZ_dropZ by (unfold pageSize; lia). lia. }
  assert (lengthZ (events ++ takeZ pageSize (dropZ k l)) = Z.min (k + pageSize) (lengthZ l)) as Hlen.
  { unfold lengthZ at 1. rewrite length_app, Nat2Z.inj_add. unfold lengthZ in Hpage, k.
    unfold lengthZ. lia. }
  rewrite Hlen. destruct (Z.ltb_spec maxReplay (Z.min (k + pageSize) (lengthZ l))).
  { destruct (Z.ltb_spec maxReplay (lengthZ l)); [done|lia]. }
  rewrite Hpage. destruct (Z.ltb_spec (Z.min pageSize (lengthZ l - k)) pageSize) as [Hlast|Hfull].
  - destruct (Z.ltb_spec maxReplay (lengthZ l)); [unfold pageSize in *; lia|].
    rewrite takeZ_ge; [done|]. rewrite lengthZ_dropZ by done. unfold pageSize in *. lia.
  - replace (k + Z.min pageSize (lengthZ l - k))
      with (lengthZ (events ++ takeZ pageSize (dropZ k l))) by lia.
    rewrite IH; [|intros; apply Hfetch; [lia|done]|unfold pageSize in *; lia..].
    destruct (maxReplay <? lengthZ l); [done|]. rewrite <-app_assoc, Hlen.
    rewrite <-(takeZ_dropZ pageSize (dropZ k l)) at 2. rewrite dropZ_dropZ by (unfold pageSize; lia).
    by replace (Z.min (k + pageSize) (lengthZ l)) with (k + pageSize) by lia.
Qed.

(** A replay terminates however the database changes between its queries:
    within [max / 500 + 2] queries it fails or returns, and what it returns is
    within the safety limit. *)
Theorem getAllEvents_terminates fetch :
  0 ≤ maxReplay →
  ∃ r, replay_pages maxReplay fetch (replay_fuel maxReplay) 0 0 [] = Some r
    ∧ ∀ evs, r = Ok evs → lengthZ evs ≤ maxReplay.
Proof.
  intros H. apply replay_pages_total; [done|]. pose proof (replay_fuel_enough H).
  unfold lengthZ. simpl. lia.
Qed.

(** A replay is not atomic: when one newer event is stored after the first
    page was read, every later page is shifted by one and the last event of the
    first page is returned twice. *)
Theorem replay_duplicates e l evs :
  let fetch := λ n offset,
    Ok (takeZ pageSize (dropZ offset (match n with O => l | S _ => e :: l end))) in
  pageSize ≤ lengthZ l → lengthZ l < maxReplay →
  replay_pages maxReplay fetch (replay_fuel maxReplay) 0 0 [] = Some (Ok evs) →
  evs = takeZ pageSize l ++ dropZ (pageSize - 1) l.
Proof.
  intros fetch Hl Hmax. pose proof (lengthZ_nonneg l).
  pose proof (replay_fuel_enough ltac:(lia)) as Hf.
  destruct (replay_fuel maxReplay) as [|fuel]; [simpl in Hf; lia|].
  assert (lengthZ (takeZ pageSize l) = pageSize) as Hfirst.
  { rewrite lengthZ_takeZ by (unfold pageSize; lia). lia. }
  assert (lengthZ (e :: l) = lengthZ l + 1) as Hel by (unfold lengthZ; simpl; lia).
  cbn [replay_pages]. unfold fetch at 1. rewrite !dropZ_drop, drop_0. simpl app. rewrite Hfirst.
  destruct (Z.ltb_spec maxReplay pageSize); [lia|]. rewrite Z.ltb_irrefl, Z.add_0_l.
  rewrite <-Hfirst at 1. rewrite (replay_pages_list _ (e :: l)).
  - rewrite Hfirst, Hel. destruct (Z.ltb_spec maxReplay (lengthZ l + 1)); [lia|].
    intros [= <-]. by rewrite dropZ_drop.
  - intros [|m] offset Hm _; [lia|done].
  - lia.
  - lia.
  - rewrite Hfirst. lia.
Qed.

End replay.

(** ** What the handlers read *)
Section correct.
Context {PG : Postgres}.
Context (maxReplay : Z).

(** The stored events a replay returns, newest first. *)
Definition stored_events (db : Database) (o : GetEventsOptions) : list IndexedEvent :=
  map rowToEvent (pg_order_by_ledger false (filter (row_matches o None None) (db_events db))).

Lemma getEvents_page db o limit offset :
  o_afterLedger o = None → o_beforeLedger o = None → 0 ≤ limit → 0 ≤ offset →
  getEvents db (with_page o limit offset)
  = Ok (takeZ limit (dropZ offset (stored_events db o))).
Proof.
  intros Ha Hb Hl Ho. unfold getEvents. rewrite exec_query_spec. unfold page_rows. simpl.
  rewrite Ha, Hb. simpl. destruct (Z.ltb_spec limit 0); [lia|]. destruct (Z.ltb_spec offset 0); [lia|].
  simpl. unfold stored_events. rewrite !takeZ_take, !dropZ_drop, skipn_map, firstn_map. do 4 f_equal.
Qed.

(** The replay on such a database. *)
Lemma getAllEvents_eq db o :
  o_afterLedger o = None → o_beforeLedger o = None → 0 ≤ maxReplay →
  getAllEvents maxReplay db o
  = if maxReplay <? lengthZ (stored_events db o) then Throw (replay_error maxReplay)
    else Ok (stored_events db o).
Proof.
  intros Ha Hb Hmax. unfold getAllEvents, getAllEvents_on.
  rewrite (replay_pages_list maxReplay _ (stored_events db o) (replay_fuel maxReplay) 0 []).
  - simpl. rewrite dropZ_drop. by destruct (_ <? _).
  - intros m offset _ ?. by apply getEvents_page.
  - apply lengthZ_nonneg.
  - done.
  - pose proof (replay_fuel_enough maxReplay Hmax). unfold lengthZ. simpl. lia.
Qed.

Lemma elem_of_stored_events db o e :
  e ∈ stored_events db o ↔
  ∃ r, e = rowToEvent r ∧ r ∈ db_events db ∧ row_matches o None None r = true.
Proof.
  unfold stored_events. rewrite list_elem_of_fmap. setoid_rewrite pg_order_by_ledger_perm.
  setoid_rewrite list_elem_of_filter. setoid_rewrite Is_true_true. naive_solver.
Qed.

Lemma rowToEvent_ids (rows : list EventRow) : ev_id <$> (rowToEvent <$> rows) = row_id <$> rows.
Proof. by rewrite <-list_fmap_compose. Qed.

End correct.

(** ** A tie order per query *)
Section ties.
Context (maxReplay : Z).

(** The pages of lists of one length, the [n]-th page from the [n]-th list: the
    event at a place is the one its page's list has there. *)
Lemma replay_pages_orders (ls : nat → list IndexedEvent) N fetch fuel n events :
  (∀ m offset, 0 ≤ offset → fetch m offset = Ok (takeZ pageSize (dropZ offset (ls m)))) →
  (∀ m, lengthZ (ls m) = N) →
  lengthZ events = pageSize * Z.of_nat n → lengthZ events ≤ N → lengthZ events ≤ maxReplay →
  maxReplay - lengthZ events < pageSize * Z.of_nat fuel →
  ∃ r, replay_pages maxReplay fetch fuel n (lengthZ events) events = Some r
    ∧ if maxReplay <? N then r = Throw (replay_error maxReplay)
      else ∃ evs, r = Ok evs ∧ lengthZ evs = N
        ∧ ∀ i : nat, evs !! i = if decide (Z.of_nat i < lengthZ events) then events !! i
                                else ls (i / 500)%nat !! i.
Proof.
  intros Hfetch HN. revert n events. induction fuel as [|fuel IH]; intros n events Hn Hle Hmax Hfuel.
  { simpl in Hfuel. lia. }
  cbn [replay_pages]. set (k := lengthZ events) in *. assert (0 ≤ k) by apply lengthZ_nonneg.
  rewrite Hfetch by done. set (page := takeZ pageSize (dropZ k (ls n))).
  assert (lengthZ page = Z.min pageSize (N - k)) as Hpage.
  { unfold page. rewrite lengthZ_takeZ, lengthZ_dropZ, HN by (unfold pageSize; lia). lia. }
  assert (lengthZ (events ++ page) = Z.min (k + pageSize) N) as Hlen.
  { unfold lengthZ at 1. rewrite length_app, Nat2Z.inj_add. unfold lengthZ in Hpage, k. lia. }
  assert (∀ i : nat, Z.of_nat i < lengthZ (events ++ page) →
    (events ++ page) !! i = if decide (Z.of_nat i < k) then events !! i
                            else ls (i / 500)%nat !! i) as Hlook.
  { intros i Hi. unfold k in *. case_decide as Hik; [apply lookup_app_l; unfold lengthZ in Hik; lia|].
    rewrite lookup_app_r by (unfold lengthZ in Hik; lia). unfold page.
    rewrite takeZ_take, dropZ_drop, lookup_take_lt, lookup_drop
      by (unfold pageSize, lengthZ in *; lia).
    unfold pageSize, lengthZ in *.
    replace (Z.to_nat (Z.of_nat (length events)) + (i - length events))%nat with i by lia.
    f_equal. f_equal. apply (Nat.div_unique _ _ _ (i - 500 * n)); lia. }
  destruct (Z.ltb_spec maxReplay (lengthZ (events ++ page))).
  { eexists. split; [done|]. by destruct (Z.ltb_spec maxReplay N); [|lia]. }
  rewrite Hpage. destruct (Z.ltb_spec (Z.min pageSize (N - k)) pageSize) as [Hlast|Hfull].
  - eexists. split; [done|]. destruct (Z.ltb_spec maxReplay N); [unfold pageSize in *; lia|].
    exists (events ++ page). split_and!; [done|unfold pageSize in *; lia|]. intros i.
    destruct (decide (Z.of_nat i < N)) as [Hi|Hi].
    + apply Hlook. unfold pageSize in *. lia.
    + rewrite lookup_ge_None_2 by (unfold lengthZ, pageSize in *; lia).
      rewrite decide_False by lia. symmetry. apply lookup_ge_None_2.
      specialize (HN (i / 500)%nat). unfold lengthZ in HN. lia.
  - replace (k + Z.min pageSize (N - k)) with (lengthZ (events ++ page)) by lia.
    destruct (IH (S n) (events ++ page)) as (r&Hr&Hres); [unfold pageSize in *; lia..|].
    exists r. split; [done|]. destruct (maxReplay <? N); [done|].
    destruct Hres as (evs&->&HlenN&Hevs). exists evs. split_and!; [done..|]. intros i.
    rewrite Hevs. case_decide as Hi; [by apply Hlook|]. rewrite decide_False by (unfold pageSize in *; lia). done.
Qed.

(** Newest ledger first. *)
Definition newest_first (evs : list IndexedEvent) : Prop :=
  StronglySorted (λ a b, b ≤ a) (ev_ledgerSequence <$> evs).

Lemma stored_events_newest_first {pg : Postgres} db o : newest_first (stored_events db o).
Proof.
  unfold newest_first, stored_events. rewrite <-list_fmap_compose.
  apply (StronglySorted_fmap _ (λ r r', - row_ledger_sequence r ≤ - row_ledger_sequence r'));
    [|apply pg_order_by_ledger_desc]. simpl. lia.
Qed.

(** Sorted alike, two orders have the same ledgers place by place. *)
Lemma ordered_ledgers (pg pg' : Postgres) db o :
  ev_ledgerSequence <$> stored_events (PG := pg) db o
  = ev_ledgerSequence <$> stored_events (PG := pg') db o.
Proof.
  assert (AntiSymm (=) (λ a b : Z, b ≤ a)) as Hanti by (intros ? ?; lia).
  apply (StronglySorted_unique (λ a b, b ≤ a)); [apply stored_events_newest_first..|].
  unfold stored_events. by rewrite !pg_order_by_ledger_perm.
Qed.

(** Lists that agree wherever their events are of the ledger [L]. *)
Lemma filter_ledger_agree L (l l' : list IndexedEvent) :
  Forall2 (λ e e', ev_ledgerSequence e = ev_ledgerSequence e' ∧ (ev_ledgerSequence e = L → e = e')) l l' →
  filter (λ e, ev_ledgerSequence e = L) l = filter (λ e, ev_ledgerSequence e = L) l'.
Proof.
  induction 1 as [|e e' l l' [He Hee] Hl IH]; [done|]. rewrite !filter_cons, He, IH.
  case_decide as HL; [|done]. by rewrite Hee by congruence.
Qed.

Lemma filter_rows_ledger L (rows : list EventRow) :
  filter (λ e, ev_ledgerSequence e = L) (rowToEvent <$> rows)
  = rowToEvent <$> filter (λ r, row_ledger_sequence r = L) rows.
Proof.
  induction rows as [|r rows IH]; [done|]. rewrite fmap_cons, !filter_cons, IH. simpl.
  by case_decide.
Qed.

(** In an answer, the events of the ledger [L] came with one page. *)
Definition on_one_page (L : Z) (evs : list IndexedEvent) : Prop :=
  ∃ k : nat, ∀ i e, evs !! i = Some e → ev_ledgerSequence e = L → (i / 500)%nat = k.

(** C30. On a database that does not change, whatever order each query breaks
    the ties of a ledger in, [getAllEvents] throws exactly when more events
    match its filters than the safety limit, and otherwise returns, newest
    ledger first, only stored events they match, as many of each ledger as are
    stored; and exactly those stored of every ledger whose events came with one
    page. *)
Theorem getAllEvents_complete (pgs : nat → Postgres) db o :
  o_afterLedger o = None → o_beforeLedger o = None → 0 ≤ maxReplay →
  let rows := filter (row_matches o None None) (db_events db) in
  if maxReplay <? lengthZ rows then
    getAllEvents_on maxReplay pgs db o = Throw (replay_error maxReplay)
  else
    ∃ evs, getAllEvents_on maxReplay pgs db o = Ok evs
      ∧ newest_first evs
      ∧ Forall (λ e, ∃ r, r ∈ rows ∧ e = rowToEvent r) evs
      ∧ ev_ledgerSequence <$> evs ≡ₚ row_ledger_sequence <$> rows
      ∧ ∀ L, on_one_page L evs →
          filter (λ e, ev_ledgerSequence e = L) evs
          ≡ₚ rowToEvent <$> filter (λ r, row_ledger_sequence r = L) rows.
Proof.
  intros Ha Hb Hmax rows. set (ls := λ n, stored_events (PG := pgs n) db o).
  assert (∀ n, ls n ≡ₚ rowToEvent <$> rows) as Hperm.
  { intros n. unfold ls, stored_events. by rewrite pg_order_by_ledger_perm. }
  assert (∀ n, lengthZ (ls n) = lengthZ rows) as Hlen.
  { intros n. unfold lengthZ. by rewrite Hperm, length_fmap. }
  destruct (replay_pages_orders ls (lengthZ rows)
    (λ n offset, getEvents (PG := pgs n) db (with_page o pageSize offset))
    (replay_fuel maxReplay) 0 []) as (r&Hr&Hres).
  { intros m offset ?. by apply getEvents_page. }
  { done. } { done. } { apply lengthZ_nonneg. } { done. }
  { pose proof (replay_fuel_enough maxReplay Hmax). unfold lengthZ. simpl. lia. }
  change (lengthZ []) with 0 in Hr. unfold getAllEvents_on. rewrite Hr. simpl.
  destruct (maxReplay <? lengthZ rows); [done|]. destruct Hres as (evs&->&HN&Hlook).
  assert (∀ i, evs !! i = ls (i / 500)%nat !! i) as Hi.
  { intros i. rewrite Hlook. apply decide_False. unfold lengthZ. simpl. lia. }
  assert (∀ k, ev_ledgerSequence <$> evs = ev_ledgerSequence <$> ls k) as Hkeys.
  { intros k. apply list_eq. intros i. rewrite !list_lookup_fmap, Hi, <-!list_lookup_fmap.
    unfold ls. by rewrite (ordered_ledgers (pgs (i / 500)%nat) (pgs k)). }
  exists evs. split_and!; [done| | | |].
  - unfold newest_first. rewrite (Hkeys 0%nat). apply stored_events_newest_first.
  - apply Forall_lookup. intros i e He. rewrite Hi in He. apply list_elem_of_lookup_2 in He.
    rewrite Hperm in He. apply list_elem_of_fmap in He as (row&->&?). by exists row.
  - rewrite (Hkeys 0%nat), (Hperm 0%nat), <-list_fmap_compose. done.
  - intros L [k Hk]. rewrite (filter_ledger_agree L evs (ls k)).
    + by rewrite (Hperm k), filter_rows_ledger.
    + apply Forall2_same_length_lookup_2.
      { pose proof (Hlen k). unfold lengthZ in *. lia. }
      intros i e e' He He'. assert (ev_ledgerSequence e = ev_ledgerSequence e') as Heq.
      { pose proof (f_equal (lookup i) (Hkeys k)) as H. rewrite !list_lookup_fmap, He, He' in H.
        by simplify_eq/=. }
      split; [done|]. intros HL. specialize (Hk _ _ He HL). rewrite Hi, Hk in He. congruence.
Qed.

End ties.
