(* ===== verification/ApiSpec.v ===== *)
(** * What the REST handlers answer

    The handlers of [Api] fold the newest-first event stream into sets, states
    and histories; the theorems here say what the answers mean in terms of the
    stored events. *)
From S2P Require Import Prelude JsValue JsNumber JsMap Parser Database Db TrancheApy SmeRisk Api.
#[local] Open Scope string_scope.
#[local] Open Scope list_scope.
#[local] Open Scope Z_scope.

Section spec.
Context {PG : Postgres}.
Context (maxReplay : Z) (Hmax : 0 ≤ maxReplay).

(** The events of a type fit in one replay. *)
Definition fits (db : Database) (o : GetEventsOptions) : Prop :=
  lengthZ (stored_events db o) ≤ maxReplay.

Lemma getAllEvents_fits db o :
  o_afterLedger o = None → o_beforeLedger o = None → fits db o →
  getAllEvents maxReplay db o = Ok (stored_events db o).
Proof.
  intros Ha Hb Hf. rewrite getAllEvents_eq by done. unfold fits in Hf.
  by destruct (Z.ltb_spec maxReplay (lengthZ (stored_events db o))); [lia|].
Qed.

(** ** Sets of ids *)

Lemma elem_of_collect_ids id id_of events :
  id ∈ collect_ids id_of events ↔ ∃ e, e ∈ events ∧ id_of e = Some id.
Proof. unfold collect_ids. by rewrite elem_of_js_set, list_elem_of_omap. Qed.

Lemma elem_of_still_open id opened closed :
  id ∈ still_open opened closed ↔ id ∈ opened ∧ id ∉ closed.
Proof.
  unfold still_open. rewrite list_elem_of_filter, Is_true_true, negb_true_iff.
  rewrite <-(one_of_spec closed). destruct (one_of closed id); naive_solver.
Qed.

Lemma NoDup_still_open opened closed : NoDup opened → NoDup (still_open opened closed).
Proof. apply NoDup_filter. Qed.

(** An event of the pool category of a type, for a listing or order. *)
Definition pool_event (db : Database) (types : list string) (id : string) : Prop :=
  ∃ e, e ∈ stored_events db (of_type "pool")
    ∧ ev_eventType e ∈ types ∧ extract_id (ev_value e) = Some id.

(** A fill names an order as taker or as maker. *)
Definition filled (db : Database) (id : string) : Prop :=
  ∃ e l i, e ∈ stored_events db (of_type "pool") ∧ ev_eventType e = "ord_fill"
    ∧ ev_value e = JArr l ∧ (i < 2)%nat ∧ arr_get l i ≠ JUndef ∧ js_String (arr_get l i) = id.

Lemma elem_of_opened_orders id e :
  id ∈ opened_orders e ↔
  (ev_eventType e = "ord_open" ∧ extract_id (ev_value e) = Some id)
  ∨ (ev_eventType e = "ord_fill" ∧ ∃ l i, ev_value e = JArr l ∧ (i < 2)%nat
      ∧ arr_get l i ≠ JUndef ∧ js_String (arr_get l i) = id).
Proof.
  unfold opened_orders. destruct (String.eqb_spec (ev_eventType e) "ord_open") as [->|Hne].
  - unfold extractListingId. destruct (extract_id (ev_value e)) as [x|]; simpl; [|set_solver].
    rewrite list_elem_of_singleton. split; [intros ->; auto|by intros [[_ [= ->]]|[? _]]].
  - destruct (String.eqb_spec (ev_eventType e) "ord_fill") as [->|Hne'].
    2:{ rewrite elem_of_nil. split; [done|]. by intros [[? _]|[? _]]. }
    assert (∀ v, (match v with JUndef => None | _ => Some (js_String v) end) = Some id
      ↔ v ≠ JUndef ∧ js_String v = id) as Hv.
    { intros v. destruct v; split; try (by intros [= <-]); try (by intros [? <-]); by intros [? ?]. }
    split.
    + destruct (ev_value e) as [| | | | | |l|]; try (by rewrite elem_of_nil).
      rewrite list_elem_of_omap. intros (v&Hin&[Hu Hs]%Hv). right. split; [done|].
      apply elem_of_cons in Hin as [->|Hin%list_elem_of_singleton]; [exists l, 0%nat|exists l, 1%nat];
        subst; eauto with lia.
    + intros [[? _]|[_ (l&i&->&Hi&Hu&Hs)]]; [done|]. rewrite list_elem_of_omap.
      exists (arr_get l i). rewrite Hv. split; [|done]. destruct i as [|[|i]]; [left|right; left|lia].
Qed.

(** The open listings and orders are computed from the whole stored stream:
    a listing is listed exactly when some event opened it and none cancelled or
    bought it; an order, exactly when some event opened or filled it and none
    cancelled or expired it. Each id is listed once. *)
Theorem open_market_correct db :
  fits db (of_type "pool") →
  (∃ ids, get_listings_open maxReplay db = Reply ids ∧ NoDup ids
     ∧ ∀ id, id ∈ ids ↔ pool_event db ["lst_open"] id ∧ ¬ pool_event db ["lst_cncl"; "lst_buy"] id)
  ∧ (∃ ids, get_orders_open maxReplay db = Reply ids ∧ NoDup ids
     ∧ ∀ id, id ∈ ids ↔ (pool_event db ["ord_open"] id ∨ filled db id)
                        ∧ ¬ pool_event db ["ord_cncl"; "ord_exp"] id).
Proof.
  intros Hf. unfold get_listings_open, get_orders_open.
  rewrite getAllEvents_fits by done. set (evs := stored_events db (of_type "pool")) in *. split.
  - eexists. split; [done|]. split; [apply NoDup_still_open, NoDup_js_set|]. intros id.
    rewrite elem_of_still_open, !elem_of_collect_ids. unfold pool_event. fold evs.
    assert (∀ (p : string → bool) (types : list string), (∀ t, t ∈ types ↔ t ∈ LISTING_EVENT_TYPES ∧ p t = true) →
      (∃ e, e ∈ evs ∧ (if one_of LISTING_EVENT_TYPES (ev_eventType e) && p (ev_eventType e)
                        then extractListingId (ev_value e) else None) = Some id)
      ↔ ∃ e, e ∈ evs ∧ ev_eventType e ∈ types ∧ extract_id (ev_value e) = Some id) as Hp.
    { intros p types Htypes. f_equiv. intros e. rewrite Htypes, <-one_of_spec. unfold extractListingId.
      destruct (one_of _ _), (p _); simpl; naive_solver. }
    cbv beta. rewrite (Hp (String.eqb "lst_open") ["lst_open"]),
      (Hp (λ t, negb (String.eqb "lst_open" t)) ["lst_cncl"; "lst_buy"]); [done| |];
      intros t; unfold LISTING_EVENT_TYPES; rewrite ?negb_true_iff, ?String.eqb_eq, ?String.eqb_neq;
      set_solver.
  - eexists. split; [done|]. split; [apply NoDup_still_open, NoDup_js_set|]. intros id.
    rewrite elem_of_still_open, elem_of_js_set, elem_of_collect_ids.
    assert (id ∈ concat (map opened_orders evs) ↔ pool_event db ["ord_open"] id ∨ filled db id) as ->.
    { rewrite list_elem_of_In, in_concat. setoid_rewrite in_map_iff.
      setoid_rewrite <-list_elem_of_In. unfold pool_event, filled. fold evs. split.
      - intros (?&(e&<-&He)&[[Ht Hx]|[Ht (l&i&?)]]%elem_of_opened_orders).
        + left. exists e. split; [done|]. rewrite Ht. set_solver.
        + right. exists e, l, i. naive_solver.
      - intros [(e&He&Ht%list_elem_of_singleton&Hx)|(e&l&i&He&Ht&?)];
          (exists (opened_orders e); split; [by exists e|]; apply elem_of_opened_orders); [by left|].
        right. split; [done|]. by exists l, i. }
    assert ((∃ e, e ∈ evs ∧ (if one_of ["ord_cncl"; "ord_exp"] (ev_eventType e)
        then extractListingId (ev_value e) else None) = Some id)
      ↔ pool_event db ["ord_cncl"; "ord_exp"] id) as ->; [|done].
    unfold pool_event. fold evs. f_equiv. intros e. rewrite <-one_of_spec. unfold extractListingId.
    destruct (one_of _ _); naive_solver.
Qed.

(** ** Statuses *)

(** [e] is an event that sets the status, and every other one that does is of an
    earlier ledger. *)
Definition latest_status (status_of : IndexedEvent → option string) (events : list IndexedEvent)
    (e : IndexedEvent) (s : string) : Prop :=
  e ∈ events ∧ status_of e = Some s
  ∧ ∀ e', e' ∈ events → is_Some (status_of e') →
      e' = e ∨ ev_ledgerSequence e' < ev_ledgerSequence e.

Lemma replay_status_last status_of init events :
  replay_status status_of init events = default init (last (omap status_of events)).
Proof.
  unfold replay_status. induction events as [|e events IH] using rev_ind; [done|].
  rewrite foldl_app, omap_app, last_app, IH. simpl. by destruct (status_of e).
Qed.

(** The loop over the events in ledger order ends in the status the latest event
    sets. *)
Lemma replay_status_latest status_of init events l e s :
  ascending ev_ledgerSequence l → l ≡ₚ events →
  latest_status status_of events e s → replay_status status_of init l = s.
Proof.
  intros Hl Hp (He&Hs&Hlatest). rewrite replay_status_last.
  assert (e ∈ l) as Hel by by rewrite Hp.
  assert (∀ x, x ∈ l → x ∈ events) as Hsub by (intros x; by rewrite Hp).
  assert (last (omap status_of l) = Some s) as ->; [|done]. clear Hp He. revert Hsub Hel.
  unfold ascending in Hl. induction Hl as [|x l Hl IH Hx]; [set_solver|].
  intros Hsub [<-|Hel]%elem_of_cons; cbn [omap list_omap].
  - rewrite Hs. assert (∀ y, y ∈ s :: omap status_of l → y = s) as Hall.
    { intros y [->|(z&Hz&Hy)%list_elem_of_omap]%elem_of_cons; [done|].
      destruct (Hlatest z) as [->|Hlt]; [apply Hsub; by right|by eexists|congruence|].
      rewrite Forall_forall in Hx. specialize (Hx z Hz). lia. }
    destruct (last (s :: omap status_of l)) as [y|] eqn:El; [|by apply last_None in El].
    f_equal. by apply Hall, last_Some_elem_of.
  - assert (last (omap status_of l) = Some s) as HI.
    { apply IH; [|done]. intros z Hz. apply Hsub. by right. }
    destruct (status_of x); [|done]. by destruct (omap status_of l).
Qed.

Lemma by_ledger_perm events : by_ledger events ≡ₚ events.
Proof. apply sort_by_perm. Qed.

(** What a round's handler answers, from the events of the round. *)
Definition round_reply_ok (status_of : IndexedEvent → option string) (invoiceId : string)
    (matches : list IndexedEvent) (r : reply RoundReply) : Prop :=
  match r with
  | Fail status _ => status = 404 ∧ matches = []
  | Reply rd =>
      matches ≠ [] ∧ rd_invoiceId rd = invoiceId
      ∧ rd_events rd ≡ₚ map view_of matches
      ∧ ascending vw_ledgerSequence (rd_events rd)
      ∧ ((∀ e, e ∈ matches → status_of e = None) → rd_status rd = "Unknown")
      ∧ ∀ e s, latest_status status_of matches e s → rd_status rd = s
  end.

Lemma round_reply_correct status_of invoiceId matches (error : string) :
  round_reply_ok status_of invoiceId matches
    match by_ledger matches with
    | [] => Fail 404 error
    | _ => Reply {|
        rd_invoiceId := invoiceId;
        rd_status := replay_status status_of "Unknown" (by_ledger matches);
        rd_events := map view_of (by_ledger matches) |}
    end.
Proof.
  pose proof (by_ledger_perm matches) as Hp.
  destruct (by_ledger matches) as [|x l] eqn:E.
  { split; [done|]. by apply Permutation_nil_l in Hp. }
  rewrite <-E in *. simpl. split_and!; try done.
  - intros ->. by apply Permutation_nil_r in Hp; rewrite E in Hp.
  - by apply fmap_Permutation.
  - apply ascending_map. exact (sort_by_ascending _ _).
  - intros Hnone. rewrite replay_status_last.
    destruct (omap status_of (by_ledger matches)) as [|s ss] eqn:Eo; [done|].
    exfalso. assert (s ∈ omap status_of (by_ledger matches)) as (e&He&Hs)%list_elem_of_omap
      by (rewrite Eo; left). rewrite Hp in He. by rewrite Hnone in Hs.
  - intros e s. by apply replay_status_latest; [apply sort_by_ascending|].
Qed.

(** The events of a co-funding round. *)
Definition cofunding_events (db : Database) (invoiceId : string) : list IndexedEvent :=
  filter (λ evt, one_of COFUNDING_EVENT_TYPES (ev_eventType evt)
    && eq_text (extractCoFundingInvoiceId (ev_value evt)) invoiceId)
    (stored_events db (of_type "pool")).

(** A co-funding round is 404 exactly when no co-funding event of the
    invoice is stored; otherwise its history is all of them in ledger order, and
    its status is the one set by the event of the highest ledger that sets one
    (open, filled, expired or cancelled). *)
Theorem cofunding_round_correct db invoiceId :
  invoiceId ≠ "" → fits db (of_type "pool") →
  round_reply_ok cofunding_status invoiceId (cofunding_events db invoiceId)
    (get_cofunding_round maxReplay db invoiceId).
Proof.
  intros Hid%String.eqb_neq Hf. unfold get_cofunding_round. rewrite Hid, getAllEvents_fits by done.
  pose proof (round_reply_correct cofunding_status invoiceId (cofunding_events db invoiceId)
    ("No co-funding round found for invoice " +:+ invoiceId)) as H.
  unfold mbind, result_bind, catch_500. fold (cofunding_events db invoiceId).
  by destruct (by_ledger (cofunding_events db invoiceId)).
Qed.

(** The events of a verification round. *)
Definition oracle_round_events (db : Database) (invoiceId : string) : list IndexedEvent :=
  filter (λ evt, eq_text (extractInvoiceId (ev_value evt)) invoiceId)
    (stored_events db (of_type "oracle_registry")).

(** A verification round is 404 exactly when no event of the oracle registry
    names the invoice; otherwise its history is all of them in ledger order, and
    its status is the one set by the latest of the events that open the round,
    decide it (by the vote they carry) or expire it. *)
Theorem oracle_round_correct db invoiceId :
  invoiceId ≠ "" → fits db (of_type "oracle_registry") →
  round_reply_ok round_status invoiceId (oracle_round_events db invoiceId)
    (get_oracle_round maxReplay db invoiceId).
Proof.
  intros Hid%String.eqb_neq Hf. unfold get_oracle_round. rewrite Hid, getAllEvents_fits by done.
  pose proof (round_reply_correct round_status invoiceId (oracle_round_events db invoiceId)
    ("No round found for invoice " +:+ invoiceId)) as H.
  unfold mbind, result_bind, catch_500. fold (oracle_round_events db invoiceId).
  by destruct (by_ledger (oracle_round_events db invoiceId)).
Qed.

(** ** Attestations *)

(** The status an event leaves an attestation in. *)
Definition attestation_status (evt : IndexedEvent) : option string :=
  if String.eqb (ev_eventType evt) "att_sub" then Some "Active"
  else if String.eqb (ev_eventType evt) "att_disp" then Some "Disputed"
  else if String.eqb (ev_eventType evt) "att_res" then
    Some (if truthy (arr_get (event_values evt) 1) then "Active" else "Revoked")
  else None.

Lemma attestation_fold_status st events :
  at_status (foldl attestation_step st events)
  = replay_status attestation_status (at_status st) events.
Proof.
  unfold replay_status. revert st. induction events as [|e events IH]; intros st; [done|].
  cbn [foldl]. rewrite IH. f_equal. unfold attestation_step, attestation_status.
  by repeat case_match.
Qed.

(** The lifecycle events of an attestation. *)
Definition attestation_events (db : Database) (id : string) : list IndexedEvent :=
  filter (λ evt, one_of ATTESTATION_LIFECYCLE_EVENT_TYPES (ev_eventType evt)
    && eq_text (tuple_id evt) id) (stored_events db (of_type "credit_score")).

(** The attestations submitted for an SME. *)
Definition submitted (db : Database) (sme id : string) : Prop :=
  ∃ e, e ∈ stored_events db (of_type "credit_score") ∧ ev_eventType e = "att_sub"
    ∧ address_at 1 (toLowerCase sme) (ev_value e) = true ∧ tuple_id e = Some id.

Lemma elem_of_attestation_ids db sme id :
  id ∈ attestation_ids (toLowerCase sme) (stored_events db (of_type "credit_score"))
  ↔ submitted db sme id.
Proof.
  unfold attestation_ids, submitted. rewrite elem_of_collect_ids. f_equiv. intros e.
  destruct (String.eqb_spec (ev_eventType e) "att_sub"), (address_at _ _ _); simpl; naive_solver.
Qed.

Lemma id_events_perm db ids id :
  id ∈ ids →
  filter (λ evt, eq_text (tuple_id evt) id)
    (lifecycle_events ids (stored_events db (of_type "credit_score")))
  ≡ₚ attestation_events db id.
Proof.
  intros Hid. unfold lifecycle_events, attestation_events. rewrite by_ledger_perm.
  rewrite list_filter_filter. apply Permutation_refl', list_filter_iff. intros e.
  rewrite !Is_true_true, !andb_true_iff. unfold eq_text.
  destruct (tuple_id e) as [i|]; [|by split; intros [? ?]].
  rewrite String.eqb_eq, !one_of_spec. intuition (subst; auto).
Qed.

(** The attestations of an SME are exactly those submitted for its address,
    each once; the history of each is its submission, disputes and resolutions
    in ledger order, and its status the one the latest of them leaves it in. *)
Theorem attestations_correct db sme :
  sme ≠ "" → fits db (of_type "credit_score") →
  ∃ l, get_attestations maxReplay db sme = Reply l
    ∧ NoDup (an_id <$> l) ∧ (∀ id, id ∈ an_id <$> l ↔ submitted db sme id)
    ∧ ∀ a, a ∈ l →
        an_events a ≡ₚ map view_of (attestation_events db (an_id a))
        ∧ ascending vw_ledgerSequence (an_events a)
        ∧ ∀ e s, latest_status attestation_status (attestation_events db (an_id a)) e s →
            at_status (an_state a) = s.
Proof.
  intros Hs%String.eqb_neq Hf. unfold get_attestations. rewrite Hs, getAllEvents_fits by done.
  set (evs := stored_events db (of_type "credit_score")).
  set (ids := attestation_ids (toLowerCase sme) evs).
  exists (map (attestation_of sme (lifecycle_events ids evs)) ids). split; [done|].
  assert (an_id <$> map (attestation_of sme (lifecycle_events ids evs)) ids = ids) as ->.
  { rewrite <-list_fmap_compose. apply list_fmap_id. }
  split; [apply NoDup_js_set|]. split; [intros id; apply elem_of_attestation_ids|].
  intros a (id&->&Hid)%list_elem_of_fmap. simpl.
  pose proof (id_events_perm db ids id Hid) as Hp. fold evs in Hp.
  assert (ascending ev_ledgerSequence
    (filter (λ evt, eq_text (tuple_id evt) id) (lifecycle_events ids evs))) as Hasc.
  { apply ascending_filter, sort_by_ascending. }
  split; [by apply fmap_Permutation|]. split; [by apply ascending_map|].
  intros e s Hl. rewrite attestation_fold_status. by eapply replay_status_latest.
Qed.

(** ** Invoice search *)

(** The invoice events with their ids. *)
Definition invoice_events (db : Database) : list (string * IndexedEvent) :=
  omap (λ e, (λ id, (id, e)) <$> extractInvoiceId (ev_value e))
    (stored_events db (of_type "invoice")).

Definition add_invoice (entry : option InvoiceEntry) (ie : string * IndexedEvent) : InvoiceEntry := {|
  in_latest := match entry with Some e => in_latest e | None => ie.2 end;
  in_searchable := toLowerCase (match entry with Some e => in_searchable e | None => "" end
    +:+ " " +:+ JSON_stringify (ev_value ie.2)) |}.

Lemma search_fold events :
  foldl search_step [] events
  = group_by fst add_invoice (omap (λ e, (λ id, (id, e)) <$> extractInvoiceId (ev_value e)) events).
Proof.
  unfold group_by. generalize (@nil (string * InvoiceEntry)).
  induction events as [|e events IH]; intros m; [done|]. cbn [foldl omap list_omap].
  rewrite IH. unfold search_step. by destruct (extractInvoiceId (ev_value e)).
Qed.

(** The entry an invoice has, and the filter of a request on it. *)
Definition search_match (query status : string) (e : string * InvoiceEntry) : bool :=
  (String.eqb query "" || includes query e.1 || includes query (in_searchable e.2))
  && (String.eqb status "" || String.eqb (toLowerCase (ev_eventType (in_latest e.2))) status
      || includes status (in_searchable e.2)).

Definition search_results (db : Database) (query status : string) : list (string * InvoiceEntry) :=
  sort_by (λ e, - ev_ledgerSequence (in_latest e.2))
    (filter (λ e, search_match query status e) (group_by fst add_invoice (invoice_events db))).

Lemma group_acc_latest ie l : ∃ entry, group_acc add_invoice (ie :: l) = Some entry ∧ in_latest entry = ie.2.
Proof.
  induction l as [|x l IH] using rev_ind; [by eexists|].
  destruct IH as (entry&He&Hl). rewrite app_comm_cons, group_acc_snoc, He. eexists. split; [done|].
  by simpl.
Qed.

(** The entry of an invoice shows its newest event. *)
Lemma search_entry_latest db id entry :
  (id, entry) ∈ group_by fst add_invoice (invoice_events db) →
  (id, in_latest entry) ∈ invoice_events db
  ∧ ∀ e, (id, e) ∈ invoice_events db → ev_ledgerSequence e ≤ ev_ledgerSequence (in_latest entry).
Proof.
  intros Hin%jm_in_get; [|apply group_by_wf]. rewrite jm_get_group_by in Hin.
  destruct (filter (λ ie, ie.1 = id) (invoice_events db)) as [|ie l] eqn:Ef; [done|].
  destruct (group_acc_latest ie l) as (entry'&He&Hl). rewrite He in Hin. injection Hin as ->.
  assert (∀ x, x ∈ ie :: l ↔ x.1 = id ∧ x ∈ invoice_events db) as Hx.
  { intros x. by rewrite <-Ef, list_elem_of_filter. }
  assert (ie.1 = id ∧ ie ∈ invoice_events db) as [Hid Hie] by (apply Hx; left).
  rewrite Hl. split; [by destruct ie; simplify_eq/=|]. intros e He'.
  assert (ascending (λ x, - ev_ledgerSequence x.2) (ie :: l)) as Hasc.
  { rewrite <-Ef. apply ascending_filter. unfold invoice_events, stored_events.
    set (rows := pg_order_by_ledger false _).
    assert (ascending (λ e, - ev_ledgerSequence e) (map rowToEvent rows)) as Hrows.
    { apply ascending_map. exact (pg_order_by_ledger_desc _). }
    revert Hrows. generalize (map rowToEvent rows). clear. unfold ascending.
    induction 1 as [|x l Hl IH Hx]; [constructor|]. cbn [omap list_omap].
    destruct (extractInvoiceId (ev_value x)); simpl; [|done]. constructor; [done|].
    apply Forall_forall. intros y (z&Hz&Hy)%list_elem_of_omap. rewrite Forall_forall in Hx.
    specialize (Hx z Hz). destruct (extractInvoiceId (ev_value z)); simplify_eq/=. lia. }
  apply StronglySorted_inv in Hasc as [_ Hall]. rewrite Forall_forall in Hall.
  assert ((id, e) ∈ ie :: l) as [Heq|Hel]%elem_of_cons by by apply Hx.
  - subst ie. simpl. lia.
  - specialize (Hall _ Hel). simpl in Hall. lia.
Qed.

(** The invoice search pages through one ordered list of distinct invoices:
    page [p] of size [s] is its slice [p * s .. p * s + s], the total its length,
    it is ordered by the newest event of each invoice, newest first, and with no
    filter it holds exactly the invoices some stored event names. *)
Theorem search_pages db q status :
  fits db (of_type "invoice") →
  let query := toLowerCase (trim q) in
  let all := search_results db query (toLowerCase status) in
  NoDup all.*1
  ∧ ascending (λ e, - ev_ledgerSequence (in_latest e.2)) all
  ∧ (∀ id entry, (id, entry) ∈ all → (id, in_latest entry) ∈ invoice_events db
       ∧ ∀ e, (id, e) ∈ invoice_events db → ev_ledgerSequence e ≤ ev_ledgerSequence (in_latest entry))
  ∧ (query = "" → status = "" → ∀ id, id ∈ all.*1 ↔ ∃ e, (id, e) ∈ invoice_events db)
  ∧ ∀ p s, 0 ≤ p → 1 ≤ s ≤ 100 →
      get_invoices_search maxReplay db (JStr q) (JStr status) (JStr (pretty p)) (JStr (pretty s))
      = Reply {|
          se_invoiceIds := map (λ e, Number_of_string e.1) (takeZ s (dropZ (p * s) all));
          se_page := p; se_pageSize := s; se_total := lengthZ all |}.
Proof.
  intros Hf query all.
  assert (all ≡ₚ filter (λ e, search_match query (toLowerCase status) e)
    (group_by fst add_invoice (invoice_events db))) as Hp by apply sort_by_perm.
  assert (NoDup (group_by fst add_invoice (invoice_events db)).*1) as Hwf by apply group_by_wf.
  split; [|split; [apply sort_by_ascending|split; [|split]]].
  - rewrite Hp. eapply sublist_NoDup; [exact Hwf|]. apply fmap_sublist, sublist_filter.
  - intros id entry. rewrite Hp. intros [_ Hin]%list_elem_of_filter. by apply search_entry_latest.
  - intros Hq Hst id. rewrite Hp. rewrite Hq, Hst.
    assert (filter (λ e, search_match "" (toLowerCase "") e)
      (group_by fst add_invoice (invoice_events db))
      = group_by fst add_invoice (invoice_events db)) as ->.
    { apply filter_all. by intros e _. }
    split.
    + intros ([i entry]&->&Hin)%list_elem_of_fmap. apply search_entry_latest in Hin as [Hin _].
      simpl. eauto.
    + intros [e He]. destruct (decide (id ∈ (group_by fst add_invoice (invoice_events db)).*1)) as [|Hn];
        [done|exfalso]. apply jm_get_None in Hn. rewrite jm_get_group_by in Hn.
      assert ((id, e) ∈ filter (λ ie, ie.1 = id) (invoice_events db)) as Hin
        by by apply list_elem_of_filter.
      destruct (filter (λ ie, ie.1 = id) (invoice_events db)) as [|ie l];
        [by apply elem_of_nil in Hin|].
      destruct (group_acc_latest ie l) as (?&?&_). congruence.
  - intros p s Hp0 Hs. unfold get_invoices_search. rewrite getAllEvents_fits by done.
    assert (∀ n d z, query_int (JStr (pretty n)) d z = if n =? 0 then z else n) as Hq.
    { intros n d z. unfold query_int. simpl. by rewrite parseInt_pretty. }
    rewrite !Hq. unfold mbind, result_bind, catch_500. rewrite search_fold.
    fold (invoice_events db). cbn [query_string].
    replace (Z.max 0 (if p =? 0 then 0 else p)) with p by (destruct (Z.eqb_spec p 0); lia).
    replace (Z.min 100 (Z.max 1 (if s =? 0 then 20 else s))) with s
      by (destruct (Z.eqb_spec s 0); lia).
    done.
Qed.

(** ** Pagination of the raw event endpoints *)

Lemma all_digits_pretty n : 0 ≤ n → all_digits (pretty n) = true ∧ parse_digits 10 (pretty n) = Some n.
Proof.
  intros Hn. assert (pretty n = pretty (Z.to_N n)) as ->.
  { destruct n as [|p|p]; [done|done|lia]. }
  split.
  - unfold all_digits. destruct (pretty_N_head (Z.to_N n)) as (d&s&_&E). apply andb_true_iff. split.
    + by rewrite E.
    + apply pretty_N_forallb. intros d' Hd'. rewrite digit_val_pretty by done. apply Z.ltb_lt. lia.
  - rewrite parse_digits_pretty. f_equal. lia.
Qed.

(** A bounded integer parameter is never out of bounds: what parses is
    between 0 and the maximum, every number in that range is accepted as
    written, every larger one is refused, and the fallback is used only when
    the parameter is absent. *)
Theorem parseBoundedInteger_bounds value fallback maximum name :
  maximum ≤ MAX_SAFE_INTEGER →
  (∀ n, parseBoundedInteger value fallback maximum name = Ok n →
     value = JUndef ∧ n = fallback ∨ n ≤ maximum)
  ∧ (∀ n, 0 ≤ n ≤ maximum → parseBoundedInteger (JStr (pretty n)) fallback maximum name = Ok n)
  ∧ (∀ n, maximum < n → 0 ≤ n →
      parseBoundedInteger (JStr (pretty n)) fallback maximum name
      = Throw (ERangeError (name +:+ " must be at most " +:+ pretty maximum))).
Proof.
  intros Hm. split; [|split].
  - intros n. unfold parseBoundedInteger. destruct value; try done; [left; by simplify_eq|].
    destruct (all_digits s); [|done]. destruct (parse_digits 10 s) as [z|]; [|done].
    destruct (_ || _) eqn:E; [done|]. intros [= <-]. bool_props. right. lia.
  - intros n Hn. destruct (all_digits_pretty n ltac:(lia)) as [Hd Hp].
    unfold parseBoundedInteger. rewrite Hd, Hp.
    destruct (Z.ltb_spec MAX_SAFE_INTEGER n); [lia|]. by destruct (Z.ltb_spec maximum n); [lia|].
  - intros n Hn Hn0. destruct (all_digits_pretty n Hn0) as [Hd Hp].
    unfold parseBoundedInteger. rewrite Hd, Hp.
    destruct (Z.ltb_spec maximum n); [by rewrite orb_true_r|lia].
Qed.

Definition unavailable {A} (r : reply A) : Prop := r = Fail 500 "parsePagination is not defined".

(** [parsePagination] is not defined in the program: the six endpoints that
    call it answer 500 to every request, whatever is stored. *)
Theorem paginated_endpoints_fail db q limit offset x :
  unavailable (get_events unbound_parsePagination db q)
  ∧ unavailable (get_events_actor unbound_parsePagination db x limit offset)
  ∧ unavailable (get_events_contract unbound_parsePagination db x limit offset)
  ∧ unavailable (get_events_type unbound_parsePagination db x limit offset)
  ∧ unavailable (get_compliance_flagged unbound_parsePagination db limit)
  ∧ unavailable (get_compliance_history unbound_parsePagination db x limit).
Proof. split_and!; reflexivity. Qed.

(** ** Flagged addresses *)

(** Address and status of a screening. *)
Definition screening (e : IndexedEvent) : string * string :=
  let component i := match ev_value e with
    | JArr l => js_String (js_coalesce (arr_get l i) (JStr "")) | _ => "" end in
  (component 0%nat, component 1%nat).

Definition is_flag (e : IndexedEvent) : Prop :=
  (screening e).1 ≠ "" ∧ (screening e).2 ∈ ["Flagged"; "Blocked"].

Definition flag_inv (seen : list IndexedEvent) (m : list (string * FlaggedAddress)) : Prop :=
  jm_wf m ∧ (∀ a f, jm_get a m = Some f → fl_address f = a)
  ∧ ∀ a, is_Some (jm_get a m) ↔ ∃ e, e ∈ seen ∧ (screening e).1 = a ∧ is_flag e.

Lemma flagged_step_inv seen m e : flag_inv seen m → flag_inv (seen ++ [e]) (flagged_step m e).
Proof.
  intros (Hwf&Hk&Hm). unfold flagged_step. fold (screening e).1.
  set (address := match ev_value e with
    | JArr l => js_String (js_coalesce (arr_get l 0) (JStr "")) | _ => "" end).
  set (status := match ev_value e with
    | JArr l => js_String (js_coalesce (arr_get l 1) (JStr "")) | _ => "" end).
  assert (screening e = (address, status)) as Hsc by done.
  assert (¬ is_flag e ∨ is_Some (jm_get address m) → flag_inv (seen ++ [e]) m) as Hsame.
  { intros Hno. split; [done|]. split; [done|]. intros a. rewrite Hm. setoid_rewrite elem_of_app.
    split; [intros (x&?&?); exists x; tauto|].
    intros (x&[Hx|Hx%list_elem_of_singleton]&Ha&Hf); [by exists x|]. subst x.
    destruct Hno as [|Hsome]; [done|]. rewrite Hsc in Ha. simpl in Ha. subst a. by apply Hm. }
  destruct (String.eqb_spec address "") as [Ha|Ha].
  { apply Hsame. left. unfold is_flag. rewrite Hsc. by intros [? _]. }
  destruct (negb _ && negb _) eqn:Eb.
  { apply Hsame. left. unfold is_flag. rewrite Hsc. bool_props. simpl.
    intros [_ Hin]. set_solver. }
  unfold jm_has. destruct (jm_get address m) eqn:Eg; [apply Hsame; eauto|].
  assert (is_flag e) as Hflag.
  { unfold is_flag. rewrite Hsc. split; [done|]. simpl. bool_props; set_solver. }
  split; [by apply jm_wf_set|]. split.
  - intros a f. destruct (decide (address = a)) as [<-|].
    + rewrite jm_get_set_eq. by intros [= <-].
    + rewrite jm_get_set_ne by done. apply Hk.
  - intros a. setoid_rewrite elem_of_app. destruct (decide (address = a)) as [<-|Hne].
    + rewrite jm_get_set_eq. split; [|eauto]. intros _. exists e. rewrite Hsc. set_solver.
    + rewrite jm_get_set_ne, Hm by done. split; [intros (x&?&?); exists x; tauto|].
      intros (x&[Hx|Hx%list_elem_of_singleton]&Hxa&Hf); [by exists x|]. subst x.
      rewrite Hsc in Hxa. done.
Qed.

(** The flagged list has every address that some screening of the page read
    flagged or blocked, once, and a later clearing does not take it off: newer
    screenings of the address with another status are not looked at. *)
Theorem flagged_never_cleared p db limit l n :
  p (query_default limit "100") 100 500 = Ok (Some n) →
  get_compliance_flagged p db limit = Reply l →
  ∃ count page, parseBoundedInteger (query_default limit "100") 100 MAX_PAGE_SIZE "limit" = Ok count
    ∧ compliance_events db (Some "screened") count = Ok page
    ∧ NoDup (fl_address <$> l)
    ∧ ∀ a, a ∈ fl_address <$> l ↔ ∃ e, e ∈ page ∧ (screening e).1 = a ∧ is_flag e.
Proof.
  intros Hpag. unfold get_compliance_flagged, mbind, result_bind. rewrite Hpag.
  destruct (parseBoundedInteger _ _ _ _) as [count|[]] eqn:Ec; try done.
  destruct (compliance_events _ _ _) as [page|[]] eqn:Ep; try done.
  intros [= <-]. exists count, page. split; [done|]. split; [done|].
  assert (flag_inv page (foldl flagged_step [] page)) as (Hwf&Hk&Hm).
  { assert (∀ seen m, flag_inv seen m → flag_inv (seen ++ page) (foldl flagged_step m page)) as H.
    { clear Ep. induction page as [|e page IH]; intros seen m Hinv; simpl.
      - by rewrite app_nil_r.
      - rewrite cons_middle, app_assoc. by apply IH, flagged_step_inv. }
    apply (H []). split; [apply jm_wf_empty|]. split; [done|]. intros a. simpl. split; [by intros [? ?]|].
    intros (e&He&_). by apply elem_of_nil in He. }
  set (m := foldl flagged_step [] page) in *.
  assert (fl_address <$> jm_values m = jm_keys m) as ->.
  { unfold jm_values, jm_keys. rewrite <-list_fmap_compose. apply list_fmap_ext.
    intros i [a f] Hi. simpl. eapply Hk, jm_in_get; [done|]. by eapply list_elem_of_lookup_2. }
  split; [done|]. intros a. rewrite <-Hm.
  destruct (jm_get a m) as [f|] eqn:Eg.
  - split; [eauto|]. intros _. apply jm_get_Some_in in Eg. apply list_elem_of_fmap. by exists (a, f).
  - split; [|by intros [? ?]]. intros Hin. by apply jm_get_None in Eg.
Qed.

End spec.
