(* ===== verification/Sdk.v ===== *)
(** * packages/sdk/src: contract clients of [AsteraClient]

    The calls every contract client makes through [BaseClient] (simulate, build,
    sign, submit, poll), the decoding of contract errors, and the invoice and
    oracle-registry clients. The RPC server and the transaction and value
    encodings of @stellar/stellar-sdk are parameters: the record [Server] and
    the variables of the section. *)
From S2P Require Import Prelude JsValue JsNumber.
From Stdlib Require Import Ascii.
#[local] Open Scope string_scope.
#[local] Open Scope list_scope.
#[local] Open Scope Z_scope.

(** ** errors.ts *)

(** [class ContractError extends Error]. *)
Record ContractError := {
  ce_message : string;
  ce_code : option Z;
  ce_variant : option string;
  ce_raw : string;
}.

Definition new_ContractError (raw : string) (code : option Z) (variant : option string)
    : ContractError := {|
  ce_message := match variant with
                | Some v =>
                    if negb (String.eqb v "") then
                      v +:+ " (contract error #"
                      +:+ (match code with Some c => pretty c | None => "null" end) +:+ ")"
                    else raw
                | None => raw
                end;
  ce_code := code; ce_variant := variant; ce_raw := raw |}.

(** [CONTRACT_ERROR_CODE_RE] anchored at the head of [s]: the literal, any
    whitespace, [#], one or more digits (greedy) and [)]. *)
Definition match_code_here (s : string) : option string :=
  let open := "Error(Contract," in
  if startsWith open s then
    match trim_start (str_drop (String.length open) s) with
    | String c rest =>
        if Ascii.eqb c "#" then
          let '(digits, rest') := span_digits rest in
          match digits, rest' with
          | String _ _, String c' _ => if Ascii.eqb c' ")" then Some digits else None
          | _, _ => None
          end
        else None
    | EmptyString => None
    end
  else None.

(** [raw.match(CONTRACT_ERROR_CODE_RE)?.[1]]: the leftmost match. *)
Fixpoint match_code (s : string) : option string :=
  match match_code_here s with
  | Some d => Some d
  | None => match s with String _ s' => match_code s' | EmptyString => None end
  end.

Fixpoint lookup_code (errors : list (Z * string)) (code : Z) : option string :=
  match errors with
  | [] => None
  | (c, m) :: errors' => if c =? code then Some m else lookup_code errors' code
  end.

Definition parseContractError (raw : string) (errors : list (Z * string)) : ContractError :=
  match match_code raw with
  | None => new_ContractError raw None None
  | Some digits =>
      let code := parse_digits 10 digits in
      new_ContractError raw code (code ≫= lookup_code errors)
  end.

(** [throw error] for a [ContractError]: an [Error] with its message. *)
Definition as_exn (e : ContractError) : exn := EError (ce_message e).

(** generated/oracle_registry.ts, [Errors]. *)
Definition OracleRegistryErrors : list (Z * string) :=
  [(0, "AlreadyInitialized"); (1, "NotInitialized"); (2, "Unauthorized"); (3, "ContractPaused");
   (4, "InvalidAmount"); (5, "InsufficientStake"); (6, "AlreadyRegistered"); (7, "NotRegistered");
   (8, "DeregisterHasPendingVotes"); (9, "DeregisterCooldownActive"); (10, "InvalidBps");
   (11, "NoActiveOracles"); (12, "RoundAlreadyOpen"); (13, "RoundNotFound"); (14, "RoundNotOpen");
   (15, "RoundExpired"); (16, "RoundNotExpired"); (17, "AlreadyVoted");
   (18, "InvoiceContractNotSet"); (19, "InvoiceCallFailed"); (20, "InvalidConfig")].

(** generated/invoice.ts, [Errors]. *)
Definition InvoiceErrors : list (Z * string) :=
  [(1, "Unauthorized"); (2, "InvalidStatusTransition"); (3, "InvoiceNotFound");
   (4, "HashMismatch"); (5, "SmeExposureLimitExceeded"); (6, "AmountOverflow");
   (7, "EmptyField"); (8, "FieldTooLong"); (9, "DateOverflow");
   (10, "InvalidMetadata"); (11, "DescriptionTooLong"); (12, "DebtorNameTooLong");
   (13, "VerificationHashTooLong"); (14, "ExtensionAlreadyPending");
   (15, "InvalidDueDateExtension"); (16, "ExtensionTooLarge");
   (17, "NoPendingExtension"); (18, "PoolCallFailed"); (19, "ArithmeticOverflow");
   (20, "EmptyDebtorName"); (21, "EmptyDescription"); (22, "InvalidVerificationHash");
   (23, "DueDateTooSoon"); (24, "UpgradeTimelockNotExpired");
   (25, "InvalidUpgradeTimelock"); (26, "InvalidWasmHash");
   (27, "VerificationDeadlineNotPassed"); (28, "AdminChangePending");
   (29, "AdminChangeTimelockNotExpired"); (30, "NoAdminChangeProposed");
   (31, "ContractPaused"); (32, "DisputeWindowClosed"); (33, "DisputeNotFound");
   (34, "DisputeAlreadyResolved"); (35, "ConsensusVerificationRequired");
   (36, "OracleRegistryNotConfigured"); (37, "UnauthorizedRegistry")].

(** ** types.ts: what the clients take and return *)

(** An argument of a contract call before its encoding: what [new Address],
    [nativeToScVal] with its [type] option and the [xdr.ScVal] constructors are
    given. A map's keys are symbols; bytes are a text of their codes. *)
Inductive ScArg :=
| ArgAddress (a : string)
| ArgU32 (n : Z)
| ArgU64 (n : Z)
| ArgI64 (n : Z)
| ArgI128 (n : Z)
| ArgBool (b : bool)
| ArgString (v : jsval)
| ArgSymbol (s : string)
| ArgBytes (b : string)
| ArgVoid
| ArgVec (l : list ScArg)
| ArgMap (l : list (string * ScArg)).

Record VerificationRound := {
  vr_invoiceId : Z; vr_requiredVotes : number; vr_totalRegisteredOracles : number;
  vr_weightFor : Z; vr_weightAgainst : Z; vr_totalStakeSnapshot : Z; vr_quorumBps : number;
  vr_status : jsval; vr_openedAt : number; vr_deadline : number; vr_oracleHash : jsval;
}.

Record RegistryConfig := {
  rc_minStake : Z; rc_stakeToken : jsval; rc_requiredVotes : number; rc_quorumBps : number;
  rc_roundDurationSecs : number; rc_deregisterCooldownSecs : number; rc_treasury : jsval;
}.

Record OracleInfo := {
  oi_address : jsval; oi_stakeAmount : Z; oi_stakeToken : jsval; oi_isActive : bool;
  oi_totalVerifications : number; oi_totalSlashes : number; oi_registeredAt : number;
  oi_deregisterRequestedAt : option number;
}.

Inductive TransactionProgress :=
| Pending (hash : string)
| Confirmed (hash : string)
| Failed (hash : string) (error : string).

(** [BigInt(String(r.k))] and [Number(r.k)]. *)
Definition bigint_field (r : jsval) (k : string) : result Z :=
  v ← get_prop r k;
  match bigint_of_string (js_String v) with
  | Some n => Ok n
  | None => Throw (ESyntaxError ("Cannot convert to a BigInt: " +:+ k))
  end.
Definition number_field (r : jsval) (k : string) : result number := js_Number <$> get_prop r k.

Definition decode_round (r : jsval) : result VerificationRound :=
  invoiceId ← bigint_field r "invoice_id";
  requiredVotes ← number_field r "required_votes";
  total ← number_field r "total_registered_oracles";
  weightFor ← bigint_field r "weight_for";
  weightAgainst ← bigint_field r "weight_against";
  snapshot ← bigint_field r "total_stake_snapshot";
  quorumBps ← number_field r "quorum_bps";
  status ← get_prop r "status";
  openedAt ← number_field r "opened_at";
  deadline ← number_field r "deadline";
  oracleHash ← get_prop r "oracle_hash";
  Ok {| vr_invoiceId := invoiceId; vr_requiredVotes := requiredVotes;
        vr_totalRegisteredOracles := total; vr_weightFor := weightFor;
        vr_weightAgainst := weightAgainst; vr_totalStakeSnapshot := snapshot;
        vr_quorumBps := quorumBps; vr_status := status; vr_openedAt := openedAt;
        vr_deadline := deadline; vr_oracleHash := oracleHash |}.

Definition decode_registry_config (raw : jsval) : result RegistryConfig :=
  minStake ← bigint_field raw "min_stake";
  stakeToken ← get_prop raw "stake_token";
  requiredVotes ← number_field raw "required_votes";
  quorumBps ← number_field raw "quorum_bps";
  roundDurationSecs ← number_field raw "round_duration_secs";
  cooldown ← number_field raw "deregister_cooldown_secs";
  treasury ← get_prop raw "treasury";
  Ok {| rc_minStake := minStake; rc_stakeToken := stakeToken; rc_requiredVotes := requiredVotes;
        rc_quorumBps := quorumBps; rc_roundDurationSecs := roundDurationSecs;
        rc_deregisterCooldownSecs := cooldown; rc_treasury := js_coalesce treasury JUndef |}.

Definition decode_oracle_info (r : jsval) : result OracleInfo :=
  address ← get_prop r "address";
  stakeAmount ← bigint_field r "stake_amount";
  stakeToken ← get_prop r "stake_token";
  isActive ← get_prop r "is_active";
  totalVerifications ← number_field r "total_verifications";
  totalSlashes ← number_field r "total_slashes";
  registeredAt ← number_field r "registered_at";
  deregisterRequestedAt ← get_prop r "deregister_requested_at";
  Ok {| oi_address := address; oi_stakeAmount := stakeAmount; oi_stakeToken := stakeToken;
        oi_isActive := truthy isActive; oi_totalVerifications := totalVerifications;
        oi_totalSlashes := totalSlashes; oi_registeredAt := registeredAt;
        oi_deregisterRequestedAt := if nullish deregisterRequestedAt then None
                                    else Some (js_Number deregisterRequestedAt) |}.

(** ** clients/base.ts *)

(** A simulation response: [isSimulationError(sim)] tells the cases apart. *)
Inductive SimResponse (ScVal : Type) :=
| SimError (error : string)
| SimSuccess (retval : ScVal).
Arguments SimError {ScVal} error.
Arguments SimSuccess {ScVal} retval.

Record SendResult := { send_status : string; send_hash : string }.

(** [StellarRpc.Server], over a state [W]. *)
Record Server (W Account Tx ScVal : Type) := {
  getAccount : string → M W Account;
  simulateTransaction : Tx → M W (SimResponse ScVal);
  sendTransaction : Tx → M W SendResult;
  getTransaction : string → M W string;
}.
Arguments getAccount {W Account Tx ScVal}.
Arguments simulateTransaction {W Account Tx ScVal}.
Arguments sendTransaction {W Account Tx ScVal}.
Arguments getTransaction {W Account Tx ScVal}.

Definition SIMULATION_SOURCE : string :=
  "GAAZI4TCR3TY5OJHCTJC2A4QSY6CJWJH5IAJTGKIN2ER7LBNVKOCCWN".

Section client.
Context {W Account Tx ScVal : Type} (server : Server W Account Tx ScVal).
(** [new TransactionBuilder(account, …).addOperation(contract.call(method, …args))
    .setTimeout(30).build()], with the encoding of the arguments; the fees and
    footprint of the simulation added; [TransactionBuilder.fromXDR]; and
    [scValToNative]. *)
Context (build : Account → string → string → string → list ScArg → result Tx)
        (assembleTransaction : Tx → ScVal → result string)
        (fromXDR : string → string → result Tx)
        (scValToNative : ScVal → jsval).

(** [ClientConfig], whose [rpcUrl] the server already has. *)
Record ClientConfig := {
  network : string;
  contractId : string;
  config_signer : option (string → M W string);
}.

Context (config : ClientConfig) (errors : list (Z * string)).
(** [onProgress?.(…)]. *)
Context (onProgress : TransactionProgress → M W unit).

Definition resolveSigner (txXdr : string) : M W string :=
  match config_signer config with
  | Some signer => signer txXdr
  | None => throw (EError ("No signer configured. Provide a signer or use a Keypair-based client."))
  end.

(** The [while] of [submitTx]; [fuel] bounds the iterations left. *)
Fixpoint poll_transaction (fuel : nat) (hash : string) (waited : Z) (status : string)
    : M W string :=
  match fuel with
  | O => mret status
  | S fuel' =>
      if String.eqb status "NOT_FOUND" && (waited <? 30000)
      then status' ← getTransaction server hash;
           poll_transaction fuel' hash (waited + 1000) status'
      else mret status
  end.

Definition submitTx (signedXdr : string) : M W string :=
  tx ← lift_result (fromXDR signedXdr (network config));
  r ← sendTransaction server tx;
  if String.eqb (send_status r) "PENDING" || String.eqb (send_status r) "DUPLICATE" then
    _ ← onProgress (Pending (send_hash r));
    status ← getTransaction server (send_hash r);
    status ← poll_transaction 31 (send_hash r) 0 status;
    _ ← (if String.eqb status "SUCCESS" then onProgress (Confirmed (send_hash r))
         else onProgress (Failed (send_hash r) ("Transaction " +:+ status)));
    mret (send_hash r)
  else throw (EError ("Transaction submission failed: " +:+ send_status r)).

Definition buildAndSendTx (caller method : string) (args : list ScArg) : M W string :=
  account ← getAccount server caller;
  tx ← lift_result (build account (network config) (contractId config) method args);
  sim ← simulateTransaction server tx;
  match sim with
  | SimError error => throw (as_exn (parseContractError error errors))
  | SimSuccess retval =>
      prepared ← lift_result (assembleTransaction tx retval);
      signedXdr ← resolveSigner prepared;
      submitTx signedXdr
  end.

(** stellar.ts, [simulateTx]. *)
Definition simulateTx (method : string) (args : list ScArg) (sourceAddress : string)
    : M W (SimResponse ScVal) :=
  account ← getAccount server sourceAddress;
  tx ← lift_result (build account (network config) (contractId config) method args);
  simulateTransaction server tx.

(** [simulate], and the [isSimulationError] test its callers repeat. *)
Definition simulate (method : string) (args : list ScArg) : M W (SimResponse ScVal) :=
  sim ← simulateTx method args SIMULATION_SOURCE;
  match sim with
  | SimError error => throw (as_exn (parseContractError error errors))
  | SimSuccess _ => mret sim
  end.

Definition simulated_value (method : string) (args : list ScArg) : M W jsval :=
  sim ← simulate method args;
  match sim with
  | SimError error => throw (EError ("Simulation failed: " +:+ error))
  | SimSuccess retval => mret (scValToNative retval)
  end.

(** ** clients/oracle_registry.ts

    [params.signer] is an argument of the writing calls, as in the code. *)
Definition openRound (signer : string → M W string) (caller : string) (invoiceId : Z)
    (oracleHash : jsval) : M W string :=
  buildAndSendTx caller "open_verification_round"
    [ArgAddress caller; ArgU64 invoiceId; ArgString oracleHash].

Definition register (signer : string → M W string) (operator : string) (stakeAmount : Z)
    : M W string :=
  buildAndSendTx operator "register_oracle" [ArgAddress operator; ArgI128 stakeAmount].

Definition vote (signer : string → M W string) (oracle : string) (invoiceId : Z)
    (approved : bool) (evidenceHash : jsval) : M W string :=
  buildAndSendTx oracle "submit_vote"
    [ArgAddress oracle; ArgU64 invoiceId; ArgBool approved; ArgString evidenceHash].

Definition getRound (invoiceId : Z) : M W (option VerificationRound) :=
  raw ← simulated_value "get_verification_round" [ArgU64 invoiceId];
  if truthy raw then Some <$> lift_result (decode_round raw) else mret None.

Definition getRegistryConfig : M W RegistryConfig :=
  raw ← simulated_value "get_registry_config" [];
  lift_result (decode_registry_config raw).

Definition getOracleInfo (operator : string) : M W (option OracleInfo) :=
  raw ← simulated_value "get_oracle_info" [ArgAddress operator];
  if truthy raw then Some <$> lift_result (decode_oracle_info raw) else mret None.

(** ** clients/invoice.ts *)

Definition getInvoice (id : Z) : M W jsval := simulated_value "get_invoice" [ArgU64 id].

Definition verifyInvoice (signer : string → M W string) (oracle : string) (id : Z)
    (approved : bool) (reason : string) (oracleHash : jsval) : M W string :=
  buildAndSendTx oracle "verify_invoice"
    [ArgU64 id; ArgAddress oracle; ArgBool approved; ArgString (JStr reason); ArgString oracleHash].

(** The server calls that read keep [I]. *)
Definition reads_keep (I : W → Prop) : Prop :=
  (∀ a, keeps I (getAccount server a)) ∧ (∀ tx, keeps I (simulateTransaction server tx)).

Lemma simulated_value_keeps I method args :
  reads_keep I → keeps I (simulated_value method args).
Proof.
  intros [Ha Hs]. unfold simulated_value, simulate, simulateTx.
  apply (triple_bind _ _ (λ _, I)).
  - apply (triple_bind _ _ (λ _, I)).
    + apply (triple_bind _ _ (λ _, I)); [apply Ha|]. intros account.
      apply (triple_bind _ _ (λ _, I)); [apply keeps_lift|]. intros tx. apply Hs.
    + intros [error|retval]; [apply triple_throw|apply keeps_ret].
  - intros [error|retval]; [apply triple_throw|apply keeps_ret].
Qed.

(** Without a configured signer a write ends before it is sent. *)
Lemma buildAndSendTx_unsigned I caller method args :
  config_signer config = None → reads_keep I →
  triple I (buildAndSendTx caller method args) (λ _ _, False) I.
Proof.
  intros Hsig [Ha Hs]. unfold buildAndSendTx.
  apply (triple_bind _ _ (λ _, I)); [apply Ha|]. intros account.
  apply (triple_bind _ _ (λ _, I)); [apply keeps_lift|]. intros tx.
  apply (triple_bind _ _ (λ _, I)); [apply Hs|]. intros [error|retval]; [apply triple_throw|].
  apply (triple_bind _ _ (λ _, I)); [apply keeps_lift|]. intros prepared.
  unfold resolveSigner. rewrite Hsig. apply (triple_bind _ _ (λ _ _, False)); [apply triple_throw|].
  by intros u s.
Qed.

End client.
Arguments ClientConfig : clear implicits.

(** ** astera-client.ts

    The part of [AsteraClient] the oracle service uses: [client.invoice] and
    [client.oracleRegistry]. *)
Record AsteraClient (W : Type) := {
  invoice_get : Z → M W jsval;
  invoice_verify : (string → M W string) → string → Z → bool → string → jsval → M W string;
  registry_getRound : Z → M W (option VerificationRound);
  registry_getOracleInfo : string → M W (option OracleInfo);
  registry_getRegistryConfig : M W RegistryConfig;
  registry_openRound : (string → M W string) → string → Z → jsval → M W string;
  registry_register : (string → M W string) → string → Z → M W string;
  registry_vote : (string → M W string) → string → Z → bool → jsval → M W string;
}.
Arguments invoice_get {W}.
Arguments invoice_verify {W}.
Arguments registry_getRound {W}.
Arguments registry_getOracleInfo {W}.
Arguments registry_getRegistryConfig {W}.
Arguments registry_openRound {W}.
Arguments registry_register {W}.
Arguments registry_vote {W}.

Record AsteraConfig := {
  ac_network : string;
  ac_invoiceContractId : string;
  ac_oracleRegistryContractId : option string;
}.

Section astera.
Context {W Account Tx ScVal : Type} (server : Server W Account Tx ScVal).
Context (build : Account → string → string → string → list ScArg → result Tx)
        (assembleTransaction : Tx → ScVal → result string)
        (fromXDR : string → string → result Tx)
        (scValToNative : ScVal → jsval).
Context (config : AsteraConfig).

(** The configurations the constructor gives the two clients. *)
Definition invoiceClient_config : ClientConfig W := {|
  network := ac_network config; contractId := ac_invoiceContractId config;
  config_signer := None |}.

Definition oracleRegistryClient_config : ClientConfig W := {|
  network := ac_network config;
  contractId := default "" (ac_oracleRegistryContractId config);
  config_signer := None |}.

Definition no_progress (p : TransactionProgress) : M W unit := mret tt.

Definition new_AsteraClient : AsteraClient W := {|
  invoice_get := getInvoice server build scValToNative invoiceClient_config InvoiceErrors;
  invoice_verify := verifyInvoice server build assembleTransaction fromXDR
    invoiceClient_config InvoiceErrors no_progress;
  registry_getRound := getRound server build scValToNative
    oracleRegistryClient_config OracleRegistryErrors;
  registry_getOracleInfo := getOracleInfo server build scValToNative
    oracleRegistryClient_config OracleRegistryErrors;
  registry_getRegistryConfig := getRegistryConfig server build scValToNative
    oracleRegistryClient_config OracleRegistryErrors;
  registry_openRound := openRound server build assembleTransaction fromXDR
    oracleRegistryClient_config OracleRegistryErrors no_progress;
  registry_register := register server build assembleTransaction fromXDR
    oracleRegistryClient_config OracleRegistryErrors no_progress;
  registry_vote := vote server build assembleTransaction fromXDR
    oracleRegistryClient_config OracleRegistryErrors no_progress |}.

End astera.

(** A client none of whose calls writes: reads keep [I], writes throw keeping it. *)
Definition read_only {W} (I : W → Prop) (c : AsteraClient W) : Prop :=
  (∀ id, keeps I (invoice_get c id))
  ∧ (∀ id, keeps I (registry_getRound c id))
  ∧ (∀ sg oracle id b reason h, triple I (invoice_verify c sg oracle id b reason h) (λ _ _, False) I)
  ∧ (∀ sg caller id h, triple I (registry_openRound c sg caller id h) (λ _ _, False) I)
  ∧ (∀ sg op n, triple I (registry_register c sg op n) (λ _ _, False) I)
  ∧ (∀ sg oracle id b h, triple I (registry_vote c sg oracle id b h) (λ _ _, False) I).

Lemma new_AsteraClient_read_only {W Account Tx ScVal} (server : Server W Account Tx ScVal)
    build assembleTransaction fromXDR scValToNative config (I : W → Prop) :
  reads_keep server I →
  read_only I (new_AsteraClient server build assembleTransaction fromXDR scValToNative config).
Proof.
  intros HI. unfold read_only, new_AsteraClient. cbn [invoice_get registry_getRound invoice_verify
    registry_openRound registry_register registry_vote].
  split; [intros id; by apply simulated_value_keeps|]. split.
  { intros id. unfold getRound. apply (triple_bind _ _ (λ _, I)); [by apply simulated_value_keeps|].
    intros raw. destruct (truthy raw); [|apply keeps_ret].
    apply (triple_bind _ _ (λ _, I)); [apply keeps_lift|]. intros a. apply keeps_ret. }
  split; [intros; by apply buildAndSendTx_unsigned|].
  split; [intros; by apply buildAndSendTx_unsigned|].
  split; [intros; by apply buildAndSendTx_unsigned|].
  intros; by apply buildAndSendTx_unsigned.
Qed.
