(* ===== verification/Abi.v ===== *)
(** * What a contract accepts and answers

    The types of Soroban contract interfaces with the two encodings the clients
    meet: which arguments a parameter of a type accepts, and which JavaScript
    values [scValToNative] makes of an answer of a type. [Client] bundles what a
    contract client of the SDK is built from; [checked] is the chain in front of
    it that refuses calls outside an interface. [decode] is the shape all the
    clients' [..FromRaw] functions share: one line per field. *)
From S2P Require Import Prelude.
From S2P Require Import JsValue.
From S2P Require Import JsNumber.
From S2P Require Import Sdk.
From Stdlib Require Import Ascii.
#[local] Open Scope string_scope.
#[local] Open Scope list_scope.
#[local] Open Scope Z_scope.

(** ** Types

    Structs list their fields sorted by name, as Soroban's maps are; a variant of
    a union has a list of payload types, empty for a unit variant. [TMap] is a map from
    addresses, which no client sends. *)
Inductive ScType :=
| TVoid | TBool | TU32 | TI32 | TU64 | TI64 | TU128 | TI128 | TAddress | TString | TSymbol | TBytes
| TBytesN (n : nat)
| TVec (t : ScType)
| TOption (t : ScType)
| TMap (t : ScType)
| TTuple (ts : list ScType)
| TStruct (fs : list (string * ScType))
| TUnion (vs : list (string * list ScType)).

(** The host and the contract's decoder: integers and texts by their tag, bytes by
    their length, a struct as a map with exactly its keys in order, a variant as
    a vector of its name and payload, an option as void or the value. *)
Fixpoint accepts (t : ScType) (v : ScArg) {struct t} : bool :=
  let accept_all := fix accept_all (ts : list ScType) (l : list ScArg) : bool :=
    match ts, l with
    | [], [] => true
    | t :: ts', v :: l' => accepts t v && accept_all ts' l'
    | _, _ => false
    end in
  match t, v with
  | TVoid, ArgVoid => true
  | TBool, ArgBool _ => true
  | TU32, ArgU32 _ => true
  | TU64, ArgU64 _ => true
  | TI64, ArgI64 _ => true
  | TI128, ArgI128 _ => true
  | TAddress, ArgAddress _ => true
  | TString, ArgString (JStr _) => true
  | TSymbol, ArgSymbol _ => true
  | TBytes, ArgBytes _ => true
  | TBytesN n, ArgBytes b => (String.length b =? n)%nat
  | TVec t, ArgVec l => forallb (accepts t) l
  | TOption t, ArgVoid => true
  | TOption t, v => accepts t v
  | TTuple ts, ArgVec l => accept_all ts l
  | TStruct fs, ArgMap l =>
      (fix accept_fields (fs : list (string * ScType)) (l : list (string * ScArg)) : bool :=
         match fs, l with
         | [], [] => true
         | (k, t) :: fs', (k', v) :: l' => String.eqb k k' && accepts t v && accept_fields fs' l'
         | _, _ => false
         end) fs l
  | TUnion vs, ArgVec (ArgSymbol name :: l) =>
      (fix accept_variant (vs : list (string * list ScType)) : bool :=
         match vs with
         | [] => false
         | (k, ts) :: vs' => if String.eqb k name then accept_all ts l else accept_variant vs'
         end) vs
  | _, _ => false
  end.

Definition accepts_all (ts : list ScType) (l : list ScArg) : bool := accepts (TTuple ts) (ArgVec l).

(** ** Interfaces *)

(** An entry point: its parameters, the environment left out, and its result. *)
Record Signature := { sg_params : list ScType; sg_result : ScType }.

(** The exported functions, and the signatures of those that clients call. *)
Record Abi := { exports : list string; signatures : list (string * Signature) }.

Fixpoint lookup_signature (l : list (string * Signature)) (method : string) : option Signature :=
  match l with
  | [] => None
  | (k, s) :: l' => if String.eqb k method then Some s else lookup_signature l' method
  end.

Definition signature (abi : Abi) (method : string) : option Signature :=
  if one_of (exports abi) method then lookup_signature (signatures abi) method else None.

Definition conforms (abi : Abi) (method : string) (args : list ScArg) : bool :=
  match signature abi method with
  | Some s => accepts_all (sg_params s) args
  | None => false
  end.

(** Every signature is of an exported function. *)
Definition abi_wf (abi : Abi) : bool := forallb (λ s, one_of (exports abi) s.1) (signatures abi).

(** ** Clients *)

(** The connection a client is given: the server, and the SDK's encodings. *)
Record Backend (W : Type) := {
  be_Account : Type;
  be_Tx : Type;
  be_ScVal : Type;
  be_server : Server W be_Account be_Tx be_ScVal;
  be_build : be_Account → string → string → string → list ScArg → result be_Tx;
  be_assemble : be_Tx → be_ScVal → result string;
  be_fromXDR : string → string → result be_Tx;
  be_scValToNative : be_ScVal → jsval
}.
Arguments be_Account {W}. Arguments be_Tx {W}. Arguments be_ScVal {W}. Arguments be_server {W}.
Arguments be_build {W}. Arguments be_assemble {W}. Arguments be_fromXDR {W}. Arguments be_scValToNative {W}.

Record Client (W : Type) := {
  cl_backend : Backend W;
  cl_config : ClientConfig W;
  cl_errors : list (Z * string);
  cl_onProgress : TransactionProgress → M W unit
}.
Arguments cl_backend {W}. Arguments cl_config {W}. Arguments cl_errors {W}. Arguments cl_onProgress {W}.

Section calls.
Context {W : Type} (C : Client W).

(** [this.buildAndSendTx(source, method, args, params.onProgress)]. *)
Definition send (source method : string) (args : list ScArg) : M W string :=
  let B := cl_backend C in
  buildAndSendTx (be_server B) (be_build B) (be_assemble B) (be_fromXDR B) (cl_config C) (cl_errors C)
    (cl_onProgress C) source method args.

(** [this.simulate(method, args)], the [isSimulationError] test that follows it,
    and [scValToNative(sim.result.retval)]. [simulate] throws on a simulation
    error itself, so whatever the test would do then never happens. *)
Definition read (method : string) (args : list ScArg) : M W jsval :=
  let B := cl_backend C in
  simulated_value (be_server B) (be_build B) (be_scValToNative B) (cl_config C) (cl_errors C) method args.

End calls.

(** ** Decoding answers *)

(** What the right-hand side of a field does with [r.k]. *)
Inductive Kind :=
| KRaw                (** [r.k as T] *)
| KRawOr (d : jsval)  (** [r.k ?? d] *)
| KTag                (** [Array.isArray(r.k) ? r.k[0] : r.k] *)
| KVariant            (** [const [tag, ...values] = r.k], as [{ tag, values }] *)
| KBool               (** [Boolean(r.k)] *)
| KString             (** [String(r.k)] *)
| KStringOr           (** [String(r.k ?? '')] *)
| KNum                (** [Number(r.k)] *)
| KNumOr0             (** [Number(r.k ?? 0)] *)
| KNumOpt             (** [r.k != null ? Number(r.k) : undefined] *)
| KNumNull            (** [r.k !== undefined && r.k !== null ? Number(r.k) : null] *)
| KBig                (** [BigInt(String(r.k))] *)
| KBigOr0             (** [BigInt(String(r.k ?? 0))] *)
| KBigOpt             (** [r.k != null ? BigInt(String(r.k)) : undefined] *)
| KBigInt             (** [BigInt(r.k)] *)
| KBigIntOr0.         (** [BigInt(r.k ?? 0)] *)

Inductive value :=
| VRaw (v : jsval)
| VBool (b : bool)
| VString (s : string)
| VNum (x : number)
| VBig (n : Z)
| VVariant (tag : jsval) (values : list jsval).

Definition to_BigInt (v : jsval) : result Z :=
  match js_BigInt v with
  | Some n => Ok n
  | None =>
      let message := "Cannot convert " +:+ js_String v +:+ " to a BigInt" in
      Throw (if nullish v then ETypeError message else ESyntaxError message)
  end.

Definition tag (v : jsval) : jsval := match v with JArr l => arr_get l 0 | _ => v end.

(** The destructuring of an iterable: an array, or a text's characters. *)
Definition variant (v : jsval) : result value :=
  match v with
  | JArr l => Ok (VVariant (arr_get l 0) (tail l))
  | JStr s => let l := map (λ c, JStr (String c "")) (String.list_ascii_of_string s) in
              Ok (VVariant (arr_get l 0) (tail l))
  | _ => Throw (ETypeError (js_String v +:+ " is not iterable"))
  end.

Definition read_kind (k : Kind) (v : jsval) : result value :=
  match k with
  | KRaw => Ok (VRaw v)
  | KRawOr d => Ok (VRaw (js_coalesce v d))
  | KTag => Ok (VRaw (tag v))
  | KVariant => variant v
  | KBool => Ok (VBool (truthy v))
  | KString => Ok (VString (js_String v))
  | KStringOr => Ok (VString (js_String (js_coalesce v (JStr ""))))
  | KNum => Ok (VNum (js_Number v))
  | KNumOr0 => Ok (VNum (js_Number (js_coalesce v (JNum 0))))
  | KNumOpt => Ok (if nullish v then VRaw JUndef else VNum (js_Number v))
  | KNumNull => Ok (if nullish v then VRaw JNull else VNum (js_Number v))
  | KBig => VBig <$> to_BigInt (JStr (js_String v))
  | KBigOr0 => VBig <$> to_BigInt (JStr (js_String (js_coalesce v (JNum 0))))
  | KBigOpt => if nullish v then Ok (VRaw JUndef) else VBig <$> to_BigInt (JStr (js_String v))
  | KBigInt => VBig <$> to_BigInt v
  | KBigIntOr0 => VBig <$> to_BigInt (js_coalesce v (JNum 0))
  end.

(** A field of the result: its name, what is done, and the property read. *)
Record Field := { f_name : string; f_kind : Kind; f_source : string }.
Definition field (name : string) (k : Kind) (source : string) : Field :=
  {| f_name := name; f_kind := k; f_source := source |}.

Definition decode_field (r : jsval) (f : Field) : result (string * value) :=
  v ← get_prop r (f_source f);
  x ← read_kind (f_kind f) v;
  Ok (f_name f, x).

Definition decode (fields : list Field) (r : jsval) : result (list (string * value)) :=
  mapM (decode_field r) fields.

(** [raw ? decode(raw) : null]. *)
Definition decode_opt (fields : list Field) (raw : jsval) : result (option (list (string * value))) :=
  if truthy raw then Some <$> decode fields raw else Ok None.

(** The elements of [raw.map(..)], which throws on a value that is no array, and of
    [(raw ?? []).map(..)]. *)
Definition array (raw : jsval) : result (list jsval) :=
  match raw with JArr l => Ok l | _ => Throw (ETypeError "raw.map is not a function") end.
Definition array_or_empty (raw : jsval) : result (list jsval) := array (js_coalesce raw (JArr [])).

Definition decode_all (fields : list Field) (raw : jsval) : result (list (list (string * value))) :=
  l ← array_or_empty raw; mapM (decode fields) l.

(** [(raw ?? []).map((id) => BigInt(String(id)))]. *)
Definition bigints (raw : jsval) : result (list Z) :=
  l ← array_or_empty raw; mapM (λ v, to_BigInt (JStr (js_String v))) l.

(** An array an answer must be: [raw.map(..)], with no default. *)
Definition decode_array (fields : list Field) (raw : jsval) : result (list (list (string * value))) :=
  l ← array raw; mapM (decode fields) l.

(** The conversions of answers that are no structs: [x as T], [(x as T[]) ?? []],
    [Number(x)], [Number(x ?? 0)], [Boolean(x)], [String(x)], [String(x ?? '')],
    [BigInt(String(x))], [raw ? String(raw) : null] and
    [raw != null ? Number(raw) : null]. *)
Definition as_raw (v : jsval) : result jsval := Ok v.
Definition as_array (v : jsval) : result jsval := Ok (js_coalesce v (JArr [])).
Definition as_number (v : jsval) : result number := Ok (js_Number v).
Definition as_number_or_0 (v : jsval) : result number := Ok (js_Number (js_coalesce v (JNum 0))).
Definition as_boolean (v : jsval) : result bool := Ok (truthy v).
Definition as_string (v : jsval) : result string := Ok (js_String v).
Definition as_string_or_empty (v : jsval) : result string := Ok (js_String (js_coalesce v (JStr ""))).
Definition as_bigint (v : jsval) : result Z := to_BigInt (JStr (js_String v)).
Definition as_string_opt (v : jsval) : result (option string) :=
  Ok (if truthy v then Some (js_String v) else None).
Definition as_number_opt (v : jsval) : result (option number) :=
  Ok (if nullish v then None else Some (js_Number v)).

(** A method that reads: a call, and what it makes of the answer. *)
Definition query {W A} (C : Client W) (method : string) (args : list ScArg) (decode : jsval → result A)
   : M W A :=
  raw ← read C method args; lift_result (decode raw).

(** A client whose caller passed no [onProgress]. *)
Definition silent {W} (C : Client W) : Client W := {|
  cl_backend := cl_backend C; cl_config := cl_config C; cl_errors := cl_errors C;
  cl_onProgress := λ _, mret () |}.

(** ** The chain in front of a client

    [checked]: a chain that refuses to build a call outside the interface. *)
Definition checked {W} (abi : Abi) (C : Client W) : Client W := {|
  cl_backend := {|
    be_server := be_server (cl_backend C);
    be_build := λ account network id method args,
      if conforms abi method args then be_build (cl_backend C) account network id method args
      else Throw (EError "HostError: Error(WasmVm, MissingValue)");
    be_assemble := be_assemble (cl_backend C);
    be_fromXDR := be_fromXDR (cl_backend C);
    be_scValToNative := be_scValToNative (cl_backend C) |};
  cl_config := cl_config C; cl_errors := cl_errors C; cl_onProgress := cl_onProgress C |}.

(** An operation that only makes calls of the interface, so that the check changes
    nothing; and one that the interface refuses whatever the chain's state. *)
Definition conforming {W A} (abi : Abi) (op : Client W → M W A) : Prop :=
  ∀ C w, op (checked abi C) w = op C w.
Definition refused {W A} (abi : Abi) (op : Client W → M W A) : Prop :=
  ∀ C w, ∃ e w', op (checked abi C) w = (Throw e, w').

Section checked.
Context {W : Type} (abi : Abi).

Lemma send_conforming source method args :
  conforms abi method args = true → conforming (W := W) abi (λ C, send C source method args).
Proof.
  intros H C w. unfold send, buildAndSendTx. cbn. by rewrite H.
Qed.

Lemma read_conforming method args :
  conforms abi method args = true → conforming (W := W) abi (λ C, read C method args).
Proof.
  intros H C w. unfold read, simulated_value, simulate, simulateTx. cbn. by rewrite H.
Qed.

(** The same without progress reports. *)
Lemma silent_conforming source method args :
  conforms abi method args = true → conforming (W := W) abi (λ C, send (silent C) source method args).
Proof. intros H C w. exact (send_conforming source method args H (silent C) w). Qed.

(** What follows a call that is made. *)
Lemma bind_conforming {A B} (m : Client W → M W A) (f : Client W → A → M W B) :
  conforming abi m → (∀ a, conforming abi (λ C, f C a)) → conforming abi (λ C, m C ≫= f C).
Proof.
  intros Hm Hf C w. unfold mbind, M_bind. rewrite (Hm C w). destruct (m C w) as [[a|e] w1]; [|done].
  apply Hf.
Qed.

Lemma pure_conforming {A} (m : M W A) : conforming abi (λ _, m).
Proof. done. Qed.

Lemma try_conforming {A} (m : Client W → M W A) (h : Client W → exn → M W A) :
  conforming abi m → (∀ e, conforming abi (λ C, h C e)) → conforming abi (λ C, try_catch (m C) (h C)).
Proof.
  intros Hm Hh C w. unfold try_catch. rewrite (Hm C w). destruct (m C w) as [[a|e] w1]; [done|]. apply Hh.
Qed.

Lemma send_refused source method args :
  conforms abi method args = false → refused (W := W) abi (λ C, send C source method args).
Proof.
  intros H C w. unfold send, buildAndSendTx. cbn. unfold mbind, M_bind.
  destruct (getAccount _ _ w) as [[account|e] w1]; [|eauto]. rewrite H. cbn. eauto.
Qed.

Lemma silent_refused source method args :
  conforms abi method args = false → refused (W := W) abi (λ C, send (silent C) source method args).
Proof. intros H C w. exact (send_refused source method args H (silent C) w). Qed.

Lemma read_refused method args :
  conforms abi method args = false → refused (W := W) abi (λ C, read C method args).
Proof.
  intros H C w. unfold read, simulated_value, simulate, simulateTx. cbn. unfold mbind, M_bind.
  destruct (getAccount _ _ w) as [[account|e] w1]; [|eauto]. rewrite H. cbn. eauto.
Qed.

Lemma bind_refused {A B} (m : Client W → M W A) (f : Client W → A → M W B) :
  refused abi m → refused abi (λ C, m C ≫= f C).
Proof. intros Hm C w. destruct (Hm C w) as (e&w'&E). exists e, w'. unfold mbind, M_bind. by rewrite E. Qed.

(** A first call that is made, and a second that never is. *)
Lemma after_refused {A B} (m : Client W → M W A) (f : Client W → A → M W B) :
  (∀ a, refused abi (λ C, f C a)) → refused abi (λ C, m C ≫= f C).
Proof.
  intros Hf C w. unfold mbind, M_bind. destruct (m (checked abi C) w) as [[a|e] w1]; [apply Hf|eauto].
Qed.
End checked.

(** Calls are compared by what they call. *)
#[global] Opaque send read.

(** A list of values of a type is one of a vector of it. *)
Lemma accepts_vec {A} (f : A → ScArg) t l : (∀ x, accepts t (f x) = true) → accepts (TVec t) (ArgVec (map f l)) = true.
Proof. intros H. cbn [accepts]. apply forallb_forall. intros v (x&<-&_)%in_map_iff. apply H. Qed.

(** A call conforms when its arguments do, whatever the values in them. *)
Lemma accepts_all_cons t ts v l :
  accepts t v = true → accepts_all ts l = true → accepts_all (t :: ts) (v :: l) = true.
Proof. unfold accepts_all. cbn [accepts]. intros -> H. exact H. Qed.

Lemma conforms_args abi method s args :
  signature abi method = Some s → accepts_all (sg_params s) args = true → conforms abi method args = true.
Proof. unfold conforms. by intros ->. Qed.

(** What a client's own encodings are accepted as. *)
Create HintDb accepts.
#[export] Hint Resolve accepts_vec : accepts.

Ltac args :=
  repeat first [reflexivity | apply accepts_all_cons; [first [reflexivity | solve [eauto with accepts]]|]].

Ltac calls :=
  repeat first
    [ apply send_conforming | apply read_conforming | apply send_refused | apply read_refused
    | apply silent_conforming | apply silent_refused
    | apply bind_conforming; [|intros ?] | apply try_conforming; [|intros ?] | apply pure_conforming | apply bind_refused ];
  first [reflexivity | eapply conforms_args; [reflexivity|args] | idtac].

(** ** What [scValToNative] makes of an answer *)
Fixpoint native (t : ScType) (v : jsval) {struct t} : bool :=
  let native_all := fix native_all (ts : list ScType) (l : list jsval) : bool :=
    match ts, l with
    | [], [] => true
    | t :: ts', v :: l' => native t v && native_all ts' l'
    | _, _ => false
    end in
  match t, v with
  | TVoid, JNull => true
  | TBool, JBool _ => true
  | TU32, JNum n => (0 <=? n) && (n <? 2 ^ 32)
  | TI32, JNum n => (- 2 ^ 31 <=? n) && (n <? 2 ^ 31)
  | TU64, JBig n => (0 <=? n) && (n <? 2 ^ 64)
  | TI64, JBig n => (- 2 ^ 63 <=? n) && (n <? 2 ^ 63)
  | TU128, JBig n => (0 <=? n) && (n <? 2 ^ 128)
  | TI128, JBig n => (- 2 ^ 127 <=? n) && (n <? 2 ^ 127)
  | (TAddress | TString | TSymbol), JStr _ => true
  | TVec t, JArr l => forallb (native t) l
  | TMap t, JObj o => forallb (λ kv, native t kv.2) o
  | TOption t, JNull => true
  | TOption t, v => native t v
  | TTuple ts, JArr l => native_all ts l
  | TStruct fs, JObj o =>
      (fix native_fields (fs : list (string * ScType)) (o : list (string * jsval)) : bool :=
         match fs, o with
         | [], [] => true
         | (k, t) :: fs', (k', v) :: o' => String.eqb k k' && native t v && native_fields fs' o'
         | _, _ => false
         end) fs o
  | TUnion vs, JArr (JStr name :: l) =>
      (fix native_variant (vs : list (string * list ScType)) : bool :=
         match vs with
         | [] => false
         | (k, ts) :: vs' => if String.eqb k name then native_all ts l else native_variant vs'
         end) vs
  | _, _ => false
  end.

(** The types a field's conversion is meant for. *)
Definition is_integer (t : ScType) : bool :=
  match t with TU32 | TI32 | TU64 | TI64 | TU128 | TI128 => true | _ => false end.

Definition suits (k : Kind) (t : ScType) : bool :=
  match k, t with
  | (KRaw | KRawOr _ | KBool), _ => true
  | (KTag | KVariant), TUnion _ => true
  | (KString | KStringOr), (TString | TSymbol | TAddress) => true
  | (KNumOpt | KNumNull | KBigOpt | KNumOr0 | KBigOr0 | KBigIntOr0), TOption t => is_integer t
  | (KNum | KNumOr0 | KNumOpt | KNumNull | KBig | KBigOr0 | KBigOpt | KBigInt | KBigIntOr0), t => is_integer t
  | _, _ => false
  end.

Fixpoint lookup_field (fs : list (string * ScType)) (k : string) : option ScType :=
  match fs with
  | [] => None
  | (k', t) :: fs' => if String.eqb k k' then Some t else lookup_field fs' k
  end.

(** The conversions that have a value for a field that is not there. *)
Definition defaulted (k : Kind) : bool :=
  match k with KRawOr _ | KNumOr0 | KNumOpt | KNumNull | KBigOr0 | KBigOpt | KBigIntOr0 => true | _ => false end.

(** A decoder fits a struct: it reads fields the struct has, as what they are, or
    has a value for the others. *)
Definition fits (fields : list Field) (t : ScType) : bool :=
  match t with
  | TStruct fs =>
      forallb (λ f, match lookup_field fs (f_source f) with
                    | Some t => suits (f_kind f) t
                    | None => defaulted (f_kind f)
                    end) fields
  | _ => false
  end.

(** A decoder reads a property the struct has not, with no default: the field is
    undefined, or the conversion throws. *)
Definition missing_fields (fields : list Field) (t : ScType) : list string :=
  match t with
  | TStruct fs =>
      map f_source (filter (λ f, lookup_field fs (f_source f) = None ∧ defaulted (f_kind f) = false) fields)
  | _ => map f_source fields
  end.

(** What a conversion that suits its value gives. *)
Definition int_of (v : jsval) : Z := match v with JNum n | JBig n => n | _ => 0 end.

Definition elements_of (v : jsval) : list jsval := match v with JArr l => l | _ => [] end.

Definition meaning (k : Kind) (v : jsval) : value :=
  match k with
  | KRaw => VRaw v
  | KRawOr d => VRaw (js_coalesce v d)
  | KTag => VRaw (tag v)
  | KVariant => VVariant (arr_get (elements_of v) 0) (tail (elements_of v))
  | KBool => VBool (truthy v)
  | KString | KStringOr => VString (js_String v)
  | KNum | KNumOr0 => VNum (num_of_Z (int_of v))
  | KNumOpt => if nullish v then VRaw JUndef else VNum (num_of_Z (int_of v))
  | KNumNull => if nullish v then VRaw JNull else VNum (num_of_Z (int_of v))
  | KBig | KBigOr0 | KBigInt | KBigIntOr0 => VBig (int_of v)
  | KBigOpt => if nullish v then VRaw JUndef else VBig (int_of v)
  end.

Lemma native_integer t v : is_integer t = true → native t v = true → v = JNum (int_of v) ∨ v = JBig (int_of v).
Proof. destruct t, v; cbn; intros; try done; auto. Qed.

Lemma native_text t v :
  (t = TString ∨ t = TSymbol ∨ t = TAddress) → native t v = true → ∃ s, v = JStr s.
Proof. intros [->|[->| ->]]; destruct v; cbn; try done; eauto. Qed.

Lemma to_BigInt_String v n : v = JNum n ∨ v = JBig n → to_BigInt (JStr (js_String v)) = Ok n.
Proof. unfold to_BigInt. intros [-> | ->]; cbn [js_String js_BigInt]; by rewrite bigint_of_string_pretty. Qed.

Lemma integer_read k v :
  v = JNum (int_of v) ∨ v = JBig (int_of v) →
  (match k with KNum | KNumOr0 | KNumOpt | KNumNull | KBig | KBigOr0 | KBigOpt | KBigInt | KBigIntOr0 => true | _ => false end = true) →
  read_kind k v = Ok (meaning k v).
Proof.
  intros Hv Hk. assert (nullish v = false) as Hn by (destruct Hv as [-> | ->]; done).
  pose proof (to_BigInt_String v _ Hv) as Hb.
  assert (js_Number v = num_of_Z (int_of v)) as Hnum by (destruct Hv as [-> | ->]; done).
  assert (to_BigInt v = Ok (int_of v)) as Hb' by (destruct Hv as [-> | ->]; done).
  destruct k; try done; cbn [read_kind meaning]; unfold js_coalesce; rewrite ?Hn, ?Hb, ?Hb', ?Hnum; done.
Qed.

Lemma option_read k :
  (match k with KNumOr0 | KNumOpt | KNumNull | KBigOr0 | KBigOpt | KBigIntOr0 => true | _ => false end = true) →
  read_kind k JNull = Ok (meaning k JNull).
Proof. by destruct k. Qed.

Lemma native_option t v : native (TOption t) v = true → v = JNull ∨ native t v = true.
Proof. destruct v; cbn; auto. Qed.

(** A conversion on a value of a type that suits it succeeds. *)
Lemma read_kind_spec k t v : suits k t = true → native t v = true → read_kind k v = Ok (meaning k v).
Proof.
  intros Hs Hn.
  assert (k = KString ∨ k = KStringOr → read_kind k v = Ok (meaning k v)) as Htext.
  { intros Hk. destruct (native_text t v) as [s ->]; [|done|by destruct Hk as [-> | ->]].
    destruct Hk as [-> | ->]; destruct t; try done; naive_solver. }
  destruct k; try done; try (by apply Htext; auto); try (by destruct t, v).
  all: destruct t; try done; first
    [ solve [apply integer_read; [eapply native_integer; [|exact Hn]; done|done]]
    | solve [destruct (native_option _ _ Hn) as [->|Hn'];
        [by apply option_read|apply integer_read; [eapply native_integer; [|exact Hn']; done|done]]] ].
Qed.

Lemma native_lookup fs o k t :
  native (TStruct fs) (JObj o) = true → lookup_field fs k = Some t → native t (obj_get o k) = true.
Proof.
  revert o. induction fs as [|[k1 t1] fs IH]; intros [|[k2 v2] o]; cbn [lookup_field obj_get]; try done.
  cbn [native]. intros [[E%String.eqb_eq Ht]%andb_prop Ho]%andb_prop. subst k2.
  destruct (String.eqb k k1); [by intros [= ->]|]. by apply IH.
Qed.

Lemma native_absent fs o k :
  native (TStruct fs) (JObj o) = true → lookup_field fs k = None → obj_get o k = JUndef.
Proof.
  revert o. induction fs as [|[k1 t1] fs IH]; intros [|[k2 v2] o]; cbn [lookup_field obj_get]; try done.
  cbn [native]. intros [[E%String.eqb_eq Ht]%andb_prop Ho]%andb_prop. subst k2.
  destruct (String.eqb k k1); [done|]. by apply IH.
Qed.

Lemma defaulted_read k : defaulted k = true → read_kind k JUndef = Ok (meaning k JUndef).
Proof. by destruct k. Qed.

Lemma decode_field_spec o f t :
  suits (f_kind f) t = true → native t (obj_get o (f_source f)) = true →
  decode_field (JObj o) f = Ok (f_name f, meaning (f_kind f) (obj_get o (f_source f))).
Proof. intros Hs Hn. unfold decode_field. cbn. by rewrite (read_kind_spec _ t). Qed.

(** A decoder that fits a struct decodes every answer of it, each field as it is. *)
Lemma decode_spec fields fs o :
  fits fields (TStruct fs) = true → native (TStruct fs) (JObj o) = true →
  decode fields (JObj o) = Ok (map (λ f, (f_name f, meaning (f_kind f) (obj_get o (f_source f)))) fields).
Proof.
  intros Hf Hn. unfold decode. induction fields as [|f fields IH]; [done|].
  cbn [fits forallb] in Hf. apply andb_prop in Hf as [Hf Hfs].
  assert (decode_field (JObj o) f = Ok (f_name f, meaning (f_kind f) (obj_get o (f_source f)))) as E1.
  { destruct (lookup_field fs (f_source f)) as [t|] eqn:El.
    - apply (decode_field_spec o f t); [done|by eapply native_lookup].
    - unfold decode_field. cbn [get_prop mbind result_bind]. rewrite (native_absent fs) by done.
      by rewrite defaulted_read. }
  cbn [mapM]. rewrite E1. apply IH in Hfs as E. cbn [mbind result_bind]. rewrite E. done.
Qed.

Lemma native_struct fs v : native (TStruct fs) v = true → ∃ o, v = JObj o.
Proof. destruct v; cbn; try done. eauto. Qed.

(** What a decoder that fits makes of an answer. *)
Definition decoded (fields : list Field) (v : jsval) : list (string * value) :=
  map (λ f, (f_name f, meaning (f_kind f) (get_prop_opt v (f_source f)))) fields.

Lemma decode_native fields t v :
  fits fields t = true → native t v = true → decode fields v = Ok (decoded fields v).
Proof.
  intros Hf Hn. destruct t; try done. destruct (native_struct _ _ Hn) as [o ->]. by eapply decode_spec.
Qed.

Lemma decode_opt_native fields t v :
  fits fields t = true → native (TOption t) v = true →
  decode_opt fields v = Ok (if truthy v then Some (decoded fields v) else None).
Proof.
  intros Hf Hn. unfold decode_opt. destruct (native_option _ _ Hn) as [->|Hn']; [done|].
  destruct (truthy v); [|done]. by rewrite (decode_native fields t).
Qed.

Lemma mapM_forallb {A B} (f : A → result B) (g : A → B) p l :
  (∀ x, p x = true → f x = Ok (g x)) → forallb p l = true → mapM f l = Ok (map g l).
Proof.
  intros H. induction l as [|x l IH]; [done|]. cbn [forallb]. intros [Hx Hl]%andb_prop.
  cbn [mapM]. rewrite (H x Hx). cbn [mbind result_bind]. by rewrite (IH Hl).
Qed.

Lemma decode_all_native fields t v :
  fits fields t = true → native (TVec t) v = true →
  ∃ l, v = JArr l ∧ decode_all fields v = Ok (map (decoded fields) l).
Proof.
  intros Hf Hn. destruct v as [| | | | | |l|]; try done. exists l. split; [done|].
  unfold decode_all, array_or_empty. cbn [js_coalesce nullish array mbind result_bind].
  apply (mapM_forallb _ _ (native t)); [|done]. intros x Hx. by apply (decode_native fields t).
Qed.

Lemma bigints_native t v :
  is_integer t = true → native (TVec t) v = true → ∃ l, v = JArr l ∧ bigints v = Ok (map int_of l).
Proof.
  intros Ht Hn. destruct v as [| | | | | |l|]; try done. exists l. split; [done|].
  unfold bigints, array_or_empty. cbn [js_coalesce nullish array mbind result_bind].
  apply (mapM_forallb _ _ (native t)); [|done]. intros x Hx. by apply to_BigInt_String, (native_integer t).
Qed.

(** ** Readers

    A reader makes one call of the interface, and of every answer of its type,
    what [mean] says. *)
Definition answered {W A} (abi : Abi) (op : Client W → M W A) (mean : jsval → A) : Prop :=
  ∃ method args dec s, (∀ C, op C = query C method args dec) ∧ signature abi method = Some s ∧
    ∀ v, native (sg_result s) v = true → dec v = Ok (mean v).

Definition decoded_opt (fields : list Field) (v : jsval) : option (list (string * value)) :=
  if truthy v then Some (decoded fields v) else None.
Definition decoded_all (fields : list Field) (v : jsval) : list (list (string * value)) :=
  map (decoded fields) (elements_of v).

Section reads.
Context (t : ScType).

Lemma reads_decode fields : fits fields t = true → ∀ v, native t v = true → decode fields v = Ok (decoded fields v).
Proof. intros Hf v Hn. by apply (decode_native fields t). Qed.

Lemma reads_decode_opt fields :
  fits fields t = true → ∀ v, native (TOption t) v = true → decode_opt fields v = Ok (decoded_opt fields v).
Proof. intros Hf v Hn. by apply (decode_opt_native fields t). Qed.

Lemma reads_decode_all fields :
  fits fields t = true → ∀ v, native (TVec t) v = true → decode_all fields v = Ok (decoded_all fields v).
Proof. intros Hf v Hn. by destruct (decode_all_native fields t v Hf Hn) as (l&->&->). Qed.

Lemma reads_decode_array fields :
  fits fields t = true → ∀ v, native (TVec t) v = true → decode_array fields v = Ok (decoded_all fields v).
Proof. intros Hf v Hn. destruct (decode_all_native fields t v Hf Hn) as (l&->&E). exact E. Qed.

Lemma reads_bigints :
  is_integer t = true → ∀ v, native (TVec t) v = true → bigints v = Ok (map int_of (elements_of v)).
Proof. intros Ht v Hn. by destruct (bigints_native t v Ht Hn) as (l&->&->). Qed.

Lemma reads_bigint : is_integer t = true → ∀ v, native t v = true → as_bigint v = Ok (int_of v).
Proof. intros Ht v Hn. by apply to_BigInt_String, (native_integer t). Qed.

Lemma reads_BigInt : is_integer t = true → ∀ v, native t v = true → to_BigInt v = Ok (int_of v).
Proof. intros Ht v Hn. by destruct (native_integer t v Ht Hn) as [-> | ->]. Qed.

Lemma reads_number : is_integer t = true → ∀ v, native t v = true → as_number v = Ok (num_of_Z (int_of v)).
Proof. intros Ht v Hn. by destruct (native_integer t v Ht Hn) as [-> | ->]. Qed.

Lemma reads_number_or_0 :
  is_integer t = true → ∀ v, native t v = true → as_number_or_0 v = Ok (num_of_Z (int_of v)).
Proof. intros Ht v Hn. by destruct (native_integer t v Ht Hn) as [-> | ->]. Qed.

Lemma reads_number_opt :
  is_integer t = true → ∀ v, native (TOption t) v = true →
  as_number_opt v = Ok (if nullish v then None else Some (num_of_Z (int_of v))).
Proof.
  intros Ht v Hn. destruct (native_option _ _ Hn) as [->|Hn']; [done|].
  by destruct (native_integer t v Ht Hn') as [-> | ->].
Qed.

Lemma reads_string_or_empty :
  (t = TString ∨ t = TSymbol ∨ t = TAddress) → ∀ v, native t v = true → as_string_or_empty v = Ok (js_String v).
Proof. intros Ht v Hn. by destruct (native_text t v Ht Hn) as [s ->]. Qed.

Lemma reads_array : ∀ v, native (TVec t) v = true → as_array v = Ok v.
Proof. by intros [] Hn. Qed.
End reads.

(** The conversions of one client alone. *)
Create HintDb reads.

(** A reader's call and conversion are found in its definition, and fit by
    computation. *)
Ltac answers :=
  do 4 eexists; split; [intros ?; reflexivity|split; [reflexivity|]]; cbn [sg_result];
  first
    [ by intros ? ?
    | apply reads_decode; reflexivity | apply reads_decode_opt; reflexivity
    | apply reads_decode_all; reflexivity | apply reads_decode_array; reflexivity
    | apply reads_bigints; reflexivity | apply reads_bigint; reflexivity | apply reads_BigInt; reflexivity
    | apply reads_number; reflexivity | apply reads_number_or_0; reflexivity
    | apply reads_number_opt; reflexivity | apply reads_string_or_empty; by auto
    | apply reads_array
    | solve [eauto with reads] ].
