(* ===== verification/ContractAbi.v ===== *)
(** * The interfaces of the Soroban contracts

    What contracts/*/src/lib.rs exports: for each contract the names of its entry
    points, and of those a client of the repository calls the parameters and the
    result, with the types they mention. Struct fields are in the order of their
    names, as Soroban encodes them. The source of the tranche contract breaks off
    in the middle of a function name; its interface is what precedes. *)
From S2P Require Import Prelude.
From S2P Require Import JsValue.
From S2P Require Import Sdk.
From S2P Require Import Abi.
#[local] Open Scope string_scope.
#[local] Open Scope list_scope.

Definition sig (params : list ScType) (result : ScType) : Signature :=
  {| sg_params := params; sg_result := result |}.

(** ** contracts/access_control *)

Definition AccessControl_Role : ScType :=
  TUnion
  [("SuperAdmin", []);
   ("RiskManager", []);
   ("TreasuryManager", []);
   ("ComplianceOfficer", []);
   ("OracleManager", [])].

Definition AccessControl_MultiSigConfig : ScType :=
  TStruct
  [("signers", (TVec TAddress));
   ("threshold", TU32)].

Definition AccessControl_ProposalCategory : ScType :=
  TUnion
  [("ParameterChange", []);
   ("Treasury", []);
   ("Critical", [])].

Definition AccessControl_ActionPayload : ScType :=
  TUnion
  [("SetPaused", [TBool]);
   ("SetYield", [TU32]);
   ("SetTreasury", [TAddress]);
   ("WithdrawRevenue", [TAddress; TI128]);
   ("SetOracleContract", [TAddress]);
   ("SetKycRequired", [TBool]);
   ("SetInvestorKyc", [TAddress; TBool]);
   ("SetMaxUtilization", [TU32]);
   ("SetOracle", [TAddress]);
   ("RegisterDebtor", [TString; TString; TI128]);
   ("DeactivateDebtor", [TString]);
   ("AddKeeper", [TAddress]);
   ("SetLateThreshold", [TI64]);
   ("SetScoreThresholds", [TU32; TU32; TU32; TU32]);
   ("RegisterAttestor", [TAddress; TU32; TU32]);
   ("SetOracleRegistryInvoiceContract", [TAddress]);
   ("SetOracleRegistryTreasury", [(TOption TAddress)]);
   ("SetOracleRegistryConfig", [TI128; TU32; TU32; TU64; TU64]);
   ("SetOracleRegistryPaused", [TBool]);
   ("SlashOracle", [TAddress; TU32; TU64; TString]);
   ("AdminResolveRound", [TU64; TBool; TString]);
   ("SetCompliancePaused", [TBool]);
   ("RegisterScreener", [TAddress]);
   ("ConfirmScreenerRegistration", [TAddress]);
   ("DeregisterScreener", [TAddress]);
   ("SetRescreeningInterval", [TU64]);
   ("SetScreenerTimelock", [TU64]);
   ("UpdateGovernanceConfig", [TU32; TU32; TU64]);
   ("SetCategoryQuorum", [AccessControl_ProposalCategory; TU32]);
   ("SetReferralPaused", [TBool]);
   ("SetReferralPool", [TAddress]);
   ("SetBorrowRewardBps", [TU32]);
   ("SetDepositRewardBps", [TU32]);
   ("SetInvoiceAccessControl", [TAddress]);
   ("SetCreditScoreAccessControl", [TAddress]);
   ("SetOracleRegistryAccessControl", [TAddress]);
   ("SetComplianceAccessControl", [TAddress]);
   ("SetGovernanceAccessControl", [TAddress]);
   ("SetReferralAccessControl", [TAddress]);
   ("AddSigner", [AccessControl_Role; TAddress]);
   ("RemoveSigner", [AccessControl_Role; TAddress]);
   ("SetThreshold", [AccessControl_Role; TU32]);
   ("SetProposalExpiry", [TU64])].

Definition AccessControl_ProposalStatus : ScType :=
  TUnion
  [("Pending", []);
   ("Approved", []);
   ("Executed", []);
   ("Rejected", [])].

Definition AccessControl_Proposal : ScType :=
  TStruct
  [("action", AccessControl_ActionPayload);
   ("approvals", (TVec TAddress));
   ("created_at", TU64);
   ("earliest_execution_time", TU64);
   ("expires_at", TU64);
   ("proposer", TAddress);
   ("role", AccessControl_Role);
   ("status", AccessControl_ProposalStatus);
   ("target", TAddress)].

Definition access_control_abi : Abi := {|
  exports :=
  ["initialize"; "get_proposal_expiry_secs"; "get_role_config"; "is_signer"; "get_proposal";
   "list_proposals"; "get_next_proposal_id"; "propose_action"; "approve_action"; "revoke_approval";
   "reject_action"; "execute_action"; "prune_proposal"];
  signatures :=
  [("initialize", sig [(TVec TAddress); TU32; TU64; TU64] TVoid);
   ("get_role_config", sig [AccessControl_Role] (TOption AccessControl_MultiSigConfig));
   ("is_signer", sig [AccessControl_Role; TAddress] TBool);
   ("get_proposal", sig [TU64] (TOption AccessControl_Proposal));
   ("list_proposals", sig [TU64; TU32; (TOption AccessControl_ProposalStatus)] (TVec AccessControl_Proposal));
   ("get_next_proposal_id", sig [] TU64);
   ("propose_action", sig [AccessControl_Role; TAddress; TAddress; AccessControl_ActionPayload] TU64);
   ("approve_action", sig [TAddress; TU64] TVoid);
   ("revoke_approval", sig [TAddress; TU64] TVoid);
   ("reject_action", sig [TAddress; TU64] TVoid);
   ("execute_action", sig [TAddress; TU64] TVoid)] |}.

(** ** contracts/arbitration *)

Definition Arbitration_ArbitrationConfig : ScType :=
  TStruct
  [("commit_window_secs", TU64);
   ("committee_size", TU32);
   ("deregister_cooldown_secs", TU64);
   ("evidence_window_secs", TU64);
   ("lopsided_confidence_bps", TU32);
   ("max_retries", TU32);
   ("min_stake", TI128);
   ("non_reveal_slash_bps", TU32);
   ("quorum_floor", TU32);
   ("reveal_window_secs", TU64);
   ("slash_bps", TU32);
   ("stake_token", TAddress)].

Definition Arbitration_DisputeResolution : ScType :=
  TUnion
  [("Pending", []);
   ("InFavorOfSME", []);
   ("InFavorOfDebtor", [])].

Definition Arbitration_CaseStatus : ScType :=
  TUnion
  [("EvidenceWindow", []);
   ("CommitReveal", []);
   ("Resolved", []);
   ("NoQuorumEscalated", [])].

Definition Arbitration_DisputeCase : ScType :=
  TStruct
  [("amount", TI128);
   ("claimant", TAddress);
   ("commit_deadline", TU64);
   ("evidence_deadline", TU64);
   ("id", TU64);
   ("invoice_id", TU64);
   ("jurors", (TVec TAddress));
   ("opened_at", TU64);
   ("resolution", Arbitration_DisputeResolution);
   ("respondent", TAddress);
   ("retry_count", TU32);
   ("reveal_deadline", TU64);
   ("status", Arbitration_CaseStatus)].

Definition Arbitration_PartyRole : ScType :=
  TUnion
  [("Claimant", []);
   ("Respondent", [])].

Definition Arbitration_EvidenceEntry : ScType :=
  TStruct
  [("evidence_hash", TString);
   ("party", Arbitration_PartyRole);
   ("submitted_at", TU64);
   ("submitter", TAddress)].

Definition Arbitration_JurorVote : ScType :=
  TStruct
  [("commit_hash", (TOption (TBytesN 32)));
   ("revealed_vote", (TOption TBool))].

Definition Arbitration_JurorInfo : ScType :=
  TStruct
  [("address", TAddress);
   ("cases_served", TU32);
   ("deregister_requested_at", (TOption TU64));
   ("is_active", TBool);
   ("non_reveal_strikes", TU32);
   ("registered_at", TU64);
   ("stake_amount", TI128);
   ("stake_token", TAddress);
   ("times_slashed", TU32)].

Definition arbitration_abi : Abi := {|
  exports :=
  ["initialize"; "set_invoice_contract"; "get_invoice_contract"; "set_access_control";
   "get_access_control"; "set_config"; "get_config"; "pause"; "unpause"; "is_paused"; "register_juror";
   "deregister_juror"; "open_case"; "submit_evidence"; "select_jurors"; "commit_vote"; "reveal_vote";
   "finalize_case"; "admin_resolve_no_quorum"; "get_case"; "get_case_by_invoice"; "get_evidence";
   "get_vote"; "get_juror"; "list_active_jurors"; "get_juror_cases"];
  signatures :=
  [("get_config", sig [] Arbitration_ArbitrationConfig);
   ("pause", sig [TAddress] TVoid);
   ("unpause", sig [TAddress] TVoid);
   ("is_paused", sig [] TBool);
   ("register_juror", sig [TAddress; TI128] TVoid);
   ("deregister_juror", sig [TAddress] TVoid);
   ("submit_evidence", sig [TU64; TAddress; TString] TVoid);
   ("select_jurors", sig [TU64] TVoid);
   ("commit_vote", sig [TU64; TAddress; (TBytesN 32)] TVoid);
   ("reveal_vote", sig [TU64; TAddress; TBool; (TBytesN 32)] TVoid);
   ("finalize_case", sig [TU64] TVoid);
   ("admin_resolve_no_quorum", sig [TAddress; TU64; Arbitration_DisputeResolution] TVoid);
   ("get_case", sig [TU64] (TOption Arbitration_DisputeCase));
   ("get_case_by_invoice", sig [TU64] (TOption Arbitration_DisputeCase));
   ("get_evidence", sig [TU64] (TVec Arbitration_EvidenceEntry));
   ("get_vote", sig [TU64; TAddress] (TOption Arbitration_JurorVote));
   ("get_juror", sig [TAddress] (TOption Arbitration_JurorInfo));
   ("list_active_jurors", sig [] (TVec TAddress));
   ("get_juror_cases", sig [TAddress] (TVec TU64))] |}.

(** ** contracts/auction *)

Definition Auction_CollateralSaleParams : ScType :=
  TStruct
  [("amount", TI128);
   ("duration_secs", TU64);
   ("floor_price", TI128);
   ("proceeds_recipient", TAddress);
   ("proceeds_token", TAddress);
   ("seller", TAddress);
   ("start_price", TI128);
   ("token", TAddress)].

Definition Auction_SaleStatus : ScType :=
  TUnion
  [("Open", []);
   ("Settled", []);
   ("Expired", []);
   ("Cancelled", [])].

Definition Auction_CollateralSale : ScType :=
  TStruct
  [("amount", TI128);
   ("duration_secs", TU64);
   ("floor_price", TI128);
   ("opened_at", TU64);
   ("proceeds_recipient", TAddress);
   ("proceeds_token", TAddress);
   ("sale_id", TU64);
   ("seller", TAddress);
   ("settled_price", (TOption TI128));
   ("start_price", TI128);
   ("status", Auction_SaleStatus);
   ("taker", (TOption TAddress));
   ("token", TAddress)].

Definition Auction_CollateralRiskConfig : ScType :=
  TStruct
  [("danger_bps", TU32);
   ("grace_period_secs", TU64)].

Definition auction_abi : Abi := {|
  exports :=
  ["version"; "simulate_clearing"; "open_collateral_sale"; "get_sale"; "list_open_sales";
   "current_sale_price"; "take_collateral_sale"; "reclaim_expired_sale"; "cancel_collateral_sale";
   "open_invoice_auction"; "get_invoice_auction"; "place_bid"; "withdraw_bid"; "settle_invoice_auction";
   "expire_invoice_auction"; "initialize"; "get_pool_contract"; "set_admin"; "set_collateral_risk_config";
   "get_collateral_risk_config"; "get_live_collateral_ratio"; "get_at_risk_since"; "check_collateral_risk";
   "liquidate_collateral"];
  signatures :=
  [("open_collateral_sale", sig [Auction_CollateralSaleParams] TU64);
   ("get_sale", sig [TU64] (TOption Auction_CollateralSale));
   ("current_sale_price", sig [TU64] TI128);
   ("take_collateral_sale", sig [TAddress; TU64] TVoid);
   ("reclaim_expired_sale", sig [TAddress; TU64] TVoid);
   ("initialize", sig [TAddress; TAddress] TVoid);
   ("get_pool_contract", sig [] (TOption TAddress));
   ("set_collateral_risk_config", sig [TAddress; TU32; TU64] TVoid);
   ("get_collateral_risk_config", sig [] Auction_CollateralRiskConfig);
   ("get_live_collateral_ratio", sig [TU64] TU32);
   ("get_at_risk_since", sig [TU64] (TOption TU64));
   ("check_collateral_risk", sig [TAddress; TU64] TBool);
   ("liquidate_collateral", sig [TAddress; TU64] TBool)] |}.

(** ** contracts/compliance *)

Definition Compliance_ComplianceStatus : ScType :=
  TUnion
  [("Unscreened", []);
   ("Cleared", []);
   ("Flagged", []);
   ("Blocked", []);
   ("PendingReview", [])].

Definition Compliance_RiskTier : ScType :=
  TUnion
  [("Low", []);
   ("Medium", []);
   ("High", [])].

Definition Compliance_ComplianceRecord : ScType :=
  TStruct
  [("address", TAddress);
   ("expires_at", TU64);
   ("notes_hash", TString);
   ("reason_code", TU32);
   ("risk_tier", Compliance_RiskTier);
   ("screened_at", TU64);
   ("screened_by", TAddress);
   ("status", Compliance_ComplianceStatus)].

Definition Compliance_ScreeningHistoryEntry : ScType :=
  TStruct
  [("expires_at", TU64);
   ("notes_hash", TString);
   ("reason_code", TU32);
   ("risk_tier", Compliance_RiskTier);
   ("screened_at", TU64);
   ("screened_by", TAddress);
   ("status", Compliance_ComplianceStatus)].

Definition compliance_abi : Abi := {|
  exports :=
  ["initialize"; "pause"; "unpause"; "is_paused"; "register_screener"; "confirm_screener_registration";
   "deregister_screener"; "is_screener"; "list_screeners"; "list_pending_screeners";
   "set_rescreening_interval"; "get_rescreening_interval"; "set_screener_timelock";
   "get_screener_timelock"; "submit_screening_result"; "request_review"; "is_cleared";
   "get_effective_status"; "get_effective_status_batch"; "get_compliance_record"; "get_screening_history";
   "get_screener_submissions"; "list_flagged"; "list_pending_review"; "get_admin"; "set_access_control";
   "get_access_control"; "set_governance_address"; "get_governance_address"; "set_access_control_via_ac";
   "set_paused_via_ac"; "set_rescreening_interval_gov"; "set_screener_timelock_gov";
   "register_screener_via_ac"; "confirm_screener_via_ac"; "deregister_screener_via_ac";
   "set_rescreening_interval_via_ac"; "set_screener_timelock_via_ac"];
  signatures :=
  [("pause", sig [TAddress] TVoid);
   ("unpause", sig [TAddress] TVoid);
   ("is_paused", sig [] TBool);
   ("submit_screening_result", sig [TAddress; TAddress; Compliance_ComplianceStatus; TU32; Compliance_RiskTier; TU64; TString] TVoid);
   ("request_review", sig [TAddress; TAddress; TString] TVoid);
   ("is_cleared", sig [TAddress] TBool);
   ("get_compliance_record", sig [TAddress] (TOption Compliance_ComplianceRecord));
   ("get_screening_history", sig [TAddress] (TVec Compliance_ScreeningHistoryEntry));
   ("list_flagged", sig [] (TVec TAddress));
   ("list_pending_review", sig [] (TVec TAddress))] |}.

(** ** contracts/credit_score *)

Definition CreditScore_CreditScoreResponse : ScType :=
  TStruct
  [("average_payment_days", TI64);
   ("blended_score", TU32);
   ("config_version", TU32);
   ("defaulted", TU32);
   ("final_score", TU32);
   ("is_stale", TBool);
   ("last_updated", TU64);
   ("paid_late", TU32);
   ("paid_on_time", TU32);
   ("risk_adjustment_pts", TI32);
   ("score", TU32);
   ("score_version", TU32);
   ("sme", TAddress);
   ("total_invoices", TU32);
   ("total_volume", TI128);
   ("trend_adjustment_pts", TI32)].

Definition CreditScore_AttestorType : ScType :=
  TUnion
  [("BusinessRegistry", []);
   ("CreditBureau", []);
   ("ExternalProtocol", []);
   ("Manual", [])].

Definition CreditScore_AttestorInfo : ScType :=
  TStruct
  [("address", TAddress);
   ("attestor_type", CreditScore_AttestorType);
   ("is_active", TBool);
   ("registered_at", TU64);
   ("weight_bps", TU32)].

Definition CreditScore_AttestationStatus : ScType :=
  TUnion
  [("Active", []);
   ("Disputed", []);
   ("Revoked", []);
   ("Expired", [])].

Definition CreditScore_Attestation : ScType :=
  TStruct
  [("attestation_type", CreditScore_AttestorType);
   ("attestor", TAddress);
   ("evidence_hash", TString);
   ("expires_at", TU64);
   ("id", TU64);
   ("score_contribution", TU32);
   ("sme", TAddress);
   ("status", CreditScore_AttestationStatus);
   ("submitted_at", TU64)].

Definition credit_score_abi : Abi := {|
  exports :=
  ["initialize"; "version"; "migration_version"; "run_migration"; "pause"; "unpause"; "is_paused";
   "record_payment"; "record_funding"; "record_default"; "get_credit_score"; "list_all_sme_stats";
   "get_payment_history"; "get_score_history"; "get_payment_record_score_version"; "get_payment_record";
   "get_payment_history_length"; "get_score_band"; "get_score_thresholds"; "set_score_thresholds";
   "get_scoring_config"; "set_scoring_config"; "is_invoice_processed"; "get_config";
   "set_invoice_contract"; "set_pool_contract"; "submit_risk_signal"; "set_late_threshold";
   "get_late_threshold"; "set_max_payment_history"; "get_max_payment_history"; "set_access_control";
   "get_access_control"; "set_access_control_via_ac"; "set_paused_via_ac"; "set_late_threshold_via_ac";
   "set_score_thresholds_via_ac"; "register_attestor_via_ac"; "set_upgrade_timelock";
   "get_upgrade_timelock"; "propose_upgrade"; "execute_upgrade"; "propose_admin_change";
   "finalize_admin_change"; "cancel_admin_change"; "register_attestor"; "deactivate_attestor";
   "get_attestor_info"; "list_active_attestors"; "submit_attestation"; "get_attestation";
   "list_sme_attestations"; "get_attestation_dispute_reason"; "simulate_score_with_attestations";
   "dispute_attestation"; "resolve_attestation_dispute"];
  signatures :=
  [("pause", sig [TAddress] TVoid);
   ("unpause", sig [TAddress] TVoid);
   ("is_paused", sig [] TBool);
   ("get_credit_score", sig [TAddress] CreditScore_CreditScoreResponse);
   ("get_config", sig [] (TTuple [TAddress; TAddress; TAddress]));
   ("submit_risk_signal", sig [TAddress; TAddress; TU32; TU32] TVoid);
   ("register_attestor", sig [TAddress; TAddress; CreditScore_AttestorType; TU32] TVoid);
   ("deactivate_attestor", sig [TAddress; TAddress] TVoid);
   ("get_attestor_info", sig [TAddress] (TOption CreditScore_AttestorInfo));
   ("list_active_attestors", sig [] (TVec CreditScore_AttestorInfo));
   ("submit_attestation", sig [TAddress; TAddress; CreditScore_AttestorType; TU32; TString; TU64] TU64);
   ("get_attestation", sig [TU64] (TOption CreditScore_Attestation));
   ("list_sme_attestations", sig [TAddress] (TVec CreditScore_Attestation));
   ("simulate_score_with_attestations", sig [TAddress; (TVec (TTuple [TU32; TU32]))] TU32);
   ("dispute_attestation", sig [TAddress; TU64; TString] TVoid);
   ("resolve_attestation_dispute", sig [TAddress; TU64; TBool] TVoid)] |}.

(** ** contracts/governance *)

Definition Governance_FeeTier : ScType :=
  TStruct
  [("fee_bps", TU32);
   ("max_amount", TI128);
   ("min_amount", TI128);
   ("min_credit_score", TU32)].

Definition Governance_LoyaltyTier : ScType :=
  TStruct
  [("bonus_bps", TU32);
   ("days_threshold", TU32)].

Definition Governance_CollateralConfig : ScType :=
  TStruct
  [("collateral_bps", TU32);
   ("threshold", TI128)].

Definition Governance_PoolAction : ScType :=
  TUnion
  [("SetPoolYield", [TU32]);
   ("SetPoolYieldChangePolicy", [TU64]);
   ("SetPoolFactoringFee", [TU32]);
   ("SetPoolFeeTier", [TU32; Governance_FeeTier]);
   ("SetPoolTreasury", [TAddress]);
   ("SetPoolMaxUtilization", [TU32]);
   ("SetPoolMinDeposit", [TI128]);
   ("SetPoolMaxInvestorConcentration", [TU32]);
   ("SetPoolLoyaltyTiers", [(TVec Governance_LoyaltyTier)]);
   ("SetPoolWithdrawalLimits", [TU32]);
   ("SetPoolMaxWithdrawalQueueAge", [TU32]);
   ("SetPoolMaxWithdrawalQueueDepth", [TU32]);
   ("SetPoolOracleContract", [TAddress]);
   ("SetPoolOracleStaleThreshold", [TU64]);
   ("SetPoolFallbackPrice", [TAddress; TI128]);
   ("SetPoolRateBounds", [TAddress; TU32; TU32]);
   ("SetPoolExchangeRate", [TAddress; TU32]);
   ("SetPoolComplianceRegistry", [TAddress]);
   ("SetPoolRequireComplianceCheck", [TBool]);
   ("SetPoolReferralRegistry", [TAddress]);
   ("SetPoolKycRequired", [TBool]);
   ("SetPoolCreditScoreContract", [TAddress]);
   ("SetPoolInsuranceContract", [TAddress]);
   ("SetPoolCompoundInterest", [TBool]);
   ("SetPoolSecondaryMarketContract", [TAddress]);
   ("SetPoolRiskContract", [TAddress]);
   ("SetPoolCollateralConfig", [Governance_CollateralConfig]);
   ("SetPoolUpgradeTimelock", [TU64]);
   ("SetPoolOperationDelay", [TU64])].

Definition Governance_InvoiceAction : ScType :=
  TUnion
  [("SetInvoiceGracePeriod", [TU32]);
   ("SetInvoiceMinDueDateWindow", [TU64]);
   ("SetInvoiceMaxAmount", [TI128]);
   ("SetInvoiceMaxSmeOutstanding", [TI128]);
   ("SetInvoiceExpirationDuration", [TU64]);
   ("SetInvoiceCompletedTtl", [TU32]);
   ("SetInvoiceDailyLimit", [TU32]);
   ("SetInvoiceDisputeWindow", [TU64]);
   ("SetInvoiceOracle", [TAddress]);
   ("SetInvoiceSecondaryOracle", [(TOption TAddress)]);
   ("SetInvoiceOracleRegistry", [TAddress]);
   ("SetInvoiceConsensusRequired", [TBool]);
   ("SetInvoiceComplianceRegistry", [TAddress]);
   ("SetInvoiceRequireComplianceCheck", [TBool]);
   ("SetInvoiceRequireRegDebtor", [TBool]);
   ("SetInvoiceVerifiedFundingOnly", [TBool]);
   ("SetInvoiceArbitrationContract", [TAddress]);
   ("SetInvoiceDisputeValueThreshold", [TI128]);
   ("SetInvoiceMetadataImageUri", [TString])].

Definition Governance_QuorumTier : ScType :=
  TStruct
  [("min_invoice_amount", TI128);
   ("quorum_bps", TU32)].

Definition Governance_OracleRegistryAction : ScType :=
  TUnion
  [("SetOracleRegistryInvoiceContract", [TAddress]);
   ("SetOracleRegistryTreasury", [(TOption TAddress)]);
   ("SetOracleRegistryConfig", [TI128; TU32; TU32; TU64; TU64]);
   ("SetOracleRegistryQuorumTiers", [(TVec Governance_QuorumTier)])].

Definition Governance_ComplianceAction : ScType :=
  TUnion
  [("SetComplianceRescreeningInterval", [TU64]);
   ("SetComplianceScreenerTimelock", [TU64])].

Definition Governance_GovernanceAction : ScType :=
  TUnion
  [("Pool", [Governance_PoolAction]);
   ("Invoice", [Governance_InvoiceAction]);
   ("OracleRegistry", [Governance_OracleRegistryAction]);
   ("Compliance", [Governance_ComplianceAction])].

Definition Governance_ProposalCategory : ScType :=
  TUnion
  [("ParameterChange", []);
   ("Treasury", []);
   ("Critical", [])].

Definition Governance_ProposalStatus : ScType :=
  TUnion
  [("Active", []);
   ("Passed", []);
   ("Rejected", []);
   ("Executed", []);
   ("Cancelled", []);
   ("Expired", [])].

Definition Governance_Proposal : ScType :=
  TStruct
  [("action", Governance_GovernanceAction);
   ("category", Governance_ProposalCategory);
   ("created_at", TU64);
   ("description", TString);
   ("execution_delay", TU64);
   ("id", TU64);
   ("pass_bps", TU32);
   ("passed_at", TU64);
   ("proposer", TAddress);
   ("quorum_bps", TU32);
   ("snapshot_supply", TI128);
   ("status", Governance_ProposalStatus);
   ("target_contract", TAddress);
   ("votes_against", TI128);
   ("votes_for", TI128);
   ("voting_ends_at", TU64)].

Definition Governance_GovernanceConfig : ScType :=
  TStruct
  [("admin", TAddress);
   ("critical_quorum_bps", TU32);
   ("execution_delay_secs", TU64);
   ("min_share_balance", TI128);
   ("pass_bps", TU32);
   ("quorum_bps", TU32);
   ("share_token", TAddress);
   ("treasury_quorum_bps", TU32);
   ("voting_period_secs", TU64)].

Definition governance_abi : Abi := {|
  exports :=
  ["initialize"; "create_proposal"; "vote"; "execute_proposal"; "cancel_proposal"; "get_proposal";
   "get_voter_vote_count"; "get_proposal_history"; "list_proposals"; "list_proposals_page";
   "finalize_proposal_if_due"; "get_config"; "set_voting_period"; "set_execution_expiry";
   "set_execution_delay"; "get_execution_expiry"; "set_paused"; "is_paused"; "get_voting_power";
   "set_governance_address"; "get_governance_address"; "update_config"; "update_min_share_balance";
   "set_category_quorum"; "get_category_quorum"; "set_access_control"; "get_access_control";
   "set_access_control_via_ac"; "update_config_via_ac"; "update_min_share_balance_via_ac";
   "set_category_quorum_via_ac"; "set_execution_delay_via_ac"];
  signatures :=
  [("initialize", sig [TAddress; TAddress; TU64; TU32; TU32; TU64; TI128] TVoid);
   ("create_proposal", sig [TAddress; TString; TAddress; Governance_GovernanceAction; Governance_ProposalCategory] TU64);
   ("vote", sig [TU64; TAddress; TBool] TVoid);
   ("execute_proposal", sig [TU64] TVoid);
   ("cancel_proposal", sig [TU64; TAddress] TVoid);
   ("get_proposal", sig [TU64] (TOption Governance_Proposal));
   ("list_proposals", sig [] (TVec Governance_Proposal));
   ("get_config", sig [] Governance_GovernanceConfig);
   ("set_execution_delay", sig [TAddress; TU64] TVoid);
   ("is_paused", sig [] TBool);
   ("get_governance_address", sig [] (TOption TAddress))] |}.

(** ** contracts/insurance *)

Definition Insurance_RiskTier : ScType :=
  TStruct
  [("max_score", TU32);
   ("min_score", TU32);
   ("risk_multiplier_bps", TU32)].

Definition Insurance_PremiumConfig : ScType :=
  TStruct
  [("base_rate_bps", TU32);
   ("default_coverage_bps", TU32);
   ("default_risk_multiplier_bps", TU32);
   ("max_premium_bps", TU32);
   ("min_premium_bps", TU32);
   ("risk_tiers", (TVec Insurance_RiskTier));
   ("tenor_bps_per_day", TU32)].

Definition Insurance_Config : ScType :=
  TStruct
  [("admin", TAddress);
   ("invoice_contract", TAddress);
   ("pool_contract", TAddress)].

Definition Insurance_CoverageRecord : ScType :=
  TStruct
  [("claimed", TBool);
   ("coverage_bps", TU32);
   ("invoice_id", TU64);
   ("paid_to_date", TI128);
   ("premium_paid", TI128);
   ("principal", TI128);
   ("purchased_at", TU64);
   ("token", TAddress)].

Definition Insurance_ReserveFund : ScType :=
  TStruct
  [("coverage_ratio_bps", TU32);
   ("min_coverage_ratio_bps", TU32);
   ("total_claims_paid", TI128);
   ("total_covered_exposure", TI128);
   ("total_premiums_collected", TI128);
   ("total_reserves", TI128)].

Definition Insurance_ClaimHistoryItem : ScType :=
  TStruct
  [("invoice_id", TU64);
   ("payout", TI128);
   ("shortfalls", TI128);
   ("timestamp", TU64);
   ("token", TAddress)].

Definition Insurance_ReserveHealth : ScType :=
  TStruct
  [("coverage_ratio_bps", TU32);
   ("is_healthy", TBool);
   ("min_reserve_amount", TI128);
   ("needs_top_up", TBool);
   ("token", TAddress);
   ("total_reserves", TI128)].

Definition insurance_abi : Abi := {|
  exports :=
  ["initialize"; "set_premium_config"; "get_premium_config"; "set_min_coverage_ratio";
   "set_credit_score_contract"; "get_credit_score_contract"; "get_config"; "fund_reserve_from_treasury";
   "pause"; "unpause"; "rotate_admin"; "purchase_coverage"; "release_coverage"; "file_claim";
   "get_reserve_status"; "get_coverage_record"; "get_claim_history"; "check_reserve_health";
   "set_min_reserve_amount"; "get_min_reserve_amount"; "estimate_premium"];
  signatures :=
  [("initialize", sig [TAddress; TAddress; TAddress] TVoid);
   ("set_premium_config", sig [TAddress; Insurance_PremiumConfig] TVoid);
   ("get_premium_config", sig [] (TOption Insurance_PremiumConfig));
   ("set_min_coverage_ratio", sig [TAddress; TAddress; TU32] TVoid);
   ("set_credit_score_contract", sig [TAddress; TAddress] TVoid);
   ("get_credit_score_contract", sig [] (TOption TAddress));
   ("get_config", sig [] (TOption Insurance_Config));
   ("fund_reserve_from_treasury", sig [TAddress; TAddress; TI128] TVoid);
   ("pause", sig [TAddress] TVoid);
   ("unpause", sig [TAddress] TVoid);
   ("purchase_coverage", sig [TAddress; TU64; TI128; TAddress; TU64; TAddress] Insurance_CoverageRecord);
   ("file_claim", sig [TU64] TI128);
   ("get_reserve_status", sig [TAddress] Insurance_ReserveFund);
   ("get_coverage_record", sig [TU64] (TOption Insurance_CoverageRecord));
   ("get_claim_history", sig [TU64] (TVec Insurance_ClaimHistoryItem));
   ("check_reserve_health", sig [TAddress] Insurance_ReserveHealth);
   ("set_min_reserve_amount", sig [TAddress; TAddress; TI128] TVoid);
   ("get_min_reserve_amount", sig [TAddress] TI128);
   ("estimate_premium", sig [TI128; TAddress; TU32] TI128)] |}.

(** ** contracts/invoice *)

Definition Invoice_DisputeResolution : ScType :=
  TUnion
  [("Pending", []);
   ("InFavorOfSME", []);
   ("InFavorOfDebtor", [])].

Definition Invoice_DisputeRecord : ScType :=
  TStruct
  [("evidence_hash", TString);
   ("filed_at", TU64);
   ("outcome", Invoice_DisputeResolution);
   ("resolved_at", TU64)].

Definition Invoice_InvoiceStatus : ScType :=
  TUnion
  [("Pending", []);
   ("AwaitingVerification", []);
   ("Verified", []);
   ("Disputed", []);
   ("Funded", []);
   ("Paid", []);
   ("Defaulted", []);
   ("Cancelled", []);
   ("Expired", [])].

Definition Invoice_Invoice : ScType :=
  TStruct
  [("amount", TI128);
   ("created_at", TU64);
   ("debtor", TString);
   ("description", TString);
   ("dispute_reason", TString);
   ("disputed_at", TU64);
   ("due_date", TU64);
   ("funded_amount", TI128);
   ("funded_at", TU64);
   ("grace_period_override", (TOption TU32));
   ("id", TU64);
   ("metadata_uri", (TOption TString));
   ("oracle_verified", TBool);
   ("original_due_date", TU64);
   ("owner", TAddress);
   ("paid_at", TU64);
   ("pending_due_date", (TOption TU64));
   ("pool_contract", TAddress);
   ("status", Invoice_InvoiceStatus);
   ("verification_deadline", TU64);
   ("verification_hash", TString)].

Definition Invoice_InvoiceMetadata : ScType :=
  TStruct
  [("amount", TI128);
   ("debtor", TString);
   ("decimals", TU32);
   ("description", TString);
   ("due_date", TU64);
   ("image", TString);
   ("name", TString);
   ("status", Invoice_InvoiceStatus);
   ("symbol", TString)].

Definition invoice_abi : Abi := {|
  exports :=
  ["initialize"; "version"; "migration_version"; "run_migration"; "register_debtor"; "deactivate_debtor";
   "get_debtor"; "list_debtors"; "set_require_registered_debtor"; "set_oracle_verified_funding_only";
   "oracle_verified_funding_only"; "pause"; "unpause"; "is_paused"; "set_oracle"; "set_secondary_oracle";
   "set_oracle_registry"; "get_oracle_registry"; "get_oracle"; "set_consensus_required";
   "require_consensus_verification"; "set_compliance_registry"; "get_compliance_registry";
   "set_require_compliance_check"; "require_compliance_check"; "add_keeper"; "set_access_control";
   "get_access_control"; "set_governance_address"; "get_governance_address"; "set_access_control_via_ac";
   "set_paused_via_ac"; "set_oracle_via_ac"; "register_debtor_via_ac"; "deactivate_debtor_via_ac";
   "add_keeper_via_ac"; "set_grace_period_via_governance"; "set_max_invoice_amount_gov";
   "set_max_sme_outstanding_via_governance"; "set_expiration_duration_via_governance";
   "set_completed_invoice_ttl_via_governance"; "set_daily_invoice_limit_via_governance";
   "set_dispute_window_via_governance"; "set_oracle_via_governance"; "set_secondary_oracle_via_governance";
   "set_oracle_registry_via_governance"; "set_consensus_required_via_governance";
   "set_compliance_registry_via_governance"; "set_require_compliance_check_via_governance";
   "set_require_registered_debtor_via_governance"; "set_oracle_verified_funding_only_via_governance";
   "set_arbitration_contract_via_governance"; "set_dispute_value_threshold_via_governance";
   "set_metadata_image_uri_via_governance"; "set_min_due_date_window_via_governance"; "remove_keeper";
   "list_keepers"; "get_metadata_image_uri"; "set_metadata_image_uri"; "create_invoice";
   "create_invoice_with_metadata"; "request_extension"; "approve_extension"; "set_daily_invoice_limit";
   "get_daily_invoice_limit"; "verify_invoice"; "consensus_verify"; "resolve_dispute";
   "set_dispute_window"; "get_dispute_window"; "set_arbitration_contract"; "get_arbitration_contract";
   "set_dispute_value_threshold"; "get_dispute_value_threshold"; "mark_funded"; "record_funding";
   "mark_paid"; "add_funding"; "mark_defaulted"; "mark_cancelled"; "raise_dispute";
   "resolve_default_dispute"; "arbitration_resolve_dispute"; "get_dispute"; "set_invoice_private";
   "is_invoice_private"; "cancel_invoice"; "timeout_verification"; "cleanup_invoice";
   "cleanup_expired_storage"; "estimate_storage_cost"; "get_invoice"; "get_invoice_verification_state";
   "get_funded_amount"; "get_multiple_invoices"; "get_metadata"; "get_invoice_count";
   "get_invoices_by_owner"; "get_invoices_by_debtor"; "get_storage_stats"; "check_expiration";
   "batch_check_expiration"; "set_grace_period"; "set_min_due_date_window"; "get_min_due_date_window";
   "set_max_invoice_amount"; "get_max_invoice_amount"; "set_max_sme_outstanding"; "get_sme_outstanding";
   "set_expiration_duration"; "get_expiration_duration"; "set_completed_invoice_ttl";
   "get_completed_invoice_ttl"; "get_grace_period"; "set_invoice_grace_period"; "get_invoice_grace_period";
   "set_pool"; "get_authorized_pool"; "is_invoice_defaulted"; "set_upgrade_timelock";
   "get_upgrade_timelock"; "propose_upgrade"; "execute_upgrade"; "propose_admin_change";
   "finalize_admin_change"; "cancel_admin_change"; "check_default_warning"];
  signatures :=
  [("pause", sig [TAddress] TVoid);
   ("unpause", sig [TAddress] TVoid);
   ("is_paused", sig [] TBool);
   ("create_invoice", sig [TAddress; TString; TI128; TU64; TString; TString; TString] TU64);
   ("create_invoice_with_metadata", sig [TAddress; TString; TI128; TU64; TString; TString; (TOption TString)] TU64);
   ("verify_invoice", sig [TU64; TAddress; TBool; TString; TString] TVoid);
   ("mark_defaulted", sig [TU64; TAddress] TVoid);
   ("raise_dispute", sig [TU64; TAddress; TString; TAddress] TVoid);
   ("get_dispute", sig [TU64] (TOption Invoice_DisputeRecord));
   ("set_invoice_private", sig [TU64; TAddress; TBool] TVoid);
   ("is_invoice_private", sig [TU64] TBool);
   ("get_invoice", sig [TU64] Invoice_Invoice);
   ("get_multiple_invoices", sig [(TVec TU64)] (TVec Invoice_Invoice));
   ("get_metadata", sig [TU64] Invoice_InvoiceMetadata);
   ("get_invoice_count", sig [] TU64);
   ("get_max_invoice_amount", sig [] TI128)] |}.

(** ** contracts/oracle_registry *)

Definition OracleRegistry_RegistryConfig : ScType :=
  TStruct
  [("deregister_cooldown_secs", TU64);
   ("min_stake", TI128);
   ("quorum_bps", TU32);
   ("required_votes", TU32);
   ("round_duration_secs", TU64);
   ("stake_token", TAddress);
   ("treasury", (TOption TAddress))].

Definition OracleRegistry_OracleInfo : ScType :=
  TStruct
  [("address", TAddress);
   ("deregister_requested_at", (TOption TU64));
   ("is_active", TBool);
   ("registered_at", TU64);
   ("stake_amount", TI128);
   ("stake_token", TAddress);
   ("total_slashes", TU32);
   ("total_verifications", TU32)].

Definition OracleRegistry_RoundStatus : ScType :=
  TUnion
  [("Open", []);
   ("ConsensusApproved", []);
   ("ConsensusRejected", []);
   ("Expired", [])].

Definition OracleRegistry_VerificationRound : ScType :=
  TStruct
  [("deadline", TU64);
   ("invoice_id", TU64);
   ("opened_at", TU64);
   ("oracle_hash", TString);
   ("quorum_bps", TU32);
   ("required_votes", TU32);
   ("status", OracleRegistry_RoundStatus);
   ("total_registered_oracles", TU32);
   ("total_stake_snapshot", TI128);
   ("votes", (TMap TBool));
   ("weight_against", TI128);
   ("weight_for", TI128)].

Definition oracle_registry_abi : Abi := {|
  exports :=
  ["initialize"; "set_invoice_contract"; "get_invoice_contract"; "set_treasury"; "set_registry_config";
   "get_registry_config"; "set_quorum_tiers"; "get_quorum_tiers"; "pause"; "unpause"; "is_paused";
   "register_oracle"; "deregister_oracle"; "slash_oracle"; "withdraw_slashed_funds";
   "open_verification_round"; "submit_vote"; "expire_round"; "admin_resolve_round"; "get_oracle_info";
   "list_active_oracles"; "get_verification_round"; "get_round_votes"; "get_oracle_round_history";
   "get_oracle_round_history_paginated"; "get_oracle_reputation"; "set_access_control";
   "get_access_control"; "set_governance_address"; "get_governance_address"; "set_access_control_via_ac";
   "set_invoice_contract_via_ac"; "set_treasury_via_ac"; "set_registry_config_via_ac"; "set_paused_via_ac";
   "slash_oracle_via_ac"; "admin_resolve_round_via_ac"; "set_invoice_contract_gov";
   "set_treasury_via_governance"; "set_registry_config_gov"; "set_quorum_tiers_via_governance"];
  signatures :=
  [("get_registry_config", sig [] OracleRegistry_RegistryConfig);
   ("pause", sig [TAddress] TVoid);
   ("unpause", sig [TAddress] TVoid);
   ("is_paused", sig [] TBool);
   ("register_oracle", sig [TAddress; TI128] TVoid);
   ("slash_oracle", sig [TAddress; TAddress; TU32; TU64; TString] TVoid);
   ("open_verification_round", sig [TAddress; TU64; TString] TVoid);
   ("submit_vote", sig [TAddress; TU64; TBool; TString] TVoid);
   ("admin_resolve_round", sig [TAddress; TU64; TBool; TString] TVoid);
   ("get_oracle_info", sig [TAddress] (TOption OracleRegistry_OracleInfo));
   ("list_active_oracles", sig [] (TVec TAddress));
   ("get_verification_round", sig [TU64] (TOption OracleRegistry_VerificationRound))] |}.

(** ** contracts/pool *)

Definition Pool_WithdrawalRequest : ScType :=
  TStruct
  [("investor", TAddress);
   ("request_id", TU64);
   ("requested_at", TU64);
   ("shares", TI128);
   ("token", TAddress)].

Definition Pool_FundingRequest : ScType :=
  TStruct
  [("due_date", TU64);
   ("invoice_id", TU64);
   ("principal", TI128);
   ("sme", TAddress);
   ("token", TAddress)].

Definition Pool_CollateralConfig : ScType :=
  TStruct
  [("collateral_bps", TU32);
   ("threshold", TI128)].

Definition Pool_CollateralDeposit : ScType :=
  TStruct
  [("amount", TI128);
   ("collateral_bps_at_deposit", TU32);
   ("depositor", TAddress);
   ("invoice_id", TU64);
   ("posted_at", TU64);
   ("released_at", TU64);
   ("seized_at", TU64);
   ("settled", TBool);
   ("threshold_at_deposit", TI128);
   ("token", TAddress)].

Definition Pool_RateModelConfig : ScType :=
  TStruct
  [("base_rate_bps", TU32);
   ("max_rate_bps", TU32);
   ("optimal_utilization_bps", TU32);
   ("slope1_bps", TU32);
   ("slope2_bps", TU32)].

Definition Pool_RateSnapshot : ScType :=
  TStruct
  [("rate_bps", TU32);
   ("timestamp", TU64);
   ("utilization_bps", TU32)].

Definition Pool_OpenCoFundingRequest : ScType :=
  TStruct
  [("due_date", TU64);
   ("funding_deadline", TU64);
   ("invoice_id", TU64);
   ("max_investor_bps", TU32);
   ("min_commitment", TI128);
   ("sme", TAddress);
   ("target_principal", TI128);
   ("token", TAddress)].

Definition Pool_CoFundingStatus : ScType :=
  TUnion
  [("Open", []);
   ("Filled", []);
   ("Cancelled", []);
   ("Expired", [])].

Definition Pool_CoFundingRound : ScType :=
  TStruct
  [("committed_principal", TI128);
   ("due_date", TU64);
   ("funding_deadline", TU64);
   ("invoice_id", TU64);
   ("max_investor_bps", TU32);
   ("min_commitment", TI128);
   ("participants", (TVec TAddress));
   ("sme", TAddress);
   ("status", Pool_CoFundingStatus);
   ("target_principal", TI128);
   ("token", TAddress)].

Definition Pool_PoolConfig : ScType :=
  TStruct
  [("admin", TAddress);
   ("compound_interest", TBool);
   ("factoring_fee_bps", TU32);
   ("invoice_contract", TAddress);
   ("last_yield_change_at", TU64);
   ("max_single_investor_bps", TU32);
   ("max_single_withdrawal_bps", TU32);
   ("max_utilization_bps", TU32);
   ("max_withdrawal_queue_age_days", TU32);
   ("max_withdrawal_queue_depth", TU32);
   ("max_yield_change_bps", TU32);
   ("min_deposit_amount", TI128);
   ("proposed_yield_bps", TU32);
   ("utilization_warning_bps", TU32);
   ("withdrawal_cooldown_secs", TU64);
   ("yield_bps", TU32);
   ("yield_change_cooldown_secs", TU64);
   ("yield_proposal_at", TU64);
   ("yield_timelock_secs", TU64)].

Definition Pool_PoolTokenTotals : ScType :=
  TStruct
  [("pool_value", TI128);
   ("protocol_revenue", TI128);
   ("reward_per_share", TI128);
   ("total_deployed", TI128);
   ("total_fee_revenue", TI128);
   ("total_paid_out", TI128)].

Definition Pool_FundedInvoice : ScType :=
  TStruct
  [("co_funding_round_id", (TOption TU64));
   ("due_date", TU64);
   ("factoring_fee", TI128);
   ("funded_at", TU64);
   ("invoice_id", TU64);
   ("locked_yield_bps", TU32);
   ("principal", TI128);
   ("repaid_amount", TI128);
   ("sme", TAddress);
   ("token", TAddress)].

Definition Pool_AdminOperation : ScType :=
  TUnion
  [("RemoveToken", [TAddress]);
   ("SetCollateralConfig", [TI128; TU32]);
   ("SeizeCollateral", [TU64])].

Definition Pool_Proposal : ScType :=
  TStruct
  [("cancelled", TBool);
   ("execute_after", TU64);
   ("executed", TBool);
   ("operation", Pool_AdminOperation);
   ("proposed_at", TU64);
   ("proposer", TAddress)].

Definition pool_abi : Abi := {|
  exports :=
  ["initialize"; "version"; "migration_version"; "run_migration"; "pause"; "unpause"; "is_paused";
   "add_token"; "remove_token"; "deposit"; "withdraw"; "request_withdrawal"; "cancel_withdrawal_request";
   "adjust_withdrawal_request"; "get_withdrawal_queue"; "get_trailing_inflow_rate";
   "get_open_invoices_for_token"; "claim_yield"; "fund_invoice"; "fund_multiple_invoices";
   "fund_invoices_batch"; "repay_invoices_batch"; "repay_invoice"; "set_collateral_config";
   "get_collateral_config"; "required_collateral_for"; "set_risk_contract"; "risk_liquidate_collateral";
   "deposit_collateral"; "top_up_collateral"; "get_collateral_deposit"; "seize_collateral";
   "liquidate_invoice"; "set_yield"; "propose_yield_change"; "execute_yield_change";
   "cancel_yield_proposal"; "set_yield_change_policy"; "propose_rate_model_change";
   "execute_rate_model_change"; "cancel_rate_model_change"; "get_current_rate"; "get_rate_model_config";
   "get_rate_history"; "get_pool_utilization_history"; "preview_rate_at_utilization"; "set_factoring_fee";
   "set_fee_tier"; "remove_fee_tier"; "get_fee_tier"; "list_fee_tiers"; "set_credit_score_contract";
   "get_credit_score_contract"; "set_insurance_contract"; "get_insurance_contract";
   "receive_insurance_payout"; "set_compound_interest"; "set_min_deposit"; "get_min_deposit";
   "set_max_investor_concentration"; "get_investor_concentration"; "set_treasury"; "get_treasury";
   "get_protocol_revenue"; "withdraw_revenue"; "set_access_control"; "get_access_control";
   "set_governance_address"; "get_governance_address"; "set_paused_via_ac"; "set_yield_via_ac";
   "set_treasury_via_ac"; "withdraw_revenue_via_ac"; "set_oracle_contract_via_ac";
   "set_kyc_required_via_ac"; "set_investor_kyc_via_ac"; "set_max_utilization_via_ac";
   "set_yield_via_governance"; "set_treasury_via_governance"; "set_max_utilization_gov";
   "set_oracle_contract_gov"; "set_kyc_required_via_governance"; "set_compliance_registry_gov";
   "set_require_compliance_check_gov"; "set_referral_registry_gov"; "set_credit_score_contract_gov";
   "set_insurance_contract_gov"; "set_compound_interest_gov"; "set_secondary_market_gov";
   "set_risk_contract_via_governance"; "set_min_deposit_via_governance"; "set_max_investor_conc_gov";
   "set_upgrade_timelock_gov"; "set_operation_delay_gov"; "set_yield_change_policy_gov";
   "set_factoring_fee_via_governance"; "set_withdrawal_limits_gov"; "set_max_wd_queue_age_gov";
   "set_max_wd_queue_depth_gov"; "set_oracle_stale_thresh_gov"; "set_fee_tier_via_governance";
   "set_loyalty_tiers_via_governance"; "set_fallback_price_gov"; "set_rate_bounds_via_governance";
   "set_exchange_rate_via_governance"; "set_collateral_config_gov"; "set_loyalty_tiers";
   "get_loyalty_tiers"; "get_deposit_info"; "set_withdrawal_limits"; "set_max_withdrawal_queue_age";
   "set_max_withdrawal_queue_depth"; "drain_withdrawal_queue"; "open_co_funding"; "commit_to_invoice";
   "withdraw_co_funding_commitment"; "cancel_co_funding_round"; "cancel_funded_invoice";
   "finalize_co_funding"; "list_co_funding_rounds"; "get_co_funding_round";
   "get_investor_co_fund_positions"; "get_investor_position_summary"; "get_co_fund_share";
   "transfer_co_fund_share"; "get_config"; "accepted_tokens"; "get_token_totals"; "get_pool_balance";
   "get_share_token"; "set_oracle_contract"; "get_oracle_contract"; "set_oracle_stale_threshold";
   "get_oracle_stale_threshold"; "set_fallback_price"; "get_fallback_price"; "get_asset_price";
   "get_utilization"; "set_max_utilization"; "get_funded_invoice"; "get_funded_invoices_batch";
   "available_liquidity"; "get_storage_stats"; "cleanup_funded_invoice"; "estimate_repayment";
   "estimate_deposit_yield"; "is_invoice_repaid"; "update_invoice_due_date"; "set_rate_bounds";
   "set_exchange_rate"; "get_exchange_rate"; "get_rate_bounds"; "set_compliance_registry";
   "get_compliance_registry"; "set_require_compliance_check"; "require_compliance_check";
   "set_referral_registry"; "get_referral_registry"; "set_kyc_required"; "kyc_required";
   "set_investor_kyc"; "approve_investor_kyc"; "reject_investor_kyc"; "get_investor_kyc_status";
   "get_investor_kyc"; "set_upgrade_timelock"; "get_upgrade_timelock"; "propose_upgrade";
   "execute_upgrade"; "propose_admin_change"; "finalize_admin_change"; "get_operation_delay";
   "set_operation_delay"; "propose_operation"; "execute_operation"; "cancel_admin_change";
   "cancel_operation"; "get_proposal"; "set_secondary_market_contract"; "get_secondary_market_contract";
   "get_investor_position"; "market_settle_listing"];
  signatures :=
  [("pause", sig [TAddress] TVoid);
   ("unpause", sig [TAddress] TVoid);
   ("is_paused", sig [] TBool);
   ("deposit", sig [TAddress; TAddress; TI128; (TOption TU32)] TVoid);
   ("withdraw", sig [TAddress; TAddress; TI128] TVoid);
   ("request_withdrawal", sig [TAddress; TAddress; TI128] TU64);
   ("cancel_withdrawal_request", sig [TAddress; TAddress] TVoid);
   ("get_withdrawal_queue", sig [TAddress] (TVec Pool_WithdrawalRequest));
   ("claim_yield", sig [TAddress; TAddress] TVoid);
   ("fund_invoice", sig [TAddress; TU64; TI128; TAddress; TU64; TAddress] TVoid);
   ("fund_invoices_batch", sig [TAddress; (TVec Pool_FundingRequest)] TVoid);
   ("repay_invoice", sig [TU64; TAddress; TI128] TVoid);
   ("get_collateral_config", sig [] Pool_CollateralConfig);
   ("set_risk_contract", sig [TAddress; TAddress] TVoid);
   ("deposit_collateral", sig [TU64; TAddress; TAddress; TI128] TVoid);
   ("top_up_collateral", sig [TU64; TAddress; TAddress; TI128] TVoid);
   ("get_collateral_deposit", sig [TU64] (TOption Pool_CollateralDeposit));
   ("liquidate_invoice", sig [TAddress; TU64] TVoid);
   ("set_yield", sig [TAddress; TU32] TVoid);
   ("propose_rate_model_change", sig [TAddress; TAddress; Pool_RateModelConfig] TVoid);
   ("execute_rate_model_change", sig [TAddress] TVoid);
   ("cancel_rate_model_change", sig [TAddress; TAddress] TVoid);
   ("get_current_rate", sig [TAddress] TU32);
   ("get_rate_model_config", sig [TAddress] (TOption Pool_RateModelConfig));
   ("get_rate_history", sig [TAddress; TU32] (TVec Pool_RateSnapshot));
   ("preview_rate_at_utilization", sig [TAddress; TU32] TU32);
   ("set_factoring_fee", sig [TAddress; TU32] TVoid);
   ("set_insurance_contract", sig [TAddress; TAddress] TVoid);
   ("get_insurance_contract", sig [] (TOption TAddress));
   ("get_treasury", sig [] TAddress);
   ("get_protocol_revenue", sig [TAddress] TI128);
   ("drain_withdrawal_queue", sig [TAddress; TAddress] TVoid);
   ("open_co_funding", sig [TAddress; Pool_OpenCoFundingRequest] TVoid);
   ("commit_to_invoice", sig [TAddress; TU64; TI128] TVoid);
   ("withdraw_co_funding_commitment", sig [TAddress; TU64] TVoid);
   ("cancel_co_funding_round", sig [TAddress; TU64] TVoid);
   ("finalize_co_funding", sig [TAddress; TU64] TVoid);
   ("list_co_funding_rounds", sig [] (TVec TU64));
   ("get_co_funding_round", sig [TU64] (TOption Pool_CoFundingRound));
   ("get_investor_co_fund_positions", sig [TAddress] (TVec (TTuple [TU64; TU32])));
   ("get_co_fund_share", sig [TU64; TAddress] TU32);
   ("transfer_co_fund_share", sig [TAddress; TU64; TAddress; TAddress; TU32] TVoid);
   ("get_config", sig [] Pool_PoolConfig);
   ("accepted_tokens", sig [] (TVec TAddress));
   ("get_token_totals", sig [TAddress] Pool_PoolTokenTotals);
   ("get_pool_balance", sig [TAddress] TI128);
   ("get_asset_price", sig [TAddress] TI128);
   ("get_funded_invoice", sig [TU64] (TOption Pool_FundedInvoice));
   ("get_funded_invoices_batch", sig [(TVec TU64)] (TVec (TOption Pool_FundedInvoice)));
   ("set_exchange_rate", sig [TAddress; TAddress; TU32] TVoid);
   ("get_exchange_rate", sig [TAddress] TU32);
   ("set_kyc_required", sig [TAddress; TBool] TVoid);
   ("kyc_required", sig [] TBool);
   ("set_investor_kyc", sig [TAddress; TAddress; TBool] TVoid);
   ("get_investor_kyc", sig [TAddress] TBool);
   ("get_proposal", sig [TU64] (TOption Pool_Proposal))] |}.

(** ** contracts/referral *)

Definition Referral_ReferralStats : ScType :=
  TStruct
  [("referral_count", TU32);
   ("referrer", TAddress)].

Definition Referral_LeaderboardEntry : ScType :=
  TStruct
  [("referral_count", TU32);
   ("referrer", TAddress)].

Definition referral_abi : Abi := {|
  exports :=
  ["initialize"; "pause"; "unpause"; "is_paused"; "set_pool"; "get_pool"; "set_borrow_reward_bps";
   "set_deposit_reward_bps"; "set_lifetime_reward_cap"; "get_lifetime_reward_cap"; "set_access_control";
   "get_access_control"; "set_access_control_via_ac"; "set_paused_via_ac"; "set_pool_via_ac";
   "set_borrow_reward_bps_via_ac"; "set_deposit_reward_bps_via_ac"; "get_borrow_reward_bps";
   "get_deposit_reward_bps"; "register"; "get_referrer"; "is_activated"; "record_activity";
   "get_pending_reward"; "claim_rewards"; "get_stats"; "get_top_referrers"];
  signatures :=
  [("initialize", sig [TAddress; TAddress] TVoid);
   ("pause", sig [TAddress] TVoid);
   ("unpause", sig [TAddress] TVoid);
   ("is_paused", sig [] TBool);
   ("set_pool", sig [TAddress; TAddress] TVoid);
   ("get_pool", sig [] TAddress);
   ("set_borrow_reward_bps", sig [TAddress; TU32] TVoid);
   ("set_deposit_reward_bps", sig [TAddress; TU32] TVoid);
   ("set_access_control", sig [TAddress; TAddress] TVoid);
   ("get_access_control", sig [] (TOption TAddress));
   ("get_borrow_reward_bps", sig [] TU32);
   ("get_deposit_reward_bps", sig [] TU32);
   ("register", sig [TAddress; TAddress] TVoid);
   ("get_referrer", sig [TAddress] (TOption TAddress));
   ("record_activity", sig [TAddress; TAddress; TSymbol; TI128; TAddress] TI128);
   ("get_pending_reward", sig [TAddress; TAddress] TI128);
   ("claim_rewards", sig [TAddress; TAddress] TI128);
   ("get_stats", sig [TAddress] Referral_ReferralStats);
   ("get_top_referrers", sig [TU32] (TVec Referral_LeaderboardEntry))] |}.

(** ** contracts/secondary_market *)

Definition SecondaryMarket_ListingKind : ScType :=
  TUnion
  [("CoFunding", []);
   ("SingleFunded", [])].

Definition SecondaryMarket_ListingStatus : ScType :=
  TUnion
  [("Open", []);
   ("Filled", []);
   ("Cancelled", [])].

Definition SecondaryMarket_Listing : ScType :=
  TStruct
  [("amount_or_bps", TU64);
   ("created_at", TU64);
   ("invoice_id", TU64);
   ("kind", SecondaryMarket_ListingKind);
   ("listing_id", TU64);
   ("price", TI128);
   ("seller", TAddress);
   ("status", SecondaryMarket_ListingStatus);
   ("token", TAddress)].

Definition SecondaryMarket_OrderSide : ScType :=
  TUnion
  [("Bid", []);
   ("Ask", [])].

Definition SecondaryMarket_PlaceOrderRequest : ScType :=
  TStruct
  [("amount_or_bps", TU64);
   ("expires_at", TU64);
   ("invoice_id", TU64);
   ("kind", SecondaryMarket_ListingKind);
   ("price", TI128);
   ("side", SecondaryMarket_OrderSide)].

Definition SecondaryMarket_OrderStatus : ScType :=
  TUnion
  [("Open", []);
   ("PartiallyFilled", []);
   ("Filled", []);
   ("Cancelled", []);
   ("Expired", [])].

Definition SecondaryMarket_Order : ScType :=
  TStruct
  [("amount_or_bps", TU64);
   ("created_at", TU64);
   ("expires_at", TU64);
   ("invoice_id", TU64);
   ("kind", SecondaryMarket_ListingKind);
   ("order_id", TU64);
   ("owner", TAddress);
   ("price", TI128);
   ("remaining", TU64);
   ("side", SecondaryMarket_OrderSide);
   ("status", SecondaryMarket_OrderStatus);
   ("token", TAddress)].

Definition SecondaryMarket_OrderBookLevel : ScType :=
  TStruct
  [("order_id", TU64);
   ("price", TI128);
   ("quantity", TU64)].

Definition SecondaryMarket_WaitEstimate : ScType :=
  TStruct
  [("capital_ahead", TI128);
   ("estimated_wait_secs", TU64);
   ("nearest_invoice_due_date", TU64);
   ("queue_position", TU32)].

Definition SecondaryMarket_LiquidityForecastPoint : ScType :=
  TStruct
  [("day", TU32);
   ("projected_available", TI128)].

Definition secondary_market_abi : Abi := {|
  exports :=
  ["initialize"; "pause"; "unpause"; "get_pool_contract"; "list_position"; "cancel_listing"; "buy_listing";
   "get_listing"; "list_listings_for_invoice"; "list_listings_for_investor"; "place_order"; "cancel_order";
   "expire_order"; "get_order"; "get_order_book"; "list_orders_for_owner"; "estimate_withdrawal_wait";
   "get_liquidity_forecast"];
  signatures :=
  [("pause", sig [TAddress] TVoid);
   ("unpause", sig [TAddress] TVoid);
   ("list_position", sig [TAddress; TU64; SecondaryMarket_ListingKind; TU64; TI128] TU64);
   ("cancel_listing", sig [TAddress; TU64] TVoid);
   ("buy_listing", sig [TAddress; TU64] TVoid);
   ("get_listing", sig [TU64] (TOption SecondaryMarket_Listing));
   ("list_listings_for_invoice", sig [TU64] (TVec TU64));
   ("list_listings_for_investor", sig [TAddress] (TVec TU64));
   ("place_order", sig [TAddress; SecondaryMarket_PlaceOrderRequest] TU64);
   ("cancel_order", sig [TAddress; TU64] TVoid);
   ("expire_order", sig [TU64] TVoid);
   ("get_order", sig [TU64] (TOption SecondaryMarket_Order));
   ("get_order_book", sig [TU64; SecondaryMarket_ListingKind] (TTuple [(TVec SecondaryMarket_OrderBookLevel); (TVec SecondaryMarket_OrderBookLevel)]));
   ("list_orders_for_owner", sig [TAddress] (TVec TU64));
   ("estimate_withdrawal_wait", sig [TAddress; TAddress] SecondaryMarket_WaitEstimate);
   ("get_liquidity_forecast", sig [TAddress; TU32] (TVec SecondaryMarket_LiquidityForecastPoint))] |}.

(** ** contracts/share *)

Definition share_abi : Abi := {|
  exports :=
  ["initialize"; "pause"; "unpause"; "is_paused"; "admin"; "set_admin"; "mint"; "burn"; "burn_from";
   "transfer"; "approve"; "allowance"; "get_allowance_expiration"; "increase_allowance";
   "decrease_allowance"; "transfer_from"; "balance"; "balance_at"; "total_supply"; "decimals"; "name";
   "symbol"];
  signatures :=
  [("initialize", sig [TAddress; TU32; TString; TString] TVoid);
   ("pause", sig [TAddress] TVoid);
   ("unpause", sig [TAddress] TVoid);
   ("is_paused", sig [] TBool);
   ("admin", sig [] TAddress);
   ("set_admin", sig [TAddress] TVoid);
   ("mint", sig [TAddress; TI128] TVoid);
   ("burn", sig [TAddress; TI128] TVoid);
   ("burn_from", sig [TAddress; TAddress; TI128] TVoid);
   ("transfer", sig [TAddress; TAddress; TI128] TVoid);
   ("approve", sig [TAddress; TAddress; TI128; TU32] TVoid);
   ("allowance", sig [TAddress; TAddress] TI128);
   ("get_allowance_expiration", sig [TAddress; TAddress] TU32);
   ("increase_allowance", sig [TAddress; TAddress; TI128] TVoid);
   ("decrease_allowance", sig [TAddress; TAddress; TI128] TVoid);
   ("transfer_from", sig [TAddress; TAddress; TAddress; TI128] TVoid);
   ("balance", sig [TAddress] TI128);
   ("balance_at", sig [TAddress; TU64] TI128);
   ("total_supply", sig [] TI128);
   ("decimals", sig [] TU32);
   ("name", sig [] TString);
   ("symbol", sig [] TString)] |}.

(** ** contracts/tranche *)

Definition Tranche_TrancheConfig : ScType :=
  TStruct
  [("junior_first_loss_bps", TU32);
   ("senior_advance_rate_bps", TU32);
   ("senior_target_yield_bps", TU32)].

Definition Tranche_TrancheAccounting : ScType :=
  TStruct
  [("available", TI128);
   ("deployed", TI128);
   ("deposited", TI128);
   ("earned", TI128);
   ("losses", TI128);
   ("total_shares", TI128)].

Definition Tranche_TranchePool : ScType :=
  TStruct
  [("config", Tranche_TrancheConfig);
   ("junior", Tranche_TrancheAccounting);
   ("junior_share_token", TAddress);
   ("senior", Tranche_TrancheAccounting);
   ("senior_share_token", TAddress);
   ("token", TAddress)].

Definition Tranche_TrancheClass : ScType :=
  TUnion
  [("Senior", []);
   ("Junior", [])].

Definition Tranche_InvestorPosition : ScType :=
  TStruct
  [("deposited", TI128);
   ("earned", TI128);
   ("losses", TI128);
   ("shares", TI128)].

Definition tranche_abi : Abi := {|
  exports :=
  ["initialize"; "get_pool"; "get_admin"; "get_config"; "get_totals"; "deposit_tranche";
   "withdraw_tranche"; "get_position"; "get_advance_rate_headroom"; "set_tranche_config";
   "open_tranche_for_token"; "is_tranche_enabled"; "fund_invoice_from_tranches"];
  signatures :=
  [("get_pool", sig [TAddress] Tranche_TranchePool);
   ("get_config", sig [TAddress] Tranche_TrancheConfig);
   ("get_totals", sig [TAddress; Tranche_TrancheClass] Tranche_TrancheAccounting);
   ("deposit_tranche", sig [TAddress; TAddress; Tranche_TrancheClass; TI128] TVoid);
   ("withdraw_tranche", sig [TAddress; TAddress; Tranche_TrancheClass; TI128] TVoid);
   ("get_position", sig [TAddress; TAddress; Tranche_TrancheClass] (TOption Tranche_InvestorPosition));
   ("set_tranche_config", sig [TAddress; TAddress; TU32; TU32; TU32] TVoid)] |}.

(** ** The contracts *)

Inductive Contract :=
| AccessControl
| Arbitration
| Auction
| Compliance
| CreditScore
| Governance
| Insurance
| Invoice
| OracleRegistry
| Pool
| Referral
| SecondaryMarket
| Share
| Tranche.

Definition abi_of (c : Contract) : Abi :=
  match c with
  | AccessControl => access_control_abi
  | Arbitration => arbitration_abi
  | Auction => auction_abi
  | Compliance => compliance_abi
  | CreditScore => credit_score_abi
  | Governance => governance_abi
  | Insurance => insurance_abi
  | Invoice => invoice_abi
  | OracleRegistry => oracle_registry_abi
  | Pool => pool_abi
  | Referral => referral_abi
  | SecondaryMarket => secondary_market_abi
  | Share => share_abi
  | Tranche => tranche_abi
  end.

(** The answer of an entry point. *)
Definition answer (c : Contract) (method : string) : option ScType :=
  sg_result <$> signature (abi_of c) method.

Lemma abi_of_wf c : abi_wf (abi_of c) = true.
Proof. destruct c; vm_compute; reflexivity. Qed.
