(* ===== verification/ErrorTables.v ===== *)
(** * The contracts' error codes and the clients' names for them

    For every contract its [contracterror] enumeration, and for every client of the
    SDK the [errors] it gives [parseContractError]: the [Errors] of its generated
    module, governance.ts's own, or nothing. *)
From S2P Require Import Prelude.
From S2P Require Import Sdk.
From S2P Require Import ContractAbi.
#[local] Open Scope string_scope.
#[local] Open Scope list_scope.
#[local] Open Scope Z_scope.

(** ** The contracts' enumerations *)

Definition access_control_errors : list (Z * string) :=
  [(0, "AlreadyInitialized"); (1, "NotInitialized"); (2, "NotASigner"); (3, "AlreadyApproved");
   (4, "ThresholdNotMet"); (5, "ProposalNotFound"); (6, "ProposalExpired"); (7, "ProposalNotPending");
   (8, "ProposalNotApproved"); (20, "ProposalNotYetExecutable"); (9, "InvalidThreshold");
   (10, "DuplicateSigner"); (11, "RoleNotConfigured"); (12, "SelfManagementRequiresSuperAdmin");
   (13, "InvalidExpiryWindow"); (14, "SignerNotFound"); (15, "NoApprovalToRevoke");
   (16, "IncoherentProposal"); (17, "MaxSignersExceeded");
   (18, "ThresholdMustBeLoweredBeforeSignerRemoval"); (19, "RoleNotAuthorized")].

Definition arbitration_errors : list (Z * string) :=
  [(0, "AlreadyInitialized"); (1, "NotInitialized"); (2, "Unauthorized"); (3, "ContractPaused");
   (4, "InvalidAmount"); (5, "InsufficientStake"); (6, "AlreadyRegistered"); (7, "NotRegistered");
   (8, "DeregisterHasPendingCases"); (9, "DeregisterCooldownActive"); (10, "InvalidConfig");
   (11, "InvoiceContractNotSet"); (12, "InvoiceCallFailed"); (13, "CaseNotFound");
   (14, "InvalidCaseStatus"); (15, "WindowNotClosed"); (16, "WindowClosed"); (17, "InvalidParty");
   (18, "NotEnoughActiveJurors"); (19, "NotSelectedJuror"); (20, "AlreadyCommitted");
   (21, "NotCommitted"); (22, "AlreadyRevealed"); (23, "RevealMismatch"); (24, "RetriesNotExhausted");
   (25, "CaseNotEscalated"); (26, "RetriesExhausted")].

Definition auction_errors : list (Z * string) :=
  [(0, "AlreadyInitialized"); (1, "NotInitialized"); (2, "Unauthorized"); (3, "RoundNotFound");
   (4, "RoundNotOpen"); (5, "RoundAlreadySettled"); (6, "BidWindowExpired"); (7, "InvoiceNotVerified");
   (8, "InvoiceAlreadyBid"); (9, "DiscountTooHigh"); (10, "NoBids"); (11, "InsufficientLiquidity");
   (12, "AllocationOverflow"); (13, "RoundNotClearing"); (14, "PoolCallFailed");
   (15, "InvalidSaleParams"); (16, "SaleNotFound"); (17, "SaleNotOpen"); (18, "SaleExpired");
   (19, "SaleNotExpired"); (20, "DepositNotFound"); (21, "InvoiceNotFound");
   (22, "CollateralAlreadySettled"); (23, "OraclePriceUnavailable"); (24, "NotAtRisk");
   (25, "GracePeriodNotElapsed"); (26, "InvalidRiskConfig"); (27, "AmountOverflow");
   (28, "AuctionNotFound"); (29, "AuctionNotOpen"); (30, "AuctionExpired"); (31, "AuctionNotExpired");
   (32, "AuctionAlreadySettled"); (33, "BidAmountTooLow"); (34, "BidEscrowFailed");
   (35, "BidWithdrawFailed"); (36, "UnauthorizedSettlement")].

Definition compliance_errors : list (Z * string) :=
  [(0, "AlreadyInitialized"); (1, "NotInitialized"); (2, "Unauthorized"); (3, "ContractPaused");
   (4, "InvalidConfig"); (5, "ScreenerAlreadyRegistered"); (6, "ScreenerNotRegistered");
   (7, "ScreenerTimelockActive"); (8, "NoPendingScreener"); (9, "InvalidStatus");
   (10, "AddressNotFound"); (11, "ListFull"); (12, "InvalidReason"); (13, "ReviewRequestTooSoon");
   (14, "RescreeningTooSoon"); (15, "AccessControlNotConfigured"); (16, "GovernanceNotConfigured")].

Definition credit_score_errors : list (Z * string) :=
  [(1, "AlreadyInitialized"); (2, "Unauthorized"); (3, "ContractPaused");
   (4, "InvoiceAlreadyProcessed"); (5, "InvalidThresholds"); (6, "InvalidLateThreshold");
   (7, "PaymentHistoryLimitZero"); (8, "UpgradeTimelockNotExpired"); (9, "NoUpgradeProposed");
   (10, "InvalidUpgradeTimelock"); (11, "InvalidWasmHash"); (12, "AdminChangePending");
   (13, "AdminChangeTimelockNotExpired"); (14, "NoAdminChangeProposed"); (15, "AttestorNotFound");
   (16, "AttestorInactive"); (17, "InvalidAttestorWeight"); (18, "InvalidScoreContribution");
   (19, "InvalidAttestationExpiry"); (20, "AttestationNotFound"); (21, "AttestationNotActive");
   (22, "UnauthorizedDisputeCaller"); (23, "DisputeNotFound"); (24, "InvalidAttestationConfig");
   (25, "AccessControlNotConfigured"); (26, "InvalidAttestorType"); (27, "InvalidRiskSignal");
   (28, "InvalidScoringConfig")].

Definition governance_errors : list (Z * string) :=
  [(1, "NotInitialized"); (2, "ProposalNotFound"); (3, "ProposalInactive"); (4, "AlreadyVoted");
   (5, "InsufficientShareBalance"); (6, "VotingPeriodActive"); (7, "TimelockActive");
   (8, "QuorumNotMet"); (9, "InvalidProposalState"); (10, "Unauthorized"); (11, "ProposalExpired");
   (12, "InvalidConfig"); (13, "AccessControlNotConfigured"); (14, "GovernanceNotConfigured");
   (15, "AlreadyInitialized"); (16, "Paused")].

Definition insurance_errors : list (Z * string) :=
  [(0, "AlreadyInitialized"); (1, "NotInitialized"); (2, "Unauthorized"); (3, "ContractPaused");
   (4, "InvalidAmount"); (5, "InvalidCoverageBps"); (6, "InvalidPremiumConfig");
   (7, "InvalidMinCoverageRatio"); (8, "CoverageRatioFloorBreached"); (9, "AlreadyCovered");
   (10, "NoCoverageFound"); (11, "InvoiceNotDefaulted"); (12, "NoShortfall"); (13, "AlreadyClaimed");
   (14, "AmountOverflow"); (15, "FundedInvoiceNotFound"); (16, "PoolCallFailed");
   (17, "InsufficientReserves")].

Definition invoice_errors : list (Z * string) :=
  [(0, "AlreadyInitialized"); (1, "Unauthorized"); (2, "InvalidStatusTransition");
   (3, "InvoiceNotFound"); (4, "HashMismatch"); (5, "SmeExposureLimitExceeded"); (6, "AmountOverflow");
   (7, "InvalidConfig"); (8, "FieldTooLong"); (9, "DateOverflow"); (10, "InvalidMetadata");
   (11, "DescriptionTooLong"); (12, "DebtorNameTooLong"); (13, "VerificationHashTooLong");
   (14, "ExtensionAlreadyPending"); (15, "InvalidDueDateExtension"); (16, "ExtensionTooLarge");
   (17, "NoPendingExtension"); (18, "PoolCallFailed"); (19, "ArithmeticOverflow");
   (20, "EmptyDebtorName"); (21, "EmptyDescription"); (22, "InvalidVerificationHash");
   (23, "DueDateTooSoon"); (24, "UpgradeTimelockNotExpired"); (25, "InvalidUpgradeTimelock");
   (26, "InvalidWasmHash"); (27, "VerificationDeadlineNotPassed"); (28, "AdminChangePending");
   (29, "AdminChangeTimelockNotExpired"); (30, "NoAdminChangeProposed"); (31, "ContractPaused");
   (32, "DisputeWindowClosed"); (33, "DisputeNotFound"); (34, "DisputeAlreadyResolved");
   (35, "ConsensusVerificationRequired"); (36, "OracleRegistryNotConfigured");
   (37, "UnauthorizedRegistry"); (38, "ComplianceNotCleared"); (39, "ComplianceCheckFailed");
   (40, "ComplianceRegistryNotConfigured"); (41, "RateLimitExceeded"); (42, "InvalidDescriptionChars");
   (43, "InvalidAmount"); (44, "InvalidDueDate"); (45, "AccessControlNotConfigured");
   (46, "IDCollision"); (47, "UnauthorizedArbitration"); (48, "InvalidRespondent");
   (49, "ArbitrationRequired")].

Definition oracle_registry_errors : list (Z * string) :=
  [(0, "AlreadyInitialized"); (1, "NotInitialized"); (2, "Unauthorized"); (3, "ContractPaused");
   (4, "InvalidAmount"); (5, "InsufficientStake"); (6, "AlreadyRegistered"); (7, "NotRegistered");
   (8, "DeregisterHasPendingVotes"); (9, "DeregisterCooldownActive"); (10, "InvalidBps");
   (11, "NoActiveOracles"); (12, "RoundAlreadyOpen"); (13, "RoundNotFound"); (14, "RoundNotOpen");
   (15, "RoundExpired"); (16, "RoundNotExpired"); (17, "AlreadyVoted"); (18, "InvoiceContractNotSet");
   (19, "InvoiceCallFailed"); (20, "InvalidConfig"); (21, "InvoiceNotAwaitingVerification");
   (22, "InvalidQuorumTiers"); (23, "InvalidEvidence"); (24, "SlashRoundNotFound");
   (25, "AccessControlNotConfigured"); (26, "GovernanceNotConfigured");
   (27, "TreasuryAlreadyConfigured"); (28, "InvalidPagination")].

Definition pool_errors : list (Z * string) :=
  [(0, "AlreadyInitialized"); (1, "NotInitialized"); (2, "TokenNotAccepted");
   (3, "TokenAlreadyAccepted"); (4, "TokenNotWhitelisted"); (5, "InvoiceNotFound");
   (6, "AlreadyFullyRepaid"); (7, "Overpayment"); (8, "InvalidAmount"); (9, "Unauthorized");
   (10, "StorageCorrupted"); (11, "ShareTokenNotConfigured"); (24, "InvalidFeeTier");
   (25, "FeeTierNotFound"); (12, "ContractPaused"); (13, "CollateralNotFound");
   (14, "CollateralAlreadySettled"); (15, "DepositBelowMinimum"); (16, "InsufficientRevenue");
   (17, "TreasuryNotConfigured"); (18, "WithdrawalExceedsLimit"); (19, "WithdrawalCooldownActive");
   (20, "InsufficientCoFundShare"); (26, "InsufficientLiquidity"); (21, "WithdrawalRequestNotFound");
   (22, "AlreadyQueuedForWithdrawal"); (23, "InvalidRequestId"); (27, "TokenHasActiveBalances");
   (28, "TokenHasDeployedCapital"); (29, "TokenHasPendingWithdrawals");
   (30, "ConcentrationLimitExceeded"); (33, "UtilizationLimitExceeded"); (34, "AmountOverflow");
   (35, "BatchTooLarge"); (31, "YieldProposalNotFound"); (32, "YieldChangeNotReady");
   (36, "UnsupportedTokenDecimals"); (37, "ZeroAmount"); (38, "NegativeAmount");
   (39, "TransferMismatch"); (40, "KycNotApproved"); (41, "InvalidThreshold"); (42, "NotDefaulted");
   (43, "InvoicePoolMismatch"); (44, "InvalidShareToken"); (45, "DuplicateInvoiceId");
   (46, "InvalidCollateralThreshold"); (47, "InvalidCollateralBps"); (48, "KycNotRequested");
   (49, "KycRejected"); (50, "UpgradeTimelockNotExpired"); (51, "InvalidUpgradeTimelock");
   (52, "InvalidWasmHash"); (53, "InsufficientPoolFunds"); (54, "AdminChangePending");
   (55, "AdminChangeTimelockNotExpired"); (56, "NoAdminChangeProposed"); (57, "TimestampInPast");
   (58, "InvoiceExpired"); (59, "OperationRequiresProposal"); (60, "ProposalNotFound");
   (61, "ProposalNotReady"); (62, "ProposalAlreadyExecuted"); (63, "ProposalAlreadyCancelled");
   (64, "InvalidOperationDelay"); (65, "TokenHasActiveCofundingCommitments");
   (66, "CoFundingRoundNotFound"); (67, "CoFundingRoundAlreadyExists"); (68, "CoFundingRoundNotOpen");
   (69, "CoFundingRoundAlreadyFinalized"); (70, "CoFundingDeadlinePassed");
   (71, "CoFundingDeadlineNotPassed"); (72, "CoFundingBelowMinimum");
   (73, "CoFundingInvestorCapExceeded"); (74, "CoFundingNoCommitment"); (75, "CoFundingRoundNotFilled");
   (76, "CoFundingTooManyParticipants"); (77, "InvalidCoFundingParams"); (78, "WithdrawalQueueFull");
   (79, "InvalidRateModelConfig"); (80, "RateModelNotConfigured"); (81, "RateModelProposalNotFound");
   (82, "RateModelChangeNotReady"); (83, "ComplianceNotCleared"); (84, "ComplianceCheckFailed");
   (85, "OraclePriceUnavailable"); (86, "InvalidLoyaltyTiers"); (87, "RateBelowMinimum");
   (88, "AccessControlNotConfigured"); (89, "AccessControlAlreadyConfigured"); (90, "ListingNotFound");
   (91, "ListingNotOpen"); (92, "ListingNotSeller"); (93, "InsufficientListingBalance");
   (94, "TooManyListings"); (95, "ListingPriceMismatch"); (96, "InvoiceNotCancelled");
   (97, "GovernanceNotConfigured"); (98, "ReentrantCall")].

Definition referral_errors : list (Z * string) :=
  [(0, "AlreadyInitialized"); (1, "Unauthorized"); (2, "AlreadyRegistered"); (3, "SelfReferral");
   (4, "InvalidBps"); (5, "ContractPaused"); (6, "AccessControlNotConfigured"); (7, "InvalidRewardCap");
   (8, "RewardOverflow"); (9, "ReferralCycle"); (10, "InvalidActivityKind"); (11, "NotInitialized")].

Definition secondary_market_errors : list (Z * string) :=
  [(0, "AlreadyInitialized"); (1, "NotInitialized"); (2, "Unauthorized"); (3, "ContractPaused");
   (4, "ZeroAmount"); (5, "InvalidAmount"); (6, "ListingNotFound"); (7, "ListingNotOpen");
   (8, "ListingNotSeller"); (9, "TooManyListings"); (10, "SettlementFailed"); (11, "OrderNotFound");
   (12, "OrderNotOpen"); (13, "OrderNotOwner"); (14, "TooManyOrders"); (15, "InvalidExpiry");
   (16, "Reentrancy")].

Definition share_errors : list (Z * string) :=
  [(1, "ContractPaused"); (2, "AlreadyInitialized"); (3, "NotInitialized"); (4, "Unauthorized");
   (5, "InvalidDecimals"); (6, "InvalidAmount"); (7, "InsufficientBalance"); (8, "AllowanceExceeded");
   (9, "AllowanceOverflow"); (10, "AllowanceUnderflow"); (11, "TotalSupplyOverflow");
   (12, "TotalSupplyUnderflow")].

Definition tranche_errors : list (Z * string) :=
  [(1, "AlreadyInitialized"); (2, "Unauthorized"); (3, "PoolNotFound"); (4, "InvalidAmount");
   (5, "InsufficientBalance"); (6, "AdvanceRateExceeded"); (11, "ReentrancyDetected");
   (12, "NotInitialized"); (13, "ExposureNotFound"); (14, "InvalidShareTokens"); (15, "ContractPaused")].

(** ** The clients' tables; the two others are in Sdk.v *)

Definition ArbitrationErrors : list (Z * string) :=
  [(0, "AlreadyInitialized"); (1, "NotInitialized"); (2, "Unauthorized"); (3, "ContractPaused");
   (4, "InvalidAmount"); (5, "InsufficientStake"); (6, "AlreadyRegistered"); (7, "NotRegistered");
   (8, "DeregisterHasPendingCases"); (9, "DeregisterCooldownActive"); (10, "InvalidConfig");
   (11, "InvoiceContractNotSet"); (12, "InvoiceCallFailed"); (13, "CaseNotFound");
   (14, "InvalidCaseStatus"); (15, "WindowNotClosed"); (16, "WindowClosed"); (17, "InvalidParty");
   (18, "NotEnoughActiveJurors"); (19, "NotSelectedJuror"); (20, "AlreadyCommitted");
   (21, "NotCommitted"); (22, "AlreadyRevealed"); (23, "RevealMismatch"); (24, "RetriesNotExhausted");
   (25, "CaseNotEscalated"); (26, "RetriesExhausted")].

Definition AuctionErrors : list (Z * string) :=
  [(0, "AlreadyInitialized"); (1, "NotInitialized"); (2, "Unauthorized"); (3, "RoundNotFound");
   (4, "RoundNotOpen"); (5, "RoundAlreadySettled"); (6, "BidWindowExpired"); (7, "InvoiceNotVerified");
   (8, "InvoiceAlreadyBid"); (9, "DiscountTooHigh"); (10, "NoBids"); (11, "InsufficientLiquidity");
   (12, "AllocationOverflow"); (13, "RoundNotClearing"); (14, "PoolCallFailed");
   (15, "InvalidSaleParams"); (16, "SaleNotFound"); (17, "SaleNotOpen"); (18, "SaleExpired");
   (19, "SaleNotExpired"); (20, "DepositNotFound"); (21, "InvoiceNotFound");
   (22, "CollateralAlreadySettled"); (23, "OraclePriceUnavailable"); (24, "NotAtRisk");
   (25, "GracePeriodNotElapsed"); (26, "InvalidRiskConfig"); (27, "AmountOverflow")].

Definition GovernanceErrors : list (Z * string) :=
  [(1, "Governance contract not initialized"); (2, "Proposal not found"); (3, "Proposal is not active");
   (4, "Already voted on this proposal"); (5, "Insufficient share balance");
   (6, "Voting period is still active"); (7, "Timelock is still active"); (8, "Quorum not met");
   (9, "Invalid proposal state"); (10, "Unauthorized"); (11, "Governance not configured")].

Definition InsuranceErrors : list (Z * string) :=
  [(0, "AlreadyInitialized"); (1, "NotInitialized"); (2, "Unauthorized"); (3, "ContractPaused");
   (4, "InvalidAmount"); (5, "InvalidCoverageBps"); (6, "InvalidPremiumConfig");
   (7, "InvalidMinCoverageRatio"); (8, "CoverageRatioFloorBreached"); (9, "AlreadyCovered");
   (10, "NoCoverageFound"); (11, "InvoiceNotDefaulted"); (12, "NoShortfall"); (13, "AlreadyClaimed");
   (14, "AmountOverflow"); (15, "FundedInvoiceNotFound"); (16, "PoolCallFailed");
   (17, "InsufficientReserves")].

Definition PoolErrors : list (Z * string) :=
  [(0, "AlreadyInitialized"); (1, "NotInitialized"); (2, "TokenNotAccepted");
   (3, "TokenAlreadyAccepted"); (4, "TokenNotWhitelisted"); (5, "InvoiceNotFound");
   (6, "AlreadyFullyRepaid"); (7, "Overpayment"); (8, "InvalidAmount"); (9, "Unauthorized");
   (10, "StorageCorrupted"); (11, "ShareTokenNotConfigured"); (12, "ContractPaused");
   (13, "CollateralNotFound"); (14, "CollateralAlreadySettled"); (15, "DepositBelowMinimum");
   (16, "InsufficientRevenue"); (17, "TreasuryNotConfigured"); (18, "WithdrawalExceedsLimit");
   (19, "WithdrawalCooldownActive"); (20, "InsufficientCoFundShare"); (21, "WithdrawalRequestNotFound");
   (22, "AlreadyQueuedForWithdrawal"); (23, "InvalidRequestId"); (24, "InvalidFeeTier");
   (25, "FeeTierNotFound"); (26, "InsufficientLiquidity"); (27, "TokenHasActiveBalances");
   (28, "TokenHasDeployedCapital"); (29, "TokenHasPendingWithdrawals");
   (30, "ConcentrationLimitExceeded"); (31, "YieldProposalNotFound"); (32, "YieldChangeNotReady");
   (33, "UtilizationLimitExceeded"); (34, "AmountOverflow"); (35, "BatchTooLarge");
   (36, "UnsupportedTokenDecimals"); (37, "ZeroAmount"); (38, "NegativeAmount");
   (39, "TransferMismatch"); (40, "KycNotApproved"); (41, "InvalidThreshold"); (42, "NotDefaulted");
   (43, "InvoicePoolMismatch"); (44, "InvalidShareToken"); (45, "DuplicateInvoiceId");
   (46, "InvalidCollateralThreshold"); (47, "InvalidCollateralBps"); (48, "KycNotRequested");
   (49, "KycRejected"); (50, "UpgradeTimelockNotExpired"); (51, "InvalidUpgradeTimelock");
   (52, "InvalidWasmHash"); (53, "InsufficientPoolFunds"); (54, "AdminChangePending");
   (55, "AdminChangeTimelockNotExpired"); (56, "NoAdminChangeProposed"); (57, "TimestampInPast");
   (58, "InvoiceExpired"); (59, "OperationRequiresProposal"); (60, "ProposalNotFound");
   (61, "ProposalNotReady"); (62, "ProposalAlreadyExecuted"); (63, "ProposalAlreadyCancelled");
   (64, "InvalidOperationDelay"); (65, "TokenHasActiveCofundingCommitments");
   (66, "CoFundingRoundNotFound"); (67, "CoFundingRoundAlreadyExists"); (68, "CoFundingRoundNotOpen");
   (69, "CoFundingRoundAlreadyFinalized"); (70, "CoFundingDeadlinePassed");
   (71, "CoFundingDeadlineNotPassed"); (72, "CoFundingBelowMinimum");
   (73, "CoFundingInvestorCapExceeded"); (74, "CoFundingNoCommitment"); (75, "CoFundingRoundNotFilled");
   (76, "CoFundingTooManyParticipants"); (77, "InvalidCoFundingParams"); (78, "WithdrawalQueueFull");
   (79, "InvalidRateModelConfig"); (80, "RateModelNotConfigured"); (81, "RateModelProposalNotFound");
   (82, "RateModelChangeNotReady")].

Definition ReferralErrors : list (Z * string) :=
  [(0, "AlreadyInitialized"); (1, "Unauthorized"); (2, "AlreadyRegistered"); (3, "SelfReferral");
   (4, "InvalidBps"); (5, "ContractPaused"); (6, "AccessControlNotConfigured")].

Definition SecondaryMarketErrors : list (Z * string) :=
  [(0, "AlreadyInitialized"); (1, "NotInitialized"); (2, "Unauthorized"); (3, "ContractPaused");
   (4, "ZeroAmount"); (5, "InvalidAmount"); (6, "ListingNotFound"); (7, "ListingNotOpen");
   (8, "ListingNotSeller"); (9, "TooManyListings"); (10, "SettlementFailed"); (11, "OrderNotFound");
   (12, "OrderNotOpen"); (13, "OrderNotOwner"); (14, "TooManyOrders"); (15, "InvalidExpiry")].

Definition ShareErrors : list (Z * string) :=
  [(1, "ContractPaused"); (2, "AlreadyInitialized"); (3, "NotInitialized"); (4, "Unauthorized");
   (5, "InvalidDecimals"); (6, "InvalidAmount"); (7, "InsufficientBalance"); (8, "AllowanceExceeded");
   (9, "AllowanceOverflow"); (10, "AllowanceUnderflow"); (11, "TotalSupplyOverflow");
   (12, "TotalSupplyUnderflow")].

(** generated/tranche.ts has a table that its client leaves unused. *)
Definition TrancheErrors : list (Z * string) :=
  [(0, "AlreadyInitialized"); (1, "Unauthorized"); (2, "PoolNotFound"); (3, "InvalidAmount");
   (4, "InsufficientBalance"); (5, "AdvanceRateExceeded"); (10, "ReentrancyDetected")].

Definition contract_errors (c : Contract) : list (Z * string) :=
  match c with
  | AccessControl => access_control_errors
  | Arbitration => arbitration_errors
  | Auction => auction_errors
  | Compliance => compliance_errors
  | CreditScore => credit_score_errors
  | Governance => governance_errors
  | Insurance => insurance_errors
  | Invoice => invoice_errors
  | OracleRegistry => oracle_registry_errors
  | Pool => pool_errors
  | Referral => referral_errors
  | SecondaryMarket => secondary_market_errors
  | Share => share_errors
  | Tranche => tranche_errors
  end.

Definition client_errors (c : Contract) : list (Z * string) :=
  match c with
  | Arbitration => ArbitrationErrors
  | Auction => AuctionErrors
  | Governance => GovernanceErrors
  | Insurance => InsuranceErrors
  | Invoice => InvoiceErrors
  | OracleRegistry => OracleRegistryErrors
  | Pool => PoolErrors
  | Referral => ReferralErrors
  | SecondaryMarket => SecondaryMarketErrors
  | Share => ShareErrors
  | _ => []
  end.

(** The text of a simulation that failed with a contract's code. *)
Definition host_error (code : Z) : string := "HostError: Error(Contract, #" +:+ pretty code +:+ ")".

(** A table names a code as [name]. *)
Definition named (table : list (Z * string)) (code : Z) (name : string) : Prop :=
  parseContractError (host_error code) table =
  {| ce_message := name +:+ " (contract error #" +:+ pretty code +:+ ")"; ce_code := Some code;
     ce_variant := Some name; ce_raw := host_error code |}.

(** The codes a table names otherwise than the contract, or does not name. *)
Definition misnamed (c : Contract) : list Z :=
  map fst (filter (λ e, lookup_code (client_errors c) e.1 ≠ Some e.2) (contract_errors c)).
Definition parsed_eqb (x y : ContractError) : bool :=
  String.eqb (ce_message x) (ce_message y) && bool_decide (ce_code x = ce_code y)
  && bool_decide (ce_variant x = ce_variant y) && String.eqb (ce_raw x) (ce_raw y).

Lemma parsed_eqb_eq x y : parsed_eqb x y = true → x = y.
Proof.
  destruct x, y. unfold parsed_eqb. cbn. rewrite !andb_true_iff, !String.eqb_eq, !bool_decide_eq_true.
  by intros [[[-> ->] ->] ->].
Qed.

Definition named_b (table : list (Z * string)) (code : Z) (name : string) : bool :=
  parsed_eqb (parseContractError (host_error code) table)
    {| ce_message := name +:+ " (contract error #" +:+ pretty code +:+ ")"; ce_code := Some code;
       ce_variant := Some name; ce_raw := host_error code |}.

Lemma named_all table :
  forallb (λ e, named_b table e.1 e.2) table = true → ∀ code name, In (code, name) table → named table code name.
Proof.
  intros H code name Hi. rewrite forallb_forall in H. by apply parsed_eqb_eq, (H (code, name)).
Qed.

(** Every code of a client's table is given its name. *)
Lemma client_errors_named c code name : In (code, name) (client_errors c) → named (client_errors c) code name.
Proof. apply named_all. destruct c; vm_compute; reflexivity. Qed.

Lemma not_misnamed c code name :
  In (code, name) (contract_errors c) → ¬ In code (misnamed c) → lookup_code (client_errors c) code = Some name.
Proof.
  intros Hi Hm. destruct (decide (lookup_code (client_errors c) code = Some name)) as [|Hn]; [done|].
  destruct Hm. apply in_map_iff. exists (code, name). split; [done|].
  apply list_elem_of_In, list_elem_of_filter. split; [done|by apply list_elem_of_In].
Qed.

Lemma lookup_code_In table code name : lookup_code table code = Some name → In (code, name) table.
Proof.
  induction table as [|[c m] table IH]; [done|]. cbn [lookup_code]. destruct (Z.eqb_spec c code) as [->|].
  - intros [= ->]. by left.
  - intros H. right. by apply IH.
Qed.
