(* ===== verification/SdkMarkets.v ===== *)
(** * packages/sdk/src/clients: shares, tranches, the secondary market and arbitration, a Module each *)
From S2P Require Import Prelude.
From S2P Require Import JsValue.
From S2P Require Import JsNumber.
From S2P Require Import Sdk.
From S2P Require Import Abi.
From S2P Require Import ContractAbi.
From Stdlib Require Import Ascii.
#[local] Open Scope string_scope.
#[local] Open Scope list_scope.
#[local] Open Scope Z_scope.

(** ** clients/share.ts: the share token

    Balances, allowances and transfers of a SEP-41 token, its administration, and
    the checkpoint read that weighs votes. The requests of [metadata], which
    [Promise.all] starts together, are in the order they start. *)
Module ShareClient.
Definition toBigInt (value : jsval) : result Z := if nullish value then Ok 0 else to_BigInt value.

Lemma reads_toBigInt v : native TI128 v = true → toBigInt v = Ok (int_of v).
Proof. intros Hn. by destruct (native_integer TI128 v eq_refl Hn) as [-> | ->]. Qed.
#[export] Hint Resolve reads_toBigInt : reads.

(** ** ShareClient *)

Section client.
Context {W : Type} (C : Client W).

Definition balance (id : string) : M W Z :=
  query C "balance" [ArgAddress id] toBigInt.

Definition balanceAt (id : string) (timestamp : Z) : M W Z :=
  query C "balance_at" [ArgAddress id; ArgU64 timestamp] toBigInt.

Definition totalSupply : M W Z :=
  query C "total_supply" [] toBigInt.

Definition allowance (owner spender : string) : M W Z :=
  query C "allowance" [ArgAddress owner; ArgAddress spender] toBigInt.

Definition getAllowanceExpiration (owner spender : string) : M W number :=
  query C "get_allowance_expiration" [ArgAddress owner; ArgAddress spender] as_number_or_0.

Definition decimals : M W number :=
  query C "decimals" [] as_number_or_0.

Definition name : M W string :=
  query C "name" [] as_string_or_empty.

Definition symbol : M W string :=
  query C "symbol" [] as_string_or_empty.

Definition metadata : M W (string * string * number) :=
  name ← name; symbol ← symbol; decimals ← decimals; mret (name, symbol, decimals).

Definition isPaused : M W bool :=
  query C "is_paused" [] as_boolean.

Definition admin : M W string :=
  query C "admin" [] as_string.

Definition transfer (from to : string) (amount : Z) : M W string :=
  send C from "transfer" [ArgAddress from; ArgAddress to; ArgI128 amount].

Definition transferFrom (spender from to : string) (amount : Z) : M W string :=
  send C spender "transfer_from" [ArgAddress spender; ArgAddress from; ArgAddress to; ArgI128 amount].

Definition approve (owner spender : string) (amount expirationLedger : Z) : M W string :=
  send C owner "approve" [ArgAddress owner; ArgAddress spender; ArgI128 amount; ArgU32 expirationLedger].

Definition increaseAllowance (owner spender : string) (amount : Z) : M W string :=
  send C owner "increase_allowance" [ArgAddress owner; ArgAddress spender; ArgI128 amount].

Definition decreaseAllowance (owner spender : string) (amount : Z) : M W string :=
  send C owner "decrease_allowance" [ArgAddress owner; ArgAddress spender; ArgI128 amount].

Definition burn (from : string) (amount : Z) : M W string :=
  send C from "burn" [ArgAddress from; ArgI128 amount].

Definition burnFrom (spender from : string) (amount : Z) : M W string :=
  send C spender "burn_from" [ArgAddress spender; ArgAddress from; ArgI128 amount].

Definition initialize (admin : string) (decimals : Z) (name symbol : string) : M W string :=
  send C admin "initialize"
    [ArgAddress admin; ArgU32 decimals; ArgString (JStr name); ArgString (JStr symbol)].

Definition mint (admin to : string) (amount : Z) : M W string :=
  send C admin "mint" [ArgAddress to; ArgI128 amount].

Definition pause (admin : string) : M W string :=
  send C admin "pause" [ArgAddress admin].

Definition unpause (admin : string) : M W string :=
  send C admin "unpause" [ArgAddress admin].

Definition setAdmin (admin newAdmin : string) : M W string :=
  send C admin "set_admin" [ArgAddress newAdmin].

End client.

(** ** The operations *)

(** Those that make calls of the contract. *)
Inductive calls_made {W : Type} : ∀ {A : Type}, (Client W → M W A) → Prop :=
| call_balance : ∀ (id : string), calls_made (λ C, balance C id)
| call_balanceAt : ∀ (id : string) (timestamp : Z), calls_made (λ C, balanceAt C id timestamp)
| call_totalSupply : calls_made (λ C, totalSupply C)
| call_allowance : ∀ (owner spender : string), calls_made (λ C, allowance C owner spender)
| call_getAllowanceExpiration : ∀ (owner spender : string),
    calls_made (λ C, getAllowanceExpiration C owner spender)
| call_decimals : calls_made (λ C, decimals C)
| call_name : calls_made (λ C, name C)
| call_symbol : calls_made (λ C, symbol C)
| call_metadata : calls_made (λ C, metadata C)
| call_isPaused : calls_made (λ C, isPaused C)
| call_admin : calls_made (λ C, admin C)
| call_transfer : ∀ (from to : string) (amount : Z), calls_made (λ C, transfer C from to amount)
| call_transferFrom : ∀ (spender from to : string) (amount : Z),
    calls_made (λ C, transferFrom C spender from to amount)
| call_approve : ∀ (owner spender : string) (amount expirationLedger : Z),
    calls_made (λ C, approve C owner spender amount expirationLedger)
| call_increaseAllowance : ∀ (owner spender : string) (amount : Z),
    calls_made (λ C, increaseAllowance C owner spender amount)
| call_decreaseAllowance : ∀ (owner spender : string) (amount : Z),
    calls_made (λ C, decreaseAllowance C owner spender amount)
| call_burn : ∀ (from : string) (amount : Z), calls_made (λ C, burn C from amount)
| call_burnFrom : ∀ (spender from : string) (amount : Z), calls_made (λ C, burnFrom C spender from amount)
| call_initialize : ∀ (admin : string) (decimals : Z) (name symbol : string),
    calls_made (λ C, initialize C admin decimals name symbol)
| call_mint : ∀ (admin to : string) (amount : Z), calls_made (λ C, mint C admin to amount)
| call_pause : ∀ (admin : string), calls_made (λ C, pause C admin)
| call_unpause : ∀ (admin : string), calls_made (λ C, unpause C admin)
| call_setAdmin : ∀ (admin newAdmin : string), calls_made (λ C, setAdmin C admin newAdmin).

(** The readers, with what they make of an answer. *)
Inductive answers_read {W : Type} : ∀ {A : Type}, (Client W → M W A) → (jsval → A) → Prop :=
| read_balance : ∀ (id : string), answers_read (λ C, balance C id) int_of
| read_balanceAt : ∀ (id : string) (timestamp : Z), answers_read (λ C, balanceAt C id timestamp) int_of
| read_totalSupply : answers_read (λ C, totalSupply C) int_of
| read_allowance : ∀ (owner spender : string), answers_read (λ C, allowance C owner spender) int_of
| read_getAllowanceExpiration : ∀ (owner spender : string),
    answers_read (λ C, getAllowanceExpiration C owner spender) (λ v, num_of_Z (int_of v))
| read_decimals : answers_read (λ C, decimals C) (λ v, num_of_Z (int_of v))
| read_name : answers_read (λ C, name C) js_String
| read_symbol : answers_read (λ C, symbol C) js_String
| read_isPaused : answers_read (λ C, isPaused C) truthy
| read_admin : answers_read (λ C, admin C) js_String.

(** ** They keep to the interface *)

Lemma share_calls_conform {W A} (op : Client W → M W A) :
  calls_made op → conforming (abi_of Share) op.
Proof. destruct 1; by calls. Qed.

Lemma share_answers_decoded {W A} (op : Client W → M W A) mean :
  answers_read op mean → answered (abi_of Share) op mean.
Proof. destruct 1; by answers. Qed.
End ShareClient.

(** ** clients/tranche.ts: the tranches

    [getLifetimeReturnBps], [getInvoiceExposure] and [simulateWaterfall] call entry
    points that the contract's source, which breaks off in the middle of a
    function, does not have; they are modelled, and no statement is made about
    them. *)
Module TrancheClient.
Inductive TrancheClass := TrancheClass_Senior | TrancheClass_Junior.
Definition TrancheClass_name (v : TrancheClass) : string :=
  match v with TrancheClass_Senior => "Senior" | TrancheClass_Junior => "Junior" end.

Definition trancheClassToScVal (tc : TrancheClass) : ScArg :=
  ArgVec [ArgSymbol (match tc with TrancheClass_Senior => "Senior" | _ => "Junior" end)].

Lemma trancheClassToScVal_accepted v : accepts Tranche_TrancheClass (trancheClassToScVal v) = true.
Proof. by destruct v. Qed.
#[export] Hint Resolve trancheClassToScVal_accepted : accepts.

Definition accountingFromRaw : list Field :=
  [field "deposited" KBig "deposited"; field "available" KBig "available";
   field "deployed" KBig "deployed"; field "earned" KBig "earned"; field "losses" KBig "losses"].

Record TranchePool := {
  tp_senior : list (string * value); tp_junior : list (string * value); tp_config : jsval
}.

Definition poolFromRaw (raw : jsval) : result TranchePool :=
  senior ← get_prop raw "senior"; senior ← decode accountingFromRaw senior;
  junior ← get_prop raw "junior"; junior ← decode accountingFromRaw junior;
  config ← get_prop raw "config";
  Ok {| tp_senior := senior; tp_junior := junior; tp_config := config |}.

(** [const [seniorAmount, juniorAmount] = raw], with the two constants. *)
Definition waterfallFromRaw (raw : jsval) : result (Z * Z * Z * Z) :=
  match raw with
  | JArr l =>
      senior_amount ← as_bigint (arr_get l 0);
      junior_amount ← as_bigint (arr_get l 1);
      Ok (senior_amount, junior_amount, 0, 0)
  | _ => Throw (ETypeError (js_String raw +:+ " is not iterable"))
  end.

Definition pool_of (v : jsval) : TranchePool := {|
  tp_senior := decoded accountingFromRaw (get_prop_opt v "senior");
  tp_junior := decoded accountingFromRaw (get_prop_opt v "junior");
  tp_config := get_prop_opt v "config" |}.

Lemma reads_poolFromRaw v : native Tranche_TranchePool v = true → poolFromRaw v = Ok (pool_of v).
Proof.
  intros Hn. destruct (native_struct _ _ Hn) as [o ->]. unfold poolFromRaw, pool_of. cbn [get_prop mbind result_bind].
  rewrite (decode_native accountingFromRaw Tranche_TrancheAccounting (obj_get o "senior"))
    by (done || by eapply native_lookup).
  cbn [mbind result_bind].
  by rewrite (decode_native accountingFromRaw Tranche_TrancheAccounting (obj_get o "junior"))
    by (done || by eapply native_lookup).
Qed.
#[export] Hint Resolve reads_poolFromRaw : reads.

(** ** TrancheClient *)

Section client.
Context {W : Type} (C : Client W).

Definition getPool (token : string) : M W TranchePool :=
  query C "get_pool" [ArgAddress token] poolFromRaw.

Definition getTrancheConfig_fields : list Field :=
  [field "senior_target_yield_bps" KNum "senior_target_yield_bps";
   field "senior_advance_rate_bps" KNum "senior_advance_rate_bps";
   field "junior_first_loss_bps" KNum "junior_first_loss_bps"].

Definition getTrancheConfig (token : string) : M W (list (string * value)) :=
  query C "get_config" [ArgAddress token] (decode getTrancheConfig_fields).

Definition getInvestorPosition_fields : list Field :=
  [field "deposited" KBigOr0 "deposited"; field "shares" KBigOr0 "shares";
   field "earned" KBigOr0 "earned"; field "losses" KBigOr0 "losses"].

Definition getInvestorPosition (investor token : string) (trancheClass : TrancheClass)
    : M W (list (string * value)) :=
  query C "get_position"
    [ArgAddress investor; ArgAddress token; trancheClassToScVal trancheClass]
    (decode getInvestorPosition_fields).

Definition getTotals (token : string) (trancheClass : TrancheClass) : M W (list (string * value)) :=
  query C "get_totals" [ArgAddress token; trancheClassToScVal trancheClass] (decode accountingFromRaw).

Definition getLifetimeReturnBps (token : string) (trancheClass : TrancheClass) : M W number :=
  query C "get_lifetime_return_bps" [ArgAddress token; trancheClassToScVal trancheClass] as_number.

Definition getInvoiceExposure_fields : list Field :=
  [field "invoice_id" KNum "invoice_id"; field "senior_principal" KBig "senior_deployed";
   field "junior_principal" KBig "junior_deployed"; field "senior_repaid" KBigOr0 "senior_repaid";
   field "junior_repaid" KBigOr0 "junior_repaid"; field "senior_loss" KBigOr0 "senior_loss";
   field "junior_loss" KBigOr0 "junior_loss"].

Definition getInvoiceExposure (invoiceId : Z) : M W (option (list (string * value))) :=
  query C "get_invoice_exposure" [ArgU64 invoiceId] (decode_opt getInvoiceExposure_fields).

Definition simulateWaterfall (token : string) (invoiceId hypotheticalRepayment elapsedSecs : Z) : M W (Z * Z * Z * Z) :=
  query C "simulate_waterfall"
    [ArgAddress token; ArgU64 invoiceId; ArgI128 hypotheticalRepayment; ArgU64 elapsedSecs]
    waterfallFromRaw.

Definition deposit (investor token : string) (trancheClass : TrancheClass) (amount : Z) : M W string :=
  send C investor "deposit_tranche"
    [ArgAddress investor; ArgAddress token; trancheClassToScVal trancheClass; ArgI128 amount].

Definition withdraw (investor token : string) (trancheClass : TrancheClass) (amount : Z) : M W string :=
  send C investor "withdraw_tranche"
    [ArgAddress investor; ArgAddress token; trancheClassToScVal trancheClass; ArgI128 amount].

Definition setTrancheConfig (admin token : string)
    (seniorTargetYieldBps seniorAdvanceRateBps juniorFirstLossBps : Z) : M W string :=
  send C admin "set_tranche_config"
    [ArgAddress admin; ArgAddress token; ArgU32 seniorTargetYieldBps; ArgU32 seniorAdvanceRateBps;
     ArgU32 juniorFirstLossBps].

End client.

(** ** The operations *)

(** Those that make calls of the contract. *)
Inductive calls_made {W : Type} : ∀ {A : Type}, (Client W → M W A) → Prop :=
| call_getPool : ∀ (token : string), calls_made (λ C, getPool C token)
| call_getTrancheConfig : ∀ (token : string), calls_made (λ C, getTrancheConfig C token)
| call_getInvestorPosition : ∀ (investor token : string) (trancheClass : TrancheClass),
    calls_made (λ C, getInvestorPosition C investor token trancheClass)
| call_getTotals : ∀ (token : string) (trancheClass : TrancheClass),
    calls_made (λ C, getTotals C token trancheClass)
| call_deposit : ∀ (investor token : string) (trancheClass : TrancheClass) (amount : Z),
    calls_made (λ C, deposit C investor token trancheClass amount)
| call_withdraw : ∀ (investor token : string) (trancheClass : TrancheClass) (amount : Z),
    calls_made (λ C, withdraw C investor token trancheClass amount)
| call_setTrancheConfig : ∀ (admin token : string) (seniorTargetYieldBps seniorAdvanceRateBps juniorFirstLossBps : Z),
    calls_made (λ C, setTrancheConfig C admin token seniorTargetYieldBps seniorAdvanceRateBps juniorFirstLossBps).

(** The readers, with what they make of an answer. *)
Inductive answers_read {W : Type} : ∀ {A : Type}, (Client W → M W A) → (jsval → A) → Prop :=
| read_getPool : ∀ (token : string), answers_read (λ C, getPool C token) pool_of
| read_getTrancheConfig : ∀ (token : string),
    answers_read (λ C, getTrancheConfig C token) (decoded getTrancheConfig_fields)
| read_getTotals : ∀ (token : string) (trancheClass : TrancheClass),
    answers_read (λ C, getTotals C token trancheClass) (decoded accountingFromRaw).

(** ** They keep to the interface *)

Lemma tranche_calls_conform {W A} (op : Client W → M W A) :
  calls_made op → conforming (abi_of Tranche) op.
Proof. destruct 1; by calls. Qed.

Lemma tranche_answers_decoded {W A} (op : Client W → M W A) mean :
  answers_read op mean → answered (abi_of Tranche) op mean.
Proof. destruct 1; by answers. Qed.

(** [get_position] answers with nothing for an address that never deposited, of
    which [getInvestorPosition] reads a property. *)
Lemma getInvestorPosition_stranger {W} (C : Client W) investor token tc w w' :
  read C "get_position" [ArgAddress investor; ArgAddress token; trancheClassToScVal tc] w = (Ok JNull, w') →
  ∃ e, getInvestorPosition C investor token tc w = (Throw e, w').
Proof. intros E. unfold getInvestorPosition, query, mbind, M_bind. rewrite E. cbn. eauto. Qed.
End TrancheClient.

(** ** clients/secondary_market.ts: the secondary market *)
Module SecondaryMarketClient.
Inductive ListingKind := ListingKind_CoFunding | ListingKind_SingleFunded.
Definition ListingKind_name (v : ListingKind) : string :=
  match v with ListingKind_CoFunding => "CoFunding" | ListingKind_SingleFunded => "SingleFunded" end.
Inductive OrderSide := OrderSide_Bid | OrderSide_Ask.
Definition OrderSide_name (v : OrderSide) : string :=
  match v with OrderSide_Bid => "Bid" | OrderSide_Ask => "Ask" end.

Definition listingFromRaw : list Field :=
  [field "listingId" KBig "listing_id"; field "invoiceId" KBig "invoice_id";
   field "seller" KRaw "seller"; field "token" KRaw "token"; field "kind" KTag "kind";
   field "amountOrBps" KBig "amount_or_bps"; field "price" KBig "price";
   field "createdAt" KNum "created_at"; field "status" KTag "status"].
Definition listingKindToScVal (kind : ListingKind) : ScArg := ArgVec [ArgSymbol (ListingKind_name kind)].
Definition orderSideToScVal (side : OrderSide) : ScArg := ArgVec [ArgSymbol (OrderSide_name side)].
Definition orderFromRaw : list Field :=
  [field "orderId" KBig "order_id"; field "invoiceId" KBig "invoice_id"; field "owner" KRaw "owner";
   field "token" KRaw "token"; field "kind" KTag "kind"; field "side" KTag "side";
   field "price" KBig "price"; field "amountOrBps" KBig "amount_or_bps";
   field "remaining" KBig "remaining"; field "createdAt" KNum "created_at";
   field "expiresAt" KNum "expires_at"; field "status" KTag "status"].

Definition placeOrderRequestToScVal (invoiceId : Z) (kind : ListingKind) (side : OrderSide)
    (amountOrBps price : Z) (expiresAt : option Z) : ScArg :=
  ArgMap [("amount_or_bps", ArgU64 amountOrBps); ("expires_at", ArgU64 (default 0 expiresAt));
          ("invoice_id", ArgU64 invoiceId); ("kind", listingKindToScVal kind);
          ("price", ArgI128 price); ("side", orderSideToScVal side)].

Lemma listingKindToScVal_accepted v : accepts SecondaryMarket_ListingKind (listingKindToScVal v) = true.
Proof. by destruct v. Qed.
#[export] Hint Resolve listingKindToScVal_accepted : accepts.

Lemma placeOrderRequestToScVal_accepted invoiceId kind side amountOrBps price expiresAt :
  accepts SecondaryMarket_PlaceOrderRequest
    (placeOrderRequestToScVal invoiceId kind side amountOrBps price expiresAt) = true.
Proof. by destruct kind, side. Qed.
#[export] Hint Resolve placeOrderRequestToScVal_accepted : accepts.

(** A level of a book, and [[bids, asks]] with [(bids ?? []).map(levelFromRaw)]. *)
Definition levelFromRaw : list Field :=
  [field "orderId" KBig "order_id"; field "price" KBig "price"; field "quantity" KBig "quantity"].

Definition decode_book (raw : jsval) : result (list (list (string * value)) * list (list (string * value))) :=
  match raw with
  | JArr l =>
      bids ← decode_all levelFromRaw (arr_get l 0);
      asks ← decode_all levelFromRaw (arr_get l 1);
      Ok (bids, asks)
  | _ => Throw (ETypeError (js_String raw +:+ " is not iterable"))
  end.

Lemma reads_decode_book v :
  native (TTuple [TVec SecondaryMarket_OrderBookLevel; TVec SecondaryMarket_OrderBookLevel]) v = true →
  decode_book v = Ok (decoded_all levelFromRaw (arr_get (elements_of v) 0),
                      decoded_all levelFromRaw (arr_get (elements_of v) 1)).
Proof.
  destruct v as [| | | | | |[|bids [|asks []]]|]; try done; try (cbn; rewrite ?andb_false_r; done).
  intros [Hb [Ha _]%andb_prop]%andb_prop. unfold decode_book.
  change (elements_of (JArr [bids; asks])) with [bids; asks]. cbn [arr_get].
  rewrite (reads_decode_all SecondaryMarket_OrderBookLevel levelFromRaw) by done. cbn [mbind result_bind].
  by rewrite (reads_decode_all SecondaryMarket_OrderBookLevel levelFromRaw).
Qed.
#[export] Hint Resolve reads_decode_book : reads.

(** ** SecondaryMarketClient *)

Section client.
Context {W : Type} (C : Client W).

Definition listPosition (seller : string) (invoiceId : Z) (kind : ListingKind) (amountOrBps price : Z)
    : M W string :=
  send C seller "list_position"
    [ArgAddress seller; ArgU64 invoiceId; listingKindToScVal kind; ArgU64 amountOrBps; ArgI128 price].

Definition cancelListing (seller : string) (listingId : Z) : M W string :=
  send C seller "cancel_listing" [ArgAddress seller; ArgU64 listingId].

Definition buyListing (buyer : string) (listingId : Z) : M W string :=
  send C buyer "buy_listing" [ArgAddress buyer; ArgU64 listingId].

Definition getListing (listingId : Z) : M W (option (list (string * value))) :=
  query C "get_listing" [ArgU64 listingId] (decode_opt listingFromRaw).

Definition listListingsForInvoice (invoiceId : Z) : M W (list Z) :=
  query C "list_listings_for_invoice" [ArgU64 invoiceId] bigints.

Definition listListingsForInvestor (seller : string) : M W (list Z) :=
  query C "list_listings_for_investor" [ArgAddress seller] bigints.

Definition placeOrder (owner : string) (invoiceId : Z) (kind : ListingKind) (side : OrderSide)
    (amountOrBps price : Z) (expiresAt : option Z) : M W string :=
  send C owner "place_order"
    [ArgAddress owner; placeOrderRequestToScVal invoiceId kind side amountOrBps price expiresAt].

Definition cancelOrder (owner : string) (orderId : Z) : M W string :=
  send C owner "cancel_order" [ArgAddress owner; ArgU64 orderId].

Definition expireOrder (caller : string) (orderId : Z) : M W string :=
  send C caller "expire_order" [ArgU64 orderId].

Definition getOrder (orderId : Z) : M W (option (list (string * value))) :=
  query C "get_order" [ArgU64 orderId] (decode_opt orderFromRaw).

Definition getOrderBook (invoiceId : Z) (kind : ListingKind)
   : M W (list (list (string * value)) * list (list (string * value))) :=
  query C "get_order_book" [ArgU64 invoiceId; listingKindToScVal kind] decode_book.

Definition listOrdersForOwner (owner : string) : M W (list Z) :=
  query C "list_orders_for_owner" [ArgAddress owner] bigints.

Definition estimateWithdrawalWait_fields : list Field :=
  [field "queuePosition" KNum "queue_position"; field "capitalAhead" KBig "capital_ahead";
   field "nearestInvoiceDueDate" KNum "nearest_invoice_due_date";
   field "estimatedWaitSecs" KNum "estimated_wait_secs"].

Definition estimateWithdrawalWait (investor token : string) : M W (list (string * value)) :=
  query C "estimate_withdrawal_wait"
    [ArgAddress investor; ArgAddress token]
    (decode estimateWithdrawalWait_fields).

Definition getLiquidityForecast_fields : list Field :=
  [field "day" KNum "day"; field "projectedAvailable" KBig "projected_available"].

Definition getLiquidityForecast (token : string) (horizonDays : Z)
    : M W (list (list (string * value))) :=
  query C "get_liquidity_forecast"
    [ArgAddress token; ArgU32 horizonDays]
    (decode_array getLiquidityForecast_fields).

End client.

(** ** The operations *)

(** Those that make calls of the contract. *)
Inductive calls_made {W : Type} : ∀ {A : Type}, (Client W → M W A) → Prop :=
| call_listPosition : ∀ (seller : string) (invoiceId : Z) (kind : ListingKind) (amountOrBps price : Z),
    calls_made (λ C, listPosition C seller invoiceId kind amountOrBps price)
| call_cancelListing : ∀ (seller : string) (listingId : Z), calls_made (λ C, cancelListing C seller listingId)
| call_buyListing : ∀ (buyer : string) (listingId : Z), calls_made (λ C, buyListing C buyer listingId)
| call_getListing : ∀ (listingId : Z), calls_made (λ C, getListing C listingId)
| call_listListingsForInvoice : ∀ (invoiceId : Z), calls_made (λ C, listListingsForInvoice C invoiceId)
| call_listListingsForInvestor : ∀ (seller : string), calls_made (λ C, listListingsForInvestor C seller)
| call_placeOrder : ∀ (owner : string) (invoiceId : Z) (kind : ListingKind) (side : OrderSide) (amountOrBps price : Z) (expiresAt : option Z),
    calls_made (λ C, placeOrder C owner invoiceId kind side amountOrBps price expiresAt)
| call_cancelOrder : ∀ (owner : string) (orderId : Z), calls_made (λ C, cancelOrder C owner orderId)
| call_expireOrder : ∀ (caller : string) (orderId : Z), calls_made (λ C, expireOrder C caller orderId)
| call_getOrder : ∀ (orderId : Z), calls_made (λ C, getOrder C orderId)
| call_getOrderBook : ∀ (invoiceId : Z) (kind : ListingKind), calls_made (λ C, getOrderBook C invoiceId kind)
| call_listOrdersForOwner : ∀ (owner : string), calls_made (λ C, listOrdersForOwner C owner)
| call_estimateWithdrawalWait : ∀ (investor token : string),
    calls_made (λ C, estimateWithdrawalWait C investor token)
| call_getLiquidityForecast : ∀ (token : string) (horizonDays : Z),
    calls_made (λ C, getLiquidityForecast C token horizonDays).

(** The readers, with what they make of an answer. *)
Inductive answers_read {W : Type} : ∀ {A : Type}, (Client W → M W A) → (jsval → A) → Prop :=
| read_getListing : ∀ (listingId : Z), answers_read (λ C, getListing C listingId) (decoded_opt listingFromRaw)
| read_listListingsForInvoice : ∀ (invoiceId : Z),
    answers_read (λ C, listListingsForInvoice C invoiceId) (λ v, map int_of (elements_of v))
| read_listListingsForInvestor : ∀ (seller : string),
    answers_read (λ C, listListingsForInvestor C seller) (λ v, map int_of (elements_of v))
| read_getOrder : ∀ (orderId : Z), answers_read (λ C, getOrder C orderId) (decoded_opt orderFromRaw)
| read_getOrderBook : ∀ (invoiceId : Z) (kind : ListingKind),
    answers_read (λ C, getOrderBook C invoiceId kind)
      (λ v, (decoded_all levelFromRaw (arr_get (elements_of v) 0), decoded_all levelFromRaw (arr_get (elements_of v) 1)))
| read_listOrdersForOwner : ∀ (owner : string),
    answers_read (λ C, listOrdersForOwner C owner) (λ v, map int_of (elements_of v))
| read_estimateWithdrawalWait : ∀ (investor token : string),
    answers_read (λ C, estimateWithdrawalWait C investor token) (decoded estimateWithdrawalWait_fields)
| read_getLiquidityForecast : ∀ (token : string) (horizonDays : Z),
    answers_read (λ C, getLiquidityForecast C token horizonDays) (decoded_all getLiquidityForecast_fields).

(** ** They keep to the interface *)

Lemma secondary_market_calls_conform {W A} (op : Client W → M W A) :
  calls_made op → conforming (abi_of SecondaryMarket) op.
Proof. destruct 1; by calls. Qed.

Lemma secondary_market_answers_decoded {W A} (op : Client W → M W A) mean :
  answers_read op mean → answered (abi_of SecondaryMarket) op mean.
Proof. destruct 1; by answers. Qed.
End SecondaryMarketClient.

(** ** clients/arbitration.ts: disputes

    SHA-256, the source of random bytes and the hexadecimal form of a buffer are
    arguments of the definitions that use them. *)
Module ArbitrationClient.
Inductive DisputeResolution := DisputeResolution_Pending | DisputeResolution_InFavorOfSME | DisputeResolution_InFavorOfDebtor.
Definition DisputeResolution_name (v : DisputeResolution) : string :=
  match v with DisputeResolution_Pending => "Pending" | DisputeResolution_InFavorOfSME => "InFavorOfSME" | DisputeResolution_InFavorOfDebtor => "InFavorOfDebtor" end.

(** The preimage of a commitment: a byte of the vote, and the salt. *)
Definition computeCommitHash (sha256 : string → string) (vote : bool) (salt : string) : string :=
  sha256 (String (if vote then ascii_of_nat 1 else ascii_of_nat 0) salt).

(** [crypto.getRandomValues] fills an array of 32 bytes. *)
Definition generateSalt {W} (getRandomValues : nat → M W string) : M W string := getRandomValues 32%nat.

Definition decodeCase : list Field :=
  [field "id" KBig "id"; field "invoiceId" KBig "invoice_id"; field "claimant" KRaw "claimant";
   field "respondent" KRaw "respondent"; field "amount" KBig "amount";
   field "openedAt" KNum "opened_at"; field "evidenceDeadline" KNum "evidence_deadline";
   field "commitDeadline" KNum "commit_deadline"; field "revealDeadline" KNum "reveal_deadline";
   field "jurors" (KRawOr (JArr [])) "jurors"; field "status" KRaw "status";
   field "resolution" KRaw "resolution"; field "retryCount" KNum "retry_count"].

(** A vote: its commitment in hexadecimal and the vote revealed, each if present. *)
Definition vote_of (hex : jsval → string) (raw : jsval) : result (option (option string * option bool)) :=
  if truthy raw then
    commit_hash ← get_prop raw "commit_hash";
    revealed_vote ← get_prop raw "revealed_vote";
    Ok (Some (if truthy commit_hash then Some (hex commit_hash) else None,
              if nullish revealed_vote then None else Some (truthy revealed_vote)))
  else Ok None.

Lemma bytes_accepted n b : String.length b = n → accepts (TBytesN n) (ArgBytes b) = true.
Proof. intros H. by apply Nat.eqb_eq. Qed.
Lemma DisputeResolution_accepted v :
  accepts Arbitration_DisputeResolution (ArgVec [ArgSymbol (DisputeResolution_name v)]) = true.
Proof. by destruct v. Qed.
#[export] Hint Resolve bytes_accepted DisputeResolution_accepted : accepts.

(** ** ArbitrationClient *)

Section client.
Context {W : Type} (C : Client W).

Definition registerJuror (operator : string) (stakeAmount : Z) : M W string :=
  send C operator "register_juror" [ArgAddress operator; ArgI128 stakeAmount].

Definition deregisterJuror (operator : string) : M W string :=
  send C operator "deregister_juror" [ArgAddress operator].

Definition submitEvidence (caseId : Z) (submitter evidenceHash : string) : M W string :=
  send C submitter "submit_evidence" [ArgU64 caseId; ArgAddress submitter; ArgString (JStr evidenceHash)].

Definition selectJurors (caller : string) (caseId : Z) : M W string :=
  send C caller "select_jurors" [ArgU64 caseId].

Definition commitVote (juror : string) (caseId : Z) (commitHash : string) : M W string :=
  send C juror "commit_vote" [ArgU64 caseId; ArgAddress juror; ArgBytes commitHash].

Definition revealVote (juror : string) (caseId : Z) (voteChoice : bool) (salt : string) : M W string :=
  send C juror "reveal_vote" [ArgU64 caseId; ArgAddress juror; ArgBool voteChoice; ArgBytes salt].

Definition finalizeCase (caller : string) (caseId : Z) : M W string :=
  send C caller "finalize_case" [ArgU64 caseId].

Definition adminResolveNoQuorum (admin : string) (caseId : Z) (resolution : DisputeResolution)
    : M W string :=
  send C admin "admin_resolve_no_quorum"
    [ArgAddress admin; ArgU64 caseId; ArgVec [ArgSymbol (DisputeResolution_name resolution)]].

Definition getCase (caseId : Z) : M W (option (list (string * value))) :=
  query C "get_case" [ArgU64 caseId] (decode_opt decodeCase).

Definition getEvidence_fields : list Field :=
  [field "submitter" KRaw "submitter"; field "party" KRaw "party";
   field "evidenceHash" KRaw "evidence_hash"; field "submittedAt" KNum "submitted_at"].

Definition getEvidence (caseId : Z) : M W (list (list (string * value))) :=
  query C "get_evidence" [ArgU64 caseId] (decode_array getEvidence_fields).

Definition getVote (hex : jsval → string) (caseId : Z) (juror : string)
   : M W (option (option string * option bool)) :=
  query C "get_vote" [ArgU64 caseId; ArgAddress juror] (vote_of hex).

Definition getJuror_fields : list Field :=
  [field "address" KRaw "address"; field "stakeAmount" KBig "stake_amount";
   field "stakeToken" KRaw "stake_token"; field "isActive" KBool "is_active";
   field "casesServed" KNum "cases_served"; field "timesSlashed" KNum "times_slashed";
   field "nonRevealStrikes" KNum "non_reveal_strikes"; field "registeredAt" KNum "registered_at";
   field "deregisterRequestedAt" KNumOpt "deregister_requested_at"].

Definition getJuror (operator : string) : M W (option (list (string * value))) :=
  query C "get_juror" [ArgAddress operator] (decode_opt getJuror_fields).

Definition listActiveJurors : M W jsval :=
  query C "list_active_jurors" [] as_array.

Definition getJurorCases (operator : string) : M W (list Z) :=
  query C "get_juror_cases" [ArgAddress operator] bigints.

Definition getConfig_fields : list Field :=
  [field "minStake" KBig "min_stake"; field "stakeToken" KRaw "stake_token";
   field "committeeSize" KNum "committee_size"; field "quorumFloor" KNum "quorum_floor";
   field "evidenceWindowSecs" KNum "evidence_window_secs";
   field "commitWindowSecs" KNum "commit_window_secs";
   field "revealWindowSecs" KNum "reveal_window_secs";
   field "deregisterCooldownSecs" KNum "deregister_cooldown_secs"; field "slashBps" KNum "slash_bps";
   field "nonRevealSlashBps" KNum "non_reveal_slash_bps";
   field "lopsidedConfidenceBps" KNum "lopsided_confidence_bps"; field "maxRetries" KNum "max_retries"].

Definition getConfig : M W (list (string * value)) :=
  query C "get_config" [] (decode getConfig_fields).

End client.

(** ** The operations *)

(** Those that make calls of the contract. *)
Inductive calls_made {W : Type} : ∀ {A : Type}, (Client W → M W A) → Prop :=
| call_registerJuror : ∀ (operator : string) (stakeAmount : Z),
    calls_made (λ C, registerJuror C operator stakeAmount)
| call_deregisterJuror : ∀ (operator : string), calls_made (λ C, deregisterJuror C operator)
| call_submitEvidence : ∀ (caseId : Z) (submitter evidenceHash : string),
    calls_made (λ C, submitEvidence C caseId submitter evidenceHash)
| call_selectJurors : ∀ (caller : string) (caseId : Z), calls_made (λ C, selectJurors C caller caseId)
| call_commitVote : ∀ (juror : string) (caseId : Z) (commitHash : string),
    String.length commitHash = 32%nat → calls_made (λ C, commitVote C juror caseId commitHash)
| call_revealVote : ∀ (juror : string) (caseId : Z) (voteChoice : bool) (salt : string),
    String.length salt = 32%nat → calls_made (λ C, revealVote C juror caseId voteChoice salt)
| call_finalizeCase : ∀ (caller : string) (caseId : Z), calls_made (λ C, finalizeCase C caller caseId)
| call_adminResolveNoQuorum : ∀ (admin : string) (caseId : Z) (resolution : DisputeResolution),
    calls_made (λ C, adminResolveNoQuorum C admin caseId resolution)
| call_getCase : ∀ (caseId : Z), calls_made (λ C, getCase C caseId)
| call_getEvidence : ∀ (caseId : Z), calls_made (λ C, getEvidence C caseId)
| call_getVote : ∀ (hex : jsval → string) (caseId : Z) (juror : string),
    calls_made (λ C, getVote C hex caseId juror)
| call_getJuror : ∀ (operator : string), calls_made (λ C, getJuror C operator)
| call_listActiveJurors : calls_made (λ C, listActiveJurors C)
| call_getJurorCases : ∀ (operator : string), calls_made (λ C, getJurorCases C operator)
| call_getConfig : calls_made (λ C, getConfig C).

(** The readers, with what they make of an answer. *)
Inductive answers_read {W : Type} : ∀ {A : Type}, (Client W → M W A) → (jsval → A) → Prop :=
| read_getCase : ∀ (caseId : Z), answers_read (λ C, getCase C caseId) (decoded_opt decodeCase)
| read_getEvidence : ∀ (caseId : Z), answers_read (λ C, getEvidence C caseId) (decoded_all getEvidence_fields)
| read_getJuror : ∀ (operator : string), answers_read (λ C, getJuror C operator) (decoded_opt getJuror_fields)
| read_listActiveJurors : answers_read (λ C, listActiveJurors C) id
| read_getJurorCases : ∀ (operator : string),
    answers_read (λ C, getJurorCases C operator) (λ v, map int_of (elements_of v))
| read_getConfig : answers_read (λ C, getConfig C) (decoded getConfig_fields).

(** ** They keep to the interface *)

Lemma arbitration_calls_conform {W A} (op : Client W → M W A) :
  calls_made op → conforming (abi_of Arbitration) op.
Proof. destruct 1; by calls. Qed.

Lemma arbitration_answers_decoded {W A} (op : Client W → M W A) mean :
  answers_read op mean → answered (abi_of Arbitration) op mean.
Proof. destruct 1; by answers. Qed.

(** A commitment binds its vote and salt when the hash has no collisions. *)
Lemma commitment_binding sha256 vote vote' salt salt' :
  (∀ x y, sha256 x = sha256 y → x = y) →
  computeCommitHash sha256 vote salt = computeCommitHash sha256 vote' salt' → vote = vote' ∧ salt = salt'.
Proof. intros Hinj E. apply Hinj in E. injection E as E1 E2. by destruct vote, vote'. Qed.
End ArbitrationClient.
