(* ===== verification/SdkClients.v ===== *)
(** * packages/sdk/src/clients: seven of the clients, a Module each *)
From S2P Require Import Prelude.
From S2P Require Import JsValue.
From S2P Require Import JsNumber.
From S2P Require Import Sdk.
From S2P Require Import Abi.
From S2P Require Import ContractAbi.
From S2P Require Sdk.
#[local] Open Scope string_scope.
#[local] Open Scope list_scope.
#[local] Open Scope Z_scope.

(** ** clients/invoice.ts: the rest of the invoice client

    [getInvoice] and [verifyInvoice], which the oracle service uses, are in
    Sdk.v. *)
Module InvoiceClient.
#[local] Transparent send read.

(** [raw.due_date !== undefined ? Number(raw.due_date) : Number(raw.dueDate)] comes
    first, and is the sixth field. *)
Definition metadata_fields : list Field :=
  [field "name" KRaw "name"; field "description" KRaw "description"; field "image" KRaw "image";
   field "amount" KBig "amount"; field "debtor" KRaw "debtor"; field "dueDate" KNum "due_date";
   field "status" KRaw "status"; field "symbol" KRaw "symbol"; field "decimals" KNum "decimals"].

Definition metadataFromRaw (raw : jsval) : result (list (string * value)) :=
  due_date ← get_prop raw "due_date";
  match due_date with
  | JUndef =>
      decode (map (λ f, if String.eqb (f_name f) "dueDate" then field "dueDate" KNum "dueDate" else f)
                metadata_fields) raw
  | _ => decode metadata_fields raw
  end.

Lemma reads_metadataFromRaw v :
  native Invoice_InvoiceMetadata v = true → metadataFromRaw v = Ok (decoded metadata_fields v).
Proof.
  intros Hn. pose proof (decode_native metadata_fields Invoice_InvoiceMetadata v eq_refl Hn) as E.
  destruct (native_struct _ _ Hn) as [o ->]. unfold metadataFromRaw. cbn [get_prop mbind result_bind].
  pose proof (native_lookup _ o "due_date" TU64 Hn eq_refl) as Hd. by destruct (obj_get o "due_date").
Qed.
#[export] Hint Resolve reads_metadataFromRaw : reads.

(** ** InvoiceClient *)

Section client.
Context {W : Type} (C : Client W).

(** The two of Sdk.v. *)
Definition getInvoice (id : Z) : M W jsval :=
  let B := cl_backend C in
  Sdk.getInvoice (be_server B) (be_build B) (be_scValToNative B) (cl_config C) (cl_errors C) id.

Definition getMultipleInvoices (ids : list Z) : M W jsval :=
  query C "get_multiple_invoices" [ArgVec (map (λ id, ArgU64 id) ids)] as_raw.

Definition getMetadata (id : Z) : M W (list (string * value)) :=
  query C "get_metadata" [ArgU64 id] metadataFromRaw.

Definition createInvoice (owner debtor : string) (amount dueDate : Z) (description : string)
    (verificationHash : option string) : M W string :=
  send C owner "create_invoice"
    [ArgAddress owner; ArgString (JStr debtor); ArgI128 amount; ArgU64 dueDate; ArgString (JStr description);
     ArgString (JStr (default "" verificationHash))].

Definition verifyInvoice (oracle : string) (id : Z) (approved : bool) (reason : string) (oracleHash : jsval)
   : M W string :=
  let B := cl_backend C in
  Sdk.verifyInvoice (be_server B) (be_build B) (be_assemble B) (be_fromXDR B) (cl_config C) (cl_errors C)
    (cl_onProgress C) (λ xdr, mret xdr) oracle id approved reason oracleHash.

End client.

(** ** The operations *)

(** Those that make calls of the contract. *)
Inductive calls_made {W : Type} : ∀ {A : Type}, (Client W → M W A) → Prop :=
| call_getInvoice : ∀ (id : Z), calls_made (λ C, getInvoice C id)
| call_getMultipleInvoices : ∀ (ids : list Z), calls_made (λ C, getMultipleInvoices C ids)
| call_getMetadata : ∀ (id : Z), calls_made (λ C, getMetadata C id)
| call_verifyInvoice : ∀ (oracle : string) (id : Z) (approved : bool) (reason oracleHash : string),
    calls_made (λ C, verifyInvoice C oracle id approved reason (JStr oracleHash)).

(** Those whose call is none of the contract. *)
Inductive calls_lost {W : Type} : ∀ {A : Type}, (Client W → M W A) → Prop :=
| lost_createInvoice : ∀ (owner debtor : string) (amount dueDate : Z) (description : string) (verificationHash : option string),
    calls_lost (λ C, createInvoice C owner debtor amount dueDate description verificationHash).

(** The readers, with what they make of an answer. *)
Inductive answers_read {W : Type} : ∀ {A : Type}, (Client W → M W A) → (jsval → A) → Prop :=
| read_getMultipleInvoices : ∀ (ids : list Z), answers_read (λ C, getMultipleInvoices C ids) id
| read_getMetadata : ∀ (id : Z), answers_read (λ C, getMetadata C id) (decoded metadata_fields).

(** ** They keep to the interface *)

Lemma invoice_calls_conform {W A} (op : Client W → M W A) :
  calls_made op → conforming (abi_of Invoice) op.
Proof. destruct 1; by calls. Qed.

Lemma invoice_calls_refused {W A} (op : Client W → M W A) :
  calls_lost op → refused (abi_of Invoice) op.
Proof. destruct 1; by calls. Qed.

Lemma invoice_answers_decoded {W A} (op : Client W → M W A) mean :
  answers_read op mean → answered (abi_of Invoice) op mean.
Proof. destruct 1; by answers. Qed.
End InvoiceClient.

(** ** clients/oracle_registry.ts: the oracle registry, as a client like the others

    The methods are those of Sdk.v, which the oracle service's model uses. *)
Module OracleRegistryClient.
Section client.
Context {W : Type} (C : Client W).

Abbreviation B := (cl_backend C).
(** The [signer] of a call's parameters, which the methods do not use. *)
Definition no_signer (xdr : string) : M W string := mret xdr.

Definition openRound (caller : string) (invoiceId : Z) (oracleHash : jsval) : M W string :=
  Sdk.openRound (be_server B) (be_build B) (be_assemble B) (be_fromXDR B) (cl_config C) (cl_errors C)
    (cl_onProgress C) no_signer caller invoiceId oracleHash.

Definition register (operator : string) (stakeAmount : Z) : M W string :=
  Sdk.register (be_server B) (be_build B) (be_assemble B) (be_fromXDR B) (cl_config C) (cl_errors C)
    (cl_onProgress C) no_signer operator stakeAmount.

Definition vote (oracle : string) (invoiceId : Z) (approved : bool) (evidenceHash : jsval) : M W string :=
  Sdk.vote (be_server B) (be_build B) (be_assemble B) (be_fromXDR B) (cl_config C) (cl_errors C)
    (cl_onProgress C) no_signer oracle invoiceId approved evidenceHash.

Definition getRound (invoiceId : Z) : M W (option Sdk.VerificationRound) :=
  Sdk.getRound (be_server B) (be_build B) (be_scValToNative B) (cl_config C) (cl_errors C) invoiceId.

Definition getRegistryConfig : M W Sdk.RegistryConfig :=
  Sdk.getRegistryConfig (be_server B) (be_build B) (be_scValToNative B) (cl_config C) (cl_errors C).

Definition getOracleInfo (operator : string) : M W (option Sdk.OracleInfo) :=
  Sdk.getOracleInfo (be_server B) (be_build B) (be_scValToNative B) (cl_config C) (cl_errors C) operator.
End client.

(** ** The operations *)

(** Those that make calls of the contract. *)
Inductive calls_made {W : Type} : ∀ {A : Type}, (Client W → M W A) → Prop :=
| call_openRound : ∀ (caller : string) (invoiceId : Z) (oracleHash : string),
    calls_made (λ C, openRound C caller invoiceId (JStr oracleHash))
| call_register : ∀ (operator : string) (stakeAmount : Z), calls_made (λ C, register C operator stakeAmount)
| call_vote : ∀ (oracle : string) (invoiceId : Z) (approved : bool) (evidenceHash : string),
    calls_made (λ C, vote C oracle invoiceId approved (JStr evidenceHash))
| call_getRound : ∀ (invoiceId : Z), calls_made (λ C, getRound C invoiceId)
| call_getRegistryConfig : calls_made (λ C, getRegistryConfig C)
| call_getOracleInfo : ∀ (operator : string), calls_made (λ C, getOracleInfo C operator).

(** ** They keep to the interface *)

#[local] Transparent send read.

Lemma oracle_registry_calls_conform {W A} (op : Client W → M W A) :
  calls_made op → conforming (abi_of OracleRegistry) op.
Proof.
  destruct 1; [apply send_conforming; reflexivity..| | |];
    (apply bind_conforming; [by apply read_conforming|intros ?; apply pure_conforming]).
Qed.
End OracleRegistryClient.

(** ** clients/insurance.ts: the insurance fund *)
Module InsuranceClient.
(** generated/insurance.ts. *)
Record InsuranceRiskTier := { min_score : Z; max_score : Z; risk_multiplier_bps : Z }.
Record PremiumConfig := {
  base_rate_bps : Z; tenor_bps_per_day : Z; risk_tiers : list InsuranceRiskTier;
  default_risk_multiplier_bps : Z; min_premium_bps : Z; max_premium_bps : Z; default_coverage_bps : Z
}.

Definition riskTierToScVal (tier : InsuranceRiskTier) : ScArg :=
  ArgMap [("max_score", ArgU32 (max_score tier)); ("min_score", ArgU32 (min_score tier));
          ("risk_multiplier_bps", ArgU32 (risk_multiplier_bps tier))].

Definition premiumConfigToScVal (config : PremiumConfig) : ScArg :=
  ArgMap [("base_rate_bps", ArgU32 (base_rate_bps config));
          ("default_coverage_bps", ArgU32 (default_coverage_bps config));
          ("default_risk_multiplier_bps", ArgU32 (default_risk_multiplier_bps config));
          ("max_premium_bps", ArgU32 (max_premium_bps config));
          ("min_premium_bps", ArgU32 (min_premium_bps config));
          ("risk_tiers", ArgVec (map (λ tier, riskTierToScVal tier) (risk_tiers config)));
          ("tenor_bps_per_day", ArgU32 (tenor_bps_per_day config))].

Definition riskTierFromRaw : list Field :=
  [field "min_score" KNum "min_score"; field "max_score" KNum "max_score";
   field "risk_multiplier_bps" KNum "risk_multiplier_bps"].
Definition reserveFundFromRaw : list Field :=
  [field "total_reserves" KBigOr0 "total_reserves";
   field "total_premiums_collected" KBigOr0 "total_premiums_collected";
   field "total_claims_paid" KBigOr0 "total_claims_paid";
   field "total_covered_exposure" KBigOr0 "total_covered_exposure";
   field "coverage_ratio_bps" KNum "coverage_ratio_bps";
   field "min_coverage_ratio_bps" KNum "min_coverage_ratio_bps"].
Definition coverageRecordFromRaw : list Field :=
  [field "invoice_id" KBig "invoice_id"; field "token" KRaw "token"; field "principal" KBig "principal";
   field "premium_paid" KBig "premium_paid"; field "coverage_bps" KNum "coverage_bps";
   field "purchased_at" KBig "purchased_at"; field "claimed" KBool "claimed"].
Definition claimHistoryItemFromRaw : list Field :=
  [field "invoice_id" KBig "invoice_id"; field "token" KRaw "token"; field "payout" KBig "payout";
   field "shortfalls" KBig "shortfalls"; field "timestamp" KBig "timestamp"].
Definition reserveHealthFromRaw : list Field :=
  [field "token" KRaw "token"; field "total_reserves" KBigOr0 "total_reserves";
   field "coverage_ratio_bps" KNum "coverage_ratio_bps";
   field "min_reserve_amount" KBigOr0 "min_reserve_amount"; field "is_healthy" KBool "is_healthy";
   field "needs_top_up" KBool "needs_top_up"].

(** A decoded configuration: the fields in front of the tiers, the tiers, the rest. *)
Record PremiumFields := {
  pf_first : list (string * value); pf_risk_tiers : list (list (string * value)); pf_rest : list (string * value)
}.

Definition premium_first : list Field :=
  [field "base_rate_bps" KNum "base_rate_bps"; field "tenor_bps_per_day" KNum "tenor_bps_per_day"].
Definition premium_rest : list Field :=
  [field "default_risk_multiplier_bps" KNum "default_risk_multiplier_bps";
   field "min_premium_bps" KNum "min_premium_bps"; field "max_premium_bps" KNum "max_premium_bps";
   field "default_coverage_bps" KNum "default_coverage_bps"].

Definition premiumConfigFromRaw (raw : jsval) : result PremiumFields :=
  first ← decode premium_first raw;
  tiers ← get_prop raw "risk_tiers";
  tiers ← decode_all riskTierFromRaw tiers;
  rest ← decode premium_rest raw;
  Ok {| pf_first := first; pf_risk_tiers := tiers; pf_rest := rest |}.

Definition premium_of (v : jsval) : PremiumFields := {|
  pf_first := decoded premium_first v;
  pf_risk_tiers := decoded_all riskTierFromRaw (get_prop_opt v "risk_tiers");
  pf_rest := decoded premium_rest v |}.

Lemma premium_config_reads v :
  native Insurance_PremiumConfig v = true → premiumConfigFromRaw v = Ok (premium_of v).
Proof.
  intros Hn. destruct (native_struct _ _ Hn) as [o ->]. unfold premiumConfigFromRaw, premium_of.
  rewrite (decode_native premium_first Insurance_PremiumConfig) by done.
  rewrite (decode_native premium_rest Insurance_PremiumConfig) by done. cbn [get_prop mbind result_bind].
  by rewrite (reads_decode_all Insurance_RiskTier riskTierFromRaw) by (done || by eapply native_lookup).
Qed.

Lemma reads_premiumConfig v :
  native (TOption Insurance_PremiumConfig) v = true →
  (if truthy v then Some <$> premiumConfigFromRaw v else Ok None) =
  Ok (if truthy v then Some (premium_of v) else None).
Proof.
  intros Hn. destruct (native_option _ _ Hn) as [->|Hn']; [done|].
  destruct (truthy v); [|done]. by rewrite premium_config_reads.
Qed.
#[export] Hint Resolve reads_premiumConfig : reads.

Lemma risk_tiers_accepted l :
  accepts (TVec Insurance_RiskTier) (ArgVec (map (λ tier, riskTierToScVal tier) l)) = true.
Proof. by apply accepts_vec. Qed.

Lemma premiumConfigToScVal_accepted config :
  accepts Insurance_PremiumConfig (premiumConfigToScVal config) = true.
Proof.
  pose proof (risk_tiers_accepted (risk_tiers config)) as H. unfold Insurance_PremiumConfig, premiumConfigToScVal.
  generalize dependent (ArgVec (map (λ tier, riskTierToScVal tier) (risk_tiers config))). intros a H.
  cbn -[Insurance_RiskTier] in *. by rewrite H.
Qed.
#[export] Hint Resolve premiumConfigToScVal_accepted : accepts.

(** ** InsuranceClient *)

Section client.
Context {W : Type} (C : Client W).

Definition initialize (admin poolContract invoiceContract : string) : M W string :=
  send C admin "initialize" [ArgAddress admin; ArgAddress poolContract; ArgAddress invoiceContract].

Definition estimatePremium (principal : Z) (sme : string) (tenorDays : Z) : M W Z :=
  query C "estimate_premium" [ArgI128 principal; ArgAddress sme; ArgU32 tenorDays] as_bigint.

Definition purchaseCoverage (payer : string) (invoiceId principal : Z) (sme : string)
    (dueDate : Z) (token : string) : M W string :=
  send C payer "purchase_coverage"
    [ArgAddress payer; ArgU64 invoiceId; ArgI128 principal; ArgAddress sme; ArgU64 dueDate;
     ArgAddress token].

Definition fileClaim (caller : string) (invoiceId : Z) : M W string :=
  send C caller "file_claim" [ArgU64 invoiceId].

Definition getReserveStatus (token : string) : M W (list (string * value)) :=
  query C "get_reserve_status" [ArgAddress token] (decode reserveFundFromRaw).

Definition getCoverageRecord (invoiceId : Z) : M W (option (list (string * value))) :=
  query C "get_coverage_record" [ArgU64 invoiceId] (decode_opt coverageRecordFromRaw).

Definition getClaimHistory (invoiceId : Z) : M W (list (list (string * value))) :=
  query C "get_claim_history" [ArgU64 invoiceId] (decode_all claimHistoryItemFromRaw).

Definition checkReserveHealth (token : string) : M W (list (string * value)) :=
  query C "check_reserve_health" [ArgAddress token] (decode reserveHealthFromRaw).

Definition getPremiumConfig : M W (option PremiumFields) :=
  query C "get_premium_config" []
    (λ raw, if truthy raw then Some <$> premiumConfigFromRaw raw else Ok None).

Definition getCreditScoreContract : M W (option string) :=
  query C "get_credit_score_contract" [] as_string_opt.

Definition getMinReserveAmount (token : string) : M W Z :=
  query C "get_min_reserve_amount" [ArgAddress token] as_bigint.

Definition setPremiumConfig (admin : string) (config : PremiumConfig) : M W string :=
  send C admin "set_premium_config" [ArgAddress admin; premiumConfigToScVal config].

Definition setMinCoverageRatio (admin token : string) (minRatioBps : Z) : M W string :=
  send C admin "set_min_coverage_ratio" [ArgAddress admin; ArgAddress token; ArgU32 minRatioBps].

Definition setMinReserveAmount (admin token : string) (minAmount : Z) : M W string :=
  send C admin "set_min_reserve_amount" [ArgAddress admin; ArgAddress token; ArgI128 minAmount].

Definition fundReserveFromTreasury (admin token : string) (amount : Z) : M W string :=
  send C admin "fund_reserve_from_treasury" [ArgAddress admin; ArgAddress token; ArgI128 amount].

Definition setCreditScoreContract (admin creditScoreContract : string) : M W string :=
  send C admin "set_credit_score_contract" [ArgAddress admin; ArgAddress creditScoreContract].

Definition pause (admin : string) : M W string :=
  send C admin "pause" [ArgAddress admin].

Definition unpause (admin : string) : M W string :=
  send C admin "unpause" [ArgAddress admin].

End client.

(** ** The operations *)

(** Those that make calls of the contract. *)
Inductive calls_made {W : Type} : ∀ {A : Type}, (Client W → M W A) → Prop :=
| call_initialize : ∀ (admin poolContract invoiceContract : string),
    calls_made (λ C, initialize C admin poolContract invoiceContract)
| call_estimatePremium : ∀ (principal : Z) (sme : string) (tenorDays : Z),
    calls_made (λ C, estimatePremium C principal sme tenorDays)
| call_purchaseCoverage : ∀ (payer : string) (invoiceId principal : Z) (sme : string) (dueDate : Z) (token : string),
    calls_made (λ C, purchaseCoverage C payer invoiceId principal sme dueDate token)
| call_fileClaim : ∀ (caller : string) (invoiceId : Z), calls_made (λ C, fileClaim C caller invoiceId)
| call_getReserveStatus : ∀ (token : string), calls_made (λ C, getReserveStatus C token)
| call_getCoverageRecord : ∀ (invoiceId : Z), calls_made (λ C, getCoverageRecord C invoiceId)
| call_getClaimHistory : ∀ (invoiceId : Z), calls_made (λ C, getClaimHistory C invoiceId)
| call_checkReserveHealth : ∀ (token : string), calls_made (λ C, checkReserveHealth C token)
| call_getPremiumConfig : calls_made (λ C, getPremiumConfig C)
| call_getCreditScoreContract : calls_made (λ C, getCreditScoreContract C)
| call_getMinReserveAmount : ∀ (token : string), calls_made (λ C, getMinReserveAmount C token)
| call_setPremiumConfig : ∀ (admin : string) (config : PremiumConfig),
    calls_made (λ C, setPremiumConfig C admin config)
| call_setMinCoverageRatio : ∀ (admin token : string) (minRatioBps : Z),
    calls_made (λ C, setMinCoverageRatio C admin token minRatioBps)
| call_setMinReserveAmount : ∀ (admin token : string) (minAmount : Z),
    calls_made (λ C, setMinReserveAmount C admin token minAmount)
| call_fundReserveFromTreasury : ∀ (admin token : string) (amount : Z),
    calls_made (λ C, fundReserveFromTreasury C admin token amount)
| call_setCreditScoreContract : ∀ (admin creditScoreContract : string),
    calls_made (λ C, setCreditScoreContract C admin creditScoreContract)
| call_pause : ∀ (admin : string), calls_made (λ C, pause C admin)
| call_unpause : ∀ (admin : string), calls_made (λ C, unpause C admin).

(** The readers, with what they make of an answer. *)
Inductive answers_read {W : Type} : ∀ {A : Type}, (Client W → M W A) → (jsval → A) → Prop :=
| read_estimatePremium : ∀ (principal : Z) (sme : string) (tenorDays : Z),
    answers_read (λ C, estimatePremium C principal sme tenorDays) int_of
| read_getReserveStatus : ∀ (token : string),
    answers_read (λ C, getReserveStatus C token) (decoded reserveFundFromRaw)
| read_getCoverageRecord : ∀ (invoiceId : Z),
    answers_read (λ C, getCoverageRecord C invoiceId) (decoded_opt coverageRecordFromRaw)
| read_getClaimHistory : ∀ (invoiceId : Z),
    answers_read (λ C, getClaimHistory C invoiceId) (decoded_all claimHistoryItemFromRaw)
| read_checkReserveHealth : ∀ (token : string),
    answers_read (λ C, checkReserveHealth C token) (decoded reserveHealthFromRaw)
| read_getPremiumConfig : answers_read (λ C,
    getPremiumConfig C) (λ v, if truthy v then Some (premium_of v) else None)
| read_getCreditScoreContract : answers_read (λ C,
    getCreditScoreContract C) (λ v, if truthy v then Some (js_String v) else None)
| read_getMinReserveAmount : ∀ (token : string), answers_read (λ C, getMinReserveAmount C token) int_of.

(** ** They keep to the interface *)

Lemma insurance_calls_conform {W A} (op : Client W → M W A) :
  calls_made op → conforming (abi_of Insurance) op.
Proof. destruct 1; by calls. Qed.

Lemma insurance_answers_decoded {W A} (op : Client W → M W A) mean :
  answers_read op mean → answered (abi_of Insurance) op mean.
Proof. destruct 1; by answers. Qed.
End InsuranceClient.

(** ** clients/credit_score.ts: credit scores and attestations

    The hypothetical attestations of [simulateScoreWithAttestations] are pairs of
    a weight and a contribution. *)
Module CreditScoreClient.
Inductive AttestorType := AttestorType_BusinessRegistry | AttestorType_CreditBureau | AttestorType_ExternalProtocol | AttestorType_Manual.
Definition AttestorType_name (v : AttestorType) : string :=
  match v with AttestorType_BusinessRegistry => "BusinessRegistry" | AttestorType_CreditBureau => "CreditBureau" | AttestorType_ExternalProtocol => "ExternalProtocol" | AttestorType_Manual => "Manual" end.

Definition attestorTypeToScVal (variant : AttestorType) : ScArg :=
  ArgVec [ArgSymbol (AttestorType_name variant)].

Lemma attestorTypeToScVal_accepted v : accepts CreditScore_AttestorType (attestorTypeToScVal v) = true.
Proof. by destruct v. Qed.
#[export] Hint Resolve attestorTypeToScVal_accepted : accepts.
Definition creditScoreResponseFromScVal : list Field :=
  [field "sme" KRaw "sme"; field "score" KNum "score"; field "totalInvoices" KNum "total_invoices";
   field "paidOnTime" KNum "paid_on_time"; field "paidLate" KNum "paid_late";
   field "defaulted" KNum "defaulted"; field "totalVolume" KBig "total_volume";
   field "averagePaymentDays" KNum "average_payment_days"; field "lastUpdated" KNum "last_updated";
   field "scoreVersion" KNum "score_version"; field "configVersion" KNum "config_version";
   field "isStale" KBool "is_stale"; field "blendedScore" KNum "blended_score";
   field "riskAdjustmentPts" KNum "risk_adjustment_pts";
   field "trendAdjustmentPts" KNum "trend_adjustment_pts"; field "finalScore" KNum "final_score"].

Definition attestationFromScVal : list Field :=
  [field "id" KBig "id"; field "sme" KRaw "sme"; field "attestor" KRaw "attestor";
   field "attestationType" KTag "attestation_type"; field "scoreContribution" KNum "score_contribution";
   field "evidenceHash" KRaw "evidence_hash"; field "submittedAt" KNum "submitted_at";
   field "expiresAt" KNum "expires_at"; field "status" KTag "status"].

Definition attestorInfoFromScVal : list Field :=
  [field "address" KRaw "address"; field "attestorType" KTag "attestor_type";
   field "isActive" KBool "is_active"; field "weightBps" KNum "weight_bps";
   field "registeredAt" KNum "registered_at"].

(** ** CreditScoreClient *)

Section client.
Context {W : Type} (C : Client W).

Definition getCreditScore (sme : string) : M W (list (string * value)) :=
  query C "get_credit_score" [ArgAddress sme] (decode creditScoreResponseFromScVal).

Definition simulateScoreWithAttestations (sme : string) (hypothetical : list (Z * Z)) : M W number :=
  query C "simulate_score_with_attestations"
    [ArgAddress sme;
     ArgVec (map (λ h, ArgVec [ArgU32 h.1; ArgU32 h.2]) hypothetical)]
    as_number.

Definition getAttestorInfo (address : string) : M W (option (list (string * value))) :=
  query C "get_attestor_info" [ArgAddress address] (decode_opt attestorInfoFromScVal).

Definition listActiveAttestors : M W (list (list (string * value))) :=
  query C "list_active_attestors" [] (decode_all attestorInfoFromScVal).

Definition getAttestation (id : Z) : M W (option (list (string * value))) :=
  query C "get_attestation" [ArgU64 id] (decode_opt attestationFromScVal).

Definition listSmeAttestations (sme : string) : M W (list (list (string * value))) :=
  query C "list_sme_attestations" [ArgAddress sme] (decode_all attestationFromScVal).

Definition registerAttestor (admin address : string) (attestorType : AttestorType) (weightBps : Z)
    : M W string :=
  send C admin "register_attestor"
    [ArgAddress admin; ArgAddress address; attestorTypeToScVal attestorType; ArgU32 weightBps].

Definition deactivateAttestor (admin address : string) : M W string :=
  send C admin "deactivate_attestor" [ArgAddress admin; ArgAddress address].

Definition submitAttestation (attestor sme : string) (attestationType : AttestorType)
    (scoreContribution : Z) (evidenceHash : string) (expiresAt : Z) : M W string :=
  send C attestor "submit_attestation"
    [ArgAddress attestor; ArgAddress sme; attestorTypeToScVal attestationType; ArgU32 scoreContribution;
     ArgString (JStr evidenceHash); ArgU64 expiresAt].

Definition disputeAttestation (caller : string) (attestationId : Z) (reasonHash : string)
    : M W string :=
  send C caller "dispute_attestation"
    [ArgAddress caller; ArgU64 attestationId; ArgString (JStr reasonHash)].

Definition resolveAttestationDispute (admin : string) (attestationId : Z) (upheld : bool)
    : M W string :=
  send C admin "resolve_attestation_dispute" [ArgAddress admin; ArgU64 attestationId; ArgBool upheld].

Definition submitRiskSignal (admin sme : string) (debtorConcentrationBps invoiceSizeRiskBps : Z)
    : M W string :=
  send C admin "submit_risk_signal"
    [ArgAddress admin; ArgAddress sme; ArgU32 debtorConcentrationBps; ArgU32 invoiceSizeRiskBps].

End client.

(** ** The operations *)

(** Those that make calls of the contract. *)
Inductive calls_made {W : Type} : ∀ {A : Type}, (Client W → M W A) → Prop :=
| call_getCreditScore : ∀ (sme : string), calls_made (λ C, getCreditScore C sme)
| call_simulateScoreWithAttestations : ∀ (sme : string) (hypothetical : list (Z * Z)),
    calls_made (λ C, simulateScoreWithAttestations C sme hypothetical)
| call_getAttestorInfo : ∀ (address : string), calls_made (λ C, getAttestorInfo C address)
| call_listActiveAttestors : calls_made (λ C, listActiveAttestors C)
| call_getAttestation : ∀ (id : Z), calls_made (λ C, getAttestation C id)
| call_listSmeAttestations : ∀ (sme : string), calls_made (λ C, listSmeAttestations C sme)
| call_registerAttestor : ∀ (admin address : string) (attestorType : AttestorType) (weightBps : Z),
    calls_made (λ C, registerAttestor C admin address attestorType weightBps)
| call_deactivateAttestor : ∀ (admin address : string), calls_made (λ C, deactivateAttestor C admin address)
| call_submitAttestation : ∀ (attestor sme : string) (attestationType : AttestorType) (scoreContribution : Z) (evidenceHash : string) (expiresAt : Z),
    calls_made (λ C, submitAttestation C attestor sme attestationType scoreContribution evidenceHash expiresAt)
| call_disputeAttestation : ∀ (caller : string) (attestationId : Z) (reasonHash : string),
    calls_made (λ C, disputeAttestation C caller attestationId reasonHash)
| call_resolveAttestationDispute : ∀ (admin : string) (attestationId : Z) (upheld : bool),
    calls_made (λ C, resolveAttestationDispute C admin attestationId upheld)
| call_submitRiskSignal : ∀ (admin sme : string) (debtorConcentrationBps invoiceSizeRiskBps : Z),
    calls_made (λ C, submitRiskSignal C admin sme debtorConcentrationBps invoiceSizeRiskBps).

(** The readers, with what they make of an answer. *)
Inductive answers_read {W : Type} : ∀ {A : Type}, (Client W → M W A) → (jsval → A) → Prop :=
| read_getCreditScore : ∀ (sme : string),
    answers_read (λ C, getCreditScore C sme) (decoded creditScoreResponseFromScVal)
| read_simulateScoreWithAttestations : ∀ (sme : string) (hypothetical : list (Z * Z)),
    answers_read (λ C, simulateScoreWithAttestations C sme hypothetical) (λ v, num_of_Z (int_of v))
| read_getAttestorInfo : ∀ (address : string),
    answers_read (λ C, getAttestorInfo C address) (decoded_opt attestorInfoFromScVal)
| read_listActiveAttestors : answers_read (λ C, listActiveAttestors C) (decoded_all attestorInfoFromScVal)
| read_getAttestation : ∀ (id : Z), answers_read (λ C, getAttestation C id) (decoded_opt attestationFromScVal)
| read_listSmeAttestations : ∀ (sme : string),
    answers_read (λ C, listSmeAttestations C sme) (decoded_all attestationFromScVal).

(** ** They keep to the interface *)

Lemma credit_score_calls_conform {W A} (op : Client W → M W A) :
  calls_made op → conforming (abi_of CreditScore) op.
Proof. destruct 1; by calls. Qed.

Lemma credit_score_answers_decoded {W A} (op : Client W → M W A) mean :
  answers_read op mean → answered (abi_of CreditScore) op mean.
Proof. destruct 1; by answers. Qed.
End CreditScoreClient.

(** ** clients/compliance.ts: the compliance registry

    The statuses and tiers are those of types.ts. A record's status is passed on
    as [scValToNative] gives it: an array of the status's name. *)
Module ComplianceClient.
Inductive ComplianceStatus := ComplianceStatus_Unscreened | ComplianceStatus_Cleared | ComplianceStatus_Flagged | ComplianceStatus_Blocked | ComplianceStatus_PendingReview.
Definition ComplianceStatus_name (v : ComplianceStatus) : string :=
  match v with ComplianceStatus_Unscreened => "Unscreened" | ComplianceStatus_Cleared => "Cleared" | ComplianceStatus_Flagged => "Flagged" | ComplianceStatus_Blocked => "Blocked" | ComplianceStatus_PendingReview => "PendingReview" end.
Inductive RiskTier := RiskTier_Low | RiskTier_Medium | RiskTier_High.
Definition RiskTier_name (v : RiskTier) : string :=
  match v with RiskTier_Low => "Low" | RiskTier_Medium => "Medium" | RiskTier_High => "High" end.

Definition statusToScVal (status : ComplianceStatus) : ScArg :=
  ArgVec [ArgSymbol (ComplianceStatus_name status)].
Definition riskTierToScVal (tier : RiskTier) : ScArg := ArgVec [ArgSymbol (RiskTier_name tier)].

Lemma statusToScVal_accepted v : accepts Compliance_ComplianceStatus (statusToScVal v) = true.
Proof. by destruct v. Qed.
#[export] Hint Resolve statusToScVal_accepted : accepts.
Lemma riskTierToScVal_accepted v : accepts Compliance_RiskTier (riskTierToScVal v) = true.
Proof. by destruct v. Qed.
#[export] Hint Resolve riskTierToScVal_accepted : accepts.

(** ** ComplianceClient *)

Section client.
Context {W : Type} (C : Client W).

Definition isCleared (address : string) : M W bool :=
  query C "is_cleared" [ArgAddress address] as_boolean.

Definition getRecord_fields : list Field :=
  [field "address" KRaw "address"; field "status" (KRawOr (JStr "Unscreened")) "status";
   field "reasonCode" KNumOr0 "reason_code"; field "riskTier" (KRawOr (JStr "Low")) "risk_tier";
   field "screenedAt" KNumOr0 "screened_at"; field "screenedBy" KRaw "screened_by";
   field "expiresAt" KNumOr0 "expires_at"; field "notesHash" KStringOr "notes_hash"].

Definition getRecord (address : string) : M W (option (list (string * value))) :=
  query C "get_compliance_record" [ArgAddress address] (decode_opt getRecord_fields).

Definition getHistory_fields : list Field :=
  [field "status" (KRawOr (JStr "Unscreened")) "status"; field "reasonCode" KNumOr0 "reason_code";
   field "riskTier" (KRawOr (JStr "Low")) "risk_tier"; field "screenedAt" KNumOr0 "screened_at";
   field "screenedBy" KRaw "screened_by"; field "expiresAt" KNumOr0 "expires_at";
   field "notesHash" KStringOr "notes_hash"].

Definition getHistory (address : string) : M W (list (list (string * value))) :=
  query C "get_screening_history" [ArgAddress address] (decode_all getHistory_fields).

Definition listFlagged : M W jsval :=
  query C "list_flagged" [] as_array.

Definition listPendingReview : M W jsval :=
  query C "list_pending_review" [] as_array.

Definition submitScreeningResult (screener address : string) (status : ComplianceStatus)
    (reasonCode : Z) (riskTier : RiskTier) (expiresAt : Z) (notesHash : string) : M W string :=
  send C screener "submit_screening_result"
    [ArgAddress screener; ArgAddress address; statusToScVal status; ArgU32 reasonCode;
     riskTierToScVal riskTier; ArgU64 expiresAt; ArgString (JStr notesHash)].

Definition requestReview (caller address reason : string) : M W string :=
  send C caller "request_review" [ArgAddress caller; ArgAddress address; ArgString (JStr reason)].

End client.

(** ** The operations *)

(** Those that make calls of the contract. *)
Inductive calls_made {W : Type} : ∀ {A : Type}, (Client W → M W A) → Prop :=
| call_isCleared : ∀ (address : string), calls_made (λ C, isCleared C address)
| call_getRecord : ∀ (address : string), calls_made (λ C, getRecord C address)
| call_getHistory : ∀ (address : string), calls_made (λ C, getHistory C address)
| call_listFlagged : calls_made (λ C, listFlagged C)
| call_listPendingReview : calls_made (λ C, listPendingReview C)
| call_submitScreeningResult : ∀ (screener address : string) (status : ComplianceStatus) (reasonCode : Z) (riskTier : RiskTier) (expiresAt : Z) (notesHash : string),
    calls_made (λ C, submitScreeningResult C screener address status reasonCode riskTier expiresAt notesHash)
| call_requestReview : ∀ (caller address reason : string),
    calls_made (λ C, requestReview C caller address reason).

(** The readers, with what they make of an answer. *)
Inductive answers_read {W : Type} : ∀ {A : Type}, (Client W → M W A) → (jsval → A) → Prop :=
| read_isCleared : ∀ (address : string), answers_read (λ C, isCleared C address) truthy
| read_getRecord : ∀ (address : string),
    answers_read (λ C, getRecord C address) (decoded_opt getRecord_fields)
| read_getHistory : ∀ (address : string),
    answers_read (λ C, getHistory C address) (decoded_all getHistory_fields)
| read_listFlagged : answers_read (λ C, listFlagged C) id
| read_listPendingReview : answers_read (λ C, listPendingReview C) id.

(** ** They keep to the interface *)

Lemma compliance_calls_conform {W A} (op : Client W → M W A) :
  calls_made op → conforming (abi_of Compliance) op.
Proof. destruct 1; by calls. Qed.

Lemma compliance_answers_decoded {W A} (op : Client W → M W A) mean :
  answers_read op mean → answered (abi_of Compliance) op mean.
Proof. destruct 1; by answers. Qed.
End ComplianceClient.

(** ** clients/referral.ts: referral rewards *)
Module ReferralClient.
Definition referralStatsFromRaw : list Field :=
  [field "referrer" KString "referrer"; field "referral_count" KNum "referral_count"].

Definition leaderboardEntryFromRaw : list Field :=
  [field "referrer" KString "referrer"; field "referral_count" KNum "referral_count"].

(** ** ReferralClient *)

Section client.
Context {W : Type} (C : Client W).

Definition initialize (admin pool : string) : M W string :=
  send C admin "initialize" [ArgAddress admin; ArgAddress pool].

Definition pause (admin : string) : M W string :=
  send C admin "pause" [ArgAddress admin].

Definition unpause (admin : string) : M W string :=
  send C admin "unpause" [ArgAddress admin].

Definition isPaused : M W bool :=
  query C "is_paused" [] as_boolean.

Definition setPool (admin pool : string) : M W string :=
  send C admin "set_pool" [ArgAddress admin; ArgAddress pool].

Definition getPool : M W string :=
  query C "get_pool" [] as_string.

Definition setBorrowRewardBps (admin : string) (bps : Z) : M W string :=
  send C admin "set_borrow_reward_bps" [ArgAddress admin; ArgU32 bps].

Definition setDepositRewardBps (admin : string) (bps : Z) : M W string :=
  send C admin "set_deposit_reward_bps" [ArgAddress admin; ArgU32 bps].

Definition setAccessControl (admin accessControl : string) : M W string :=
  send C admin "set_access_control" [ArgAddress admin; ArgAddress accessControl].

Definition getAccessControl : M W (option string) :=
  query C "get_access_control" [] as_string_opt.

Definition getBorrowRewardBps : M W number :=
  query C "get_borrow_reward_bps" [] as_number.

Definition getDepositRewardBps : M W number :=
  query C "get_deposit_reward_bps" [] as_number.

Definition register (referee referrer : string) : M W string :=
  send C referee "register" [ArgAddress referee; ArgAddress referrer].

Definition getReferrer (referee : string) : M W (option string) :=
  query C "get_referrer" [ArgAddress referee] as_string_opt.

Definition recordActivity (caller referee kind : string) (feeAmount : Z) (token : string)
    : M W string :=
  send C caller "record_activity"
    [ArgAddress caller; ArgAddress referee; ArgSymbol kind; ArgI128 feeAmount; ArgAddress token].

Definition getPendingReward (referrer token : string) : M W Z :=
  query C "get_pending_reward" [ArgAddress referrer; ArgAddress token] as_bigint.

Definition claimRewards (referrer token : string) : M W string :=
  send C referrer "claim_rewards" [ArgAddress referrer; ArgAddress token].

Definition getStats (referrer : string) : M W (list (string * value)) :=
  query C "get_stats" [ArgAddress referrer] (decode referralStatsFromRaw).

Definition getTopReferrers (limit : Z) : M W (list (list (string * value))) :=
  query C "get_top_referrers" [ArgU32 limit] (decode_all leaderboardEntryFromRaw).

End client.

(** ** The operations *)

(** Those that make calls of the contract. *)
Inductive calls_made {W : Type} : ∀ {A : Type}, (Client W → M W A) → Prop :=
| call_initialize : ∀ (admin pool : string), calls_made (λ C, initialize C admin pool)
| call_pause : ∀ (admin : string), calls_made (λ C, pause C admin)
| call_unpause : ∀ (admin : string), calls_made (λ C, unpause C admin)
| call_isPaused : calls_made (λ C, isPaused C)
| call_setPool : ∀ (admin pool : string), calls_made (λ C, setPool C admin pool)
| call_getPool : calls_made (λ C, getPool C)
| call_setBorrowRewardBps : ∀ (admin : string) (bps : Z), calls_made (λ C, setBorrowRewardBps C admin bps)
| call_setDepositRewardBps : ∀ (admin : string) (bps : Z), calls_made (λ C, setDepositRewardBps C admin bps)
| call_setAccessControl : ∀ (admin accessControl : string),
    calls_made (λ C, setAccessControl C admin accessControl)
| call_getAccessControl : calls_made (λ C, getAccessControl C)
| call_getBorrowRewardBps : calls_made (λ C, getBorrowRewardBps C)
| call_getDepositRewardBps : calls_made (λ C, getDepositRewardBps C)
| call_register : ∀ (referee referrer : string), calls_made (λ C, register C referee referrer)
| call_getReferrer : ∀ (referee : string), calls_made (λ C, getReferrer C referee)
| call_recordActivity : ∀ (caller referee kind : string) (feeAmount : Z) (token : string),
    calls_made (λ C, recordActivity C caller referee kind feeAmount token)
| call_getPendingReward : ∀ (referrer token : string), calls_made (λ C, getPendingReward C referrer token)
| call_claimRewards : ∀ (referrer token : string), calls_made (λ C, claimRewards C referrer token)
| call_getStats : ∀ (referrer : string), calls_made (λ C, getStats C referrer)
| call_getTopReferrers : ∀ (limit : Z), calls_made (λ C, getTopReferrers C limit).

(** The readers, with what they make of an answer. *)
Inductive answers_read {W : Type} : ∀ {A : Type}, (Client W → M W A) → (jsval → A) → Prop :=
| read_isPaused : answers_read (λ C, isPaused C) truthy
| read_getPool : answers_read (λ C, getPool C) js_String
| read_getAccessControl : answers_read (λ C,
    getAccessControl C) (λ v, if truthy v then Some (js_String v) else None)
| read_getBorrowRewardBps : answers_read (λ C, getBorrowRewardBps C) (λ v, num_of_Z (int_of v))
| read_getDepositRewardBps : answers_read (λ C, getDepositRewardBps C) (λ v, num_of_Z (int_of v))
| read_getReferrer : ∀ (referee : string),
    answers_read (λ C, getReferrer C referee) (λ v, if truthy v then Some (js_String v) else None)
| read_getPendingReward : ∀ (referrer token : string),
    answers_read (λ C, getPendingReward C referrer token) int_of
| read_getStats : ∀ (referrer : string),
    answers_read (λ C, getStats C referrer) (decoded referralStatsFromRaw)
| read_getTopReferrers : ∀ (limit : Z),
    answers_read (λ C, getTopReferrers C limit) (decoded_all leaderboardEntryFromRaw).

(** ** They keep to the interface *)

Lemma referral_calls_conform {W A} (op : Client W → M W A) :
  calls_made op → conforming (abi_of Referral) op.
Proof. destruct 1; by calls. Qed.

Lemma referral_answers_decoded {W A} (op : Client W → M W A) mean :
  answers_read op mean → answered (abi_of Referral) op mean.
Proof. destruct 1; by answers. Qed.
End ReferralClient.

(** ** clients/auction.ts: the collateral auction *)
Module AuctionClient.
(** The parameters of [openCollateralSale]. *)
Record SaleParams := {
  sp_seller : string; sp_token : string; sp_amount : Z; sp_proceedsToken : string;
  sp_proceedsRecipient : string; sp_startPrice : Z; sp_floorPrice : Z; sp_durationSecs : Z
}.

Definition collateralSaleParamsToScVal (params : SaleParams) : ScArg :=
  ArgMap [("amount", ArgI128 (sp_amount params)); ("duration_secs", ArgU64 (sp_durationSecs params));
          ("floor_price", ArgI128 (sp_floorPrice params));
          ("proceeds_recipient", ArgAddress (sp_proceedsRecipient params));
          ("proceeds_token", ArgAddress (sp_proceedsToken params)); ("seller", ArgAddress (sp_seller params));
          ("start_price", ArgI128 (sp_startPrice params)); ("token", ArgAddress (sp_token params))].

Definition collateralSaleFromRaw : list Field :=
  [field "saleId" KBig "sale_id"; field "seller" KRaw "seller"; field "token" KRaw "token";
   field "amount" KBig "amount"; field "proceedsToken" KRaw "proceeds_token";
   field "proceedsRecipient" KRaw "proceeds_recipient"; field "startPrice" KBig "start_price";
   field "floorPrice" KBig "floor_price"; field "openedAt" KNum "opened_at";
   field "durationSecs" KNum "duration_secs"; field "status" KTag "status";
   field "taker" (KRawOr JUndef) "taker"; field "settledPrice" KBigOpt "settled_price"].

Lemma reads_getPoolContract v :
  native (TOption TAddress) v = true → Ok (js_coalesce v JNull) = Ok v :> result jsval.
Proof. by destruct v. Qed.
#[export] Hint Resolve reads_getPoolContract : reads.

(** ** AuctionClient *)

Section client.
Context {W : Type} (C : Client W).

Definition initialize (admin pool : string) : M W string :=
  send C admin "initialize" [ArgAddress admin; ArgAddress pool].

Definition getPoolContract : M W jsval :=
  query C "get_pool_contract" [] (λ raw, Ok (js_coalesce raw JNull)).

Definition setCollateralRiskConfig (admin : string) (dangerBps gracePeriodSecs : Z) : M W string :=
  send C admin "set_collateral_risk_config" [ArgAddress admin; ArgU32 dangerBps; ArgU64 gracePeriodSecs].

Definition getCollateralRiskConfig_fields : list Field :=
  [field "dangerBps" KNum "danger_bps"; field "gracePeriodSecs" KNum "grace_period_secs"].

Definition getCollateralRiskConfig : M W (list (string * value)) :=
  query C "get_collateral_risk_config" [] (decode getCollateralRiskConfig_fields).

Definition getLiveCollateralRatio (invoiceId : Z) : M W number :=
  query C "get_live_collateral_ratio" [ArgU64 invoiceId] as_number.

Definition getAtRiskSince (invoiceId : Z) : M W (option number) :=
  query C "get_at_risk_since" [ArgU64 invoiceId] as_number_opt.

Definition checkCollateralRisk (caller : string) (invoiceId : Z) : M W string :=
  send C caller "check_collateral_risk" [ArgAddress caller; ArgU64 invoiceId].

Definition liquidateCollateral (caller : string) (invoiceId : Z) : M W string :=
  send C caller "liquidate_collateral" [ArgAddress caller; ArgU64 invoiceId].

Definition openCollateralSale (params : SaleParams) : M W string :=
  send C (sp_seller params) "open_collateral_sale" [collateralSaleParamsToScVal params].

Definition getSale (saleId : Z) : M W (option (list (string * value))) :=
  query C "get_sale" [ArgU64 saleId] (decode_opt collateralSaleFromRaw).

Definition currentSalePrice (saleId : Z) : M W Z :=
  query C "current_sale_price" [ArgU64 saleId] as_bigint.

Definition takeCollateralSale (taker : string) (saleId : Z) : M W string :=
  send C taker "take_collateral_sale" [ArgAddress taker; ArgU64 saleId].

Definition reclaimExpiredSale (caller : string) (saleId : Z) : M W string :=
  send C caller "reclaim_expired_sale" [ArgAddress caller; ArgU64 saleId].

End client.

(** ** The operations *)

(** Those that make calls of the contract. *)
Inductive calls_made {W : Type} : ∀ {A : Type}, (Client W → M W A) → Prop :=
| call_initialize : ∀ (admin pool : string), calls_made (λ C, initialize C admin pool)
| call_getPoolContract : calls_made (λ C, getPoolContract C)
| call_setCollateralRiskConfig : ∀ (admin : string) (dangerBps gracePeriodSecs : Z),
    calls_made (λ C, setCollateralRiskConfig C admin dangerBps gracePeriodSecs)
| call_getCollateralRiskConfig : calls_made (λ C, getCollateralRiskConfig C)
| call_getLiveCollateralRatio : ∀ (invoiceId : Z), calls_made (λ C, getLiveCollateralRatio C invoiceId)
| call_getAtRiskSince : ∀ (invoiceId : Z), calls_made (λ C, getAtRiskSince C invoiceId)
| call_checkCollateralRisk : ∀ (caller : string) (invoiceId : Z),
    calls_made (λ C, checkCollateralRisk C caller invoiceId)
| call_liquidateCollateral : ∀ (caller : string) (invoiceId : Z),
    calls_made (λ C, liquidateCollateral C caller invoiceId)
| call_openCollateralSale : ∀ (params : SaleParams), calls_made (λ C, openCollateralSale C params)
| call_getSale : ∀ (saleId : Z), calls_made (λ C, getSale C saleId)
| call_currentSalePrice : ∀ (saleId : Z), calls_made (λ C, currentSalePrice C saleId)
| call_takeCollateralSale : ∀ (taker : string) (saleId : Z),
    calls_made (λ C, takeCollateralSale C taker saleId)
| call_reclaimExpiredSale : ∀ (caller : string) (saleId : Z),
    calls_made (λ C, reclaimExpiredSale C caller saleId).

(** The readers, with what they make of an answer. *)
Inductive answers_read {W : Type} : ∀ {A : Type}, (Client W → M W A) → (jsval → A) → Prop :=
| read_getPoolContract : answers_read (λ C, getPoolContract C) id
| read_getCollateralRiskConfig : answers_read (λ C,
    getCollateralRiskConfig C) (decoded getCollateralRiskConfig_fields)
| read_getLiveCollateralRatio : ∀ (invoiceId : Z),
    answers_read (λ C, getLiveCollateralRatio C invoiceId) (λ v, num_of_Z (int_of v))
| read_getAtRiskSince : ∀ (invoiceId : Z),
    answers_read (λ C, getAtRiskSince C invoiceId)
      (λ v, if nullish v then None else Some (num_of_Z (int_of v)))
| read_getSale : ∀ (saleId : Z), answers_read (λ C, getSale C saleId) (decoded_opt collateralSaleFromRaw)
| read_currentSalePrice : ∀ (saleId : Z), answers_read (λ C, currentSalePrice C saleId) int_of.

(** ** They keep to the interface *)

Lemma auction_calls_conform {W A} (op : Client W → M W A) :
  calls_made op → conforming (abi_of Auction) op.
Proof. destruct 1; by calls. Qed.

Lemma auction_answers_decoded {W A} (op : Client W → M W A) mean :
  answers_read op mean → answered (abi_of Auction) op mean.
Proof. destruct 1; by answers. Qed.
End AuctionClient.
