(* ===== verification/AccessControlClient.v ===== *)
(** * clients/access_control.ts: roles and their proposals

    The payloads are those of types.ts. [roleFromNative] and
    [actionPayloadFromNative] are the conversions [KTag] and [KVariant] of Abi.v.
    [listProposals] counts up to the next identifier, which bounds its loop. In
    [initialize], an absent first signer is the empty address. *)
From S2P Require Import Prelude.
From S2P Require Import JsValue.
From S2P Require Import JsNumber.
From S2P Require Import Sdk.
From S2P Require Import Abi.
From S2P Require Import ContractAbi.
#[local] Open Scope string_scope.
#[local] Open Scope list_scope.
#[local] Open Scope Z_scope.

Inductive Role := Role_SuperAdmin | Role_RiskManager | Role_TreasuryManager | Role_ComplianceOfficer | Role_OracleManager.
Definition Role_name (v : Role) : string :=
  match v with Role_SuperAdmin => "SuperAdmin" | Role_RiskManager => "RiskManager" | Role_TreasuryManager => "TreasuryManager" | Role_ComplianceOfficer => "ComplianceOfficer" | Role_OracleManager => "OracleManager" end.

Definition roleToScVal (role : Role) : ScArg := ArgVec [ArgSymbol (Role_name role)].

Inductive ActionPayload :=
| SetPaused (paused : bool)
| SetYield (bps : Z)
| SetTreasury (address : string)
| WithdrawRevenue (token : string) (amount : Z)
| SetOracleContract (address : string)
| SetKycRequired (paused : bool)
| SetInvestorKyc (investor : string) (approved : bool)
| SetMaxUtilization (bps : Z)
| SetOracle (address : string)
| RegisterDebtor (debtorId : string) (debtorName : string) (maxExposure : Z)
| DeactivateDebtor (debtorId : string)
| AddKeeper (address : string)
| SetLateThreshold (days : Z)
| SetScoreThresholds (excellent : Z) (veryGood : Z) (good : Z) (fair : Z)
| RegisterAttestor (address : string) (attestorType : Z) (weightBps : Z)
| SetOracleRegistryInvoiceContract (address : string)
| SetOracleRegistryTreasury (treasury : option string)
| SetOracleRegistryConfig (minStake : Z) (requiredVotes : Z) (quorumBps : Z) (roundDurationSecs : Z) (deregisterCooldownSecs : Z)
| SetOracleRegistryPaused (paused : bool)
| SlashOracle (operator : string) (bps : Z) (roundId : Z) (evidence : string)
| AdminResolveRound (invoiceId : Z) (approved : bool) (reason : string)
| SetCompliancePaused (paused : bool)
| RegisterScreener (screener : string)
| ConfirmScreenerRegistration (screener : string)
| DeregisterScreener (screener : string)
| SetRescreeningInterval (secs : Z)
| SetScreenerTimelock (secs : Z)
| UpdateGovernanceConfig (quorumBps : Z) (passBps : Z)
| SetCategoryQuorum (category : Z) (quorumBps : Z)
| SetReferralPaused (paused : bool)
| SetReferralPool (address : string)
| SetBorrowRewardBps (bps : Z)
| SetDepositRewardBps (bps : Z)
| SetInvoiceAccessControl (newAccessControl : string)
| SetCreditScoreAccessControl (newAccessControl : string)
| SetOracleRegistryAccessControl (newAccessControl : string)
| SetComplianceAccessControl (newAccessControl : string)
| SetGovernanceAccessControl (newAccessControl : string)
| SetReferralAccessControl (newAccessControl : string)
| AddSigner (role : Role) (address : string)
| RemoveSigner (role : Role) (address : string)
| SetThreshold (role : Role) (threshold : Z).

Definition action_tag (action : ActionPayload) : string :=
  match action with
  | SetPaused _ => "SetPaused"
  | SetYield _ => "SetYield"
  | SetTreasury _ => "SetTreasury"
  | WithdrawRevenue _ _ => "WithdrawRevenue"
  | SetOracleContract _ => "SetOracleContract"
  | SetKycRequired _ => "SetKycRequired"
  | SetInvestorKyc _ _ => "SetInvestorKyc"
  | SetMaxUtilization _ => "SetMaxUtilization"
  | SetOracle _ => "SetOracle"
  | RegisterDebtor _ _ _ => "RegisterDebtor"
  | DeactivateDebtor _ => "DeactivateDebtor"
  | AddKeeper _ => "AddKeeper"
  | SetLateThreshold _ => "SetLateThreshold"
  | SetScoreThresholds _ _ _ _ => "SetScoreThresholds"
  | RegisterAttestor _ _ _ => "RegisterAttestor"
  | SetOracleRegistryInvoiceContract _ => "SetOracleRegistryInvoiceContract"
  | SetOracleRegistryTreasury _ => "SetOracleRegistryTreasury"
  | SetOracleRegistryConfig _ _ _ _ _ => "SetOracleRegistryConfig"
  | SetOracleRegistryPaused _ => "SetOracleRegistryPaused"
  | SlashOracle _ _ _ _ => "SlashOracle"
  | AdminResolveRound _ _ _ => "AdminResolveRound"
  | SetCompliancePaused _ => "SetCompliancePaused"
  | RegisterScreener _ => "RegisterScreener"
  | ConfirmScreenerRegistration _ => "ConfirmScreenerRegistration"
  | DeregisterScreener _ => "DeregisterScreener"
  | SetRescreeningInterval _ => "SetRescreeningInterval"
  | SetScreenerTimelock _ => "SetScreenerTimelock"
  | UpdateGovernanceConfig _ _ => "UpdateGovernanceConfig"
  | SetCategoryQuorum _ _ => "SetCategoryQuorum"
  | SetReferralPaused _ => "SetReferralPaused"
  | SetReferralPool _ => "SetReferralPool"
  | SetBorrowRewardBps _ => "SetBorrowRewardBps"
  | SetDepositRewardBps _ => "SetDepositRewardBps"
  | SetInvoiceAccessControl _ => "SetInvoiceAccessControl"
  | SetCreditScoreAccessControl _ => "SetCreditScoreAccessControl"
  | SetOracleRegistryAccessControl _ => "SetOracleRegistryAccessControl"
  | SetComplianceAccessControl _ => "SetComplianceAccessControl"
  | SetGovernanceAccessControl _ => "SetGovernanceAccessControl"
  | SetReferralAccessControl _ => "SetReferralAccessControl"
  | AddSigner _ _ => "AddSigner"
  | RemoveSigner _ _ => "RemoveSigner"
  | SetThreshold _ _ => "SetThreshold"
  end.

Definition actionPayloadToScVal (action : ActionPayload) : ScArg :=
  let tag := ArgSymbol (action_tag action) in
  match action with
  | SetPaused paused | SetKycRequired paused => ArgVec [tag; ArgBool paused]
  | SetYield bps | SetMaxUtilization bps => ArgVec [tag; ArgU32 bps]
  | SetTreasury address | SetOracleContract address | SetOracle address | AddKeeper address =>
      ArgVec [tag; ArgAddress address]
  | WithdrawRevenue token amount => ArgVec [tag; ArgAddress token; ArgI128 amount]
  | SetInvestorKyc investor approved => ArgVec [tag; ArgAddress investor; ArgBool approved]
  | RegisterDebtor debtorId debtorName maxExposure =>
      ArgVec [tag; ArgString (JStr debtorId); ArgString (JStr debtorName); ArgI128 maxExposure]
  | DeactivateDebtor debtorId => ArgVec [tag; ArgString (JStr debtorId)]
  | SetLateThreshold days => ArgVec [tag; ArgI64 days]
  | SetScoreThresholds excellent veryGood good fair =>
      ArgVec [tag; ArgU32 excellent; ArgU32 veryGood; ArgU32 good; ArgU32 fair]
  | RegisterAttestor address attestorType weightBps =>
      ArgVec [tag; ArgAddress address; ArgU32 attestorType; ArgU32 weightBps]
  | AddSigner role address | RemoveSigner role address => ArgVec [tag; roleToScVal role; ArgAddress address]
  | SetThreshold role threshold => ArgVec [tag; roleToScVal role; ArgU32 threshold]
  | SetOracleRegistryInvoiceContract address | SetReferralPool address => ArgVec [tag; ArgAddress address]
  | SetOracleRegistryTreasury treasury =>
      ArgVec [tag; match treasury with None => ArgVoid | Some treasury => ArgAddress treasury end]
  | SetOracleRegistryConfig minStake requiredVotes quorumBps roundDurationSecs deregisterCooldownSecs =>
      ArgVec [tag; ArgI128 minStake; ArgU32 requiredVotes; ArgU32 quorumBps; ArgU64 roundDurationSecs;
              ArgU64 deregisterCooldownSecs]
  | SetOracleRegistryPaused paused | SetCompliancePaused paused | SetReferralPaused paused =>
      ArgVec [tag; ArgBool paused]
  | SlashOracle operator bps roundId evidence =>
      ArgVec [tag; ArgAddress operator; ArgU32 bps; ArgU64 roundId; ArgString (JStr evidence)]
  | AdminResolveRound invoiceId approved reason =>
      ArgVec [tag; ArgU64 invoiceId; ArgBool approved; ArgString (JStr reason)]
  | RegisterScreener screener | ConfirmScreenerRegistration screener | DeregisterScreener screener =>
      ArgVec [tag; ArgAddress screener]
  | SetRescreeningInterval secs | SetScreenerTimelock secs => ArgVec [tag; ArgU64 secs]
  | UpdateGovernanceConfig quorumBps passBps => ArgVec [tag; ArgU32 quorumBps; ArgU32 passBps]
  | SetCategoryQuorum category quorumBps => ArgVec [tag; ArgU32 category; ArgU32 quorumBps]
  | SetBorrowRewardBps bps | SetDepositRewardBps bps => ArgVec [tag; ArgU32 bps]
  | SetInvoiceAccessControl newAccessControl | SetCreditScoreAccessControl newAccessControl
  | SetOracleRegistryAccessControl newAccessControl | SetComplianceAccessControl newAccessControl
  | SetGovernanceAccessControl newAccessControl | SetReferralAccessControl newAccessControl =>
      ArgVec [tag; ArgAddress newAccessControl]
  end.

(** The payloads whose encoding is one of the contract's: not the two whose fields
    the contract has changed. *)
Definition encodable (action : ActionPayload) : bool :=
  match action with UpdateGovernanceConfig _ _ | SetCategoryQuorum _ _ => false | _ => true end.

Lemma actionPayloadToScVal_accepts action :
  accepts AccessControl_ActionPayload (actionPayloadToScVal action) = encodable action.
Proof.
  destruct action; first
    [ reflexivity | match goal with r : Role |- _ => by destruct r | o : option string |- _ => by destruct o end ].
Qed.
Lemma actionPayloadToScVal_accepted action :
  encodable action = true → accepts AccessControl_ActionPayload (actionPayloadToScVal action) = true.
Proof. by rewrite actionPayloadToScVal_accepts. Qed.
#[export] Hint Resolve actionPayloadToScVal_accepted : accepts.

Lemma roleToScVal_accepted v : accepts AccessControl_Role (roleToScVal v) = true.
Proof. by destruct v. Qed.
#[export] Hint Resolve roleToScVal_accepted : accepts.

(** ** AccessControlClient *)

Section client.
Context {W : Type} (C : Client W).

Definition initialize (superAdminSigners : list string) (superAdminThreshold proposalExpirySecs : Z)
   : M W string :=
  let source := default "" (head superAdminSigners) in
  send C source "initialize"
    [ArgVec (map ArgAddress superAdminSigners); ArgU32 superAdminThreshold; ArgU64 proposalExpirySecs].

Definition getRoleConfig_fields : list Field :=
  [field "signers" (KRawOr (JArr [])) "signers"; field "threshold" KNumOr0 "threshold"].

Definition getRoleConfig (role : Role) : M W (option (list (string * value))) :=
  query C "get_role_config" [roleToScVal role] (decode_opt getRoleConfig_fields).

Definition isSigner (role : Role) (address : string) : M W bool :=
  query C "is_signer" [roleToScVal role; ArgAddress address] as_boolean.

Definition getNextProposalId : M W Z :=
  query C "get_next_proposal_id" [] to_BigInt.

Definition getProposal_fields : list Field :=
  [field "role" KTag "role"; field "target" KRaw "target"; field "action" KVariant "action";
   field "proposer" KRaw "proposer"; field "approvals" (KRawOr (JArr [])) "approvals";
   field "createdAt" KBigIntOr0 "created_at"; field "expiresAt" KBigIntOr0 "expires_at";
   field "status" KTag "status"].

Definition getProposal (proposalId : Z) : M W (option (list (string * value))) :=
  query C "get_proposal" [ArgU64 proposalId] (decode_opt getProposal_fields).

Fixpoint proposals_from (fuel : nat) (id : Z) : M W (list (Z * list (string * value))) :=
  match fuel with
  | O => mret []
  | S fuel' =>
      proposal ← getProposal id;
      results ← proposals_from fuel' (id + 1);
      mret (match proposal with Some p => (id, p) :: results | None => results end)
  end.

Definition listProposals : M W (list (Z * list (string * value))) :=
  nextId ← getNextProposalId;
  proposals_from (Z.to_nat nextId) 0.

Definition proposeAction (role : Role) (proposer target : string) (action : ActionPayload)
    : M W string :=
  send C proposer "propose_action"
    [roleToScVal role; ArgAddress proposer; ArgAddress target; actionPayloadToScVal action].

Definition approveAction (signerAddress : string) (proposalId : Z) : M W string :=
  send C signerAddress "approve_action" [ArgAddress signerAddress; ArgU64 proposalId].

Definition revokeApproval (signerAddress : string) (proposalId : Z) : M W string :=
  send C signerAddress "revoke_approval" [ArgAddress signerAddress; ArgU64 proposalId].

Definition rejectAction (signerAddress : string) (proposalId : Z) : M W string :=
  send C signerAddress "reject_action" [ArgAddress signerAddress; ArgU64 proposalId].

Definition executeAction (caller : string) (proposalId : Z) : M W string :=
  send C caller "execute_action" [ArgAddress caller; ArgU64 proposalId].

End client.

(** ** The operations *)

(** Those that make calls of the contract. *)
Inductive calls_made {W : Type} : ∀ {A : Type}, (Client W → M W A) → Prop :=
| call_getRoleConfig : ∀ (role : Role), calls_made (λ C, getRoleConfig C role)
| call_isSigner : ∀ (role : Role) (address : string), calls_made (λ C, isSigner C role address)
| call_getNextProposalId : calls_made (λ C, getNextProposalId C)
| call_listProposals : calls_made (λ C, listProposals C)
| call_getProposal : ∀ (proposalId : Z), calls_made (λ C, getProposal C proposalId)
| call_proposeAction : ∀ (role : Role) (proposer target : string) (action : ActionPayload),
    encodable action = true → calls_made (λ C, proposeAction C role proposer target action)
| call_approveAction : ∀ (signerAddress : string) (proposalId : Z),
    calls_made (λ C, approveAction C signerAddress proposalId)
| call_revokeApproval : ∀ (signerAddress : string) (proposalId : Z),
    calls_made (λ C, revokeApproval C signerAddress proposalId)
| call_rejectAction : ∀ (signerAddress : string) (proposalId : Z),
    calls_made (λ C, rejectAction C signerAddress proposalId)
| call_executeAction : ∀ (caller : string) (proposalId : Z),
    calls_made (λ C, executeAction C caller proposalId).

(** Those whose call is none of the contract. *)
Inductive calls_lost {W : Type} : ∀ {A : Type}, (Client W → M W A) → Prop :=
| lost_initialize : ∀ (superAdminSigners : list string) (superAdminThreshold proposalExpirySecs : Z),
    calls_lost (λ C, initialize C superAdminSigners superAdminThreshold proposalExpirySecs)
| lost_proposeAction : ∀ (role : Role) (proposer target : string) (action : ActionPayload),
    encodable action = false → calls_lost (λ C, proposeAction C role proposer target action).

(** The readers, with what they make of an answer. *)
Inductive answers_read {W : Type} : ∀ {A : Type}, (Client W → M W A) → (jsval → A) → Prop :=
| read_getRoleConfig : ∀ (role : Role),
    answers_read (λ C, getRoleConfig C role) (decoded_opt getRoleConfig_fields)
| read_isSigner : ∀ (role : Role) (address : string), answers_read (λ C, isSigner C role address) truthy
| read_getNextProposalId : answers_read (λ C, getNextProposalId C) int_of
| read_getProposal : ∀ (proposalId : Z),
    answers_read (λ C, getProposal C proposalId) (decoded_opt getProposal_fields).

(** ** They keep to the interface *)

Lemma access_control_calls_conform {W A} (op : Client W → M W A) :
  calls_made op → conforming (abi_of AccessControl) op.
Proof. destruct 1; by calls. Qed.

Lemma access_control_calls_refused {W A} (op : Client W → M W A) :
  calls_lost op → refused (abi_of AccessControl) op.
Proof.
  destruct 1 as [signers threshold secs|role proposer target action Ha]; apply send_refused.
  - by destruct signers as [|a signers]; [|cbn; destruct (forallb _ _)].
  - destruct action; try discriminate Ha; by destruct role.
Qed.

Lemma access_control_answers_decoded {W A} (op : Client W → M W A) mean :
  answers_read op mean → answered (abi_of AccessControl) op mean.
Proof. destruct 1; by answers. Qed.
