(* ===== verification/GovernanceClient.v ===== *)
(** * clients/governance.ts: governance

    The actions are those of generated/governance.ts, with the constructors the
    union's [type]s. No method passes [onProgress] on. The contract this client was
    written for is not the one of the repository: most of its calls are lost. *)
From S2P Require Import Prelude.
From S2P Require Import JsValue.
From S2P Require Import JsNumber.
From S2P Require Import Sdk.
From S2P Require Import Abi.
From S2P Require Import ContractAbi.
#[local] Open Scope string_scope.
#[local] Open Scope list_scope.
#[local] Open Scope Z_scope.

(** generated/governance.ts. *)
Record LoyaltyTier := { lt_days_threshold : Z; lt_bonus_bps : Z }.
Record FeeTier := { ft_min_amount : Z; ft_max_amount : Z; ft_min_credit_score : Z; ft_fee_bps : Z }.
Record CollateralConfig := { cc_threshold : Z; cc_collateral_bps : Z }.
Record QuorumTier := { qt_min_invoice_amount : Z; qt_quorum_bps : Z }.

Inductive ProposalCategory := ParameterChange | Treasury | Critical.
Definition ProposalCategory_value (c : ProposalCategory) : Z :=
  match c with ParameterChange => 0 | Treasury => 1 | Critical => 2 end.

Inductive GovernanceAction :=
| SetPoolYield (value : Z)
| SetPoolTreasury (value : string)
| SetPoolMaxUtilization (value : Z)
| SetPoolOracleContract (value : string)
| SetPoolKycRequired (value : bool)
| SetPoolComplianceRegistry (value : string)
| SetPoolRequireComplianceCheck (value : bool)
| SetPoolReferralRegistry (value : string)
| SetPoolCreditScoreContract (value : string)
| SetPoolInsuranceContract (value : string)
| SetPoolCompoundInterest (value : bool)
| SetPoolSecondaryMarketContract (value : string)
| SetPoolRiskContract (value : string)
| SetPoolMinDeposit (value : Z)
| SetPoolMaxInvestorConcentration (value : Z)
| SetPoolUpgradeTimelock (value : Z)
| SetPoolOperationDelay (value : Z)
| SetPoolYieldChangePolicy (value : Z)
| SetPoolFactoringFee (value : Z)
| SetPoolWithdrawalLimits (value : Z)
| SetPoolMaxWithdrawalQueueAge (value : Z)
| SetPoolMaxWithdrawalQueueDepth (value : Z)
| SetPoolOracleStaleThreshold (value : Z)
| SetPoolFeeTier (tier_id : Z) (tier : FeeTier)
| SetPoolLoyaltyTiers (tiers : list LoyaltyTier)
| SetPoolFallbackPrice (token : string) (price : Z)
| SetPoolRateBounds (token : string) (min_rate : Z) (max_rate : Z)
| SetPoolExchangeRate (token : string) (rate : Z)
| SetPoolCollateralConfig (config : CollateralConfig)
| SetInvoiceGracePeriod (value : Z)
| SetInvoiceMaxAmount (value : Z)
| SetInvoiceMaxSmeOutstanding (value : Z)
| SetInvoiceExpirationDuration (value : Z)
| SetInvoiceCompletedTtl (value : Z)
| SetInvoiceDailyLimit (value : Z)
| SetInvoiceDisputeWindow (value : Z)
| SetInvoiceOracle (value : string)
| SetInvoiceSecondaryOracle (value : option string)
| SetInvoiceOracleRegistry (value : string)
| SetInvoiceConsensusRequired (value : bool)
| SetInvoiceComplianceRegistry (value : string)
| SetInvoiceRequireComplianceCheck (value : bool)
| SetInvoiceRequireRegisteredDebtor (value : bool)
| SetInvoiceOracleVerifiedFundingOnly (value : bool)
| SetInvoiceArbitrationContract (value : string)
| SetInvoiceDisputeValueThreshold (value : Z)
| SetInvoiceMetadataImageUri (value : string)
| SetInvoiceMinDueDateWindow (value : Z)
| SetOracleRegistryInvoiceContract (value : string)
| SetOracleRegistryTreasury (value : option string)
| SetOracleRegistryConfig (min_stake : Z) (required_votes : Z) (quorum_bps : Z) (round_duration_secs : Z) (deregister_cooldown_secs : Z)
| SetOracleRegistryQuorumTiers (tiers : list QuorumTier)
| SetComplianceRescreeningInterval (value : Z)
| SetComplianceScreenerTimelock (value : Z).

Definition LoyaltyTierToScVal (tier : LoyaltyTier) : ScArg :=
  ArgMap [("days_threshold", ArgU32 (lt_days_threshold tier)); ("bonus_bps", ArgU32 (lt_bonus_bps tier))].
Definition QuorumTierToScVal (tier : QuorumTier) : ScArg :=
  ArgMap [("min_invoice_amount", ArgI128 (qt_min_invoice_amount tier));
          ("quorum_bps", ArgU32 (qt_quorum_bps tier))].
(** [a ? new Address(a).toScVal() : scvVoid()]. *)
Definition optional_address (a : option string) : ScArg :=
  match a with Some (String _ _ as a) => ArgAddress a | _ => ArgVoid end.

(** An action is a map of one entry, its name. *)
Definition governanceActionToScVal (action : GovernanceAction) : ScArg :=
  match action with
  | SetPoolYield value => ArgMap [("SetPoolYield", ArgU32 value)]
  | SetPoolTreasury value => ArgMap [("SetPoolTreasury", ArgAddress value)]
  | SetPoolMaxUtilization value => ArgMap [("SetPoolMaxUtilization", ArgU32 value)]
  | SetPoolOracleContract value => ArgMap [("SetPoolOracleContract", ArgAddress value)]
  | SetPoolKycRequired value => ArgMap [("SetPoolKycRequired", ArgBool value)]
  | SetPoolComplianceRegistry value => ArgMap [("SetPoolComplianceRegistry", ArgAddress value)]
  | SetPoolRequireComplianceCheck value => ArgMap [("SetPoolRequireComplianceCheck", ArgBool value)]
  | SetPoolReferralRegistry value => ArgMap [("SetPoolReferralRegistry", ArgAddress value)]
  | SetPoolCreditScoreContract value => ArgMap [("SetPoolCreditScoreContract", ArgAddress value)]
  | SetPoolInsuranceContract value => ArgMap [("SetPoolInsuranceContract", ArgAddress value)]
  | SetPoolCompoundInterest value => ArgMap [("SetPoolCompoundInterest", ArgBool value)]
  | SetPoolSecondaryMarketContract value => ArgMap [("SetPoolSecondaryMarketContract", ArgAddress value)]
  | SetPoolRiskContract value => ArgMap [("SetPoolRiskContract", ArgAddress value)]
  | SetPoolMinDeposit value => ArgMap [("SetPoolMinDeposit", ArgI128 value)]
  | SetPoolMaxInvestorConcentration value => ArgMap [("SetPoolMaxInvestorConcentration", ArgU32 value)]
  | SetPoolUpgradeTimelock value => ArgMap [("SetPoolUpgradeTimelock", ArgU64 value)]
  | SetPoolOperationDelay value => ArgMap [("SetPoolOperationDelay", ArgU64 value)]
  | SetPoolYieldChangePolicy value => ArgMap [("SetPoolYieldChangePolicy", ArgU64 value)]
  | SetPoolFactoringFee value => ArgMap [("SetPoolFactoringFee", ArgU32 value)]
  | SetPoolWithdrawalLimits value => ArgMap [("SetPoolWithdrawalLimits", ArgU32 value)]
  | SetPoolMaxWithdrawalQueueAge value => ArgMap [("SetPoolMaxWithdrawalQueueAge", ArgU32 value)]
  | SetPoolMaxWithdrawalQueueDepth value => ArgMap [("SetPoolMaxWithdrawalQueueDepth", ArgU32 value)]
  | SetPoolOracleStaleThreshold value => ArgMap [("SetPoolOracleStaleThreshold", ArgU64 value)]
  | SetPoolFeeTier tier_id tier =>
      ArgMap [("SetPoolFeeTier", ArgMap [("tier_id", ArgU32 tier_id);
         ("tier", ArgMap [("min_amount", ArgI128 (ft_min_amount tier));
         ("max_amount", ArgI128 (ft_max_amount tier));
         ("min_credit_score", ArgU32 (ft_min_credit_score tier)); ("fee_bps", ArgU32 (ft_fee_bps tier))])])]
  | SetPoolLoyaltyTiers tiers => ArgMap [("SetPoolLoyaltyTiers", ArgVec (map LoyaltyTierToScVal tiers))]
  | SetPoolFallbackPrice token price =>
      ArgMap [("SetPoolFallbackPrice", ArgMap [("token", ArgAddress token); ("price", ArgI128 price)])]
  | SetPoolRateBounds token min_rate max_rate =>
      ArgMap [("SetPoolRateBounds", ArgMap [("token", ArgAddress token); ("min_rate", ArgI128 min_rate);
         ("max_rate", ArgI128 max_rate)])]
  | SetPoolExchangeRate token rate =>
      ArgMap [("SetPoolExchangeRate", ArgMap [("token", ArgAddress token); ("rate", ArgI128 rate)])]
  | SetPoolCollateralConfig config =>
      ArgMap [("SetPoolCollateralConfig", ArgMap [("threshold", ArgI128 (cc_threshold config));
         ("collateral_bps", ArgU32 (cc_collateral_bps config))])]
  | SetInvoiceGracePeriod value => ArgMap [("SetInvoiceGracePeriod", ArgU32 value)]
  | SetInvoiceMaxAmount value => ArgMap [("SetInvoiceMaxAmount", ArgI128 value)]
  | SetInvoiceMaxSmeOutstanding value => ArgMap [("SetInvoiceMaxSmeOutstanding", ArgI128 value)]
  | SetInvoiceExpirationDuration value => ArgMap [("SetInvoiceExpirationDuration", ArgU64 value)]
  | SetInvoiceCompletedTtl value => ArgMap [("SetInvoiceCompletedTtl", ArgU32 value)]
  | SetInvoiceDailyLimit value => ArgMap [("SetInvoiceDailyLimit", ArgU32 value)]
  | SetInvoiceDisputeWindow value => ArgMap [("SetInvoiceDisputeWindow", ArgU64 value)]
  | SetInvoiceOracle value => ArgMap [("SetInvoiceOracle", ArgAddress value)]
  | SetInvoiceSecondaryOracle value => ArgMap [("SetInvoiceSecondaryOracle", optional_address value)]
  | SetInvoiceOracleRegistry value => ArgMap [("SetInvoiceOracleRegistry", ArgAddress value)]
  | SetInvoiceConsensusRequired value => ArgMap [("SetInvoiceConsensusRequired", ArgBool value)]
  | SetInvoiceComplianceRegistry value => ArgMap [("SetInvoiceComplianceRegistry", ArgAddress value)]
  | SetInvoiceRequireComplianceCheck value => ArgMap [("SetInvoiceRequireComplianceCheck", ArgBool value)]
  | SetInvoiceRequireRegisteredDebtor value => ArgMap [("SetInvoiceRequireRegisteredDebtor", ArgBool value)]
  | SetInvoiceOracleVerifiedFundingOnly value =>
      ArgMap [("SetInvoiceOracleVerifiedFundingOnly", ArgBool value)]
  | SetInvoiceArbitrationContract value => ArgMap [("SetInvoiceArbitrationContract", ArgAddress value)]
  | SetInvoiceDisputeValueThreshold value => ArgMap [("SetInvoiceDisputeValueThreshold", ArgI128 value)]
  | SetInvoiceMetadataImageUri value => ArgMap [("SetInvoiceMetadataImageUri", ArgString (JStr value))]
  | SetInvoiceMinDueDateWindow value => ArgMap [("SetInvoiceMinDueDateWindow", ArgU64 value)]
  | SetOracleRegistryInvoiceContract value =>
      ArgMap [("SetOracleRegistryInvoiceContract", ArgAddress value)]
  | SetOracleRegistryTreasury value => ArgMap [("SetOracleRegistryTreasury", optional_address value)]
  | SetOracleRegistryConfig min_stake required_votes quorum_bps round_duration_secs deregister_cooldown_secs =>
      ArgMap [("SetOracleRegistryConfig", ArgMap [("min_stake", ArgI128 min_stake);
         ("required_votes", ArgU32 required_votes); ("quorum_bps", ArgU32 quorum_bps);
         ("round_duration_secs", ArgU64 round_duration_secs);
         ("deregister_cooldown_secs", ArgU64 deregister_cooldown_secs)])]
  | SetOracleRegistryQuorumTiers tiers =>
      ArgMap [("SetOracleRegistryQuorumTiers", ArgVec (map QuorumTierToScVal tiers))]
  | SetComplianceRescreeningInterval value => ArgMap [("SetComplianceRescreeningInterval", ArgU64 value)]
  | SetComplianceScreenerTimelock value => ArgMap [("SetComplianceScreenerTimelock", ArgU64 value)]
  end.

Definition proposalFromScVal : list Field :=
  [field "id" KBig "id"; field "proposer" KRaw "proposer"; field "description" KRaw "description";
   field "target_contract" KRaw "target_contract"; field "action" KRaw "action";
   field "votes_for" KBig "votes_for"; field "votes_against" KBig "votes_against";
   field "status" KRaw "status"; field "created_at" KNum "created_at";
   field "voting_ends_at" KNum "voting_ends_at"; field "execution_delay" KNum "execution_delay";
   field "snapshot_supply" KBig "snapshot_supply"; field "passed_at" KNum "passed_at";
   field "category" KRaw "category"; field "quorum_bps" KNum "quorum_bps";
   field "pass_bps" KNum "pass_bps"].

Definition configFromScVal : list Field :=
  [field "admin" KRaw "admin"; field "share_token" KRaw "share_token";
   field "min_voting_period_secs" KNum "min_voting_period_secs";
   field "default_execution_delay_secs" KNum "default_execution_delay_secs";
   field "parameter_change_quorum_bps" KNum "parameter_change_quorum_bps";
   field "treasury_quorum_bps" KNum "treasury_quorum_bps";
   field "critical_quorum_bps" KNum "critical_quorum_bps";
   field "parameter_change_pass_bps" KNum "parameter_change_pass_bps";
   field "treasury_pass_bps" KNum "treasury_pass_bps";
   field "critical_pass_bps" KNum "critical_pass_bps";
   field "execution_expiry_secs" KNum "execution_expiry_secs";
   field "execution_delay_secs" KNum "execution_delay_secs"].

(** ** GovernanceClient *)

Section client.
Context {W : Type} (C : Client W).

Definition initialize (admin shareToken : string) (minVotingPeriodSecs defaultExecutionDelaySecs parameterChangeQuorumBps treasuryQuorumBps criticalQuorumBps parameterChangePassBps treasuryPassBps criticalPassBps executionExpirySecs : Z) (caller : string) : M W string :=
  send (silent C) caller "initialize"
    [ArgAddress admin; ArgAddress shareToken; ArgU64 minVotingPeriodSecs;
     ArgU64 defaultExecutionDelaySecs; ArgU32 parameterChangeQuorumBps; ArgU32 treasuryQuorumBps;
     ArgU32 criticalQuorumBps; ArgU32 parameterChangePassBps; ArgU32 treasuryPassBps;
     ArgU32 criticalPassBps; ArgU64 executionExpirySecs].

Definition createProposal (description targetContract : string) (action : GovernanceAction)
    (category : ProposalCategory) (votingPeriodSecs executionDelaySecs : option Z) (caller : string)
   : M W (jsval * string) :=
  txHash ← send (silent C) caller "create_proposal"
    [ArgString (JStr description); ArgAddress targetContract; governanceActionToScVal action;
     ArgU32 (ProposalCategory_value category); ArgU64 (default 0 votingPeriodSecs);
     ArgU64 (default 0 executionDelaySecs)];
  proposalId ← read C "get_last_proposal_id" [];
  mret (proposalId, txHash).

Definition vote (proposalId : Z) (voteFor : bool) (shares : Z) (caller : string) : M W string :=
  send (silent C) caller "vote"
    [ArgU64 proposalId; ArgBool voteFor; ArgI128 shares].

Definition executeProposal (proposalId : Z) (caller : string) : M W string :=
  send (silent C) caller "execute_proposal"
    [ArgU64 proposalId].

Definition cancelProposal (proposalId : Z) (caller : string) : M W string :=
  send (silent C) caller "cancel_proposal"
    [ArgU64 proposalId].

Definition getProposal (proposalId : Z) : M W (list (string * value)) :=
  query C "get_proposal" [ArgU64 proposalId] (decode proposalFromScVal).

Definition getAllProposals : M W jsval :=
  query C "get_all_proposals" [] as_raw.

Definition getConfig : M W (list (string * value)) :=
  query C "get_config" [] (decode configFromScVal).

Definition getGovernanceAddress : M W jsval :=
  try_catch (read C "get_governance_address" []) (λ e, mret JNull).

Definition setExecutionDelay (executionDelaySecs : Z) (caller : string) : M W string :=
  send (silent C) caller "set_execution_delay"
    [ArgU64 executionDelaySecs].

End client.

(** ** The operations *)

(** Those that make calls of the contract. *)
Inductive calls_made {W : Type} : ∀ {A : Type}, (Client W → M W A) → Prop :=
| call_executeProposal : ∀ (proposalId : Z) (caller : string),
    calls_made (λ C, executeProposal C proposalId caller)
| call_getProposal : ∀ (proposalId : Z), calls_made (λ C, getProposal C proposalId)
| call_getConfig : calls_made (λ C, getConfig C)
| call_getGovernanceAddress : calls_made (λ C, getGovernanceAddress C).

(** Those whose call is none of the contract. *)
Inductive calls_lost {W : Type} : ∀ {A : Type}, (Client W → M W A) → Prop :=
| lost_initialize : ∀ (admin shareToken : string) (minVotingPeriodSecs defaultExecutionDelaySecs parameterChangeQuorumBps treasuryQuorumBps criticalQuorumBps parameterChangePassBps treasuryPassBps criticalPassBps executionExpirySecs : Z) (caller : string),
    calls_lost (λ C, initialize C admin shareToken minVotingPeriodSecs defaultExecutionDelaySecs parameterChangeQuorumBps treasuryQuorumBps criticalQuorumBps parameterChangePassBps treasuryPassBps criticalPassBps executionExpirySecs caller)
| lost_createProposal : ∀ (description targetContract : string) (action : GovernanceAction) (category : ProposalCategory) (votingPeriodSecs executionDelaySecs : option Z) (caller : string),
    calls_lost (λ C, createProposal C description targetContract action category votingPeriodSecs executionDelaySecs caller)
| lost_vote : ∀ (proposalId : Z) (voteFor : bool) (shares : Z) (caller : string),
    calls_lost (λ C, vote C proposalId voteFor shares caller)
| lost_cancelProposal : ∀ (proposalId : Z) (caller : string),
    calls_lost (λ C, cancelProposal C proposalId caller)
| lost_getAllProposals : calls_lost (λ C, getAllProposals C)
| lost_setExecutionDelay : ∀ (executionDelaySecs : Z) (caller : string),
    calls_lost (λ C, setExecutionDelay C executionDelaySecs caller).

(** ** They keep to the interface *)

Lemma governance_calls_conform {W A} (op : Client W → M W A) :
  calls_made op → conforming (abi_of Governance) op.
Proof. destruct 1; by calls. Qed.

Lemma governance_calls_refused {W A} (op : Client W → M W A) :
  calls_lost op → refused (abi_of Governance) op.
Proof. destruct 1; by calls. Qed.

(** An answer of a configuration lacks most of what [getConfig] reads: the fields
    are [NaN]. *)
Lemma getConfig_unread v k :
  native Governance_GovernanceConfig v = true → In k (missing_fields configFromScVal Governance_GovernanceConfig) →
  ∃ l, decode configFromScVal v = Ok l ∧ In (k, VNum NaN) l.
Proof.
  intros Hn Hk. destruct (native_struct _ _ Hn) as [o ->].
  assert (obj_get o k = JUndef) as Ho.
  { apply (native_absent _ _ k Hn). repeat destruct Hk as [<-|Hk]; done. }
  eexists. split; [unfold decode; cbn [configFromScVal field mapM]; reflexivity|].
  repeat destruct Hk as [<-|Hk]; try done; rewrite Ho; cbn; tauto.
Qed.

(** [get_proposal] answers with nothing for a number that is no proposal's. *)
Lemma getProposal_missing {W} (C : Client W) proposalId w w' :
  read C "get_proposal" [ArgU64 proposalId] w = (Ok JNull, w') →
  ∃ e, getProposal C proposalId w = (Throw e, w').
Proof. intros E. unfold getProposal, query, mbind, M_bind. rewrite E. cbn. eauto. Qed.
