(* ===== verification/PoolClient.v ===== *)
(** * clients/pool.ts: the pool

    The listings of the secondary market are still here, though the contract's
    have moved: those calls, and three others, are lost. *)
From S2P Require Import Prelude.
From S2P Require Import JsValue.
From S2P Require Import JsNumber.
From S2P Require Import Sdk.
From S2P Require Import Abi.
From S2P Require Import ContractAbi.
#[local] Open Scope string_scope.
#[local] Open Scope list_scope.
#[local] Open Scope Z_scope.

Inductive ListingKind := ListingKind_CoFunding | ListingKind_SingleFunded.
Definition ListingKind_name (v : ListingKind) : string :=
  match v with ListingKind_CoFunding => "CoFunding" | ListingKind_SingleFunded => "SingleFunded" end.

Definition listingKindToScVal (kind : ListingKind) : ScArg := ArgVec [ArgSymbol (ListingKind_name kind)].

(** The parameters of [openCoFunding], a request of [fundInvoicesBatch], and
    [RateModelConfig] of types.ts. *)
Record OpenCoFunding := {
  oc_invoiceId : Z; oc_token : string; oc_targetPrincipal : Z; oc_sme : string; oc_dueDate : Z;
  oc_fundingDeadline : Z; oc_minCommitment : Z; oc_maxInvestorBps : Z
}.
Record FundingRequest := { invoice_id : Z; principal : Z; sme : string; due_date : Z; token : string }.
Record RateModelConfig := {
  baseRateBps : Z; optimalUtilizationBps : Z; slope1Bps : Z; slope2Bps : Z; maxRateBps : Z
}.

Definition openCoFundingRequestToScVal (params : OpenCoFunding) : ScArg :=
  ArgMap [("due_date", ArgU64 (oc_dueDate params)); ("funding_deadline", ArgU64 (oc_fundingDeadline params));
          ("invoice_id", ArgU64 (oc_invoiceId params));
          ("max_investor_bps", ArgU32 (oc_maxInvestorBps params));
          ("min_commitment", ArgI128 (oc_minCommitment params)); ("sme", ArgAddress (oc_sme params));
          ("target_principal", ArgI128 (oc_targetPrincipal params)); ("token", ArgAddress (oc_token params))].

Definition rateModelConfigToScVal (config : RateModelConfig) : ScArg :=
  ArgMap [("base_rate_bps", ArgU32 (baseRateBps config)); ("max_rate_bps", ArgU32 (maxRateBps config));
          ("optimal_utilization_bps", ArgU32 (optimalUtilizationBps config));
          ("slope1_bps", ArgU32 (slope1Bps config)); ("slope2_bps", ArgU32 (slope2Bps config))].

(** The entries in the order of the parameters, which is not that of their names. *)
Definition fundingRequestToScVal (r : FundingRequest) : ScArg :=
  ArgMap [("invoice_id", ArgU64 (invoice_id r)); ("principal", ArgI128 (principal r));
          ("sme", ArgAddress (sme r)); ("due_date", ArgU64 (due_date r)); ("token", ArgAddress (token r))].

Definition mapFundedInvoice : list Field :=
  [field "invoiceId" KBig "invoice_id"; field "sme" KRaw "sme"; field "token" KRaw "token";
   field "principal" KBig "principal"; field "committed" KBigOr0 "committed";
   field "fundedAt" KNum "funded_at"; field "factoringFee" KBigOr0 "factoring_fee";
   field "dueDate" KNum "due_date"; field "repaidAmount" KBigOr0 "repaid_amount";
   field "coFundingRoundId" KBigOpt "co_funding_round_id"].

Definition coFundingRoundFromScVal : list Field :=
  [field "invoiceId" KBig "invoice_id"; field "token" KRaw "token"; field "sme" KRaw "sme";
   field "dueDate" KNum "due_date"; field "targetPrincipal" KBig "target_principal";
   field "committedPrincipal" KBig "committed_principal";
   field "fundingDeadline" KNum "funding_deadline"; field "status" KRaw "status";
   field "minCommitment" KBig "min_commitment"; field "maxInvestorBps" KNum "max_investor_bps";
   field "participants" (KRawOr (JArr [])) "participants"].

Definition rateModelConfigFromScVal : list Field :=
  [field "baseRateBps" KNum "base_rate_bps";
   field "optimalUtilizationBps" KNum "optimal_utilization_bps"; field "slope1Bps" KNum "slope1_bps";
   field "slope2Bps" KNum "slope2_bps"; field "maxRateBps" KNum "max_rate_bps"].

(** [(raw ?? []).map(([invoiceId, bps]) => ..)]. *)
Definition position_of (p : jsval) : result (Z * jsval) :=
  match p with
  | JArr l => invoiceId ← as_bigint (arr_get l 0); Ok (invoiceId, arr_get l 1)
  | _ => Throw (ETypeError (js_String p +:+ " is not iterable"))
  end.
Definition positions_of (raw : jsval) : result (list (Z * jsval)) :=
  l ← array_or_empty raw; mapM position_of l.

Definition funded_invoices_of (raw : jsval) : result (list (option (list (string * value)))) :=
  l ← array raw; mapM (decode_opt mapFundedInvoice) l.

Lemma reads_positions v :
  native (TVec (TTuple [TU64; TU32])) v = true →
  positions_of v =
  Ok (map (λ p, (int_of (arr_get (elements_of p) 0), arr_get (elements_of p) 1)) (elements_of v)).
Proof.
  destruct v as [| | | | | |l|]; try done. intros Hl. apply (mapM_forallb _ _ (native (TTuple [TU64; TU32]))); [|done].
  intros [| | | | | |[|i [|bps []]]|] Hp; try done; cbn in Hp; rewrite ?andb_false_r in Hp; try done.
  apply andb_prop in Hp as [Hi _]. unfold position_of.
  change (arr_get [i; bps] 0) with i. by rewrite (reads_bigint TU64).
Qed.

Lemma reads_funded_invoices v :
  native (TVec (TOption Pool_FundedInvoice)) v = true →
  funded_invoices_of v = Ok (map (decoded_opt mapFundedInvoice) (elements_of v)).
Proof.
  destruct v as [| | | | | |l|]; try done. intros Hl. apply (mapM_forallb _ _ (native (TOption Pool_FundedInvoice))); [|done].
  intros x. by apply (reads_decode_opt Pool_FundedInvoice).
Qed.
#[export] Hint Resolve reads_positions reads_funded_invoices : reads.

Lemma optional_rate_accepted o :
  accepts (TOption TU32) (match o with None => ArgVoid | Some minRate => ArgU32 minRate end) = true.
Proof. by destruct o. Qed.
#[export] Hint Resolve optional_rate_accepted : accepts.

(** ** PoolClient *)

Section client.
Context {W : Type} (C : Client W).

Definition getConfig_fields : list Field :=
  [field "invoiceContract" KRaw "invoice_contract"; field "admin" KRaw "admin";
   field "yieldBps" KNum "yield_bps"; field "factoringFeeBps" KNumOr0 "factoring_fee_bps";
   field "compoundInterest" KBool "compound_interest"].

Definition getConfig : M W (list (string * value)) :=
  query C "get_config" [] (decode getConfig_fields).

Definition getPosition_fields : list Field :=
  [field "deposited" KBigInt "deposited"; field "available" KBigInt "available";
   field "deployed" KBigInt "deployed"; field "earned" KBigInt "earned";
   field "depositCount" KNum "deposit_count"].

Definition getPosition (investor token : string) : M W (option (list (string * value))) :=
  query C "get_position" [ArgAddress investor; ArgAddress token] (decode_opt getPosition_fields).

Definition deposit (investor token : string) (amount : Z) (minRate : option Z) : M W string :=
  send C investor "deposit"
    [ArgAddress investor; ArgAddress token; ArgI128 amount;
     match minRate with None => ArgVoid | Some minRate => ArgU32 minRate end].

Definition liquidateInvoice (caller : string) (invoiceId : Z) : M W string :=
  send C caller "liquidate_invoice" [ArgAddress caller; ArgU64 invoiceId].

Definition getCollateralDeposit_fields : list Field :=
  [field "invoiceId" KBig "invoice_id"; field "depositor" KRaw "depositor"; field "token" KRaw "token";
   field "amount" KBig "amount"; field "settled" KBool "settled"; field "postedAt" KNum "posted_at";
   field "releasedAt" KNum "released_at"; field "seizedAt" KNum "seized_at";
   field "collateralBpsAtDeposit" KNum "collateral_bps_at_deposit";
   field "thresholdAtDeposit" KBig "threshold_at_deposit"].

Definition getCollateralDeposit (invoiceId : Z) : M W (option (list (string * value))) :=
  query C "get_collateral_deposit" [ArgU64 invoiceId] (decode_opt getCollateralDeposit_fields).

Definition requestWithdrawal (investor token : string) (shares : Z) : M W string :=
  send C investor "request_withdrawal" [ArgAddress investor; ArgAddress token; ArgI128 shares].

Definition cancelWithdrawalRequest (investor token : string) : M W string :=
  send C investor "cancel_withdrawal_request" [ArgAddress investor; ArgAddress token].

Definition drainWithdrawalQueue (caller token : string) : M W string :=
  send C caller "drain_withdrawal_queue" [ArgAddress caller; ArgAddress token].

Definition getWithdrawalQueue_fields : list Field :=
  [field "investor" KRaw "investor"; field "token" KRaw "token"; field "shares" KBig "shares";
   field "requestedAt" KNum "requested_at"; field "requestId" KBig "request_id"].

Definition getWithdrawalQueue (token : string) : M W (list (list (string * value))) :=
  query C "get_withdrawal_queue" [ArgAddress token] (decode_array getWithdrawalQueue_fields).

Definition repay (payer : string) (invoiceId amount : Z) : M W string :=
  send C payer "repay_invoice" [ArgU64 invoiceId; ArgAddress payer; ArgI128 amount].

Definition fundInvoice (admin : string) (invoiceId principal : Z) (sme : string) (dueDate : Z)
    (token : string) : M W string :=
  send C admin "fund_invoice"
    [ArgAddress admin; ArgU64 invoiceId; ArgI128 principal; ArgAddress sme; ArgU64 dueDate;
     ArgAddress token].

Definition fundInvoicesBatch (admin : string) (requests : list FundingRequest) : M W string :=
  let requestsScVal := ArgVec (map fundingRequestToScVal requests) in
  send C admin "fund_invoices_batch" [ArgAddress admin; requestsScVal].

Definition openCoFunding (admin : string) (params : OpenCoFunding) : M W string :=
  send C admin "open_co_funding" [ArgAddress admin; openCoFundingRequestToScVal params].

Definition commitToInvoice (investor : string) (invoiceId amount : Z) : M W string :=
  send C investor "commit_to_invoice" [ArgAddress investor; ArgU64 invoiceId; ArgI128 amount].

Definition finalizeCoFunding (caller : string) (invoiceId : Z) : M W string :=
  send C caller "finalize_co_funding" [ArgAddress caller; ArgU64 invoiceId].

Definition withdrawCommitment (investor : string) (invoiceId : Z) : M W string :=
  send C investor "withdraw_co_funding_commitment" [ArgAddress investor; ArgU64 invoiceId].

Definition transferCoFundShare (from : string) (invoiceId : Z) (token to : string) (bps : Z)
    : M W string :=
  send C from "transfer_co_fund_share"
    [ArgAddress from; ArgU64 invoiceId; ArgAddress token; ArgAddress to; ArgU32 bps].

Definition getCoFundingRound (invoiceId : Z) : M W (option (list (string * value))) :=
  query C "get_co_funding_round" [ArgU64 invoiceId] (decode_opt coFundingRoundFromScVal).

Definition listCoFundingRounds : M W (list Z) :=
  query C "list_co_funding_rounds" [] bigints.

Definition getInvestorCoFundPositions (investor : string) : M W (list (Z * jsval)) :=
  query C "get_investor_co_fund_positions" [ArgAddress investor] positions_of.

Definition getCoFundShare (invoiceId : Z) (investor : string) : M W number :=
  query C "get_co_fund_share" [ArgU64 invoiceId; ArgAddress investor] as_number.

Definition getCurrentRate (token : string) : M W number :=
  query C "get_current_rate" [ArgAddress token] as_number.

Definition getRateModelConfig (token : string) : M W (option (list (string * value))) :=
  query C "get_rate_model_config" [ArgAddress token] (decode_opt rateModelConfigFromScVal).

Definition getRateHistory_fields : list Field :=
  [field "timestamp" KNum "timestamp"; field "utilizationBps" KNum "utilization_bps";
   field "rateBps" KNum "rate_bps"].

Definition getRateHistory (token : string) (limit : Z) : M W (list (list (string * value))) :=
  query C "get_rate_history" [ArgAddress token; ArgU32 limit] (decode_all getRateHistory_fields).

Definition previewRateAtUtilization (token : string) (utilizationBps : Z) : M W number :=
  query C "preview_rate_at_utilization" [ArgAddress token; ArgU32 utilizationBps] as_number.

Definition proposeRateModelChange (admin token : string) (config : RateModelConfig) : M W string :=
  send C admin "propose_rate_model_change"
    [ArgAddress admin; ArgAddress token; rateModelConfigToScVal config].

Definition executeRateModelChange (caller token : string) : M W string :=
  send C caller "execute_rate_model_change" [ArgAddress token].

Definition cancelRateModelChange (admin token : string) : M W string :=
  send C admin "cancel_rate_model_change" [ArgAddress admin; ArgAddress token].

Definition getFundedInvoice (invoiceId : Z) : M W (option (list (string * value))) :=
  query C "get_funded_invoice" [ArgU64 invoiceId] (decode_opt mapFundedInvoice).

Definition getFundedInvoicesBatch (invoiceIds : list Z) : M W (list (option (list (string * value)))) :=
  query C "get_funded_invoices_batch" [ArgVec (map (λ id, ArgU64 id) invoiceIds)] funded_invoices_of.

Definition getPoolTokenTotals_fields : list Field :=
  [field "totalDeposited" KBig "total_deposited"; field "totalDeployed" KBig "total_deployed";
   field "totalPaidOut" KBig "total_paid_out"; field "totalFeeRevenue" KBig "total_fee_revenue"].

Definition getPoolTokenTotals (token : string) : M W (list (string * value)) :=
  query C "get_pool_token_totals" [ArgAddress token] (decode getPoolTokenTotals_fields).

Definition depositCollateral (invoiceId : Z) (depositor token : string) (amount : Z) : M W string :=
  send C depositor "deposit_collateral"
    [ArgU64 invoiceId; ArgAddress depositor; ArgAddress token; ArgI128 amount].

Definition topUpCollateral (invoiceId : Z) (depositor token : string) (amount : Z) : M W string :=
  send C depositor "top_up_collateral"
    [ArgU64 invoiceId; ArgAddress depositor; ArgAddress token; ArgI128 amount].

Definition getCollateralConfig_fields : list Field :=
  [field "threshold" KBig "threshold"; field "collateralBps" KNum "collateral_bps"].

Definition getCollateralConfig : M W (list (string * value)) :=
  query C "get_collateral_config" [] (decode getCollateralConfig_fields).

Definition setRiskContract (admin riskContract : string) : M W string :=
  send C admin "set_risk_contract" [ArgAddress admin; ArgAddress riskContract].

Definition listingFromRaw : list Field :=
  [field "listingId" KBig "listing_id"; field "invoiceId" KBig "invoice_id";
   field "seller" KRaw "seller"; field "token" KRaw "token"; field "kind" KTag "kind";
   field "amountOrBps" KBig "amount_or_bps"; field "price" KBig "price";
   field "createdAt" KNum "created_at"; field "status" KTag "status"].

Definition listPosition (seller : string) (invoiceId : Z) (kind : ListingKind) (amountOrBps price : Z)
    : M W string :=
  send C seller "list_position"
    [ArgAddress seller; ArgU64 invoiceId; listingKindToScVal kind; ArgU64 amountOrBps; ArgI128 price].

Definition cancelListing (seller : string) (listingId : Z) : M W string :=
  send C seller "cancel_listing" [ArgAddress seller; ArgU64 listingId].

Definition buyListing (buyer : string) (listingId : Z) : M W string :=
  send C buyer "buy_listing" [ArgAddress buyer; ArgU64 listingId].

Definition getListing (listingId : Z) : M W (option (list (string * value))) :=
  query C "get_listing" [ArgU64 listingId] (decode_opt listingFromRaw).

Definition listListingsForInvoice (invoiceId : Z) : M W (list Z) :=
  query C "list_listings_for_invoice" [ArgU64 invoiceId] bigints.

Definition listListingsForInvestor (seller : string) : M W (list Z) :=
  query C "list_listings_for_investor" [ArgAddress seller] bigints.

End client.

(** ** The operations *)

(** Those that make calls of the contract. *)
Inductive calls_made {W : Type} : ∀ {A : Type}, (Client W → M W A) → Prop :=
| call_getConfig : calls_made (λ C, getConfig C)
| call_deposit : ∀ (investor token : string) (amount : Z) (minRate : option Z),
    calls_made (λ C, deposit C investor token amount minRate)
| call_liquidateInvoice : ∀ (caller : string) (invoiceId : Z),
    calls_made (λ C, liquidateInvoice C caller invoiceId)
| call_getCollateralDeposit : ∀ (invoiceId : Z), calls_made (λ C, getCollateralDeposit C invoiceId)
| call_requestWithdrawal : ∀ (investor token : string) (shares : Z),
    calls_made (λ C, requestWithdrawal C investor token shares)
| call_cancelWithdrawalRequest : ∀ (investor token : string),
    calls_made (λ C, cancelWithdrawalRequest C investor token)
| call_drainWithdrawalQueue : ∀ (caller token : string), calls_made (λ C, drainWithdrawalQueue C caller token)
| call_getWithdrawalQueue : ∀ (token : string), calls_made (λ C, getWithdrawalQueue C token)
| call_repay : ∀ (payer : string) (invoiceId amount : Z), calls_made (λ C, repay C payer invoiceId amount)
| call_fundInvoice : ∀ (admin : string) (invoiceId principal : Z) (sme : string) (dueDate : Z) (token : string),
    calls_made (λ C, fundInvoice C admin invoiceId principal sme dueDate token)
| call_fundInvoicesBatch : ∀ (admin : string), calls_made (λ C, fundInvoicesBatch C admin [])
| call_openCoFunding : ∀ (admin : string) (params : OpenCoFunding),
    calls_made (λ C, openCoFunding C admin params)
| call_commitToInvoice : ∀ (investor : string) (invoiceId amount : Z),
    calls_made (λ C, commitToInvoice C investor invoiceId amount)
| call_finalizeCoFunding : ∀ (caller : string) (invoiceId : Z),
    calls_made (λ C, finalizeCoFunding C caller invoiceId)
| call_withdrawCommitment : ∀ (investor : string) (invoiceId : Z),
    calls_made (λ C, withdrawCommitment C investor invoiceId)
| call_transferCoFundShare : ∀ (from : string) (invoiceId : Z) (token to : string) (bps : Z),
    calls_made (λ C, transferCoFundShare C from invoiceId token to bps)
| call_getCoFundingRound : ∀ (invoiceId : Z), calls_made (λ C, getCoFundingRound C invoiceId)
| call_listCoFundingRounds : calls_made (λ C, listCoFundingRounds C)
| call_getInvestorCoFundPositions : ∀ (investor : string),
    calls_made (λ C, getInvestorCoFundPositions C investor)
| call_getCoFundShare : ∀ (invoiceId : Z) (investor : string),
    calls_made (λ C, getCoFundShare C invoiceId investor)
| call_getCurrentRate : ∀ (token : string), calls_made (λ C, getCurrentRate C token)
| call_getRateModelConfig : ∀ (token : string), calls_made (λ C, getRateModelConfig C token)
| call_getRateHistory : ∀ (token : string) (limit : Z), calls_made (λ C, getRateHistory C token limit)
| call_previewRateAtUtilization : ∀ (token : string) (utilizationBps : Z),
    calls_made (λ C, previewRateAtUtilization C token utilizationBps)
| call_proposeRateModelChange : ∀ (admin token : string) (config : RateModelConfig),
    calls_made (λ C, proposeRateModelChange C admin token config)
| call_executeRateModelChange : ∀ (caller token : string),
    calls_made (λ C, executeRateModelChange C caller token)
| call_cancelRateModelChange : ∀ (admin token : string), calls_made (λ C, cancelRateModelChange C admin token)
| call_getFundedInvoice : ∀ (invoiceId : Z), calls_made (λ C, getFundedInvoice C invoiceId)
| call_getFundedInvoicesBatch : ∀ (invoiceIds : list Z), calls_made (λ C, getFundedInvoicesBatch C invoiceIds)
| call_depositCollateral : ∀ (invoiceId : Z) (depositor token : string) (amount : Z),
    calls_made (λ C, depositCollateral C invoiceId depositor token amount)
| call_topUpCollateral : ∀ (invoiceId : Z) (depositor token : string) (amount : Z),
    calls_made (λ C, topUpCollateral C invoiceId depositor token amount)
| call_getCollateralConfig : calls_made (λ C, getCollateralConfig C)
| call_setRiskContract : ∀ (admin riskContract : string),
    calls_made (λ C, setRiskContract C admin riskContract).

(** Those whose call is none of the contract. *)
Inductive calls_lost {W : Type} : ∀ {A : Type}, (Client W → M W A) → Prop :=
| lost_fundInvoicesBatch : ∀ (admin : string) (r : FundingRequest) (requests : list FundingRequest),
    calls_lost (λ C, fundInvoicesBatch C admin (r :: requests))
| lost_getPosition : ∀ (investor token : string), calls_lost (λ C, getPosition C investor token)
| lost_getPoolTokenTotals : ∀ (token : string), calls_lost (λ C, getPoolTokenTotals C token)
| lost_listPosition : ∀ (seller : string) (invoiceId : Z) (kind : ListingKind) (amountOrBps price : Z),
    calls_lost (λ C, listPosition C seller invoiceId kind amountOrBps price)
| lost_cancelListing : ∀ (seller : string) (listingId : Z), calls_lost (λ C, cancelListing C seller listingId)
| lost_buyListing : ∀ (buyer : string) (listingId : Z), calls_lost (λ C, buyListing C buyer listingId)
| lost_getListing : ∀ (listingId : Z), calls_lost (λ C, getListing C listingId)
| lost_listListingsForInvoice : ∀ (invoiceId : Z), calls_lost (λ C, listListingsForInvoice C invoiceId)
| lost_listListingsForInvestor : ∀ (seller : string), calls_lost (λ C, listListingsForInvestor C seller).

(** The readers, with what they make of an answer. *)
Inductive answers_read {W : Type} : ∀ {A : Type}, (Client W → M W A) → (jsval → A) → Prop :=
| read_getConfig : answers_read (λ C, getConfig C) (decoded getConfig_fields)
| read_getCollateralDeposit : ∀ (invoiceId : Z),
    answers_read (λ C, getCollateralDeposit C invoiceId) (decoded_opt getCollateralDeposit_fields)
| read_getWithdrawalQueue : ∀ (token : string),
    answers_read (λ C, getWithdrawalQueue C token) (decoded_all getWithdrawalQueue_fields)
| read_getCoFundingRound : ∀ (invoiceId : Z),
    answers_read (λ C, getCoFundingRound C invoiceId) (decoded_opt coFundingRoundFromScVal)
| read_listCoFundingRounds : answers_read (λ C, listCoFundingRounds C) (λ v, map int_of (elements_of v))
| read_getInvestorCoFundPositions : ∀ (investor : string),
    answers_read (λ C, getInvestorCoFundPositions C investor)
      (λ v, map (λ p, (int_of (arr_get (elements_of p) 0), arr_get (elements_of p) 1)) (elements_of v))
| read_getCoFundShare : ∀ (invoiceId : Z) (investor : string),
    answers_read (λ C, getCoFundShare C invoiceId investor) (λ v, num_of_Z (int_of v))
| read_getCurrentRate : ∀ (token : string),
    answers_read (λ C, getCurrentRate C token) (λ v, num_of_Z (int_of v))
| read_getRateModelConfig : ∀ (token : string),
    answers_read (λ C, getRateModelConfig C token) (decoded_opt rateModelConfigFromScVal)
| read_getRateHistory : ∀ (token : string) (limit : Z),
    answers_read (λ C, getRateHistory C token limit) (decoded_all getRateHistory_fields)
| read_previewRateAtUtilization : ∀ (token : string) (utilizationBps : Z),
    answers_read (λ C, previewRateAtUtilization C token utilizationBps) (λ v, num_of_Z (int_of v))
| read_getFundedInvoice : ∀ (invoiceId : Z),
    answers_read (λ C, getFundedInvoice C invoiceId) (decoded_opt mapFundedInvoice)
| read_getFundedInvoicesBatch : ∀ (invoiceIds : list Z),
    answers_read (λ C, getFundedInvoicesBatch C invoiceIds) (λ v, map (decoded_opt mapFundedInvoice)
      (elements_of v))
| read_getCollateralConfig : answers_read (λ C, getCollateralConfig C) (decoded getCollateralConfig_fields).

(** ** They keep to the interface *)

Lemma pool_calls_conform {W A} (op : Client W → M W A) :
  calls_made op → conforming (abi_of Pool) op.
Proof. destruct 1; by calls. Qed.

Lemma pool_calls_refused {W A} (op : Client W → M W A) :
  calls_lost op → refused (abi_of Pool) op.
Proof. destruct 1; by calls. Qed.

Lemma pool_answers_decoded {W A} (op : Client W → M W A) mean :
  answers_read op mean → answered (abi_of Pool) op mean.
Proof. destruct 1; by answers. Qed.
