(* ===== verification/AsteraClient.v ===== *)
(** * astera-client.ts: the facade of the SDK

    [AsteraClient] builds ten clients of one server and network, none with a
    signer, and passes every call on to one of them: [pool_deposit A] is
    [A.pool.deposit]. A method's [params] are its arguments; [signer], which the
    clients take and do not use, is left out, and [onProgress] is last. *)
From S2P Require Import Prelude.
From S2P Require Import JsValue.
From S2P Require Import JsNumber.
From S2P Require Import Sdk.
From S2P Require Import Abi.
From S2P Require Import ContractAbi.
From S2P Require Import ErrorTables.
From S2P Require Import SdkClients.
From S2P Require PoolClient.
From S2P Require Import SdkMarkets.
From S2P Require AccessControlClient.
#[local] Open Scope string_scope.
#[local] Open Scope list_scope.
#[local] Open Scope Z_scope.

(** [AsteraConfig], whose [rpcUrl] the backend stands for. *)
Record Config := {
  ac_network : string; ac_invoiceContractId : string; ac_poolContractId : string;
  ac_secondaryMarketContractId : option string; ac_auctionContractId : option string;
  ac_creditScoreContractId : option string; ac_oracleRegistryContractId : option string;
  ac_complianceContractId : option string; ac_trancheContractId : option string;
  ac_accessControlContractId : option string; ac_insuranceContractId : option string
}.

Definition Progress (W : Type) : Type := TransactionProgress → M W unit.

Section facade.
Context {W : Type} (backend : Backend W) (cfg : Config).

(** [{ rpcUrl, network, contractId }]: no signer. *)
Definition new_client (id : string) (errors : list (Z * string)) (onProgress : Progress W) : Client W := {|
  cl_backend := backend;
  cl_config := {| network := ac_network cfg; contractId := id; config_signer := None |};
  cl_errors := errors; cl_onProgress := onProgress |}.

Definition invoiceClient : Progress W → Client W := new_client (ac_invoiceContractId cfg) InvoiceErrors.
Definition poolClient : Progress W → Client W := new_client (ac_poolContractId cfg) PoolErrors.
Definition secondaryMarketClient : Progress W → Client W := new_client (default "" (ac_secondaryMarketContractId cfg)) SecondaryMarketErrors.
Definition auctionClient : Progress W → Client W := new_client (default "" (ac_auctionContractId cfg)) AuctionErrors.
Definition creditScoreClient : Progress W → Client W := new_client (default "" (ac_creditScoreContractId cfg)) [].
Definition oracleRegistryClient : Progress W → Client W := new_client (default "" (ac_oracleRegistryContractId cfg)) OracleRegistryErrors.
Definition complianceClient : Progress W → Client W := new_client (default "" (ac_complianceContractId cfg)) [].
Definition trancheClient : Progress W → Client W := new_client (default "" (ac_trancheContractId cfg)) [].
Definition accessControlClient : Progress W → Client W := new_client (default "" (ac_accessControlContractId cfg)) [].
Definition insuranceClient : Progress W → Client W := new_client (default "" (ac_insuranceContractId cfg)) InsuranceErrors.

Definition invoice_get (id : Z) : M W jsval :=
  InvoiceClient.getInvoice (invoiceClient no_progress) id.

Definition invoice_getMetadata (id : Z) : M W (list (string * value)) :=
  InvoiceClient.getMetadata (invoiceClient no_progress) id.

Definition invoice_create (owner debtor : string) (amount dueDate : Z) (description : string)
    (verificationHash : option string) (onProgress : Progress W)
    : M W string :=
  InvoiceClient.createInvoice (invoiceClient onProgress) owner debtor amount dueDate description verificationHash.

Definition invoice_verify (oracle : string) (id : Z) (approved : bool) (reason : string)
    (oracleHash : jsval) (onProgress : Progress W)
    : M W string :=
  InvoiceClient.verifyInvoice (invoiceClient onProgress) oracle id approved reason oracleHash.

Definition pool_getConfig : M W (list (string * value)) :=
  PoolClient.getConfig (poolClient no_progress).

Definition pool_getPosition (investor token : string) : M W (option (list (string * value))) :=
  PoolClient.getPosition (poolClient no_progress) investor token.

Definition pool_deposit (investor token : string) (amount : Z) (minRate : option Z)
    (onProgress : Progress W)
    : M W string :=
  PoolClient.deposit (poolClient onProgress) investor token amount minRate.

Definition pool_requestWithdrawal (investor token : string) (shares : Z) (onProgress : Progress W)
    : M W string :=
  PoolClient.requestWithdrawal (poolClient onProgress) investor token shares.

Definition pool_cancelWithdrawalRequest (investor token : string) (onProgress : Progress W)
    : M W string :=
  PoolClient.cancelWithdrawalRequest (poolClient onProgress) investor token.

Definition pool_drainWithdrawalQueue (caller token : string) (onProgress : Progress W) : M W string :=
  PoolClient.drainWithdrawalQueue (poolClient onProgress) caller token.

Definition pool_getWithdrawalQueue (token : string) : M W (list (list (string * value))) :=
  PoolClient.getWithdrawalQueue (poolClient no_progress) token.

Definition pool_repay (payer : string) (invoiceId amount : Z) (onProgress : Progress W) : M W string :=
  PoolClient.repay (poolClient onProgress) payer invoiceId amount.

Definition pool_fundInvoice (admin : string) (invoiceId principal : Z) (sme : string)
    (dueDate : Z) (token : string) (onProgress : Progress W)
    : M W string :=
  PoolClient.fundInvoice (poolClient onProgress) admin invoiceId principal sme dueDate token.

Definition pool_getFundedInvoice (invoiceId : Z) : M W (option (list (string * value))) :=
  PoolClient.getFundedInvoice (poolClient no_progress) invoiceId.

Definition pool_getPoolTokenTotals (token : string) : M W (list (string * value)) :=
  PoolClient.getPoolTokenTotals (poolClient no_progress) token.

Definition pool_openCoFunding (admin : string) (params : PoolClient.OpenCoFunding)
    (onProgress : Progress W)
    : M W string :=
  PoolClient.openCoFunding (poolClient onProgress) admin params.

Definition pool_commitToInvoice (investor : string) (invoiceId amount : Z) (onProgress : Progress W)
    : M W string :=
  PoolClient.commitToInvoice (poolClient onProgress) investor invoiceId amount.

Definition pool_finalizeCoFunding (caller : string) (invoiceId : Z) (onProgress : Progress W)
    : M W string :=
  PoolClient.finalizeCoFunding (poolClient onProgress) caller invoiceId.

Definition pool_withdrawCoFundingCommitment (investor : string) (invoiceId : Z)
    (onProgress : Progress W)
    : M W string :=
  PoolClient.withdrawCommitment (poolClient onProgress) investor invoiceId.

Definition pool_transferCoFundShare (from : string) (invoiceId : Z) (token to : string) (bps : Z)
    (onProgress : Progress W)
    : M W string :=
  PoolClient.transferCoFundShare (poolClient onProgress) from invoiceId token to bps.

Definition pool_getCoFundingRound (invoiceId : Z) : M W (option (list (string * value))) :=
  PoolClient.getCoFundingRound (poolClient no_progress) invoiceId.

Definition pool_listCoFundingRounds : M W (list Z) :=
  PoolClient.listCoFundingRounds (poolClient no_progress).

Definition pool_getInvestorCoFundPositions (investor : string) : M W (list (Z * jsval)) :=
  PoolClient.getInvestorCoFundPositions (poolClient no_progress) investor.

Definition pool_getCoFundShare (invoiceId : Z) (investor : string) : M W number :=
  PoolClient.getCoFundShare (poolClient no_progress) invoiceId investor.

Definition pool_getCurrentRate (token : string) : M W number :=
  PoolClient.getCurrentRate (poolClient no_progress) token.

Definition pool_getRateModelConfig (token : string) : M W (option (list (string * value))) :=
  PoolClient.getRateModelConfig (poolClient no_progress) token.

Definition pool_getRateHistory (token : string) (limit : Z) : M W (list (list (string * value))) :=
  PoolClient.getRateHistory (poolClient no_progress) token limit.

Definition pool_previewRateAtUtilization (token : string) (utilizationBps : Z) : M W number :=
  PoolClient.previewRateAtUtilization (poolClient no_progress) token utilizationBps.

Definition pool_depositCollateral (invoiceId : Z) (depositor token : string) (amount : Z)
    (onProgress : Progress W)
    : M W string :=
  PoolClient.depositCollateral (poolClient onProgress) invoiceId depositor token amount.

Definition pool_topUpCollateral (invoiceId : Z) (depositor token : string) (amount : Z)
    (onProgress : Progress W)
    : M W string :=
  PoolClient.topUpCollateral (poolClient onProgress) invoiceId depositor token amount.

Definition pool_getCollateralConfig : M W (list (string * value)) :=
  PoolClient.getCollateralConfig (poolClient no_progress).

Definition pool_getCollateralDeposit (invoiceId : Z) : M W (option (list (string * value))) :=
  PoolClient.getCollateralDeposit (poolClient no_progress) invoiceId.

Definition pool_setRiskContract (admin riskContract : string) (onProgress : Progress W) : M W string :=
  PoolClient.setRiskContract (poolClient onProgress) admin riskContract.

Definition auction_getPoolContract : M W jsval :=
  AuctionClient.getPoolContract (auctionClient no_progress).

Definition auction_setCollateralRiskConfig (admin : string) (dangerBps gracePeriodSecs : Z)
    (onProgress : Progress W)
    : M W string :=
  AuctionClient.setCollateralRiskConfig (auctionClient onProgress) admin dangerBps gracePeriodSecs.

Definition auction_getCollateralRiskConfig : M W (list (string * value)) :=
  AuctionClient.getCollateralRiskConfig (auctionClient no_progress).

Definition auction_getLiveCollateralRatio (invoiceId : Z) : M W number :=
  AuctionClient.getLiveCollateralRatio (auctionClient no_progress) invoiceId.

Definition auction_getAtRiskSince (invoiceId : Z) : M W (option number) :=
  AuctionClient.getAtRiskSince (auctionClient no_progress) invoiceId.

Definition auction_checkCollateralRisk (caller : string) (invoiceId : Z) (onProgress : Progress W)
    : M W string :=
  AuctionClient.checkCollateralRisk (auctionClient onProgress) caller invoiceId.

Definition auction_liquidateCollateral (caller : string) (invoiceId : Z) (onProgress : Progress W)
    : M W string :=
  AuctionClient.liquidateCollateral (auctionClient onProgress) caller invoiceId.

Definition auction_getSale (saleId : Z) : M W (option (list (string * value))) :=
  AuctionClient.getSale (auctionClient no_progress) saleId.

Definition auction_currentSalePrice (saleId : Z) : M W Z :=
  AuctionClient.currentSalePrice (auctionClient no_progress) saleId.

Definition auction_takeCollateralSale (taker : string) (saleId : Z) (onProgress : Progress W)
    : M W string :=
  AuctionClient.takeCollateralSale (auctionClient onProgress) taker saleId.

Definition auction_reclaimExpiredSale (caller : string) (saleId : Z) (onProgress : Progress W)
    : M W string :=
  AuctionClient.reclaimExpiredSale (auctionClient onProgress) caller saleId.

Definition secondaryMarket_listPosition (seller : string) (invoiceId : Z)
    (kind : SecondaryMarketClient.ListingKind) (amountOrBps price : Z) (onProgress : Progress W)
    : M W string :=
  SecondaryMarketClient.listPosition (secondaryMarketClient onProgress) seller invoiceId kind amountOrBps price.

Definition secondaryMarket_cancelListing (seller : string) (listingId : Z) (onProgress : Progress W)
    : M W string :=
  SecondaryMarketClient.cancelListing (secondaryMarketClient onProgress) seller listingId.

Definition secondaryMarket_buyListing (buyer : string) (listingId : Z) (onProgress : Progress W)
    : M W string :=
  SecondaryMarketClient.buyListing (secondaryMarketClient onProgress) buyer listingId.

Definition secondaryMarket_getListing (listingId : Z) : M W (option (list (string * value))) :=
  SecondaryMarketClient.getListing (secondaryMarketClient no_progress) listingId.

Definition secondaryMarket_listListingsForInvoice (invoiceId : Z) : M W (list Z) :=
  SecondaryMarketClient.listListingsForInvoice (secondaryMarketClient no_progress) invoiceId.

Definition secondaryMarket_listListingsForInvestor (seller : string) : M W (list Z) :=
  SecondaryMarketClient.listListingsForInvestor (secondaryMarketClient no_progress) seller.

Definition secondaryMarket_estimateWithdrawalWait (investor token : string)
    : M W (list (string * value)) :=
  SecondaryMarketClient.estimateWithdrawalWait (secondaryMarketClient no_progress) investor token.

Definition secondaryMarket_getLiquidityForecast (token : string) (horizonDays : Z)
    : M W (list (list (string * value))) :=
  SecondaryMarketClient.getLiquidityForecast (secondaryMarketClient no_progress) token horizonDays.

Definition creditScore_getCreditScore (sme : string) : M W (list (string * value)) :=
  CreditScoreClient.getCreditScore (creditScoreClient no_progress) sme.

Definition oracleRegistry_getRound (invoiceId : Z) : M W (option VerificationRound) :=
  OracleRegistryClient.getRound (oracleRegistryClient no_progress) invoiceId.

Definition oracleRegistry_getOracleInfo (operator : string) : M W (option OracleInfo) :=
  OracleRegistryClient.getOracleInfo (oracleRegistryClient no_progress) operator.

Definition oracleRegistry_getRegistryConfig : M W RegistryConfig :=
  OracleRegistryClient.getRegistryConfig (oracleRegistryClient no_progress).

Definition oracleRegistry_openRound (caller : string) (invoiceId : Z) (oracleHash : jsval)
    (onProgress : Progress W)
    : M W string :=
  OracleRegistryClient.openRound (oracleRegistryClient onProgress) caller invoiceId oracleHash.

Definition oracleRegistry_register (operator : string) (stakeAmount : Z) (onProgress : Progress W)
    : M W string :=
  OracleRegistryClient.register (oracleRegistryClient onProgress) operator stakeAmount.

Definition oracleRegistry_vote (oracle : string) (invoiceId : Z) (approved : bool)
    (evidenceHash : jsval) (onProgress : Progress W)
    : M W string :=
  OracleRegistryClient.vote (oracleRegistryClient onProgress) oracle invoiceId approved evidenceHash.

Definition compliance_isCleared (address : string) : M W bool :=
  ComplianceClient.isCleared (complianceClient no_progress) address.

Definition compliance_getRecord (address : string) : M W (option (list (string * value))) :=
  ComplianceClient.getRecord (complianceClient no_progress) address.

Definition compliance_getHistory (address : string) : M W (list (list (string * value))) :=
  ComplianceClient.getHistory (complianceClient no_progress) address.

Definition compliance_listFlagged : M W jsval :=
  ComplianceClient.listFlagged (complianceClient no_progress).

Definition compliance_listPendingReview : M W jsval :=
  ComplianceClient.listPendingReview (complianceClient no_progress).

Definition compliance_submitScreeningResult (screener address : string)
    (status : ComplianceClient.ComplianceStatus) (reasonCode : Z) (riskTier : ComplianceClient.RiskTier) (expiresAt : Z) (notesHash : string) (onProgress : Progress W)
    : M W string :=
  ComplianceClient.submitScreeningResult (complianceClient onProgress) screener address status reasonCode riskTier expiresAt notesHash.

Definition compliance_requestReview (caller address reason : string) (onProgress : Progress W)
    : M W string :=
  ComplianceClient.requestReview (complianceClient onProgress) caller address reason.

Definition tranche_getPool (token : string) : M W TrancheClient.TranchePool :=
  TrancheClient.getPool (trancheClient no_progress) token.

Definition tranche_getConfig (token : string) : M W (list (string * value)) :=
  TrancheClient.getTrancheConfig (trancheClient no_progress) token.

Definition tranche_getTotals (token : string) (trancheClass : TrancheClient.TrancheClass)
    : M W (list (string * value)) :=
  TrancheClient.getTotals (trancheClient no_progress) token trancheClass.

Definition tranche_getPosition (investor token : string) (trancheClass : TrancheClient.TrancheClass)
    : M W (list (string * value)) :=
  TrancheClient.getInvestorPosition (trancheClient no_progress) investor token trancheClass.

Definition tranche_getLifetimeReturnBps (token : string) (trancheClass : TrancheClient.TrancheClass)
    : M W number :=
  TrancheClient.getLifetimeReturnBps (trancheClient no_progress) token trancheClass.

Definition tranche_getInvoiceExposure (invoiceId : Z) : M W (option (list (string * value))) :=
  TrancheClient.getInvoiceExposure (trancheClient no_progress) invoiceId.

Definition tranche_simulateWaterfall (token : string) (invoiceId hypotheticalRepayment elapsedSecs : Z)
    : M W (Z * Z * Z * Z) :=
  TrancheClient.simulateWaterfall (trancheClient no_progress) token invoiceId hypotheticalRepayment elapsedSecs.

Definition tranche_deposit (investor token : string) (trancheClass : TrancheClient.TrancheClass)
    (amount : Z) (onProgress : Progress W)
    : M W string :=
  TrancheClient.deposit (trancheClient onProgress) investor token trancheClass amount.

Definition tranche_withdraw (investor token : string) (trancheClass : TrancheClient.TrancheClass)
    (amount : Z) (onProgress : Progress W)
    : M W string :=
  TrancheClient.withdraw (trancheClient onProgress) investor token trancheClass amount.

Definition tranche_setConfig (admin token : string)
    (seniorTargetYieldBps seniorAdvanceRateBps juniorFirstLossBps : Z) (onProgress : Progress W)
    : M W string :=
  TrancheClient.setTrancheConfig (trancheClient onProgress) admin token seniorTargetYieldBps seniorAdvanceRateBps juniorFirstLossBps.

Definition accessControl_getRoleConfig (role : AccessControlClient.Role)
    : M W (option (list (string * value))) :=
  AccessControlClient.getRoleConfig (accessControlClient no_progress) role.

Definition accessControl_isSigner (role : AccessControlClient.Role) (address : string) : M W bool :=
  AccessControlClient.isSigner (accessControlClient no_progress) role address.

Definition accessControl_getProposal (proposalId : Z) : M W (option (list (string * value))) :=
  AccessControlClient.getProposal (accessControlClient no_progress) proposalId.

Definition accessControl_listProposals : M W (list (Z * list (string * value))) :=
  AccessControlClient.listProposals (accessControlClient no_progress).

Definition accessControl_proposeAction (role : AccessControlClient.Role)
    (proposer target : string) (action : AccessControlClient.ActionPayload) (onProgress : Progress W)
    : M W string :=
  AccessControlClient.proposeAction (accessControlClient onProgress) role proposer target action.

Definition accessControl_approveAction (signerAddress : string) (proposalId : Z)
    (onProgress : Progress W)
    : M W string :=
  AccessControlClient.approveAction (accessControlClient onProgress) signerAddress proposalId.

Definition accessControl_revokeApproval (signerAddress : string) (proposalId : Z)
    (onProgress : Progress W)
    : M W string :=
  AccessControlClient.revokeApproval (accessControlClient onProgress) signerAddress proposalId.

Definition accessControl_rejectAction (signerAddress : string) (proposalId : Z)
    (onProgress : Progress W)
    : M W string :=
  AccessControlClient.rejectAction (accessControlClient onProgress) signerAddress proposalId.

Definition accessControl_executeAction (caller : string) (proposalId : Z) (onProgress : Progress W)
    : M W string :=
  AccessControlClient.executeAction (accessControlClient onProgress) caller proposalId.

Definition insurance_estimatePremium (principal : Z) (sme : string) (tenorDays : Z) (token : string)
    : M W Z :=
  InsuranceClient.estimatePremium (insuranceClient no_progress) principal sme tenorDays.

Definition insurance_purchaseCoverage (payer : string) (invoiceId principal : Z) (sme : string)
    (dueDate : Z) (token : string) (onProgress : Progress W)
    : M W string :=
  InsuranceClient.purchaseCoverage (insuranceClient onProgress) payer invoiceId principal sme dueDate token.

Definition insurance_fileClaim (caller : string) (invoiceId : Z) (onProgress : Progress W)
    : M W string :=
  InsuranceClient.fileClaim (insuranceClient onProgress) caller invoiceId.

Definition insurance_getReserveStatus (token : string) : M W (list (string * value)) :=
  InsuranceClient.getReserveStatus (insuranceClient no_progress) token.

Definition insurance_getCoverageRecord (invoiceId : Z) : M W (option (list (string * value))) :=
  InsuranceClient.getCoverageRecord (insuranceClient no_progress) invoiceId.

Definition insurance_getClaimHistory (invoiceId : Z) : M W (list (list (string * value))) :=
  InsuranceClient.getClaimHistory (insuranceClient no_progress) invoiceId.

Definition insurance_checkReserveHealth (token : string) : M W (list (string * value)) :=
  InsuranceClient.checkReserveHealth (insuranceClient no_progress) token.

Definition insurance_getPremiumConfig : M W (option InsuranceClient.PremiumFields) :=
  InsuranceClient.getPremiumConfig (insuranceClient no_progress).

Definition insurance_getMinReserveAmount (token : string) : M W Z :=
  InsuranceClient.getMinReserveAmount (insuranceClient no_progress) token.

Definition insurance_setPremiumConfig (admin : string) (config : InsuranceClient.PremiumConfig)
    (onProgress : Progress W)
    : M W string :=
  InsuranceClient.setPremiumConfig (insuranceClient onProgress) admin config.

Definition insurance_setMinCoverageRatio (admin token : string) (minRatioBps : Z)
    (onProgress : Progress W)
    : M W string :=
  InsuranceClient.setMinCoverageRatio (insuranceClient onProgress) admin token minRatioBps.

Definition insurance_setMinReserveAmount (admin token : string) (minAmount : Z)
    (onProgress : Progress W)
    : M W string :=
  InsuranceClient.setMinReserveAmount (insuranceClient onProgress) admin token minAmount.

Definition insurance_fundReserveFromTreasury (admin token : string) (amount : Z)
    (onProgress : Progress W)
    : M W string :=
  InsuranceClient.fundReserveFromTreasury (insuranceClient onProgress) admin token amount.

Definition insurance_setCreditScoreContract (admin creditScoreContract : string)
    (onProgress : Progress W)
    : M W string :=
  InsuranceClient.setCreditScoreContract (insuranceClient onProgress) admin creditScoreContract.

End facade.

(** ** The methods that write *)
Inductive facade_writes {W : Type} (B : Backend W) (cfg : Config) : M W string → Prop :=
| write_invoice_create : ∀ (owner debtor : string) (amount dueDate : Z) (description : string)
    (verificationHash : option string) (onProgress : Progress W),
    facade_writes B cfg (invoice_create B cfg owner debtor amount dueDate description verificationHash onProgress)
| write_invoice_verify : ∀ (oracle : string) (id : Z) (approved : bool) (reason : string)
    (oracleHash : jsval) (onProgress : Progress W),
    facade_writes B cfg (invoice_verify B cfg oracle id approved reason oracleHash onProgress)
| write_pool_deposit : ∀ (investor token : string) (amount : Z) (minRate : option Z)
    (onProgress : Progress W),
    facade_writes B cfg (pool_deposit B cfg investor token amount minRate onProgress)
| write_pool_requestWithdrawal : ∀ (investor token : string) (shares : Z) (onProgress : Progress W),
    facade_writes B cfg (pool_requestWithdrawal B cfg investor token shares onProgress)
| write_pool_cancelWithdrawalRequest : ∀ (investor token : string) (onProgress : Progress W),
    facade_writes B cfg (pool_cancelWithdrawalRequest B cfg investor token onProgress)
| write_pool_drainWithdrawalQueue : ∀ (caller token : string) (onProgress : Progress W),
    facade_writes B cfg (pool_drainWithdrawalQueue B cfg caller token onProgress)
| write_pool_repay : ∀ (payer : string) (invoiceId amount : Z) (onProgress : Progress W),
    facade_writes B cfg (pool_repay B cfg payer invoiceId amount onProgress)
| write_pool_fundInvoice : ∀ (admin : string) (invoiceId principal : Z) (sme : string) (dueDate : Z)
    (token : string) (onProgress : Progress W),
    facade_writes B cfg (pool_fundInvoice B cfg admin invoiceId principal sme dueDate token onProgress)
| write_pool_openCoFunding : ∀ (admin : string) (params : PoolClient.OpenCoFunding) (onProgress : Progress W),
    facade_writes B cfg (pool_openCoFunding B cfg admin params onProgress)
| write_pool_commitToInvoice : ∀ (investor : string) (invoiceId amount : Z) (onProgress : Progress W),
    facade_writes B cfg (pool_commitToInvoice B cfg investor invoiceId amount onProgress)
| write_pool_finalizeCoFunding : ∀ (caller : string) (invoiceId : Z) (onProgress : Progress W),
    facade_writes B cfg (pool_finalizeCoFunding B cfg caller invoiceId onProgress)
| write_pool_withdrawCoFundingCommitment : ∀ (investor : string) (invoiceId : Z) (onProgress : Progress W),
    facade_writes B cfg (pool_withdrawCoFundingCommitment B cfg investor invoiceId onProgress)
| write_pool_transferCoFundShare : ∀ (from : string) (invoiceId : Z) (token to : string) (bps : Z)
    (onProgress : Progress W),
    facade_writes B cfg (pool_transferCoFundShare B cfg from invoiceId token to bps onProgress)
| write_pool_depositCollateral : ∀ (invoiceId : Z) (depositor token : string) (amount : Z)
    (onProgress : Progress W),
    facade_writes B cfg (pool_depositCollateral B cfg invoiceId depositor token amount onProgress)
| write_pool_topUpCollateral : ∀ (invoiceId : Z) (depositor token : string) (amount : Z)
    (onProgress : Progress W),
    facade_writes B cfg (pool_topUpCollateral B cfg invoiceId depositor token amount onProgress)
| write_pool_setRiskContract : ∀ (admin riskContract : string) (onProgress : Progress W),
    facade_writes B cfg (pool_setRiskContract B cfg admin riskContract onProgress)
| write_auction_setCollateralRiskConfig : ∀ (admin : string) (dangerBps gracePeriodSecs : Z)
    (onProgress : Progress W),
    facade_writes B cfg (auction_setCollateralRiskConfig B cfg admin dangerBps gracePeriodSecs onProgress)
| write_auction_checkCollateralRisk : ∀ (caller : string) (invoiceId : Z) (onProgress : Progress W),
    facade_writes B cfg (auction_checkCollateralRisk B cfg caller invoiceId onProgress)
| write_auction_liquidateCollateral : ∀ (caller : string) (invoiceId : Z) (onProgress : Progress W),
    facade_writes B cfg (auction_liquidateCollateral B cfg caller invoiceId onProgress)
| write_auction_takeCollateralSale : ∀ (taker : string) (saleId : Z) (onProgress : Progress W),
    facade_writes B cfg (auction_takeCollateralSale B cfg taker saleId onProgress)
| write_auction_reclaimExpiredSale : ∀ (caller : string) (saleId : Z) (onProgress : Progress W),
    facade_writes B cfg (auction_reclaimExpiredSale B cfg caller saleId onProgress)
| write_secondaryMarket_listPosition : ∀ (seller : string) (invoiceId : Z)
    (kind : SecondaryMarketClient.ListingKind) (amountOrBps price : Z) (onProgress : Progress W),
    facade_writes B cfg (secondaryMarket_listPosition B cfg seller invoiceId kind amountOrBps price onProgress)
| write_secondaryMarket_cancelListing : ∀ (seller : string) (listingId : Z) (onProgress : Progress W),
    facade_writes B cfg (secondaryMarket_cancelListing B cfg seller listingId onProgress)
| write_secondaryMarket_buyListing : ∀ (buyer : string) (listingId : Z) (onProgress : Progress W),
    facade_writes B cfg (secondaryMarket_buyListing B cfg buyer listingId onProgress)
| write_oracleRegistry_openRound : ∀ (caller : string) (invoiceId : Z) (oracleHash : jsval)
    (onProgress : Progress W),
    facade_writes B cfg (oracleRegistry_openRound B cfg caller invoiceId oracleHash onProgress)
| write_oracleRegistry_register : ∀ (operator : string) (stakeAmount : Z) (onProgress : Progress W),
    facade_writes B cfg (oracleRegistry_register B cfg operator stakeAmount onProgress)
| write_oracleRegistry_vote : ∀ (oracle : string) (invoiceId : Z) (approved : bool) (evidenceHash : jsval)
    (onProgress : Progress W),
    facade_writes B cfg (oracleRegistry_vote B cfg oracle invoiceId approved evidenceHash onProgress)
| write_compliance_submitScreeningResult : ∀ (screener address : string)
    (status : ComplianceClient.ComplianceStatus) (reasonCode : Z) (riskTier : ComplianceClient.RiskTier) (expiresAt : Z) (notesHash : string) (onProgress : Progress W),
    facade_writes B cfg (compliance_submitScreeningResult B cfg screener address status reasonCode riskTier expiresAt notesHash onProgress)
| write_compliance_requestReview : ∀ (caller address reason : string) (onProgress : Progress W),
    facade_writes B cfg (compliance_requestReview B cfg caller address reason onProgress)
| write_tranche_deposit : ∀ (investor token : string) (trancheClass : TrancheClient.TrancheClass)
    (amount : Z) (onProgress : Progress W),
    facade_writes B cfg (tranche_deposit B cfg investor token trancheClass amount onProgress)
| write_tranche_withdraw : ∀ (investor token : string) (trancheClass : TrancheClient.TrancheClass)
    (amount : Z) (onProgress : Progress W),
    facade_writes B cfg (tranche_withdraw B cfg investor token trancheClass amount onProgress)
| write_tranche_setConfig : ∀ (admin token : string)
    (seniorTargetYieldBps seniorAdvanceRateBps juniorFirstLossBps : Z) (onProgress : Progress W),
    facade_writes B cfg (tranche_setConfig B cfg admin token seniorTargetYieldBps seniorAdvanceRateBps juniorFirstLossBps onProgress)
| write_accessControl_proposeAction : ∀ (role : AccessControlClient.Role) (proposer target : string)
    (action : AccessControlClient.ActionPayload) (onProgress : Progress W),
    facade_writes B cfg (accessControl_proposeAction B cfg role proposer target action onProgress)
| write_accessControl_approveAction : ∀ (signerAddress : string) (proposalId : Z) (onProgress : Progress W),
    facade_writes B cfg (accessControl_approveAction B cfg signerAddress proposalId onProgress)
| write_accessControl_revokeApproval : ∀ (signerAddress : string) (proposalId : Z) (onProgress : Progress W),
    facade_writes B cfg (accessControl_revokeApproval B cfg signerAddress proposalId onProgress)
| write_accessControl_rejectAction : ∀ (signerAddress : string) (proposalId : Z) (onProgress : Progress W),
    facade_writes B cfg (accessControl_rejectAction B cfg signerAddress proposalId onProgress)
| write_accessControl_executeAction : ∀ (caller : string) (proposalId : Z) (onProgress : Progress W),
    facade_writes B cfg (accessControl_executeAction B cfg caller proposalId onProgress)
| write_insurance_purchaseCoverage : ∀ (payer : string) (invoiceId principal : Z) (sme : string)
    (dueDate : Z) (token : string) (onProgress : Progress W),
    facade_writes B cfg (insurance_purchaseCoverage B cfg payer invoiceId principal sme dueDate token onProgress)
| write_insurance_fileClaim : ∀ (caller : string) (invoiceId : Z) (onProgress : Progress W),
    facade_writes B cfg (insurance_fileClaim B cfg caller invoiceId onProgress)
| write_insurance_setPremiumConfig : ∀ (admin : string) (config : InsuranceClient.PremiumConfig)
    (onProgress : Progress W),
    facade_writes B cfg (insurance_setPremiumConfig B cfg admin config onProgress)
| write_insurance_setMinCoverageRatio : ∀ (admin token : string) (minRatioBps : Z) (onProgress : Progress W),
    facade_writes B cfg (insurance_setMinCoverageRatio B cfg admin token minRatioBps onProgress)
| write_insurance_setMinReserveAmount : ∀ (admin token : string) (minAmount : Z) (onProgress : Progress W),
    facade_writes B cfg (insurance_setMinReserveAmount B cfg admin token minAmount onProgress)
| write_insurance_fundReserveFromTreasury : ∀ (admin token : string) (amount : Z) (onProgress : Progress W),
    facade_writes B cfg (insurance_fundReserveFromTreasury B cfg admin token amount onProgress)
| write_insurance_setCreditScoreContract : ∀ (admin creditScoreContract : string) (onProgress : Progress W),
    facade_writes B cfg (insurance_setCreditScoreContract B cfg admin creditScoreContract onProgress).

