(* ===== verification/SdkEvents.v ===== *)
(** * packages/sdk/src/events.ts: the contracts' events

    [parseContractEvent] on the topics and the values of an event, the values as
    [scValToNative] gives them. [published] lists the events of the pool and share
    contracts it is meant for, as contracts/pool and contracts/share publish them. *)
From S2P Require Import Prelude.
From S2P Require Import JsValue.
From S2P Require Import JsNumber.
From S2P Require Import Abi.
#[local] Open Scope string_scope.
#[local] Open Scope list_scope.
#[local] Open Scope Z_scope.

Inductive ContractEvent :=
| PoolDepositEvent (depositor token : string) (amount sharesMinted : Z) (timestamp : number)
| PoolWithdrawalEvent (withdrawer token : string) (amount sharesBurned : Z) (timestamp : number)
| PoolYieldClaimedEvent (claimer token : string) (amount : Z) (timestamp : number)
| ShareMintEvent (to : string) (amount : Z) (timestamp : number)
| ShareBurnEvent (from : string) (amount : Z) (timestamp : number)
| ShareTransferEvent (from to : string) (amount : Z)
| ShareApproveEvent (owner spender : string) (amount : Z).

(** The [i]-th value of the destructured array. *)
Definition str_at (values : list jsval) (i : nat) : string := js_String (arr_get values i).
Definition big_at (values : list jsval) (i : nat) : result Z := to_BigInt (JStr (str_at values i)).
Definition num_at (values : list jsval) (i : nat) : number := js_Number (arr_get values i).

(** The two [switch]es. *)
Definition parse_pool (action : string) (values : list jsval) : result (option ContractEvent) :=
  if String.eqb action "deposit" then
    amount ← big_at values 2; sharesMinted ← big_at values 3;
    Ok (Some (PoolDepositEvent (str_at values 0) (str_at values 1) amount sharesMinted (num_at values 4)))
  else if String.eqb action "withdrawal" then
    amount ← big_at values 2; sharesBurned ← big_at values 3;
    Ok (Some (PoolWithdrawalEvent (str_at values 0) (str_at values 1) amount sharesBurned (num_at values 4)))
  else if String.eqb action "yield_claimed" then
    amount ← big_at values 2;
    Ok (Some (PoolYieldClaimedEvent (str_at values 0) (str_at values 1) amount (num_at values 3)))
  else Ok None.

Definition parse_share (action : string) (values : list jsval) : result (option ContractEvent) :=
  if String.eqb action "mint" then
    amount ← big_at values 1; Ok (Some (ShareMintEvent (str_at values 0) amount (num_at values 2)))
  else if String.eqb action "burn" then
    amount ← big_at values 1; Ok (Some (ShareBurnEvent (str_at values 0) amount (num_at values 2)))
  else if String.eqb action "transfer" then
    amount ← big_at values 2; Ok (Some (ShareTransferEvent (str_at values 0) (str_at values 1) amount))
  else if String.eqb action "approve" then
    amount ← big_at values 2; Ok (Some (ShareApproveEvent (str_at values 0) (str_at values 1) amount))
  else Ok None.

(** [const [namespace, action] = event.topic]: a topic that is absent or empty is
    no event's, and an exception is logged. *)
Definition parseContractEvent (topic : list string) (values : list jsval) : option ContractEvent :=
  match topic with
  | (String _ _ as namespace) :: (String _ _ as action) :: _ =>
      let parsed := if String.eqb namespace "pool" then parse_pool action values
                    else if String.eqb namespace "share" then parse_share action values
                    else Ok None in
      match parsed with Ok e => e | Throw _ => None end
  | _ => None
  end.

(** ** What the contracts publish *)

Inductive Published :=
| pool_deposit (investor token : string) (received shares_to_mint timestamp : Z)
| pool_withdraw (investor token : string) (amount shares now : Z)
| pool_claim_yield (investor token : string) (claimable bonus : Z)
| share_mint (to : string) (amount new_total : Z)
| share_burn (from : string) (amount new_total : Z)
| share_transfer (from to : string) (amount : Z)
| share_approve (owner spender : string) (amount expiration_ledger : Z).

Definition published (p : Published) : list string * list jsval :=
  match p with
  | pool_deposit investor token received shares_to_mint timestamp =>
      (["pool"; "deposit"], [JStr investor; JStr token; JBig received; JBig shares_to_mint; JBig timestamp])
  | pool_withdraw investor token amount shares now =>
      (["pool"; "withdraw"], [JStr investor; JStr token; JBig amount; JBig shares; JBig now])
  | pool_claim_yield investor token claimable bonus =>
      (["pool"; "yld_claim"], [JStr investor; JStr token; JBig claimable; JBig bonus])
  | share_mint to amount new_total => (["share"; "mint"], [JStr to; JBig amount; JBig new_total])
  | share_burn from amount new_total => (["share"; "burn"], [JStr from; JBig amount; JBig new_total])
  | share_transfer from to amount => (["share"; "transfer"], [JStr from; JStr to; JBig amount])
  | share_approve owner spender amount expiration_ledger =>
      (["share"; "approve"], [JStr owner; JStr spender; JBig amount; JNum expiration_ledger])
  end.

(** What the parser makes of it. *)
Definition parsed (p : Published) : option ContractEvent :=
  match p with
  | pool_deposit investor token received shares_to_mint timestamp =>
      Some (PoolDepositEvent investor token received shares_to_mint (num_of_Z timestamp))
  | pool_withdraw _ _ _ _ _ | pool_claim_yield _ _ _ _ => None
  | share_mint to amount new_total => Some (ShareMintEvent to amount (num_of_Z new_total))
  | share_burn from amount new_total => Some (ShareBurnEvent from amount (num_of_Z new_total))
  | share_transfer from to amount => Some (ShareTransferEvent from to amount)
  | share_approve owner spender amount _ => Some (ShareApproveEvent owner spender amount)
  end.

Lemma big_at_big values i n : arr_get values i = JBig n → big_at values i = Ok n.
Proof. intros E. unfold big_at, str_at. rewrite E. by apply to_BigInt_String; right. Qed.

(** Of the events the pool and share contracts publish, [parseContractEvent]
    gives a deposit, a transfer and an approval their contents; it does not know a
    withdrawal or a yield claim, whose topics have other names, and takes the total
    supply of a mint or a burn for its time. *)
Theorem parse_published p : parseContractEvent (published p).1 (published p).2 = parsed p.
Proof.
  destruct p as [investor token a b t|investor token a b t|investor token a b|to a b|from a b|from to a|o s a e];
    cbn [published fst snd parseContractEvent parse_pool parse_share String.eqb Ascii.eqb Bool.eqb parsed];
    try reflexivity.
  - by rewrite (big_at_big _ 2 a), (big_at_big _ 3 b).
  - by rewrite (big_at_big _ 1 a).
  - by rewrite (big_at_big _ 1 a).
  - by rewrite (big_at_big _ 2 a).
  - by rewrite (big_at_big _ 2 a).
Qed.
