(* ===== verification/SdkConform.v ===== *)
(** * The SDK against the contracts

    Every client's operations together: which calls are the contracts' own, what
    the readers make of the answers, which operations can never succeed, how
    failures are named, and what the facade can do without a signer. *)
From S2P Require Import Prelude.
From S2P Require Import JsValue.
From S2P Require Import JsNumber.
From S2P Require Import Sdk.
From S2P Require Import Abi.
From S2P Require Import ContractAbi.
From S2P Require Import ErrorTables.
From S2P Require Import SdkMarkets.
From S2P Require Import SdkClients.
From S2P Require AccessControlClient.
From S2P Require GovernanceClient.
From S2P Require PoolClient.
From S2P Require Import AsteraClient.
#[local] Open Scope string_scope.
#[local] Open Scope list_scope.
#[local] Open Scope Z_scope.

(** ** The operations of all clients *)

Inductive sdk_call {W A : Type} (op : Client W → M W A) : Contract → Prop :=
| of_share : ShareClient.calls_made op → sdk_call op Share
| of_referral : ReferralClient.calls_made op → sdk_call op Referral
| of_compliance : ComplianceClient.calls_made op → sdk_call op Compliance
| of_auction : AuctionClient.calls_made op → sdk_call op Auction
| of_secondary_market : SecondaryMarketClient.calls_made op → sdk_call op SecondaryMarket
| of_tranche : TrancheClient.calls_made op → sdk_call op Tranche
| of_invoice : InvoiceClient.calls_made op → sdk_call op Invoice
| of_oracle_registry : OracleRegistryClient.calls_made op → sdk_call op OracleRegistry
| of_insurance : InsuranceClient.calls_made op → sdk_call op Insurance
| of_credit_score : CreditScoreClient.calls_made op → sdk_call op CreditScore
| of_arbitration : ArbitrationClient.calls_made op → sdk_call op Arbitration
| of_access_control : AccessControlClient.calls_made op → sdk_call op AccessControl
| of_governance : GovernanceClient.calls_made op → sdk_call op Governance
| of_pool : PoolClient.calls_made op → sdk_call op Pool.

Inductive sdk_lost {W A : Type} (op : Client W → M W A) : Contract → Prop :=
| lost_invoice : InvoiceClient.calls_lost op → sdk_lost op Invoice
| lost_access_control : AccessControlClient.calls_lost op → sdk_lost op AccessControl
| lost_governance : GovernanceClient.calls_lost op → sdk_lost op Governance
| lost_pool : PoolClient.calls_lost op → sdk_lost op Pool.


#[local] Hint Resolve ShareClient.share_calls_conform ReferralClient.referral_calls_conform ComplianceClient.compliance_calls_conform
  AuctionClient.auction_calls_conform SecondaryMarketClient.secondary_market_calls_conform TrancheClient.tranche_calls_conform
  InvoiceClient.invoice_calls_conform OracleRegistryClient.oracle_registry_calls_conform InsuranceClient.insurance_calls_conform
  CreditScoreClient.credit_score_calls_conform ArbitrationClient.arbitration_calls_conform AccessControlClient.access_control_calls_conform
  GovernanceClient.governance_calls_conform PoolClient.pool_calls_conform : clients.
#[local] Hint Resolve InvoiceClient.invoice_calls_refused AccessControlClient.access_control_calls_refused
  GovernanceClient.governance_calls_refused PoolClient.pool_calls_refused : clients.
#[local] Hint Resolve ShareClient.share_answers_decoded ReferralClient.referral_answers_decoded ComplianceClient.compliance_answers_decoded
  AuctionClient.auction_answers_decoded SecondaryMarketClient.secondary_market_answers_decoded TrancheClient.tranche_answers_decoded
  InvoiceClient.invoice_answers_decoded InsuranceClient.insurance_answers_decoded CreditScoreClient.credit_score_answers_decoded
  ArbitrationClient.arbitration_answers_decoded AccessControlClient.access_control_answers_decoded PoolClient.pool_answers_decoded : clients.

(** C22. The operations of the SDK's clients that [calls_made] lists make calls of their
    contracts: an entry point that exists, with arguments of its parameters' types. A
    chain that checks every call against the contract's interface behaves like one
    that does not, from any state and whatever the operation's arguments. These are
    all the operations but for those of [calls_lost], which never conform
    ([sdk_calls_lost]: [InvoiceClient.createInvoice], [AccessControlClient.initialize]
    and its proposals of actions that have no encoding, [GovernanceClient.initialize],
    [createProposal], [vote], [cancelProposal], [getAllProposals] and
    [setExecutionDelay], [PoolClient.fundInvoicesBatch], [getPosition],
    [getPoolTokenTotals] and its five operations of listings), and but for
    [getLifetimeReturnBps], [getInvoiceExposure] and [simulateWaterfall] of
    [TrancheClient], for which the contract's source, cut short, has nothing. *)
Theorem sdk_calls_conform {W A} (op : Client W → M W A) c C w :
  sdk_call op c → op (checked (abi_of c) C) w = op C w.
Proof. intros H. assert (conforming (abi_of c) op) as Hc by (destruct H; eauto with clients). apply Hc. Qed.

(** The operations listed as lost never succeed: their calls are of entry points
    that the contract has not, or with arguments it does not take, and a chain that
    checks calls refuses them in every state. *)
Theorem sdk_calls_lost {W A} (op : Client W → M W A) c C w :
  sdk_lost op c → ∃ e w', op (checked (abi_of c) C) w = (Throw e, w').
Proof. intros H. assert (refused (abi_of c) op) as Hc by (destruct H; eauto with clients). apply Hc. Qed.


(** ** Errors *)

(** The codes of a contract that its client does not name as the contract does. *)
Definition codes_unnamed (c : Contract) : list Z :=
  match c with
  | Arbitration | Insurance | Share => []
  | Auction => [28; 29; 30; 31; 32; 33; 34; 35; 36]
  | Invoice => [0; 7; 38; 39; 40; 41; 42; 43; 44; 45; 46; 47; 48; 49]
  | OracleRegistry => [21; 22; 23; 24; 25; 26; 27; 28]
  | Pool => [83; 84; 85; 86; 87; 88; 89; 90; 91; 92; 93; 94; 95; 96; 97; 98]
  | Referral => [7; 8; 9; 10; 11]
  | SecondaryMarket => [16]
  | AccessControl | Compliance | CreditScore | Governance | Tranche => map fst (contract_errors c)
  end.

Lemma codes_unnamed_misnamed c code : In code (misnamed c) → In code (codes_unnamed c).
Proof.
  assert (forallb (λ x, existsb (Z.eqb x) (codes_unnamed c)) (misnamed c) = true) as H
    by (destruct c; vm_compute; reflexivity).
  rewrite forallb_forall in H. intros Hi%H. apply existsb_exists in Hi as (y&Hy&->%Z.eqb_eq). done.
Qed.

Lemma read_failed {W} (C : Client W) method args code name w account w1 tx w2 :
  named (cl_errors C) code name →
  getAccount (be_server (cl_backend C)) SIMULATION_SOURCE w = (Ok account, w1) →
  be_build (cl_backend C) account (network (cl_config C)) (contractId (cl_config C)) method args = Ok tx →
  simulateTransaction (be_server (cl_backend C)) tx w1 = (Ok (SimError (host_error code)), w2) →
  read C method args w = (Throw (EError (name +:+ " (contract error #" +:+ pretty code +:+ ")")), w2).
Proof.
  intros Hn Ha Hb Hs. with_strategy transparent [read] unfold read.
  unfold simulated_value, simulate, simulateTx, mbind, M_bind.
  rewrite Ha. unfold lift_result. rewrite Hb, Hs, Hn. reflexivity.
Qed.

(** A client that has its contract's table reports a failed read by the name the
    contract gives the code, for all but the codes listed as unnamed: all of the
    codes of the arbitration, insurance and share contracts, and those the other
    tables have. *)
Theorem errors_named {W} (C : Client W) c code name method args w account w1 tx w2 :
  cl_errors C = client_errors c →
  In (code, name) (contract_errors c) → ¬ In code (codes_unnamed c) →
  getAccount (be_server (cl_backend C)) SIMULATION_SOURCE w = (Ok account, w1) →
  be_build (cl_backend C) account (network (cl_config C)) (contractId (cl_config C)) method args = Ok tx →
  simulateTransaction (be_server (cl_backend C)) tx w1 = (Ok (SimError (host_error code)), w2) →
  read C method args w = (Throw (EError (name +:+ " (contract error #" +:+ pretty code +:+ ")")), w2).
Proof.
  intros He Hi Hm. apply read_failed. rewrite He. apply client_errors_named, lookup_code_In.
  apply not_misnamed; [done|]. intros Hx. by apply Hm, codes_unnamed_misnamed.
Qed.

(** ** The facade *)

Lemma send_unsigned {W} (C : Client W) I source method args :
  config_signer (cl_config C) = None → reads_keep (be_server (cl_backend C)) I →
  triple I (send C source method args) (λ _ _, False) I.
Proof. with_strategy transparent [send] unfold send. apply buildAndSendTx_unsigned. Qed.

(** None of the facade's writing methods can succeed, or send a transaction: the
    clients it builds have no signer, so each of them ends in an exception having
    only asked the server for accounts and simulations. *)
Theorem facade_writes_nothing {W} (B : Backend W) cfg (op : M W string) (I : W → Prop) :
  facade_writes B cfg op → reads_keep (be_server B) I → triple I op (λ _ _, False) I.
Proof.
  intros H HI. destruct H; first [by apply send_unsigned | by apply buildAndSendTx_unsigned].
Qed.

(** ** Concrete clients

    A server that logs the calls it gets and fails every simulation with a code of
    the contract, clients of it, and the theorems applied to them. *)
Definition logged {A} (entry : string) (r : result A) : M (list string) A := λ log, (r, log ++ [entry]).

(** Every simulation fails with the contract's code 7. *)
Definition refusing_server : Server (list string) string string jsval := {|
  getAccount a := logged "getAccount" (Ok a);
  simulateTransaction tx := logged "simulateTransaction" (Ok (SimError (host_error 7)));
  sendTransaction tx := logged "sendTransaction" (Ok {| send_status := "PENDING"; send_hash := "h" |});
  getTransaction h := logged "getTransaction" (Ok "SUCCESS")
|}.

(** Every simulation answers with a value. *)
Definition answering_server (v : jsval) : Server (list string) string string jsval := {|
  getAccount a := logged "getAccount" (Ok a);
  simulateTransaction tx := logged "simulateTransaction" (Ok (SimSuccess v));
  sendTransaction tx := logged "sendTransaction" (Ok {| send_status := "PENDING"; send_hash := "h" |});
  getTransaction h := logged "getTransaction" (Ok "SUCCESS")
|}.

Definition sample_backend (s : Server (list string) string string jsval) : Backend (list string) := {|
  be_server := s;
  be_build := λ account network id method args, Ok (account +:+ "/" +:+ method);
  be_assemble := λ tx _, Ok tx;
  be_fromXDR := λ xdr _, Ok xdr;
  be_scValToNative := λ v, v |}.

Definition sample_client (s : Server (list string) string string jsval) (errors : list (Z * string))
    (signer : option (string → M (list string) string)) : Client (list string) := {|
  cl_backend := sample_backend s;
  cl_config := {| network := "Test"; contractId := "C"; config_signer := signer |};
  cl_errors := errors; cl_onProgress := λ _, mret () |}.

Definition signing_client : Client (list string) :=
  sample_client (answering_server (JBig 42)) (client_errors Share) (Some (λ xdr, mret ("signed " +:+ xdr))).

#[local] Transparent send read.

Example transfer_sent :
  ShareClient.transfer signing_client "GA" "GB" 5 [] =
  (Ok "h", ["getAccount"; "simulateTransaction"; "sendTransaction"; "getTransaction"]).
Proof. reflexivity. Qed.

Lemma sdk_calls_conform_witness :
  sdk_call (λ C : Client (list string), ShareClient.transfer C "GA" "GB" 5) Share ∧
  ShareClient.transfer (checked (abi_of Share) signing_client) "GA" "GB" 5 [] =
  ShareClient.transfer signing_client "GA" "GB" 5 [].
Proof.
  assert (sdk_call (λ C : Client (list string), ShareClient.transfer C "GA" "GB" 5) Share) as H
    by (constructor; constructor).
  split; [exact H|]. exact (sdk_calls_conform (λ C, ShareClient.transfer C "GA" "GB" 5) Share signing_client [] H).
Defined.


Definition refused_client : Client (list string) := sample_client refusing_server (client_errors Share) None.

Lemma errors_named_witness :
  In (7, "InsufficientBalance") (contract_errors Share) ∧
  read refused_client "balance" [ArgAddress "GA"] [] =
  (Throw (EError "InsufficientBalance (contract error #7)"), ["getAccount"; "simulateTransaction"]).
Proof.
  assert (In (7, "InsufficientBalance") (contract_errors Share)) as Hi by (cbn; tauto).
  split; [exact Hi|].
  exact (errors_named refused_client Share 7 "InsufficientBalance" "balance" [ArgAddress "GA"] []
    SIMULATION_SOURCE ["getAccount"] (SIMULATION_SOURCE +:+ "/" +:+ "balance") ["getAccount"; "simulateTransaction"]
    eq_refl Hi (λ x, x) eq_refl eq_refl eq_refl).
Defined.

Definition sample_config : Config := {|
  ac_network := "Test"; ac_invoiceContractId := "CI"; ac_poolContractId := "CP";
  ac_secondaryMarketContractId := None; ac_auctionContractId := None; ac_creditScoreContractId := None;
  ac_oracleRegistryContractId := None; ac_complianceContractId := None; ac_trancheContractId := None;
  ac_accessControlContractId := None; ac_insuranceContractId := None |}.

(** Nothing was sent. *)
Definition unsent (log : list string) : Prop := ¬ In "sendTransaction" log.

Lemma unsent_logged {A} entry (r : result A) : entry ≠ "sendTransaction" → keeps unsent (logged entry r).
Proof.
  intros He log Hl. unfold logged.
  assert (unsent (log ++ [entry])) as H by (intros [Hi|[Hi|[]]]%in_app_or; [by apply Hl|by apply He]).
  by destruct r.
Qed.

Lemma facade_writes_nothing_witness :
  reads_keep (be_server (sample_backend (answering_server JNull))) unsent ∧
  triple unsent
    (pool_deposit (sample_backend (answering_server JNull)) sample_config "GA" "GT" 5 None (λ _, mret tt))
    (λ _ _, False) unsent.
Proof.
  assert (reads_keep (be_server (sample_backend (answering_server JNull))) unsent) as H
    by (split; intros ?; apply unsent_logged; discriminate).
  split; [exact H|].
  exact (facade_writes_nothing (sample_backend (answering_server JNull)) sample_config _ unsent
    (write_pool_deposit _ _ "GA" "GT" 5 None (λ _, mret tt)) H).
Defined.
