(* ===== verification/Oracle.v ===== *)
(** * oracle-service/src: retries, consensus and staking trackers

    [retryWithBackoff] over any stateful operation that can throw;
    [ConsensusTracker] and [StakingMetricsTracker], the views a node derives
    from the registry's event stream, and the startup checks of staking.ts. *)
From S2P Require Import Prelude JsValue JsNumber JsMap.
From Stdlib Require Import Ascii.
#[local] Open Scope string_scope.
#[local] Open Scope list_scope.
#[local] Open Scope Z_scope.

(** ** retry.ts *)

Definition NON_RETRIABLE_PATTERNS : list string :=
  ["Simulation failed"; "Transaction failed on-chain"; "Transaction failed:";
   "Document verification failed"].

Definition isRetriableError (error : exn) : bool :=
  negb (existsb (λ pattern, includes pattern (exn_message error)) NON_RETRIABLE_PATTERNS).

Record RetryOptions := { maxAttempts : Z; baseDelayMs : Z; maxDelayMs : Z }.

Definition DEFAULT_OPTIONS : RetryOptions :=
  {| maxAttempts := 3; baseDelayMs := 2000; maxDelayMs := 30000 |}.

Section retry.
Context {St A : Type} (fn : M St A) (o : RetryOptions).
(** [Math.random()] before the wait that follows an attempt, in units of
    [2^-53]: [random attempt / 2^53] is in [0, 1). *)
Context (random : Z → Z).

Definition retry_delay (attempt : Z) : Z :=
  let exponentialDelay := Z.min (baseDelayMs o * 2 ^ (attempt - 1)) (maxDelayMs o) in
  random attempt * exponentialDelay / 2 ^ 53.

(** The loop from [attempt] on, with [fuel] attempts left: the delays slept, and
    the outcome. [lastError] is thrown when the loop ends. *)
Fixpoint retry_loop (fuel : nat) (attempt : Z) (lastError : exn) (s : St)
    : list Z * (result A * St) :=
  match fuel with
  | O => ([], (Throw lastError, s))
  | S fuel' =>
      match fn s with
      | (Ok a, s') => ([], (Ok a, s'))
      | (Throw err, s') =>
          if negb (isRetriableError err) then ([], (Throw err, s'))
          else
            let rest := retry_loop fuel' (attempt + 1) err s' in
            if attempt <? maxAttempts o then (retry_delay attempt :: rest.1, rest.2) else rest
      end
  end.

Definition retryWithBackoff : M St A := λ s,
  (retry_loop (Z.to_nat (maxAttempts o)) 1 (ETypeError "throw null") s).2.

Definition retry_delays (s : St) : list Z :=
  (retry_loop (Z.to_nat (maxAttempts o)) 1 (ETypeError "throw null") s).1.

(** [n] attempts in a row, each throwing a retriable error. *)
Inductive failed_attempts : nat → St → St → Prop :=
| failed_0 s : failed_attempts 0 s s
| failed_S n s s1 s2 e :
    fn s = (Throw e, s1) → isRetriableError e = true →
    failed_attempts n s1 s2 → failed_attempts (S n) s s2.

Lemma retry_loop_spec fuel attempt lastError s :
  (0 < fuel)%nat →
  ∃ k s1, (k < fuel)%nat ∧ failed_attempts k s s1
    ∧ (retry_loop fuel attempt lastError s).2 = fn s1
    ∧ ((fn s1).1 = (retry_loop fuel attempt lastError s).2.1)
    ∧ (S k = fuel ∨ match (fn s1).1 with Ok _ => True | Throw e => isRetriableError e = false end).
Proof.
  revert attempt lastError s. induction fuel as [|fuel IH]; intros attempt lastError s Hf; [lia|].
  cbn [retry_loop]. destruct (fn s) as [[a|e] s'] eqn:Efn.
  - exists 0%nat, s. rewrite Efn. split_and!; try done; [constructor|by right].
  - destruct (isRetriableError e) eqn:Er; simpl.
    2:{ exists 0%nat, s. rewrite Efn. split_and!; try done; [constructor|by right]. }
    destruct fuel as [|fuel].
    { exists 0%nat, s. rewrite Efn. simpl.
      destruct (attempt <? maxAttempts o); split_and!; try done; try lia; try constructor; by left. }
    destruct (IH (attempt + 1) e s' ltac:(lia)) as (k&s1&Hk&Hfail&Heq&Heq'&Hstop).
    exists (S k), s1. split; [lia|]. split; [by econstructor|].
    destruct (attempt <? maxAttempts o); simpl; split_and!; try done;
      (destruct Hstop; [left; lia|by right]).
Qed.

Lemma retry_loop_delays fuel attempt lastError s :
  (∀ i, 0 ≤ random i < 2 ^ 53) → 0 < baseDelayMs o → 0 < maxDelayMs o →
  1 ≤ attempt → Z.of_nat fuel + attempt = maxAttempts o + 1 →
  (0 < fuel)%nat →
  let delays := (retry_loop fuel attempt lastError s).1 in
  lengthZ delays < Z.of_nat fuel ∧ Forall (λ d, 0 ≤ d < maxDelayMs o) delays.
Proof.
  intros Hr Hb Hm. revert attempt lastError s.
  induction fuel as [|fuel IH]; intros attempt lastError s Ha Hf Hpos; [lia|].
  cbn [retry_loop]. destruct (fn s) as [[a|e] s'].
  { simpl. split; [unfold lengthZ; simpl length; lia|constructor]. }
  destruct (isRetriableError e); simpl; [|split; [unfold lengthZ; simpl length; lia|constructor]].
  destruct fuel as [|fuel].
  { destruct (Z.ltb_spec attempt (maxAttempts o)); [lia|]. split; [unfold lengthZ; simpl length; lia|constructor]. }
  destruct (Z.ltb_spec attempt (maxAttempts o)); [|lia].
  destruct (IH (attempt + 1) e s' ltac:(lia) ltac:(lia) ltac:(lia)) as [Hlen Hall].
  cbn [fst]. split; [unfold lengthZ in *; rewrite length_cons; lia|]. constructor; [|done].
  unfold retry_delay. specialize (Hr attempt).
  assert (0 < 2 ^ (attempt - 1)) by (apply Z.pow_pos_nonneg; lia).
  set (d := Z.min _ _). assert (0 < d ≤ maxDelayMs o) by (unfold d; nia).
  split; [apply Z.div_pos; [nia|lia]|]. apply Z.div_lt_upper_bound; [lia|]. nia.
Qed.

(** A retried operation runs at most [maxAttempts] times: it stops at the
    first attempt that returns, or throws an error that is not retriable, or is
    the last, and the caller gets exactly that attempt's outcome; the waits in
    between are one fewer than the attempts allowed, and below the cap. *)
Theorem retryWithBackoff_correct s :
  1 ≤ maxAttempts o → 0 < baseDelayMs o → 0 < maxDelayMs o → (∀ i, 0 ≤ random i < 2 ^ 53) →
  ∃ k s1, Z.of_nat k < maxAttempts o
    ∧ failed_attempts k s s1 ∧ retryWithBackoff s = fn s1
    ∧ (Z.of_nat k = maxAttempts o - 1
       ∨ match (fn s1).1 with Ok _ => True | Throw e => isRetriableError e = false end)
    ∧ lengthZ (retry_delays s) < maxAttempts o
    ∧ Forall (λ d, 0 ≤ d < maxDelayMs o) (retry_delays s).
Proof.
  intros Hmax Hb Hm Hr.
  destruct (retry_loop_spec (Z.to_nat (maxAttempts o)) 1 (ETypeError "throw null") s ltac:(lia))
    as (k&s1&Hk&Hf&Heq&_&Hstop).
  destruct (retry_loop_delays (Z.to_nat (maxAttempts o)) 1 (ETypeError "throw null") s) as [Hl Hd];
    try done; try lia.
  exists k, s1. split_and!; try done; [lia| |].
  - destruct Hstop; [left; lia|by right].
  - unfold retry_delays. lia.
Qed.

End retry.

(** ** consensus.ts *)

Inductive RoundStatus := Open | ConsensusApproved | ConsensusRejected | Expired.

#[export] Instance RoundStatus_eq_dec : EqDecision RoundStatus.
Proof. solve_decision. Defined.

Record TrackedRound := {
  tk_invoiceId : string;
  tk_status : RoundStatus;
  tk_votedByThisNode : bool;
  tk_updatedAt : Z;
}.

Record ConsensusTracker := {
  rounds : list (string * TrackedRound);
  votedByMe : list string;
  paused : bool;
}.

Definition new_tracker : ConsensusTracker :=
  {| rounds := []; votedByMe := []; paused := false |}.

Definition asArray (value : jsval) : list jsval :=
  match value with JArr l => l | _ => [value] end.

Definition tracker_upsert (now : Z) (invoiceId : string) (status : RoundStatus)
    (t : ConsensusTracker) : ConsensusTracker := {|
  rounds := jm_set invoiceId {|
    tk_invoiceId := invoiceId;
    tk_status := status;
    tk_votedByThisNode := one_of (votedByMe t) invoiceId;
    tk_updatedAt := now |} (rounds t);
  votedByMe := votedByMe t;
  paused := paused t |}.

Definition set_paused (b : bool) (t : ConsensusTracker) : ConsensusTracker :=
  {| rounds := rounds t; votedByMe := votedByMe t; paused := b |}.

Definition markPaused : ConsensusTracker → ConsensusTracker := set_paused true.

Definition add_vote (invoiceId : string) (t : ConsensusTracker) : ConsensusTracker :=
  {| rounds := rounds t; votedByMe := set_add invoiceId (votedByMe t); paused := paused t |}.

(** [String(asArray(value)[0])] *)
Definition value_id (value : jsval) : string := js_String (arr_get (asArray value) 0).

Definition outcome_status (value : jsval) : RoundStatus :=
  if truthy (arr_get (asArray value) 1) then ConsensusApproved else ConsensusRejected.

Definition tracker_handleEvent (me : string) (now : Z) (topic2 : string) (value : jsval)
    (t : ConsensusTracker) : ConsensusTracker :=
  if String.eqb topic2 "paused" then set_paused true t
  else if String.eqb topic2 "unpaused" then set_paused false t
  else if String.eqb topic2 "rnd_open" then tracker_upsert now (value_id value) Open t
  else if String.eqb topic2 "voted" then
    let invoiceId := value_id value in
    let oracle := js_String (arr_get (asArray value) 1) in
    let t := if String.eqb oracle me then add_vote invoiceId t else t in
    tracker_upsert now invoiceId
      (match jm_get invoiceId (rounds t) with Some r => tk_status r | None => Open end) t
  else if String.eqb topic2 "consensus" then
    tracker_upsert now (value_id value) (outcome_status value) t
  else if String.eqb topic2 "rnd_exp" then
    let invoiceId := match value with JArr l => arr_get l 0 | _ => value end in
    tracker_upsert now (js_String invoiceId) Expired t
  else if String.eqb topic2 "fallback" then
    tracker_upsert now (value_id value) (outcome_status value) t
  else t.

Definition hasVoted (t : ConsensusTracker) (invoiceId : string) : bool :=
  one_of (votedByMe t) invoiceId.
Definition isPaused (t : ConsensusTracker) : bool := paused t.
Definition isOpen (t : ConsensusTracker) (invoiceId : string) : bool :=
  match jm_get invoiceId (rounds t) with
  | Some r => bool_decide (tk_status r = Open) | None => false end.
Definition list_rounds (t : ConsensusTracker) : list TrackedRound := jm_values (rounds t).

(** A registry event as the listener forwards it, with the clock. *)
Record RegistryEvent := { re_now : Z; re_topic : string; re_value : jsval }.

(** What reaches the tracker: an event of the registry, or the mark the
    verifier leaves when a vote failed with [ContractPaused]. *)
Inductive TrackerInput := Event (e : RegistryEvent) | Marked.

Definition track_input (me : string) (t : ConsensusTracker) (i : TrackerInput) : ConsensusTracker :=
  match i with
  | Event e => tracker_handleEvent me (re_now e) (re_topic e) (re_value e) t
  | Marked => markPaused t
  end.

Definition track (me : string) (t : ConsensusTracker) (history : list TrackerInput)
    : ConsensusTracker :=
  foldl (track_input me) t history.

(** *** What the tracker means, from the history alone *)

(** The invoice a value is about: the text of the first element of an array,
    of nothing for an empty one, or of the value itself. *)
Inductive subject : jsval → string → Prop :=
| subject_first x l : subject (JArr (x :: l)) (js_String x)
| subject_empty : subject (JArr []) "undefined"
| subject_self v : (∀ l, v ≠ JArr l) → subject v (js_String v).

(** A verdict approves with a second element that is true. *)
Inductive approving : jsval → Prop :=
| approving_second x yes l : truthy yes = true → approving (JArr (x :: yes :: l)).

(** What one event makes of the round [id], the status before being [before]. *)
Inductive event_sets (id : string) (before : option RoundStatus) (e : RegistryEvent)
    : RoundStatus → Prop :=
| sets_opened : re_topic e = "rnd_open" → subject (re_value e) id → event_sets id before e Open
| sets_approved :
    re_topic e = "consensus" ∨ re_topic e = "fallback" → subject (re_value e) id →
    approving (re_value e) → event_sets id before e ConsensusApproved
| sets_rejected :
    re_topic e = "consensus" ∨ re_topic e = "fallback" → subject (re_value e) id →
    ¬ approving (re_value e) → event_sets id before e ConsensusRejected
| sets_expired : re_topic e = "rnd_exp" → subject (re_value e) id → event_sets id before e Expired
| sets_voted :
    re_topic e = "voted" → subject (re_value e) id → event_sets id before e (default Open before).

(** The status of the round [id] after a history. *)
Inductive round_is (id : string) : list TrackerInput → option RoundStatus → Prop :=
| round_unknown : round_is id [] None
| round_set h e before st :
    round_is id h before → event_sets id before e st → round_is id (h ++ [Event e]) (Some st)
| round_kept h i before :
    round_is id h before → (∀ e st, i = Event e → ¬ event_sets id before e st) →
    round_is id (h ++ [i]) before.

(** The voter a vote names: the text of the second element. *)
Inductive voter : jsval → string → Prop :=
| voter_second x oracle l : voter (JArr (x :: oracle :: l)) (js_String oracle)
| voter_missing v : (∀ x oracle l, v ≠ JArr (x :: oracle :: l)) → voter v "undefined".

(** A vote of the node [me] for the invoice [id]. *)
Inductive my_vote (me id : string) : TrackerInput → Prop :=
| vote_event e :
    re_topic e = "voted" → subject (re_value e) id → voter (re_value e) me →
    my_vote me id (Event e).

Definition pauses (i : TrackerInput) : Prop :=
  match i with Event e => re_topic e = "paused" | Marked => True end.
Definition resumes (i : TrackerInput) : Prop :=
  match i with Event e => re_topic e = "unpaused" | Marked => False end.

(** A pause or a mark, and no resume since. *)
Definition paused_since (h : list TrackerInput) : Prop :=
  ∃ h1 i h2, h = h1 ++ i :: h2 ∧ pauses i ∧ Forall (λ j, ¬ resumes j) h2.

Definition tracks (me : string) (h : list TrackerInput) (t : ConsensusTracker) : Prop :=
  (∀ id, round_is id h (tk_status <$> jm_get id (rounds t)))
  ∧ (∀ id, hasVoted t id = true ↔ Exists (my_vote me id) h)
  ∧ (∀ id r, jm_get id (rounds t) = Some r →
       tk_invoiceId r = id ∧ tk_votedByThisNode r = hasVoted t id)
  ∧ (isPaused t = true ↔ paused_since h).

Lemma one_of_elem l s : one_of l s = true ↔ s ∈ l.
Proof.
  unfold one_of. rewrite existsb_exists. setoid_rewrite <-list_elem_of_In.
  split; [intros (x&?&->%String.eqb_eq)|intros ?; exists s; rewrite String.eqb_refl]; done.
Qed.

Lemma value_id_expired value :
  js_String (match value with JArr l => arr_get l 0 | _ => value end) = value_id value.
Proof. by destruct value. Qed.

Lemma subject_spec v id : subject v id ↔ id = value_id v.
Proof.
  split.
  - intros [x l| |v' Hv]; try done. destruct v'; try done. by destruct (Hv l).
  - intros ->. unfold value_id. destruct v as [| | | | | |l|]; try by apply (subject_self _).
    destruct l; constructor.
Qed.

Lemma outcome_spec v :
  (outcome_status v = ConsensusApproved ∧ approving v)
  ∨ (outcome_status v = ConsensusRejected ∧ ¬ approving v).
Proof.
  unfold outcome_status. destruct (truthy (arr_get (asArray v) 1)) eqn:E; [left|right]; split; try done.
  - destruct v; try done. destruct l as [|x [|y l]]; done.
  - inversion 1 as [x yes l Hy]; subst. unfold arr_get in E. simpl in E. congruence.
Qed.

Lemma voter_spec v me : voter v me ↔ js_String (arr_get (asArray v) 1) = me.
Proof.
  split.
  - intros [x y l|v' Hn]; [done|]. destruct v' as [| | | | | |l|]; try done.
    destruct l as [|x [|y l]]; [done..|]. by destruct (Hn x y l).
  - intros <-. destruct v as [| | | | | |l|]; try by apply voter_missing.
    destruct l as [|x [|y l]]; try by apply voter_missing. constructor.
Qed.

Lemma my_vote_spec me id e :
  my_vote me id (Event e)
  ↔ re_topic e = "voted" ∧ id = value_id (re_value e)
    ∧ js_String (arr_get (asArray (re_value e)) 1) = me.
Proof.
  split.
  - inversion 1 as [e' Ht Hs Hv]; subst. split_and!; [done|by apply subject_spec|by apply voter_spec].
  - intros (Ht&Hs&Hv). constructor; [done|by apply subject_spec|by apply voter_spec].
Qed.

Lemma paused_since_snoc h i :
  paused_since (h ++ [i]) ↔ pauses i ∨ (¬ resumes i ∧ paused_since h).
Proof.
  split.
  - intros (h1&j&h2&E&Hp&Hn). destruct h2 as [|k h2 _] using rev_ind.
    + apply app_inj_tail in E as [_ ->]. by left.
    + rewrite app_comm_cons, app_assoc in E. apply app_inj_tail in E as [-> <-].
      apply Forall_app in Hn as [Hn Hi]. apply Forall_inv in Hi.
      right. split; [exact Hi|]. by exists h1, j, h2.
  - intros [Hp|[Hi (h1&j&h2&->&Hp&Hn)]].
    + by exists h, i, [].
    + exists h1, j, (h2 ++ [i]). split_and!; [by rewrite <-app_assoc|done|].
      apply Forall_app. split; [done|by apply Forall_singleton].
Qed.

(** An input that concerns no round and is no vote. *)
Lemma tracks_other me h t i t' :
  (∀ id e before st, i = Event e → ¬ event_sets id before e st) →
  (∀ id, ¬ my_vote me id i) →
  rounds t' = rounds t → votedByMe t' = votedByMe t →
  (paused t' = true ↔ pauses i ∨ (¬ resumes i ∧ paused t = true)) →
  tracks me h t → tracks me (h ++ [i]) t'.
Proof.
  intros Hs Hm Hr' Hv' Hp' (Hr&Hv&Hf&Hp). unfold tracks, hasVoted, isPaused in *. split_and!.
  - intros id. rewrite Hr'. apply round_kept; [apply Hr|]. intros e st E. by apply Hs.
  - intros id. rewrite Hv', Hv, Exists_app, Exists_cons, Exists_nil. specialize (Hm id). tauto.
  - intros id r. rewrite Hr', Hv'. apply Hf.
  - rewrite Hp', Hp. symmetry. apply paused_since_snoc.
Qed.

(** An event about the round of its value, on a tracker whose votes already
    count it. *)
Lemma tracks_upsert me h t t0 e status :
  let id := value_id (re_value e) in
  paused t = paused t0 → rounds t = rounds t0 → tracks me h t0 →
  (∀ i, hasVoted t i = true ↔ Exists (my_vote me i) (h ++ [Event e])) →
  event_sets id (tk_status <$> jm_get id (rounds t)) e status →
  re_topic e ≠ "paused" → re_topic e ≠ "unpaused" →
  tracks me (h ++ [Event e]) (tracker_upsert (re_now e) id status t).
Proof.
  intros id Hpt Hrt (Hr&Hv&Hf&Hp) Hvote Hstatus Hn1 Hn2. rewrite Hrt in Hstatus. split_and!.
  - intros i. simpl. destruct (decide (id = i)) as [<-|Hne].
    + rewrite jm_get_set_eq. by apply (round_set _ _ _ _ _ (Hr id)).
    + rewrite jm_get_set_ne, Hrt by done. apply round_kept; [apply Hr|].
      intros e' st [= <-] Hset. apply Hne. symmetry. apply subject_spec. by destruct Hset.
  - apply Hvote.
  - intros i r. simpl. destruct (decide (id = i)) as [<-|Hne].
    + rewrite jm_get_set_eq. by intros [= <-].
    + rewrite jm_get_set_ne, Hrt by done. intros Hi. destruct (Hf _ _ Hi) as [-> ->].
      split; [done|]. apply Bool.eq_iff_eq_true. rewrite Hv.
      change (hasVoted _ i) with (hasVoted t i). rewrite Hvote, Exists_app, Exists_cons, Exists_nil.
      rewrite my_vote_spec. split; [tauto|]. intros [?|[(_&Hi'&_)|[]]]; [done|]. by destruct Hne.
  - unfold isPaused in *. simpl. rewrite Hpt, Hp, paused_since_snoc. simpl. tauto.
Qed.

(** The events that set a status of their own. *)
Lemma tracks_status me h t e status :
  let id := value_id (re_value e) in
  re_topic e ≠ "voted" → (∀ before, event_sets id before e status) →
  re_topic e ≠ "paused" → re_topic e ≠ "unpaused" → tracks me h t →
  tracks me (h ++ [Event e]) (tracker_upsert (re_now e) id status t).
Proof.
  intros id Hv Hs Hp Hu Ht. apply (tracks_upsert _ _ _ t); try done.
  intros i. destruct Ht as (_&Ht&_). rewrite Ht, Exists_app, Exists_cons, Exists_nil, my_vote_spec.
  split; [tauto|]. intros [?|[(?&_)|[]]]; done.
Qed.

Lemma hasVoted_add id t i : hasVoted (add_vote id t) i = true ↔ i = id ∨ hasVoted t i = true.
Proof. unfold hasVoted. simpl. by rewrite !one_of_elem, elem_of_set_add. Qed.

(** The vote event, whose voter may be this node. *)
Lemma tracks_voted me h t e :
  re_topic e = "voted" → tracks me h t → tracks me (h ++ [Event e]) (track_input me t (Event e)).
Proof.
  intros Ht Htr. simpl. unfold tracker_handleEvent. rewrite Ht.
  change (String.eqb "voted" "paused") with false. change (String.eqb "voted" "unpaused") with false.
  change (String.eqb "voted" "rnd_open") with false. change (String.eqb "voted" "voted") with true.
  cbn match zeta. set (id := value_id (re_value e)).
  assert (∀ t', event_sets id (tk_status <$> jm_get id (rounds t')) e
    (match jm_get id (rounds t') with Some r => tk_status r | None => Open end)) as Hst.
  { intros t'. replace (match jm_get id (rounds t') with _ => _ end)
      with (default Open (tk_status <$> jm_get id (rounds t'))) by by destruct (jm_get id (rounds t')).
    apply sets_voted; [done|]. by apply subject_spec. }
  assert (∀ t' : ConsensusTracker, paused t' = paused t → rounds t' = rounds t →
    (∀ i, hasVoted t' i = true ↔ hasVoted t i = true ∨ my_vote me i (Event e)) →
    tracks me (h ++ [Event e])
      (tracker_upsert (re_now e) id
         (match jm_get id (rounds t') with Some r => tk_status r | None => Open end) t')) as Hup.
  { intros t' Hp' Hr' Hv'. apply (tracks_upsert _ _ _ t); try done; [|by rewrite Ht..].
    intros i. destruct Htr as (_&Hv&_). rewrite Hv', Hv, Exists_app, Exists_cons, Exists_nil. tauto. }
  destruct (String.eqb_spec (js_String (arr_get (asArray (re_value e)) 1)) me) as [Hme|Hme];
    apply Hup; try done; intros i; rewrite my_vote_spec.
  - rewrite hasVoted_add. unfold id. tauto.
  - tauto.
Qed.

Ltac no_vote := rewrite my_vote_spec; intros (?&_); congruence.
Ltac sets_no_round := intros ? ? ? ? [= <-]; inversion 1; intuition congruence.

Lemma tracks_step me h t i : tracks me h t → tracks me (h ++ [i]) (track_input me t i).
Proof.
  intros Ht. destruct i as [e|].
  2:{ apply (tracks_other _ _ t); try done; [by inversion 1|]. simpl. tauto. }
  destruct (decide (re_topic e = "voted")) as [Hv|Hv]; [by apply tracks_voted|].
  simpl. unfold tracker_handleEvent. rewrite value_id_expired.
  assert (∀ topic, re_topic e = topic → topic ∈ ["consensus"; "fallback"] →
    ∀ before, event_sets (value_id (re_value e)) before e (outcome_status (re_value e))) as Hout.
  { intros topic E [->|[->|?%not_elem_of_nil]%elem_of_cons]%elem_of_cons before; [..|done];
      destruct (outcome_spec (re_value e)) as [[-> Ha]|[-> Ha]];
      first [apply sets_approved|apply sets_rejected]; auto; by apply subject_spec. }
  destruct (String.eqb_spec (re_topic e) "paused") as [E|Np].
  { apply (tracks_other _ _ t); try done; [sets_no_round|intros ?; no_vote|simpl; tauto]. }
  destruct (String.eqb_spec (re_topic e) "unpaused") as [E|Nu].
  { apply (tracks_other _ _ t); try done; [sets_no_round|intros ?; no_vote|].
    simpl. rewrite E. intuition congruence. }
  destruct (String.eqb_spec (re_topic e) "rnd_open") as [E|N1].
  { apply tracks_status; try done. intros ?. apply sets_opened; [done|by apply subject_spec]. }
  destruct (String.eqb_spec (re_topic e) "voted") as [E|_]; [done|].
  destruct (String.eqb_spec (re_topic e) "consensus") as [E|N2].
  { apply tracks_status; try done. apply (Hout _ E). set_solver. }
  destruct (String.eqb_spec (re_topic e) "rnd_exp") as [E|N3].
  { apply tracks_status; try done. intros ?. apply sets_expired; [done|by apply subject_spec]. }
  destruct (String.eqb_spec (re_topic e) "fallback") as [E|N4].
  { apply tracks_status; try done. apply (Hout _ E). set_solver. }
  apply (tracks_other _ _ t); try done; [sets_no_round|intros ?; no_vote|simpl; tauto].
Qed.

(** C39. What the node knows of the registry is read off the inputs of its
    tracker alone, in any order. The status of every invoice is the one its
    own events lead to: open when a round opens, approved or rejected when a
    consensus or a fallback has a second element that is true or not, expired
    when the round does; a vote never changes it, and opens an unknown round.
    The node has voted exactly when a vote naming it was seen, and the flag
    shown with a tracked round agrees. The registry is taken as paused exactly
    when a pause, or the mark left by a vote the paused contract refused, has
    had no resume since. *)
Theorem consensus_tracker_correct me history :
  tracks me history (track me new_tracker history).
Proof.
  unfold track. induction history as [|i h IH] using rev_ind.
  - split_and!; [intros id; exact (round_unknown id)|intros id; by rewrite Exists_nil|done|].
    split; [done|]. by intros ([]&?&?&?&_).
  - rewrite foldl_app. by apply tracks_step.
Qed.
