(* ===== verification/Verifier.v ===== *)
(** * oracle-service/src/verifier.ts: the verification queue and the verdicts

    [VerificationQueue] as a step relation over the tasks of the event loop, and
    [Verifier.performVerification] with the verdict it submits. The chain is an
    [AsteraClient] over the verifier's state; what happens during an [await],
    registry events included, is part of the awaited call. *)
From S2P Require Import Prelude JsValue JsNumber JsMap Sdk Oracle.
From Stdlib Require Import Ascii.
#[local] Open Scope string_scope.
#[local] Open Scope list_scope.
#[local] Open Scope Z_scope.

(** ** [isRegistryPausedError] *)

(** [Object.entries(OracleRegistryErrors).find(…)?.[0]]. *)
Fixpoint find_code (message : string) (errors : list (Z * string)) : option string :=
  match errors with
  | [] => None
  | (c, m) :: errors' => if String.eqb m message then Some (pretty c) else find_code message errors'
  end.

Definition CONTRACT_PAUSED_CODE : option string := find_code "ContractPaused" OracleRegistryErrors.

Definition isRegistryPausedError (error : exn) : bool :=
  match CONTRACT_PAUSED_CODE with
  | None => false
  | Some code => includes ("Error(Contract, #" +:+ code +:+ ")") (exn_message error)
  end.

(** [String(e)] of a caught error. *)
Definition exn_String (e : exn) : string :=
  (match e with
   | EError _ => "Error" | ETypeError _ => "TypeError" | ERangeError _ => "RangeError"
   | EReferenceError _ => "ReferenceError" | ESyntaxError _ => "SyntaxError"
   end) +:+ ": " +:+ exn_message e.

(** ** [VerificationQueue] *)

Record VerificationQueue := {
  queue : list Z;
  running : Z;
  maxConcurrency : Z;
}.

Definition new_queue (n : Z) : VerificationQueue :=
  {| queue := []; running := 0; maxConcurrency := n |}.

(** [process] up to its [await]: the invoice whose handler it starts. *)
Definition process (q : VerificationQueue) : VerificationQueue * option Z :=
  if maxConcurrency q <=? running q then (q, None)
  else match queue q with
       | [] => (q, None)
       | invoiceId :: queue' =>
           ({| queue := queue'; running := running q + 1; maxConcurrency := maxConcurrency q |},
            Some invoiceId)
       end.

Definition push (invoiceId : Z) (q : VerificationQueue) : VerificationQueue :=
  {| queue := queue q ++ [invoiceId]; running := running q; maxConcurrency := maxConcurrency q |}.

Definition enqueue (invoiceId : Z) (q : VerificationQueue) : VerificationQueue * option Z :=
  process (push invoiceId q).

(** The [finally] of [process], and whether it schedules a [setImmediate]. *)
Definition finish (q : VerificationQueue) : VerificationQueue * bool :=
  ({| queue := queue q; running := running q - 1; maxConcurrency := maxConcurrency q |},
   0 <? lengthZ (queue q)).

(** The queue in the event loop: the handlers in flight, the [setImmediate]
    callbacks not yet run, and the history of what was enqueued and started. *)
Record QueueSystem := {
  vq : VerificationQueue;
  in_flight : list Z;
  immediates : Z;
  enqueued : list Z;
  started : list Z;
}.

Definition new_system : QueueSystem :=
  {| vq := new_queue 3; in_flight := []; immediates := 0; enqueued := []; started := [] |}.

Definition start (o : option Z) (l : list Z) : list Z :=
  match o with Some id => l ++ [id] | None => l end.

Definition sys_enqueue (id : Z) (s : QueueSystem) : QueueSystem :=
  let r := enqueue id (vq s) in
  {| vq := r.1; in_flight := start r.2 (in_flight s); immediates := immediates s;
     enqueued := enqueued s ++ [id]; started := start r.2 (started s) |}.

(** The [i]-th handler in flight settles, by returning or by throwing. *)
Definition sys_finish (i : nat) (s : QueueSystem) : QueueSystem :=
  let r := finish (vq s) in
  {| vq := r.1; in_flight := take i (in_flight s) ++ drop (S i) (in_flight s);
     immediates := immediates s + (if r.2 then 1 else 0);
     enqueued := enqueued s; started := started s |}.

Definition sys_immediate (s : QueueSystem) : QueueSystem :=
  let r := process (vq s) in
  {| vq := r.1; in_flight := start r.2 (in_flight s); immediates := immediates s - 1;
     enqueued := enqueued s; started := start r.2 (started s) |}.

(** The tasks of the event loop other than a new event. *)
Inductive queue_task : QueueSystem → QueueSystem → Prop :=
| task_finish i s : (i < length (in_flight s))%nat → queue_task s (sys_finish i s)
| task_immediate s : 0 < immediates s → queue_task s (sys_immediate s).

Inductive queue_step : QueueSystem → QueueSystem → Prop :=
| step_enqueue id s : queue_step s (sys_enqueue id s)
| step_task s s' : queue_task s s' → queue_step s s'.

(** What holds between tasks: the counter counts the handlers in flight, which
    never exceed the bound; everything enqueued is started, in order, or still
    waiting; and while anything waits, the handlers in flight and the scheduled
    callbacks together fill the bound. *)
Definition queue_inv (s : QueueSystem) : Prop :=
  maxConcurrency (vq s) = 3 ∧ running (vq s) = lengthZ (in_flight s)
  ∧ running (vq s) ≤ 3 ∧ 0 ≤ immediates s
  ∧ started s ++ queue (vq s) = enqueued s
  ∧ (queue (vq s) ≠ [] → 3 ≤ running (vq s) + immediates s).

(** Work left: every task but an enqueue decreases it. *)
Definition work_left (s : QueueSystem) : Z :=
  3 * lengthZ (queue (vq s)) + 2 * lengthZ (in_flight s) + immediates s.

Lemma lengthZ_snoc {A} (l : list A) x : lengthZ (l ++ [x]) = lengthZ l + 1.
Proof. unfold lengthZ. rewrite length_app. simpl length. lia. Qed.
Lemma lengthZ_cons {A} (l : list A) x : lengthZ (x :: l) = lengthZ l + 1.
Proof. unfold lengthZ. rewrite length_cons. lia. Qed.
Lemma lengthZ_remove {A} (l : list A) i :
  (i < length l)%nat → lengthZ (take i l ++ drop (S i) l) = lengthZ l - 1.
Proof. unfold lengthZ. intros. rewrite length_app, length_take, length_drop. lia. Qed.

Lemma queue_inv_init : queue_inv new_system.
Proof. by repeat split. Qed.

Lemma queue_inv_finish i s :
  (i < length (in_flight s))%nat → queue_inv s → queue_inv (sys_finish i s).
Proof.
  intros Hi (Hm&Hr&Hle&Hi0&Hh&Hw). unfold queue_inv, sys_finish. cbn.
  rewrite lengthZ_remove by done. pose proof (Nat2Z.is_nonneg (length (in_flight s))) as Hn.
  split_and!; try done; try lia.
  - destruct (0 <? _); lia.
  - intros Hq. specialize (Hw Hq). destruct (queue (vq s)) as [|x l]; [done|].
    rewrite lengthZ_cons. destruct (Z.ltb_spec 0 (lengthZ l + 1)); unfold lengthZ in *; lia.
Qed.

Lemma queue_inv_immediate s : 0 < immediates s → queue_inv s → queue_inv (sys_immediate s).
Proof.
  intros Hi (Hm&Hr&Hle&Hi0&Hh&Hw). unfold queue_inv, sys_immediate, process. rewrite Hm.
  destruct (Z.leb_spec 3 (running (vq s))); cbn; [split_and!; try done; lia|].
  destruct (queue (vq s)) as [|x l] eqn:Eq; cbn; rewrite ?lengthZ_snoc.
  - rewrite Eq. split_and!; try done; lia.
  - split_and!; try done; try lia; [by rewrite <-app_assoc|].
    intros _. specialize (Hw ltac:(done)). lia.
Qed.

Lemma queue_inv_enqueue id s : queue_inv s → queue_inv (sys_enqueue id s).
Proof.
  intros (Hm&Hr&Hle&Hi0&Hh&Hw). unfold queue_inv, sys_enqueue, enqueue, process, push. cbn. rewrite Hm.
  destruct (Z.leb_spec 3 (running (vq s))); cbn.
  - split_and!; try done; [by rewrite app_assoc, Hh|]. intros _. lia.
  - destruct (queue (vq s)) as [|x l] eqn:Eq; cbn; rewrite lengthZ_snoc.
    + rewrite app_nil_r in *. split_and!; try done; try lia. by rewrite Hh.
    + split_and!; try done; try lia.
      * rewrite <-Hh, <-!app_assoc. done.
      * intros _. specialize (Hw ltac:(done)). lia.
Qed.

Lemma queue_inv_reachable s : rtc queue_step new_system s → queue_inv s.
Proof.
  intros H. assert (∀ s0, rtc queue_step s0 s → queue_inv s0 → queue_inv s) as Hgen;
    [|by apply (Hgen new_system); [|apply queue_inv_init]].
  clear H. induction 1 as [|s0 s1 s2 Hstep _ IH]; [done|]. intros Hi. apply IH.
  destruct Hstep as [id s0|s0 s1' [i s Hlt|s Hlt]];
    [by apply queue_inv_enqueue|by apply queue_inv_finish|by apply queue_inv_immediate].
Qed.

Lemma work_left_decreases s s' : queue_inv s → queue_task s s' → work_left s' < work_left s.
Proof.
  intros (Hm&Hr&Hle&Hi0&Hh&Hw) [i s0 Hi|s0 Hi]; unfold work_left.
  - cbn. rewrite lengthZ_remove by done. destruct (0 <? _); lia.
  - unfold sys_immediate, process. destruct (maxConcurrency (vq s0) <=? running (vq s0)); cbn; [lia|].
    destruct (queue (vq s0)) as [|x l] eqn:Eq; cbn; [rewrite Eq; lia|].
    rewrite lengthZ_snoc, lengthZ_cons. lia.
Qed.

(** C27. In every interleaving of new events, settling handlers and scheduled
    callbacks, at most 3 verifications run at once, verifications start in the
    order the invoices arrived, none is lost or started twice, and the slots
    are never left idle: while invoices wait, every slot is taken by a running
    handler or by a callback already scheduled to start one. *)
Theorem queue_safety s :
  rtc queue_step new_system s →
  lengthZ (in_flight s) ≤ 3 ∧ started s ++ queue (vq s) = enqueued s
  ∧ (queue (vq s) ≠ [] → 3 ≤ lengthZ (in_flight s) + immediates s).
Proof.
  intros (Hm&Hr&Hle&Hi0&Hh&Hw)%queue_inv_reachable. rewrite Hr in *. by split_and!.
Qed.

(** Once no new events arrive, the queue drains: from a reachable state no
    schedule of the event loop runs for ever, and one that can run no further
    has started every invoice ever enqueued. *)
Theorem queue_drains s :
  rtc queue_step new_system s →
  Acc (flip queue_task) s
  ∧ ∀ s', rtc queue_task s s' → (∀ s'', ¬ queue_task s' s'') →
      started s' = enqueued s ∧ in_flight s' = [].
Proof.
  intros Hreach. pose proof (queue_inv_reachable _ Hreach) as Hinv. split.
  - clear Hreach. remember (Z.to_nat (work_left s)) as n eqn:En.
    assert (Z.to_nat (work_left s) ≤ n)%nat as Hle by lia. clear En. revert s Hinv Hle.
    induction n as [n IH] using lt_wf_ind. intros s Hinv Hle. constructor. intros s' Ht.
    unfold flip in Ht. pose proof (work_left_decreases _ _ Hinv Ht) as Hlt.
    assert (queue_inv s') as Hinv'.
    { destruct Ht; [by apply queue_inv_finish|by apply queue_inv_immediate]. }
    assert (0 ≤ work_left s').
    { destruct Hinv' as (_&_&_&?&_). unfold work_left, lengthZ. lia. }
    apply (IH (Z.to_nat (work_left s'))); [lia|done|lia].
  - intros s' Hsteps Hstuck.
    assert (queue_inv s' ∧ enqueued s' = enqueued s) as [(Hm&Hr&Hle&Hi0&Hh&Hw) He].
    { clear Hstuck Hreach. induction Hsteps as [|s0 s1 s2 Ht _ IH]; [done|].
      assert (queue_inv s1 ∧ enqueued s1 = enqueued s0) as [Hi1 <-]; [|by apply IH].
      destruct Ht; (split; [|done]); [by apply queue_inv_finish|by apply queue_inv_immediate]. }
    assert (in_flight s' = []) as Hf.
    { destruct (in_flight s') as [|x l] eqn:E; [done|]. exfalso.
      eapply Hstuck, (task_finish 0). rewrite E. simpl. lia. }
    assert (immediates s' ≤ 0) as Hni.
    { destruct (Z.leb_spec (immediates s') 0); [done|]. exfalso. by eapply Hstuck, task_immediate. }
    split; [|done]. rewrite <-He, <-Hh. rewrite Hf in Hr.
    destruct (queue (vq s')) eqn:Eq; [by rewrite app_nil_r|].
    specialize (Hw ltac:(done)). unfold lengthZ in Hr. simpl in Hr. lia.
Qed.

(** ** [Verifier] *)

Section verifier.
(** The state: the chain, and whatever else the process holds; [tracker] is
    [this.consensusTracker], absent in legacy mode. *)
Context {St : Type} (client : AsteraClient St).
Context (tracker : St → option ConsensusTracker)
        (set_tracker : option ConsensusTracker → St → St)
        (tracker_set : ∀ t s, tracker (set_tracker t s) = t).
(** [signTx], the oracle's public key, [useConsensus], what happens while
    [autoVerifyDelayMs] passes, and the jitter of the retries. *)
Context (signTx : string → M St string) (oracleKey : string) (useConsensus : bool)
        (autoVerifyDelay : St → St) (random : Z → Z).

(** [this.consensusTracker?.isPaused()] and [this.consensusTracker?.markPaused()]. *)
Definition tracker_isPaused (s : St) : bool :=
  match tracker s with Some t => isPaused t | None => false end.
Definition tracker_markPaused (s : St) : St :=
  match tracker s with Some t => set_tracker (Some (markPaused t)) s | None => s end.

Definition retry {A} (fn : M St A) : M St A := retryWithBackoff fn DEFAULT_OPTIONS random.

Definition round_is_open (r : option VerificationRound) : bool :=
  match r with
  | Some r => match vr_status r with JStr s => String.eqb s "Open" | _ => false end
  | None => false
  end.

Definition submitVerdict (invoiceId : Z) (approved : bool) (reason : string) (oracleHash : jsval)
    : M St unit :=
  if negb useConsensus then
    _ ← retry (invoice_verify client signTx oracleKey invoiceId approved reason oracleHash);
    mret tt
  else
    st ← get_state;
    if tracker_isPaused st then mret tt
    else
      existingRound ← try_catch (registry_getRound client invoiceId) (λ _, mret None);
      deferred ← (if negb (round_is_open existingRound) then
        try_catch
          (_ ← retry (registry_openRound client signTx oracleKey invoiceId oracleHash);
           mret false)
          (λ openError,
             if isRegistryPausedError openError
             then _ ← modify tracker_markPaused; mret true
             else mret false)
        else mret false);
      if (deferred : bool) then mret tt
      else
        try_catch
          (_ ← retry (registry_vote client signTx oracleKey invoiceId approved oracleHash);
           mret tt)
          (λ voteError,
             if isRegistryPausedError voteError then modify tracker_markPaused
             else throw voteError).

Definition verifyDocument (uri expectedHash : jsval) : M St bool :=
  if negb (truthy uri) then throw (EError "Document URI is empty") else mret true.

(** The body of the [try] of [performVerification]. *)
Definition verification_body (invoiceId : Z) : M St unit :=
  invoice ← retry (invoice_get client invoiceId);
  metadata_uri ← lift_result (get_prop invoice "metadata_uri");
  hash ← lift_result (get_prop invoice "verification_hash");
  let oracleHash := js_or hash (JStr "") in
  rejected ← (if truthy metadata_uri then
    try_catch
      (docVerified ← verifyDocument metadata_uri hash;
       if docVerified : bool then mret false
       else throw (EError "Document verification failed: hash mismatch"))
      (λ docError,
         _ ← submitVerdict invoiceId false (exn_String docError) oracleHash; mret true)
    else mret false);
  if (rejected : bool) then mret tt
  else
    _ ← modify autoVerifyDelay;
    submitVerdict invoiceId true "Auto-verified by Reference Oracle Service" oracleHash.

Definition performVerification (invoiceId : Z) : M St unit :=
  try_catch (verification_body invoiceId) (λ _, mret tt).

(** A verification never throws into the queue, and its effect is exactly
    this: when the invoice cannot be fetched, nothing is submitted; otherwise,
    whatever its document and hash are, the delay passes and the node submits an
    approval (the rejecting branch is never taken). *)
Theorem verification_outcome invoiceId s :
  performVerification invoiceId s
  = (Ok tt,
     match retry (invoice_get client invoiceId) s with
     | (Throw _, s') => s'
     | (Ok invoice, s') =>
         if nullish invoice then s'
         else (submitVerdict invoiceId true "Auto-verified by Reference Oracle Service"
                 (js_or (default JUndef (match get_prop invoice "verification_hash" with
                                         | Ok h => Some h | Throw _ => None end)) (JStr ""))
                 (autoVerifyDelay s')).2
     end).
Proof.
  assert (∀ (m : M St unit) s, try_catch m (λ _, mret tt) s = (Ok tt, (m s).2)) as Hcatch.
  { intros m s0. unfold try_catch. by destruct (m s0) as [[[]|e] s1]. }
  unfold performVerification. rewrite Hcatch. f_equal. unfold verification_body, mbind at 1, M_bind at 1.
  destruct (retry (invoice_get client invoiceId) s) as [[invoice|e] s1]; [|done].
  destruct (nullish invoice) eqn:Hn; [by destruct invoice|].
  assert (∃ u h, get_prop invoice "metadata_uri" = Ok u ∧ get_prop invoice "verification_hash" = Ok h)
    as (u&h&Hu&Hh) by (destruct invoice; try done; by eexists _, _).
  rewrite Hu, Hh. unfold mbind, M_bind, lift_result, verifyDocument. cbn.
  destruct (truthy u); cbn; done.
Qed.

(** The state after a deferred verdict. *)
Lemma markPaused_pauses s t : tracker s = Some t → tracker_isPaused (tracker_markPaused s) = true.
Proof. unfold tracker_isPaused, tracker_markPaused. intros ->. by rewrite tracker_set. Qed.

(** A node that takes the registry as paused submits nothing: the verdict
    leaves the whole state untouched. When a vote is the first to find out,
    with the error the registry reports, the verdict ends quietly and the node
    takes the registry as paused from then on. *)
Theorem paused_registry_defers invoiceId approved reason oracleHash s :
  useConsensus = true →
  (tracker_isPaused s = true →
     submitVerdict invoiceId approved reason oracleHash s = (Ok tt, s))
  ∧ (∀ r s1 voteError s2,
       tracker_isPaused s = false →
       registry_getRound client invoiceId s = (Ok r, s1) → round_is_open r = true →
       retry (registry_vote client signTx oracleKey invoiceId approved oracleHash) s1
         = (Throw voteError, s2) →
       isRegistryPausedError voteError = true → is_Some (tracker s2) →
       ∃ s3, submitVerdict invoiceId approved reason oracleHash s = (Ok tt, s3)
         ∧ tracker_isPaused s3 = true).
Proof.
  intros Hc. split.
  - intros Hp. unfold submitVerdict, mbind, M_bind, get_state. rewrite Hc. cbn [negb]. by rewrite Hp.
  - intros r s1 voteError s2 Hp Hr Ho Hv Hpe [t Ht]. exists (tracker_markPaused s2).
    split; [|by eapply markPaused_pauses].
    unfold submitVerdict, mbind, M_bind, try_catch, get_state, modify. rewrite Hc. cbn [negb].
    rewrite Hp, Hr, Ho. cbn [negb]. unfold mret, M_ret. by rewrite Hv, Hpe.
Qed.

(** *** Nothing is submitted *)

Lemma retry_keeps {A} (I : St → Prop) (Q : A → St → Prop) (fn : M St A) :
  triple I fn Q I → triple I (retry fn) Q I.
Proof.
  intros Hfn s Hs. unfold retry, retryWithBackoff.
  destruct (retry_loop_spec fn DEFAULT_OPTIONS random (Z.to_nat (maxAttempts DEFAULT_OPTIONS)) 1
    (ETypeError "throw null") s ltac:(simpl; lia)) as (k&s1&_&Hfail&Heq&_).
  rewrite Heq. apply Hfn. clear Heq.
  induction Hfail as [|n s s2 s3 e E _ _ IH]; [done|]. apply IH. specialize (Hfn s Hs).
  by rewrite E in Hfn.
Qed.

Lemma submitVerdict_keeps I invoiceId approved reason oracleHash :
  read_only I client → (∀ s, I s → I (tracker_markPaused s)) →
  keeps I (submitVerdict invoiceId approved reason oracleHash).
Proof.
  intros (_&Hround&Hverify&Hopen&_&Hvote) Hpause. unfold submitVerdict.
  assert (∀ A (b : A) (fn : M St string), triple I fn (λ _ _, False) I →
            triple I (_ ← retry fn; mret b) (λ _, I) I) as Hretry.
  { intros A b fn Hfn. apply (triple_bind _ _ (λ _ _, False)); [by apply retry_keeps|].
    by intros u s. }
  destruct useConsensus; cbn [negb]; [|by apply Hretry].
  apply (triple_bind _ _ (λ _, I)); [by apply triple_get|]. intros st.
  destruct (tracker_isPaused st); [apply keeps_ret|].
  apply (triple_bind _ _ (λ _, I)).
  { apply (triple_try_catch _ _ _ _ I); [apply Hround|]. intros e. apply keeps_ret. }
  intros r. apply (triple_bind _ _ (λ _, I)).
  { destruct (negb (round_is_open r)); [|apply keeps_ret].
    apply (triple_try_catch _ _ _ _ I); [by apply Hretry|]. intros e.
    destruct (isRegistryPausedError e); [|apply keeps_ret].
    apply (triple_bind _ _ (λ _, I)); [by apply triple_modify|]. intros u. apply keeps_ret. }
  intros deferred. destruct deferred; [apply keeps_ret|].
  apply (triple_try_catch _ _ _ _ I); [by apply Hretry|]. intros e.
  destruct (isRegistryPausedError e); [by apply triple_modify|apply triple_throw].
Qed.

Lemma performVerification_keeps I invoiceId :
  read_only I client → (∀ s, I s → I (tracker_markPaused s)) → (∀ s, I s → I (autoVerifyDelay s)) →
  keeps I (performVerification invoiceId).
Proof.
  intros Hro Hpause Hdelay. unfold performVerification.
  apply (triple_try_catch _ _ _ _ I); [|intros e; apply keeps_ret]. unfold verification_body.
  apply (triple_bind _ _ (λ _, I)); [apply retry_keeps, Hro|]. intros invoice.
  apply (triple_bind _ _ (λ _, I)); [apply keeps_lift|]. intros uri.
  apply (triple_bind _ _ (λ _, I)); [apply keeps_lift|]. intros hash.
  apply (triple_bind _ _ (λ _, I)).
  { destruct (truthy uri) eqn:Hu; [|apply keeps_ret]. apply (triple_try_catch _ _ _ _ I).
    - unfold verifyDocument. rewrite Hu. cbn [negb]. apply (triple_bind _ _ (λ _, I)); [apply keeps_ret|].
      intros b. destruct b; [apply keeps_ret|apply triple_throw].
    - intros e. apply (triple_bind _ _ (λ _, I)); [by apply submitVerdict_keeps|].
      intros u. apply keeps_ret. }
  intros rejected. destruct rejected; [apply keeps_ret|].
  apply (triple_bind _ _ (λ _, I)); [by apply triple_modify|]. intros u. by apply submitVerdict_keeps.
Qed.

End verifier.

(** No verification ever reaches the chain: over the SDK's client, in either
    mode, every state property that reading the chain, waiting and recording a
    pause keep (such as "no transaction was sent") survives any verification.
    The SDK's clients sign with the signer of their configuration, which
    [AsteraClient] never sets; the signer a call brings is not used. *)
Theorem verdicts_never_sent {St Account Tx ScVal} (server : Server St Account Tx ScVal)
    build assembleTransaction fromXDR scValToNative config
    tracker set_tracker signTx oracleKey useConsensus delay random invoiceId (I : St → Prop) :
  reads_keep server I → (∀ t s, I s → I (set_tracker t s)) → (∀ s, I s → I (delay s)) →
  ∀ s, I s →
    I (performVerification
         (new_AsteraClient server build assembleTransaction fromXDR scValToNative config)
         tracker set_tracker signTx oracleKey useConsensus delay random invoiceId s).2.
Proof.
  intros Hreads Htracker Hdelay s Hs.
  pose proof (performVerification_keeps
    (new_AsteraClient server build assembleTransaction fromXDR scValToNative config)
    tracker set_tracker signTx oracleKey useConsensus delay random I invoiceId) as H.
  specialize (H (new_AsteraClient_read_only _ _ _ _ _ _ _ Hreads)).
  assert (∀ s, I s → I (tracker_markPaused tracker set_tracker s)) as Hpause.
  { intros s0 Hs0. unfold tracker_markPaused. destruct (tracker s0); auto. }
  specialize (H Hpause Hdelay s Hs).
  destruct (performVerification _ _ _ _ _ _ _ _ _ s) as [[u|e] s']; exact H.
Qed.

(** The pause the registry reports is never recognised: the SDK rewrites its
    error into a message without the code in the form the verifier looks for,
    and one the retry policy takes for transient. *)
Theorem paused_error_unrecognised raw :
  ce_code (parseContractError raw OracleRegistryErrors) = Some 3 →
  let error := as_exn (parseContractError raw OracleRegistryErrors) in
  isRegistryPausedError error = false ∧ isRetriableError error = true.
Proof.
  unfold parseContractError. destruct (match_code raw) as [digits|]; [|done]. cbn -[parse_digits].
  intros ->. by vm_compute.
Qed.
