(* ===== verification/OracleService.v ===== *)
(** * oracle-service/src: staking metrics, the event listener and the entry point

    [StakingMetricsTracker] and the staking commands, [Listener] with the cursor
    file it resumes from, and the startup checks and HTTP endpoints of index.ts. *)
From S2P Require Import Prelude JsValue JsNumber JsMap Sdk Oracle.
From Stdlib Require Import Ascii.
#[local] Open Scope string_scope.
#[local] Open Scope list_scope.
#[local] Open Scope Z_scope.

(** ** staking.ts *)

Record SlashRecord := {
  sl_bps : number;
  sl_slashAmount : string;
  sl_admin : string;
  sl_occurredAt : jsval;
}.

Definition MAX_RECENT_SLASHES : Z := 20.

(** [recentSlashes], newest first. *)
Definition StakingMetricsTracker : Type := list SlashRecord.

Definition staking_handleEvent (me topic2 : string) (value occurredAt : jsval)
    (t : StakingMetricsTracker) : StakingMetricsTracker :=
  if negb (String.eqb topic2 "slashed") then t
  else
    let l := asArray value in
    if negb (String.eqb (js_String (arr_get l 0)) me) then t
    else
      let admin := match value with JArr l => arr_get l 3 | _ => JUndef end in
      takeZ MAX_RECENT_SLASHES
        ({| sl_bps := js_Number (arr_get l 1); sl_slashAmount := js_String (arr_get l 2);
            sl_admin := js_String admin; sl_occurredAt := occurredAt |} :: t).

Record DeregisterCooldown := {
  dc_requestedAt : number; dc_cooldownSecs : number; dc_readyAt : number; dc_remainingSecs : number;
}.

Record StakingMetrics := {
  sm_oracle : string; sm_registered : bool; sm_stakeAmount : string;
  sm_totalVerifications : number; sm_totalSlashes : number;
  sm_deregisterCooldown : option DeregisterCooldown; sm_recentSlashes : list SlashRecord;
}.

(** [Math.max(0, x)], [NaN] when [x] is. *)
Definition max0 (x : number) : number :=
  if isNaN x then NaN else if num_ltb (num_of_Z 0) x then x else num_of_Z 0.

Section staking.
Context {St : Type} (client : AsteraClient St).

(** [now] is [Date.now()] when the cooldown is computed. *)
Definition getStakingMetrics (now : Z) (oraclePublicKey : string) (tracker : StakingMetricsTracker)
    : M St StakingMetrics :=
  info ← registry_getOracleInfo client oraclePublicKey;
  match info with
  | None =>
      mret {| sm_oracle := oraclePublicKey; sm_registered := false; sm_stakeAmount := "0";
              sm_totalVerifications := num_of_Z 0; sm_totalSlashes := num_of_Z 0;
              sm_deregisterCooldown := None; sm_recentSlashes := tracker |}
  | Some info =>
      cooldown ← match oi_deregisterRequestedAt info with
        | None => mret None
        | Some requestedAt =>
            registryConfig ← registry_getRegistryConfig client;
            let cooldownSecs := rc_deregisterCooldownSecs registryConfig in
            let readyAt := num_add requestedAt cooldownSecs in
            let nowSecs := num_of_Z (now / 1000) in
            mret (Some {| dc_requestedAt := requestedAt; dc_cooldownSecs := cooldownSecs;
                          dc_readyAt := readyAt;
                          dc_remainingSecs := max0 (num_sub readyAt nowSecs) |})
        end;
      mret {| sm_oracle := oraclePublicKey; sm_registered := oi_isActive info;
              sm_stakeAmount := pretty (oi_stakeAmount info);
              sm_totalVerifications := oi_totalVerifications info;
              sm_totalSlashes := oi_totalSlashes info;
              sm_deregisterCooldown := cooldown; sm_recentSlashes := tracker |}
  end.

(** What [checkStakeOnStartup] logs. *)
Inductive StakeCheck := NoRegistry | NotActive | Active (info : OracleInfo) | CheckFailed (e : exn).

Definition checkStakeOnStartup (registry : option string) (oraclePublicKey : string)
    : M St StakeCheck :=
  match registry with
  | None => mret NoRegistry
  | Some _ =>
      try_catch
        (info ← registry_getOracleInfo client oraclePublicKey;
         mret (match info with
               | Some i => if oi_isActive i then Active i else NotActive
               | None => NotActive
               end))
        (λ e, mret (CheckFailed e))
  end.

(** [registerIfRequested] returns, or ends the process with a code. *)
Inductive RegisterOutcome := NotRequested | Exit (code : Z) | Registered (txHash : string).

Definition registerIfRequested (argv : list string) (registry : option string)
    (registerStakeAmount : option Z) (signer : string → M St string) (publicKey : string)
    : M St RegisterOutcome :=
  if negb (one_of argv "--register") then mret NotRequested
  else match registry, registerStakeAmount with
       | None, _ => mret (Exit 1)
       | Some _, None => mret (Exit 1)
       | Some _, Some amount =>
           if amount <=? 0 then mret (Exit 1)
           else Registered <$> registry_register client signer publicKey amount
       end.

End staking.

(** ** listener.ts *)

Record Listener := {
  processedCount : Z;
  l_consensusTracker : option ConsensusTracker;
  l_stakingTracker : option StakingMetricsTracker;
  (** the calls of [this.verifier.verifyInvoice] *)
  verifications : list Z;
}.

(** A started process: the trackers exist when a registry is configured. *)
Definition new_listener (registry : option string) : Listener := {|
  processedCount := 0;
  l_consensusTracker := (λ _, new_tracker) <$> registry;
  l_stakingTracker := (λ _, []) <$> registry;
  verifications := [] |}.

Definition loadCursor (file : option string) : string :=
  match file with
  | Some content => let saved := trim content in if String.eqb saved "" then "now" else saved
  | None => "now"
  end.

Section listener.
Context (invoiceContractId : string) (oracleRegistryContractId : option string) (me : string).
(** [decodeScVal]: [scValToNative(xdr.ScVal.fromXDR(…))], [null] when it throws. *)
Context (decodeScVal : jsval → jsval).

Definition count_effect (l : Listener) : Listener := {|
  processedCount := processedCount l + 1; l_consensusTracker := l_consensusTracker l;
  l_stakingTracker := l_stakingTracker l; verifications := verifications l |}.

Definition verifyInvoice_call (id : Z) (l : Listener) : Listener := {|
  processedCount := processedCount l; l_consensusTracker := l_consensusTracker l;
  l_stakingTracker := l_stakingTracker l; verifications := verifications l ++ [id] |}.

(** A topic that is no string matches no event of the trackers. *)
Definition forward (now : Z) (segment2 value created_at : jsval) (l : Listener) : Listener := {|
  processedCount := processedCount l;
  l_consensusTracker := match segment2 with
    | JStr t => tracker_handleEvent me now t value <$> l_consensusTracker l
    | _ => l_consensusTracker l end;
  l_stakingTracker := match segment2 with
    | JStr t => staking_handleEvent me t value created_at <$> l_stakingTracker l
    | _ => l_stakingTracker l end;
  verifications := verifications l |}.

Definition isInvoiceContract (effect : jsval) : bool :=
  is_str (get_prop_opt effect "contract_id") invoiceContractId.
Definition isRegistryContract (effect : jsval) : bool :=
  match oracleRegistryContractId with
  | Some r => negb (String.eqb r "") && is_str (get_prop_opt effect "contract_id") r
  | None => false
  end.

(** The body of the [try], on an effect whose [type] could be read. *)
Definition handle_contract_effect (now : Z) (effect : jsval) : M Listener unit :=
  if truthy (get_prop_opt effect "contract_id")
     && negb (isInvoiceContract effect) && negb (isRegistryContract effect)
  then mret tt
  else
    _ ← modify count_effect;
    match get_prop_opt effect "topic" with
    | JArr topicXdr =>
        if lengthZ topicXdr <? 2 then mret tt
        else
          let segment1 := decodeScVal (arr_get topicXdr 0) in
          let segment2 := decodeScVal (arr_get topicXdr 1) in
          if is_str segment1 "INVOICE" && is_str segment2 "created" then
            match decodeScVal (get_prop_opt effect "value") with
            | JArr value =>
                match js_BigInt (arr_get value 0) with
                | Some invoiceId => modify (verifyInvoice_call invoiceId)
                | None => throw (ESyntaxError "Cannot convert to a BigInt")
                end
            | _ => mret tt
            end
          else if is_str segment1 "ORACLE" then
            let value := decodeScVal (get_prop_opt effect "value") in
            modify (forward now segment2 value (get_prop_opt effect "created_at"))
          else mret tt
    | _ => mret tt
    end.

Definition handleEffect (now : Z) (effect : jsval) : M Listener unit :=
  type ← lift_result (get_prop effect "type");
  if negb (is_str type "contract_event") && negb (is_str type "contract") then mret tt
  else try_catch (handle_contract_effect now effect) (λ _, mret tt).

(** What becomes of a [writeFileSync] of the cursor: done, refused before the
    file is opened, or lost after it was emptied. *)
Inductive CursorWrite := Saved | Refused | Emptied.

Definition saveCursor (w : CursorWrite) (pagingToken : string) (file : option string) : option string :=
  match w with Saved => Some pagingToken | Refused => file | Emptied => Some "" end.

(** [onmessage], over the listener and the cursor file. *)
Definition onmessage (w : CursorWrite) (now : Z) (effect : jsval) (s : Listener * option string)
    : Listener * option string :=
  match handleEffect now effect s.1 with
  | (Throw _, l) => (l, s.2)
  | (Ok _, l) =>
      let token := get_prop_opt effect "paging_token" in
      (l, if truthy token then saveCursor w (js_String token) s.2 else s.2)
  end.

(** *** What the effects mean *)

(** An effect of a contract the listener follows. *)
Definition followed (effect : jsval) : bool :=
  (is_str (get_prop_opt effect "type") "contract_event" || is_str (get_prop_opt effect "type") "contract")
  && (negb (truthy (get_prop_opt effect "contract_id"))
      || isInvoiceContract effect || isRegistryContract effect).

Definition topics (effect : jsval) : option (jsval * jsval) :=
  match get_prop_opt effect "topic" with
  | JArr (t1 :: t2 :: _) => Some (decodeScVal t1, decodeScVal t2)
  | _ => None
  end.

(** The invoice an effect announces, with the topics the listener looks for;
    the contract's own events have [invoice] for the first. *)
Definition announced_invoice (effect : jsval) : option Z :=
  if followed effect then
    match topics effect with
    | Some (t1, t2) =>
        if is_str t1 "INVOICE" && is_str t2 "created" then
          match decodeScVal (get_prop_opt effect "value") with
          | JArr value => js_BigInt (arr_get value 0)
          | _ => None
          end
        else None
    | None => None
    end
  else None.

Lemma handle_contract_effect_verifies now effect l :
  followed effect = true →
  verifications (handle_contract_effect now effect l).2
  = verifications l ++ option_list (announced_invoice effect).
Proof.
  intros Hf. unfold announced_invoice. rewrite Hf. unfold followed in Hf.
  apply andb_prop in Hf as [_ Hf]. unfold handle_contract_effect.
  assert (truthy (get_prop_opt effect "contract_id") && negb (isInvoiceContract effect)
          && negb (isRegistryContract effect) = false) as ->.
  { by destruct (truthy _), (isInvoiceContract effect), (isRegistryContract effect). }
  unfold mbind, M_bind, modify, topics.
  destruct (get_prop_opt effect "topic") as [| | | | | |[|t1 [|t2 ts]]|];
    try by rewrite app_nil_r.
  assert (lengthZ (t1 :: t2 :: ts) <? 2 = false) as -> by (apply Z.ltb_ge; unfold lengthZ; simpl; lia).
  change (arr_get (t1 :: t2 :: ts) 0) with t1. change (arr_get (t1 :: t2 :: ts) 1) with t2.
  destruct (is_str (decodeScVal t1) "INVOICE" && is_str (decodeScVal t2) "created").
  - destruct (decodeScVal (get_prop_opt effect "value")); try (by rewrite app_nil_r).
    destruct (js_BigInt (arr_get l0 0)); [done|by rewrite app_nil_r].
  - destruct (is_str (decodeScVal t1) "ORACLE"); by rewrite app_nil_r.
Qed.

Lemma handleEffect_verifies now o l :
  ∃ l', handleEffect now (JObj o) l = (Ok tt, l')
    ∧ verifications l' = verifications l ++ option_list (announced_invoice (JObj o)).
Proof.
  set (effect := JObj o). unfold handleEffect.
  change (get_prop effect "type") with (Ok (get_prop_opt effect "type")).
  unfold mbind, M_bind, lift_result.
  destruct (negb (is_str (get_prop_opt effect "type") "contract_event")
            && negb (is_str (get_prop_opt effect "type") "contract")) eqn:Hty.
  { exists l. split; [done|]. rewrite <-negb_orb in Hty. apply negb_true_iff in Hty.
    unfold announced_invoice, followed. rewrite Hty. by rewrite app_nil_r. }
  rewrite <-negb_orb in Hty. apply negb_false_iff in Hty.
  exists (handle_contract_effect now effect l).2. split.
  { unfold try_catch. by destruct (handle_contract_effect now effect l) as [[[]|e] l']. }
  destruct (followed effect) eqn:Hf; [by apply handle_contract_effect_verifies|].
  unfold announced_invoice. rewrite Hf, app_nil_r. unfold followed in Hf. rewrite Hty in Hf. cbn [andb] in Hf.
  unfold handle_contract_effect. apply orb_false_iff in Hf as [[Hf1 Hf2]%orb_false_iff Hf3].
  apply negb_false_iff in Hf1. by rewrite Hf1, Hf2, Hf3.
Qed.

(** *** Restarts

    [log] holds the effects Horizon publishes, and [stream token] those it
    delivers to a stream opened at a cursor: the ones after the effect with that
    paging token. *)
Context (log : list jsval) (stream : string → list jsval).

Definition horizon_stream : Prop :=
  ∀ pre e post token, log = pre ++ e :: post →
    get_prop_opt e "paging_token" = JStr token → stream token = post.

(** Every effect is an object with a paging token the cursor file can hold. *)
Definition published (e : jsval) : Prop :=
  ∃ o token, e = JObj o ∧ get_prop_opt e "paging_token" = JStr token ∧ trim token = token
    ∧ token ≠ "".

(** One life of the process: it handles as many effects of its stream as it
    makes [writes] of the cursor, and when [crash] one more whose cursor it does
    not get to save. *)
Definition life (now : Z) (writes : list CursorWrite) (crash : bool) (file : option string)
    : list Z * option string :=
  let effects := stream (loadCursor file) in
  let s := foldl (λ s '(e, w), onmessage w now e s) (new_listener oracleRegistryContractId, file)
             (zip effects writes) in
  let s := if crash then match effects !! length writes with
                         | Some e => ((handleEffect now e s.1).2, s.2)
                         | None => s
                         end else s in
  (verifications s.1, s.2).

Record Life := { life_now : Z; life_writes : list CursorWrite; life_crash : bool }.

(** The verifications of all lives, and the file in the end. *)
Fixpoint lives (l : list Life) (file : option string) : list Z * option string :=
  match l with
  | [] => ([], file)
  | x :: l' =>
      let '(v, file') := life (life_now x) (life_writes x) (life_crash x) file in
      let '(v', file'') := lives l' file' in
      (v ++ v', file'')
  end.

(** The file after effects: the token of one of them, or what it was. *)
Definition cursor_after (file : option string) (es : list jsval) : option string :=
  match last es with Some e => Some (js_String (get_prop_opt e "paging_token")) | None => file end.

Lemma onmessage_run now es writes l file :
  Forall published es → Forall (λ w, w ≠ Emptied) writes →
  let s := foldl (λ s '(e, w), onmessage w now e s) (l, file) (zip es writes) in
  verifications s.1 = verifications l ++ omap announced_invoice (take (length writes) es)
  ∧ ∃ j, (j ≤ length writes)%nat ∧ s.2 = cursor_after file (take j es).
Proof.
  intros Hes Hws. revert writes Hws l file. induction Hes as [|e es He Hes IH]; intros writes Hws l file.
  { rewrite take_nil. cbn. rewrite app_nil_r. split; [done|]. exists 0%nat. split; [lia|done]. }
  destruct Hws as [|w writes Hw Hws].
  { cbn. rewrite app_nil_r. split; [done|]. by exists 0%nat. }
  destruct He as (o&token&->&Ht&_&Hne).
  destruct (handleEffect_verifies now o l) as (l'&Hl'&Hv).
  assert (onmessage w now (JObj o) (l, file) = (l', saveCursor w token file)) as Hm.
  { unfold onmessage. cbn [fst snd]. rewrite Hl', Ht. cbn [truthy].
    apply String.eqb_neq in Hne. by rewrite Hne. }
  cbn [zip_with foldl]. rewrite Hm.
  destruct (IH writes Hws l' (saveCursor w token file)) as (IHv&j&Hj&IHf). split.
  - rewrite IHv, Hv, <-app_assoc. f_equal. cbn [length take].
    change (omap announced_invoice (JObj o :: take (length writes) es)) with
      (match announced_invoice (JObj o) with Some y => y :: omap announced_invoice (take (length writes) es)
       | None => omap announced_invoice (take (length writes) es) end).
    by destruct (announced_invoice (JObj o)).
  - rewrite IHf. unfold cursor_after. destruct (take j es) as [|e' es'] eqn:Ej.
    + destruct w; [exists 1%nat|exists 0%nat|done]; (split; [simpl; lia|]); [|done].
      change (Some token = Some (js_String (get_prop_opt (JObj o) "paging_token"))). by rewrite Ht.
    + exists (S j). split; [simpl; lia|]. cbn [take]. rewrite Ej, last_cons_cons.
      destruct (last (e' :: es')) eqn:El; [done|]. by apply last_None in El.
Qed.

(** One life: the effects up to the cursor it leaves were handled. *)
Lemma life_handled x e0 post token0 v file' :
  Forall published post → Forall (λ w, w ≠ Emptied) (life_writes x) →
  stream (loadCursor (Some token0)) = post → get_prop_opt e0 "paging_token" = JStr token0 →
  life (life_now x) (life_writes x) (life_crash x) (Some token0) = (v, file') →
  ∃ j, omap announced_invoice (take j post) `sublist_of` v
    ∧ file' = Some (js_String (get_prop_opt (default e0 (last (take j post))) "paging_token")).
Proof.
  intros Hpost Hws Hs Et0 El. unfold life in El. rewrite Hs in El.
  destruct (onmessage_run (life_now x) post (life_writes x) (new_listener oracleRegistryContractId)
    (Some token0) Hpost Hws) as (Hrv&j&Hj&Hrf).
  set (s := foldl _ _ _) in *. exists j.
  assert (file' = s.2 ∧ verifications s.1 `sublist_of` v) as [-> Hv].
  { destruct (life_crash x); [|by injection El as <- <-].
    destruct (post !! length (life_writes x)) as [e|] eqn:Ek; [|by injection El as <- <-].
    injection El as <- <-. split; [done|]. apply list_elem_of_lookup_2 in Ek.
    rewrite Forall_forall in Hpost. destruct (Hpost _ Ek) as (o&_&->&_).
    destruct (handleEffect_verifies (life_now x) o s.1) as (l'&->&Hl'). cbn [snd]. rewrite Hl'.
    by apply sublist_inserts_r. }
  split.
  - etrans; [|exact Hv]. rewrite Hrv. apply sublist_inserts_l.
    replace (take j post) with (take j (take (length (life_writes x)) post))
      by (rewrite take_take; f_equal; lia).
    rewrite <-(take_drop j (take (length (life_writes x)) post)) at 2.
    rewrite omap_app. by apply sublist_inserts_r.
  - rewrite Hrf. unfold cursor_after. destruct (last (take j post)); [done|]. simpl. by rewrite Et0.
Qed.

(** C35. Started at a saved cursor, and restarted any number of times, with
    crashes between handling an effect and saving its cursor and with writes of
    the cursor that are refused, the listener skips no effect: the file always
    holds the token of the last effect of a stretch that starts right after the
    saved cursor, and every invoice announced in that stretch with the topics
    the listener looks for was handed to the verifier, in order. (Those are
    [INVOICE] and [created]; the contract publishes [invoice], so its own
    events are handled but announce none. A write that empties the file is
    excluded: the next start is then from [now].) *)
Theorem listener_skips_nothing (lifes : list Life) pre e0 post token0 :
  horizon_stream → Forall published log →
  Forall (λ x, Forall (λ w, w ≠ Emptied) (life_writes x)) lifes →
  log = pre ++ e0 :: post → get_prop_opt e0 "paging_token" = JStr token0 →
  ∃ handled rest, post = handled ++ rest
    ∧ omap announced_invoice handled `sublist_of` (lives lifes (Some token0)).1
    ∧ (lives lifes (Some token0)).2
      = Some (js_String (get_prop_opt (default e0 (last handled)) "paging_token")).
Proof.
  intros Hstream Hlog Hws. revert pre e0 post token0.
  induction Hws as [|x lifes Hx Hws IH]; intros pre e0 post token0 Epost Et0.
  { exists [], post. simpl. rewrite Et0. by repeat split. }
  cbn [lives]. destruct (life _ _ _ (Some token0)) as [v file'] eqn:El.
  assert (e0 ∈ log) as He0 by (rewrite Epost; apply elem_of_app; right; left).
  assert (stream (loadCursor (Some token0)) = post) as Hs.
  { assert (published e0) as (o&t'&_&Et'&Htrim&Hne) by (rewrite Forall_forall in Hlog; auto).
    rewrite Et0 in Et'. injection Et' as <-. unfold loadCursor. rewrite Htrim.
    apply String.eqb_neq in Hne. rewrite Hne. by eapply Hstream. }
  assert (Forall published post) as Hpost.
  { rewrite Epost in Hlog. apply Forall_app in Hlog as [_ Hlog']. by inversion Hlog'. }
  destruct (life_handled x e0 post token0 v file' Hpost Hx Hs Et0 El) as (k&Hv&Hfile).
  (* the next lives start at the last effect saved *)
  assert (∃ pre' e1 t1, log = pre' ++ e1 :: drop k post ∧ get_prop_opt e1 "paging_token" = JStr t1
          ∧ file' = Some t1 ∧ e1 = default e0 (last (take k post))) as (pre'&e1&t1&Elog&Et1&->&Ee1).
  { destruct (last (take k post)) as [e|] eqn:Elast.
    - apply last_Some in Elast as [init Einit].
      assert (log = (pre ++ e0 :: init) ++ e :: drop k post) as Elog.
      { rewrite Epost, <-app_assoc. simpl. do 2 f_equal. rewrite <-(take_drop k post) at 1.
        rewrite Einit, <-app_assoc. done. }
      assert (e ∈ log) as He by (rewrite Elog; apply elem_of_app; right; left).
      rewrite Forall_forall in Hlog. destruct (Hlog _ He) as (o&t&_&Et&_).
      exists (pre ++ e0 :: init), e, t. rewrite Hfile. simpl. by rewrite Et.
    - apply last_None in Elast. exists pre, e0, token0. rewrite Hfile. simpl. rewrite Et0.
      split_and!; try done. rewrite Epost. do 2 f_equal.
      by rewrite <-(take_drop k post) at 1; rewrite Elast. }
  destruct (IH _ _ _ _ Elog Et1) as (handled&rest&Ed&Hsub&Hend).
  destruct (lives lifes (Some t1)) as [v' file'']. cbn [fst snd] in *.
  exists (take k post ++ handled), rest. split_and!.
  - by rewrite <-app_assoc, <-Ed, take_drop.
  - rewrite omap_app. by apply sublist_app.
  - rewrite Hend. subst e1. do 3 f_equal. rewrite last_app.
    by destruct (last handled).
Qed.

(** The contract's own events, whose first topic is [invoice], hand nothing to
    the verifier. *)
Lemma contract_events_unverified now o t2 l :
  topics (JObj o) = Some (JStr "invoice", t2) →
  ∃ l', handleEffect now (JObj o) l = (Ok tt, l') ∧ verifications l' = verifications l.
Proof.
  intros Ht. destruct (handleEffect_verifies now o l) as (l'&Hl'&Hv). exists l'. split; [done|].
  rewrite Hv. unfold announced_invoice. rewrite Ht. cbn. destruct (followed _); by rewrite app_nil_r.
Qed.

(** After a write that emptied the file, the next start is from [now]. *)
Lemma emptied_cursor_restarts_now token file :
  loadCursor (saveCursor Emptied token file) = "now".
Proof. reflexivity. Qed.

End listener.

(** ** index.ts *)

Record OracleConfig := {
  rpcUrl : string;
  horizonUrl : string;
  networkPassphrase : string;
  oracleSecretKey : string;
  cfg_invoiceContractId : string;
  autoVerifyDelayMs : option Z;
  cfg_oracleRegistryContractId : option string;
  stakeTokenId : option string;
  registerStakeAmount : option Z;
  listenerCursorPath : string;
}.

(** [process.env.K || undefined]. *)
Definition env_opt (env : string → option string) (k : string) : option string :=
  match env k with
  | Some s => if String.eqb s "" then None else Some s
  | None => None
  end.

(** The configuration of the process; [BigInt(REGISTER_STAKE_AMOUNT)] throws while
    the module loads when it is no integer. [parseInt] is [None] for [NaN]. *)
Definition load_config (env : string → option string) : result OracleConfig :=
  amount ← match env_opt env "REGISTER_STAKE_AMOUNT" with
    | None => Ok None
    | Some s => match bigint_of_string s with
                | Some n => Ok (Some n)
                | None => Throw (ESyntaxError ("Cannot convert " +:+ s +:+ " to a BigInt"))
                end
    end;
  Ok {| rpcUrl := env_or env "RPC_URL" "https://soroban-testnet.stellar.org";
        horizonUrl := env_or env "HORIZON_URL" "https://horizon-testnet.stellar.org";
        networkPassphrase := env_or env "NETWORK_PASSPHRASE" "Test SDF Network ; September 2015";
        oracleSecretKey := env_or env "ORACLE_SECRET_KEY" "";
        cfg_invoiceContractId := env_or env "INVOICE_CONTRACT_ID" "";
        autoVerifyDelayMs := parseInt (env_or env "AUTO_VERIFY_DELAY_MS" "30000");
        cfg_oracleRegistryContractId := env_opt env "ORACLE_REGISTRY_CONTRACT_ID";
        stakeTokenId := env_opt env "STAKE_TOKEN_ID";
        registerStakeAmount := amount;
        listenerCursorPath := env_or env "LISTENER_CURSOR_PATH" ".oracle-listener-cursor" |}.

(** How [main] starts: it ends the process, runs the registration, or runs the
    service as a voter of the registry or as the single oracle. *)
Inductive Startup := StartExit (code : Z) | StartRegister | StartConsensus (registry : string) | StartLegacy.

Definition main_startup (config : OracleConfig) (argv : list string) : Startup :=
  if String.eqb (oracleSecretKey config) "" then StartExit 1
  else if negb (valid_secret_key (oracleSecretKey config)) then StartExit 1
  else if String.eqb (cfg_invoiceContractId config) "" then StartExit 1
  else if one_of argv "--register" then StartRegister
  else match cfg_oracleRegistryContractId config with
       | Some r => StartConsensus r
       | None => StartLegacy
       end.

Inductive OracleResponse :=
| HealthOk (processed : Z) (mode : string) (rounds : option (list TrackedRound))
| MetricsOk (m : StakingMetrics)
| MetricsError (e : exn)
| NotFound (reason : option string).

(** The status code of a response. *)
Definition response_status (r : OracleResponse) : Z :=
  match r with HealthOk _ _ _ => 200 | MetricsOk _ => 200 | MetricsError _ => 502 | NotFound _ => 404 end.

(** The request handler; [client] is the registry client, absent in legacy mode. *)
Definition serve {St} (config : OracleConfig) (client : option (AsteraClient St)) (now : Z)
    (publicKey : string) (l : Listener) (url : string) : M St OracleResponse :=
  if String.eqb url "/health" then
    mret (HealthOk (processedCount l)
            (match cfg_oracleRegistryContractId config with Some _ => "consensus" | None => "legacy" end)
            (list_rounds <$> l_consensusTracker l))
  else if String.eqb url "/metrics" then
    match client, l_stakingTracker l with
    | Some client, Some stakingTracker =>
        try_catch
          (MetricsOk <$> getStakingMetrics client now publicKey stakingTracker)
          (λ e, mret (MetricsError e))
    | _, _ => mret (NotFound (Some "ORACLE_REGISTRY_CONTRACT_ID not set"))
    end
  else mret (NotFound None).

(** The request handler always answers: an error of the chain is a 502. *)
Lemma serve_total {St} config (client : option (AsteraClient St)) now publicKey l url s :
  ∃ r s', serve config client now publicKey l url s = (Ok r, s').
Proof.
  unfold serve. destruct (String.eqb url "/health"); [by eexists _, _|].
  destruct (String.eqb url "/metrics"); [|by eexists _, _].
  destruct client as [c|], (l_stakingTracker l) as [t|]; try by eexists _, _.
  unfold try_catch. destruct ((MetricsOk <$> getStakingMetrics c now publicKey t) s) as [[m|e] s'];
    by eexists _, _.
Qed.

(** The node's own slashes of an event history, newest first. *)
Definition own_slash (me : string) (e : string * jsval * jsval) : option SlashRecord :=
  let '(topic2, value, occurredAt) := e in
  if String.eqb topic2 "slashed" && String.eqb (js_String (arr_get (asArray value) 0)) me
  then Some {| sl_bps := js_Number (arr_get (asArray value) 1);
               sl_slashAmount := js_String (arr_get (asArray value) 2);
               sl_admin := js_String (match value with JArr l => arr_get l 3 | _ => JUndef end);
               sl_occurredAt := occurredAt |}
  else None.

Definition own_slashes (me : string) (events : list (string * jsval * jsval)) : list SlashRecord :=
  omap (own_slash me) (reverse events).

Lemma own_slashes_snoc me events e :
  own_slashes me (events ++ [e])
  = match own_slash me e with Some r => r :: own_slashes me events | None => own_slashes me events end.
Proof. unfold own_slashes. by rewrite reverse_app. Qed.

Lemma takeZ_cons_takeZ {A} (x : A) n l : 0 < n → takeZ n (x :: takeZ n l) = takeZ n (x :: l).
Proof.
  intros Hn. rewrite !takeZ_take. destruct (Z.to_nat n) as [|m] eqn:E; [lia|]. simpl. f_equal.
  rewrite take_take. f_equal. lia.
Qed.

(** The tracker holds the 20 newest slashes of this node. *)
Lemma recent_slashes me events :
  foldl (λ t '(topic2, value, occurredAt), staking_handleEvent me topic2 value occurredAt t) [] events
  = takeZ MAX_RECENT_SLASHES (own_slashes me events).
Proof.
  induction events as [|[[topic2 value] occurredAt] events IH] using rev_ind; [done|].
  rewrite foldl_app, IH, own_slashes_snoc. cbn [foldl]. unfold staking_handleEvent, own_slash.
  destruct (String.eqb topic2 "slashed"); cbn [negb andb]; [|done].
  destruct (String.eqb (js_String (arr_get (asArray value) 0)) me); cbn [negb]; [|done].
  by rewrite takeZ_cons_takeZ.
Qed.
