(* ===== verification/Screening.v ===== *)
(** * compliance-service/src: validation.ts and screener.ts

    The checks of the operator's overrides, the bundled [MockScreener], and
    [ScreenerProvider], the interface it shares with an upstream provider. *)
From S2P Require Import Prelude JsValue.
From Stdlib Require Import Ascii List.
#[local] Open Scope string_scope.
#[local] Open Scope list_scope.
#[local] Open Scope Z_scope.

(** ** validation.ts *)

Definition SCREEN_DECISIONS : list string :=
  ["Unscreened"; "Cleared"; "Flagged"; "Blocked"; "PendingReview"].
Definition RISK_TIERS : list string := ["Low"; "Medium"; "High"].
Definition U32_MAX : Z := 4294967295.

Definition isScreenDecision (value : jsval) : bool :=
  match value with JStr s => one_of SCREEN_DECISIONS s | _ => false end.
Definition isRiskTier (value : jsval) : bool :=
  match value with JStr s => one_of RISK_TIERS s | _ => false end.

Definition is_undefined (v : jsval) : bool := match v with JUndef => true | _ => false end.

(** The message for the first field that is present and not valid. *)
Definition validateScreenOverride (body : list (string * jsval)) : option string :=
  let status := obj_get body "status" in
  let riskTier := obj_get body "riskTier" in
  let reasonCode := obj_get body "reasonCode" in
  let notesHash := obj_get body "notesHash" in
  if negb (is_undefined status) && negb (isScreenDecision status) then
    Some ("invalid status: must be one of " +:+ String.concat ", " SCREEN_DECISIONS)
  else if negb (is_undefined riskTier) && negb (isRiskTier riskTier) then
    Some ("invalid riskTier: must be one of " +:+ String.concat ", " RISK_TIERS)
  else if negb (is_undefined reasonCode)
          && negb (match reasonCode with JNum n => (0 <=? n) && (n <=? U32_MAX) | _ => false end) then
    Some "invalid reasonCode: must be an integer between 0 and 4294967295"
  else if negb (is_undefined notesHash)
          && negb (match notesHash with JStr _ => true | _ => false end) then
    Some "invalid notesHash: must be a string"
  else None.

(** What the contract's enums and widths allow of the four fields. *)
Definition override_ok (body : list (string * jsval)) : Prop :=
  (obj_get body "status" = JUndef ∨ ∃ s, obj_get body "status" = JStr s ∧ s ∈ SCREEN_DECISIONS)
  ∧ (obj_get body "riskTier" = JUndef ∨ ∃ s, obj_get body "riskTier" = JStr s ∧ s ∈ RISK_TIERS)
  ∧ (obj_get body "reasonCode" = JUndef
     ∨ ∃ n, obj_get body "reasonCode" = JNum n ∧ 0 ≤ n ≤ U32_MAX)
  ∧ (obj_get body "notesHash" = JUndef ∨ ∃ s, obj_get body "notesHash" = JStr s).

Lemma enum_field_ok (l : list string) (v : jsval) :
  negb (is_undefined v) && negb (match v with JStr s => one_of l s | _ => false end) = false
  ↔ v = JUndef ∨ ∃ s, v = JStr s ∧ s ∈ l.
Proof.
  setoid_rewrite <-one_of_In. destruct v; cbn.
  1: split; [by left|done].
  all: try (split; [done|intros [?|(s'&?&?)]; done]).
  rewrite negb_false_iff. split; [intros; right; by eexists|].
  intros [?|(s'&[= ->]&?)]; done.
Qed.

Lemma reason_field_ok (v : jsval) :
  negb (is_undefined v)
    && negb (match v with JNum n => (0 <=? n) && (n <=? U32_MAX) | _ => false end) = false
  ↔ v = JUndef ∨ ∃ n, v = JNum n ∧ 0 ≤ n ≤ U32_MAX.
Proof.
  destruct v; cbn.
  1: split; [by left|done].
  all: try (split; [done|intros [?|(n'&?&?)]; done]).
  rewrite negb_false_iff, andb_true_iff, !Z.leb_le.
  split; [intros; right; by eexists|]. intros [?|(n'&[= ->]&?)]; done.
Qed.

Lemma string_field_ok (v : jsval) :
  negb (is_undefined v) && negb (match v with JStr _ => true | _ => false end) = false
  ↔ v = JUndef ∨ ∃ s, v = JStr s.
Proof.
  destruct v; cbn; [split; [by left|done]|..];
    (split; [try done|intros [?|(s'&?)]; done]).
  intros _. right. by eexists.
Qed.

(** The validation accepts exactly the bodies the contract can take. *)
Lemma validate_None body : validateScreenOverride body = None ↔ override_ok body.
Proof.
  unfold validateScreenOverride, override_ok.
  rewrite <-(enum_field_ok SCREEN_DECISIONS), <-(enum_field_ok RISK_TIERS), <-reason_field_ok,
    <-string_field_ok. unfold isScreenDecision, isRiskTier.
  repeat match goal with |- context [if ?b then _ else _] => destruct b eqn:?Hb end;
    intuition congruence.
Qed.

(** ** screener.ts *)

Record ScreenResult := {
  sc_address : string;
  sc_status : string;
  sc_reasonCode : Z;
  sc_riskTier : string;
  sc_matchedList : option string;
  sc_notes : string;
}.

Record ScreenContext := {
  cx_name : option string;
  cx_jurisdiction : option string;
  cx_recentVolume : option Z;
  cx_debtorConcentrationBps : option Z;
}.

Definition SANCTIONS_FIXTURE : list (string * string) :=
  [("SANCTIONED_ENTITY_ALPHA", "Demo SDN entry A");
   ("SANCTIONED_ENTITY_BETA", "Demo SDN entry B");
   ("GBLOCKEDXXXXXXXXXXXXXXXXXXXXXXXXXXXXXXXXXXXXXXXXXXXXXXX", "Demo blocked G-address prefix")].

Definition REASON_CLEAR := 0.
Definition REASON_SANCTIONS_HIT := 9001.
Definition REASON_HIGH_RISK_JURISDICTION := 2001.
Definition REASON_HIGH_VOLUME := 2002.
Definition REASON_DEBTOR_CONCENTRATION := 2003.
Definition HIGH_RISK_JURISDICTIONS : list string := ["XX"; "ZZ"; "UNKNOWN"].

Definition blocked_set : list string := map (λ e, toUpperCase e.1) SANCTIONS_FIXTURE.

Definition addRuntimeBlock (address : string) (runtimeBlocked : list string) : list string :=
  set_add (toUpperCase address) runtimeBlocked.

(** The first fixture stub the upper-cased address starts like. *)
Definition prefix_entry (upper : string) : option (string * string) :=
  find (λ e, startsWith "G" e.1 && startsWith (str_take 8 e.1) upper) SANCTIONS_FIXTURE.

(** The [let] variables of [screen]. *)
Record Verdict := { v_riskTier : string; v_status : string; v_reasonCode : Z; v_notes : string }.

Definition initial_verdict : Verdict := {|
  v_riskTier := "Low"; v_status := "Cleared"; v_reasonCode := REASON_CLEAR;
  v_notes := "No sanctions hit" |}.

Definition check_jurisdiction (context : ScreenContext) (v : Verdict) : Verdict :=
  match cx_jurisdiction context with
  | Some j =>
      if negb (String.eqb j "") && one_of HIGH_RISK_JURISDICTIONS (toUpperCase j) then {|
        v_riskTier := "High"; v_status := "Flagged"; v_reasonCode := REASON_HIGH_RISK_JURISDICTION;
        v_notes := "High-risk jurisdiction: " +:+ j |}
      else v
  | None => v
  end.

(** [if (status === 'Cleared') { status = 'Flagged'; … }] with a new tier. *)
Definition flag_if_clear (riskTier : string) (reasonCode : Z) (notes : string) (v : Verdict)
    : Verdict :=
  if String.eqb (v_status v) "Cleared"
  then {| v_riskTier := riskTier; v_status := "Flagged"; v_reasonCode := reasonCode; v_notes := notes |}
  else {| v_riskTier := riskTier; v_status := v_status v; v_reasonCode := v_reasonCode v;
          v_notes := v_notes v |}.

Definition check_volume (context : ScreenContext) (v : Verdict) : Verdict :=
  match cx_recentVolume context with
  | Some volume =>
      if 1000000000 <? volume
      then flag_if_clear (if String.eqb (v_riskTier v) "Low" then "Medium" else v_riskTier v)
             REASON_HIGH_VOLUME "Elevated recent transaction volume" v
      else v
  | None => v
  end.

Definition check_concentration (context : ScreenContext) (v : Verdict) : Verdict :=
  match cx_debtorConcentrationBps context with
  | Some bps =>
      if 5000 <? bps
      then flag_if_clear "High" REASON_DEBTOR_CONCENTRATION "High debtor concentration" v
      else v
  | None => v
  end.

(** [MockScreener.screen]. *)
Definition mock_screen (runtimeBlocked : list string) (address : string) (context : ScreenContext)
    : result ScreenResult :=
  if String.eqb address "" || String.eqb (trim address) "" then Throw (EError "address is required")
  else
    let upper := toUpperCase address in
    if one_of runtimeBlocked upper || one_of blocked_set upper then
      Ok {| sc_address := address; sc_status := "Blocked"; sc_reasonCode := REASON_SANCTIONS_HIT;
            sc_riskTier := "High"; sc_matchedList := Some "OFAC-SDN-fixture";
            sc_notes := "Address matched bundled sanctions fixture or runtime block list" |}
    else match prefix_entry upper with
         | Some (id, note) =>
             Ok {| sc_address := address; sc_status := "Blocked";
                   sc_reasonCode := REASON_SANCTIONS_HIT; sc_riskTier := "High";
                   sc_matchedList := Some id; sc_notes := note |}
         | None =>
             let v := check_concentration context (check_volume context
                        (check_jurisdiction context initial_verdict)) in
             Ok {| sc_address := address; sc_status := v_status v; sc_reasonCode := v_reasonCode v;
                   sc_riskTier := v_riskTier v; sc_matchedList := None; sc_notes := v_notes v |}
         end.

(** *** The screening policy *)

Definition sanctioned (runtimeBlocked : list string) (address : string) : Prop :=
  toUpperCase address ∈ runtimeBlocked
  ∨ toUpperCase address ∈ ["SANCTIONED_ENTITY_ALPHA"; "SANCTIONED_ENTITY_BETA"]
  ∨ startsWith "GBLOCKED" (toUpperCase address) = true.

Definition high_risk_jurisdiction (cx : ScreenContext) : Prop :=
  ∃ j, cx_jurisdiction cx = Some j ∧ toUpperCase j ∈ HIGH_RISK_JURISDICTIONS.
Definition high_volume (cx : ScreenContext) : Prop :=
  ∃ v, cx_recentVolume cx = Some v ∧ 1000000000 < v.
Definition high_concentration (cx : ScreenContext) : Prop :=
  ∃ b, cx_debtorConcentrationBps cx = Some b ∧ 5000 < b.

Lemma prefix_entry_spec upper :
  prefix_entry upper
  = if startsWith "GBLOCKED" upper
    then Some ("GBLOCKEDXXXXXXXXXXXXXXXXXXXXXXXXXXXXXXXXXXXXXXXXXXXXXXX", "Demo blocked G-address prefix")
    else None.
Proof.
  unfold prefix_entry, SANCTIONS_FIXTURE. cbn [find fst].
  change (startsWith "G" "SANCTIONED_ENTITY_ALPHA") with false.
  change (startsWith "G" "SANCTIONED_ENTITY_BETA") with false. cbn [andb].
  change (startsWith "G" _) with true. change (str_take 8 _) with "GBLOCKED". cbn [andb].
  by destruct (startsWith "GBLOCKED" upper).
Qed.

Lemma sanctioned_blocked runtimeBlocked address :
  (one_of runtimeBlocked (toUpperCase address) || one_of blocked_set (toUpperCase address) = true
   ∨ is_Some (prefix_entry (toUpperCase address)))
  ↔ sanctioned runtimeBlocked address.
Proof.
  rewrite prefix_entry_spec, orb_true_iff, !one_of_In. unfold sanctioned, blocked_set.
  set (u := toUpperCase address). change (map _ SANCTIONS_FIXTURE) with
    ["SANCTIONED_ENTITY_ALPHA"; "SANCTIONED_ENTITY_BETA";
     "GBLOCKEDXXXXXXXXXXXXXXXXXXXXXXXXXXXXXXXXXXXXXXXXXXXXXXX"].
  rewrite !elem_of_cons, elem_of_nil.
  destruct (startsWith "GBLOCKED" u) eqn:Hp.
  - split; [intros _; by right; right|intros _; right; by eexists].
  - split; [|intros [?|[?|?]]; [tauto|tauto|done]].
    intros [[?|[?|[?|[Hu|?]]]]|[x ?]]; try tauto; try done. rewrite Hu in Hp. done.
Qed.

(** What the heuristics make of an address that is not sanctioned. *)
Lemma heuristics_spec (cx : ScreenContext) :
  let v := check_concentration cx (check_volume cx (check_jurisdiction cx initial_verdict)) in
  let hit := high_risk_jurisdiction cx ∨ high_volume cx ∨ high_concentration cx in
  (v_status v = "Cleared" ∧ ¬ hit ∨ v_status v = "Flagged" ∧ hit) ∧ v_riskTier v ∈ RISK_TIERS
  ∧ 0 ≤ v_reasonCode v ≤ U32_MAX
  ∧ (v_reasonCode v = REASON_CLEAR ↔ ¬ hit)
  ∧ (v_riskTier v = "High" ↔ high_risk_jurisdiction cx ∨ high_concentration cx)
  ∧ (v_riskTier v = "Low" ↔ ¬ hit).
Proof.
  assert (∃ j, (j = true ↔ high_risk_jurisdiction cx)
    ∧ ∀ v, check_jurisdiction cx v
       = if j then {| v_riskTier := "High"; v_status := "Flagged";
                      v_reasonCode := REASON_HIGH_RISK_JURISDICTION;
                      v_notes := "High-risk jurisdiction: " +:+ default "" (cx_jurisdiction cx) |}
         else v) as (j&Hj&Ej).
  { unfold check_jurisdiction, high_risk_jurisdiction. destruct (cx_jurisdiction cx) as [s|].
    - exists (one_of HIGH_RISK_JURISDICTIONS (toUpperCase s)). rewrite one_of_In. split.
      + split; [intros; by eexists|]. by intros (s'&[= ->]&?).
      + intros v. destruct (String.eqb_spec s "") as [->|]; [done|]. cbn.
        by destruct (one_of HIGH_RISK_JURISDICTIONS (toUpperCase s)).
    - exists false. split; [|done]. split; [done|]. by intros (?&?&?). }
  assert (∃ b, (b = true ↔ high_volume cx)
    ∧ ∀ v, check_volume cx v
       = if b then flag_if_clear (if String.eqb (v_riskTier v) "Low" then "Medium" else v_riskTier v)
             REASON_HIGH_VOLUME "Elevated recent transaction volume" v else v) as (b&Hb&Eb).
  { unfold check_volume, high_volume. destruct (cx_recentVolume cx) as [x|].
    - exists (1000000000 <? x). rewrite Z.ltb_lt. split; [|done].
      split; [intros; by eexists|]. by intros (x'&[= ->]&?).
    - exists false. split; [|done]. split; [done|]. by intros (?&?&?). }
  assert (∃ c, (c = true ↔ high_concentration cx)
    ∧ ∀ v, check_concentration cx v
       = if c then flag_if_clear "High" REASON_DEBTOR_CONCENTRATION "High debtor concentration" v
         else v) as (c&Hc&Ec).
  { unfold check_concentration, high_concentration. destruct (cx_debtorConcentrationBps cx) as [x|].
    - exists (5000 <? x). rewrite Z.ltb_lt. split; [|done].
      split; [intros; by eexists|]. by intros (x'&[= ->]&?).
    - exists false. split; [|done]. split; [done|]. by intros (?&?&?). }
  cbv zeta. rewrite Ec, Eb, Ej, <-Hj, <-Hb, <-Hc. 
  unfold REASON_CLEAR, U32_MAX, flag_if_clear, REASON_HIGH_RISK_JURISDICTION, REASON_HIGH_VOLUME,
    REASON_DEBTOR_CONCENTRATION.
  destruct j, b, c; cbn; (split; [intuition|split; [by apply one_of_In|split; [vm_compute; intuition congruence|]]]);
    intuition congruence.
Qed.

(** The bundled screener implements the sanctions policy: it throws exactly
    on a blank address; it blocks exactly the sanctioned ones, at High risk and
    with the sanctions code; and it clears any other exactly when none of the
    jurisdiction, volume and concentration checks fires, and flags it otherwise,
    with a nonzero reason and a tier that is High for a jurisdiction or
    concentration hit and Medium for volume alone. *)
Theorem mock_screen_policy runtimeBlocked address cx :
  match mock_screen runtimeBlocked address cx with
  | Throw _ => trim address = ""
  | Ok r =>
      trim address ≠ "" ∧ sc_address r = address
      ∧ (sanctioned runtimeBlocked address →
           sc_status r = "Blocked" ∧ sc_riskTier r = "High" ∧ sc_reasonCode r = REASON_SANCTIONS_HIT)
      ∧ (¬ sanctioned runtimeBlocked address →
           let hit := high_risk_jurisdiction cx ∨ high_volume cx ∨ high_concentration cx in
           (sc_status r = "Cleared" ∧ ¬ hit ∨ sc_status r = "Flagged" ∧ hit)
           ∧ (sc_reasonCode r = REASON_CLEAR ↔ ¬ hit)
           ∧ (sc_riskTier r = "High" ↔ high_risk_jurisdiction cx ∨ high_concentration cx)
           ∧ (sc_riskTier r = "Low" ↔ ¬ hit))
  end.
Proof.
  unfold mock_screen.
  destruct (String.eqb_spec address "") as [->|Hne]; [done|]. cbn [orb].
  destruct (String.eqb_spec (trim address) "") as [Ht|Ht]; [done|].
  pose proof (sanctioned_blocked runtimeBlocked address) as Hs.
  destruct (one_of runtimeBlocked (toUpperCase address) || one_of blocked_set (toUpperCase address)).
  { cbn. split_and!; try done. intros Hn. exfalso. apply Hn, Hs. by left. }
  destruct (prefix_entry (toUpperCase address)) as [[id note]|].
  { cbn. split_and!; try done. intros Hn. exfalso. apply Hn, Hs. right. by eexists. }
  cbn [sc_status sc_riskTier sc_reasonCode sc_address].
  destruct (heuristics_spec cx) as (Hst&_&_&Hrc&Hhigh&Hlow).
  split_and!; try done. intros [?|[x ?]]%Hs; done.
Qed.
