(* ===== verification/Monitor.v ===== *)
(** * compliance-service/src/monitor.ts

    The monitor's heuristics over the pool operations it sees. Each [await] of
    [recordDeposit] is a point where other tasks run: the operation is modelled
    in its two halves, [recordDeposit_begin] and [recordDeposit_end], which
    [run_tasks] interleaves and [recordDeposit] runs back to back. *)
From S2P Require Import Prelude JsValue JsNumber JsMap.
From Stdlib Require Import Ascii.
#[local] Open Scope string_scope.
#[local] Open Scope list_scope.
#[local] Open Scope Z_scope.

Record MonitorConfig := {
  mc_complianceContractId : string;
  mc_poolContractId : string;
  structuringThreshold : Z;
  structuringWindowMs : Z;
  structuringMaxCount : Z;
}.

Record DepositTick := { tick_at : Z; tick_amount : Z }.

(** [at] is the time the ISO string shows. *)
Record MonitorAlert := {
  al_id : string;
  al_address : string;
  al_reason : string;
  al_at : Z;
  al_pattern : string;
}.

(** [reviews] are the [request_review] calls sent towards the chain, whose outcome
    the monitor only logs. *)
Record Monitor := {
  deposits : list (string * list DepositTick);
  alerts : list MonitorAlert;
  trackedSubjects : list string;
  cursor : string;
  mon_processedCount : Z;
  reviews : list (string * string);
}.

Definition new_monitor : Monitor := {|
  deposits := []; alerts := []; trackedSubjects := []; cursor := "now";
  mon_processedCount := 0; reviews := [] |}.

Definition MAX_ALERTS : Z := 1000.

(** [a.slice(-n)]: the last [n] elements. *)
Definition keep_last {A} (n : Z) (l : list A) : list A := dropZ (lengthZ l - n) l.

Definition listAlerts (m : Monitor) : list MonitorAlert := keep_last 100 (alerts m).

Definition trackSubject (address : string) (m : Monitor) : Monitor := {|
  deposits := deposits m; alerts := alerts m;
  trackedSubjects := set_add address (trackedSubjects m); cursor := cursor m;
  mon_processedCount := mon_processedCount m; reviews := reviews m |}.

Definition set_deposits (address : string) (ticks : list DepositTick) (m : Monitor) : Monitor := {|
  deposits := jm_set address ticks (deposits m); alerts := alerts m;
  trackedSubjects := trackedSubjects m; cursor := cursor m;
  mon_processedCount := mon_processedCount m; reviews := reviews m |}.

Definition ticks_of (address : string) (m : Monitor) : list DepositTick :=
  default [] (jm_get address (deposits m)).

Section monitor.
Context (config : MonitorConfig).

(** [flag] up to the [await] of the chain call, which never throws out of it. *)
Definition flag (now : Z) (address pattern reason : string) (m : Monitor) : Monitor := {|
  deposits := deposits m;
  alerts := keep_last MAX_ALERTS (alerts m ++ [{|
    al_id := pretty now +:+ "-" +:+ str_take 8 address; al_address := address;
    al_reason := reason; al_at := now; al_pattern := pattern |}]);
  trackedSubjects := trackedSubjects m; cursor := cursor m;
  mon_processedCount := mon_processedCount m;
  reviews := if String.eqb (mc_complianceContractId config) "" then reviews m
             else reviews m ++ [(address, str_take 200 reason)] |}.

Definition in_window (now : Z) (t : DepositTick) : bool := now - tick_at t <=? structuringWindowMs config.
Definition near_threshold (t : DepositTick) : bool :=
  (0 <? tick_amount t) && (tick_amount t <? structuringThreshold config).

(** Up to [await this.flag(…)], and whether that call is made. *)
Definition recordDeposit_begin (now : Z) (address : string) (amount : Z) (m : Monitor)
    : Monitor * bool :=
  let ticks := filter (in_window now) (ticks_of address m)
               ++ [{| tick_at := now; tick_amount := amount |}] in
  let m := set_deposits address ticks m in
  let nearThreshold := lengthZ (filter near_threshold ticks) in
  if structuringMaxCount config <=? nearThreshold
  then (flag now address "structuring"
          ("structuring: " +:+ pretty nearThreshold +:+ " sub-threshold deposits in window") m, true)
  else (m, false).

(** After it. *)
Definition recordDeposit_end (address : string) (m : Monitor) : Monitor := set_deposits address [] m.

Definition recordDeposit (now : Z) (address : string) (amount : Z) (m : Monitor) : Monitor :=
  let r := recordDeposit_begin now address amount m in
  if r.2 then recordDeposit_end address r.1 else r.1.

Definition recordWithdraw (now : Z) (address : string) (m : Monitor) : Monitor :=
  let recent := filter (λ t, (now - tick_at t <? 60000) : bool) (ticks_of address m) in
  if 0 <? lengthZ recent
  then flag now address "rapid_cycle" "rapid deposit-then-withdraw within 60s" m
  else m.

(** [String(rec.k ?? '')]. *)
Definition field (rec : list (string * jsval)) (k : string) : string :=
  js_String (js_coalesce (obj_get rec k) (JStr "")).

(** The amount among the parameters of an operation, 0 when there is none. *)
Definition record_amount (rec : list (string * jsval)) : Z :=
  let parameters := obj_get rec "parameters" in
  if truthy parameters then
    let params := match parameters with JArr l => l | v => [v] end in
    if 2 <=? lengthZ params
    then default 0 (bigint_of_string (js_String (js_coalesce (arr_get params 1) (JStr "0"))))
    else 0
  else 0.

Definition handleRecord (now : Z) (rec : list (string * jsval)) (m : Monitor) : Monitor :=
  if negb (String.eqb (field rec "type") "invoke_host_function") then m
  else
    let functionName := toLowerCase (field rec "function") in
    let sourceAccount := field rec "source_account" in
    if String.eqb sourceAccount "" then m
    else
      let contractId := js_String (js_coalesce (js_coalesce (obj_get rec "contract_id")
                                                  (obj_get rec "address")) (JStr "")) in
      if negb (String.eqb contractId "") && negb (String.eqb (mc_poolContractId config) "")
         && String.eqb contractId (mc_poolContractId config)
      then
        let amount := record_amount rec in
        if includes "deposit" functionName && (0 <? amount) then
          recordDeposit now sourceAccount amount m
        else if includes "withdraw" functionName then recordWithdraw now sourceAccount m
        else m
      else if includes "withdraw" functionName && String.eqb contractId "" then
        recordWithdraw now sourceAccount m
      else m.

(** One record of [pollOnce]: the cursor moves before the record is handled. *)
Definition poll_record (now : Z) (m : Monitor) (rec : list (string * jsval)) : Monitor :=
  let m := {| deposits := deposits m; alerts := alerts m; trackedSubjects := trackedSubjects m;
              cursor := js_String (js_coalesce (obj_get rec "paging_token") (JStr (cursor m)));
              mon_processedCount := mon_processedCount m; reviews := reviews m |} in
  let m := handleRecord now rec m in
  {| deposits := deposits m; alerts := alerts m; trackedSubjects := trackedSubjects m;
     cursor := cursor m; mon_processedCount := mon_processedCount m + 1; reviews := reviews m |}.

(** [pollOnce] on the page fetched at [cursor]: [None] when the response is not ok. *)
Definition pollOnce (fetch : string → option (list (list (string * jsval)))) (now : Z) (m : Monitor)
    : Monitor :=
  match fetch (cursor m) with
  | None => m
  | Some records => foldl (poll_record now) m records
  end.

(** ** Tasks *)

(** A task of the event loop: a deposit up to its [await], a withdrawal, or the
    continuation of the oldest pending call for an address. *)
Inductive MonitorTask :=
| TDeposit (now : Z) (address : string) (amount : Z)
| TWithdraw (now : Z) (address : string)
| TSettled (address : string).

Fixpoint remove_first (x : string) (l : list string) : list string :=
  match l with
  | [] => []
  | y :: l' => if String.eqb x y then l' else y :: remove_first x l'
  end.

(** The monitor and the addresses whose chain call has not settled. *)
Definition run_task (s : Monitor * list string) (t : MonitorTask) : Monitor * list string :=
  match t with
  | TDeposit now address amount =>
      let r := recordDeposit_begin now address amount s.1 in
      (r.1, if r.2 then s.2 ++ [address] else s.2)
  | TWithdraw now address => (recordWithdraw now address s.1, s.2)
  | TSettled address =>
      if one_of s.2 address
      then (recordDeposit_end address s.1, remove_first address s.2)
      else s
  end.

Definition run_tasks (ts : list MonitorTask) : Monitor * list string :=
  foldl run_task (new_monitor, []) ts.

(** ** What the structuring heuristic detects *)

Record Deposit := { dep_at : Z; dep_address : string; dep_amount : Z }.

Definition run_deposits (ds : list Deposit) (m : Monitor) : Monitor :=
  foldl (λ m d, recordDeposit (dep_at d) (dep_address d) (dep_amount d) m) m ds.

(** A deposit below the threshold, within the window that ends at [d]. *)
Definition counts_towards (d d' : Deposit) : bool :=
  String.eqb (dep_address d') (dep_address d)
  && (dep_at d - dep_at d' <=? structuringWindowMs config)
  && ((0 <? dep_amount d') && (dep_amount d' <? structuringThreshold config)).

(** [d] completes a pattern, given the deposits [since] the last alert. *)
Definition completes (since : list Deposit) (d : Deposit) : bool :=
  structuringMaxCount config <=? lengthZ (filter (counts_towards d) (since ++ [d])).

(** The deposits that complete a pattern; the deposits of an address stop
    counting once it is alerted. *)
Definition detect (s : list Deposit * list Deposit) (d : Deposit) : list Deposit * list Deposit :=
  let '(since, found) := s in
  if completes since d
  then (filter (λ d', negb (String.eqb (dep_address d') (dep_address d)) : bool) since, found ++ [d])
  else (since ++ [d], found).

Definition patterns (ds : list Deposit) : list Deposit := (foldl detect ([], []) ds).2.

End monitor.

(** ** Lemmas *)

Lemma keep_last_drop {A} n (l : list A) : 0 ≤ n → keep_last n l = drop (length l - Z.to_nat n) l.
Proof. intros Hn. unfold keep_last, lengthZ. rewrite dropZ_drop. f_equal. lia. Qed.

(** [filter] by a boolean test. *)
Lemma filter_bool_cons {A} (p : A → bool) x (l : list A) :
  filter (λ y, p y) (x :: l) = if p x then x :: filter (λ y, p y) l else filter (λ y, p y) l.
Proof. rewrite filter_cons. case_decide as H; [by destruct (p x)|]. by destruct (p x); [destruct H|]. Qed.

Lemma keep_last_length {A} n (l : list A) : 0 ≤ n → lengthZ (keep_last n l) ≤ n.
Proof. intros Hn. rewrite keep_last_drop by done. unfold lengthZ. rewrite length_drop. lia. Qed.

Lemma keep_last_snoc {A} n (l : list A) x :
  0 < n → keep_last n (keep_last n l ++ [x]) = keep_last n (l ++ [x]).
Proof.
  intros Hn. rewrite !keep_last_drop by lia. rewrite !length_app, length_drop. simpl length.
  set (k := (length l - Z.to_nat n)%nat).
  destruct (decide (length l < Z.to_nat n)%nat) as [Hlt|Hge].
  - replace k with 0%nat by (unfold k; lia). rewrite drop_0. do 2 f_equal. unfold k. lia.
  - rewrite (drop_app_le (drop k l)) by (rewrite length_drop; unfold k; lia).
    rewrite drop_drop, drop_app_le by (unfold k; lia). do 2 f_equal. unfold k. lia.
Qed.

Lemma keep_last_map {A B} (f : A → B) n l : f <$> keep_last n l = keep_last n (f <$> l).
Proof.
  unfold keep_last, lengthZ. rewrite !dropZ_drop, fmap_drop. by rewrite length_fmap.
Qed.

Section correct.
Context (config : MonitorConfig) (Hwindow : 0 ≤ structuringWindowMs config).

Definition tick (d : Deposit) : DepositTick := {| tick_at := dep_at d; tick_amount := dep_amount d |}.

(** The ticks that the deposits [since] the last alert leave in the window of [now]. *)
Definition ticks_since (since : list Deposit) (a : string) (now : Z) : list DepositTick :=
  tick <$> filter (λ d, String.eqb (dep_address d) a && (now - dep_at d <=? structuringWindowMs config))
             since.

Lemma ticks_since_app s1 s2 a now :
  ticks_since (s1 ++ s2) a now = ticks_since s1 a now ++ ticks_since s2 a now.
Proof. unfold ticks_since. by rewrite filter_app, fmap_app. Qed.

(** A later window drops what an earlier one drops. *)
Lemma window_again now now' (l : list DepositTick) :
  now ≤ now' → filter (in_window config now') (filter (in_window config now) l)
               = filter (in_window config now') l.
Proof.
  intros Hle. induction l as [|t l IH]; [done|]. rewrite !filter_bool_cons.
  destruct (in_window config now t) eqn:E; [rewrite filter_bool_cons; by rewrite IH|].
  destruct (in_window config now' t) eqn:E'; [|done].
  unfold in_window in *. apply Z.leb_gt in E. apply Z.leb_le in E'. lia.
Qed.

Lemma near_ticks d since :
  length (filter (near_threshold config) (ticks_since since (dep_address d) (dep_at d)))
  = length (filter (counts_towards config d) since).
Proof.
  unfold ticks_since. induction since as [|d' since IH]; [done|]. rewrite !filter_bool_cons.
  unfold counts_towards at 1.
  destruct (String.eqb (dep_address d') (dep_address d) && _) eqn:E; cbn [andb]; [|apply IH].
  rewrite fmap_cons, filter_bool_cons. change (near_threshold config (tick d')) with
    ((0 <? dep_amount d') && (dep_amount d' <? structuringThreshold config)).
  destruct ((0 <? dep_amount d') && _); [|done]. cbn [length]. by rewrite IH.
Qed.

(** What links the monitor to the deposits since the last alerts, at time [T]. *)
Definition tracks_deposits (T : Z) (m : Monitor) (s : list Deposit * list Deposit) : Prop :=
  (∀ a now, T ≤ now → filter (in_window config now) (ticks_of a m) = ticks_since s.1 a now)
  ∧ al_address <$> alerts m = keep_last MAX_ALERTS (dep_address <$> s.2).

Lemma ticks_of_set a b ticks m :
  ticks_of b (set_deposits a ticks m) = if String.eqb a b then ticks else ticks_of b m.
Proof.
  unfold ticks_of, set_deposits. cbn. destruct (String.eqb_spec a b) as [->|Hne].
  - by rewrite jm_get_set_eq.
  - by rewrite jm_get_set_ne.
Qed.

Lemma ticks_since_other d a now :
  a ≠ dep_address d → ticks_since [d] a now = [].
Proof.
  intros Hne. unfold ticks_since. rewrite filter_bool_cons, filter_nil.
  by destruct (String.eqb_spec (dep_address d) a).
Qed.

Lemma ticks_since_own d now :
  ticks_since [d] (dep_address d) now = filter (in_window config now) [tick d].
Proof.
  unfold ticks_since. rewrite !filter_bool_cons, !filter_nil, String.eqb_refl. cbn [andb].
  change (in_window config now (tick d)) with (now - dep_at d <=? structuringWindowMs config).
  by destruct (now - dep_at d <=? _).
Qed.

Lemma ticks_since_removed since a b now :
  ticks_since (filter (λ d', negb (String.eqb (dep_address d') a) : bool) since) b now
  = if String.eqb a b then [] else ticks_since since b now.
Proof.
  unfold ticks_since. induction since as [|d since IH]; [by destruct (String.eqb a b)|].
  rewrite filter_bool_cons. destruct (String.eqb_spec (dep_address d) a) as [<-|Hne]; cbn [negb].
  - rewrite IH. destruct (String.eqb_spec (dep_address d) b) as [Hb|Hb]; [done|].
    rewrite filter_bool_cons. by destruct (String.eqb_spec (dep_address d) b).
  - rewrite !filter_bool_cons.
    destruct (String.eqb_spec (dep_address d) b) as [Hb|Hb]; cbn [andb]; [|apply IH].
    destruct (String.eqb_spec a b) as [->|]; [done|].
    destruct (now - dep_at d <=? _); [|apply IH]. by rewrite fmap_cons, IH.
Qed.

Lemma tracks_deposit T m s d :
  T ≤ dep_at d → tracks_deposits T m s →
  tracks_deposits (dep_at d)
    (recordDeposit config (dep_at d) (dep_address d) (dep_amount d) m) (detect config s d).
Proof.
  destruct s as [since found]. intros HT [Ht Ha]. cbn [fst snd] in *.
  unfold recordDeposit, recordDeposit_begin, detect. rewrite (Ht _ _ HT).
  assert (ticks_since since (dep_address d) (dep_at d)
          ++ [{| tick_at := dep_at d; tick_amount := dep_amount d |}]
          = ticks_since (since ++ [d]) (dep_address d) (dep_at d)) as ->.
  { rewrite ticks_since_app, ticks_since_own, filter_bool_cons. f_equal.
    unfold in_window. cbn [tick tick_at]. rewrite Z.sub_diag.
    by rewrite (proj2 (Z.leb_le _ _) Hwindow). }
  unfold completes. unfold lengthZ. rewrite near_ticks.
  destruct (structuringMaxCount config <=? _); cbn [fst snd].
  - split.
    + intros a now Hnow. cbn [fst]. rewrite ticks_since_removed. unfold recordDeposit_end.
      rewrite ticks_of_set. destruct (String.eqb_spec (dep_address d) a) as [|Hne]; [done|].
      change (ticks_of a (flag _ _ _ _ _ ?m')) with (ticks_of a m').
      rewrite ticks_of_set. destruct (String.eqb_spec (dep_address d) a); [done|]. apply Ht. lia.
    + cbn [alerts recordDeposit_end set_deposits flag snd]. rewrite keep_last_map, fmap_app, Ha.
      cbn [fmap list_fmap al_address]. rewrite keep_last_snoc by done. by rewrite fmap_app.
  - split; [|done]. intros a now Hnow. cbn [fst]. rewrite ticks_of_set, (ticks_since_app _ _ a now).
    destruct (String.eqb_spec (dep_address d) a) as [<-|Hne].
    + rewrite ticks_since_app, filter_app. f_equal.
      * rewrite <-(Ht _ (dep_at d)), window_again by done. apply Ht. lia.
      * rewrite !ticks_since_own. by apply window_again.
    + rewrite (ticks_since_other d) by done. rewrite app_nil_r. apply Ht. lia.
Qed.

(** C37. Run one at a time, in the order of their times, the monitor's deposits
    raise exactly the structuring alerts they should: one for each deposit that
    makes, with the earlier ones of its address inside the window and since the
    address' last alert, at least the configured number below the threshold;
    the newest 1000 are kept. *)
Theorem structuring_detected (ds : list Deposit) :
  StronglySorted (λ d d', dep_at d ≤ dep_at d') ds →
  al_address <$> alerts (run_deposits config ds new_monitor)
  = keep_last MAX_ALERTS (dep_address <$> patterns config ds).
Proof.
  intros Hsorted. unfold patterns, run_deposits.
  assert (∀ T m s, Forall (λ d, T ≤ dep_at d) ds → tracks_deposits T m s →
    ∃ T', tracks_deposits T'
      (foldl (λ m d, recordDeposit config (dep_at d) (dep_address d) (dep_amount d) m) m ds)
      (foldl (detect config) s ds)) as Hrun.
  { induction Hsorted as [|d ds _ IH Hd]; intros T m s HT Hm; [by exists T|].
    inversion HT; subst. cbn [foldl]. apply (IH (dep_at d)); [done|by eapply tracks_deposit]. }
  destruct ds as [|d ds]; [done|].
  destruct (Hrun (dep_at d) new_monitor ([], [])) as [T' [_ H]].
  - constructor; [lia|]. by inversion Hsorted.
  - by split.
  - exact H.
Qed.

End correct.

(** ** Deposits that arrive while an alert is being sent *)

Definition default_config : MonitorConfig := {|
  mc_complianceContractId := "C"; mc_poolContractId := "P";
  structuringThreshold := 10000000000; structuringWindowMs := 3600000; structuringMaxCount := 5 |}.

(** Deposits of one unit, [i], [i + 1], … milliseconds in. *)
Definition small_deposits (a : string) (i : Z) (n : nat) : list MonitorTask :=
  map (λ k, TDeposit (i + Z.of_nat k) a 1) (seq 0 n).

(** An alert's continuation forgets whatever was deposited while the chain
    call was under way, however long that is: with the default configuration (5
    deposits in an hour), a schedule in which one address makes 14 deposits below
    the threshold within 14 milliseconds, 8 of them after the last alert, and no
    alert is raised for those 8; run one at a time, the same deposits are
    alerted within every 5. *)
Theorem structuring_race :
  let before := small_deposits "G" 0 6 in
  let after := TSettled "G" :: small_deposits "G" 6 4 ++ TSettled "G" :: small_deposits "G" 10 4 in
  length (alerts (run_tasks default_config before).1) = 2%nat
  ∧ length (alerts (run_tasks default_config (before ++ after)).1) = 2%nat
  ∧ length (ticks_of "G" (run_tasks default_config (before ++ after)).1) = 4%nat
  ∧ length (alerts (run_deposits default_config
      (map (λ k, {| dep_at := Z.of_nat k; dep_address := "G"; dep_amount := 1 |}) (seq 6 8))
      new_monitor)) = 1%nat.
Proof. by vm_compute. Qed.

(** ** Periodic re-screening *)

Section rescreen.
Context {St : Type} (readContract : string → list string → M St jsval)
        (onRescreenDue : option (string → M St unit)) (config : MonitorConfig).

(** One tracked subject of [rescreenOnce]; its errors are only logged. *)
Definition rescreen_subject (intervalSecs : number) (now : Z) (address : string) : M St unit :=
  try_catch
    (record ← readContract "get_compliance_record" [address];
     if negb (truthy record) then mret tt
     else
       expires ← lift_result (get_prop record "expires_at");
       screened ← lift_result (get_prop record "screened_at");
       let expiresAt := js_Number (js_coalesce expires (JNum 0)) in
       let screenedAt := js_Number (js_coalesce screened (JNum 0)) in
       let dueAt := if negb (num_eqb expiresAt (num_of_Z 0)) then expiresAt
                    else num_add screenedAt intervalSecs in
       if num_ltb (num_of_Z now) dueAt then mret tt
       else match onRescreenDue with Some handler => handler address | None => mret tt end)
    (λ _, mret tt).

(** [now] is [Math.floor(Date.now() / 1000)]. *)
Definition rescreenOnce (now : Z) (tracked : list string) : M St unit :=
  match tracked, onRescreenDue with
  | [], _ | _, None => mret tt
  | _, Some _ =>
      if String.eqb (mc_complianceContractId config) "" then mret tt
      else
        interval ← readContract "get_rescreening_interval" [];
        for_each tracked (rescreen_subject (js_Number interval) now)
  end.

Lemma rescreen_subject_total intervalSecs now address s :
  ∃ s', rescreen_subject intervalSecs now address s = (Ok tt, s').
Proof.
  unfold rescreen_subject, try_catch.
  match goal with |- context [match ?m s with _ => _ end] => destruct (m s) as [[[]|e] s'] end;
    by eexists.
Qed.

(** Errors of one subject do not keep the others from being checked. *)
Lemma rescreen_subjects_total intervalSecs now tracked s :
  ∃ s', for_each tracked (rescreen_subject intervalSecs now) s = (Ok tt, s').
Proof.
  revert s. induction tracked as [|a tracked IH]; intros s; [by eexists|]. cbn [for_each].
  unfold mbind, M_bind. destruct (rescreen_subject_total intervalSecs now a s) as [s' ->]. apply IH.
Qed.

End rescreen.
