(* ===== verification/ComplianceApi.v ===== *)
(** * compliance-service/src/index.ts: the admin API and the on-chain submissions

    The server of the compliance service over a screening provider, the RPC
    server of the SDK and the monitor; [rq_body] is [JSON.parse(raw || '{}')] of
    the request's body. Characters of texts are units of their length. *)
From S2P Require Import Prelude JsValue JsMap Sdk Screening Monitor.
From Stdlib Require Import Ascii.
#[local] Open Scope string_scope.
#[local] Open Scope list_scope.
#[local] Open Scope Z_scope.

(** ** Configuration *)

Record ComplianceConfig := {
  cc_screenerSecretKey : string;
  cc_adminToken : string;
  cc_healthPort : option Z;
  cc_screeningProviderUrl : string;
  cc_rescreenCheckIntervalMs : option Z;
  cc_monitor : MonitorConfig;
}.

(** [parseInt(process.env.K || d, 10)]; the counts of the heuristics are numbers,
    so a variable that is no numeral ([NaN]) is outside the model. *)
Definition env_int (env : string → option string) (k d : string) : option Z := parseInt (env_or env k d).

Definition load_compliance_config (env : string → option string) : result ComplianceConfig :=
  let threshold := env_or env "STRUCTURING_THRESHOLD" "10000000000" in
  match bigint_of_string threshold,
        env_int env "STRUCTURING_WINDOW_MS" "3600000", env_int env "STRUCTURING_MAX_COUNT" "5" with
  | Some threshold, Some window, Some count =>
      Ok {| cc_screenerSecretKey :=
              env_or env "COMPLIANCE_SCREENER_SECRET_KEY" (env_or env "ORACLE_SECRET_KEY" "");
            cc_adminToken := env_or env "COMPLIANCE_ADMIN_TOKEN" "";
            cc_healthPort := env_int env "HEALTH_PORT" "8081";
            cc_screeningProviderUrl := env_or env "SCREENING_PROVIDER_URL" "";
            cc_rescreenCheckIntervalMs := env_int env "RESCREEN_CHECK_INTERVAL_MS" "3600000";
            cc_monitor := {| mc_complianceContractId := env_or env "COMPLIANCE_CONTRACT_ID" "";
                             mc_poolContractId := env_or env "POOL_CONTRACT_ID" "";
                             structuringThreshold := threshold; structuringWindowMs := window;
                             structuringMaxCount := count |} |}
  | _, _, _ => Throw (ESyntaxError ("Cannot convert " +:+ threshold +:+ " to a BigInt"))
  end.

(** How [main] starts: it ends the process, or serves with or without a monitor. *)
Inductive ComplianceStartup := ExitInvalidKey | ServeWithMonitor | ServeOffline.

Definition compliance_startup (config : ComplianceConfig) : ComplianceStartup :=
  if negb (String.eqb (cc_screenerSecretKey config) "")
     && negb (valid_secret_key (cc_screenerSecretKey config)) then ExitInvalidKey
  else if negb (String.eqb (cc_screenerSecretKey config) "")
          && negb (String.eqb (mc_complianceContractId (cc_monitor config)) "")
  then ServeWithMonitor else ServeOffline.

(** ** [requireAdmin] *)

(** A header: one value, or the values of a repeated header. *)
Inductive HeaderValue := One (v : string) | Many (l : list string).

Definition header_truthy (h : option HeaderValue) : bool :=
  match h with Some (One v) => negb (String.eqb v "") | Some (Many _) => true | None => false end.

Definition admin_header (headers : string → option HeaderValue) : option HeaderValue :=
  if header_truthy (headers "x-admin-token") then headers "x-admin-token"
  else headers "authorization".

(** [crypto.timingSafeEqual] on buffers of one length. *)
Definition buffers_equal (a b : string) : bool :=
  if (String.length a =? String.length b)%nat then String.eqb a b else false.

Definition requireAdmin (adminToken : string) (headers : string → option HeaderValue)
    : result bool :=
  if String.eqb adminToken "" then Ok true
  else
    let header := admin_header headers in
    if negb (header_truthy header) then Ok false
    else
      match header with
      | None => Ok false
      | Some (Many []) => Throw (ETypeError "The first argument must be of type string")
      | Some (Many (value :: _)) | Some (One value) =>
          if buffers_equal value adminToken then Ok true
          else if startsWith "Bearer " value then Ok (buffers_equal (str_drop 7 value) adminToken)
          else Ok false
      end.

(** The value that counts. *)
Definition admin_value (headers : string → option HeaderValue) : option string :=
  match admin_header headers with
  | Some (One v) => if String.eqb v "" then None else Some v
  | Some (Many (v :: _)) => Some v
  | _ => None
  end.

Lemma buffers_equal_spec a b : buffers_equal a b = true ↔ a = b.
Proof.
  unfold buffers_equal. destruct (Nat.eqb_spec (String.length a) (String.length b)) as [|Hne].
  - apply String.eqb_eq.
  - split; [done|]. by intros ->.
Qed.

Lemma bearer_spec value token :
  startsWith "Bearer " value = true →
  (str_drop 7 value = token ↔ value = "Bearer " +:+ token).
Proof.
  unfold startsWith. intros Hp.
  do 7 (destruct value as [|? value]; [done|]; cbn [String.prefix] in Hp;
        match type of Hp with context [ascii_dec ?a ?b] => destruct (ascii_dec a b) as [<-|]; [|done] end).
  cbn. split; [by intros ->|]. by intros [= ->].
Qed.

Lemma requireAdmin_spec adminToken headers :
  requireAdmin adminToken headers = Ok true
  ↔ adminToken = "" ∨ admin_value headers = Some adminToken
    ∨ admin_value headers = Some ("Bearer " +:+ adminToken).
Proof.
  unfold requireAdmin, admin_value. destruct (String.eqb_spec adminToken "") as [|Hne]; [tauto|].
  assert (∀ value, (if buffers_equal value adminToken then Ok true
      else if startsWith "Bearer " value then Ok (buffers_equal (str_drop 7 value) adminToken)
      else Ok false) = Ok true ↔ value = adminToken ∨ value = "Bearer " +:+ adminToken) as Hv.
  { intros value. destruct (buffers_equal value adminToken) eqn:E1.
    { apply buffers_equal_spec in E1. split; [by left|done]. }
    assert (value ≠ adminToken) by (intros E; apply buffers_equal_spec in E; congruence).
    destruct (startsWith "Bearer " value) eqn:E2.
    - rewrite <-(bearer_spec _ _ E2), <-(buffers_equal_spec (str_drop 7 value)).
      destruct (buffers_equal (str_drop 7 value) adminToken); intuition congruence.
    - split; [done|]. intros [?|E]; [done|]. exfalso. rewrite E in E2. by destruct adminToken. }
  destruct (admin_header headers) as [[v|[|v l]]|]; cbn.
  - destruct (String.eqb_spec v "") as [->|]; cbn; [split; [done|]; intros [?|[?|?]]; done|].
    rewrite Hv. intuition congruence.
  - split; [done|]. intros [?|[?|?]]; done.
  - rewrite Hv. intuition congruence.
  - split; [done|]. intros [?|[?|?]]; done.
Qed.

(** ** Screening providers

    The interface index.ts screens through: a call over the service's state. What the
    contract's enums need of an answer is [valid_result]; the mock keeps to it, while
    the answer of a provider over HTTP is passed on as it came. *)
Definition valid_result (r : ScreenResult) : Prop :=
  sc_status r ∈ SCREEN_DECISIONS ∧ sc_riskTier r ∈ RISK_TIERS ∧ 0 ≤ sc_reasonCode r ≤ U32_MAX.

(** [screen(address, { name, jurisdiction })], with the fields as the body has them. *)
Class ScreenerProvider (St : Type) :=
  screen : jsval → jsval → jsval → M St ScreenResult.

(** [R] is true of whatever the provider answers. *)
Class AnswersIn (St : Type) `{ScreenerProvider St} (R : ScreenResult → Prop) :=
  screen_answers : ∀ (I : St → Prop) address name jurisdiction,
    triple I (screen address name jurisdiction) (λ r s, R r ∧ I s) I.

(** [MockScreener.screen] on what a body can hold: a method call on a value that
    is no string throws. *)
Definition mock_screen_any (runtimeBlocked : list string) (address jurisdiction : jsval)
    : result ScreenResult :=
  let context j := {| cx_name := None; cx_jurisdiction := j; cx_recentVolume := None;
                      cx_debtorConcentrationBps := None |} in
  match address with
  | JStr a =>
      match jurisdiction with
      | JStr j => mock_screen runtimeBlocked a (context (Some j))
      | _ =>
          r ← mock_screen runtimeBlocked a (context None);
          if truthy jurisdiction && negb (String.eqb (sc_status r) "Blocked")
          then Throw (ETypeError "context.jurisdiction.toUpperCase is not a function")
          else Ok r
      end
  | _ => if truthy address then Throw (ETypeError "address.trim is not a function")
         else Throw (EError "address is required")
  end.

#[export] Instance mock_provider {St} (runtimeBlocked : list string) : ScreenerProvider St | 100 :=
  λ address _ jurisdiction, lift_result (mock_screen_any runtimeBlocked address jurisdiction).

Lemma mock_screen_valid runtimeBlocked address cx r :
  mock_screen runtimeBlocked address cx = Ok r → valid_result r.
Proof.
  unfold mock_screen. destruct (_ || _); [done|]. destruct (_ || _).
  { intros [= <-]. split; [by apply one_of_In|split; [by apply one_of_In|done]]. }
  destruct (prefix_entry _) as [[id note]|].
  { intros [= <-]. split; [by apply one_of_In|split; [by apply one_of_In|done]]. }
  intros [= <-]. destruct (heuristics_spec cx) as (Hst&Ht&Hr&_). split; [|done].
  destruct Hst as [[E _]|[E _]]; cbn [sc_status]; rewrite E; by apply one_of_In.
Qed.

Lemma mock_screen_any_valid runtimeBlocked address jurisdiction r :
  mock_screen_any runtimeBlocked address jurisdiction = Ok r → valid_result r.
Proof.
  unfold mock_screen_any. intros Hok.
  destruct address; cbn in Hok; try (destruct (negb _); done); try (destruct b; done); try done.
  destruct jurisdiction; try (by eapply mock_screen_valid);
    unfold mbind, result_bind in Hok;
    (destruct (mock_screen runtimeBlocked s _) as [r'|] eqn:E; [|done]);
    (destruct (_ && _); [done|]); injection Hok as <-; by eapply mock_screen_valid.
Qed.

#[export] Instance mock_provider_valid {St} runtimeBlocked :
  @AnswersIn St (mock_provider runtimeBlocked) valid_result.
Proof.
  intros I address name jurisdiction. apply triple_lift. intros s Hs.
  destruct (mock_screen_any runtimeBlocked address jurisdiction) as [r|] eqn:E; [|done].
  split; [by eapply mock_screen_any_valid|done].
Qed.

(** ** [submitOnChain] *)

(** The arguments of [submit_screening_result]. *)
Record ScreeningCall := {
  call_screener : string;
  call_address : jsval;
  call_status : string;
  call_reasonCode : Z;
  call_riskTier : string;
  call_expiresAt : Z;
  call_notesHash : string;
}.

(** Every part of a call is the provider's answer, of which [R] is true, or was checked:
    a status and a tier of the contract's enums, a reason code of 32 bits. *)
Definition checked_call (R : ScreenResult → Prop) (c : ScreeningCall) : Prop :=
  (∃ r, R r ∧
     (call_status c = sc_status r ∨ call_status c ∈ SCREEN_DECISIONS) ∧
     (call_riskTier c = sc_riskTier r ∨ call_riskTier c ∈ RISK_TIERS) ∧
     (call_reasonCode c = sc_reasonCode r ∨ 0 ≤ call_reasonCode c ≤ U32_MAX)) ∧
  (String.length (call_notesHash c) ≤ 64)%nat.

(** So of a provider that keeps to the enums every call has values of theirs. *)
Lemma checked_call_valid c : checked_call valid_result c →
  call_status c ∈ SCREEN_DECISIONS ∧ call_riskTier c ∈ RISK_TIERS ∧ 0 ≤ call_reasonCode c ≤ U32_MAX.
Proof.
  intros [(r&(Vs&Vt&Vr)&Hs&Ht&Hr) _].
  destruct Hs as [->|Hs], Ht as [->|Ht], Hr as [->|Hr]; done.
Qed.

Section service.
Context {St Account Tx ScVal : Type} (server : Server St Account Tx ScVal) `{!ScreenerProvider St}.
(** The transaction with the call's operation, and the prepared and signed one. *)
Context (build : Account → string → ScreeningCall → result Tx)
        (assemble_and_sign : Tx → ScVal → result Tx).
Context (config : ComplianceConfig) (publicKey : string).
(** [new URL(target, 'http://127.0.0.1').pathname]: [None] when the constructor throws. *)
Context (pathname : string → option string).
(** The service's monitor, absent when it runs offline; [now] is the clock in
    milliseconds. *)
Context (monitor : St → option Monitor) (set_monitor : option Monitor → St → St) (now : Z).

Definition update_monitor (f : Monitor → Monitor) (s : St) : St :=
  match monitor s with Some m => set_monitor (Some (f m)) s | None => s end.

Definition submitOnChain (address : jsval) (status : string) (reasonCode : Z)
    (riskTier notesHash : string) : M St string :=
  if String.eqb (cc_screenerSecretKey config) ""
     || String.eqb (mc_complianceContractId (cc_monitor config)) ""
  then throw (EError "COMPLIANCE_SCREENER_SECRET_KEY and COMPLIANCE_CONTRACT_ID required")
  else
    account ← getAccount server publicKey;
    tx ← lift_result (build account (mc_complianceContractId (cc_monitor config)) {|
      call_screener := publicKey; call_address := address; call_status := status;
      call_reasonCode := reasonCode; call_riskTier := riskTier;
      call_expiresAt := now / 1000 + 180 * 24 * 60 * 60;
      call_notesHash := str_take 64 notesHash |});
    sim ← simulateTransaction server tx;
    match sim with
    | SimError error => throw (EError ("Simulation failed: " +:+ error))
    | SimSuccess retval =>
        prepared ← lift_result (assemble_and_sign tx retval);
        send ← sendTransaction server prepared;
        mret (send_hash send)
    end.

(** The re-screening callback of the monitor. *)
Definition runRescreen (address : string) : M St unit :=
  r ← screen (JStr address) JUndef JUndef;
  _ ← submitOnChain (JStr address) (sc_status r) (sc_reasonCode r) (sc_riskTier r) (sc_notes r);
  mret tt.

(** ** The request handler *)

Record Request := {
  rq_method : string;
  rq_url : string;
  rq_headers : string → option HeaderValue;
  rq_body : result jsval;
}.

Inductive Body :=
| BHealth (processed : Z) (complianceContractId : option string) (monitored : bool)
| BAlerts (l : list MonitorAlert)
| BError (msg : string)
| BScreened (r : ScreenResult) (txHash : option string)
| BOk
| BNotFound.

Definition Response : Type := Z * Body.

(** [result] with the operator's decision, when there is one. *)
Definition override_result (body : list (string * jsval)) (r : ScreenResult) : ScreenResult :=
  match obj_get body "status" with
  | JStr status =>
      if String.eqb status "" then r else {|
        sc_address := sc_address r; sc_status := status;
        sc_reasonCode := match obj_get body "reasonCode" with JNum n => n | _ => sc_reasonCode r end;
        sc_riskTier := match obj_get body "riskTier" with JStr t => t | _ => sc_riskTier r end;
        sc_matchedList := sc_matchedList r;
        sc_notes := match obj_get body "notesHash" with JStr n => n | _ => sc_notes r end |}
  | _ => r
  end.

(** The notes submitted: [body.notesHash || result.notes]. *)
Definition submitted_notes (body : list (string * jsval)) (r : ScreenResult) : string :=
  match obj_get body "notesHash" with
  | JStr n => if String.eqb n "" then sc_notes r else n
  | _ => sc_notes r
  end.

(** [POST /screen] after the authorisation. A parsed body without properties has
    no address; the tracked subject is the address' text. *)
Definition post_screen (rq : Request) : M St Response :=
  body ← lift_result (rq_body rq);
  address ← lift_result (get_prop body "address");
  if negb (truthy address) then mret (400, BError "address required")
  else
    let fields := match body with JObj o => o | _ => [] end in
    match validateScreenOverride fields with
    | Some validationError => mret (400, BError validationError)
    | None =>
        r ← screen address (obj_get fields "name") (obj_get fields "jurisdiction");
        let r := override_result fields r in
        txHash ← (if truthy (obj_get fields "submitOnChain") then
          hash ← submitOnChain address (sc_status r) (sc_reasonCode r) (sc_riskTier r)
                   (submitted_notes fields r);
          _ ← modify (update_monitor (trackSubject (js_String address)));
          mret (Some hash)
        else mret None);
        mret (200, BScreened r txHash)
    end.

(** [POST /monitor/deposit]; without a monitor the amount is not looked at. *)
Definition post_deposit (rq : Request) : M St Response :=
  body ← lift_result (rq_body rq);
  address ← lift_result (get_prop body "address");
  amount ← lift_result (get_prop body "amount");
  if negb (truthy address) || is_undefined amount
  then mret (400, BError "address and amount required")
  else
    st ← get_state;
    match monitor st with
    | None => mret (200, BOk)
    | Some _ =>
        match js_BigInt amount with
        | None => throw (ESyntaxError "Cannot convert to a BigInt")
        | Some n =>
            _ ← modify (update_monitor (recordDeposit (cc_monitor config) now (js_String address) n));
            mret (200, BOk)
        end
    end.

(** [if (!requireAdmin(req)) return json(401, …)]. *)
Definition guarded (rq : Request) (k : M St Response) : M St Response :=
  ok ← lift_result (requireAdmin (cc_adminToken config) (rq_headers rq));
  if negb ok then mret (401, BError "unauthorized") else k.

Definition get_health : M St Response :=
  st ← get_state;
  let id := mc_complianceContractId (cc_monitor config) in
  mret (200, BHealth (match monitor st with Some m => mon_processedCount m | None => 0 end)
               (if String.eqb id "" then None else Some id)
               (match monitor st with Some _ => true | None => false end)).

Definition get_flags : M St Response :=
  st ← get_state;
  mret (200, BAlerts (match monitor st with Some m => listAlerts m | None => [] end)).

(** The endpoints of the administrator. *)
Definition admin_endpoint (rq : Request) (path : string) : option (M St Response) :=
  if String.eqb (rq_method rq) "GET" && String.eqb path "/flags" then Some get_flags
  else if String.eqb (rq_method rq) "POST" && String.eqb path "/screen" then Some (post_screen rq)
  else if String.eqb (rq_method rq) "POST" && String.eqb path "/monitor/deposit" then Some (post_deposit rq)
  else None.

Definition answer_error (err : exn) : M St Response := mret (500, BError (exn_message err)).

(** The callback. The target is read before the [try]: what [new URL] throws leaves the
    callback, and nothing is answered. *)
Definition handle (rq : Request) : M St Response :=
  path ← lift_result (match pathname (if String.eqb (rq_url rq) "" then "/" else rq_url rq) with
                      | Some path => Ok path
                      | None => Throw (ETypeError "Invalid URL")
                      end);
  try_catch
    (if String.eqb (rq_method rq) "GET" && String.eqb path "/health" then get_health
     else
       match admin_endpoint rq path with
       | Some endpoint => guarded rq endpoint
       | None => mret (404, BNotFound)
       end)
    answer_error.

(** *** Correctness *)

(** The header that carries the token. *)
Definition authorised (rq : Request) : Prop :=
  cc_adminToken config = "" ∨ admin_value (rq_headers rq) = Some (cc_adminToken config)
  ∨ admin_value (rq_headers rq) = Some ("Bearer " +:+ cc_adminToken config).

(** What the others are told. *)
Definition refusal (rq : Request) : Response :=
  match admin_header (rq_headers rq) with
  | Some (Many []) => (500, BError "The first argument must be of type string")
  | _ => (401, BError "unauthorized")
  end.

Lemma guarded_authorised rq k s : authorised rq → guarded rq k s = k s.
Proof. intros H%requireAdmin_spec. unfold guarded, mbind, M_bind, lift_result. by rewrite H. Qed.

Lemma guarded_refused rq k s : ¬ authorised rq → try_catch (guarded rq k) answer_error s = (Ok (refusal rq), s).
Proof.
  unfold authorised. rewrite <-requireAdmin_spec. intros H.
  unfold try_catch, guarded, refusal, mbind, M_bind, lift_result, requireAdmin in *.
  destruct (String.eqb (cc_adminToken config) ""); [done|].
  destruct (admin_header (rq_headers rq)) as [[v|[|v l]]|]; cbn [header_truthy negb] in *; try done.
  - destruct (String.eqb v ""); cbn [negb] in *; [done|].
    destruct (buffers_equal v (cc_adminToken config)); [done|]. destruct (startsWith "Bearer " v); [|done].
    by destruct (buffers_equal (str_drop 7 v) (cc_adminToken config)).
  - destruct (buffers_equal v (cc_adminToken config)); [done|]. destruct (startsWith "Bearer " v); [|done].
    by destruct (buffers_equal (str_drop 7 v) (cc_adminToken config)).
Qed.

(** C29. The administrative endpoints answer only the administrator. When a token is
    configured and the header of the request (x-admin-token, or else authorization)
    is not it, bare or after "Bearer ", the answer to a request for the alerts, a
    screening or a deposit is 401 unauthorized, or 500 for a header without a value,
    whatever the state, of which nothing is changed; otherwise it is that of the
    endpoint. *)
Theorem admin_endpoints_guarded rq path endpoint :
  pathname (if String.eqb (rq_url rq) "" then "/" else rq_url rq) = Some path →
  admin_endpoint rq path = Some endpoint →
  (¬ authorised rq → ∀ s, handle rq s = (Ok (refusal rq), s)) ∧
  (authorised rq → ∀ s, handle rq s = try_catch endpoint answer_error s).
Proof.
  intros Hp He.
  assert (∀ s, handle rq s = try_catch (guarded rq endpoint) answer_error s) as Hh.
  { intros s. unfold handle, mbind, M_bind, lift_result. rewrite Hp.
    assert (String.eqb (rq_method rq) "GET" && String.eqb path "/health" = false) as ->; [|by rewrite He].
    unfold admin_endpoint in He. destruct (String.eqb_spec (rq_method rq) "GET") as [E|E]; [|done].
    destruct (String.eqb_spec path "/health") as [->|]; [|done]. by rewrite E in He. }
  split; intros Ha s; rewrite Hh; [by apply guarded_refused|].
  unfold try_catch. by rewrite guarded_authorised.
Qed.

Lemma str_take_length n (s : string) : (String.length (str_take n s) ≤ n)%nat.
Proof. revert s. induction n as [|n IH]; intros [|c s]; simpl; try lia. specialize (IH s). lia. Qed.

(** What is submitted is the provider's answer or was checked. *)
Definition checked_result (R : ScreenResult → Prop) (r' : ScreenResult) : Prop :=
  ∃ r, R r ∧ (sc_status r' = sc_status r ∨ sc_status r' ∈ SCREEN_DECISIONS) ∧
    (sc_riskTier r' = sc_riskTier r ∨ sc_riskTier r' ∈ RISK_TIERS) ∧
    (sc_reasonCode r' = sc_reasonCode r ∨ 0 ≤ sc_reasonCode r' ≤ U32_MAX).

Lemma override_result_checked R body r : override_ok body → R r → checked_result R (override_result body r).
Proof.
  intros (Hs&Ht&Hr&_) HR. exists r. split; [done|]. unfold override_result.
  destruct Hs as [->|(s&->&Hs)]; [by auto|]. destruct (String.eqb s ""); [by auto|].
  cbn. split; [by right|].
  destruct Ht as [->|(t&->&?)], Hr as [->|(n&->&?)]; auto.
Qed.

(** [ok_tx] covers the transactions built from checked calls, and prepared from
    such a one; simulating and sending those keeps [I], as do the other calls. *)
Definition chain_keeps (R : ScreenResult → Prop) (ok_tx : Tx → Prop) (I : St → Prop) : Prop :=
  (∀ a, keeps I (getAccount server a))
  ∧ (∀ a id c tx, build a id c = Ok tx → checked_call R c → ok_tx tx)
  ∧ (∀ tx v tx', assemble_and_sign tx v = Ok tx' → ok_tx tx → ok_tx tx')
  ∧ (∀ tx, ok_tx tx → keeps I (simulateTransaction server tx))
  ∧ (∀ tx, ok_tx tx → keeps I (sendTransaction server tx)).

Lemma submitOnChain_keeps R ok_tx I address r notes :
  chain_keeps R ok_tx I → checked_result R r →
  keeps I (submitOnChain address (sc_status r) (sc_reasonCode r) (sc_riskTier r) notes).
Proof.
  intros (Ha&Hb&Has&Hsim&Hsend) Hr. unfold submitOnChain.
  destruct (_ || _); [apply triple_throw|].
  apply (triple_bind _ _ (λ _, I)); [apply Ha|]. intros account.
  apply (triple_bind _ _ (λ tx s, ok_tx tx ∧ I s)).
  { apply triple_lift. intros s Hs. destruct (build _ _ _) as [tx|] eqn:E; [|done].
    split; [|done]. eapply Hb; [exact E|]. split; [exact Hr|]. apply str_take_length. }
  intros tx s [Htx Hs]. revert s Hs.
  apply (triple_bind _ _ (λ _, I)); [by apply Hsim|].
  intros [error|retval]; [apply triple_throw|].
  apply (triple_bind _ _ (λ tx s, ok_tx tx ∧ I s)).
  { apply triple_lift. intros s Hs. destruct (assemble_and_sign _ _) as [tx'|] eqn:E; [|done].
    split; [by eapply Has|done]. }
  intros tx' s [Htx' Hs]. revert s Hs.
  apply (triple_bind _ _ (λ _, I)); [by apply Hsend|]. intros send. apply keeps_ret.
Qed.

Lemma post_screen_keeps R `{!AnswersIn St R} ok_tx I rq :
  chain_keeps R ok_tx I → (∀ f s, I s → I (update_monitor f s)) → keeps I (post_screen rq).
Proof.
  intros Hchain Hmon. unfold post_screen.
  apply (triple_bind _ _ (λ _, I)); [apply keeps_lift|]. intros body.
  apply (triple_bind _ _ (λ _, I)); [apply keeps_lift|]. intros address.
  destruct (negb (truthy address)); [apply keeps_ret|].
  destruct (validateScreenOverride _) eqn:Hv; [apply keeps_ret|]. apply validate_None in Hv.
  apply (triple_bind _ _ (λ r s, R r ∧ I s)); [apply screen_answers|].
  intros r s [Hr Hs]. revert s Hs. apply (triple_bind _ _ (λ _, I)); [|intros ?; apply keeps_ret].
  destruct (truthy _); [|apply keeps_ret].
  apply (triple_bind _ _ (λ _, I)).
  { eapply submitOnChain_keeps; [done|]. by apply override_result_checked. }
  intros hash. apply (triple_bind _ _ (λ _, I)); [apply triple_modify; intros; by apply Hmon|].
  intros u. apply keeps_ret.
Qed.

Lemma post_deposit_keeps I rq :
  (∀ f s, I s → I (update_monitor f s)) → keeps I (post_deposit rq).
Proof.
  intros Hmon. unfold post_deposit.
  apply (triple_bind _ _ (λ _, I)); [apply keeps_lift|]. intros body.
  apply (triple_bind _ _ (λ _, I)); [apply keeps_lift|]. intros address.
  apply (triple_bind _ _ (λ _, I)); [apply keeps_lift|]. intros amount.
  destruct (_ || _); [apply keeps_ret|].
  apply (triple_bind _ _ (λ _, I)); [by apply triple_get|]. intros st.
  destruct (monitor st); [|apply keeps_ret]. destruct (js_BigInt amount); [|apply triple_throw].
  apply (triple_bind _ _ (λ _, I)); [apply triple_modify; intros; by apply Hmon|].
  intros u. apply keeps_ret.
Qed.

Lemma guarded_keeps I rq k : keeps I k → keeps I (guarded rq k).
Proof.
  intros Hk. unfold guarded. apply (triple_bind _ _ (λ _, I)); [apply keeps_lift|].
  intros b. destruct b; [exact Hk|apply keeps_ret].
Qed.

(** C38. No decision of an operator reaches the contract unchecked, and a request is
    answered exactly when its target is a URL. Whatever a request holds, the status,
    the risk tier and the reason code of a call that is made are each the answer of the
    screening provider, of which [R] is true, or, when the request gave them, of the
    contract's enums and of 32 bits; the notes are cut at 64 characters (counted as bytes). Any property
    of the state that such calls keep survives every request and every re-screening by
    the monitor. What the provider answers is not checked; and a target that [new URL]
    refuses is never answered: the exception leaves the callback. *)
Theorem submissions_valid R `{!AnswersIn St R} ok_tx (I : St → Prop) :
  chain_keeps R ok_tx I → (∀ f s, I s → I (update_monitor f s)) →
  (∀ rq s, I s → I (handle rq s).2 ∧
     match pathname (if String.eqb (rq_url rq) "" then "/" else rq_url rq) with
     | Some _ => ∃ r, (handle rq s).1 = Ok r
     | None => handle rq s = (Throw (ETypeError "Invalid URL"), s)
     end)
  ∧ (∀ address s, I s → I (runRescreen address s).2).
Proof.
  intros Hchain Hmon. split.
  - intros rq s Hs. unfold handle. unfold mbind at 1 2 3. unfold M_bind at 1 2 3. unfold lift_result.
    destruct (pathname _) as [path|]; [|done].
    match goal with |- context [try_catch ?m _ s] => assert (keeps I m) as Hm end.
    { assert (keeps I get_health) as Hhealth.
      { apply (triple_bind _ _ (λ _, I)); [by apply triple_get|]. intros st. apply keeps_ret. }
      assert (keeps I get_flags) as Hflags.
      { apply (triple_bind _ _ (λ _, I)); [by apply triple_get|]. intros st. apply keeps_ret. }
      destruct (_ && _); [exact Hhealth|]. unfold admin_endpoint.
      destruct (_ && _); [by apply guarded_keeps|].
      destruct (_ && _); [apply guarded_keeps; by eapply (post_screen_keeps R)|].
      destruct (_ && _); [apply guarded_keeps; by apply post_deposit_keeps|]. apply keeps_ret. }
    specialize (Hm s Hs). unfold try_catch. destruct (_ s) as [[r|e] s']; cbn; eauto.
  - intros address s Hs.
    assert (keeps I (runRescreen address)) as Hr.
    { unfold runRescreen. apply (triple_bind _ _ (λ r s, R r ∧ I s)); [apply screen_answers|].
      intros r s0 [Hr Hs0]. revert s0 Hs0. apply (triple_bind _ _ (λ _, I)).
      - eapply submitOnChain_keeps; [done|]. exists r. auto.
      - intros hash. apply keeps_ret. }
    specialize (Hr s Hs). by destruct (runRescreen address s) as [[r|e] s'].
Qed.

End service.
