(* ===== verification/RateModel.v ===== *)
(** * frontend/lib/rate-model.ts: the kinked rate curve

    The client's copy of the pool contract's interest-rate curve, over JavaScript
    numbers, and the contract's own ([Pool], contracts/pool/src/lib.rs), over the
    machine integers of Rust. The two are to stay in lockstep. *)
From S2P Require Import Prelude JsValue JsNumber JsArith.
From Stdlib Require Import SpecFloat.
#[local] Open Scope string_scope.
#[local] Open Scope list_scope.
#[local] Open Scope Z_scope.

Record RateModelConfig := {
  baseRateBps : number;
  optimalUtilizationBps : number;
  slope1Bps : number;
  slope2Bps : number;
  maxRateBps : number;
}.

Definition BPS_DENOM : number := num_of_Z 10000.

Definition computeCurrentRateBps (utilizationBps : number) (config : RateModelConfig) : number :=
  let util := Math_min (Math_max (num_of_Z 0) (Math_floor utilizationBps)) BPS_DENOM in
  let optimal := optimalUtilizationBps config in
  if num_leb optimal (num_of_Z 0) || num_ltb BPS_DENOM optimal then maxRateBps config
  else
    let below := Math_min util optimal in
    let rate := num_add (baseRateBps config)
                  (Math_floor (num_div (num_mul below (slope1Bps config)) optimal)) in
    let rate :=
      if num_ltb optimal util then
        let span := num_sub BPS_DENOM optimal in
        num_add rate (Math_floor (num_div (num_mul (num_sub util optimal) (slope2Bps config)) span))
      else rate in
    Math_min rate (maxRateBps config).

(** The loop over [i < points] of [sampleRateCurve]. *)
Definition sampleRateCurve (config : RateModelConfig) (points : Z) : list (number * number) :=
  let step := num_div BPS_DENOM (num_of_Z (points - 1)) in
  map (λ i,
    let utilizationBps := Math_round (num_mul (num_of_Z i) step) in
    (utilizationBps, computeCurrentRateBps utilizationBps config)) (seqZ 0 points).

Definition MAX_RATE_BPS_CAP : Z := 5000.

(** [t ? t(key, values) : text]. *)
Definition message (t : option (string → list (string * string) → string))
    (key : string) (values : list (string * string)) (text : string) : string :=
  match t with Some t => t key values | None => text end.

(** The first slope outside its bounds, with its name. *)
Fixpoint bad_slope (slopes : list (string * number)) : option string :=
  match slopes with
  | [] => None
  | (name, slope) :: slopes' =>
      if negb (isInteger slope) || num_ltb slope (num_of_Z 0)
         || num_ltb (num_of_Z MAX_RATE_BPS_CAP) slope
      then Some name else bad_slope slopes'
  end.

Definition validateRateModelConfig (config : RateModelConfig)
    (t : option (string → list (string * string) → string)) : option string :=
  let cap := pretty MAX_RATE_BPS_CAP in
  if negb (isInteger (optimalUtilizationBps config))
     || num_leb (optimalUtilizationBps config) (num_of_Z 0)
     || num_ltb BPS_DENOM (optimalUtilizationBps config)
  then Some (message t "optUtilRange" []
               "Optimal utilization must be between 1 and 10000 bps (0.01%–100%).")
  else if negb (isInteger (maxRateBps config)) || num_leb (maxRateBps config) (num_of_Z 0)
          || num_ltb (num_of_Z MAX_RATE_BPS_CAP) (maxRateBps config)
  then Some (message t "maxRateRange" [("max", cap)]
               ("Max rate must be between 1 and " +:+ cap +:+ " bps."))
  else if negb (isInteger (baseRateBps config)) || num_ltb (baseRateBps config) (num_of_Z 0)
  then Some (message t "baseRateNonNegative" [] "Base rate must be a non-negative integer (bps).")
  else if num_ltb (maxRateBps config) (baseRateBps config)
  then Some (message t "baseRateExceedsMax" [] "Base rate cannot exceed the max rate.")
  else match bad_slope [("Slope 1", slope1Bps config); ("Slope 2", slope2Bps config)] with
       | Some name =>
           Some (message t "slopeRange" [("name", name); ("max", cap)]
                   (name +:+ " must be between 0 and " +:+ cap +:+ " bps."))
       | None => None
       end.

(** ** The contract: contracts/pool/src/lib.rs *)
Module Pool.

Record RateModelConfig := {
  base_rate_bps : Z;
  optimal_utilization_bps : Z;
  slope1_bps : Z;
  slope2_bps : Z;
  max_rate_bps : Z;
}.

Definition u32_MAX : Z := 2 ^ 32 - 1.
Definition u128_MAX : Z := 2 ^ 128 - 1.

(** [a.saturating_add(b)] and [a.saturating_sub(b)] on [u128]. *)
Definition saturating_add (a b : Z) : Z := Z.min (a + b) u128_MAX.
Definition saturating_sub (a b : Z) : Z := Z.max (a - b) 0.

(** [a.checked_mul(b).and_then(|v| v.checked_div(denom)).unwrap_or(u128::MAX)]. *)
Definition mul_div (a b denom : Z) : Z :=
  if u128_MAX <? a * b then u128_MAX else if denom =? 0 then u128_MAX else a * b / denom.

Definition compute_current_rate (utilization_bps : Z) (config : RateModelConfig) : Z :=
  let util := Z.min utilization_bps 10000 in
  let optimal := optimal_utilization_bps config in
  let rate := saturating_add (base_rate_bps config)
                (mul_div (Z.min util optimal) (slope1_bps config) optimal) in
  let rate :=
    if optimal <? util then
      let span := saturating_sub 10000 optimal in
      saturating_add rate (mul_div (util - optimal) (slope2_bps config) span)
    else rate in
  Z.min (Z.min rate (max_rate_bps config)) u32_MAX.

Definition validate_rate_model_config (config : RateModelConfig) : bool :=
  negb ((optimal_utilization_bps config =? 0) || (10000 <? optimal_utilization_bps config))
  && negb ((max_rate_bps config =? 0) || (MAX_RATE_BPS_CAP <? max_rate_bps config))
  && negb (max_rate_bps config <? base_rate_bps config)
  && negb ((MAX_RATE_BPS_CAP <? slope1_bps config) || (MAX_RATE_BPS_CAP <? slope2_bps config)).

(** The fields are [u32]. *)
Definition u32 (z : Z) : Prop := 0 ≤ z ≤ u32_MAX.
Definition config_u32 (c : RateModelConfig) : Prop :=
  u32 (base_rate_bps c) ∧ u32 (optimal_utilization_bps c) ∧ u32 (slope1_bps c)
  ∧ u32 (slope2_bps c) ∧ u32 (max_rate_bps c).

End Pool.

(** A stored configuration as the client decodes it. *)
Definition js_config (c : Pool.RateModelConfig) : RateModelConfig := {|
  baseRateBps := num_of_Z (Pool.base_rate_bps c);
  optimalUtilizationBps := num_of_Z (Pool.optimal_utilization_bps c);
  slope1Bps := num_of_Z (Pool.slope1_bps c);
  slope2Bps := num_of_Z (Pool.slope2_bps c);
  maxRateBps := num_of_Z (Pool.max_rate_bps c) |}.

(** ** Lockstep *)

(** The curve on integers, with neither saturation nor rounding. *)
Definition rate_at (c : Pool.RateModelConfig) (util : Z) : Z :=
  let optimal := Pool.optimal_utilization_bps c in
  Pool.base_rate_bps c + Z.min util optimal * Pool.slope1_bps c / optimal
  + (if optimal <? util then (util - optimal) * Pool.slope2_bps c / (10000 - optimal) else 0).

Lemma safe_u32 z : Pool.u32 z → safe z.
Proof. unfold Pool.u32, Pool.u32_MAX, safe. lia. Qed.

Lemma share_bounds a b d : 0 ≤ a ≤ d → 0 ≤ b → 0 < d → 0 ≤ a * b / d ≤ b.
Proof.
  intros Ha Hb Hd. split; [apply Z.div_pos; nia|]. apply Z.div_le_upper_bound; nia.
Qed.

Lemma mul_div_exact a b d :
  0 ≤ a ≤ 10000 → Pool.u32 b → 0 < d → Pool.mul_div a b d = a * b / d.
Proof.
  unfold Pool.u32, Pool.u32_MAX, Pool.mul_div, Pool.u128_MAX. intros Ha Hb Hd.
  rewrite (proj2 (Z.ltb_ge _ _)) by nia. by rewrite (proj2 (Z.eqb_neq _ _)) by lia.
Qed.

Lemma product_safe a b : 0 ≤ a ≤ 10000 → 0 ≤ b ≤ 2 ^ 32 - 1 → safe a ∧ safe b ∧ safe (a * b).
Proof. unfold safe. intros. split_and!; nia. Qed.

Section lockstep.
Context (c : Pool.RateModelConfig).
Hypothesis Hc : Pool.config_u32 c.
#[local] Abbreviation optimal := (Pool.optimal_utilization_bps c).

Lemma rate_at_bounds util : 0 < optimal ≤ 10000 → 0 ≤ util ≤ 10000 →
  Pool.base_rate_bps c ≤ rate_at c util ≤ 3 * 2 ^ 32
  ∧ 0 ≤ Z.min util optimal * Pool.slope1_bps c / optimal ≤ 2 ^ 32.
Proof.
  destruct Hc as (Hb&Ho&H1&H2&Hm). unfold Pool.u32, Pool.u32_MAX in *. intros Hopt Hu.
  pose proof (share_bounds (Z.min util optimal) (Pool.slope1_bps c) optimal) as S1.
  unfold rate_at.  destruct (Z.ltb_spec optimal util); [|lia].
  pose proof (share_bounds (util - optimal) (Pool.slope2_bps c) (10000 - optimal)). lia.
Qed.

Lemma contract_rate u : Pool.u32 u → 0 < optimal ≤ 10000 →
  Pool.compute_current_rate u c = Z.min (rate_at c (Z.min u 10000)) (Pool.max_rate_bps c).
Proof.
  intros Hu Hopt. destruct (rate_at_bounds (Z.min u 10000) Hopt) as [Hr H1];
    [unfold Pool.u32 in Hu; lia|].
  destruct Hc as (Hb&Ho&Hs1&Hs2&Hm). unfold Pool.compute_current_rate, rate_at in *.
  unfold Pool.saturating_add, Pool.saturating_sub, Pool.u32_MAX, Pool.u128_MAX in *.
  unfold Pool.u32, Pool.u32_MAX in *. rewrite (mul_div_exact (Z.min _ optimal)) by (done || lia).
  destruct (Z.ltb_spec optimal (Z.min u 10000)); [|lia].
  rewrite Z.max_l by lia. rewrite mul_div_exact by (done || lia). lia.
Qed.

Lemma client_rate u : safe u → 0 < optimal ≤ 10000 →
  computeCurrentRateBps (num_of_Z u) (js_config c)
  = num_of_Z (Z.min (rate_at c (Z.min u 10000)) (Pool.max_rate_bps c)).
Proof.
  intros Hu Hopt. destruct (rate_at_bounds (Z.min u 10000) Hopt) as [Hr H1];
    [unfold safe in Hu; lia|].
  pose proof Hc as (Hb&Ho&Hs1&Hs2&Hm).
  unfold computeCurrentRateBps. cbn [js_config optimalUtilizationBps baseRateBps slope1Bps slope2Bps maxRateBps].
  unfold BPS_DENOM.
  unfold Pool.u32, Pool.u32_MAX in *.
  rewrite floor_exact, Math_max_exact by (done || unfold safe in *; lia).
  rewrite Math_min_exact, num_leb_exact, num_ltb_exact by (unfold safe in *; lia).
  rewrite (proj2 (Z.leb_gt _ _)), (proj2 (Z.ltb_ge _ _)) by lia. cbn [orb].
  replace (Z.min (Z.max 0 u) 10000) with (Z.min u 10000) by (unfold safe in Hu; lia).
  set (w := Z.min u 10000) in *. assert (0 ≤ w ≤ 10000) by (unfold safe in Hu; lia).
  rewrite Math_min_exact by (unfold safe; lia).
  destruct (product_safe (Z.min w optimal) (Pool.slope1_bps c)) as (S1&S2&S3); [lia..|].
  rewrite num_mul_exact by (done || apply S3).
  rewrite floor_div_exact by (done || unfold safe; lia).
  rewrite num_add_exact by (unfold safe; lia).
  rewrite num_ltb_exact by (unfold safe; lia).
  unfold rate_at in *. destruct (Z.ltb_spec optimal w).
  - rewrite num_sub_exact, num_sub_exact by (unfold safe; lia).
    destruct (product_safe (w - optimal) (Pool.slope2_bps c)) as (T1&T2&T3); [lia..|].
    pose proof (share_bounds (w - optimal) (Pool.slope2_bps c) (10000 - optimal)).
    rewrite num_mul_exact by (done || apply T3).
    rewrite floor_div_exact by (done || unfold safe; lia).
    rewrite num_add_exact by (unfold safe; lia). apply Math_min_exact; unfold safe; lia.
  - rewrite Z.add_0_r in *. apply Math_min_exact; unfold safe; lia.
Qed.
End lockstep.

Lemma contract_rate_no_kink u c : Pool.config_u32 c → Pool.u32 u → Pool.optimal_utilization_bps c = 0 →
  Pool.compute_current_rate u c = Pool.max_rate_bps c.
Proof.
  intros (Hb&Ho&Hs1&Hs2&Hm) Hu E. unfold Pool.compute_current_rate. rewrite E.
  unfold Pool.u32, Pool.u32_MAX in *.
  assert (Z.min (Z.min u 10000) 0 = 0) as -> by lia.
  change (Pool.mul_div 0 (Pool.slope1_bps c) 0) with Pool.u128_MAX.
  assert (Pool.saturating_add (Pool.base_rate_bps c) Pool.u128_MAX = Pool.u128_MAX) as Esat.
  { unfold Pool.saturating_add. lia. }
  rewrite Esat. unfold Pool.u32_MAX.
  destruct (0 <? Z.min u 10000) eqn:E0; [|unfold Pool.u128_MAX; lia].
  apply Z.ltb_lt in E0.
  assert (0 ≤ Pool.mul_div (Z.min u 10000 - 0) (Pool.slope2_bps c) (Pool.saturating_sub 10000 0)).
  { unfold Pool.mul_div. repeat case_match; [unfold Pool.u128_MAX; lia..|].
    apply Z.div_pos; [nia|unfold Pool.saturating_sub; lia]. }
  unfold Pool.saturating_add, Pool.u128_MAX in *. lia.
Qed.

Lemma slope_refused s : Pool.u32 s →
  negb (isInteger (num_of_Z s)) || num_ltb (num_of_Z s) (num_of_Z 0)
  || num_ltb (num_of_Z MAX_RATE_BPS_CAP) (num_of_Z s) = (MAX_RATE_BPS_CAP <? s).
Proof.
  intros Hs%safe_u32.
  rewrite isInteger_exact, !num_ltb_exact by (done || unfold safe, MAX_RATE_BPS_CAP; lia).
  unfold safe in Hs. by rewrite (proj2 (Z.ltb_ge s 0)) by lia.
Qed.

Lemma validate_lockstep c t : Pool.config_u32 c →
  validateRateModelConfig (js_config c) t = None ↔ Pool.validate_rate_model_config c = true.
Proof.
  intros (Hb&Ho&Hs1&Hs2&Hm). pose proof (safe_u32 _ Hb). pose proof (safe_u32 _ Ho).
  pose proof (safe_u32 _ Hm). unfold validateRateModelConfig, Pool.validate_rate_model_config.
  cbn [js_config optimalUtilizationBps baseRateBps slope1Bps slope2Bps maxRateBps bad_slope].
  unfold BPS_DENOM. rewrite !isInteger_exact, !num_leb_exact by (done || unfold safe; lia).
  rewrite (num_ltb_exact 10000), (num_ltb_exact MAX_RATE_BPS_CAP (Pool.max_rate_bps c)),
    (num_ltb_exact (Pool.base_rate_bps c)), (num_ltb_exact (Pool.max_rate_bps c))
    by (done || unfold safe, MAX_RATE_BPS_CAP; lia).
  rewrite !slope_refused by done. unfold safe in *. cbn [negb orb].
  rewrite (proj2 (Z.ltb_ge (Pool.base_rate_bps c) 0)) by lia.
  assert (∀ z, 0 ≤ z → (z <=? 0) = (z =? 0)) as Hz by (intros z Hz; destruct (Z.leb_spec z 0), (Z.eqb_spec z 0); lia).
  rewrite !Hz by lia.
  destruct ((Pool.optimal_utilization_bps c =? 0) || (10000 <? Pool.optimal_utilization_bps c));
    cbn [negb andb]; [by split|].
  destruct ((Pool.max_rate_bps c =? 0) || (MAX_RATE_BPS_CAP <? Pool.max_rate_bps c));
    cbn [negb andb]; [by split|].
  destruct (Pool.max_rate_bps c <? Pool.base_rate_bps c); cbn [negb andb]; [by split|].
  destruct (MAX_RATE_BPS_CAP <? Pool.slope1_bps c), (MAX_RATE_BPS_CAP <? Pool.slope2_bps c); by split.
Qed.

Lemma validated_bounds c : Pool.config_u32 c → Pool.validate_rate_model_config c = true →
  0 < Pool.optimal_utilization_bps c ≤ 10000 ∧ Pool.base_rate_bps c ≤ Pool.max_rate_bps c.
Proof.
  intros (_&[Ho _]&_). unfold Pool.validate_rate_model_config.
  rewrite !andb_true_iff, !negb_true_iff, !orb_false_iff, !Z.eqb_neq, !Z.ltb_ge. lia.
Qed.

Lemma rate_at_mono c u v : Pool.config_u32 c → 0 < Pool.optimal_utilization_bps c ≤ 10000 →
  0 ≤ u ≤ v ∧ v ≤ 10000 → rate_at c u ≤ rate_at c v.
Proof.
  intros (Hb&Ho&Hs1&Hs2&Hm) Hopt Huv. unfold Pool.u32 in *. unfold rate_at.
  set (k := Pool.optimal_utilization_bps c) in *.
  assert (Z.min u k * Pool.slope1_bps c / k ≤ Z.min v k * Pool.slope1_bps c / k).
  { apply Z.div_le_mono; [lia|]. apply Z.mul_le_mono_nonneg_r; lia. }
  destruct (Z.ltb_spec k u), (Z.ltb_spec k v); [|lia| |lia].
  - assert ((u - k) * Pool.slope2_bps c / (10000 - k) ≤ (v - k) * Pool.slope2_bps c / (10000 - k)); [|lia].
    apply Z.div_le_mono; [lia|]. apply Z.mul_le_mono_nonneg_r; lia.
  - assert (0 ≤ (v - k) * Pool.slope2_bps c / (10000 - k)); [|lia]. apply Z.div_pos; [nia|lia].
Qed.

(** C7. The client's curve is in lockstep with the contract's: it accepts exactly
    the configurations the contract accepts, and for every utilization and every
    configuration whose kink is at most 100% the floating-point computation gives
    the integer the contract computes, to the last basis point. *)
Theorem rate_model_lockstep c :
  Pool.config_u32 c →
  (∀ t, validateRateModelConfig (js_config c) t = None ↔ Pool.validate_rate_model_config c = true)
  ∧ ∀ u, Pool.u32 u → Pool.optimal_utilization_bps c ≤ 10000 →
      computeCurrentRateBps (num_of_Z u) (js_config c) = num_of_Z (Pool.compute_current_rate u c).
Proof.
  intros Hc. split; [intros t; by apply validate_lockstep|]. intros u Hu Hopt.
  destruct (decide (Pool.optimal_utilization_bps c = 0)) as [E|Hne].
  - rewrite contract_rate_no_kink by done. unfold computeCurrentRateBps. cbn [js_config optimalUtilizationBps].
    rewrite E. done.
  - assert (0 < Pool.optimal_utilization_bps c ≤ 10000).
    { destruct Hc as (_&Ho&_). unfold Pool.u32 in Ho. lia. }
    rewrite client_rate, contract_rate by (done || by apply safe_u32). done.
Qed.

(** On an accepted configuration the curve starts at the base rate, rises with
    utilization, passes through the base plus the first slope at the kink and
    ends at the base plus both slopes, cut off at the ceiling; it never leaves
    the range from the base to the ceiling, whatever the utilization. *)
Theorem rate_curve_shape c :
  Pool.config_u32 c → Pool.validate_rate_model_config c = true →
  let rate u := computeCurrentRateBps (num_of_Z u) (js_config c) in
  let cut r := num_of_Z (Z.min r (Pool.max_rate_bps c)) in
  let optimal := Pool.optimal_utilization_bps c in
  rate 0 = num_of_Z (Pool.base_rate_bps c)
  ∧ rate optimal = cut (Pool.base_rate_bps c + Pool.slope1_bps c)
  ∧ (optimal < 10000 → rate 10000 = cut (Pool.base_rate_bps c + Pool.slope1_bps c + Pool.slope2_bps c))
  ∧ ∀ u v, 0 ≤ u ≤ v → safe v → ∃ r s,
      rate u = num_of_Z r ∧ rate v = num_of_Z s
      ∧ Pool.base_rate_bps c ≤ r ≤ s ∧ s ≤ Pool.max_rate_bps c.
Proof.
  intros Hc Hv. cbv zeta. pose proof Hc as (Hb&Ho&Hs1&Hs2&Hm).
  assert (0 < Pool.optimal_utilization_bps c ≤ 10000 ∧ Pool.base_rate_bps c ≤ Pool.max_rate_bps c)
    as [Hopt Hbm] by (apply validated_bounds; done).
  unfold Pool.u32, Pool.u32_MAX in *.
  assert (∀ u, safe u → computeCurrentRateBps (num_of_Z u) (js_config c)
    = num_of_Z (Z.min (rate_at c (Z.min u 10000)) (Pool.max_rate_bps c))) as Hrate
    by (intros; by apply client_rate).
  rewrite !Hrate by (unfold safe; lia). unfold rate_at. split_and!.
  - rewrite (Z.min_l 0 10000), (Z.min_l 0), Z.mul_0_l, Z.div_0_l by lia.
    rewrite (proj2 (Z.ltb_ge _ _)) by lia. f_equal. lia.
  - rewrite (Z.min_l _ 10000), Z.min_id by lia. rewrite (Z.mul_comm _ (Pool.slope1_bps c)), Z.div_mul by lia.
    rewrite Z.ltb_irrefl. f_equal. lia.
  - intros Hlt. rewrite Z.min_id, (Z.min_r 10000) by lia. rewrite (proj2 (Z.ltb_lt _ _)) by lia.
    rewrite !(Z.mul_comm _ (Pool.slope1_bps c)), (Z.mul_comm _ (Pool.slope2_bps c)), !Z.div_mul by lia.
    done.
  - intros u v Huv Hsv. rewrite !Hrate by (unfold safe in *; lia). eexists _, _. split; [done|]. split; [done|].
    destruct (rate_at_bounds c Hc (Z.min u 10000)) as [Hr _]; [lia..|].
    assert (rate_at c (Z.min u 10000) ≤ rate_at c (Z.min v 10000)); [|lia].
    apply rate_at_mono; [done..|lia].
Qed.

(** The sample points of the chart. *)
Example sampleRateCurve_points c :
  map fst (sampleRateCurve c 101) = map (λ i, num_of_Z (100 * i)) (seqZ 0 101).
Proof. by vm_compute. Qed.
