(* ===== verification/WebhookUrl.v ===== *)
(** * frontend/lib/server/webhook-url.ts: which webhook destinations are safe

    The check the notification service makes before it calls a user's webhook.
    The regular expressions are predicates on strings; [new URL] is a parameter,
    and the DNS lookup is an operation that may throw. *)
From S2P Require Import Prelude JsValue JsNumber JsArith.
From Stdlib Require Import Ascii SpecFloat.
#[local] Open Scope string_scope.
#[local] Open Scope list_scope.
#[local] Open Scope Z_scope.

(** ** The patterns *)

Definition is_digit (c : ascii) : bool :=
  match digit_val c with Some d => d <? 10 | None => false end.
Definition is_hex (c : ascii) : bool :=
  match digit_val c with Some d => d <? 16 | None => false end.

(** [/^172\.(1[6-9]|2\d|3[01])\./]. *)
Definition matches_172 (s : string) : bool :=
  startsWith "172." s
  && match str_drop 4 s with
     | String c (String d (String "."%char _)) =>
         Ascii.eqb c "1" && (54 <=? Z.of_nat (nat_of_ascii d)) && (Z.of_nat (nat_of_ascii d) <=? 57)
         || Ascii.eqb c "2" && is_digit d
         || Ascii.eqb c "3" && (Ascii.eqb d "0" || Ascii.eqb d "1")
     | _ => false
     end.

Definition PRIVATE_IPV4_PATTERNS : list (string → bool) :=
  [startsWith "127."; startsWith "10."; matches_172; startsWith "192.168."; startsWith "169.254.";
   startsWith "0."].

(** [/^::1$/], [/^fc00:/i] and [/^fe80:/i]. *)
Definition PRIVATE_IPV6_PATTERNS : list (string → bool) :=
  [String.eqb "::1"; λ s, startsWith "fc00:" (toLowerCase s); λ s, startsWith "fe80:" (toLowerCase s)].

Definition BLOCKED_HOSTNAMES : list string :=
  ["169.254.169.254"; "metadata.google.internal"; "metadata.goog"; "instance-data"].

(** ** [decodeMappedIPv4] *)

Fixpoint span_hex (s : string) : string * string :=
  match s with
  | String c s' => if is_hex c then let '(a, b) := span_hex s' in (String c a, b) else ("", s)
  | EmptyString => ("", "")
  end.

(** The two groups of [/^::ffff:([0-9a-f]+):([0-9a-f]+)$/i]. *)
Definition match_mapped (address : string) : option (string * string) :=
  if startsWith "::ffff:" (toLowerCase address) then
    let '(high, rest) := span_hex (str_drop 7 address) in
    match rest with
    | String ":"%char rest' =>
        let '(low, rest'') := span_hex rest' in
        if negb (String.eqb high "") && negb (String.eqb low "") && String.eqb rest'' ""
        then Some (high, low) else None
    | _ => None
    end
  else None.

(** [ToInt32], the operand of a bit operator. *)
Definition ToInt32 (x : number) : Z :=
  let z := default 0 (num_to_Z x) mod 2 ^ 32 in
  if z <? 2 ^ 31 then z else z - 2 ^ 32.

(** [parseInt(s, 16)] of hexadecimal digits. *)
Definition parse_hex (s : string) : number :=
  match parse_digits 16 s with Some z => num_of_Z z | None => NaN end.

Definition decodeMappedIPv4 (address : string) : option string :=
  '(h, l) ← match_mapped address;
  let high := ToInt32 (parse_hex h) in
  let low := ToInt32 (parse_hex l) in
  Some (pretty (Z.shiftr high 8) +:+ "." +:+ pretty (Z.land high 255) +:+ "."
        +:+ pretty (Z.shiftr low 8) +:+ "." +:+ pretty (Z.land low 255)).

Definition isPrivateAddress (address : string) (family : Z) : bool :=
  if family =? 4 then existsb (λ p, p address) PRIVATE_IPV4_PATTERNS
  else if existsb (λ p, p address) PRIVATE_IPV6_PATTERNS then true
  else match decodeMappedIPv4 address with
       | Some mapped => existsb (λ p, p mapped) PRIVATE_IPV4_PATTERNS
       | None => false
       end.

(** ** [isSafeWebhookUrl] *)

Record ParsedURL := { url_protocol : string; url_hostname : string }.

(** [s.replace(/^\[|\]$/g, '')]. *)
Fixpoint strip_last_bracket (s : string) : string :=
  match s with
  | EmptyString => EmptyString
  | String "]"%char EmptyString => EmptyString
  | String c s' => String c (strip_last_bracket s')
  end.

Definition strip_brackets (s : string) : string :=
  strip_last_bracket (match s with String "["%char s' => s' | _ => s end).

Section safe_url.
Context {St : Type} (URL : string → option ParsedURL) (lookup : string → M St (list (string * Z))).

Definition isSafeWebhookUrl (rawUrl : string) : M St bool :=
  match URL rawUrl with
  | None => mret false
  | Some parsed =>
      if negb (String.eqb (url_protocol parsed) "https:") then mret false
      else
        let hostname := strip_brackets (toLowerCase (url_hostname parsed)) in
        if one_of BLOCKED_HOSTNAMES hostname then mret false
        else
          try_catch
            (addresses ← lookup hostname;
             mret ((0 <? lengthZ addresses)
                   && negb (existsb (λ a, isPrivateAddress a.1 a.2) addresses)))
            (λ _, mret false)
  end.
End safe_url.

(** ** What the patterns mean

    IPv4 addresses as 32-bit integers, and the blocks of the patterns in CIDR
    notation. *)
Definition in_block (net len ip : Z) : Prop := ip / 2 ^ (32 - len) = net / 2 ^ (32 - len).

Definition ipv4 (a b c d : Z) : Z := a * 2 ^ 24 + b * 2 ^ 16 + c * 2 ^ 8 + d.

Definition dotted (a b c d : Z) : string :=
  pretty a +:+ "." +:+ pretty b +:+ "." +:+ pretty c +:+ "." +:+ pretty d.

Definition octet (z : Z) : Prop := 0 ≤ z < 256.

(** Loopback, 10/8, 172.16/12, 192.168/16, link-local and 0/8. *)
Definition private_block (ip : Z) : Prop :=
  in_block (ipv4 127 0 0 0) 8 ip ∨ in_block (ipv4 10 0 0 0) 8 ip ∨ in_block (ipv4 172 16 0 0) 12 ip
  ∨ in_block (ipv4 192 168 0 0) 16 ip ∨ in_block (ipv4 169 254 0 0) 16 ip
  ∨ in_block (ipv4 0 0 0 0) 8 ip.

(** ** Prefixes of dotted numerals *)
Definition no_dot (s : string) : Prop := str_forallb (λ c, negb (Ascii.eqb c ".")) s = true.

Lemma prefix_segment p q t u : no_dot p → no_dot q →
  startsWith (p +:+ "." +:+ t) (q +:+ "." +:+ u) = String.eqb p q && startsWith t u.
Proof.
  unfold no_dot, startsWith. revert q. induction p as [|c p IH]; intros [|d q] Hp Hq;
    rewrite ?append_cons, ?append_empty; cbn -[ascii_dec Ascii.eqb] in *.
  - by destruct (ascii_dec "." ".").
  - apply andb_prop in Hq as [Hd _]. rewrite negb_true_iff in Hd. apply Ascii.eqb_neq in Hd.
    destruct (ascii_dec "." d); [by subst|done].
  - apply andb_prop in Hp as [Hc _]. rewrite negb_true_iff in Hc. apply Ascii.eqb_neq in Hc.
    destruct (ascii_dec c "."); [by subst|done].
  - apply andb_prop in Hp as [_ Hp]. apply andb_prop in Hq as [_ Hq].
    destruct (ascii_dec c d) as [->|Hne]; [rewrite Ascii.eqb_refl; by apply IH|].
    by rewrite (proj2 (Ascii.eqb_neq c d) Hne).
Qed.

Lemma no_dot_pretty (z : Z) : no_dot (pretty z).
Proof.
  unfold no_dot. eapply str_forallb_impl; [|apply pretty_Z_numeral].
  by intros [[] [] [] [] [] [] [] []].
Qed.

Lemma eqb_pretty (x y : Z) : String.eqb (pretty x) (pretty y) = (x =? y).
Proof.
  destruct (Z.eqb_spec x y) as [->|Hne]; [apply String.eqb_refl|].
  apply String.eqb_neq. by intros ?%(inj pretty).
Qed.

Lemma octet_cases (P : Z → Prop) : Forall P (seqZ 0 256) → ∀ z, octet z → P z.
Proof. intros HP z Hz. rewrite Forall_forall in HP. apply HP, elem_of_seqZ. unfold octet in Hz. lia. Qed.

Lemma matches_172_dotted a b r : octet b →
  matches_172 (pretty a +:+ "." +:+ pretty b +:+ "." +:+ r) = (a =? 172) && ((16 <=? b) && (b <=? 31)).
Proof.
  intros Hb. unfold matches_172.
  change "172." with (pretty 172 +:+ "." +:+ ""). rewrite prefix_segment by apply no_dot_pretty.
  rewrite eqb_pretty, Z.eqb_sym, startsWith_empty, andb_true_r. destruct (Z.eqb_spec a 172) as [->|]; [|done]. cbn [andb].
  change (str_drop 4 (pretty 172 +:+ "." +:+ pretty b +:+ "." +:+ r)) with (pretty b +:+ "." +:+ r).
  revert b Hb. apply octet_cases.
  let l := eval vm_compute in (seqZ 0 256) in change (seqZ 0 256) with l.
  repeat (apply Forall_cons; split;
    [first [by vm_compute|by destruct r as [|[[] [] [] [] [] [] [] []] r]]|]).
  apply Forall_nil_2.
Qed.

(** On dotted quads the patterns are exactly the blocks. *)
Lemma private_patterns_dotted a b c d : octet a → octet b → octet c → octet d →
  existsb (λ p, p (dotted a b c d)) PRIVATE_IPV4_PATTERNS = true ↔ private_block (ipv4 a b c d).
Proof.
  intros Ha Hb Hc Hd.
  assert (∀ n, startsWith (pretty n +:+ "." +:+ "") (dotted a b c d) = (n =? a)) as H1.
  { intros n. unfold dotted. rewrite prefix_segment, eqb_pretty by apply no_dot_pretty.
    rewrite startsWith_empty. by rewrite andb_true_r. }
  assert (∀ n m, startsWith (pretty n +:+ "." +:+ pretty m +:+ "." +:+ "") (dotted a b c d)
    = (n =? a) && (m =? b)) as H2.
  { intros n m. unfold dotted. rewrite !prefix_segment, !eqb_pretty by apply no_dot_pretty.
    rewrite startsWith_empty. by rewrite andb_true_r. }
  cbn [existsb PRIVATE_IPV4_PATTERNS].
  rewrite (H1 127 : startsWith "127." _ = _), (H1 10 : startsWith "10." _ = _),
    (H2 192 168 : startsWith "192.168." _ = _), (H2 169 254 : startsWith "169.254." _ = _),
    (H1 0 : startsWith "0." _ = _).
  unfold dotted. rewrite matches_172_dotted by done.
  rewrite !orb_true_iff, !andb_true_iff, !Z.eqb_eq, !Z.leb_le.
  unfold private_block, in_block, ipv4, octet in *.
  Z.to_euclidean_division_equations. lia.
Qed.

(** ** IPv4-mapped addresses *)
Lemma digits_from_hex s acc v : digits_from 16 acc s = Some v → str_forallb is_hex s = true.
Proof.
  revert acc. induction s as [|c s IH]; intros acc H; [done|]. cbn [digits_from str_forallb] in *.
  unfold is_hex. destruct (digit_val c) as [d|]; [|done]. destruct (d <? 16); [|done].
  cbn [andb]. by eapply IH.
Qed.

Lemma parse_digits_hex s v : parse_digits 16 s = Some v → s ≠ "" ∧ str_forallb is_hex s = true.
Proof.
  intros H. destruct s as [|c s]; [done|]. split; [done|]. by eapply digits_from_hex.
Qed.

Lemma span_hex_all h r :
  str_forallb is_hex h = true → match r with String c _ => is_hex c = false | _ => True end →
  span_hex (h +:+ r) = (h, r).
Proof.
  intros Hh Hr. induction h as [|c h IH]; [rewrite append_empty; destruct r as [|c r]; [done|]|].
  - cbn [span_hex]. by rewrite Hr.
  - rewrite append_cons. cbn [span_hex str_forallb] in *. apply andb_prop in Hh as [Hc Hh].
    by rewrite Hc, IH.
Qed.

Lemma match_mapped_hex h l : h ≠ "" → l ≠ "" → str_forallb is_hex h = true → str_forallb is_hex l = true →
  match_mapped ("::ffff:" +:+ h +:+ ":" +:+ l) = Some (h, l).
Proof.
  intros Hh0 Hl0 Hh Hl. unfold match_mapped. rewrite toLowerCase_app.
  change (toLowerCase "::ffff:") with "::ffff:".
  rewrite startsWith_app.
  change (str_drop 7 ("::ffff:" +:+ h +:+ ":" +:+ l)) with (h +:+ ":" +:+ l).
  rewrite span_hex_all by done. change (":" +:+ l) with (String ":" l).
  rewrite <-(append_nil_r l) at 1. rewrite span_hex_all by done.
  rewrite (proj2 (String.eqb_neq h "")), (proj2 (String.eqb_neq l "")) by done. done.
Qed.

Lemma ToInt32_exact v : 0 ≤ v < 65536 → ToInt32 (num_of_Z v) = v.
Proof.
  intros Hv. unfold ToInt32. rewrite num_to_Z_exact by (unfold safe; lia).
  change (default 0 (Some v)) with v. rewrite (Z.mod_small v) by lia.
  by rewrite (proj2 (Z.ltb_lt v _)) by lia.
Qed.

Lemma decodeMappedIPv4_hex h l vh vl :
  parse_digits 16 h = Some vh → parse_digits 16 l = Some vl → 0 ≤ vh < 65536 → 0 ≤ vl < 65536 →
  decodeMappedIPv4 ("::ffff:" +:+ h +:+ ":" +:+ l)
  = Some (dotted (vh / 256) (vh mod 256) (vl / 256) (vl mod 256)).
Proof.
  intros Eh El Hh Hl. destruct (parse_digits_hex _ _ Eh), (parse_digits_hex _ _ El).
  unfold decodeMappedIPv4. rewrite match_mapped_hex by done. cbn [mbind option_bind].
  unfold parse_hex. rewrite Eh, El, !ToInt32_exact by done.
  assert (∀ z, Z.shiftr z 8 = z / 256) as Hs by (intros; by rewrite Z.shiftr_div_pow2).
  assert (∀ z, Z.land z 255 = z mod 256) as Hm by (intros; apply (Z.land_ones _ 8); lia).
  by rewrite !Hs, !Hm.
Qed.

(** The address patterns are what their comment says: an IPv4 address written
    as a dotted quad is refused exactly when it is in one of the private,
    loopback, link-local or unspecified blocks, and an IPv4-mapped IPv6 address
    in its hexadecimal form, however its two groups are spelled, exactly when the
    IPv4 address it maps to is. *)
Theorem private_address_blocks :
  (∀ a b c d, octet a → octet b → octet c → octet d →
     isPrivateAddress (dotted a b c d) 4 = true ↔ private_block (ipv4 a b c d))
  ∧ ∀ h l vh vl,
     parse_digits 16 h = Some vh → parse_digits 16 l = Some vl → 0 ≤ vh < 65536 → 0 ≤ vl < 65536 →
     isPrivateAddress ("::ffff:" +:+ h +:+ ":" +:+ l) 6 = true ↔ private_block (vh * 65536 + vl).
Proof.
  split; [intros; by apply private_patterns_dotted|]. intros h l vh vl Eh El Hh Hl.
  unfold isPrivateAddress. rewrite (decodeMappedIPv4_hex h l vh vl) by done.
  change (6 =? 4) with false. cbv match.
  assert (existsb (λ p, p ("::ffff:" +:+ h +:+ ":" +:+ l)) PRIVATE_IPV6_PATTERNS = false) as ->.
  { cbn [existsb PRIVATE_IPV6_PATTERNS]. rewrite !toLowerCase_app. reflexivity. }
  rewrite private_patterns_dotted;
    [|unfold octet; Z.to_euclidean_division_equations; lia..].
  replace (ipv4 _ _ _ _) with (vh * 65536 + vl); [done|].
  unfold ipv4. Z.to_euclidean_division_equations; lia.
Qed.

(** The check fails closed and never throws: it answers yes exactly when the
    text is a URL with the https scheme, whose host is not a blocked name, and
    whose lookup returns at least one address and none that the patterns refuse;
    a URL that is refused before that is not even looked up. *)
Theorem isSafeWebhookUrl_fails_closed {St} URL lookup rawUrl (s : St) :
  ∃ answer s', isSafeWebhookUrl URL lookup rawUrl s = (Ok answer, s')
    ∧ (answer = true ↔ ∃ parsed addresses,
        URL rawUrl = Some parsed ∧ url_protocol parsed = "https:"
        ∧ strip_brackets (toLowerCase (url_hostname parsed)) ∉ BLOCKED_HOSTNAMES
        ∧ lookup (strip_brackets (toLowerCase (url_hostname parsed))) s = (Ok addresses, s')
        ∧ addresses ≠ [] ∧ Forall (λ a, isPrivateAddress a.1 a.2 = false) addresses)
    ∧ (s' = s ∨ ∃ parsed, URL rawUrl = Some parsed ∧ url_protocol parsed = "https:"
        ∧ s' = (lookup (strip_brackets (toLowerCase (url_hostname parsed))) s).2).
Proof.
  unfold isSafeWebhookUrl. destruct (URL rawUrl) as [parsed|] eqn:EU.
  2: { exists false, s. split_and!; [done| |by left]. split; [done|]. by intros (p&l&?&_). }
  destruct (String.eqb_spec (url_protocol parsed) "https:") as [Ep|Ep]; cbn [negb].
  2: { exists false, s. split_and!; [done| |by left]. split; [done|].
       intros (p&l&?&?&_). by simplify_eq. }
  set (hostname := strip_brackets (toLowerCase (url_hostname parsed))).
  assert (one_of BLOCKED_HOSTNAMES hostname = true ↔ hostname ∈ BLOCKED_HOSTNAMES) as Hb.
  { apply one_of_In. }
  destruct (one_of BLOCKED_HOSTNAMES hostname).
  { exists false, s. split_and!; [done| |by left]. split; [done|].
    intros (p&l&?&?&Hn&_). simplify_eq. destruct Hn. by apply Hb. }
  unfold try_catch, mbind, M_bind. destruct (lookup hostname s) as [[l|e] s'] eqn:El.
  - eexists _, s'. split_and!; [done| |right; exists parsed; fold hostname; by rewrite El].
    rewrite andb_true_iff, negb_true_iff, Z.ltb_lt. split.
    + intros [Hl Hp]. exists parsed, l. split_and!; try done.
      * intros ?%Hb. done.
      * by intros ->.
      * by apply existsb_false_Forall.
    + intros (p&l'&?&?&?&El'&Hne&HF). simplify_eq. fold hostname in El'. rewrite El in El'. simplify_eq.
      split; [destruct l'; [done|unfold lengthZ; simpl; lia]|by apply existsb_false_Forall].
  - exists false, s'. split_and!; [done| |right; exists parsed; fold hostname; by rewrite El]. split; [done|].
    intros (p&l'&?&?&?&El'&_). simplify_eq. fold hostname in El'. by rewrite El in El'.
Qed.

(** Of the IPv6 addresses only those spelled [::1], [fc00:..] and [fe80:..],
    and mapped ones in hexadecimal, are ever refused: any other unique-local
    address ([fd..]), any other link-local one, the unspecified address and a
    private IPv4 address in the dotted mapped form pass. *)
Theorem ipv6_private_gaps address :
  address ≠ "::1" → startsWith "fc00:" (toLowerCase address) = false →
  startsWith "fe80:" (toLowerCase address) = false → match_mapped address = None →
  isPrivateAddress address 6 = false.
Proof.
  intros H1 H2 H3 H4. unfold isPrivateAddress, decodeMappedIPv4. rewrite H4. change (6 =? 4) with false.
  cbn [existsb PRIVATE_IPV6_PATTERNS]. rewrite H2, H3, (proj2 (String.eqb_neq "::1" address)) by congruence. done.
Qed.

Example ipv6_gaps : forallb (λ a, negb (isPrivateAddress a 6))
  ["fd12:3456::1"; "fe90::1"; "::"; "::ffff:10.0.0.1"; "::ffff:169.254.169.254"] = true.
Proof. by vm_compute. Qed.
