(* ===== verification/Notifications.v ===== *)
(** * frontend: notification delivery

    lib/server/notification-delivery.ts, which calls the email provider and the
    users' webhooks, and the two routes of app/api/notifications. Requests arrive
    as decoded JSON of any shape, so the optional chaining of the code is kept on
    [jsval]s. The HTTP client, the DNS lookup, timers and the crypto module are
    operations of the section. *)
From S2P Require Import Prelude JsValue WebhookUrl.
From S2P Require Import Hex.
From Stdlib Require Import Ascii.
#[local] Open Scope string_scope.
#[local] Open Scope list_scope.
#[local] Open Scope Z_scope.

(** ** Requests *)

(** The options of a [fetch]; [redirect] is "follow" unless it is given. *)
Record HttpRequest := {
  hr_method : string; hr_headers : list (string * string); hr_body : string; hr_redirect : string }.

Definition header (k : string) (r : HttpRequest) : option string :=
  snd <$> List.find (λ kv, String.eqb k kv.1) (hr_headers r).

Definition DELIVERY_EVENTS : list string :=
  ["INVOICE_FUNDED"; "PAYMENT_DUE_7_DAYS"; "PAYMENT_DUE_1_DAY"; "PAYMENT_OVERDUE";
   "INVOICE_COMPLETED"; "INVOICE_DEFAULTED"; "COLLATERAL_SEIZED"].

(** [s.replaceAll('_', ' ')]. *)
Definition spaced (s : string) : string :=
  str_map (λ c, if Ascii.eqb c "_" then " "%char else c) s.

Definition quote : string := String (ascii_of_nat 34) "".

(** [{ ...o, [k]: v }]. *)
Fixpoint obj_set (k : string) (v : jsval) (o : list (string * jsval)) : list (string * jsval) :=
  match o with
  | [] => [(k, v)]
  | (k', v') :: o' => if String.eqb k k' then (k', v) :: o' else (k', v') :: obj_set k v o'
  end.

(** [events.includes(event)]: on an array, a string, or something without it. *)
Definition js_includes (events event : jsval) : result bool :=
  match events with
  | JArr l => Ok (existsb (λ v, match v, event with JStr a, JStr b => String.eqb a b | _, _ => false end) l)
  | JStr s => Ok (includes (js_String event) s)
  | JUndef | JNull => Throw (ETypeError "Cannot read properties of nullish, reading includes")
  | _ => Throw (ETypeError "events.includes is not a function")
  end.

(** [Boolean(p.email?.enabled && p.email.events.includes(e))]. *)
Definition channel_wanted (preferences : jsval) (channel : string) (event : jsval) : result bool :=
  ch ← get_prop preferences channel;
  if nullish ch then Ok false
  else if truthy (get_prop_opt ch "enabled") then js_includes (get_prop_opt ch "events") event
  else Ok false.

Section delivery.
Context {St : Type} (env : string → option string) (URL : string → option ParsedURL)
  (lookup : string → M St (list (string * Z))) (fetch : string → HttpRequest → M St Z)
  (sleep : Z → M St unit) (randomUUID nowISO : M St string) (hmac : string → string → string).

Definition MAX_ATTEMPTS : nat := 3.

Definition webhookSecret : result string :=
  match env "NOTIFICATION_WEBHOOK_SECRET" with
  | Some secret => if String.eqb secret "" then Throw (EError "NOTIFICATION_WEBHOOK_SECRET is not configured")
                   else Ok secret
  | None => Throw (EError "NOTIFICATION_WEBHOOK_SECRET is not configured")
  end.

Definition html (payload : list (string * jsval)) (unsubscribeUrl : string) : string :=
  "<h1>Astera notification</h1><p>" +:+ spaced (js_String (obj_get payload "event"))
  +:+ "</p><p>Invoice: " +:+ js_String (js_coalesce (obj_get payload "invoiceId") (JStr "n/a"))
  +:+ "</p><p><a href=" +:+ quote +:+ unsubscribeUrl +:+ quote
  +:+ ">Unsubscribe from these notifications</a></p>".

(** The loop of [retry], from attempt [attempt] on; [left] attempts remain. *)
Fixpoint retry_from (operation : M St unit) (attempt : Z) (left : nat) (lastError : exn) : M St unit :=
  match left with
  | O => throw lastError
  | S left' =>
      λ s, match operation s with
      | (Ok _, s') => (Ok tt, s')
      | (Throw error, s') =>
          (_ ← (if attempt <? Z.of_nat MAX_ATTEMPTS - 1 then sleep (250 * 2 ^ attempt) else mret tt);
           retry_from operation (attempt + 1) left' error) s'
      end
  end.

Definition retry (operation : M St unit) : M St unit :=
  retry_from operation 0 MAX_ATTEMPTS (EError "undefined").

Definition ok (status : Z) : bool := (200 <=? status) && (status <=? 299).

Definition RESEND_URL : string := "https://api.resend.com/emails".

Definition email_request (apiKey : string) (payload : list (string * jsval)) : HttpRequest :=
  let appUrl := default "http://localhost:3000" (env "NEXT_PUBLIC_APP_URL") in
  let recipient := js_String (obj_get payload "recipient") in
  let unsubscribeUrl := appUrl +:+ "/settings/notifications?unsubscribe=" +:+ encodeURIComponent recipient in
  {| hr_method := "POST";
     hr_headers :=
       [("Authorization", "Bearer " +:+ apiKey); ("Content-Type", "application/json");
        ("Idempotency-Key",
          "invoice-event-" +:+ js_String (obj_get payload "event") +:+ "-"
          +:+ js_String (js_coalesce (obj_get payload "invoiceId") (JStr "none")) +:+ "-" +:+ recipient)];
     hr_body := JSON_stringify (JObj
       [("from", JStr (default "Astera <onboarding@resend.dev>" (env "NOTIFICATION_FROM_EMAIL")));
        ("to", JArr [obj_get payload "recipient"]);
        ("subject", JStr ("Astera: " +:+ spaced (js_String (obj_get payload "event"))));
        ("html", JStr (html payload unsubscribeUrl))]);
     hr_redirect := "follow" |}.

Definition sendEmail (payload : list (string * jsval)) : M St unit :=
  match env "RESEND_API_KEY" with
  | None => throw (EError "RESEND_API_KEY is not configured")
  | Some apiKey =>
      if String.eqb apiKey "" then throw (EError "RESEND_API_KEY is not configured")
      else
        status ← fetch RESEND_URL (email_request apiKey payload);
        if ok status then mret tt
        else throw (EError ("Email provider returned HTTP " +:+ pretty status))
  end.

Definition webhook_request (secret uuid now : string) (payload : list (string * jsval)) : HttpRequest :=
  let occurredAt := js_coalesce (obj_get payload "occurredAt") (JStr now) in
  let fields := foldl (λ o kv, obj_set kv.1 kv.2 o) [("id", JStr uuid)] payload in
  let body := JSON_stringify (JObj (obj_set "occurredAt" occurredAt fields)) in
  {| hr_method := "POST";
     hr_headers :=
       [("Content-Type", "application/json"); ("X-Astera-Signature", "sha256=" +:+ hmac secret body);
        ("X-Astera-Event", js_String (obj_get payload "event"))];
     hr_body := body;
     hr_redirect := "error" |}.

Definition sendWebhook (url : string) (payload : list (string * jsval)) : M St unit :=
  safe ← isSafeWebhookUrl URL lookup url;
  if negb safe then throw (EError "Invalid webhook URL")
  else
    uuid ← randomUUID;
    now ← nowISO;
    secret ← lift_result webhookSecret;
    status ← fetch url (webhook_request secret uuid now payload);
    if ok status then mret tt
    else throw (EError ("Webhook returned HTTP " +:+ pretty status)).

(** [{ email, webhook }]. *)
Definition deliverNotification (payload : list (string * jsval)) (preferences : jsval) : M St (bool * bool) :=
  let event := obj_get payload "event" in
  email ← lift_result (channel_wanted preferences "email" event);
  webhook ← lift_result (channel_wanted preferences "webhook" event);
  _ ← (if email : bool then retry (sendEmail payload) else mret tt);
  let url := get_prop_opt (get_prop_opt preferences "webhook") "url" in
  _ ← (if webhook && truthy url then retry (sendWebhook (js_String url) payload) else mret tt);
  mret (email, webhook).

(** ** POST /api/notifications/dispatch *)

Inductive DispatchReply :=
| DispatchError (status : Z) (error : string)
| Delivered (email webhook : bool).

(** The expected header, with the text of an unset variable. *)
Definition dispatch_authorization : string :=
  "Bearer " +:+ default "undefined" (env "NOTIFICATION_DISPATCH_TOKEN").

(** [authorization] is the request's header, [body] its decoded JSON, or the
    exception of decoding it. *)
Definition dispatch_POST (authorization : option string) (body : result jsval) : M St DispatchReply :=
  if negb (bool_decide (authorization = Some dispatch_authorization))
  then mret (DispatchError 401 "Unauthorized")
  else
    try_catch
      (body ← lift_result body;
       match get_prop_opt body "payload" with
       | JObj payload =>
           let event := obj_get payload "event" in
           if negb (truthy event) || negb (truthy (obj_get payload "recipient"))
           then mret (DispatchError 400 "payload.event and payload.recipient are required")
           else if negb (match event with JStr e => one_of DELIVERY_EVENTS e | _ => false end)
           then mret (DispatchError 400 "Unsupported notification event")
           else
             delivered ← deliverNotification payload (get_prop_opt body "preferences");
             mret (Delivered delivered.1 delivered.2)
       | _ => mret (DispatchError 400 "payload.event and payload.recipient are required")
       end)
      (λ e, mret (DispatchError 502 (exn_message e))).

End delivery.

(** ** POST /api/notifications/preferences *)

Record ChannelPreferences := { ch_enabled : bool; ch_target : string; ch_events : list jsval }.

Inductive PreferencesReply :=
| PreferencesError (status : Z) (error : string)
| Received (email webhook : ChannelPreferences).

(** [body?.email], with the name of its address field. *)
Definition channel_of (body : jsval) (channel target : string) : ChannelPreferences :=
  let ch := get_prop_opt body channel in {|
    ch_enabled := truthy (get_prop_opt ch "enabled");
    ch_target := match get_prop_opt ch target with JStr s => s | _ => "" end;
    ch_events := match get_prop_opt ch "events" with JArr l => l | _ => [] end |}.

Definition preferences_POST (body : result jsval) : PreferencesReply :=
  match body with
  | Throw _ => PreferencesError 400 "Invalid JSON body."
  | Ok body =>
      let email := channel_of body "email" "email" in
      let webhook := channel_of body "webhook" "url" in
      if ch_enabled email && String.eqb (ch_target email) ""
      then PreferencesError 400 "Email is required when email notifications are enabled."
      else if ch_enabled webhook && String.eqb (ch_target webhook) ""
      then PreferencesError 400 "Webhook URL is required when webhook forwarding is enabled."
      else Received email webhook
  end.

(** ** What a dispatch sends *)
Section safety.
Context {St : Type} (env : string → option string) (URL : string → option ParsedURL)
  (lookup : string → M St (list (string * Z))) (fetch : string → HttpRequest → M St Z)
  (sleep : Z → M St unit) (randomUUID nowISO : M St string) (hmac : string → string → string).

(** The request of a webhook: its body is signed with the configured secret, and it
    follows no redirection, which could lead to a URL that was not checked. *)
Definition signed_webhook (rq : HttpRequest) : Prop :=
  hr_method rq = "POST" ∧ hr_redirect rq = "error" ∧
  ∃ secret, webhookSecret env = Ok secret ∧
    header "X-Astera-Signature" rq = Some ("sha256=" +:+ hmac secret (hr_body rq)).

(** [I] is a property of the state that everything but a fetch of another kind keeps.
    [passed url] is what a check of the URL leaves true when it answers yes; only the
    drawing of an id and the reading of the clock may come between the check and the
    call, which may rely on it. *)
Record only_checked (I : St → Prop) (passed : string → St → Prop) : Prop := {
  oc_lookup : ∀ h, keeps I (lookup h);
  oc_sleep : ∀ ms, keeps I (sleep ms);
  oc_check : ∀ url s s', I s → isSafeWebhookUrl URL lookup url s = (Ok true, s') → passed url s';
  oc_uuid : ∀ url, triple (λ s, I s ∧ passed url s) randomUUID (λ _ s, I s ∧ passed url s) I;
  oc_now : ∀ url, triple (λ s, I s ∧ passed url s) nowISO (λ _ s, I s ∧ passed url s) I;
  oc_email : ∀ apiKey payload, keeps I (fetch RESEND_URL (email_request env apiKey payload));
  oc_webhook : ∀ url rq, signed_webhook rq → triple (λ s, I s ∧ passed url s) (fetch url rq) (λ _, I) I }.

Lemma isSafeWebhookUrl_keeps I passed url : only_checked I passed →
  triple I (isSafeWebhookUrl URL lookup url) (λ safe s', I s' ∧ (safe = true → passed url s')) I.
Proof.
  intros HI s Hs. assert (keeps I (isSafeWebhookUrl URL lookup url)) as Hk
    by (unfold isSafeWebhookUrl; keep_steps; apply (oc_lookup _ _ HI)).
  specialize (Hk s Hs). destruct (isSafeWebhookUrl URL lookup url s) as [[[]|e] s'] eqn:E;
    [|by split|done]. split; [done|]. intros _. by apply (oc_check _ _ HI _ _ _ Hs E).
Qed.

Lemma retry_from_keeps I operation attempt left e :
  (∀ ms, keeps I (sleep ms)) → keeps I operation →
  keeps I (retry_from sleep operation attempt left e).
Proof.
  intros Hs Ho. revert attempt e. induction left as [|left IH]; intros attempt e; cbn [retry_from];
    [apply keeps_throw|].
  intros s HI. specialize (Ho s HI). destruct (operation s) as [[[]|e'] s'] eqn:E; [done|].
  revert s' Ho E. intros s' Ho _. revert s' Ho. apply keeps_bind; [|intros _; apply IH].
  case_match; [apply Hs|apply keeps_ret].
Qed.

Lemma sendEmail_keeps I passed payload : only_checked I passed → keeps I (sendEmail env fetch payload).
Proof. intros HI. unfold sendEmail. keep_steps; try apply (oc_email _ _ HI). Qed.

Lemma sendWebhook_keeps I passed url payload : only_checked I passed →
  keeps I (sendWebhook env URL lookup fetch randomUUID nowISO hmac url payload).
Proof.
  intros HI. unfold sendWebhook. eapply triple_bind; [by apply (isSafeWebhookUrl_keeps _ passed)|]. intros safe.
  destruct safe; cbn [negb]; [|intros s [Hs _]; exact Hs].
  apply (triple_conseq _ (λ s, I s ∧ passed url s) _ _ (λ _, I) _ I); [|intros s [Hs Hp]; split; [done|by apply Hp]|done|done].
  apply (triple_bind _ _ (λ _ s, I s ∧ passed url s)); [apply (oc_uuid _ _ HI)|]. intros uuid.
  apply (triple_bind _ _ (λ _ s, I s ∧ passed url s)); [apply (oc_now _ _ HI)|]. intros now.
  destruct (webhookSecret env) as [secret|e] eqn:Esec; [|by intros s [Hs _]].
  match goal with |- triple _ (_ ≫= ?f) _ _ => change (triple (λ s, I s ∧ passed url s) (f secret) (λ _, I) I) end.
  apply (triple_bind _ _ (λ _, I)); [|intros status; destruct (ok status); [apply keeps_ret|apply keeps_throw]].
  apply (oc_webhook _ _ HI). split; [done|]. split; [done|]. exists secret. by split.
Qed.

Lemma deliverNotification_keeps I passed payload preferences : only_checked I passed →
  keeps I (deliverNotification env URL lookup fetch sleep randomUUID nowISO hmac payload preferences).
Proof.
  intros HI. pose proof (oc_sleep _ _ HI) as Hs. unfold deliverNotification. keep_steps.
  - apply retry_from_keeps; [done|by apply (sendEmail_keeps I passed)].
  - apply retry_from_keeps; [done|by apply (sendWebhook_keeps I passed)].
Qed.

(** C28. Whatever a dispatch request holds, the only calls the service makes are of the
    email provider with the mail of the payload, and of webhook URLs, each of which
    passed the destination check just before, in the same attempt, with a body signed
    with the configured secret and following no redirection: any property of the state
    that such calls keep survives every request, with its retries and failures. *)
Theorem dispatch_calls_checked I passed authorization body : only_checked I passed →
  keeps I (dispatch_POST env URL lookup fetch sleep randomUUID nowISO hmac authorization body).
Proof.
  intros HI. pose proof (λ p q, deliverNotification_keeps I passed p q HI) as Hd.
  unfold dispatch_POST. keep_steps.
Qed.

(** Past the check, the reply is of another kind. *)
Lemma dispatch_replies body :
  triple (λ _ : St, True)
    (dispatch_POST env URL lookup fetch sleep randomUUID nowISO hmac
       (Some (dispatch_authorization env)) body)
    (λ r _, r ≠ DispatchError 401 "Unauthorized") (λ _, False).
Proof.
  unfold dispatch_POST. rewrite bool_decide_true by done. cbn [negb].
  apply (triple_try_catch _ _ _ _ (λ _, True)); [|intros e; by apply triple_ret'].
  apply (triple_bind _ _ (λ _ _, True)); [apply triple_True|]. intros decoded.
  repeat case_match; try by apply triple_ret'.
  all: apply (triple_bind _ _ (λ _ _, True)); [apply triple_True|intros delivered; by apply triple_ret'].
Qed.

(** A dispatch is refused, and does nothing, exactly when its authorization
    header is not "Bearer " and the configured token. When the token is not
    configured, that is the text "undefined": anyone who sends "Bearer undefined"
    gets past the check. *)
Theorem dispatch_guard authorization body s :
  let POST := dispatch_POST env URL lookup fetch sleep randomUUID nowISO hmac authorization body s in
  (authorization ≠ Some (dispatch_authorization env) → POST = (Ok (DispatchError 401 "Unauthorized"), s))
  ∧ (authorization = Some (dispatch_authorization env) →
       ∃ reply, POST.1 = Ok reply ∧ reply ≠ DispatchError 401 "Unauthorized")
  ∧ (env "NOTIFICATION_DISPATCH_TOKEN" = None → dispatch_authorization env = "Bearer undefined").
Proof.
  cbv zeta. split; [|split].
  - intros Hne. unfold dispatch_POST. by rewrite bool_decide_false.
  - intros ->. generalize (dispatch_replies body s I).
    destruct (dispatch_POST _ _ _ _ _ _ _ _ _ _ s) as [[r|e] s']; [|done]. intros Hr. by exists r.
  - intros Henv. unfold dispatch_authorization. by rewrite Henv.
Qed.
End safety.
