(* ===== verification/Csrf.v ===== *)
(** * frontend: the CSRF double-submit check

    middleware.ts, which guards every mutating /api route and mints the token
    cookie, and lib/csrf.ts, the browser side that echoes the cookie as a
    header. Header names are in lower case. *)
From S2P Require Import Prelude.
From S2P Require Import JsMap.
From Stdlib Require Import Ascii.
#[local] Open Scope string_scope.
#[local] Open Scope list_scope.
#[local] Open Scope Z_scope.

(** ** middleware.ts *)

Definition CSRF_COOKIE : string := "csrf_token".
Definition CSRF_HEADER : string := "x-csrf-token".
Definition MUTATING_METHODS : list string := ["POST"; "PUT"; "PATCH"; "DELETE"].
Definition WALLET_SIGNATURE_EXEMPT : list string := ["/api/auth/challenge"; "/api/auth/token"].
Definition SUPPORTED_LOCALES : list string := ["en"; "fr"; "es"].

(** What the middleware reads of a request. *)
Record NextRequest := {
  rq_method : string;
  rq_pathname : string;
  rq_cookie : string → option string;
  rq_header : string → option string
}.

(** [response.cookies.set(name, value, { ... })]; every cookie is set with
    [sameSite: 'lax'] and [path: '/']. *)
Record SetCookie := {
  ck_name : string;
  ck_value : string;
  ck_maxAge : option Z;
  ck_httpOnly : option bool;
  ck_secure : option bool
}.

(** The 403 reply, or [NextResponse.next()] with the cookies it sets. *)
Inductive MiddlewareReply :=
| InvalidCsrfToken
| Next (cookies : list SetCookie).

(** [uuid.replace(/-/g, '')]. *)
Fixpoint remove_char (c : ascii) (s : string) : string :=
  match s with
  | EmptyString => EmptyString
  | String c' s' => if Ascii.eqb c c' then remove_char c s' else String c' (remove_char c s')
  end.

(** From the two UUIDs it draws. *)
Definition generateToken (uuid1 uuid2 : string) : string :=
  remove_char "-" uuid1 +:+ remove_char "-" uuid2.

Definition extractLocaleFromPath (pathname : string) : option string :=
  match filter (λ s, s ≠ "") (split_char "/" pathname) with
  | s :: _ => if one_of SUPPORTED_LOCALES s then Some s else None
  | [] => None
  end.

(** [headerToken && cookieToken && headerToken === cookieToken]. *)
Definition tokens_match (header cookie : option string) : bool :=
  match header, cookie with
  | Some h, Some c => negb (String.eqb h "") && negb (String.eqb c "") && String.eqb h c
  | _, _ => false
  end.

Definition csrf_protected (method pathname : string) : bool :=
  startsWith "/api/" pathname && one_of MUTATING_METHODS method
  && negb (one_of WALLET_SIGNATURE_EXEMPT pathname).

Definition middleware (env : string → option string) (uuid1 uuid2 : string) (request : NextRequest)
  : MiddlewareReply :=
  let cookieToken := rq_cookie request CSRF_COOKIE in
  let pathLocale := extractLocaleFromPath (rq_pathname request) in
  let localeCookie := rq_cookie request "NEXT_LOCALE" in
  if csrf_protected (rq_method request) (rq_pathname request)
     && negb (tokens_match (rq_header request CSRF_HEADER) cookieToken)
  then InvalidCsrfToken
  else Next (
    match pathLocale with
    | Some l => if bool_decide (localeCookie = Some l) then [] else
        [{| ck_name := "NEXT_LOCALE"; ck_value := l; ck_maxAge := Some 31536000;
            ck_httpOnly := None; ck_secure := None |}]
    | None => []
    end ++
    if match cookieToken with Some t => negb (String.eqb t "") | None => false end then [] else
      [{| ck_name := CSRF_COOKIE; ck_value := generateToken uuid1 uuid2; ck_maxAge := None;
          ck_httpOnly := Some false;
          ck_secure := Some (bool_decide (env "NODE_ENV" = Some "production")) |}]).

(** ** lib/csrf.ts *)

(** The captured value: what follows the name, up to the next semicolon. *)
Fixpoint cookie_value (s : string) : string :=
  match s with
  | String c s' => if Ascii.eqb c ";" then "" else String c (cookie_value s')
  | EmptyString => ""
  end.

(** The leftmost match of the pattern: the name and an equals sign, at the start
    of the text or after a semicolon and a space, and the value captured there.
    [start] says that the text begins here. *)
Fixpoint match_cookie (start : bool) (s : string) : option string :=
  if start && startsWith "csrf_token=" s then Some (cookie_value (str_drop 11 s))
  else if startsWith "; csrf_token=" s then Some (cookie_value (str_drop 13 s))
  else match s with
       | String _ s' => match_cookie false s'
       | EmptyString => None
       end.

Definition hex_val (c : ascii) : option nat :=
  let n := nat_of_ascii c in
  if ((48 <=? n) && (n <=? 57))%nat then Some (n - 48)%nat
  else if ((97 <=? n) && (n <=? 102))%nat then Some (n - 87)%nat
  else if ((65 <=? n) && (n <=? 70))%nat then Some (n - 55)%nat
  else None.

(** The characters of an encoded text: as they are, or the bytes of escapes. *)
Inductive uri_char := Plain (c : ascii) | Escaped (byte : nat).

Fixpoint uri_chars (s : string) : option (list uri_char) :=
  match s with
  | EmptyString => Some []
  | String c s' =>
      if Ascii.eqb c "%" then
        match s' with
        | String h (String l s'') =>
            a ← hex_val h; b ← hex_val l; cons (Escaped (16 * a + b)) <$> uri_chars s''
        | _ => None
        end
      else cons (Plain c) <$> uri_chars s'
  end.

(** The escaped bytes are whole UTF-8 sequences; [more] bytes of the current one
    are missing, the next of them from [lo] to [hi]. *)
Fixpoint utf8_valid (more lo hi : nat) (l : list uri_char) : bool :=
  match l with
  | [] => (more =? 0)%nat
  | Plain _ :: l' => (more =? 0)%nat && utf8_valid 0 0 0 l'
  | Escaped n :: l' =>
      (if (more =? 0)%nat then
        if n <? 128 then utf8_valid 0 0 0 l'
        else if (194 <=? n) && (n <=? 223) then utf8_valid 1 128 191 l'
        else if n =? 224 then utf8_valid 2 160 191 l'
        else if n =? 237 then utf8_valid 2 128 159 l'
        else if (225 <=? n) && (n <=? 239) then utf8_valid 2 128 191 l'
        else if n =? 240 then utf8_valid 3 144 191 l'
        else if n =? 244 then utf8_valid 3 128 143 l'
        else if (241 <=? n) && (n <=? 243) then utf8_valid 3 128 191 l'
        else false
      else (lo <=? n) && (n <=? hi) && utf8_valid (more - 1) 128 191 l')%nat
  end.

(** [decodeURIComponent(s)]; a character above ASCII is its UTF-8 bytes. *)
Definition decodeURIComponent (s : string) : result string :=
  match uri_chars s with
  | Some l =>
      if utf8_valid 0 0 0 l
      then Ok (String.string_of_list_ascii (map (λ u, match u with Plain c => c | Escaped n => ascii_of_nat n end) l))
      else Throw (EError "URI malformed")
  | None => Throw (EError "URI malformed")
  end.

(** In a browser, whose [document.cookie] is [cookie]. *)
Definition getCsrfToken (cookie : string) : result (option string) :=
  match match_cookie true cookie with
  | Some v => Some <$> decodeURIComponent v
  | None => Ok None
  end.

(** The headers [csrfFetch(input, { headers })] sends. *)
Definition csrfFetch_headers (cookie : string) (headers : list (string * string))
  : result (list (string * string)) :=
  token ← getCsrfToken cookie;
  Ok match token with
     | Some t => if String.eqb t "" then headers else jm_set CSRF_HEADER t headers
     | None => headers
     end.

(** ** A browser and the middleware *)

(** [document.cookie] of a cookie jar. *)
Definition document_cookie (jar : list (string * string)) : string :=
  String.concat "; " (map (λ c, c.1 +:+ "=" +:+ c.2) jar).

(** The request [csrfFetch] sends, with the jar's cookies. *)
Definition csrf_request (jar : list (string * string)) (method pathname : string)
    (headers : list (string * string)) : result NextRequest :=
  headers' ← csrfFetch_headers (document_cookie jar) headers;
  Ok {| rq_method := method; rq_pathname := pathname;
        rq_cookie k := jm_get k jar; rq_header k := jm_get k headers' |}.

(** ** Properties *)

(** What a text without a semicolon holds is skipped. *)
Definition no_char (c : ascii) (s : string) : bool := str_forallb (λ x, negb (Ascii.eqb x c)) s.

Lemma no_char_append c s t : no_char c (s +:+ t) = no_char c s && no_char c t.
Proof.
  unfold no_char. induction s as [|x s IH]; [done|]. rewrite append_cons. cbn [str_forallb].
  by rewrite IH, andb_assoc.
Qed.

Lemma startsWith_cons c p x s : startsWith (String c p) (String x s) = Ascii.eqb c x && startsWith p s.
Proof.
  unfold startsWith. cbn -[ascii_dec]. destruct (ascii_dec c x) as [->|Hne].
  - by rewrite Ascii.eqb_refl.
  - by destruct (Ascii.eqb_spec c x).
Qed.

Lemma match_cookie_skip s t : no_char ";" s = true → match_cookie false (s +:+ t) = match_cookie false t.
Proof.
  unfold no_char. induction s as [|c s IH]; [done|]. cbn [str_forallb]. intros [Hc Hs]%andb_prop.
  rewrite append_cons. cbn -[startsWith]. rewrite startsWith_cons, Ascii.eqb_sym.
  apply negb_true_iff in Hc. rewrite Hc. cbn [andb]. by apply IH.
Qed.

(** A cookie's name ends at its equals sign. *)
Lemma startsWith_name name name' rest :
  no_char "=" name = true → no_char "=" name' = true →
  startsWith (name +:+ "=") (name' +:+ "=" +:+ rest) = String.eqb name name'.
Proof.
  unfold no_char. revert name'. induction name as [|c name IH]; intros [|c' name'];
    cbn [str_forallb]; rewrite ?andb_true_iff; intros H1 H2; rewrite ?append_cons, ?append_empty.
  - apply (startsWith_app "=").
  - rewrite startsWith_cons. destruct H2 as [H2 _]. apply negb_true_iff in H2.
    rewrite Ascii.eqb_sym, H2. done.
  - rewrite startsWith_cons. destruct H1 as [H1 _]. apply negb_true_iff in H1. by rewrite H1.
  - rewrite startsWith_cons, IH by tauto. cbn. by destruct (Ascii.eqb c c').
Qed.

Lemma str_drop_append s t : str_drop (String.length s) (s +:+ t) = t.
Proof. induction s as [|c s IH]; [by destruct t|]. by rewrite append_cons. Qed.

Lemma cookie_value_stop v rest : no_char ";" v = true →
  cookie_value (v +:+ rest) = v +:+ cookie_value rest.
Proof.
  unfold no_char. induction v as [|c v IH]; [done|]. cbn [str_forallb]. intros [Hc Hv]%andb_prop.
  apply negb_true_iff in Hc. rewrite append_cons. cbn [cookie_value]. by rewrite Hc, IH.
Qed.

(** A jar as browsers keep it: no semicolon in a cookie, no equals sign in a name. *)
Definition jar_wf (jar : list (string * string)) : Prop :=
  Forall (λ c, no_char ";" c.1 = true ∧ no_char ";" c.2 = true ∧ no_char "=" c.1 = true) jar.

(** The rest of [document.cookie] after a cookie. *)
Definition cookies_after (jar : list (string * string)) : string :=
  match jar with [] => "" | _ => "; " +:+ document_cookie jar end.

Lemma document_cookie_cons c jar :
  document_cookie (c :: jar) = c.1 +:+ "=" +:+ c.2 +:+ cookies_after jar.
Proof.
  destruct jar as [|c' jar]; unfold cookies_after.
  - by rewrite append_nil_r.
  - change (document_cookie (c :: c' :: jar))
      with ((c.1 +:+ "=" +:+ c.2) +:+ "; " +:+ document_cookie (c' :: jar)).
    by rewrite <-!append_assoc.
Qed.

Lemma cookie_value_after jar : cookie_value (cookies_after jar) = "".
Proof. by destruct jar. Qed.

Lemma match_cookie_start s :
  match_cookie true s
  = if startsWith "csrf_token=" s then Some (cookie_value (str_drop 11 s)) else match_cookie false s.
Proof. by destruct s. Qed.

Lemma match_cookie_next s :
  match_cookie false ("; " +:+ s)
  = if startsWith "csrf_token=" s then Some (cookie_value (str_drop 11 s)) else match_cookie false s.
Proof.
  rewrite !append_cons, append_empty. cbn -[startsWith str_drop]. rewrite !startsWith_cons. cbn -[startsWith str_drop].
  done.
Qed.

(** The pattern finds the first cookie of its name. *)
Lemma match_cookie_jar jar : jar_wf jar →
  match_cookie false (cookies_after jar) = jm_get CSRF_COOKIE jar
  ∧ match_cookie true (document_cookie jar) = jm_get CSRF_COOKIE jar.
Proof.
  induction 1 as [|[name v] jar (Hn&Hv&He) Hjar [IH _]]; [done|]. cbn [fst snd] in *.
  assert (startsWith "csrf_token=" (name +:+ "=" +:+ v +:+ cookies_after jar)
    = String.eqb CSRF_COOKIE name) as Hs by (by apply (startsWith_name CSRF_COOKIE)).
  assert (String.eqb CSRF_COOKIE name = true →
    cookie_value (str_drop 11 (name +:+ "=" +:+ v +:+ cookies_after jar)) = v) as Hval.
  { intros <-%String.eqb_eq. rewrite append_assoc.
    rewrite (str_drop_append (CSRF_COOKIE +:+ "=")), cookie_value_stop, cookie_value_after by done.
    apply append_nil_r. }
  assert (no_char ";" (name +:+ "=" +:+ v) = true) as Hno.
  { rewrite !no_char_append, Hn, Hv. done. }
  assert (match_cookie false (name +:+ "=" +:+ v +:+ cookies_after jar) = jm_get CSRF_COOKIE jar) as Hrest.
  { rewrite !append_assoc, <-(append_assoc name), match_cookie_skip; done. }
  change (cookies_after ((name, v) :: jar)) with ("; " +:+ document_cookie ((name, v) :: jar)).
  rewrite match_cookie_next, match_cookie_start, document_cookie_cons. cbn [jm_get fst snd].
  rewrite Hs, Hrest. destruct (String.eqb CSRF_COOKIE name); [|done]. by rewrite Hval.
Qed.

(** A token without escapes is read as it is. *)
Lemma decodeURIComponent_plain s : no_char "%" s = true → decodeURIComponent s = Ok s.
Proof.
  intros Hs. assert (uri_chars s = Some (map Plain (String.list_ascii_of_string s))) as E.
  { unfold no_char in Hs. induction s as [|c s IH]; [done|]. cbn [str_forallb] in Hs.
    apply andb_prop in Hs as [Hc%negb_true_iff Hs]. cbn [uri_chars]. by rewrite Hc, IH. }
  unfold decodeURIComponent. rewrite E.
  assert (∀ l, utf8_valid 0 0 0 (map Plain l) = true) as -> by (intros l; by induction l).
  rewrite map_map, map_id. by rewrite String.string_of_list_ascii_of_string.
Qed.

(** ** Properties *)

Lemma tokens_match_spec header cookie :
  tokens_match header cookie = true ↔ ∃ t, t ≠ "" ∧ header = Some t ∧ cookie = Some t.
Proof.
  split.
  - intros H. destruct header as [h|], cookie as [c|]; try done. cbn in H. bool_props. subst. eauto.
  - intros (t&Ht%String.eqb_neq&->&->). cbn. by rewrite Ht, String.eqb_refl.
Qed.

(** The middleware refuses a request exactly when it is a mutating call of an
    /api route other than the two wallet-signature ones and its token header is
    not the non-empty value of its token cookie. What it lets through gets a token
    cookie when it had none, and no other value is ever set for it. *)
Theorem middleware_csrf env uuid1 uuid2 request :
  (middleware env uuid1 uuid2 request = InvalidCsrfToken ↔
     startsWith "/api/" (rq_pathname request) = true ∧ rq_method request ∈ MUTATING_METHODS
     ∧ rq_pathname request ∉ WALLET_SIGNATURE_EXEMPT
     ∧ ¬ ∃ t, t ≠ "" ∧ rq_header request CSRF_HEADER = Some t ∧ rq_cookie request CSRF_COOKIE = Some t)
  ∧ (∀ cookies, middleware env uuid1 uuid2 request = Next cookies →
       filter (λ c, ck_name c = CSRF_COOKIE) cookies
       = match rq_cookie request CSRF_COOKIE with
         | Some (String _ _) => []
         | _ => [{| ck_name := CSRF_COOKIE; ck_value := generateToken uuid1 uuid2; ck_maxAge := None;
                    ck_httpOnly := Some false;
                    ck_secure := Some (bool_decide (env "NODE_ENV" = Some "production")) |}]
         end).
Proof.
  rewrite <-tokens_match_spec, <-!one_of_In. unfold middleware, csrf_protected. split.
  - destruct (startsWith _ _), (one_of MUTATING_METHODS _), (one_of WALLET_SIGNATURE_EXEMPT _),
      (tokens_match _ _); cbn [andb negb]; split; try done; intros; naive_solver.
  - intros cookies. destruct (_ && negb _); [done|]. intros [= <-]. rewrite filter_app.
    replace (filter _ _) with (@nil SetCookie) at 1 by (by repeat case_match).
    by destruct (rq_cookie request CSRF_COOKIE) as [[|c t]|].
Qed.

(** The browser side satisfies the check: from a cookie jar that holds a token
    the middleware minted, [csrfFetch] reads it out of [document.cookie] and sends
    it back, and no request it makes is refused. *)
Theorem csrf_roundtrip env uuid1 uuid2 jar method pathname headers :
  jar_wf jar → jm_get CSRF_COOKIE jar = Some (generateToken uuid1 uuid2) →
  generateToken uuid1 uuid2 ≠ "" → no_char "%" (uuid1 +:+ uuid2) = true →
  ∃ request, csrf_request jar method pathname headers = Ok request
    ∧ ∀ uuid1' uuid2', middleware env uuid1' uuid2' request ≠ InvalidCsrfToken.
Proof.
  intros Hjar Hget Hne Hpct. pose proof (match_cookie_jar jar Hjar) as [_ Hmatch].
  assert (no_char "%" (generateToken uuid1 uuid2) = true) as Hplain.
  { revert Hpct. unfold generateToken. rewrite !no_char_append, !andb_true_iff.
    assert (∀ s, no_char "%" s = true → no_char "%" (remove_char "-" s) = true) as Hrm; [|naive_solver].
    unfold no_char. induction s as [|c s IH]; [done|]. cbn [str_forallb remove_char].
    intros [Hc Hs]%andb_prop. case_match; cbn [str_forallb]; [auto|]. by rewrite Hc, IH. }
  unfold csrf_request, csrfFetch_headers, getCsrfToken. rewrite Hmatch, Hget, decodeURIComponent_plain by done.
  apply String.eqb_neq in Hne as Hne'. cbn [mbind result_bind fmap result_map]. rewrite Hne'. eexists; split; [done|].
  intros u1 u2. unfold middleware. cbn [rq_header rq_cookie rq_method rq_pathname].
  rewrite jm_get_set_eq, Hget, (proj2 (tokens_match_spec _ _)) by eauto. by rewrite andb_false_r.
Qed.

Example minted : getCsrfToken "a=1; csrf_token=0f%20; b=csrf_token=2" = Ok (Some "0f ").
Proof. by vm_compute. Qed.

Example not_minted : getCsrfToken "xcsrf_token=1" = Ok None.
Proof. by vm_compute. Qed.
