(* ===== verification/Auth.v ===== *)
(** * frontend: sign-in and event-stream tickets

    The SEP-10 routes of app/api/auth (challenge, token, me, sse-ticket) and
    lib/sse/ticketStore.ts, the tickets that open an event stream. The
    stellar-sdk and jose calls are operations of the section; times are in
    milliseconds, as [Date.now()] gives them, and are arguments. *)
From S2P Require Import Prelude.
From S2P Require Import JsValue.
From S2P Require Import JsNumber.
From S2P Require Import JsArith.
From S2P Require Import JsMap.
From S2P Require Import Hex.
From Stdlib Require Import Ascii.
#[local] Open Scope string_scope.
#[local] Open Scope list_scope.
#[local] Open Scope Z_scope.

(** ** lib/sse/ticketStore.ts *)
Module Tickets.

Record Ticket := { tk_account : string; tk_expiresAt : Z }.

(** The [Map], in insertion order. *)
Abbreviation store := (list (string * Ticket)).

Definition TICKET_TTL_SECONDS : Z := 300.

(** The callback of [setInterval], every minute. *)
Definition sweep (now : Z) (tickets : store) : store :=
  filter (λ t, negb (tk_expiresAt t.2 <=? now)) tickets.

(** The bytes in hexadecimal, joined. *)
Definition generateTicket (bytes : list nat) : string := hex_bytes bytes.

(** [bytes] are what [getRandomValues] drew. *)
Definition createTicket (now : Z) (bytes : list nat) (account : string) (tickets : store)
  : (string * Z) * store :=
  let ticket := generateTicket bytes in
  let expiresAt := now + TICKET_TTL_SECONDS * 1000 in
  ((ticket, TICKET_TTL_SECONDS),
   jm_set ticket {| tk_account := account; tk_expiresAt := expiresAt |} tickets).

Definition consumeTicket (now : Z) (ticket : string) (tickets : store) : option string * store :=
  match jm_get ticket tickets with
  | None => (None, tickets)
  | Some data =>
      if tk_expiresAt data <=? now then (None, jm_delete ticket tickets)
      else (Some (tk_account data), jm_delete ticket tickets)
  end.

Definition validateTicket (now : Z) (ticket : string) (tickets : store) : option string * store :=
  match jm_get ticket tickets with
  | None => (None, tickets)
  | Some data =>
      if tk_expiresAt data <=? now then (None, jm_delete ticket tickets)
      else (Some (tk_account data), tickets)
  end.

(** *** What the store promises

    The calls of the process, each at its time. *)
Inductive call :=
| Sweep (now : Z)
| Create (now : Z) (bytes : list nat) (account : string)
| Consume (now : Z) (ticket : string)
| Validate (now : Z) (ticket : string).

Definition call_time (c : call) : Z :=
  match c with Sweep t | Create t _ _ | Consume t _ | Validate t _ => t end.

Definition run_call (tickets : store) (c : call) : store :=
  match c with
  | Sweep now => sweep now tickets
  | Create now bytes account => (createTicket now bytes account tickets).2
  | Consume now ticket => (consumeTicket now ticket tickets).2
  | Validate now ticket => (validateTicket now ticket tickets).2
  end.

Definition run_calls (calls : list call) : store := foldl run_call [] calls.

(** The issue of a ticket that no call has used yet: of the calls that name it,
    only the creations and the uses matter. *)
Definition outstanding (ticket : string) (calls : list call) : option Ticket :=
  foldl (λ o c,
    match c with
    | Create now bytes account =>
        if String.eqb ticket (generateTicket bytes)
        then Some {| tk_account := account; tk_expiresAt := now + TICKET_TTL_SECONDS * 1000 |} else o
    | Consume _ t => if String.eqb ticket t then None else o
    | Sweep _ | Validate _ _ => o
    end) None calls.

(** A ticket still valid at [now]. *)
Definition live (now : Z) (o : option Ticket) : option Ticket :=
  match o with
  | Some t => if tk_expiresAt t <=? now then None else Some t
  | None => None
  end.

Lemma sweep_get now k tickets : jm_wf tickets → jm_get k (sweep now tickets) = live now (jm_get k tickets).
Proof.
  unfold jm_wf, sweep. induction tickets as [|[k' t] l IH]; [done|]. intros [Hk Hl]%NoDup_cons.
  specialize (IH Hl). apply jm_get_None in Hk. cbn [fst] in Hk. rewrite filter_cons. cbn [jm_get fst snd].
  destruct (tk_expiresAt t <=? now) eqn:E; cbn [negb].
  - rewrite decide_False by (intros []). rewrite IH. destruct (String.eqb k k') eqn:Ek; [|done].
    apply String.eqb_eq in Ek as ->. cbn [live]. by rewrite E, Hk.
  - rewrite decide_True by done. cbn [jm_get]. rewrite IH. destruct (String.eqb k k'); [|done].
    cbn [live]. by rewrite E.
Qed.

Lemma sweep_wf now tickets : jm_wf tickets → jm_wf (sweep now tickets).
Proof.
  unfold jm_wf, jm_keys, sweep. intros H. eapply sublist_NoDup; [exact H|]. apply fmap_sublist, sublist_filter.
Qed.

Lemma live_later now now' o : now ≤ now' → live now' (live now o) = live now' o.
Proof.
  intros Hn. destruct o as [t|]; [|done]. cbn. destruct (Z.leb_spec (tk_expiresAt t) now); cbn; [|done].
  by rewrite (proj2 (Z.leb_le _ _)) by lia.
Qed.

Lemma live_consume now ticket tickets :
  (consumeTicket now ticket tickets).1 = tk_account <$> live now (jm_get ticket tickets).
Proof. unfold consumeTicket, live. by repeat case_match. Qed.

Lemma live_validate now ticket tickets :
  (validateTicket now ticket tickets).1 = tk_account <$> live now (jm_get ticket tickets).
Proof. unfold validateTicket, live. by repeat case_match. Qed.

Lemma consume_get now ticket k tickets :
  jm_get k (consumeTicket now ticket tickets).2 = if String.eqb k ticket then None else jm_get k tickets.
Proof.
  unfold consumeTicket. destruct (String.eqb_spec k ticket) as [->|Hne].
  - destruct (jm_get ticket tickets) as [t|] eqn:E; [|done]. case_match; apply jm_get_delete_eq.
  - destruct (jm_get ticket tickets) as [t|] eqn:E; [|done]. case_match; by apply jm_get_delete_ne.
Qed.

Lemma validate_get now now' ticket k tickets : now ≤ now' →
  live now' (jm_get k (validateTicket now ticket tickets).2) = live now' (jm_get k tickets).
Proof.
  intros Hn. unfold validateTicket. destruct (jm_get ticket tickets) as [t|] eqn:E; [|done].
  destruct (Z.leb_spec (tk_expiresAt t) now); [|done]. cbn.
  destruct (decide (ticket = k)) as [->|Hne]; [|by rewrite jm_get_delete_ne].
  rewrite jm_get_delete_eq, E. cbn. by rewrite (proj2 (Z.leb_le _ _)) by lia.
Qed.

(** Every call keeps the keys of the store distinct. *)
Lemma run_call_wf tickets c : jm_wf tickets → jm_wf (run_call tickets c).
Proof.
  intros H. destruct c as [now|now bytes account|now ticket|now ticket]; cbn.
  - by apply sweep_wf.
  - by apply jm_wf_set.
  - unfold consumeTicket. repeat case_match; try done; by apply jm_wf_delete.
  - unfold validateTicket. repeat case_match; try done; by apply jm_wf_delete.
Qed.

Lemma run_calls_snoc calls c : run_calls (calls ++ [c]) = run_call (run_calls calls) c.
Proof. unfold run_calls. by rewrite foldl_app. Qed.

Lemma run_calls_wf calls : jm_wf (run_calls calls).
Proof.
  induction calls as [|c calls IH] using rev_ind; [constructor|].
  rewrite run_calls_snoc. by apply run_call_wf.
Qed.

(** The store and the specification agree on what is valid from now on. *)
Lemma run_calls_live calls ticket now :
  Forall (λ c, call_time c ≤ now) calls →
  live now (jm_get ticket (run_calls calls)) = live now (outstanding ticket calls).
Proof.
  induction calls as [|c calls IH] using rev_ind; [done|].
  intros [Hcalls Hc]%Forall_app. specialize (IH Hcalls). apply Forall_cons in Hc as [Hc _].
  rewrite run_calls_snoc. unfold outstanding in *. rewrite foldl_app. cbn [foldl].
  destruct c as [t|t bytes account|t k|t k]; cbn [run_call createTicket snd call_time] in *.
  - rewrite sweep_get by apply run_calls_wf. by rewrite live_later.
  - destruct (String.eqb_spec ticket (generateTicket bytes)) as [->|Hne].
    + by rewrite jm_get_set_eq.
    + by rewrite jm_get_set_ne.
  - rewrite consume_get. by destruct (String.eqb ticket k).
  - by rewrite validate_get.
Qed.

(** C25. The ticket store implements single-use tickets that live five minutes:
    whatever calls came before, in whatever order and however often the sweep ran,
    a ticket is accepted exactly while its last issue is unused and younger than
    300 seconds, for the account it was issued to; and using it again is refused. *)
Theorem tickets_single_use calls now ticket :
  Forall (λ c, call_time c ≤ now) calls →
  (consumeTicket now ticket (run_calls calls)).1 = tk_account <$> live now (outstanding ticket calls)
  ∧ (validateTicket now ticket (run_calls calls)).1 = tk_account <$> live now (outstanding ticket calls)
  ∧ ∀ later now', Forall (λ c, match c with Create _ bytes _ => generateTicket bytes ≠ ticket | _ => True end) later →
      Forall (λ c, call_time c ≤ now') (calls ++ [Consume now ticket] ++ later) →
      (consumeTicket now' ticket (run_calls (calls ++ [Consume now ticket] ++ later))).1 = None.
Proof.
  intros Hcalls. rewrite live_consume, live_validate, run_calls_live by done.
  split_and!; [done..|]. intros later now' Hlater Htimes. rewrite live_consume, run_calls_live by done.
  assert (outstanding ticket (calls ++ [Consume now ticket] ++ later) = None) as ->; [|done].
  unfold outstanding. rewrite !foldl_app. cbn [foldl]. rewrite String.eqb_refl. clear -Hlater.
  induction Hlater as [|c l Hc _ IH]; [done|]. cbn [foldl].
  destruct c as [|t bytes account|t k|]; [done| |by case_match|done].
  by destruct (String.eqb_spec ticket (generateTicket bytes)) as [->|].
Qed.

(** Distinct random bytes make distinct tickets. *)
Lemma generateTicket_inj bytes bytes' :
  Forall (λ b, (b < 256)%nat) bytes → Forall (λ b, (b < 256)%nat) bytes' →
  generateTicket bytes = generateTicket bytes' → bytes = bytes'.
Proof. apply hex_bytes_inj. Qed.

End Tickets.

(** ** The Authorization header: [/^Bearer\s+(.+)$/i] *)

(** The leading white space and the rest. *)
Fixpoint span_space (s : string) : string * string :=
  match s with
  | String c s' => if is_space c then let '(a, b) := span_space s' in (String c a, b) else ("", s)
  | EmptyString => ("", "")
  end.

Definition line_break (c : ascii) : bool := one_of [String "010" ""; String "013" ""] (String c "").

(** The captured group: all but the white space after the scheme; of white space
    only, its last character. It is one line. *)
Definition bearer (auth : string) : option string :=
  if String.eqb (toLowerCase (str_take 6 auth)) "bearer" then
    match span_space (str_drop 6 auth) with
    | ("", _) => None
    | (spaces, "") =>
        let n := String.length spaces in
        let last := str_drop (n - 1) spaces in
        if (2 <=? n)%nat && str_forallb (λ c, negb (line_break c)) last then Some last else None
    | (_, rest) => if str_forallb (λ c, negb (line_break c)) rest then Some rest else None
    end
  else None.

Section routes.
Context (env : string → option string).

(** [process.env.SEP10_JWT_SECRET || process.env.JWT_SECRET], and whether it is set. *)
Definition env_nonempty (k : string) : option string :=
  match env k with Some s => if String.eqb s "" then None else Some s | None => None end.

Definition JWT_SECRET : option string :=
  match env_nonempty "SEP10_JWT_SECRET" with Some s => Some s | None => env_nonempty "JWT_SECRET" end.
Definition SERVER_SEED : option string := env_nonempty "SEP10_SERVER_SEED".

Inductive Network := PUBLIC | TESTNET.
Definition NETWORK_PASSPHRASE : Network :=
  if bool_decide (env "NEXT_PUBLIC_STELLAR_NETWORK" = Some "mainnet") then PUBLIC else TESTNET.

(** [String(body?.k ?? '').trim()] of the decoded body, [{}] when it does not decode. *)
Definition body_text (body : result jsval) (k : string) : string :=
  let body := match body with Ok b => b | Throw _ => JObj [] end in
  trim (js_String (js_coalesce (get_prop_opt body k) (JStr ""))).

(** *** POST /api/auth/challenge *)

(** The challenge: one ManageData operation of the account. *)
Record ChallengeTx := {
  ch_source : string;
  ch_maxTime : Z;
  ch_name : string;
  ch_value : string;
  ch_account : string;
  ch_timeout : Z
}.

Inductive ChallengeReply :=
| ChallengeError (status : Z) (error : string)
| Challenge (transaction : string) (network : Network) (server_account : string).

(** [chars[Math.floor(Math.random() * chars.length)]], one draw a character. *)
Definition nonce_char (random : number) : string :=
  let chars := "abcdefghijklmnopqrstuvwxyz0123456789" in
  match floor_Z (num_mul random (num_of_Z 36)) with
  | Some i => match String.get (Z.to_nat i) chars with Some c => String c "" | None => "undefined" end
  | None => "undefined"
  end.

Definition randomNonce (draws : list number) : string := String.concat "" (map nonce_char draws).

(** [fromSecret] gives the public key of a seed; [build] builds the transaction,
    signs it with the seed's key and encodes it; [base64] is [Buffer]'s. *)
Definition challenge_POST (fromSecret : string → result string)
    (build : Network → string → ChallengeTx → result string) (base64 : string → string)
    (now : Z) (draws1 draws2 : list number) (body : result jsval) : ChallengeReply :=
  match SERVER_SEED with
  | None => ChallengeError 500 "Server not configured"
  | Some seed =>
      let account := body_text body "account" in
      if String.eqb account "" || negb (startsWith "G" account) then ChallengeError 400 "invalid_account"
      else
        match
          publicKey ← fromSecret seed;
          envelope ← build NETWORK_PASSPHRASE seed {|
            ch_source := publicKey; ch_maxTime := now / 1000 + 300;
            ch_name := "sep0010_auth_" +:+ randomNonce draws1;
            ch_value := base64 (randomNonce draws2);
            ch_account := account; ch_timeout := 300 |};
          Ok (Challenge envelope NETWORK_PASSPHRASE publicKey)
        with
        | Ok reply => reply
        | Throw _ => ChallengeError 500 "server_error"
        end
  end.

(** *** POST /api/auth/token *)

(** What [TransactionBuilder.fromXDR] decodes. *)
Record Operation := {
  op_type : string;
  op_source : option string;
  op_name : string;
  op_value : option string
}.

Record Transaction := {
  tx_source : string;
  tx_timeBounds : option (Z * Z);
  tx_operations : list Operation;
  tx_hash : string;
  tx_signatures : list string
}.

Record Claims := { cl_sub : string; cl_iat : Z; cl_exp : Z }.

Inductive TokenReply :=
| TokenError (status : Z) (error : string)
| Token (token : string) (expires_at : Z).

(** The loop over the operations: the first ManageData with a source. *)
Fixpoint client_account (ops : list Operation) : option string :=
  match ops with
  | [] => None
  | op :: ops' =>
      match op_source op with
      | Some a => if String.eqb (op_type op) "manageData" && negb (String.eqb a "") then Some a
                  else client_account ops'
      | None => client_account ops'
      end
  end.

(** The loop over the signatures; one that [verify] throws on is skipped. *)
Fixpoint client_signed (verify : string → string → string → result bool)
    (account hash : string) (sigs : list string) : bool :=
  match sigs with
  | [] => false
  | s :: sigs' =>
      match verify account hash s with
      | Ok true => true
      | Ok false | Throw _ => client_signed verify account hash sigs'
      end
  end.

Definition token_POST (fromXDR : string → Network → result Transaction)
    (isValidEd25519PublicKey : string → bool) (fromPublicKey : string → result string)
    (verify : string → string → string → result bool) (sign : string → Claims → result string)
    (now : Z) (body : result jsval) : TokenReply :=
  match JWT_SECRET, SERVER_SEED with
  | Some secret, Some _ =>
      let signedXdr := body_text body "signed_xdr" in
      if String.eqb signedXdr "" then TokenError 400 "missing_signed_xdr"
      else
        match
          tx ← fromXDR signedXdr NETWORK_PASSPHRASE;
          match client_account (tx_operations tx) with
          | Some clientAccount =>
              if negb (isValidEd25519PublicKey clientAccount) then Ok (TokenError 400 "invalid_challenge")
              else
                clientKeypair ← fromPublicKey clientAccount;
                if negb (client_signed verify clientKeypair (tx_hash tx) (tx_signatures tx))
                then Ok (TokenError 401 "invalid_signature")
                else
                  let exp := now / 1000 + 60 * 60 * 24 in
                  token ← sign secret {| cl_sub := clientAccount; cl_iat := now / 1000; cl_exp := exp |};
                  Ok (Token token exp)
          | None => Ok (TokenError 400 "invalid_challenge")
          end
        with
        | Ok reply => reply
        | Throw _ => TokenError 400 "invalid_request"
        end
  | _, _ => TokenError 500 "server_not_configured"
  end.

(** *** GET /api/auth/me and /api/auth/sse-ticket

    [jwtVerify] gives the token's subject at a time, or throws. *)
Inductive MeReply :=
| MeNotConfigured
| NotAuthenticated
| Authenticated (account : string).

Definition header_text (authorization : option string) : string := default "" authorization.

Definition me_GET (jwtVerify : Z → string → string → result (option string))
    (now : Z) (authorization : option string) : MeReply :=
  match JWT_SECRET with
  | None => MeNotConfigured
  | Some secret =>
      match bearer (header_text authorization) with
      | None => NotAuthenticated
      | Some token =>
          match jwtVerify now token secret with
          | Ok (Some sub) => if String.eqb sub "" then NotAuthenticated else Authenticated sub
          | Ok None | Throw _ => NotAuthenticated
          end
      end
  end.

Inductive TicketReply :=
| TicketError (status : Z) (error : string)
| TicketIssued (ticket : string) (expires_in : Z).

Definition sse_ticket_GET (jwtVerify : Z → string → string → result (option string))
    (now : Z) (bytes : list nat) (authorization : option string) (tickets : list (string * Tickets.Ticket))
  : TicketReply * list (string * Tickets.Ticket) :=
  match JWT_SECRET with
  | None => (TicketError 500 "Server not configured", tickets)
  | Some secret =>
      match bearer (header_text authorization) with
      | None => (TicketError 401 "Missing or invalid Authorization header", tickets)
      | Some token =>
          match jwtVerify now token secret with
          | Ok (Some sub) =>
              if String.eqb sub "" then (TicketError 401 "Invalid token payload", tickets)
              else
                let '((ticket, expiresIn), tickets') := Tickets.createTicket now bytes sub tickets in
                (TicketIssued ticket expiresIn, tickets')
          | Ok None => (TicketError 401 "Invalid token payload", tickets)
          | Throw _ => (TicketError 401 "Invalid or expired token", tickets)
          end
      end
  end.

End routes.

(** ** Properties *)

(** What the routes rely on of jose: a token it signed verifies with the same
    secret until it expires, and is a non-empty word. *)
Class JoseLaws (sign : string → Claims → result string)
    (jwtVerify : Z → string → string → result (option string)) := {
  jose_verify secret claims token now : sign secret claims = Ok token →
    jwtVerify now token secret
    = if now / 1000 <? cl_exp claims then Ok (Some (cl_sub claims)) else Throw (EError "exp claim timestamp check failed");
  jose_word secret claims token : sign secret claims = Ok token →
    token ≠ "" ∧ str_forallb (λ c, negb (is_space c)) token = true
}.

Lemma bearer_word token :
  token ≠ "" → str_forallb (λ c, negb (is_space c)) token = true → bearer ("Bearer " +:+ token) = Some token.
Proof.
  intros Hne Hw. destruct token as [|c t]; [done|]. unfold bearer. rewrite !append_cons, append_empty.
  cbn [str_take str_drop]. replace (String.eqb (toLowerCase _) "bearer") with true by done.
  assert (span_space (String " " (String c t)) = (" ", String c t)) as ->.
  { cbn -[is_space]. cbn [str_forallb] in Hw. apply andb_prop in Hw as [Hc%negb_true_iff _].
    rewrite Hc. done. }
  assert (str_forallb (λ c, negb (line_break c)) (String c t) = true) as ->; [|done].
  eapply str_forallb_impl; [|exact Hw]. clear. intros c. by destruct c as [[] [] [] [] [] [] [] []].
Qed.

Lemma client_signed_spec verify account hash sigs :
  client_signed verify account hash sigs = true ↔ ∃ s, s ∈ sigs ∧ verify account hash s = Ok true.
Proof.
  induction sigs as [|s sigs IH]; cbn [client_signed]; [set_solver|].
  destruct (verify account hash s) as [[]|e] eqn:E.
  - split; [|done]. intros _. exists s. split; [left|done].
  - rewrite IH. split; intros (s'&Hs&Ev); exists s'; (split; [|done]); [by right|].
    apply elem_of_cons in Hs as [->|]; [congruence|done].
  - rewrite IH. split; intros (s'&Hs&Ev); exists s'; (split; [|done]); [by right|].
    apply elem_of_cons in Hs as [->|]; [congruence|done].
Qed.

Lemma client_account_nonempty ops a : client_account ops = Some a → a ≠ "".
Proof.
  induction ops as [|op ops IH]; [done|]. cbn [client_account]. destruct (op_source op) as [b|]; [|done].
  destruct (_ && _) eqn:E; [|done]. intros [= ->]. apply andb_prop in E as [_ E].
  by apply negb_true_iff, String.eqb_neq in E.
Qed.

Section properties.
Context (env : string → option string) (fromXDR : string → Network → result Transaction)
  (isValidEd25519PublicKey : string → bool) (fromPublicKey : string → result string)
  (verify : string → string → string → result bool) (sign : string → Claims → result string).

Local Abbreviation POST := (token_POST env fromXDR isValidEd25519PublicKey fromPublicKey verify sign).

(** The transaction of a request proves that [account] signed it. *)
Definition signed_by (account : string) (body : result jsval) : Prop :=
  body_text body "signed_xdr" ≠ "" ∧ ∃ tx key s,
    fromXDR (body_text body "signed_xdr") (NETWORK_PASSPHRASE env) = Ok tx
    ∧ client_account (tx_operations tx) = Some account ∧ isValidEd25519PublicKey account = true
    ∧ fromPublicKey account = Ok key ∧ s ∈ tx_signatures tx ∧ verify key (tx_hash tx) s = Ok true.

Local Ltac refuted :=
  split; [done|]; intros (?&?&?&?&(?&?&?&?&?&?&?&?&?&?)&?&?); simplify_eq; congruence.

Lemma token_POST_spec now body token exp :
  POST now body = Token token exp ↔
  ∃ secret account, JWT_SECRET env = Some secret ∧ SERVER_SEED env ≠ None ∧ signed_by account body
    ∧ sign secret {| cl_sub := account; cl_iat := now / 1000; cl_exp := exp |} = Ok token
    ∧ exp = now / 1000 + 86400.
Proof.
  unfold token_POST, signed_by.
  destruct (JWT_SECRET env) as [secret|]; [|naive_solver].
  destruct (SERVER_SEED env) as [seed|]; [|naive_solver].
  destruct (String.eqb_spec (body_text body "signed_xdr") "") as [->|Hx]; [naive_solver|].
  destruct (fromXDR _ _) as [tx|e]; cbn [mbind result_bind]; [|naive_solver].
  destruct (client_account (tx_operations tx)) as [a|] eqn:Ea; [|naive_solver].
  destruct (isValidEd25519PublicKey a) eqn:Ev; cbn [negb]; [|refuted].
  destruct (fromPublicKey a) as [key|e] eqn:Ek; cbn [mbind result_bind]; [|refuted].
  destruct (client_signed verify _ _ _) eqn:Es; cbn [negb].
  - apply client_signed_spec in Es as (s&Hs&Hv).
    change (60 * 60 * 24) with 86400. split.
    + destruct (sign _ _) as [t|e] eqn:Et; [|done]. intros [= -> <-]. exists secret, a.
      split_and!; try done. eauto 10.
    + intros (secret'&a'&[= <-]&_&(_&tx'&key'&s'&[= <-]&Ea'&_)&Et&->).
      rewrite Ea in Ea'. injection Ea' as <-. by rewrite Et.
  - split; [done|]. intros (secret'&a'&[= <-]&_&(_&tx'&key'&s'&[= <-]&Ea'&_&Ek'&Hs&Hv)&_).
    rewrite Ea in Ea'. injection Ea' as <-. rewrite Ek in Ek'. injection Ek' as <-.
    rewrite <-not_true_iff_false, client_signed_spec in Es. destruct Es. eauto.
Qed.

(** A signed-in session, from the token to the stream ticket. *)
Lemma bearer_header token secret claims jwtVerify `{!JoseLaws sign jwtVerify} :
  sign secret claims = Ok token → bearer (header_text (Some ("Bearer " +:+ token))) = Some token.
Proof. intros E. apply (jose_word (sign := sign)) in E as [Hne Hw]. by apply bearer_word. Qed.

(** C5. Signing in works end to end and only with the account's own signature: a
    token is issued for an account whose key verifies a signature of the
    transaction; until it expires, a day later, that token authenticates exactly
    that account, and it buys a stream ticket for that account, which the stream
    accepts for five minutes. *)
Theorem login_flow jwtVerify `{!JoseLaws sign jwtVerify} now body token exp :
  POST now body = Token token exp →
  ∃ account, signed_by account body ∧ exp = now / 1000 + 86400 ∧ ∀ now',
    me_GET env jwtVerify now' (Some ("Bearer " +:+ token))
    = (if now' / 1000 <? exp then Authenticated account else NotAuthenticated)
    ∧ (now' / 1000 < exp → ∀ bytes tickets, ∃ tickets',
        sse_ticket_GET env jwtVerify now' bytes (Some ("Bearer " +:+ token)) tickets
        = (TicketIssued (Tickets.generateTicket bytes) 300, tickets')
        ∧ ∀ later, (Tickets.consumeTicket later (Tickets.generateTicket bytes) tickets').1
                   = if later <? now' + 300000 then Some account else None).
Proof.
  intros (secret&account&Hsecret&_&Hsigned&Hsign&Hexp)%token_POST_spec.
  exists account. split_and!; [done..|]. intros now'.
  assert (String.eqb account "" = false) as Hne.
  { destruct Hsigned as (_&tx&_&_&_&Ha&_). by apply client_account_nonempty, String.eqb_neq in Ha. }
  pose proof (bearer_header _ _ _ _ Hsign) as Hb.
  pose proof (jose_verify _ _ _ now' Hsign) as Hj. cbn [cl_sub cl_exp] in Hj.
  unfold me_GET, sse_ticket_GET. rewrite Hsecret, Hb, Hj. split.
  - destruct (now' / 1000 <? exp); [|done]. by rewrite Hne.
  - intros Hlt bytes tickets. rewrite (proj2 (Z.ltb_lt _ _)) by done. rewrite Hne.
    eexists. split; [done|]. intros later. rewrite Tickets.live_consume, jm_get_set_eq. cbn.
    unfold Tickets.TICKET_TTL_SECONDS. change (300 * 1000) with 300000.
    destruct (Z.leb_spec (now' + 300000) later), (Z.ltb_spec later (now' + 300000)); done || lia.
Qed.

(** What signing in does not check: any transaction with a ManageData operation
    of the account and a signature of the account's key yields a token, whatever
    its source, its time bounds, the operation's name and value, and without a
    signature of the server: it need not be a challenge the server issued. *)
Theorem challenge_not_checked now body secret seed key account source timeBounds name value hash s token :
  JWT_SECRET env = Some secret → SERVER_SEED env = Some seed →
  body_text body "signed_xdr" ≠ "" → account ≠ "" → isValidEd25519PublicKey account = true →
  fromPublicKey account = Ok key → verify key hash s = Ok true →
  fromXDR (body_text body "signed_xdr") (NETWORK_PASSPHRASE env) = Ok {|
    tx_source := source; tx_timeBounds := timeBounds; tx_hash := hash; tx_signatures := [s];
    tx_operations := [{| op_type := "manageData"; op_source := Some account; op_name := name; op_value := value |}] |} →
  sign secret {| cl_sub := account; cl_iat := now / 1000; cl_exp := now / 1000 + 86400 |} = Ok token →
  POST now body = Token token (now / 1000 + 86400).
Proof.
  intros Hsecret Hseed Hbody Hne%String.eqb_neq Hvalid Hkey Hverify Hxdr Hsign. apply token_POST_spec.
  exists secret, account. split_and!; [done|by rewrite Hseed| |done..].
  split; [done|]. eexists _, key, s. split; [exact Hxdr|]. cbn. rewrite Hne.
  split_and!; try done. left.
Qed.
End properties.
