(* ===== verification/EventStream.v ===== *)
(** * frontend: the live event stream

    app/api/events/route.ts: one poller, shared by all connected clients, tails
    the indexer and sends each event to the clients that want it. Polls are
    asynchronous and may overlap, so the module is a transition system whose
    steps are the callbacks of the event loop. *)
From S2P Require Import Prelude.
From S2P Require Import JsValue.
From S2P Require Import JsNumber.
From S2P Require Import JsMap.
From S2P Require Import Parser.
From S2P Require Import Database.
From S2P Require Import Db.
From S2P Require Import Api.
From S2P Require Import Auth.
From Stdlib Require Import Ascii.
#[local] Open Scope string_scope.
#[local] Open Scope list_scope.
#[local] Open Scope Z_scope.

Definition MIN_POLL_INTERVAL_MS : Z := 3000.
Definition INITIAL_LOOKBACK_LEDGERS : Z := 10.

(** ** Events *)

(** A row of the indexer's /events answer. *)
Record IndexerEventRow := {
  ir_id : jsval; ir_contractId : jsval; ir_topic : jsval; ir_value : jsval;
  ir_ledgerSequence : Z; ir_ledgerCloseAt : jsval; ir_txHash : jsval
}.

Record SseEvent := {
  se_id : jsval; se_contractId : jsval; se_topic : jsval; se_value : jsval;
  se_ledger : Z; se_txHash : jsval; se_ledgerCloseAt : jsval
}.

Definition event_of_row (e : IndexerEventRow) : SseEvent := {|
  se_id := ir_id e; se_contractId := ir_contractId e; se_topic := ir_topic e;
  se_value := ir_value e; se_ledger := ir_ledgerSequence e; se_txHash := ir_txHash e;
  se_ledgerCloseAt := ir_ledgerCloseAt e |}.

Definition event_json (e : SseEvent) : jsval := JObj
  [("id", se_id e); ("contractId", se_contractId e); ("topic", se_topic e); ("value", se_value e);
   ("ledger", JNum (se_ledger e)); ("txHash", se_txHash e); ("ledgerCloseAt", se_ledgerCloseAt e)].

Definition newline : string := String "010" "".

(** The texts a stream carries. *)
Definition data_frame (e : SseEvent) : string :=
  "data: " +:+ JSON_stringify (event_json e) +:+ newline +:+ newline.
Definition typed_frame (event type : string) : string :=
  "event: " +:+ event +:+ newline +:+ "data: " +:+ JSON_stringify (JObj [("type", JStr type)])
  +:+ newline +:+ newline.
Definition connected_frame : string := typed_frame "connected" "connected".
Definition error_frame : string := typed_frame "error" "error".
Definition ping_frame : string := "event: ping" +:+ newline +:+ "data: " +:+ newline +:+ newline.

(** ** The shared poller *)

(** A connected client: its controller is open until the reader goes away, and
    holds what was enqueued. *)
Record SseClient := {
  cl_id : nat;
  cl_invoiceId : option string;
  cl_open : bool;
  cl_frames : list string
}.

(** A [sharedPoll] call that awaits an answer: the latest ledger, or the events
    after the cursor it read. *)
Inductive Poll := AwaitLatest | AwaitEvents (after : Z).

Record Shared := {
  sharedClients : list SseClient;
  sharedPollerTimer : bool;
  sharedLastSeenLedger : Z;
  polls : list Poll
}.

Definition set_clients (f : list SseClient → list SseClient) (s : Shared) : Shared :=
  {| sharedClients := f (sharedClients s); sharedPollerTimer := sharedPollerTimer s;
     sharedLastSeenLedger := sharedLastSeenLedger s; polls := polls s |}.
Definition set_cursor (c : Z) (s : Shared) : Shared :=
  {| sharedClients := sharedClients s; sharedPollerTimer := sharedPollerTimer s;
     sharedLastSeenLedger := c; polls := polls s |}.
Definition set_polls (f : list Poll → list Poll) (s : Shared) : Shared :=
  {| sharedClients := sharedClients s; sharedPollerTimer := sharedPollerTimer s;
     sharedLastSeenLedger := sharedLastSeenLedger s; polls := f (polls s) |}.
Definition set_timer (b : bool) (s : Shared) : Shared :=
  {| sharedClients := sharedClients s; sharedPollerTimer := b;
     sharedLastSeenLedger := sharedLastSeenLedger s; polls := polls s |}.

(** [controller.enqueue] on a stream that is gone throws, and the caller errors
    the stream, which changes nothing more. *)
Definition enqueue (frame : string) (c : SseClient) : SseClient :=
  if cl_open c then {| cl_id := cl_id c; cl_invoiceId := cl_invoiceId c; cl_open := true;
                       cl_frames := cl_frames c ++ [frame] |}
  else c.

(** [client.invoiceId === null || String(e.value?.[0]) === client.invoiceId]. *)
Definition wants (c : SseClient) (e : SseEvent) : bool :=
  match cl_invoiceId c with
  | None => true
  | Some id => String.eqb (js_String (get_first_opt (se_value e))) id
  end.

Definition deliver (events : list SseEvent) (clients : list SseClient) : list SseClient :=
  foldl (λ cs e, map (λ c, if wants c e then enqueue (data_frame e) c else c) cs) clients events.


(** [sharedPoll], up to its first await. *)
Definition sharedPoll (contractIds : list string) (s : Shared) : Shared :=
  match sharedClients s, contractIds with
  | [], _ | _, [] => s
  | _, _ => set_polls (λ ps, ps ++ [if sharedLastSeenLedger s =? 0 then AwaitLatest
                                    else AwaitEvents (sharedLastSeenLedger s)]) s
  end.

(** What follows the answer of /ledger/latest. *)
Definition latest_arrived (latest : option Z) (s : Shared) : Shared * Poll :=
  let c := Z.max 0 (default 0 latest - INITIAL_LOOKBACK_LEDGERS) in
  (set_cursor c s, AwaitEvents c).

(** What follows the answers of /events, one batch a contract. *)
Definition events_arrived (batches : list (list IndexerEventRow)) (s : Shared) : Shared :=
  let events := sort_by se_ledger (concat (map (map event_of_row) batches)) in
  match events with
  | [] => s
  | _ =>
      set_clients (deliver events)
        (set_cursor (foldl (λ m e, Z.max m (se_ledger e)) (sharedLastSeenLedger s) events) s)
  end.

(** The [catch]: every client is told. *)
Definition poll_failed (s : Shared) : Shared := set_clients (map (enqueue error_frame)) s.

Definition startSharedPoller (contractIds : list string) (s : Shared) : Shared :=
  if sharedPollerTimer s then s
  else set_timer true (match sharedClients s with [] => s | _ => sharedPoll contractIds s end).

Definition stopSharedPollerIfEmpty (s : Shared) : Shared :=
  match sharedClients s with
  | [] => if sharedPollerTimer s then set_cursor 0 (set_timer false s) else s
  | _ => s
  end.

Definition registerClient (contractIds : list string) (c : SseClient) (s : Shared) : Shared :=
  startSharedPoller contractIds (set_clients (λ cs, cs ++ [c]) s).

Definition unregisterClient (id : nat) (s : Shared) : Shared :=
  stopSharedPollerIfEmpty (set_clients (filter (λ c, cl_id c ≠ id)) s).

(** ** GET /api/events *)

Inductive StreamReply := StreamError (status : Z) (text : string) | Streaming (id : nat).

(** [id] identifies the new stream. *)
Definition events_GET (contractIds : list string) (now : Z) (id : nat)
    (ticket invoiceId : option string) (st : list (string * Tickets.Ticket) * Shared)
  : StreamReply * (list (string * Tickets.Ticket) * Shared) :=
  let '(tickets, s) := st in
  match ticket with
  | None | Some EmptyString => (StreamError 401 "Unauthorized", st)
  | Some ticket =>
      match Tickets.consumeTicket now ticket tickets with
      | (None, tickets') | (Some EmptyString, tickets') => (StreamError 401 "Unauthorized", (tickets', s))
      | (Some _, tickets') =>
          match contractIds with
          | [] => (StreamError 503 "Contract IDs not configured", (tickets', s))
          | _ =>
              let client := {| cl_id := id; cl_invoiceId := invoiceId; cl_open := true;
                               cl_frames := [connected_frame] |} in
              (Streaming id, (tickets', registerClient contractIds client s))
          end
      end
  end.

(** ** The steps of the event loop *)

(** [answers after batches]: what the indexer may answer to the requests for the
    events after a ledger, one batch a contract. A poll that gets its answer
    leaves the list of those that wait. *)
Inductive step (answers : Z → list (list IndexerEventRow) → Prop) (contractIds : list string)
    : Shared → Shared → Prop :=
| step_tick s : sharedPollerTimer s = true → step answers contractIds s (sharedPoll contractIds s)
| step_latest s before after latest : polls s = before ++ AwaitLatest :: after →
    step answers contractIds s
      (set_polls (λ _, before ++ (latest_arrived latest s).2 :: after) (latest_arrived latest s).1)
| step_events s before after c batches : polls s = before ++ AwaitEvents c :: after →
    answers c batches →
    step answers contractIds s (set_polls (λ _, before ++ after) (events_arrived batches s))
| step_failed s before after p : polls s = before ++ p :: after →
    step answers contractIds s (set_polls (λ _, before ++ after) (poll_failed s))
| step_register s id invoiceId : id ∉ cl_id <$> sharedClients s →
    step answers contractIds s (registerClient contractIds
      {| cl_id := id; cl_invoiceId := invoiceId; cl_open := true; cl_frames := [connected_frame] |} s)
| step_heartbeat s id :
    step answers contractIds s (set_clients (map (λ c, if decide (cl_id c = id) then enqueue ping_frame c else c)) s)
| step_cancel s id :
    step answers contractIds s (set_clients (map (λ c, if decide (cl_id c = id)
      then {| cl_id := id; cl_invoiceId := cl_invoiceId c; cl_open := false; cl_frames := cl_frames c |}
      else c)) s)
| step_abort s id : step answers contractIds s (unregisterClient id s).

Definition initial : Shared :=
  {| sharedClients := []; sharedPollerTimer := false; sharedLastSeenLedger := 0; polls := [] |}.

Abbreviation reachable answers contractIds := (rtc (step answers contractIds) initial).

(** ** One poll against the indexer *)
Section poll.
Context {PG : Postgres} (parsePagination : Pagination).





End poll.

(** ** The invariant of the poller *)

Section invariant.
Context (answers : Z → list (list IndexerEventRow) → Prop).




















End invariant.

(** ** What clients are sent *)
Section delivery.
Context {PG : Postgres} (parsePagination : Pagination).





End delivery.




(** Polls do not wait for each other: one that the indexer answers later than
    the next tick starts from the same cursor as that one, and when both answers
    arrive a client is sent the same event twice. *)
Lemma overlapping_polls_duplicate (answers : Z → list (list IndexerEventRow) → Prop) r :
  answers 90 [[r]] →
  ∃ s c, reachable answers ["C"] s ∧ c ∈ sharedClients s
    ∧ cl_frames c = [connected_frame; data_frame (event_of_row r); data_frame (event_of_row r)].
Proof.
  intros Hr. eexists _, _. split; [|split].
  - eapply rtc_l; [apply (step_register _ ["C"] initial 0 None); set_solver|].
    eapply rtc_l; [apply (step_latest _ _ _ [] [] (Some 100)); done|].
    eapply rtc_l; [apply step_tick; done|].
    eapply rtc_l; [by apply (step_events _ _ _ [] [AwaitEvents 90] 90 [[r]])|].
    eapply rtc_l; [by apply (step_events _ _ _ [] [] 90 [[r]])|].
    apply rtc_refl.
  - cbn. left.
  - done.
Qed.
