(* ===== verification/Alerts.v ===== *)
(** * frontend: alerts

    lib/notification-preferences.ts, lib/notifications.ts (the service that
    dispatches alerts) and lib/monitoring.ts (the monitor that polls the chain
    and raises them), with the thresholds of lib/alert-rules.ts. The process's
    state is threaded explicitly; the clock, the RPC node, the subscribers'
    callbacks and the webhook are operations on the world of the section. At the end
    the pages and the route that go with them: app/settings/notifications
    ([SettingsPage]), components/NotificationBell.tsx ([Bell]), app/api/health ([Health])
    and app/admin/monitoring ([StorageHealth]). *)
From S2P Require Import Prelude.
From S2P Require Import JsValue.
From S2P Require Import JsNumber.
From S2P Require Import JsArith.
From S2P Require Import JsMap.
From Stdlib Require Import Ascii SpecFloat.
#[local] Open Scope string_scope.
#[local] Open Scope list_scope.
#[local] Open Scope Z_scope.

(** ** lib/alert-rules.ts *)

Definition LARGE_TX_THRESHOLD : Z := 5000.
Definition ACTIVITY_THRESHOLD_COUNT : Z := 3.
Definition ACTIVITY_WINDOW_SECONDS : Z := 600.

Inductive AlertPriority := LOW | MEDIUM | HIGH | CRITICAL.

Inductive AlertType :=
| LARGE_TRANSACTION | UNUSUAL_ACTIVITY | CONTRACT_DEFAULT | SYSTEM_ERROR | INVOICE_FUNDED
| INVOICE_PAID | PAYMENT_DUE_7_DAYS | PAYMENT_DUE_1_DAY | PAYMENT_OVERDUE | INVOICE_COMPLETED
| INVOICE_DEFAULTED | COLLATERAL_SEIZED | DISPUTE_RAISED | DISPUTE_RESOLVED | YIELD_RATE_CHANGED
| COLLATERAL_REQUIRED | LOW_LIQUIDITY | HIGH_DEFAULT_RATE | CONTRACT_PAUSED | RPC_SLOW.

Definition alert_type_string (t : AlertType) : string :=
  match t with
  | LARGE_TRANSACTION => "LARGE_TRANSACTION" | UNUSUAL_ACTIVITY => "UNUSUAL_ACTIVITY"
  | CONTRACT_DEFAULT => "CONTRACT_DEFAULT" | SYSTEM_ERROR => "SYSTEM_ERROR"
  | INVOICE_FUNDED => "INVOICE_FUNDED" | INVOICE_PAID => "INVOICE_PAID"
  | PAYMENT_DUE_7_DAYS => "PAYMENT_DUE_7_DAYS" | PAYMENT_DUE_1_DAY => "PAYMENT_DUE_1_DAY"
  | PAYMENT_OVERDUE => "PAYMENT_OVERDUE" | INVOICE_COMPLETED => "INVOICE_COMPLETED"
  | INVOICE_DEFAULTED => "INVOICE_DEFAULTED" | COLLATERAL_SEIZED => "COLLATERAL_SEIZED"
  | DISPUTE_RAISED => "DISPUTE_RAISED" | DISPUTE_RESOLVED => "DISPUTE_RESOLVED"
  | YIELD_RATE_CHANGED => "YIELD_RATE_CHANGED" | COLLATERAL_REQUIRED => "COLLATERAL_REQUIRED"
  | LOW_LIQUIDITY => "LOW_LIQUIDITY" | HIGH_DEFAULT_RATE => "HIGH_DEFAULT_RATE"
  | CONTRACT_PAUSED => "CONTRACT_PAUSED" | RPC_SLOW => "RPC_SLOW"
  end.

Definition priority_string (p : AlertPriority) : string :=
  match p with LOW => "LOW" | MEDIUM => "MEDIUM" | HIGH => "HIGH" | CRITICAL => "CRITICAL" end.

(** A field of an alert's data: a value, or a number with a fraction. *)
Inductive datum := Val (v : jsval) | Num (x : number).

Record NotificationAlert := {
  al_id : string;
  al_type : AlertType;
  al_priority : AlertPriority;
  al_message : string;
  al_timestamp : Z;
  al_data : list (string * datum)
}.

(** ** lib/notification-preferences.ts *)

Record ChannelPreferences := { cp_enabled : bool; cp_target : string; cp_events : list jsval }.
Record NotificationPreferences := {
  np_inApp : jsval; np_email : ChannelPreferences; np_webhook : ChannelPreferences
}.

Definition NOTIFICATION_EVENTS : list string :=
  ["INVOICE_FUNDED"; "PAYMENT_DUE_7_DAYS"; "PAYMENT_DUE_1_DAY"; "PAYMENT_OVERDUE";
   "INVOICE_COMPLETED"; "INVOICE_DEFAULTED"; "COLLATERAL_SEIZED"].

Definition no_channel : ChannelPreferences := {| cp_enabled := false; cp_target := ""; cp_events := [] |}.

Definition DEFAULT_NOTIFICATION_PREFERENCES : NotificationPreferences := {|
  np_inApp := JObj (map (λ e, (e, JBool true)) NOTIFICATION_EVENTS);
  np_email := no_channel; np_webhook := no_channel |}.

(** One channel of the stored preferences, whose address is under [target]. *)
Definition load_channel (p : jsval) (channel target : string) : ChannelPreferences :=
  let ch := get_prop_opt p channel in {|
    cp_enabled := truthy (get_prop_opt ch "enabled");
    cp_target := match get_prop_opt ch target with JStr s => s | _ => "" end;
    cp_events := match get_prop_opt ch "events" with JArr l => l | _ => [] end |}.

(** [stored] is the item of the browser's storage, as [safeParse] decodes it:
    [None] when there is none, [null] when it is not JSON. *)
Definition loadNotificationPreferences (isBrowser : bool) (stored : option jsval) : NotificationPreferences :=
  if negb isBrowser then DEFAULT_NOTIFICATION_PREFERENCES
  else match stored with
  | None => DEFAULT_NOTIFICATION_PREFERENCES
  | Some parsed =>
      if negb (truthy parsed) || negb (is_object parsed) then DEFAULT_NOTIFICATION_PREFERENCES
      else {|
        np_inApp :=
          let inApp := get_prop_opt parsed "inApp" in
          if truthy inApp && is_object inApp then inApp else np_inApp DEFAULT_NOTIFICATION_PREFERENCES;
        np_email := load_channel parsed "email" "email";
        np_webhook := load_channel parsed "webhook" "url" |}
  end.

Definition channel_json (c : ChannelPreferences) (target : string) : jsval := JObj
  [("enabled", JBool (cp_enabled c)); (target, JStr (cp_target c)); ("events", JArr (cp_events c))].

(** What [saveNotificationPreferences] stores. *)
Definition saved_preferences (p : NotificationPreferences) : jsval := JObj
  [("inApp", np_inApp p); ("email", channel_json (np_email p) "email");
   ("webhook", channel_json (np_webhook p) "url")].

Definition isInAppEnabled (isBrowser : bool) (stored : option jsval) (alertType : AlertType) : bool :=
  if negb isBrowser then true
  else truthy (js_coalesce
    (get_prop_opt (np_inApp (loadNotificationPreferences isBrowser stored)) (alert_type_string alertType))
    (JBool true)).

(** [/^[^\s@]+@[^\s@]+\.[^\s@]+$/], tried at every dot after the at sign. *)
Definition word (s : string) : bool :=
  negb (String.eqb s "") && str_forallb (λ c, negb (is_space c) && negb (Ascii.eqb c "@")) s.

Fixpoint dotted (before : string) (s : string) : bool :=
  match s with
  | EmptyString => false
  | String c s' =>
      (Ascii.eqb c "." && word before && word s') || dotted (before +:+ String c "") s'
  end.

Fixpoint at_then_dotted (before : string) (s : string) : bool :=
  match s with
  | EmptyString => false
  | String c s' =>
      (Ascii.eqb c "@" && word before && dotted "" s') || at_then_dotted (before +:+ String c "") s'
  end.

Definition isValidEmail (email : string) : bool :=
  let trimmed := trim email in
  if String.eqb trimmed "" then false else at_then_dotted "" trimmed.

(** ** lib/monitoring.ts: the monitor's data *)

Record ContractEvent := {
  ce_id : string;
  ce_contractId : string;
  ce_topic : list jsval;
  ce_value : jsval;
  ce_ledger : Z;
  ce_ledgerCloseAt : option string;
  ce_txHash : option string
}.

(** A string or [undefined]. *)
Definition opt_str (o : option string) : jsval := match o with Some s => JStr s | None => JUndef end.

(** [activityHistory] has the times of events, in seconds, by address and event
    type; [checkpointFile] the ledger the file on disk holds. *)
Record Monitor := {
  lastLedger : Z;
  activityHistory : list (string * list (string * list Z));
  checkpointFile : option Z;
  lastPruneTime : Z
}.

Definition set_lastLedger l (m : Monitor) := {| lastLedger := l; activityHistory := activityHistory m;
  checkpointFile := checkpointFile m; lastPruneTime := lastPruneTime m |}.
Definition set_history h (m : Monitor) := {| lastLedger := lastLedger m; activityHistory := h;
  checkpointFile := checkpointFile m; lastPruneTime := lastPruneTime m |}.
Definition set_checkpoint f (m : Monitor) := {| lastLedger := lastLedger m; activityHistory := activityHistory m;
  checkpointFile := f; lastPruneTime := lastPruneTime m |}.
Definition set_pruned t (m : Monitor) := {| lastLedger := lastLedger m; activityHistory := activityHistory m;
  checkpointFile := checkpointFile m; lastPruneTime := t |}.

Definition LEDGER_SECONDS : Z := 5.
Definition WARNING_WINDOW_DAYS : Z := 30.
Definition ACTIVE_TTL_DAYS : Z := 365.
Definition TERMINAL_TTL_DAYS : Z := 30.
Definition MAX_ACTIVITY_ENTRIES_PER_TYPE : nat := 100.
Definition ACTIVITY_HISTORY_PRUNE_INTERVAL_MS : Z := 60000.

(** [l.slice(-n)]. *)
Definition last_n (n : nat) (l : list Z) : list Z := drop (length l - n) l.

(** [l.filter((ts) => now - ts < ACTIVITY_WINDOW_SECONDS).slice(-MAX)]. *)
Definition within_window (now : Z) (l : list Z) : list Z :=
  last_n MAX_ACTIVITY_ENTRIES_PER_TYPE (filter (λ ts, now - ts < ACTIVITY_WINDOW_SECONDS) l).

Definition pruneActivityHistory (now_ms : Z) (h : list (string * list (string * list Z)))
  : list (string * list (string * list Z)) :=
  let now := now_ms / 1000 in
  filter (λ a, a.2 ≠ [])
    (map (λ a, (a.1, filter (λ t, t.2 ≠ []) (map (λ t, (t.1, within_window now t.2)) a.2))) h).

(** The times of an address and type, [[]] when it has none. *)
Definition times_of (address type : string) (h : list (string * list (string * list Z))) : list Z :=
  default [] (jm_get type (default [] (jm_get address h))).
Definition set_times (address type : string) (l : list Z) (h : list (string * list (string * list Z))) :=
  jm_set address (jm_set type l (default [] (jm_get address h))) h.

(** [new ContractMonitor()] after [loadCheckpoint]. *)
Definition new_monitor (now_ms : Z) (file : option Z) : Monitor :=
  {| lastLedger := default 0 file; activityHistory := []; checkpointFile := file; lastPruneTime := now_ms |}.

(** [const [x0, x1, ...] = value]: arrays and strings iterate, other values throw. *)
Definition iterate (v : jsval) : result (list jsval) :=
  match v with
  | JArr l => Ok l
  | JStr s => Ok (map (λ c, JStr (String c "")) (String.list_ascii_of_string s))
  | _ => Throw (ETypeError "value is not iterable")
  end.

Definition BigInt (v : jsval) : result Z :=
  match js_BigInt v with Some n => Ok n | None => Throw (ESyntaxError "Cannot convert to a BigInt") end.

(** [Math.round(x)]: the nearest integer, halves up; [None] when it is not finite. *)
Definition round_Z (x : number) : option Z :=
  match x with
  | S754_zero _ => Some 0
  | S754_finite s m e =>
      let v := if s then Zneg m else Zpos m in
      if 0 <=? e then Some (v * 2 ^ e) else Some ((2 * v + 2 ^ (- e)) / (2 * 2 ^ (- e)))
  | _ => None
  end.

(** [s.slice(0, n)] and [s.slice(-n)] of a string value; arrays slice too, and
    other values have no such method. *)
Definition address_text (address : jsval) : result string :=
  match address with
  | JStr s => Ok (str_take 6 s +:+ "..." +:+ str_drop (String.length s - 4) s)
  | JArr l => Ok (js_String (JArr (take 6 l)) +:+ "..." +:+ js_String (JArr (drop (length l - 4) l)))
  | _ => Throw (ETypeError "address.slice is not a function")
  end.

(** ** Expiry of invoices in storage *)

Inductive InvoiceStatus :=
| Pending | AwaitingVerification | Verified | Disputed | Funded | Paid | Defaulted | Cancelled | Expired.

#[export] Instance InvoiceStatus_eq_dec : EqDecision InvoiceStatus.
Proof. solve_decision. Defined.

(** The fields of an invoice the monitor reads; times in seconds. *)
Record Invoice := {
  in_id : Z; in_status : InvoiceStatus; in_createdAt : Z; in_fundedAt : Z; in_paidAt : Z;
  in_disputedAt : option Z
}.

Inductive severity := low | medium | high.

Record InvoiceTtlWarning := {
  tw_id : Z; tw_status : InvoiceStatus; tw_expiryLedger : Z; tw_remainingDays : Z; tw_severity : severity
}.

Definition shouldTrackInvoice (status : InvoiceStatus) : bool := negb (bool_decide (status = Expired)).

Definition isTerminalStatus (status : InvoiceStatus) : bool :=
  match status with Paid | Defaulted | Cancelled | Expired => true | _ => false end.

(** [a || b] on numbers. *)
Definition or_else (a b : Z) : Z := if a =? 0 then b else a.

Definition baseTimestamp (i : Invoice) : Z :=
  match in_status i with
  | Paid | Defaulted | Cancelled => or_else (or_else (in_paidAt i) (in_fundedAt i)) (in_createdAt i)
  | Disputed => or_else (or_else (default 0 (in_disputedAt i)) (in_fundedAt i)) (in_createdAt i)
  | _ => or_else (in_fundedAt i) (in_createdAt i)
  end.

Definition ttl_ledgers (status : InvoiceStatus) : Z :=
  (if isTerminalStatus status then TERMINAL_TTL_DAYS else ACTIVE_TTL_DAYS) * 17280.

(** [Math.max(0, Math.floor((now - base * 1000) / 5000))]. *)
Definition elapsedLedgers (now : Z) (i : Invoice) : Z :=
  Z.max 0 (default 0 (floor_Z (num_div (num_of_Z (now - baseTimestamp i * 1000)) (num_of_Z (LEDGER_SECONDS * 1000))))).

Definition buildTtlWarning (now : Z) (i : Invoice) (currentLedger : Z) : option InvoiceTtlWarning :=
  if negb (shouldTrackInvoice (in_status i)) then None
  else
    let expiryLedger := elapsedLedgers now i + ttl_ledgers (in_status i) in
    let remainingLedgers := expiryLedger - currentLedger in
    let remainingDays := default 0 (ceil_Z (num_div (num_of_Z remainingLedgers) (num_of_Z 17280))) in
    if WARNING_WINDOW_DAYS <? remainingDays then None
    else Some {|
      tw_id := in_id i; tw_status := in_status i; tw_expiryLedger := expiryLedger;
      tw_remainingDays := Z.max 0 remainingDays;
      tw_severity := if remainingDays <=? 7 then high else if remainingDays <=? 14 then medium else low |}.

(** ** The services

    [W] is the world outside the process. *)
Section services.
Context {W ScVal : Type} (env : string → option string) (isBrowser : bool) (stored : W → option jsval)
  (Date_now : M W Z) (callback : nat → NotificationAlert → M W unit)
  (post_webhook : string → NotificationAlert → M W unit)
  (writeFile : Z → M W unit) (toLocaleString : number → string)
  (rpcGetLatestLedger : M W Z) (scValToNative : ScVal → result jsval).

(** An event as the RPC node returns it. *)
Record RpcEvent := {
  re_id : string; re_contractId : string; re_topic : list ScVal; re_value : ScVal;
  re_ledger : Z; re_ledgerClosedAt : option string; re_ledgerCloseAt : option string; re_txHash : option string
}.

Context (rpcGetEvents : Z → list string → M W (list RpcEvent)).

(** The process: the subscribers of the notification service, by the identity of
    their callbacks, and the monitor. *)
Record Process := { subscribers : list nat; monitor : Monitor; outside : W }.

Definition on_world {A} (m : M W A) : M Process A := λ p,
  let '(r, w) := m (outside p) in
  (r, {| subscribers := subscribers p; monitor := monitor p; outside := w |}).

Definition modify_monitor (f : Monitor → Monitor) : M Process unit := modify (λ p,
  {| subscribers := subscribers p; monitor := f (monitor p); outside := outside p |}).

(** *** lib/notifications.ts *)

Definition subscribe (cb : nat) : M Process unit := modify (λ p,
  {| subscribers := subscribers p ++ [cb]; monitor := monitor p; outside := outside p |}).

(** The function [subscribe] returns. *)
Definition unsubscribe (cb : nat) : M Process unit := modify (λ p,
  {| subscribers := filter (λ s, s ≠ cb) (subscribers p); monitor := monitor p; outside := outside p |}).

Definition dispatchExternal (alert : NotificationAlert) : M Process unit :=
  match env "NEXT_PUBLIC_SLACK_WEBHOOK_URL" with
  | None => mret tt
  | Some webhookUrl =>
      if String.eqb webhookUrl "" then mret tt
      else try_catch (on_world (post_webhook webhookUrl alert)) (λ _, mret tt)
  end.

Definition urgent (p : AlertPriority) : bool :=
  match p with HIGH | CRITICAL => true | LOW | MEDIUM => false end.

Definition send (alert : NotificationAlert) : M Process unit :=
  p ← get_state;
  _ ← (if isInAppEnabled isBrowser (stored (outside p)) (al_type alert)
       then for_each (subscribers p) (λ sub, on_world (callback sub alert)) else mret tt);
  if urgent (al_priority alert) then dispatchExternal alert else mret tt.

(** *** lib/monitoring.ts *)

Definition checkUnusualActivity (address : jsval) (type txHash : string) : M Process unit :=
  now_ms ← on_world Date_now;
  let now := now_ms / 1000 in
  let key := js_String address in
  p ← get_state;
  let times := within_window now (times_of key type (activityHistory (monitor p))) ++ [now] in
  _ ← modify_monitor (λ m, set_history (set_times key type times (activityHistory m)) m);
  if ACTIVITY_THRESHOLD_COUNT <=? lengthZ times then
    text ← lift_result (address_text address);
    timestamp ← on_world Date_now;
    _ ← send {|
      al_id := "alert-unusual-" +:+ key +:+ "-" +:+ type +:+ "-" +:+ pretty now;
      al_type := UNUSUAL_ACTIVITY; al_priority := MEDIUM;
      al_message := "High frequency of '" +:+ type +:+ "' events from address " +:+ text +:+ ".";
      al_timestamp := timestamp;
      al_data := [("address", Val address); ("eventType", Val (JStr type));
                  ("count", Val (JNum (lengthZ times))); ("txHash", Val (JStr txHash))] |};
    modify_monitor (λ m, set_history (set_times key type [] (activityHistory m)) m)
  else mret tt.

(** What the branches of [processEvent] find in an event: its amount and source,
    and the alert they raise themselves. *)
Record Finding := { fd_amount : Z; fd_source : jsval; fd_alert : option (Z → NotificationAlert) }.

Definition nothing_found : Finding := {| fd_amount := 0; fd_source := JStr ""; fd_alert := None |}.

Definition amount_from (value : jsval) (source amount : nat) : result Finding :=
  l ← iterate value;
  n ← BigInt (arr_get l amount);
  Ok {| fd_amount := n; fd_source := arr_get l source; fd_alert := None |}.

Definition default_alert (event : ContractEvent) (id : jsval) (timestamp : Z) : NotificationAlert := {|
  al_id := "alert-default-" +:+ ce_id event; al_type := CONTRACT_DEFAULT; al_priority := CRITICAL;
  al_message := "Invoice #" +:+ js_String id +:+ " has been marked as DEFAULTED.";
  al_timestamp := timestamp;
  al_data := [("invoiceId", Val id); ("txHash", Val (opt_str (ce_txHash event)))] |}.

Definition percent_text (pct : option Z) : string :=
  match pct with Some n => pretty n | None => "NaN" end.

Definition util_alert (event : ContractEvent) (token bps : jsval) (timestamp : Z) : NotificationAlert :=
  let pct := round_Z (num_div (js_Number bps) (num_of_Z 100)) in {|
  al_id := "alert-util-" +:+ ce_id event; al_type := UNUSUAL_ACTIVITY;
  al_priority := match pct with Some n => if 90 <=? n then HIGH else MEDIUM | None => MEDIUM end;
  al_message := "Pool utilization alert: " +:+ percent_text pct +:+ "% for token "
                +:+ str_take 8 (js_String token) +:+ "…";
  al_timestamp := timestamp;
  al_data := [("token", Val token); ("utilizationBps", Val bps); ("txHash", Val (JStr (default "" (ce_txHash event))))] |}.

Definition classify (event : ContractEvent) : result Finding :=
  let contractType := js_coalesce (arr_get (ce_topic event) 0) (JStr "") in
  let eventType := js_coalesce (arr_get (ce_topic event) 1) (JStr "") in
  let value := ce_value event in
  if is_str contractType "invoice" then
    if is_str eventType "created" then amount_from value 1 2
    else if is_str eventType "default" then
      let id := match value with JArr l => arr_get l 0 | v => v end in
      Ok {| fd_amount := 0; fd_source := JStr ""; fd_alert := Some (default_alert event id) |}
    else Ok nothing_found
  else if is_str contractType "pool" then
    if is_str eventType "deposit" || is_str eventType "withdraw" then amount_from value 0 1
    else if is_str eventType "funded" then amount_from value 1 2
    else if is_str eventType "repaid" then
      l ← iterate value;
      n ← BigInt (arr_get l 1);
      Ok {| fd_amount := n; fd_source := JStr ""; fd_alert := None |}
    else if is_str eventType "util_warn" then
      l ← iterate value;
      Ok {| fd_amount := 0; fd_source := JStr ""; fd_alert := Some (util_alert event (arr_get l 0) (arr_get l 1)) |}
    else Ok nothing_found
  else Ok nothing_found.

(** [Number(amount) / 10_000_000] and the large-transaction rule. *)
Definition human_amount (amount : Z) : number := num_div (num_of_Z amount) (num_of_Z 10000000).
Definition is_large (amount : Z) : bool := num_leb (num_of_Z LARGE_TX_THRESHOLD) (human_amount amount).

Definition large_alert (event : ContractEvent) (eventType : jsval) (f : Finding) (timestamp : Z)
  : NotificationAlert := {|
  al_id := "alert-large-" +:+ ce_id event; al_type := LARGE_TRANSACTION; al_priority := HIGH;
  al_message := "Large " +:+ js_String eventType +:+ " detected: "
                +:+ toLocaleString (human_amount (fd_amount f)) +:+ " units.";
  al_timestamp := timestamp;
  al_data := [("amount", Num (human_amount (fd_amount f))); ("type", Val eventType);
              ("source", Val (fd_source f)); ("txHash", Val (JStr (default "" (ce_txHash event))))] |}.

(** [send] of an alert stamped with the time of the call. *)
Definition send_now (alert : Z → NotificationAlert) : M Process unit :=
  timestamp ← on_world Date_now; send (alert timestamp).

Definition processEvent (event : ContractEvent) : M Process unit :=
  let eventType := js_coalesce (arr_get (ce_topic event) 1) (JStr "") in
  f ← lift_result (classify event);
  _ ← match fd_alert f with Some alert => send_now alert | None => mret tt end;
  _ ← (if is_large (fd_amount f) then send_now (large_alert event eventType f) else mret tt);
  if truthy (fd_source f)
  then checkUnusualActivity (fd_source f) (js_String eventType) (default "" (ce_txHash event))
  else mret tt.

(** The clock is read for the file's timestamp; a failed write is only logged. *)
Definition saveCheckpoint : M Process unit :=
  try_catch (
    p ← get_state;
    _ ← on_world Date_now;
    _ ← on_world (writeFile (lastLedger (monitor p)));
    modify_monitor (λ m, set_checkpoint (Some (lastLedger m)) m))
  (λ _, mret tt).

Definition decode_event (e : RpcEvent) : result ContractEvent :=
  topic ← mapM scValToNative (re_topic e);
  value ← scValToNative (re_value e);
  Ok {| ce_id := re_id e; ce_contractId := re_contractId e; ce_topic := topic; ce_value := value;
        ce_ledger := re_ledger e; ce_ledgerCloseAt := re_ledgerCloseAt e;
        ce_txHash := Some (default "" (re_txHash e)) |}.

Definition prune_due : M Process unit :=
  now ← on_world Date_now;
  p ← get_state;
  if ACTIVITY_HISTORY_PRUNE_INTERVAL_MS <? now - lastPruneTime (monitor p) then
    now1 ← on_world Date_now;
    _ ← modify_monitor (λ m, set_history (pruneActivityHistory now1 (activityHistory m)) m);
    now2 ← on_world Date_now;
    modify_monitor (set_pruned now2)
  else mret tt.

(** The ids from the environment, [''] when unset. *)
Definition contract_id (k : string) : string := default "" (env k).

Definition poll_body (invoice pool : string) : M Process (list ContractEvent) :=
  _ ← prune_due;
  endLedger ← on_world rpcGetLatestLedger;
  p ← get_state;
  let startLedger := if lastLedger (monitor p) =? 0 then endLedger - 100 else lastLedger (monitor p) in
  raw ← on_world (rpcGetEvents startLedger [invoice; pool]);
  events ← lift_result (mapM decode_event raw);
  _ ← for_each events processEvent;
  _ ← modify_monitor (set_lastLedger (endLedger + 1));
  _ ← saveCheckpoint;
  mret events.

Definition pollEvents : M Process (list ContractEvent) :=
  let invoice := contract_id "NEXT_PUBLIC_INVOICE_CONTRACT_ID" in
  let pool := contract_id "NEXT_PUBLIC_POOL_CONTRACT_ID" in
  if String.eqb invoice "" || String.eqb pool "" then mret []
  else try_catch (poll_body invoice pool) (λ _, mret []).

(** The invoices of the contract, numbered from 1. *)
Definition getInvoiceTtlWarnings (getInvoiceCount : M W Z) (getMultipleInvoices : list Z → M W (list Invoice))
  : M Process (list InvoiceTtlWarning) :=
  if String.eqb (contract_id "NEXT_PUBLIC_INVOICE_CONTRACT_ID") "" then mret []
  else try_catch (
    latestLedger ← on_world rpcGetLatestLedger;
    count ← on_world getInvoiceCount;
    if count <=? 0 then mret []
    else
      let ids := seqZ 1 count in
      invoices ← on_world (getMultipleInvoices ids);
      warnings ← mapM (λ i, now ← on_world Date_now; mret (buildTtlWarning now i latestLedger)) invoices;
      mret (sort_by tw_expiryLedger (omap id warnings)))
  (λ _, mret []).

End services.

(** ** Properties of the data *)

(** Notification preferences survive storage: whatever is in the browser's
    storage, loading it gives preferences that are unchanged by saving and loading
    them again; and an alert type without a stored choice is enabled. *)
Theorem preferences_roundtrip stored alertType :
  let p := loadNotificationPreferences true stored in
  loadNotificationPreferences true (Some (saved_preferences p)) = p
  ∧ (get_prop_opt (np_inApp p) (alert_type_string alertType) = JUndef → isInAppEnabled true stored alertType = true).
Proof.
  cbv zeta. split.
  - assert (∀ p, truthy (np_inApp p) = true → is_object (np_inApp p) = true →
      loadNotificationPreferences true (Some (saved_preferences p)) = p) as H.
    { intros [i [b1 s1 l1] [b2 s2 l2]] H1 H2. cbn in *. by rewrite H1, H2. }
    apply H; unfold loadNotificationPreferences; cbn [negb];
      (destruct stored as [s|]; [|done]); (destruct (negb _ || _); [done|]); cbn [np_inApp];
      (destruct (_ && _) eqn:E; [|done]); by apply andb_prop in E as [? ?].
  - intros H. unfold isInAppEnabled. cbn [negb]. by rewrite H.
Qed.

(** Shapes of addresses. *)
Lemma dotted_spec before s :
  dotted before s = true ↔ ∃ b c, s = b +:+ "." +:+ c ∧ word (before +:+ b) = true ∧ word c = true.
Proof.
  revert before. induction s as [|x s IH]; intros before; cbn [dotted].
  { split; [done|]. intros ([|? ?]&c&?&_); done. }
  rewrite orb_true_iff, IH. split.
  - intros [H|(b&c&->&Hb&Hc)].
    + apply andb_prop in H as [[->%Ascii.eqb_eq Hb]%andb_prop Hc]. exists "", s. by rewrite append_nil_r.
    + exists (String x b), c. rewrite append_cons. by rewrite <-append_assoc in Hb.
  - intros ([|x' b]&c&E&Hb&Hc).
    + rewrite append_empty, append_cons, append_empty in E. injection E as -> ->. left.
      rewrite append_nil_r in Hb. by rewrite Hb, Hc.
    + rewrite append_cons in E. injection E as -> ->. right. exists b, c.
      rewrite <-append_assoc. split_and!; done.
Qed.

Lemma at_then_dotted_spec before s :
  at_then_dotted before s = true ↔
  ∃ a d, s = a +:+ "@" +:+ d ∧ word (before +:+ a) = true ∧ dotted "" d = true.
Proof.
  revert before. induction s as [|x s IH]; intros before; cbn [at_then_dotted].
  { split; [done|]. intros ([|? ?]&c&?&_); done. }
  rewrite orb_true_iff, IH. split.
  - intros [H|(a&d&->&Ha&Hd)].
    + apply andb_prop in H as [[->%Ascii.eqb_eq Ha]%andb_prop Hd]. exists "", s. by rewrite append_nil_r.
    + exists (String x a), d. rewrite append_cons. by rewrite <-append_assoc in Ha.
  - intros ([|x' a]&d&E&Ha&Hd).
    + rewrite append_empty, append_cons, append_empty in E. injection E as -> ->. left.
      rewrite append_nil_r in Ha. by rewrite Ha, Hd.
    + rewrite append_cons in E. injection E as -> ->. right. exists a, d.
      rewrite <-append_assoc. split_and!; done.
Qed.

Lemma isValidEmail_spec email :
  isValidEmail email = true ↔ ∃ a b c, trim email = a +:+ "@" +:+ b +:+ "." +:+ c
    ∧ word a = true ∧ word b = true ∧ word c = true.
Proof.
  unfold isValidEmail. assert (at_then_dotted "" (trim email) = true ↔
    ∃ a b c, trim email = a +:+ "@" +:+ b +:+ "." +:+ c ∧ word a = true ∧ word b = true ∧ word c = true) as H.
  { rewrite at_then_dotted_spec. split.
    - intros (a&d&->&Ha&(b&c&->&Hb&Hc)%dotted_spec). rewrite append_empty in *. eauto 10.
    - intros (a&b&c&->&Ha&Hb&Hc). exists a, (b +:+ "." +:+ c). split_and!; [done..|].
      apply dotted_spec. exists b, c. done. }
  destruct (String.eqb_spec (trim email) "") as [->|_]; [|exact H].
  split; [done|]. intros ([|? ?]&b&c&?&_); done.
Qed.

(** The large-transaction rule has no rounding gap: on amounts up to 2^53
    stroops it fires exactly from 5000 units, that is 50 billion stroops, on,
    although it compares a rounded quotient. *)
Theorem large_transaction_threshold amount :
  0 ≤ amount < 2 ^ 53 → is_large amount = (50000000000 <=? amount).
Proof.
  intros Ha. unfold is_large, human_amount, LARGE_TX_THRESHOLD.
  rewrite leb_div_exact by (unfold safe; lia).
  destruct (Z.leb_spec 5000 (amount / 10000000)), (Z.leb_spec 50000000000 amount); try done.
  - exfalso. pose proof (Z.mul_div_le amount 10000000 ltac:(lia)). lia.
  - assert (5000 ≤ amount / 10000000) by (apply Z.div_le_lower_bound; lia). lia.
Qed.

(** The expiry warning ignores where the chain is: [expiryLedger] counts from
    ledger 0 and is compared with the current ledger, so once the chain is longer
    than the invoice's age and lifetime together, every tracked invoice, however
    new, is reported as expired with the highest severity. *)
Theorem ttl_warning_any_age now i currentLedger :
  in_status i ≠ Expired → elapsedLedgers now i + ttl_ledgers (in_status i) ≤ currentLedger < 2 ^ 53 →
  buildTtlWarning now i currentLedger = Some {|
    tw_id := in_id i; tw_status := in_status i;
    tw_expiryLedger := elapsedLedgers now i + ttl_ledgers (in_status i);
    tw_remainingDays := 0; tw_severity := high |}.
Proof.
  intros Hs Hc. unfold buildTtlWarning, shouldTrackInvoice. rewrite bool_decide_false by done. cbn [negb].
  set (x := elapsedLedgers now i + ttl_ledgers (in_status i)) in *.
  assert (0 ≤ x) as Hx by (unfold x, elapsedLedgers, ttl_ledgers, TERMINAL_TTL_DAYS, ACTIVE_TTL_DAYS; case_match; lia).
  replace (x - currentLedger) with (- (currentLedger - x)) by lia.
  rewrite ceil_Z_div_neg by (unfold safe; lia). cbn [default]. unfold id.
  pose proof (Z.div_pos (currentLedger - x) 17280 ltac:(lia) ltac:(lia)).
  unfold WARNING_WINDOW_DAYS. set (q := (currentLedger - x) / 17280) in *.
  destruct (Z.ltb_spec 30 (- q)); [lia|]. destruct (Z.leb_spec (- q) 7); [|lia].
  by rewrite Z.max_l by lia.
Qed.

(** ** Properties of the monitor *)
Section monitor.
Context {W ScVal : Type} (env : string → option string) (isBrowser : bool) (stored : W → option jsval)
  (Date_now : M W Z) (callback : nat → NotificationAlert → M W unit)
  (post_webhook : string → NotificationAlert → M W unit)
  (writeFile : Z → M W unit) (toLocaleString : number → string)
  (rpcGetLatestLedger : M W Z) (scValToNative : ScVal → result jsval)
  (rpcGetEvents : Z → list string → M W (list (RpcEvent (ScVal := ScVal)))).

Local Abbreviation P := (Process (W := W)).
Local Abbreviation event_step := (processEvent env isBrowser stored Date_now callback post_webhook toLocaleString).
Local Abbreviation poll := (pollEvents env isBrowser stored Date_now callback post_webhook writeFile
  toLocaleString rpcGetLatestLedger scValToNative rpcGetEvents).
Local Abbreviation dispatch := (send env isBrowser stored callback post_webhook).

(** A property of the monitor: calls to the outside keep it. *)
Definition about_monitor (I : Monitor → Prop) (p : P) : Prop := I (monitor p).

Lemma on_world_keeps {A} I (m : M W A) : keeps (about_monitor I) (on_world m).
Proof. intros p Hp. unfold on_world. by destruct (m (outside p)) as [[a|e] w]. Qed.

Lemma modify_monitor_keeps I f : (∀ m, I m → I (f m)) → keeps (about_monitor I) (modify_monitor (W := W) f).
Proof. intros Hf. apply triple_modify. intros p Hp. by apply Hf. Qed.

#[local] Hint Resolve on_world_keeps : keeps.

Lemma send_keeps I alert : keeps (about_monitor I) (dispatch alert).
Proof.
  unfold send, dispatchExternal. keep_steps. apply for_each_keeps. auto with keeps.
Qed.
#[local] Hint Resolve send_keeps : keeps.

(** The checkpoint is not touched by the events of a page. *)
Lemma activity_keeps I address type txHash :
  (∀ h m, I m → I (set_history h m)) →
  keeps (about_monitor I) (checkUnusualActivity env isBrowser stored Date_now callback post_webhook address type txHash).
Proof.
  intros HI. unfold checkUnusualActivity. keep_steps; apply modify_monitor_keeps; intros m; apply HI.
Qed.

Lemma processEvent_keeps I event :
  (∀ h m, I m → I (set_history h m)) → keeps (about_monitor I) (event_step event).
Proof.
  intros HI. unfold processEvent, send_now. keep_steps. by apply activity_keeps.
Qed.

Lemma prune_due_keeps I :
  (∀ h m, I m → I (set_history h m)) → (∀ t m, I m → I (set_pruned t m)) →
  keeps (about_monitor I) (prune_due Date_now (W := W)).
Proof. intros H1 H2. unfold prune_due. keep_steps; apply modify_monitor_keeps; auto. Qed.

(** [pruned] and the time of the last prune aside, what a failing poll leaves. *)
Definition checkpoint_is (L : Z) (f : option Z) (m : Monitor) : Prop := lastLedger m = L ∧ checkpointFile m = f.

Lemma bind_Ok {S A B} (m : M S A) (f : A → M S B) s b s' :
  (m ≫= f) s = (Ok b, s') ↔ ∃ a s1, m s = (Ok a, s1) ∧ f a s1 = (Ok b, s').
Proof.
  unfold mbind, M_bind. destruct (m s) as [[a|e] s1]; [|by split; [|intros (?&?&?&?)]].
  split; [eauto|]. by intros (?&?&[= <- <-]&?).
Qed.

Lemma on_world_Ok {A} (m : M W A) (p p' : P) a :
  on_world m p = (Ok a, p') → m (outside p) = (Ok a, outside p') ∧ monitor p' = monitor p.
Proof. unfold on_world. destruct (m (outside p)) as [r w]. by intros [= -> <-]. Qed.

Lemma saveCheckpoint_keeps I : (∀ m, I m → I (set_checkpoint (Some (lastLedger m)) m)) →
  keeps (about_monitor I) (saveCheckpoint Date_now writeFile).
Proof. intros HI. unfold saveCheckpoint. keep_steps. by apply modify_monitor_keeps. Qed.

(** What a page does, up to its processing. *)
Lemma poll_body_Ok invoice pool p evs p' :
  poll_body env isBrowser stored Date_now callback post_webhook writeFile toLocaleString
    rpcGetLatestLedger scValToNative rpcGetEvents invoice pool p = (Ok evs, p') →
  ∃ w1 w2 w3 w4 endLedger raw q q',
    rpcGetLatestLedger w1 = (Ok endLedger, w2)
    ∧ rpcGetEvents (if lastLedger (monitor p) =? 0 then endLedger - 100 else lastLedger (monitor p))
        [invoice; pool] w3 = (Ok raw, w4)
    ∧ mapM (decode_event scValToNative) raw = Ok evs
    ∧ for_each evs event_step q = (Ok tt, q')
    ∧ lastLedger (monitor p') = endLedger + 1
    ∧ (checkpointFile (monitor p') = checkpointFile (monitor p) ∨ checkpointFile (monitor p') = Some (endLedger + 1)).
Proof.
  unfold poll_body. intros ([]&p1&Hprune&H)%bind_Ok.
  pose proof (prune_due_keeps (checkpoint_is (lastLedger (monitor p)) (checkpointFile (monitor p)))
    ltac:(done) ltac:(done) p) as Hk. rewrite Hprune in Hk. destruct (Hk (conj eq_refl eq_refl)) as [HL Hf].
  apply bind_Ok in H as (endLedger&p2&Hlatest&H). apply on_world_Ok in Hlatest as [Hlatest E2].
  apply bind_Ok in H as (p2'&p2''&[= <- <-]&H). cbv zeta in H. rewrite E2, HL in H.
  apply bind_Ok in H as (raw&p3&Hraw&H). apply on_world_Ok in Hraw as [Hraw E3].
  apply bind_Ok in H as (events&p4&[= Hdec <-]&H).
  apply bind_Ok in H as ([]&p5&Hproc&H).
  apply bind_Ok in H as ([]&p6&[= <-]&H).
  apply bind_Ok in H as ([]&p7&Hsave&[= <- <-]).
  assert (checkpointFile (monitor p5) = checkpointFile (monitor p)) as Hf5.
  { pose proof (for_each_keeps (about_monitor (λ m, checkpointFile m = checkpointFile (monitor p))) event_step events
      ltac:(intros; by apply processEvent_keeps) p3) as Hk5. rewrite Hproc in Hk5. apply Hk5.
    unfold about_monitor. by rewrite E3, E2. }
  exists (outside p1), (outside p2), (outside p2), (outside p3), endLedger, raw, p3, p5.
  set (saved := λ m, lastLedger m = endLedger + 1
    ∧ (checkpointFile m = checkpointFile (monitor p) ∨ checkpointFile m = Some (endLedger + 1))).
  assert (keeps (about_monitor saved) (saveCheckpoint (W := W) Date_now writeFile)) as Hs.
  { apply saveCheckpoint_keeps. unfold saved. cbn. intros m [-> _]. auto. }
  match type of Hsave with _ ?q = _ => assert (about_monitor saved q) as Hq end.
  { split; [done|left; exact Hf5]. }
  specialize (Hs _ Hq). rewrite Hsave in Hs. destruct Hs as [H1 H2].
  split_and!; done.
Qed.

(** What a failing poll leaves. *)
Lemma poll_body_Throw I invoice pool :
  (∀ h m, I m → I (set_history h m)) → (∀ t m, I m → I (set_pruned t m)) →
  triple (about_monitor I) (poll_body env isBrowser stored Date_now callback post_webhook writeFile
    toLocaleString rpcGetLatestLedger scValToNative rpcGetEvents invoice pool) (λ _ _, True) (about_monitor I).
Proof.
  intros H1 H2. unfold poll_body.
  eapply triple_bind; [by apply prune_due_keeps|intros ?].
  eapply triple_bind; [apply on_world_keeps|intros endLedger].
  eapply triple_bind; [apply keeps_get|intros q].
  eapply triple_bind; [apply on_world_keeps|intros raw].
  eapply triple_bind; [apply keeps_lift|intros events].
  eapply triple_bind; [apply for_each_keeps; intros e; by apply processEvent_keeps|intros ?].
  intros q' _. unfold mbind, M_bind, modify_monitor, modify, saveCheckpoint, try_catch. cbn.
  match goal with |- context [(get_state ≫= ?f) ?q] => by destruct ((get_state ≫= f) q) as [[?|?] ?] end.
Qed.

(** The monitor's checkpoint never runs ahead of its work: a poll always
    returns, and it moves the checkpoint, in memory and on disk, only after every
    event of the page it fetched from the checkpoint on was processed, and then to
    the ledger after the node's latest; a poll that fails anywhere leaves it. *)
Theorem checkpoint_after_processing p :
  ∃ evs, (poll p).1 = Ok evs
  ∧ ((evs = [] ∧ lastLedger (monitor (poll p).2) = lastLedger (monitor p)
      ∧ checkpointFile (monitor (poll p).2) = checkpointFile (monitor p))
     ∨ ∃ w1 w2 w3 w4 endLedger raw q q',
         rpcGetLatestLedger w1 = (Ok endLedger, w2)
         ∧ rpcGetEvents (if lastLedger (monitor p) =? 0 then endLedger - 100 else lastLedger (monitor p))
             [contract_id env "NEXT_PUBLIC_INVOICE_CONTRACT_ID"; contract_id env "NEXT_PUBLIC_POOL_CONTRACT_ID"] w3
           = (Ok raw, w4)
         ∧ mapM (decode_event scValToNative) raw = Ok evs
         ∧ for_each evs event_step q = (Ok tt, q')
         ∧ lastLedger (monitor (poll p).2) = endLedger + 1
         ∧ (checkpointFile (monitor (poll p).2) = checkpointFile (monitor p)
            ∨ checkpointFile (monitor (poll p).2) = Some (endLedger + 1))).
Proof.
  unfold pollEvents. destruct (String.eqb _ _ || String.eqb _ _).
  { exists []. split; [done|by left]. }
  unfold try_catch. destruct (poll_body _ _ _ _ _ _ _ _ _ _ _ _ _ p) as [[evs|e] p'] eqn:E.
  - exists evs. split; [done|]. right. by apply poll_body_Ok.
  - exists []. split; [done|]. left. split; [done|].
    pose proof (poll_body_Throw (checkpoint_is (lastLedger (monitor p)) (checkpointFile (monitor p)))
      (contract_id env "NEXT_PUBLIC_INVOICE_CONTRACT_ID") (contract_id env "NEXT_PUBLIC_POOL_CONTRACT_ID")
      ltac:(done) ltac:(done) p (conj eq_refl eq_refl)) as H. by rewrite E in H.
Qed.

(** ** An event the monitor cannot read *)

Lemma for_each_throws {A} I (l : list A) (body : A → M P unit) x :
  x ∈ l → (∀ y, keeps I (body y)) → (∀ q, ∃ e, (body x q).1 = Throw e) →
  triple I (for_each l body) (λ _ _, False) I.
Proof.
  intros Hx Hk Ht. induction l as [|y l IH]; [by apply not_elem_of_nil in Hx|]. cbn [for_each].
  apply elem_of_cons in Hx as [<-|Hx].
  - apply (triple_bind _ _ (λ _ _, False)); [|intros ? ? []]. intros q Hq.
    specialize (Hk x q Hq). destruct (Ht q) as [e E]. destruct (body x q) as [[[]|e'] q']; [done|exact Hk].
  - eapply triple_bind; [apply Hk|]. intros ?. by apply IH.
Qed.

(** [classify] throws: a [created], [deposit] or like event whose value does not
    destructure to an integer amount. *)
Definition unreadable (event : ContractEvent) : Prop := ∃ e, classify event = Throw e.

Lemma unreadable_throws event q : unreadable event → ∃ e, (event_step event q).1 = Throw e.
Proof. intros [e E]. exists e. unfold processEvent. by rewrite E. Qed.

Fixpoint polls (n : nat) : M P unit :=
  match n with O => mret tt | S n' => _ ← poll; polls n' end.

(** One event the monitor cannot read stops it for good: while the node returns
    that event in the page after the checkpoint, every poll throws away its page,
    reports nothing and leaves the checkpoint, so the same page is fetched, and the
    alerts of its earlier events raised again, at every poll, and no later event is
    ever looked at. *)
Theorem unreadable_event_blocks L event :
  L ≠ 0 → unreadable event →
  (∀ ids w, match rpcGetEvents L ids w with
            | (Ok raw, _) => ∃ e, e ∈ raw ∧ decode_event scValToNative e = Ok event
            | (Throw _, _) => True end) →
  ∀ n, triple (about_monitor (λ m, lastLedger m = L))
         (_ ← polls n; poll) (λ evs p, evs = [] ∧ lastLedger (monitor p) = L) (λ _, False).
Proof.
  intros HL Hbad Hpage.
  assert (triple (about_monitor (λ m, lastLedger m = L)) poll (λ evs p, evs = [] ∧ lastLedger (monitor p) = L) (λ _, False)) as Hpoll.
  { unfold pollEvents. destruct (_ || _); [by apply triple_ret'|].
    apply (triple_try_catch _ _ _ _ (about_monitor (λ m, lastLedger m = L))); [|intros e; by apply triple_ret'].
    apply (triple_conseq _ (about_monitor (λ m, lastLedger m = L)) _ _ (λ _ _, False) _ (about_monitor (λ m, lastLedger m = L)));
      [|done..]. unfold poll_body.
    eapply triple_bind; [by apply prune_due_keeps|intros ?].
    eapply triple_bind; [apply on_world_keeps|intros endLedger].
    eapply (triple_bind _ _ (λ q q', q = q' ∧ lastLedger (monitor q) = L)); [by apply triple_get|intros q].
    apply (triple_bind _ _ (λ raw q, lastLedger (monitor q) = L ∧ ∃ e, e ∈ raw ∧ decode_event scValToNative e = Ok event)).
    { intros q' [<- Hq]. rewrite Hq, (proj2 (Z.eqb_neq _ _)) by done. unfold on_world.
      specialize (Hpage [contract_id env "NEXT_PUBLIC_INVOICE_CONTRACT_ID"; contract_id env "NEXT_PUBLIC_POOL_CONTRACT_ID"] (outside q)).
      destruct (rpcGetEvents _ _ _) as [[raw|e] w]; done. }
    intros raw. apply (triple_bind _ _ (λ evs q, lastLedger (monitor q) = L ∧ event ∈ evs)).
    { apply triple_lift. intros q' [Hq (e&He&Hd)]. destruct (mapM _ raw) as [evs|x] eqn:Em; [|done].
      split; [done|]. by eapply mapM_Ok_elem. }
    intros evs. intros q' [Hq' Hin]. revert q' Hq'.
    apply (triple_bind _ _ (λ _ _, False)); [|intros ? ? []].
    apply (for_each_throws (about_monitor (λ m, lastLedger m = L)) evs _ event); [done| |].
    - intros y. by apply processEvent_keeps.
    - intros q'. by apply unreadable_throws. }
  intros n. eapply triple_bind; [|intros ?; exact Hpoll].
  induction n as [|n IH]; [by apply triple_ret'|]. cbn [polls].
  eapply triple_bind; [exact Hpoll|]. intros evs. eapply triple_conseq; [exact IH| |done..]. by intros q [_ ?].
Qed.

(** ** The activity tracker is bounded *)

Definition bounded_history (h : list (string * list (string * list Z))) : Prop :=
  Forall (λ a, Forall (λ t, (length t.2 ≤ 101)%nat) a.2) h.

Lemma within_window_length now l : (length (within_window now l) ≤ 100)%nat.
Proof.
  unfold within_window, last_n, MAX_ACTIVITY_ENTRIES_PER_TYPE. rewrite length_drop. lia.
Qed.

Lemma Forall_jm_set {V} (Q : V → Prop) k v (m : list (string * V)) :
  Q v → Forall (λ kv, Q kv.2) m → Forall (λ kv, Q kv.2) (jm_set k v m).
Proof.
  intros Hv. induction 1 as [|[k' v'] m Hv' Hm IH]; cbn [jm_set]; [by constructor|].
  case_match; by constructor.
Qed.

Lemma bounded_set_times address type l h :
  (length l ≤ 101)%nat → bounded_history h → bounded_history (set_times address type l h).
Proof.
  intros Hl Hh. unfold set_times.
  apply (Forall_jm_set (Forall (λ t, (length t.2 ≤ 101)%nat))); [|done].
  apply (Forall_jm_set (λ t, (length t ≤ 101)%nat)); [done|].
  destruct (jm_get address h) as [ts|] eqn:E; cbn; [|constructor].
  apply jm_get_Some_in in E. unfold bounded_history in Hh. rewrite Forall_forall in Hh. exact (Hh _ E).
Qed.

Lemma bounded_prune now h : bounded_history h → bounded_history (pruneActivityHistory now h).
Proof.
  unfold bounded_history, pruneActivityHistory. rewrite !Forall_forall.
  intros Hh a [_ (a'&->&Ha')%list_elem_of_fmap]%list_elem_of_filter. cbn [snd].
  apply Forall_forall. intros t [_ (t'&->&Ht')%list_elem_of_fmap]%list_elem_of_filter. cbn [snd].
  pose proof (within_window_length (now / 1000) t'.2). lia.
Qed.

Definition bounded : Monitor → Prop := λ m, bounded_history (activityHistory m).

Lemma checkUnusualActivity_bounded address type txHash :
  keeps (about_monitor bounded)
    (checkUnusualActivity env isBrowser stored Date_now callback post_webhook address type txHash).
Proof.
  unfold checkUnusualActivity. apply keeps_bind; [apply on_world_keeps|intros now_ms].
  apply keeps_bind; [apply keeps_get|intros q]. set (times := _ ++ [_]).
  assert (length times ≤ 101)%nat as Ht.
  { unfold times. rewrite length_app. cbn [length].
    pose proof (within_window_length (now_ms / 1000) (times_of (js_String address) type (activityHistory (monitor q)))). lia. }
  keep_steps; apply modify_monitor_keeps; intros m Hm; apply bounded_set_times; try done; cbn; lia.
Qed.

(** The monitor's memory of activity stays bounded, whatever it reads and
    whichever callbacks fail: no address and event type ever has more than 101
    times, one more than the cap, through any poll. *)
Theorem activity_bounded now file :
  bounded (new_monitor now file) ∧ keeps (about_monitor bounded) poll.
Proof.
  split; [constructor|]. unfold pollEvents. keep_steps. unfold poll_body, prune_due. keep_steps.
  - apply modify_monitor_keeps. intros m. apply bounded_prune.
  - by apply modify_monitor_keeps.
  - apply for_each_keeps. intros e. unfold processEvent, send_now. keep_steps.
    apply checkUnusualActivity_bounded.
  - by apply modify_monitor_keeps.
  - by apply saveCheckpoint_keeps.
Qed.
End monitor.

(** ** app/settings/notifications/page.tsx

    The page of the preferences, with the item that the browser stores. *)
Module SettingsPage.

Inductive message := Said (text : string) | Failed (text : string).

Section page.
(** The parser of URLs, and a POST to the web server: whether it is ok, its status, and
    its body or that it is no JSON. *)
Context {W : Type} (isValidWebhookUrl : string → bool) (csrfFetch : string → jsval → M W (bool * Z * result jsval)).

Record Settings := {
  st_prefs : NotificationPreferences; st_saving : bool; st_testingWebhook : bool; st_stored : option jsval;
  st_messages : list message; st_world : W }.

Definition set_prefs (f : NotificationPreferences → NotificationPreferences) (s : Settings) : Settings := {|
  st_prefs := f (st_prefs s); st_saving := st_saving s; st_testingWebhook := st_testingWebhook s; st_stored := st_stored s;
  st_messages := st_messages s; st_world := st_world s |}.
Definition set_busy (saving testing : bool) (s : Settings) : Settings := {|
  st_prefs := st_prefs s; st_saving := saving; st_testingWebhook := testing; st_stored := st_stored s;
  st_messages := st_messages s; st_world := st_world s |}.
Definition store (p : NotificationPreferences) (s : Settings) : Settings := {|
  st_prefs := st_prefs s; st_saving := st_saving s; st_testingWebhook := st_testingWebhook s;
  st_stored := Some (saved_preferences p); st_messages := st_messages s; st_world := st_world s |}.
Definition say (m : message) (s : Settings) : Settings := {|
  st_prefs := st_prefs s; st_saving := st_saving s; st_testingWebhook := st_testingWebhook s; st_stored := st_stored s;
  st_messages := st_messages s ++ [m]; st_world := st_world s |}.
Definition on_server {A} (m : M W A) : M Settings A := λ s,
  let '(r, w) := m (st_world s) in
  (r, {| st_prefs := st_prefs s; st_saving := st_saving s; st_testingWebhook := st_testingWebhook s;
         st_stored := st_stored s; st_messages := st_messages s; st_world := w |}).

Definition with_email (f : ChannelPreferences → ChannelPreferences) (p : NotificationPreferences) : NotificationPreferences :=
  {| np_inApp := np_inApp p; np_email := f (np_email p); np_webhook := np_webhook p |}.
Definition with_webhook (f : ChannelPreferences → ChannelPreferences) (p : NotificationPreferences) : NotificationPreferences :=
  {| np_inApp := np_inApp p; np_email := np_email p; np_webhook := f (np_webhook p) |}.

(** [{ ...v, [k]: x }]. *)
Fixpoint obj_put (k : string) (x : jsval) (o : list (string * jsval)) : list (string * jsval) :=
  match o with
  | [] => [(k, x)]
  | (k', v) :: o' => if String.eqb k' k then (k, x) :: o' else (k', v) :: obj_put k x o'
  end.
Definition spread (v : jsval) : list (string * jsval) :=
  match v with
  | JObj o => o
  | JArr l => imap (λ i x, (pretty (Z.of_nat i), x)) l
  | _ => []
  end.

(** The page is shown: the preferences are loaded, and a link that unsubscribes an
    address turns its notifications off. *)
Definition unsubscribed (email : string) (p : NotificationPreferences) : NotificationPreferences :=
  with_email (λ _, {| cp_enabled := false; cp_target := email; cp_events := [] |}) p.
Definition shown (unsubscribe : option string) (s : Settings) : Settings :=
  let s := set_prefs (λ _, loadNotificationPreferences true (st_stored s)) s in
  match unsubscribe with
  | None | Some "" => s
  | Some email =>
      let next := unsubscribed email (st_prefs s) in
      say (Said "Email notifications have been unsubscribed in this browser.") (store next (set_prefs (λ _, next) s))
  end.

Definition setInAppEventEnabled (type : string) (enabled : bool) (s : Settings) : Settings :=
  let p := st_prefs s in
  let next := {| np_inApp := JObj (obj_put type (JBool enabled) (spread (np_inApp p))); np_email := np_email p;
                 np_webhook := np_webhook p |} in
  store next (set_prefs (λ _, next) s).

Definition same_text (type : string) (v : jsval) : bool := match v with JStr s => String.eqb s type | _ => false end.
Definition toggleArray (arr : list jsval) (type : string) (enabled : bool) : list jsval :=
  if enabled then (if existsb (same_text type) arr then arr else arr ++ [JStr type])
  else List.filter (λ v, negb (same_text type v)) arr.
Definition toggle_event (type : string) (enabled : bool) (c : ChannelPreferences) : ChannelPreferences :=
  {| cp_enabled := cp_enabled c; cp_target := cp_target c; cp_events := toggleArray (cp_events c) type enabled |}.
Definition enable (b : bool) (c : ChannelPreferences) : ChannelPreferences :=
  {| cp_enabled := b; cp_target := cp_target c; cp_events := cp_events c |}.
Definition type_target (text : string) (c : ChannelPreferences) : ChannelPreferences :=
  {| cp_enabled := cp_enabled c; cp_target := text; cp_events := cp_events c |}.

(** What is wrong with a channel that is enabled. *)
Definition channel_problem (valid : string → bool) (invalid no_event : string) (c : ChannelPreferences) : option string :=
  if cp_enabled c then
    if negb (valid (cp_target c)) then Some invalid
    else match cp_events c with [] => Some no_event | _ => None end
  else None.
Definition problem (p : NotificationPreferences) : option string :=
  match channel_problem isValidEmail "Please enter a valid email address before enabling email notifications."
          "Select at least one event for email notifications (or disable email)." (np_email p) with
  | Some text => Some text
  | None =>
      channel_problem isValidWebhookUrl "Please enter a valid webhook URL (http/https) before enabling webhooks."
        "Select at least one event for webhook forwarding (or disable webhooks)." (np_webhook p)
  end.

Definition saveExternalPreferences : M Settings unit :=
  s ← get_state;
  let prefs := st_prefs s in
  match problem prefs with
  | Some text => modify (say (Failed text))
  | None =>
      modify (λ s, set_busy true (st_testingWebhook s) s);;
      try_catch
        ('(ok, status, _) ← on_server (csrfFetch "/api/notifications/preferences"
             (JObj [("email", channel_json (np_email prefs) "email"); ("webhook", channel_json (np_webhook prefs) "url")]));
         if negb ok then throw (EError ("HTTP " +:+ pretty (status : Z)))
         else modify (λ s, say (Said "Notification delivery preferences saved.") (store prefs s)))
        (λ e, modify (say (Failed (exn_message e))));;
      modify (λ s, set_busy false (st_testingWebhook s) s)
  end.

Definition testWebhook : M Settings unit :=
  s ← get_state;
  let url := cp_target (np_webhook (st_prefs s)) in
  if negb (isValidWebhookUrl url) then modify (say (Failed "Enter a valid webhook URL first."))
  else
    modify (λ s, set_busy (st_saving s) true s);;
    try_catch
      ('(ok, status, answer) ← on_server (csrfFetch "/api/notifications/webhook/test" (JObj [("url", JStr url)]));
       body ← lift_result answer;
       succeeded ← lift_result (if (ok : bool) then get_prop body "ok" else Ok JUndef);
       if truthy succeeded then modify (say (Said "Test webhook sent."))
       else
         error ← lift_result (get_prop body "error");
         throw (EError (if truthy error then js_String error else "HTTP " +:+ pretty (status : Z))))
      (λ e, modify (say (Failed (exn_message e))));;
    modify (λ s, set_busy (st_saving s) false s).

Definition resetToDefaults (s : Settings) : Settings :=
  say (Said "Reset in-app preferences to defaults.")
    (store DEFAULT_NOTIFICATION_PREFERENCES (set_prefs (λ _, DEFAULT_NOTIFICATION_PREFERENCES) s)).

(** *** What the page keeps *)

Lemma obj_put_get k x o k' : obj_get (obj_put k x o) k' = if String.eqb k' k then x else obj_get o k'.
Proof.
  induction o as [|[k1 v] o IH]; cbn [obj_put obj_get]; [done|].
  destruct (String.eqb_spec k1 k) as [->|Hne]; cbn [obj_get]; [by destruct (String.eqb k' k)|].
  rewrite IH. destruct (String.eqb_spec k' k1) as [->|_]; [|done]. by destruct (String.eqb_spec k1 k).
Qed.

(** A choice for the notifications in the application is kept by the browser: alerts of
    that type are shown as was chosen, all others as before. *)
Theorem in_app_choice_kept type enabled s o :
  np_inApp (st_prefs s) = JObj o →
  let stored := st_stored (setInAppEventEnabled (alert_type_string type) enabled s) in
  isInAppEnabled true stored type = enabled ∧
  ∀ other, alert_type_string other ≠ alert_type_string type →
    isInAppEnabled true stored other = truthy (js_coalesce (obj_get o (alert_type_string other)) (JBool true)).
Proof.
  intros Ho stored. subst stored. unfold setInAppEventEnabled. rewrite Ho. cbn [spread store set_prefs st_stored].
  unfold isInAppEnabled, loadNotificationPreferences, saved_preferences. cbn [negb truthy is_object orb np_inApp get_prop_opt obj_get].
  cbn. split; [by rewrite obj_put_get, String.eqb_refl; destruct enabled|].
  intros other Hne. by rewrite obj_put_get, (proj2 (String.eqb_neq _ _)).
Qed.

(** Who follows the link to unsubscribe has no notifications by mail left in what the
    browser stores. *)
Theorem link_unsubscribes email s :
  email ≠ "" →
  np_email (loadNotificationPreferences true (st_stored (shown (Some email) s)))
  = {| cp_enabled := false; cp_target := email; cp_events := [] |}.
Proof.
  intros He. unfold shown. destruct email as [|c email]; [done|]. cbn [say store set_prefs st_stored st_prefs].
  destruct (preferences_roundtrip (st_stored s) LOW_LIQUIDITY) as [_ _].
  unfold loadNotificationPreferences at 1. cbn [negb]. unfold saved_preferences. cbn. done.
Qed.

(** Preferences reach the server only when every channel that is enabled has a valid
    address and an event; what the browser stores is then what was sent. *)
Theorem valid_preferences_are_saved s r s' :
  saveExternalPreferences s = (r, s') → st_world s' ≠ st_world s ∨ st_stored s' ≠ st_stored s →
  let valid check (c : ChannelPreferences) := cp_enabled c = true → check (cp_target c) = true ∧ cp_events c ≠ [] in
  valid isValidEmail (np_email (st_prefs s)) ∧ valid isValidWebhookUrl (np_webhook (st_prefs s)) ∧
  (st_stored s' = st_stored s ∨ st_stored s' = Some (saved_preferences (st_prefs s))).
Proof.
  assert (∀ check a b c, channel_problem check a b c = None → cp_enabled c = true → check (cp_target c) = true ∧ cp_events c ≠ []) as Hok.
  { intros check a b c. unfold channel_problem. intros H Hc. rewrite Hc in H. destruct (check (cp_target c)); [|done].
    by destruct (cp_events c). }
  intros E Hch. unfold saveExternalPreferences, get_state, mbind, M_bind in E. unfold problem in E.
  destruct (channel_problem isValidEmail _ _ _) as [text|] eqn:Ee; [injection E as <- <-; by destruct Hch|].
  destruct (channel_problem isValidWebhookUrl _ _ _) as [text|] eqn:Ew; [injection E as <- <-; by destruct Hch|].
  split; [by eapply Hok|]. split; [by eapply Hok|]. unfold try_catch, on_server, modify in E. cbn [st_world set_busy] in E.
  destruct (csrfFetch _ _ _) as [[[[ok status] body]|e] w]; [|injection E as <- <-; by left].
  destruct ok; injection E as <- <-; [by right|by left].
Qed.
End page.
End SettingsPage.

(** ** components/NotificationBell.tsx *)
Module Bell.

Definition MAX_NOTIFICATIONS : nat := 30.
Record BellState := { bl_notifications : list NotificationAlert; bl_open : bool; bl_hasNew : bool }.

(** What the bell gives to [subscribe]; [stored] is the item of the browser's storage. *)
Definition alerted (stored : option jsval) (alert : NotificationAlert) (b : BellState) : BellState :=
  if negb (isInAppEnabled true stored (al_type alert)) then b
  else {| bl_notifications := take MAX_NOTIFICATIONS (alert :: bl_notifications b); bl_open := bl_open b; bl_hasNew := true |}.
Definition handleOpen (b : BellState) : BellState :=
  {| bl_notifications := bl_notifications b; bl_open := negb (bl_open b); bl_hasNew := false |}.
Definition clicked_outside (b : BellState) : BellState :=
  {| bl_notifications := bl_notifications b; bl_open := false; bl_hasNew := bl_hasNew b |}.
Definition clearAll (b : BellState) : BellState :=
  {| bl_notifications := []; bl_open := false; bl_hasNew := bl_hasNew b |}.

(** The bell shows the newest thirty of the alerts that are enabled, newest first. *)
Theorem bell_shows_the_newest stored alerts b :
  (length (bl_notifications b) ≤ MAX_NOTIFICATIONS)%nat →
  bl_notifications (foldl (λ b a, alerted stored a b) b alerts)
  = take MAX_NOTIFICATIONS (rev (List.filter (λ a, isInAppEnabled true stored (al_type a)) alerts) ++ bl_notifications b).
Proof.
  intros Hb. induction alerts as [|a alerts IH] using rev_ind; [by rewrite take_ge|].
  rewrite foldl_app, List.filter_app. cbn [foldl List.filter]. unfold alerted at 1.
  destruct (isInAppEnabled true stored (al_type a)); cbn [negb bl_notifications]; [|by rewrite app_nil_r].
  rewrite IH, rev_app_distr. cbn [rev app]. unfold MAX_NOTIFICATIONS. cbn [take]. f_equal. by rewrite take_take.
Qed.
End Bell.

(** ** app/api/health/route.ts *)
Module Health.

Inductive Status := ok | degraded | down.
Record HealthCheck := { hc_name : string; hc_status : Status; hc_detail : string }.

Definition RPC_TIMEOUT_MS : Z := 5000.

Definition is_down (s : Status) : bool := match s with down => true | _ => false end.
Definition is_degraded (s : Status) : bool := match s with degraded => true | _ => false end.
Definition overallStatus (checks : list HealthCheck) : Status :=
  let statuses := map hc_status checks in
  if existsb is_down statuses then down else if existsb is_degraded statuses then degraded else ok.

Record HealthResponse := {
  hr_status : Status; hr_checks : list HealthCheck; hr_contracts : list (string * string); hr_timestamp : string }.

Definition contractId (value : option string) : string :=
  match value with
  | Some id => if String.eqb (trim id) "" then "not_configured" else trim id
  | None => "not_configured"
  end.

Section route.
(** [fetch] with the signal that aborts it after [RPC_TIMEOUT_MS]: whether the answer is
    ok, and its status. *)
Context {W : Type} (Date_now : M W Z) (fetch_rpc : M W (bool * Z)) (fetch_service : string → M W (bool * Z))
  (post_alert : string → HealthResponse → M W unit) (toISOString : M W string) (env : string → option string).

Definition ORACLE_SERVICE_URL : string := default "http://localhost:8080/health" (env "ORACLE_SERVICE_URL").
Definition COMPLIANCE_SERVICE_URL : string := default "http://localhost:8081/health" (env "COMPLIANCE_SERVICE_URL").

(** [checkRpc] and [checkHttpService] differ only in the request. *)
Definition check_with (name : string) (request : M W (bool * Z)) : M W HealthCheck :=
  try_catch
    (start ← Date_now;
     '(answered, status) ← request;
     now ← Date_now;
     let elapsed := now - start in
     mret (if negb answered then {| hc_name := name; hc_status := down; hc_detail := "HTTP " +:+ pretty (status : Z) |}
           else if RPC_TIMEOUT_MS <? elapsed
           then {| hc_name := name; hc_status := degraded;
                   hc_detail := "Response time " +:+ pretty elapsed +:+ "ms > " +:+ pretty RPC_TIMEOUT_MS +:+ "ms" |}
           else {| hc_name := name; hc_status := ok; hc_detail := pretty elapsed +:+ "ms" |}))
    (λ err, mret {| hc_name := name; hc_status := down; hc_detail := exn_message err |}).
Definition checkRpc : M W HealthCheck := check_with "stellar_rpc" fetch_rpc.
Definition checkHttpService (name url : string) : M W HealthCheck := check_with name (fetch_service url).

Definition fireWebhook (payload : HealthResponse) : M W unit :=
  match env "ALERT_WEBHOOK_URL", hr_status payload with
  | None, _ | Some "", _ | _, ok => mret tt
  | Some webhookUrl, _ => try_catch (post_alert webhookUrl payload) (λ _, mret tt)
  end.
Definition severity (s : Status) : string := if is_down s then "critical" else "warning".

Definition GET : M W (HealthResponse * Z) :=
  rpc ← checkRpc;
  oracle ← checkHttpService "oracle_service" ORACLE_SERVICE_URL;
  compliance ← checkHttpService "compliance_service" COMPLIANCE_SERVICE_URL;
  timestamp ← toISOString;
  let checks := [rpc; oracle; compliance] in
  let response := {|
    hr_status := overallStatus checks; hr_checks := checks;
    hr_contracts := [("invoice", contractId (env "NEXT_PUBLIC_INVOICE_CONTRACT_ID"));
                     ("pool", contractId (env "NEXT_PUBLIC_POOL_CONTRACT_ID"));
                     ("creditScore", contractId (env "NEXT_PUBLIC_CREDIT_SCORE_CONTRACT_ID"));
                     ("governance", contractId (env "NEXT_PUBLIC_GOVERNANCE_CONTRACT_ID"))];
    hr_timestamp := timestamp |} in
  fireWebhook response;;
  mret (response, if is_down (hr_status response) then 503 else 200).

(** *** What is answered *)

Lemma overall_spec checks :
  (overallStatus checks = down ↔ Exists (λ c, hc_status c = down) checks) ∧
  (overallStatus checks = ok ↔ Forall (λ c, hc_status c = ok) checks).
Proof.
  unfold overallStatus. induction checks as [|c checks [IH1 IH2]]; cbn [map existsb].
  { split; [|by split; intros; constructor]. split; [done|]. by intros ?%Exists_nil. }
  rewrite Exists_cons, Forall_cons.
  destruct (hc_status c), (existsb is_down _), (existsb is_degraded _); cbn [is_down is_degraded orb] in *; naive_solver.
Qed.

Lemma check_with_answers name request w : ∃ c w', check_with name request w = (Ok c, w').
Proof.
  unfold check_with, try_catch. match goal with |- context [match ?m with _ => _ end] => destruct m as [[c|e] w'] end; by eexists _, _.
Qed.

(** The route answers whatever happens to the services and to the receiver of alerts: as
    down, with status 503, when one of them is down, as ok when all are, and nobody is
    alerted then. *)
Theorem health_always_answers w :
  (∀ w, ∃ now w', toISOString w = (Ok now, w')) →
  ∃ response code w', GET w = (Ok (response, code), w') ∧ length (hr_checks response) = 3%nat ∧
    (code = 503 ↔ Exists (λ c, hc_status c = down) (hr_checks response)) ∧
    (hr_status response = ok ↔ Forall (λ c, hc_status c = ok) (hr_checks response)).
Proof.
  intros Hiso. unfold GET, checkRpc, checkHttpService.
  destruct (check_with_answers "stellar_rpc" fetch_rpc w) as (c1&w1&E1).
  destruct (check_with_answers "oracle_service" (fetch_service ORACLE_SERVICE_URL) w1) as (c2&w2&E2).
  destruct (check_with_answers "compliance_service" (fetch_service COMPLIANCE_SERVICE_URL) w2) as (c3&w3&E3).
  destruct (Hiso w3) as (now&w4&E4). unfold mbind, M_bind. rewrite E1, E2, E3, E4. cbv zeta.
  set (response := {| hr_status := _ |}).
  assert (∃ w5, fireWebhook response w4 = (Ok tt, w5)) as (w5&->).
  { unfold fireWebhook. destruct (env "ALERT_WEBHOOK_URL") as [[|c url]|]; [by eexists| |by eexists].
    destruct (hr_status response); [by eexists|..]; unfold try_catch;
      destruct (post_alert _ _ w4) as [[[]|e] w5]; by eexists. }
  exists response, (if is_down (hr_status response) then 503 else 200), w5. split; [done|]. split; [done|].
  destruct (overall_spec (hr_checks response)) as [<- <-]. split; [|done].
  change (overallStatus (hr_checks response)) with (hr_status response). by destruct (hr_status response).
Qed.

Theorem ok_alerts_nobody response w : hr_status response = ok → fireWebhook response w = (Ok tt, w).
Proof. intros H. unfold fireWebhook. rewrite H. by destruct (env "ALERT_WEBHOOK_URL") as [[|]|]. Qed.
End route.
End Health.

(** ** app/admin/monitoring/page.tsx

    The page of the contract's storage; its figures are constants, and the calls of the
    contract are comments. *)
Module StorageHealth.

Record StorageStats := { total_invoices : Z; active_invoices : Z; cleaned_invoices : Z }.
Record StorageView := { sv_stats : StorageStats; sv_estimated_cost_stroops : Z; sv_cleanable_ids : list Z }.
Definition STROOPS_PER_XLM : Z := 10000000.
Definition LEDGERS_PER_MONTH : Z := 518400.
Definition STROOPS_PER_LEDGER_PER_ENTRY : Z := 1.

Definition stroopsToXlm (stroops : Z) : number := num_div (num_of_Z stroops) (num_of_Z STROOPS_PER_XLM).
Definition xlmToUsdc (rate : option number) (xlm : number) : option number := num_mul xlm <$> rate.

Record MonitoringState {S : Type} := {
  mn_health : option StorageView; mn_services : option S; mn_loading : bool; mn_cleanupLoading : bool;
  mn_cleanupResult : option Z; mn_error : option string }.
Arguments MonitoringState : clear implicits.

Definition mockStats : StorageStats := {| total_invoices := 247; active_invoices := 89; cleaned_invoices := 23 |}.
Definition mock_view : StorageView := {|
  sv_stats := mockStats;
  sv_estimated_cost_stroops := active_invoices mockStats * STROOPS_PER_LEDGER_PER_ENTRY * LEDGERS_PER_MONTH;
  sv_cleanable_ids := map (λ i, Z.of_nat i + 100) (seq 0 12) |}.

(** [services]: what /api/health answered, when it did and was ok; its body may be no
    JSON. *)
Definition fetchHealth {S} (services : option (result S)) (s : MonitoringState S) : MonitoringState S :=
  match services with
  | Some (Throw e) => {|
      mn_health := mn_health s; mn_services := mn_services s; mn_loading := false;
      mn_cleanupLoading := mn_cleanupLoading s; mn_cleanupResult := mn_cleanupResult s; mn_error := Some (exn_message e) |}
  | _ => {|
      mn_health := Some mock_view;
      mn_services := match services with Some (Ok data) => Some data | _ => mn_services s end;
      mn_loading := false; mn_cleanupLoading := mn_cleanupLoading s; mn_cleanupResult := mn_cleanupResult s;
      mn_error := None |}
  end.

(** The [for] loop over the ids in groups of [BATCH]. *)
Definition BATCH : nat := 50.
Definition batches (ids : list Z) : list (list Z) :=
  map (λ i, take BATCH (drop (i * BATCH) ids)) (seq 0 ((length ids + BATCH - 1) / BATCH)).
Definition removed (ids : list Z) : Z := sum_by lengthZ (batches ids).

Definition handleCleanup {S} (services : option (result S)) (s : MonitoringState S) : MonitoringState S :=
  match mn_health s with
  | Some {| sv_cleanable_ids := (_ :: _) as ids |} =>
      let s' := fetchHealth services {|
        mn_health := mn_health s; mn_services := mn_services s; mn_loading := mn_loading s; mn_cleanupLoading := true;
        mn_cleanupResult := Some (removed ids); mn_error := mn_error s |} in
      {| mn_health := mn_health s'; mn_services := mn_services s'; mn_loading := mn_loading s';
         mn_cleanupLoading := false; mn_cleanupResult := mn_cleanupResult s'; mn_error := mn_error s' |}
  | _ => s
  end.

Definition costXlm {S} (s : MonitoringState S) : number :=
  match mn_health s with Some h => stroopsToXlm (sv_estimated_cost_stroops h) | None => num_of_Z 0 end.
Definition savingsXlm {S} (s : MonitoringState S) : number :=
  match mn_health s with
  | Some h => stroopsToXlm (lengthZ (sv_cleanable_ids h) * STROOPS_PER_LEDGER_PER_ENTRY * LEDGERS_PER_MONTH)
  | None => num_of_Z 0
  end.
Definition utilizationPct {S} (s : MonitoringState S) : number :=
  match mn_health s with
  | Some h =>
      if 0 <? total_invoices (sv_stats h)
      then Math_round (num_mul (num_div (num_of_Z (active_invoices (sv_stats h))) (num_of_Z (total_invoices (sv_stats h))))
                         (num_of_Z 100))
      else num_of_Z 0
  | None => num_of_Z 0
  end.

(** The groups are the ids, each once. *)
Lemma batches_are_the_ids ids : concat (batches ids) = ids.
Proof.
  unfold batches, BATCH.
  assert (∀ n, concat (map (λ i, take 50 (drop (i * 50) ids)) (seq 0 n)) = take (n * 50) ids) as H.
  { induction n as [|n IH]; [done|]. rewrite seq_S, map_app, concat_app, IH. cbn [map concat]. rewrite app_nil_r.
    cbn [Nat.add]. rewrite take_take_drop. f_equal. lia. }
  rewrite H. apply take_ge. pose proof (Nat.div_mod_eq (length ids + 50 - 1) 50).
  pose proof (Nat.mod_upper_bound (length ids + 50 - 1) 50). lia.
Qed.

(** A cleanup is reported as done for all ids, and the page shows the same ids as before:
    nothing was removed. *)
Theorem cleanup_removes_nothing {S} (s : MonitoringState S) services :
  mn_health s = Some mock_view → (∀ e, services ≠ Some (Throw e)) →
  mn_cleanupResult (handleCleanup services s) = Some 12 ∧ mn_health (handleCleanup services s) = mn_health s.
Proof.
  intros H Hs. unfold handleCleanup. rewrite H. unfold fetchHealth.
  destruct services as [[data|e]|]; [|by destruct (Hs e)|]; (split; [by vm_compute|done]).
Qed.
Theorem reported_is_all ids : removed ids = lengthZ ids.
Proof.
  unfold removed. rewrite <- (batches_are_the_ids ids) at 2. generalize (batches ids). intros l.
  unfold lengthZ, sum_by. induction l as [|b l IH]; [done|]. cbn. rewrite length_app, Nat2Z.inj_add, <- IH. unfold lengthZ. lia.
Qed.
End StorageHealth.
