(* ===== verification/SseEvents.v ===== *)
(** * frontend: the browser's event service

    lib/sse-events.ts: a poller that runs while consumers want it and the page is
    visible, shows each contract event once, and feeds the store and the alerts.
    The first part is its life cycle, as a transition system over the timers of
    the page; the second is a poll, over the process of [Alerts]. *)
From S2P Require Import Prelude.
From S2P Require Import JsValue.
From S2P Require Import JsNumber.
From S2P Require Import Alerts.
From Stdlib Require Import Ascii.
#[local] Open Scope string_scope.
#[local] Open Scope list_scope.
#[local] Open Scope Z_scope.

Definition DEFAULT_POLL_INTERVAL_MS : Z := 15000.
Definition MIN_POLL_INTERVAL_MS : Z := 5000.
Definition MAX_EVENTS_HISTORY : nat := 100.

Inductive UserRole := SME | Investor | Admin.

#[export] Instance UserRole_eq_dec : EqDecision UserRole.
Proof. solve_decision. Defined.

(** ** The life cycle *)

Record Service := {
  intervalId : option nat;
  pollIntervalMs : Z;
  isRunning : bool;
  processedEventIds : list string;
  currentRole : UserRole;
  visibilityHandler : bool;
  cleanupCallbacks : list nat;
  consumerCount : Z
}.

(** The page: its live intervals with their periods, the id of the next one, the
    listeners of [visibilitychange], and the cleanups that ran. *)
Record Page := {
  service : Service;
  intervals : list (nat * Z);
  next_interval : nat;
  listeners : nat;
  cleaned : list nat
}.

Definition new_service : Service := {|
  intervalId := None; pollIntervalMs := DEFAULT_POLL_INTERVAL_MS; isRunning := false;
  processedEventIds := []; currentRole := Admin; visibilityHandler := false;
  cleanupCallbacks := []; consumerCount := 0 |}.

Definition upd (f : Service → Service) (p : Page) : Page := {|
  service := f (service p); intervals := intervals p; next_interval := next_interval p;
  listeners := listeners p; cleaned := cleaned p |}.

Definition with_interval i (s : Service) := {| intervalId := i; pollIntervalMs := pollIntervalMs s;
  isRunning := isRunning s; processedEventIds := processedEventIds s; currentRole := currentRole s;
  visibilityHandler := visibilityHandler s; cleanupCallbacks := cleanupCallbacks s; consumerCount := consumerCount s |}.
Definition with_period ms (s : Service) := {| intervalId := intervalId s; pollIntervalMs := ms;
  isRunning := isRunning s; processedEventIds := processedEventIds s; currentRole := currentRole s;
  visibilityHandler := visibilityHandler s; cleanupCallbacks := cleanupCallbacks s; consumerCount := consumerCount s |}.
Definition with_running b (s : Service) := {| intervalId := intervalId s; pollIntervalMs := pollIntervalMs s;
  isRunning := b; processedEventIds := processedEventIds s; currentRole := currentRole s;
  visibilityHandler := visibilityHandler s; cleanupCallbacks := cleanupCallbacks s; consumerCount := consumerCount s |}.
Definition with_processed l (s : Service) := {| intervalId := intervalId s; pollIntervalMs := pollIntervalMs s;
  isRunning := isRunning s; processedEventIds := l; currentRole := currentRole s;
  visibilityHandler := visibilityHandler s; cleanupCallbacks := cleanupCallbacks s; consumerCount := consumerCount s |}.
Definition with_role r (s : Service) := {| intervalId := intervalId s; pollIntervalMs := pollIntervalMs s;
  isRunning := isRunning s; processedEventIds := processedEventIds s; currentRole := r;
  visibilityHandler := visibilityHandler s; cleanupCallbacks := cleanupCallbacks s; consumerCount := consumerCount s |}.
Definition with_handler b (s : Service) := {| intervalId := intervalId s; pollIntervalMs := pollIntervalMs s;
  isRunning := isRunning s; processedEventIds := processedEventIds s; currentRole := currentRole s;
  visibilityHandler := b; cleanupCallbacks := cleanupCallbacks s; consumerCount := consumerCount s |}.
Definition with_cleanups l (s : Service) := {| intervalId := intervalId s; pollIntervalMs := pollIntervalMs s;
  isRunning := isRunning s; processedEventIds := processedEventIds s; currentRole := currentRole s;
  visibilityHandler := visibilityHandler s; cleanupCallbacks := l; consumerCount := consumerCount s |}.
Definition with_consumers n (s : Service) := {| intervalId := intervalId s; pollIntervalMs := pollIntervalMs s;
  isRunning := isRunning s; processedEventIds := processedEventIds s; currentRole := currentRole s;
  visibilityHandler := visibilityHandler s; cleanupCallbacks := cleanupCallbacks s; consumerCount := n |}.

(** [this.intervalId = setInterval(poll, this.pollIntervalMs)]. *)
Definition set_interval (p : Page) : Page := {|
  service := with_interval (Some (next_interval p)) (service p);
  intervals := intervals p ++ [(next_interval p, pollIntervalMs (service p))];
  next_interval := S (next_interval p); listeners := listeners p; cleaned := cleaned p |}.

(** [clearInterval(this.intervalId)]. *)
Definition clear_interval (p : Page) : Page :=
  match intervalId (service p) with
  | Some i => {| service := service p; intervals := filter (λ t, t.1 ≠ i) (intervals p);
                 next_interval := next_interval p; listeners := listeners p; cleaned := cleaned p |}
  | None => p
  end.

Definition setupVisibilityHandler (p : Page) : Page := {|
  service := with_handler true (service p); intervals := intervals p;
  next_interval := next_interval p; listeners := S (listeners p); cleaned := cleaned p |}.

Definition removeVisibilityHandler (p : Page) : Page :=
  if visibilityHandler (service p) then {|
    service := with_handler false (service p); intervals := intervals p;
    next_interval := next_interval p; listeners := pred (listeners p); cleaned := cleaned p |}
  else p.

Definition setPollInterval (ms : Z) (p : Page) : Page :=
  let p := upd (with_period (Z.max MIN_POLL_INTERVAL_MS ms)) p in
  match isRunning (service p), intervalId (service p) with
  | true, Some _ => set_interval (clear_interval p)
  | _, _ => p
  end.

(** [start(options)]; [browser] says that [window] is defined. The first poll,
    which it also calls, is in the second part. *)
Definition start (browser : bool) (intervalMs : option Z) (role : option UserRole) (p : Page) : Page :=
  let p := upd (λ s, with_consumers (consumerCount s + 1) s) p in
  if isRunning (service p) then p
  else if negb browser then p
  else
    let p := match intervalMs with
             | Some ms => if ms =? 0 then p else setPollInterval ms p
             | None => p
             end in
    let p := match role with Some r => upd (with_role r) p | None => p end in
    set_interval (setupVisibilityHandler (upd (with_running true) p)).

Definition stop (p : Page) : Page :=
  let p := upd (λ s, with_consumers (Z.max 0 (consumerCount s - 1)) s) p in
  if 0 <? consumerCount (service p) then p
  else
    let p := match intervalId (service p) with
             | Some _ => upd (with_interval None) (clear_interval p)
             | None => p
             end in
    let p := removeVisibilityHandler p in
    let p := upd (λ s, with_processed [] (with_running false s)) p in
    upd (with_cleanups [])
      {| service := service p; intervals := intervals p; next_interval := next_interval p;
         listeners := listeners p; cleaned := cleaned p ++ cleanupCallbacks (service p) |}.

Definition setRole (role : UserRole) (p : Page) : Page := upd (with_role role) p.
Definition onCleanup (cb : nat) (p : Page) : Page :=
  upd (λ s, with_cleanups (cleanupCallbacks s ++ [cb]) s) p.

(** The [visibilitychange] callback. *)
Definition visibility_changed (hidden : bool) (p : Page) : Page :=
  if hidden then
    match intervalId (service p) with
    | Some _ => upd (with_interval None) (clear_interval p)
    | None => p
    end
  else
    match intervalId (service p) with
    | None => if isRunning (service p) then set_interval p else p
    | Some _ => p
    end.

(** The calls of the page's code and the browser's event, which only arrives while
    a listener is registered. *)
Inductive page_step : Page → Page → Prop :=
| page_start browser ms role p : page_step p (start browser ms role p)
| page_stop p : page_step p (stop p)
| page_interval ms p : page_step p (setPollInterval ms p)
| page_role r p : page_step p (setRole r p)
| page_cleanup cb p : page_step p (onCleanup cb p)
| page_visibility hidden p : (0 < listeners p)%nat → page_step p (visibility_changed hidden p).

Definition new_page : Page :=
  {| service := new_service; intervals := []; next_interval := 0; listeners := 0; cleaned := [] |}.

(** At most one timer and one listener, and none once stopped. *)
Record page_inv (p : Page) : Prop := {
  pi_timer : intervals p = match intervalId (service p) with
                           | Some i => [(i, pollIntervalMs (service p))] | None => [] end;
  pi_fresh : ∀ i, intervalId (service p) = Some i → (i < next_interval p)%nat;
  pi_stopped : isRunning (service p) = false → intervalId (service p) = None;
  pi_listener : listeners p = if visibilityHandler (service p) then 1%nat else 0%nat;
  pi_handler : visibilityHandler (service p) = isRunning (service p);
  pi_period : MIN_POLL_INTERVAL_MS ≤ pollIntervalMs (service p);
  pi_count : 0 ≤ consumerCount (service p) ∧ (isRunning (service p) = true → 0 < consumerCount (service p))
}.

Lemma set_interval_inv p :
  intervals p = [] → isRunning (service p) = true → visibilityHandler (service p) = true →
  listeners p = 1%nat → MIN_POLL_INTERVAL_MS ≤ pollIntervalMs (service p) → 0 < consumerCount (service p) →
  page_inv (set_interval p).
Proof.
  intros Hi Hr Hv Hl Hp Hc. constructor; cbn; rewrite ?Hi, ?Hr, ?Hv, ?Hl; try done; [|lia].
  intros i [= <-]. lia.
Qed.

Lemma clear_interval_None p : page_inv p → intervals (clear_interval p) = [].
Proof.
  intros H. unfold clear_interval. pose proof (pi_timer p H) as Ht.
  destruct (intervalId (service p)) as [i|]; [|done]. cbn. rewrite Ht, filter_cons.
  rewrite decide_False by (cbn; tauto). done.
Qed.

Lemma setPollInterval_inv ms p : page_inv p → page_inv (setPollInterval ms p).
Proof.
  intros H. unfold setPollInterval. cbn [upd service isRunning intervalId with_period].
  assert (intervalId (service p) = None → page_inv (upd (with_period (Z.max MIN_POLL_INTERVAL_MS ms)) p)) as Hn.
  { intros Hi. destruct H as [Ht Hf Hs Hl Hh Hp Hc]. rewrite Hi in *.
    constructor; cbn; rewrite ?Hi; try done. apply Z.le_max_l. }
  destruct (isRunning (service p)) eqn:Er; [|apply Hn, (pi_stopped p H Er)].
  destruct (intervalId (service p)) as [i|] eqn:Ei; [|by apply Hn].
  pose proof (clear_interval_None p H) as Hcl. destruct H as [Ht Hf Hs Hl Hh Hp [Hc1 Hc2]].
  unfold clear_interval in *. rewrite Ei in Hcl. cbn in *. rewrite Ei. cbn. rewrite Er in Hh. rewrite Hh in Hl.
  apply set_interval_inv; cbn; try done; [apply Z.le_max_l|auto].
Qed.

Lemma page_inv_step p p' : page_inv p → page_step p p' → page_inv p'.
Proof.
  intros H Hstep. destruct Hstep as [browser ms role p|p|ms p|r p|cb p|hidden p Hlis].
  - unfold start. set (p1 := upd _ p).
    assert (page_inv p1) as H1 by (destruct H as [Ht Hf Hs Hl Hh Hp [Hc1 Hc2]]; constructor; cbn; try done; lia).
    destruct (isRunning (service p1)) eqn:Er; [done|]. destruct browser; [|done]. cbn [negb].
    set (p2 := match ms with Some _ => _ | None => _ end).
    assert (page_inv p2 ∧ isRunning (service p2) = false ∧ 0 < consumerCount (service p2)) as (H2&Er2&Hc).
    { unfold p2. destruct ms as [ms|]; [|split_and!; [done..|]; cbn; pose proof (pi_count p H); lia].
      destruct (ms =? 0); [split_and!; [done..|]; cbn; pose proof (pi_count p H); lia|].
      split_and!; [by apply setPollInterval_inv|..];
        unfold setPollInterval; cbn [upd service isRunning intervalId with_period]; rewrite Er; cbn; [done|].
      pose proof (pi_count p H). lia. }
    destruct H2 as [Ht Hf Hs Hl Hh Hp [Hc1 Hc2]]. rewrite Er2 in Hh. rewrite Hh in Hl. rewrite Hs in Ht by done.
    destruct role as [r|]; apply set_interval_inv; cbn; rewrite ?Hl; done.
  - unfold stop. set (p1 := upd _ p). destruct (0 <? consumerCount (service p1)) eqn:Ec.
    { destruct H as [Ht Hf Hs Hl Hh Hp [Hc1 Hc2]]. constructor; cbn in *; try done; lia. }
    pose proof (clear_interval_None p H) as Hcl. 
    pose proof H as [Ht Hf Hs Hl Hh Hp [Hc1 Hc2]].
    unfold clear_interval, removeVisibilityHandler. cbn.
    destruct (intervalId (service p)) as [i|] eqn:Ei; cbn; unfold clear_interval in Hcl; rewrite Ei in Hcl; cbn in Hcl.
    + destruct (visibilityHandler (service p)) eqn:Ev; cbn; rewrite ?Hl; constructor; cbn; rewrite ?Ei, ?Ev; cbn; try done; lia.
    + destruct (visibilityHandler (service p)) eqn:Ev; cbn; rewrite ?Hl; constructor; cbn; rewrite ?Ei, ?Ev; cbn; try done; lia.
  - by apply setPollInterval_inv.
  - by destruct H.
  - by destruct H.
  - unfold visibility_changed. pose proof (clear_interval_None p H) as Hcl.
    pose proof H as [Ht Hf Hs Hl Hh Hp [Hc1 Hc2]].
    destruct hidden, (intervalId (service p)) as [i|] eqn:Ei; try done.
    + unfold clear_interval in *. rewrite Ei in *. cbn in *. constructor; cbn; try done.
    + destruct (isRunning (service p)) eqn:Er; [|done]. rewrite Hh in Hl. apply set_interval_inv; auto.
Qed.

(** C36. The event service leaks nothing: through any calls of its consumers and any
    visibility changes, the page has at most one live timer, the one the service
    knows and with its current period, never shorter than five seconds; a stopped
    service has no timer and no listener, and a running one has consumers. *)
Theorem page_invariant p : rtc page_step new_page p → page_inv p.
Proof.
  intros H. refine (rtc_ind_r page_inv new_page _ _ p H).
  - constructor; cbn; done.
  - intros q q' _ Hstep Hq. by eapply page_inv_step.
Qed.

(** ** Events of a role *)

Definition ROLE_EVENT_TYPES (r : UserRole) : list string :=
  match r with
  | SME => ["funded"; "repaid"; "default"; "created"]
  | Investor => ["funded"; "repaid"; "deposit"; "withdraw"; "default"]
  | Admin => ["funded"; "repaid"; "default"; "created"; "deposit"; "withdraw"]
  end.

(** [const [, eventType] = event.topic], when it is a string. *)
Definition event_type (e : ContractEvent) : option string :=
  match arr_get (ce_topic e) 1 with JStr s => Some s | _ => None end.

Definition role_sees (role : UserRole) (e : ContractEvent) : bool :=
  match event_type e with Some t => one_of (ROLE_EVENT_TYPES role) t | None => false end.

Definition filterEventsByRole (role : UserRole) (events : list ContractEvent) : list ContractEvent :=
  filter (λ e, role_sees role e) events.

(** ** Toasts *)

Inductive toast_kind := info | warning | error | success.
Record ToastConfig := { to_title : string; to_description : string; to_kind : toast_kind }.

(** [(value ?? [])[i]]. *)
Definition component (value : jsval) (i : nat) : jsval :=
  match value with
  | JArr l => arr_get l i
  | JStr s => match String.get i s with Some c => JStr (String c "") | None => JUndef end
  | JObj o => obj_get o (pretty (Z.of_nat i))
  | _ => JUndef
  end.

(** [v?.slice(0, 8)] in a template. *)
Definition short (v : jsval) : result string :=
  match v with
  | JUndef | JNull => Ok "undefined"
  | JStr s => Ok (str_take 8 s)
  | JArr l => Ok (js_String (JArr (take 8 l)))
  | _ => Throw (ETypeError "slice is not a function")
  end.

Section poll.
Context {W ScVal : Type} (env : string → option string) (isBrowser : bool) (stored : W → option jsval)
  (Date_now : M W Z) (callback : nat → NotificationAlert → M W unit)
  (post_webhook : string → NotificationAlert → M W unit)
  (writeFile : Z → M W unit) (toLocaleString : number → string)
  (rpcGetLatestLedger : M W Z) (scValToNative : ScVal → result jsval)
  (rpcGetEvents : Z → list string → M W (list (RpcEvent (ScVal := ScVal))))
  (pushToast : string → ToastConfig → M W unit) (refreshPosition : M W unit).

Definition amount_text (v : jsval) : string :=
  toLocaleString (num_div (js_Number v) (num_of_Z 10000000)).

(** [EVENT_TOAST_MAP[eventType]], for the event types that have one. *)
Definition toast_of (eventType : string) (value : jsval) (txHash : option string) : option (result ToastConfig) :=
  if String.eqb eventType "funded" then
    Some (Ok {| to_title := "Invoice Funded";
      to_description := "Invoice #" +:+ js_String (component value 0) +:+ " has been funded for "
        +:+ amount_text (component value 2) +:+ " USDC"
        +:+ (if truthy (opt_str txHash) then " — view on StellarExpert" else "");
      to_kind := success |})
  else if String.eqb eventType "repaid" then
    Some (Ok {| to_title := "Invoice Repaid";
      to_description := "Invoice #" +:+ js_String (component value 0) +:+ " repaid: "
        +:+ amount_text (component value 1) +:+ " USDC"; to_kind := info |})
  else if String.eqb eventType "default" then
    Some (Ok {| to_title := "Invoice Defaulted";
      to_description := "An invoice has been marked as defaulted. Review positions immediately.";
      to_kind := error |})
  else if String.eqb eventType "created" then
    Some (owner ← short (component value 1);
      Ok {| to_title := "Invoice Created";
        to_description := "New invoice #" +:+ js_String (component value 0) +:+ " created by "
          +:+ owner +:+ "... for " +:+ amount_text (component value 2) +:+ " USDC"; to_kind := info |})
  else if String.eqb eventType "deposit" then
    Some (investor ← short (component value 0);
      Ok {| to_title := "Pool Deposit";
        to_description := investor +:+ "... deposited " +:+ amount_text (component value 1) +:+ " USDC";
        to_kind := info |})
  else if String.eqb eventType "withdraw" then
    Some (investor ← short (component value 0);
      Ok {| to_title := "Pool Withdrawal";
        to_description := investor +:+ "... withdrew " +:+ amount_text (component value 1) +:+ " USDC";
        to_kind := warning |})
  else None.

Definition mapEventTypeToAlertType (eventType : string) : option AlertType :=
  if String.eqb eventType "funded" then Some INVOICE_FUNDED
  else if String.eqb eventType "repaid" then Some INVOICE_PAID
  else if String.eqb eventType "default" then Some INVOICE_DEFAULTED
  else None.

Definition mapEventTypeToPriority (eventType : string) : AlertPriority :=
  if one_of ["funded"; "repaid"; "withdraw"] eventType then MEDIUM
  else if String.eqb eventType "default" then CRITICAL
  else LOW.

Definition buildAlertMessage (eventType : string) (value : jsval) : string :=
  let id := js_String (component value 0) in
  if String.eqb eventType "funded" then
    "Invoice #" +:+ id +:+ " funded for " +:+ amount_text (component value 2) +:+ " USDC"
  else if String.eqb eventType "repaid" then
    "Invoice #" +:+ id +:+ " repaid: " +:+ amount_text (component value 1) +:+ " USDC"
  else if String.eqb eventType "default" then "An invoice has been marked as defaulted."
  else if String.eqb eventType "created" then "New invoice #" +:+ id +:+ " created"
  else if String.eqb eventType "deposit" then
    "Pool deposit: " +:+ amount_text (component value 1) +:+ " USDC"
  else if String.eqb eventType "withdraw" then
    "Pool withdrawal: " +:+ amount_text (component value 1) +:+ " USDC"
  else "Event: " +:+ eventType.

(** An event as the page's store keeps it, with the time it was received. *)
Record StoreEvent := { st_event : ContractEvent; st_topic : list string; st_receivedAt : Z }.

(** The browser: the process of the alerts, the service and the store. *)
Record Browser := {
  process : Process (W := W);
  events_service : Service;
  recentEvents : list StoreEvent;
  lastPollTime : option Z
}.

Definition on_process {A} (m : M (Process (W := W)) A) : M Browser A := λ b,
  let '(r, p) := m (process b) in
  (r, {| process := p; events_service := events_service b; recentEvents := recentEvents b;
         lastPollTime := lastPollTime b |}).

Definition modify_service (f : Service → Service) : M Browser unit := modify (λ b,
  {| process := process b; events_service := f (events_service b); recentEvents := recentEvents b;
     lastPollTime := lastPollTime b |}).

Definition set_store (f : list StoreEvent → list StoreEvent) : M Browser unit := modify (λ b,
  {| process := process b; events_service := events_service b; recentEvents := f (recentEvents b);
     lastPollTime := lastPollTime b |}).

Definition decode_sse_event (e : RpcEvent (ScVal := ScVal)) : result ContractEvent :=
  topic ← mapM scValToNative (re_topic e);
  value ← scValToNative (re_value e);
  Ok {| ce_id := re_id e; ce_contractId := re_contractId e; ce_topic := topic; ce_value := value;
        ce_ledger := re_ledger e;
        ce_ledgerCloseAt := match re_ledgerClosedAt e with Some t => Some t | None => re_ledgerCloseAt e end;
        ce_txHash := re_txHash e |}.

Definition unseen (seen : list string) (events : list ContractEvent) : list ContractEvent :=
  filter (λ e, ce_id e ∉ seen) events.

(** The page of events of the last 50 ledgers. *)
Definition fetch_page (invoice pool : string) : M Browser (list ContractEvent) :=
  latestLedger ← on_process (on_world rpcGetLatestLedger);
  raw ← on_process (on_world (rpcGetEvents (Z.max 1 (latestLedger - 50)) [invoice; pool]));
  lift_result (mapM decode_sse_event raw).

(** The [Set] of processed ids is a list, where an id may be repeated. *)
Definition fetchNewEvents : M Browser (list ContractEvent) :=
  let invoice := contract_id env "NEXT_PUBLIC_INVOICE_CONTRACT_ID" in
  let pool := contract_id env "NEXT_PUBLIC_POOL_CONTRACT_ID" in
  if String.eqb invoice "" || String.eqb pool "" then mret []
  else try_catch (
    events ← fetch_page invoice pool;
    b ← get_state;
    let newEvents := unseen (processedEventIds (events_service b)) events in
    _ ← modify_service (λ s, with_processed (processedEventIds s ++ map ce_id newEvents) s);
    mret (filterEventsByRole (currentRole (events_service b)) newEvents))
  (λ _, mret []).

Definition process_event (event : ContractEvent) : M Browser unit :=
  match event_type event with
  | None => mret tt
  | Some eventType =>
      _ ← match toast_of eventType (ce_value event) (ce_txHash event) with
          | Some toast =>
              toast ← lift_result toast;
              on_process (on_world (pushToast ("sse-" +:+ ce_id event) toast))
          | None => mret tt
          end;
      _ ← match mapEventTypeToAlertType eventType with
          | Some alertType =>
              timestamp ← on_process (on_world Date_now);
              on_process (send env isBrowser stored callback post_webhook {|
                al_id := "sse-alert-" +:+ ce_id event; al_type := alertType;
                al_priority := mapEventTypeToPriority eventType;
                al_message := buildAlertMessage eventType (ce_value event);
                al_timestamp := timestamp;
                al_data := [("eventType", Val (JStr eventType)); ("contractType", Val (JStr (ce_contractId event)));
                            ("txHash", Val (opt_str (ce_txHash event))); ("ledger", Val (JNum (ce_ledger event)));
                            ("value", Val (ce_value event))] |})
          | None => mret tt
          end;
      _ ← on_process (pollEvents env isBrowser stored Date_now callback post_webhook writeFile toLocaleString
            rpcGetLatestLedger scValToNative rpcGetEvents);
      mret tt
  end.

Definition updateStore (events : list ContractEvent) : M Browser unit :=
  storeEvents ← mapM (λ e, now ← on_process (on_world Date_now);
    mret {| st_event := e; st_topic := map js_String (ce_topic e); st_receivedAt := now |}) events;
  _ ← set_store (λ existing, take MAX_EVENTS_HISTORY (storeEvents ++ existing));
  now ← on_process (on_world Date_now);
  modify (λ b, {| process := process b; events_service := events_service b;
                  recentEvents := recentEvents b; lastPollTime := Some now |}).

(** [refreshPosition] is asynchronous and not awaited: its failure is its own. *)
Definition sse_poll : M Browser unit :=
  b ← get_state;
  if negb (isRunning (events_service b)) then mret tt
  else try_catch (
    events ← fetchNewEvents;
    match events with
    | [] => mret tt
    | _ =>
        _ ← for_each events process_event;
        _ ← updateStore events;
        b' ← get_state;
        if bool_decide (currentRole (events_service b') = Investor)
        then try_catch (on_process (on_world refreshPosition)) (λ _, mret tt)
        else mret tt
    end)
  (λ _, mret tt).

(** ** Properties of a poll *)

(** A property of the service and the store: calls to the alerts keep it. *)
Definition about_page (I : Service → list StoreEvent → Prop) (b : Browser) : Prop :=
  I (events_service b) (recentEvents b).

Lemma on_process_keeps {A} I (m : M Process A) : keeps (about_page I) (on_process m).
Proof. intros b Hb. unfold on_process. by destruct (m (process b)) as [[a|e] q]. Qed.
#[local] Hint Resolve on_process_keeps : keeps.

Lemma process_event_keeps I e : keeps (about_page I) (process_event e).
Proof. unfold process_event. keep_steps. Qed.

Lemma updateStore_keeps I events :
  (∀ s new old, I s old → I s (take MAX_EVENTS_HISTORY (new ++ old))) →
  keeps (about_page I) (updateStore events).
Proof.
  intros HI. unfold updateStore. keep_steps.
  - apply mapM_keeps. intros x. keep_steps.
  - apply triple_modify. intros b. apply HI.
  - by apply triple_modify.
Qed.

(** The rest of a poll, after its fetch. *)
Lemma sse_poll_keeps I :
  (∀ s new old, I s old → I s (take MAX_EVENTS_HISTORY (new ++ old))) →
  (∀ s l old, I s old → I (with_processed (processedEventIds s ++ l) s) old) →
  keeps (about_page I) sse_poll.
Proof.
  intros H1 H2. unfold sse_poll. keep_steps.
  - unfold fetchNewEvents, fetch_page. keep_steps. apply triple_modify. intros b. apply H2.
  - apply triple_for_each. intros e _. apply process_event_keeps.
  - by apply updateStore_keeps.
Qed.

Definition processed (ids : list string) : Service → list StoreEvent → Prop :=
  λ s _, ids ⊆ processedEventIds s.

Lemma sse_poll_processed ids : keeps (about_page (processed ids)) sse_poll.
Proof.
  apply sse_poll_keeps; unfold processed; [done|]. intros s l _ H. cbn. set_solver.
Qed.

(** After [n] more polls. *)
Fixpoint after_polls (n : nat) (b : Browser) : Browser :=
  match n with O => b | S n' => after_polls n' (sse_poll b).2 end.

Lemma after_polls_processed ids n b :
  about_page (processed ids) b → about_page (processed ids) (after_polls n b).
Proof.
  revert b. induction n as [|n IH]; intros b Hb; [done|]. apply IH.
  apply keeps_total; [apply sse_poll_processed|done].
Qed.

(** What a fetch returns is unseen. *)
Lemma fetchNewEvents_unseen b evs e :
  (fetchNewEvents b).1 = Ok evs → e ∈ evs → ce_id e ∉ processedEventIds (events_service b).
Proof.
  unfold fetchNewEvents. destruct (_ || _); [intros [= <-]; by intros ?%not_elem_of_nil|]. unfold try_catch.
  assert (keeps (about_page (λ s _, s = events_service b)) (fetch_page (contract_id env "NEXT_PUBLIC_INVOICE_CONTRACT_ID")
    (contract_id env "NEXT_PUBLIC_POOL_CONTRACT_ID"))) as Hk by (unfold fetch_page; keep_steps).
  specialize (Hk b eq_refl). unfold mbind at 1, M_bind at 1.
  destruct (fetch_page _ _ b) as [[events|x] b1]; [|intros [= <-]; by intros ?%not_elem_of_nil].
  unfold about_page in Hk. unfold mbind, M_bind. cbn. rewrite Hk. intros [= <-]. unfold filterEventsByRole, unseen.
  by intros [_ [? _]%list_elem_of_filter]%list_elem_of_filter.
Qed.

(** A fetch marks the whole page. *)
Lemma fetchNewEvents_marks b events :
  contract_id env "NEXT_PUBLIC_INVOICE_CONTRACT_ID" ≠ "" → contract_id env "NEXT_PUBLIC_POOL_CONTRACT_ID" ≠ "" →
  (fetch_page (contract_id env "NEXT_PUBLIC_INVOICE_CONTRACT_ID") (contract_id env "NEXT_PUBLIC_POOL_CONTRACT_ID") b).1
  = Ok events →
  about_page (processed (map ce_id events)) (fetchNewEvents b).2.
Proof.
  intros H1%String.eqb_neq H2%String.eqb_neq. unfold fetchNewEvents. rewrite H1, H2. cbn [orb]. unfold try_catch.
  unfold mbind at 1, M_bind at 1.
  destruct (fetch_page _ _ b) as [[evs|x] b1]; [|done]. intros [= ->]. unfold mbind, M_bind, about_page, processed. cbn.
  intros i (e&->&He)%list_elem_of_fmap. apply elem_of_app.
  destruct (decide (ce_id e ∈ processedEventIds (events_service b1))); [by left|right].
  apply list_elem_of_fmap. exists e. split; [done|]. by apply list_elem_of_filter.
Qed.

Lemma sse_poll_marks b events :
  isRunning (events_service b) = true →
  contract_id env "NEXT_PUBLIC_INVOICE_CONTRACT_ID" ≠ "" → contract_id env "NEXT_PUBLIC_POOL_CONTRACT_ID" ≠ "" →
  (fetch_page (contract_id env "NEXT_PUBLIC_INVOICE_CONTRACT_ID") (contract_id env "NEXT_PUBLIC_POOL_CONTRACT_ID") b).1
  = Ok events →
  about_page (processed (map ce_id events)) (sse_poll b).2.
Proof.
  intros Hrun H1 H2 Hpage. pose proof (fetchNewEvents_marks b events H1 H2 Hpage) as Hm.
  unfold sse_poll. unfold mbind at 1, M_bind at 1, get_state. rewrite Hrun. cbn [negb].
  unfold try_catch at 1. unfold mbind at 1, M_bind at 1.
  destruct (fetchNewEvents b) as [[[|x l]|x] b1]; try done. cbn [snd] in Hm.
  match goal with |- context [(?m ≫= ?f) b1] =>
    assert (keeps (about_page (processed (map ce_id events))) (m ≫= f)) as Hk end.
  { keep_steps.
    - apply triple_for_each. intros y _. apply process_event_keeps.
    - by apply updateStore_keeps. }
  specialize (Hk b1 Hm). revert Hk.
  match goal with |- context [(?m ≫= ?f) b1] => by destruct ((m ≫= f) b1) as [[[]|y] b2] end.
Qed.

(** Every event gets one chance: the poll that fetches its page marks it, before
    the role's filter and before it is processed, and no later poll returns it
    again, so it is shown at most once; one that the current role does not see, or
    that comes after an event whose processing fails, is never shown, not even
    after the role changes. *)
Theorem one_chance b events e n role evs :
  isRunning (events_service b) = true →
  contract_id env "NEXT_PUBLIC_INVOICE_CONTRACT_ID" ≠ "" → contract_id env "NEXT_PUBLIC_POOL_CONTRACT_ID" ≠ "" →
  (fetch_page (contract_id env "NEXT_PUBLIC_INVOICE_CONTRACT_ID") (contract_id env "NEXT_PUBLIC_POOL_CONTRACT_ID") b).1
  = Ok events → e ∈ events →
  let b' := after_polls (S n) b in
  (fetchNewEvents {| process := process b'; events_service := with_role role (events_service b');
                     recentEvents := recentEvents b'; lastPollTime := lastPollTime b' |}).1 = Ok evs →
  ce_id e ∉ map ce_id evs.
Proof.
  intros Hrun H1 H2 Hpage He b' Hfetch (e'&Eid&He')%list_elem_of_fmap.
  apply fetchNewEvents_unseen with (e := e') in Hfetch; [|done]. apply Hfetch. cbn. rewrite <-Eid.
  assert (about_page (processed (map ce_id events)) (after_polls n (sse_poll b).2)) as Hb
    by (by apply after_polls_processed, sse_poll_marks).
  apply Hb, list_elem_of_fmap. by exists e.
Qed.

(** The store's history is bounded. *)
Lemma recent_bounded :
  keeps (about_page (λ _ l, (length l ≤ MAX_EVENTS_HISTORY)%nat)) sse_poll.
Proof. apply sse_poll_keeps; [|done]. intros s new old _. rewrite length_take. lia. Qed.

End poll.
