(* ===== verification/Backtest.v ===== *)
(** * tools/backtest: replaying credit scores

    src/replay.ts, which turns the indexer's stored credit events into one
    trajectory per SME, and src/metrics.ts, which measures how well the scores
    separated the SMEs that defaulted. [JSON.parse], which only a value stored as
    a JSON string reaches, is a parameter. *)
From S2P Require Import Prelude.
From S2P Require Import JsValue.
From S2P Require Import JsNumber.
From S2P Require Import JsArith.
From S2P Require Import JsMap.
From S2P Require Import Parser.
From S2P Require Import Database.
From Stdlib Require Import SpecFloat.
#[local] Open Scope string_scope.
#[local] Open Scope list_scope.
#[local] Open Scope Z_scope.

(** ** replay.ts *)

Record PaymentSample := {
  sa_ledgerSequence : Z;
  sa_ledgerCloseAt : string;
  sa_invoiceId : string;
  sa_status : string;
  sa_score : number
}.

Record SmeTrajectory := {
  tr_sme : string;
  tr_samples : list PaymentSample;
  tr_everDefaulted : bool;
  tr_scoreBeforeOutcome : option number
}.

(** [Object.keys] of an array are its indices. *)
Definition decodeStatus (raw : jsval) : string :=
  match raw with
  | JStr s => s
  | JArr (JStr s :: _) => s
  | JArr (_ :: _) => "0"
  | JObj ((k, _) :: _) => k
  | _ => "unknown"
  end.

(** [value[i] ?? value[value.length - 1]]. *)
Definition component_or_last (l : list jsval) (i : nat) : jsval :=
  js_coalesce (arr_get l i) (arr_get l (length l - 1)).

Section replay.
Context {PG : Postgres} (JSON_parse : string → result jsval).

(** The decoded value of a row; [None] when [JSON.parse] throws. *)
Definition row_json_value (row : EventRow) : option jsval :=
  if truthy (row_value row) then
    match row_value row with
    | JStr s => match JSON_parse s with Ok v => Some v | Throw _ => None end
    | v => Some v
    end
  else Some JNull.

(** The body of the loop over the rows: the SME and the sample it adds. *)
Definition sample_of_row (row : EventRow) : option (string * PaymentSample) :=
  match row_json_value row with
  | Some (JArr value) =>
      if (length value <? 5)%nat then None
      else
        let sme := js_String (js_coalesce (arr_get value 1) (JStr "")) in
        if String.eqb sme "" then None
        else
          let invoiceId := js_String (js_coalesce (arr_get value 2) (JStr "")) in
          let '(status, score) :=
            if String.eqb (row_event_type row) "default"
            then ("Defaulted", js_Number (component_or_last value 3))
            else (decodeStatus (arr_get value 3), js_Number (component_or_last value 4)) in
          if isFinite score then Some (sme, {|
            sa_ledgerSequence := row_ledger_sequence row;
            sa_ledgerCloseAt := row_ledger_close_at row;
            sa_invoiceId := invoiceId; sa_status := status; sa_score := score |})
          else None
  | _ => None
  end.

(** [SELECT * FROM events WHERE contract_type = 'credit_score' AND event_type IN
    ('payment', 'default') ORDER BY ledger_sequence ASC]. *)
Definition is_credit_row (row : EventRow) : bool :=
  String.eqb (contract_type_string (row_contract_type row)) "credit_score"
  && one_of ["payment"; "default"] (row_event_type row).

Definition credit_rows (db : Database) : list EventRow :=
  pg_order_by_ledger true (filter (λ r, is_credit_row r) (db_events db)).

(** [samples.findIndex((s) => s.status === 'Defaulted')]. *)
Fixpoint first_default (samples : list PaymentSample) : option nat :=
  match samples with
  | [] => None
  | s :: samples' =>
      if String.eqb (sa_status s) "Defaulted" then Some O else S <$> first_default samples'
  end.

Definition scoreBeforeOutcome (samples : list PaymentSample) : option number :=
  match first_default samples with
  | Some O => sa_score <$> samples !! O
  | Some (S i) => sa_score <$> samples !! i
  | None => sa_score <$> last samples
  end.

Definition trajectory (sme : string) (samples : list PaymentSample) : SmeTrajectory := {|
  tr_sme := sme; tr_samples := samples;
  tr_everDefaulted := match first_default samples with Some _ => true | None => false end;
  tr_scoreBeforeOutcome := scoreBeforeOutcome samples |}.

Definition add_sample (group : option (list PaymentSample)) (x : string * PaymentSample) : list PaymentSample :=
  default [] group ++ [x.2].

Definition replay (db : Database) : list SmeTrajectory :=
  map (λ kv, trajectory kv.1 kv.2) (group_by fst add_sample (omap sample_of_row (credit_rows db))).

(** ** The specification of a replay *)

(** The samples of one SME, oldest ledger first. *)
Definition samples_of (db : Database) (sme : string) : list PaymentSample :=
  omap (λ r, match sample_of_row r with
             | Some (k, s) => if String.eqb k sme then Some s else None
             | None => None end) (credit_rows db).

Lemma group_acc_add l : default [] (group_acc add_sample l) = l.*2.
Proof.
  induction l as [|x l IH] using rev_ind; [done|].
  rewrite group_acc_snoc, fmap_app, <-IH. done.
Qed.

Lemma samples_of_group db sme :
  (filter (λ x, x.1 = sme) (omap sample_of_row (credit_rows db))).*2 = samples_of db sme.
Proof.
  unfold samples_of. induction (credit_rows db) as [|r rows IH]; [done|]. cbn [omap list_omap].
  destruct (sample_of_row r) as [[k s]|]; [|exact IH]. rewrite filter_cons. cbn [fst].
  destruct (String.eqb_spec k sme) as [->|Hne].
  - rewrite decide_True by done. cbn [fmap list_fmap snd]. f_equal. exact IH.
  - rewrite decide_False by done. exact IH.
Qed.

Lemma group_acc_None l : group_acc add_sample l = None ↔ l = [].
Proof. induction l as [|x l _] using rev_ind; [done|]. rewrite group_acc_snoc. by destruct l. Qed.

Lemma omap_ascending (l : list EventRow) (f : EventRow → option PaymentSample) :
  (∀ r s, f r = Some s → sa_ledgerSequence s = row_ledger_sequence r) →
  ascending row_ledger_sequence l → ascending sa_ledgerSequence (omap f l).
Proof.
  intros Hf. unfold ascending. induction 1 as [|r l Hl IH Hr]; [constructor|]. cbn [omap list_omap].
  destruct (f r) as [s|] eqn:E; [|exact IH]. constructor; [exact IH|].
  apply Forall_forall. intros s' (r'&Hr'&E')%list_elem_of_omap. rewrite Forall_forall in Hr.
  rewrite (Hf _ _ E), (Hf _ _ E'). by apply Hr.
Qed.

Lemma sample_of_row_ledger r k s : sample_of_row r = Some (k, s) → sa_ledgerSequence s = row_ledger_sequence r.
Proof.
  unfold sample_of_row. destruct (row_json_value r) as [[]|]; try done.
  destruct (_ <? _)%nat; [done|]. destruct (String.eqb _ _); [done|].
  destruct (String.eqb _ _); destruct (isFinite _); try done; by intros [= <- <-].
Qed.

(** A replay groups the credit events correctly: there is exactly one trajectory
    for each SME with a readable event, and it holds the samples of all the SME's
    readable events and of no other, oldest ledger first. *)
Theorem replay_correct db :
  NoDup (tr_sme <$> replay db)
  ∧ (∀ t, t ∈ replay db ↔ ∃ sme, samples_of db sme ≠ [] ∧ t = trajectory sme (samples_of db sme))
  ∧ ∀ sme, ascending sa_ledgerSequence (samples_of db sme).
Proof.
  pose proof (group_by_wf fst add_sample (omap sample_of_row (credit_rows db))) as Hwf. split_and!.
  - unfold replay. change (map ?f ?l) with (f <$> l). rewrite <-list_fmap_compose. exact Hwf.
  - intros t. unfold replay. change (map ?f ?l) with (f <$> l). rewrite list_elem_of_fmap.
    assert (∀ sme samples, (sme, samples) ∈ group_by fst add_sample (omap sample_of_row (credit_rows db))
      ↔ samples_of db sme ≠ [] ∧ samples = samples_of db sme) as H.
    { intros sme samples. rewrite <-samples_of_group.
      pose proof (jm_get_group_by fst add_sample sme (omap sample_of_row (credit_rows db))) as Hget.
      set (l := filter _ _) in *. split.
      - intros Hin. apply (jm_in_get _ _ _ Hwf) in Hin. rewrite Hget in Hin.
        pose proof (group_acc_add l) as Ha. rewrite Hin in Ha. cbn in Ha. split; [|done].
        intros E. destruct l; [|done]. done.
      - intros [Hne ->]. apply jm_get_Some_in. rewrite Hget.
        destruct (group_acc add_sample l) as [x|] eqn:E.
        + pose proof (group_acc_add l) as Ha. rewrite E in Ha. cbn in Ha. by rewrite Ha.
        + apply group_acc_None in E. by rewrite E in Hne. }
    split.
    + intros ([sme samples]&->&[Hne ->]%H). by exists sme.
    + intros (sme&Hne&->). exists (sme, samples_of db sme). split; [done|]. by apply H.
  - intros sme. apply omap_ascending; [|apply pg_order_by_ledger_asc].
    intros r s. destruct (sample_of_row r) as [[k s']|] eqn:E; [|done].
    destruct (String.eqb k sme); [|done]. intros [= <-]. by eapply sample_of_row_ledger.
Qed.

Lemma first_default_spec samples :
  match first_default samples with
  | Some i => ∃ s, samples !! i = Some s ∧ sa_status s = "Defaulted"
              ∧ Forall (λ s, sa_status s ≠ "Defaulted") (take i samples)
  | None => Forall (λ s, sa_status s ≠ "Defaulted") samples
  end.
Proof.
  induction samples as [|s samples IH]; [constructor|]. cbn [first_default].
  destruct (String.eqb_spec (sa_status s) "Defaulted") as [E|Hne]; [by exists s|].
  destruct (first_default samples) as [i|]; cbn [fmap option_fmap option_map].
  - destruct IH as (s'&Hs'&E&Hf). exists s'. split_and!; [done..|]. by constructor.
  - by constructor.
Qed.

(** The score a trajectory is judged by is the one of the sample just before the
    first default, and the last one when there is none; but a default that comes
    first is judged by the score after it, its own. *)
Theorem score_before_outcome sme before s after :
  Forall (λ s, sa_status s ≠ "Defaulted") before → sa_status s = "Defaulted" →
  let t := trajectory sme (before ++ s :: after) in
  tr_everDefaulted t = true
  ∧ tr_scoreBeforeOutcome t = Some (sa_score (default s (last before)))
  ∧ tr_everDefaulted (trajectory sme before) = false
  ∧ tr_scoreBeforeOutcome (trajectory sme before) = sa_score <$> last before.
Proof.
  intros Hb Hs t.
  assert (first_default before = None) as Hn.
  { clear t. induction Hb as [|x l Hx Hl IH]; [done|]. cbn [first_default].
    apply String.eqb_neq in Hx. by rewrite Hx, IH. }
  assert (first_default (before ++ s :: after) = Some (length before)) as Hf.
  { clear t Hn. induction Hb as [|x l Hx Hl IH]; cbn [app first_default length].
    - by rewrite Hs.
    - apply String.eqb_neq in Hx. by rewrite Hx, IH. }
  subst t. unfold trajectory, scoreBeforeOutcome. cbn [tr_everDefaulted tr_scoreBeforeOutcome].
  rewrite Hf, Hn. split_and!; try done.
  destruct before as [|x before _] using rev_ind; [done|].
  rewrite length_app. cbn [length]. replace (length before + 1)%nat with (S (length before)) by lia.
  rewrite last_snoc, <-app_assoc. cbn [app default]. by rewrite list_lookup_middle.
Qed.
End replay.

(** ** metrics.ts *)

Record PredictiveQualityReport := {
  pq_defaulted : nat;
  pq_nonDefaulted : nat;
  pq_meanDefaulted : option number;
  pq_meanNonDefaulted : option number;
  pq_separationAuc : option number
}.

Definition num_of_nat (n : nat) : number := num_of_Z (Z.of_nat n).

(** [values.reduce((a, b) => a + b, 0) / values.length]. *)
Definition mean (values : list number) : option number :=
  match values with
  | [] => None
  | _ => Some (num_div (foldl num_add (num_of_Z 0) values) (num_of_nat (length values)))
  end.

(** The scores of one cohort. *)
Definition cohort (defaulted : bool) (trajectories : list SmeTrajectory) : list number :=
  omap tr_scoreBeforeOutcome (filter (λ t, Bool.eqb (tr_everDefaulted t) defaulted) trajectories).

(** The two nested loops: the pairs won and tied. *)
Definition count_pairs (nonDefaulted defaulted : list number) : Z * Z :=
  foldl (λ acc nd, foldl (λ '(wins, ties) d,
    if num_ltb d nd then (wins + 1, ties) else if num_eqb nd d then (wins, ties + 1) else (wins, ties))
    acc defaulted) (0, 0) nonDefaulted.

Definition half : number := num_div (num_of_Z 1) (num_of_Z 2).

Definition separationAuc (nonDefaulted defaulted : list number) : option number :=
  match nonDefaulted, defaulted with
  | [], _ | _, [] => None
  | _, _ =>
      let '(wins, ties) := count_pairs nonDefaulted defaulted in
      Some (num_div (num_add (num_of_Z wins) (num_mul half (num_of_Z ties)))
                    (num_of_nat (length nonDefaulted * length defaulted)))
  end.

Definition computePredictiveQuality (trajectories : list SmeTrajectory) : PredictiveQualityReport :=
  let defaultedScores := cohort true trajectories in
  let nonDefaultedScores := cohort false trajectories in {|
    pq_defaulted := length defaultedScores;
    pq_nonDefaulted := length nonDefaultedScores;
    pq_meanDefaulted := mean defaultedScores;
    pq_meanNonDefaulted := mean nonDefaultedScores;
    pq_separationAuc := separationAuc nonDefaultedScores defaultedScores |}.

Example auc_one : separationAuc [num_of_Z 610] [num_of_Z 450] = Some (num_of_Z 1).
Proof. by vm_compute. Qed.
Example auc_ties : separationAuc [num_of_Z 610; num_of_Z 450] [num_of_Z 450] = Some (num_div (num_of_Z 3) (num_of_Z 4)).
Proof. by vm_compute. Qed.

(** ** What the report means *)

(** The pairs of a non-defaulted and a defaulted score. *)
Definition wins (nonDefaulted defaulted : list number) : Z :=
  lengthZ (filter (λ p, num_ltb p.2 p.1) (list_prod nonDefaulted defaulted)).
Definition ties (nonDefaulted defaulted : list number) : Z :=
  lengthZ (filter (λ p, negb (num_ltb p.2 p.1) && num_eqb p.1 p.2) (list_prod nonDefaulted defaulted)).

Lemma lengthZ_filter_cons {A} (p : A → bool) x (l : list A) :
  lengthZ (filter (λ x, p x) (x :: l)) = Z.b2z (p x) + lengthZ (filter (λ x, p x) l).
Proof.
  rewrite filter_cons. unfold lengthZ. destruct (p x); cbn [Z.b2z].
  - rewrite decide_True by done. cbn [length]. lia.
  - rewrite decide_False by (intros []). lia.
Qed.

Lemma count_row nd defaulted w t :
  foldl (λ '(wins, ties) d, if num_ltb d nd then (wins + 1, ties)
          else if num_eqb nd d then (wins, ties + 1) else (wins, ties)) (w, t) defaulted
  = (w + lengthZ (filter (λ p, num_ltb p.2 p.1) (map (pair nd) defaulted)),
     t + lengthZ (filter (λ p, negb (num_ltb p.2 p.1) && num_eqb p.1 p.2) (map (pair nd) defaulted))).
Proof.
  revert w t. induction defaulted as [|d l IH]; intros w t; [by cbn [foldl map list_prod]; rewrite !filter_nil; unfold lengthZ; cbn [length Z.of_nat]; rewrite !Z.add_0_r|].
  cbn [foldl map]. rewrite !lengthZ_filter_cons. cbn [fst snd].
  destruct (num_ltb d nd), (num_eqb nd d); cbn [negb andb Z.b2z]; rewrite IH; f_equal; lia.
Qed.

Lemma count_pairs_spec nonDefaulted defaulted :
  count_pairs nonDefaulted defaulted = (wins nonDefaulted defaulted, ties nonDefaulted defaulted).
Proof.
  unfold count_pairs, wins, ties.
  assert (∀ w t, foldl (λ acc nd, foldl (λ '(wins, ties) d,
    if num_ltb d nd then (wins + 1, ties) else if num_eqb nd d then (wins, ties + 1) else (wins, ties))
    acc defaulted) (w, t) nonDefaulted
    = (w + lengthZ (filter (λ p, num_ltb p.2 p.1) (list_prod nonDefaulted defaulted)),
       t + lengthZ (filter (λ p, negb (num_ltb p.2 p.1) && num_eqb p.1 p.2) (list_prod nonDefaulted defaulted)))) as H;
    [|by rewrite H, !Z.add_0_l].
  induction nonDefaulted as [|nd l IH]; intros w t; [by cbn [foldl map list_prod]; rewrite !filter_nil; unfold lengthZ; cbn [length Z.of_nat]; rewrite !Z.add_0_r|].
  cbn [foldl list_prod]. change (map (λ y, (nd, y)) defaulted) with (map (pair nd) defaulted).
  rewrite count_row, IH, !filter_app, !lengthZ_app. f_equal; lia.
Qed.

Lemma wins_all nonDefaulted defaulted (b : bool) :
  (∀ x y, x ∈ nonDefaulted → y ∈ defaulted → num_ltb y x = b ∧ (b = false → num_eqb x y = false)) →
  wins nonDefaulted defaulted = (if b then Z.of_nat (length nonDefaulted * length defaulted) else 0)
  ∧ ties nonDefaulted defaulted = 0.
Proof.
  intros H. assert (∀ p, p ∈ list_prod nonDefaulted defaulted → num_ltb p.2 p.1 = b ∧ (b = false → num_eqb p.1 p.2 = false)) as Hp.
  { intros [x y] Hin%list_elem_of_In. apply in_prod_iff in Hin as [Hx%list_elem_of_In Hy%list_elem_of_In]. by apply H. }
  unfold wins, ties, lengthZ. split.
  - destruct b.
    + rewrite filter_all; [by rewrite length_prod|]. intros p Hin. apply Hp in Hin as [-> _]. done.
    + rewrite filter_none; [done|]. intros p Hin. apply Hp in Hin as [-> _]. intros [].
  - rewrite filter_none; [done|]. intros p Hin. apply Hp in Hin as [-> Heq].
    destruct b; cbn; [intros []|]. rewrite Heq by done. intros [].
Qed.

(** The separation of a backtest is what its documentation says: it is computed
    from the numbers of pairs won and tied, is absent exactly when a cohort is
    empty, and is exactly 1 when every SME that did not default scored higher than
    every one that did, and exactly 0 when every one scored lower. *)
Theorem separation_meaning trajectories :
  let r := computePredictiveQuality trajectories in
  let good := cohort false trajectories in
  let bad := cohort true trajectories in
  count_pairs good bad = (wins good bad, ties good bad)
  ∧ (pq_separationAuc r = None ↔ good = [] ∨ bad = [])
  ∧ (Z.of_nat (length good * length bad) < 2 ^ 53 → good ≠ [] → bad ≠ [] →
      ((∀ x y, x ∈ good → y ∈ bad → num_ltb y x = true) → pq_separationAuc r = Some (num_of_Z 1))
      ∧ ((∀ x y, x ∈ good → y ∈ bad → num_ltb y x = false ∧ num_eqb x y = false) →
           pq_separationAuc r = Some (num_of_Z 0))).
Proof.
  intros r good bad. subst r. cbn [pq_separationAuc computePredictiveQuality]. fold good bad.
  split; [apply count_pairs_spec|]. unfold separationAuc. rewrite count_pairs_spec. split.
  { destruct good, bad; naive_solver. }
  intros Hlen Hg Hb. assert (0 < Z.of_nat (length good * length bad)) by (destruct good, bad; cbn; lia || done).
  assert (safe (Z.of_nat (length good * length bad))) as Hsafe by (unfold safe; lia).
  assert (num_mul half (num_of_Z 0) = num_of_Z 0) as Hhalf by done. unfold num_of_nat.
  split; intros H'.
  - destruct (wins_all good bad true) as [-> ->]; [intros x y Hx Hy; by rewrite H'|].
    rewrite Hhalf, num_add_exact, Z.add_0_r, num_div_self by (unfold safe in *; lia || done).
    by destruct good, bad.
  - destruct (wins_all good bad false) as [-> ->]; [intros x y Hx Hy; destruct (H' x y Hx Hy); done|].
    rewrite Hhalf. change (num_add (num_of_Z 0) (num_of_Z 0)) with (num_of_Z 0).
    destruct (safe_cases _ Hsafe) as [?|[(M&k&->&_) _]]; [lia|]. by destruct good, bad.
Qed.
