(* ===== verification/ReadQueue.v ===== *)
(** * The queue in front of the RPC (frontend/lib/stellar.ts)

    Every read of the web app passes [readContract]: at most five reads run at
    once and at most ten start in a second. The queue lives between the event
    loop's turns, so its model is a machine: [step] is one turn (a call of
    [readContract], a microtask, a timer, a read that settles, time passing) on
    the module's variables. Microtasks run before anything else may happen. *)
From S2P Require Import Prelude.
#[local] Open Scope list_scope.
#[local] Open Scope Z_scope.

(** ** RPC_READ_LIMIT *)
Definition maxConcurrent : Z := 5.
Definition maxStartsPerSecond : Z := 10.
Definition windowMs : Z := 1000.

(** What [queueMicrotask] and the promises of the reads have put in the microtask
    queue: a call of [processReadQueue], or the [finally] of a read. *)
Inductive microtask := Process | Finally (read : nat).

(** The module's variables; then the event loop: pending timers with the time
    they are due at, pending microtasks, the reads that run; and a history of the
    reads that were asked for and of those that were started, with the times. *)
Record Rq := {
  rpcReadQueue : list nat;
  rpcReadStartTimes : list Z;
  activeRpcReads : Z;
  rpcReadTimer : option Z;
  timers : list Z;
  microtasks : list microtask;
  running : list nat;
  clock : Z;
  asked : list nat;
  started : list (nat * Z)
}.

Definition initial (now : Z) : Rq := {|
  rpcReadQueue := []; rpcReadStartTimes := []; activeRpcReads := 0; rpcReadTimer := None;
  timers := []; microtasks := []; running := []; clock := now; asked := []; started := [] |}.

Fixpoint pruneReadStartTimes (now : Z) (times : list Z) : list Z :=
  match times with
  | t :: times' => if windowMs <=? now - t then pruneReadStartTimes now times' else times
  | [] => []
  end.

Definition with_starts (times : list Z) (s : Rq) : Rq := {|
  rpcReadQueue := rpcReadQueue s; rpcReadStartTimes := times; activeRpcReads := activeRpcReads s;
  rpcReadTimer := rpcReadTimer s; timers := timers s; microtasks := microtasks s;
  running := running s; clock := clock s; asked := asked s; started := started s |}.

Definition with_timer (timer : option Z) (pending : list Z) (s : Rq) : Rq := {|
  rpcReadQueue := rpcReadQueue s; rpcReadStartTimes := rpcReadStartTimes s;
  activeRpcReads := activeRpcReads s; rpcReadTimer := timer; timers := pending;
  microtasks := microtasks s; running := running s; clock := clock s; asked := asked s;
  started := started s |}.

Definition with_microtasks (l : list microtask) (s : Rq) : Rq := {|
  rpcReadQueue := rpcReadQueue s; rpcReadStartTimes := rpcReadStartTimes s;
  activeRpcReads := activeRpcReads s; rpcReadTimer := rpcReadTimer s; timers := timers s;
  microtasks := l; running := running s; clock := clock s; asked := asked s; started := started s |}.

Definition with_running (active : Z) (reads : list nat) (s : Rq) : Rq := {|
  rpcReadQueue := rpcReadQueue s; rpcReadStartTimes := rpcReadStartTimes s;
  activeRpcReads := active; rpcReadTimer := rpcReadTimer s; timers := timers s;
  microtasks := microtasks s; running := reads; clock := clock s; asked := asked s;
  started := started s |}.

Definition with_clock (now : Z) (s : Rq) : Rq := {|
  rpcReadQueue := rpcReadQueue s; rpcReadStartTimes := rpcReadStartTimes s;
  activeRpcReads := activeRpcReads s; rpcReadTimer := rpcReadTimer s; timers := timers s;
  microtasks := microtasks s; running := running s; clock := now; asked := asked s;
  started := started s |}.

(** [rpcReadQueue.shift()], [activeRpcReads++], [rpcReadStartTimes.push(Date.now())]
    and [task.fn()]. *)
Definition start_read (read : nat) (q : list nat) (s : Rq) : Rq := {|
  rpcReadQueue := q; rpcReadStartTimes := rpcReadStartTimes s ++ [clock s];
  activeRpcReads := activeRpcReads s + 1; rpcReadTimer := rpcReadTimer s; timers := timers s;
  microtasks := microtasks s; running := running s ++ [read]; clock := clock s; asked := asked s;
  started := started s ++ [(read, clock s)] |}.

(** The [while] over the queue [q], which shifts a task off it in every iteration. *)
Fixpoint start_reads (q : list nat) (s : Rq) : Rq :=
  match q with
  | read :: q' =>
      if (activeRpcReads s <? maxConcurrent) && (lengthZ (rpcReadStartTimes s) <? maxStartsPerSecond)
      then start_reads q' (start_read read q' s)
      else s
  | [] => s
  end.

(** [scheduleReadQueue]; a timer that is set stays pending when [rpcReadTimer] is
    reset, since nothing clears it. *)
Definition scheduleReadQueue (s : Rq) : Rq :=
  match rpcReadTimer s, rpcReadQueue s with
  | Some _, _ | _, [] => s
  | None, _ =>
      let s := with_starts (pruneReadStartTimes (clock s) (rpcReadStartTimes s)) s in
      if lengthZ (rpcReadStartTimes s) <? maxStartsPerSecond
      then with_microtasks (microtasks s ++ [Process]) s
      else
        let due := clock s + Z.max 0 (windowMs - (clock s - default 0 (head (rpcReadStartTimes s)))) in
        with_timer (Some due) (timers s ++ [due]) s
  end.

Definition processReadQueue (s : Rq) : Rq :=
  let s := with_timer None (timers s) s in
  let s := with_starts (pruneReadStartTimes (clock s) (rpcReadStartTimes s)) s in
  scheduleReadQueue (start_reads (rpcReadQueue s) s).

(** [rpcReadQueue.push({ fn, resolve, reject })]. *)
Definition push_read (read : nat) (s : Rq) : Rq := {|
  rpcReadQueue := rpcReadQueue s ++ [read]; rpcReadStartTimes := rpcReadStartTimes s;
  activeRpcReads := activeRpcReads s; rpcReadTimer := rpcReadTimer s; timers := timers s;
  microtasks := microtasks s; running := running s; clock := clock s; asked := asked s ++ [read];
  started := started s |}.

Definition readContract (read : nat) (s : Rq) : Rq := processReadQueue (push_read read s).

(** [.finally(() => { activeRpcReads = Math.max(0, activeRpcReads - 1); … })]. *)
Definition finish_read (s : Rq) : Rq :=
  processReadQueue (with_running (Z.max 0 (activeRpcReads s - 1)) (running s) s).

Definition run_microtask (m : microtask) (s : Rq) : Rq :=
  match m with
  | Process => processReadQueue s
  | Finally _ => finish_read s
  end.

(** The timer's callback. *)
Definition fire_timer (s : Rq) : Rq := processReadQueue (with_timer None (timers s) s).

(** ** The event loop *)

(** One turn. [Ask]: code calls [readContract], from wherever it runs. [Microtask]:
    the next microtask. The others wait until there is none: [Fire]: the [n]th
    pending timer, when it is due. [Settle]: the I/O that the [n]th running read waits
    for ends, and its [finally] is queued. [Tick]: time passes. A read need not wait
    for I/O: [Resolve] is running code that settles the promise which the [n]th running
    read waits for; its [finally] is queued behind the microtasks that are there. *)
Inductive turn := Ask (read : nat) | Microtask | Fire (n : nat) | Settle (n : nat) | Resolve (n : nat) | Tick (ms : Z).

Definition settle (n read : nat) (s : Rq) : Rq :=
  with_microtasks (microtasks s ++ [Finally read]) (with_running (activeRpcReads s) (delete n (running s)) s).

Definition idle (s : Rq) : bool := match microtasks s with [] => true | _ => false end.

Definition step (t : turn) (s : Rq) : option Rq :=
  match t with
  | Ask read => Some (readContract read s)
  | Microtask =>
      match microtasks s with
      | m :: l => Some (run_microtask m (with_microtasks l s))
      | [] => None
      end
  | Fire n =>
      match timers s !! n with
      | Some due =>
          if idle s && (due <=? clock s)
          then Some (fire_timer (with_timer (rpcReadTimer s) (delete n (timers s)) s))
          else None
      | None => None
      end
  | Settle n =>
      match running s !! n with
      | Some read =>
          if idle s then Some (settle n read s) else None
      | None => None
      end
  | Resolve n =>
      match running s !! n with
      | Some read => Some (settle n read s)
      | None => None
      end
  | Tick ms => if 0 <=? ms then Some (with_clock (clock s + ms) s) else None
  end.

Fixpoint steps (l : list turn) (s : Rq) : option Rq :=
  match l with
  | [] => Some s
  | t :: l' => s' ← step t s; steps l' s'
  end.

Inductive reachable (s0 : Rq) : Rq → Prop :=
| reachable_initial : reachable s0 s0
| reachable_step t s s' : reachable s0 s → step t s = Some s' → reachable s0 s'.

(** ** What every state satisfies *)

Definition finallys (l : list microtask) : list microtask :=
  List.filter (λ m, match m with Finally _ => true | Process => false end) l.

(** Ten starts further on, at least a window has passed. *)
Definition spaced (times : list Z) : Prop :=
  ∀ i a b, times !! i = Some a → times !! (i + 10)%nat = Some b → a + windowMs ≤ b.

(** The starts: [rpcReadStartTimes] holds the latest of them, the others are a
    window old. *)
Record starts_ok (now : Z) (times recent : list Z) : Prop := {
  so_split : ∃ old, times = old ++ recent ∧ Forall (λ t, t + windowMs ≤ now) old;
  so_past : Forall (λ t, t ≤ now) times;
  so_few : lengthZ recent ≤ maxStartsPerSecond;
  so_spaced : spaced times
}.

Record queue_inv (s : Rq) : Prop := {
  qi_active : activeRpcReads s = lengthZ (running s) + lengthZ (finallys (microtasks s));
  qi_concurrent : activeRpcReads s ≤ maxConcurrent;
  qi_order : map fst (started s) ++ rpcReadQueue s = asked s;
  qi_starts : starts_ok (clock s) (map snd (started s)) (rpcReadStartTimes s)
}.

(** A queue that is not empty will be looked at again. *)
Record scheduled (s : Rq) : Prop := {
  sc_timer : ∀ due, rpcReadTimer s = Some due →
    due ∈ timers s ∧ lengthZ (rpcReadStartTimes s) = maxStartsPerSecond ∧
    head (rpcReadStartTimes s) = Some (due - windowMs);
  sc_awake : rpcReadQueue s ≠ [] → Process ∈ microtasks s ∨ ∃ due, rpcReadTimer s = Some due
}.

Lemma prune_split now times :
  ∃ old, times = old ++ pruneReadStartTimes now times ∧ Forall (λ t, t + windowMs ≤ now) old.
Proof.
  induction times as [|t times (old&E&Hold)]; [by exists []|]. cbn [pruneReadStartTimes].
  destruct (Z.leb_spec windowMs (now - t)); [|by exists []].
  exists (t :: old). split; [by rewrite E at 1|]. constructor; [lia|done].
Qed.

Lemma prune_head now times t : head (pruneReadStartTimes now times) = Some t → now - t < windowMs.
Proof.
  induction times as [|t' times IH]; [done|]. cbn [pruneReadStartTimes].
  destruct (Z.leb_spec windowMs (now - t')); [done|]. intros [= <-]. lia.
Qed.

Lemma prune_length now times : lengthZ (pruneReadStartTimes now times) ≤ lengthZ times.
Proof. destruct (prune_split now times) as (old&E&_). rewrite E at 2. rewrite lengthZ_app. unfold lengthZ. lia. Qed.

Lemma starts_prune now times recent :
  starts_ok now times recent → starts_ok now times (pruneReadStartTimes now recent).
Proof.
  intros [(old&->&Hold) Hp Hf Hs]. destruct (prune_split now recent) as (old'&E&Hold').
  split; [|done| |done].
  - exists (old ++ old'). split; [by rewrite <- app_assoc, <- E|by apply Forall_app].
  - pose proof (prune_length now recent). lia.
Qed.

Lemma starts_later now now' times recent :
  now ≤ now' → starts_ok now times recent → starts_ok now' times recent.
Proof.
  intros Hn [(old&->&Hold) Hp Hf Hs]. split; [|eapply Forall_impl; [done|cbn; lia]|done|done].
  exists old. split; [done|]. eapply Forall_impl; [done|cbn; lia].
Qed.

Lemma spaced_snoc times now :
  spaced times → (∀ a, times !! (length times - 10)%nat = Some a → (10 ≤ length times)%nat → a + windowMs ≤ now) →
  spaced (times ++ [now]).
Proof.
  intros Hs Hn i a b Ha Hb. apply lookup_app_Some in Hb as [Hb|[Hl Hb]].
  - apply (Hs i); [|done]. apply lookup_lt_Some in Hb. rewrite lookup_app_l in Ha by lia. done.
  - apply list_lookup_singleton_Some in Hb as [Hi <-].
    assert (i = length times - 10)%nat as -> by lia. apply Hn; [|lia].
    by rewrite lookup_app_l in Ha by lia.
Qed.

Lemma starts_start now times recent :
  starts_ok now times recent → lengthZ recent < maxStartsPerSecond → starts_ok now (times ++ [now]) (recent ++ [now]).
Proof.
  intros [(old&->&Hold) Hp Hf Hs] Hl. split.
  - exists old. by rewrite app_assoc.
  - apply Forall_app. split; [done|]. by constructor.
  - rewrite lengthZ_app. change (lengthZ [now]) with 1. lia.
  - unfold lengthZ, maxStartsPerSecond in *. apply spaced_snoc; [done|]. intros a Ha Hlen. rewrite length_app in *.
    rewrite lookup_app_l in Ha by lia. rewrite Forall_lookup in Hold. by apply (Hold _ _ Ha).
Qed.

(** ** The operations keep it *)

Lemma with_starts_inv s :
  queue_inv s → queue_inv (with_starts (pruneReadStartTimes (clock s) (rpcReadStartTimes s)) s).
Proof. intros [Ha Hc Ho Hs]. split; [done|done|done|by apply starts_prune]. Qed.

Lemma with_timer_inv timer pending s : queue_inv s → queue_inv (with_timer timer pending s).
Proof. intros [Ha Hc Ho Hs]. by split. Qed.

Lemma finallys_app l l' : finallys (l ++ l') = finallys l ++ finallys l'.
Proof. unfold finallys. apply List.filter_app. Qed.

Lemma process_microtask_inv s : queue_inv s → queue_inv (with_microtasks (microtasks s ++ [Process]) s).
Proof.
  intros [Ha Hc Ho Hs]. split; [|done..]. cbn -[finallys lengthZ]. rewrite finallys_app, app_nil_r. done.
Qed.

Lemma start_read_inv read q s :
  queue_inv s → rpcReadQueue s = read :: q →
  activeRpcReads s < maxConcurrent → lengthZ (rpcReadStartTimes s) < maxStartsPerSecond →
  queue_inv (start_read read q s).
Proof.
  intros [Ha Hc Ho Hs] Hq Hlt Hl. split; cbn -[finallys lengthZ].
  - rewrite Ha, lengthZ_app. change (lengthZ [read]) with 1. lia.
  - lia.
  - rewrite map_app, <- app_assoc. cbn. by rewrite <- Hq.
  - rewrite map_app. cbn [map snd]. by apply starts_start.
Qed.

(** The loop stops at an empty queue or at a limit. *)
Definition held (s : Rq) : Prop :=
  rpcReadQueue s ≠ [] → maxConcurrent ≤ activeRpcReads s ∨ maxStartsPerSecond ≤ lengthZ (rpcReadStartTimes s).

Lemma start_reads_spec q s :
  queue_inv s → rpcReadQueue s = q →
  let s' := start_reads q s in
  queue_inv s' ∧ held s' ∧ rpcReadTimer s' = rpcReadTimer s ∧ timers s' = timers s ∧ microtasks s' = microtasks s ∧
  clock s' = clock s.
Proof.
  revert s. induction q as [|read q IH]; intros s Hi Hq; cbn [start_reads].
  { split; [done|]. split; [intros H; congruence|done]. }
  destruct (Z.ltb_spec (activeRpcReads s) maxConcurrent) as [Ha|Ha];
    [destruct (Z.ltb_spec (lengthZ (rpcReadStartTimes s)) maxStartsPerSecond) as [Hl|Hl]|]; cbn [andb].
  - apply (IH (start_read read q s)); [by apply start_read_inv|done].
  - split; [done|]. split; [by right|done].
  - split; [done|]. split; [by left|done].
Qed.

Lemma schedule_inv s : queue_inv s → queue_inv (scheduleReadQueue s).
Proof.
  intros Hi. unfold scheduleReadQueue. destruct (rpcReadTimer s); [done|]. destruct (rpcReadQueue s); [done|].
  apply with_starts_inv in Hi as Hp.
  destruct (_ <? _); [by apply process_microtask_inv|by apply with_timer_inv].
Qed.

Lemma process_inv s : queue_inv s → queue_inv (processReadQueue s).
Proof.
  intros Hi. apply schedule_inv. apply start_reads_spec; [|done].
  apply (with_starts_inv (with_timer None (timers s) s)). by apply with_timer_inv.
Qed.

Lemma scheduled_after s :
  queue_inv s → rpcReadTimer s = None → scheduled (scheduleReadQueue s).
Proof.
  intros [_ _ _ [_ _ Hf _]] Ht. unfold scheduleReadQueue. rewrite Ht.
  destruct (rpcReadQueue s) as [|read q] eqn:Hq; [split; [by rewrite Ht|by rewrite Hq]|].
  pose proof (prune_length (clock s) (rpcReadStartTimes s)) as Hl.
  cbn -[lengthZ]. destruct (Z.ltb_spec (lengthZ (pruneReadStartTimes (clock s) (rpcReadStartTimes s))) maxStartsPerSecond) as [Hlt|Hge].
  - split; cbn -[lengthZ]; [by rewrite Ht|]. intros _. left. apply elem_of_app. right. apply list_elem_of_here.
  - split; cbn -[lengthZ]; [|eauto]. intros due [= <-].
    destruct (head (pruneReadStartTimes (clock s) (rpcReadStartTimes s))) as [t|] eqn:Eh.
    + pose proof (prune_head _ _ _ Eh) as Hh. change (default 0 (Some t)) with t. rewrite Z.max_r by lia.
      split; [apply elem_of_app; right; apply list_elem_of_here|].
      unfold maxStartsPerSecond, windowMs in *. split; [lia|]. f_equal. lia.
    + apply head_None in Eh. rewrite Eh in Hge. by unfold lengthZ, maxStartsPerSecond in Hge.
Qed.

Lemma process_scheduled s : queue_inv s → scheduled (processReadQueue s).
Proof.
  intros Hi. unfold processReadQueue.
  destruct (start_reads_spec (rpcReadQueue s)
              (with_starts (pruneReadStartTimes (clock s) (rpcReadStartTimes s)) (with_timer None (timers s) s)))
    as (Hi'&_&Ht&_); [by apply (with_starts_inv (with_timer None (timers s) s)), with_timer_inv|done|].
  by apply scheduled_after.
Qed.

(** ** Every turn keeps it *)

Definition rq_inv (s : Rq) : Prop := queue_inv s ∧ scheduled s.

Lemma initial_inv now : rq_inv (initial now).
Proof.
  split; split; cbn; try done. split; cbn; try done. exists []. by split.
Qed.

Lemma process_rq_inv s : queue_inv s → rq_inv (processReadQueue s).
Proof. intros H. split; [by apply process_inv|by apply process_scheduled]. Qed.

Lemma ask_inv read s : queue_inv s → rq_inv (readContract read s).
Proof.
  intros [Ha Hc Ho Hs]. apply process_rq_inv. split; cbn; [done|done| |done]. by rewrite app_assoc, Ho.
Qed.

Lemma microtask_inv m l s :
  queue_inv s → microtasks s = m :: l → rq_inv (run_microtask m (with_microtasks l s)).
Proof.
  intros [Ha Hc Ho Hs] Hm. rewrite Hm in Ha. destruct m as [|read]; apply process_rq_inv; split; try done.
  - cbn -[finallys lengthZ] in *. change (finallys (Finally read :: l)) with (Finally read :: finallys l) in Ha.
    unfold lengthZ in *. cbn [length] in Ha. lia.
  - cbn. unfold maxConcurrent in *. lia.
Qed.

Lemma settle_inv read n s : rq_inv s → running s !! n = Some read → rq_inv (settle n read s).
Proof.
  intros [[Ha Hc Ho Hs] [Ht Hw]] Hr. unfold settle. split; split; try done.
  - cbn -[finallys lengthZ]. rewrite Ha, finallys_app, lengthZ_app. unfold lengthZ. rewrite length_delete by done.
    apply lookup_lt_Some in Hr. cbn. lia.
  - cbn. intros [Hp|Hp]%Hw; [left; apply elem_of_app; by left|by right].
Qed.

Lemma tick_inv ms s : 0 ≤ ms → rq_inv s → rq_inv (with_clock (clock s + ms) s).
Proof.
  intros Hms [[Ha Hc Ho Hs] [Ht Hw]]. split; split; try done. cbn. eapply starts_later; [|done]. lia.
Qed.

Lemma step_inv t s s' : rq_inv s → step t s = Some s' → rq_inv s'.
Proof.
  intros Hi. pose proof Hi as [Hq _]. destruct t as [read| |n|n|n|ms]; cbn [step].
  - intros [= <-]. by apply ask_inv.
  - destruct (microtasks s) as [|m l] eqn:Hm; [done|]. intros [= <-]. by apply microtask_inv.
  - destruct (timers s !! n) as [due|]; [|done]. destruct (idle s && (due <=? clock s)); [|done].
    intros [= <-]. apply process_rq_inv. destruct Hq. by split.
  - destruct (running s !! n) as [read|] eqn:Hr; [|done]. destruct (idle s) eqn:Hidle; [|done].
    intros [= <-]. by apply settle_inv.
  - destruct (running s !! n) as [read|] eqn:Hr; [|done]. intros [= <-]. by apply settle_inv.
  - destruct (Z.leb_spec 0 ms); [|done]. intros [= <-]. by apply tick_inv.
Qed.

Lemma reachable_inv now s : reachable (initial now) s → rq_inv s.
Proof. induction 1 as [|t s s' _ IH Hs]; [apply initial_inv|by eapply step_inv]. Qed.

Lemma steps_reachable l s0 s s' : reachable s0 s → steps l s = Some s' → reachable s0 s'.
Proof.
  revert s. induction l as [|t l IH]; intros s Hr; cbn [steps]; [by intros [= <-]|].
  destruct (step t s) as [s1|] eqn:Hs; [|done]. cbn. apply IH. by eapply reachable_step.
Qed.

(** ** The limits

    At most five reads run at once; reads start in the order they were asked for,
    each once; and between a start and the tenth after it a second passes. *)
Theorem read_limits now s :
  reachable (initial now) s →
  lengthZ (running s) ≤ maxConcurrent ∧ map fst (started s) `prefix_of` asked s ∧
  ∀ i r a r' b, started s !! i = Some (r, a) → started s !! (i + 10)%nat = Some (r', b) → a + windowMs ≤ b.
Proof.
  intros [[Ha Hc Ho [_ _ _ Hs]] _]%reachable_inv. split; [|split].
  - unfold lengthZ in *. lia.
  - by exists (rpcReadQueue s).
  - intros i r a r' b H1 H2. apply (Hs i); rewrite list_lookup_fmap; [by rewrite H1|by rewrite H2].
Qed.

(** ** Waiting for the rate *)

Lemma start_reads_started q s : started s `prefix_of` started (start_reads q s).
Proof.
  revert s. induction q as [|read q IH]; intros s; cbn [start_reads]; [done|].
  destruct (_ && _); [|done]. etransitivity; [|apply IH]. by eexists.
Qed.

Lemma schedule_started s : started (scheduleReadQueue s) = started s.
Proof.
  unfold scheduleReadQueue. destruct (rpcReadTimer s), (rpcReadQueue s); try done. by destruct (_ <? _).
Qed.

(** Looking at the queue starts its first read unless a limit forbids it. *)
Lemma process_starts read q s :
  rpcReadQueue s = read :: q → activeRpcReads s < maxConcurrent →
  lengthZ (pruneReadStartTimes (clock s) (rpcReadStartTimes s)) < maxStartsPerSecond →
  (read, clock s) ∈ started (processReadQueue s).
Proof.
  intros Hq Ha Hl. unfold processReadQueue. rewrite schedule_started.
  cbn [rpcReadQueue with_starts with_timer clock rpcReadStartTimes]. rewrite Hq.
  cbn [start_reads activeRpcReads with_starts with_timer rpcReadStartTimes].
  apply Z.ltb_lt in Ha, Hl. rewrite Ha, Hl. cbn [andb].
  eapply elem_of_prefix; [|apply start_reads_started]. cbn. apply elem_of_app. right.
  apply list_elem_of_here.
Qed.

Lemma prune_drops now t times :
  t + windowMs ≤ now → lengthZ (t :: times) = maxStartsPerSecond →
  lengthZ (pruneReadStartTimes now (t :: times)) < maxStartsPerSecond.
Proof.
  intros Ht Hl. cbn [pruneReadStartTimes]. destruct (Z.leb_spec windowMs (now - t)); [|lia].
  pose proof (prune_length now times). unfold lengthZ in *. cbn [length] in *. lia.
Qed.

(** A read that waits although fewer than five run waits for the rate, for at most
    a second: a timer is pending that is due by then, and when it fires, however
    late, the read starts. *)
Theorem rate_wait_bounded now s read q :
  reachable (initial now) s → idle s = true → rpcReadQueue s = read :: q →
  lengthZ (running s) < maxConcurrent →
  ∃ n due, timers s !! n = Some due ∧ due ≤ clock s + windowMs ∧
    ∀ ms, 0 ≤ ms → due ≤ clock s + ms →
      ∃ s', steps [Tick ms; Fire n] s = Some s' ∧ (read, clock s + ms) ∈ started s'.
Proof.
  intros [[Hact _ _ Hst] [Ht Hw]]%reachable_inv Hidle Hq Hr.
  assert (microtasks s = []) as Hm by (unfold idle in Hidle; by destruct (microtasks s)).
  destruct Hw as [Hp|[due Hdue]]; [by rewrite Hq|rewrite Hm in Hp; by apply not_elem_of_nil in Hp|].
  apply Ht in Hdue as ([n Hn]%list_elem_of_lookup&Hl&Hh).
  destruct (rpcReadStartTimes s) as [|t times] eqn:Es; [done|]. injection Hh as Hh.
  exists n, due. split; [done|]. destruct Hst as [(old&E&_) Hpast _ _].
  assert (t ≤ clock s) as Htc.
  { rewrite E in Hpast. apply Forall_app in Hpast as [_ Hpast]. by inversion Hpast. }
  split; [lia|]. intros ms Hms Hd. cbn [steps step]. apply Z.leb_le in Hms as ->. cbn.
  rewrite Hn. unfold idle. cbn [microtasks with_clock]. rewrite Hm. apply Z.leb_le in Hd as Hd'. rewrite Hd'. cbn [andb mbind option_bind].
  eexists. split; [done|].
  apply (process_starts read q (with_timer None _ (with_timer _ _ (with_clock (clock s + ms) s)))); cbn -[lengthZ pruneReadStartTimes].
  - done.
  - rewrite Hact, Hm. unfold lengthZ, maxConcurrent in *. cbn. lia.
  - rewrite Es. apply prune_drops; [lia|done].
Qed.

(** ** Waiting for a read to end

    A read that has to wait because five are running, while fewer than ten started
    in the last second, makes [scheduleReadQueue] queue a microtask that looks at
    the queue again, finds it as it was, and queues the next: the event loop never
    gets to the I/O that would end one of the five. *)
Record spinning (s : Rq) : Prop := {
  sp_full : maxConcurrent ≤ activeRpcReads s;
  sp_waiting : rpcReadQueue s ≠ [];
  sp_slow : lengthZ (rpcReadStartTimes s) < maxStartsPerSecond;
  sp_busy : microtasks s ≠ [] ∧ Forall (λ m, m = Process) (microtasks s)
}.

Lemma full_start_reads q s : maxConcurrent ≤ activeRpcReads s → start_reads q s = s.
Proof.
  intros Ha. destruct q; [done|]. cbn [start_reads]. destruct (Z.ltb_spec (activeRpcReads s) maxConcurrent); [lia|done].
Qed.

Lemma full_process s :
  maxConcurrent ≤ activeRpcReads s → rpcReadQueue s ≠ [] →
  lengthZ (pruneReadStartTimes (clock s) (rpcReadStartTimes s)) < maxStartsPerSecond →
  Forall (λ m, m = Process) (microtasks s) →
  spinning (processReadQueue s) ∧ started (processReadQueue s) = started s.
Proof.
  intros Ha Hq Hl Hm. unfold processReadQueue. rewrite full_start_reads by done.
  split; [|by rewrite schedule_started]. unfold scheduleReadQueue. cbn -[lengthZ].
  destruct (rpcReadQueue s) as [|read q] eqn:Eq; [done|].
  pose proof (prune_length (clock s) (pruneReadStartTimes (clock s) (rpcReadStartTimes s))) as Hp.
  destruct (Z.ltb_spec (lengthZ (pruneReadStartTimes (clock s) (pruneReadStartTimes (clock s) (rpcReadStartTimes s))))
              maxStartsPerSecond); [|lia].
  split; cbn -[lengthZ]; [done|by rewrite Eq|lia|]. split; [by destruct (microtasks s)|].
  apply Forall_app. split; [done|by constructor].
Qed.

(** The reads wait for I/O: no code that runs settles one. *)
Definition waits_for_io (t : turn) : Prop := match t with Resolve _ => False | _ => True end.

Lemma spinning_step t s s' :
  waits_for_io t → spinning s → step t s = Some s' → spinning s' ∧ started s' = started s.
Proof.
  intros Hio [Ha Hq Hl [Hne Hm]].
  pose proof (prune_length (clock s) (rpcReadStartTimes s)) as Hp.
  assert (idle s = false) as Hidle by (unfold idle; by destruct (microtasks s)).
  destruct t as [read| |n|n|n|ms]; cbn [step]; [| | | |done|].
  - intros [= <-]. apply (full_process (push_read read s)); cbn -[lengthZ]; [done|by destruct (rpcReadQueue s)|lia|done].
  - destruct (microtasks s) as [|m l] eqn:Em; [done|]. intros [= <-].
    inversion Hm as [|? ? -> Hm']; subst. apply (full_process (with_microtasks l s)); cbn -[lengthZ]; [done|done|lia|done].
  - rewrite Hidle. by destruct (timers s !! n).
  - rewrite Hidle. by destruct (running s !! n).
  - destruct (0 <=? ms); [|done]. intros [= <-]. by repeat split.
Qed.

Lemma spinning_steps l s s' :
  Forall waits_for_io l → spinning s → steps l s = Some s' → spinning s' ∧ started s' = started s.
Proof.
  intros Hio. revert s. induction Hio as [|t l Ht _ IH]; intros s Hs; cbn [steps]; [by intros [= <-]|].
  destruct (step t s) as [s1|] eqn:E; [|done]. cbn. intros Hl.
  destruct (spinning_step t s s1 Ht Hs E) as [Hs1 <-]. by apply IH.
Qed.

(** C9. When five reads run that wait for I/O, as the reads of the RPC servers do, fewer
    than ten started within the last second and nothing else is in the way, a sixth
    read is the end: whatever turns follow, the event loop stays in microtasks, no I/O
    of a running read is looked at, no timer fires and no read starts any more. Only
    code that runs and itself settles what a read waits for, as the tests do, could
    end one. *)
Theorem sixth_read_freezes now s read l s' :
  reachable (initial now) s → idle s = true → lengthZ (running s) = maxConcurrent →
  lengthZ (pruneReadStartTimes (clock s) (rpcReadStartTimes s)) < maxStartsPerSecond →
  Forall waits_for_io l → steps (Ask read :: l) s = Some s' →
  idle s' = false ∧ started s' = started s ∧ (∀ n, step (Settle n) s' = None) ∧ (∀ n, step (Fire n) s' = None).
Proof.
  intros [[Hact _ _ _] _]%reachable_inv Hidle Hr Hl Hio. cbn [steps step mbind option_bind].
  assert (microtasks s = []) as Hm by (unfold idle in Hidle; by destruct (microtasks s)).
  rewrite Hm in Hact. change (lengthZ (finallys [])) with 0 in Hact. intros Hsteps.
  assert (spinning (readContract read s) ∧ started (readContract read s) = started s) as [Hsp Hst].
  { apply (full_process (push_read read s)); cbn -[lengthZ]; [lia|by destruct (rpcReadQueue s)|done|by rewrite Hm]. }
  destruct (spinning_steps l _ _ Hio Hsp Hsteps) as [[_ _ _ [Hne _]] Hst'].
  assert (idle s' = false) as Hidle' by (unfold idle; by destruct (microtasks s')).
  split; [done|]. split; [by rewrite Hst', Hst|]. cbn [step].
  split; intros n; rewrite Hidle'; [by destruct (running s' !! n)|by destruct (timers s' !! n)].
Qed.
