(* ===== verification/RpcPool.v ===== *)
(** * The pool of RPC connections (frontend/lib/stellar.ts)

    [RpcConnectionPool]: three connections to the endpoints, and [execute], which
    runs a call on the best of them, with a time limit, and tries again. A
    connection that is being used may be replaced in the pool, so connections are
    objects of a heap and the pool holds references. *)
From S2P Require Import Prelude.
#[local] Open Scope string_scope.
#[local] Open Scope list_scope.
#[local] Open Scope Z_scope.

(** ** RPC_POOL_CONFIG *)
Definition poolSize : nat := 3.
Definition maxConnectionAge : Z := 300000.
Definition requestTimeout : Z := 15000.
Definition maxRetries : nat := 3.
Definition retryBaseDelay : Z := 1000.

(** [PooledConnection]; the server it holds is the one of its URL. *)
Record PooledConnection := {
  url : string;
  createdAt : Z;
  lastUsed : Z;
  healthy : bool;
  inFlightRequests : Z
}.

(** The connection objects, in the order they were made, and the array
    [connections] of references to them. *)
Record RpcConnectionPool := {
  objects : list PooledConnection;
  connections : list nat
}.

Definition new_connection (now : Z) (u : string) : PooledConnection :=
  {| url := u; createdAt := now; lastUsed := now; healthy := true; inFlightRequests := 0 |}.

Definition set_healthy (b : bool) (c : PooledConnection) : PooledConnection :=
  {| url := url c; createdAt := createdAt c; lastUsed := lastUsed c; healthy := b;
     inFlightRequests := inFlightRequests c |}.
Definition set_lastUsed (t : Z) (c : PooledConnection) : PooledConnection :=
  {| url := url c; createdAt := createdAt c; lastUsed := t; healthy := healthy c;
     inFlightRequests := inFlightRequests c |}.
Definition set_inFlight (n : Z) (c : PooledConnection) : PooledConnection :=
  {| url := url c; createdAt := createdAt c; lastUsed := lastUsed c; healthy := healthy c;
     inFlightRequests := n |}.

(** An update of an object through a reference to it. *)
Definition update (r : nat) (f : PooledConnection → PooledConnection) (P : RpcConnectionPool) : RpcConnectionPool :=
  {| objects := alter f r (objects P); connections := connections P |}.

Definition object (P : RpcConnectionPool) (r : nat) : PooledConnection :=
  default (new_connection 0 "") (objects P !! r).

(** [RPC_ENDPOINTS[i % RPC_ENDPOINTS.length] ?? RPC_URL ?? ''], and the endpoint
    after the first that is [u]. *)
Section endpoints.
Context (RPC_ENDPOINTS : list string).

Definition RPC_URL : option string := head RPC_ENDPOINTS.

Definition endpoint (i : nat) : string :=
  default (default "" RPC_URL) (RPC_ENDPOINTS !! (i mod length RPC_ENDPOINTS)%nat).

Fixpoint indexOf (l : list string) (u : string) : option nat :=
  match l with
  | [] => None
  | x :: l' => if String.eqb x u then Some O else S <$> indexOf l' u
  end.

Definition next_endpoint (u : string) : string :=
  endpoint (match indexOf RPC_ENDPOINTS u with Some i => S i | None => O end).

Definition initPool (now : Z) : RpcConnectionPool := {|
  objects := map (λ i, new_connection now (endpoint i)) (seq 0 poolSize);
  connections := seq 0 poolSize |}.

(** [this.connections[index] = { … }]. *)
Definition recycleConnection (now : Z) (index : nat) (P : RpcConnectionPool) : RpcConnectionPool :=
  let currentUrl := match connections P !! index with
                    | Some r => url (object P r)
                    | None => default "" RPC_URL
                    end in
  {| objects := objects P ++ [new_connection now (next_endpoint currentUrl)];
     connections := <[index := length (objects P)]> (connections P) |}.

(** The reference that [getConnection] returns; [lastUsed] is set. *)
Definition best_connection (P : RpcConnectionPool) : nat :=
  let sorted := sort_by (λ r, inFlightRequests (object P r))
                  (filter (λ r, healthy (object P r) = true) (connections P)) in
  default (default O (head (connections P))) (head sorted).

Definition getConnection (now : Z) (P : RpcConnectionPool) : nat * RpcConnectionPool :=
  let conn := best_connection P in (conn, update conn (set_lastUsed now) P).

(** [conn.inFlightRequests++] and [Math.max(0, conn.inFlightRequests - 1)]. *)
Definition acquire (conn : nat) (P : RpcConnectionPool) : RpcConnectionPool :=
  update conn (λ c, set_inFlight (inFlightRequests c + 1) c) P.
Definition release (conn : nat) (P : RpcConnectionPool) : RpcConnectionPool :=
  update conn (λ c, set_inFlight (Z.max 0 (inFlightRequests c - 1)) c) P.

(** The errors that speak of the network. *)
Definition network_error (e : exn) : bool :=
  let message := exn_message e in
  includes "timeout" message || includes "fetch" message || includes "network" message.

(** ** A call

    The state: the pool, and the world [W] with its clock, which the calls to the
    servers and [setTimeout] act on. *)
Context {W : Type} (now : W → Z) (sleep : Z → M W unit).

Record Rpc := { pool : RpcConnectionPool; world : W }.

Definition on_pool (f : RpcConnectionPool → RpcConnectionPool) : M Rpc unit :=
  modify (λ s, {| pool := f (pool s); world := world s |}).

Definition lift_world {A} (m : M W A) : M Rpc A := λ s,
  let '(r, w) := m (world s) in (r, {| pool := pool s; world := w |}).

Definition connection_at (index : nat) : M Rpc nat := λ s,
  (Ok (default O (connections (pool s) !! index)), s).
Definition read_object (conn : nat) : M Rpc PooledConnection := λ s, (Ok (object (pool s) conn), s).

Definition get_connection : M Rpc nat := λ s,
  let '(conn, P) := getConnection (now (world s)) (pool s) in
  (Ok conn, {| pool := P; world := world s |}).

(** [Promise.race] of the call with a rejection after [requestTimeout]. A call that
    lost the race is not cancelled: what it goes on to do is put before what the
    caller does next. *)
Definition race {A} (m : M W A) : M W A := λ w,
  let '(r, w') := m w in
  if now w' - now w <? requestTimeout then (r, w') else (Throw (EError "RPC request timeout"), w').

(** One attempt: what it returned or threw; counting, and health after an error. *)
Definition attempt {A} (fn : string → M W A) : M Rpc A :=
  conn ← get_connection;
  _ ← on_pool (acquire conn);
  try_catch
    (c ← read_object conn;
     r ← lift_world (race (fn (url c)));
     _ ← on_pool (release conn);
     mret r)
    (λ err,
     _ ← on_pool (release conn);
     _ ← on_pool (if network_error err then update conn (set_healthy false) else id);
     throw err).

(** The [for] loop with [left] attempts to go, of which the first is number [n]. *)
Fixpoint attempts {A} (left n : nat) (lastError : exn) (fn : string → M W A) : M Rpc A :=
  match left with
  | O => throw lastError
  | S left' =>
      try_catch (attempt fn)
        (λ err,
         _ ← (if (n <? maxRetries - 1)%nat
              then lift_world (sleep (retryBaseDelay * 2 ^ Z.of_nat n)) else mret tt);
         attempts left' (S n) err fn)
  end.

Definition execute {A} (fn : string → M W A) : M Rpc A :=
  attempts maxRetries 0 (EError "RPC request failed after retries") fn.

(** [rpcExecute]: [execute] behind the queue of ReadQueue.v, which decides when the
    call runs and not what it does. *)
Definition rpcExecute {A} (fn : string → M W A) : M Rpc A := execute fn.

(** ** Health checks, run by an interval timer in a browser

    [getHealth] of a server returns or throws. *)
Context (getHealth : string → M W unit).

Definition recycle (index : nat) : M Rpc unit := λ s,
  on_pool (recycleConnection (now (world s)) index) s.

(** The body of the loop: [conn] is the connection at [index], [start] the time at
    which the checks began. *)
Definition check_connection (start : Z) (index conn : nat) (c : PooledConnection) : M Rpc unit :=
  if maxConnectionAge <? start - createdAt c then recycle index
  else try_catch
         (_ ← lift_world (getHealth (url c)); on_pool (update conn (set_healthy true)))
         (λ _, _ ← on_pool (update conn (set_healthy false)); recycle index).

Fixpoint health_checks (start : Z) (index left : nat) : M Rpc unit :=
  match left with
  | O => mret tt
  | S left' =>
      conn ← connection_at index;
      c ← read_object conn;
      _ ← check_connection start index conn c;
      health_checks start (S index) left'
  end.

Definition performHealthChecks : M Rpc unit := λ s,
  health_checks (now (world s)) 0 (length (connections (pool s))) s.

End endpoints.

Arguments pool {W}. Arguments world {W}. Arguments Build_Rpc {W}.

(** ** Counting the calls in flight

    Calls overlap, and a connection may be recycled while calls on it run. A
    history of the pool: a call begins on the best connection, the [k]th of the
    calls that run ends, well or not, the [i]th connection is recycled. *)
Inductive event := Begin | End (k : nat) (failed : bool) | Recycle (i : nat).

Definition pool_step (endpoints : list string) (now : Z) (e : event)
    (st : RpcConnectionPool * list nat) : option (RpcConnectionPool * list nat) :=
  let '(P, calls) := st in
  match e with
  | Begin => let '(conn, P) := getConnection now P in Some (acquire conn P, calls ++ [conn])
  | End k failed =>
      conn ← calls !! k;
      let P := release conn P in
      Some (if failed then update conn (set_healthy false) P else P, delete k calls)
  | Recycle i => if (i <? length (connections P))%nat then Some (recycleConnection endpoints now i P, calls) else None
  end.

Fixpoint pool_steps (endpoints : list string) (l : list (Z * event)) (st : RpcConnectionPool * list nat)
    : option (RpcConnectionPool * list nat) :=
  match l with
  | [] => Some st
  | (now, e) :: l' => st' ← pool_step endpoints now e st; pool_steps endpoints l' st'
  end.

Definition occurrences (r : nat) (calls : list nat) : Z := Z.of_nat (count_occ Nat.eq_dec calls r).

Record pool_inv (P : RpcConnectionPool) (calls : list nat) : Prop := {
  pi_size : length (connections P) = poolSize;
  pi_refs : Forall (λ r, (r < length (objects P))%nat) (connections P);
  pi_distinct : NoDup (connections P);
  pi_calls : Forall (λ r, (r < length (objects P))%nat) calls;
  pi_inFlight : ∀ r, (r < length (objects P))%nat → inFlightRequests (object P r) = occurrences r calls
}.

Lemma object_update P r r' f :
  (r' < length (objects P))%nat →
  object (update r f P) r' = if decide (r = r') then f (object P r') else object P r'.
Proof.
  intros Hr. unfold object, update. cbn [objects]. apply lookup_lt_is_Some in Hr as [c Hc].
  case_decide as E; [subst r'; rewrite list_lookup_alter_eq, Hc; done|].
  by rewrite list_lookup_alter_ne, Hc.
Qed.

Lemma length_update P r f : length (objects (update r f P)) = length (objects P).
Proof. apply length_alter. Qed.

(** An update of anything but the count. *)
Lemma update_inv P calls r f :
  (∀ c, inFlightRequests (f c) = inFlightRequests c) → pool_inv P calls → pool_inv (update r f P) calls.
Proof.
  intros Hf [Hs Hr Hd Hc Hi]. split; rewrite ?length_update; [done..|].
  intros r' Hr'. rewrite object_update by done. case_decide; [rewrite Hf|]; by apply Hi.
Qed.

Lemma occurrences_app r l l' : occurrences r (l ++ l') = occurrences r l + occurrences r l'.
Proof. unfold occurrences. rewrite count_occ_app. lia. Qed.

Lemma occurrences_one r r' : occurrences r [r'] = if decide (r' = r) then 1 else 0.
Proof. unfold occurrences. cbn. by destruct (Nat.eq_dec r' r), (decide (r' = r)). Qed.

Lemma occurrences_delete k r calls conn :
  calls !! k = Some conn → occurrences r (delete k calls) = occurrences r calls - occurrences r [conn].
Proof.
  intros Hk. rewrite <- (take_drop_middle calls k conn Hk) at 2. rewrite delete_take_drop.
  rewrite !occurrences_app. change (conn :: drop (S k) calls) with ([conn] ++ drop (S k) calls).
  rewrite occurrences_app. lia.
Qed.

Lemma best_connection_ref P :
  connections P ≠ [] → best_connection P ∈ connections P.
Proof.
  intros Hne. unfold best_connection. destruct (head (sort_by _ _)) as [r|] eqn:E.
  - apply head_Some in E as [l E]. assert (r ∈ r :: l) as Hr by left. rewrite <- E, sort_by_perm in Hr.
    by apply list_elem_of_filter in Hr as [_ Hr].
  - destruct (connections P); [done|]. left.
Qed.

Lemma begin_inv now P calls :
  pool_inv P calls →
  let '(conn, P') := getConnection now P in pool_inv (acquire conn P') (calls ++ [conn]).
Proof.
  intros Hi. cbn [getConnection]. set (conn := best_connection P).
  assert (pool_inv (update conn (set_lastUsed now) P) calls) as [Hs Hr Hd Hc Hn] by by apply update_inv.
  rewrite length_update in *. change (connections (update conn (set_lastUsed now) P)) with (connections P) in *.
  assert ((conn < length (objects P))%nat) as Hconn.
  { pose proof Hr as Hr'. rewrite Forall_forall in Hr'. apply Hr', best_connection_ref.
    intros E. by rewrite E in Hs. }
  split; unfold acquire; rewrite ?length_update; [done|done|done| |].
  - apply Forall_app. split; [done|by constructor].
  - intros r Hr'. rewrite object_update by by rewrite length_update.
    rewrite occurrences_app, occurrences_one, <- (Hn r Hr'). case_decide; cbn; lia.
Qed.

Lemma end_inv k conn P calls :
  pool_inv P calls → calls !! k = Some conn → pool_inv (release conn P) (delete k calls).
Proof.
  intros [Hs Hr Hd Hc Hn] Hk. split; unfold release; rewrite ?length_update; [done|done|done| |].
  - rewrite delete_take_drop. apply Forall_app. split; [by apply Forall_take|by apply Forall_drop].
  - intros r Hr'. rewrite object_update by done.
    rewrite (occurrences_delete k r calls conn Hk), occurrences_one, <- (Hn r Hr'). case_decide as E; [|lia].
    subst r. cbn. rewrite (Hn conn Hr').
    assert (0 < occurrences conn calls).
    { unfold occurrences. apply list_elem_of_lookup_2 in Hk. apply list_elem_of_In in Hk.
      apply (count_occ_In Nat.eq_dec) in Hk. lia. }
    lia.
Qed.

Lemma recycle_inv endpoints now i P calls :
  pool_inv P calls → (i < length (connections P))%nat → pool_inv (recycleConnection endpoints now i P) calls.
Proof.
  intros [Hs Hr Hd Hc Hn] Hi. split; cbn [recycleConnection objects connections]; rewrite ?length_app; cbn [length].
  - by rewrite length_insert.
  - apply Forall_insert; [eapply Forall_impl; [done|cbn; lia]|lia].
  - apply NoDup_alt. intros a b x Ha Hb.
    assert (∀ j, connections P !! j ≠ Some (length (objects P))) as Hnew.
    { intros j Hj. rewrite Forall_lookup in Hr. apply Hr in Hj. lia. }
    rewrite NoDup_alt in Hd. destruct (decide (a = i)) as [->|Ha'], (decide (b = i)) as [->|Hb']; [done| | |].
    + rewrite list_lookup_insert_eq in Ha by done. rewrite list_lookup_insert_ne in Hb by done.
      injection Ha as <-. by apply Hnew in Hb.
    + rewrite list_lookup_insert_eq in Hb by done. rewrite list_lookup_insert_ne in Ha by done.
      injection Hb as <-. by apply Hnew in Ha.
    + rewrite list_lookup_insert_ne in Ha, Hb by done. by eapply Hd.
  - eapply Forall_impl; [done|cbn; lia].
  - intros r Hr'. unfold object. cbn [objects recycleConnection].
    destruct (decide (r < length (objects P))%nat) as [Hlt|Hge].
    + rewrite lookup_app_l by done. by apply Hn.
    + rewrite lookup_app_r by lia. replace (r - length (objects P))%nat with O by lia. cbn.
      unfold occurrences. rewrite (proj1 (count_occ_not_In Nat.eq_dec calls r)); [done|].
      rewrite <- list_elem_of_In, list_elem_of_lookup. intros [j Hj]. rewrite Forall_lookup in Hc. apply Hc in Hj. lia.
Qed.

Lemma pool_step_inv endpoints now e P calls P' calls' :
  pool_inv P calls → pool_step endpoints now e (P, calls) = Some (P', calls') → pool_inv P' calls'.
Proof.
  intros Hi. destruct e as [|k failed|i]; cbn [pool_step].
  - pose proof (begin_inv now P calls Hi) as Hb. destruct (getConnection now P) as [conn P1].
    by intros [= <- <-].
  - destruct (calls !! k) as [conn|] eqn:Hk; [|done]. cbn. intros [= <- <-].
    pose proof (end_inv k conn P calls Hi Hk) as He. destruct failed; [by apply update_inv|done].
  - destruct (Nat.ltb_spec i (length (connections P))); [|done]. intros [= <- <-]. by apply recycle_inv.
Qed.

Lemma pool_steps_inv endpoints l P calls P' calls' :
  pool_inv P calls → pool_steps endpoints l (P, calls) = Some (P', calls') → pool_inv P' calls'.
Proof.
  revert P calls. induction l as [|[now e] l IH]; intros P calls Hi; cbn [pool_steps]; [by intros [= <- <-]|].
  destruct (pool_step endpoints now e (P, calls)) as [[P1 calls1]|] eqn:E; [|done].
  cbn. apply IH. by eapply pool_step_inv.
Qed.

Lemma initPool_inv endpoints now : pool_inv (initPool endpoints now) [].
Proof.
  split; [done|repeat constructor; cbn; lia|apply NoDup_seq|done|].
  intros r Hr. unfold object, initPool in *. cbn [objects] in *. rewrite length_map, length_seq in Hr.
  rewrite list_lookup_fmap, lookup_seq_lt by done. done.
Qed.

(** However calls overlap and connections are recycled under them, a connection's
    count is the number of calls that run on it, so the best connection is one with
    the fewest, and [Math.max] never has to correct the count. *)
Theorem in_flight_counts endpoints start l P calls :
  pool_steps endpoints l (initPool endpoints start, []) = Some (P, calls) →
  ∀ r, r ∈ connections P → inFlightRequests (object P r) = occurrences r calls.
Proof.
  intros H r Hr. destruct (pool_steps_inv _ _ _ _ _ _ (initPool_inv endpoints start) H) as [_ Hrefs _ _ Hn].
  rewrite Forall_forall in Hrefs. by apply Hn, Hrefs.
Qed.

(** ** The choice of a connection *)

(** A healthy connection with the fewest calls; the pool's first when none is
    healthy. *)
Lemma best_connection_spec P :
  let best := best_connection P in
  (∃ r, r ∈ connections P ∧ healthy (object P r) = true) →
  best ∈ connections P ∧ healthy (object P best) = true ∧
  ∀ r, r ∈ connections P → healthy (object P r) = true → inFlightRequests (object P best) ≤ inFlightRequests (object P r).
Proof.
  intros best (r0&Hr0&Hh0). unfold best, best_connection.
  set (f := λ r, inFlightRequests (object P r)). set (l := filter _ _).
  pose proof (sort_by_perm f l) as Hp. pose proof (sort_by_ascending f l) as Ha.
  assert (r0 ∈ sort_by f l) as Hin by (rewrite Hp; by apply list_elem_of_filter).
  destruct (sort_by f l) as [|b l'] eqn:E; [by apply not_elem_of_nil in Hin|]. cbn [head from_option id].
  assert (b ∈ l) as [Hb Hbc]%list_elem_of_filter by (rewrite <- Hp; left).
  split; [done|]. split; [done|]. intros r Hr Hh.
  assert (r ∈ b :: l') as [->|Hr']%elem_of_cons by (rewrite Hp; by apply list_elem_of_filter); [done|].
  unfold ascending in Ha. apply StronglySorted_inv in Ha as [_ Ha]. rewrite Forall_forall in Ha. by apply Ha.
Qed.

Lemma best_connection_unhealthy P :
  (∀ r, r ∈ connections P → healthy (object P r) = false) →
  best_connection P = default O (head (connections P)).
Proof.
  intros H. unfold best_connection.
  assert (filter (λ r, healthy (object P r) = true) (connections P) = []) as ->; [|done].
  apply elem_of_nil_inv. intros r [Hh Hr]%list_elem_of_filter. by rewrite H in Hh.
Qed.

(** ** One attempt *)

Lemma update_update P r f g : update r f (update r g P) = update r (f ∘ g) P.
Proof.
  unfold update. cbn [objects connections]. f_equal. apply list_eq. intros i. destruct (decide (r = i)) as [->|Hne].
  - rewrite !list_lookup_alter_eq. by destruct (objects P !! i).
  - by rewrite !list_lookup_alter_ne.
Qed.

Lemma update_id P r f : (∀ c, objects P !! r = Some c → f c = c) → update r f P = P.
Proof.
  intros Hf. unfold update. destruct P as [os cs]. cbn in *. f_equal. apply list_eq. intros i.
  destruct (decide (r = i)) as [->|Hne]; [|by rewrite list_lookup_alter_ne].
  rewrite list_lookup_alter_eq. destruct (os !! i) eqn:E; cbn; [|done]. by rewrite Hf.
Qed.

(** No count is negative. *)
Definition counted (P : RpcConnectionPool) : Prop := Forall (λ c, 0 ≤ inFlightRequests c) (objects P).

Lemma counted_update P r f :
  (∀ c, inFlightRequests (f c) = inFlightRequests c) → counted P → counted (update r f P).
Proof.
  unfold counted. intros Hf H. apply Forall_alter; [done|]. intros c Hc Hn. by rewrite Hf.
Qed.

Lemma release_acquire P r : counted P → release r (acquire r P) = P.
Proof.
  intros Hc. unfold release, acquire. rewrite update_update. apply update_id. intros [] Hl.
  unfold counted in Hc. rewrite Forall_lookup in Hc. apply Hc in Hl. cbn in *.
  unfold set_inFlight. cbn. by rewrite Z.add_simpl_r, Z.max_r.
Qed.

Section attempts.
Context {W : Type} (now : W → Z) (sleep : Z → M W unit).

(** The pool after an attempt that began at [t] and ended with [r]. *)
Definition after_attempt {A} (t : Z) (r : result A) (P : RpcConnectionPool) : RpcConnectionPool :=
  let conn := best_connection P in
  let P := update conn (set_lastUsed t) P in
  match r with
  | Throw e => if network_error e then update conn (set_healthy false) P else P
  | Ok _ => P
  end.

Lemma attempt_spec {A} (fn : string → M W A) P w :
  counted P →
  attempt now fn (Build_Rpc P w) =
  let '(r, w') := race now (fn (url (object P (best_connection P)))) w in
  (r, Build_Rpc (after_attempt (now w) r P) w').
Proof.
  intros Hc. set (conn := best_connection P).
  assert (release conn (acquire conn (update conn (set_lastUsed (now w)) P)) = update conn (set_lastUsed (now w)) P)
    as Hra by by apply release_acquire, counted_update.
  assert (url (object (acquire conn (update conn (set_lastUsed (now w)) P)) conn) = url (object P conn)) as Hu.
  { unfold object, acquire, update. cbn [objects]. rewrite !list_lookup_alter_eq. by destruct (objects P !! conn). }
  unfold attempt, get_connection. cbn [getConnection]. unfold mbind, M_bind. cbn [pool world].
  fold conn. unfold on_pool at 1, modify. cbn [pool world]. unfold try_catch, read_object, lift_world. cbn [pool world].
  rewrite Hu. destruct (race now (fn (url (object P conn))) w) as [[a|e] w'].
  - unfold on_pool, modify. cbn [pool world after_attempt]. by rewrite Hra.
  - unfold on_pool, modify, throw. cbn [pool world after_attempt]. rewrite Hra. by destruct (network_error e).
Qed.

Lemma after_attempt_counted {A} t (r : result A) P : counted P → counted (after_attempt t r P).
Proof.
  intros H. unfold after_attempt. destruct r as [a|e]; [by apply counted_update|].
  destruct (network_error e); repeat (apply counted_update; [done|]); done.
Qed.

Lemma after_attempt_connections {A} t (r : result A) P : connections (after_attempt t r P) = connections P.
Proof. unfold after_attempt. destruct r; [done|]. by destruct (network_error e). Qed.

Lemma after_attempt_length {A} t (r : result A) P : length (objects (after_attempt t r P)) = length (objects P).
Proof. unfold after_attempt. destruct r as [a|e]; [|destruct (network_error e)]; by rewrite !length_update. Qed.

Lemma after_attempt_inFlight {A} t (r : result A) P i :
  (i < length (objects P))%nat → inFlightRequests (object (after_attempt t r P) i) = inFlightRequests (object P i).
Proof.
  intros Hi. unfold after_attempt. destruct r as [a|e]; [|destruct (network_error e)];
    rewrite ?object_update by (rewrite ?length_update; done); repeat case_decide; done.
Qed.

(** After an error of the network the next attempt leaves the connection alone, as
    long as another one is healthy. *)
Theorem failover {A} t e P r :
  Forall (λ r, (r < length (objects P))%nat) (connections P) →
  network_error e = true → r ∈ connections P → healthy (object P r) = true → r ≠ best_connection P →
  let P' := after_attempt (A := A) t (Throw e) P in
  best_connection P' ≠ best_connection P ∧ healthy (object P' (best_connection P')) = true.
Proof.
  rewrite Forall_forall. intros Hrefs He Hr Hh Hne P'.
  assert (connections P' = connections P) as Hconns by apply after_attempt_connections.
  assert (∀ r', r' ∈ connections P → healthy (object P' r') =
            if decide (best_connection P = r') then false else healthy (object P r')) as Hhealthy.
  { intros r' Hr'%Hrefs. unfold P', after_attempt.
    rewrite He, !object_update by (rewrite ?length_update; done). by case_decide. }
  destruct (best_connection_spec P') as (Hin&Hhb&_).
  { exists r. rewrite Hconns, Hhealthy by done. by rewrite decide_False. }
  split; [|done]. intros E. rewrite Hconns in Hin. rewrite Hhealthy in Hhb by done. by rewrite E, decide_True in Hhb.
Qed.

(** When none is, every attempt is made on the pool's first connection, and none
    becomes healthy by it. *)
Lemma pinned {A} t (r : result A) P :
  (∀ i, i ∈ connections P → healthy (object P i) = false) →
  Forall (λ i, (i < length (objects P))%nat) (connections P) →
  ∀ i, i ∈ connections (after_attempt t r P) → healthy (object (after_attempt t r P) i) = false.
Proof.
  rewrite Forall_forall. intros Hu Hrefs i. rewrite after_attempt_connections. intros Hi.
  pose proof (Hrefs i Hi). unfold after_attempt. destruct r as [a|e]; [|destruct (network_error e)];
    rewrite ?object_update by (rewrite ?length_update; done); repeat case_decide; cbn; by auto.
Qed.

(** ** The attempts *)

Context (Hsleep : ∀ ms w, ∃ w', sleep ms w = (Ok tt, w')).

(** An error of an attempt. *)
Definition call_error {A} (fn : string → M W A) (e : exn) : Prop :=
  ∃ u w w', race now (fn u) w = (Throw e, w').

(** [count] counts the calls of [fn]. *)
Record execution {A} (count : W → Z) (fn : string → M W A) (left : nat) (lastError : exn) (P : RpcConnectionPool)
    (w : W) (r : result A) (P' : RpcConnectionPool) (w' : W) : Prop := {
  ex_counted : counted P';
  ex_connections : connections P' = connections P;
  ex_inFlight : ∀ i, (i < length (objects P))%nat → inFlightRequests (object P' i) = inFlightRequests (object P i);
  ex_calls : count w ≤ count w' ≤ count w + Z.of_nat left;
  ex_result : match r with
              | Ok _ => count w < count w'
              | Throw e => count w' = count w + Z.of_nat left ∧ (left = O ∧ e = lastError ∨ call_error fn e)
              end
}.

Lemma race_throws {A} (m : M W A) w e w' :
  race now m w = (Throw e, w') → e = EError "RPC request timeout" ∨ m w = (Throw e, w').
Proof. unfold race. destruct (m w) as [r w1]. destruct (_ <? _); intros [= -> ->]; auto. Qed.

Lemma race_world {A} (m : M W A) w : (race now m w).2 = (m w).2.
Proof. unfold race. destruct (m w) as [r w1]. by destruct (_ <? _). Qed.

(** The pause after an attempt. *)
Lemma pause (count : W → Z) (b : bool) ms P w :
  (∀ ms w, count (sleep ms w).2 = count w) →
  ∃ w', (if b then lift_world (sleep ms) else mret tt) (Build_Rpc P w) = (Ok tt, Build_Rpc P w') ∧ count w' = count w.
Proof.
  intros Hc. destruct b; [|by exists w]. destruct (Hsleep ms w) as [w' E]. exists w'.
  unfold lift_world. cbn [pool world]. rewrite E. split; [done|]. by rewrite <- (Hc ms w), E.
Qed.

Lemma attempts_execution {A} (count : W → Z) (fn : string → M W A) left n lastError P w :
  (∀ u w, count (fn u w).2 = count w + 1) → (∀ ms w, count (sleep ms w).2 = count w) → counted P →
  let '(r, s') := attempts now sleep left n lastError fn (Build_Rpc P w) in
  execution count fn left lastError P w r (pool s') (world s').
Proof.
  intros Hfn Hsl. revert n lastError P w. induction left as [|left IH]; intros n lastError P w Hc.
  { cbn. split; cbn; try done; [lia|]. split; [lia|auto]. }
  cbn [attempts]. unfold try_catch. rewrite attempt_spec by done.
  set (u := url (object P (best_connection P))).
  pose proof (Hfn u w) as Hcount. rewrite <- (race_world (fn u) w) in Hcount.
  destruct (race now (fn u) w) as [[a|e] w1] eqn:Er; cbn [snd] in Hcount.
  - split; cbn [pool world]; [by apply after_attempt_counted|apply after_attempt_connections|
      intros; by apply after_attempt_inFlight|lia|lia].
  - destruct (pause count (n <? maxRetries - 1)%nat (retryBaseDelay * 2 ^ Z.of_nat n)
                (after_attempt (A := A) (now w) (Throw e) P) w1 Hsl) as (w2&E2&Hw2).
    unfold mbind, M_bind. rewrite E2.
    specialize (IH (S n) e (after_attempt (A := A) (now w) (Throw e) P) w2 (after_attempt_counted _ _ _ Hc)).
    destruct (attempts _ _ _ _ _ _ _) as [r s']. destruct IH as [H1 H2 H3 H4 H5].
    split; [done|by rewrite H2, after_attempt_connections| |lia|].
    + intros i Hi. rewrite H3 by by rewrite after_attempt_length. by apply after_attempt_inFlight.
    + destruct r as [a|e']; [lia|]. destruct H5 as [H5 [[-> ->]|He]]; (split; [lia|right]); [|done].
      by exists u, w, w1.
Qed.

(** What became of a call of [rpcExecute]: [calls_made fn n k P w r P' w'] says that,
    after [n] calls that failed, [k] more were made, each on the connection that is
    then the best; a call that threw was followed by a pause of one second, doubled for
    each call before it; the last one ended in [r]. *)
Inductive calls_made {A} (fn : string → M W A) : nat → nat → RpcConnectionPool → W → result A →
    RpcConnectionPool → W → Prop :=
  | last_call n P w r w' :
      race now (fn (url (object P (best_connection P)))) w = (r, w') →
      calls_made fn n 1 P w r (after_attempt (now w) r P) w'
  | called_again n k P w e w1 w2 r P' w' :
      race now (fn (url (object P (best_connection P)))) w = (Throw e, w1) →
      sleep (1000 * 2 ^ Z.of_nat n) w1 = (Ok tt, w2) →
      calls_made fn (S n) k (after_attempt (A := A) (now w) (Throw e) P) w2 r P' w' →
      calls_made fn n (S k) P w r P' w'.

Lemma calls_made_keeps {A} (fn : string → M W A) n k P w r P' w' :
  calls_made fn n k P w r P' w' →
  connections P' = connections P ∧
  ∀ i, (i < length (objects P))%nat → inFlightRequests (object P' i) = inFlightRequests (object P i).
Proof.
  induction 1 as [n P w r w' H|n k P w e w1 w2 r P' w' H Hs H' [IH1 IH2]].
  - split; [apply after_attempt_connections|]. intros i Hi. by apply after_attempt_inFlight.
  - split; [by rewrite IH1, after_attempt_connections|]. intros i Hi.
    rewrite IH2 by by rewrite after_attempt_length. by apply after_attempt_inFlight.
Qed.

Lemma attempts_S {A} (fn : string → M W A) left n lastError s :
  attempts now sleep (S left) n lastError fn s =
  try_catch (attempt now fn)
    (λ err, _ ← (if (n <? maxRetries - 1)%nat then lift_world (sleep (retryBaseDelay * 2 ^ Z.of_nat n)) else mret tt);
            attempts now sleep left (S n) err fn) s.
Proof. reflexivity. Qed.

Lemma attempts_calls {A} (fn : string → M W A) left n lastError P w :
  (n + S left = maxRetries)%nat → counted P →
  let '(r, s') := attempts now sleep (S left) n lastError fn (Build_Rpc P w) in
  ∃ k, calls_made fn n k P w r (pool s') (world s') ∧ (k <= S left)%nat ∧ ((∃ e, r = Throw e) → k = S left).
Proof.
  revert n lastError P w. induction left as [|left IH]; intros n lastError P w Hn Hc;
    rewrite attempts_S; unfold try_catch; rewrite attempt_spec by done;
    destruct (race now (fn (url (object P (best_connection P)))) w) as [[a|e] w1] eqn:Er.
  - exists 1%nat. split; [by apply last_call|]. split; [lia|]. by intros [? ?].
  - replace (n <? maxRetries - 1)%nat with false by (symmetry; apply Nat.ltb_ge; lia).
    cbn. exists 1%nat. split; [by apply last_call|]. by split.
  - exists 1%nat. split; [by apply last_call|]. split; [lia|]. by intros [? ?].
  - replace (n <? maxRetries - 1)%nat with true by (symmetry; apply Nat.ltb_lt; lia).
    destruct (Hsleep (retryBaseDelay * 2 ^ Z.of_nat n) w1) as [w2 E2].
    unfold mbind, M_bind, lift_world. cbn [pool world]. rewrite E2.
    specialize (IH (S n) e (after_attempt (A := A) (now w) (Throw e) P) w2 ltac:(lia) (after_attempt_counted _ _ _ Hc)).
    destruct (attempts _ _ _ _ _ _ _) as [r s']. destruct IH as (k&Hk&Hle&He).
    exists (S k). split; [exact (called_again _ _ _ _ _ _ _ _ _ _ _ Er E2 Hk)|]. split; [lia|]. intros H. by rewrite (He H).
Qed.

(** C19. What [rpcExecute] did is what [calls_made] says of the calls it made: it stops
    at the first call that succeeds in time, whose value is the result; between two
    calls it pauses for one second, then for two; after three calls that failed
    the error is the last one's, never the fallback; and nothing else happened. The
    pool's connections are the same afterwards, with the counts they had. *)
Theorem execute_spec {A} (fn : string → M W A) P w :
  counted P →
  let '(r, s') := execute now sleep fn (Build_Rpc P w) in
  (∃ k, calls_made fn 0 k P w r (pool s') (world s') ∧ (k <= 3)%nat ∧ ((∃ e, r = Throw e) → k = 3%nat)) ∧
  connections (pool s') = connections P ∧
  (∀ i, (i < length (objects P))%nat → inFlightRequests (object (pool s') i) = inFlightRequests (object P i)).
Proof.
  intros Hc. pose proof (attempts_calls fn 2 0 (EError "RPC request failed after retries") P w eq_refl Hc) as H.
  unfold execute, maxRetries. destruct (attempts _ _ _ _ _ _ _) as [r s']. split; [done|].
  destruct H as (k&Hk&_). by apply (calls_made_keeps fn _ _ _ _ _ _ _ Hk).
Qed.

(** An error that no attempt has is not the error of the call. *)
Lemma attempts_never {A} e (fn : string → M W A) left n lastError P w :
  (∀ u w w', race now (fn u) w ≠ (Throw e, w')) → lastError ≠ e → counted P →
  (attempts now sleep left n lastError fn (Build_Rpc P w)).1 ≠ Throw e.
Proof.
  intros Hfn. revert n lastError P w. induction left as [|left IH]; intros n lastError P w Hl Hc.
  { cbn. congruence. }
  cbn [attempts]. unfold try_catch. rewrite attempt_spec by done.
  set (u := url (object P (best_connection P))). specialize (Hfn u) as Hu.
  destruct (race now (fn u) w) as [[a|e'] w1] eqn:Er; [done|].
  destruct (pause (λ _, 0) (n <? maxRetries - 1)%nat (retryBaseDelay * 2 ^ Z.of_nat n)
              (after_attempt (A := A) (now w) (Throw e') P) w1) as (w2&E2&_); [done|].
  unfold mbind, M_bind. rewrite E2. apply IH; [|by apply after_attempt_counted].
  intros ->. by apply Hu in Er.
Qed.
End attempts.
