(* ===== verification/Stellar.v ===== *)
(** * frontend/lib/stellar.ts: the connection of the web app to the contracts

    [Chain]: what the module is built from, the servers of the endpoints and the
    encodings of the stellar-sdk. [simulateTx] and [submitTx] run behind the
    connection pool of RpcPool.v. *)
From S2P Require Import Prelude.
From S2P Require Import JsValue.
From S2P Require Import JsNumber.
From S2P Require Import JsArith.
From S2P Require Import Hex.
From S2P Require Import Sdk.
From S2P Require Import Abi.
From S2P Require Import ContractAbi.
From S2P Require Import RpcPool.
From Stdlib Require Import Ascii SpecFloat.
#[local] Open Scope string_scope.
#[local] Open Scope list_scope.
#[local] Open Scope Z_scope.

(** ** BigInt handling *)

Fixpoint safeSerialize (value : jsval) : jsval :=
  match value with
  | JBig n => JStr (pretty n)
  | JArr l => JArr (map safeSerialize l)
  | JObj o => JObj (map (λ kv, (kv.1, safeSerialize kv.2)) o)
  | v => v
  end.

(** [JSON.stringify] of a value that holds a bigint throws. *)
Fixpoint serializable (v : jsval) : bool :=
  match v with
  | JBig _ => false
  | JArr l => forallb serializable l
  | JObj o => forallb (λ kv, serializable kv.2) o
  | _ => true
  end.

Definition stringify (v : jsval) : result string :=
  if serializable v then Ok (JSON_stringify v)
  else Throw (ETypeError "Do not know how to serialize a BigInt").

(** With no [space]. *)
Definition safeStringify (value : jsval) : result string := stringify (safeSerialize value).

(** ** Errors *)

Definition parseSimulationError (sim : jsval) : result string :=
  json ← safeStringify sim;
  let raw := toLowerCase json in
  Ok (if includes "insufficientliquidity" raw || includes "insufficient liquidity" raw
      then "Not enough liquidity in pool to fund this invoice"
      else if includes "unauthorized" raw then "You are not authorized to perform this action"
      else if includes "contractpaused" raw || includes "contract is paused" raw
      then "The protocol is currently paused"
      else "Transaction simulation failed. Please review inputs and try again.").

(** ** The chain *)

(** A contract of the environment's configuration, or one given by its address. *)
Inductive Target := Of (c : Contract) | At (id : string).

(** The servers by their URL; the clock and [setTimeout]; the network's passphrase
    and the contracts' addresses, [''] where the environment names none; the
    stellar-sdk: [build] covers [new Contract], [TransactionBuilder] and the encoding
    of the arguments, [hash] a transaction's hash, a text or bytes, [None] when
    it throws or there is none; [native_balances] the [balances] of an account, if it
    has them; [error_members] the members of an error response of a simulation. *)
Record Chain (W : Type) := {
  ch_Account : Type;
  ch_Tx : Type;
  ch_ScVal : Type;
  ch_server : string → Server W ch_Account ch_Tx ch_ScVal;
  ch_now : W → Z;
  ch_sleep : Z → M W unit;
  ch_network : string;
  ch_id : Contract → string;
  ch_build : ch_Account → string → Target → string → list ScArg → result ch_Tx;
  ch_assemble : ch_Tx → ch_ScVal → result string;
  ch_fromXDR : string → string → result ch_Tx;
  ch_scValToNative : ch_ScVal → jsval;
  ch_hash : ch_Tx → option (string + list nat);
  ch_balances : ch_Account → option (list (string * string));
  ch_error_members : string → list (string * jsval);
  ch_send_members : SendResult → list (string * jsval)
}.
Arguments ch_Account {W}. Arguments ch_Tx {W}. Arguments ch_ScVal {W}. Arguments ch_server {W}.
Arguments ch_now {W}. Arguments ch_sleep {W}. Arguments ch_network {W}. Arguments ch_id {W}.
Arguments ch_build {W}. Arguments ch_assemble {W}. Arguments ch_fromXDR {W}.
Arguments ch_scValToNative {W}. Arguments ch_hash {W}. Arguments ch_balances {W}.
Arguments ch_error_members {W}. Arguments ch_send_members {W}.

Section chain.
Context {W : Type} (X : Chain W).

Definition rpcExecute {A} (fn : string → M W A) : M (Rpc (W := W)) A :=
  RpcPool.rpcExecute (ch_now X) (ch_sleep X) fn.

(** ** Simulation *)

Definition simulate_on (source : string) (target : Target) (method : string) (args : list ScArg)
    (url : string) : M W (SimResponse (ch_ScVal X)) :=
  account ← getAccount (ch_server X url) source;
  tx ← lift_result (ch_build X account (ch_network X) target method args);
  simulateTransaction (ch_server X url) tx.

Definition simulateTx (target : Target) (method : string) (args : list ScArg) (sourceAddress : string)
    : M (Rpc (W := W)) (SimResponse (ch_ScVal X)) :=
  rpcExecute (simulate_on sourceAddress target method args).

(** [sim.result!.retval]: an error response has no [result]. *)
Definition retval (sim : SimResponse (ch_ScVal X)) : result jsval :=
  match sim with
  | SimSuccess v => Ok (ch_scValToNative X v)
  | SimError _ => Throw (ETypeError "Cannot read properties of undefined (reading 'retval')")
  end.

Definition isAccessControlSigner (address role : string) : M (Rpc (W := W)) bool :=
  if String.eqb (ch_id X AccessControl) "" then mret false
  else
    sim ← simulateTx (Of AccessControl) "is_signer" [ArgVec [ArgSymbol role]; ArgAddress address] address;
    match sim with
    | SimError _ => mret false
    | SimSuccess v => mret (truthy (ch_scValToNative X v))
    end.

(** ** Submission *)

Definition transactionKey (tx : ch_Tx X) (signedXDR : string) : string :=
  match ch_hash X tx with
  | Some (inl hash) => hash
  | Some (inr bytes) => hex_bytes bytes
  | None => signedXDR
  end.

(** The [while]: [left] of the 20 attempts remain. *)
Fixpoint poll (onProgress : TransactionProgress → M W unit) (url hash : string) (left : nat) (status : string)
    : M W string :=
  if one_of ["NOT_FOUND"; "PENDING"] status then
    match left with
    | O => mret status
    | S left' =>
        _ ← onProgress (Pending hash);
        _ ← ch_sleep X 1500;
        status' ← getTransaction (ch_server X url) hash;
        poll onProgress url hash left' status'
    end
  else mret status.

Definition fail_with (onProgress : TransactionProgress → M W unit) (hash error : string) : M W string :=
  _ ← onProgress (Failed hash error); throw (EError error).

(** The function that [submitTx] gives to [rpcExecute]; the transaction's status
    stands for the response. *)
Definition send_and_wait (onProgress : TransactionProgress → M W unit) (tx : ch_Tx X) (url : string) : M W string :=
  response ← sendTransaction (ch_server X url) tx;
  let hash := send_hash response in
  if String.eqb (send_status response) "ERROR" then
    json ← lift_result (safeStringify (JObj (ch_send_members X response)));
    fail_with onProgress hash ("Transaction failed: " +:+ json)
  else
    _ ← onProgress (Pending hash);
    status ← getTransaction (ch_server X url) hash;
    status ← poll onProgress url hash 20 status;
    if String.eqb status "FAILED" then fail_with onProgress hash "Transaction failed on-chain"
    else if one_of ["NOT_FOUND"; "PENDING"] status
    then fail_with onProgress hash "Transaction confirmation timed out"
    else _ ← onProgress (Confirmed hash); mret status.

(** [pendingTransactions], the module's [Set] of keys, beside the connections. *)
Record Submitting := { rpc : Rpc (W := W); pendingTransactions : gset string }.

Definition submitTx (signedXDR : string) (onProgress : TransactionProgress → M W unit) : M Submitting string := λ s,
  match ch_fromXDR X signedXDR (ch_network X) with
  | Throw e => (Throw e, s)
  | Ok tx =>
      let key := transactionKey tx signedXDR in
      if bool_decide (key ∈ pendingTransactions s) then (Throw (EError "Transaction already in progress"), s)
      else
        let '(r, rpc') := rpcExecute (send_and_wait onProgress tx) (rpc s) in
        (r, {| rpc := rpc'; pendingTransactions := ({[key]} ∪ pendingTransactions s) ∖ {[key]} |})
  end.

End chain.

(** ** Serialising *)

Lemma safeSerialize_serializable v : serializable (safeSerialize v) = true.
Proof.
  revert v. fix IH 1. intros [| | | | | |l|o]; try reflexivity; cbn [safeSerialize serializable].
  - induction l as [|v l IHl]; [done|]. cbn [map forallb]. by rewrite IH, IHl.
  - induction o as [|[k v] o IHo]; [done|]. cbn [map forallb snd]. by rewrite IH, IHo.
Qed.

(** Every value is serialised, bigints in it as texts; without the conversion the
    ones that hold a bigint are not. *)
Lemma safeStringify_total v : ∃ s, safeStringify v = Ok s.
Proof. unfold safeStringify, stringify. rewrite safeSerialize_serializable. eauto. Qed.

Lemma safeSerialize_id v : serializable v = true → safeSerialize v = v.
Proof.
  revert v. fix IH 1. intros [| | | | | |l|o] H; try reflexivity; [discriminate H|..];
    cbn [safeSerialize serializable] in *; f_equal.
  - induction l as [|v l IHl]; [done|]. apply andb_prop in H as [Hv Hl]. cbn [map]. by rewrite IH, IHl.
  - induction o as [|[k v] o IHo]; [done|]. apply andb_prop in H as [Hv Ho]. cbn [map fst snd] in *. by rewrite IH, IHo.
Qed.

(** ** The lock of [submitTx] *)

Section submit.
Context {W : Type} (X : Chain W).

(** A transaction that is being submitted is not submitted again: nothing is done.
    Otherwise it is the only one of its key while it runs, and its key is free when
    it ends, however it ends; the other keys are as they were. *)
Theorem submit_exclusive signedXDR onProgress tx s :
  ch_fromXDR X signedXDR (ch_network X) = Ok tx →
  let key := transactionKey X tx signedXDR in
  let '(r, s') := submitTx X signedXDR onProgress s in
  (key ∈ pendingTransactions s → r = Throw (EError "Transaction already in progress") ∧ s' = s) ∧
  (key ∉ pendingTransactions s →
     pendingTransactions s' = pendingTransactions s ∧
     (r, rpc s') = rpcExecute X (send_and_wait X onProgress tx) (rpc s)).
Proof.
  intros Htx key. unfold submitTx. rewrite Htx. fold key. case_bool_decide as Hk; [by split|].
  destruct (rpcExecute X (send_and_wait X onProgress tx) (rpc s)) as [r rpc'] eqn:E.
  split; [done|]. intros _. split; [|done]. cbn. set_solver.
Qed.

(** ** What a failed submission has done *)

Context (onProgress : TransactionProgress → M W unit).
Context (sends : W → Z).
Context (Hsend : ∀ u tx w, sends (sendTransaction (ch_server X u) tx w).2 = sends w + 1).
Context (Hget : ∀ u hash w, sends (getTransaction (ch_server X u) hash w).2 = sends w).
Context (Hprogress : ∀ p w, sends (onProgress p w).2 = sends w).
Context (Hpause : ∀ ms w, sends (ch_sleep X ms w).2 = sends w).
Context (Hsleep : ∀ ms w, ∃ w', ch_sleep X ms w = (Ok tt, w')).

(** Code that leaves the number of sends alone. *)
Definition sends_nothing {A} (m : M W A) : Prop := ∀ w, sends (m w).2 = sends w.

Lemma sends_nothing_bind {A B} (m : M W A) (f : A → M W B) :
  sends_nothing m → (∀ a, sends_nothing (f a)) → sends_nothing (m ≫= f).
Proof.
  intros Hm Hf w. unfold mbind, M_bind. specialize (Hm w). destruct (m w) as [[a|e] w1]; cbn in *; [|done].
  by rewrite Hf.
Qed.

Lemma sends_nothing_fail hash error : sends_nothing (fail_with onProgress hash error).
Proof. apply sends_nothing_bind; [intros w; apply Hprogress|by intros ? w]. Qed.

Lemma sends_nothing_poll u hash left status : sends_nothing (poll X onProgress u hash left status).
Proof.
  revert status. induction left as [|left IH]; intros status; cbn [poll]; destruct (one_of _ _); try by intros w.
  apply sends_nothing_bind; [intros w; apply Hprogress|intros []].
  apply sends_nothing_bind; [intros w; apply Hpause|intros []].
  apply sends_nothing_bind; [intros w; apply Hget|done].
Qed.

Lemma send_and_wait_sends tx u w : sends (send_and_wait X onProgress tx u w).2 = sends w + 1.
Proof.
  unfold send_and_wait. unfold mbind at 1, M_bind at 1. rewrite <- (Hsend u tx w).
  destruct (sendTransaction (ch_server X u) tx w) as [[response|e] w1]; [|done]. cbn [snd].
  destruct (String.eqb (send_status response) "ERROR").
  - destruct (safeStringify_total (JObj (ch_send_members X response))) as [json ->].
    apply (sends_nothing_fail _ _ w1).
  - revert w1. apply sends_nothing_bind; [intros w1; apply Hprogress|intros []].
    apply sends_nothing_bind; [intros w1; apply Hget|intros status].
    apply sends_nothing_bind; [apply sends_nothing_poll|intros status'].
    destruct (String.eqb status' "FAILED"); [apply sends_nothing_fail|].
    destruct (one_of _ _); [apply sends_nothing_fail|].
    apply sends_nothing_bind; [intros w1; apply Hprogress|by intros ? w1].
Qed.

(** C21. The connection pool retries a submission like a read. So a submission that
    fails, although the network took the transaction and refused it, or because it
    took too long, has sent the transaction three times. *)
Theorem failed_submission_sent_thrice signedXDR tx s e s' :
  ch_fromXDR X signedXDR (ch_network X) = Ok tx →
  transactionKey X tx signedXDR ∉ pendingTransactions s → counted (pool (rpc s)) →
  submitTx X signedXDR onProgress s = (Throw e, s') →
  sends (world (rpc s')) = sends (world (rpc s)) + 3.
Proof.
  intros Htx Hk Hc E. unfold submitTx in E. rewrite Htx, bool_decide_eq_false_2 in E by done.
  pose proof (attempts_execution (ch_now X) (ch_sleep X) Hsleep sends (send_and_wait X onProgress tx) maxRetries 0
                (EError "RPC request failed after retries") (pool (rpc s)) (world (rpc s))
                (send_and_wait_sends tx) Hpause Hc) as H.
  unfold rpcExecute, RpcPool.rpcExecute in E. destruct (rpc s) as [P w]. cbn [pool world] in *.
  unfold execute in E. destruct (attempts _ _ _ _ _ _ _) as [r rpc']. injection E as -> <-. cbn.
  by destruct H as [_ _ _ _ [H _]].
Qed.
End submit.

(** ** Waiting for a confirmation *)

Section confirmation.
Context {W : Type} (X : Chain W) (onProgress : TransactionProgress → M W unit).

Definition timed_out : exn := EError "Transaction confirmation timed out".

(** [m] takes at least [ms], and does not itself report the time-out. *)
Definition takes {A} (ms : Z) (m : M W A) : Prop := ∀ w,
  ch_now X w + ms ≤ ch_now X (m w).2 ∧ (m w).1 ≠ Throw timed_out.

Context (Hsleep : ∀ ms w, ∃ w', ch_sleep X ms w = (Ok tt, w')).
Context (Hpause : ∀ ms w, ch_now X w + ms ≤ ch_now X (ch_sleep X ms w).2).
Context (Hsend : ∀ u tx, takes 0 (sendTransaction (ch_server X u) tx)).
Context (Hget : ∀ u hash, takes 0 (getTransaction (ch_server X u) hash)).
Context (Hprogress : ∀ p, takes 0 (onProgress p)).

(** The time that passes, unless [m] throws another error, until it returns in [Q]
    or reports the time-out. *)
Definition outlasts {A} (ms : Z) (m : M W A) (Q : A → Prop) : Prop := ∀ w,
  match m w with
  | (Ok a, w') => ch_now X w ≤ ch_now X w' ∧ (Q a → ch_now X w + ms ≤ ch_now X w')
  | (Throw e, w') => e = timed_out → ch_now X w + ms ≤ ch_now X w'
  end.

Lemma outlasts_bind {A B} ms ms' (m : M W A) (f : A → M W B) Q :
  takes ms' m → 0 ≤ ms' → (∀ a, outlasts ms (f a) Q) → outlasts (ms' + ms) (m ≫= f) Q.
Proof.
  intros Hm H0 Hf w. unfold mbind, M_bind. destruct (Hm w) as [Ht He].
  destruct (m w) as [[a|e] w1]; cbn in *; [|intros ->; congruence].
  specialize (Hf a w1). destruct (f a w1) as [[b|e] w2]; [|intros He'; specialize (Hf He'); lia].
  destruct Hf as [H1 H2]. split; [lia|]. intros HQ. specialize (H2 HQ). lia.
Qed.

Definition pending_status (status : string) : Prop := one_of ["NOT_FOUND"; "PENDING"] status = true.

(** Polling that ends without an answer took 1.5 seconds for each attempt. *)
Lemma poll_outlasts u hash left status :
  outlasts (1500 * Z.of_nat left) (poll X onProgress u hash left status) pending_status.
Proof.
  revert status. induction left as [|left IH]; intros status; cbn [poll];
    destruct (one_of _ status) eqn:Hs; try (intros w; cbn; split; [lia|unfold pending_status; congruence || lia]).
  replace (1500 * Z.of_nat (S left)) with (0 + (1500 + (0 + 1500 * Z.of_nat left))) by lia.
  apply outlasts_bind; [apply Hprogress|lia|intros []].
  apply outlasts_bind; [|lia|intros []].
  { intros w. split; [apply Hpause|]. by destruct (Hsleep 1500 w) as [w' ->]. }
  by apply outlasts_bind; [apply Hget|lia|intros status'].
Qed.

(** An error that is not the time-out. *)
Lemma fail_other hash error ms : error ≠ "Transaction confirmation timed out" →
  outlasts ms (fail_with onProgress hash error) (λ _, False).
Proof.
  intros He w. unfold fail_with, mbind, M_bind. destruct (Hprogress (Failed hash error) w) as [Ht Hn].
  destruct (onProgress (Failed hash error) w) as [[[]|e] w1]; cbn in *; [|intros ->; congruence].
  intros E. unfold timed_out in E. congruence.
Qed.

Lemma after_poll_outlasts u hash status :
  outlasts (1500 * 20)
    (status ← poll X onProgress u hash 20 status;
     if String.eqb status "FAILED" then fail_with onProgress hash "Transaction failed on-chain"
     else if one_of ["NOT_FOUND"; "PENDING"] status
     then fail_with onProgress hash "Transaction confirmation timed out"
     else _ ← onProgress (Confirmed hash); mret status) (λ _, False).
Proof.
  intros w. unfold mbind at 1, M_bind at 1. pose proof (poll_outlasts u hash 20 status w) as Hp.
  destruct (poll _ _ _ _ _ _ w) as [[status'|e] w1]; [|done]. destruct Hp as [H1 H2].
  destruct (String.eqb status' "FAILED").
  - pose proof (fail_other hash "Transaction failed on-chain" 0 ltac:(done) w1) as Hf.
    destruct (fail_with _ _ _ w1) as [[a|e] w2] eqn:Ef; [|intros ->; specialize (Hf eq_refl)];
      unfold fail_with, mbind, M_bind in Ef; destruct (Hprogress (Failed hash "Transaction failed on-chain") w1) as [Ht Hn];
      destruct (onProgress _ w1) as [[[]|e'] w3]; cbn in *; simplify_eq; congruence.
  - destruct (one_of _ status') eqn:Es.
    + specialize (H2 Es). unfold fail_with, mbind, M_bind.
      destruct (Hprogress (Failed hash "Transaction confirmation timed out") w1) as [Ht Hn].
      destruct (onProgress _ w1) as [[[]|e'] w3]; cbn in *; intros; [lia|congruence].
    + unfold mbind, M_bind. destruct (Hprogress (Confirmed hash) w1) as [Ht Hn].
      destruct (onProgress _ w1) as [[[]|e'] w3]; cbn in *; [|intros ->; congruence]. split; [lia|done].
Qed.

Lemma failed_not_timed_out json : "Transaction failed: " +:+ json ≠ "Transaction confirmation timed out".
Proof. rewrite !append_cons. congruence. Qed.

Lemma send_and_wait_outlasts tx u : outlasts 30000 (send_and_wait X onProgress tx u) (λ _, False).
Proof.
  change 30000 with (0 + (1500 * 20)). apply outlasts_bind; [apply Hsend|lia|intros response].
  destruct (String.eqb (send_status response) "ERROR").
  - destruct (safeStringify_total (JObj (ch_send_members X response))) as [json ->].
    intros w. apply (fail_other _ _ _ (failed_not_timed_out json) w).
  - change (1500 * 20) with (0 + (0 + (1500 * 20))).
    apply outlasts_bind; [apply Hprogress|lia|intros []].
    apply outlasts_bind; [apply Hget|lia|intros status]. apply after_poll_outlasts.
Qed.

(** [submitTx] gives a transaction 30 seconds to be confirmed, but runs within an
    RPC call, which is given 15: it never reports that the confirmation timed out.
    The call times out first, and the pool sends the transaction again. *)
Theorem confirmation_timeout_unreachable tx s :
  counted (pool s) → (rpcExecute X (send_and_wait X onProgress tx) s).1 ≠ Throw timed_out.
Proof.
  intros Hc. destruct s as [P w]. apply (attempts_never (ch_now X) (ch_sleep X) Hsleep); [|done|done].
  intros u w1 w2. unfold race. pose proof (send_and_wait_outlasts tx u w1) as Ho.
  destruct (send_and_wait X onProgress tx u w1) as [[a|e] w3]; [by destruct (_ <? _)|].
  destruct (Z.ltb_spec (ch_now X w3 - ch_now X w1) requestTimeout) as [Hlt|_]; [|done].
  intros [= -> _]. specialize (Ho eq_refl). unfold requestTimeout in Hlt. lia.
Qed.
End confirmation.
