(* ===== verification/Amounts.v ===== *)
(** * frontend/lib/stellar.ts: amounts, dates and addresses as people read them

    The conversions between amounts in units and on-chain integers, the days until a
    date, and the texts of addresses, links and tokens. Amounts are JavaScript
    numbers, so a round trip is a statement about rounding. *)
From S2P Require Import Prelude.
From S2P Require Import JsValue.
From S2P Require Import JsNumber.
From S2P Require Import JsArith.
From S2P Require Import Hex.
From Stdlib Require Import Ascii SpecFloat.
#[local] Open Scope string_scope.
#[local] Open Scope list_scope.
#[local] Open Scope Z_scope.

Definition DEFAULT_STELLAR_DECIMALS : Z := 7.

(** [BigInt(x)] of a number. *)
Definition bigint_of_number (x : number) : result Z :=
  match num_to_Z x with
  | Some n => Ok n
  | None => Throw (ERangeError "The number cannot be converted to a BigInt because it is not an integer")
  end.

Definition toStroops (amount : number) : result Z :=
  bigint_of_number (Math_round (num_mul amount (num_of_Z 10000000))).

(** [Math.pow(10, decimals)] is a safe integer up to 15 decimals. *)
Definition fromRaw (raw decimals : Z) : number := num_div (num_of_Z raw) (num_of_Z (10 ^ decimals)).

Definition fromStroops (stroops : Z) : number := fromRaw stroops DEFAULT_STELLAR_DECIMALS.

(** [Math.ceil((ts * 1000 - Date.now()) / 86_400_000)]. *)
Definition daysUntil (now ts : Z) : option Z := ceil_Z (num_div (num_of_Z (ts * 1000 - now)) (num_of_Z 86400000)).

(** [s.slice(-n)]. *)
Definition str_last (n : nat) (s : string) : string := str_drop (String.length s - n) s.

Definition truncateAddress (addr : string) : string :=
  if String.eqb addr "" then "" else str_take 6 addr +:+ "..." +:+ str_last 4 addr.

Inductive ExplorerEntity := Account | Transaction | ContractEntity | Ledger.
Definition entity_name (e : ExplorerEntity) : string :=
  match e with
  | Account => "account" | Transaction => "transaction" | ContractEntity => "contract" | Ledger => "ledger"
  end.

(** [EXPLORER_BASES[network] ?? EXPLORER_BASES.testnet]. *)
Definition EXPLORER_BASES (network : string) : string :=
  if String.eqb network "mainnet" then "https://stellar.expert/explorer/public"
  else "https://stellar.expert/explorer/testnet".

Definition explorerUrl (type : ExplorerEntity) (id network : string) : option string :=
  if String.eqb network "standalone" then None
  else Some (EXPLORER_BASES network +:+ "/" +:+ entity_name type +:+ "/" +:+ encodeURIComponent id).

(** The token ids of the environment: USDC, EURC, USDT, USDP, [''] where unset. *)
Record StablecoinIds := {
  USDC_TOKEN_ID : string; EURC_TOKEN_ID : string; USDT_TOKEN_ID : string; USDP_TOKEN_ID : string }.

Definition stablecoinLabel (env : StablecoinIds) (tokenId : string) : string :=
  if String.eqb tokenId (USDC_TOKEN_ID env) then "USDC"
  else if String.eqb tokenId (EURC_TOKEN_ID env) then "EURC"
  else if negb (String.eqb (USDT_TOKEN_ID env) "") && String.eqb tokenId (USDT_TOKEN_ID env) then "USDT"
  else if negb (String.eqb (USDP_TOKEN_ID env) "") && String.eqb tokenId (USDP_TOKEN_ID env) then "USDP"
  else truncateAddress tokenId.

(** ** Stroops and back *)

(** An error below half a unit, in units of [T]. *)
Lemma round_bound M n q T : 0 < T → - (q * T) < 2 * (M * T - n * (q * T)) < q * T → - q < 2 * (M - n * q) < q.
Proof. intros HT H. replace (M * T - n * (q * T)) with ((M - n * q) * T) in H by ring. nia. Qed.

Lemma math_round_scaled M1 M2 k1 k2 n :
  0 < n < 2 ^ 49 → 0 ≤ k2 ≤ 52 → 0 ≤ k1 ≤ 52 → Zpos M1 = n * 2 ^ k1 → 2 ^ 52 ≤ Zpos M1 < 2 ^ 53 →
  Zpos M2 = 10000000 * 2 ^ k2 → 2 ^ 52 ≤ Zpos M2 < 2 ^ 53 →
  Math_round (num_mul (num_div (S754_finite false M1 (- k1)) (S754_finite false M2 (- k2)))
                (S754_finite false M2 (- k2))) = num_of_Z n.
Proof.
  intros Hn Hk2 Hk1 E1 B1 E2 B2.
  destruct (quotient_error n 10000000 M1 M2 k1 k2) as (M&j1&c&->&HM&Hc&Hj1&Herr); try done; try lia.
  set (P := 53 + k1 - k2 - j1) in *.
  destruct (product_error M M2 (c - P) (- k2)) as (M'&j&c'&->&HM'&Hc'&Hj&Herr'); [done|done|lia|].
  assert (4 ≤ k1) as Hk3.
  { destruct (Z.le_gt_cases 4 k1); [done|]. assert (2 ^ k1 ≤ 2 ^ 3) by (apply Z.pow_le_mono_r; lia). nia. }
  set (Q := P - c + k2 - j - c').
  replace (c - P + - k2 + j + c') with (- Q) by lia.
  assert (Q + c' + j + c + j1 = 53 + k1) as EQ by lia.
  assert (0 < Q) as HQ by lia. apply round_near; [lia|]. rewrite Z.opp_involutive.
  set (T := 2 ^ (c' + j + c + j1)). assert (0 < T) as HT by (apply Z.pow_pos_nonneg; lia).
  assert (2 ^ Q * T = 2 ^ (53 + k1)) as HQT by (unfold T; rewrite <- Z.pow_add_r by lia; f_equal; lia).
  assert (2 ^ 56 ≤ 2 ^ (53 + k1)) by (apply Z.pow_le_mono_r; lia).
  assert (Zpos M1 * 2 ^ 53 = n * (2 ^ Q * T)) as EM1.
  { rewrite HQT, E1, <- Z.mul_assoc, <- Z.pow_add_r by lia. do 2 f_equal. lia. }
  assert (Zpos M' * 2 ^ c' * 2 ^ j * (2 ^ c * 2 ^ j1) = Zpos M' * T) as ET.
  { unfold T. rewrite !Z.pow_add_r by lia. ring. }
  assert (0 < 2 ^ c * 2 ^ j1 ≤ 4) as Hcj.
  { split; [apply Z.mul_pos_pos; apply Z.pow_pos_nonneg; lia|].
    change 4 with (2 ^ 1 * 2 ^ 1). apply Z.mul_le_mono_nonneg; try apply Z.pow_nonneg; try lia; apply Z.pow_le_mono_r; lia. }
  assert (2 ^ j ≤ 2 ^ 53) by (apply Z.pow_le_mono_r; lia).
  assert (0 < 2 ^ j) by (apply Z.pow_pos_nonneg; lia).
  assert (0 < 2 ^ j1 ≤ 2) as Hj12.
  { split; [apply Z.pow_pos_nonneg; lia|]. change 2 with (2 ^ 1) at 2. apply Z.pow_le_mono_r; lia. }
  set (a := 2 ^ c) in *. set (b := 2 ^ j1) in *. set (J := 2 ^ j) in *. set (q := 2 ^ Q) in *.
  assert (- (J * (a * b) + Zpos M2 * b) ≤ 2 * (Zpos M' * T - n * (q * T)) ≤ J * (a * b) + Zpos M2 * b) as Hsum.
  { rewrite <- ET, <- EM1. set (u := 2 * (Zpos M' * 2 ^ c' * J - Zpos M * Zpos M2)) in *.
    assert (- J * (a * b) ≤ u * (a * b)) by (apply Z.mul_le_mono_nonneg_r; lia).
    assert (u * (a * b) ≤ J * (a * b)) by (apply Z.mul_le_mono_nonneg_r; lia).
    assert (2 * (Zpos M' * 2 ^ c' * J * (a * b) - Zpos M1 * 2 ^ 53)
            = u * (a * b) + 2 * (Zpos M * a * (Zpos M2 * b) - Zpos M1 * 2 ^ 53)) as -> by (unfold u; ring).
    lia. }
  assert (J * (a * b) ≤ 2 ^ 53 * 4) by (apply Z.mul_le_mono_nonneg; lia).
  assert (Zpos M2 * b ≤ 2 ^ 53 * 2) by (apply Z.mul_le_mono_nonneg; lia).
  apply (round_bound _ _ _ T); lia.
Qed.

(** C33. An amount shown in units and read back is the same number of stroops, up to
    [2 ^ 49] of them. *)
Theorem stroops_roundtrip n : 0 ≤ n < 2 ^ 49 → toStroops (fromStroops n) = Ok n.
Proof.
  intros Hn. unfold toStroops, fromStroops, fromRaw, bigint_of_number, DEFAULT_STELLAR_DECIMALS.
  change (10 ^ 7) with 10000000.
  destruct (safe_cases 10000000) as [?|[(M2&k2&->&Hk2&E2&B2) _]]; [by unfold safe|lia|].
  destruct (safe_cases n) as [->|[(M1&k1&->&Hk1&E1&B1) Hn']]; [unfold safe; lia|done|].
  rewrite (math_round_scaled M1 M2 k1 k2 n) by (done || lia). by rewrite num_to_Z_exact by (unfold safe; lia).
Qed.

(** ** Dates *)

(** A date that has passed: minus the number of full days since. *)
Lemma daysUntil_past now ts :
  safe (now - ts * 1000) → daysUntil now ts = Some (- ((now - ts * 1000) / 86400000)).
Proof.
  intros H. unfold daysUntil. replace (ts * 1000 - now) with (- (now - ts * 1000)) by lia.
  by apply ceil_Z_div_neg.
Qed.
