(* ===== verification/WebAbi.v ===== *)
(** * frontend/lib/contracts.ts: its calls, and the interfaces they are made to

    The two shapes the functions of contracts.ts have: a reader simulates a call
    and decodes its result, a builder prepares a transaction that the user's wallet
    will sign. [checked] is a chain that refuses calls outside the interfaces of
    ContractAbi.v, like [Abi.checked] for the SDK. *)
From S2P Require Import Prelude.
From S2P Require Import JsValue.
From S2P Require Import JsNumber.
From S2P Require Import JsArith.
From S2P Require Import Sdk.
From S2P Require Import Abi.
From S2P Require Import ContractAbi.
From S2P Require Import RpcPool.
From S2P Require Import Stellar.
From S2P Require Import Amounts.
From Stdlib Require Import Ascii.
#[local] Open Scope string_scope.
#[local] Open Scope list_scope.
#[local] Open Scope Z_scope.

(** The address the readers simulate from, written out in each of them, and as
    [ARBITRATION_SIM_SOURCE], [DUMMY_CALLER] and [SIMULATION_SOURCE]. *)
Definition PLACEHOLDER : string := "GAAZI4TCR3TY5OJHCTJC2A4QSY6CJWJH5IAJTGKIN2ER7LBNVKOCCWN".

(** ** Decoders of arrays

    [if (!Array.isArray(raw)) return []; return raw.map(..)], with the elements
    decoded field by field, as numbers, or left as they are; and
    [(raw ?? []).map((id) => Number(id))]. *)
Definition decode_list (fields : list Field) (raw : jsval) : result (list (list (string * value))) :=
  match raw with JArr l => mapM (decode fields) l | _ => Ok [] end.
Definition numbers_list (raw : jsval) : result (list number) :=
  match raw with JArr l => Ok (map js_Number l) | _ => Ok [] end.
Definition array_list (raw : jsval) : result jsval :=
  match raw with JArr l => Ok raw | _ => Ok (JArr []) end.
Definition numbers (raw : jsval) : result (list number) := l ← array_or_empty raw; Ok (map js_Number l).

(** [BigInt(String(x ?? 0))]. *)
Definition as_bigint_or_0 (v : jsval) : result Z := to_BigInt (JStr (js_String (js_coalesce v (JNum 0)))).

(** [raw ? (raw as string) : null]. *)
Definition as_raw_opt (v : jsval) : result (option jsval) := Ok (if truthy v then Some v else None).

(** [raw as T | null], of a reader whose other outcomes are [null]. *)
Definition some {A} (dec : jsval → result A) (v : jsval) : result (option A) := Some <$> dec v.

(** [isStellarAddress]: [/^[GC][A-Z2-7]{55}$/], types.ts. *)
Definition isStellarAddress (s : string) : bool :=
  match s with
  | String c s' => one_of ["G"; "C"] (String c "") && (String.length s' =? 55)%nat && str_forallb is_base32 s'
  | EmptyString => false
  end.

(** ** Guards of the builders *)

(** The longest prefix of a text that [parseFloat] reads: digits, a fraction, an
    exponent. *)
Definition float_exponent (s : string) : string :=
  match s with
  | String c s' =>
      if one_of ["e"; "E"] (String c "") then
        let '(sign, rest) := match s' with
          | String d s'' => if one_of ["+"; "-"] (String d "") then (String d "", s'') else ("", s')
          | EmptyString => ("", s')
          end in
        let '(digits, _) := span_digits rest in
        if String.eqb digits "" then "" else String c (sign +:+ digits)
      else ""
  | EmptyString => ""
  end.

Definition parseFloat (s : string) : number :=
  let s := trim_start s in
  let '(sign, s) := match s with
    | String c s' => if one_of ["+"; "-"] (String c "") then (String c "", s') else ("", s)
    | EmptyString => ("", s)
    end in
  let '(int, rest) := span_digits s in
  let '(frac, rest) := match rest with
    | String "."%char s' => let '(f, r) := span_digits s' in ("." +:+ f, r)
    | _ => ("", rest)
    end in
  if startsWith "Infinity" s then Number_of_string (sign +:+ "Infinity")
  else if String.eqb int "" && (String.length frac <=? 1)%nat then NaN
  else Number_of_string (sign +:+ int +:+ frac +:+ float_exponent rest).

Definition BASE_FEE : Z := 100.

(** The balances of an account are its [asset_type]s with the amounts, if it has them. *)
Definition getNativeBalanceStroops (balances : option (list (string * string))) : result Z :=
  match balances with
  | None => Ok 0
  | Some l =>
      match find (λ b, String.eqb b.1 "native") l with
      | None => Ok 0
      | Some (_, balance) =>
          if String.eqb balance "" then Ok 0
          else bigint_of_number (Math_round (num_mul (parseFloat balance) (num_of_Z 1000000)))
      end
  end.

Definition ensureSufficientNativeBalance {W} (X : Chain W) (account : ch_Account X) : result unit :=
  balance ← getNativeBalanceStroops (ch_balances X account);
  if balance <? BASE_FEE then Throw (EError "Insufficient balance for this transaction") else Ok tt.

Definition requireComplianceContractId {W} (X : Chain W) : result unit :=
  if String.eqb (ch_id X Compliance) "" then Throw (EError "NEXT_PUBLIC_COMPLIANCE_CONTRACT_ID is not configured")
  else Ok tt.

(** [validateContractId], run for the addresses of the environment when the module
    is loaded: [/^C[A-Z2-7]{55}$/]. *)
Definition quoted (s : string) : string :=
  String (ascii_of_nat 34) s +:+ String (ascii_of_nat 34) "".

Definition validateContractId (test_mode : bool) (id name : string) : result string :=
  if test_mode then Ok id
  else if String.eqb id "" then Ok id
  else match id with
       | String "C"%char s =>
           if (String.length s =? 55)%nat && str_forallb is_base32 s then Ok id
           else Throw (EError ("Invalid contract ID for " +:+ name +:+ ": " +:+ quoted id))
       | _ => Throw (EError ("Invalid contract ID for " +:+ name +:+ ": " +:+ quoted id))
       end.

(** ** Calls *)

Section calls.
Context {W : Type} (X : Chain W).

Definition read (target : Target) (method : string) (args : list ScArg) (source : string)
    : M (Rpc (W := W)) jsval :=
  sim ← simulateTx X target method args source; lift_result (retval X sim).

Definition query {A} (target : Target) (method : string) (args : list ScArg) (source : string)
    (dec : jsval → result A) : M (Rpc (W := W)) A :=
  raw ← read target method args source; lift_result (dec raw).

(** With [if (StellarRpc.Api.isSimulationError(sim)) return none;] in between. *)
Definition query_or {A} (none : A) (target : Target) (method : string) (args : list ScArg) (source : string)
    (dec : jsval → result A) : M (Rpc (W := W)) A :=
  sim ← simulateTx X target method args source;
  match sim with
  | SimError _ => mret none
  | SimSuccess v => lift_result (dec (ch_scValToNative X v))
  end.

Definition getRpcAccount (address : string) : M (Rpc (W := W)) (ch_Account X) :=
  rpcExecute X (λ u, getAccount (ch_server X u) address).

Definition simulateRpcTransaction (tx : ch_Tx X) : M (Rpc (W := W)) (SimResponse (ch_ScVal X)) :=
  rpcExecute X (λ u, simulateTransaction (ch_server X u) tx).

Definition simulation_failed (error : string) : exn := EError ("Simulation failed: " +:+ error).

(** [new ContractError(parseSimulationError(sim))]. *)
Definition contract_error (error : string) : exn :=
  match parseSimulationError (JObj (ch_error_members X error)) with
  | Ok message => EError message
  | Throw e => e
  end.

(** The unsigned transaction, as XDR. [guard] is what happens between the account's
    arrival and the construction of the transaction. *)
Definition prepare (failed : string → exn) (guard : ch_Account X → result unit) (source : string)
    (target : Target) (method : string) (args : list ScArg) : M (Rpc (W := W)) string :=
  account ← getRpcAccount source;
  _ ← lift_result (guard account);
  tx ← lift_result (ch_build X account (ch_network X) target method args);
  sim ← simulateRpcTransaction tx;
  match sim with
  | SimError error => throw (failed error)
  | SimSuccess v => lift_result (ch_assemble X tx v)
  end.

Definition no_guard (account : ch_Account X) : result unit := Ok tt.

(** The builders without more. *)
Definition build (source : string) (target : Target) (method : string) (args : list ScArg)
    : M (Rpc (W := W)) string :=
  prepare simulation_failed no_guard source target method args.

(** [if (!CONTRACT_ID) return none;]. *)
Definition when_deployed {A} (c : Contract) (none : A) (m : M (Rpc (W := W)) A) : M (Rpc (W := W)) A :=
  if String.eqb (ch_id X c) "" then mret none else m.

(** [try { … } catch { return none; }]. *)
Definition or_else {A} (none : A) (m : M (Rpc (W := W)) A) : M (Rpc (W := W)) A :=
  try_catch m (λ _, mret none).

End calls.

(** ** The check *)

Definition allowed (target : Target) (method : string) (args : list ScArg) : bool :=
  match target with
  | Of c => conforms (abi_of c) method args
  | At _ => conforms share_abi method args
  end.

(** A contract given by its address is a token's: its calls are checked against the
    interface of the repository's own token, contracts/share, whose [balance] is that
    of every token of the network. *)
Definition checked {W} (X : Chain W) : Chain W := {|
  ch_server := ch_server X; ch_now := ch_now X; ch_sleep := ch_sleep X; ch_network := ch_network X;
  ch_id := ch_id X;
  ch_build := λ account network target method args,
    if allowed target method args then ch_build X account network target method args
    else Throw (EError "HostError: Error(WasmVm, MissingValue)");
  ch_assemble := ch_assemble X; ch_fromXDR := ch_fromXDR X; ch_scValToNative := ch_scValToNative X;
  ch_hash := ch_hash X; ch_balances := ch_balances X; ch_error_members := ch_error_members X;
  ch_send_members := ch_send_members X |}.

Definition conforming {W A} (op : Chain W → M (Rpc (W := W)) A) : Prop := ∀ X s, op (checked X) s = op X s.
Definition refused {W A} (op : Chain W → M (Rpc (W := W)) A) : Prop :=
  ∀ X s, ∃ e s', op (checked X) s = (Throw e, s').

(** What a call does depends on what its function does, step by step. *)
Lemma attempt_ext {W A} (now : W → Z) (f g : string → M W A) s :
  (∀ u w, f u w = g u w) → attempt now f s = attempt now g s.
Proof.
  intros H. unfold attempt, get_connection. destruct s as [P w]. cbn [getConnection].
  unfold mbind, M_bind. cbn [pool world]. unfold on_pool, modify, try_catch, read_object, lift_world, race.
  cbn [pool world]. by rewrite H.
Qed.

Lemma attempts_ext {W A} (now : W → Z) sleep (f g : string → M W A) left n e s :
  (∀ u w, f u w = g u w) → attempts now sleep left n e f s = attempts now sleep left n e g s.
Proof.
  intros H. revert n e s. induction left as [|left IH]; intros n e s; [done|]. cbn [attempts]. unfold try_catch.
  rewrite (attempt_ext now f g s H). destruct (attempt now g s) as [[a|e'] s']; [done|].
  unfold mbind, M_bind. by destruct (_ s') as [[[]|e''] s'']; [|done].
Qed.

Lemma rpcExecute_ext {W A} (X : Chain W) (f g : string → M W A) s :
  (∀ u w, f u w = g u w) → rpcExecute X f s = rpcExecute X g s.
Proof. apply attempts_ext. Qed.

(** A call whose function always throws throws. *)
Lemma attempts_throw {W A} (now : W → Z) sleep (f : string → M W A) left n e s :
  (∀ u w, ∃ e' w', f u w = (Throw e', w')) → ∃ e' s', attempts now sleep left n e f s = (Throw e', s').
Proof.
  intros H. revert n e s. induction left as [|left IH]; intros n e s; [by eexists _, _|]. cbn [attempts].
  assert (∃ e' s', attempt now f s = (Throw e', s')) as (e1&s1&E).
  { unfold attempt, get_connection. destruct s as [P w]. cbn [getConnection].
    unfold mbind, M_bind. cbn [pool world]. unfold on_pool, modify, try_catch, read_object, lift_world, race, throw.
    cbn [pool world]. match goal with |- context [f ?u ?w] => destruct (H u w) as (e'&w'&->) end.
    destruct (_ <? _); eauto. }
  unfold try_catch. rewrite E. unfold mbind, M_bind.
  match goal with |- context [(if ?b then ?m1 else ?m2) s1] => destruct ((if b then m1 else m2) s1) as [[[]|e2] s2] end;
    [apply IH|eauto].
Qed.

Lemma rpcExecute_throws {W A} (X : Chain W) (f : string → M W A) s :
  (∀ u w, ∃ e' w', f u w = (Throw e', w')) → ∃ e' s', rpcExecute X f s = (Throw e', s').
Proof. apply attempts_throw. Qed.

(** ** What conforms, and what is refused *)

Section web.
Context {W : Type}.
Abbreviation RM := (M (Rpc (W := W))).

Lemma web_simulate_checked target method args source (X : Chain W) s :
  allowed target method args = true →
  simulateTx (checked X) target method args source s = simulateTx X target method args source s.
Proof.
  intros H. apply (rpcExecute_ext X (simulate_on (checked X) source target method args)).
  intros u w. unfold simulate_on. cbn. by rewrite H.
Qed.

Lemma web_bind_conforming {A B} (m : Chain W → RM A) (f : Chain W → A → RM B) :
  conforming m → (∀ a, conforming (λ X, f X a)) → conforming (λ X, m X ≫= f X).
Proof.
  intros Hm Hf X s. unfold mbind, M_bind. rewrite (Hm X s). destruct (m X s) as [[a|e] s1]; [|done]. apply Hf.
Qed.

Lemma web_mapM_conforming {A B} (f : Chain W → A → RM B) l :
  (∀ a, conforming (λ X, f X a)) → conforming (λ X, mapM (f X) l).
Proof.
  intros Hf X s. revert s. induction l as [|a l IH]; intros s; [done|]. cbn [mapM].
  unfold mbind, M_bind in *. rewrite (Hf a X s). destruct (f X a s) as [[b|e] s1]; [|done].
  rewrite (IH s1). by destruct (mapM (f X) l s1) as [[bs|e] s2].
Qed.

Lemma web_pure_conforming {A} (m : RM A) : conforming (λ _, m).
Proof. done. Qed.

Lemma web_query_conforming {A} target method args source (dec : jsval → result A) :
  allowed target method args = true → conforming (W := W) (λ X, query X target method args source dec).
Proof.
  intros H X s. unfold query, read, mbind, M_bind. rewrite web_simulate_checked by done.
  by destruct (simulateTx X target method args source s) as [[[]|e] s1].
Qed.

Lemma web_query_or_conforming {A} (none : A) target method args source (dec : jsval → result A) :
  allowed target method args = true → conforming (W := W) (λ X, query_or X none target method args source dec).
Proof.
  intros H X s. unfold query_or, mbind, M_bind. rewrite web_simulate_checked by done.
  by destruct (simulateTx X target method args source s) as [[[]|e] s1].
Qed.

Lemma web_prepare_conforming failed (guard : ∀ X : Chain W, ch_Account X → result unit) source target method args :
  (∀ X e, failed (checked X) e = failed X e) → (∀ X a, guard (checked X) a = guard X a) →
  allowed target method args = true →
  conforming (W := W) (λ X, prepare X (failed X) (guard X) source target method args).
Proof.
  intros Hf Hg H X s. unfold prepare, mbind, M_bind.
  change (getRpcAccount (checked X) source s) with (getRpcAccount X source s).
  destruct (getRpcAccount X source s) as [[account|e] s1]; [|done]. unfold lift_result.
  rewrite Hg. destruct (guard X account); [|done]. cbn [checked ch_build ch_network]. rewrite H.
  destruct (ch_build X account (ch_network X) target method args) as [tx|e]; [|done].
  change (simulateRpcTransaction (checked X) tx s1) with (simulateRpcTransaction X tx s1).
  destruct (simulateRpcTransaction X tx s1) as [[[]|e] s2]; [|done|done]. unfold throw. by rewrite Hf.
Qed.

Lemma web_build_conforming source target method args :
  allowed target method args = true → conforming (W := W) (λ X, build X source target method args).
Proof. intros H. by apply (web_prepare_conforming (λ _, simulation_failed) (λ X, no_guard X)). Qed.

Lemma web_when_conforming {A} c (none : A) (m : Chain W → RM A) :
  conforming m → conforming (λ X, when_deployed X c none (m X)).
Proof. intros Hm X s. unfold when_deployed. cbn [checked ch_id]. by case_match; [|apply Hm]. Qed.

Lemma web_or_else_conforming {A} (none : A) (m : Chain W → RM A) :
  conforming m → conforming (λ X, or_else none (m X)).
Proof. intros Hm X s. unfold or_else, try_catch. by rewrite (Hm X s). Qed.

(** Calls that the interfaces refuse. *)
Lemma web_query_refused {A} target method args source (dec : jsval → result A) :
  allowed target method args = false → refused (W := W) (λ X, query X target method args source dec).
Proof.
  intros H X s. unfold query, read, mbind, M_bind.
  destruct (rpcExecute_throws (checked X) (simulate_on (checked X) source target method args) s) as (e&s1&E).
  { intros u w. unfold simulate_on, mbind, M_bind.
    destruct (getAccount (ch_server (checked X) u) source w) as [[account|e] w1]; [|by eexists _, _].
    cbn. rewrite H. by eexists _, _. }
  unfold simulateTx. rewrite E. eauto.
Qed.

Lemma web_prepare_refused failed (guard : ∀ X : Chain W, ch_Account X → result unit) source target method args :
  allowed target method args = false → refused (W := W) (λ X, prepare X (failed X) (guard X) source target method args).
Proof.
  intros H X s. unfold prepare, mbind, M_bind.
  destruct (getRpcAccount (checked X) source s) as [[account|e] s1]; [|eauto]. unfold lift_result.
  destruct (guard (checked X) account); [|eauto]. cbn [checked ch_build]. rewrite H. eauto.
Qed.

Lemma web_build_refused source target method args :
  allowed target method args = false → refused (W := W) (λ X, build X source target method args).
Proof. intros H. by apply (web_prepare_refused (λ _, simulation_failed) (λ X, no_guard X)). Qed.
End web.

Lemma allowed_args c method s args :
  signature (abi_of c) method = Some s → accepts_all (sg_params s) args = true → allowed (Of c) method args = true.
Proof. intros Hs Ha. by apply (conforms_args _ _ s). Qed.

(** Operations are compared by what they call. *)
#[global] Opaque query query_or build prepare.

Ltac web_calls :=
  repeat first
    [ apply web_query_conforming | apply web_query_or_conforming | apply web_build_conforming
    | apply web_query_refused | apply web_build_refused
    | apply web_when_conforming | apply web_or_else_conforming
    | apply web_mapM_conforming; intros ?
    | apply (web_prepare_conforming (λ _, simulation_failed) ensureSufficientNativeBalance); [done|done|]
    | apply (web_prepare_conforming (λ _, simulation_failed) (λ X _, requireComplianceContractId X)); [done|done|]
    | apply (web_prepare_refused (λ _, simulation_failed) ensureSufficientNativeBalance)
    | apply web_bind_conforming; [|intros ?] | apply web_pure_conforming ];
  first [reflexivity | eapply allowed_args; [reflexivity|args] | idtac].

(** ** Readers

    A reader simulates one call of an interface, from the address [source], and of
    every answer of its type makes what [mean] says. *)
Definition answered {W A} (op : Chain W → M (Rpc (W := W)) A) (source : string) (mean : jsval → A) : Prop :=
  ∃ c method args dec s, (∀ X, op X = query X (Of c) method args source dec) ∧
    signature (abi_of c) method = Some s ∧ ∀ v, native (sg_result s) v = true → dec v = Ok (mean v).

Definition decoded_numbers (v : jsval) : list number := map (λ x, num_of_Z (int_of x)) (elements_of v).

Section reads.
Context (t : ScType).

Lemma reads_decode_list fields :
  fits fields t = true → ∀ v, native (TVec t) v = true → decode_list fields v = Ok (decoded_all fields v).
Proof. intros Hf v Hn. destruct (decode_all_native fields t v Hf Hn) as (l&->&E). exact E. Qed.

(** A structure is never absent. *)
Lemma reads_decode_struct ps fields : t = TStruct ps →
  fits fields t = true → ∀ v, native t v = true → decode_opt fields v = Ok (decoded_opt fields v).
Proof.
  intros Ht Hf v Hn. pose proof (decode_native fields t v Hf Hn) as E. rewrite Ht in Hn.
  destruct (native_struct _ _ Hn) as [o ->]. unfold decode_opt, decoded_opt. cbn [truthy]. by rewrite E.
Qed.

Lemma native_numbers v : is_integer t = true → native (TVec t) v = true →
  ∃ l, v = JArr l ∧ map js_Number l = decoded_numbers v.
Proof.
  intros Ht Hn. destruct v as [| | | | | |l|]; try done. exists l. split; [done|]. unfold decoded_numbers. cbn [elements_of].
  cbn [native] in Hn. apply map_ext_in. intros x Hx. rewrite forallb_forall in Hn. apply Hn in Hx.
  by destruct (native_integer t x Ht Hx) as [-> | ->].
Qed.

Lemma reads_numbers_list :
  is_integer t = true → ∀ v, native (TVec t) v = true → numbers_list v = Ok (decoded_numbers v).
Proof. intros Ht v Hn. destruct (native_numbers v Ht Hn) as (l&->&E). cbn. by rewrite E. Qed.

Lemma reads_numbers : is_integer t = true → ∀ v, native (TVec t) v = true → numbers v = Ok (decoded_numbers v).
Proof. intros Ht v Hn. destruct (native_numbers v Ht Hn) as (l&->&E). cbn. by rewrite E. Qed.

Lemma reads_array_list : ∀ v, native (TVec t) v = true → array_list v = Ok v.
Proof. by intros [] Hn. Qed.

Lemma reads_bigint_or_0 : is_integer t = true → ∀ v, native t v = true → as_bigint_or_0 v = Ok (int_of v).
Proof.
  intros Ht v Hn. unfold as_bigint_or_0. destruct (native_integer t v Ht Hn) as [-> | ->];
    apply to_BigInt_String; auto.
Qed.
End reads.

Ltac web_answers :=
  do 5 eexists; split; [intros ?; reflexivity|split; [reflexivity|]]; cbn [sg_result];
  first
    [ by intros ? ?
    | apply reads_decode; reflexivity | apply reads_decode_opt; reflexivity
    | eapply reads_decode_struct; reflexivity
    | apply reads_decode_all; reflexivity | apply reads_decode_array; reflexivity
    | apply reads_decode_list; reflexivity | apply reads_numbers_list; reflexivity
    | apply reads_numbers; reflexivity | apply reads_array_list
    | apply reads_bigints; reflexivity | apply reads_bigint; reflexivity | apply reads_BigInt; reflexivity
    | apply reads_bigint_or_0; reflexivity
    | apply reads_number; reflexivity | apply reads_number_or_0; reflexivity
    | apply reads_number_opt; reflexivity | apply reads_string_or_empty; by auto
    | apply reads_array
    | solve [eauto with reads] ].
