(* ===== verification/WebInvoice.v ===== *)
(** * contracts.ts: invoices

    The functions that call the invoice contract, among them the pause of the
    protocol and the disputes it takes. *)
From S2P Require Import Prelude.
From S2P Require Import JsValue.
From S2P Require Import JsNumber.
From S2P Require Import Sdk.
From S2P Require Import Abi.
From S2P Require Import ContractAbi.
From S2P Require Import RpcPool.
From S2P Require Import Stellar.
From S2P Require Import WebAbi.
From S2P Require Import JsArith.
From S2P Require Import Amounts.
#[local] Open Scope string_scope.
#[local] Open Scope list_scope.
#[local] Open Scope Z_scope.

(** [due_date] is read first; the sixth field is made of it. *)
Definition metadata_fields : list Field :=
  [field "name" KRaw "name"; field "description" KRaw "description"; field "image" KRaw "image";
   field "amount" KBig "amount"; field "debtor" KRaw "debtor"; field "dueDate" KNum "due_date";
   field "status" KRaw "status"; field "symbol" KRaw "symbol"; field "decimals" KNum "decimals"].

Definition metadataFromRaw (raw : jsval) : result (list (string * value)) :=
  due_date ← get_prop raw "due_date";
  match due_date with
  | JUndef =>
      decode (map (λ f, if String.eqb (f_name f) "dueDate" then field "dueDate" KNum "dueDate" else f)
                metadata_fields) raw
  | _ => decode metadata_fields raw
  end.

Lemma web_reads_metadata v :
  native Invoice_InvoiceMetadata v = true → metadataFromRaw v = Ok (decoded metadata_fields v).
Proof.
  intros Hn. pose proof (decode_native metadata_fields Invoice_InvoiceMetadata v eq_refl Hn) as E.
  destruct (native_struct _ _ Hn) as [o ->]. unfold metadataFromRaw. cbn [get_prop mbind result_bind].
  pose proof (native_lookup _ o "due_date" TU64 Hn eq_refl) as Hd. by destruct (obj_get o "due_date").
Qed.
#[export] Hint Resolve web_reads_metadata : reads.

(** ** The functions *)

Section web.
Context {W : Type} (X : Chain W).

(** The mock service answers a path with a status, or the connection fails. *)
Definition mockFetch (fetch : string → M (Rpc (W := W)) (bool * Z * jsval)) (path : string)
   : M (Rpc (W := W)) jsval :=
  '(ok, status, body) ← fetch path;
  if (ok : bool) then mret body
  else throw (EError ("Mock API error: " +:+ pretty status +:+ " " +:+ path)).

(** [mock]: the mock service, when [USE_MOCK] is set. *)
Definition getInvoice (mock : option (string → M (Rpc (W := W)) (bool * Z * jsval))) (id : Z)
   : M (Rpc (W := W)) jsval :=
  match mock with
  | Some fetch => mockFetch fetch ("/invoices/" +:+ pretty id)
  | None => query X (Of Invoice) "get_invoice" [ArgU64 id] PLACEHOLDER as_raw
  end.

(** [Promise.all] starts the calls together; the queue of ReadQueue.v runs them. *)
Definition getMultipleInvoices (mock : option (string → M (Rpc (W := W)) (bool * Z * jsval))) (ids : list Z)
   : M (Rpc (W := W)) (list jsval) :=
  match ids with
  | [] => mret []
  | _ => mapM (getInvoice mock) ids
  end.

Definition getInvoiceMetadata (id : Z) : M (Rpc (W := W)) (list (string * value)) :=
  query X (Of Invoice) "get_metadata" [ArgU64 id] PLACEHOLDER metadataFromRaw.

Definition getInvoiceCount : M (Rpc (W := W)) number :=
  query X (Of Invoice) "get_invoice_count" [] PLACEHOLDER as_number.

Definition getMaxInvoiceAmount : M (Rpc (W := W)) number :=
  query X (Of Invoice) "get_max_invoice_amount" [] PLACEHOLDER as_number.

Definition isInvoicePrivate (id : Z) : M (Rpc (W := W)) bool :=
  query X (Of Invoice) "is_invoice_private" [ArgU64 id] PLACEHOLDER as_boolean.

(** The texts are checked, then the amount, then the date against the clock; a due
    date that is no integer is refused when it is encoded. *)
Definition validateInvoice (debtor : string) (amount : Z) (dueDate : number) (now : Z) : result unit :=
  if String.eqb debtor "" || String.eqb (trim debtor) "" then Throw (EError "Debtor name is required")
  else if amount <=? 0 then Throw (EError "Amount must be greater than zero")
  else if negb (isFinite dueDate) || num_leb dueDate (num_of_Z (now / 1000))
  then Throw (EError "Due date must be in the future")
  else Ok tt.

Definition integer_due (dueDate : number) (account : ch_Account X) : result unit :=
  _ ← bigint_of_number dueDate; Ok tt.

Definition buildCreateInvoiceTx (owner debtor : string) (amount : Z) (dueDate : number) (description : string)
    (verificationHash metadataUri : option string) : M (Rpc (W := W)) string := λ s,
  match validateInvoice debtor amount dueDate (ch_now X (world s)) with
  | Throw e => (Throw e, s)
  | Ok _ =>
      prepare X (contract_error X) (integer_due dueDate) owner (Of Invoice) "create_invoice_with_metadata"
        [ArgAddress owner; ArgString (JStr debtor); ArgI128 amount; ArgU64 (default 0 (num_to_Z dueDate));
         ArgString (JStr description); ArgString (JStr (default "" verificationHash));
         match metadataUri with
         | Some uri => if String.eqb uri "" then ArgVoid else ArgString (JStr uri)
         | None => ArgVoid
         end] s
  end.

Definition buildRenewInvoiceTtlTx (operator : string) (invoiceId : Z) : M (Rpc (W := W)) string :=
  build X operator (Of Invoice) "renew_ttl" [ArgU64 invoiceId].

Definition buildMarkDefaultedTx (admin : string) (invoiceId : Z) : M (Rpc (W := W)) string :=
  build X admin (Of Invoice) "mark_defaulted" [ArgU64 invoiceId; ArgAddress (ch_id X Pool)].

Definition isProtocolPaused : M (Rpc (W := W)) bool :=
  query X (Of Invoice) "is_paused" [] PLACEHOLDER as_boolean.

Definition buildPauseProtocolTx (admin : string) : M (Rpc (W := W)) string :=
  build X admin (Of Invoice) "pause" [ArgAddress admin].

Definition buildUnpauseProtocolTx (admin : string) : M (Rpc (W := W)) string :=
  build X admin (Of Invoice) "unpause" [ArgAddress admin].

Definition buildDisputeTx (disputer : string) (invoiceId : Z) (reason : string)
    (oracleHash : option string) : M (Rpc (W := W)) string :=
  build X disputer (Of Invoice) "verify_invoice"
    [ArgU64 invoiceId; ArgAddress disputer; ArgBool false; ArgString (JStr reason);
     ArgString (JStr (default "" oracleHash))].

Definition buildSetInvoicePrivateTx (owner : string) (invoiceId : Z) (private : bool)
    : M (Rpc (W := W)) string :=
  build X owner (Of Invoice) "set_invoice_private" [ArgU64 invoiceId; ArgAddress owner; ArgBool private].

Definition buildRaiseDisputeTx (borrower : string) (invoiceId : Z) (evidenceHash respondent : string)
    : M (Rpc (W := W)) string :=
  build X borrower (Of Invoice) "raise_dispute"
    [ArgU64 invoiceId; ArgAddress borrower; ArgString (JStr evidenceHash); ArgAddress respondent].

Definition getDispute_fields : list Field :=
  [field "evidenceHash" KRaw "evidence_hash"; field "filedAt" KNum "filed_at";
   field "resolvedAt" KNum "resolved_at"; field "outcome" KRaw "outcome"].

Definition getDispute (invoiceId : Z) : M (Rpc (W := W)) (option (list (string * value))) :=
  query X (Of Invoice) "get_dispute" [ArgU64 invoiceId] PLACEHOLDER (decode_opt getDispute_fields).

End web.

(** ** Their calls *)

Inductive web_called {W : Type} : ∀ {A : Type}, (Chain W → M (Rpc (W := W)) A) → Prop :=
| call_getInvoice : ∀ (id : Z), web_called (λ X, getInvoice X None id)
| call_getMultipleInvoices : ∀ (ids : list Z), web_called (λ X, getMultipleInvoices X None ids)
| call_getInvoiceMetadata : ∀ (id : Z), web_called (λ X, getInvoiceMetadata X id)
| call_getInvoiceCount : web_called (λ X, getInvoiceCount X)
| call_getMaxInvoiceAmount : web_called (λ X, getMaxInvoiceAmount X)
| call_isInvoicePrivate : ∀ (id : Z), web_called (λ X, isInvoicePrivate X id)
| call_buildCreateInvoiceTx : ∀ (owner debtor : string) (amount : Z) (dueDate : number) (description : string)
    (verificationHash metadataUri : option string),
    web_called (λ X, buildCreateInvoiceTx X owner debtor amount dueDate description verificationHash metadataUri)
| call_buildMarkDefaultedTx : ∀ (admin : string) (invoiceId : Z),
    web_called (λ X, buildMarkDefaultedTx X admin invoiceId)
| call_isProtocolPaused : web_called (λ X, isProtocolPaused X)
| call_buildPauseProtocolTx : ∀ (admin : string), web_called (λ X, buildPauseProtocolTx X admin)
| call_buildUnpauseProtocolTx : ∀ (admin : string), web_called (λ X, buildUnpauseProtocolTx X admin)
| call_buildDisputeTx : ∀ (disputer : string) (invoiceId : Z) (reason : string)
    (oracleHash : option string),
    web_called (λ X, buildDisputeTx X disputer invoiceId reason oracleHash)
| call_buildSetInvoicePrivateTx : ∀ (owner : string) (invoiceId : Z) (private : bool),
    web_called (λ X, buildSetInvoicePrivateTx X owner invoiceId private)
| call_buildRaiseDisputeTx : ∀ (borrower : string) (invoiceId : Z) (evidenceHash respondent : string),
    web_called (λ X, buildRaiseDisputeTx X borrower invoiceId evidenceHash respondent)
| call_getDispute : ∀ (invoiceId : Z), web_called (λ X, getDispute X invoiceId).

(** Those that the contract has not, or takes other arguments for. *)
Inductive web_lost {W : Type} : ∀ {A : Type}, (Chain W → M (Rpc (W := W)) A) → Prop :=
| lost_buildRenewInvoiceTtlTx : ∀ (operator : string) (invoiceId : Z),
    web_lost (λ X, buildRenewInvoiceTtlTx X operator invoiceId).

(** The readers: the address they simulate from, and what they make of an answer. *)
Inductive web_reads {W : Type} : ∀ {A : Type}, (Chain W → M (Rpc (W := W)) A) → string → (jsval → A) → Prop :=
| read_getInvoice : ∀ (id : Z), web_reads (λ X, getInvoice X None id) PLACEHOLDER (λ v, v)
| read_getInvoiceMetadata : ∀ (id : Z),
    web_reads (λ X, getInvoiceMetadata X id) PLACEHOLDER (decoded metadata_fields)
| read_getInvoiceCount : web_reads (λ X, getInvoiceCount X) PLACEHOLDER (λ v, num_of_Z (int_of v))
| read_getMaxInvoiceAmount : web_reads (λ X, getMaxInvoiceAmount X) PLACEHOLDER (λ v, num_of_Z (int_of v))
| read_isInvoicePrivate : ∀ (id : Z), web_reads (λ X, isInvoicePrivate X id) PLACEHOLDER truthy
| read_isProtocolPaused : web_reads (λ X, isProtocolPaused X) PLACEHOLDER truthy
| read_getDispute : ∀ (invoiceId : Z),
    web_reads (λ X, getDispute X invoiceId) PLACEHOLDER (decoded_opt getDispute_fields).

(** ** They keep to the interfaces *)

(** An invoice that passes the form's checks is a call of the contract; one that fails
    them is none. *)
Lemma create_invoice_conforms {W} owner debtor amount dueDate description hash uri :
  conforming (W := W) (λ X, buildCreateInvoiceTx X owner debtor amount dueDate description hash uri).
Proof.
  intros X s. unfold buildCreateInvoiceTx. change (ch_now (checked X)) with (ch_now X).
  destruct (validateInvoice debtor amount dueDate (ch_now X (world s))); [|done].
  apply (web_prepare_conforming contract_error (λ X, integer_due X dueDate)); [done|done|].
  destruct uri as [uri|]; [destruct (String.eqb uri "")|]; reflexivity.
Qed.

Lemma web_invoice_conforms {W A} (op : Chain W → M (Rpc (W := W)) A) : web_called op → conforming op.
Proof. destruct 1; try by web_calls. apply create_invoice_conforms. Qed.

Lemma web_invoice_lost {W A} (op : Chain W → M (Rpc (W := W)) A) : web_lost op → refused op.
Proof. destruct 1; by web_calls. Qed.

Lemma web_invoice_answered {W A} (op : Chain W → M (Rpc (W := W)) A) source mean :
  web_reads op source mean → answered op source mean.
Proof. destruct 1; by web_answers. Qed.

(** An invoice that fails the form's checks costs no request: nothing has happened
    when the error is thrown. *)
Lemma create_invoice_checked {W} (X : Chain W) owner debtor amount dueDate description hash uri s e :
  validateInvoice debtor amount dueDate (ch_now X (world s)) = Throw e →
  buildCreateInvoiceTx X owner debtor amount dueDate description hash uri s = (Throw e, s).
Proof. unfold buildCreateInvoiceTx. by intros ->. Qed.

