(* ===== verification/WebPool.v ===== *)
(** * contracts.ts: the pool

    The functions that call the pool contract, and those that read a balance from
    a token's contract. The parameters of a rate model are integers here. *)
From S2P Require Import Prelude.
From S2P Require Import JsValue.
From S2P Require Import JsNumber.
From S2P Require Import Sdk.
From S2P Require Import Abi.
From S2P Require Import ContractAbi.
From S2P Require Import RpcPool.
From S2P Require Import Stellar.
From S2P Require Import WebAbi.
#[local] Open Scope string_scope.
#[local] Open Scope list_scope.
#[local] Open Scope Z_scope.

Record RateModelConfig := {
  baseRateBps : Z; optimalUtilizationBps : Z; slope1Bps : Z; slope2Bps : Z; maxRateBps : Z }.

Definition rateModelConfigToScVal (config : RateModelConfig) : ScArg :=
  ArgMap [("base_rate_bps", ArgU32 (baseRateBps config)); ("max_rate_bps", ArgU32 (maxRateBps config));
          ("optimal_utilization_bps", ArgU32 (optimalUtilizationBps config));
          ("slope1_bps", ArgU32 (slope1Bps config)); ("slope2_bps", ArgU32 (slope2Bps config))].

Definition openCoFundingRequestToScVal (invoiceId : Z) (token : string) (targetPrincipal : Z) (sme : string)
    (dueDate fundingDeadline minCommitment maxInvestorBps : Z) : ScArg :=
  ArgMap [("due_date", ArgU64 dueDate); ("funding_deadline", ArgU64 fundingDeadline);
          ("invoice_id", ArgU64 invoiceId); ("max_investor_bps", ArgU32 maxInvestorBps);
          ("min_commitment", ArgI128 minCommitment); ("sme", ArgAddress sme);
          ("target_principal", ArgI128 targetPrincipal); ("token", ArgAddress token)].

Definition coFundingRoundFromScVal : list Field :=
  [field "invoiceId" KNum "invoice_id"; field "token" KRaw "token"; field "sme" KRaw "sme";
   field "dueDate" KNum "due_date"; field "targetPrincipal" KBig "target_principal";
   field "committedPrincipal" KBig "committed_principal";
   field "fundingDeadline" KNum "funding_deadline"; field "status" KRaw "status";
   field "minCommitment" KBig "min_commitment"; field "maxInvestorBps" KNum "max_investor_bps";
   field "participants" (KRawOr (JArr [])) "participants"].

Definition rateModelConfigFromRaw : list Field :=
  [field "baseRateBps" KNumOr0 "base_rate_bps";
   field "optimalUtilizationBps" KNumOr0 "optimal_utilization_bps";
   field "slope1Bps" KNumOr0 "slope1_bps"; field "slope2Bps" KNumOr0 "slope2_bps";
   field "maxRateBps" KNumOr0 "max_rate_bps"].

(** [(raw ?? []).map(([invoiceId, bps]) => ({ invoiceId: Number(invoiceId), bps }))]. *)
Definition position (v : jsval) : result (number * jsval) :=
  p ← variant v;
  match p with
  | VVariant invoiceId (bps :: _) => Ok (js_Number invoiceId, bps)
  | VVariant invoiceId [] => Ok (js_Number invoiceId, JUndef)
  | _ => Ok (NaN, JUndef)
  end.

Definition positions (raw : jsval) : result (list (number * jsval)) :=
  l ← array_or_empty raw; mapM position l.

Definition position_of (v : jsval) : number * jsval :=
  (num_of_Z (int_of (arr_get (elements_of v) 0)), arr_get (elements_of v) 1).
Definition positions_of (v : jsval) : list (number * jsval) := map position_of (elements_of v).

Lemma web_reads_position v : native (TTuple [TU64; TU32]) v = true → position v = Ok (position_of v).
Proof.
  destruct v as [| | | | | |[|a [|b []]]|]; try done; try (cbn; rewrite ?andb_false_r; done).
  intros [Ha [Hb _]%andb_prop]%andb_prop. unfold position, position_of. cbn.
  by destruct (native_integer TU64 a eq_refl Ha) as [-> | ->].
Qed.

Lemma web_reads_positions v : native (TVec (TTuple [TU64; TU32])) v = true → positions v = Ok (positions_of v).
Proof.
  destruct v as [| | | | | |l|]; try done. intros Hn. unfold positions, positions_of, array_or_empty.
  cbn [js_coalesce nullish array mbind result_bind elements_of].
  apply (mapM_forallb _ _ (native (TTuple [TU64; TU32]))); [apply web_reads_position|done].
Qed.
#[export] Hint Resolve web_reads_positions : reads.

(** ** The functions *)

Section web.
Context {W : Type} (X : Chain W).

Definition getPoolConfig_fields : list Field :=
  [field "invoiceContract" KRaw "invoice_contract"; field "admin" KRaw "admin";
   field "yieldBps" KNum "yield_bps"; field "factoringFeeBps" KNumOr0 "factoring_fee_bps";
   field "compoundInterest" KBool "compound_interest";
   field "proposedYieldBps" KNumOr0 "proposed_yield_bps";
   field "yieldProposalAt" KNumOr0 "yield_proposal_at";
   field "yieldTimelockSecs" KNumOr0 "yield_timelock_secs";
   field "maxSingleInvestorBps" KNumOr0 "max_single_investor_bps";
   field "maxWithdrawalQueueAgeDays" KNumOr0 "max_withdrawal_queue_age_days";
   field "maxWithdrawalQueueDepth" KNumOr0 "max_withdrawal_queue_depth"].

Definition getPoolConfig : M (Rpc (W := W)) (list (string * value)) :=
  query X (Of Pool) "get_config" [] PLACEHOLDER (decode getPoolConfig_fields).

Definition getWithdrawalQueue_fields : list Field :=
  [field "investor" KRaw "investor"; field "token" KRaw "token"; field "shares" KBigOr0 "shares";
   field "requestedAt" KNumOr0 "requested_at"; field "requestId" KNumOr0 "request_id"].

Definition getWithdrawalQueue (token : string) : M (Rpc (W := W)) (list (list (string * value))) :=
  query X (Of Pool) "get_withdrawal_queue"
    [ArgAddress token]
    PLACEHOLDER (decode_list getWithdrawalQueue_fields).

Definition getAcceptedTokens : M (Rpc (W := W)) jsval :=
  query X (Of Pool) "accepted_tokens" [] PLACEHOLDER array_list.

Definition getAssetPrice (token : string) : M (Rpc (W := W)) Z :=
  query X (Of Pool) "get_asset_price" [ArgAddress token] PLACEHOLDER as_bigint.

Definition getPoolTokenTotals_fields : list Field :=
  [field "totalDeposited" KBigInt "pool_value"; field "totalDeployed" KBigInt "total_deployed";
   field "totalPaidOut" KBigInt "total_paid_out"; field "totalFeeRevenue" KBigIntOr0 "total_fee_revenue"].

Definition getPoolTokenTotals (token : string) : M (Rpc (W := W)) (list (string * value)) :=
  query X (Of Pool) "get_token_totals"
    [ArgAddress token]
    PLACEHOLDER (decode getPoolTokenTotals_fields).

Definition getPoolBalance (token : string) : M (Rpc (W := W)) Z :=
  query X (Of Pool) "get_pool_balance" [ArgAddress token] PLACEHOLDER as_bigint_or_0.

Definition getTreasuryAddress : M (Rpc (W := W)) (option jsval) :=
  or_else None (query_or X None (Of Pool) "get_treasury" [] PLACEHOLDER (some as_raw)).

Definition getProtocolRevenue (token : string) : M (Rpc (W := W)) Z :=
  query X (Of Pool) "get_protocol_revenue" [ArgAddress token] PLACEHOLDER as_bigint_or_0.

Definition getTokenBalanceOf (token address : string) : M (Rpc (W := W)) Z :=
  query X (At token) "balance" [ArgAddress address] PLACEHOLDER as_bigint_or_0.

Definition getTokenDepositCap (token : string) : M (Rpc (W := W)) Z :=
  query X (Of Pool) "get_token_deposit_cap" [ArgAddress token] PLACEHOLDER as_bigint_or_0.

Definition getInvestorPosition_fields : list Field :=
  [field "deposited" KBigInt "deposited"; field "available" KBigInt "available";
   field "deployed" KBigInt "deployed"; field "earned" KBigInt "earned";
   field "depositCount" KNum "deposit_count"].

Definition getInvestorPosition (investor token : string)
    : M (Rpc (W := W)) (option (list (string * value))) :=
  query X (Of Pool) "get_position"
    [ArgAddress investor; ArgAddress token]
    PLACEHOLDER (decode_opt getInvestorPosition_fields).

Definition buildDepositTx (investor token : string) (amount : Z) : M (Rpc (W := W)) string :=
  prepare X simulation_failed (ensureSufficientNativeBalance X) investor (Of Pool) "deposit"
    [ArgAddress investor; ArgAddress token; ArgI128 amount].

Definition buildClaimYieldTx (investor token : string) : M (Rpc (W := W)) string :=
  build X investor (Of Pool) "claim_yield" [ArgAddress investor; ArgAddress token].

Definition getFundedInvoice_fields : list Field :=
  [field "invoiceId" KNum "invoice_id"; field "sme" KRaw "sme"; field "token" KRaw "token";
   field "principal" KBigInt "principal"; field "committed" KBigInt "committed";
   field "fundedAt" KNum "funded_at"; field "factoringFee" KBigIntOr0 "factoring_fee";
   field "dueDate" KNum "due_date"; field "repaidAmount" KBigIntOr0 "repaid_amount";
   field "coFundingRoundId" KNumOpt "co_funding_round_id"].

Definition getFundedInvoice (invoiceId : Z) : M (Rpc (W := W)) (option (list (string * value))) :=
  query X (Of Pool) "get_funded_invoice"
    [ArgU64 invoiceId]
    PLACEHOLDER (decode_opt getFundedInvoice_fields).

Definition buildOpenCoFundingTx (admin : string) (invoiceId : Z) (token : string)
    (targetPrincipal : Z) (sme : string) (dueDate fundingDeadline minCommitment maxInvestorBps : Z) : M (Rpc (W := W)) string :=
  build X admin (Of Pool) "open_co_funding"
    [ArgAddress admin;
     openCoFundingRequestToScVal invoiceId token targetPrincipal sme dueDate fundingDeadline
       minCommitment maxInvestorBps].

Definition buildCommitToInvoiceTx (investor : string) (invoiceId amount : Z)
    : M (Rpc (W := W)) string :=
  prepare X simulation_failed (ensureSufficientNativeBalance X) investor (Of Pool) "commit_to_invoice"
    [ArgAddress investor; ArgU64 invoiceId; ArgI128 amount].

Definition buildFinalizeCoFundingTx (caller : string) (invoiceId : Z) : M (Rpc (W := W)) string :=
  build X caller (Of Pool) "finalize_co_funding" [ArgAddress caller; ArgU64 invoiceId].

Definition buildWithdrawCoFundingCommitmentTx (investor : string) (invoiceId : Z)
    : M (Rpc (W := W)) string :=
  build X investor (Of Pool) "withdraw_co_funding_commitment" [ArgAddress investor; ArgU64 invoiceId].

Definition buildCancelCoFundingRoundTx (admin : string) (invoiceId : Z) : M (Rpc (W := W)) string :=
  build X admin (Of Pool) "cancel_co_funding_round" [ArgAddress admin; ArgU64 invoiceId].

Definition buildTransferCoFundShareTx (from : string) (invoiceId : Z) (token to : string) (bps : Z)
    : M (Rpc (W := W)) string :=
  build X from (Of Pool) "transfer_co_fund_share"
    [ArgAddress from; ArgU64 invoiceId; ArgAddress token; ArgAddress to; ArgU32 bps].

Definition getCoFundingRound (invoiceId : Z) : M (Rpc (W := W)) (option (list (string * value))) :=
  query X (Of Pool) "get_co_funding_round"
    [ArgU64 invoiceId]
    PLACEHOLDER (decode_opt coFundingRoundFromScVal).

Definition listCoFundingRounds : M (Rpc (W := W)) (list number) :=
  query X (Of Pool) "list_co_funding_rounds" [] PLACEHOLDER numbers.

Definition getInvestorCoFundPositions (investor : string) : M (Rpc (W := W)) (list (number * jsval)) :=
  query X (Of Pool) "get_investor_co_fund_positions" [ArgAddress investor] PLACEHOLDER positions.

Definition getCoFundShare (invoiceId : Z) (investor : string) : M (Rpc (W := W)) number :=
  query X (Of Pool) "get_co_fund_share" [ArgU64 invoiceId; ArgAddress investor] PLACEHOLDER as_number.

Definition buildRepayTx (payer : string) (invoiceId amount : Z) : M (Rpc (W := W)) string :=
  build X payer (Of Pool) "repay_invoice" [ArgU64 invoiceId; ArgAddress payer; ArgI128 amount].

Definition buildWithdrawTx (investor token : string) (amount : Z) : M (Rpc (W := W)) string :=
  build X investor (Of Pool) "withdraw" [ArgAddress investor; ArgAddress token; ArgI128 amount].

Definition buildRequestWithdrawalTx (investor token : string) (shares : Z) : M (Rpc (W := W)) string :=
  build X investor (Of Pool) "request_withdrawal" [ArgAddress investor; ArgAddress token; ArgI128 shares].

Definition buildCancelWithdrawalRequestTx (investor token : string) : M (Rpc (W := W)) string :=
  build X investor (Of Pool) "cancel_withdrawal_request" [ArgAddress investor; ArgAddress token].

Definition buildDrainWithdrawalQueueTx (caller token : string) : M (Rpc (W := W)) string :=
  build X caller (Of Pool) "drain_withdrawal_queue" [ArgAddress caller; ArgAddress token].

Definition buildSetYieldTx (admin : string) (yieldBps : Z) : M (Rpc (W := W)) string :=
  build X admin (Of Pool) "set_yield" [ArgAddress admin; ArgU32 yieldBps].

Definition getCurrentRate (token : string) : M (Rpc (W := W)) (option number) :=
  query_or X None (Of Pool) "get_current_rate" [ArgAddress token] PLACEHOLDER (some as_number).

Definition getRateModelConfig (token : string) : M (Rpc (W := W)) (option (list (string * value))) :=
  query_or X None (Of Pool) "get_rate_model_config"
    [ArgAddress token]
    PLACEHOLDER (decode_opt rateModelConfigFromRaw).

Definition getRateHistory_fields : list Field :=
  [field "timestamp" KNumOr0 "timestamp"; field "utilizationBps" KNumOr0 "utilization_bps";
   field "rateBps" KNumOr0 "rate_bps"].

Definition getRateHistory (token : string) (limit : Z)
    : M (Rpc (W := W)) (list (list (string * value))) :=
  query_or X [] (Of Pool) "get_rate_history"
    [ArgAddress token; ArgU32 limit]
    PLACEHOLDER (decode_list getRateHistory_fields).

Definition previewRateAtUtilization (token : string) (utilizationBps : Z)
    : M (Rpc (W := W)) (option number) :=
  query_or X None (Of Pool) "preview_rate_at_utilization"
    [ArgAddress token; ArgU32 utilizationBps]
    PLACEHOLDER (some as_number).

Definition buildProposeRateModelTx (admin token : string) (config : RateModelConfig)
    : M (Rpc (W := W)) string :=
  build X admin (Of Pool) "propose_rate_model_change"
    [ArgAddress admin; ArgAddress token; rateModelConfigToScVal config].

Definition buildExecuteRateModelTx (caller token : string) : M (Rpc (W := W)) string :=
  build X caller (Of Pool) "execute_rate_model_change" [ArgAddress token].

Definition buildCancelRateModelTx (admin token : string) : M (Rpc (W := W)) string :=
  build X admin (Of Pool) "cancel_rate_model_change" [ArgAddress admin; ArgAddress token].

Definition buildSetFactoringFeeTx (admin : string) (factoringFeeBps : Z) : M (Rpc (W := W)) string :=
  build X admin (Of Pool) "set_factoring_fee" [ArgAddress admin; ArgU32 factoringFeeBps].

Definition getKycRequired : M (Rpc (W := W)) bool :=
  query X (Of Pool) "kyc_required" [] PLACEHOLDER as_boolean.

Definition getInvestorKyc (investor : string) : M (Rpc (W := W)) bool :=
  query X (Of Pool) "get_investor_kyc" [ArgAddress investor] PLACEHOLDER as_boolean.

Definition buildSetKycRequiredTx (admin : string) (required : bool) : M (Rpc (W := W)) string :=
  build X admin (Of Pool) "set_kyc_required" [ArgAddress admin; ArgBool required].

Definition buildSetInvestorKycTx (admin investor : string) (approved : bool)
    : M (Rpc (W := W)) string :=
  build X admin (Of Pool) "set_investor_kyc" [ArgAddress admin; ArgAddress investor; ArgBool approved].

Definition getExchangeRate (token : string) : M (Rpc (W := W)) number :=
  query X (Of Pool) "get_exchange_rate" [ArgAddress token] PLACEHOLDER as_number.

Definition buildSetExchangeRateTx (admin token : string) (rateBps : Z) : M (Rpc (W := W)) string :=
  build X admin (Of Pool) "set_exchange_rate" [ArgAddress admin; ArgAddress token; ArgU32 rateBps].

(** The position in [token], unless it is unset, absent or cannot be read. *)
Definition position_in (investor token : string) : M (Rpc (W := W)) (option (list (string * value))) :=
  if String.eqb token "" then mret None else or_else None (getInvestorPosition investor token).

Definition fetchInvestorPosition (USDC_TOKEN_ID EURC_TOKEN_ID investor : string)
   : M (Rpc (W := W)) (option (list (string * value))) :=
  pos ← position_in investor USDC_TOKEN_ID;
  match pos with
  | Some pos => mret (Some pos)
  | None => position_in investor EURC_TOKEN_ID
  end.

Definition getCollateralConfig_fields : list Field :=
  [field "threshold" KBig "threshold"; field "collateralBps" KNum "collateral_bps"].

Definition getCollateralConfig : M (Rpc (W := W)) (list (string * value)) :=
  query X (Of Pool) "get_collateral_config" [] PLACEHOLDER (decode getCollateralConfig_fields).

Definition getCollateralDeposit_fields : list Field :=
  [field "invoiceId" KNum "invoice_id"; field "depositor" KRaw "depositor"; field "token" KRaw "token";
   field "amount" KBig "amount"; field "settled" KBool "settled"; field "postedAt" KNum "posted_at";
   field "releasedAt" KNum "released_at"; field "seizedAt" KNum "seized_at";
   field "collateralBpsAtDeposit" KNum "collateral_bps_at_deposit";
   field "thresholdAtDeposit" KBig "threshold_at_deposit"].

Definition getCollateralDeposit (invoiceId : Z) : M (Rpc (W := W)) (option (list (string * value))) :=
  query X (Of Pool) "get_collateral_deposit"
    [ArgU64 invoiceId]
    PLACEHOLDER (decode_opt getCollateralDeposit_fields).

Definition buildDepositCollateralTx (invoiceId : Z) (depositor token : string) (amount : Z)
    : M (Rpc (W := W)) string :=
  build X depositor (Of Pool) "deposit_collateral"
    [ArgU64 invoiceId; ArgAddress depositor; ArgAddress token; ArgI128 amount].

Definition buildTopUpCollateralTx (invoiceId : Z) (depositor token : string) (amount : Z)
    : M (Rpc (W := W)) string :=
  build X depositor (Of Pool) "top_up_collateral"
    [ArgU64 invoiceId; ArgAddress depositor; ArgAddress token; ArgI128 amount].

Definition getShareBalance (shareTokenId address : string) : M (Rpc (W := W)) Z :=
  or_else 0 (query X (At shareTokenId) "balance" [ArgAddress address] address as_bigint_or_0).

Definition getInsuranceContractLink : M (Rpc (W := W)) (option jsval) :=
  query X (Of Pool) "get_insurance_contract" [] PLACEHOLDER as_raw_opt.

Definition buildSetInsuranceContractTx (admin insuranceContract : string) : M (Rpc (W := W)) string :=
  build X admin (Of Pool) "set_insurance_contract" [ArgAddress admin; ArgAddress insuranceContract].

End web.

(** ** Their calls *)

Inductive web_called {W : Type} : ∀ {A : Type}, (Chain W → M (Rpc (W := W)) A) → Prop :=
| call_getPoolConfig : web_called (λ X, getPoolConfig X)
| call_getWithdrawalQueue : ∀ (token : string), web_called (λ X, getWithdrawalQueue X token)
| call_getAcceptedTokens : web_called (λ X, getAcceptedTokens X)
| call_getAssetPrice : ∀ (token : string), web_called (λ X, getAssetPrice X token)
| call_getPoolTokenTotals : ∀ (token : string), web_called (λ X, getPoolTokenTotals X token)
| call_getPoolBalance : ∀ (token : string), web_called (λ X, getPoolBalance X token)
| call_getTreasuryAddress : web_called (λ X, getTreasuryAddress X)
| call_getProtocolRevenue : ∀ (token : string), web_called (λ X, getProtocolRevenue X token)
| call_getTokenBalanceOf : ∀ (token address : string), web_called (λ X, getTokenBalanceOf X token address)
| call_buildClaimYieldTx : ∀ (investor token : string), web_called (λ X, buildClaimYieldTx X investor token)
| call_getFundedInvoice : ∀ (invoiceId : Z), web_called (λ X, getFundedInvoice X invoiceId)
| call_buildOpenCoFundingTx : ∀ (admin : string) (invoiceId : Z) (token : string)
    (targetPrincipal : Z) (sme : string) (dueDate fundingDeadline minCommitment maxInvestorBps : Z),
    web_called (λ X, buildOpenCoFundingTx X admin invoiceId token targetPrincipal sme dueDate fundingDeadline minCommitment maxInvestorBps)
| call_buildCommitToInvoiceTx : ∀ (investor : string) (invoiceId amount : Z),
    web_called (λ X, buildCommitToInvoiceTx X investor invoiceId amount)
| call_buildFinalizeCoFundingTx : ∀ (caller : string) (invoiceId : Z),
    web_called (λ X, buildFinalizeCoFundingTx X caller invoiceId)
| call_buildWithdrawCoFundingCommitmentTx : ∀ (investor : string) (invoiceId : Z),
    web_called (λ X, buildWithdrawCoFundingCommitmentTx X investor invoiceId)
| call_buildCancelCoFundingRoundTx : ∀ (admin : string) (invoiceId : Z),
    web_called (λ X, buildCancelCoFundingRoundTx X admin invoiceId)
| call_buildTransferCoFundShareTx : ∀ (from : string) (invoiceId : Z) (token to : string) (bps : Z),
    web_called (λ X, buildTransferCoFundShareTx X from invoiceId token to bps)
| call_getCoFundingRound : ∀ (invoiceId : Z), web_called (λ X, getCoFundingRound X invoiceId)
| call_listCoFundingRounds : web_called (λ X, listCoFundingRounds X)
| call_getInvestorCoFundPositions : ∀ (investor : string),
    web_called (λ X, getInvestorCoFundPositions X investor)
| call_getCoFundShare : ∀ (invoiceId : Z) (investor : string),
    web_called (λ X, getCoFundShare X invoiceId investor)
| call_buildRepayTx : ∀ (payer : string) (invoiceId amount : Z),
    web_called (λ X, buildRepayTx X payer invoiceId amount)
| call_buildWithdrawTx : ∀ (investor token : string) (amount : Z),
    web_called (λ X, buildWithdrawTx X investor token amount)
| call_buildRequestWithdrawalTx : ∀ (investor token : string) (shares : Z),
    web_called (λ X, buildRequestWithdrawalTx X investor token shares)
| call_buildCancelWithdrawalRequestTx : ∀ (investor token : string),
    web_called (λ X, buildCancelWithdrawalRequestTx X investor token)
| call_buildDrainWithdrawalQueueTx : ∀ (caller token : string),
    web_called (λ X, buildDrainWithdrawalQueueTx X caller token)
| call_buildSetYieldTx : ∀ (admin : string) (yieldBps : Z),
    web_called (λ X, buildSetYieldTx X admin yieldBps)
| call_getCurrentRate : ∀ (token : string), web_called (λ X, getCurrentRate X token)
| call_getRateModelConfig : ∀ (token : string), web_called (λ X, getRateModelConfig X token)
| call_getRateHistory : ∀ (token : string) (limit : Z), web_called (λ X, getRateHistory X token limit)
| call_previewRateAtUtilization : ∀ (token : string) (utilizationBps : Z),
    web_called (λ X, previewRateAtUtilization X token utilizationBps)
| call_buildProposeRateModelTx : ∀ (admin token : string) (config : RateModelConfig),
    web_called (λ X, buildProposeRateModelTx X admin token config)
| call_buildExecuteRateModelTx : ∀ (caller token : string),
    web_called (λ X, buildExecuteRateModelTx X caller token)
| call_buildCancelRateModelTx : ∀ (admin token : string),
    web_called (λ X, buildCancelRateModelTx X admin token)
| call_buildSetFactoringFeeTx : ∀ (admin : string) (factoringFeeBps : Z),
    web_called (λ X, buildSetFactoringFeeTx X admin factoringFeeBps)
| call_getKycRequired : web_called (λ X, getKycRequired X)
| call_getInvestorKyc : ∀ (investor : string), web_called (λ X, getInvestorKyc X investor)
| call_buildSetKycRequiredTx : ∀ (admin : string) (required : bool),
    web_called (λ X, buildSetKycRequiredTx X admin required)
| call_buildSetInvestorKycTx : ∀ (admin investor : string) (approved : bool),
    web_called (λ X, buildSetInvestorKycTx X admin investor approved)
| call_getExchangeRate : ∀ (token : string), web_called (λ X, getExchangeRate X token)
| call_buildSetExchangeRateTx : ∀ (admin token : string) (rateBps : Z),
    web_called (λ X, buildSetExchangeRateTx X admin token rateBps)
| call_getCollateralConfig : web_called (λ X, getCollateralConfig X)
| call_getCollateralDeposit : ∀ (invoiceId : Z), web_called (λ X, getCollateralDeposit X invoiceId)
| call_buildDepositCollateralTx : ∀ (invoiceId : Z) (depositor token : string) (amount : Z),
    web_called (λ X, buildDepositCollateralTx X invoiceId depositor token amount)
| call_buildTopUpCollateralTx : ∀ (invoiceId : Z) (depositor token : string) (amount : Z),
    web_called (λ X, buildTopUpCollateralTx X invoiceId depositor token amount)
| call_getShareBalance : ∀ (shareTokenId address : string),
    web_called (λ X, getShareBalance X shareTokenId address)
| call_getInsuranceContractLink : web_called (λ X, getInsuranceContractLink X)
| call_buildSetInsuranceContractTx : ∀ (admin insuranceContract : string),
    web_called (λ X, buildSetInsuranceContractTx X admin insuranceContract).

(** Those that the contract has not, or takes other arguments for. *)
Inductive web_lost {W : Type} : ∀ {A : Type}, (Chain W → M (Rpc (W := W)) A) → Prop :=
| lost_getTokenDepositCap : ∀ (token : string), web_lost (λ X, getTokenDepositCap X token)
| lost_getInvestorPosition : ∀ (investor token : string),
    web_lost (λ X, getInvestorPosition X investor token)
| lost_buildDepositTx : ∀ (investor token : string) (amount : Z),
    web_lost (λ X, buildDepositTx X investor token amount).

(** The readers: the address they simulate from, and what they make of an answer. *)
Inductive web_reads {W : Type} : ∀ {A : Type}, (Chain W → M (Rpc (W := W)) A) → string → (jsval → A) → Prop :=
| read_getPoolConfig : web_reads (λ X, getPoolConfig X) PLACEHOLDER (decoded getPoolConfig_fields)
| read_getWithdrawalQueue : ∀ (token : string),
    web_reads (λ X, getWithdrawalQueue X token) PLACEHOLDER (decoded_all getWithdrawalQueue_fields)
| read_getAcceptedTokens : web_reads (λ X, getAcceptedTokens X) PLACEHOLDER id
| read_getAssetPrice : ∀ (token : string), web_reads (λ X, getAssetPrice X token) PLACEHOLDER int_of
| read_getPoolTokenTotals : ∀ (token : string),
    web_reads (λ X, getPoolTokenTotals X token) PLACEHOLDER (decoded getPoolTokenTotals_fields)
| read_getPoolBalance : ∀ (token : string), web_reads (λ X, getPoolBalance X token) PLACEHOLDER int_of
| read_getProtocolRevenue : ∀ (token : string),
    web_reads (λ X, getProtocolRevenue X token) PLACEHOLDER int_of
| read_getCoFundingRound : ∀ (invoiceId : Z),
    web_reads (λ X, getCoFundingRound X invoiceId) PLACEHOLDER (decoded_opt coFundingRoundFromScVal)
| read_listCoFundingRounds : web_reads (λ X, listCoFundingRounds X) PLACEHOLDER decoded_numbers
| read_getInvestorCoFundPositions : ∀ (investor : string),
    web_reads (λ X, getInvestorCoFundPositions X investor) PLACEHOLDER positions_of
| read_getCoFundShare : ∀ (invoiceId : Z) (investor : string),
    web_reads (λ X, getCoFundShare X invoiceId investor) PLACEHOLDER (λ v, num_of_Z (int_of v))
| read_getKycRequired : web_reads (λ X, getKycRequired X) PLACEHOLDER truthy
| read_getInvestorKyc : ∀ (investor : string), web_reads (λ X, getInvestorKyc X investor) PLACEHOLDER truthy
| read_getExchangeRate : ∀ (token : string),
    web_reads (λ X, getExchangeRate X token) PLACEHOLDER (λ v, num_of_Z (int_of v))
| read_getCollateralConfig : web_reads (λ X, getCollateralConfig X) PLACEHOLDER (decoded getCollateralConfig_fields)
| read_getCollateralDeposit : ∀ (invoiceId : Z),
    web_reads (λ X, getCollateralDeposit X invoiceId) PLACEHOLDER (decoded_opt getCollateralDeposit_fields)
| read_getInsuranceContractLink : web_reads (λ X, getInsuranceContractLink X) PLACEHOLDER (λ v, if truthy v then Some v else None).

(** ** They keep to the interfaces *)

Lemma web_pool_conforms {W A} (op : Chain W → M (Rpc (W := W)) A) : web_called op → conforming op.
Proof. destruct 1; by web_calls. Qed.

Lemma web_pool_lost {W A} (op : Chain W → M (Rpc (W := W)) A) : web_lost op → refused op.
Proof. destruct 1; by web_calls. Qed.

Lemma web_pool_answered {W A} (op : Chain W → M (Rpc (W := W)) A) source mean :
  web_reads op source mean → answered op source mean.
Proof. destruct 1; by web_answers. Qed.
