(* ===== verification/WebMarket.v ===== *)
(** * contracts.ts: the secondary market and collateral risk

    Listings and limit orders, and the functions that call the auction contract. *)
From S2P Require Import Prelude.
From S2P Require Import JsValue.
From S2P Require Import JsNumber.
From S2P Require Import Sdk.
From S2P Require Import Abi.
From S2P Require Import ContractAbi.
From S2P Require Import RpcPool.
From S2P Require Import Stellar.
From S2P Require Import WebAbi.
#[local] Open Scope string_scope.
#[local] Open Scope list_scope.
#[local] Open Scope Z_scope.

Inductive ListingKind := ListingKind_CoFunding | ListingKind_SingleFunded.
Definition ListingKind_name (v : ListingKind) : string :=
  match v with ListingKind_CoFunding => "CoFunding" | ListingKind_SingleFunded => "SingleFunded" end.
Inductive OrderSide := OrderSide_Bid | OrderSide_Ask.
Definition OrderSide_name (v : OrderSide) : string :=
  match v with OrderSide_Bid => "Bid" | OrderSide_Ask => "Ask" end.

Definition listingKindToScVal (kind : ListingKind) : ScArg := ArgVec [ArgSymbol (ListingKind_name kind)].

Definition listingFromRaw : list Field :=
  [field "listingId" KNum "listing_id"; field "invoiceId" KNum "invoice_id";
   field "seller" KRaw "seller"; field "token" KRaw "token"; field "kind" KTag "kind";
   field "amountOrBps" KBig "amount_or_bps"; field "price" KBig "price";
   field "createdAt" KNum "created_at"; field "status" KTag "status"].

Definition orderSideToScVal (side : OrderSide) : ScArg := ArgVec [ArgSymbol (OrderSide_name side)].

Definition orderFromRaw : list Field :=
  [field "orderId" KNum "order_id"; field "invoiceId" KNum "invoice_id"; field "owner" KRaw "owner";
   field "token" KRaw "token"; field "kind" KTag "kind"; field "side" KTag "side";
   field "price" KBig "price"; field "amountOrBps" KBig "amount_or_bps";
   field "remaining" KBig "remaining"; field "createdAt" KNum "created_at";
   field "expiresAt" KNum "expires_at"; field "status" KTag "status"].

Definition placeOrderRequestToScVal (invoiceId : Z) (kind : ListingKind) (side : OrderSide)
    (amountOrBps price : Z) (expiresAt : option Z) : ScArg :=
  ArgMap [("amount_or_bps", ArgU64 amountOrBps); ("expires_at", ArgU64 (default 0 expiresAt));
          ("invoice_id", ArgU64 invoiceId); ("kind", listingKindToScVal kind);
          ("price", ArgI128 price); ("side", orderSideToScVal side)].

Lemma web_listing_kind_accepted v : accepts SecondaryMarket_ListingKind (listingKindToScVal v) = true.
Proof. by destruct v. Qed.
#[export] Hint Resolve web_listing_kind_accepted : accepts.

Lemma web_place_order_accepted invoiceId kind side amountOrBps price expiresAt :
  accepts SecondaryMarket_PlaceOrderRequest
    (placeOrderRequestToScVal invoiceId kind side amountOrBps price expiresAt) = true.
Proof. by destruct kind, side. Qed.
#[export] Hint Resolve web_place_order_accepted : accepts.

(** [const [bids, asks] = raw], and [(bids ?? []).map((id) => Number(id))]. *)
Definition book_ids (raw : jsval) : result (list number * list number) :=
  match raw with
  | JArr l =>
      bids ← numbers (arr_get l 0);
      asks ← numbers (arr_get l 1);
      Ok (bids, asks)
  | _ => Ok ([], [])
  end.

(** The contract's books hold levels, not identifiers: every id is [NaN]. *)
Definition book_nans (v : jsval) : list number * list number :=
  (map (λ _, NaN) (elements_of (arr_get (elements_of v) 0)), map (λ _, NaN) (elements_of (arr_get (elements_of v) 1))).

Lemma levels_are_nan v : native (TVec SecondaryMarket_OrderBookLevel) v = true →
  numbers v = Ok (map (λ _, NaN) (elements_of v)).
Proof.
  destruct v as [| | | | | |l|]; try done. cbn [native]. intros Hn. unfold numbers, array_or_empty.
  cbn [js_coalesce nullish array mbind result_bind elements_of]. f_equal. apply map_ext_in. intros x Hx.
  rewrite forallb_forall in Hn. apply Hn in Hx. by destruct (native_struct _ _ Hx) as [o ->].
Qed.

Lemma reads_book_ids v :
  native (TTuple [TVec SecondaryMarket_OrderBookLevel; TVec SecondaryMarket_OrderBookLevel]) v = true →
  book_ids v = Ok (book_nans v).
Proof.
  destruct v as [| | | | | |[|bids [|asks []]]|]; try done; try (cbn; rewrite ?andb_false_r; done).
  intros [Hb [Ha _]%andb_prop]%andb_prop. unfold book_ids, book_nans.
  change (elements_of (JArr [bids; asks])) with [bids; asks]. cbn [arr_get].
  change (arr_get [bids; asks] 0) with bids. change (arr_get [bids; asks] 1) with asks.
  rewrite (levels_are_nan bids), (levels_are_nan asks) by done. done.
Qed.
#[export] Hint Resolve reads_book_ids : reads.

(** ** The functions *)

Section web.
Context {W : Type} (X : Chain W).

Definition estimateWithdrawalWait_fields : list Field :=
  [field "queuePosition" KNumOr0 "queue_position"; field "capitalAhead" KBigOr0 "capital_ahead";
   field "nearestInvoiceDueDate" KNumOr0 "nearest_invoice_due_date";
   field "estimatedWaitSecs" KNumOr0 "estimated_wait_secs"].

Definition estimateWithdrawalWait (investor token : string)
    : M (Rpc (W := W)) (option (list (string * value))) :=
  query X (Of SecondaryMarket) "estimate_withdrawal_wait"
    [ArgAddress investor; ArgAddress token]
    PLACEHOLDER (decode_opt estimateWithdrawalWait_fields).

Definition getLiquidityForecast_fields : list Field :=
  [field "day" KNumOr0 "day"; field "projectedAvailable" KBigOr0 "projected_available"].

Definition getLiquidityForecast (token : string) (horizonDays : Z)
    : M (Rpc (W := W)) (list (list (string * value))) :=
  query X (Of SecondaryMarket) "get_liquidity_forecast"
    [ArgAddress token; ArgU32 horizonDays]
    PLACEHOLDER (decode_list getLiquidityForecast_fields).

Definition buildListPositionTx (seller : string) (invoiceId : Z) (kind : ListingKind)
    (amountOrBps price : Z) : M (Rpc (W := W)) string :=
  build X seller (Of SecondaryMarket) "list_position"
    [ArgAddress seller; ArgU64 invoiceId; listingKindToScVal kind; ArgU64 amountOrBps; ArgI128 price].

Definition buildCancelListingTx (seller : string) (listingId : Z) : M (Rpc (W := W)) string :=
  build X seller (Of SecondaryMarket) "cancel_listing" [ArgAddress seller; ArgU64 listingId].

Definition buildBuyListingTx (buyer : string) (listingId : Z) : M (Rpc (W := W)) string :=
  build X buyer (Of SecondaryMarket) "buy_listing" [ArgAddress buyer; ArgU64 listingId].

Definition getListing (listingId : Z) : M (Rpc (W := W)) (option (list (string * value))) :=
  query X (Of SecondaryMarket) "get_listing"
    [ArgU64 listingId]
    PLACEHOLDER (decode_opt listingFromRaw).

Definition listListingsForInvoice (invoiceId : Z) : M (Rpc (W := W)) (list number) :=
  query X (Of SecondaryMarket) "list_listings_for_invoice" [ArgU64 invoiceId] PLACEHOLDER numbers_list.

Definition listListingsForInvestor (seller : string) : M (Rpc (W := W)) (list number) :=
  query X (Of SecondaryMarket) "list_listings_for_investor"
    [ArgAddress seller]
    PLACEHOLDER numbers_list.

Definition buildPlaceOrderTx (owner : string) (invoiceId : Z) (kind : ListingKind)
    (side : OrderSide) (amountOrBps price : Z) (expiresAt : option Z) : M (Rpc (W := W)) string :=
  build X owner (Of SecondaryMarket) "place_order"
    [ArgAddress owner; placeOrderRequestToScVal invoiceId kind side amountOrBps price expiresAt].

Definition buildCancelOrderTx (owner : string) (orderId : Z) : M (Rpc (W := W)) string :=
  build X owner (Of SecondaryMarket) "cancel_order" [ArgAddress owner; ArgU64 orderId].

Definition buildExpireOrderTx (caller : string) (orderId : Z) : M (Rpc (W := W)) string :=
  build X caller (Of SecondaryMarket) "expire_order" [ArgU64 orderId].

Definition getOrder (orderId : Z) : M (Rpc (W := W)) (option (list (string * value))) :=
  query X (Of SecondaryMarket) "get_order" [ArgU64 orderId] PLACEHOLDER (decode_opt orderFromRaw).

Definition getOrderBook (invoiceId : Z) (kind : ListingKind) : M (Rpc (W := W)) (list number * list number) :=
  query X (Of SecondaryMarket) "get_order_book" [ArgU64 invoiceId; listingKindToScVal kind] PLACEHOLDER book_ids.

Definition listOrdersForOwner (owner : string) : M (Rpc (W := W)) (list number) :=
  query X (Of SecondaryMarket) "list_orders_for_owner" [ArgAddress owner] PLACEHOLDER numbers_list.

Definition getAtRiskSince (invoiceId : Z) : M (Rpc (W := W)) (option number) :=
  query X (Of Auction) "get_at_risk_since" [ArgU64 invoiceId] PLACEHOLDER as_number_opt.

Definition getLiveCollateralRatio (invoiceId : Z) : M (Rpc (W := W)) number :=
  query X (Of Auction) "get_live_collateral_ratio" [ArgU64 invoiceId] PLACEHOLDER as_number.

Definition getCollateralRiskConfig_fields : list Field :=
  [field "dangerBps" KNum "danger_bps"; field "gracePeriodSecs" KNum "grace_period_secs"].

Definition getCollateralRiskConfig : M (Rpc (W := W)) (list (string * value)) :=
  query X (Of Auction) "get_collateral_risk_config"
    []
    PLACEHOLDER (decode getCollateralRiskConfig_fields).

Definition buildCheckCollateralRiskTx (invoiceId : Z) (caller : string) : M (Rpc (W := W)) string :=
  build X caller (Of Auction) "check_collateral_risk" [ArgAddress caller; ArgU64 invoiceId].

Definition buildLiquidateCollateralTx (invoiceId : Z) (caller : string) : M (Rpc (W := W)) string :=
  build X caller (Of Auction) "liquidate_collateral" [ArgAddress caller; ArgU64 invoiceId].

End web.

(** ** Their calls *)

Inductive web_called {W : Type} : ∀ {A : Type}, (Chain W → M (Rpc (W := W)) A) → Prop :=
| call_estimateWithdrawalWait : ∀ (investor token : string),
    web_called (λ X, estimateWithdrawalWait X investor token)
| call_getLiquidityForecast : ∀ (token : string) (horizonDays : Z),
    web_called (λ X, getLiquidityForecast X token horizonDays)
| call_buildListPositionTx : ∀ (seller : string) (invoiceId : Z) (kind : ListingKind)
    (amountOrBps price : Z),
    web_called (λ X, buildListPositionTx X seller invoiceId kind amountOrBps price)
| call_buildCancelListingTx : ∀ (seller : string) (listingId : Z),
    web_called (λ X, buildCancelListingTx X seller listingId)
| call_buildBuyListingTx : ∀ (buyer : string) (listingId : Z),
    web_called (λ X, buildBuyListingTx X buyer listingId)
| call_getListing : ∀ (listingId : Z), web_called (λ X, getListing X listingId)
| call_listListingsForInvoice : ∀ (invoiceId : Z), web_called (λ X, listListingsForInvoice X invoiceId)
| call_listListingsForInvestor : ∀ (seller : string), web_called (λ X, listListingsForInvestor X seller)
| call_buildPlaceOrderTx : ∀ (owner : string) (invoiceId : Z) (kind : ListingKind) (side : OrderSide)
    (amountOrBps price : Z) (expiresAt : option Z),
    web_called (λ X, buildPlaceOrderTx X owner invoiceId kind side amountOrBps price expiresAt)
| call_buildCancelOrderTx : ∀ (owner : string) (orderId : Z),
    web_called (λ X, buildCancelOrderTx X owner orderId)
| call_buildExpireOrderTx : ∀ (caller : string) (orderId : Z),
    web_called (λ X, buildExpireOrderTx X caller orderId)
| call_getOrder : ∀ (orderId : Z), web_called (λ X, getOrder X orderId)
| call_getOrderBook : ∀ (invoiceId : Z) (kind : ListingKind),
    web_called (λ X, getOrderBook X invoiceId kind)
| call_listOrdersForOwner : ∀ (owner : string), web_called (λ X, listOrdersForOwner X owner)
| call_getAtRiskSince : ∀ (invoiceId : Z), web_called (λ X, getAtRiskSince X invoiceId)
| call_getLiveCollateralRatio : ∀ (invoiceId : Z), web_called (λ X, getLiveCollateralRatio X invoiceId)
| call_getCollateralRiskConfig : web_called (λ X, getCollateralRiskConfig X)
| call_buildCheckCollateralRiskTx : ∀ (invoiceId : Z) (caller : string),
    web_called (λ X, buildCheckCollateralRiskTx X invoiceId caller)
| call_buildLiquidateCollateralTx : ∀ (invoiceId : Z) (caller : string),
    web_called (λ X, buildLiquidateCollateralTx X invoiceId caller).

(** The readers: the address they simulate from, and what they make of an answer. *)
Inductive web_reads {W : Type} : ∀ {A : Type}, (Chain W → M (Rpc (W := W)) A) → string → (jsval → A) → Prop :=
| read_estimateWithdrawalWait : ∀ (investor token : string),
    web_reads (λ X, estimateWithdrawalWait X investor token)
      PLACEHOLDER (decoded_opt estimateWithdrawalWait_fields)
| read_getLiquidityForecast : ∀ (token : string) (horizonDays : Z),
    web_reads (λ X, getLiquidityForecast X token horizonDays)
      PLACEHOLDER (decoded_all getLiquidityForecast_fields)
| read_getListing : ∀ (listingId : Z),
    web_reads (λ X, getListing X listingId) PLACEHOLDER (decoded_opt listingFromRaw)
| read_listListingsForInvoice : ∀ (invoiceId : Z),
    web_reads (λ X, listListingsForInvoice X invoiceId) PLACEHOLDER decoded_numbers
| read_listListingsForInvestor : ∀ (seller : string),
    web_reads (λ X, listListingsForInvestor X seller) PLACEHOLDER decoded_numbers
| read_getOrder : ∀ (orderId : Z),
    web_reads (λ X, getOrder X orderId) PLACEHOLDER (decoded_opt orderFromRaw)
| read_getOrderBook : ∀ (invoiceId : Z) (kind : ListingKind),
    web_reads (λ X, getOrderBook X invoiceId kind) PLACEHOLDER book_nans
| read_listOrdersForOwner : ∀ (owner : string),
    web_reads (λ X, listOrdersForOwner X owner) PLACEHOLDER decoded_numbers
| read_getAtRiskSince : ∀ (invoiceId : Z),
    web_reads (λ X, getAtRiskSince X invoiceId)
      PLACEHOLDER (λ v, if nullish v then None else Some (num_of_Z (int_of v)))
| read_getLiveCollateralRatio : ∀ (invoiceId : Z),
    web_reads (λ X, getLiveCollateralRatio X invoiceId) PLACEHOLDER (λ v, num_of_Z (int_of v))
| read_getCollateralRiskConfig : web_reads (λ X, getCollateralRiskConfig X) PLACEHOLDER (decoded getCollateralRiskConfig_fields).

(** ** They keep to the interfaces *)

Lemma web_market_conforms {W A} (op : Chain W → M (Rpc (W := W)) A) : web_called op → conforming op.
Proof. destruct 1; by web_calls. Qed.

Lemma web_market_answered {W A} (op : Chain W → M (Rpc (W := W)) A) source mean :
  web_reads op source mean → answered op source mean.
Proof. destruct 1; by web_answers. Qed.
