(* ===== verification/WebContracts.v ===== *)
(** * frontend/lib/contracts.ts: credit scores, governance, compliance and arbitration, a Module each *)
From S2P Require Import Prelude.
From S2P Require Import JsValue.
From S2P Require Import JsNumber.
From S2P Require Import Sdk.
From S2P Require Import Abi.
From S2P Require Import ContractAbi.
From S2P Require Import RpcPool.
From S2P Require Import Stellar.
From S2P Require Import WebAbi.
From Stdlib Require Import Ascii.
#[local] Open Scope string_scope.
#[local] Open Scope list_scope.
#[local] Open Scope Z_scope.

(** ** contracts.ts: credit scores and attestations

    The hypothetical attestations of [simulateScoreWithAttestations] are pairs of a
    weight and a contribution. *)
Module WebCredit.
Inductive AttestorType := AttestorType_BusinessRegistry | AttestorType_CreditBureau | AttestorType_ExternalProtocol | AttestorType_Manual.
Definition AttestorType_name (v : AttestorType) : string :=
  match v with AttestorType_BusinessRegistry => "BusinessRegistry" | AttestorType_CreditBureau => "CreditBureau" | AttestorType_ExternalProtocol => "ExternalProtocol" | AttestorType_Manual => "Manual" end.

Definition attestorTypeToScVal (variant : AttestorType) : ScArg := ArgVec [ArgSymbol (AttestorType_name variant)].

Definition attestationFromScVal : list Field :=
  [field "id" KNum "id"; field "sme" KRaw "sme"; field "attestor" KRaw "attestor";
   field "attestationType" KTag "attestation_type"; field "scoreContribution" KNum "score_contribution";
   field "evidenceHash" KRaw "evidence_hash"; field "submittedAt" KNum "submitted_at";
   field "expiresAt" KNum "expires_at"; field "status" KTag "status"].

Definition attestorInfoFromScVal : list Field :=
  [field "address" KRaw "address"; field "attestorType" KTag "attestor_type";
   field "isActive" KBool "is_active"; field "weightBps" KNum "weight_bps";
   field "registeredAt" KNum "registered_at"].

Definition fullCreditScoreFromScVal : list Field :=
  [field "sme" KRaw "sme"; field "score" KNum "score"; field "totalInvoices" KNum "total_invoices";
   field "paidOnTime" KNum "paid_on_time"; field "paidLate" KNum "paid_late";
   field "defaulted" KNum "defaulted"; field "totalVolume" KBig "total_volume";
   field "averagePaymentDays" KNum "average_payment_days"; field "lastUpdated" KNum "last_updated";
   field "scoreVersion" KNum "score_version"; field "configVersion" KNum "config_version";
   field "isStale" KBool "is_stale"; field "blendedScore" KNum "blended_score";
   field "riskAdjustmentPts" KNum "risk_adjustment_pts";
   field "trendAdjustmentPts" KNum "trend_adjustment_pts"; field "finalScore" KNum "final_score"].

Lemma web_attestor_type_accepted v : accepts CreditScore_AttestorType (attestorTypeToScVal v) = true.
Proof. by destruct v. Qed.
#[export] Hint Resolve web_attestor_type_accepted : accepts.

(** [data.final_score ?? data.score] is the third field. *)
Definition credit_status_fields (finalScore : string) : list Field :=
  [field "isStale" KBool "is_stale"; field "score" KNum "score"; field "finalScore" KNum finalScore;
   field "riskAdjustmentPts" KNumOr0 "risk_adjustment_pts"; field "trendAdjustmentPts" KNumOr0 "trend_adjustment_pts"].

Definition creditStatusFromRaw (data : jsval) : result (list (string * value)) :=
  final_score ← get_prop data "final_score";
  decode (credit_status_fields (if nullish final_score then "score" else "final_score")) data.

(** ** The functions *)

Section web.
Context {W : Type} (X : Chain W).

Definition getCreditScoreStatus (sme : string) : M (Rpc (W := W)) (option (list (string * value))) :=
  when_deployed X CreditScore None
    (or_else None (query X (Of CreditScore) "get_credit_score" [ArgAddress sme] sme (some creditStatusFromRaw))).

Definition getFullCreditScore (sme : string) : M (Rpc (W := W)) (option (list (string * value))) :=
  when_deployed X CreditScore None
    (or_else None (query X (Of CreditScore) "get_credit_score"
    [ArgAddress sme]
    sme (some (decode fullCreditScoreFromScVal)))).

Definition getAttestation (id : Z) : M (Rpc (W := W)) (option (list (string * value))) :=
  query X (Of CreditScore) "get_attestation" [ArgU64 id] PLACEHOLDER (decode_opt attestationFromScVal).

Definition listSmeAttestations (sme : string) : M (Rpc (W := W)) (list (list (string * value))) :=
  query X (Of CreditScore) "list_sme_attestations"
    [ArgAddress sme]
    sme (decode_all attestationFromScVal).

Definition getAttestorInfo (address : string) : M (Rpc (W := W)) (option (list (string * value))) :=
  query X (Of CreditScore) "get_attestor_info"
    [ArgAddress address]
    address (decode_opt attestorInfoFromScVal).

Definition listActiveAttestors : M (Rpc (W := W)) (list (list (string * value))) :=
  query X (Of CreditScore) "list_active_attestors" [] PLACEHOLDER (decode_all attestorInfoFromScVal).

Definition simulateScoreWithAttestations (sme : string) (hypothetical : list (Z * Z)) : M (Rpc (W := W)) number :=
  query X (Of CreditScore) "simulate_score_with_attestations"
    [ArgAddress sme; ArgVec (map (λ h, ArgVec [ArgU32 h.1; ArgU32 h.2]) hypothetical)]
    sme as_number.

Definition buildRegisterAttestorTx (admin address : string) (attestorType : AttestorType)
    (weightBps : Z) : M (Rpc (W := W)) string :=
  build X admin (Of CreditScore) "register_attestor"
    [ArgAddress admin; ArgAddress address; attestorTypeToScVal attestorType; ArgU32 weightBps].

Definition buildDeactivateAttestorTx (admin address : string) : M (Rpc (W := W)) string :=
  build X admin (Of CreditScore) "deactivate_attestor" [ArgAddress admin; ArgAddress address].

Definition buildSubmitAttestationTx (attestor sme : string) (attestationType : AttestorType)
    (scoreContribution : Z) (evidenceHash : string) (expiresAt : Z) : M (Rpc (W := W)) string :=
  build X attestor (Of CreditScore) "submit_attestation"
    [ArgAddress attestor; ArgAddress sme; attestorTypeToScVal attestationType; ArgU32 scoreContribution;
     ArgString (JStr evidenceHash); ArgU64 expiresAt].

Definition buildDisputeAttestationTx (caller : string) (attestationId : Z) (reasonHash : string)
    : M (Rpc (W := W)) string :=
  build X caller (Of CreditScore) "dispute_attestation"
    [ArgAddress caller; ArgU64 attestationId; ArgString (JStr reasonHash)].

Definition buildResolveAttestationDisputeTx (admin : string) (attestationId : Z) (upheld : bool)
    : M (Rpc (W := W)) string :=
  build X admin (Of CreditScore) "resolve_attestation_dispute"
    [ArgAddress admin; ArgU64 attestationId; ArgBool upheld].

End web.

(** ** Their calls *)

Inductive web_called {W : Type} : ∀ {A : Type}, (Chain W → M (Rpc (W := W)) A) → Prop :=
| call_getCreditScoreStatus : ∀ (sme : string), web_called (λ X, getCreditScoreStatus X sme)
| call_getFullCreditScore : ∀ (sme : string), web_called (λ X, getFullCreditScore X sme)
| call_getAttestation : ∀ (id : Z), web_called (λ X, getAttestation X id)
| call_listSmeAttestations : ∀ (sme : string), web_called (λ X, listSmeAttestations X sme)
| call_getAttestorInfo : ∀ (address : string), web_called (λ X, getAttestorInfo X address)
| call_listActiveAttestors : web_called (λ X, listActiveAttestors X)
| call_simulateScoreWithAttestations : ∀ (sme : string) (hypothetical : list (Z * Z)),
    web_called (λ X, simulateScoreWithAttestations X sme hypothetical)
| call_buildRegisterAttestorTx : ∀ (admin address : string) (attestorType : AttestorType) (weightBps : Z),
    web_called (λ X, buildRegisterAttestorTx X admin address attestorType weightBps)
| call_buildDeactivateAttestorTx : ∀ (admin address : string),
    web_called (λ X, buildDeactivateAttestorTx X admin address)
| call_buildSubmitAttestationTx : ∀ (attestor sme : string) (attestationType : AttestorType)
    (scoreContribution : Z) (evidenceHash : string) (expiresAt : Z),
    web_called (λ X, buildSubmitAttestationTx X attestor sme attestationType scoreContribution evidenceHash expiresAt)
| call_buildDisputeAttestationTx : ∀ (caller : string) (attestationId : Z) (reasonHash : string),
    web_called (λ X, buildDisputeAttestationTx X caller attestationId reasonHash)
| call_buildResolveAttestationDisputeTx : ∀ (admin : string) (attestationId : Z) (upheld : bool),
    web_called (λ X, buildResolveAttestationDisputeTx X admin attestationId upheld).

(** The readers: the address they simulate from, and what they make of an answer. *)
Inductive web_reads {W : Type} : ∀ {A : Type}, (Chain W → M (Rpc (W := W)) A) → string → (jsval → A) → Prop :=
| read_getAttestation : ∀ (id : Z),
    web_reads (λ X, getAttestation X id) PLACEHOLDER (decoded_opt attestationFromScVal)
| read_listSmeAttestations : ∀ (sme : string),
    web_reads (λ X, listSmeAttestations X sme) sme (decoded_all attestationFromScVal)
| read_getAttestorInfo : ∀ (address : string),
    web_reads (λ X, getAttestorInfo X address) address (decoded_opt attestorInfoFromScVal)
| read_listActiveAttestors : web_reads (λ X, listActiveAttestors X) PLACEHOLDER (decoded_all attestorInfoFromScVal)
| read_simulateScoreWithAttestations : ∀ (sme : string) (hypothetical : list (Z * Z)),
    web_reads (λ X, simulateScoreWithAttestations X sme hypothetical) sme (λ v, num_of_Z (int_of v)).

(** ** They keep to the interfaces *)

Lemma web_credit_conforms {W A} (op : Chain W → M (Rpc (W := W)) A) : web_called op → conforming op.
Proof. destruct 1; by web_calls. Qed.

Lemma web_credit_answered {W A} (op : Chain W → M (Rpc (W := W)) A) source mean :
  web_reads op source mean → answered op source mean.
Proof. destruct 1; by web_answers. Qed.
End WebCredit.

(** ** contracts.ts: governance and the oracle registry *)
Module WebGovernance.
(** ** The functions *)

Section web.
Context {W : Type} (X : Chain W).

Definition getGovernanceConfig_fields : list Field :=
  [field "admin" KRaw "admin"; field "shareToken" KRaw "share_token";
   field "votingPeriodSecs" KNum "voting_period_secs"; field "quorumBps" KNum "quorum_bps";
   field "passBps" KNum "pass_bps"; field "executionDelaySecs" KNum "execution_delay_secs";
   field "minShareBalance" KBigOr0 "min_share_balance"].

Definition getGovernanceConfig : M (Rpc (W := W)) (option (list (string * value))) :=
  when_deployed X Governance None
    (or_else None (query X (Of Governance) "get_config" [] PLACEHOLDER (some (decode getGovernanceConfig_fields)))).

Definition listGovernanceProposals_fields : list Field :=
  [field "id" KNum "id"; field "proposer" KRaw "proposer"; field "description" KRaw "description";
   field "targetContract" KRaw "target_contract"; field "functionName" KString "function_name";
   field "calldata" KString "calldata"; field "votesFor" KBig "votes_for";
   field "votesAgainst" KBig "votes_against"; field "status" KRaw "status";
   field "createdAt" KNum "created_at"; field "votingEndsAt" KNum "voting_ends_at";
   field "executionDelay" KNum "execution_delay"].

Definition listGovernanceProposals : M (Rpc (W := W)) (list (list (string * value))) :=
  when_deployed X Governance []
    (query X (Of Governance) "list_proposals"
    []
    PLACEHOLDER (decode_array listGovernanceProposals_fields)).

Definition buildCreateProposalTx (proposer description targetContract functionName calldata : string)
    : M (Rpc (W := W)) string :=
  build X proposer (Of Governance) "create_proposal"
    [ArgString (JStr description); ArgAddress targetContract; ArgString (JStr functionName);
     ArgString (JStr calldata)].

Definition buildVoteProposalTx (voter : string) (proposalId : Z) (inFavor : bool)
    : M (Rpc (W := W)) string :=
  build X voter (Of Governance) "vote" [ArgU64 proposalId; ArgBool inFavor].

Definition buildExecuteProposalTx (executor : string) (proposalId : Z) : M (Rpc (W := W)) string :=
  build X executor (Of Governance) "execute_proposal" [ArgU64 proposalId].

Definition buildCancelProposalTx (cancelledBy : string) (proposalId : Z) : M (Rpc (W := W)) string :=
  build X cancelledBy (Of Governance) "cancel_proposal" [ArgU64 proposalId].

Definition getRegistryConfig_fields : list Field :=
  [field "minStake" KBig "min_stake"; field "stakeToken" KRaw "stake_token";
   field "requiredVotes" KNum "required_votes"; field "quorumBps" KNum "quorum_bps";
   field "roundDurationSecs" KNum "round_duration_secs";
   field "deregisterCooldownSecs" KNum "deregister_cooldown_secs";
   field "treasury" (KRawOr JNull) "treasury"].

Definition getRegistryConfig : M (Rpc (W := W)) (list (string * value)) :=
  query X (Of OracleRegistry) "get_registry_config" [] PLACEHOLDER (decode getRegistryConfig_fields).

Definition listActiveOracles : M (Rpc (W := W)) jsval :=
  query X (Of OracleRegistry) "list_active_oracles" [] PLACEHOLDER as_array.

Definition getOracleInfo_fields : list Field :=
  [field "address" KRaw "address"; field "stakeAmount" KBig "stake_amount";
   field "stakeToken" KRaw "stake_token"; field "isActive" KBool "is_active";
   field "totalVerifications" KNum "total_verifications"; field "totalSlashes" KNum "total_slashes";
   field "registeredAt" KNum "registered_at";
   field "deregisterRequestedAt" KNumNull "deregister_requested_at"].

Definition getOracleInfo (operator : string) : M (Rpc (W := W)) (option (list (string * value))) :=
  query X (Of OracleRegistry) "get_oracle_info"
    [ArgAddress operator]
    PLACEHOLDER (decode_opt getOracleInfo_fields).

Definition getVerificationRound_fields : list Field :=
  [field "invoiceId" KNum "invoice_id"; field "requiredVotes" KNum "required_votes";
   field "totalRegisteredOracles" KNum "total_registered_oracles"; field "weightFor" KBig "weight_for";
   field "weightAgainst" KBig "weight_against"; field "totalStakeSnapshot" KBig "total_stake_snapshot";
   field "quorumBps" KNum "quorum_bps"; field "status" KRaw "status"; field "openedAt" KNum "opened_at";
   field "deadline" KNum "deadline"; field "oracleHash" KRaw "oracle_hash"].

Definition getVerificationRound (invoiceId : Z) : M (Rpc (W := W)) (option (list (string * value))) :=
  query X (Of OracleRegistry) "get_verification_round"
    [ArgU64 invoiceId]
    PLACEHOLDER (decode_opt getVerificationRound_fields).

Definition buildAdminResolveRoundTx (admin : string) (invoiceId : Z) (approved : bool) (reason : string)
    : M (Rpc (W := W)) string :=
  build X admin (Of OracleRegistry) "admin_resolve_round"
    [ArgAddress admin; ArgU64 invoiceId; ArgBool approved; ArgString (JStr reason)].

Definition buildSlashOracleTx (admin operator : string) (bps : Z) : M (Rpc (W := W)) string :=
  build X admin (Of OracleRegistry) "slash_oracle" [ArgAddress admin; ArgAddress operator; ArgU32 bps].

End web.

(** ** Their calls *)

Inductive web_called {W : Type} : ∀ {A : Type}, (Chain W → M (Rpc (W := W)) A) → Prop :=
| call_getGovernanceConfig : web_called (λ X, getGovernanceConfig X)
| call_listGovernanceProposals : web_called (λ X, listGovernanceProposals X)
| call_buildExecuteProposalTx : ∀ (executor : string) (proposalId : Z),
    web_called (λ X, buildExecuteProposalTx X executor proposalId)
| call_getRegistryConfig : web_called (λ X, getRegistryConfig X)
| call_listActiveOracles : web_called (λ X, listActiveOracles X)
| call_getOracleInfo : ∀ (operator : string), web_called (λ X, getOracleInfo X operator)
| call_getVerificationRound : ∀ (invoiceId : Z), web_called (λ X, getVerificationRound X invoiceId)
| call_buildAdminResolveRoundTx : ∀ (admin : string) (invoiceId : Z) (approved : bool) (reason : string),
    web_called (λ X, buildAdminResolveRoundTx X admin invoiceId approved reason).

(** Those that the contract has not, or takes other arguments for. *)
Inductive web_lost {W : Type} : ∀ {A : Type}, (Chain W → M (Rpc (W := W)) A) → Prop :=
| lost_buildCreateProposalTx : ∀ (proposer description targetContract functionName calldata : string),
    web_lost (λ X, buildCreateProposalTx X proposer description targetContract functionName calldata)
| lost_buildVoteProposalTx : ∀ (voter : string) (proposalId : Z) (inFavor : bool),
    web_lost (λ X, buildVoteProposalTx X voter proposalId inFavor)
| lost_buildCancelProposalTx : ∀ (cancelledBy : string) (proposalId : Z),
    web_lost (λ X, buildCancelProposalTx X cancelledBy proposalId)
| lost_buildSlashOracleTx : ∀ (admin operator : string) (bps : Z),
    web_lost (λ X, buildSlashOracleTx X admin operator bps).

(** The readers: the address they simulate from, and what they make of an answer. *)
Inductive web_reads {W : Type} : ∀ {A : Type}, (Chain W → M (Rpc (W := W)) A) → string → (jsval → A) → Prop :=
| read_getRegistryConfig : web_reads (λ X, getRegistryConfig X) PLACEHOLDER (decoded getRegistryConfig_fields)
| read_listActiveOracles : web_reads (λ X, listActiveOracles X) PLACEHOLDER id
| read_getOracleInfo : ∀ (operator : string),
    web_reads (λ X, getOracleInfo X operator) PLACEHOLDER (decoded_opt getOracleInfo_fields)
| read_getVerificationRound : ∀ (invoiceId : Z),
    web_reads (λ X, getVerificationRound X invoiceId) PLACEHOLDER (decoded_opt getVerificationRound_fields).

(** ** They keep to the interfaces *)

Lemma web_governance_conforms {W A} (op : Chain W → M (Rpc (W := W)) A) : web_called op → conforming op.
Proof. destruct 1; by web_calls. Qed.

Lemma web_governance_lost {W A} (op : Chain W → M (Rpc (W := W)) A) : web_lost op → refused op.
Proof. destruct 1; by web_calls. Qed.

Lemma web_governance_answered {W A} (op : Chain W → M (Rpc (W := W)) A) source mean :
  web_reads op source mean → answered op source mean.
Proof. destruct 1; by web_answers. Qed.
End WebGovernance.

(** ** contracts.ts: the compliance registry and referrals

    The registry's functions need its address in the environment. The record of an
    address that the registry leaves out names the address asked for. *)
Module WebCompliance.
Inductive ComplianceStatusUi := ComplianceStatusUi_Unscreened | ComplianceStatusUi_Cleared | ComplianceStatusUi_Flagged | ComplianceStatusUi_Blocked | ComplianceStatusUi_PendingReview.
Definition ComplianceStatusUi_name (v : ComplianceStatusUi) : string :=
  match v with ComplianceStatusUi_Unscreened => "Unscreened" | ComplianceStatusUi_Cleared => "Cleared" | ComplianceStatusUi_Flagged => "Flagged" | ComplianceStatusUi_Blocked => "Blocked" | ComplianceStatusUi_PendingReview => "PendingReview" end.
Inductive RiskTierUi := RiskTierUi_Low | RiskTierUi_Medium | RiskTierUi_High.
Definition RiskTierUi_name (v : RiskTierUi) : string :=
  match v with RiskTierUi_Low => "Low" | RiskTierUi_Medium => "Medium" | RiskTierUi_High => "High" end.

Definition unitEnumToScVal (variant : string) : ScArg := ArgVec [ArgSymbol variant].

Lemma web_status_accepted v : accepts Compliance_ComplianceStatus (unitEnumToScVal (ComplianceStatusUi_name v)) = true.
Proof. by destruct v. Qed.
Lemma web_tier_accepted v : accepts Compliance_RiskTier (unitEnumToScVal (RiskTierUi_name v)) = true.
Proof. by destruct v. Qed.
#[export] Hint Resolve web_status_accepted web_tier_accepted : accepts.

(** The fields behind the address. *)
Definition screening_fields : list Field :=
  [field "status" (KRawOr (JStr "Unscreened")) "status"; field "reasonCode" KNumOr0 "reason_code";
   field "riskTier" (KRawOr (JStr "Low")) "risk_tier"; field "screenedAt" KNumOr0 "screened_at";
   field "screenedBy" KStringOr "screened_by"; field "expiresAt" KNumOr0 "expires_at";
   field "notesHash" KStringOr "notes_hash"].

Definition recordFromRaw (address : string) (raw : jsval) : result (option (list (string * value))) :=
  if truthy raw then
    a ← get_prop raw "address";
    rest ← decode screening_fields raw;
    Ok (Some (("address", VString (js_String (js_coalesce a (JStr address)))) :: rest))
  else Ok None.

Definition historyFromRaw (address : string) (raw : jsval) : result (list (list (string * value))) :=
  l ← decode_all screening_fields raw;
  Ok (map (cons ("address", VString address)) l).

(** ** The functions *)

Section web.
Context {W : Type} (X : Chain W).

Definition getComplianceIsCleared (address : string) : M (Rpc (W := W)) bool :=
  _ ← lift_result (requireComplianceContractId X);
  query X (Of Compliance) "is_cleared" [ArgAddress address] PLACEHOLDER as_boolean.

Definition getComplianceRecord (address : string) : M (Rpc (W := W)) (option (list (string * value))) :=
  _ ← lift_result (requireComplianceContractId X);
  query X (Of Compliance) "get_compliance_record" [ArgAddress address] PLACEHOLDER (recordFromRaw address).

Definition getComplianceHistory (address : string) : M (Rpc (W := W)) (list (list (string * value))) :=
  _ ← lift_result (requireComplianceContractId X);
  query X (Of Compliance) "get_screening_history" [ArgAddress address] PLACEHOLDER (historyFromRaw address).

Definition listComplianceFlagged : M (Rpc (W := W)) jsval :=
  _ ← lift_result (requireComplianceContractId X);
  query X (Of Compliance) "list_flagged" [] PLACEHOLDER as_array.

Definition listCompliancePendingReview : M (Rpc (W := W)) jsval :=
  _ ← lift_result (requireComplianceContractId X);
  query X (Of Compliance) "list_pending_review" [] PLACEHOLDER as_array.

Definition buildSubmitScreeningResultTx (screener address : string) (status : ComplianceStatusUi)
    (reasonCode : Z) (riskTier : RiskTierUi) (expiresAt : Z) (notesHash : string) : M (Rpc (W := W)) string :=
  prepare X simulation_failed (λ _, requireComplianceContractId X) screener (Of Compliance) "submit_screening_result"
    [ArgAddress screener; ArgAddress address; unitEnumToScVal (ComplianceStatusUi_name status);
     ArgU32 reasonCode; unitEnumToScVal (RiskTierUi_name riskTier); ArgU64 expiresAt;
     ArgString (JStr notesHash)].

(** [fetch] of the compliance service with the token, if there is one: whether the
    response was OK and its body. Every error is an empty list. *)
Definition fetchComplianceServiceFlags (fetch : string → list (string * string) → M W (bool * jsval))
    (base token : string) : M W jsval :=
  try_catch
    ('(ok, body) ← fetch (base +:+ "/flags") (if String.eqb token "" then [] else [("x-admin-token", token)]);
     if (ok : bool) then alerts ← lift_result (get_prop body "alerts"); mret (js_coalesce alerts (JArr []))
     else mret (JArr []))
    (λ _, mret (JArr [])).

Definition getReferrer (referee : string) : M (Rpc (W := W)) (option jsval) :=
  query X (Of Referral) "get_referrer" [ArgAddress referee] PLACEHOLDER as_raw_opt.

Definition getReferralStats_fields : list Field :=
  [field "referrer" KRaw "referrer"; field "referralCount" KNumOr0 "referral_count"].

Definition getReferralStats (referrer : string) : M (Rpc (W := W)) (list (string * value)) :=
  query X (Of Referral) "get_stats" [ArgAddress referrer] PLACEHOLDER (decode getReferralStats_fields).

Definition buildRegisterReferralTx (referee referrer : string) : M (Rpc (W := W)) string :=
  build X referee (Of Referral) "register" [ArgAddress referee; ArgAddress referrer].

End web.

(** ** Their calls *)

Inductive web_called {W : Type} : ∀ {A : Type}, (Chain W → M (Rpc (W := W)) A) → Prop :=
| call_getComplianceIsCleared : ∀ (address : string), web_called (λ X, getComplianceIsCleared X address)
| call_getComplianceRecord : ∀ (address : string), web_called (λ X, getComplianceRecord X address)
| call_getComplianceHistory : ∀ (address : string), web_called (λ X, getComplianceHistory X address)
| call_listComplianceFlagged : web_called (λ X, listComplianceFlagged X)
| call_listCompliancePendingReview : web_called (λ X, listCompliancePendingReview X)
| call_buildSubmitScreeningResultTx : ∀ (screener address : string) (status : ComplianceStatusUi)
    (reasonCode : Z) (riskTier : RiskTierUi) (expiresAt : Z) (notesHash : string),
    web_called (λ X, buildSubmitScreeningResultTx X screener address status reasonCode riskTier expiresAt notesHash)
| call_getReferrer : ∀ (referee : string), web_called (λ X, getReferrer X referee)
| call_getReferralStats : ∀ (referrer : string), web_called (λ X, getReferralStats X referrer)
| call_buildRegisterReferralTx : ∀ (referee referrer : string),
    web_called (λ X, buildRegisterReferralTx X referee referrer).

(** The readers: the address they simulate from, and what they make of an answer. *)
Inductive web_reads {W : Type} : ∀ {A : Type}, (Chain W → M (Rpc (W := W)) A) → string → (jsval → A) → Prop :=
| read_getReferrer : ∀ (referee : string),
    web_reads (λ X, getReferrer X referee) PLACEHOLDER (λ v, if truthy v then Some v else None)
| read_getReferralStats : ∀ (referrer : string),
    web_reads (λ X, getReferralStats X referrer) PLACEHOLDER (decoded getReferralStats_fields).

(** ** They keep to the interfaces *)

Lemma web_compliance_conforms {W A} (op : Chain W → M (Rpc (W := W)) A) : web_called op → conforming op.
Proof. destruct 1; by web_calls. Qed.

Lemma web_compliance_answered {W A} (op : Chain W → M (Rpc (W := W)) A) source mean :
  web_reads op source mean → answered op source mean.
Proof. destruct 1; by web_answers. Qed.
End WebCompliance.

(** ** contracts.ts: arbitration

    SHA-256 and the source of random bytes are arguments of the definitions that
    use them. A dispute is raised with the invoice contract (WebInvoice.v). *)
Module WebArbitration.
Inductive Resolution := Resolution_InFavorOfSME | Resolution_InFavorOfDebtor.
Definition Resolution_name (v : Resolution) : string :=
  match v with Resolution_InFavorOfSME => "InFavorOfSME" | Resolution_InFavorOfDebtor => "InFavorOfDebtor" end.

Definition decodeArbitrationCase : list Field :=
  [field "id" KNum "id"; field "invoiceId" KNum "invoice_id"; field "claimant" KRaw "claimant";
   field "respondent" KRaw "respondent"; field "amount" KBig "amount";
   field "openedAt" KNum "opened_at"; field "evidenceDeadline" KNum "evidence_deadline";
   field "commitDeadline" KNum "commit_deadline"; field "revealDeadline" KNum "reveal_deadline";
   field "jurors" (KRawOr (JArr [])) "jurors"; field "status" KRaw "status";
   field "resolution" KRaw "resolution"; field "retryCount" KNum "retry_count"].

Definition computeArbitrationCommitHash (sha256 : string → string) (vote : bool) (salt : string) : string :=
  sha256 (String (ascii_of_nat (if vote then 1 else 0)) salt).

(** A vote: whether it was committed, and what was revealed. *)
Definition vote_status (raw : jsval) : result (option (bool * option bool)) :=
  if truthy raw then
    commit_hash ← get_prop raw "commit_hash";
    revealed_vote ← get_prop raw "revealed_vote";
    Ok (Some (negb (nullish commit_hash), if nullish revealed_vote then None else Some (truthy revealed_vote)))
  else Ok None.

Definition vote_status_of (v : jsval) : option (bool * option bool) :=
  if truthy v then
    Some (negb (nullish (get_prop_opt v "commit_hash")),
          if nullish (get_prop_opt v "revealed_vote") then None else Some (truthy (get_prop_opt v "revealed_vote")))
  else None.

Lemma reads_vote_status v :
  native (TOption Arbitration_JurorVote) v = true → vote_status v = Ok (vote_status_of v).
Proof. intros [->|Hn]%native_option; [done|]. by destruct (native_struct _ _ Hn) as [o ->]. Qed.
#[export] Hint Resolve reads_vote_status : reads.

Lemma web_bytes_accepted n b : String.length b = n → accepts (TBytesN n) (ArgBytes b) = true.
Proof. intros <-. cbn. apply Nat.eqb_refl. Qed.
#[export] Hint Resolve web_bytes_accepted : accepts.

Lemma web_resolution_accepted v : accepts Arbitration_DisputeResolution (ArgVec [ArgSymbol (Resolution_name v)]) = true.
Proof. by destruct v. Qed.
#[export] Hint Resolve web_resolution_accepted : accepts.

(** ** The functions *)

Section web.
Context {W : Type} (X : Chain W).

Definition getArbitrationCase (caseId : Z) : M (Rpc (W := W)) (option (list (string * value))) :=
  query X (Of Arbitration) "get_case" [ArgU64 caseId] PLACEHOLDER (decode_opt decodeArbitrationCase).

Definition getArbitrationCaseByInvoice (invoiceId : Z)
    : M (Rpc (W := W)) (option (list (string * value))) :=
  query X (Of Arbitration) "get_case_by_invoice"
    [ArgU64 invoiceId]
    PLACEHOLDER (decode_opt decodeArbitrationCase).

Definition getArbitrationEvidence_fields : list Field :=
  [field "submitter" KRaw "submitter"; field "party" KRaw "party";
   field "evidenceHash" KRaw "evidence_hash"; field "submittedAt" KNum "submitted_at"].

Definition getArbitrationEvidence (caseId : Z) : M (Rpc (W := W)) (list (list (string * value))) :=
  query X (Of Arbitration) "get_evidence"
    [ArgU64 caseId]
    PLACEHOLDER (decode_all getArbitrationEvidence_fields).

Definition getJurorInfo_fields : list Field :=
  [field "address" KRaw "address"; field "stakeAmount" KBig "stake_amount";
   field "stakeToken" KRaw "stake_token"; field "isActive" KBool "is_active";
   field "casesServed" KNum "cases_served"; field "timesSlashed" KNum "times_slashed";
   field "nonRevealStrikes" KNum "non_reveal_strikes"; field "registeredAt" KNum "registered_at";
   field "deregisterRequestedAt" KNumNull "deregister_requested_at"].

Definition getJurorInfo (operator : string) : M (Rpc (W := W)) (option (list (string * value))) :=
  query X (Of Arbitration) "get_juror"
    [ArgAddress operator]
    PLACEHOLDER (decode_opt getJurorInfo_fields).

Definition listActiveJurors : M (Rpc (W := W)) jsval :=
  query X (Of Arbitration) "list_active_jurors" [] PLACEHOLDER as_array.

Definition getJurorCases (operator : string) : M (Rpc (W := W)) (list number) :=
  query X (Of Arbitration) "get_juror_cases" [ArgAddress operator] PLACEHOLDER numbers.

Definition getJurorVoteStatus (caseId : Z) (juror : string) : M (Rpc (W := W)) (option (bool * option bool)) :=
  query X (Of Arbitration) "get_vote" [ArgU64 caseId; ArgAddress juror] PLACEHOLDER vote_status.

Definition getArbitrationConfig_fields : list Field :=
  [field "minStake" KBig "min_stake"; field "stakeToken" KRaw "stake_token";
   field "committeeSize" KNum "committee_size"; field "quorumFloor" KNum "quorum_floor";
   field "evidenceWindowSecs" KNum "evidence_window_secs";
   field "commitWindowSecs" KNum "commit_window_secs";
   field "revealWindowSecs" KNum "reveal_window_secs";
   field "deregisterCooldownSecs" KNum "deregister_cooldown_secs"; field "slashBps" KNum "slash_bps";
   field "nonRevealSlashBps" KNum "non_reveal_slash_bps";
   field "lopsidedConfidenceBps" KNum "lopsided_confidence_bps"; field "maxRetries" KNum "max_retries"].

Definition getArbitrationConfig : M (Rpc (W := W)) (list (string * value)) :=
  query X (Of Arbitration) "get_config" [] PLACEHOLDER (decode getArbitrationConfig_fields).

Definition buildSubmitEvidenceTx (submitter : string) (caseId : Z) (evidenceHash : string)
    : M (Rpc (W := W)) string :=
  build X submitter (Of Arbitration) "submit_evidence"
    [ArgU64 caseId; ArgAddress submitter; ArgString (JStr evidenceHash)].

Definition buildRegisterJurorTx (operator : string) (stakeAmount : Z) : M (Rpc (W := W)) string :=
  build X operator (Of Arbitration) "register_juror" [ArgAddress operator; ArgI128 stakeAmount].

Definition buildDeregisterJurorTx (operator : string) : M (Rpc (W := W)) string :=
  build X operator (Of Arbitration) "deregister_juror" [ArgAddress operator].

Definition buildSelectJurorsTx (caller : string) (caseId : Z) : M (Rpc (W := W)) string :=
  build X caller (Of Arbitration) "select_jurors" [ArgU64 caseId].

Definition buildCommitVoteTx (juror : string) (caseId : Z) (commitHash : string)
    : M (Rpc (W := W)) string :=
  build X juror (Of Arbitration) "commit_vote" [ArgU64 caseId; ArgAddress juror; ArgBytes commitHash].

Definition buildRevealVoteTx (juror : string) (caseId : Z) (voteChoice : bool) (salt : string)
    : M (Rpc (W := W)) string :=
  build X juror (Of Arbitration) "reveal_vote"
    [ArgU64 caseId; ArgAddress juror; ArgBool voteChoice; ArgBytes salt].

Definition buildFinalizeCaseTx (caller : string) (caseId : Z) : M (Rpc (W := W)) string :=
  build X caller (Of Arbitration) "finalize_case" [ArgU64 caseId].

Definition buildAdminResolveNoQuorumTx (admin : string) (caseId : Z) (resolution : Resolution)
    : M (Rpc (W := W)) string :=
  build X admin (Of Arbitration) "admin_resolve_no_quorum"
    [ArgAddress admin; ArgU64 caseId; ArgVec [ArgSymbol (Resolution_name resolution)]].

(** [crypto.getRandomValues] fills an array of 32 bytes. *)
Definition generateArbitrationSalt (getRandomValues : nat → M W string) : M W string := getRandomValues 32%nat.

End web.

(** ** Their calls *)

Inductive web_called {W : Type} : ∀ {A : Type}, (Chain W → M (Rpc (W := W)) A) → Prop :=
| call_getArbitrationCase : ∀ (caseId : Z), web_called (λ X, getArbitrationCase X caseId)
| call_getArbitrationCaseByInvoice : ∀ (invoiceId : Z),
    web_called (λ X, getArbitrationCaseByInvoice X invoiceId)
| call_getArbitrationEvidence : ∀ (caseId : Z), web_called (λ X, getArbitrationEvidence X caseId)
| call_getJurorInfo : ∀ (operator : string), web_called (λ X, getJurorInfo X operator)
| call_listActiveJurors : web_called (λ X, listActiveJurors X)
| call_getJurorCases : ∀ (operator : string), web_called (λ X, getJurorCases X operator)
| call_getJurorVoteStatus : ∀ (caseId : Z) (juror : string),
    web_called (λ X, getJurorVoteStatus X caseId juror)
| call_getArbitrationConfig : web_called (λ X, getArbitrationConfig X)
| call_buildSubmitEvidenceTx : ∀ (submitter : string) (caseId : Z) (evidenceHash : string),
    web_called (λ X, buildSubmitEvidenceTx X submitter caseId evidenceHash)
| call_buildRegisterJurorTx : ∀ (operator : string) (stakeAmount : Z),
    web_called (λ X, buildRegisterJurorTx X operator stakeAmount)
| call_buildDeregisterJurorTx : ∀ (operator : string), web_called (λ X, buildDeregisterJurorTx X operator)
| call_buildSelectJurorsTx : ∀ (caller : string) (caseId : Z),
    web_called (λ X, buildSelectJurorsTx X caller caseId)
| call_buildCommitVoteTx : ∀ (juror : string) (caseId : Z) (commitHash : string), String.length commitHash = 32%nat → web_called (λ X, buildCommitVoteTx X juror caseId commitHash)
| call_buildRevealVoteTx : ∀ (juror : string) (caseId : Z) (voteChoice : bool) (salt : string), String.length salt = 32%nat → web_called (λ X, buildRevealVoteTx X juror caseId voteChoice salt)
| call_buildFinalizeCaseTx : ∀ (caller : string) (caseId : Z),
    web_called (λ X, buildFinalizeCaseTx X caller caseId)
| call_buildAdminResolveNoQuorumTx : ∀ (admin : string) (caseId : Z) (resolution : Resolution),
    web_called (λ X, buildAdminResolveNoQuorumTx X admin caseId resolution).

(** The readers: the address they simulate from, and what they make of an answer. *)
Inductive web_reads {W : Type} : ∀ {A : Type}, (Chain W → M (Rpc (W := W)) A) → string → (jsval → A) → Prop :=
| read_getArbitrationCase : ∀ (caseId : Z),
    web_reads (λ X, getArbitrationCase X caseId) PLACEHOLDER (decoded_opt decodeArbitrationCase)
| read_getArbitrationCaseByInvoice : ∀ (invoiceId : Z),
    web_reads (λ X, getArbitrationCaseByInvoice X invoiceId) PLACEHOLDER (decoded_opt decodeArbitrationCase)
| read_getArbitrationEvidence : ∀ (caseId : Z),
    web_reads (λ X, getArbitrationEvidence X caseId) PLACEHOLDER (decoded_all getArbitrationEvidence_fields)
| read_getJurorInfo : ∀ (operator : string),
    web_reads (λ X, getJurorInfo X operator) PLACEHOLDER (decoded_opt getJurorInfo_fields)
| read_listActiveJurors : web_reads (λ X, listActiveJurors X) PLACEHOLDER id
| read_getJurorCases : ∀ (operator : string),
    web_reads (λ X, getJurorCases X operator) PLACEHOLDER decoded_numbers
| read_getJurorVoteStatus : ∀ (caseId : Z) (juror : string),
    web_reads (λ X, getJurorVoteStatus X caseId juror) PLACEHOLDER vote_status_of
| read_getArbitrationConfig : web_reads (λ X, getArbitrationConfig X) PLACEHOLDER (decoded getArbitrationConfig_fields).

(** ** They keep to the interfaces *)

Lemma web_arbitration_conforms {W A} (op : Chain W → M (Rpc (W := W)) A) : web_called op → conforming op.
Proof. destruct 1; by web_calls. Qed.

Lemma web_arbitration_answered {W A} (op : Chain W → M (Rpc (W := W)) A) source mean :
  web_reads op source mean → answered op source mean.
Proof. destruct 1; by web_answers. Qed.
End WebArbitration.
