(* ===== verification/WebTranche.v ===== *)
(** * contracts.ts: tranches and insurance

    The tiers and the configuration of premiums are the SDK's types
    (InsuranceClient.v), encoded and decoded here anew. *)
From S2P Require Import Prelude.
From S2P Require Import JsValue.
From S2P Require Import JsNumber.
From S2P Require Import Sdk.
From S2P Require Import Abi.
From S2P Require Import ContractAbi.
From S2P Require Import RpcPool.
From S2P Require Import Stellar.
From S2P Require Import WebAbi.
From S2P Require Import SdkClients.
Import InsuranceClient.
#[local] Open Scope string_scope.
#[local] Open Scope list_scope.
#[local] Open Scope Z_scope.

Inductive TrancheClass := TrancheClass_Senior | TrancheClass_Junior.
Definition TrancheClass_name (v : TrancheClass) : string :=
  match v with TrancheClass_Senior => "Senior" | TrancheClass_Junior => "Junior" end.

(** [tc === TrancheClass.Senior ? 'Senior' : 'Junior']. *)
Definition trancheClassToScVal (tc : TrancheClass) : ScArg :=
  ArgVec [ArgSymbol (match tc with TrancheClass_Senior => "Senior" | _ => "Junior" end)].

Definition accountingFromRaw : list Field :=
  [field "deposited" KBigOr0 "deposited"; field "available" KBigOr0 "available";
   field "deployed" KBigOr0 "deployed"; field "earned" KBigOr0 "earned"; field "losses" KBigOr0 "losses"].

Definition riskTierFromRaw : list Field :=
  [field "min_score" KNum "min_score"; field "max_score" KNum "max_score";
   field "risk_multiplier_bps" KNum "risk_multiplier_bps"].

Definition reserveFundFromRaw : list Field :=
  [field "total_reserves" KBigOr0 "total_reserves";
   field "total_premiums_collected" KBigOr0 "total_premiums_collected";
   field "total_claims_paid" KBigOr0 "total_claims_paid";
   field "total_covered_exposure" KBigOr0 "total_covered_exposure";
   field "coverage_ratio_bps" KNum "coverage_ratio_bps";
   field "min_coverage_ratio_bps" KNum "min_coverage_ratio_bps"].

Definition coverageRecordFromRaw : list Field :=
  [field "invoice_id" KBig "invoice_id"; field "token" KRaw "token"; field "principal" KBig "principal";
   field "premium_paid" KBig "premium_paid"; field "coverage_bps" KNum "coverage_bps";
   field "purchased_at" KBig "purchased_at"; field "claimed" KBool "claimed"].

Definition claimHistoryItemFromRaw : list Field :=
  [field "invoice_id" KBig "invoice_id"; field "token" KRaw "token"; field "payout" KBig "payout";
   field "shortfalls" KBig "shortfalls"; field "timestamp" KBig "timestamp"].

Definition reserveHealthFromRaw : list Field :=
  [field "token" KRaw "token"; field "total_reserves" KBigOr0 "total_reserves";
   field "coverage_ratio_bps" KNum "coverage_ratio_bps";
   field "min_reserve_amount" KBigOr0 "min_reserve_amount"; field "is_healthy" KBool "is_healthy";
   field "needs_top_up" KBool "needs_top_up"].

Record TranchePool := {
  tp_senior : list (string * value); tp_junior : list (string * value); tp_config : jsval }.

Definition poolFromRaw (raw : jsval) : result TranchePool :=
  senior ← get_prop raw "senior"; senior ← decode accountingFromRaw senior;
  junior ← get_prop raw "junior"; junior ← decode accountingFromRaw junior;
  config ← get_prop raw "config";
  Ok {| tp_senior := senior; tp_junior := junior; tp_config := config |}.

Definition pool_of (v : jsval) : TranchePool := {|
  tp_senior := decoded accountingFromRaw (get_prop_opt v "senior");
  tp_junior := decoded accountingFromRaw (get_prop_opt v "junior");
  tp_config := get_prop_opt v "config" |}.

Lemma web_reads_pool v : native Tranche_TranchePool v = true → poolFromRaw v = Ok (pool_of v).
Proof.
  intros Hn. destruct (native_struct _ _ Hn) as [o ->]. unfold poolFromRaw, pool_of. cbn [get_prop mbind result_bind].
  rewrite (decode_native accountingFromRaw Tranche_TrancheAccounting (obj_get o "senior"))
    by (done || by eapply native_lookup).
  cbn [mbind result_bind].
  by rewrite (decode_native accountingFromRaw Tranche_TrancheAccounting (obj_get o "junior"))
    by (done || by eapply native_lookup).
Qed.
#[export] Hint Resolve web_reads_pool : reads.

Lemma web_tranche_class_accepted v : accepts Tranche_TrancheClass (trancheClassToScVal v) = true.
Proof. by destruct v. Qed.
#[export] Hint Resolve web_tranche_class_accepted : accepts.

Definition riskTierToScVal (tier : InsuranceRiskTier) : ScArg :=
  ArgMap [("max_score", ArgU32 (max_score tier)); ("min_score", ArgU32 (min_score tier));
          ("risk_multiplier_bps", ArgU32 (risk_multiplier_bps tier))].

Definition premiumConfigToScVal (config : PremiumConfig) : ScArg :=
  ArgMap [("base_rate_bps", ArgU32 (base_rate_bps config));
          ("default_coverage_bps", ArgU32 (default_coverage_bps config));
          ("default_risk_multiplier_bps", ArgU32 (default_risk_multiplier_bps config));
          ("max_premium_bps", ArgU32 (max_premium_bps config));
          ("min_premium_bps", ArgU32 (min_premium_bps config));
          ("risk_tiers", ArgVec (map riskTierToScVal (risk_tiers config)));
          ("tenor_bps_per_day", ArgU32 (tenor_bps_per_day config))].

Lemma web_premium_accepted config : accepts Insurance_PremiumConfig (premiumConfigToScVal config) = true.
Proof. exact (premiumConfigToScVal_accepted config). Qed.
#[export] Hint Resolve web_premium_accepted : accepts.

(** A decoded configuration: the fields in front of the tiers, the tiers, the rest,
    as in InsuranceClient.v. *)
Definition premium_first : list Field :=
  [field "base_rate_bps" KNum "base_rate_bps"; field "tenor_bps_per_day" KNum "tenor_bps_per_day"].
Definition premium_rest : list Field :=
  [field "default_risk_multiplier_bps" KNum "default_risk_multiplier_bps";
   field "min_premium_bps" KNum "min_premium_bps"; field "max_premium_bps" KNum "max_premium_bps";
   field "default_coverage_bps" KNum "default_coverage_bps"].

Definition premiumConfigFromRaw (raw : jsval) : result PremiumFields :=
  first ← decode premium_first raw;
  tiers ← get_prop raw "risk_tiers";
  tiers ← decode_all riskTierFromRaw tiers;
  rest ← decode premium_rest raw;
  Ok {| pf_first := first; pf_risk_tiers := tiers; pf_rest := rest |}.

Definition premium_opt (dec : jsval → result PremiumFields) (raw : jsval) : result (option PremiumFields) :=
  if truthy raw then Some <$> dec raw else Ok None.
Definition premium_opt_of (v : jsval) : option PremiumFields := if truthy v then Some (premium_of v) else None.

Lemma web_reads_premium v :
  native (TOption Insurance_PremiumConfig) v = true → premium_opt premiumConfigFromRaw v = Ok (premium_opt_of v).
Proof.
  intros [->|Hn]%native_option; [done|]. unfold premium_opt, premium_opt_of.
  destruct (truthy v); [|done]. pose proof (premium_config_reads v Hn) as E.
  change (premiumConfigFromRaw v) with (InsuranceClient.premiumConfigFromRaw v). by rewrite E.
Qed.
#[export] Hint Resolve web_reads_premium : reads.

(** ** The functions *)

Section web.
Context {W : Type} (X : Chain W).

Definition getTranchePool (token : string) : M (Rpc (W := W)) TranchePool :=
  query X (Of Tranche) "get_pool" [ArgAddress token] PLACEHOLDER poolFromRaw.

Definition getTrancheInvestorPosition_fields : list Field :=
  [field "deposited" KBigOr0 "deposited"; field "shares" KBigOr0 "shares";
   field "earned" KBigOr0 "earned"; field "losses" KBigOr0 "losses"].

Definition getTrancheInvestorPosition (investor token : string) (trancheClass : TrancheClass)
    : M (Rpc (W := W)) (list (string * value)) :=
  query X (Of Tranche) "get_position"
    [ArgAddress investor; ArgAddress token; trancheClassToScVal trancheClass]
    PLACEHOLDER (decode getTrancheInvestorPosition_fields).

Definition buildTrancheDepositTx (investor token : string) (trancheClass : TrancheClass) (amount : Z)
    : M (Rpc (W := W)) string :=
  build X investor (Of Tranche) "deposit_tranche"
    [ArgAddress investor; ArgAddress token; trancheClassToScVal trancheClass; ArgI128 amount].

Definition buildSetTrancheConfigTx (admin token : string)
    (seniorTargetYieldBps seniorAdvanceRateBps juniorFirstLossBps : Z) : M (Rpc (W := W)) string :=
  build X admin (Of Tranche) "set_tranche_config"
    [ArgAddress admin; ArgAddress token; ArgU32 seniorTargetYieldBps; ArgU32 seniorAdvanceRateBps;
     ArgU32 juniorFirstLossBps].

Definition estimateInsurancePremium (principal : Z) (sme : string) (tenorDays : Z) (token : string)
    : M (Rpc (W := W)) Z :=
  query X (Of Insurance) "estimate_premium"
    [ArgI128 principal; ArgAddress sme; ArgU32 tenorDays; ArgAddress token]
    PLACEHOLDER as_bigint.

Definition getCoverageRecord (invoiceId : Z) : M (Rpc (W := W)) (option (list (string * value))) :=
  query X (Of Insurance) "get_coverage_record"
    [ArgU64 invoiceId]
    PLACEHOLDER (decode_opt coverageRecordFromRaw).

Definition getClaimHistory (invoiceId : Z) : M (Rpc (W := W)) (list (list (string * value))) :=
  query X (Of Insurance) "get_claim_history"
    [ArgU64 invoiceId]
    PLACEHOLDER (decode_all claimHistoryItemFromRaw).

Definition getReserveStatus (token : string) : M (Rpc (W := W)) (list (string * value)) :=
  query X (Of Insurance) "get_reserve_status"
    [ArgAddress token]
    PLACEHOLDER (decode reserveFundFromRaw).

Definition checkReserveHealth (token : string) : M (Rpc (W := W)) (list (string * value)) :=
  query X (Of Insurance) "check_reserve_health"
    [ArgAddress token]
    PLACEHOLDER (decode reserveHealthFromRaw).

Definition getPremiumConfig : M (Rpc (W := W)) (option PremiumFields) :=
  query X (Of Insurance) "get_premium_config" [] PLACEHOLDER (premium_opt premiumConfigFromRaw).

Definition getMinReserveAmount (token : string) : M (Rpc (W := W)) Z :=
  query X (Of Insurance) "get_min_reserve_amount" [ArgAddress token] PLACEHOLDER as_bigint.

Definition buildPurchaseCoverageTx (payer : string) (invoiceId principal : Z) (sme : string)
    (dueDate : Z) (token : string) : M (Rpc (W := W)) string :=
  build X payer (Of Insurance) "purchase_coverage"
    [ArgAddress payer; ArgU64 invoiceId; ArgI128 principal; ArgAddress sme; ArgU64 dueDate;
     ArgAddress token].

Definition buildFileClaimTx (caller : string) (invoiceId : Z) : M (Rpc (W := W)) string :=
  build X caller (Of Insurance) "file_claim" [ArgAddress caller; ArgU64 invoiceId].

Definition buildSetPremiumConfigTx (admin : string) (config : PremiumConfig)
    : M (Rpc (W := W)) string :=
  build X admin (Of Insurance) "set_premium_config" [ArgAddress admin; premiumConfigToScVal config].

Definition buildSetMinCoverageRatioTx (admin token : string) (minRatioBps : Z)
    : M (Rpc (W := W)) string :=
  build X admin (Of Insurance) "set_min_coverage_ratio"
    [ArgAddress admin; ArgAddress token; ArgU32 minRatioBps].

Definition buildSetMinReserveAmountTx (admin token : string) (minAmount : Z)
    : M (Rpc (W := W)) string :=
  build X admin (Of Insurance) "set_min_reserve_amount"
    [ArgAddress admin; ArgAddress token; ArgI128 minAmount].

Definition buildFundReserveFromTreasuryTx (admin token : string) (amount : Z)
    : M (Rpc (W := W)) string :=
  build X admin (Of Insurance) "fund_reserve_from_treasury"
    [ArgAddress admin; ArgAddress token; ArgI128 amount].

End web.

(** ** Their calls *)

Inductive web_called {W : Type} : ∀ {A : Type}, (Chain W → M (Rpc (W := W)) A) → Prop :=
| call_getTranchePool : ∀ (token : string), web_called (λ X, getTranchePool X token)
| call_getTrancheInvestorPosition : ∀ (investor token : string) (trancheClass : TrancheClass),
    web_called (λ X, getTrancheInvestorPosition X investor token trancheClass)
| call_buildTrancheDepositTx : ∀ (investor token : string) (trancheClass : TrancheClass) (amount : Z),
    web_called (λ X, buildTrancheDepositTx X investor token trancheClass amount)
| call_buildSetTrancheConfigTx : ∀ (admin token : string)
    (seniorTargetYieldBps seniorAdvanceRateBps juniorFirstLossBps : Z),
    web_called (λ X, buildSetTrancheConfigTx X admin token seniorTargetYieldBps seniorAdvanceRateBps juniorFirstLossBps)
| call_getCoverageRecord : ∀ (invoiceId : Z), web_called (λ X, getCoverageRecord X invoiceId)
| call_getClaimHistory : ∀ (invoiceId : Z), web_called (λ X, getClaimHistory X invoiceId)
| call_getReserveStatus : ∀ (token : string), web_called (λ X, getReserveStatus X token)
| call_checkReserveHealth : ∀ (token : string), web_called (λ X, checkReserveHealth X token)
| call_getPremiumConfig : web_called (λ X, getPremiumConfig X)
| call_getMinReserveAmount : ∀ (token : string), web_called (λ X, getMinReserveAmount X token)
| call_buildPurchaseCoverageTx : ∀ (payer : string) (invoiceId principal : Z) (sme : string)
    (dueDate : Z) (token : string),
    web_called (λ X, buildPurchaseCoverageTx X payer invoiceId principal sme dueDate token)
| call_buildSetPremiumConfigTx : ∀ (admin : string) (config : PremiumConfig),
    web_called (λ X, buildSetPremiumConfigTx X admin config)
| call_buildSetMinCoverageRatioTx : ∀ (admin token : string) (minRatioBps : Z),
    web_called (λ X, buildSetMinCoverageRatioTx X admin token minRatioBps)
| call_buildSetMinReserveAmountTx : ∀ (admin token : string) (minAmount : Z),
    web_called (λ X, buildSetMinReserveAmountTx X admin token minAmount)
| call_buildFundReserveFromTreasuryTx : ∀ (admin token : string) (amount : Z),
    web_called (λ X, buildFundReserveFromTreasuryTx X admin token amount).

(** Those that the contract has not, or takes other arguments for. *)
Inductive web_lost {W : Type} : ∀ {A : Type}, (Chain W → M (Rpc (W := W)) A) → Prop :=
| lost_estimateInsurancePremium : ∀ (principal : Z) (sme : string) (tenorDays : Z) (token : string),
    web_lost (λ X, estimateInsurancePremium X principal sme tenorDays token)
| lost_buildFileClaimTx : ∀ (caller : string) (invoiceId : Z),
    web_lost (λ X, buildFileClaimTx X caller invoiceId).

(** The readers: the address they simulate from, and what they make of an answer. *)
Inductive web_reads {W : Type} : ∀ {A : Type}, (Chain W → M (Rpc (W := W)) A) → string → (jsval → A) → Prop :=
| read_getTranchePool : ∀ (token : string), web_reads (λ X, getTranchePool X token) PLACEHOLDER pool_of
| read_getCoverageRecord : ∀ (invoiceId : Z),
    web_reads (λ X, getCoverageRecord X invoiceId) PLACEHOLDER (decoded_opt coverageRecordFromRaw)
| read_getClaimHistory : ∀ (invoiceId : Z),
    web_reads (λ X, getClaimHistory X invoiceId) PLACEHOLDER (decoded_all claimHistoryItemFromRaw)
| read_getReserveStatus : ∀ (token : string),
    web_reads (λ X, getReserveStatus X token) PLACEHOLDER (decoded reserveFundFromRaw)
| read_checkReserveHealth : ∀ (token : string),
    web_reads (λ X, checkReserveHealth X token) PLACEHOLDER (decoded reserveHealthFromRaw)
| read_getPremiumConfig : web_reads (λ X, getPremiumConfig X) PLACEHOLDER premium_opt_of
| read_getMinReserveAmount : ∀ (token : string),
    web_reads (λ X, getMinReserveAmount X token) PLACEHOLDER int_of.

(** ** They keep to the interfaces *)

Lemma web_tranche_conforms {W A} (op : Chain W → M (Rpc (W := W)) A) : web_called op → conforming op.
Proof. destruct 1; by web_calls. Qed.

Lemma web_tranche_lost {W A} (op : Chain W → M (Rpc (W := W)) A) : web_lost op → refused op.
Proof. destruct 1; by web_calls. Qed.

Lemma web_tranche_answered {W A} (op : Chain W → M (Rpc (W := W)) A) source mean :
  web_reads op source mean → answered op source mean.
Proof. destruct 1; by web_answers. Qed.
