(* ===== verification/WebAccess.v ===== *)
(** * contracts.ts: roles and their proposals *)
From S2P Require Import Prelude.
From S2P Require Import JsValue.
From S2P Require Import JsNumber.
From S2P Require Import Sdk.
From S2P Require Import Abi.
From S2P Require Import ContractAbi.
From S2P Require Import RpcPool.
From S2P Require Import Stellar.
From S2P Require Import WebAbi.
#[local] Open Scope string_scope.
#[local] Open Scope list_scope.
#[local] Open Scope Z_scope.

Inductive Role := Role_SuperAdmin | Role_RiskManager | Role_TreasuryManager | Role_ComplianceOfficer | Role_OracleManager.
Definition Role_name (v : Role) : string :=
  match v with Role_SuperAdmin => "SuperAdmin" | Role_RiskManager => "RiskManager" | Role_TreasuryManager => "TreasuryManager" | Role_ComplianceOfficer => "ComplianceOfficer" | Role_OracleManager => "OracleManager" end.

Definition roleToScVal (role : Role) : ScArg := ArgVec [ArgSymbol (Role_name role)].

Inductive ActionPayload :=
| SetPaused (paused : bool)
| SetYield (bps : Z)
| SetTreasury (address : string)
| WithdrawRevenue (token : string) (amount : Z)
| SetOracleContract (address : string)
| SetKycRequired (paused : bool)
| SetInvestorKyc (investor : string) (approved : bool)
| SetMaxUtilization (bps : Z)
| SetOracle (address : string)
| RegisterDebtor (debtorId : string) (debtorName : string) (maxExposure : Z)
| DeactivateDebtor (debtorId : string)
| AddKeeper (address : string)
| SetLateThreshold (days : Z)
| SetScoreThresholds (excellent : Z) (veryGood : Z) (good : Z) (fair : Z)
| RegisterAttestor (address : string) (attestorType : Z) (weightBps : Z)
| SetOracleRegistryInvoiceContract (address : string)
| SetOracleRegistryTreasury (treasury : option string)
| SetOracleRegistryConfig (minStake : Z) (requiredVotes : Z) (quorumBps : Z) (roundDurationSecs : Z) (deregisterCooldownSecs : Z)
| SetOracleRegistryPaused (paused : bool)
| SlashOracle (operator : string) (bps : Z) (roundId : Z) (evidence : string)
| AdminResolveRound (invoiceId : Z) (approved : bool) (reason : string)
| SetCompliancePaused (paused : bool)
| RegisterScreener (screener : string)
| ConfirmScreenerRegistration (screener : string)
| DeregisterScreener (screener : string)
| SetRescreeningInterval (secs : Z)
| SetScreenerTimelock (secs : Z)
| UpdateGovernanceConfig (quorumBps : Z) (passBps : Z) (executionDelaySecs : Z)
| SetCategoryQuorum (category : Z) (quorumBps : Z)
| SetReferralPaused (paused : bool)
| SetReferralPool (address : string)
| SetBorrowRewardBps (bps : Z)
| SetDepositRewardBps (bps : Z)
| SetInvoiceAccessControl (newAccessControl : string)
| SetCreditScoreAccessControl (newAccessControl : string)
| SetOracleRegistryAccessControl (newAccessControl : string)
| SetComplianceAccessControl (newAccessControl : string)
| SetGovernanceAccessControl (newAccessControl : string)
| SetReferralAccessControl (newAccessControl : string)
| AddSigner (role : Role) (address : string)
| RemoveSigner (role : Role) (address : string)
| SetThreshold (role : Role) (threshold : Z).

Definition action_tag (action : ActionPayload) : string :=
  match action with
  | SetPaused _ => "SetPaused"
  | SetYield _ => "SetYield"
  | SetTreasury _ => "SetTreasury"
  | WithdrawRevenue _ _ => "WithdrawRevenue"
  | SetOracleContract _ => "SetOracleContract"
  | SetKycRequired _ => "SetKycRequired"
  | SetInvestorKyc _ _ => "SetInvestorKyc"
  | SetMaxUtilization _ => "SetMaxUtilization"
  | SetOracle _ => "SetOracle"
  | RegisterDebtor _ _ _ => "RegisterDebtor"
  | DeactivateDebtor _ => "DeactivateDebtor"
  | AddKeeper _ => "AddKeeper"
  | SetLateThreshold _ => "SetLateThreshold"
  | SetScoreThresholds _ _ _ _ => "SetScoreThresholds"
  | RegisterAttestor _ _ _ => "RegisterAttestor"
  | SetOracleRegistryInvoiceContract _ => "SetOracleRegistryInvoiceContract"
  | SetOracleRegistryTreasury _ => "SetOracleRegistryTreasury"
  | SetOracleRegistryConfig _ _ _ _ _ => "SetOracleRegistryConfig"
  | SetOracleRegistryPaused _ => "SetOracleRegistryPaused"
  | SlashOracle _ _ _ _ => "SlashOracle"
  | AdminResolveRound _ _ _ => "AdminResolveRound"
  | SetCompliancePaused _ => "SetCompliancePaused"
  | RegisterScreener _ => "RegisterScreener"
  | ConfirmScreenerRegistration _ => "ConfirmScreenerRegistration"
  | DeregisterScreener _ => "DeregisterScreener"
  | SetRescreeningInterval _ => "SetRescreeningInterval"
  | SetScreenerTimelock _ => "SetScreenerTimelock"
  | UpdateGovernanceConfig _ _ _ => "UpdateGovernanceConfig"
  | SetCategoryQuorum _ _ => "SetCategoryQuorum"
  | SetReferralPaused _ => "SetReferralPaused"
  | SetReferralPool _ => "SetReferralPool"
  | SetBorrowRewardBps _ => "SetBorrowRewardBps"
  | SetDepositRewardBps _ => "SetDepositRewardBps"
  | SetInvoiceAccessControl _ => "SetInvoiceAccessControl"
  | SetCreditScoreAccessControl _ => "SetCreditScoreAccessControl"
  | SetOracleRegistryAccessControl _ => "SetOracleRegistryAccessControl"
  | SetComplianceAccessControl _ => "SetComplianceAccessControl"
  | SetGovernanceAccessControl _ => "SetGovernanceAccessControl"
  | SetReferralAccessControl _ => "SetReferralAccessControl"
  | AddSigner _ _ => "AddSigner"
  | RemoveSigner _ _ => "RemoveSigner"
  | SetThreshold _ _ => "SetThreshold"
  end.

Definition actionPayloadToScVal (action : ActionPayload) : ScArg :=
  let tag := ArgSymbol (action_tag action) in
  match action with
  | SetPaused paused | SetKycRequired paused => ArgVec [tag; ArgBool paused]
  | SetYield bps | SetMaxUtilization bps => ArgVec [tag; ArgU32 bps]
  | SetTreasury address | SetOracleContract address | SetOracle address | AddKeeper address =>
      ArgVec [tag; ArgAddress address]
  | WithdrawRevenue token amount => ArgVec [tag; ArgAddress token; ArgI128 amount]
  | SetInvestorKyc investor approved => ArgVec [tag; ArgAddress investor; ArgBool approved]
  | RegisterDebtor debtorId debtorName maxExposure =>
      ArgVec [tag; ArgString (JStr debtorId); ArgString (JStr debtorName); ArgI128 maxExposure]
  | DeactivateDebtor debtorId => ArgVec [tag; ArgString (JStr debtorId)]
  | SetLateThreshold days => ArgVec [tag; ArgI64 days]
  | SetScoreThresholds excellent veryGood good fair =>
      ArgVec [tag; ArgU32 excellent; ArgU32 veryGood; ArgU32 good; ArgU32 fair]
  | RegisterAttestor address attestorType weightBps =>
      ArgVec [tag; ArgAddress address; ArgU32 attestorType; ArgU32 weightBps]
  | AddSigner role address | RemoveSigner role address => ArgVec [tag; roleToScVal role; ArgAddress address]
  | SetThreshold role threshold => ArgVec [tag; roleToScVal role; ArgU32 threshold]
  | SetOracleRegistryInvoiceContract address | SetReferralPool address => ArgVec [tag; ArgAddress address]
  | SetOracleRegistryTreasury treasury =>
      ArgVec [tag; match treasury with None => ArgVoid | Some treasury => ArgAddress treasury end]
  | SetOracleRegistryConfig minStake requiredVotes quorumBps roundDurationSecs deregisterCooldownSecs =>
      ArgVec [tag; ArgI128 minStake; ArgU32 requiredVotes; ArgU32 quorumBps; ArgU64 roundDurationSecs;
              ArgU64 deregisterCooldownSecs]
  | SetOracleRegistryPaused paused | SetCompliancePaused paused | SetReferralPaused paused =>
      ArgVec [tag; ArgBool paused]
  | SlashOracle operator bps roundId evidence =>
      ArgVec [tag; ArgAddress operator; ArgU32 bps; ArgU64 roundId; ArgString (JStr evidence)]
  | AdminResolveRound invoiceId approved reason =>
      ArgVec [tag; ArgU64 invoiceId; ArgBool approved; ArgString (JStr reason)]
  | RegisterScreener screener | ConfirmScreenerRegistration screener | DeregisterScreener screener =>
      ArgVec [tag; ArgAddress screener]
  | SetRescreeningInterval secs | SetScreenerTimelock secs => ArgVec [tag; ArgU64 secs]
  | UpdateGovernanceConfig quorumBps passBps executionDelaySecs =>
      ArgVec [tag; ArgU32 quorumBps; ArgU32 passBps; ArgU64 executionDelaySecs]
  | SetCategoryQuorum category quorumBps => ArgVec [tag; ArgU32 category; ArgU32 quorumBps]
  | SetBorrowRewardBps bps | SetDepositRewardBps bps => ArgVec [tag; ArgU32 bps]
  | SetInvoiceAccessControl newAccessControl | SetCreditScoreAccessControl newAccessControl
  | SetOracleRegistryAccessControl newAccessControl | SetComplianceAccessControl newAccessControl
  | SetGovernanceAccessControl newAccessControl | SetReferralAccessControl newAccessControl =>
      ArgVec [tag; ArgAddress newAccessControl]
  end.

Definition proposalFromScVal : list Field :=
  [field "role" KTag "role"; field "target" KRaw "target"; field "action" KVariant "action";
   field "proposer" KRaw "proposer"; field "approvals" (KRawOr (JArr [])) "approvals";
   field "createdAt" KNumOr0 "created_at"; field "expiresAt" KNumOr0 "expires_at";
   field "status" KTag "status"].

(** The payloads whose encoding is one of the contract's. *)
Definition web_encodable (action : ActionPayload) : bool :=
  match action with SetCategoryQuorum _ _ => false | _ => true end.

Lemma web_payload_accepts action :
  accepts AccessControl_ActionPayload (actionPayloadToScVal action) = web_encodable action.
Proof.
  destruct action; first
    [ reflexivity | match goal with r : Role |- _ => by destruct r | o : option string |- _ => by destruct o end ].
Qed.

Lemma web_payload_accepted action :
  web_encodable action = true → accepts AccessControl_ActionPayload (actionPayloadToScVal action) = true.
Proof. by rewrite web_payload_accepts. Qed.

Lemma web_role_accepted v : accepts AccessControl_Role (roleToScVal v) = true.
Proof. by destruct v. Qed.
#[export] Hint Resolve web_payload_accepted web_role_accepted : accepts.

(** ** The functions *)

Section web.
Context {W : Type} (X : Chain W).

Definition getRoleConfig_fields : list Field :=
  [field "signers" (KRawOr (JArr [])) "signers"; field "threshold" KNumOr0 "threshold"].

Definition getRoleConfig (role : Role) : M (Rpc (W := W)) (option (list (string * value))) :=
  query X (Of AccessControl) "get_role_config"
    [roleToScVal role]
    PLACEHOLDER (decode_opt getRoleConfig_fields).

Definition role_config (role : Role) : M (Rpc (W := W)) (string * option (list (string * value))) :=
  config ← getRoleConfig role; mret (Role_name role, config).

Definition ALL_ROLES : list Role :=
  [Role_SuperAdmin; Role_RiskManager; Role_TreasuryManager; Role_ComplianceOfficer; Role_OracleManager].

(** [Object.fromEntries] of the roles with their configurations, in that order. *)
Definition listAllRoleConfigs : M (Rpc (W := W)) (list (string * option (list (string * value)))) :=
  mapM role_config ALL_ROLES.

Definition isRoleSigner (role : Role) (address : string) : M (Rpc (W := W)) bool :=
  query X (Of AccessControl) "is_signer" [roleToScVal role; ArgAddress address] PLACEHOLDER as_boolean.

Definition getProposal (proposalId : Z) : M (Rpc (W := W)) (option (list (string * value))) :=
  query X (Of AccessControl) "get_proposal"
    [ArgU64 proposalId]
    PLACEHOLDER (decode_opt proposalFromScVal).

Definition getNextProposalId : M (Rpc (W := W)) number :=
  query X (Of AccessControl) "get_next_proposal_id" [] PLACEHOLDER as_number.

(** The loop from [id], with [left] identifiers to go. *)
Fixpoint proposals_from (id : Z) (left : nat) : M (Rpc (W := W)) (list (Z * list (string * value))) :=
  match left with
  | O => mret []
  | S left' =>
      proposal ← getProposal id;
      rest ← proposals_from (id + 1) left';
      mret (match proposal with Some p => (id, p) :: rest | None => rest end)
  end.

(** [for (let id = 0; id < nextId; id++)]: none when [nextId] is [NaN]. *)
Definition listProposals : M (Rpc (W := W)) (list (Z * list (string * value))) :=
  when_deployed X AccessControl []
    (nextId ← getNextProposalId; proposals_from 0 (Z.to_nat (default 0 (num_to_Z nextId)))).

Definition buildProposeActionTx (role : Role) (proposer target : string) (action : ActionPayload)
    : M (Rpc (W := W)) string :=
  build X proposer (Of AccessControl) "propose_action"
    [roleToScVal role; ArgAddress proposer; ArgAddress target; actionPayloadToScVal action].

Definition buildSignerOnlyActionTx (method signer : string) (proposalId : Z) : M (Rpc (W := W)) string :=
  build X signer (Of AccessControl) method [ArgAddress signer; ArgU64 proposalId].

Definition buildApproveActionTx : string → Z → M (Rpc (W := W)) string := buildSignerOnlyActionTx "approve_action".
Definition buildRejectActionTx : string → Z → M (Rpc (W := W)) string := buildSignerOnlyActionTx "reject_action".
Definition buildRevokeApprovalTx : string → Z → M (Rpc (W := W)) string := buildSignerOnlyActionTx "revoke_approval".

Definition buildExecuteActionTx (caller : string) (proposalId : Z) : M (Rpc (W := W)) string :=
  build X caller (Of AccessControl) "execute_action" [ArgAddress caller; ArgU64 proposalId].

End web.

Lemma proposals_conforming {W} id left : conforming (W := W) (λ X, proposals_from X id left).
Proof.
  revert id. induction left as [|left IH]; intros id; [done|]. cbn [proposals_from].
  apply web_bind_conforming; [by web_calls|intros p]. apply web_bind_conforming; [apply IH|done].
Qed.

Lemma listProposals_conforming {W} : conforming (W := W) (λ X, listProposals X).
Proof.
  apply web_when_conforming, web_bind_conforming; [by web_calls|intros n]. apply proposals_conforming.
Qed.

(** ** Their calls *)

Inductive web_called {W : Type} : ∀ {A : Type}, (Chain W → M (Rpc (W := W)) A) → Prop :=
| call_getRoleConfig : ∀ (role : Role), web_called (λ X, getRoleConfig X role)
| call_listAllRoleConfigs : web_called (λ X, listAllRoleConfigs X)
| call_isRoleSigner : ∀ (role : Role) (address : string), web_called (λ X, isRoleSigner X role address)
| call_getProposal : ∀ (proposalId : Z), web_called (λ X, getProposal X proposalId)
| call_getNextProposalId : web_called (λ X, getNextProposalId X)
| call_listProposals : web_called (λ X, listProposals X)
| call_buildProposeActionTx : ∀ (role : Role) (proposer target : string) (action : ActionPayload), web_encodable action = true → web_called (λ X, buildProposeActionTx X role proposer target action)
| call_buildExecuteActionTx : ∀ (caller : string) (proposalId : Z),
    web_called (λ X, buildExecuteActionTx X caller proposalId)
| call_buildApproveActionTx : ∀ (signer : string) (proposalId : Z),
    web_called (λ X, buildApproveActionTx X signer proposalId)
| call_buildRejectActionTx : ∀ (signer : string) (proposalId : Z),
    web_called (λ X, buildRejectActionTx X signer proposalId)
| call_buildRevokeApprovalTx : ∀ (signer : string) (proposalId : Z),
    web_called (λ X, buildRevokeApprovalTx X signer proposalId).

(** The readers: the address they simulate from, and what they make of an answer. *)
Inductive web_reads {W : Type} : ∀ {A : Type}, (Chain W → M (Rpc (W := W)) A) → string → (jsval → A) → Prop :=
| read_getRoleConfig : ∀ (role : Role),
    web_reads (λ X, getRoleConfig X role) PLACEHOLDER (decoded_opt getRoleConfig_fields)
| read_isRoleSigner : ∀ (role : Role) (address : string),
    web_reads (λ X, isRoleSigner X role address) PLACEHOLDER truthy
| read_getProposal : ∀ (proposalId : Z),
    web_reads (λ X, getProposal X proposalId) PLACEHOLDER (decoded_opt proposalFromScVal)
| read_getNextProposalId : web_reads (λ X, getNextProposalId X) PLACEHOLDER (λ v, num_of_Z (int_of v)).

(** ** They keep to the interfaces *)

Lemma web_access_conforms {W A} (op : Chain W → M (Rpc (W := W)) A) : web_called op → conforming op.
Proof. destruct 1; first [apply listProposals_conforming | by web_calls]. Qed.

Lemma web_access_answered {W A} (op : Chain W → M (Rpc (W := W)) A) source mean :
  web_reads op source mean → answered op source mean.
Proof. destruct 1; by web_answers. Qed.
