(* ===== verification/WebKyc.v ===== *)
(** * contracts.ts: the investors who wait for approval

    [fetchKycInvestors] finds the depositors in the pool's events of the last 30
    days, asks for each whether it is approved, and lists the two kinds, latest
    first deposit first. The RPC server's [getLatestLedger] and [getEvents] are
    arguments; the time of an event is its ledger's, in milliseconds. *)
From S2P Require Import Prelude.
From S2P Require Import JsValue.
From S2P Require Import JsNumber.
From S2P Require Import JsMap.
From S2P Require Import Sdk.
From S2P Require Import Abi.
From S2P Require Import ContractAbi.
From S2P Require Import RpcPool.
From S2P Require Import Stellar.
From S2P Require Import WebAbi.
From S2P Require Import WebPool.
#[local] Open Scope string_scope.
#[local] Open Scope list_scope.
#[local] Open Scope Z_scope.

(** [a + b], on values that are no objects to add up: texts are joined, and a bigint
    and a number are not added. *)
Definition js_add (a b : jsval) : result jsval :=
  let prim v := match v with JArr _ | JObj _ => JStr (js_String v) | _ => v end in
  match prim a, prim b with
  | JStr s, v => Ok (JStr (s +:+ js_String v))
  | v, JStr s => Ok (JStr (js_String v +:+ s))
  | JBig m, JBig n => Ok (JBig (m + n))
  | JBig _, _ | _, JBig _ => Throw (ETypeError "Cannot mix BigInt and other types")
  | JNum m, JNum n => Ok (JNum (m + n))
  | _, _ => Ok JUndef
  end.

(** [val[i]]. *)
Definition js_index (v : jsval) (i : nat) : jsval :=
  match v with JArr l => arr_get l i | JObj o => obj_get o (pretty (Z.of_nat i)) | _ => JUndef end.

Record KycInvestor := {
  address : string; totalDeposited : jsval; firstSeenAt : Z; isApproved : bool }.
Record Depositor := { total : jsval; firstSeen : Z }.
Record Deposit := { dep_investor : string; dep_amount : jsval; dep_time : Z }.

Section kyc.
Context {W : Type} (X : Chain W).

Record KycEvent := { ke_topic : list (ch_ScVal X); ke_value : ch_ScVal X; ke_closed : Z }.

(** The deposit an event is read as. An investor that is no text is left out at
    once: no address is made of it below. *)
Definition deposit_of (e : KycEvent) : option Deposit :=
  match arr_get (map (ch_scValToNative X) (ke_topic e)) 1 with
  | JStr "deposit" =>
      let val := ch_scValToNative X (ke_value e) in
      match js_index val 0 with
      | JStr investor => Some {| dep_investor := investor; dep_amount := js_index val 1; dep_time := ke_closed e |}
      | _ => None
      end
  | _ => None
  end.

(** An error in the sum skips the event. *)
Definition add_deposit (existing : option Depositor) (d : Deposit) : Depositor :=
  match existing with
  | None => {| total := dep_amount d; firstSeen := dep_time d |}
  | Some x =>
      match js_add (total x) (dep_amount d) with
      | Ok t => {| total := t; firstSeen := Z.min (firstSeen x) (dep_time d) |}
      | Throw _ => x
      end
  end.

Definition depositors (events : list KycEvent) : list (string * Depositor) :=
  group_by dep_investor add_deposit (omap deposit_of events).

(** The loop over the depositors: those that wait, and those approved. *)
Fixpoint split_investors (l : list (string * Depositor)) : M (Rpc (W := W)) (list KycInvestor * list KycInvestor) :=
  match l with
  | [] => mret ([], [])
  | (a, data) :: l' =>
      if isStellarAddress a then
        ok ← getInvestorKyc X a;
        '(pending, approved) ← split_investors l';
        let investor := {| address := a; totalDeposited := total data; firstSeenAt := firstSeen data; isApproved := ok |} in
        mret (if (ok : bool) then (pending, investor :: approved) else (investor :: pending, approved))
      else split_investors l'
  end.

Definition latest_first : list KycInvestor → list KycInvestor := sort_by (λ i, - firstSeenAt i).

Definition fetchKycInvestors (getLatestLedger : string → M W Z) (getEvents : string → Z → M W (list KycEvent))
    : M (Rpc (W := W)) (list KycInvestor * list KycInvestor) :=
  or_else ([], [])
    (sequence ← rpcExecute X getLatestLedger;
     let startLedger := Z.max 1 (sequence - 17280 * 30) in
     events ← rpcExecute X (λ u, getEvents u startLedger);
     '(pending, approved) ← split_investors (depositors events);
     mret (latest_first pending, latest_first approved)).

(** ** What is listed *)

(** What the pool publishes of a deposit: investor, token, amount, shares, time. *)
Record Published := { pb_investor : string; pb_token : string; pb_amount : Z; pb_shares : Z }.
Definition publishes (e : KycEvent) (d : Published) (closed : Z) : Prop :=
  (∃ scope rest, map (ch_scValToNative X) (ke_topic e) = scope :: JStr "deposit" :: rest) ∧
  (∃ rest, ch_scValToNative X (ke_value e) =
     JArr (JStr (pb_investor d) :: JStr (pb_token d) :: JBig (pb_amount d) :: JBig (pb_shares d) :: rest)) ∧
  ke_closed e = closed.

Definition as_deposit (d : Published * Z) : Deposit :=
  {| dep_investor := pb_investor d.1; dep_amount := JStr (pb_token d.1); dep_time := d.2 |}.

Lemma deposit_of_published e d : publishes e d.1 d.2 → deposit_of e = Some (as_deposit d).
Proof.
  intros ((scope&rest&Ht)&(rest'&Hv)&Hc). unfold deposit_of, as_deposit. rewrite Ht, Hv, <- Hc. reflexivity.
Qed.

Definition earliest (t : Z) (l : list Z) : Z := foldl Z.min t l.

Lemma group_acc_published d l :
  group_acc add_deposit (map as_deposit (d :: l)) =
  Some {| total := JStr (foldl (λ s x, s +:+ pb_token x.1) (pb_token d.1) l);
          firstSeen := earliest d.2 (map snd l) |}.
Proof.
  induction l as [|x l IH] using rev_ind; [done|].
  rewrite app_comm_cons, map_app. change (map as_deposit [x]) with [as_deposit x].
  rewrite group_acc_snoc, IH. unfold earliest. rewrite map_app, !foldl_app. reflexivity.
Qed.

Lemma filter_as_deposit a l :
  filter (λ x, dep_investor x = a) (map as_deposit l) = map as_deposit (filter (λ d, pb_investor d.1 = a) l).
Proof.
  induction l as [|d l IH]; [done|]. cbn [map]. rewrite !filter_cons, IH. cbn [as_deposit dep_investor].
  by case_decide.
Qed.

(** The amount is read from the wrong place of the pool's event. What is listed as
    an investor's total is no amount: it is the addresses of the tokens of its
    deposits, joined in order. The first time it was seen is right. *)
Theorem kyc_totals_are_tokens events ds a :
  Forall2 (λ e d, publishes e d.1 d.2) events ds →
  jm_get a (depositors events) =
  match filter (λ d, pb_investor d.1 = a) ds with
  | [] => None
  | d :: l => Some {| total := JStr (foldl (λ s x, s +:+ pb_token x.1) (pb_token d.1) l);
                      firstSeen := earliest d.2 (map snd l) |}
  end.
Proof.
  intros H. unfold depositors. assert (omap deposit_of events = map as_deposit ds) as ->.
  { induction H as [|e d events ds He _ IH]; [done|]. cbn. by rewrite (deposit_of_published e d He), IH. }
  rewrite jm_get_group_by, filter_as_deposit. destruct (filter _ ds) as [|d l]; [done|]. apply group_acc_published.
Qed.

(** ** How it is split *)

Lemma split_investors_spec l s pending approved s' :
  split_investors l s = (Ok (pending, approved), s') →
  Forall (λ i, isApproved i = false) pending ∧ Forall (λ i, isApproved i = true) approved ∧
  map address (pending ++ approved) ≡ₚ filter (λ a, isStellarAddress a = true) (jm_keys l).
Proof.
  revert s pending approved s'. induction l as [|[a data] l IH]; intros s pending approved s'; cbn [split_investors].
  - intros [= <- <- _]. done.
  - unfold jm_keys. csimpl. rewrite filter_cons. destruct (isStellarAddress a) eqn:Ha; [|by apply IH].
    rewrite decide_True by done. unfold mbind, M_bind. destruct (getInvestorKyc X a s) as [[ok|e] s1]; [|done].
    destruct (split_investors l s1) as [[[p q]|e] s2] eqn:E; [|done]. apply IH in E as (Hp&Hq&Hperm).
    unfold jm_keys in Hperm. destruct ok; intros [= <- <- _]; (split_and!; [by auto|by auto|]).
    + rewrite <- Hperm, !map_app. cbn [map address]. by rewrite Permutation_middle.
    + by rewrite <- Hperm.
Qed.

(** The lists are complete, without repetition, in the right order; or, if anything
    failed, both empty. *)
Theorem kyc_lists_correct getLatestLedger getEvents s :
  ∃ pending approved s', fetchKycInvestors getLatestLedger getEvents s = (Ok (pending, approved), s') ∧
    Forall (λ i, isApproved i = false) pending ∧ Forall (λ i, isApproved i = true) approved ∧
    ascending (λ i, - firstSeenAt i) pending ∧ ascending (λ i, - firstSeenAt i) approved ∧
    NoDup (map address (pending ++ approved)) ∧
    Forall (λ i, isStellarAddress (address i) = true) (pending ++ approved).
Proof.
  unfold fetchKycInvestors, or_else, try_catch. unfold mbind, M_bind.
  destruct (rpcExecute X getLatestLedger s) as [[sequence|e] s1]; [|eexists _, _, _; split; [done|]; repeat constructor].
  match goal with |- context [rpcExecute X ?f s1] => destruct (rpcExecute X f s1) as [[events|e] s2] end;
    [|eexists _, _, _; split; [done|]; repeat constructor].
  destruct (split_investors (depositors events) s2) as [[[p q]|e] s3] eqn:E;
    [|eexists _, _, _; split; [done|]; repeat constructor].
  apply split_investors_spec in E as (Hp&Hq&Hperm). eexists _, _, _. split; [done|]. unfold latest_first.
  assert (Permutation (map address (sort_by (λ i, - firstSeenAt i) p ++ sort_by (λ i, - firstSeenAt i) q))
            (filter (λ a, isStellarAddress a = true) (jm_keys (depositors events)))) as Hall
    by (rewrite <- Hperm; apply Permutation_map; by rewrite !sort_by_perm).
  split_and!; [by rewrite sort_by_perm|by rewrite sort_by_perm|apply sort_by_ascending|apply sort_by_ascending| |].
  - rewrite Hall. apply NoDup_filter, group_by_wf.
  - apply (List.Forall_map address (λ a, isStellarAddress a = true)).
    eapply Permutation_Forall; [symmetry; exact Hall|]. apply Forall_forall. by intros a [Ha _]%list_elem_of_filter.
Qed.

(** Where the simulations of [getInvestorKyc] cannot succeed, nobody is listed who
    deposited. *)
Lemma kyc_lists_empty getLatestLedger getEvents s sequence s1 events s2 a :
  (∀ a s, ∃ e s', getInvestorKyc X a s = (Throw e, s')) →
  rpcExecute X getLatestLedger s = (Ok sequence, s1) →
  rpcExecute X (λ u, getEvents u (Z.max 1 (sequence - 17280 * 30))) s1 = (Ok events, s2) →
  a ∈ jm_keys (depositors events) → isStellarAddress a = true →
  (fetchKycInvestors getLatestLedger getEvents s).1 = Ok ([], []).
Proof.
  intros Hkyc H1 H2 Ha Hok. unfold fetchKycInvestors, or_else, try_catch. unfold mbind, M_bind. rewrite H1, H2.
  assert (∀ l s, a ∈ jm_keys l → ∃ e s', split_investors l s = (Throw e, s')) as Hsplit.
  { induction l as [|[b data] l IH]; intros s3 Hin; [by apply not_elem_of_nil in Hin|]. cbn [split_investors].
    destruct (isStellarAddress b) eqn:Hb.
    - unfold mbind, M_bind. destruct (Hkyc b s3) as (e&s4&->). eauto.
    - apply IH. unfold jm_keys in *. csimpl in Hin. apply elem_of_cons in Hin as [->|]; [congruence|done]. }
  destruct (Hsplit _ s2 Ha) as (e&s3&->). done.
Qed.
End kyc.
