(* ===== verification/WebErrors.v ===== *)
(** * contracts.ts: messages for the contracts' errors

    The generated tables of the codes are no part of the repository: they are an
    argument of [getContractErrorByCode]. *)
From S2P Require Import Prelude.
From Stdlib Require Import Ascii.
#[local] Open Scope string_scope.
#[local] Open Scope list_scope.
#[local] Open Scope Z_scope.

(** In the order of the object's entries. *)
Definition CONTRACT_ERROR_MESSAGES : list (string * string) :=
  [("already initialized", "This contract has already been set up.");
   ("not initialized", "The contract is not yet configured. Please contact support.");
   ("unauthorized", "You are not authorised to perform this action.");
   ("unauthorized pool", "The pool contract is not authorised for this invoice.");
   ("amount must be positive", "Amount must be greater than zero.");
   ("due date must be in the future", "The due date must be a future date.");
   ("invoice not found", "Invoice not found. Please check the invoice ID.");
   ("invoice is not pending", "This invoice is not in a pending state.");
   ("invoice is not funded", "This invoice has not been funded yet.");
   ("contract is paused", "The contract is currently paused. Please try again later.");
   ("token not accepted", "This token is not supported by the pool.");
   ("insufficient available liquidity", "The pool does not have enough liquidity for this invoice.");
   ("invoice already funded", "This invoice has already been funded.");
   ("invoice already fully repaid", "This invoice has already been fully repaid.");
   ("payment exceeds total due", "The payment amount exceeds the total amount owed.");
   ("shares must be positive", "Share amount must be greater than zero.");
   ("insufficient shares", "You do not have enough shares to withdraw that amount.");
   ("yield cannot exceed 50%", "Yield rate cannot exceed 50% APY.");
   ("invoice already processed", "This invoice has already been recorded in the credit score.")].

Definition find_message (raw : string) : option (string * string) :=
  let lower := toLowerCase raw in find (λ e, includes e.1 lower) CONTRACT_ERROR_MESSAGES.

Definition getContractErrorMessage (raw : string) : string :=
  match find_message raw with Some (_, friendly) => friendly | None => raw end.

(** [variant.replace(/([a-z])([A-Z])/g, '$1 $2')]: no two matches overlap. *)
Definition is_lower (c : ascii) : bool := let n := nat_of_ascii c in ((97 <=? n) && (n <=? 122))%nat.
Definition is_upper (c : ascii) : bool := let n := nat_of_ascii c in ((65 <=? n) && (n <=? 90))%nat.

Fixpoint split_words (s : string) : string :=
  match s with
  | String c s' =>
      match s' with
      | String d _ => if is_lower c && is_upper d then String c (String " " (split_words s')) else String c (split_words s')
      | EmptyString => s
      end
  | EmptyString => s
  end.

(** [CONTRACT_ERROR_MAPS]: the tables, by contract. *)
Definition getContractErrorByCode (maps : string → list (Z * string)) (contract : string) (code : Z) : string :=
  let unknown := "Unknown " +:+ contract +:+ " error (#" +:+ pretty code +:+ ")." in
  match find (λ e, e.1 =? code) (maps contract) with
  | None => unknown
  | Some (_, variant) =>
      if String.eqb variant "" then unknown
      else
        let friendly := getContractErrorMessage (split_words variant) in
        if String.eqb friendly (split_words variant) then variant else friendly
  end.

(** ** Properties *)

Lemma includes_cons p c s : includes p (String c s) = startsWith p (String c s) || includes p s.
Proof.
  unfold includes, startsWith. cbn [String.index]. destruct (String.prefix p (String c s)); [done|].
  by destruct (String.index 0 p s).
Qed.

Lemma startsWith_prefix p q s : startsWith (p +:+ q) s = true → startsWith p s = true.
Proof.
  unfold startsWith. revert s. induction p as [|c p IH]; intros s; [intros _; apply startsWith_empty|].
  rewrite append_cons. destruct s as [|d s]; [done|]. cbn -[ascii_dec].
  destruct (ascii_dec c d); [apply IH|done].
Qed.

(** A text with a phrase in it has the beginning of the phrase in it. *)
Lemma includes_prefix p q s : includes (p +:+ q) s = true → includes p s = true.
Proof.
  induction s as [|c s IH].
  - destruct p; [done|]. by rewrite append_cons.
  - rewrite !includes_cons. intros [H|H]%orb_prop; apply orb_true_iff; [left|right; auto].
    by apply (startsWith_prefix _ q).
Qed.

Lemma find_hidden {A} (p : A → bool) l1 x l2 y :
  x ∈ l1 → (p y = true → p x = true) → y ∉ l1 → y ∉ l2 → find p (l1 ++ y :: l2) ≠ Some y.
Proof.
  intros Hx Hp Hy1 Hy2 E. assert (p y = true) as Hpy by (by apply find_some in E as [_ E]).
  induction l1 as [|z l1 IH]; [by apply not_elem_of_nil in Hx|]. cbn in E.
  destruct (p z) eqn:Hz; [injection E as ->; apply Hy1; by left|].
  apply elem_of_cons in Hx as [->|Hx]; [rewrite Hp in Hz by done; discriminate|].
  apply IH; [done| |done]. by intros H; apply Hy1; right.
Qed.

(** The phrase of an unauthorised pool has "unauthorized" in it, which is looked for
    first: its own message is never shown. *)
Lemma unauthorized_pool_hidden raw :
  find_message raw ≠ Some ("unauthorized pool", "The pool contract is not authorised for this invoice.").
Proof.
  unfold find_message. apply (find_hidden _ (take 3 CONTRACT_ERROR_MESSAGES)
    ("unauthorized", "You are not authorised to perform this action.") (drop 4 CONTRACT_ERROR_MESSAGES)).
  - do 2 right. left.
  - apply (includes_prefix "unauthorized" " pool").
  - vm_compute. intros H. repeat (apply elem_of_cons in H as [?|H]; [discriminate|]). by apply elem_of_nil in H.
  - vm_compute. intros H. repeat (apply elem_of_cons in H as [?|H]; [discriminate|]). by apply elem_of_nil in H.
Qed.

(** A message is the first entry's whose phrase the text contains, in any case of
    its letters; a text without any is left as it is. *)
Lemma getContractErrorMessage_spec raw :
  (∃ l1 phrase friendly l2, CONTRACT_ERROR_MESSAGES = l1 ++ (phrase, friendly) :: l2 ∧
     includes phrase (toLowerCase raw) = true ∧
     Forall (λ e, includes e.1 (toLowerCase raw) = false) l1 ∧ getContractErrorMessage raw = friendly) ∨
  (Forall (λ e, includes e.1 (toLowerCase raw) = false) CONTRACT_ERROR_MESSAGES ∧ getContractErrorMessage raw = raw).
Proof.
  unfold getContractErrorMessage, find_message. cbv zeta.
  generalize CONTRACT_ERROR_MESSAGES as l. induction l as [|[phrase friendly] l IH]; [by right|]. cbn [find fst].
  destruct (includes phrase (toLowerCase raw)) eqn:Hp.
  - left. eexists [], phrase, friendly, l. done.
  - destruct IH as [(l1&p&f&l2&->&Hi&Hl&E)|[Hl E]]; [left|right; split; [by constructor|done]].
    eexists ((phrase, friendly) :: l1), p, f, l2. split_and!; [done|done|by constructor|done].
Qed.

(** A code is answered with its variant's name, or a sentence for it; a code that is
    not in the table with a sentence that says so. *)
Lemma error_by_code_known maps contract code variant :
  find (λ e, e.1 =? code) (maps contract) = Some (code, variant) → variant ≠ "" →
  getContractErrorByCode maps contract code = variant ∨
  getContractErrorByCode maps contract code ∈ map snd CONTRACT_ERROR_MESSAGES.
Proof.
  intros E Hv. unfold getContractErrorByCode. rewrite E. cbv zeta.
  destruct (String.eqb_spec variant ""); [done|].
  destruct (String.eqb_spec (getContractErrorMessage (split_words variant)) (split_words variant)); [by left|right].
  destruct (getContractErrorMessage_spec (split_words variant)) as [(l1&p&f&l2&El&_&_&Ef)|[_ Ef]]; [|congruence].
  rewrite Ef. apply list_elem_of_fmap. exists (p, f). split; [done|]. rewrite El. set_solver.
Qed.

Example invoice_not_found : getContractErrorByCode (λ _, [(3, "InvoiceNotFound"); (49, "TooLarge")]) "invoice" 3 =
  "Invoice not found. Please check the invoice ID.".
Proof. vm_compute. reflexivity. Qed.
