(* ===== verification/WebConform.v ===== *)
(** * contracts.ts against the contracts

    The functions of contracts.ts together: which of their calls are the contracts'
    own, which can never succeed, what the readers make of the answers, and why
    they get none: the account they simulate from does not exist. *)
From S2P Require Import Prelude.
From S2P Require Import JsValue.
From S2P Require Import JsNumber.
From S2P Require Import Sdk.
From S2P Require Import Abi.
From S2P Require Import ContractAbi.
From S2P Require Import RpcPool.
From S2P Require Import Stellar.
From S2P Require Import WebAbi.
From S2P Require WebInvoice.
From S2P Require WebPool.
From S2P Require WebMarket.
From S2P Require Import WebContracts.
From S2P Require WebTranche.
From S2P Require WebAccess.
From S2P Require WebKyc.
#[local] Open Scope string_scope.
#[local] Open Scope list_scope.
#[local] Open Scope Z_scope.

(** ** The functions of all contracts *)

Inductive web_call {W A : Type} (op : Chain W → M (Rpc (W := W)) A) : Prop :=
| of_invoice : WebInvoice.web_called op → web_call op
| of_pool : WebPool.web_called op → web_call op
| of_market : WebMarket.web_called op → web_call op
| of_credit : WebCredit.web_called op → web_call op
| of_governance : WebGovernance.web_called op → web_call op
| of_arbitration : WebArbitration.web_called op → web_call op
| of_compliance : WebCompliance.web_called op → web_call op
| of_tranche : WebTranche.web_called op → web_call op
| of_access : WebAccess.web_called op → web_call op.

Inductive web_lost {W A : Type} (op : Chain W → M (Rpc (W := W)) A) : Prop :=
| lost_invoice : WebInvoice.web_lost op → web_lost op
| lost_pool : WebPool.web_lost op → web_lost op
| lost_governance : WebGovernance.web_lost op → web_lost op
| lost_tranche : WebTranche.web_lost op → web_lost op.

Inductive web_read {W A : Type} (op : Chain W → M (Rpc (W := W)) A) (source : string) (mean : jsval → A) : Prop :=
| reads_invoice : WebInvoice.web_reads op source mean → web_read op source mean
| reads_pool : WebPool.web_reads op source mean → web_read op source mean
| reads_market : WebMarket.web_reads op source mean → web_read op source mean
| reads_credit : WebCredit.web_reads op source mean → web_read op source mean
| reads_governance : WebGovernance.web_reads op source mean → web_read op source mean
| reads_arbitration : WebArbitration.web_reads op source mean → web_read op source mean
| reads_compliance : WebCompliance.web_reads op source mean → web_read op source mean
| reads_tranche : WebTranche.web_reads op source mean → web_read op source mean
| reads_access : WebAccess.web_reads op source mean → web_read op source mean.

#[local] Hint Resolve WebInvoice.web_invoice_conforms WebPool.web_pool_conforms WebMarket.web_market_conforms
  WebCredit.web_credit_conforms WebGovernance.web_governance_conforms WebArbitration.web_arbitration_conforms
  WebCompliance.web_compliance_conforms WebTranche.web_tranche_conforms WebAccess.web_access_conforms
  WebInvoice.web_invoice_lost WebPool.web_pool_lost WebGovernance.web_governance_lost WebTranche.web_tranche_lost
  WebInvoice.web_invoice_answered WebPool.web_pool_answered WebMarket.web_market_answered
  WebCredit.web_credit_answered WebGovernance.web_governance_answered WebArbitration.web_arbitration_answered
  WebCompliance.web_compliance_answered WebTranche.web_tranche_answered WebAccess.web_access_answered : web.

(** C10. The functions of contracts.ts that [web_called] lists, which are all that call a
    contract but for those of [web_lost] and for the two that read several things
    ([fetchKycInvestors], [fetchInvestorPosition]), make calls of the contracts: an entry
    point that exists, with arguments of its parameters' types. A chain that refuses
    every other call makes no difference to them, from any state of the connections
    and whatever the function's arguments. A contract given by its address is checked
    against the interface of the repository's own token. *)
Theorem web_calls_conform {W A} (op : Chain W → M (Rpc (W := W)) A) X s :
  web_call op → op (checked X) s = op X s.
Proof. intros H. assert (conforming op) as Hc by (destruct H; eauto with web). apply Hc. Qed.

(** C32. The functions listed as lost never succeed: what they call is no entry point,
    or takes other arguments, and a chain that checks calls refuses them in every
    state. *)
Theorem web_calls_lost {W A} (op : Chain W → M (Rpc (W := W)) A) X s :
  web_lost op → ∃ e s', op (checked X) s = (Throw e, s').
Proof. intros H. assert (refused op) as Hc by (destruct H; eauto with web). apply Hc. Qed.

Lemma web_answered {W A} (op : Chain W → M (Rpc (W := W)) A) source mean :
  web_read op source mean → answered op source mean.
Proof. intros H. destruct H; eauto with web. Qed.


(** ** The account of the simulations *)

(** A server that answers for no account whose address is malformed: the client
    library decodes the address before it asks. *)
Definition strict_accounts {W Account Tx Val : Type} (S : Server W Account Tx Val) : Prop :=
  ∀ address w, isStellarAddress address = false → ∃ e w', getAccount S address w = (Throw e, w').

Lemma placeholder_malformed : isStellarAddress PLACEHOLDER = false.
Proof. vm_compute. reflexivity. Qed.

Lemma malformed_source_throws {W A} (X : Chain W) target method args source (dec : jsval → result A) s :
  (∀ u, strict_accounts (ch_server X u)) → isStellarAddress source = false →
  ∃ e s', query X target method args source dec s = (Throw e, s').
Proof.
  intros Hstrict Hs. with_strategy transparent [query] unfold query. unfold read, mbind, M_bind.
  destruct (rpcExecute_throws X (simulate_on X source target method args) s) as (e&s1&E).
  { intros u w. unfold simulate_on, mbind, M_bind. destruct (Hstrict u source w Hs) as (e&w1&->). by eexists _, _. }
  unfold simulateTx. rewrite E. eauto.
Qed.

Lemma malformed_source_throws_or {W A} (X : Chain W) (none : A) target method args source (dec : jsval → result A) s :
  (∀ u, strict_accounts (ch_server X u)) → isStellarAddress source = false →
  ∃ e s', query_or X none target method args source dec s = (Throw e, s').
Proof.
  intros Hstrict Hs. with_strategy transparent [query_or] unfold query_or. unfold mbind, M_bind.
  destruct (rpcExecute_throws X (simulate_on X source target method args) s) as (e&s1&E).
  { intros u w. unfold simulate_on, mbind, M_bind. destruct (Hstrict u source w Hs) as (e&w1&->). by eexists _, _. }
  unfold simulateTx. rewrite E. eauto.
Qed.

(** The readers that simulate from that address, and what they return all the same:
    [None] when they throw. The first are those of [web_read]; the others have
    conditions of their own, or catch what is thrown. *)
Definition throws {W A} : Chain W → option A := λ _, None.
Definition unless_deployed {W A} (c : Contract) (none : A) : Chain W → option A := λ X,
  if String.eqb (ch_id X c) "" then Some none else None.

Inductive placeholder_read {W : Type} : ∀ {A}, (Chain W → M (Rpc (W := W)) A) → (Chain W → option A) → Prop :=
| from_listed {A} (op : Chain W → M (Rpc (W := W)) A) mean : web_read op PLACEHOLDER mean → placeholder_read op throws
| from_getMultipleInvoices id ids : placeholder_read (λ X, WebInvoice.getMultipleInvoices X None (id :: ids)) throws
| from_getTokenBalanceOf token a : placeholder_read (λ X, WebPool.getTokenBalanceOf X token a) throws
| from_getTokenDepositCap token : placeholder_read (λ X, WebPool.getTokenDepositCap X token) throws
| from_getInvestorPosition investor token : placeholder_read (λ X, WebPool.getInvestorPosition X investor token) throws
| from_getFundedInvoice id : placeholder_read (λ X, WebPool.getFundedInvoice X id) throws
| from_getCurrentRate token : placeholder_read (λ X, WebPool.getCurrentRate X token) throws
| from_getRateModelConfig token : placeholder_read (λ X, WebPool.getRateModelConfig X token) throws
| from_getRateHistory token n : placeholder_read (λ X, WebPool.getRateHistory X token n) throws
| from_previewRate token u : placeholder_read (λ X, WebPool.previewRateAtUtilization X token u) throws
| from_getComplianceIsCleared a : placeholder_read (λ X, WebCompliance.getComplianceIsCleared X a) throws
| from_getComplianceRecord a : placeholder_read (λ X, WebCompliance.getComplianceRecord X a) throws
| from_getComplianceHistory a : placeholder_read (λ X, WebCompliance.getComplianceHistory X a) throws
| from_listComplianceFlagged : placeholder_read (λ X, WebCompliance.listComplianceFlagged X) throws
| from_listCompliancePendingReview : placeholder_read (λ X, WebCompliance.listCompliancePendingReview X) throws
| from_getTrancheInvestorPosition i t c : placeholder_read (λ X, WebTranche.getTrancheInvestorPosition X i t c) throws
| from_estimateInsurancePremium n a d t : placeholder_read (λ X, WebTranche.estimateInsurancePremium X n a d t) throws
| from_listAllRoleConfigs : placeholder_read (λ X, WebAccess.listAllRoleConfigs X) throws
| from_listProposals : placeholder_read (λ X, WebAccess.listProposals X) (unless_deployed AccessControl [])
| from_listGovernanceProposals : placeholder_read (λ X, WebGovernance.listGovernanceProposals X) (unless_deployed Governance [])
| from_getGovernanceConfig : placeholder_read (λ X, WebGovernance.getGovernanceConfig X) (λ _, Some None)
| from_getTreasuryAddress : placeholder_read (λ X, WebPool.getTreasuryAddress X) (λ _, Some None)
| from_fetchInvestorPosition usdc eurc i : placeholder_read (λ X, WebPool.fetchInvestorPosition X usdc eurc i) (λ _, Some None).

(** [m] ends as [o] says. *)
Definition ends_as {W A} (o : option A) (m : M (Rpc (W := W)) A) : Prop := ∀ s,
  match o with Some a => ∃ s', m s = (Ok a, s') | None => ∃ e s', m s = (Throw e, s') end.

Lemma ends_bind {W A B} (m : M (Rpc (W := W)) A) (f : A → M (Rpc (W := W)) B) : ends_as None m → ends_as None (m ≫= f).
Proof. intros Hm s. destruct (Hm s) as (e&s'&E). unfold mbind, M_bind. rewrite E. eauto. Qed.

Lemma ends_caught {W A} (none : A) (m : M (Rpc (W := W)) A) : ends_as None m → ends_as (Some none) (or_else none m).
Proof. intros Hm s. destruct (Hm s) as (e&s'&E). unfold or_else, try_catch. rewrite E. by eexists. Qed.

Lemma ends_deployed {W A} (X : Chain W) c (none : A) m :
  ends_as None m → ends_as (unless_deployed c none X) (when_deployed X c none m).
Proof. intros Hm. unfold unless_deployed, when_deployed. case_match; [|exact Hm]. intros s. by eexists. Qed.

Section placeholder.
Context {W : Type} (X : Chain W) (Hstrict : ∀ u, strict_accounts (ch_server X u)).

Lemma ends_query {A} target method args (dec : jsval → result A) :
  ends_as None (query X target method args PLACEHOLDER dec).
Proof. intros s. apply malformed_source_throws; [done|apply placeholder_malformed]. Qed.

Lemma ends_query_or {A} (none : A) target method args (dec : jsval → result A) :
  ends_as None (query_or X none target method args PLACEHOLDER dec).
Proof. intros s. apply malformed_source_throws_or; [done|apply placeholder_malformed]. Qed.

Lemma ends_required {A} target method args (dec : jsval → result A) :
  ends_as None (_ ← lift_result (requireComplianceContractId X); query X target method args PLACEHOLDER dec).
Proof.
  intros s. unfold mbind, M_bind, lift_result. destruct (requireComplianceContractId X); [apply ends_query|eauto].
Qed.

(** C8. The address most readers simulate from is one character short of an address.
    With servers that refuse malformed addresses none of those readers ever returns
    anything of the contracts: in every state and for every argument each throws, but
    for [getTreasuryAddress], [getGovernanceConfig] and [fetchInvestorPosition], which
    catch what is thrown and return [null], and for the two lists of proposals, which
    are empty when their contract is not configured and throw otherwise. *)
Theorem placeholder_reads_nothing {A} (op : Chain W → M (Rpc (W := W)) A) o :
  placeholder_read op o → ends_as (o X) (op X).
Proof.
  destruct 1; unfold throws;
    try first [exact (ends_query _ _ _ _) | exact (ends_query_or _ _ _ _ _) | exact (ends_required _ _ _ _)].
  - match goal with H : web_read _ _ _ |- _ => destruct (web_answered _ _ _ H) as (c&method&args&dec&sg&Ho&_&_) end.
    rewrite Ho. apply ends_query.
  - unfold WebInvoice.getMultipleInvoices. cbn [mapM]. apply ends_bind. apply ends_query.
  - unfold WebAccess.listAllRoleConfigs. cbn [WebAccess.ALL_ROLES mapM]. apply ends_bind, ends_bind, ends_query.
  - apply ends_deployed, ends_bind, ends_query.
  - apply ends_deployed, ends_query.
  - intros s. unfold WebGovernance.getGovernanceConfig, when_deployed. case_match; [by eexists|].
    apply (ends_caught None _ (ends_query _ _ _ _)).
  - apply ends_caught, ends_query_or.
  - assert (∀ token, ends_as (Some None) (WebPool.position_in X i token)) as H.
    { intros token s. unfold WebPool.position_in. case_match; [by eexists|]. apply (ends_caught None _ (ends_query _ _ _ _)). }
    intros s. unfold WebPool.fetchInvestorPosition, mbind, M_bind. destruct (H usdc s) as (s1&->). apply H.
Qed.
End placeholder.

(** So the list of investors to approve is empty whenever there is one. *)
Lemma kyc_lists_never_filled {W} (X : Chain W) getLatestLedger getEvents s sequence s1 events s2 a :
  (∀ u, strict_accounts (ch_server X u)) →
  rpcExecute X getLatestLedger s = (Ok sequence, s1) →
  rpcExecute X (λ u, getEvents u (Z.max 1 (sequence - 17280 * 30))) s1 = (Ok events, s2) →
  a ∈ JsMap.jm_keys (WebKyc.depositors X events) → isStellarAddress a = true →
  (WebKyc.fetchKycInvestors X getLatestLedger getEvents s).1 = Ok ([], []).
Proof.
  intros Hstrict. apply WebKyc.kyc_lists_empty. intros b s'.
  destruct (WebPool.web_pool_answered (λ X : Chain W, WebPool.getInvestorKyc X b) _ _ (WebPool.read_getInvestorKyc b))
    as (c&method&args&dec&sg&Ho&_&_). rewrite Ho. apply malformed_source_throws; [done|apply placeholder_malformed].
Qed.

(** ** Answers that are not understood *)

Lemma mapM_throws {A B} (f : A → result B) l x e : x ∈ l → f x = Throw e → ∃ e', mapM f l = Throw e'.
Proof.
  intros Hx Hf. induction l as [|y l IH]; [by apply not_elem_of_nil in Hx|]. cbn [mapM].
  apply elem_of_cons in Hx as [->|Hx]; [rewrite Hf; by eexists|].
  destruct (f y) as [b|e1]; [|by eexists]. destruct (IH Hx) as [e' ->]. by eexists.
Qed.

(** [getFundedInvoice] makes a bigint of a field that the pool's record has not: it
    throws for every invoice that is funded. *)
Lemma funded_invoice_unread v :
  native (TOption Pool_FundedInvoice) v = true → truthy v = true →
  ∃ e, decode_opt WebPool.getFundedInvoice_fields v = Throw e.
Proof.
  intros [->|Hn]%native_option Ht; [done|]. unfold decode_opt. rewrite Ht.
  destruct (native_struct _ _ Hn) as [o ->].
  destruct (mapM_throws (decode_field (JObj o)) WebPool.getFundedInvoice_fields (field "committed" KBigInt "committed")
              (ETypeError "Cannot convert undefined to a BigInt")) as [e E].
  - do 4 right. left.
  - unfold decode_field. cbn [get_prop mbind result_bind f_source field]. by rewrite (native_absent _ _ _ Hn).
  - exists e. unfold decode. by rewrite E.
Qed.

(** The position of an investor is read from an entry point that the pool has not:
    none is ever found. *)
Lemma investor_position_never_found {W} (X : Chain W) USDC EURC investor s :
  ∃ s', WebPool.fetchInvestorPosition (checked X) USDC EURC investor s = (Ok None, s').
Proof.
  assert (∀ token s, ∃ s', WebPool.position_in (checked X) investor token s = (Ok None, s')) as H.
  { intros token s1. unfold WebPool.position_in. destruct (String.eqb token ""); [by eexists|].
    destruct (WebPool.web_pool_lost (λ X : Chain W, WebPool.getInvestorPosition X investor token)
                (WebPool.lost_getInvestorPosition investor token) X s1) as (e&s2&E).
    unfold or_else, try_catch. rewrite E. by eexists. }
  unfold WebPool.fetchInvestorPosition, mbind, M_bind. destruct (H USDC s) as (s1&->). apply H.
Qed.

(** The accounts of an RPC server are numbered, but carry no balances: a deposit, or
    a commitment to an invoice, is always refused for want of the fee. *)
Lemma deposits_never_built {W} (X : Chain W) :
  (∀ a, ch_balances X a = None) →
  (∀ investor token amount s, ∃ e s', WebPool.buildDepositTx X investor token amount s = (Throw e, s')) ∧
  (∀ investor invoiceId amount s, ∃ e s', WebPool.buildCommitToInvoiceTx X investor invoiceId amount s = (Throw e, s')).
Proof.
  intros Hb.
  assert (∀ failed source target method args s, ∃ e s',
    prepare X failed (ensureSufficientNativeBalance X) source target method args s = (Throw e, s')) as H.
  { intros failed source target method args s. with_strategy transparent [prepare] unfold prepare.
    unfold mbind, M_bind. destruct (getRpcAccount X source s) as [[account|e] s1]; [|eauto].
    unfold ensureSufficientNativeBalance. rewrite Hb. by eexists _, _. }
  split; intros; apply H.
Qed.
