(* ===== verification/Apy.v ===== *)
(** * frontend/lib/apy.ts, and the calculators: projected yields

    What an investor is shown before a deposit: the interest of a term, scenarios of
    utilization and defaults, and the utilization that breaks even with a savings
    account, over bigints and JavaScript numbers. The interest is meant to be what
    contracts/pool will pay ([Contract.calculate_interest]). At the end the calculators that
    are shown: components/APYCalculator.tsx, components/ScenarioModeler.tsx and
    app/admin/waterfall-simulation, whose loss is meant to be contracts/tranche's. *)
From S2P Require Import Prelude.
From S2P Require Import JsValue.
From S2P Require Import JsNumber.
From S2P Require Import JsArith.
From S2P Require Import Amounts.
From S2P Require Import WebAbi.
From Stdlib Require Import SpecFloat.
#[local] Open Scope string_scope.
#[local] Open Scope list_scope.
#[local] Open Scope Z_scope.

Definition BPS_DENOM : Z := 10000.
Definition SECS_PER_YEAR : Z := 31536000.
Definition SECS_PER_DAY : Z := 86400.
Definition PRECISION_SCALE : Z := 1000000.

(** ** The pool contract's interest

    The branch of a pool without compound interest, on [u128]. *)
Module Contract.

Definition u128_MAX : Z := 2 ^ 128 - 1.
Definition checked (n : Z) : option Z := if n <=? u128_MAX then Some n else None.
Definition checked_add (a b : Z) : option Z := checked (a + b).
Definition checked_mul (a b : Z) : option Z := checked (a * b).

Definition div_round_half_up (numerator denominator : Z) : option Z :=
  if denominator =? 0 then None
  else rounded ← checked_add numerator (denominator / 2); Some (rounded / denominator).

Definition calculate_interest (principal yield_bps elapsed_secs : Z) : option Z :=
  let denominator := BPS_DENOM * SECS_PER_YEAR in
  value ← checked_mul principal yield_bps;
  numerator ← checked_mul value elapsed_secs;
  div_round_half_up numerator denominator.

End Contract.

(** ** The projections *)

(** The division of bigints drops the fraction. *)
Definition multiplyBigintByFactor (value : Z) (factor : number) : result Z :=
  if num_leb factor (num_of_Z 0) then Ok 0
  else if num_leb (num_of_Z 1) factor then Ok value
  else
    scaledFactor ← bigint_of_number (Math_round (num_mul factor (num_of_Z PRECISION_SCALE)));
    Ok (Z.quot (value * scaledFactor) PRECISION_SCALE).

Definition projectedInterestStroops (principalStroops : Z) (yieldBps lockDays : number) : result Z :=
  if (principalStroops <=? 0) || num_leb lockDays (num_of_Z 0) || negb (isFinite lockDays) then Ok 0
  else if num_leb yieldBps (num_of_Z 0) || negb (isFinite yieldBps) then Ok 0
  else
    days ← bigint_of_number (Math_floor lockDays);
    bps ← bigint_of_number (Math_floor yieldBps);
    Ok (Z.quot (principalStroops * bps * (days * SECS_PER_DAY)) (BPS_DENOM * SECS_PER_YEAR)).

Record ScenarioInputs := {
  principalStroops : Z;
  yieldBps : number;
  lockDays : number;
  utilizationRate : number;
  defaultRate : number;
  collateralRecoveryRate : number
}.

Inductive Label := BestCase | BaseCase | WorstCase.

Record ScenarioResult := {
  label : Label;
  grossYieldStroops : Z;
  defaultLossStroops : Z;
  netReturnStroops : Z;
  netReturnPct : number;
  sr_utilizationRate : number;
  sr_defaultRate : number
}.

Definition num_0 : number := num_of_Z 0.
Definition num_1 : number := num_of_Z 1.

(** [Math.max(0, Math.min(1, x))]. *)
Definition clamp (x : number) : number := Math_max num_0 (Math_min num_1 x).

Definition computeScenario (inputs : ScenarioInputs) (label : Label) (overrideUtilization overrideDefaultRate : number)
    : result ScenarioResult :=
  let util := clamp overrideUtilization in
  let defRate := clamp overrideDefaultRate in
  let recovery := clamp (collateralRecoveryRate inputs) in
  fullInterest ← projectedInterestStroops (principalStroops inputs) (yieldBps inputs) (lockDays inputs);
  gross ← multiplyBigintByFactor fullInterest util;
  deployed ← multiplyBigintByFactor (principalStroops inputs) util;
  rawLoss ← multiplyBigintByFactor deployed defRate;
  loss ← (if 0 <? rawLoss then multiplyBigintByFactor rawLoss (num_sub num_1 recovery) else Ok 0);
  let net := gross - loss in
  let yearFraction := num_div (lockDays inputs) (num_of_Z 365) in
  let pct :=
    if (0 <? principalStroops inputs) && num_ltb num_0 yearFraction
    then num_mul (num_div (num_div (num_of_Z net) (num_of_Z (principalStroops inputs))) yearFraction) (num_of_Z 100)
    else num_0 in
  Ok {| label := label; grossYieldStroops := gross; defaultLossStroops := loss; netReturnStroops := net;
        netReturnPct := pct; sr_utilizationRate := util; sr_defaultRate := defRate |}.

(** [0.2], the nearest number to it. *)
Definition one_fifth : number := num_of_ratio 1 5.

Definition computeAllScenarios (inputs : ScenarioInputs) : result (list ScenarioResult) :=
  let bestUtil := Math_min num_1 (num_add (utilizationRate inputs) one_fifth) in
  let worstUtil := Math_max num_0 (num_sub (utilizationRate inputs) one_fifth) in
  let worstDefault := Math_min one_fifth (num_mul (defaultRate inputs) (num_of_Z 4)) in
  best ← computeScenario inputs BestCase bestUtil num_0;
  base ← computeScenario inputs BaseCase (utilizationRate inputs) (defaultRate inputs);
  worst ← computeScenario inputs WorstCase worstUtil worstDefault;
  Ok [best; base; worst].

(** [Number(computeScenario(..).netReturnStroops) >= savingsYield]. *)
Definition clears (inputs : ScenarioInputs) (savingsYield u : number) : result bool :=
  r ← computeScenario inputs BaseCase u (defaultRate inputs);
  Ok (num_leb savingsYield (num_of_Z (netReturnStroops r))).

(** The binary search, [steps] to go. *)
Fixpoint bisect (clears : number → result bool) (steps : nat) (lo hi : number) : result (number * number) :=
  match steps with
  | O => Ok (lo, hi)
  | S steps' =>
      let mid := num_div (num_add lo hi) (num_of_Z 2) in
      ok ← clears mid;
      if (ok : bool) then bisect clears steps' lo mid else bisect clears steps' mid hi
  end.

Definition savings_yield (inputs : ScenarioInputs) (savingsRatePct : number) : number :=
  num_div (num_div (num_mul (num_of_Z (principalStroops inputs)) savingsRatePct) (num_of_Z 100))
    (num_div (num_of_Z 365) (lockDays inputs)).

(** The inputs' own utilization is not used. *)
Definition breakevenUtilization (inputs : ScenarioInputs) (savingsRatePct : number) : result (option number) :=
  let savingsYield := savings_yield inputs savingsRatePct in
  atFull ← computeScenario inputs BaseCase num_1 (defaultRate inputs);
  if num_ltb (num_of_Z (netReturnStroops atFull)) savingsYield then Ok None
  else
    '(lo, hi) ← bisect (clears inputs savingsYield) 1000 num_0 num_1;
    Ok (Some (num_div (num_add lo hi) (num_of_Z 2))).

(** ** The interest *)

Lemma isFinite_num_of_Z v : safe v → isFinite (num_of_Z v) = true.
Proof. intros Hv. by destruct (safe_cases v Hv) as [->|[(M&k&->&_) _]]. Qed.

(** On whole days and basis points, the exact interest rounded down. *)
Lemma interest_of_integers principal bps days :
  0 ≤ principal → safe bps → safe days →
  projectedInterestStroops principal (num_of_Z bps) (num_of_Z days) =
  Ok (principal * bps * (days * SECS_PER_DAY) / (BPS_DENOM * SECS_PER_YEAR)).
Proof.
  intros Hp Hb Hd. unfold projectedInterestStroops.
  rewrite (num_leb_exact days 0), (num_leb_exact bps 0) by (done || by unfold safe).
  rewrite !isFinite_num_of_Z by done. cbn [negb]. rewrite !orb_false_r.
  destruct (Z.leb_spec principal 0); [by replace principal with 0 by lia|].
  destruct (Z.leb_spec days 0); [replace days with 0 by (unfold safe in *; lia); by rewrite Z.mul_0_l, Z.mul_0_r|].
  destruct (Z.leb_spec bps 0); [replace bps with 0 by (unfold safe in *; lia); by rewrite Z.mul_0_r|]. cbn [orb].
  rewrite !floor_exact by done. unfold bigint_of_number. rewrite !num_to_Z_exact by done.
  cbn [mbind result_bind]. f_equal. apply Z.quot_div_nonneg; [|done].
  unfold safe, SECS_PER_DAY in *. repeat apply Z.mul_nonneg_nonneg; lia.
Qed.

(** On whole days and basis points, within the contract's range, the projection is
    the contract's interest, or one stroop less: the contract rounds to the nearest
    stroop, the projection down. *)
Theorem projection_matches_contract principal bps days i :
  0 ≤ principal → safe bps → safe days →
  Contract.calculate_interest principal bps (days * SECS_PER_DAY) = Some i →
  ∃ p, projectedInterestStroops principal (num_of_Z bps) (num_of_Z days) = Ok p ∧ p ≤ i ≤ p + 1.
Proof.
  intros Hp Hb Hd Hi. rewrite interest_of_integers by done. eexists. split; [reflexivity|].
  set (D := BPS_DENOM * SECS_PER_YEAR) in *. assert (0 < D) as HD by reflexivity.
  unfold Contract.calculate_interest, Contract.checked_mul, Contract.checked in Hi. fold D in Hi.
  destruct (principal * bps <=? _); [|done]. cbn [mbind option_bind] in Hi.
  set (N := principal * bps * (days * SECS_PER_DAY)) in *. destruct (N <=? _); [|done]. cbn [mbind option_bind] in Hi.
  unfold Contract.div_round_half_up, Contract.checked_add, Contract.checked in Hi.
  destruct (D =? 0); [done|]. destruct (_ <=? _); [|done]. injection Hi as <-.
  assert (0 ≤ D / 2 ≤ D) as Hhalf by (split; [apply Z.div_pos; lia|apply Z.div_le_upper_bound; lia]).
  split; [apply Z.div_le_mono; [done|]; lia|].
  pose proof (Z.div_add N 1 D ltac:(lia)) as E. rewrite Z.mul_1_l in E. rewrite <- E.
  apply Z.div_le_mono; [done|]. lia.
Qed.

(** ** Fractions of an amount *)

(** A rate from 0 to 1, if not 0 then at least [2 ^ -948]. *)
Definition rate (f : number) : Prop :=
  f = num_0 ∨ f = num_1 ∨ ∃ M e, f = S754_finite false M e ∧ 2 ^ 52 ≤ Zpos M < 2 ^ 53 ∧ -1000 ≤ e ≤ -53.

Lemma rate_scaled M1 e1 : 2 ^ 52 ≤ Zpos M1 < 2 ^ 53 → -1000 ≤ e1 ≤ -53 →
  ∃ n, Math_round (num_mul (S754_finite false M1 e1) (num_of_Z PRECISION_SCALE)) = num_of_Z n ∧
    0 ≤ n ≤ PRECISION_SCALE.
Proof.
  intros H1 He. destruct (safe_cases PRECISION_SCALE) as [?|[(M2&k&->&Hk&E2&H2) _]]; [by unfold safe|done|].
  destruct (product_error M1 M2 e1 (- k)) as (M&j&c&->&HM&Hc&Hj&Herr); [done|done|lia|].
  set (E := e1 + - k + j + c).
  assert (Zpos M * 2 ^ (c + j) ≤ Zpos M2 * 2 ^ 53) as Hle.
  { rewrite Z.pow_add_r, Z.mul_assoc by lia.
    assert (2 ^ j ≤ 2 ^ 53) by (apply Z.pow_le_mono_r; lia).
    assert (Zpos M1 * Zpos M2 ≤ (2 ^ 53 - 1) * Zpos M2) by (apply Z.mul_le_mono_nonneg_r; lia). lia. }
  assert (E < 0) as HE.
  { destruct (Z.le_gt_cases 0 E) as [H|?]; [|done]. exfalso. rewrite E2 in Hle.
    assert (2 ^ (53 + k) ≤ 2 ^ (c + j)) as Hp by (apply Z.pow_le_mono_r; lia).
    rewrite Z.pow_add_r in Hp by lia. assert (0 < 2 ^ k) by (apply Z.pow_pos_nonneg; lia).
    assert (2 ^ 52 * (2 ^ 53 * 2 ^ k) ≤ Zpos M * 2 ^ (c + j)) by (apply Z.mul_le_mono_nonneg; lia).
    unfold PRECISION_SCALE in *. lia. }
  assert (Zpos M ≤ PRECISION_SCALE * 2 ^ (- E)) as HMle.
  { assert (0 < 2 ^ (c + j)) by (apply Z.pow_pos_nonneg; lia).
    apply (Z.mul_le_mono_pos_r _ _ (2 ^ (c + j))); [done|].
    rewrite <- Z.mul_assoc, <- Z.pow_add_r by lia. replace (- E + (c + j)) with (k - e1) by lia.
    assert (2 ^ (k + 53) ≤ 2 ^ (k - e1)) as Hp by (apply Z.pow_le_mono_r; lia).
    rewrite (Z.pow_add_r 2 k 53) in Hp by lia. rewrite E2 in Hle. unfold PRECISION_SCALE in *. lia. }
  unfold Math_round. destruct (Z.leb_spec 0 E); [lia|]. eexists. split; [reflexivity|].
  assert (0 < 2 ^ (- E)) by (apply Z.pow_pos_nonneg; lia).
  replace (2 ^ (1 - E)) with (2 * 2 ^ (- E)) by (rewrite <- Z.pow_succ_r by lia; f_equal; lia).
  split; [apply Z.div_pos; lia|]. apply Z.lt_succ_r, Z.div_lt_upper_bound; lia.
Qed.

(** A fraction of an amount is between nothing and all of it. *)
Lemma multiply_bounds value factor :
  0 ≤ value → rate factor → ∃ r, multiplyBigintByFactor value factor = Ok r ∧ 0 ≤ r ≤ value.
Proof.
  intros Hv [->|[->|(M&e&->&HM&He)]]; [by exists 0|by exists value|]. unfold multiplyBigintByFactor.
  destruct (num_leb _ _); [by exists 0|]. destruct (num_leb _ _); [by exists value|].
  destruct (rate_scaled M e HM He) as (n&->&Hn). unfold bigint_of_number.
  rewrite num_to_Z_exact by (unfold safe, PRECISION_SCALE in *; lia). cbn [mbind result_bind].
  eexists. split; [reflexivity|]. assert (0 ≤ value * n) by (apply Z.mul_nonneg_nonneg; lia).
  rewrite Z.quot_div_nonneg by done. split; [by apply Z.div_pos|].
  apply Z.div_le_upper_bound; [done|]. rewrite Z.mul_comm. apply Z.mul_le_mono_nonneg_r; lia.
Qed.

Lemma clamp_rate f : rate f → clamp f = f.
Proof.
  intros [->|[->|(M&e&->&HM&He)]]; [reflexivity|reflexivity|]. unfold clamp, Math_min.
  change num_1 with (S754_finite false 4503599627370496 (-52)). change num_0 with (S754_zero false).
  cbn [isNaN orb]. unfold num_ltb, SFltb. rewrite (canonical_compare _ _ _ _ 1100) by lia.
  replace (Zpos M * 2 ^ (e + 1100) ?= 4503599627370496 * 2 ^ (-52 + 1100)) with Lt; [reflexivity|].
  symmetry. apply Z.compare_lt_iff. change 4503599627370496 with (2 ^ 52). rewrite <- Z.pow_add_r by lia.
  assert (0 < 2 ^ (e + 1100)) by (apply Z.pow_pos_nonneg; lia).
  assert (Zpos M * 2 ^ (e + 1100) < 2 ^ 53 * 2 ^ (e + 1100)) by (apply Z.mul_lt_mono_pos_r; lia).
  rewrite <- Z.pow_add_r in * by lia. assert (2 ^ (53 + (e + 1100)) ≤ 2 ^ (52 + (-52 + 1100))) by (apply Z.pow_le_mono_r; lia).
  lia.
Qed.

(** ** Scenarios *)

(** A scenario earns no more than the interest of the whole term and loses no more
    than the principal. *)
Theorem scenario_bounds inputs label u d bps days :
  0 ≤ principalStroops inputs → safe bps → safe days →
  yieldBps inputs = num_of_Z bps → lockDays inputs = num_of_Z days →
  rate u → rate d → rate (collateralRecoveryRate inputs) → rate (num_sub num_1 (collateralRecoveryRate inputs)) →
  ∃ r, computeScenario inputs label u d = Ok r ∧
    0 ≤ grossYieldStroops r
      ≤ principalStroops inputs * bps * (days * SECS_PER_DAY) / (BPS_DENOM * SECS_PER_YEAR) ∧
    0 ≤ defaultLossStroops r ≤ principalStroops inputs ∧
    netReturnStroops r = grossYieldStroops r - defaultLossStroops r.
Proof.
  intros Hp Hb Hd Eb Ed Hu Hdef Hrec Hkept. unfold computeScenario.
  rewrite Eb, Ed, interest_of_integers, !clamp_rate by done. cbn [mbind result_bind].
  set (I := principalStroops inputs * bps * (days * SECS_PER_DAY) / (BPS_DENOM * SECS_PER_YEAR)).
  assert (0 ≤ I) as HI.
  { apply Z.div_pos; [|done]. unfold safe, SECS_PER_DAY in *. repeat apply Z.mul_nonneg_nonneg; lia. }
  destruct (multiply_bounds I u HI Hu) as (gross&->&Hgross). cbn [mbind result_bind].
  destruct (multiply_bounds _ u Hp Hu) as (deployed&->&Hdeployed). cbn [mbind result_bind].
  destruct (multiply_bounds deployed d (proj1 Hdeployed) Hdef) as (rawLoss&->&Hraw). cbn [mbind result_bind].
  destruct (multiply_bounds rawLoss _ (proj1 Hraw) Hkept) as (loss&E&Hloss).
  destruct (Z.ltb_spec 0 rawLoss); [rewrite E|]; cbn [mbind result_bind]; eexists; (split; [reflexivity|]); cbn; lia.
Qed.

(** ** Breaking even *)

Lemma bisect_spec (passes : number → result bool) steps lo hi lo' hi' :
  bisect passes steps lo hi = Ok (lo', hi') → passes hi = Ok true →
  passes hi' = Ok true ∧ (lo' = lo ∨ passes lo' = Ok false).
Proof.
  revert lo hi. induction steps as [|steps IH]; intros lo hi; cbn [bisect]; [intros [= <- <-]; auto|].
  set (mid := num_div _ _). destruct (passes mid) as [[]|e] eqn:E; cbn [mbind result_bind]; intros H Hhi; [..|done].
  - by apply (IH lo mid).
  - destruct (IH mid hi H Hhi) as [H1 [->|H2]]; auto.
Qed.

Lemma pos_compare_cont_sym c m n :
  Pos.compare_cont c m n = CompOpp (Pos.compare_cont (CompOpp c) n m).
Proof. by rewrite Pos.compare_cont_antisym, CompOpp_involutive. Qed.

(** The order of numbers is total, but for [NaN]. *)
Lemma ltb_negb_leb x y : isNaN x = false → isNaN y = false → num_ltb x y = negb (num_leb y x).
Proof.
  intros Hx Hy. unfold num_ltb, num_leb, SFltb, SFleb.
  assert (SFcompare y x = CompOpp <$> SFcompare x y) as ->.
  { destruct x as [[]|[]| |[] mx ex], y as [[]|[]| |[] my ey]; try done; cbn -[Pos.compare_cont];
      rewrite (Z.compare_antisym ex ey); destruct (ex ?= ey); cbn -[Pos.compare_cont]; try done;
      by rewrite ?(pos_compare_cont_sym _ my mx), ?CompOpp_involutive. }
  destruct (SFcompare x y) as [[]|] eqn:E; try done. exfalso.
  destruct x as [[]|[]| |[] mx ex], y as [[]|[]| |[] my ey]; try done; cbn -[Pos.compare_cont] in E;
    destruct (ex ?= ey); discriminate.
Qed.

Lemma isNaN_large z : 2 ^ 52 ≤ z < 2 ^ 900 → isNaN (num_of_Z z) = false.
Proof.
  intros Hz. destruct z as [|p|p]; [lia| |lia]. unfold num_of_Z, binary_normalize, binary_round.
  pose proof (digits2_pos_spec p) as Hd. set (d := Zpos (digits2_pos p)) in *.
  assert (52 < d) as Hd1.
  { destruct (Z.lt_ge_cases 52 d); [done|]. assert (2 ^ d ≤ 2 ^ 52) by (apply Z.pow_le_mono_r; lia). lia. }
  assert (d ≤ 900) as Hd2.
  { destruct (Z.le_gt_cases d 900); [done|]. assert (2 ^ 900 ≤ 2 ^ (d - 1)) by (apply Z.pow_le_mono_r; lia). lia. }
  assert (shl_align p 0 (fexp 53 1024 (d + 0)) = (p, 0)) as ->.
  { unfold shl_align, fexp, SpecFloat.emin. destruct (_ - 0) as [|q|q] eqn:E; [done|done|lia]. }
  destruct (binary_round_aux_spec false (Zpos p) 0 loc_Exact d (Zpos p) 1) as (M&c&R&->&_); [lia|cbn; lia|lia|done|lia|lia|done].
Qed.

Lemma isNaN_integer z : Z.abs z < 2 ^ 900 → isNaN (num_of_Z z) = false.
Proof.
  intros Hz. assert (∀ v, 0 ≤ v < 2 ^ 900 → isNaN (num_of_Z v) = false) as Hpos.
  { intros v Hv. destruct (Z.lt_ge_cases v (2 ^ 52)); [apply isNaN_num_of_Z; unfold safe; lia|apply isNaN_large; lia]. }
  destruct z as [|p|p]; [apply Hpos; lia|apply Hpos; lia|]. rewrite num_of_Z_opp.
  specialize (Hpos (Zpos p) ltac:(lia)). by destruct (num_of_Z (Zpos p)).
Qed.

(** What the search returns. With no answer, full utilization does not clear the
    bar. An answer is the middle of an interval of which the upper end clears it and
    the lower end, unless it is 0, does not. *)
Theorem breakeven_correct inputs savingsRatePct answer atFull :
  let bar := savings_yield inputs savingsRatePct in
  isNaN bar = false →
  computeScenario inputs BaseCase num_1 (defaultRate inputs) = Ok atFull → Z.abs (netReturnStroops atFull) < 2 ^ 900 →
  breakevenUtilization inputs savingsRatePct = Ok answer →
  match answer with
  | None => clears inputs bar num_1 = Ok false
  | Some u => ∃ lo hi, u = num_div (num_add lo hi) (num_of_Z 2) ∧ clears inputs bar hi = Ok true ∧
      (lo = num_0 ∨ clears inputs bar lo = Ok false)
  end.
Proof.
  intros bar Hbar Hfull Hnet. unfold breakevenUtilization. fold bar. rewrite Hfull. cbn [mbind result_bind].
  rewrite ltb_negb_leb by (done || by apply isNaN_integer).
  assert (clears inputs bar num_1 = Ok (num_leb bar (num_of_Z (netReturnStroops atFull)))) as Hc
    by (unfold clears; by rewrite Hfull).
  destruct (num_leb bar _); cbn [negb]; [|by intros [= <-]].
  destruct (bisect _ _ _ _) as [[lo hi]|e] eqn:E; cbn [mbind result_bind]; [|done]. intros [= <-].
  destruct (bisect_spec _ _ _ _ _ _ E Hc) as [Hhi Hlo]. eauto.
Qed.

(** ** The calculators *)

(** components/APYCalculator.tsx: the rate is the live one of the token, else that of the
    pool's configuration, else 8 %. *)
Module Calculator.

Definition DEFAULT_YIELD_BPS : number := num_of_Z 800.
(** What is kept of the answer for the token. *)
Definition liveCurveRate (token : option string) (answer : result number) : option number :=
  match token, answer with
  | None, _ | Some "", _ => None
  | Some _, Ok rate => Some rate
  | Some _, Throw _ => None
  end.
Definition yieldBps (live pool : option number) : number := default (default DEFAULT_YIELD_BPS pool) live.
Definition hasValidPoolRate (rate : number) : bool := num_leb (num_of_Z 0) rate.
Definition isFallbackRate (live pool : option number) : bool :=
  match live, pool with None, None => true | _, _ => false end.

(** The interest and the total. *)
Definition projection (rate : number) (depositInput lockDaysInput : string) : result (Z * Z) :=
  if num_ltb rate (num_of_Z 0) then Ok (0, 0)
  else
    let deposit := parseFloat depositInput in
    if negb (isFinite deposit) || num_leb deposit (num_of_Z 0) then Ok (0, 0)
    else
      match parseInt lockDaysInput with
      | None => Ok (0, 0)
      | Some days =>
          if days <? 1 then Ok (0, 0)
          else
            principalStroops ← toStroops deposit;
            interestStroops ← projectedInterestStroops principalStroops rate (num_of_Z days);
            Ok (interestStroops, principalStroops + interestStroops)
      end.

End Calculator.

(** components/ScenarioModeler.tsx. *)
Module Modeler.

Definition SAVINGS_RATE_PCT : number := num_of_Z 5.

Record Inputs := {
  depositUSDC : number; mo_lockDays : number; yieldOverride : option number; mo_utilization : number;
  mo_defaultRate : number; collateralRecovery : number; useOverride : bool }.

Definition initial : Inputs := {|
  depositUSDC := num_of_Z 10000; mo_lockDays := num_of_Z 90; yieldOverride := None;
  mo_utilization := num_of_ratio 4 5; mo_defaultRate := num_of_ratio 1 50;
  collateralRecovery := num_of_ratio 7 10; useOverride := false |}.

Definition effectiveYieldBps (yieldBps : option number) (s : Inputs) : number :=
  match useOverride s, yieldOverride s with
  | true, Some n => n
  | _, _ => default (num_of_Z 800) yieldBps
  end.

Definition inputs_of (yieldBps : option number) (s : Inputs) (principal : Z) : ScenarioInputs := {|
  principalStroops := principal; Apy.yieldBps := effectiveYieldBps yieldBps s; lockDays := mo_lockDays s;
  utilizationRate := mo_utilization s; defaultRate := mo_defaultRate s; collateralRecoveryRate := collateralRecovery s |}.

Definition scenarios (yieldBps : option number) (s : Inputs) : result (list ScenarioResult) :=
  principal ← toStroops (depositUSDC s); computeAllScenarios (inputs_of yieldBps s principal).
Definition breakeven (yieldBps : option number) (s : Inputs) : result (option number) :=
  principal ← toStroops (depositUSDC s); breakevenUtilization (inputs_of yieldBps s principal) SAVINGS_RATE_PCT.

(** [Math.abs(Number(n))]. *)
Definition abs_number (n : Z) : number := num_of_Z (Z.abs n).
Definition maxAbsReturn (l : list ScenarioResult) : number :=
  foldr (λ r m, Math_max (abs_number (netReturnStroops r)) m) num_1 l.
Definition barWidth (maxAbs : number) (r : ScenarioResult) : number :=
  if num_ltb num_0 maxAbs then num_mul (num_div (abs_number (netReturnStroops r)) maxAbs) (num_of_Z 100) else num_0.

Definition hasValidRate (yieldBps : option number) : bool :=
  match yieldBps with Some n => num_leb num_0 n | None => false end.
Definition isReady (loading : bool) (yieldBps : option number) (s : Inputs) : bool :=
  negb loading && (hasValidRate yieldBps || useOverride s).

End Modeler.

(** app/admin/waterfall-simulation/page.tsx. *)
Module Waterfall.

Record Form := { wf_invoiceId : number; wf_totalDue : number; wf_seniorPrincipal : number; wf_juniorPrincipal : number;
  wf_seniorTargetYieldBps : number; wf_elapsedSecs : number }.
Definition DAYS : Z := 24 * 60 * 60.
Definition initial : Form := {| wf_invoiceId := num_of_Z 1; wf_totalDue := num_of_Z 1000;
  wf_seniorPrincipal := num_of_Z 800; wf_juniorPrincipal := num_of_Z 200; wf_seniorTargetYieldBps := num_of_Z 1000;
  wf_elapsedSecs := num_of_Z (30 * DAYS) |}.
(** The buttons under the form: repaid in full, in part, not at all. *)
Definition preset (totalDue days : Z) (f : Form) : Form := {| wf_invoiceId := wf_invoiceId f;
  wf_totalDue := num_of_Z totalDue; wf_seniorPrincipal := num_of_Z 800; wf_juniorPrincipal := num_of_Z 200;
  wf_seniorTargetYieldBps := wf_seniorTargetYieldBps f; wf_elapsedSecs := num_of_Z (days * DAYS) |}.
Definition presets : list (Form → Form) := [preset 1100 30; preset 500 15; preset 0 60].

Record WaterfallResult := { seniorAmount : Z; juniorAmount : Z; seniorCap : Z; elapsedYield : Z }.

Definition elapsed_yield (f : Form) : number :=
  num_div (num_mul (num_mul (wf_seniorPrincipal f) (wf_seniorTargetYieldBps f)) (wf_elapsedSecs f))
    (num_of_Z (365 * 24 * 60 * 60 * 10000)).
Definition to_units (x : number) : result Z := bigint_of_number (Math_round (num_mul x (num_of_Z 10000000))).

Definition simulateWaterfall (f : Form) : result WaterfallResult :=
  let cap := num_add (wf_seniorPrincipal f) (elapsed_yield f) in
  let senior := Math_min (wf_totalDue f) cap in
  let junior := Math_max num_0 (num_sub (wf_totalDue f) senior) in
  seniorAmount ← to_units senior;
  juniorAmount ← to_units junior;
  seniorCap ← to_units cap;
  elapsedYield ← to_units (elapsed_yield f);
  Ok {| seniorAmount := seniorAmount; juniorAmount := juniorAmount; seniorCap := seniorCap; elapsedYield := elapsedYield |}.

Record Losses := { juniorLoss : number; seniorLoss : number; shortfall : number }.

Definition simulateLossAllocation (f : Form) : Losses :=
  let shortfall := Math_max num_0 (num_sub (num_add (wf_seniorPrincipal f) (wf_juniorPrincipal f)) (wf_totalDue f)) in
  let juniorRemaining := wf_juniorPrincipal f in
  {| juniorLoss := Math_min shortfall juniorRemaining;
     seniorLoss := Math_max num_0 (num_sub shortfall juniorRemaining); shortfall := shortfall |}.

(** contracts/tranche/src/math.rs, on [u128] that saturates: the junior tranche bears its
    share of the first loss. *)
Definition calculate_loss_allocation (shortfall junior_remaining junior_first_loss_bps : Z) : Z * Z :=
  let max_junior_loss := Z.min Contract.u128_MAX (junior_remaining * junior_first_loss_bps) / 10000 in
  if shortfall <=? max_junior_loss then (shortfall, 0) else (max_junior_loss, shortfall - max_junior_loss).

(** [calculate_waterfall_split] of the same file: the cap's interest is rounded down. *)
Definition calculate_waterfall_split (total_due senior_principal senior_target_yield_bps elapsed_secs : Z) : Z * Z :=
  let product := Z.min Contract.u128_MAX (Z.min Contract.u128_MAX (senior_principal * senior_target_yield_bps) * elapsed_secs) in
  let senior_cap := senior_principal + product / 10000 / (365 * 24 * 60 * 60) in
  let senior_amount := if senior_cap <=? total_due then senior_cap else total_due in
  (senior_amount, total_due - senior_amount).

(** What falls short, never less than nothing. *)
Lemma max_zero_difference a b : safe a → safe b → Math_max num_0 (num_sub (num_of_Z a) (num_of_Z b)) = num_of_Z (Z.max 0 (a - b)).
Proof.
  intros Ha Hb. destruct (Z.le_gt_cases b a).
  - rewrite num_sub_exact by done. apply Math_max_exact; [done|unfold safe in *; lia].
  - rewrite num_sub_less, Z.max_l by (done || lia).
    destruct (safe_cases (b - a)) as [?|[(M&k&->&_) _]]; [unfold safe in *; lia|lia|]. reflexivity.
Qed.

(** On whole amounts the page allocates a loss as the contract does whose junior tranche
    bears the first loss with all its capital; nothing is lost beside what falls short,
    and the senior tranche loses only when the junior one has lost all. *)
Theorem losses_match_contract f senior junior due :
  wf_seniorPrincipal f = num_of_Z senior → wf_juniorPrincipal f = num_of_Z junior → wf_totalDue f = num_of_Z due →
  safe senior → safe junior → safe due → safe (senior + junior) →
  let short := Z.max 0 (senior + junior - due) in
  let '(j, s) := calculate_loss_allocation short junior 10000 in
  simulateLossAllocation f = {| juniorLoss := num_of_Z j; seniorLoss := num_of_Z s; shortfall := num_of_Z short |} ∧
  j + s = short ∧ (0 < s → j = junior).
Proof.
  intros Es Ej Ed Hs Hj Hd Hsum short. unfold simulateLossAllocation. rewrite Es, Ej, Ed, num_add_exact by (done || apply Hsum).
  rewrite max_zero_difference by done. fold short. assert (safe short) as Hshort by (unfold short, safe in *; lia).
  rewrite Math_min_exact, max_zero_difference by done. unfold calculate_loss_allocation.
  rewrite Z.min_r by (unfold safe, Contract.u128_MAX in *; lia). rewrite Z.div_mul by done.
  destruct (Z.leb_spec short junior); (split; [f_equal; f_equal; lia|lia]).
Qed.

(** A contract whose junior tranche bears less of the first loss lets the senior tranche
    lose more than the page says. *)
Example half_first_loss :
  calculate_loss_allocation 100 200 2500 = (50, 50) ∧
  simulateLossAllocation {| wf_invoiceId := num_0; wf_totalDue := num_of_Z 900; wf_seniorPrincipal := num_of_Z 800;
    wf_juniorPrincipal := num_of_Z 200; wf_seniorTargetYieldBps := num_0; wf_elapsedSecs := num_0 |}
  = {| juniorLoss := num_of_Z 100; seniorLoss := num_of_Z 0; shortfall := num_of_Z 100 |}.
Proof. by vm_compute. Qed.

(** Up to its cap the senior tranche is paid first, and all of what is due. *)
Theorem senior_is_paid_first f due r :
  wf_totalDue f = num_of_Z due → safe due →
  isNaN (num_add (wf_seniorPrincipal f) (elapsed_yield f)) = false →
  num_ltb (num_add (wf_seniorPrincipal f) (elapsed_yield f)) (num_of_Z due) = false →
  simulateWaterfall f = Ok r → to_units (num_of_Z due) = Ok (seniorAmount r) ∧ juniorAmount r = 0.
Proof.
  intros Ed Hd Hcap Hle. set (cap := num_add _ _) in *. assert (Math_min (num_of_Z due) cap = num_of_Z due) as E.
  { unfold Math_min. by rewrite isNaN_num_of_Z, Hcap, Hle. }
  unfold simulateWaterfall. fold cap. rewrite Ed, E.
  rewrite max_zero_difference, Z.sub_diag, Z.max_id by done. change (to_units (num_of_Z 0)) with (Ok 0 : result Z).
  destruct (to_units (num_of_Z due)) as [senior|e]; cbn [mbind result_bind]; [|done].
  destruct (to_units cap) as [c|e]; cbn [mbind result_bind]; [|done].
  destruct (to_units _) as [yield|e]; cbn [mbind result_bind]; [|done]. by intros [= <-].
Qed.

(** The form as it is shown first: the senior tranche is paid a stroop more than the
    contract pays, which drops the fraction that the page rounds. *)
Example initial_split :
  (λ r, (seniorAmount r, juniorAmount r)) <$> match simulateWaterfall initial with Ok r => Some r | Throw _ => None end
  = Some (8065753425, 1934246575) ∧
  calculate_waterfall_split 10000000000 8000000000 1000 (30 * DAYS) = (8065753424, 1934246576).
Proof. by vm_compute. Qed.

End Waterfall.

(** What is modelled first: 10,000 dollars for 90 days at 8 %. *)
Example initial_scenarios :
  match Modeler.scenarios None Modeler.initial with
  | Ok l => map (λ r, (grossYieldStroops r, defaultLossStroops r)) l
  | Throw _ => []
  end = [(1972602739, 0); (1578082191, 480000000); (1183561643, 1440000000)].
Proof. by vm_compute. Qed.

(** What the calculator shows is what the pool's contract will pay, or a stroop less of
    interest, when the rate is of whole basis points. *)
Theorem calculator_matches_contract rate depositInput lockDaysInput days principal i :
  safe rate → safe days → 1 ≤ days → 0 ≤ principal →
  parseInt lockDaysInput = Some days → toStroops (parseFloat depositInput) = Ok principal →
  isFinite (parseFloat depositInput) = true → num_leb (parseFloat depositInput) (num_of_Z 0) = false →
  Contract.calculate_interest principal rate (days * SECS_PER_DAY) = Some i →
  ∃ shown, Calculator.projection (num_of_Z rate) depositInput lockDaysInput = Ok (shown, principal + shown) ∧
    shown ≤ i ≤ shown + 1.
Proof.
  intros Hr Hd H1 Hp Edays Edep Hfin Hpos Hi. unfold Calculator.projection.
  rewrite num_ltb_exact, Edays, Hfin, Hpos by done. rewrite (proj2 (Z.ltb_ge rate 0)) by apply Hr. cbn [negb orb].
  rewrite (proj2 (Z.ltb_ge days 1)), Edep by done. cbn [mbind result_bind].
  destruct (projection_matches_contract principal rate days i Hp Hr Hd Hi) as (p&->&Hpi). cbn [mbind result_bind]. by exists p.
Qed.
