(* ===== verification/Revenue.v ===== *)
(** * frontend/lib/revenue.ts: the revenue dashboard

    [fetchRevenueData] gathers fees, balances, invoices and events into one record,
    kept for five minutes. Months and weeks, their names, and the time of a text are
    the calendar's: arguments. *)
From S2P Require Import Prelude.
From S2P Require Import JsValue.
From S2P Require Import JsNumber.
From S2P Require Import JsArith.
From S2P Require Import Sdk.
From S2P Require Import Abi.
From S2P Require Import ContractAbi.
From S2P Require Import RpcPool.
From S2P Require Import Stellar.
From S2P Require Import Amounts.
From S2P Require Import WebAbi.
From S2P Require Import WebInvoice.
From S2P Require Import WebPool.
From S2P Require Import WebKyc.
From Stdlib Require Import SpecFloat.
#[local] Open Scope string_scope.
#[local] Open Scope list_scope.
#[local] Open Scope Z_scope.

(** ** A page's data, kept for a while

    The shape fetchRevenueData (revenue.ts) and fetchAnalyticsData (analytics.ts) share:
    a variable of the module keeps the last data with the time it was gathered; a
    failure to gather is answered with empty data, which is not kept. *)
Module TtlCache.
Section cache.
Context {S D : Type} (now : S → Z) (gather : M S D) (none : D) (ttl : Z).

(** The variable, beside the rest of the state. *)
Record Kept := { rest : S; cache : option (D * Z) }.

Definition refetch : M Kept D := λ s,
  match gather (rest s) with
  | (Ok data, r) => (Ok data, {| rest := r; cache := Some (data, now r) |})
  | (Throw _, r) => (Ok none, {| rest := r; cache := cache s |})
  end.

Definition fetch_kept : M Kept D := λ s,
  match cache s with
  | Some (data, fetchedAt) => if now (rest s) - fetchedAt <? ttl then (Ok data, s) else refetch s
  | None => refetch s
  end.

Definition clear_kept : M Kept unit := λ s, (Ok tt, {| rest := rest s; cache := None |}).

Lemma refetch_spec s : ∃ data s', refetch s = (Ok data, s') ∧
  (cache s' = Some (data, now (rest s')) ∨ (data = none ∧ cache s' = cache s)).
Proof. unfold refetch. destruct (gather (rest s)) as [[data|e] r]; eauto 10. Qed.

(** The data is what was kept less than [ttl] ago, with nothing read; or what was
    gathered now, and is kept; or the empty data, and what is kept stays. It is
    never an exception. *)
Lemma fetch_kept_spec s : ∃ data s', fetch_kept s = (Ok data, s') ∧
  match cache s with
  | Some (kept, fetchedAt) =>
      if now (rest s) <? fetchedAt + ttl then data = kept ∧ s' = s
      else cache s' = Some (data, now (rest s')) ∨ (data = none ∧ cache s' = cache s)
  | None => cache s' = Some (data, now (rest s')) ∨ (data = none ∧ cache s' = None)
  end.
Proof.
  destruct (refetch_spec s) as (data&s'&E&H). unfold fetch_kept.
  destruct (cache s) as [[kept at_]|] eqn:Hc; [|rewrite E; eauto].
  destruct (Z.ltb_spec (now (rest s) - at_) ttl), (Z.ltb_spec (now (rest s)) (at_ + ttl)); try lia; [eauto 6|].
  rewrite E. eauto.
Qed.

End cache.
Arguments Kept : clear implicits.
End TtlCache.
Import TtlCache.

Definition CACHE_TTL_MS : Z := 5 * 60 * 1000.
Definition EVENT_LOOKBACK_LEDGERS : Z := 17280 * 30.
Definition INVOICE_BATCH_SIZE : nat := 20.
Definition STROOPS_PER_UNIT : Z := 10000000.

(** The [for] over the slices, with at most [fuel] of them. *)
Fixpoint chunks {A} (fuel size : nat) (items : list A) : list (list A) :=
  match fuel, items with
  | S fuel', _ :: _ => take size items :: chunks fuel' size (drop size items)
  | _, _ => []
  end.
Definition chunk {A} (items : list A) (size : nat) : list (list A) := chunks (length items) size items.

(** ** The records *)

Record TokenRevenue := {
  tr_token : jsval; tr_label : string; tr_cumulativeFees : Z; tr_pendingFees : Z; tr_treasuryBalance : Z }.
Record RevenuePoint := { rp_key : string; rp_label : string; rp_fees : number; rp_fundedVolume : number }.
Record FeeVsVolumePoint := { fv_label : string; fv_feeRatePct : number; fv_fundedVolume : number }.
Record FeeWithdrawal := {
  fw_token : string; fw_label : string; fw_amount : Z; fw_at : number; fw_treasury : string }.
Record VolumeMetrics := {
  totalFunded : Z; activeToday : Z; activeThisWeek : Z; activeThisMonth : Z;
  uniqueBorrowers : Z; uniqueLenders : Z }.
Record RevenueDashboardData := {
  feeRateBps : number;
  cumulativeFees : Z;
  pendingFees : Z;
  averageFeePerInvoice : number;
  perToken : list TokenRevenue;
  monthly : list RevenuePoint;
  weekly : list RevenuePoint;
  feeVsVolume : list FeeVsVolumePoint;
  treasuryAddress : option jsval;
  lastWithdrawal : option FeeWithdrawal;
  volume : VolumeMetrics
}.

Definition no_volume : VolumeMetrics := {|
  totalFunded := 0; activeToday := 0; activeThisWeek := 0; activeThisMonth := 0;
  uniqueBorrowers := 0; uniqueLenders := 0 |}.

Definition emptyRevenueData : RevenueDashboardData := {|
  feeRateBps := num_of_Z 0; cumulativeFees := 0; pendingFees := 0; averageFeePerInvoice := num_of_Z 0;
  perToken := []; monthly := []; weekly := []; feeVsVolume := []; treasuryAddress := None;
  lastWithdrawal := None; volume := no_volume |}.

(** ** The series *)

(** [0.5 + (i / Math.max(1, buckets - 1)) * 1.0]. *)
Definition weight (buckets i : Z) : number :=
  num_add (num_of_ratio 1 2)
    (num_mul (num_div (num_of_Z i) (num_of_Z (Z.max 1 (buckets - 1)))) (num_of_Z 1)).

Definition allocateSeries (total buckets : Z) : list number :=
  let humanTotal := num_div (num_of_Z total) (num_of_Z STROOPS_PER_UNIT) in
  if num_leb humanTotal (num_of_Z 0) then map (λ _, num_of_Z 0) (seqZ 0 buckets)
  else
    let weights := map (weight buckets) (seqZ 0 buckets) in
    let weightSum := foldl num_add (num_of_Z 0) weights in
    map (λ w, num_div (num_mul humanTotal w) weightSum) weights.

(** [Math.round(x * 100) / 100]. *)
Definition cents (x : number) : number :=
  num_div (Math_round (num_mul x (num_of_Z 100))) (num_of_Z 100).

(** The [buckets] points, oldest first; [point i] is the key and the name of the one
    [i] months or weeks ago. *)
Definition series (buckets : Z) (point : Z → string * string) (cumulativeFees fundedVolume : Z) : list RevenuePoint :=
  let fees := allocateSeries cumulativeFees buckets in
  let volume := allocateSeries fundedVolume buckets in
  zip_with (λ j fv,
      let '(key, label) := point (buckets - 1 - j) in
      {| rp_key := key; rp_label := label; rp_fees := cents fv.1; rp_fundedVolume := cents fv.2 |})
    (seqZ 0 buckets) (zip fees volume).

Definition buildMonthlySeries : (Z → string * string) → Z → Z → list RevenuePoint := series 12.
Definition buildWeeklySeries : (Z → string * string) → Z → Z → list RevenuePoint := series 8.

Definition buildFeeVsVolume (monthly : list RevenuePoint) (feeRateBps : number) : list FeeVsVolumePoint :=
  let feeRatePct := num_div (Math_round feeRateBps) (num_of_Z 100) in
  map (λ m, {| fv_label := rp_label m; fv_feeRatePct := feeRatePct; fv_fundedVolume := rp_fundedVolume m |}) monthly.

(** ** Events of the pool, decoded *)

Record RawPoolEvent := { ledgerCloseAt : string; re_topic : list jsval; re_value : jsval }.

(** [String(evt.topic[1])]; [evt.value[i]], of an empty array when it is none. *)
Definition topic_of (evt : RawPoolEvent) : string := js_String (arr_get (re_topic evt) 1).
Definition value_at (evt : RawPoolEvent) (i : nat) : jsval :=
  match re_value evt with JArr l => arr_get l i | _ => JUndef end.

Record Withdrawal := { wd_evt : RawPoolEvent; wd_token : string; wd_amount : Z; wd_treasury : string }.

(** The withdrawal an event is, if it is one; the amount may throw. *)
Definition withdrawal_of (evt : RawPoolEvent) : result (option Withdrawal) :=
  if negb (String.eqb (topic_of evt) "rev_wdraw") then Ok None
  else
    let token := js_String (js_coalesce (value_at evt 0) (JStr "")) in
    amount ← to_BigInt (JStr (js_String (js_coalesce (value_at evt 1) (JNum 0))));
    let treasury := js_String (js_coalesce (value_at evt 2) (JStr "")) in
    Ok (if String.eqb token "" then None
        else Some {| wd_evt := evt; wd_token := token; wd_amount := amount; wd_treasury := treasury |}).

(** [a > b], texts compared by their codes. *)
Definition str_gtb (a b : string) : bool := String.ltb b a.

Definition later (latest : option Withdrawal) (w : Withdrawal) : bool :=
  match latest with
  | None => true
  | Some l => str_gtb (ledgerCloseAt (wd_evt w)) (ledgerCloseAt (wd_evt l))
  end.

Fixpoint latest_withdrawal (events : list RawPoolEvent) (latest : option Withdrawal) : result (option Withdrawal) :=
  match events with
  | [] => Ok latest
  | evt :: events' =>
      w ← withdrawal_of evt;
      latest_withdrawal events' (match w with Some w => if later latest w then Some w else latest | None => latest end)
  end.

Section dashboard.
Context (env : StablecoinIds) (getTime : string → number).

Definition extractLastWithdrawal (events : list RawPoolEvent) : result (option FeeWithdrawal) :=
  latest ← latest_withdrawal events None;
  Ok (match latest with
      | None => None
      | Some l => Some {|
          fw_token := wd_token l; fw_label := stablecoinLabel env (wd_token l); fw_amount := wd_amount l;
          fw_at := Math_floor (num_div (getTime (ledgerCloseAt (wd_evt l))) (num_of_Z 1000));
          fw_treasury := wd_treasury l |}
      end).

(** The lender of an event, [''] when there is none. *)
Definition lender_of (evt : RawPoolEvent) : string :=
  if String.eqb (topic_of evt) "deposit" then js_String (js_coalesce (value_at evt 0) (JStr "")) else "".

Definition add_text (l : list string) (s : string) : list string := if String.eqb s "" then l else set_add s l.

Definition countUniqueLenders (events : list RawPoolEvent) : Z :=
  lengthZ (foldl (λ lenders evt, add_text lenders (lender_of evt)) [] events).

(** ** Volume

    Invoices as [getMultipleInvoices] returns them: values that are taken to have the
    fields of [Invoice]. *)
Definition FUNDED_STATUSES : list string := ["Funded"; "Paid"; "Defaulted"; "Disputed"].
Definition is_funded (status : jsval) : bool :=
  match status with JStr s => one_of FUNDED_STATUSES s | _ => false end.

(** The sums so far, and the borrowers. Adding a number to a bigint throws; amounts
    that are texts, which only the mock service has, are not considered. *)
Record Volume := { v_metrics : VolumeMetrics; v_borrowers : list string }.

Definition add_amount (v : Volume) (amount : Z) (owner : string) (age : option number) : Volume :=
  let m := v_metrics v in
  let within days n := match age with
    | Some a => if num_leb a (num_of_Z (days * 86400000)) then n + amount else n
    | None => n
    end in
  {| v_metrics := {|
       totalFunded := totalFunded m + amount;
       activeToday := within 1 (activeToday m);
       activeThisWeek := within 7 (activeThisWeek m);
       activeThisMonth := within 30 (activeThisMonth m);
       uniqueBorrowers := uniqueBorrowers m; uniqueLenders := uniqueLenders m |};
     v_borrowers := add_text (v_borrowers v) owner |}.

Definition add_invoice (now : Z) (v : Volume) (inv : jsval) : result Volume :=
  status ← get_prop inv "status";
  if negb (is_funded status) then Ok v
  else
    amount ← get_prop inv "amount";
    match js_coalesce amount (JBig 0) with
    | JBig n =>
        owner ← get_prop inv "owner";
        fundedAt ← get_prop inv "fundedAt";
        let fundedAtMs := if truthy fundedAt then num_mul (js_Number fundedAt) (num_of_Z 1000) else num_of_Z 0 in
        Ok (add_amount v n (if truthy owner then js_String owner else "")
              (if num_ltb (num_of_Z 0) fundedAtMs then Some (num_sub (num_of_Z now) fundedAtMs) else None))
    | _ => Throw (ETypeError "Cannot mix BigInt and other types, use explicit conversions")
    end.

Fixpoint add_invoices (now : Z) (v : Volume) (invoices : list jsval) : result Volume :=
  match invoices with
  | [] => Ok v
  | inv :: invoices' => v' ← add_invoice now v inv; add_invoices now v' invoices'
  end.

Definition buildVolumeMetrics (now : Z) (invoices : list jsval) : result VolumeMetrics :=
  v ← add_invoices now {| v_metrics := no_volume; v_borrowers := [] |} invoices;
  let m := v_metrics v in
  Ok {| totalFunded := totalFunded m; activeToday := activeToday m; activeThisWeek := activeThisWeek m;
        activeThisMonth := activeThisMonth m; uniqueBorrowers := lengthZ (v_borrowers v); uniqueLenders := 0 |}.

(** ** The dashboard *)

Context {W : Type} (X : Chain W).
Context (getLatestLedger : string → M W Z) (getEvents : string → Z → M W (list RawPoolEvent)).
Context (month_point week_point : W → Z → string * string).

(** [p.catch(() => none)]: [WebAbi.or_else]. The events of the last 30 days, decoded;
    none when that fails. *)
Definition fetchPoolEvents : M (Rpc (W := W)) (list RawPoolEvent) :=
  or_else []
    (sequence ← rpcExecute X getLatestLedger;
     rpcExecute X (λ u, getEvents u (Z.max 1 (sequence - EVENT_LOOKBACK_LEDGERS)))).

(** A decoded field. *)
Definition field_of (fields : list (string * value)) (name : string) : option value :=
  snd <$> find (λ f, String.eqb f.1 name) fields.
Definition big_field (fields : option (list (string * value))) (name : string) : Z :=
  match fields ≫= λ fs, field_of fs name with Some (VBig n) => n | _ => 0 end.
Definition num_field (fields : option (list (string * value))) (name : string) : number :=
  match fields ≫= λ fs, field_of fs name with Some (VNum n) => n | _ => num_of_Z 0 end.

(** [p.catch(() => null)] of a [p] that is not [null] by itself. *)
Definition or_null {A} (m : M (Rpc (W := W)) A) : M (Rpc (W := W)) (option A) :=
  or_else None (a ← m; mret (Some a)).

Definition token_revenue (treasury : option jsval) (token : jsval) : M (Rpc (W := W)) TokenRevenue :=
  totals ← or_null (getPoolTokenTotals X (js_String token));
  pending ← or_else 0 (getProtocolRevenue X (js_String token));
  balance ← match treasury with
            | Some t => or_else 0 (getTokenBalanceOf X (js_String token) (js_String t))
            | None => mret 0
            end;
  mret {| tr_token := token; tr_label := stablecoinLabel env (js_String token);
          tr_cumulativeFees := big_field totals "totalFeeRevenue"; tr_pendingFees := pending;
          tr_treasuryBalance := balance |}.

Definition now : M (Rpc (W := W)) W := λ s, (Ok (world s), s).

(** [Array.from({ length }, (_, i) => i + 1)]. *)
Definition ids_up_to (count : number) : list Z := seqZ 1 (Z.max 0 (default 0 (floor_Z count))).

(** [treasuryAddress ? .. : 0n] and the tokens of the pool. *)
Definition truthy_opt (v : option jsval) : option jsval :=
  match v with Some v => if truthy v then Some v else None | None => None end.

Definition gather_volume (events : list RawPoolEvent) (invoices : list jsval) (t : Z) : result VolumeMetrics :=
  v ← buildVolumeMetrics t invoices;
  Ok {| totalFunded := totalFunded v; activeToday := activeToday v; activeThisWeek := activeThisWeek v;
        activeThisMonth := activeThisMonth v; uniqueBorrowers := uniqueBorrowers v;
        uniqueLenders := countUniqueLenders events |}.

Definition funded_count (invoices : list jsval) : Z :=
  lengthZ (List.filter (λ i, is_funded (get_prop_opt i "status")) invoices).

(** The payload, of what was gathered. *)
Definition dashboard_data (w : W) (config : option (list (string * value))) (treasury : option jsval)
    (perToken : list TokenRevenue) (events : list RawPoolEvent) (invoices : list jsval) : result RevenueDashboardData :=
  let fees := sum_by tr_cumulativeFees perToken in
  let pending := sum_by tr_pendingFees perToken in
  volume ← gather_volume events invoices (ch_now X w);
  let monthly := buildMonthlySeries (month_point w) fees (totalFunded volume) in
  let feeRate := num_field config "factoringFeeBps" in
  let funded := funded_count invoices in
  last ← extractLastWithdrawal events;
  Ok {|
    feeRateBps := feeRate; cumulativeFees := fees; pendingFees := pending;
    averageFeePerInvoice :=
      if 0 <? funded
      then num_div (num_div (num_of_Z fees) (num_of_Z STROOPS_PER_UNIT)) (num_of_Z funded)
      else num_of_Z 0;
    perToken := perToken; monthly := monthly;
    weekly := buildWeeklySeries (week_point w) fees (totalFunded volume);
    feeVsVolume := buildFeeVsVolume monthly feeRate;
    treasuryAddress := treasury; lastWithdrawal := last; volume := volume |}.

Definition gather : M (Rpc (W := W)) RevenueDashboardData :=
  config ← or_null (getPoolConfig X);
  tokens ← or_else (JArr []) (getAcceptedTokens X);
  treasury ← or_else None (getTreasuryAddress X);
  invoiceCount ← or_else (num_of_Z 0) (getInvoiceCount X);
  events ← fetchPoolEvents;
  invoices ← mapM (λ group, or_else [] (getMultipleInvoices X None group)) (chunk (ids_up_to invoiceCount) INVOICE_BATCH_SIZE);
  tokens ← lift_result (array tokens);
  perToken ← mapM (token_revenue (truthy_opt treasury)) tokens;
  w ← now;
  lift_result (dashboard_data w config treasury perToken events (concat invoices)).

(** [revenueCache], beside the connections. *)
Definition Dashboard : Type := Kept (Rpc (W := W)) RevenueDashboardData.

Definition fetchRevenueData : M Dashboard RevenueDashboardData :=
  fetch_kept (λ s : Rpc, ch_now X (world s)) gather emptyRevenueData CACHE_TTL_MS.

Definition clearRevenueCache : M Dashboard unit := clear_kept.

(** ** The snapshot of the treasury, which is not kept *)

Record TreasurySnapshot := {
  ts_treasuryAddress : option jsval; ts_balances : list (jsval * string * Z) }.

Definition token_balance (treasury : option jsval) (token : jsval) : M (Rpc (W := W)) (jsval * string * Z) :=
  balance ← match treasury with
            | Some t => or_else 0 (getTokenBalanceOf X (js_String token) (js_String t))
            | None => mret 0
            end;
  mret (token, stablecoinLabel env (js_String token), balance).

Definition fetchTreasurySnapshot : M (Rpc (W := W)) TreasurySnapshot :=
  or_else {| ts_treasuryAddress := None; ts_balances := [] |}
    (treasury ← or_else None (getTreasuryAddress X);
     tokens ← or_else (JArr []) (getAcceptedTokens X);
     tokens ← lift_result (array tokens);
     balances ← mapM (token_balance (truthy_opt treasury)) tokens;
     mret {| ts_treasuryAddress := treasury; ts_balances := balances |}).

End dashboard.

(** ** Slices *)

Lemma chunks_spec {A} size (items : list A) : (0 < size)%nat → ∀ fuel, (length items ≤ fuel)%nat →
  concat (chunks fuel size items) = items ∧ Forall (λ g, 0 < length g ≤ size)%nat (chunks fuel size items).
Proof.
  intros Hs fuel. revert items. induction fuel as [|fuel IH]; intros [|x items] Hl; cbn [length] in Hl; [done|lia|done|].
  cbn [chunks concat]. destruct (IH (drop size (x :: items))) as [H1 H2].
  - rewrite length_drop. cbn [length]. lia.
  - split; [by rewrite H1, take_drop|]. constructor; [|done]. rewrite length_take. cbn [length]. lia.
Qed.

(** The slices put together are the list, and none is empty or longer than [size]. *)
Lemma chunk_spec {A} (items : list A) size : (0 < size)%nat →
  concat (chunk items size) = items ∧ Forall (λ g, 0 < length g ≤ size)%nat (chunk items size).
Proof. intros Hs. by apply chunks_spec. Qed.

(** ** Events *)

(** The withdrawals of a list of events, in order. *)
Definition withdrawals (events : list RawPoolEvent) : result (list Withdrawal) :=
  l ← mapM withdrawal_of events; Ok (omap id l).

(** [w] is the latest of [l]: none is later, and the ones before it are earlier. *)
Definition is_latest (l : list Withdrawal) (w : Withdrawal) : Prop :=
  ∃ before after, l = before ++ w :: after ∧
    Forall (λ v, later (Some v) w = true) before ∧ Forall (λ v, later (Some w) v = false) after.

Definition closed (w : Withdrawal) : string := ledgerCloseAt (wd_evt w).

Lemma string_ltb_trans a b c : String.ltb a b = true → String.ltb b c = true → String.ltb a c = true.
Proof.
  unfold String.ltb. revert b c. induction a as [|x a IH]; intros [|y b] [|z c]; cbn [String.compare]; try done.
  unfold Ascii.compare. intros H1 H2.
  destruct (N.compare_spec (Ascii.N_of_ascii x) (Ascii.N_of_ascii y)) as [E1|L1|L1]; [| |done];
    destruct (N.compare_spec (Ascii.N_of_ascii y) (Ascii.N_of_ascii z)) as [E2|L2|L2]; try done;
    destruct (N.compare_spec (Ascii.N_of_ascii x) (Ascii.N_of_ascii z)) as [E3|L3|L3]; try done; try lia.
  by apply (IH b c).
Qed.

Lemma string_ltb_total a b : String.ltb a b = true ∨ a = b ∨ String.ltb b a = true.
Proof.
  unfold String.ltb. rewrite (String.compare_antisym b a). destruct (String.compare a b) eqn:E; cbn; auto.
  right. left. by apply String.compare_eq_iff.
Qed.

(** The texts of times increase from [v] to [w]. *)
Lemma later_trans u v w : later (Some u) v = true → later (Some v) w = true → later (Some u) w = true.
Proof. unfold later, str_gtb. apply string_ltb_trans. Qed.

Lemma not_later_trans u v w : later (Some v) u = false → later (Some v) w = true → later (Some u) w = true.
Proof.
  unfold later, str_gtb. intros Hu Hw. destruct (string_ltb_total (closed u) (closed v)) as [H|[H|H]].
  - by apply string_ltb_trans with (closed v).
  - unfold closed in H. by rewrite H.
  - unfold closed in H. by rewrite H in Hu.
Qed.

(** The loop of [extractLastWithdrawal], on the withdrawals. *)
Definition keep_latest (latest : option Withdrawal) (w : Withdrawal) : option Withdrawal :=
  if later latest w then Some w else latest.

Lemma latest_withdrawal_fold events : ∀ latest,
  latest_withdrawal events latest = (ws ← withdrawals events; Ok (foldl keep_latest latest ws)).
Proof.
  unfold withdrawals. induction events as [|evt events IH]; intros latest; cbn [latest_withdrawal mapM]; [done|].
  destruct (withdrawal_of evt) as [[v|]|e]; cbn [mbind result_bind]; [| |done];
    rewrite IH; by destruct (mapM withdrawal_of events).
Qed.

Lemma keep_latest_spec ws : ∀ w, ∃ x, foldl keep_latest (Some w) ws = Some x ∧
  ((x = w ∧ Forall (λ v, later (Some w) v = false) ws) ∨ (is_latest ws x ∧ later (Some w) x = true)).
Proof.
  induction ws as [|v ws IH]; intros w; [exists w; auto|]. cbn [foldl]. unfold keep_latest at 2.
  destruct (later (Some w) v) eqn:Ev.
  - destruct (IH v) as (x&->&Hx). exists x. split; [done|]. right. destruct Hx as [[-> Hx]|[(b&a&->&Hb&Ha) Hx]].
    + split; [|done]. exists [], ws. by repeat constructor.
    + split; [|by eapply later_trans]. exists (v :: b), a. repeat constructor; done.
  - destruct (IH w) as (x&->&Hx). exists x. split; [done|]. destruct Hx as [[-> Hx]|[(b&a&->&Hb&Ha) Hx]].
    + left. by repeat constructor.
    + right. split; [|done]. exists (v :: b), a. repeat constructor; try done. by eapply not_later_trans.
Qed.

(** The withdrawal shown is the latest of the events, the first one of that time; the
    search throws when an amount cannot be read. *)
Theorem last_withdrawal_latest env getTime events :
  match withdrawals events, extractLastWithdrawal env getTime events with
  | Ok [], Ok None => True
  | Ok ws, Ok (Some f) =>
      ∃ w, is_latest ws w ∧ fw_token f = wd_token w ∧ fw_amount f = wd_amount w ∧ fw_treasury f = wd_treasury w
  | Throw e, Throw e' => e = e'
  | _, _ => False
  end.
Proof.
  unfold extractLastWithdrawal. rewrite latest_withdrawal_fold.
  destruct (withdrawals events) as [ws|e]; cbn [mbind result_bind]; [|done].
  destruct ws as [|w ws]; cbn [foldl]; [done|]. change (keep_latest None w) with (Some w).
  destruct (keep_latest_spec ws w) as (x&->&Hx). exists x. split; [|done].
  destruct Hx as [[-> Hx]|[(b&a&->&Hb&Ha) Hx]].
  - exists [], ws. by repeat constructor.
  - exists (w :: b), a. by repeat constructor.
Qed.

(** Lenders are counted once each: as many as different texts, the empty one apart. *)
Lemma add_text_spec l s x : NoDup l → NoDup (add_text l s) ∧ (x ∈ add_text l s ↔ x ∈ l ∨ (x = s ∧ s ≠ "")).
Proof.
  intros Hl. unfold add_text. destruct (String.eqb_spec s "") as [->|Hs]; [naive_solver|].
  split; [by apply NoDup_set_add|]. rewrite elem_of_set_add. naive_solver.
Qed.

Lemma lenders_counted events :
  ∃ lenders, countUniqueLenders events = lengthZ lenders ∧ NoDup lenders ∧
    ∀ x, x ∈ lenders ↔ x ≠ "" ∧ ∃ evt, evt ∈ events ∧ lender_of evt = x.
Proof.
  unfold countUniqueLenders. eexists. split; [reflexivity|].
  enough (∀ l, NoDup l → let r := foldl (λ lenders evt, add_text lenders (lender_of evt)) l events in
    NoDup r ∧ ∀ x, x ∈ r ↔ x ∈ l ∨ x ≠ "" ∧ ∃ evt, evt ∈ events ∧ lender_of evt = x) as H.
  { destruct (H [] NoDup_nil_2) as [H1 H2]. split; [done|]. intros x. rewrite H2. set_solver. }
  induction events as [|evt events IH]; intros l Hl; cbn [foldl].
  - split; [done|]. set_solver.
  - destruct (IH (add_text l (lender_of evt))) as [H1 H2].
    { by apply (add_text_spec l (lender_of evt) ""). }
    split; [done|]. intros x. rewrite H2. destruct (add_text_spec l (lender_of evt) x Hl) as [_ ->]. set_solver.
Qed.

(** ** Volume *)

Lemma native_status_not_text v : native Invoice_InvoiceStatus v = true → is_funded v = false.
Proof. by destruct v. Qed.

(** [getInvoice] returns the contract's record as it comes, whose status is a list of
    one text: no invoice counts as funded, and every figure is 0. *)
Theorem volume_always_zero now invoices :
  Forall (λ inv, native Invoice_Invoice inv = true) invoices →
  buildVolumeMetrics now invoices = Ok no_volume ∧ funded_count invoices = 0.
Proof.
  intros H. assert (∀ v, add_invoices now v invoices = Ok v) as Hv.
  { induction H as [|inv invoices Hn _ IH]; intros v; cbn [add_invoices]; [done|].
    destruct (native_struct _ _ Hn) as [o ->]. unfold add_invoice. cbn [get_prop mbind result_bind].
    rewrite (native_status_not_text (obj_get o "status")) by (by eapply native_lookup). apply IH. }
  unfold buildVolumeMetrics. rewrite Hv. split; [done|]. unfold funded_count.
  induction H as [|inv invoices Hn _ IH]; [done|]. cbn [List.filter].
  destruct (native_struct _ _ Hn) as [o ->]. cbn [get_prop_opt].
  rewrite (native_status_not_text (obj_get o "status")) by (by eapply native_lookup). apply IH. intros v.
  specialize (Hv v). cbn [add_invoices] in Hv. unfold add_invoice in Hv. cbn [get_prop mbind result_bind] in Hv.
  by rewrite (native_status_not_text (obj_get o "status")) in Hv by (by eapply native_lookup).
Qed.

(** ** The cache *)

Section cache.
Context (env : StablecoinIds) (getTime : string → number) {W : Type} (X : Chain W).
Context (getLatestLedger : string → M W Z) (getEvents : string → Z → M W (list RawPoolEvent)).
Context (month_point week_point : W → Z → string * string).

#[local] Notation fetch := (fetchRevenueData env getTime X getLatestLedger getEvents month_point week_point).

(** What was gathered less than five minutes ago is shown again, with no call; a
    failure shows the empty dashboard and leaves what was kept. *)
Theorem revenue_cached s : ∃ data s', fetch s = (Ok data, s') ∧
  match cache s with
  | Some (kept, at_) =>
      if ch_now X (world (rest s)) <? at_ + 300000 then data = kept ∧ s' = s
      else cache s' = Some (data, ch_now X (world (rest s'))) ∨ (data = emptyRevenueData ∧ cache s' = cache s)
  | None => cache s' = Some (data, ch_now X (world (rest s'))) ∨ (data = emptyRevenueData ∧ cache s' = None)
  end.
Proof. apply (fetch_kept_spec (λ s : Rpc, ch_now X (world s)) _ emptyRevenueData CACHE_TTL_MS). Qed.

End cache.
