(* ===== verification/WebCache.v ===== *)
(** * frontend/lib/cache.ts and useContractEvents.ts: what the pages keep, and when it is read again

    The hooks of cache.ts as data: the key each one keeps its answer under, how often
    it is read again and the function that reads it; the mutations and the keys they
    refresh; and the handler of the live stream, which refreshes keys by event. What
    [swr] does with a key is the class [Swr]. *)
From S2P Require Import Prelude.
From S2P Require Import JsValue.
From S2P Require Import JsNumber.
From S2P Require Import JsArith.
From S2P Require Import Sdk.
From S2P Require Import Abi.
From S2P Require Import RpcPool.
From S2P Require Import Stellar.
From S2P Require Import Amounts.
From S2P Require Import WebAbi.
From S2P Require Import WebInvoice.
From S2P Require Import WebPool.
From S2P Require Import WebMarket.
From S2P Require Import WebContracts.
Import WebCompliance.
#[local] Open Scope string_scope.
#[local] Open Scope list_scope.
#[local] Open Scope Z_scope.

(** ** Times *)

Record SWRCacheEntry := {
  refreshInterval : Z; revalidateOnFocus : bool; revalidateOnReconnect : bool; dedupingInterval : Z }.

Module CACHE_TTL.
Definition poolConfig : Z := 5 * 60000.
Definition invoiceStatus : Z := 15000.
Definition creditScore : Z := 60000.
Definition walletBalance : Z := 30000.
End CACHE_TTL.

Definition entry (ttl : Z) : SWRCacheEntry := {|
  refreshInterval := ttl; revalidateOnFocus := true; revalidateOnReconnect := true; dedupingInterval := ttl |}.

(** [CACHE_CONFIG[name]]. *)
Definition CACHE_CONFIG (name : string) : option SWRCacheEntry :=
  entry <$>
  (if one_of ["poolConfig"] name then Some CACHE_TTL.poolConfig
   else if one_of ["invoiceCount"; "invoice"; "position"; "fundedInvoice"; "coFundingRounds"; "coFundingPositions";
                   "secondaryMarketListings"] name then Some CACHE_TTL.invoiceStatus
   else if one_of ["tokens"; "referral"] name then Some CACHE_TTL.creditScore
   else if one_of ["tokenTotals"] name then Some CACHE_TTL.walletBalance
   else None).

(** ** Keys *)

(** A key is a text or an array. *)
Inductive SwrKey := KText (s : string) | KList (l : list jsval).

(** What [mutate] is given: a key, or a test of keys. *)
Inductive Target := ByKey (k : SwrKey) | Where (p : SwrKey → bool).

(** The hooks, with their arguments; [null] is [None]. *)
Inductive Hook :=
| usePoolConfig
| useAcceptedTokens
| useInvoiceCount
| useInvoice (id : option Z)
| useInvoiceMetadata (id : option Z)
| useInvestorPosition (investor token : option string)
| usePoolTokenTotals (token : option string)
| useFundedInvoice (invoiceId : option Z)
| useReferrer (referee : option string)
| useReferralStats (referrer : option string)
| useCoFundingRounds
| useCoFundingPositions (investor : option string)
| useOpenListings
| useMyListings (seller : option string)
| useOrderBook (invoiceId : option Z) (kind : option ListingKind)
| useMyOrders (owner : option string).

(** A text that is [null] or empty makes the key [null]: nothing is read. *)
Definition text (s : option string) : option jsval :=
  match s with Some s => if String.eqb s "" then None else Some (JStr s) | None => None end.

Definition hook_key (h : Hook) : option SwrKey :=
  match h with
  | usePoolConfig => Some (KText "pool-config")
  | useAcceptedTokens => Some (KText "accepted-tokens")
  | useInvoiceCount => Some (KText "invoice-count")
  | useInvoice id => id ← id; Some (KList [JStr "invoice"; JNum id])
  | useInvoiceMetadata id => id ← id; Some (KList [JStr "invoice-metadata"; JNum id])
  | useInvestorPosition investor token =>
      i ← text investor; t ← text token; Some (KList [JStr "position"; i; t])
  | usePoolTokenTotals token => t ← text token; Some (KList [JStr "token-totals"; t])
  | useFundedInvoice id => id ← id; Some (KList [JStr "funded-invoice"; JNum id])
  | useReferrer referee => r ← text referee; Some (KList [JStr "referrer"; r])
  | useReferralStats referrer => r ← text referrer; Some (KList [JStr "referral-stats"; r])
  | useCoFundingRounds => Some (KText "co-funding-rounds")
  | useCoFundingPositions investor => i ← text investor; Some (KList [JStr "co-funding-positions"; i])
  | useOpenListings => Some (KText "secondary-market-open-listings")
  | useMyListings seller => s ← text seller; Some (KList [JStr "secondary-market-my-listings"; s])
  | useOrderBook id kind =>
      id ← id; kind ← kind;
      Some (KList [JStr "secondary-market-order-book"; JNum id; JStr (ListingKind_name kind)])
  | useMyOrders owner => o ← text owner; Some (KList [JStr "secondary-market-my-orders"; o])
  end.

Definition hook_config (h : Hook) : option SWRCacheEntry :=
  CACHE_CONFIG match h with
  | usePoolConfig => "poolConfig"
  | useAcceptedTokens => "tokens"
  | useInvoiceCount => "invoiceCount"
  | useInvoice _ | useInvoiceMetadata _ => "invoice"
  | useInvestorPosition _ _ => "position"
  | usePoolTokenTotals _ => "tokenTotals"
  | useFundedInvoice _ => "fundedInvoice"
  | useReferrer _ | useReferralStats _ => "referral"
  | useCoFundingRounds => "coFundingRounds"
  | useCoFundingPositions _ => "coFundingPositions"
  | useOpenListings | useMyListings _ | useOrderBook _ _ | useMyOrders _ => "secondaryMarketListings"
  end.

(** ** Reading *)

(** The error the hooks report. *)
Record ContractError := { ct_message : string; ct_code : option string }.

Section fetch.
Context {W : Type} (X : Chain W).
(** The indexer answers a path with a status and a body, or the connection fails. *)
Context (fetch : string → M (Rpc (W := W)) (bool * Z * jsval)).

(** [fetcher]: every exception of the model is an [Error]; its message is kept. *)
Definition fetcher {A} (fn : M (Rpc (W := W)) A) : Rpc → (A + ContractError) * Rpc := λ s,
  match fn s with
  | (Ok a, s') => (inl a, s')
  | (Throw e, s') => (inr {| ct_message := exn_message e; ct_code := None |}, s')
  end.

(** A number as the id of a call: [nativeToScVal] makes a bigint of it. *)
Definition with_id {A} (f : Z → M (Rpc (W := W)) A) (id : number) : M (Rpc (W := W)) A :=
  n ← lift_result (bigint_of_number id); f n.

(** [Promise.all(ids.map(get))] without the [null]s. *)
Definition hydrate {A} (get : Z → M (Rpc (W := W)) (option A)) (ids : list number) : M (Rpc (W := W)) (list A) :=
  l ← mapM (with_id get) ids; mret (omap (λ x : option A, x) l).

Definition INDEXER_URL (configured : option string) : string :=
  match configured with
  | Some u => if String.eqb u "" then "http://localhost:3001" else u
  | None => "http://localhost:3001"
  end.

Definition fetchListingIds (indexer path : string) : M (Rpc (W := W)) (list number) :=
  '(ok, status, data) ← fetch (indexer +:+ path);
  if (ok : bool) then
    ids ← lift_result (get_prop data "listingIds");
    l ← lift_result (array_or_empty ids);
    mret (map js_Number l)
  else throw (EError ("Indexer error: " +:+ pretty status)).

Definition hydrateListings : list number → M (Rpc (W := W)) (list (list (string * value))) := hydrate (getListing X).
Definition hydrateOrders : list number → M (Rpc (W := W)) (list (list (string * value))) := hydrate (getOrder X).

(** What a hook reads. *)
Definition hook_data (h : Hook) : Type :=
  match h with
  | usePoolConfig | useInvoiceMetadata _ | usePoolTokenTotals _ | useReferralStats _ => list (string * value)
  | useAcceptedTokens | useInvoice _ => jsval
  | useInvoiceCount => number
  | useInvestorPosition _ _ | useFundedInvoice _ => option (list (string * value))
  | useReferrer _ => option jsval
  | useCoFundingRounds | useOpenListings | useMyListings _ | useMyOrders _ => list (list (string * value))
  | useCoFundingPositions _ => list (number * jsval)
  | useOrderBook _ _ => list number * list number
  end%type.

(** [x!] of an argument that is [null]: a hook without key is not read. *)
Definition unread {A} : M (Rpc (W := W)) A := throw (ETypeError "null").
Definition given {A B} (x : option A) (f : A → M (Rpc (W := W)) B) : M (Rpc (W := W)) B :=
  match x with Some a => f a | None => unread end.

(** The function [fetcher] is given. *)
Definition hook_read (indexer : string) (mock : option (string → M (Rpc (W := W)) (bool * Z * jsval))) (h : Hook)
   : M (Rpc (W := W)) (hook_data h) :=
  match h with
  | usePoolConfig => getPoolConfig X
  | useAcceptedTokens => getAcceptedTokens X
  | useInvoiceCount => getInvoiceCount X
  | useInvoice id => given id (getInvoice X mock)
  | useInvoiceMetadata id => given id (getInvoiceMetadata X)
  | useInvestorPosition investor token => given investor (λ i, given token (getInvestorPosition X i))
  | usePoolTokenTotals token => given token (getPoolTokenTotals X)
  | useFundedInvoice id => given id (getFundedInvoice X)
  | useReferrer referee => given referee (getReferrer X)
  | useReferralStats referrer => given referrer (getReferralStats X)
  | useCoFundingRounds => ids ← listCoFundingRounds X; hydrate (getCoFundingRound X) ids
  | useCoFundingPositions investor => given investor (getInvestorCoFundPositions X)
  | useOpenListings => ids ← fetchListingIds indexer "/secondary-market/listings/open"; hydrateListings ids
  | useMyListings seller => given seller (λ s, ids ← listListingsForInvestor X s; hydrateListings ids)
  | useOrderBook id kind => given id (λ i, given kind (getOrderBook X i))
  | useMyOrders owner => given owner (λ o, ids ← listOrdersForOwner X o; hydrateOrders ids)
  end.

End fetch.

(** ** Mutations *)

(** The hooks that submit a signed transaction. *)
Inductive Mutation :=
| useRegisterReferral (referee : string)
| useDeposit (investor token : string)
| useWithdraw (investor token : string)
| useCommitToInvoice (investor : string) (invoiceId : Z)
| useCreateInvoice
| useMarkDefaulted (admin : string) (invoiceId : Z)
| useInitCoFunding (admin : string) (invoiceId : Z)
| useSetYield (admin : string).

Definition mutation_key (m : Mutation) : string :=
  match m with
  | useRegisterReferral _ => "register-referral"
  | useDeposit _ _ => "deposit"
  | useWithdraw _ _ => "withdraw"
  | useCommitToInvoice _ _ => "commit"
  | useCreateInvoice => "create-invoice"
  | useMarkDefaulted _ _ => "mark-defaulted"
  | useInitCoFunding _ _ => "init-cofunding"
  | useSetYield _ => "set-yield"
  end.

(** What [onSuccess] asks [mutate] for. *)
Definition onSuccess (m : Mutation) : list Target :=
  match m with
  | useRegisterReferral referee => [ByKey (KList [JStr "referrer"; JStr referee])]
  | useDeposit investor token =>
      [ByKey (KList [JStr "position"; JStr investor; JStr token]); ByKey (KList [JStr "token-totals"; JStr token])]
  | useSetYield _ => [ByKey (KText "pool-config")]
  | _ => []
  end.

(** The mutation submits what was signed, whichever it is. *)
Definition trigger {W : Type} (X : Chain W) (onProgress : TransactionProgress → M W unit) (m : Mutation) (signedXdr : string)
   : M (Submitting (W := W) * list Target) string := λ '(s, refreshed),
  match submitTx X signedXdr onProgress s with
  | (Ok hash, s') => (Ok hash, (s', refreshed ++ onSuccess m))
  | (Throw e, s') => (Throw e, (s', refreshed))
  end.

Definition getInvoiceCacheKeys (invoiceId : option Z) : list SwrKey :=
  KText "invoice-count" ::
  match invoiceId with
  | Some id =>
      [KList [JStr "invoice"; JNum id]; KList [JStr "invoice-metadata"; JNum id]; KList [JStr "funded-invoice"; JNum id]]
  | None => []
  end.

Definition getPositionCacheKeys (investor token : option string) : list SwrKey :=
  match text investor, text token with
  | Some i, Some t => [KList [JStr "position"; i; t]; KList [JStr "token-totals"; t]]
  | _, _ => []
  end.

(** ** The live stream *)

(** [const [, eventType] = topic]. *)
Definition second (topic : jsval) : result jsval :=
  match topic with
  | JArr l => Ok (arr_get l 1)
  | JStr (String _ (String c _)) => Ok (JStr (String c ""))
  | JStr _ => Ok JUndef
  | _ => Throw (ETypeError "topic is not iterable")
  end.

Definition is_text_part (s : string) (v : jsval) : bool :=
  match v with JStr s' => String.eqb s s' | _ => false end.

(** [Array.isArray(key) && key[0] === name]. *)
Definition key_named (name : string) (k : SwrKey) : bool :=
  match k with KList l => is_text_part name (arr_get l 0) | KText _ => false end.

Definition position_of (wallet : string) (k : SwrKey) : bool :=
  key_named "position" k && match k with KList l => is_text_part wallet (arr_get l 1) | KText _ => false end.

(** The [switch], of the event's type and the first element of its value. *)
Definition event_targets (eventType : string) (id : jsval) (walletAddress : option string) : list Target :=
  if one_of ["funded"; "repaid"; "default"; "created"] eventType then
    ByKey (KText "invoice-count") ::
    match id with
    | JUndef => []
    | _ => [ByKey (KList [JStr "invoice"; id]); ByKey (KList [JStr "invoice-metadata"; id]);
            ByKey (KList [JStr "funded-invoice"; id])]
    end
  else if one_of ["deposit"; "withdraw"] eventType then
    Where (key_named "token-totals") ::
    match walletAddress with
    | Some w => if String.eqb w "" then [] else [Where (position_of w)]
    | None => []
    end
  else [].

Definition invalidateCaches (event : jsval) (walletAddress : option string) : result (list Target) :=
  topic ← get_prop event "topic";
  eventType ← second topic;
  match eventType with
  | JStr t =>
      value ← get_prop event "value";
      Ok (event_targets t (get_first_opt value) walletAddress)
  | _ => Ok []
  end.

(** An entry of the store's list. *)
Record RecentEvent := {
  rv_id : jsval; rv_contractId : jsval; rv_topic : list string; rv_value : jsval; rv_ledger : jsval;
  rv_ledgerCloseAt : jsval; rv_txHash : jsval; rv_receivedAt : Z }.

Definition recent_event (data : jsval) (now : Z) : result RecentEvent :=
  topic ← get_prop data "topic";
  topic ← array topic;
  let field := get_prop_opt data in
  Ok {| rv_id := field "id"; rv_contractId := field "contractId"; rv_topic := map js_String topic;
        rv_value := field "value"; rv_ledger := field "ledger"; rv_ledgerCloseAt := field "ledgerCloseAt";
        rv_txHash := field "txHash"; rv_receivedAt := now |}.

(** The page: what it asked [mutate] for, the store's list, and the calls of [onEvent]. *)
Record Page := { pg_refreshed : list Target; pg_recentEvents : list RecentEvent; pg_seen : list jsval }.

(** [source.onmessage], of the parsed data if it parses. *)
Definition onmessage (walletAddress : option string) (data : option jsval) (now : Z) : M Page unit :=
  match data with
  | None => mret tt
  | Some data =>
      type ← lift_result (get_prop data "type");
      if truthy type then mret tt
      else
        targets ← lift_result (invalidateCaches data walletAddress);
        modify (λ p, {| pg_refreshed := pg_refreshed p ++ targets; pg_recentEvents := pg_recentEvents p;
                        pg_seen := pg_seen p |});;
        evt ← lift_result (recent_event data now);
        modify (λ p, {| pg_refreshed := pg_refreshed p; pg_recentEvents := take 100 (evt :: pg_recentEvents p);
                        pg_seen := pg_seen p ++ [data] |})
  end.

(** *** The connection *)

(** The effect asks for a ticket, then opens the stream. *)
Inductive Phase := Asking | Silent | Streaming (url : string).
Record Live := { lv_phase : Phase; lv_cancelled : bool; lv_connected : bool; lv_page : Page }.

Definition connect (token : option string) (p : Page) : Live := {|
  lv_phase := match token with Some t => if String.eqb t "" then Silent else Asking | None => Silent end;
  lv_cancelled := false; lv_connected := false; lv_page := p |}.

(** What happens to the page: the answer to the request of a ticket ([None]: refused,
    or unreadable), the stream's events, and the clean-up. *)
Inductive live_turn :=
| TicketAnswer (ticket : option string)
| StreamOpen
| StreamMessage (data : option jsval) (now : Z)
| StreamError
| Cleanup.

Definition stream_url (encode : string → string) (origin ticket : string) (invoiceId : option Z) : string :=
  origin +:+ "/api/events?ticket=" +:+ encode ticket +:+
  match invoiceId with Some id => "&invoiceId=" +:+ encode (pretty id) | None => "" end.

Definition live_step (encode : string → string) (origin : string) (walletAddress : option string) (invoiceId : option Z)
    (s : Live) (t : live_turn) : Live :=
  match t, lv_phase s with
  | TicketAnswer ticket, Asking =>
      {| lv_phase := match ticket with
           | Some ticket => if lv_cancelled s then Silent else Streaming (stream_url encode origin ticket invoiceId)
           | None => Silent
           end;
         lv_cancelled := lv_cancelled s; lv_connected := lv_connected s; lv_page := lv_page s |}
  | StreamOpen, Streaming _ =>
      {| lv_phase := lv_phase s; lv_cancelled := lv_cancelled s; lv_connected := true; lv_page := lv_page s |}
  | StreamMessage data now, Streaming _ =>
      {| lv_phase := lv_phase s; lv_cancelled := lv_cancelled s; lv_connected := lv_connected s;
         lv_page := (onmessage walletAddress data now (lv_page s)).2 |}
  | StreamError, Streaming _ =>
      {| lv_phase := lv_phase s; lv_cancelled := lv_cancelled s; lv_connected := false; lv_page := lv_page s |}
  | Cleanup, p =>
      {| lv_phase := match p with Streaming _ => Silent | _ => p end; lv_cancelled := true; lv_connected := false;
         lv_page := lv_page s |}
  | _, _ => s
  end.

(** ** Retries (swrConfig.ts, errorHandling.ts) *)

Definition MAX_RETRY_COUNT : Z := 3.
Definition RETRY_BASE_DELAY_MS : Z := 1000.

(** [NOT_FOUND_PATTERN.test(message)], whatever the case. *)
Definition isNotFoundError (message : string) : bool :=
  includes "not found" (toLowerCase message) || includes "does not exist" (toLowerCase message).

Definition ERROR_MAPPINGS : list (list string * string) :=
  [(["user_declined_access"; "user rejected"; "cancelled by user"], "Transaction cancelled by user");
   (["timeout"; "network error"; "failed to fetch"; "unreachable"], "Network error, please try again");
   (["insufficientfunds"; "insufficient funds"], "Insufficient balance for this transaction");
   (["contractpaused"; "contract is paused"], "Protocol is currently paused");
   (["already initialized"], "Contract is already initialized")].

Definition getUserFriendlyError (raw : string) : string :=
  match find (λ m, existsb (λ p, includes p (toLowerCase raw)) m.1) ERROR_MAPPINGS with
  | Some m => m.2
  | None => raw
  end.

(** The delay after which the key is read again, if it is. *)
Definition onErrorRetry (message : string) (retryCount : Z) : option Z :=
  if isNotFoundError message then None
  else if MAX_RETRY_COUNT <=? retryCount then None
  else Some (RETRY_BASE_DELAY_MS * 2 ^ retryCount).

(** The delays before the reads of a key that keeps failing: [swr] counts the first
    failure as 1. *)
Fixpoint retries (fuel : nat) (message : string) (retryCount : Z) : list Z :=
  match fuel, onErrorRetry message retryCount with
  | S fuel', Some ms => ms :: retries fuel' message (retryCount + 1)
  | _, _ => []
  end.

(** ** What is read again *)

(** The documented behaviour of [mutate]: the keys equal to the one given, by value,
    or all that pass the test, are read again. *)
Class Swr := {
  refreshes : Target → SwrKey → Prop;
  refreshes_key : ∀ k k', refreshes (ByKey k) k' ↔ k = k';
  refreshes_where : ∀ p k, refreshes (Where p) k ↔ p k = true
}.

(** The hook's key is one of those that are read again. *)
Definition refreshed `{Swr} (ts : list Target) (h : Hook) : Prop :=
  ∃ k t, hook_key h = Some k ∧ t ∈ ts ∧ refreshes t k.

(** ** Keys are told apart *)

Lemma text_inv s v : text s = Some v → ∃ x, s = Some x ∧ x ≠ "" ∧ v = JStr x.
Proof. destruct s as [x|]; [|done]. cbn. destruct (String.eqb_spec x ""); [done|]. intros [= <-]. eauto. Qed.

Lemma text_some x : x ≠ "" → text (Some x) = Some (JStr x).
Proof. intros Hx. cbn. by destruct (String.eqb_spec x ""). Qed.

(** Decomposes a key: its arguments are there, and not empty. *)
Ltac inv_key H :=
  cbn [hook_key] in H;
  repeat match type of H with
    | (_ ← text ?s; _) = Some _ =>
        let E := fresh "E" in
        destruct (text s) as [?|] eqn:E; cbn [mbind option_bind] in H; [|discriminate H];
        apply text_inv in E as (?&?&?&?); simplify_eq
    | (_ ← ?s; _) = Some _ => destruct s as [?|]; cbn [mbind option_bind] in H; [|discriminate H]
    end;
  simplify_eq.

Lemma hook_key_injective h h' k : hook_key h = Some k → hook_key h' = Some k → h = h'.
Proof.
  intros H H'. destruct h; inv_key H; destruct h'; inv_key H'; try done.
  match goal with E : ListingKind_name ?a = ListingKind_name ?b |- _ => by destruct a, b end.
Qed.

(** A hook named by its first part. *)
Lemma key_named_spec name h k : hook_key h = Some k →
  key_named name k = true ↔
  match h with
  | useInvoice _ => name = "invoice"
  | useInvoiceMetadata _ => name = "invoice-metadata"
  | useInvestorPosition _ _ => name = "position"
  | usePoolTokenTotals _ => name = "token-totals"
  | useFundedInvoice _ => name = "funded-invoice"
  | useReferrer _ => name = "referrer"
  | useReferralStats _ => name = "referral-stats"
  | useCoFundingPositions _ => name = "co-funding-positions"
  | useMyListings _ => name = "secondary-market-my-listings"
  | useOrderBook _ _ => name = "secondary-market-order-book"
  | useMyOrders _ => name = "secondary-market-my-orders"
  | _ => False
  end.
Proof. intros H. destruct h; inv_key H; cbn; rewrite ?String.eqb_eq; done. Qed.

(** ** What is refreshed *)

Section refresh.
Context `{Swr}.

Lemma refreshed_cons t ts h :
  refreshed (t :: ts) h ↔ (∃ k, hook_key h = Some k ∧ refreshes t k) ∨ refreshed ts h.
Proof. unfold refreshed. setoid_rewrite elem_of_cons. naive_solver. Qed.

Lemma refreshed_nil h : ¬ refreshed [] h.
Proof. intros (k&t&_&Ht&_). by apply not_elem_of_nil in Ht. Qed.

(** A key asks for the one hook that has it. *)
Lemma refreshed_key h0 k ts h : hook_key h0 = Some k →
  refreshed (ByKey k :: ts) h ↔ h = h0 ∨ refreshed ts h.
Proof.
  intros Hk. rewrite refreshed_cons. apply or_iff_compat_r. split.
  - intros (k'&Hk'&E%refreshes_key). subst k'. by eapply hook_key_injective.
  - intros ->. exists k. split; [done|]. by apply refreshes_key.
Qed.

Lemma refreshed_where p ts h :
  refreshed (Where p :: ts) h ↔ (∃ k, hook_key h = Some k ∧ p k = true) ∨ refreshed ts h.
Proof. rewrite refreshed_cons. by setoid_rewrite refreshes_where. Qed.

(** A deposit refreshes the investor's position in the token and the token's totals;
    a withdrawal, a commitment, a new invoice, a default and a round refresh nothing. *)
Theorem mutation_refreshes m h :
  refreshed (onSuccess m) h →
  match m with
  | useRegisterReferral referee => h = useReferrer (Some referee)
  | useDeposit investor token => h = useInvestorPosition (Some investor) (Some token) ∨ h = usePoolTokenTotals (Some token)
  | useSetYield _ => h = usePoolConfig
  | _ => False
  end.
Proof.
  assert (∀ k ts, refreshed (ByKey k :: ts) h → hook_key h = Some k ∨ refreshed ts h) as Hkey.
  { intros k ts. rewrite refreshed_cons. intros [(k'&Hk&<-%refreshes_key)|?]; auto. }
  destruct m; cbn [onSuccess]; try (intros []%refreshed_nil);
    repeat (intros [Hk|Hr]%Hkey; [clear Hkey; destruct h; inv_key Hk; auto|revert Hr]); intros []%refreshed_nil.
Qed.

Lemma deposit_refreshes investor token h : investor ≠ "" → token ≠ "" →
  refreshed (onSuccess (useDeposit investor token)) h ↔
    h = useInvestorPosition (Some investor) (Some token) ∨ h = usePoolTokenTotals (Some token).
Proof.
  intros Hi Ht. cbn [onSuccess].
  rewrite (refreshed_key (useInvestorPosition (Some investor) (Some token))), (refreshed_key (usePoolTokenTotals (Some token))).
  - pose proof (refreshed_nil h). naive_solver.
  - cbn [hook_key]. by rewrite text_some.
  - cbn [hook_key]. by rewrite !text_some.
Qed.

(** An event of an invoice refreshes the count and the three hooks of that invoice,
    and no other; its id must be a number. *)
Lemma invoice_event_refreshes t id wallet h :
  one_of ["funded"; "repaid"; "default"; "created"] t = true →
  refreshed (event_targets t id wallet) h ↔
    h = useInvoiceCount ∨
    ∃ n, id = JNum n ∧ (h = useInvoice (Some n) ∨ h = useInvoiceMetadata (Some n) ∨ h = useFundedInvoice (Some n)).
Proof.
  intros Ht. unfold event_targets. rewrite Ht, (refreshed_key useInvoiceCount) by done. apply or_iff_compat_l. split.
  - destruct id; try (by intros ?%refreshed_nil);
      intros (k&t'&Hk&[->|[->|[->|?%not_elem_of_nil]%elem_of_cons]%elem_of_cons]%elem_of_cons&E); try done;
      apply refreshes_key in E; subst k; destruct h; inv_key Hk; eauto 10.
  - intros (n&->&Hh). rewrite (refreshed_key (useInvoice (Some n))), (refreshed_key (useInvoiceMetadata (Some n))),
      (refreshed_key (useFundedInvoice (Some n))) by done. naive_solver.
Qed.

(** A deposit or a withdrawal of anyone refreshes the totals of every token, and
    the connected wallet's positions. *)
Lemma pool_event_refreshes t id wallet h :
  one_of ["deposit"; "withdraw"] t = true →
  refreshed (event_targets t id wallet) h ↔
    (∃ token, token ≠ "" ∧ h = usePoolTokenTotals (Some token)) ∨
    (∃ w token, wallet = Some w ∧ w ≠ "" ∧ token ≠ "" ∧ h = useInvestorPosition (Some w) (Some token)).
Proof.
  intros Ht. assert (one_of ["funded"; "repaid"; "default"; "created"] t = false) as Ht'.
  { unfold one_of in Ht. cbn [existsb] in Ht. rewrite orb_false_r in Ht. apply orb_prop in Ht as [E|E]; apply String.eqb_eq in E; by subst t. }
  unfold event_targets. rewrite Ht', Ht, refreshed_where. apply Morphisms_Prop.or_iff_morphism.
  - split.
    + intros (k&Hk&Hn). apply (key_named_spec _ h) in Hn; [|done]. destruct h; try done. inv_key Hk. eauto.
    + intros (token&Htok&->). eexists. split; [cbn [hook_key]; rewrite text_some by done; reflexivity|done].
  - destruct wallet as [w|]; [|split; [intros []%refreshed_nil|naive_solver]].
    destruct (String.eqb_spec w "") as [->|Hw]; [split; [intros []%refreshed_nil|naive_solver]|].
    rewrite refreshed_where. split.
    + intros [(k&Hk&[Hn Hp]%andb_prop)|[]%refreshed_nil]. apply (key_named_spec _ h) in Hn; [|done].
      destruct h; try done. inv_key Hk. cbn in Hp. apply String.eqb_eq in Hp as ->. eauto 10.
    + intros (w'&token&[= <-]&_&Htok&->). left. eexists.
      split; [cbn [hook_key]; rewrite !text_some by done; reflexivity|]. cbn. apply String.eqb_refl.
Qed.

(** Every event of the stream, against every hook. *)
Theorem events_refresh o source t rest wallet ts h :
  obj_get o "topic" = JArr (source :: JStr t :: rest) →
  invalidateCaches (JObj o) wallet = Ok ts →
  refreshed ts h ↔
    match h with
    | useInvoiceCount => one_of ["funded"; "repaid"; "default"; "created"] t = true
    | useInvoice (Some n) | useInvoiceMetadata (Some n) | useFundedInvoice (Some n) =>
        one_of ["funded"; "repaid"; "default"; "created"] t = true ∧ get_first_opt (obj_get o "value") = JNum n
    | usePoolTokenTotals (Some token) => one_of ["deposit"; "withdraw"] t = true ∧ token ≠ ""
    | useInvestorPosition (Some w) (Some token) =>
        one_of ["deposit"; "withdraw"] t = true ∧ wallet = Some w ∧ w ≠ "" ∧ token ≠ ""
    | _ => False
    end.
Proof.
  intros Htopic. unfold invalidateCaches. cbn [get_prop mbind result_bind]. rewrite Htopic.
  change (second _) with (Ok (JStr t)). cbn [mbind result_bind]. intros [= <-].
  set (id := get_first_opt _). destruct (one_of ["funded"; "repaid"; "default"; "created"] t) eqn:E1.
  - assert (one_of ["deposit"; "withdraw"] t = false) as ->.
    { unfold one_of in E1 |- *. cbn [existsb] in E1. rewrite orb_false_r in E1.
      repeat (apply orb_prop in E1 as [E|E1]; [apply String.eqb_eq in E; by subst t|]).
      apply String.eqb_eq in E1. by subst t. }
    rewrite (invoice_event_refreshes t id wallet h E1). destruct h as [| | |[]|[]|[] []|[]|[]| | | | | | | |]; naive_solver.
  - destruct (one_of ["deposit"; "withdraw"] t) eqn:E2.
    + rewrite (pool_event_refreshes t id wallet h E2). destruct h as [| | |[]|[]|[] []|[]|[]| | | | | | | |]; naive_solver.
    + unfold event_targets. rewrite E1, E2. pose proof (refreshed_nil h).
      destruct h as [| | |[]|[]|[] []|[]|[]| | | | | | | |]; naive_solver.
Qed.

End refresh.

(** The keys that the helpers list are those of the deposit and of an invoice's events. *)
Lemma cache_keys_of_deposit investor token : investor ≠ "" → token ≠ "" →
  ByKey <$> getPositionCacheKeys (Some investor) (Some token) = onSuccess (useDeposit investor token).
Proof. intros Hi Ht. unfold getPositionCacheKeys. by rewrite !text_some. Qed.

Lemma cache_keys_of_event t n wallet : one_of ["funded"; "repaid"; "default"; "created"] t = true →
  ByKey <$> getInvoiceCacheKeys (Some n) = event_targets t (JNum n) wallet.
Proof. intros Ht. unfold event_targets. by rewrite Ht. Qed.

(** ** The stream *)

(** A message only adds to what the page asked for and saw; at most 100 events are kept. *)
Lemma onmessage_spec wallet data now p : (length (pg_recentEvents p) ≤ 100)%nat →
  let p' := (onmessage wallet data now p).2 in
  (length (pg_recentEvents p') ≤ 100)%nat ∧ pg_refreshed p `prefix_of` pg_refreshed p' ∧ pg_seen p `prefix_of` pg_seen p'.
Proof.
  intros Hl. unfold onmessage. destruct data as [data|]; [|done]. unfold mbind, M_bind, lift_result.
  destruct (get_prop data "type") as [type|e]; [|done]. destruct (truthy type); [done|].
  destruct (invalidateCaches data wallet) as [ts|e]; [|done]. cbn [modify].
  destruct (recent_event data now) as [evt|e]; cbn [modify snd pg_recentEvents pg_refreshed pg_seen].
  - rewrite length_take. repeat split; [lia|by apply prefix_app_r|by apply prefix_app_r].
  - repeat split; [done|by apply prefix_app_r|done].
Qed.

Section live.
Context (encode : string → string) (origin : string) (wallet : option string) (invoiceId : option Z).

#[local] Notation run := (foldl (live_step encode origin wallet invoiceId)).

(** Once cleaned up, whatever still arrives changes nothing on the page, and no stream
    is opened. *)
Theorem cleanup_final token p before after :
  let s := run (connect token p) (before ++ [Cleanup]) in
  lv_page (run s after) = lv_page s ∧ lv_connected (run s after) = false ∧ ∀ url, lv_phase (run s after) ≠ Streaming url.
Proof.
  intros s. assert (lv_cancelled s = true ∧ lv_connected s = false ∧ ∀ url, lv_phase s ≠ Streaming url) as Hs.
  { subst s. rewrite foldl_app. cbn [foldl]. destruct (run _ before) as [ph c k q]. unfold live_step.
    repeat split; destruct ph; done. }
  clearbody s. revert s Hs. induction after as [|t after IH]; intros s (Hc&Hk&Hp); cbn [foldl]; [by split_and!|].
  assert (lv_page (live_step encode origin wallet invoiceId s t) = lv_page s) as <-.
  { unfold live_step. destruct t, (lv_phase s) as [| |url] eqn:E; try done; by destruct (Hp url). }
  apply IH. unfold live_step. destruct s as [ph c k q]. cbn in Hc, Hk, Hp |- *. subst c k.
  destruct t as [[ticket|]| | | |], ph as [| |url]; cbn; split_and!; try done; by destruct (Hp url).
Qed.

(** The stream carries the ticket it was given, and the invoice that was asked for. *)
Lemma stream_needs_ticket token p turns url :
  lv_phase (run (connect token p) turns) = Streaming url →
  ∃ ticket, TicketAnswer (Some ticket) ∈ turns ∧ url = stream_url encode origin ticket invoiceId.
Proof.
  revert url. induction turns as [|t turns IH] using rev_ind; intros url.
  { cbn. destruct token as [t|]; [|done]. by destruct (String.eqb t ""). }
  rewrite foldl_app. cbn [foldl]. set (s := run _ turns) in *. clearbody s. destruct s as [ph c k q]. cbn in IH.
  intros E. assert (ph = Streaming url ∨ ∃ ticket, t = TicketAnswer (Some ticket) ∧ url = stream_url encode origin ticket invoiceId)
    as [->|(ticket&->&->)].
  { unfold live_step in E. destruct t as [[ticket|]| | | |], ph as [| |u]; cbn in E; try done; try (by left).
    destruct c; [done|]. injection E as <-. right. eauto. }
  - destruct (IH url eq_refl) as (ticket&Ht&->). exists ticket. split; [|done]. apply elem_of_app. by left.
  - exists ticket. split; [|done]. apply elem_of_app. right. by apply list_elem_of_singleton.
Qed.
End live.

(** ** Retries and reads *)

(** A key that fails is read twice more, after 2 and 4 seconds, unless what it asks
    for does not exist. *)
Theorem retries_spec message fuel : (2 ≤ fuel)%nat →
  retries fuel message 1 = if isNotFoundError message then [] else [2000; 4000].
Proof.
  intros Hf. destruct fuel as [|[|fuel]]; [lia..|]. cbn [retries]. unfold onErrorRetry.
  destruct (isNotFoundError message); [done|]. cbn. destruct fuel as [|fuel]; [done|]. cbn [retries]. unfold onErrorRetry.
  by destruct (isNotFoundError message).
Qed.

Section reads.
Context {W : Type} (X : Chain W).

(** The items of the ids that exist, in the ids' order; one read that throws fails all. *)
Lemma hydrate_spec {A} (get : Z → M (Rpc (W := W)) (option A)) (found : Z → option A) s ids :
  (∀ n, get n s = (Ok (found n), s)) →
  hydrate get (map num_of_Z ids) s =
    match mapM (λ id, bigint_of_number (num_of_Z id)) ids with
    | Ok ids' => (Ok (omap found ids'), s)
    | Throw e => (Throw e, s)
    end.
Proof.
  intros Hget. unfold hydrate.
  assert (mapM (with_id get) (map num_of_Z ids) s =
    match mapM (λ id, bigint_of_number (num_of_Z id)) ids with
    | Ok ids' => (Ok (map found ids'), s) | Throw e => (Throw e, s) end) as E.
  { induction ids as [|id ids IH]; [done|]. cbn [map mapM]. unfold mbind, M_bind at 1, with_id at 1.
    unfold mbind, M_bind, lift_result. destruct (bigint_of_number (num_of_Z id)) as [n|e]; [|done]. cbn [result_bind].
    rewrite Hget. unfold mbind, M_bind in IH. rewrite IH.
    by destruct (mapM (λ id, bigint_of_number (num_of_Z id)) ids). }
  unfold mbind at 1. unfold M_bind at 1. rewrite E. destruct (mapM _ ids) as [ids'|e]; [|done]. unfold mret, M_ret. do 2 f_equal.
  clear E. induction ids' as [|n ids' IH]; [done|]. cbn. destruct (found n); [by f_equal|done].
Qed.
End reads.
