(* ===== verification/Analytics.v ===== *)
(** * frontend/lib/analytics.ts: the analytics dashboard

    The data [fetchAnalyticsData] gathers from the pool, the invoices and the contract
    monitor, with series it makes up: the numbers drawn are an argument. *)
From S2P Require Import Prelude.
From S2P Require Import JsValue.
From S2P Require Import JsNumber.
From S2P Require Import JsArith.
From S2P Require Import JsMap.
From S2P Require Import Sdk.
From S2P Require Import Abi.
From S2P Require Import ContractAbi.
From S2P Require Import RpcPool.
From S2P Require Import Stellar.
From S2P Require Import WebAbi.
From S2P Require Import WebInvoice.
From S2P Require Import WebPool.
From S2P Require Import Revenue.
Import TtlCache.
From S2P Require Alerts.
#[local] Open Scope string_scope.
#[local] Open Scope list_scope.
#[local] Open Scope Z_scope.

Definition CACHE_TTL_MS : Z := 5 * 60 * 1000.

(** ** The records *)

Record PoolUtilizationPoint := { pu_time : string; pu_utilization : number; pu_deployed : number; pu_deposited : number }.
Record YieldPoint := { yp_time : string; yp_apy : number; yp_interest : number }.
Record InvoiceFunnelData := { fu_stage : string; fu_count : Z; fu_value : number }.
Record CreditScoreBucket := { cs_range : string; cs_count : Z }.
Record TopSme := { ts_address : string; ts_invoiceCount : Z; ts_totalValue : number; ts_defaultRate : number }.
Record AnalyticsDashboardData := {
  poolUtilization : list PoolUtilizationPoint;
  yieldPerformance : list YieldPoint;
  invoiceFunnel : list InvoiceFunnelData;
  creditScoreDistribution : list CreditScoreBucket;
  topSmes : list TopSme;
  recentEvents : list Alerts.ContractEvent
}.

Definition empty_analytics : AnalyticsDashboardData := {|
  poolUtilization := []; yieldPerformance := []; invoiceFunnel := []; creditScoreDistribution := [];
  topSmes := []; recentEvents := [] |}.

(** ** Series made up

    [random i] is the [i]-th number drawn; [isoDay ms] the day of a time. *)
Section series.
Context (isoDay : Z → string) (now : Z) (random : nat → number).

Definition POINTS : Z := 30.
Definition dayMs : Z := 24 * 60 * 60 * 1000.

(** The steps [i], the oldest first. *)
Definition steps (points : Z) : list Z := reverse (seqZ 0 points).

Definition utilization_point (depositedNum deployedNum : number) (points i : Z) (draw : number) : PoolUtilizationPoint :=
  let growthFactor := num_sub (num_of_Z 1) (num_div (num_of_Z i) (num_of_Z points)) in
  let variance := num_add (num_of_ratio 4 5) (num_mul draw (num_of_ratio 2 5)) in
  let dep := Math_round (num_mul (num_mul depositedNum growthFactor) variance) in
  let dployed := Math_min dep (Math_round (num_mul (num_mul deployedNum growthFactor) variance)) in
  let util := if num_ltb (num_of_Z 0) dep
              then Math_round (num_mul (num_div dployed dep) (num_of_Z 100)) else num_of_Z 0 in
  {| pu_time := isoDay (now - i * dayMs); pu_utilization := Math_min util (num_of_Z 100);
     pu_deployed := dployed; pu_deposited := dep |}.

Definition generateHistoricalUtilization (currentDeposited currentDeployed points : Z) : list PoolUtilizationPoint :=
  let units n := num_div (num_of_Z n) (num_of_Z 10000000) in
  imap (λ k i, utilization_point (units currentDeposited) (units currentDeployed) points i (random k)) (steps points).

Definition yield_point (apy : number) (i : Z) (draw : number) : YieldPoint :=
  let variance := num_mul apy (num_add (num_of_ratio 19 20) (num_mul draw (num_of_ratio 1 10))) in
  let interest := num_div (Math_round (num_mul variance (num_of_Z 10))) (num_of_Z 10) in
  {| yp_time := isoDay (now - i * dayMs); yp_apy := cents variance; yp_interest := interest |}.

Definition generateYieldData (yieldBps : number) (points : Z) : list YieldPoint :=
  let apy := num_div yieldBps (num_of_Z 100) in
  imap (λ k i, yield_point apy i (random k)) (steps points).

End series.

(** ** Invoices

    What the functions read of an invoice, which is a value taken to have the fields
    of [Invoice]. *)
Record InvoiceView := { iv_status : jsval; iv_amount : number; iv_owner : string }.

Definition invoice_view (inv : jsval) : result InvoiceView :=
  status ← get_prop inv "status";
  amount ← get_prop inv "amount";
  owner ← get_prop inv "owner";
  Ok {| iv_status := status; iv_amount := num_div (js_Number amount) (num_of_Z 10000000); iv_owner := js_String owner |}.

(** [inv.status === s]. *)
Definition status_is (inv : InvoiceView) (s : string) : bool :=
  match iv_status inv with JStr s' => String.eqb s s' | _ => false end.

(** *** The funnel *)

Definition STAGES : list string := ["Created"; "Verified"; "Funded"; "Paid"; "Defaulted"].

(** [status in stages]: the status becomes the name of a property. The names that
    every object has are not statuses. *)
Definition in_stage (stage : string) (inv : InvoiceView) : bool := String.eqb (js_String (iv_status inv)) stage.

Definition generateInvoiceFunnel (invoices : list InvoiceView) : list InvoiceFunnelData :=
  map (λ stage,
      let mine := List.filter (in_stage stage) invoices in
      {| fu_stage := stage; fu_count := lengthZ mine;
         fu_value := Math_round (foldl (λ v inv, num_add v (iv_amount inv)) (num_of_Z 0) mine) |})
    STAGES.

(** *** Scores drawn *)

(** [base + Math.floor(Math.random() * width)], by status. *)
Definition score_range (inv : InvoiceView) : Z * Z :=
  if status_is inv "Paid" then (700, 150)
  else if status_is inv "Funded" then (500, 250)
  else if status_is inv "Verified" then (400, 300)
  else if status_is inv "Defaulted" then (200, 300)
  else (300, 550).

Definition draw_score (inv : InvoiceView) (draw : number) : number :=
  let '(base, width) := score_range inv in
  num_add (num_of_Z base) (Math_floor (num_mul draw (num_of_Z width))).

Definition BUCKETS : list string := ["0-300"; "300-500"; "500-650"; "650-750"; "750-850"; "850+"].

Definition bucket_of (score : number) : nat :=
  let at_least n := num_leb (num_of_Z n) score in
  if at_least 850 then 5 else if at_least 750 then 4 else if at_least 650 then 3
  else if at_least 500 then 2 else if at_least 300 then 1 else 0.

Definition generateCreditScoreDistribution (random : nat → number) (invoices : list InvoiceView) : list CreditScoreBucket :=
  let drawn := imap (λ k inv, bucket_of (draw_score inv (random k))) invoices in
  imap (λ b range, {| cs_range := range; cs_count := lengthZ (List.filter (Nat.eqb b) drawn) |}) BUCKETS.

(** *** The owners with the most *)

Record Sme := { sm_invoiceCount : Z; sm_totalValue : number; sm_defaultCount : Z }.

Definition add_sme (o : option Sme) (inv : InvoiceView) : Sme :=
  let e := default {| sm_invoiceCount := 0; sm_totalValue := num_of_Z 0; sm_defaultCount := 0 |} o in
  {| sm_invoiceCount := sm_invoiceCount e + 1; sm_totalValue := num_add (sm_totalValue e) (iv_amount inv);
     sm_defaultCount := if status_is inv "Defaulted" then sm_defaultCount e + 1 else sm_defaultCount e |}.

Definition smes (invoices : list InvoiceView) : list (string * Sme) := group_by iv_owner add_sme invoices.

Definition top_sme (e : string * Sme) : TopSme := {|
  ts_address := e.1; ts_invoiceCount := sm_invoiceCount e.2; ts_totalValue := Math_round (sm_totalValue e.2);
  ts_defaultRate :=
    if 0 <? sm_invoiceCount e.2
    then Math_round (num_mul (num_div (num_of_Z (sm_defaultCount e.2)) (num_of_Z (sm_invoiceCount e.2))) (num_of_Z 100))
    else num_of_Z 0 |}.

(** [b.totalValue - a.totalValue]: the totals are rounded, so integers when finite. *)
Definition value_desc (t : TopSme) : Z := - default 0 (num_to_Z (ts_totalValue t)).

Definition generateTopSmes (invoices : list InvoiceView) : list TopSme :=
  take 10 (sort_by value_desc (map top_sme (smes invoices))).

(** ** The dashboard *)

Section dashboard.
Context {W ScVal : Type} (X : Chain W) (isoDay : Z → string) (random : W → nat → number).

Local Abbreviation P := (Alerts.Process (W := Rpc (W := W))).
(** [monitorService.pollEvents()]: [Alerts.pollEvents], of a process whose outside
    is the connections. *)
Context (pollEvents : M P (list Alerts.ContractEvent)).

(** [p.catch(() => none)]. *)
Definition or_none {A} (none : A) (m : M P A) : M P A := try_catch m (λ _, mret none).

Definition on_rpc {A} (m : M (Rpc (W := W)) A) : M P A := Alerts.on_world m.
Definition outside_now : M P W := λ p, (Ok (world (Alerts.outside p)), p).

Definition invoice_ids (invoiceCount : number) : list Z := ids_up_to (Math_min invoiceCount (num_of_Z 50)).

(** The payload, of what was gathered. *)
Definition analytics_data (w : W) (config totals : option (list (string * value))) (invoices : list jsval)
    (events : list Alerts.ContractEvent) : result AnalyticsDashboardData :=
  let deposited := big_field totals "totalDeposited" in
  let deployed := big_field totals "totalDeployed" in
  let yieldBps := match config with Some _ => num_field config "yieldBps" | None => num_of_Z 800 end in
  let drawn k i := random w (k + i)%nat in
  views ← mapM invoice_view invoices;
  Ok {| poolUtilization := generateHistoricalUtilization isoDay (ch_now X w) (drawn 0%nat) deposited deployed POINTS;
        yieldPerformance := generateYieldData isoDay (ch_now X w) (drawn 30%nat) yieldBps POINTS;
        invoiceFunnel := generateInvoiceFunnel views;
        creditScoreDistribution := generateCreditScoreDistribution (drawn 60%nat) views;
        topSmes := generateTopSmes views;
        recentEvents := take 20 events |}.

Definition gather_analytics : M P AnalyticsDashboardData :=
  invoiceCount ← or_none (num_of_Z 0) (on_rpc (getInvoiceCount X));
  poolConfig ← or_none None (on_rpc (c ← getPoolConfig X; mret (Some c)));
  poolTokenTotals ← or_none None (on_rpc (t ← getPoolTokenTotals X ""; mret (Some t)));
  invoices ← or_none [] (on_rpc (getMultipleInvoices X None (invoice_ids invoiceCount)));
  events ← or_none [] pollEvents;
  w ← outside_now;
  lift_result (analytics_data w poolConfig poolTokenTotals invoices events).

Definition fetchAnalyticsData : M (Kept P AnalyticsDashboardData) AnalyticsDashboardData :=
  fetch_kept (λ p : P, ch_now X (world (Alerts.outside p))) gather_analytics empty_analytics CACHE_TTL_MS.

Definition clearAnalyticsCache : M (Kept P AnalyticsDashboardData) unit := clear_kept.

End dashboard.

(** [address.slice(0, chars)], three dots and [address.slice(-chars)]. *)
Definition truncateAddress (address : string) (chars : nat) : string :=
  if String.eqb address "" then ""
  else str_take chars address +:+ "..." +:+ str_drop (String.length address - chars) address.

(** ** Counts *)

Lemma bucket_of_range score : (bucket_of score < length BUCKETS)%nat.
Proof. unfold bucket_of. repeat case_match; cbn; lia. Qed.

(** One index of a range is [x]. *)
Lemma sum_by_indicator x a n : (a ≤ x < a + n)%nat → sum_by (λ b, if Nat.eqb b x then 1 else 0) (seq a n) = 1.
Proof.
  revert a. induction n as [|n IH]; intros a Hx; [lia|]. cbn [seq sum_by foldr]. unfold sum_by in IH.
  destruct (Nat.eqb_spec a x) as [->|Hne]; [|rewrite IH; lia].
  enough (∀ m, (x < m)%nat → foldr (λ b acc, (if Nat.eqb b x then 1 else 0) + acc) 0 (seq m n) = 0) as E by (rewrite E; lia).
  clear. induction n as [|n IH]; intros m Hm; [done|]. cbn [seq foldr]. rewrite (proj2 (Nat.eqb_neq m x)), IH by lia. lia.
Qed.

(** Sorting into [n] buckets loses none. *)
Lemma count_filters (l : list nat) n : Forall (λ b, b < n)%nat l →
  sum_by (λ b, lengthZ (List.filter (Nat.eqb b) l)) (seq 0 n) = lengthZ l.
Proof.
  intros H. induction H as [|x l Hx Hl IH]; [by apply (sum_by_const 0)|].
  rewrite (sum_by_ext _ (λ b, (if Nat.eqb b x then 1 else 0) + lengthZ (List.filter (Nat.eqb b) l))).
  2: { intros b. cbn [List.filter]. unfold lengthZ. destruct (Nat.eqb b x); cbn [length]; lia. }
  rewrite sum_by_add, IH, sum_by_indicator by lia. unfold lengthZ. cbn [length]. lia.
Qed.

(** Every invoice is in one bucket, whatever is drawn. *)
Theorem scores_counted random invoices :
  let buckets := generateCreditScoreDistribution random invoices in
  map cs_range buckets = BUCKETS ∧ sum_by cs_count buckets = lengthZ invoices.
Proof.
  cbv zeta. unfold generateCreditScoreDistribution. set (drawn := imap _ invoices). split; [done|].
  assert (Forall (λ b, b < 6)%nat drawn) as Hd.
  { subst drawn. apply Forall_forall. intros b (k&inv&->&_)%elem_of_lookup_imap. apply bucket_of_range. }
  transitivity (lengthZ drawn); [exact (count_filters drawn 6 Hd)|]. subst drawn. unfold lengthZ. by rewrite length_imap.
Qed.

(** ** Owners *)

Lemma sum_by_set k (v : Sme) m : jm_wf m →
  sum_by (λ e, sm_invoiceCount e.2) (jm_set k v m) =
    sum_by (λ e, sm_invoiceCount e.2) m - default 0 (sm_invoiceCount <$> jm_get k m) + sm_invoiceCount v.
Proof.
  unfold jm_wf. induction m as [|[k' v'] m IH]; intros Hwf.
  { cbn. lia. }
  cbn [jm_keys] in Hwf. apply NoDup_cons in Hwf as [Hk Hwf]. cbn [jm_set jm_get sum_by foldr snd] in *.
  unfold sum_by in *. destruct (String.eqb k k'); cbn [foldr snd default from_option option_fmap fmap]; [cbn; lia|].
  rewrite IH by done. lia.
Qed.

(** Every invoice counts for its owner, once. *)
Lemma owners_counted invoices : sum_by (λ e, sm_invoiceCount e.2) (smes invoices) = lengthZ invoices.
Proof.
  unfold smes. induction invoices as [|inv invoices IH] using rev_ind; [done|].
  rewrite group_by_snoc, sum_by_set by apply group_by_wf. rewrite IH, lengthZ_app.
  unfold add_sme. destruct (jm_get _ _); cbn; unfold lengthZ; cbn; lia.
Qed.

(** The table has the owners with the largest totals, largest first, at most ten; when
    there are no more than ten owners their counts add up to all invoices. *)
Theorem top_smes_correct invoices :
  let all := map top_sme (smes invoices) in
  let top := generateTopSmes invoices in
  NoDup (map ts_address all) ∧ ascending value_desc top ∧ (length top ≤ 10)%nat ∧
  (∃ others, all ≡ₚ top ++ others ∧ ∀ a b, a ∈ top → b ∈ others → value_desc a ≤ value_desc b) ∧
  ((length (smes invoices) ≤ 10)%nat → sum_by ts_invoiceCount top = lengthZ invoices).
Proof.
  intros all top.
  assert (map ts_address all = jm_keys (smes invoices)) as Hkeys.
  { subst all. unfold jm_keys. rewrite map_map. by induction (smes invoices) as [|[k v] l IH]; [|cbn; f_equal]. }
  pose proof (take_drop 10 (sort_by value_desc all)) as Hsplit. change (top ++ drop 10 (sort_by value_desc all) = sort_by value_desc all) in Hsplit.
  pose proof (sort_by_ascending value_desc all) as Hasc. rewrite <-Hsplit in Hasc.
  split_and!.
  - rewrite Hkeys. apply group_by_wf.
  - by apply StronglySorted_app_1_l in Hasc.
  - unfold top, generateTopSmes. rewrite length_take. lia.
  - exists (drop 10 (sort_by value_desc all)). split.
    + rewrite Hsplit. symmetry. apply sort_by_perm.
    + intros a b Ha Hb. exact (StronglySorted_app_1_elem_of (λ a b, value_desc a ≤ value_desc b) _ _ a b Hasc Ha Hb).
  - intros Hl. assert (top = sort_by value_desc all) as ->.
    { unfold top, generateTopSmes. apply take_ge. fold all. rewrite (Permutation_length (sort_by_perm value_desc all)).
      subst all. by rewrite length_map. }
    rewrite (sum_by_perm _ _ _ (sort_by_perm value_desc all)). subst all. rewrite sum_by_map. apply owners_counted.
Qed.

(** ** Statuses as the contract has them *)

(** The name of a status that is a list of one text, as the contract's are. *)
Definition native_name (inv : InvoiceView) : option string :=
  match iv_status inv with JArr [JStr s] => Some s | _ => None end.

Lemma no_defaults_counted l v :
  Forall (λ inv, ∀ s, status_is inv s = false) l → group_acc add_sme l = Some v → sm_defaultCount v = 0.
Proof.
  intros H. revert v. induction l as [|inv l IH] using rev_ind; intros v; [done|].
  apply Forall_app in H as [Hl Hi]. apply Forall_cons in Hi as [Hi _]. rewrite group_acc_snoc. intros [= <-].
  unfold add_sme at 1. cbn [sm_defaultCount]. rewrite (Hi "Defaulted"). destruct (group_acc add_sme l) as [u|]; [by apply IH|done].
Qed.

(** Such a status is found among the stages all the same: made the name of a property,
    the list is its text. Elsewhere it is compared with [===]: no default is ever
    counted, and every score is drawn from the range of an unknown status. *)
Theorem native_status_half_read invoices :
  Forall (λ inv, is_Some (native_name inv)) invoices →
  map (λ p, (fu_stage p, fu_count p)) (generateInvoiceFunnel invoices) =
    map (λ stage, (stage, lengthZ (filter (λ inv, native_name inv = Some stage) invoices))) STAGES ∧
  Forall (λ inv, score_range inv = (300, 550)) invoices ∧
  Forall (λ e, sm_defaultCount e.2 = 0) (smes invoices).
Proof.
  intros H. assert (Forall (λ inv, ∀ s, status_is inv s = false) invoices) as Hs.
  { eapply Forall_impl; [exact H|]. intros inv [s Hn] s'. unfold native_name in Hn. unfold status_is.
    by destruct (iv_status inv). }
  split_and!.
  - unfold generateInvoiceFunnel. rewrite map_map. apply map_ext. intros stage. cbn [fu_stage fu_count]. f_equal.
    clear Hs. induction H as [|inv invoices [s Hn] _ IH]; [done|]. cbn [List.filter]. rewrite filter_cons.
    assert (in_stage stage inv = bool_decide (native_name inv = Some stage)) as ->.
    { unfold in_stage. rewrite Hn. unfold native_name in Hn.
      destruct (iv_status inv) as [| | | | | |[|[| | | | |s'| |] []]|]; try done. injection Hn as ->.
      change (js_String (JArr [JStr s])) with s. destruct (String.eqb_spec s stage) as [->|Hne]; case_bool_decide; congruence. }
    case_bool_decide as Hd; [rewrite decide_True by done|rewrite decide_False by done; done].
    unfold lengthZ in *. cbn [length]. lia.
  - eapply Forall_impl; [exact Hs|]. intros inv Hf. unfold score_range. by rewrite !Hf.
  - apply Forall_forall. intros [k v] Hin. cbn [snd].
    pose proof (jm_in_get k v _ (group_by_wf iv_owner add_sme invoices) Hin) as Hg. rewrite jm_get_group_by in Hg.
    eapply no_defaults_counted; [|exact Hg]. apply Forall_forall. intros inv [_ Hinv]%list_elem_of_filter.
    by apply (proj1 (Forall_forall _ _) Hs).
Qed.
