(* ===== verification/WebSession.v ===== *)
(** * The browser's session: lib/auth.ts, hooks/useAdminGuard.ts and lib/env.ts

    The token of the browser, its expiry and renewal with the wallet; the check that
    guards the admin pages; and the check of the configuration. The server's side of
    the sign-in is Auth.v. *)
From S2P Require Import Prelude.
From S2P Require Import JsValue.
From S2P Require Import JsNumber.
From S2P Require Import Sdk.
From S2P Require Import Abi.
From S2P Require Import ContractAbi.
From S2P Require Import RpcPool.
From S2P Require Import Stellar.
From S2P Require Import WebAbi.
From S2P Require Import WebPool.
From S2P Require Import WebConform.
From Stdlib Require Import Ascii.
#[local] Open Scope string_scope.
#[local] Open Scope list_scope.
#[local] Open Scope Z_scope.

(** ** lib/auth.ts *)

Definition TOKEN_KEY : string := "astera_jwt".
Definition REFRESH_MARGIN_MS : Z := 5 * 60 * 1000.

(** A request, with the headers the file sets; and its answer. *)
Record Request := {
  rq_method : string; rq_url : string; rq_headers : list (string * string); rq_body : option jsval }.
Record Response := { rs_status : Z; rs_json : result jsval }.

Section auth.
Context {W : Type} (now : W → Z) (isBrowser : bool).
(** [JSON.parse] of the decoded middle part of a token: [None] when it throws. *)
Context (payload_of : string → option jsval).
Context (fetch : Request → M W Response).
(** The wallet: it is looked for, and signs a transaction or says why not. *)
Context (getFreighter : M W unit) (signTransaction : string → string → string → M W (jsval * jsval)).

(** The item [TOKEN_KEY] of the browser's storage, and what is outside. *)
Record Browser := { stored : option string; outside : W }.

Definition on_outside {A} (m : M W A) : M Browser A := λ b,
  let '(r, w) := m (outside b) in (r, {| stored := stored b; outside := w |}).
Definition set_stored (t : option string) : M Browser unit :=
  modify (λ b, {| stored := if isBrowser then t else stored b; outside := outside b |}).

Definition setToken (token : string) : M Browser unit := set_stored (Some token).
Definition clearToken : M Browser unit := set_stored None.
Definition getToken : M Browser (option string) := λ b, (Ok (if isBrowser then stored b else None), b).

(** [token.split('.')[1]]. *)
Definition middle (token : string) : option string := split_char "."%char token !! 1%nat.

Definition url_base64 (c : Ascii.ascii) : Ascii.ascii :=
  if Ascii.eqb c "-" then "+"%char else if Ascii.eqb c "_" then "/"%char else c.

Definition getTokenExpiry (token : string) : option Z :=
  match middle token with
  | None | Some "" => None
  | Some part =>
      match payload_of (str_map url_base64 part) with
      | Some payload => match get_prop payload "exp" with Ok (JNum exp) => Some exp | _ => None end
      | None => None
      end
  end.

(** [ms] is [Date.now()]. *)
Definition isTokenExpired (ms : Z) (token : string) : bool :=
  match getTokenExpiry token with None => true | Some exp => exp <=? ms / 1000 end.

Definition isTokenExpiringSoon (ms : Z) (token : string) (marginMs : Z) : bool :=
  match getTokenExpiry token with None => true | Some exp => exp * 1000 - ms <? marginMs end.

Definition json_post (url : string) (body : jsval) : Request := {|
  rq_method := "POST"; rq_url := url; rq_headers := [("Content-Type", "application/json")]; rq_body := Some body |}.

Definition fetch_json (r : Request) : M Browser jsval :=
  res ← on_outside (fetch r); lift_result (rs_json res).

Definition requestChallenge (account : string) : M Browser jsval :=
  fetch_json (json_post "/api/auth/challenge" (JObj [("account", JStr account)])).
Definition exchangeToken (signedXDR : jsval) : M Browser jsval :=
  fetch_json (json_post "/api/auth/token" (JObj [("signed_xdr", signedXDR)])).

Definition verifyToken (token : option string) : M Browser jsval :=
  match token with
  | None | Some "" => mret (JObj [("authenticated", JBool false)])
  | Some t => fetch_json {| rq_method := "GET"; rq_url := "/api/auth/me";
                            rq_headers := [("Authorization", "Bearer " +:+ t)]; rq_body := None |}
  end.

(** What the sign-in returns: a token, or an error. *)
Inductive SignIn := Signed (token : jsval) | Refused (error : string) (detail : jsval).

Definition sign_in (address : string) : M Browser SignIn :=
  challenge ← requestChallenge address;
  transaction ← (if truthy challenge then lift_result (get_prop challenge "transaction") else mret JUndef);
  if negb (truthy transaction) then mret (Refused "no_challenge" JUndef)
  else
    _ ← on_outside getFreighter;
    passphrase ← lift_result (get_prop challenge "network_passphrase");
    '(signed_envelope_xdr, error) ←
      try_catch (on_outside (signTransaction (js_String transaction) (js_String (js_coalesce passphrase (JStr ""))) address))
        (λ e, mret (JUndef, JStr (exn_message e)));
    if truthy error || negb (truthy signed_envelope_xdr) then mret (Refused "sign_failed" JUndef)
    else
      tokenResp ← exchangeToken signed_envelope_xdr;
      let token := get_prop_opt tokenResp "token" in
      if truthy token then setToken (js_String token);; mret (Signed token)
      else mret (Refused "exchange_failed" tokenResp).

Definition ensureAuthWithFreighter (address : string) : M Browser SignIn :=
  try_catch (sign_in address) (λ e, mret (Refused (exn_message e) JUndef)).

(** [headers.set('Authorization', ..)]. *)
Definition authorized_headers (headers : list (string * string)) (token : string) : list (string * string) :=
  filter (λ h, toLowerCase h.1 ≠ "authorization") headers ++ [("Authorization", "Bearer " +:+ token)].

Definition with_token (r : Request) (token : option string) : Request := {|
  rq_method := rq_method r; rq_url := rq_url r;
  rq_headers := match token with
    | None | Some "" => rq_headers r
    | Some t => authorized_headers (rq_headers r) t
    end;
  rq_body := rq_body r |}.

(** The fresh token, kept a second time. *)
Definition renewed (address : string) : M Browser (option string) :=
  r ← ensureAuthWithFreighter address;
  match r with
  | Signed token => setToken (js_String token);; mret (Some (js_String token))
  | Refused _ _ => mret None
  end.

Definition date_now : M Browser Z := λ b, (Ok (now (outside b)), b).

Definition authenticatedFetch (r : Request) (address : string) : M Browser Response :=
  token ← getToken;
  ms ← date_now;
  token ← match token with
    | None | Some "" => mret token
    | Some t =>
        if isTokenExpiringSoon ms t REFRESH_MARGIN_MS then
          fresh ← renewed address; mret (match fresh with Some f => Some f | None => token end)
        else mret token
    end;
  res ← on_outside (fetch (with_token r token));
  if rs_status res =? 401 then
    fresh ← renewed address;
    match fresh with
    | Some t => on_outside (fetch (with_token r (Some t)))
    | None => mret res
    end
  else mret res.

End auth.
Arguments Browser : clear implicits.

(** ** hooks/useAdminGuard.ts *)

Inductive AdminGuardStatus := loading | unauthenticated | authorized | denied.

Record WalletState := { wl_address : option string; wl_connected : bool }.

Section guard.
Context {W : Type} (X : Chain W) (isBrowser : bool) (payload_of : string → option jsval).
Context (fetch : Request → M (Rpc (W := W)) Response).
(** [cancelled] is set by the clean-up of the effect, which happens outside. *)
Context (cancelled : W → bool) (wallet : WalletState) (redirectTo : string).

(** The store's configuration, the hook's status and the pages it sent the user to. *)
Record Guard := {
  gd_browser : Browser (Rpc (W := W)); gd_poolConfig : option (list (string * value));
  gd_status : AdminGuardStatus; gd_redirects : list string }.

Definition on_browser {A} (m : M (Browser (Rpc (W := W))) A) : M Guard A := λ g,
  let '(r, b) := m (gd_browser g) in
  (r, {| gd_browser := b; gd_poolConfig := gd_poolConfig g; gd_status := gd_status g; gd_redirects := gd_redirects g |}).
Definition on_chain {A} (m : M (Rpc (W := W)) A) : M Guard A := on_browser (on_outside m).

Definition setPoolConfig (c : list (string * value)) : M Guard unit := modify (λ g, {|
  gd_browser := gd_browser g; gd_poolConfig := Some c; gd_status := gd_status g; gd_redirects := gd_redirects g |}).
Definition setStatus (st : AdminGuardStatus) : M Guard unit := modify (λ g, {|
  gd_browser := gd_browser g; gd_poolConfig := gd_poolConfig g; gd_status := st; gd_redirects := gd_redirects g |}).
Definition redirect : M Guard unit := modify (λ g, {|
  gd_browser := gd_browser g; gd_poolConfig := gd_poolConfig g; gd_status := gd_status g;
  gd_redirects := gd_redirects g ++ [redirectTo] |}).
Definition isCancelled : M Guard bool := λ g, (Ok (cancelled (world (outside (gd_browser g)))), g).

(** [config.admin]. *)
Definition admin_of (config : list (string * value)) : jsval :=
  match find (λ f, String.eqb f.1 "admin") config with Some (_, VRaw v) => v | _ => JUndef end.
Definition is_address (v : jsval) (address : string) : bool :=
  match v with JStr s => String.eqb s address | _ => false end.

(** [a === b] of an account and the admin, which are texts. *)
Definition same_text (a b : jsval) : bool :=
  match a, b with JStr s, JStr t => String.eqb s t | JUndef, JUndef => true | _, _ => false end.

Definition ROLES : list string :=
  ["SuperAdmin"; "RiskManager"; "TreasuryManager"; "ComplianceOfficer"; "OracleManager"].

Definition verified_by (v admin : jsval) : bool :=
  truthy (get_prop_opt v "authenticated") && same_text (get_prop_opt v "account") admin.

(** The admin's address, or a token of the admin's account. *)
Definition admin_check (address : string) (admin : jsval) : M Guard bool :=
  try_catch
    (token ← on_browser (getToken isBrowser);
     verified ← on_browser (verifyToken fetch token);
     mret (verified_by verified admin || is_address admin address))
    (λ _, mret (is_address admin address)).

Definition role_check (address : string) : M Guard bool :=
  results ← mapM (λ role, on_chain (isAccessControlSigner X address role)) ROLES;
  mret (existsb id results).

(** The configuration: the store's, or read now; none when the page is gone by then. *)
Definition guard_config : M Guard (option (list (string * value))) :=
  g ← get_state;
  match gd_poolConfig g with
  | Some c => mret (Some c)
  | None =>
      c ← on_chain (getPoolConfig X);
      gone ← isCancelled;
      if (gone : bool) then mret None else setPoolConfig c;; mret (Some c)
  end.

Definition deny : M Guard unit := setStatus denied;; redirect.

Definition guard_body : M Guard unit :=
  config ← guard_config;
  match config with
  | None => mret tt
  | Some config =>
      match wallet with
      | {| wl_address := Some address; wl_connected := true |} =>
          if String.eqb address "" then
            gone ← isCancelled; if (gone : bool) then mret tt else setStatus unauthenticated
          else
            ok ← admin_check address (admin_of config);
            ok ← (if (ok : bool) then mret true else role_check address);
            gone ← isCancelled;
            if (gone : bool) then mret tt else if (ok : bool) then setStatus authorized else deny
      | _ => gone ← isCancelled; if (gone : bool) then mret tt else setStatus unauthenticated
      end
  end.

Definition check : M Guard unit :=
  setStatus loading;;
  try_catch guard_body (λ _, gone ← isCancelled; if (gone : bool) then mret tt else deny).

Definition isAdmin (g : Guard) : bool := match gd_status g with authorized => true | _ => false end.

End guard.

(** ** lib/env.ts *)

Record EnvValidationError := { ev_variable : string; ev_message : string }.

Definition REQUIRED_VARS : list string :=
  ["NEXT_PUBLIC_INVOICE_CONTRACT_ID"; "NEXT_PUBLIC_POOL_CONTRACT_ID"; "NEXT_PUBLIC_USDC_TOKEN_ID"].

Section env.
(** [process.env], and whether [new URL] takes a text. *)
Context (env : string → option string) (isURL : string → bool).

Definition validateContractId (value name : string) : option EnvValidationError :=
  if String.eqb (trim value) "" then Some {| ev_variable := name; ev_message := "is required" |}
  else if negb (String.length value =? 56)%nat || negb (startsWith "C" value) then
    Some {| ev_variable := name; ev_message := "must be a valid Stellar contract ID (56 characters starting with C)" |}
  else None.

Definition validNetworks : list string := ["testnet"; "mainnet"; "standalone"].

Definition validateNetwork (value : string) : option EnvValidationError :=
  if negb (String.eqb value "") && negb (one_of validNetworks value) then
    Some {| ev_variable := "NEXT_PUBLIC_NETWORK"; ev_message := "must be one of: " +:+ String.concat ", " validNetworks |}
  else None.

Definition validateUrl (value : option string) (name : string) : option EnvValidationError :=
  match value with
  | None | Some "" => None
  | Some v => if isURL v then None else Some {| ev_variable := name; ev_message := "must be a valid URL" |}
  end.

(** [process.env[k] || d]. *)
Definition env_or (k d : string) : string :=
  match env k with None | Some "" => d | Some v => v end.

(** An id that may be missing. *)
Definition optional_id (name : string) : option EnvValidationError :=
  match env name with None | Some "" => None | Some v => validateContractId v name end.

Definition required_id (name : string) : option EnvValidationError := validateContractId (env_or name "") name.

Definition validateEnv : list EnvValidationError :=
  omap (λ e : option EnvValidationError, e)
    [required_id "NEXT_PUBLIC_INVOICE_CONTRACT_ID"; required_id "NEXT_PUBLIC_POOL_CONTRACT_ID";
     required_id "NEXT_PUBLIC_USDC_TOKEN_ID"; optional_id "NEXT_PUBLIC_EURC_TOKEN_ID";
     optional_id "NEXT_PUBLIC_REFERRAL_CONTRACT_ID"; validateNetwork (env_or "NEXT_PUBLIC_NETWORK" "testnet");
     validateUrl (env "NEXT_PUBLIC_HORIZON_URL") "NEXT_PUBLIC_HORIZON_URL";
     validateUrl (env "NEXT_PUBLIC_SOROBAN_RPC_URL") "NEXT_PUBLIC_SOROBAN_RPC_URL"].

Definition formatEnvErrors (errors : list EnvValidationError) : string :=
  String.concat (String "010" "") (map (λ e, "  - " +:+ ev_variable e +:+ ": " +:+ ev_message e) errors).

Definition getAppUrl : string :=
  match env "NEXT_PUBLIC_APP_URL" with
  | Some u => u
  | None =>
      match env "VERCEL_URL" with
      | None | Some "" => "http://localhost:3000"
      | Some u => "https://" +:+ u
      end
  end.

(** What is printed, and whether it throws: only on the server, and when asked to. *)
Definition assertEnvValid (isBrowser : bool) : option string * result unit :=
  match validateEnv with
  | [] => (None, Ok tt)
  | errors =>
      let errorMessage := "Environment configuration errors:" +:+ String "010" "" +:+ formatEnvErrors errors in
      let strict := match env "NEXT_PUBLIC_STRICT_ENV" with Some s => String.eqb s "true" | None => false end in
      (Some errorMessage, if strict && negb isBrowser then Throw (EError errorMessage) else Ok tt)
  end.

End env.

(** ** The token *)

Lemma expired_expiring payload_of ms token : 0 ≤ ms →
  isTokenExpired payload_of ms token = true → isTokenExpiringSoon payload_of ms token REFRESH_MARGIN_MS = true.
Proof.
  intros Hms. unfold isTokenExpired, isTokenExpiringSoon, REFRESH_MARGIN_MS.
  destruct (getTokenExpiry payload_of token) as [exp|]; [|done]. rewrite Z.leb_le, Z.ltb_lt.
  intros H. pose proof (Z.mul_div_le ms 1000 ltac:(lia)). lia.
Qed.

Section auth_facts.
Context {W : Type} (now : W → Z) (payload_of : string → option jsval) (fetch : Request → M W Response).
Context (getFreighter : M W unit) (signTransaction : string → string → string → M W (jsval * jsval)).

#[local] Notation sign := (ensureAuthWithFreighter true fetch getFreighter signTransaction).

(** The sign-in never throws. *)
Lemma sign_total address b : ∃ r b', sign address b = (Ok r, b').
Proof.
  unfold ensureAuthWithFreighter, try_catch. destruct (sign_in true fetch getFreighter signTransaction address b) as [[r|e] b']; eauto.
Qed.

Context (url : string) (count : W → Z).
Hypothesis Hfetch : ∀ q w, count (fetch q w).2 = count w + if String.eqb (rq_url q) url then 1 else 0.
Hypothesis Hfreighter : ∀ w, count (getFreighter w).2 = count w.
Hypothesis Hsign : ∀ tx p a w, count (signTransaction tx p a w).2 = count w.
Hypothesis Hurl : url ∉ ["/api/auth/challenge"; "/api/auth/token"].

(** A computation that sends no request to [url]. *)
#[local] Notation silent m := (∀ b, count (outside (snd (m b))) = count (outside b)).

Lemma silent_bind {A B} (m : M (Browser W) A) (f : A → M (Browser W) B) :
  silent m → (∀ a, silent (f a)) → silent (m ≫= f).
Proof.
  intros Hm Hf b. unfold mbind, M_bind. specialize (Hm b). destruct (m b) as [[a|e] b']; cbn [snd] in *; [|done].
  by rewrite Hf.
Qed.

Lemma silent_outside {A} (m : M W A) : (∀ w, count (m w).2 = count w) → silent (on_outside m).
Proof. intros Hm b. unfold on_outside. specialize (Hm (outside b)). by destruct (m (outside b)). Qed.

Lemma silent_catch {A} (m : M (Browser W) A) h : silent m → (∀ e, silent (h e)) → silent (try_catch m h).
Proof.
  intros Hm Hh b. unfold try_catch. specialize (Hm b). destruct (m b) as [[a|e] b']; cbn [snd] in *; [done|]. by rewrite Hh.
Qed.

Lemma silent_fetch q : rq_url q ≠ url → silent (fetch_json fetch q).
Proof.
  intros Hq. apply silent_bind; [|done]. apply silent_outside. intros w. rewrite Hfetch.
  rewrite (proj2 (String.eqb_neq _ _)) by done. lia.
Qed.

Lemma silent_sign address : silent (sign address).
Proof.
  apply silent_catch; [|done]. unfold sign_in. apply silent_bind.
  { apply silent_fetch. cbn. set_solver. }
  intros challenge. apply silent_bind; [by destruct (truthy challenge)|]. intros transaction.
  destruct (negb (truthy transaction)); [done|]. apply silent_bind; [by apply silent_outside|]. intros _.
  apply silent_bind; [done|]. intros passphrase. apply silent_bind.
  { apply silent_catch; [|done]. apply silent_outside. intros w. apply Hsign. }
  intros [env err]. destruct (_ || _); [done|]. apply silent_bind; [apply silent_fetch; cbn; set_solver|].
  intros resp. destruct (truthy _); [|done]. by apply silent_bind.
Qed.

(** A renewal keeps the token it returns. *)
Lemma renewed_spec address b : ∃ o b', renewed true fetch getFreighter signTransaction address b = (Ok o, b') ∧
  count (outside b') = count (outside b) ∧ (∀ t, o = Some t → stored b' = Some t).
Proof.
  unfold renewed. pose proof (silent_sign address b) as Hc. destruct (sign_total address b) as (r&b1&E).
  unfold mbind, M_bind. rewrite E in Hc |- *. destruct r as [token|error detail]; unfold setToken, set_stored, modify; eexists _, _;
    (split; [reflexivity|]); (split; [exact Hc|]); [by intros t [= <-]|done].
Qed.

(** A request is sent once, or twice: the second time only after the first was
    answered 401, with a token signed in the meantime, which is kept. The answer is
    that of the last one sent. *)
Theorem authenticated_fetch_retries_once r address b : rq_url r = url →
  let '(res, b') := authenticatedFetch now true payload_of fetch getFreighter signTransaction r address b in
  ∃ token w,
    (count (outside b') = count (outside b) + 1 ∧ res = (fetch (with_token r token) w).1) ∨
    (count (outside b') = count (outside b) + 2 ∧
     ∃ refused fresh w', (fetch (with_token r token) w).1 = Ok refused ∧ rs_status refused = 401 ∧
       stored b' = Some fresh ∧ res = (fetch (with_token r (Some fresh)) w').1).
Proof.
  intros Hr. set (before := token ← getToken true; ms ← date_now now;
    match token with
    | None | Some "" => mret token
    | Some t => if isTokenExpiringSoon payload_of ms t REFRESH_MARGIN_MS
        then fresh ← renewed true fetch getFreighter signTransaction address;
             mret (match fresh with Some f => Some f | None => token end)
        else mret token
    end : M (Browser W) (option string)).
  assert (∃ token b1, before b = (Ok token, b1) ∧ count (outside b1) = count (outside b)) as (token&b1&E&Hc1).
  { subst before. unfold getToken, date_now, mbind, M_bind. destruct (stored b) as [[|c t]|]; [eauto| |eauto].
    destruct (isTokenExpiringSoon _ _ _ _); [|eauto]. destruct (renewed_spec address b) as (o&b1&->&Hc&_). eauto. }
  assert (authenticatedFetch now true payload_of fetch getFreighter signTransaction r address b =
    (token ← before;
     res ← on_outside (fetch (with_token r token));
     if rs_status res =? 401
     then fresh ← renewed true fetch getFreighter signTransaction address;
          match fresh with Some t => on_outside (fetch (with_token r (Some t))) | None => mret res end
     else mret res) b) as ->.
  { subst before. unfold authenticatedFetch, getToken, date_now, mbind, M_bind. destruct (stored b) as [[|c t]|]; [done| |done].
    destruct (isTokenExpiringSoon _ _ _ _); [|done]. by destruct (renewed _ _ _ _ _ b) as [[o|e] b']. }
  clearbody before. unfold mbind, M_bind. rewrite E. unfold on_outside at 1.
  assert (∀ o w, count (fetch (with_token r o) w).2 = count w + 1) as Hone.
  { intros o w. rewrite Hfetch. cbn [with_token rq_url]. by rewrite Hr, String.eqb_refl. }
  pose proof (Hone token (outside b1)) as H1. destruct (fetch (with_token r token) (outside b1)) as [[a|e] w1] eqn:Ef; cbn [snd] in H1.
  2: { exists token, (outside b1). left. cbn [outside]. rewrite Ef. split; [lia|done]. }
  destruct (rs_status a =? 401) eqn:Ea.
  2: { exists token, (outside b1). left. unfold mret, M_ret. cbn [outside]. rewrite Ef. split; [lia|done]. }
  destruct (renewed_spec address {| stored := stored b1; outside := w1 |}) as (o&b2&->&Hc2&Hs). cbn [outside] in Hc2.
  destruct o as [t|].
  - unfold on_outside. pose proof (Hone (Some t) (outside b2)) as H2.
    destruct (fetch (with_token r (Some t)) (outside b2)) as [res w2] eqn:E2. cbn [snd] in H2.
    exists token, (outside b1). right. cbn [outside stored]. split; [lia|]. exists a, t, (outside b2).
    rewrite Ef, E2. apply Z.eqb_eq in Ea. split_and!; [done..|by apply Hs|done].
  - exists token, (outside b1). left. unfold mret, M_ret. rewrite Ef. split; [lia|done].
Qed.
End auth_facts.

(** ** The guard *)

Section guard_facts.
Context {W : Type} (X : Chain W) (isBrowser : bool).
Context (fetch : Request → M (Rpc (W := W)) Response).
Context (cancelled : W → bool) (wallet : WalletState) (redirectTo : string).

#[local] Notation G := (Guard (W := W)).
#[local] Notation run := (check X isBrowser fetch cancelled wallet redirectTo).






(** Steps of the guard that change neither the status nor the redirections. *)
Definition steady {A} (m : M G A) : Prop :=
  ∀ g, gd_status (m g).2 = gd_status g ∧ gd_redirects (m g).2 = gd_redirects g.


Lemma steady_browser {A} (m : M (Browser (Rpc (W := W))) A) : steady (on_browser m).
Proof. intros g. unfold on_browser. by destruct (m (gd_browser g)). Qed.



Lemma steady_config : steady (guard_config X cancelled).
Proof.
  intros g. unfold guard_config. unfold mbind, M_bind, get_state. destruct (gd_poolConfig g); [done|].
  pose proof (steady_browser (on_outside (getPoolConfig X)) g) as H. unfold on_chain.
  destruct (on_browser _ g) as [[c|e] g1]; cbn [snd] in *; [|done]. unfold isCancelled. by destruct (cancelled _).
Qed.










(** The readers of the pool simulate from an address that is none: with servers that
    refuse it, nobody is ever let in on a page that has not read the configuration. *)
Theorem guard_denies_everyone g :
  (∀ u, strict_accounts (ch_server X u)) → gd_poolConfig g = None → (∀ w, cancelled w = false) →
  gd_status (run g).2 = denied.
Proof.
  intros Hstrict Hg Hc.
  assert (∃ g', run g = (Ok tt, g') ∧ gd_status g' = denied) as (g'&->&H); [|exact H].
  unfold check, setStatus, try_catch, mbind, M_bind, modify. unfold guard_body, guard_config, mbind, M_bind, get_state.
  cbn [gd_poolConfig]. rewrite Hg. unfold on_chain, on_browser, on_outside. cbn [gd_browser].
  destruct (malformed_source_throws X (Of Pool) "get_config" [] PLACEHOLDER (decode getPoolConfig_fields)
    (outside (gd_browser g)) Hstrict placeholder_malformed) as (e&s'&E).
  unfold getPoolConfig. rewrite E. unfold isCancelled. rewrite Hc. eexists. split; [reflexivity|done].
Qed.
End guard_facts.

(** ** The configuration *)

Lemma omap_id_nil {A} (l : list (option A)) : omap (λ e : option A, e) l = [] ↔ Forall (λ e, e = None) l.
Proof.
  induction l as [|[a|] l IH]; cbn; [done| |]; rewrite ?Forall_cons; [split; [done|by intros [? _]]|naive_solver].
Qed.

Definition contract_id (v : string) : Prop := String.length v = 56%nat ∧ startsWith "C" v = true.

Lemma contract_id_valid value name : validateContractId value name = None ↔ contract_id value.
Proof.
  unfold validateContractId, contract_id. destruct (String.eqb_spec (trim value) "") as [Ht|Ht].
  - split; [done|]. intros [_ Hs]. exfalso. destruct value as [|c value]; [done|]. unfold startsWith in Hs.
    cbn [String.prefix] in Hs. destruct (ascii_dec "C" c) as [<-|]; [|done]. unfold trim in Ht. cbn [trim_start] in Ht.
    change (is_space "C") with false in Ht. cbn [trim_end] in Ht. by destruct (trim_end value).
  - destruct (Nat.eqb_spec (String.length value) 56), (startsWith "C" value); cbn; naive_solver.
Qed.

(** The text of a variable that is not set, or empty, is not there. *)
Definition env_text (env : string → option string) (k : string) : option string :=
  match env k with None | Some "" => None | o => o end.

(** The configuration is accepted exactly when the three contracts the application
    cannot do without have ids, and what else is set is well formed. *)
Theorem env_valid env isURL :
  validateEnv env isURL = [] ↔
    Forall (λ k, ∃ v, env_text env k = Some v ∧ contract_id v) REQUIRED_VARS ∧
    Forall (λ k, ∀ v, env_text env k = Some v → contract_id v)
      ["NEXT_PUBLIC_EURC_TOKEN_ID"; "NEXT_PUBLIC_REFERRAL_CONTRACT_ID"] ∧
    (∀ v, env_text env "NEXT_PUBLIC_NETWORK" = Some v → v ∈ validNetworks) ∧
    Forall (λ k, ∀ v, env_text env k = Some v → isURL v = true)
      ["NEXT_PUBLIC_HORIZON_URL"; "NEXT_PUBLIC_SOROBAN_RPC_URL"].
Proof.
  assert (∀ k, required_id env k = None ↔ ∃ v, env_text env k = Some v ∧ contract_id v) as Hreq.
  { intros k. unfold required_id, env_or, env_text. rewrite contract_id_valid.
    destruct (env k) as [[|c s]|]; (split; [|by intros (v&[= <-]&?)]); [by intros []|eauto|by intros []]. }
  assert (∀ k, optional_id env k = None ↔ ∀ v, env_text env k = Some v → contract_id v) as Hopt.
  { intros k. unfold optional_id, env_text. destruct (env k) as [[|c s]|]; [naive_solver| |naive_solver].
    rewrite contract_id_valid. split; [by intros H v [= <-]|intros H; by apply H]. }
  assert (validateNetwork (env_or env "NEXT_PUBLIC_NETWORK" "testnet") = None ↔
    ∀ v, env_text env "NEXT_PUBLIC_NETWORK" = Some v → v ∈ validNetworks) as Hnet.
  { unfold validateNetwork, env_or, env_text. destruct (env "NEXT_PUBLIC_NETWORK") as [[|c s]|]; [naive_solver| |naive_solver].
    cbn [String.eqb negb andb]. destruct (one_of validNetworks (String c s)) eqn:E; cbn [negb].
    - apply one_of_In in E. split; [by intros _ v [= <-]|done].
    - split; [done|]. intros H. specialize (H _ eq_refl). apply one_of_In in H. congruence. }
  assert (∀ k name, validateUrl isURL (env k) name = None ↔ ∀ v, env_text env k = Some v → isURL v = true) as Hurl.
  { intros k name. unfold validateUrl, env_text. destruct (env k) as [[|c s]|]; [naive_solver| |naive_solver].
    destruct (isURL (String c s)) eqn:E; split; [by intros _ v [= <-]|done|done|].
    intros H. specialize (H _ eq_refl). congruence. }
  unfold validateEnv, REQUIRED_VARS. rewrite omap_id_nil, !Forall_cons, !Hreq, !Hopt, Hnet, !Hurl, !Forall_nil. tauto.
Qed.

(** A page is never stopped by its configuration, and a server only when it is told to be. *)
Lemma env_throws env isURL isBrowser e :
  (assertEnvValid env isURL isBrowser).2 = Throw e →
  isBrowser = false ∧ env "NEXT_PUBLIC_STRICT_ENV" = Some "true" ∧ validateEnv env isURL ≠ [].
Proof.
  unfold assertEnvValid. destruct (validateEnv env isURL) as [|x l]; [done|]. cbn [snd].
  destruct (env "NEXT_PUBLIC_STRICT_ENV") as [s|]; [|done]. destruct (String.eqb_spec s "true") as [->|]; [|done].
  by destruct isBrowser.
Qed.
