(* ===== verification/WebHistory.v ===== *)
(** * app/history/page.tsx: the transaction history of a wallet

    The events of the invoice and pool contracts that concern the connected wallet,
    from the indexer or, when that gives none, from the RPC node; filtered, sorted and
    revealed page by page. *)
From S2P Require Import Prelude.
From S2P Require Import JsValue.
From S2P Require Import JsNumber.
From S2P Require Import Abi.
From S2P Require Import RpcPool.
From S2P Require Import Stellar.
From S2P Require Import WebAbi.
From Stdlib Require Import Ascii.
#[local] Open Scope string_scope.
#[local] Open Scope list_scope.
#[local] Open Scope Z_scope.

Definition PAGE_SIZE : nat := 50.
Definition EVENT_LIMIT : Z := 200.

Inductive EventKind :=
| invoice_created | invoice_funded | invoice_paid | invoice_defaulted
| pool_deposit | pool_funded | pool_repaid | pool_withdraw.

#[export] Instance EventKind_eq_dec : EqDecision EventKind.
Proof. solve_decision. Defined.

Record HistoryEvent := {
  he_id : string; he_kind : EventKind; he_invoiceId : option Z; he_amount : option Z; he_interest : option Z;
  he_address : option string; he_timestamp : string; he_ledger : Z; he_txHash : string; he_token : string }.

(** ** Reading the events *)

Section parse.
(** A value of an event before it is decoded. *)
Context {R : Type} (decode : R → result jsval) (INVOICE_CONTRACT_ID POOL_CONTRACT_ID USDC_TOKEN_ID : string).

Record RawEvent := {
  re_contractId : option string; re_topic : option (list R); re_value : R; re_ledger : option Z;
  re_ledgerClosedAt : option string; re_txHash : option string; re_pagingToken : option string }.

Definition contract_of (e : RawEvent) : string := default "" (re_contractId e).
Definition topics_of (e : RawEvent) : list R := default [] (re_topic e).

(** [Array.isArray(val) ? val : [val, undefined, ..]], its [i]-th. *)
Definition part (val : jsval) (i : nat) : jsval :=
  match val with JArr l => arr_get l i | _ => if (i =? 0)%nat then val else JUndef end.

(** [x !== undefined ? BigInt(x) : undefined]. *)
Definition optional_big (x : jsval) : result (option Z) :=
  match x with JUndef => Ok None | _ => n ← to_BigInt x; Ok (Some n) end.

(** The first two topics, when there are two. *)
Definition two_topics (e : RawEvent) : option (R * R) :=
  match topics_of e with a :: b :: _ => Some (a, b) | _ => None end.

(** The id of an invoice the wallet created, if the event says so; [catch] skips. *)
Definition owned_id (wallet : string) (e : RawEvent) : result (option Z) :=
  if negb (String.eqb (contract_of e) INVOICE_CONTRACT_ID) then Ok None
  else match two_topics e with
  | None => Ok None
  | Some (_, t1) =>
      action ← decode t1;
      if negb (is_str action "created") then Ok None
      else
        val ← decode (re_value e);
        if String.eqb (js_String (part val 1)) wallet then id ← to_BigInt (part val 0); Ok (Some id) else Ok None
  end.

Definition skip {A} (r : result (option A)) : option A := match r with Ok o => o | Throw _ => None end.

Definition ownedInvoiceIds (wallet : string) (events : list RawEvent) : gset Z :=
  list_to_set (omap (λ e, skip (owned_id wallet e)) events).

(** What an event says: its kind, its fields, and whether it concerns the wallet. *)
Record Said := {
  sd_kind : EventKind; sd_invoiceId : option Z; sd_amount : option Z; sd_interest : option Z;
  sd_address : option string; sd_relevant : bool }.

Definition is_wallet (wallet : string) (v : jsval) : bool := String.eqb (js_String v) wallet.

(** An event of the invoice contract whose value is its id. *)
Definition said_of_id (kind : EventKind) (owned : gset Z) (val : jsval) : result (option Said) :=
  id ← to_BigInt val;
  Ok (Some {| sd_kind := kind; sd_invoiceId := Some id; sd_amount := None; sd_interest := None;
              sd_address := None; sd_relevant := bool_decide (id ∈ owned) |}).

(** A deposit or a withdrawal. *)
Definition said_of_investor (kind : EventKind) (wallet : string) (val : jsval) : result (option Said) :=
  amount ← optional_big (part val 1);
  Ok (Some {| sd_kind := kind; sd_invoiceId := None; sd_amount := amount; sd_interest := None;
              sd_address := Some (js_String (part val 0)); sd_relevant := is_wallet wallet (part val 0) |}).

Definition said_created (wallet : string) (val : jsval) : result (option Said) :=
  id ← to_BigInt (part val 0);
  amount ← optional_big (part val 2);
  Ok (Some {| sd_kind := invoice_created; sd_invoiceId := Some id; sd_amount := amount; sd_interest := None;
              sd_address := Some (js_String (part val 1)); sd_relevant := is_wallet wallet (part val 1) |}).

Definition said_pool_funded (wallet : string) (owned : gset Z) (val : jsval) : result (option Said) :=
  id ← to_BigInt (part val 0);
  amount ← optional_big (part val 2);
  Ok (Some {| sd_kind := pool_funded; sd_invoiceId := Some id; sd_amount := amount; sd_interest := None;
              sd_address := Some (js_String (part val 1));
              sd_relevant := bool_decide (id ∈ owned) || is_wallet wallet (part val 1) |}).

Definition said_repaid (owned : gset Z) (val : jsval) : result (option Said) :=
  id ← to_BigInt (part val 0);
  amount ← optional_big (part val 1);
  interest ← optional_big (part val 2);
  Ok (Some {| sd_kind := pool_repaid; sd_invoiceId := Some id; sd_amount := amount; sd_interest := interest;
              sd_address := None; sd_relevant := bool_decide (id ∈ owned) |}).

Definition said (wallet : string) (owned : gset Z) (contract : string) (ns action val : jsval) : result (option Said) :=
  if is_str ns "invoice" && String.eqb contract INVOICE_CONTRACT_ID then
    if is_str action "created" then said_created wallet val
    else if is_str action "funded" then said_of_id invoice_funded owned val
    else if is_str action "paid" then said_of_id invoice_paid owned val
    else if is_str action "default" then said_of_id invoice_defaulted owned val
    else Ok None
  else if is_str ns "pool" && String.eqb contract POOL_CONTRACT_ID then
    if is_str action "deposit" then said_of_investor pool_deposit wallet val
    else if is_str action "funded" then said_pool_funded wallet owned val
    else if is_str action "repaid" then said_repaid owned val
    else if is_str action "withdraw" then said_of_investor pool_withdraw wallet val
    else Ok None
  else Ok None.

Definition said_by (wallet : string) (owned : gset Z) (e : RawEvent) : option Said :=
  skip (match two_topics e with
        | None => Ok None
        | Some (t0, t1) =>
            ns ← decode t0; action ← decode t1; val ← decode (re_value e);
            said wallet owned (contract_of e) ns action val
        end).

(** [n] events are listed before this one. *)
Definition history_event (e : RawEvent) (n : nat) (s : Said) : HistoryEvent := {|
  he_id := match re_pagingToken e with
    | Some t => t
    | None => match re_ledger e with Some l => pretty l | None => "undefined" end +:+ "-" +:+ pretty (Z.of_nat n)
    end;
  he_kind := sd_kind s; he_invoiceId := sd_invoiceId s; he_amount := sd_amount s; he_interest := sd_interest s;
  he_address := sd_address s; he_timestamp := default "" (re_ledgerClosedAt e); he_ledger := default 0 (re_ledger e);
  he_txHash := default "" (re_txHash e); he_token := USDC_TOKEN_ID |}.

Definition add_event (wallet : string) (owned : gset Z) (events : list HistoryEvent) (e : RawEvent) : list HistoryEvent :=
  match said_by wallet owned e with
  | Some s => if sd_relevant s then events ++ [history_event e (length events) s] else events
  | None => events
  end.

(** [events.sort((a, b) => b.ledger - a.ledger)]. *)
Definition newest (e : HistoryEvent) : Z := - he_ledger e.

Definition parseEvents (rawEvents : list RawEvent) (wallet : string) : list HistoryEvent :=
  sort_by newest (foldl (add_event wallet (ownedInvoiceIds wallet rawEvents)) [] rawEvents).

End parse.

(** ** The page *)

Record History := {
  events : list HistoryEvent; visible : nat; hasMore : bool; cursor : option string;
  loading : bool; loadingMore : bool }.

(** The filter of kinds ([None]: all) and the direction. *)
Definition filteredEvents (kindFilter : option EventKind) (desc : bool) (h : History) : list HistoryEvent :=
  let filtered := match kindFilter with
    | None => events h
    | Some k => filter (λ e, he_kind e = k) (events h)
    end in
  sort_by (λ e, if desc then - he_ledger e else he_ledger e) filtered.

Definition visibleEvents (kindFilter : option EventKind) (desc : bool) (h : History) : list HistoryEvent :=
  take (visible h) (filteredEvents kindFilter desc h).

Definition canRevealMore (kindFilter : option EventKind) (desc : bool) (h : History) : bool :=
  (visible h <? length (filteredEvents kindFilter desc h))%nat.

Section page.
Context {W Plain Val : Type} (X : Chain W).
Context (decode_plain : Plain → result jsval) (decode : Val → result jsval).
Context (INVOICE_CONTRACT_ID POOL_CONTRACT_ID USDC_TOKEN_ID : string).
(** The indexer's answer to a query of events: [None] when it is not an answer. *)
Context (indexer_events : option string → M W (option (list (RawEvent (R := Plain))))).
Context (getLatestLedger : string → M W Z).
(** The RPC node's: events from a ledger or after a cursor, and the next cursor. *)
Context (getEvents : string → string + Z → M W (list (RawEvent (R := Val)) * option string)).

Local Abbreviation St := (Rpc (W := W) * History)%type.

Definition on_rpc {A} (m : M (Rpc (W := W)) A) : M St A := λ '(s, h), let '(r, s') := m s in (r, (s', h)).
Definition set_history (f : History → History) : M St unit := modify (λ '(s, h), (s, f h)).

(** Outside of the queue of connections: the indexer is asked directly. *)
Definition on_world {A} (m : M W A) : M (Rpc (W := W)) A := λ s,
  let '(r, w) := m (world s) in (r, {| pool := pool s; world := w |}).

(** What the indexer knows; nothing when it fails. *)
Definition from_indexer (wallet : string) (nextCursor : option string) : M (Rpc (W := W)) (list HistoryEvent) :=
  try_catch
    (res ← on_world (indexer_events nextCursor);
     mret match res with
          | Some raw => parseEvents decode_plain INVOICE_CONTRACT_ID POOL_CONTRACT_ID USDC_TOKEN_ID raw wallet
          | None => []
          end)
    (λ _, mret []).

(** The events, how many were fetched, and the next cursor. *)
Definition fetch_page (wallet : string) (nextCursor : option string)
   : M (Rpc (W := W)) (list HistoryEvent * Z * option string) :=
  indexed ← from_indexer wallet nextCursor;
  match indexed with
  | _ :: _ => mret (indexed, lengthZ indexed, None)
  | [] =>
      sequence ← rpcExecute X getLatestLedger;
      let from := match nextCursor with
        | None | Some "" => inr (Z.max 1 (sequence - 500000))
        | Some c => inl c
        end in
      '(raw, next) ← rpcExecute X (λ u, getEvents u from);
      mret (parseEvents decode INVOICE_CONTRACT_ID POOL_CONTRACT_ID USDC_TOKEN_ID raw wallet, lengthZ raw, next)
  end.

Definition has_text (s : option string) : bool :=
  match s with None | Some "" => false | _ => true end.

Definition fetchEvents (wallet : option string) (append : bool) (nextCursor : option string) : M St unit :=
  match wallet with
  | None | Some "" => mret tt
  | Some wallet =>
      if String.eqb INVOICE_CONTRACT_ID "" || String.eqb POOL_CONTRACT_ID "" then
        set_history (λ h, {| events := events h; visible := visible h; hasMore := hasMore h; cursor := cursor h;
                             loading := false; loadingMore := loadingMore h |})
      else
        set_history (λ h, {| events := events h; visible := visible h; hasMore := hasMore h; cursor := cursor h;
                             loading := if append then loading h else true;
                             loadingMore := if append then true else loadingMore h |});;
        try_catch
          ('(parsed, fetchedCount, next) ← on_rpc (fetch_page wallet nextCursor);
           set_history (λ h, {|
             events := if append then events h ++ parsed else parsed;
             visible := if append then visible h else PAGE_SIZE;
             hasMore := (fetchedCount =? EVENT_LIMIT) && has_text next; cursor := next;
             loading := loading h; loadingMore := loadingMore h |}))
          (λ _, mret tt);;
        set_history (λ h, {| events := events h; visible := visible h; hasMore := hasMore h; cursor := cursor h;
                             loading := false; loadingMore := false |})
  end.

Definition handleLoadMore (wallet : option string) (kindFilter : option EventKind) (desc : bool) : M St unit := λ '(s, h),
  if canRevealMore kindFilter desc h then
    (Ok tt, (s, {| events := events h; visible := (visible h + PAGE_SIZE)%nat; hasMore := hasMore h; cursor := cursor h;
                   loading := loading h; loadingMore := loadingMore h |}))
  else if hasMore h && has_text (cursor h) then fetchEvents wallet true (cursor h) (s, h)
  else (Ok tt, (s, h)).

End page.

(** ** What is no integer

    An address, and the text of an array of several values. *)

Lemma trim_letter c s : is_space c = false → ∃ t, trim (String c s) = String c t.
Proof. intros H. unfold trim. cbn [trim_start]. rewrite H. cbn [trim_end]. destruct (trim_end s); [rewrite H|]; eauto. Qed.

Lemma address_no_bigint a : isStellarAddress a = true → bigint_of_string a = None.
Proof.
  intros H. destruct a as [|c s]; [done|]. unfold isStellarAddress in H. apply andb_prop in H as [[H _]%andb_prop _].
  apply one_of_In in H. assert (c = "G"%char ∨ c = "C"%char) as Hc.
  { apply elem_of_cons in H as [[= ->]|H]; [auto|]. apply elem_of_cons in H as [[= ->]|H%not_elem_of_nil]; [auto|done]. }
  destruct (trim_letter c s) as [t Ht]; [by destruct Hc as [-> | ->]|].
  unfold bigint_of_string. rewrite Ht. by destruct Hc as [-> | ->].
Qed.

(** [c] is one of the characters of [s]. *)
Fixpoint has_char (c : ascii) (s : string) : bool :=
  match s with EmptyString => false | String x s' => Ascii.eqb x c || has_char c s' end.

Lemma has_char_app c s t : has_char c (s +:+ t) = has_char c s || has_char c t.
Proof. induction s as [|x s IH]; [done|]. rewrite append_cons. cbn. by rewrite IH, orb_assoc. Qed.

Lemma has_char_trim c s : is_space c = false → has_char c s = true → has_char c (trim s) = true.
Proof.
  intros Hc. unfold trim.
  assert (∀ s, has_char c s = true → has_char c (trim_start s) = true) as Hs.
  { clear s. induction s as [|x s IH]; [done|]. cbn [has_char trim_start]. destruct (is_space x) eqn:Ex; [|done].
    destruct (Ascii.eqb_spec x c) as [->|]; [congruence|]. exact IH. }
  assert (∀ s, has_char c s = true → has_char c (trim_end s) = true) as He.
  { clear s. induction s as [|x s IH]; [done|]. cbn [has_char trim_end]. intros [Hx|H]%orb_prop.
    - apply Ascii.eqb_eq in Hx as ->. destruct (trim_end s); cbn; [rewrite Hc; cbn|]; by rewrite Ascii.eqb_refl.
    - specialize (IH H). destruct (trim_end s) as [|y t]; [done|].
      change (Ascii.eqb x c || has_char c (String y t) = true). by rewrite IH, orb_true_r. }
  auto.
Qed.

Lemma digits_from_none b acc s c : digit_val c = None → has_char c s = true → digits_from b acc s = None.
Proof.
  intros Hc. revert acc. induction s as [|x s IH]; intros acc; [done|]. cbn [has_char digits_from].
  intros [Hx|H]%orb_prop; [apply Ascii.eqb_eq in Hx as ->; by rewrite Hc|].
  destruct (digit_val x) as [d|]; [|done]. destruct (d <? b); [by apply IH|done].
Qed.

Lemma parse_digits_none b s c : digit_val c = None → has_char c s = true → parse_digits b s = None.
Proof. intros Hc H. unfold parse_digits. destruct s; [done|]. by apply (digits_from_none b 0 _ c). Qed.

Lemma has_char_drop c a b t : a ≠ c → b ≠ c →
  startsWith (String a (String b "")) t = true → has_char c t = true → has_char c (str_drop 2 t) = true.
Proof.
  intros Ha Hb. unfold startsWith. destruct t as [|x [|y t]]; cbn [String.prefix]; [done| |];
    destruct (ascii_dec a x) as [<-|]; try done; destruct (ascii_dec b _) as [<-|]; try done. intros _.
  cbn [has_char str_drop]. rewrite (proj2 (Ascii.eqb_neq a c)), (proj2 (Ascii.eqb_neq b c)) by done. done.
Qed.

Lemma parse_signed_cons x t : parse_signed (String x t) =
  if Ascii.eqb x "-" then Z.opp <$> parse_digits 10 t
  else if Ascii.eqb x "+" then parse_digits 10 t else parse_digits 10 (String x t).
Proof. by destruct x as [[] [] [] [] [] [] [] []]. Qed.

Lemma comma_no_bigint s : has_char "," s = true → bigint_of_string s = None.
Proof.
  intros H. apply (has_char_trim ",") in H; [|done]. unfold bigint_of_string. set (t := trim s) in *. clearbody t.
  destruct (String.eqb_spec t "") as [->|_]; [done|].
  destruct (startsWith "0x" t || startsWith "0X" t) eqn:E1.
  { apply (parse_digits_none _ _ ","); [done|]. apply orb_prop in E1 as [E|E]; by apply (has_char_drop ",") in E. }
  destruct (startsWith "0o" t || startsWith "0O" t) eqn:E2.
  { apply (parse_digits_none _ _ ","); [done|]. apply orb_prop in E2 as [E|E]; by apply (has_char_drop ",") in E. }
  destruct (startsWith "0b" t || startsWith "0B" t) eqn:E3.
  { apply (parse_digits_none _ _ ","); [done|]. apply orb_prop in E3 as [E|E]; by apply (has_char_drop ",") in E. }
  destruct t as [|x t]; [done|]. clear E1 E2 E3. rewrite parse_signed_cons.
  rewrite (parse_digits_none 10 (String x t) ",") by done. cbn [has_char] in H.
  destruct (Ascii.eqb_spec x "-") as [->|_]; [by rewrite (parse_digits_none 10 t ",")|].
  by destruct (Ascii.eqb_spec x "+") as [->|_]; [rewrite (parse_digits_none 10 t ",")|].
Qed.

Lemma joined_no_bigint x y l : to_BigInt (JArr (x :: y :: l)) = Throw (ESyntaxError ("Cannot convert " +:+ js_String (JArr (x :: y :: l)) +:+ " to a BigInt")).
Proof.
  unfold to_BigInt, js_BigInt. rewrite comma_no_bigint; [done|]. cbn [js_String map String.concat].
  rewrite !has_char_app. cbn [has_char]. by rewrite orb_true_r.
Qed.

(** ** What the contracts publish, and what is listed *)

(** The events of the two contracts. [also] is the rest of the value: the pool or the
    owner of an invoice's event and its time, and so on. The page looks for eight
    actions; the many others (verified, disputed, cancelled, add_token, ..) are
    [p_other], whatever their values. *)
Inductive Published :=
| p_created (id : Z) (owner : string) (amount : Z) (also : list jsval)
| p_invoice (action : string) (id : Z) (who : jsval) (also : list jsval)
| p_move (action investor token : string) (also : list jsval)
| p_funded (id : Z) (sme : string) (principal : Z) (also : list jsval)
| p_repaid (id : Z) (payer : string) (also : list jsval)
| p_other (by_pool : bool) (action : string) (value : jsval).

Definition well_formed (p : Published) : Prop :=
  match p with
  | p_invoice action _ _ _ => action ∈ ["funded"; "paid"; "default"]
  | p_move action _ token _ => action ∈ ["deposit"; "withdraw"] ∧ isStellarAddress token = true
  | p_repaid _ payer _ => isStellarAddress payer = true
  | p_other by_pool action _ =>
      action ∉ (if by_pool : bool then ["deposit"; "funded"; "repaid"; "withdraw"] else ["created"; "funded"; "paid"; "default"])
  | _ => True
  end.

Definition published_by_pool (p : Published) : bool :=
  match p with p_created _ _ _ _ | p_invoice _ _ _ _ => false | p_other by_pool _ _ => by_pool | _ => true end.

Definition action_of (p : Published) : string :=
  match p with
  | p_created _ _ _ _ => "created"
  | p_invoice action _ _ _ | p_move action _ _ _ => action
  | p_funded _ _ _ _ => "funded"
  | p_repaid _ _ _ => "repaid"
  | p_other _ action _ => action
  end.

Definition value_of (p : Published) : jsval :=
  match p with
  | p_created id owner amount also => JArr (JBig id :: JStr owner :: JBig amount :: also)
  | p_invoice _ id who also => JArr (JBig id :: who :: also)
  | p_move _ investor token also => JArr (JStr investor :: JStr token :: also)
  | p_funded id sme principal also => JArr (JBig id :: JStr sme :: JBig principal :: also)
  | p_repaid id payer also => JArr (JBig id :: JStr payer :: also)
  | p_other _ _ value => value
  end.

(** The invoices a wallet created. *)
Definition created_by (wallet : string) (ps : list Published) : gset Z :=
  list_to_set (omap (λ p, match p with
    | p_created id owner _ _ => if String.eqb owner wallet then Some id else None
    | _ => None
    end) ps).

(** What is listed of an event: creations by the wallet, and fundings by the pool of
    its invoices or to it. *)
Definition shown (wallet : string) (owned : gset Z) (p : Published) : option Said :=
  match p with
  | p_created id owner amount _ =>
      if String.eqb owner wallet then
        Some {| sd_kind := invoice_created; sd_invoiceId := Some id; sd_amount := Some amount; sd_interest := None;
                sd_address := Some owner; sd_relevant := true |}
      else None
  | p_funded id sme principal _ =>
      if bool_decide (id ∈ owned) || String.eqb sme wallet then
        Some {| sd_kind := pool_funded; sd_invoiceId := Some id; sd_amount := Some principal; sd_interest := None;
                sd_address := Some sme; sd_relevant := true |}
      else None
  | _ => None
  end.

Section published.
Context {R : Type} (decode : R → result jsval) (INVOICE POOL USDC : string).
Hypothesis Hids : INVOICE ≠ POOL.

(** An event as the contract published it. *)
Definition publishes (e : RawEvent (R := R)) (p : Published) : Prop :=
  well_formed p ∧
  re_contractId e = Some (if published_by_pool p then POOL else INVOICE) ∧
  (∃ t0 t1 more, re_topic e = Some (t0 :: t1 :: more) ∧
     decode t0 = Ok (JStr (if published_by_pool p then "pool" else "invoice")) ∧ decode t1 = Ok (JStr (action_of p))) ∧
  decode (re_value e) = Ok (value_of p).

Lemma owned_published wallet e p : publishes e p →
  skip (owned_id decode INVOICE wallet e) =
  match p with p_created id owner _ _ => if String.eqb owner wallet then Some id else None | _ => None end.
Proof.
  intros (Hw&Hc&(t0&t1&more&Ht&_&H1)&Hv). unfold owned_id, contract_of, two_topics, topics_of. rewrite Hc, Ht. cbn [default from_option id].
  destruct (published_by_pool p) eqn:Hp.
  - rewrite (proj2 (String.eqb_neq POOL INVOICE)) by done. by destruct p.
  - rewrite String.eqb_refl. cbn [negb]. rewrite H1. cbn [mbind result_bind is_str].
    destruct p as [id owner amount also|action id who also| | | |by_pool action value]; try done; cbn [action_of].
    + rewrite String.eqb_refl. cbn [negb]. rewrite Hv. cbn [value_of mbind result_bind part arr_get]. cbn.
      by destruct (String.eqb owner wallet).
    + assert (String.eqb action "created" = false) as ->; [|done]. apply String.eqb_neq. intros ->.
      cbn in Hw. set_solver.
    + assert (String.eqb action "created" = false) as ->; [|done]. apply String.eqb_neq. intros ->.
      cbn in Hp. subst by_pool. cbn in Hw. set_solver.
Qed.

Lemma address_to_BigInt a : isStellarAddress a = true → ∃ e, to_BigInt (JStr a) = Throw e.
Proof. intros H. unfold to_BigInt, js_BigInt. rewrite (address_no_bigint a H). eauto. Qed.

Lemma skip_throw {A} (r : result (option A)) : (∃ e, r = Throw e) → skip r = None.
Proof. by intros [e ->]. Qed.

(** Fields that are addresses where a number is expected, and whole values, throw. *)
Lemma said_of_id_throws kind owned x y l : ∃ e, said_of_id kind owned (JArr (x :: y :: l)) = Throw e.
Proof. unfold said_of_id. rewrite joined_no_bigint. by eexists. Qed.

Lemma said_of_investor_throws kind wallet x token l : isStellarAddress token = true →
  ∃ e, said_of_investor kind wallet (JArr (x :: JStr token :: l)) = Throw e.
Proof.
  intros H. destruct (address_to_BigInt token H) as [e E]. exists e. unfold said_of_investor, optional_big.
  change (part _ 1) with (JStr token). by rewrite E.
Qed.

Lemma said_repaid_throws owned id payer l : isStellarAddress payer = true →
  ∃ e, said_repaid owned (JArr (JBig id :: JStr payer :: l)) = Throw e.
Proof.
  intros H. destruct (address_to_BigInt payer H) as [e E]. exists e. unfold said_repaid, optional_big.
  change (part _ 0) with (JBig id). change (part _ 1) with (JStr payer). cbn [to_BigInt js_BigInt mbind result_bind].
  by rewrite E.
Qed.

Lemma said_published wallet owned e p : publishes e p →
  match said_by decode INVOICE POOL wallet owned e with
  | Some s => if sd_relevant s then Some s else None
  | None => None
  end = shown wallet owned p.
Proof.
  intros (Hw&Hc&(t0&t1&more&Ht&H0&H1)&Hv). unfold said_by, contract_of, two_topics, topics_of. rewrite Hc, Ht.
  cbn [default from_option id]. rewrite H0, H1, Hv. cbn [mbind result_bind]. unfold said.
  destruct p as [id owner amount also|action id who also|action investor token also|id sme principal also|id payer also|by_pool action value];
    cbn [published_by_pool action_of value_of is_str]; rewrite ?String.eqb_refl.
  - cbn. by destruct (String.eqb owner wallet).
  - change (String.eqb "invoice" "invoice") with true. cbn [andb]. cbn in Hw. rewrite skip_throw; [done|].
    apply elem_of_cons in Hw as [->|Hw]; [apply said_of_id_throws|].
    apply elem_of_cons in Hw as [->|Hw]; [apply said_of_id_throws|].
    apply elem_of_cons in Hw as [->|Hw%not_elem_of_nil]; [apply said_of_id_throws|done].
  - change (String.eqb "pool" "invoice") with false. change (String.eqb "pool" "pool") with true. cbn [andb].
    destruct Hw as [Hw Htok]. rewrite skip_throw; [done|].
    apply elem_of_cons in Hw as [->|Hw]; [by apply said_of_investor_throws|].
    apply elem_of_cons in Hw as [->|Hw%not_elem_of_nil]; [by apply said_of_investor_throws|done].
  - cbn. by destruct (bool_decide (id ∈ owned) || String.eqb sme wallet).
  - rewrite skip_throw; [done|]. by apply said_repaid_throws.
  - cbn in Hw. assert (∀ a, a ∈ (if by_pool then ["deposit"; "funded"; "repaid"; "withdraw"] else ["created"; "funded"; "paid"; "default"]) →
      String.eqb action a = false) as Hno by (intros a Ha; apply String.eqb_neq; intros ->; done).
    destruct by_pool; cbn; rewrite ?String.eqb_refl; rewrite !Hno by set_solver; done.
Qed.

(** What the list has of an event. *)
Definition listed (h : HistoryEvent) : Said := {|
  sd_kind := he_kind h; sd_invoiceId := he_invoiceId h; sd_amount := he_amount h; sd_interest := he_interest h;
  sd_address := he_address h; sd_relevant := true |}.

Lemma add_events_listed wallet owned es ps l : Forall2 publishes es ps →
  map listed (foldl (add_event decode INVOICE POOL USDC wallet owned) l es) = map listed l ++ omap (shown wallet owned) ps.
Proof.
  intros H. revert l. induction H as [|e p es ps He _ IH]; intros l; [by rewrite app_nil_r|]. cbn [foldl omap list_omap].
  rewrite IH. pose proof (said_published wallet owned e p He) as Hs. unfold add_event.
  destruct (said_by decode INVOICE POOL wallet owned e) as [s|]; [|by rewrite <-Hs].
  destruct (sd_relevant s) eqn:Hr; rewrite <-Hs; [|done]. rewrite map_app, <-app_assoc. do 2 f_equal. cbn.
  destruct s; cbn in *. by subst.
Qed.

Lemma owned_created wallet es ps : Forall2 publishes es ps →
  ownedInvoiceIds decode INVOICE wallet es = created_by wallet ps.
Proof.
  intros H. unfold ownedInvoiceIds, created_by. f_equal. induction H as [|e p es ps He _ IH]; [done|].
  cbn [omap list_omap]. rewrite (owned_published wallet e p He), IH. by destruct p.
Qed.


(** No deposit, withdrawal, repayment, payment or default is ever among them. *)
Lemma history_kinds wallet es ps h : Forall2 publishes es ps →
  h ∈ parseEvents decode INVOICE POOL USDC es wallet → he_kind h = invoice_created ∨ he_kind h = pool_funded.
Proof.
  intros H Hh. assert (listed h ∈ omap (shown wallet (created_by wallet ps)) ps) as Hl.
  { unfold parseEvents in Hh. rewrite (sort_by_perm newest), (owned_created wallet es ps H) in Hh.
    apply (list_elem_of_fmap_2 listed) in Hh. change (fmap listed) with (map listed) in Hh.
    by rewrite (add_events_listed wallet _ es ps [] H) in Hh. }
  apply list_elem_of_omap in Hl as (p&_&Hp). unfold shown in Hp.
  destruct p; try done; case_match; try done; injection Hp as Hk; auto.
Qed.
End published.
