(* ===== verification/WebImport.v ===== *)
(** * app/invoice/import/page.tsx: invoices from a CSV file

    Reading the file, the page's steps, the import of the valid rows and the file of
    results; the quoting of cells, which the exports of the aging and history pages
    use too, against a reader of such files. The time of a date is an argument. *)
From S2P Require Import Prelude.
From S2P Require Import JsValue.
From S2P Require Import JsNumber.
From S2P Require Import JsArith.
From S2P Require Import Sdk.
From S2P Require Import RpcPool.
From S2P Require Import Stellar.
From S2P Require Import Amounts.
From S2P Require Import WebAbi.
From S2P Require Import WebInvoice.
From Stdlib Require Import Ascii.
#[local] Open Scope string_scope.
#[local] Open Scope list_scope.
#[local] Open Scope Z_scope.

(** ** Files of quoted cells *)

Definition quote : ascii := "034".
Definition newline : ascii := "010".

(** The quotes of a cell, each doubled. *)
Fixpoint double_quotes (s : string) : string :=
  match s with
  | EmptyString => EmptyString
  | String c s' => if Ascii.eqb c quote then String quote (String quote (double_quotes s')) else String c (double_quotes s')
  end.

Definition csv_cell (s : string) : string := String quote (double_quotes s +:+ String quote "").
Definition csv_row (cells : list string) : string := String.concat "," (map csv_cell cells).
Definition to_csv (rows : list (list string)) : string := String.concat (String newline "") (map csv_row rows).

(** *** A reader of such files

    Before a cell, inside it, or after a quote inside it. *)
Inductive reading := Before | Inside | Quoted.

Fixpoint read_csv (at_ : reading) (cell : string) (row : list string) (rows : list (list string)) (s : string)
   : option (list (list string)) :=
  match s with
  | EmptyString => match at_ with Quoted => Some (rows ++ [row ++ [cell]]) | _ => None end
  | String c s' =>
      match at_ with
      | Before => if Ascii.eqb c quote then read_csv Inside "" row rows s' else None
      | Inside =>
          if Ascii.eqb c quote then read_csv Quoted cell row rows s'
          else read_csv Inside (cell +:+ String c "") row rows s'
      | Quoted =>
          if Ascii.eqb c quote then read_csv Inside (cell +:+ String quote "") row rows s'
          else if Ascii.eqb c "," then read_csv Before "" (row ++ [cell]) rows s'
          else if Ascii.eqb c newline then read_csv Before "" [] (rows ++ [row ++ [cell]]) s'
          else None
      end
  end.

Lemma append_snoc s c t : (s +:+ String c "") +:+ t = s +:+ String c t.
Proof. induction s as [|x s IH]; [done|]. rewrite !append_cons. by f_equal. Qed.

Lemma read_cell cell row rows done_ s :
  read_csv Inside done_ row rows (double_quotes cell +:+ String quote s) = read_csv Quoted (done_ +:+ cell) row rows s.
Proof.
  revert done_. induction cell as [|c cell IH]; intros done_.
  - cbn [double_quotes]. rewrite append_empty. cbn [read_csv]. rewrite Ascii.eqb_refl. f_equal.
    induction done_ as [|x d IHd]; [done|]. rewrite append_cons. by f_equal.
  - cbn [double_quotes]. destruct (Ascii.eqb_spec c quote) as [->|Hc]; rewrite !append_cons; cbn [read_csv].
    + rewrite Ascii.eqb_refl, IH. f_equal. apply append_snoc.
    + rewrite (proj2 (Ascii.eqb_neq c quote)), IH by done. f_equal. apply append_snoc.
Qed.

Lemma read_row cells row rows s : cells ≠ [] →
  read_csv Before "" row rows (csv_row cells +:+ s) =
  read_csv Quoted (List.last cells "") (row ++ removelast cells) rows s.
Proof.
  revert row. induction cells as [|c cells IH]; intros row Hne; [done|]. unfold csv_row in *. cbn [map String.concat].
  destruct cells as [|d cells].
  - cbn [map String.concat List.last removelast]. rewrite app_nil_r. unfold csv_cell. rewrite append_cons, append_snoc.
    cbn [read_csv]. rewrite Ascii.eqb_refl, read_cell. by rewrite append_empty.
  - cbn [map]. set (rest := String.concat "," (csv_cell d :: map csv_cell cells)) in *.
    unfold csv_cell at 1. rewrite <-!append_assoc. rewrite append_cons, append_snoc. cbn [read_csv].
    rewrite Ascii.eqb_refl, read_cell, append_empty. rewrite append_cons, append_empty. cbn [read_csv].
    change (Ascii.eqb "," quote) with false. cbv iota. rewrite Ascii.eqb_refl.
    cbn [map] in IH. fold rest in IH. rewrite IH by done. change (List.last (c :: d :: cells) "") with (List.last (d :: cells) "").
    change (removelast (c :: d :: cells)) with (c :: removelast (d :: cells)). by rewrite <-app_assoc.
Qed.

(** Whatever the cells hold, quotes, commas and line breaks included, a reader of
    quoted cells finds them again. *)
Lemma csv_roundtrip rows : rows ≠ [] → Forall (λ r, r ≠ []) rows →
  read_csv Before "" [] [] (to_csv rows) = Some rows.
Proof.
  intros Hne H. enough (∀ done_, read_csv Before "" [] done_ (to_csv rows) = Some (done_ ++ rows)) as E by apply E.
  induction H as [|r rows Hr H IH]; intros done_; [done|]. unfold to_csv in *. cbn [map String.concat].
  assert (removelast r ++ [List.last r ""] = r) as Hlast by (symmetry; by apply app_removelast_last).
  destruct rows as [|r2 rows].
  - cbn [map String.concat]. rewrite <-(append_nil_r (csv_row r)). rewrite read_row by done. cbn [read_csv].
    by rewrite app_nil_l, Hlast.
  - cbn [map]. set (rest := String.concat _ (csv_row r2 :: _)) in *. rewrite read_row by done.
    rewrite append_cons, append_empty. cbn [read_csv]. change (Ascii.eqb newline quote) with false.
    change (Ascii.eqb newline ",") with false. cbv iota. rewrite Ascii.eqb_refl, app_nil_l.
    cbn [map] in IH. fold rest in IH. rewrite Hlast, IH by done. by rewrite <-app_assoc.
Qed.

(** ** Reading the file *)

Definition MAX_INVOICES_PER_DAY : Z := 10.

Record ParsedRow := {
  rowNum : Z; pr_debtor : string; pr_amount : string; pr_dueDate : string; pr_description : string;
  pr_verificationHash : string; pr_errors : list string }.

(** [.replace(/^Q|Q$/g, '')], [Q] being the quote: one at each end. *)
Fixpoint drop_last_quote (s : string) : string :=
  match s with
  | EmptyString => EmptyString
  | String c EmptyString => if Ascii.eqb c quote then EmptyString else s
  | String c s' => String c (drop_last_quote s')
  end.
Definition strip_quotes (s : string) : string :=
  drop_last_quote (match s with String c s' => if Ascii.eqb c quote then s' else s | EmptyString => s end).

(** [header.indexOf(name)]: [None] for -1. *)
Fixpoint indexOf (name : string) (header : list string) : option nat :=
  match header with
  | [] => None
  | h :: header' => if String.eqb h name then Some 0%nat else S <$> indexOf name header'
  end.

(** [cols[i] || '']. *)
Definition column (cols : list string) (i : nat) : string := default "" (cols !! i).
Definition optional_column (cols : list string) (i : option nat) : string :=
  match i with Some i => column cols i | None => "" end.

(** [/^\d{4}-\d{2}-\d{2}$/]. *)
Definition is_digit (c : ascii) : bool := let n := Ascii.nat_of_ascii c in ((48 <=? n) && (n <=? 57))%nat.
Definition is_day (s : string) : bool :=
  (String.length s =? 10)%nat &&
  str_forallb is_digit (str_take 4 s) && String.eqb (str_take 1 (str_drop 4 s)) "-" &&
  str_forallb is_digit (str_take 2 (str_drop 5 s)) && String.eqb (str_take 1 (str_drop 7 s)) "-" &&
  str_forallb is_digit (str_drop 8 s).

Section import.
(** [new Date(s).getTime()], [NaN] when the text is no date. *)
Context (getTime : string → number).

Definition row_errors (now : Z) (debtor amount dueDate description : string) : list string :=
  (if String.eqb debtor "" then ["Debtor name is required"] else []) ++
  (let amountNum := parseFloat amount in
   if String.eqb amount "" || isNaN amountNum || num_leb amountNum (num_of_Z 0)
   then ["Amount must be greater than 0"] else []) ++
  (if negb (is_day dueDate) then ["Due date must be YYYY-MM-DD format"]
   else if num_leb (getTime dueDate) (num_of_Z now) then ["Due date must be in the future"] else []) ++
  (if (256 <? String.length description)%nat then ["Description too long (max 256 chars)"] else []).

(** The columns of the header: debtor, amount and date must be there. *)
Record Columns := {
  c_debtor : nat; c_amount : nat; c_dueDate : nat; c_description : option nat; c_hash : option nat }.

Definition columns_of (header : list string) : option Columns :=
  d ← indexOf "debtor_name" header; a ← indexOf "amount" header; t ← indexOf "due_date" header;
  Some {| c_debtor := d; c_amount := a; c_dueDate := t; c_description := indexOf "description" header;
          c_hash := indexOf "verification_hash" header |}.

Definition parse_row (now : Z) (c : Columns) (i : Z) (line : string) : ParsedRow :=
  let cols := map (λ x, strip_quotes (trim x)) (split_char "," line) in
  let debtor := column cols (c_debtor c) in
  let amount := column cols (c_amount c) in
  let dueDate := column cols (c_dueDate c) in
  let description := optional_column cols (c_description c) in
  {| rowNum := i; pr_debtor := debtor; pr_amount := amount; pr_dueDate := dueDate; pr_description := description;
     pr_verificationHash := optional_column cols (c_hash c);
     pr_errors := row_errors now debtor amount dueDate description |}.

(** [Date.now()] is taken to be the same for all rows. *)
Definition parseCSV (now : Z) (content : string) : list ParsedRow :=
  match split_char newline (trim content) with
  | first :: ((_ :: _) as lines) =>
      match columns_of (map trim (split_char "," (toLowerCase first))) with
      | Some c => imap (λ i line, parse_row now c (Z.of_nat i + 1) line) lines
      | None => []
      end
  | _ => []
  end.

(** ** The page *)

Inductive Step := upload | preview | submit | results_step.
Record RowResult := { rr_row : ParsedRow; rr_invoiceId : option Z; rr_error : option string }.
Record Import := {
  step : Step; parsedRows : list ParsedRow; validRows : list ParsedRow; currentIndex : Z; results : list RowResult }.

Definition no_errors (r : ParsedRow) : bool := match pr_errors r with [] => true | _ => false end.

(** A file that is not named .csv, or has no rows, changes nothing. *)
Definition endsWith (p s : string) : bool := String.eqb (str_drop (String.length s - String.length p) s) p.

Definition processFile (now : Z) (name content : string) (p : Import) : Import :=
  if negb (endsWith ".csv" name) then p
  else match parseCSV now content with
  | [] => p
  | rows => {| step := preview; parsedRows := rows; validRows := List.filter no_errors rows;
               currentIndex := currentIndex p; results := results p |}
  end.

Definition removeRow (n : Z) (p : Import) : Import :=
  let keep := List.filter (λ r, negb (rowNum r =? n)) in
  {| step := step p; parsedRows := keep (parsedRows p); validRows := keep (validRows p);
     currentIndex := currentIndex p; results := results p |}.

(** *** The import *)

Context {W : Type} (X : Chain W) (onProgress : TransactionProgress → M W unit).
(** The wallet signs a transaction, or answers with the message of an error. *)
Context (signTransaction : string → string → string → M W (string * option string)).

Local Abbreviation S := (Submitting (W := W)).

Definition on_rpc {A} (m : M (Rpc (W := W)) A) : M S A := λ s,
  let '(r, rpc') := m (rpc s) in (r, {| rpc := rpc'; pendingTransactions := pendingTransactions s |}).
Definition on_world {A} (m : M W A) : M S A := on_rpc (λ s,
  let '(r, w) := m (world s) in (r, {| pool := pool s; world := w |})).

Definition import_row (owner : string) (row : ParsedRow) : M S unit :=
  let dueTimestamp := Math_floor (num_div (getTime (pr_dueDate row)) (num_of_Z 1000)) in
  amountStroops ← lift_result (toStroops (parseFloat (pr_amount row)));
  xdr ← on_rpc (buildCreateInvoiceTx X owner (pr_debtor row) amountStroops dueTimestamp (pr_description row) None None);
  '(signedTxXdr, signError) ← on_world (signTransaction xdr (ch_network X) owner);
  match signError with
  | Some message => throw (EError message)
  | None => _ ← submitTx X signedTxXdr onProgress; mret tt
  end.

(** What is noted of the [i]-th row: [invoiceId] is the place in the file. *)
Definition noted (i : nat) (row : ParsedRow) (r : result unit) : RowResult :=
  match r with
  | Ok _ => {| rr_row := row; rr_invoiceId := Some (Z.of_nat i + 1); rr_error := None |}
  | Throw e => {| rr_row := row; rr_invoiceId := None; rr_error := Some (exn_message e) |}
  end.

Fixpoint import_rows (owner : string) (i : nat) (rows : list ParsedRow) (p : Import) (s : S) : Import * S :=
  match rows with
  | [] => (p, s)
  | row :: rows' =>
      let '(r, s') := import_row owner row s in
      import_rows owner (i + 1) rows'
        {| step := step p; parsedRows := parsedRows p; validRows := validRows p; currentIndex := Z.of_nat i;
           results := results p ++ [noted i row r] |} s'
  end.

Definition handleStartImport (wallet : option string) (p : Import) (s : S) : Import * S :=
  match wallet with
  | None | Some "" => (p, s)
  | Some owner =>
      if MAX_INVOICES_PER_DAY <? lengthZ (validRows p) then (p, s)
      else
        let '(p', s') := import_rows owner 0 (validRows p)
          {| step := submit; parsedRows := parsedRows p; validRows := validRows p; currentIndex := 0; results := [] |} s in
        ({| step := results_step; parsedRows := parsedRows p'; validRows := validRows p';
            currentIndex := currentIndex p'; results := results p' |}, s')
  end.

(** [downloadResults]. *)
Definition result_cells (r : RowResult) : list string :=
  [pretty (rowNum (rr_row r)); pr_debtor (rr_row r); pr_amount (rr_row r); pr_dueDate (rr_row r);
   match rr_error r with None => "SUCCESS" | Some _ => "FAILED" end;
   match rr_invoiceId r with Some i => pretty i | None => "" end; default "" (rr_error r)].

Definition downloadResults (p : Import) : string :=
  to_csv (["Row"; "Debtor"; "Amount"; "Due Date"; "Status"; "Invoice ID"; "Error"] :: map result_cells (results p)).

End import.

(** ** What is imported *)

Section facts.
Context (getTime : string → number).

(** A row has no errors exactly when every field is as it should be; a text that is no
    date passes as one, since its time is [NaN]. *)
Lemma row_errors_nil now debtor amount dueDate description :
  row_errors getTime now debtor amount dueDate description = [] ↔
    debtor ≠ "" ∧ amount ≠ "" ∧ isNaN (parseFloat amount) = false ∧
    num_leb (parseFloat amount) (num_of_Z 0) = false ∧ is_day dueDate = true ∧
    num_leb (getTime dueDate) (num_of_Z now) = false ∧ (String.length description ≤ 256)%nat.
Proof.
  unfold row_errors. cbv zeta. rewrite !app_nil.
  destruct (String.eqb_spec debtor ""), (String.eqb_spec amount ""), (isNaN _), (num_leb (parseFloat _) _), (is_day _),
    (num_leb (getTime _) _), (Nat.ltb_spec 256 (String.length description)); cbn; intuition (try done; lia).
Qed.

Lemma impossible_day_accepted now debtor amount dueDate description :
  getTime dueDate = NaN → is_day dueDate = true → debtor ≠ "" → amount ≠ "" → isNaN (parseFloat amount) = false →
  num_leb (parseFloat amount) (num_of_Z 0) = false → (String.length description ≤ 256)%nat →
  row_errors getTime now debtor amount dueDate description = [].
Proof. intros HN. intros. apply row_errors_nil. rewrite HN. by split_and!. Qed.

(** Rows are numbered from 1 in the order of the file. *)
Lemma parseCSV_numbers now content :
  map rowNum (parseCSV getTime now content) = seqZ 1 (lengthZ (parseCSV getTime now content)).
Proof.
  unfold parseCSV. destruct (split_char newline (trim content)) as [|first [|line lines]]; [done..|].
  destruct (columns_of _) as [c|]; [|done]. generalize (line :: lines). intros l. unfold lengthZ. rewrite length_imap.
  enough (∀ k, map rowNum (imap (λ i x, parse_row getTime now c (Z.of_nat (k + i) + 1) x) l) = seqZ (Z.of_nat k + 1) (Z.of_nat (length l))) as H
    by exact (H 0%nat).
  induction l as [|x l IH]; intros k; [done|]. cbn [imap map length]. rewrite seqZ_cons by lia. cbn [parse_row rowNum].
  f_equal; [lia|]. replace (Z.pred (Z.of_nat (Datatypes.S (length l)))) with (Z.of_nat (length l)) by lia.
  replace (Z.succ (Z.of_nat k + 1)) with (Z.of_nat (Datatypes.S k) + 1) by lia. rewrite <-IH. f_equal. apply imap_ext.
  intros i y _. cbn. repeat f_equal. lia.
Qed.

(** *** The page's states *)

(** The valid rows are those of the file without errors, in order, each with a number
    of its own. *)
Definition import_inv (p : Import) : Prop :=
  validRows p = List.filter no_errors (parsedRows p) ∧ NoDup (map rowNum (parsedRows p)).

Lemma NoDup_map_filter {A B} (f : A → B) (P : A → bool) l : NoDup (map f l) → NoDup (map f (List.filter P l)).
Proof.
  induction l as [|x l IH]; [done|]. cbn [map]. intros [Hx Hl]%NoDup_cons. cbn [List.filter]. destruct (P x); [|auto].
  cbn [map]. apply NoDup_cons. split; [|auto]. intros H. apply Hx. apply list_elem_of_In, in_map_iff in H as (y&<-&Hy).
  apply filter_In in Hy as [Hy _]. apply list_elem_of_In. by apply in_map.
Qed.

Lemma filter_comm {A} (P Q : A → bool) l : List.filter P (List.filter Q l) = List.filter Q (List.filter P l).
Proof.
  induction l as [|x l IH]; [done|]. cbn [List.filter]. destruct (Q x) eqn:HQ, (P x) eqn:HP; cbn [List.filter];
    rewrite ?HP, ?HQ, IH; done.
Qed.

Lemma processFile_inv now name content p : import_inv p → import_inv (processFile getTime now name content p).
Proof.
  intros Hp. unfold processFile. destruct (negb _); [done|]. pose proof (parseCSV_numbers now content) as Hn.
  destruct (parseCSV getTime now content) as [|r rows] eqn:E; [done|]. split; [done|]. cbn [parsedRows].
  rewrite Hn. apply NoDup_seqZ.
Qed.

Lemma removeRow_inv n p : import_inv p → import_inv (removeRow n p).
Proof.
  intros [Hv Hd]. split; cbn [removeRow validRows parsedRows]; [by rewrite Hv, filter_comm|by apply NoDup_map_filter].
Qed.

Context {W : Type} (X : Chain W) (onProgress : TransactionProgress → M W unit).
Context (signTransaction : string → string → string → M W (string * option string)).

#[local] Notation rows_from := (import_rows getTime X onProgress signTransaction).

Lemma import_rows_spec owner rows : ∀ i p s, let '(p', s') := rows_from owner i rows p s in
  parsedRows p' = parsedRows p ∧ validRows p' = validRows p ∧
  ∃ outcomes, length outcomes = length rows ∧
    results p' = results p ++ zip_with (λ k rr, noted k rr.1 rr.2) (seq i (length rows)) (zip rows outcomes).
Proof.
  induction rows as [|row rows IH]; intros i p s; cbn [import_rows].
  { split_and!; [done..|]. exists []. by rewrite app_nil_r. }
  destruct (import_row getTime X onProgress signTransaction owner row s) as [r s1].
  set (p1 := {| step := step p |}). specialize (IH (i + 1)%nat p1 s1). destruct (rows_from owner (i + 1) rows p1 s1) as [p' s'].
  destruct IH as (Hp&Hv&outcomes&Hl&Hr). split_and!; [done..|]. exists (r :: outcomes). split; [cbn; lia|].
  rewrite Hr. cbn [p1 results length seq zip_with zip]. rewrite <-app_assoc. by rewrite Nat.add_1_r.
Qed.

(** What became of the valid rows, taken in order from place [i] on, and the lines
    that say so. *)
Inductive turns (owner : string) : nat → list ParsedRow → Submitting (W := W) → list (list string) →
    Submitting (W := W) → Prop :=
  | no_more_rows i s : turns owner i [] s [] s
  | row_imported i row rows s s1 lines s2 :
      import_row getTime X onProgress signTransaction owner row s = (Ok tt, s1) →
      turns owner (i + 1) rows s1 lines s2 →
      turns owner i (row :: rows) s
        ([pretty (rowNum row); pr_debtor row; pr_amount row; pr_dueDate row;
          "SUCCESS"; pretty (Z.of_nat i + 1); ""] :: lines) s2
  | row_failed i row rows s e s1 lines s2 :
      import_row getTime X onProgress signTransaction owner row s = (Throw e, s1) →
      turns owner (i + 1) rows s1 lines s2 →
      turns owner i (row :: rows) s
        ([pretty (rowNum row); pr_debtor row; pr_amount row; pr_dueDate row;
          "FAILED"; ""; exn_message e] :: lines) s2.

Lemma import_rows_turns owner rows : ∀ i p s, let '(p', s') := rows_from owner i rows p s in
  ∃ lines, turns owner i rows s lines s' ∧ map result_cells (results p') = map result_cells (results p) ++ lines.
Proof.
  induction rows as [|row rows IH]; intros i p s; cbn [import_rows].
  { exists []. rewrite app_nil_r. split; [constructor|done]. }
  destruct (import_row getTime X onProgress signTransaction owner row s) as [r s1] eqn:E.
  set (p1 := {| step := step p |}). specialize (IH (i + 1)%nat p1 s1). destruct (rows_from owner (i + 1) rows p1 s1) as [p' s'].
  destruct IH as (lines&Ht&Hr). rewrite Hr. cbn [p1 results]. rewrite map_app, <-app_assoc.
  destruct r as [[]|e]; eexists; (split; [|reflexivity]); [by apply row_imported with s1|by apply row_failed with s1].
Qed.

(** C24. After an import the file of results says what became of every valid row: read
    back, it has the header and, in the order of the rows, a line for each that says
    SUCCESS, with the row's place among the valid ones as its invoice id, exactly when
    the import of that row, made in the state the row before left, returned; and
    FAILED with the error it threw otherwise; whatever the file imported and the
    errors hold. Rows with errors are not imported and not listed. *)
Theorem results_read_back owner p s :
  owner ≠ "" → lengthZ (validRows p) ≤ MAX_INVOICES_PER_DAY →
  let '(p', s') := handleStartImport getTime X onProgress signTransaction (Some owner) p s in
  ∃ lines, turns owner 0 (validRows p) s lines s' ∧
    read_csv Before "" [] [] (downloadResults p') =
      Some (["Row"; "Debtor"; "Amount"; "Due Date"; "Status"; "Invoice ID"; "Error"] :: lines).
Proof.
  intros Ho Hn. unfold handleStartImport. destruct owner as [|c owner]; [done|].
  destruct (Z.ltb_spec MAX_INVOICES_PER_DAY (lengthZ (validRows p))); [lia|].
  pose proof (import_rows_turns (String c owner) (validRows p) 0
    {| step := submit; parsedRows := parsedRows p; validRows := validRows p; currentIndex := 0; results := [] |} s) as H'.
  destruct (rows_from _ _ _ _ s) as [p' s']. destruct H' as (lines&Ht&Hr). cbn [results map app] in Hr.
  exists lines. split; [done|]. unfold downloadResults. cbn [results]. rewrite Hr. apply csv_roundtrip; [done|].
  constructor; [done|]. rewrite <-Hr. apply Forall_forall. by intros r (x&->&_)%list_elem_of_fmap.
Qed.

(** An import tries every valid row once, in order, whatever becomes of the others,
    and notes one result for each; with more than ten rows, or no wallet, it does
    nothing. *)
Theorem import_tries_all wallet p s : import_inv p →
  let '(p', s') := handleStartImport getTime X onProgress signTransaction wallet p s in
  import_inv p' ∧
  ((p' = p ∧ s' = s ∧ (wallet = None ∨ wallet = Some "" ∨ MAX_INVOICES_PER_DAY < lengthZ (validRows p))) ∨
   (step p' = results_step ∧ map rr_row (results p') = validRows p ∧ lengthZ (validRows p) ≤ MAX_INVOICES_PER_DAY ∧
    Forall (λ r, rr_invoiceId r = None ↔ rr_error r ≠ None) (results p'))).
Proof.
  intros Hp. unfold handleStartImport. destruct wallet as [[|c w]|]; [eauto 10| |eauto 10].
  destruct (Z.ltb_spec MAX_INVOICES_PER_DAY (lengthZ (validRows p))); [eauto 10|].
  set (p0 := {| step := submit |}).
  pose proof (import_rows_spec (String c w) (validRows p) 0 p0 s) as H0. destruct (rows_from (String c w) 0 (validRows p) p0 s) as [p' s'].
  destruct H0 as (Hpr&Hv&outcomes&Hl&Hr). split.
  { unfold import_inv in *. cbn [validRows parsedRows]. rewrite Hpr, Hv. exact Hp. }
  right. cbn [step results]. rewrite Hr. cbn [p0 results app]. split_and!; [done| |lia|].
  - clear -Hl. revert outcomes Hl. generalize 0%nat. induction (validRows p) as [|row rows IH]; intros i [|r outcomes] Hl; try done.
    cbn [length seq zip zip_with map]. rewrite IH by (cbn in Hl; lia). by destruct r.
  - generalize (seq 0 (length (validRows p))) (zip (validRows p) outcomes). intros l1 l2.
    revert l2. induction l1 as [|k l1 IH]; intros [|[row [u|e]] l2]; cbn; constructor; try apply IH; cbn; naive_solver.
Qed.
End facts.
