(* ===== verification/WebForms.v ===== *)
(** * app/invoice/new/page.tsx, lib/invoiceTemplates.ts and app/admin/aging/page.tsx

    The form of a new invoice and its checks, the templates kept in the browser, and
    the aging report of the funded invoices. *)
From S2P Require Import Prelude.
From S2P Require Import JsValue.
From S2P Require Import JsNumber.
From S2P Require Import JsArith.
From S2P Require Import Sdk.
From S2P Require Import Abi.
From S2P Require Import ContractAbi.
From S2P Require Import RpcPool.
From S2P Require Import Stellar.
From S2P Require Import Amounts.
From S2P Require Import WebAbi.
From S2P Require Import WebInvoice.
From S2P Require Import Revenue.
From S2P Require Import WebImport.
#[local] Open Scope string_scope.
#[local] Open Scope list_scope.
#[local] Open Scope Z_scope.

(** ** lib/invoiceTemplates.ts *)

Record InvoiceTemplate := {
  it_id : string; it_name : string; it_amount : number; it_token : string; it_dueDays : Z; it_description : string;
  it_createdAt : string; it_lastUsedAt : option string }.

(** The item of the browser's storage: the templates that were saved, [None] when
    there is none, or none that is an array. *)
Definition Templates : Type := option (list InvoiceTemplate).

Definition loadInvoiceTemplates (isBrowser : bool) (s : Templates) : list InvoiceTemplate :=
  if isBrowser then default [] s else [].

Definition saveInvoiceTemplates (templates : list InvoiceTemplate) : Templates := Some templates.

Fixpoint replace_template (t : InvoiceTemplate) (l : list InvoiceTemplate) : option (list InvoiceTemplate) :=
  match l with
  | [] => None
  | x :: l' => if String.eqb (it_id x) (it_id t) then Some (t :: l') else cons x <$> replace_template t l'
  end.

Definition upsertInvoiceTemplate (t : InvoiceTemplate) (s : Templates) : Templates :=
  let templates := loadInvoiceTemplates true s in
  saveInvoiceTemplates (default (t :: templates) (replace_template t templates)).

Definition deleteInvoiceTemplate (id : string) (s : Templates) : Templates :=
  saveInvoiceTemplates (List.filter (λ t, negb (String.eqb (it_id t) id)) (loadInvoiceTemplates true s)).

Definition getInvoiceTemplate (id : string) (s : Templates) : option InvoiceTemplate :=
  find (λ t, String.eqb (it_id t) id) (loadInvoiceTemplates true s).

(** ** The form *)

Definition MIN_AMOUNT : Z := 10.
Definition DEFAULT_MAX_AMOUNT : Z := 1000000.
Definition MAX_DUE_DAYS : Z := 365.
Definition MAX_DESCRIPTION_LEN : nat := 256.

Record Form := {
  f_debtor : string; f_amount : string; f_dueDate : string; f_description : string; f_metadataUri : string }.

Record FormErrors := {
  e_debtor : option string; e_amount : option string; e_dueDate : option string; e_description : option string;
  e_metadataUri : option string }.

Section form.
(** [new Date(s).getTime()], and a number written for the reader's language. *)
Context (getTime : string → number) (toLocaleString : number → string).

Definition debtor_error (debtor : string) : option string :=
  let debtor := trim debtor in
  if String.eqb debtor "" then Some "Debtor name is required."
  else if (String.length debtor <? 2)%nat then Some "Debtor name must be at least 2 characters."
  else if (100 <? String.length debtor)%nat then Some "Debtor name must be 100 characters or fewer."
  else None.

Definition amount_error (text : string) (maxAmount : number) : option string :=
  let amount := parseFloat text in
  if String.eqb text "" then Some "Amount is required."
  else if isNaN amount || num_leb amount (num_of_Z 0) then Some "Amount must be a positive number."
  else if num_ltb amount (num_of_Z MIN_AMOUNT) then Some ("Minimum invoice amount is $" +:+ pretty MIN_AMOUNT +:+ " USDC.")
  else if num_ltb maxAmount amount then Some ("Maximum invoice amount is $" +:+ toLocaleString maxAmount +:+ " USDC.")
  else None.

(** [today] and [maxDate] are the times of the last and of the 365th next midnight. *)
Definition due_error (today maxDate : Z) (text : string) : option string :=
  if String.eqb text "" then Some "Due date is required."
  else
    let due := getTime text in
    if num_leb due (num_of_Z today) then Some "Due date must be in the future."
    else if num_ltb (num_of_Z maxDate) due then Some ("Due date must be within " +:+ pretty MAX_DUE_DAYS +:+ " days from today.")
    else None.

Definition description_error (text : string) : option string :=
  if (MAX_DESCRIPTION_LEN <? String.length text)%nat
  then Some ("Description must be " +:+ pretty (Z.of_nat MAX_DESCRIPTION_LEN) +:+ " characters or fewer.") else None.

Definition uri_error (uri : string) : option string :=
  if negb (String.eqb uri "") && negb (startsWith "ipfs://" uri || startsWith "ar://" uri || startsWith "https://" uri)
  then Some "Metadata URI must start with ipfs://, ar://, or https://" else None.

Definition validateForm (today maxDate : Z) (form : Form) (maxAmount : number) : FormErrors := {|
  e_debtor := debtor_error (f_debtor form); e_amount := amount_error (f_amount form) maxAmount;
  e_dueDate := due_error today maxDate (f_dueDate form); e_description := description_error (f_description form);
  e_metadataUri := uri_error (f_metadataUri form) |}.

Definition isValid (e : FormErrors) : bool :=
  match e with {| e_debtor := None; e_amount := None; e_dueDate := None; e_description := None; e_metadataUri := None |} => true
  | _ => false end.

(** [getMaxInvoiceAmount().then(..).catch(..)]. *)
Definition load_max_amount {W} (X : Chain W) : M (Rpc (W := W)) number :=
  or_else (num_of_Z DEFAULT_MAX_AMOUNT) (getMaxInvoiceAmount X).

(** *** Submission *)

Context {W : Type} (X : Chain W) (onProgress : TransactionProgress → M W unit).
Context (signTransaction : string → string → string → M W (string * option string)).

Definition opt_text (s : string) : option string := if String.eqb s "" then None else Some s.

Definition due_timestamp (form : Form) : number := Math_floor (num_div (getTime (f_dueDate form)) (num_of_Z 1000)).

(** The call the fee is estimated for. The amount may throw. *)
Definition simulateCreate (address : string) (form : Form) : result (string * list ScArg) :=
  amountStroops ← toStroops (parseFloat (f_amount form));
  due ← bigint_of_number (due_timestamp form);
  Ok ("create_invoice_with_metadata",
      [ArgAddress address; ArgString (JStr (f_debtor form)); ArgI128 amountStroops; ArgU64 due;
       ArgString (JStr (f_description form)); ArgString (JStr "frontend-placeholder-hash");
       match opt_text (trim (f_metadataUri form)) with Some u => ArgString (JStr u) | None => ArgVoid end]).

Definition submit_form (address : string) (form : Form) : M (Submitting (W := W)) unit :=
  amountStroops ← lift_result (toStroops (parseFloat (f_amount form)));
  xdr ← WebImport.on_rpc (buildCreateInvoiceTx X address (f_debtor form) amountStroops (due_timestamp form)
    (f_description form) (Some "frontend-placeholder-hash") (opt_text (trim (f_metadataUri form))));
  '(signedTxXdr, signError) ← WebImport.on_world (signTransaction xdr (ch_network X) address);
  match signError with
  | Some message => throw (EError message)
  | None => _ ← submitTx X signedTxXdr onProgress; mret tt
  end.

(** The toast the page shows, and whether it goes to the dashboard; nothing when the
    form is not valid or there is no wallet. *)
Inductive Shown := ShownNothing | ShownSuccess | ShownError (message : string).

Definition handleSubmit (wallet : option string) (valid : bool) (form : Form) : M (Submitting (W := W)) Shown :=
  match wallet with
  | None | Some "" => mret ShownNothing
  | Some address =>
      if negb valid then mret ShownNothing
      else try_catch (submit_form address form;; mret ShownSuccess) (λ e, mret (ShownError (exn_message e)))
  end.

End form.

(** *** Templates of the form *)

Definition fill_form (t : InvoiceTemplate) (form : Form) (amount dueDate : string) : Form := {|
  f_debtor := f_debtor form; f_amount := amount; f_dueDate := dueDate; f_description := it_description t;
  f_metadataUri := f_metadataUri form |}.

(** The effect that fills the form: [amountText] writes the number, [dayOf] the day so
    many days from now. *)
Definition use_template (amountText : number → string) (dayOf : Z → string) (nowISO : string) (id : option string)
    (form : Form) (s : Templates) : Form * Templates :=
  match id with
  | None | Some "" => (form, s)
  | Some id =>
      match getInvoiceTemplate id s with
      | None => (form, s)
      | Some t =>
          (fill_form t form (amountText (it_amount t)) (dayOf (it_dueDays t)),
           upsertInvoiceTemplate {| it_id := it_id t; it_name := it_name t; it_amount := it_amount t; it_token := it_token t;
             it_dueDays := it_dueDays t; it_description := it_description t; it_createdAt := it_createdAt t;
             it_lastUsedAt := Some nowISO |} s)
      end
  end.

Definition days_ahead (getTime : string → number) (now : Z) (dueDate : string) : Z :=
  if String.eqb dueDate "" then 30
  else Z.max 1 (default 1 (ceil_Z (num_div (num_sub (getTime dueDate) (num_of_Z now)) (num_of_Z 86400000)))).

Definition saveAsTemplate (getTime : string → number) (now : Z) (nowISO uuid : string) (prompted : option string)
    (form : Form) (s : Templates) : Templates :=
  match prompted with
  | None => s
  | Some name =>
      if String.eqb (trim name) "" then s
      else
        let n := Number_of_string (f_amount form) in
        upsertInvoiceTemplate {|
          it_id := uuid; it_name := trim name; it_amount := if isNaN n then num_of_Z 0 else n; it_token := "USDC";
          it_dueDays := days_ahead getTime now (f_dueDate form); it_description := f_description form;
          it_createdAt := nowISO; it_lastUsedAt := None |} s
  end.

(** ** The aging report *)

Inductive AgingBucket := critical | severe | moderate | mild | current.
#[export] Instance AgingBucket_eq_dec : EqDecision AgingBucket.
Proof. solve_decision. Defined.

Definition AGING_BUCKETS : list (AgingBucket * Z) := [(critical, 90); (severe, 61); (moderate, 31); (mild, 1); (current, 0)].
Definition AT_RISK_DAYS : Z := 7.

(** What the report reads of an invoice, with [status === 'Funded'] as a truth value. *)
Record AgingInvoice := { ai_id : Z; ai_funded : bool; ai_dueDate : Z; ai_amount : Z }.

Definition overdue_days (nowSecs : Z) (inv : AgingInvoice) : Z := (nowSecs - ai_dueDate inv) / 86400.

Definition overdueDefs : list (AgingBucket * Z) := List.filter (λ b, 1 <=? b.2) AGING_BUCKETS.

(** The [for] over the definitions, each bounded by the one before it. *)
Fixpoint bucket_of_days (days : Z) (upper : option Z) (defs : list (AgingBucket * Z)) : option AgingBucket :=
  match defs with
  | [] => None
  | (b, minDays) :: defs' =>
      if (minDays <=? days) && match upper with Some u => days <=? u | None => true end then Some b
      else bucket_of_days days (Some (minDays - 1)) defs'
  end.

(** The bucket an invoice is put in. *)
Definition aging_bucket (nowSecs : Z) (inv : AgingInvoice) : option AgingBucket :=
  let days := overdue_days nowSecs inv in
  if 0 <? days then bucket_of_days days None overdueDefs else Some current.

Record AgingGroup := { ag_bucket : AgingBucket; ag_invoices : list AgingInvoice; ag_totalAmount : Z }.

(** [buckets[bucketIdx].invoices.push(inv)], and the total with it. *)
Definition push_invoice (b : AgingBucket) (inv : AgingInvoice) (g : AgingGroup) : AgingGroup :=
  if bool_decide (ag_bucket g = b)
  then {| ag_bucket := b; ag_invoices := ag_invoices g ++ [inv]; ag_totalAmount := ag_totalAmount g + ai_amount inv |}
  else g.

Record Aging := { overdueBuckets : list AgingGroup; atRiskInvoices : list AgingInvoice }.

(** One turn of the [for] over the invoices. *)
Definition aging_step (nowSecs : Z) (a : Aging) (inv : AgingInvoice) : Aging :=
  if negb (ai_funded inv) then a
  else
    let days := overdue_days nowSecs inv in
    {| overdueBuckets := match aging_bucket nowSecs inv with
                         | Some b => map (push_invoice b inv) (overdueBuckets a)
                         | None => overdueBuckets a
                         end;
       atRiskInvoices := if (days <=? 0) && (Z.abs days <=? AT_RISK_DAYS) then atRiskInvoices a ++ [inv] else atRiskInvoices a |}.

Definition no_aging : Aging := {|
  overdueBuckets := map (λ b, {| ag_bucket := b.1; ag_invoices := []; ag_totalAmount := 0 |}) AGING_BUCKETS;
  atRiskInvoices := [] |}.

Definition aging (nowSecs : Z) (invoices : list AgingInvoice) : Aging := foldl (aging_step nowSecs) no_aging invoices.

Definition totalOverdueAmount (groups : list AgingGroup) : Z := sum_by ag_totalAmount groups.
Definition totalOverdueCount (groups : list AgingGroup) : Z := sum_by (λ g, lengthZ (ag_invoices g)) groups.

(** [exportCSV]: the cells of an invoice are made by the page's formatting. *)
Definition aging_csv (headers : list string) (overdue_row : AgingGroup → AgingInvoice → list string)
    (risk_row : AgingInvoice → list string) (groups : list AgingGroup) (atRisk : list AgingInvoice) : string :=
  to_csv (headers :: concat (map (λ g, map (overdue_row g) (ag_invoices g)) groups) ++ map risk_row atRisk).

(** ** Templates *)

Lemma replace_template_spec t l :
  match replace_template t l with
  | Some l' => map it_id l' = map it_id l ∧ t ∈ l' ∧
      (∀ id, id ≠ it_id t → find (λ x, String.eqb (it_id x) id) l' = find (λ x, String.eqb (it_id x) id) l) ∧
      find (λ x, String.eqb (it_id x) (it_id t)) l' = Some t
  | None => it_id t ∉ map it_id l
  end.
Proof.
  induction l as [|x l IH]; cbn [replace_template map]; [apply not_elem_of_nil|].
  destruct (String.eqb_spec (it_id x) (it_id t)) as [E|Hne].
  - split_and!; [cbn; by rewrite E|left| |cbn; by rewrite String.eqb_refl].
    intros id Hid. cbn [find]. by rewrite !(proj2 (String.eqb_neq _ id)) by congruence.
  - destruct (replace_template t l) as [l'|]; cbn [fmap option_fmap option_map].
    + destruct IH as (H1&H2&H3&H4). split_and!; [cbn; by rewrite H1|by right| |].
      * intros id Hid. cbn [find]. by rewrite H3.
      * cbn [find]. by rewrite (proj2 (String.eqb_neq _ _)).
    + intros [E|H]%elem_of_cons; [congruence|done].
Qed.

(** A template that was saved is found, as it is; the others are as they were, and no
    id is twice. *)
Theorem templates_kept t s :
  getInvoiceTemplate (it_id t) (upsertInvoiceTemplate t s) = Some t ∧
  (∀ id, id ≠ it_id t → getInvoiceTemplate id (upsertInvoiceTemplate t s) = getInvoiceTemplate id s) ∧
  (NoDup (map it_id (loadInvoiceTemplates true s)) → NoDup (map it_id (loadInvoiceTemplates true (upsertInvoiceTemplate t s)))).
Proof.
  unfold getInvoiceTemplate, upsertInvoiceTemplate, saveInvoiceTemplates, loadInvoiceTemplates.
  pose proof (replace_template_spec t (default [] s)) as H. destruct (replace_template t (default [] s)) as [l'|]; cbn [default from_option Datatypes.id].
  - destruct H as (H1&_&H3&H4). by rewrite H1.
  - split_and!.
    + cbn [find]. by rewrite String.eqb_refl.
    + intros id Hid. cbn [find]. by rewrite (proj2 (String.eqb_neq _ _)).
    + intros Hd. cbn [map]. by constructor.
Qed.

Lemma template_deleted id s : getInvoiceTemplate id (deleteInvoiceTemplate id s) = None ∧
  ∀ id', id' ≠ id → getInvoiceTemplate id' (deleteInvoiceTemplate id s) = getInvoiceTemplate id' s.
Proof.
  unfold getInvoiceTemplate, deleteInvoiceTemplate, saveInvoiceTemplates, loadInvoiceTemplates. cbn [default from_option Datatypes.id].
  induction (default [] s) as [|t l [IH1 IH2]]; [done|]. cbn [List.filter].
  destruct (String.eqb_spec (it_id t) id) as [E|Hne]; cbn [negb]; split.
  - exact IH1.
  - intros id' Hid. rewrite IH2 by done. cbn [find]. by rewrite (proj2 (String.eqb_neq _ _)) by congruence.
  - cbn [find]. rewrite (proj2 (String.eqb_neq _ _)) by done. exact IH1.
  - intros id' Hid. cbn [find]. destruct (String.eqb (it_id t) id'); [done|]. by apply IH2.
Qed.

(** ** The form *)

(** A form that is not valid, or no wallet: nothing is built, signed or sent. *)
Lemma invalid_form_silent {W} getTime (X : Chain W) onProgress signTransaction wallet valid form s :
  valid = false ∨ opt_text (default "" wallet) = None →
  handleSubmit getTime X onProgress signTransaction wallet valid form s = (Ok ShownNothing, s).
Proof.
  unfold handleSubmit. destruct wallet as [[|c w]|]; [done| |done]. by intros [->|?].
Qed.

(** What the checks of the form come to. *)
Theorem form_valid getTime toLocaleString today maxDate form maxAmount :
  isValid (validateForm getTime toLocaleString today maxDate form maxAmount) = true ↔
    (2 ≤ String.length (trim (f_debtor form)) ≤ 100)%nat ∧
    f_amount form ≠ "" ∧ isNaN (parseFloat (f_amount form)) = false ∧
    num_leb (parseFloat (f_amount form)) (num_of_Z 0) = false ∧
    num_ltb (parseFloat (f_amount form)) (num_of_Z 10) = false ∧ num_ltb maxAmount (parseFloat (f_amount form)) = false ∧
    f_dueDate form ≠ "" ∧ num_leb (getTime (f_dueDate form)) (num_of_Z today) = false ∧
    num_ltb (num_of_Z maxDate) (getTime (f_dueDate form)) = false ∧
    (String.length (f_description form) ≤ 256)%nat ∧
    (f_metadataUri form = "" ∨ startsWith "ipfs://" (f_metadataUri form) = true ∨
     startsWith "ar://" (f_metadataUri form) = true ∨ startsWith "https://" (f_metadataUri form) = true).
Proof.
  unfold validateForm. assert (debtor_error (f_debtor form) = None ↔ (2 ≤ String.length (trim (f_debtor form)) ≤ 100)%nat) as Hd.
  { unfold debtor_error. destruct (String.eqb_spec (trim (f_debtor form)) "") as [->|]; [split; [done|cbn; lia]|].
    destruct (Nat.ltb_spec (String.length (trim (f_debtor form))) 2); [split; [done|lia]|].
    destruct (Nat.ltb_spec 100 (String.length (trim (f_debtor form)))); split; (done || lia). }
  assert (description_error (f_description form) = None ↔ (String.length (f_description form) ≤ 256)%nat) as Hs.
  { unfold description_error, MAX_DESCRIPTION_LEN. destruct (Nat.ltb_spec 256 (String.length (f_description form))); split; (done || lia). }
  assert (uri_error (f_metadataUri form) = None ↔ f_metadataUri form = "" ∨ startsWith "ipfs://" (f_metadataUri form) = true ∨
     startsWith "ar://" (f_metadataUri form) = true ∨ startsWith "https://" (f_metadataUri form) = true) as Hu.
  { unfold uri_error. set (u := f_metadataUri form).
    destruct (String.eqb_spec u ""), (startsWith "ipfs://" u), (startsWith "ar://" u), (startsWith "https://" u);
      cbn; intuition done. }
  assert (amount_error toLocaleString (f_amount form) maxAmount = None ↔ f_amount form ≠ "" ∧ isNaN (parseFloat (f_amount form)) = false ∧
    num_leb (parseFloat (f_amount form)) (num_of_Z 0) = false ∧
    num_ltb (parseFloat (f_amount form)) (num_of_Z 10) = false ∧ num_ltb maxAmount (parseFloat (f_amount form)) = false) as Ha.
  { unfold amount_error, MIN_AMOUNT. cbv zeta. set (x := parseFloat (f_amount form)). clearbody x.
    destruct (String.eqb_spec (f_amount form) ""), (isNaN x), (num_leb x (num_of_Z 0)), (num_ltb x (num_of_Z 10)),
      (num_ltb maxAmount x); cbn [orb]; intuition done. }
  assert (due_error getTime today maxDate (f_dueDate form) = None ↔ f_dueDate form ≠ "" ∧
    num_leb (getTime (f_dueDate form)) (num_of_Z today) = false ∧ num_ltb (num_of_Z maxDate) (getTime (f_dueDate form)) = false) as Ht.
  { unfold due_error. cbv zeta. set (x := getTime (f_dueDate form)). clearbody x.
    destruct (String.eqb_spec (f_dueDate form) ""), (num_leb x (num_of_Z today)), (num_ltb (num_of_Z maxDate) x); intuition done. }
  assert (∀ a b c d e, isValid {| e_debtor := a; e_amount := b; e_dueDate := c; e_description := d; e_metadataUri := e |} = true ↔
    a = None ∧ b = None ∧ c = None ∧ d = None ∧ e = None) as ->.
  { by intros [] [] [] [] []; split; intros; destruct_and?. }
  rewrite Hd, Ha, Ht, Hs, Hu. tauto.
Qed.

(** ** The aging report *)

(** The days past the due date that a bucket is for. *)
Definition days_of (b : AgingBucket) (days : Z) : Prop :=
  match b with
  | critical => 90 ≤ days
  | severe => 61 ≤ days ≤ 89
  | moderate => 31 ≤ days ≤ 60
  | mild => 1 ≤ days ≤ 30
  | current => days ≤ 0
  end.

Lemma aging_bucket_days nowSecs inv : ∃ b, aging_bucket nowSecs inv = Some b ∧ days_of b (overdue_days nowSecs inv).
Proof.
  unfold aging_bucket. set (d := overdue_days nowSecs inv). change overdueDefs with [(critical, 90); (severe, 61); (moderate, 31); (mild, 1)].
  cbn [bucket_of_days].
  repeat (match goal with |- context [if ?a <? ?b then _ else _] => destruct (Z.ltb_spec a b)
                        | |- context [?a <=? ?b] => destruct (Z.leb_spec a b) end; cbn [andb]);
    try lia; eexists; (split; [reflexivity|cbn; lia]).
Qed.

(** *** The loop keeps what it put in the buckets *)

Definition buckets_of (a : Aging) : list AgingInvoice := concat (map ag_invoices (overdueBuckets a)).

(** Of the invoices looked at so far: the buckets have them all, where they belong,
    with their totals, and those at risk are among those not due. *)
Record aging_inv (nowSecs : Z) (seen : list AgingInvoice) (a : Aging) : Prop := {
  ai_keys : map ag_bucket (overdueBuckets a) = map fst AGING_BUCKETS;
  ai_all : buckets_of a ≡ₚ List.filter ai_funded seen;
  ai_belong : Forall (λ g, Forall (λ inv, days_of (ag_bucket g) (overdue_days nowSecs inv)) (ag_invoices g)) (overdueBuckets a);
  ai_totals : Forall (λ g, ag_totalAmount g = sum_by ai_amount (ag_invoices g)) (overdueBuckets a);
  ai_risk : atRiskInvoices a = List.filter (λ inv, ai_funded inv && (overdue_days nowSecs inv <=? 0) && (-7 <=? overdue_days nowSecs inv)) seen }.

Lemma push_all b inv gs : NoDup (map ag_bucket gs) → b ∈ map ag_bucket gs →
  concat (map ag_invoices (map (push_invoice b inv) gs)) ≡ₚ inv :: concat (map ag_invoices gs).
Proof.
  induction gs as [|g gs IH]; [by intros _ ?%not_elem_of_nil|]. cbn [map]. intros [Hg Hgs]%NoDup_cons Hb. cbn [concat].
  destruct (decide (ag_bucket g = b)) as [<-|Hne].
  - assert (map (push_invoice (ag_bucket g) inv) gs = gs) as ->.
    { clear -Hg. induction gs as [|g' gs IH]; [done|]. cbn [map]. apply not_elem_of_cons in Hg as [Hne Hg].
      rewrite IH by done. unfold push_invoice. by rewrite bool_decide_eq_false_2. }
    unfold push_invoice. rewrite bool_decide_eq_true_2 by done. cbn [ag_invoices]. rewrite <-app_assoc. symmetry. apply Permutation_middle.
  - apply elem_of_cons in Hb as [->|Hb]; [done|]. rewrite IH by done. unfold push_invoice at 1.
    rewrite bool_decide_eq_false_2 by done. cbn [map concat]. symmetry. apply Permutation_middle.
Qed.

Lemma push_bucket b inv g : ag_bucket (push_invoice b inv g) = ag_bucket g.
Proof. unfold push_invoice. by case_bool_decide. Qed.

Lemma aging_step_inv nowSecs seen a inv : aging_inv nowSecs seen a → aging_inv nowSecs (seen ++ [inv]) (aging_step nowSecs a inv).
Proof.
  intros [Hk Ha Hb Ht Hr]. unfold aging_step. destruct (ai_funded inv) eqn:Hf; cbn [negb].
  2: { split; [done| |done|done|].
       - rewrite List.filter_app. cbn [List.filter]. by rewrite Hf, app_nil_r.
       - rewrite Hr. symmetry. rewrite List.filter_app. cbn [List.filter]. rewrite Hf. apply app_nil_r. }
  destruct (aging_bucket_days nowSecs inv) as (b&->&Hdays). split; cbn [overdueBuckets atRiskInvoices].
  - rewrite map_map, <-Hk. apply map_ext. intros g. apply push_bucket.
  - unfold buckets_of. cbn [overdueBuckets]. rewrite push_all; [|rewrite Hk; apply (bool_decide_unpack _); exact I|rewrite Hk; destruct b; cbn; set_solver].
    rewrite List.filter_app. cbn [List.filter]. rewrite Hf, <-Permutation_cons_append. by rewrite <-Ha.
  - apply Forall_map. eapply Forall_impl; [exact Hb|]. intros g Hg. unfold push_invoice. case_bool_decide as E; [|done].
    subst b. cbn [ag_bucket ag_invoices]. apply Forall_app. by repeat constructor.
  - apply Forall_map. eapply Forall_impl; [exact Ht|]. intros g Hg. unfold push_invoice. case_bool_decide as E; [|done].
    cbn [ag_totalAmount ag_invoices]. rewrite sum_by_app, Hg. cbn. lia.
  - rewrite Hr, List.filter_app. cbn [List.filter]. rewrite Hf. cbn [andb]. set (d := overdue_days nowSecs inv). unfold AT_RISK_DAYS.
    destruct (Z.leb_spec d 0), (Z.leb_spec (Z.abs d) 7), (Z.leb_spec (-7) d); cbn [andb]; rewrite ?app_nil_r; (done || lia).
Qed.

Lemma aging_keeps nowSecs invoices : aging_inv nowSecs invoices (aging nowSecs invoices).
Proof.
  unfold aging. change invoices with ([] ++ invoices) at 1.
  assert (aging_inv nowSecs [] no_aging) as H by (split; repeat constructor). revert H. generalize (@nil AgingInvoice) no_aging.
  induction invoices as [|inv invoices IH]; intros seen a H; [by rewrite app_nil_r|]. cbn [foldl].
  replace (seen ++ inv :: invoices) with ((seen ++ [inv]) ++ invoices) by by rewrite <-app_assoc.
  apply IH. by apply aging_step_inv.
Qed.

Lemma sum_by_concat {A} (f : A → Z) ls : sum_by f (concat ls) = sum_by (sum_by f) ls.
Proof. induction ls as [|l ls IH]; [done|]. cbn [concat]. rewrite sum_by_app, IH. done. Qed.

Lemma lengthZ_sum {A} (l : list A) : lengthZ l = sum_by (λ _, 1) l.
Proof. rewrite sum_by_const. lia. Qed.

(** Buckets lose and repeat no funded invoice, and each invoice is where the days
    since its due date put it; those at risk are the ones due within a week. The
    report's totals of what is overdue include the invoices that are not: they are
    those of all funded invoices. *)
Theorem aging_partition nowSecs invoices :
  let groups := overdueBuckets (aging nowSecs invoices) in
  let funded := List.filter ai_funded invoices in
  map ag_bucket groups = [critical; severe; moderate; mild; current] ∧
  concat (map ag_invoices groups) ≡ₚ funded ∧
  Forall (λ g, Forall (λ inv, days_of (ag_bucket g) (overdue_days nowSecs inv)) (ag_invoices g)) groups ∧
  atRiskInvoices (aging nowSecs invoices) =
    List.filter (λ inv, ai_funded inv && (overdue_days nowSecs inv <=? 0) && (-7 <=? overdue_days nowSecs inv)) invoices ∧
  totalOverdueAmount groups = sum_by ai_amount funded ∧ totalOverdueCount groups = lengthZ funded.
Proof.
  intros groups funded. destruct (aging_keeps nowSecs invoices) as [Hk Ha Hb Ht Hr]. fold groups in Hk, Hb, Ht.
  change (buckets_of (aging nowSecs invoices)) with (concat (map ag_invoices groups)) in Ha. split_and!; [done..| |].
  - unfold funded. rewrite <-(sum_by_perm _ _ _ Ha), sum_by_concat, sum_by_map. unfold totalOverdueAmount. clear -Ht.
    induction Ht as [|g gs Hg _ IH]; [done|]. change (ag_totalAmount g + sum_by ag_totalAmount gs = sum_by ai_amount (ag_invoices g) + sum_by (λ g, sum_by ai_amount (ag_invoices g)) gs).
    by rewrite Hg, IH.
  - unfold funded. rewrite (lengthZ_sum (List.filter _ _)), <-(sum_by_perm _ _ _ Ha), sum_by_concat, sum_by_map.
    apply sum_by_ext. intros g. apply lengthZ_sum.
Qed.
