(* ===== verification/PageTx.v ===== *)
(** * frontend: a transaction from a page to the network, and what is tracked of it

    The handlers of the pages share one shape: they look at the form and the wallet,
    have a transaction built (contracts.ts), have the wallet sign it, submit it
    (stellar.ts), say so in a toast, and read again what they show. [transact] is that
    shape; a page gives what differs. Also here: hooks/useTrackTransaction.ts with the
    tracked transactions of lib/store.ts, lib/simulateFee.ts and
    hooks/useTransactionSimulation.ts.

    Nothing else happens on a page while one of its handlers runs. *)
From S2P Require Import Prelude.
From S2P Require Import JsValue.
From S2P Require Import JsNumber.
From S2P Require Import JsArith.
From S2P Require Import Sdk.
From S2P Require Import Abi.
From S2P Require Import ContractAbi.
From S2P Require Import RpcPool.
From S2P Require Import Stellar.
From S2P Require Import Amounts.
From S2P Require Import WebAbi.
#[local] Open Scope string_scope.
#[local] Open Scope list_scope.
#[local] Open Scope Z_scope.

(** ** Updating a field

    The states of the pages are records with many fields, of which a step changes
    one or two: [p <| field := v |>]. *)

(** A record, written with its constructor and all of its fields. *)
Class Eta (R : Type) := eta : R → R.

Class Update {R A : Type} (f : R → A) := update_field : (A → A) → R → R.
Arguments update_field {R A} f {_} _ _.

Ltac find_update R f :=
  let i := constr:((λ e : Eta R, e) _) in
  let i := eval cbv beta in i in
  let whole := eval red in i in
  match eval pattern f in whole with
  | ?rebuild _ => let u := eval cbv beta in (λ h, rebuild (λ r, h (f r))) in exact u
  end.
#[export] Hint Extern 0 (@Update ?R _ ?f) => find_update R f : typeclass_instances.

Declare Scope page_scope.
Notation "r <| f := v |>" := (update_field f (λ _, v) r) (at level 1, left associativity, f at level 10) : page_scope.
#[global] Open Scope page_scope.

(** ** The fields of what the readers return

    A reader decodes a field into the kind its list of fields says. *)
Definition Fields : Type := list (string * value).

Definition value_of (r : Fields) (name : string) : value :=
  match find (λ f, String.eqb f.1 name) r with Some f => f.2 | None => VRaw JUndef end.
Definition big_of (r : Fields) (name : string) : Z := match value_of r name with VBig n => n | _ => 0 end.
Definition num_of (r : Fields) (name : string) : number :=
  match value_of r name with VNum x => x | VRaw v => js_Number v | _ => NaN end.
Definition raw_of (r : Fields) (name : string) : jsval :=
  match value_of r name with
  | VRaw v => v | VBool b => JBool b | VString s => JStr s | VBig n => JBig n | _ => JUndef
  end.
Definition bool_of (r : Fields) (name : string) : bool :=
  match value_of r name with VBool b => b | VRaw v => truthy v | _ => false end.
Definition text_of (r : Fields) (name : string) : string := js_String (raw_of r name).

(** [BigInt(text)], of a text field of a form. *)
Definition BigInt_text (s : string) : result Z := to_BigInt (JStr s).

(** ** The wallet *)

Record Wallet := { w_address : option string; w_connected : bool }.

(** [wallet.address], where [if (!wallet.address) return] comes first. *)
Definition text_or_none (s : option string) : option string :=
  match s with Some "" => None | _ => s end.
Definition address_of (w : Wallet) : option string := text_or_none (w_address w).

(** types.ts. *)
Definition parseStellarAddress (s : string) : result string :=
  if isStellarAddress s then Ok s else Throw (EError ("Invalid Stellar address: " +:+ s)).

(** ** A page

    Its React state, the toasts it has shown, and the network it talks to. *)
Inductive Toast := ToastSuccess (message : string) | ToastError (message : string).

(** [signError.message || 'Signing rejected.'], and [signError.message]. *)
Definition or_rejected (m : string) : string := if String.eqb m "" then "Signing rejected." else m.
Definition as_it_is (m : string) : string := m.

Section page.
Context {W : Type} (X : Chain W).
(** [freighter.signTransaction(xdr, { networkPassphrase, address })]: the signed
    transaction, and the message of an error if there is one. *)
Context (signTransaction : string → string → string → M W (string * option string)).
Context {P : Type}.

Record Page := { ui : P; toasts : list Toast; net : Submitting (W := W) }.

Definition on_net {A} (m : M (Submitting (W := W)) A) : M Page A := λ p,
  let '(r, n) := m (net p) in (r, {| ui := ui p; toasts := toasts p; net := n |}).
Definition on_rpc {A} (m : M (Rpc (W := W)) A) : M Page A := on_net (λ s,
  let '(r, rpc') := m (rpc s) in (r, {| rpc := rpc'; pendingTransactions := pendingTransactions s |})).
Definition on_world {A} (m : M W A) : M Page A := on_rpc (λ s,
  let '(r, w) := m (world s) in (r, {| pool := pool s; world := w |})).
Definition set_ui (f : P → P) : M Page unit := modify (λ p, {| ui := f (ui p); toasts := toasts p; net := net p |}).
Definition toast (t : Toast) : M Page unit := modify (λ p, {| ui := ui p; toasts := toasts p ++ [t]; net := net p |}).
Definition get_ui : M Page P := p ← get_state; mret (ui p).
Definition time_now : M Page Z := p ← get_state; mret (ch_now X (world (rpc (net p)))).

(** A [useEffect] whose run throws a rejection nobody waits for. *)
Definition ignore_errors (m : M Page unit) : M Page unit := try_catch m (λ _, mret tt).

(** [try { m } finally { f }]. *)
Definition finally {A} (m : M Page A) (f : P → P) : M Page A := λ p,
  let '(r, p') := m p in (r, {| ui := f (ui p'); toasts := toasts p'; net := net p' |}).

(** *** Signing and submitting *)

Definition quiet_progress (p : TransactionProgress) : M W unit := mret tt.

(** [submitTx(signedTxXdr)], with or without a listener. *)
Definition submit (onProgress : TransactionProgress → M W unit) (signedTxXdr : string) : M Page unit :=
  on_net (_ ← submitTx X signedTxXdr onProgress; mret tt).

Definition signAndSubmit (rejected : string → string) (submitter : string → M Page unit) (address xdr : string)
    : M Page unit :=
  '(signedTxXdr, signError) ← on_world (signTransaction xdr (ch_network X) address);
  match signError with
  | Some message => throw (EError (rejected message))
  | None => submitter signedTxXdr
  end.

(** *** The shape of the handlers

    [tx_done] is what follows a submission that returned, the toast included;
    [tx_failed] is what is done with the message of an error. *)
Record Transaction := {
  tx_busy : bool → P → P;
  tx_build : M Page string;
  tx_rejected : string → string;
  tx_submit : string → M Page unit;
  tx_done : M Page unit;
  tx_failed : string → M Page unit }.

Definition attempt_tx (address : string) (t : Transaction) : M Page unit :=
  xdr ← tx_build t;
  signAndSubmit (tx_rejected t) (tx_submit t) address xdr.

Definition transact (address : string) (t : Transaction) : M Page unit :=
  set_ui (tx_busy t true);;
  finally (try_catch (attempt_tx address t;; tx_done t) (λ e, tx_failed t (exn_message e))) (tx_busy t false).

(** [toast.error(e instanceof Error ? e.message : ..)]: every exception is an [Error]. *)
Definition report (message : string) : M Page unit := toast (ToastError message).

(** [p.catch(() => none)]. *)
Definition or_else {A} (none : A) (m : M Page A) : M Page A := try_catch m (λ _, mret none).

(** [Promise.allSettled]: a value, or nothing. *)
Definition settled {A} (m : M Page A) : M Page (option A) := or_else None (Some <$> m).

(** ** lib/simulateFee.ts *)

Record FeeEstimate := { minResourceFee : number; instructions : number; feeInXlm : number }.

(** [fee_of] reads [minResourceFee] and [result.instructions] of a simulation. *)
Definition simulateContractCall (fee_of : ch_ScVal X → number * number) (target : Target) (method : string)
    (args : list ScArg) (sourceAddress : string) : M (Rpc (W := W)) FeeEstimate :=
  rpcExecute X (λ u,
    account ← getAccount (ch_server X u) sourceAddress;
    tx ← lift_result (ch_build X account (ch_network X) target method args);
    sim ← simulateTransaction (ch_server X u) tx;
    match sim with
    | SimError error => throw (EError error)
    | SimSuccess v =>
        let '(fee, n) := fee_of v in
        mret {| minResourceFee := fee; instructions := n; feeInXlm := num_div fee (num_of_Z 10000000) |}
    end).

End page.
Arguments Page W P : clear implicits.
Arguments Transaction W P : clear implicits.

(** ** lib/store.ts: the transactions a user follows *)

(** [text] of the messages a page translates: [t(key, values)] of next-intl. *)
Definition Translate : Type := string → list (string * string) → string.

Record TrackedTransaction := {
  tt_hash : string; tt_status : string; tt_label : string; tt_error : option string; tt_timestamp : Z }.

Definition MAX_TRACKED : nat := 20.

Definition addTrackedTransaction (tx : TrackedTransaction) (l : list TrackedTransaction) : list TrackedTransaction :=
  firstn MAX_TRACKED (tx :: l).

Definition updateTrackedTransaction (hash status : string) (error : option string) (l : list TrackedTransaction)
    : list TrackedTransaction :=
  map (λ tx, if String.eqb (tt_hash tx) hash
             then {| tt_hash := tt_hash tx; tt_status := status; tt_label := tt_label tx; tt_error := error;
                     tt_timestamp := tt_timestamp tx |}
             else tx) l.

Definition removeTrackedTransaction (hash : string) (l : list TrackedTransaction) : list TrackedTransaction :=
  List.filter (λ tx, negb (String.eqb (tt_hash tx) hash)) l.

(** *** hooks/useTrackTransaction.ts *)

Definition progress_hash (p : TransactionProgress) : string :=
  match p with Pending h | Confirmed h | Failed h _ => h end.
Definition progress_status (p : TransactionProgress) : string :=
  match p with Pending _ => "pending" | Confirmed _ => "confirmed" | Failed _ _ => "failed" end.
Definition progress_error (p : TransactionProgress) : option string :=
  match p with Failed _ e => Some e | _ => None end.

(** The listener: its variable [hash] and the store, at the time [now]. *)
Definition track (label : string) (now : Z) (p : TransactionProgress) (st : string * list TrackedTransaction)
    : string * list TrackedTransaction :=
  let '(hash, l) := st in
  if String.eqb hash "" && negb (String.eqb (progress_hash p) "") then
    (progress_hash p, addTrackedTransaction {| tt_hash := progress_hash p; tt_status := progress_status p; tt_label := label;
                                               tt_error := progress_error p; tt_timestamp := now |} l)
  else if negb (String.eqb hash "") then (hash, updateTrackedTransaction hash (progress_status p) (progress_error p) l)
  else (hash, l).

(** [UseTrackTransaction(label)] is a hook: it calls [useStore] twice and
    [useCallback]. [hook] is what React makes of a call of a hook at that moment. *)
Definition UseTrackTransaction {A} (hook : result unit) (submitter : A) : result A :=
  _ ← hook; _ ← hook; _ ← hook; Ok submitter.

(** ** hooks/useTransactionSimulation.ts

    The state of the hook, and the run of its effect that is current: an effect that
    was cleaned up is cancelled, and its answer is not looked at. *)
Inductive SimulationStatus := idle | loading | success | error.
Record SimulationState := { ss_status : SimulationStatus; ss_fee : option FeeEstimate; ss_error : option string }.
Record Simulation := { si_state : SimulationState; si_run : nat; si_waiting : list nat }.

Definition set_status (st : SimulationStatus) (s : SimulationState) : SimulationState :=
  {| ss_status := st; ss_fee := ss_fee s; ss_error := ss_error s |}.

(** An effect, as [enabled] and as what [simulateFn()] came to; the microtask of a
    disabled effect; the answer to the simulation that effect number [run] started. *)
Inductive StartedSim := Nothing | Running | ThrewAtOnce (e : exn).
Inductive sim_event := Effect (enabled : bool) (fn : StartedSim) | Microtask (run : nat) | Answer (run : nat) (r : result FeeEstimate).

Definition simulation_step (e : sim_event) (s : Simulation) : Simulation :=
  match e with
  | Effect enabled fn =>
      let run := S (si_run s) in
      if negb enabled then {| si_state := si_state s; si_run := run; si_waiting := si_waiting s |}
      else
        let started := {| ss_status := loading; ss_fee := ss_fee (si_state s); ss_error := None |} in
        match fn with
        | Nothing => {| si_state := set_status idle started; si_run := run; si_waiting := si_waiting s |}
        | Running => {| si_state := started; si_run := run; si_waiting := run :: si_waiting s |}
        | ThrewAtOnce e => {| si_state := {| ss_status := error; ss_fee := ss_fee started; ss_error := Some (exn_message e) |};
                              si_run := run; si_waiting := si_waiting s |}
        end
  | Microtask run =>
      if (run =? si_run s)%nat
      then {| si_state := {| ss_status := idle; ss_fee := None; ss_error := None |}; si_run := si_run s; si_waiting := si_waiting s |}
      else s
  | Answer run r =>
      if (run =? si_run s)%nat then
        match r with
        | Ok fee => {| si_state := {| ss_status := success; ss_fee := Some fee; ss_error := ss_error (si_state s) |};
                       si_run := si_run s; si_waiting := List.filter (λ k, negb (k =? run)%nat) (si_waiting s) |}
        | Throw e => {| si_state := {| ss_status := error; ss_fee := ss_fee (si_state s); ss_error := Some (exn_message e) |};
                        si_run := si_run s; si_waiting := List.filter (λ k, negb (k =? run)%nat) (si_waiting s) |}
        end
      else {| si_state := si_state s; si_run := si_run s; si_waiting := List.filter (λ k, negb (k =? run)%nat) (si_waiting s) |}
  end.

(** * Proofs *)

(** ** What a record that was read holds *)

Lemma decode_raw fields raw r name source :
  decode fields raw = Ok r → find (λ f, String.eqb (f_name f) name) fields = Some (field name KRaw source) →
  get_prop raw source = Ok (raw_of r name).
Proof.
  unfold decode. revert r. induction fields as [|f fields IH]; intros r; cbn [mapM find]; [done|].
  destruct (decode_field raw f) as [[k x]|] eqn:E; cbn [mbind result_bind]; [|done].
  unfold decode_field in E. destruct (get_prop raw (f_source f)) as [v|] eqn:Ev; cbn [mbind result_bind] in E; [|done].
  destruct (read_kind (f_kind f) v) as [y|] eqn:Ex; cbn [mbind result_bind] in E; [|done]. injection E as <- <-.
  destruct (mapM _ fields) as [rest|]; cbn; [|done]. intros [= <-] Hf. unfold raw_of, value_of. cbn [find fst snd].
  destruct (String.eqb (f_name f) name).
  - injection Hf as ->. cbn in Ev, Ex. injection Ex as <-. done.
  - by apply IH.
Qed.

(** A union is an array, not the name of its case. *)
Lemma union_no_text fs cases fields raw r name source text :
  native (TStruct fs) raw = true → lookup_field fs source = Some (TUnion cases) →
  decode fields raw = Ok r → find (λ f, String.eqb (f_name f) name) fields = Some (field name KRaw source) →
  is_str (raw_of r name) text = false.
Proof.
  intros Hn Hl Hd Hf. pose proof (decode_raw _ _ _ _ _ Hd Hf) as Hr. destruct (native_struct _ _ Hn) as [o ->].
  pose proof (native_lookup _ _ _ _ Hn Hl) as Hu. injection Hr as <-. by destruct (obj_get o source).
Qed.

(** ** What a page leaves true

    [I]: a fact about what is outside the page, its servers and the user's wallet. *)
Section keeping.
Context {W : Type} (X : Chain W) (I : W → Prop).

Definition rpc_keeps {A} (m : M (Rpc (W := W)) A) : Prop := keeps (λ s, I (world s)) m.
Definition net_keeps {A} (m : M (Submitting (W := W)) A) : Prop := keeps (λ s, I (world (rpc s))) m.
Definition page_keeps {P A} (m : M (Page W P) A) : Prop := keeps (λ p, I (world (rpc (net p)))) m.

(** Reading from the servers and waiting leaves [I] true. *)
Record reads_keep : Prop := {
  rk_account : ∀ u a, keeps I (getAccount (ch_server X u) a);
  rk_simulate : ∀ u tx, keeps I (simulateTransaction (ch_server X u) tx);
  rk_status : ∀ u hash, keeps I (getTransaction (ch_server X u) hash);
  rk_sleep : ∀ ms, keeps I (ch_sleep X ms) }.
Context (HR : reads_keep).

Lemma lift_world_keeps {A} (m : M W A) : keeps I m → rpc_keeps (lift_world m).
Proof.
  intros Hm s Hs. specialize (Hm _ Hs). unfold lift_world. destruct (m (world s)) as [[a|e] w']; exact Hm.
Qed.

Lemma race_keeps {A} (m : M W A) : keeps I m → keeps I (race (ch_now X) m).
Proof.
  intros Hm w Hw. specialize (Hm w Hw). unfold race. destruct (m w) as [[a|e] w']; by destruct (_ <? _).
Qed.

Lemma on_pool_keeps f : rpc_keeps (on_pool f).
Proof. by intros s Hs. Qed.

Lemma get_connection_keeps : rpc_keeps (get_connection (ch_now X)).
Proof. by intros s Hs. Qed.

Lemma read_object_keeps c : rpc_keeps (read_object c).
Proof. by intros s Hs. Qed.

Lemma attempt_keeps {A} (fn : string → M W A) : (∀ u, keeps I (fn u)) → rpc_keeps (attempt (ch_now X) fn).
Proof.
  intros Hfn. unfold attempt, rpc_keeps.
  apply keeps_bind; [apply get_connection_keeps|intros conn].
  apply keeps_bind; [apply on_pool_keeps|intros _].
  apply keeps_try_catch; [|intros err].
  - apply keeps_bind; [apply read_object_keeps|intros c].
    apply keeps_bind; [apply lift_world_keeps, race_keeps, Hfn|intros r].
    apply keeps_bind; [apply on_pool_keeps|intros _; apply keeps_ret].
  - repeat (apply keeps_bind; [apply on_pool_keeps|intros _]). apply keeps_throw.
Qed.

Lemma attempts_keeps {A} (fn : string → M W A) left n e :
  (∀ u, keeps I (fn u)) → rpc_keeps (attempts (ch_now X) (ch_sleep X) left n e fn).
Proof.
  intros Hfn. revert n e. induction left as [|left IH]; intros n e; cbn [attempts]; [apply keeps_throw|].
  apply keeps_try_catch; [by apply attempt_keeps|intros err].
  apply keeps_bind; [|intros _; apply IH].
  case_match; [apply lift_world_keeps, (rk_sleep HR)|apply keeps_ret].
Qed.

Lemma rpcExecute_keeps {A} (fn : string → M W A) : (∀ u, keeps I (fn u)) → rpc_keeps (rpcExecute X fn).
Proof. apply attempts_keeps. Qed.

Lemma simulateTx_keeps target method args source : rpc_keeps (simulateTx X target method args source).
Proof.
  apply rpcExecute_keeps. intros u. unfold simulate_on.
  apply keeps_bind; [apply (rk_account HR)|intros account].
  apply keeps_bind; [apply keeps_lift|intros tx]. apply (rk_simulate HR).
Qed.

#[local] Transparent read query query_or prepare build.

Lemma read_keeps target method args source : rpc_keeps (read X target method args source).
Proof. apply keeps_bind; [apply simulateTx_keeps|intros sim; apply keeps_lift]. Qed.

Lemma query_keeps {A} target method args source (dec : jsval → result A) :
  rpc_keeps (query X target method args source dec).
Proof. apply keeps_bind; [apply read_keeps|intros raw; apply keeps_lift]. Qed.

Lemma query_or_keeps {A} none target method args source (dec : jsval → result A) :
  rpc_keeps (query_or X none target method args source dec).
Proof.
  apply keeps_bind; [apply simulateTx_keeps|intros sim]. case_match; [apply keeps_ret|apply keeps_lift].
Qed.

Lemma prepare_keeps failed guard source target method args :
  rpc_keeps (prepare X failed guard source target method args).
Proof.
  unfold prepare, getRpcAccount, simulateRpcTransaction, rpc_keeps.
  apply keeps_bind; [apply rpcExecute_keeps; intros u; apply (rk_account HR)|intros account].
  apply keeps_bind; [apply keeps_lift|intros _]. apply keeps_bind; [apply keeps_lift|intros tx].
  apply keeps_bind; [apply rpcExecute_keeps; intros u; apply (rk_simulate HR)|intros sim].
  case_match; [apply keeps_throw|apply keeps_lift].
Qed.

Lemma build_keeps source target method args : rpc_keeps (build X source target method args).
Proof. apply prepare_keeps. Qed.

Lemma when_deployed_keeps {A} c (none : A) m : rpc_keeps m → rpc_keeps (when_deployed X c none m).
Proof. intros Hm. unfold when_deployed. case_match; [apply keeps_ret|exact Hm]. Qed.

Lemma rpc_or_else_keeps {A} (none : A) m : rpc_keeps m → rpc_keeps (WebAbi.or_else none m).
Proof. intros Hm. by apply keeps_try_catch; [|intros e; apply keeps_ret]. Qed.

(** *** Submitting *)

Lemma poll_keeps onProgress u hash left status :
  (∀ p, keeps I (onProgress p)) → keeps I (poll X onProgress u hash left status).
Proof.
  intros Hp. revert status. induction left as [|left IH]; intros status; cbn [poll]; case_match; try apply keeps_ret.
  apply keeps_bind; [apply Hp|intros _]. apply keeps_bind; [apply (rk_sleep HR)|intros _].
  apply keeps_bind; [apply (rk_status HR)|intros status']. apply IH.
Qed.

Lemma send_and_wait_keeps onProgress tx u :
  (∀ p, keeps I (onProgress p)) → (∀ u, keeps I (sendTransaction (ch_server X u) tx)) →
  keeps I (send_and_wait X onProgress tx u).
Proof.
  intros Hp Hs. assert (∀ h e, keeps I (fail_with onProgress h e)) as Hfail.
  { intros h e. apply keeps_bind; [apply Hp|intros _; apply keeps_throw]. }
  unfold send_and_wait. apply keeps_bind; [apply Hs|intros response]. case_match.
  - apply keeps_bind; [apply keeps_lift|intros json; apply Hfail].
  - apply keeps_bind; [apply Hp|intros _]. apply keeps_bind; [apply (rk_status HR)|intros status].
    apply keeps_bind; [by apply poll_keeps|intros status']. case_match; [apply Hfail|]. case_match; [apply Hfail|].
    apply keeps_bind; [apply Hp|intros _; apply keeps_ret].
Qed.

Lemma submitTx_keeps signedXDR onProgress :
  (∀ p, keeps I (onProgress p)) →
  (∀ tx u, ch_fromXDR X signedXDR (ch_network X) = Ok tx → keeps I (sendTransaction (ch_server X u) tx)) →
  net_keeps (submitTx X signedXDR onProgress).
Proof.
  intros Hp Hs s HI. unfold submitTx. destruct (ch_fromXDR X signedXDR (ch_network X)) as [tx|e] eqn:E; [|exact HI].
  case_bool_decide; [exact HI|].
  assert (rpc_keeps (rpcExecute X (send_and_wait X onProgress tx))) as H'.
  { apply rpcExecute_keeps. intros u. apply send_and_wait_keeps; auto. }
  specialize (H' (rpc s) HI). destruct (rpcExecute X (send_and_wait X onProgress tx) (rpc s)) as [[a|e] r]; exact H'.
Qed.

(** *** On a page *)

Context {P : Type}.

Lemma on_net_keeps {A} (m : M (Submitting (W := W)) A) : net_keeps m → page_keeps (P := P) (on_net m).
Proof. intros Hm p Hp. specialize (Hm _ Hp). unfold on_net. destruct (m (net p)) as [[a|e] n]; exact Hm. Qed.

Lemma on_rpc_keeps {A} (m : M (Rpc (W := W)) A) : rpc_keeps m → page_keeps (P := P) (on_rpc m).
Proof.
  intros Hm. apply on_net_keeps. intros s Hs. specialize (Hm _ Hs). destruct (m (rpc s)) as [[a|e] r]; exact Hm.
Qed.

Lemma page_world_keeps {A} (m : M W A) : keeps I m → page_keeps (P := P) (on_world m).
Proof.
  intros Hm. apply on_rpc_keeps. intros s Hs. specialize (Hm _ Hs). destruct (m (world s)) as [[a|e] w]; exact Hm.
Qed.

Lemma set_ui_keeps (f : P → P) : page_keeps (set_ui f).
Proof. by intros p Hp. Qed.
Lemma toast_keeps t : page_keeps (P := P) (toast t).
Proof. by intros p Hp. Qed.
Lemma get_ui_keeps : page_keeps (P := P) get_ui.
Proof. by intros p Hp. Qed.
Lemma time_now_keeps : page_keeps (P := P) (time_now X).
Proof. by intros p Hp. Qed.
Lemma or_else_keeps {A} (none : A) (m : M (Page W P) A) : page_keeps m → page_keeps (or_else none m).
Proof. intros Hm. by apply keeps_try_catch; [|intros e; apply keeps_ret]. Qed.
Lemma finally_keeps {A} (m : M (Page W P) A) f : page_keeps m → page_keeps (finally m f).
Proof. intros Hm p Hp. specialize (Hm p Hp). unfold finally. destruct (m p) as [[a|e] p']; exact Hm. Qed.
Lemma settled_keeps {A} (m : M (Page W P) A) : page_keeps m → page_keeps (settled m).
Proof. intros Hm. apply or_else_keeps. apply keeps_bind; [exact Hm|intros a; apply keeps_ret]. Qed.

End keeping.

(** ** The rule of the handlers

    [signed xdr w]: the wallet has returned [xdr] without an error. [I] may speak of
    what was signed: a page that submits what the wallet signed leaves it true. *)
Section wallet.
Context {W : Type} (X : Chain W).
Context (signTransaction : string → string → string → M W (string * option string)).
Context (I : W → Prop) (signed : string → W → Prop) (me : string).

Definition ok_and_signed (xdr : string) (w : W) : Prop := I w ∧ signed xdr w.

Record honest_wallet : Prop := {
  hw_reads : reads_keep X I;
  hw_reads_signed : ∀ xdr, reads_keep X (ok_and_signed xdr);
  hw_sign : ∀ xdr, triple I (signTransaction xdr (ch_network X) me)
              (λ answer w, I w ∧ (answer.2 = None → signed answer.1 w)) I;
  hw_send : ∀ xdr tx u, ch_fromXDR X xdr (ch_network X) = Ok tx →
              keeps (ok_and_signed xdr) (sendTransaction (ch_server X u) tx) }.
Context (HW : honest_wallet).
Context {P : Type}.

(** A way of submitting that sends nothing but what it is given. *)
Definition submits (submitter : string → M (Page W P) unit) : Prop :=
  ∀ xdr, page_keeps (ok_and_signed xdr) (submitter xdr).

Lemma submit_submits onProgress :
  (∀ xdr p, keeps (ok_and_signed xdr) (onProgress p)) → submits (submit X onProgress).
Proof.
  intros Hp xdr. unfold submit. apply on_net_keeps.
  apply keeps_bind; [|intros _; apply keeps_ret].
  apply submitTx_keeps; [apply (hw_reads_signed HW)|apply Hp|]. intros tx u. apply (hw_send HW).
Qed.

Lemma quiet_submits : submits (submit X quiet_progress).
Proof. apply submit_submits. intros xdr p. apply keeps_ret. Qed.

Lemma sign_page xdr :
  triple (λ p : Page W P, I (world (rpc (net p)))) (on_world (signTransaction xdr (ch_network X) me))
    (λ answer p, I (world (rpc (net p))) ∧ (answer.2 = None → signed answer.1 (world (rpc (net p)))))
    (λ p, I (world (rpc (net p)))).
Proof.
  intros p Hp. pose proof (hw_sign HW xdr _ Hp) as H. unfold on_world, on_rpc, on_net. cbn.
  destruct (signTransaction xdr (ch_network X) me (world (rpc (net p)))) as [[a|e] w]; exact H.
Qed.

Lemma signAndSubmit_keeps rejected submitter xdr :
  submits submitter → page_keeps I (signAndSubmit X signTransaction rejected submitter me xdr).
Proof.
  intros Hs. unfold signAndSubmit. eapply triple_bind; [apply sign_page|]. intros [xdr' [message|]]; cbn [snd fst].
  - by intros p [Hp _].
  - intros p [Hp Hsg]. specialize (Hs xdr' p (conj Hp (Hsg eq_refl))). destruct (submitter xdr' p) as [[a|e] p'];
      unfold ok_and_signed in Hs; by destruct Hs.
Qed.

Lemma transact_keeps (t : Transaction W P) :
  page_keeps I (tx_build t) → submits (tx_submit t) → page_keeps I (tx_done t) →
  (∀ message, page_keeps I (tx_failed t message)) →
  page_keeps I (transact X signTransaction me t).
Proof.
  intros Hb Hs Hd Hf. unfold transact, attempt_tx.
  apply keeps_bind; [apply set_ui_keeps|intros _]. apply finally_keeps.
  apply keeps_try_catch; [|intros e; apply Hf].
  apply keeps_bind; [|intros _; exact Hd]. apply keeps_bind; [exact Hb|intros xdr; by apply signAndSubmit_keeps].
Qed.

End wallet.

(** ** Pages that never get to submit

    [I] is left true by the reads and by the wallet; nothing is assumed of sending. *)
Section quiet.
Context {W : Type} (X : Chain W).
Context (signTransaction : string → string → string → M W (string * option string)).
Context (I : W → Prop) (me : string).

Record quiet_wallet : Prop := {
  qw_reads : reads_keep X I;
  qw_sign : ∀ xdr, keeps I (signTransaction xdr (ch_network X) me) }.
Context (HQ : quiet_wallet).
Context {P : Type}.

Lemma transact_quiet (t : Transaction W P) :
  page_keeps I (tx_build t) → (∀ xdr, page_keeps I (tx_submit t xdr)) → page_keeps I (tx_done t) →
  (∀ message, page_keeps I (tx_failed t message)) →
  page_keeps I (transact X signTransaction me t).
Proof.
  intros Hb Hs Hd Hf. unfold transact, attempt_tx, signAndSubmit.
  apply keeps_bind; [apply set_ui_keeps|intros _]. apply finally_keeps.
  apply keeps_try_catch; [|intros e; apply Hf].
  apply keeps_bind; [|intros _; exact Hd]. apply keeps_bind; [exact Hb|intros xdr].
  apply keeps_bind; [apply page_world_keeps, (qw_sign HQ)|intros [xdr' [message|]]]; [apply keeps_throw|apply Hs].
Qed.

End quiet.

(** ** What a handler shows

    Whatever happens, the page is not left busy, and a transaction that failed is
    reported. *)
Section shown.
Context {W : Type} (X : Chain W).
Context (signTransaction : string → string → string → M W (string * option string)).
Context {P : Type}.

Lemma transact_ends address (t : Transaction W P) p :
  ∃ p', (transact X signTransaction address t p).2
        = {| ui := tx_busy t false (ui p'); toasts := toasts p'; net := net p' |}.
Proof.
  unfold transact, finally. unfold mbind at 1, M_bind at 1. cbn [set_ui modify].
  destruct (try_catch _ _ _) as [r p']. by exists p'.
Qed.

(** An error of a builder, the wallet, the network or what follows is reported. *)
Lemma transact_reports address (t : Transaction W P) p e p' :
  (attempt_tx X signTransaction address t ≫= λ _, tx_done t)
    {| ui := tx_busy t true (ui p); toasts := toasts p; net := net p |} = (Throw e, p') →
  transact X signTransaction address t p = finally (tx_failed t (exn_message e)) (tx_busy t false) p'.
Proof.
  intros E. unfold transact, finally. unfold mbind at 1, M_bind at 1. cbn [set_ui modify].
  unfold try_catch. by rewrite E.
Qed.

End shown.

Ltac head_of t := match t with ?f _ => head_of f | _ => t end.

(** ** What a page keeps of its own state

    [ui_keeps K m]: [m] leaves [K] true of the state of the page. What happens on the
    network does not touch it. *)
Section own.
Context {W P : Type} (X : Chain W) (K : P → Prop).

Definition ui_keeps {A} (m : M (Page W P) A) : Prop := keeps (λ p, K (ui p)) m.

Lemma on_net_ui {A} (m : M (Submitting (W := W)) A) : ui_keeps (on_net m).
Proof. intros p Hp. unfold on_net. destruct (m (net p)) as [[a|e] n]; exact Hp. Qed.
Lemma set_ui_ui f : (∀ u, K u → K (f u)) → ui_keeps (set_ui f).
Proof. intros Hf p Hp. by apply Hf. Qed.
Lemma toast_ui t : ui_keeps (toast t).
Proof. by intros p Hp. Qed.
Lemma get_ui_ui : ui_keeps get_ui.
Proof. by intros p Hp. Qed.
Lemma time_now_ui : ui_keeps (time_now X).
Proof. by intros p Hp. Qed.

Lemma finally_triple {A} Pre (m : M (Page W P) A) f :
  (∀ u, K u → K (f u)) → triple Pre m (λ _ p, K (ui p)) (λ p, K (ui p)) →
  triple Pre (finally m f) (λ _ p, K (ui p)) (λ p, K (ui p)).
Proof.
  intros Hf Hm p Hp. specialize (Hm p Hp). unfold finally. destruct (m p) as [[a|e] p']; by apply Hf.
Qed.
End own.

(** Walks through code that touches no more of the page's state than [f] allows:
    the updates are left. *)
Ltac ui_one :=
  lazymatch goal with
  | |- ui_keeps _ _ => unfold ui_keeps
  | |- keeps _ (mret _) => apply keeps_ret
  | |- keeps _ (throw _) => apply keeps_throw
  | |- keeps _ (lift_result _) => apply keeps_lift
  | |- keeps _ (_ ≫= _) => apply keeps_bind; [|intros ?]
  | |- keeps _ (try_catch _ _) => apply keeps_try_catch; [|intros ?]
  | |- keeps _ (mapM _ _) => apply mapM_keeps; intros ?
  | |- keeps _ (on_net _) => apply on_net_ui
  | |- keeps _ (on_rpc _) => apply on_net_ui
  | |- keeps _ (on_world _) => apply on_net_ui
  | |- keeps _ (submit _ _ _) => apply on_net_ui
  | |- keeps _ (set_ui _) => apply set_ui_ui; intros ? ?
  | |- keeps _ (toast _) => apply toast_ui
  | |- keeps _ get_ui => apply get_ui_ui
  | |- keeps _ (time_now _) => apply time_now_ui
  | |- keeps _ (match ?x with _ => _ end) => destruct x
  | |- keeps _ ?m => let h := head_of m in unfold h
  end.
Ltac keep_ui := repeat (ui_one; cbn beta); auto.

(** ** Automation

    [keep_page] walks through the code of a handler and leaves what is not known to
    leave [I] true: the operations of the page it has not been told of. *)
Create HintDb page_keep discriminated.


Ltac reads_known := first [eassumption | eapply hw_reads; eassumption | eapply qw_reads; eassumption].

Ltac keep_one :=
  lazymatch goal with
  | |- page_keeps _ _ => first [solve [auto with page_keep nocore] | unfold page_keeps]
  | |- rpc_keeps _ _ => first [solve [auto with page_keep nocore] | unfold rpc_keeps]
  | |- keeps _ (mret _) => apply keeps_ret
  | |- keeps _ (throw _) => apply keeps_throw
  | |- keeps _ (lift_result _) => apply keeps_lift
  | |- keeps _ (_ ≫= _) => apply keeps_bind; [|intros ?]
  | |- keeps _ (_ <$> _) => unfold fmap, M_fmap
  | |- keeps _ (try_catch _ _) => apply keeps_try_catch; [|intros ?]
  | |- keeps _ (mapM _ _) => apply mapM_keeps; intros ?
  | |- keeps _ (for_each _ _) => apply for_each_keeps; intros ?
  | |- keeps _ (finally _ _) => apply finally_keeps
  | |- keeps _ (set_ui _) => apply set_ui_keeps
  | |- keeps _ (toast _) => apply toast_keeps
  | |- keeps _ get_ui => apply get_ui_keeps
  | |- keeps _ (time_now _) => apply time_now_keeps
  | |- keeps _ (on_rpc _) => apply on_rpc_keeps
  | |- keeps _ (on_world _) => apply page_world_keeps
  | |- keeps _ (query _ _ _ _ _ _) => eapply query_keeps; reads_known
  | |- keeps _ (query_or _ _ _ _ _ _ _) => eapply query_or_keeps; reads_known
  | |- keeps _ (prepare _ _ _ _ _ _ _) => eapply prepare_keeps; reads_known
  | |- keeps _ (build _ _ _ _ _) => eapply build_keeps; reads_known
  | |- keeps _ (read _ _ _ _ _) => eapply read_keeps; reads_known
  | |- keeps _ (rpcExecute _ _) => eapply rpcExecute_keeps; [reads_known|intros ?]
  | |- keeps _ (transact _ _ _ ?t) => let t' := eval hnf in t in change t with t';
      first [eapply transact_keeps; [eassumption|..] | eapply transact_quiet; [eassumption|..]];
      cbn [tx_build tx_submit tx_done tx_failed]; [|lazymatch goal with |- submits _ _ _ => idtac | _ => intros ? end| |intros ?]
  | |- submits _ _ _ => first [solve [auto with page_keep nocore] | eapply quiet_submits; eassumption]
  | |- keeps _ (getAccount _ _) => eapply rk_account; reads_known
  | |- keeps _ (simulateTransaction _ _) => eapply rk_simulate; reads_known
  | |- keeps _ (ch_sleep _ _) => eapply rk_sleep; reads_known
  | |- keeps _ (match ?x with _ => _ end) => destruct x
  | |- keeps (λ p, ?J (world (rpc (net p)))) ?m =>
      first [change (page_keeps J m); solve [auto with page_keep nocore] | let h := head_of m in unfold h]
  | |- keeps _ ?m => let h := head_of m in unfold h
  end.
Ltac keep_page := repeat (keep_one; cbn beta); try eassumption; auto.
