(* ===== verification/InvoicePage.v ===== *)
(** * app/invoice/[id]/page.tsx: the page of one invoice

    What the page loads about an invoice, what it computes of it, and its actions:
    repaying, posting collateral, disputing before and after a default, submitting
    evidence, sharing, hiding, and committing funds. *)
From S2P Require Import Prelude.
From S2P Require Import JsValue.
From S2P Require Import JsNumber.
From S2P Require Import JsArith.
From S2P Require Import Sdk.
From S2P Require Import Abi.
From S2P Require Import ContractAbi.
From S2P Require Import RpcPool.
From S2P Require Import Stellar.
From S2P Require Import Amounts.
From S2P Require Import WebAbi.
From S2P Require Import WebInvoice.
From S2P Require Import WebPool.
From S2P Require Import WebMarket.
From S2P Require Import WebContracts.
From S2P Require Import Apy.
From S2P Require Import WebHistory.
From S2P Require Import PageTx.
From Stdlib Require Import Ascii SpecFloat.
#[local] Open Scope string_scope.
#[local] Open Scope list_scope.
#[local] Open Scope Z_scope.

(** ** The history of the invoice *)

Inductive InvoiceEventKind := created | funded | paid | defaulted | repaid.

#[export] Instance InvoiceEventKind_eq_dec : EqDecision InvoiceEventKind.
Proof. solve_decision. Defined.

Record InvoiceEvent := {
  ie_kind : InvoiceEventKind; ie_label : string; ie_detail : string; ie_txHash : string; ie_ledger : Z;
  ie_timestamp : string }.

Section history.
Context {R : Type} (scValToNative : R → result jsval) (INVOICE_CONTRACT_ID POOL_CONTRACT_ID : string).
Context (formatUSDC : Z → string).

Definition invoice_event (e : RawEvent (R := R)) (kind : InvoiceEventKind) (label detail : string) : InvoiceEvent := {|
  ie_kind := kind; ie_label := label; ie_detail := detail; ie_txHash := default "" (re_txHash e);
  ie_ledger := default 0 (re_ledger e); ie_timestamp := default "" (re_ledgerClosedAt e) |}.

Definition created_detail (owner amount : jsval) : result string :=
  n ← (if truthy amount then Some <$> to_BigInt (JStr (js_String amount)) else Ok None);
  Ok ((if truthy owner then js_String owner +:+ " created the invoice" else "Invoice created")
      +:+ match n with Some n => " for " +:+ formatUSDC n | None => "" end).

(** [Number(v) === invoiceId]. *)
Definition is_number (v : jsval) (n : number) : bool := num_eqb (js_Number v) n.

(** What an event adds, of the topics and the value it has. *)
Definition of_invoice_contract (invoiceId : number) (e : RawEvent) (action value : jsval) : result (list InvoiceEvent) :=
  if is_str action "created" then
    if negb (is_number (part value 0) invoiceId) then Ok []
    else detail ← created_detail (part value 1) (part value 2);
         Ok [invoice_event e created "Invoice created" detail]
  else if is_str action "funded" && is_number value invoiceId then
    Ok [invoice_event e funded "Invoice funded" "Pool funded this invoice."]
  else if is_str action "paid" && is_number value invoiceId then
    Ok [invoice_event e paid "Invoice repaid" "SME repaid the invoice."]
  else if is_str action "default" && is_number value invoiceId then
    Ok [invoice_event e defaulted "Invoice defaulted" "Grace period expired before repayment."]
  else Ok [].

Definition of_pool_contract (invoiceId : number) (e : RawEvent) (action value : jsval) : list InvoiceEvent :=
  if is_str action "funded" then
    if is_number (part value 0) invoiceId
    then [invoice_event e funded "Pool funded invoice" "Funding moved from the pool to the SME."] else []
  else if is_str action "repaid" then
    if is_number (part value 0) invoiceId
    then [invoice_event e repaid "Pool received repayment" "Repayment was recorded by the pool contract."] else []
  else [].

(** One turn of the loop: [continue], or what is pushed. An event that is of the
    invoice contract goes on to the test for the pool's. *)
Definition history_of_event (invoiceId : number) (e : RawEvent) : result (list InvoiceEvent) :=
  match two_topics e with
  | None => Ok []
  | Some (t0, t1) =>
      namespace ← scValToNative t0;
      action ← scValToNative t1;
      value ← scValToNative (re_value e);
      first ← (if String.eqb (contract_of e) INVOICE_CONTRACT_ID && is_str namespace "invoice"
               then of_invoice_contract invoiceId e action value else Ok []);
      Ok (first ++ (if String.eqb (contract_of e) POOL_CONTRACT_ID && is_str namespace "pool"
                    then of_pool_contract invoiceId e action value else []))
  end.

Definition newest_event (e : InvoiceEvent) : Z := - ie_ledger e.

Definition parseInvoiceHistory (rawEvents : list RawEvent) (invoiceId : number) : result (list InvoiceEvent) :=
  l ← mapM (history_of_event invoiceId) rawEvents; Ok (sort_by newest_event (concat l)).

End history.

(** ** The state of the page *)

Record InvoiceView := {
  iv_invoice : option jsval; iv_metadata : option Fields; iv_poolConfig : option Fields;
  iv_fundedInvoice : option Fields; iv_history : list InvoiceEvent; iv_loading : bool; iv_error : option string;
  iv_historyLoading : bool; iv_historyError : option string; iv_actionLoading : bool; iv_repayAmount : string;
  iv_disputeModalOpen : bool; iv_disputeReason : string;
  iv_defaultDisputeModalOpen : bool; iv_defaultDisputeEvidence : string; iv_defaultDisputeRespondent : string;
  iv_disputeRecord : option Fields; iv_arbitrationCase : option Fields; iv_arbitrationEvidence : list Fields;
  iv_newEvidenceHash : string;
  iv_collateralConfig : option Fields; iv_collateralDeposit : option Fields; iv_liveCollateralRatioBps : option number;
  iv_collateralRiskConfig : option Fields; iv_atRiskSince : option number; iv_collateralAmount : string;
  iv_collateralLoading : bool; iv_collateralModalOpen : bool; iv_acceptedTokens : list jsval;
  iv_collateralToken : string; iv_crossAssetRequiredAmount : option Z; iv_crossAssetPriceLoading : bool;
  iv_isPrivate : bool; iv_privacyLoading : bool; iv_creditScore : option Fields; iv_coFundingRound : option Fields;
  iv_commitAmount : string; iv_commitLoading : bool }.

#[export] Instance eta_InvoiceView : Eta InvoiceView := λ v, {|
  iv_invoice := iv_invoice v; iv_metadata := iv_metadata v; iv_poolConfig := iv_poolConfig v;
  iv_fundedInvoice := iv_fundedInvoice v; iv_history := iv_history v; iv_loading := iv_loading v;
  iv_error := iv_error v; iv_historyLoading := iv_historyLoading v; iv_historyError := iv_historyError v;
  iv_actionLoading := iv_actionLoading v; iv_repayAmount := iv_repayAmount v;
  iv_disputeModalOpen := iv_disputeModalOpen v; iv_disputeReason := iv_disputeReason v;
  iv_defaultDisputeModalOpen := iv_defaultDisputeModalOpen v;
  iv_defaultDisputeEvidence := iv_defaultDisputeEvidence v;
  iv_defaultDisputeRespondent := iv_defaultDisputeRespondent v; iv_disputeRecord := iv_disputeRecord v;
  iv_arbitrationCase := iv_arbitrationCase v; iv_arbitrationEvidence := iv_arbitrationEvidence v;
  iv_newEvidenceHash := iv_newEvidenceHash v; iv_collateralConfig := iv_collateralConfig v;
  iv_collateralDeposit := iv_collateralDeposit v; iv_liveCollateralRatioBps := iv_liveCollateralRatioBps v;
  iv_collateralRiskConfig := iv_collateralRiskConfig v; iv_atRiskSince := iv_atRiskSince v;
  iv_collateralAmount := iv_collateralAmount v; iv_collateralLoading := iv_collateralLoading v;
  iv_collateralModalOpen := iv_collateralModalOpen v; iv_acceptedTokens := iv_acceptedTokens v;
  iv_collateralToken := iv_collateralToken v; iv_crossAssetRequiredAmount := iv_crossAssetRequiredAmount v;
  iv_crossAssetPriceLoading := iv_crossAssetPriceLoading v; iv_isPrivate := iv_isPrivate v;
  iv_privacyLoading := iv_privacyLoading v; iv_creditScore := iv_creditScore v;
  iv_coFundingRound := iv_coFundingRound v; iv_commitAmount := iv_commitAmount v;
  iv_commitLoading := iv_commitLoading v |}.

(** ** What is computed of it *)

Definition requiredCollateralAmount (v : InvoiceView) : result (option Z) :=
  match iv_collateralConfig v, iv_metadata v with
  | Some config, Some meta =>
      bps ← bigint_of_number (num_of config "collateralBps");
      Ok (Some (Z.quot (big_of meta "amount" * bps) 10000))
  | _, _ => Ok None
  end.

(** [Boolean(x && wallet.connected && wallet.address === x.k)]. *)
Definition is_wallet_of (wallet : Wallet) (v : jsval) : bool :=
  w_connected wallet && match w_address wallet with Some a => is_str v a | None => false end.

Definition isOwner (wallet : Wallet) (v : InvoiceView) : bool :=
  match iv_invoice v with Some inv => is_wallet_of wallet (get_prop_opt inv "owner") | None => false end.
Definition isAdmin (wallet : Wallet) (v : InvoiceView) : bool :=
  match iv_poolConfig v with Some config => is_wallet_of wallet (raw_of config "admin") | None => false end.
Definition canViewInvoice (wallet : Wallet) (v : InvoiceView) : bool := negb (iv_isPrivate v) || isOwner wallet v.

Record TransactionStep := { st_label : string; st_done : bool; st_ts : jsval }.

Definition statusSteps (v : InvoiceView) : list TransactionStep :=
  match iv_invoice v with
  | None => []
  | Some inv =>
      let status := get_prop_opt inv "status" in
      [{| st_label := "Created"; st_done := true; st_ts := get_prop_opt inv "createdAt" |};
       {| st_label := "Funded"; st_done := num_ltb (num_of_Z 0) (js_Number (get_prop_opt inv "fundedAt"));
          st_ts := get_prop_opt inv "fundedAt" |};
       {| st_label := if is_str status "Defaulted" then "Defaulted" else "Paid";
          st_done := is_str status "Paid" || is_str status "Defaulted"; st_ts := get_prop_opt inv "paidAt" |}]
  end.

Definition SECONDS_A_DAY : number := num_of_Z 86400.
Definition Math_ceil (x : number) : number := num_opp (Math_floor (num_opp x)).

(** [now] is [Date.now()], in milliseconds. *)
Definition seconds_of (now : Z) : number := num_div (num_of_Z now) (num_of_Z 1000).

Definition interest_over (days : Fields → number) (v : InvoiceView) : result Z :=
  match iv_fundedInvoice v, iv_poolConfig v with
  | Some f, Some config =>
      projectedInterestStroops (big_of f "principal") (num_of config "yieldBps") (Math_max (num_of_Z 0) (days f))
  | _, _ => Ok 0
  end.

Definition projectedInterest (v : InvoiceView) : result Z :=
  interest_over (λ f, Math_ceil (num_div (num_sub (num_of f "dueDate") (num_of f "fundedAt")) SECONDS_A_DAY)) v.
Definition accruedInterest (now : Z) (v : InvoiceView) : result Z :=
  interest_over (λ f, Math_floor (num_div (num_sub (seconds_of now) (num_of f "fundedAt")) SECONDS_A_DAY)) v.

Definition interestProgress (now : Z) (v : InvoiceView) : number :=
  match iv_fundedInvoice v, iv_metadata v with
  | Some f, Some _ =>
      let due := num_of f "dueDate" in
      let since := num_of f "fundedAt" in
      if num_ltb since due then
        Math_min (num_of_Z 100) (Math_max (num_of_Z 0)
          (num_mul (num_div (num_sub (seconds_of now) since) (num_sub due since)) (num_of_Z 100)))
      else num_of_Z 0
  | _, _ => num_of_Z 0
  end.

Definition remainingDue (v : InvoiceView) : result Z :=
  match iv_fundedInvoice v, iv_poolConfig v with
  | Some f, Some _ =>
      interest ← projectedInterest v;
      Ok (big_of f "principal" + interest + big_of f "factoringFee" - big_of f "repaidAmount")
  | _, _ => Ok 0
  end.
Definition fullyRepaid (v : InvoiceView) : result bool := due ← remainingDue v; Ok (due <=? 0).

(** *** What is shown *)

Definition metadata_is (v : InvoiceView) (statuses : list string) : bool :=
  match iv_metadata v with Some m => existsb (is_str (raw_of m "status")) statuses | None => false end.

Definition shows_repay (wallet : Wallet) (v : InvoiceView) : result bool :=
  paid ← fullyRepaid v;
  Ok (isOwner wallet v && metadata_is v ["Funded"] && bool_decide (is_Some (iv_fundedInvoice v)) && negb paid).
Definition shows_dispute (wallet : Wallet) (v : InvoiceView) : bool :=
  isOwner wallet v && metadata_is v ["Verified"; "Funded"; "AwaitingVerification"].
Definition shows_default_dispute (wallet : Wallet) (v : InvoiceView) : bool :=
  isOwner wallet v && metadata_is v ["Defaulted"].
Definition case_is (v : InvoiceView) (status : string) : bool :=
  match iv_arbitrationCase v with Some c => is_str (raw_of c "status") status | None => false end.
Definition shows_commit (v : InvoiceView) : bool :=
  match iv_coFundingRound v with Some r => is_str (raw_of r "status") "Open" | None => false end.

(** [metadata.status.toLowerCase()] in the class of the status badge. *)
Definition status_badge (meta : Fields) : result string :=
  match raw_of meta "status" with
  | JStr s => Ok ("badge-" +:+ toLowerCase s)
  | JUndef | JNull => Throw (ETypeError "Cannot read properties of undefined (reading 'toLowerCase')")
  | _ => Throw (ETypeError "metadata.status.toLowerCase is not a function")
  end.

(** What the page shows in place of the invoice, or the badge of the invoice. *)
Inductive Shown := Skeletons | NotFound (message : string) | Details (badge : string).

Definition render (wallet : Wallet) (v : InvoiceView) : result Shown :=
  if iv_loading v then Ok Skeletons
  else match iv_error v, iv_invoice v, iv_metadata v with
  | None, Some _, Some meta =>
      if canViewInvoice wallet v then Details <$> status_badge meta else Ok (NotFound "Invoice not found.")
  | Some e, _, _ => Ok (NotFound e)
  | None, _, _ => Ok (NotFound "Invoice not found.")
  end.

(** The ratio of the posted collateral, in percent, and whether it is at risk. *)
Definition collateral_ratio (v : InvoiceView) (config meta deposit : Fields) : result (number * bool) :=
  due ← remainingDue v;
  let outstanding := if bool_decide (is_Some (iv_fundedInvoice v)) then due else big_of meta "amount" in
  let ratio := if 0 <? outstanding
               then num_div (num_of_Z (Z.quot (big_of deposit "amount" * 10000) outstanding)) (num_of_Z 100)
               else num_of_Z 0 in
  let target := num_div (num_of config "collateralBps") (num_of_Z 100) in
  Ok (ratio, num_ltb ratio (num_mul target (num_of_ratio 12 10))).

(** [atRiskSince! + collateralRiskConfig.gracePeriodSecs]. *)
Definition topUpDeadline (v : InvoiceView) : option number :=
  match iv_atRiskSince v, iv_collateralRiskConfig v with
  | Some since, Some risk => Some (num_add since (num_of risk "gracePeriodSecs"))
  | _, _ => None
  end.

Inductive CollateralView :=
| CollateralHidden | CollateralLiquidated | CollateralSeized | CollateralReturned | CollateralPosted | CollateralMissing
| CollateralForm.

Definition collateral_view (wallet : Wallet) (v : InvoiceView) : CollateralView :=
  match iv_collateralConfig v, iv_metadata v with
  | Some config, Some meta =>
      match iv_collateralDeposit v with
      | Some deposit =>
          if bool_of deposit "settled" then
            if num_ltb (num_of_Z 0) (num_of deposit "seizedAt") then
              if metadata_is v ["Defaulted"] then CollateralSeized else CollateralLiquidated
            else CollateralReturned
          else CollateralPosted
      | None =>
          if big_of config "threshold" <=? big_of meta "amount" then
            if negb (isOwner wallet v) || metadata_is v ["Paid"; "Defaulted"] then CollateralMissing else CollateralForm
          else CollateralHidden
      end
  | _, _ => CollateralHidden
  end.

(** ** Loading *)

Section page.
Context {W Val : Type} (X : Chain W).
Context (signTransaction : string → string → string → M W (string * option string)).
Context (mock : option (string → M (Rpc (W := W)) (bool * Z * jsval))).
Context (scValToNative : Val → result jsval) (formatUSDC : Z → string).
(** The RPC node's last ledger, and its events of the two contracts from a ledger on. *)
Context (getLatestLedger : string → M W Z) (getEvents : string → Z → M W (list (RawEvent (R := Val)))).
Context (USDC_TOKEN_ID : string) (wallet : Wallet).

Local Abbreviation Act := (M (Page W InvoiceView)).

Definition loadHistory (invoiceId : number) : Act unit :=
  let INVOICE_CONTRACT_ID := ch_id X Invoice in
  let POOL_CONTRACT_ID := ch_id X Pool in
  if String.eqb INVOICE_CONTRACT_ID "" || String.eqb POOL_CONTRACT_ID "" then
    set_ui (λ v, v <| iv_history := [] |>
                   <| iv_historyError := Some "Transaction history requires configured contract IDs." |>)
  else
    set_ui (λ v, v <| iv_historyLoading := true |> <| iv_historyError := None |>);;
    try_catch
      (sequence ← on_rpc (rpcExecute X getLatestLedger);
       raw ← on_rpc (rpcExecute X (λ u, getEvents u (Z.max 1 (sequence - 50000))));
       events ← lift_result (parseInvoiceHistory scValToNative INVOICE_CONTRACT_ID POOL_CONTRACT_ID formatUSDC raw invoiceId);
       set_ui (λ v, v <| iv_history := events |>))
      (λ _, set_ui (λ v, v <| iv_history := [] |> <| iv_historyError := Some "Unable to load transaction history." |>));;
    set_ui (λ v, v <| iv_historyLoading := false |>).

(** [setCollateralToken((prev) => ..)]. *)
Definition pick_token (tokens : list jsval) (prev : string) : string :=
  let listed t := existsb (λ v, is_str v t) tokens in
  if negb (String.eqb prev "") && listed prev then prev
  else if negb (String.eqb USDC_TOKEN_ID "") && listed USDC_TOKEN_ID then USDC_TOKEN_ID
  else match tokens with t :: _ => js_String t | [] => "" end.

Definition tokens_of (answer : option jsval) : list jsval :=
  match answer with Some (JArr l) => l | _ => [] end.

(** The thirteen reads that may fail on their own. *)
Definition load_details (id : Z) (owner : string) : Act unit :=
  config ← settled (on_rpc (getPoolConfig X));
  fundedInvoice ← settled (on_rpc (getFundedInvoice X id));
  collateralConfig ← settled (on_rpc (getCollateralConfig X));
  deposit ← settled (on_rpc (getCollateralDeposit X id));
  ratio ← settled (on_rpc (getLiveCollateralRatio X id));
  risk ← settled (on_rpc (getCollateralRiskConfig X));
  atRisk ← settled (on_rpc (getAtRiskSince X id));
  tokens ← settled (on_rpc (getAcceptedTokens X));
  private ← settled (on_rpc (isInvoicePrivate X id));
  score ← settled (on_rpc (WebCredit.getFullCreditScore X owner));
  round ← settled (on_rpc (getCoFundingRound X id));
  dispute ← settled (on_rpc (getDispute X id));
  case ← settled (on_rpc (WebArbitration.getArbitrationCaseByInvoice X id));
  set_ui (λ v, v <| iv_poolConfig := config |> <| iv_fundedInvoice := mjoin fundedInvoice |>
                 <| iv_collateralConfig := collateralConfig |> <| iv_collateralDeposit := mjoin deposit |>
                 <| iv_liveCollateralRatioBps := ratio |> <| iv_collateralRiskConfig := risk |>
                 <| iv_atRiskSince := mjoin atRisk |> <| iv_acceptedTokens := tokens_of tokens |>
                 <| iv_collateralToken := pick_token (tokens_of tokens) (iv_collateralToken v) |>
                 <| iv_isPrivate := default false private |> <| iv_creditScore := mjoin score |>
                 <| iv_coFundingRound := mjoin round |> <| iv_disputeRecord := mjoin dispute |>
                 <| iv_arbitrationCase := mjoin case |>);;
  match mjoin case with
  | Some c =>
      try_catch
        (id ← lift_result (bigint_of_number (num_of c "id"));
         evidence ← on_rpc (WebArbitration.getArbitrationEvidence X id);
         set_ui (λ v, v <| iv_arbitrationEvidence := evidence |>))
        (λ _, set_ui (λ v, v <| iv_arbitrationEvidence := [] |>))
  | None => set_ui (λ v, v <| iv_arbitrationEvidence := [] |>)
  end.

(** [id] is the text of the address of the page. A number that is no integer is
    refused when the calls are encoded. *)
Definition loadInvoice (id : string) : Act unit :=
  set_ui (λ v, v <| iv_loading := true |> <| iv_error := None |>);;
  try_catch
    (let numId := Number_of_string id in
     _ ← (if isFinite numId then mret tt else throw (EError "Invalid invoice id."));
     n ← lift_result (bigint_of_number numId);
     inv ← on_rpc (getInvoice X mock n);
     meta ← on_rpc (getInvoiceMetadata X n);
     set_ui (λ v, v <| iv_invoice := Some inv |> <| iv_metadata := Some meta |>);;
     owner ← lift_result (get_prop inv "owner");
     load_details n (js_String owner);;
     loadHistory numId)
    (λ _, set_ui (λ v, v <| iv_error := Some "Invoice not found or contracts are not deployed." |>));;
  set_ui (λ v, v <| iv_loading := false |>).

(** The effect that converts the required collateral to another asset. *)
Definition cross_asset_effect : Act unit :=
  v ← get_ui;
  required ← lift_result (requiredCollateralAmount v);
  let none := set_ui (λ v, v <| iv_crossAssetRequiredAmount := None |>) in
  match required with
  | None => none
  | Some amount =>
      let token := iv_collateralToken v in
      if (amount <=? 0) || String.eqb token "" || String.eqb USDC_TOKEN_ID "" || String.eqb token USDC_TOKEN_ID then none
      else
        set_ui (λ v, v <| iv_crossAssetPriceLoading := true |>);;
        try_catch
          (fundingPrice ← on_rpc (getAssetPrice X USDC_TOKEN_ID);
           assetPrice ← on_rpc (getAssetPrice X token);
           set_ui (λ v, v <| iv_crossAssetRequiredAmount :=
                            if 0 <? assetPrice then Some (Z.quot (amount * fundingPrice) assetPrice) else None |>))
          (λ _, none);;
        set_ui (λ v, v <| iv_crossAssetPriceLoading := false |>)
  end.

(** ** The actions *)

(** [invoice.id], as the encoder of a [u64] takes it. *)
Definition invoice_id (inv : jsval) : result Z := v ← get_prop inv "id"; to_BigInt v.

Definition amount_or (text : string) (otherwise : Z) : result Z :=
  if String.eqb text "" then Ok otherwise else BigInt_text text.

(** [submitTx(signedTxXdr)] and a toast; then what follows. *)
Definition action (busy : bool → InvoiceView → InvoiceView) (builder : Act string) (done : Act unit) : Transaction W InvoiceView := {|
  tx_busy := busy; tx_build := builder; tx_rejected := or_rejected; tx_submit := submit X quiet_progress;
  tx_done := done; tx_failed := report |}.

Definition acting (b : bool) (v : InvoiceView) : InvoiceView := v <| iv_actionLoading := b |>.

(** The [id] of the page, for [loadInvoice]. *)
Context (id : string).

(** [if (!wallet.address || !invoice) return;]. *)
Definition with_invoice (f : string → jsval → InvoiceView → Act unit) : Act unit :=
  v ← get_ui;
  match address_of wallet, iv_invoice v with
  | Some address, Some inv => f address inv v
  | _, _ => mret tt
  end.

(** A call of a builder with the invoice's id. *)
Definition for_invoice (inv : jsval) (builder : Z → M (Rpc (W := W)) string) : Act string :=
  n ← lift_result (invoice_id inv); on_rpc (builder n).

Definition repay_tx (address : string) (inv : jsval) (due amount : Z) : Transaction W InvoiceView :=
  action acting (for_invoice inv (λ n, buildRepayTx X address n amount))
    (toast (ToastSuccess (if amount =? due then "Invoice repaid successfully!"
                          else "Partial payment recorded successfully!"));;
     set_ui (λ v, v <| iv_repayAmount := "" |>);;
     loadInvoice id).

Definition handleRepay : Act unit := with_invoice (λ address inv v,
  match iv_fundedInvoice v with
  | None => mret tt
  | Some _ =>
      due ← lift_result (remainingDue v);
      amount ← lift_result (amount_or (iv_repayAmount v) due);
      if amount <=? 0 then toast (ToastError "Please enter a valid repayment amount.")
      else if due <? amount then toast (ToastError "Payment exceeds remaining amount due.")
      else
        transact X signTransaction address (repay_tx address inv due amount)
  end).

(** The amount that is posted when none is entered. *)
Definition default_collateral (v : InvoiceView) (token : string) : result Z :=
  required ← requiredCollateralAmount v;
  Ok (match iv_collateralDeposit v, iv_crossAssetRequiredAmount v with
      | None, Some cross => if String.eqb token USDC_TOKEN_ID then default 0 required else cross
      | _, _ => default 0 required
      end).

Definition handleDepositCollateral : Act unit := with_invoice (λ address inv v,
  match iv_collateralConfig v with
  | None => mret tt
  | Some _ =>
      let token := match iv_collateralDeposit v with Some d => text_of d "token" | None => iv_collateralToken v end in
      if String.eqb token "" then toast (ToastError "No accepted token configured.")
      else
        defaultAmount ← lift_result (default_collateral v token);
        amount ← lift_result (amount_or (iv_collateralAmount v) defaultAmount);
        if amount <=? 0 then toast (ToastError "Please enter a valid collateral amount.")
        else
          transact X signTransaction address
            (action (λ b v, v <| iv_collateralLoading := b |>)
               (for_invoice inv (λ n, match iv_collateralDeposit v with
                                      | Some _ => buildTopUpCollateralTx X n address token amount
                                      | None => buildDepositCollateralTx X n address token amount
                                      end))
               (toast (ToastSuccess (match iv_collateralDeposit v with
                                     | Some _ => "Collateral topped up successfully!"
                                     | None => "Collateral posted successfully!"
                                     end));;
                set_ui (λ v, v <| iv_collateralAmount := "" |> <| iv_collateralModalOpen := false |>);;
                loadInvoice id))
  end).

Definition handleDispute : Act unit := with_invoice (λ address inv v,
  if String.eqb (trim (iv_disputeReason v)) "" then mret tt
  else transact X signTransaction address
         (action acting (for_invoice inv (λ n, buildDisputeTx X address n (iv_disputeReason v) None))
            (toast (ToastSuccess "Dispute raised successfully. Your invoice is now under review.");;
             set_ui (λ v, v <| iv_disputeModalOpen := false |> <| iv_disputeReason := "" |>);;
             loadInvoice id))).

Definition handleRaiseDefaultDispute : Act unit := with_invoice (λ address inv v,
  if String.eqb (trim (iv_defaultDisputeEvidence v)) "" then mret tt
  else match parseStellarAddress (trim (iv_defaultDisputeRespondent v)) with
  | Throw _ => toast (ToastError "Enter a valid respondent Stellar address.")
  | Ok respondent =>
      transact X signTransaction address
        (action acting (for_invoice inv (λ n, buildRaiseDisputeTx X address n (iv_defaultDisputeEvidence v) respondent))
           (toast (ToastSuccess "Dispute raised. Above-threshold disputes are routed to arbitration.");;
            set_ui (λ v, v <| iv_defaultDisputeModalOpen := false |> <| iv_defaultDisputeEvidence := "" |>
                           <| iv_defaultDisputeRespondent := "" |>);;
            loadInvoice id))
  end).

Definition handleSubmitArbitrationEvidence : Act unit :=
  v ← get_ui;
  match address_of wallet, iv_arbitrationCase v with
  | Some address, Some case =>
      if String.eqb (trim (iv_newEvidenceHash v)) "" then mret tt
      else transact X signTransaction address
             (action acting
                (n ← lift_result (bigint_of_number (num_of case "id"));
                 on_rpc (WebArbitration.buildSubmitEvidenceTx X address n (iv_newEvidenceHash v)))
                (toast (ToastSuccess "Evidence submitted.");;
                 set_ui (λ v, v <| iv_newEvidenceHash := "" |>);;
                 loadInvoice id))
  | _, _ => mret tt
  end.

(** [origin] is that of the window; [writeText] puts a text on the clipboard. *)
Definition handleShare (origin : string) (writeText : string → M W unit) : Act unit :=
  v ← get_ui;
  match iv_invoice v with
  | None => mret tt
  | Some inv =>
      n ← lift_result (get_prop inv "id");
      try_catch
        (on_world (writeText (origin +:+ "/invoice/" +:+ js_String n));;
         toast (ToastSuccess "Invoice link copied to clipboard!"))
        (λ _, toast (ToastError "Failed to copy link."))
  end.

Definition handleTogglePrivate : Act unit := with_invoice (λ address inv v,
  let next := negb (iv_isPrivate v) in
  transact X signTransaction address
    (action (λ b v, v <| iv_privacyLoading := b |>)
       (for_invoice inv (λ n, buildSetInvoicePrivateTx X address n next))
       (set_ui (λ v, v <| iv_isPrivate := next |>);;
        toast (ToastSuccess (if next then "Invoice is now private." else "Invoice is now public."))))).

Definition handleCommitToInvoice : Act unit := with_invoice (λ address inv v,
  let amountNum := Number_of_string (iv_commitAmount v) in
  if String.eqb (iv_commitAmount v) "" || negb (isFinite amountNum) || num_leb amountNum (num_of_Z 0)
  then toast (ToastError "Enter a valid amount to fund.")
  else
    transact X signTransaction address
      (action (λ b v, v <| iv_commitLoading := b |>)
         (investor ← lift_result (parseStellarAddress address);
          amount ← lift_result (toStroops amountNum);
          for_invoice inv (λ n, buildCommitToInvoiceTx X investor n amount))
         (n ← lift_result (get_prop inv "id");
          toast (ToastSuccess ("Committed to invoice #" +:+ js_String n +:+ "."));;
          set_ui (λ v, v <| iv_commitAmount := "" |>);;
          loadInvoice id))).

(** What is simulated while an amount is being entered. *)
Definition simulateRepay (v : InvoiceView) : result (option (list ScArg)) :=
  match address_of wallet, iv_invoice v with
  | Some address, Some inv =>
      due ← remainingDue v;
      amount ← amount_or (iv_repayAmount v) due;
      if amount <=? 0 then Ok None
      else n ← invoice_id inv; Ok (Some [ArgU64 n; ArgAddress address; ArgI128 amount])
  | _, _ => Ok None
  end.

Definition repaySimulation_enabled (v : InvoiceView) : result bool :=
  due ← remainingDue v;
  Ok (isOwner wallet v && metadata_is v ["Funded"] && bool_decide (is_Some (iv_fundedInvoice v)) && negb (due <=? 0)
      && bool_decide (is_Some (address_of wallet)) && bool_decide (is_Some (iv_invoice v))
      && (negb (String.eqb (iv_repayAmount v) "") || (0 <? due))).

End page.

(** * Proofs *)

(** ** The history *)

Lemma num_eqb_exact a b : safe a → safe b → num_eqb (num_of_Z a) (num_of_Z b) = (a =? b).
Proof.
  intros Ha Hb. unfold num_eqb, SFeqb. rewrite (SFcompare_exact a b) by done.
  rewrite Z.eqb_compare. by destruct (a ?= b).
Qed.

Lemma span_digits_char c s : digit_val c = None → has_char c s = true → has_char c (span_digits s).2 = true.
Proof.
  intros Hc. induction s as [|x s IH]; [done|]. cbn [has_char span_digits].
  destruct (digit_val x) as [d|] eqn:Ed; [|done]. destruct (d <? 10); [|done].
  destruct (span_digits s) as [a b]. intros [Hx|H]%orb_prop; [|by apply IH].
  apply Ascii.eqb_eq in Hx as ->. congruence.
Qed.

Lemma comma_no_exponent s : has_char "," s = true → parse_exponent s = None.
Proof.
  intros H. destruct s as [|x s]; [done|]. cbn [parse_exponent has_char] in *.
  destruct (Ascii.eqb x "e" || Ascii.eqb x "E") eqn:E; [|done].
  assert (has_char "," s = true) as Hs.
  { apply orb_prop in H as [Hx|H]; [|done]. apply Ascii.eqb_eq in Hx as ->. discriminate E. }
  destruct s as [|y s]; [done|]. rewrite parse_signed_cons. rewrite (parse_digits_none 10 (String y s) ",") by done.
  cbn [has_char] in Hs. destruct (Ascii.eqb_spec y "-") as [->|_]; [by rewrite (parse_digits_none 10 s ",")|].
  by destruct (Ascii.eqb_spec y "+") as [->|_]; [rewrite (parse_digits_none 10 s ",")|].
Qed.

Lemma comma_no_decimal neg s : has_char "," s = true → parse_unsigned_decimal neg s = NaN.
Proof.
  intros H. unfold parse_unsigned_decimal. destruct (String.eqb_spec s "Infinity") as [->|_]; [discriminate H|].
  apply (span_digits_char ",") in H; [|done]. destruct (span_digits s) as [int rest]. cbn [snd] in H.
  assert (∃ frac rest', match rest with String "."%char s' => span_digits s' | _ => ("", rest) end = (frac, rest')
                        ∧ has_char "," rest' = true) as (frac&rest'&->&Hr).
  { destruct rest as [|x t]; [done|]. destruct (Ascii.eqb_spec x ".") as [->|Hx].
    - cbn [has_char] in H. apply (span_digits_char ",") in H; [|done]. destruct (span_digits t) as [a b]. eauto.
    - exists "", (String x t). split; [|done]. by destruct x as [[] [] [] [] [] [] [] []]. }
  rewrite (comma_no_exponent rest' Hr). by destruct (parse_digits 10 _).
Qed.

Lemma comma_no_number s : has_char "," s = true → Number_of_string s = NaN.
Proof.
  intros H. apply (has_char_trim ",") in H; [|done]. unfold Number_of_string. set (t := trim s) in *. clearbody t.
  assert (∀ b pre, pre ∈ ["0x"; "0X"; "0o"; "0O"; "0b"; "0B"] → startsWith pre t = true →
    match parse_digits b (str_drop 2 t) with Some z => num_of_Z z | None => NaN end = NaN) as Hr.
  { intros b pre Hp E. rewrite (parse_digits_none b _ ","); [done|done|].
    repeat (apply elem_of_cons in Hp as [->|Hp]; [by apply (has_char_drop ",") in E|]). by apply not_elem_of_nil in Hp. }
  destruct (String.eqb_spec t "") as [->|_]; [done|].
  destruct (startsWith "0x" t || startsWith "0X" t) eqn:E1; [apply orb_prop in E1 as [E|E]; eapply Hr, E; set_solver|].
  destruct (startsWith "0o" t || startsWith "0O" t) eqn:E2; [apply orb_prop in E2 as [E|E]; eapply Hr, E; set_solver|].
  destruct (startsWith "0b" t || startsWith "0B" t) eqn:E3; [apply orb_prop in E3 as [E|E]; eapply Hr, E; set_solver|].
  clear -H. repeat case_match; subst; try by apply comma_no_decimal.
Qed.

(** What the page has of an event of the contracts (WebHistory.v). *)
Definition listed_of (invoiceId : Z) (p : Published) : list string :=
  match p with
  | p_created id _ _ _ => if id =? invoiceId then ["Invoice created"] else []
  | p_funded id _ _ _ => if id =? invoiceId then ["Pool funded invoice"] else []
  | p_repaid id _ _ => if id =? invoiceId then ["Pool received repayment"] else []
  | p_invoice _ _ _ _ | p_move _ _ _ _ | p_other _ _ _ => []
  end.

Definition safe_id (p : Published) : Prop :=
  match p with
  | p_created id _ _ _ | p_funded id _ _ _ | p_repaid id _ _ => safe id
  | p_invoice _ _ _ _ | p_move _ _ _ _ | p_other _ _ _ => True
  end.

Section published.
Context {R : Type} (decode : R → result jsval) (INVOICE POOL : string) (formatUSDC : Z → string).
Hypothesis Hids : INVOICE ≠ POOL.

Lemma created_detail_total owner amount : ∃ d, created_detail formatUSDC (JStr owner) (JBig amount) = Ok d.
Proof.
  unfold created_detail. destruct (truthy (JBig amount)); [|by eexists].
  rewrite (to_BigInt_String (JBig amount) amount) by auto. by eexists.
Qed.

Lemma joined_no_number x y l n : is_number (JArr (x :: y :: l)) n = false.
Proof.
  unfold is_number, js_Number. rewrite comma_no_number; [done|]. cbn [js_String map String.concat].
  rewrite !has_char_app. cbn [has_char]. by rewrite orb_true_r.
Qed.

Lemma is_number_id id n : safe id → safe n → is_number (JBig id) (num_of_Z n) = (id =? n).
Proof. intros. unfold is_number. cbn [js_Number]. by apply num_eqb_exact. Qed.

Lemma other_action (action : string) (l : list string) x : action ∉ l → x ∈ l → String.eqb action x = false.
Proof. intros Hn Hx. apply String.eqb_neq. by intros ->. Qed.

Lemma event_of_published e p n : publishes decode INVOICE POOL e p → safe_id p → safe n →
  ∃ l, history_of_event decode INVOICE POOL formatUSDC (num_of_Z n) e = Ok l ∧ map ie_label l = listed_of n p.
Proof.
  intros (Hw&Hc&(t0&t1&more&Ht&H0&H1)&Hv) Hs Hn. unfold history_of_event, contract_of, two_topics, topics_of.
  rewrite Hc, Ht. cbn [default from_option id]. rewrite H0, H1, Hv. cbn [mbind result_bind].
  destruct p as [id owner amount also|action id who also|action investor token also|id sme principal also|id payer also|by_pool action value];
    [..|destruct by_pool];
    unfold WebHistory.value_of; cbn [published_by_pool action_of is_str];
    rewrite ?String.eqb_refl, ?(proj2 (String.eqb_neq INVOICE POOL)), ?(proj2 (String.eqb_neq POOL INVOICE)) by done;
    cbn [andb mbind result_bind]; unfold of_invoice_contract, of_pool_contract; cbn [is_str]; cbn in Hs, Hw;
    try change (part (JArr (JBig id :: _)) 0) with (JBig id); rewrite ?is_number_id by done.
  - change (String.eqb "created" "created") with true. change (String.eqb "invoice" "invoice") with true.
    change (part _ 1) with (JStr owner). change (part _ 2) with (JBig amount).
    destruct (created_detail_total owner amount) as [d ->]. cbn [listed_of].
    destruct (id =? n); by eexists.
  - rewrite !joined_no_number, !andb_false_r. change (String.eqb "invoice" "invoice") with true.
    assert (String.eqb action "created" = false) as ->. { apply String.eqb_neq. intros ->. set_solver. }
    by eexists.
  - change (String.eqb "pool" "pool") with true. destruct Hw as [Hw _].
    assert (String.eqb action "funded" = false) as ->. { apply String.eqb_neq. intros ->. set_solver. }
    assert (String.eqb action "repaid" = false) as ->. { apply String.eqb_neq. intros ->. set_solver. }
    by eexists.
  - cbn [listed_of]. destruct (id =? n); by eexists.
  - cbn [listed_of]. destruct (id =? n); by eexists.
  - change (String.eqb "pool" "pool") with true.
    rewrite (other_action action _ "funded" Hw), (other_action action _ "repaid" Hw) by set_solver.
    by eexists.
  - change (String.eqb "invoice" "invoice") with true.
    rewrite (other_action action _ "created" Hw), (other_action action _ "funded" Hw),
      (other_action action _ "paid" Hw), (other_action action _ "default" Hw) by set_solver.
    by eexists.
Qed.

(** Of the events that the contracts publish, the page of an invoice lists its
    creation, its funding by the pool and the pool's repayments, newest first, and
    nothing of other invoices. The events that the invoice contract publishes when
    it is funded, paid or defaulted carry more than an id and are never listed: a
    default does not appear in the history of the invoice. *)
Theorem invoice_history_of_published es ps n :
  Forall2 (publishes decode INVOICE POOL) es ps → Forall safe_id ps → safe n →
  ∃ history, parseInvoiceHistory decode INVOICE POOL formatUSDC es (num_of_Z n) = Ok history ∧
    ascending newest_event history ∧ map ie_label history ≡ₚ concat (map (listed_of n) ps).
Proof.
  intros H Hs Hn. assert (∃ ls, mapM (history_of_event decode INVOICE POOL formatUSDC (num_of_Z n)) es = Ok ls
    ∧ map ie_label (concat ls) = concat (map (listed_of n) ps)) as (ls&E&Hl).
  { revert Hs. induction H as [|e p es ps He _ IH]; intros Hs; [by eexists|]. apply Forall_cons in Hs as [Hp Hs].
    destruct (event_of_published e p n He Hp Hn) as (l&El&Hl). destruct (IH Hs) as (ls&Els&Hls).
    exists (l :: ls). cbn [mapM]. rewrite El. cbn [mbind result_bind]. rewrite Els. split; [done|].
    cbn [concat map]. by rewrite map_app, Hl, Hls. }
  unfold parseInvoiceHistory. rewrite E. eexists. split; [done|]. split; [apply sort_by_ascending|].
  by rewrite (sort_by_perm newest_event), Hl.
Qed.
End published.

(** ** What a real invoice shows *)

(** The status of an invoice is an array of its name, not the name. *)
Lemma native_status_no_text v : native Invoice_InvoiceStatus v = true → ∃ l, v = JArr l.
Proof. destruct v; try done. by eexists. Qed.

Lemma metadata_status raw meta :
  native Invoice_InvoiceMetadata raw = true → metadataFromRaw raw = Ok meta → ∃ l, raw_of meta "status" = JArr l.
Proof.
  intros Hn Hm. rewrite (web_reads_metadata raw Hn) in Hm. injection Hm as <-.
  destruct (native_struct _ _ Hn) as [o ->]. unfold raw_of, PageTx.value_of, decoded. cbn.
  apply native_status_no_text. by eapply native_lookup.
Qed.

Lemma metadata_is_nothing v meta l statuses :
  iv_metadata v = Some meta → raw_of meta "status" = JArr l → metadata_is v statuses = false.
Proof.
  intros Hm Hl. unfold metadata_is. rewrite Hm, Hl. induction statuses as [|s statuses IH]; [done|]. exact IH.
Qed.

(** C13. The page of an invoice that the invoice contract gave cannot be shown: where
    it would show the invoice's details it throws, since [toLowerCase] is no method of
    the array that the status is. Were it shown, no status would ever be recognised,
    and the buttons to repay, to dispute and to dispute a default would be missing. *)
Theorem invoice_page_breaks wallet v inv raw meta :
  native Invoice_InvoiceMetadata raw = true → metadataFromRaw raw = Ok meta →
  iv_invoice v = Some inv → iv_metadata v = Some meta → iv_loading v = false → iv_error v = None →
  canViewInvoice wallet v = true →
  render wallet v = Throw (ETypeError "metadata.status.toLowerCase is not a function") ∧
  shows_repay wallet v ≠ Ok true ∧ shows_dispute wallet v = false ∧ shows_default_dispute wallet v = false.
Proof.
  intros Hn Hm Hi Hv Hl He Hc. destruct (metadata_status raw meta Hn Hm) as [l Hs].
  assert (∀ statuses, metadata_is v statuses = false) as Hno.
  { intros statuses. by apply (metadata_is_nothing v meta l). }
  unfold render, shows_repay, shows_dispute, shows_default_dispute. rewrite Hl, He, Hi, Hv, Hc, !Hno, !andb_false_r.
  unfold status_badge. rewrite Hs. split; [done|]. split; [|done].
  destruct (fullyRepaid v); cbn; intros [=].
Qed.


(** ** The actions *)

Section actions.
Context {W Val : Type} (X : Chain W).
Context (signTransaction : string → string → string → M W (string * option string)).
Context (mock : option (string → M (Rpc (W := W)) (bool * Z * jsval))).
Context (scValToNative : Val → result jsval) (formatUSDC : Z → string).
Context (getLatestLedger : string → M W Z) (getEvents : string → Z → M W (list (RawEvent (R := Val)))).
Context (USDC_TOKEN_ID : string) (wallet : Wallet) (id : string).

#[local] Notation repay := (handleRepay X signTransaction mock scValToNative formatUSDC getLatestLedger getEvents
                              USDC_TOKEN_ID wallet id).
#[local] Notation repay_tx := (repay_tx X mock scValToNative formatUSDC getLatestLedger getEvents USDC_TOKEN_ID id).

(** C12. A repayment that leaves the page, in whatever text it was entered, is positive
    and at most what remains to be paid: principal, projected interest and the fee,
    less what was repaid. *)
Theorem repay_within_due p r p' :
  repay p = (r, p') → net p' ≠ net p →
  ∃ address inv due amount,
    address_of wallet = Some address ∧ iv_invoice (ui p) = Some inv ∧ remainingDue (ui p) = Ok due ∧
    0 < amount ≤ due ∧
    (r, p') = transact X signTransaction address (repay_tx address inv due amount) p.
Proof.
  intros E Hnet. unfold handleRepay, with_invoice, get_ui in E. unfold mbind at 1, M_bind at 1 in E.
  cbn [get_state mbind M_bind mret M_ret] in E. unfold mbind at 1, M_bind at 1 in E. cbn in E.
  destruct (address_of wallet) as [address|]; [|by injection E as <- <-].
  destruct (iv_invoice (ui p)) as [inv|]; [|by injection E as <- <-].
  destruct (iv_fundedInvoice (ui p)) as [f|]; [|by injection E as <- <-].
  unfold mbind at 1, M_bind at 1, lift_result in E. destruct (remainingDue (ui p)) as [due|e]; [|by injection E as <- <-].
  unfold mbind at 1, M_bind at 1 in E. destruct (amount_or _ _) as [amount|e]; [|by injection E as <- <-].
  destruct (Z.leb_spec amount 0); [by injection E as <- <-|].
  destruct (Z.ltb_spec due amount); [by injection E as <- <-|].
  exists address, inv, due, amount. split_and!; try done; lia.
Qed.

(** *** What the actions leave true *)

Context (I : W → Prop) (signed : string → W → Prop) (me : string).
Context (HW : honest_wallet X signTransaction I signed me) (Hme : address_of wallet = Some me).
Context (Hledger : ∀ u, keeps I (getLatestLedger u)) (Hevents : ∀ u n, keeps I (getEvents u n)).
Context (Hmock : ∀ fetch path, mock = Some fetch → rpc_keeps I (fetch path)).

#[local] Notation load := (loadInvoice X mock scValToNative formatUSDC getLatestLedger getEvents USDC_TOKEN_ID).

Lemma invoice_read_keeps n : rpc_keeps I (getInvoice X mock n).
Proof.
  unfold getInvoice. destruct mock as [fetch|] eqn:E; [|keep_page]. unfold mockFetch, rpc_keeps.
  apply keeps_bind; [by apply Hmock|intros [[ok status] body]]. keep_page.
Qed.
#[local] Hint Resolve invoice_read_keeps : page_keep.

Lemma loadInvoice_keeps n : page_keeps I (load n).
Proof. keep_page. Qed.
#[local] Hint Resolve loadInvoice_keeps : page_keep.

(** The actions of the page. *)
Inductive invoice_action : M (Page W InvoiceView) unit → Prop :=
| does_load : invoice_action (load id)
| does_convert : invoice_action (cross_asset_effect X USDC_TOKEN_ID)
| does_repay : invoice_action repay
| does_deposit : invoice_action (handleDepositCollateral X signTransaction mock scValToNative formatUSDC getLatestLedger
    getEvents USDC_TOKEN_ID wallet id)
| does_dispute : invoice_action (handleDispute X signTransaction mock scValToNative formatUSDC getLatestLedger
    getEvents USDC_TOKEN_ID wallet id)
| does_default_dispute : invoice_action (handleRaiseDefaultDispute X signTransaction mock scValToNative formatUSDC
    getLatestLedger getEvents USDC_TOKEN_ID wallet id)
| does_evidence : invoice_action (handleSubmitArbitrationEvidence X signTransaction mock scValToNative formatUSDC
    getLatestLedger getEvents USDC_TOKEN_ID wallet id)
| does_hide : invoice_action (handleTogglePrivate X signTransaction wallet)
| does_commit : invoice_action (handleCommitToInvoice X signTransaction mock scValToNative formatUSDC getLatestLedger
    getEvents USDC_TOKEN_ID wallet id).

Lemma invoice_action_keeps m : invoice_action m → page_keeps I m.
Proof.
  destruct 1; unfold handleRepay, handleDepositCollateral, handleDispute, handleRaiseDefaultDispute,
    handleSubmitArbitrationEvidence, handleTogglePrivate, handleCommitToInvoice, with_invoice; rewrite ?Hme; keep_page.
Qed.

End actions.
