(* ===== verification/Portfolio.v ===== *)
(** * What an investor holds: app/portfolio/page.tsx and two components

    The portfolio page with its withdrawal queue; components/LenderPortfolio.tsx, the
    yield to be claimed; components/InsuranceCoverageBadge.tsx, the insurance of a
    funded invoice. *)
From S2P Require Import Prelude.
From S2P Require Import JsValue.
From S2P Require Import JsNumber.
From S2P Require Import JsArith.
From S2P Require Import Hex.
From S2P Require Import Sdk.
From S2P Require Import Abi.
From S2P Require Import ContractAbi.
From S2P Require Import RpcPool.
From S2P Require Import Stellar.
From S2P Require Import Amounts.
From S2P Require Import WebAbi.
From S2P Require Import WebPool.
From S2P Require Import WebMarket.
From S2P Require Import WebTranche.
From S2P Require Import PageTx.
#[local] Open Scope string_scope.
#[local] Open Scope list_scope.
#[local] Open Scope Z_scope.

(** ** What a row shows *)

Record PortfolioSnapshot := {
  ps_totalDeposited : Z; ps_available : Z; ps_deployed : Z; ps_earned : Z; ps_depositCount : number }.

(** The deposit, the earnings and the losses of each tranche. *)
Record TrancheSide := { ts_deposited : Z; ts_earned : Z; ts_losses : Z }.
Record TranchePositionData := {
  td_senior : TrancheSide; td_junior : TrancheSide; td_seniorApyPct : jsval; td_juniorApyPct : jsval }.

Record TokenRow := {
  tr_token : string; tr_totals : Fields; tr_position : option PortfolioSnapshot; tr_waitEstimate : option Fields;
  tr_forecast : list Fields; tr_rateBps : number; tr_tranche : option TranchePositionData }.

Definition snapshot_of (pos : Fields) : PortfolioSnapshot := {|
  ps_totalDeposited := big_of pos "deposited"; ps_available := big_of pos "available";
  ps_deployed := big_of pos "deployed"; ps_earned := big_of pos "earned"; ps_depositCount := num_of pos "depositCount" |}.

(** Seconds as people say them. *)
Definition formatWaitEstimate (toText : number → string) (secs : number) : string :=
  let over n := Math_round (num_div secs (num_of_Z n)) in
  let under n := num_ltb secs (num_of_Z n) in
  if num_leb secs (num_of_Z 0) then "moments"
  else if under 3600 then toText (Math_max (num_of_Z 1) (over 60)) +:+ "m"
  else if under 86400 then toText (over 3600) +:+ "h"
  else if under (86400 * 60) then toText (over 86400) +:+ "d"
  else "~" +:+ toText (over (86400 * 30)) +:+ "mo".

(** [UtilisationBar]: the width and the colour of the bar. *)
Definition utilisation_bar (utilisation : number) : number * string :=
  let pct := Math_min (num_of_Z 100) (Math_round (num_mul utilisation (num_of_Z 100))) in
  (pct, if num_leb (num_of_Z 90) pct then "bg-red-500"
        else if num_leb (num_of_Z 70) pct then "bg-yellow-400" else "bg-brand-gold").

Definition toUsdcEquiv (amount : Z) (rateBps : number) : result Z :=
  bps ← bigint_of_number rateBps; Ok (Z.quot (amount * bps) 10000).

(** *** The sums over the rows *)

Record UsdcRow := { ur_row : TokenRow; ur_deposited : Z; ur_deployed : Z; ur_earned : Z; ur_available : Z }.

Definition usdc_row (r : TokenRow) : result UsdcRow :=
  let equiv f := match tr_position r with Some p => toUsdcEquiv (f p) (tr_rateBps r) | None => Ok 0 end in
  deposited ← equiv ps_totalDeposited;
  deployed ← equiv ps_deployed;
  earned ← equiv ps_earned;
  available ← equiv ps_available;
  Ok {| ur_row := r; ur_deposited := deposited; ur_deployed := deployed; ur_earned := earned; ur_available := available |}.

Definition usdcRows (rows : list TokenRow) : result (list UsdcRow) := mapM usdc_row rows.
Definition totalUsdcDeposited (l : list UsdcRow) : Z := sum_by ur_deposited l.
Definition totalUsdcDeployed (l : list UsdcRow) : Z := sum_by ur_deployed l.
Definition totalUsdcEarned (l : list UsdcRow) : Z := sum_by ur_earned l.
Definition totalUsdcAvailable (l : list UsdcRow) : Z := sum_by ur_available l.

Definition pool_sum (name : string) (rows : list TokenRow) : Z := sum_by (λ r, big_of (tr_totals r) name) rows.
Definition totalPoolDeployed : list TokenRow → Z := pool_sum "totalDeployed".
Definition totalPoolDeposited : list TokenRow → Z := pool_sum "totalDeposited".
Definition share_of (part whole : Z) : number :=
  if 0 <? whole then num_div (num_of_Z part) (num_of_Z whole) else num_of_Z 0.
Definition utilisation (rows : list TokenRow) : number := share_of (totalPoolDeployed rows) (totalPoolDeposited rows).

(** The hundredths of a percent of a slice; [pct] is a hundredth of it. *)
Definition slice_bps (total : Z) (r : UsdcRow) : Z := Z.quot (ur_deposited r * 10000) total.

Definition pieSlices (stablecoinLabel : string → string) (l : list UsdcRow) : list (string * number) :=
  let total := totalUsdcDeposited l in
  if 0 <? total then
    map (λ r, (stablecoinLabel (tr_token (ur_row r)), num_div (num_of_Z (slice_bps total r)) (num_of_Z 100)))
      (List.filter (λ r, 0 <? ur_deposited r) l)
  else [].

Definition DEFAULT_APY_BPS : number := num_of_Z 800.

Definition weightedApy (l : list UsdcRow) : number :=
  let total := totalUsdcDeposited l in
  if 0 <? total then
    foldl (λ acc r, num_add acc (num_mul DEFAULT_APY_BPS (share_of (ur_deposited r) total))) (num_of_Z 0) l
  else DEFAULT_APY_BPS.

(** *** A token's queue *)

Definition isQueued (r : TokenRow) : bool :=
  match tr_waitEstimate r with Some w => num_ltb (num_of_Z 0) (num_of w "queuePosition") | None => false end.
Definition shows_request (r : TokenRow) : bool :=
  negb (isQueued r) && match tr_position r with Some p => 0 <? ps_available p | None => false end.

(** ** The page *)

Record PortfolioState := {
  pf_rows : list TokenRow; pf_loading : bool; pf_error : option string; pf_lastRefresh : option Z;
  pf_collapsed : gmap string bool; pf_requestAmounts : gmap string string; pf_queueActionLoading : gmap string bool }.

#[export] Instance eta_PortfolioState : Eta PortfolioState := λ s, {|
  pf_rows := pf_rows s; pf_loading := pf_loading s; pf_error := pf_error s; pf_lastRefresh := pf_lastRefresh s;
  pf_collapsed := pf_collapsed s; pf_requestAmounts := pf_requestAmounts s;
  pf_queueActionLoading := pf_queueActionLoading s |}.

Section portfolio.
Context {W : Type} (X : Chain W).
Context (signTransaction : string → string → string → M W (string * option string)).
(** [fetch] of an address at the indexer: whether it is ok, and its JSON. *)
Context (fetch : string → M W (bool * result jsval)) (INDEXER_URL : string) (formatUSDC : Z → string).
Context (wallet : Wallet).

Local Abbreviation Act := (M (Page W PortfolioState)).

Definition side_of (pos : option Fields) : TrancheSide :=
  let get name := match pos with Some p => big_of p name | None => 0 end in
  {| ts_deposited := get "deposited"; ts_earned := get "earned"; ts_losses := get "losses" |}.

(** The yields the indexer knows; 0 when it does not answer. *)
Definition tranche_apys (token : string) : Act (jsval * jsval) :=
  let zero := JNum 0 in
  or_else (zero, zero)
    ('(ok, body) ← on_world (fetch (INDEXER_URL +:+ "/tranches/" +:+ encodeURIComponent token +:+ "/apy"));
     if (ok : bool) then
       data ← lift_result body;
       senior ← lift_result (get_prop data "senior");
       junior ← lift_result (get_prop data "junior");
       mret (js_coalesce (get_prop_opt senior "realizedApyPct") zero, js_coalesce (get_prop_opt junior "realizedApyPct") zero)
     else mret (zero, zero)).

Definition fetchTranchePositions (investor token : string) : Act (option TranchePositionData) :=
  or_else None
    (senior ← settled (on_rpc (getTrancheInvestorPosition X investor token TrancheClass_Senior));
     junior ← settled (on_rpc (getTrancheInvestorPosition X investor token TrancheClass_Junior));
     let s := side_of senior in
     let j := side_of junior in
     if (ts_deposited s =? 0) && (ts_deposited j =? 0) then mret None
     else
       '(seniorApy, juniorApy) ← tranche_apys token;
       mret (Some {| td_senior := s; td_junior := j; td_seniorApyPct := seniorApy; td_juniorApyPct := juniorApy |})).

Definition load_row (address token : string) : Act TokenRow :=
  totals ← on_rpc (getPoolTokenTotals X token);
  rawPos ← on_rpc (getInvestorPosition X address token);
  rateBps ← or_else (num_of_Z 10000) (on_rpc (getExchangeRate X token));
  wait ← or_else None (on_rpc (estimateWithdrawalWait X address token));
  forecast ← or_else [] (on_rpc (getLiquidityForecast X token 30));
  tranche ← fetchTranchePositions address token;
  mret {| tr_token := token; tr_totals := totals; tr_position := snapshot_of <$> rawPos; tr_waitEstimate := wait;
          tr_forecast := forecast; tr_rateBps := rateBps; tr_tranche := tranche |}.

(** [{ ...initial, ...prev }]: a section that was opened stays open. *)
Definition collapse_rows (rows : list TokenRow) (prev : gmap string bool) : gmap string bool :=
  if (1 <? length rows)%nat then prev ∪ list_to_map (map (λ r, (tr_token r, true)) rows) else prev.

Definition load : Act unit :=
  match address_of wallet with
  | Some address =>
      if w_connected wallet then
        set_ui (λ s, s <| pf_loading := true |> <| pf_error := None |>);;
        try_catch
          (tokens ← on_rpc (getAcceptedTokens X);
           _ ← on_rpc (getPoolConfig X);
           rowData ← mapM (λ token, load_row address (js_String token)) (elements_of tokens);
           now ← time_now X;
           set_ui (λ s, s <| pf_rows := rowData |> <| pf_lastRefresh := Some now |>
                          <| pf_collapsed := collapse_rows rowData (pf_collapsed s) |>))
          (λ _, set_ui (λ s, s <| pf_error := Some "Failed to load portfolio data. Please try again." |>));;
        set_ui (λ s, s <| pf_loading := false |>)
      else mret tt
  | None => mret tt
  end.

Definition queue_action (token : string) (builder : Act string) (done : Act unit) : Transaction W PortfolioState := {|
  tx_busy := λ b s, s <| pf_queueActionLoading := <[token := b]> (pf_queueActionLoading s) |>;
  tx_build := builder; tx_rejected := as_it_is; tx_submit := submit X quiet_progress; tx_done := done;
  tx_failed := report |}.

Definition handleRequestWithdrawal (token : string) : Act unit :=
  s ← get_ui;
  match address_of wallet with
  | None => mret tt
  | Some address =>
      let raw := default "" (pf_requestAmounts s !! token) in
      if String.eqb raw "" || num_leb (parseFloat raw) (num_of_Z 0) then mret tt
      else
        transact X signTransaction address
          (queue_action token
             (shares ← lift_result (toStroops (parseFloat raw));
              on_rpc (buildRequestWithdrawalTx X address token shares))
             (shares ← lift_result (toStroops (parseFloat raw));
              toast (ToastSuccess ("Withdrawal request submitted for " +:+ formatUSDC shares +:+ "."));;
              set_ui (λ s, s <| pf_requestAmounts := <[token := ""]> (pf_requestAmounts s) |>);;
              load))
  end.

(** The other two actions differ in what they build and say. *)
Definition queue_handler (builder : string → string → M (Rpc (W := W)) string) (message token : string) : Act unit :=
  match address_of wallet with
  | None => mret tt
  | Some address =>
      transact X signTransaction address
        (queue_action token (on_rpc (builder address token)) (toast (ToastSuccess message);; load))
  end.

Definition handleCancelWithdrawal : string → Act unit :=
  queue_handler (buildCancelWithdrawalRequestTx X) "Withdrawal request cancelled.".
Definition handleDrainQueue : string → Act unit :=
  queue_handler (buildDrainWithdrawalQueueTx X) "Drain attempt submitted.".

(** A click on the head of a token's section. *)
Definition toggle_collapsed (token : string) : Act unit :=
  set_ui (λ s, if (1 <? length (pf_rows s))%nat
               then s <| pf_collapsed := <[token := negb (default false (pf_collapsed s !! token))]> (pf_collapsed s) |>
               else s).

End portfolio.

(** ** components/LenderPortfolio.tsx *)

Record LenderRow := { lr_token : string; lr_deposited : Z; lr_value : Z; lr_accrued : Z }.

Section lender.
Context {W : Type} (X : Chain W).
Context (signTransaction : string → string → string → M W (string * option string)).
Context (wallet : Wallet).

(** [flatMap]: a token without a deposit has no row. *)
Definition lender_row (p : jsval * option Fields) : list LenderRow :=
  match p.2 with
  | Some pos =>
      if big_of pos "deposited" =? 0 then []
      else [{| lr_token := js_String p.1; lr_deposited := big_of pos "deposited";
               lr_value := big_of pos "available" + big_of pos "deployed"; lr_accrued := big_of pos "earned" |}]
  | None => []
  end.

Definition loadPortfolio (address : string) : M (Rpc (W := W)) (list LenderRow * number) :=
  tokens ← getAcceptedTokens X;
  config ← getPoolConfig X;
  positions ← mapM (λ token, getInvestorPosition X address (js_String token)) (elements_of tokens);
  mret (concat (map lender_row (zip (elements_of tokens) positions)), num_of config "yieldBps").

Local Abbreviation Lender := (option (list LenderRow * number)).

(** [mutate()] reads again; SWR keeps an error to itself. *)
Definition mutate : M (Page W Lender) unit :=
  match address_of wallet with
  | Some address =>
      if w_connected wallet
      then ignore_errors (data ← on_rpc (loadPortfolio address); set_ui (λ _, Some data)) else mret tt
  | None => mret tt
  end.

Definition claim (token : string) : M (Page W Lender) unit :=
  match address_of wallet with
  | None => mret tt
  | Some address =>
      transact X signTransaction address {|
        tx_busy := λ _ s, s; tx_build := on_rpc (buildClaimYieldTx X address token); tx_rejected := as_it_is;
        tx_submit := submit X quiet_progress;
        tx_done := toast (ToastSuccess "Yield claimed successfully.");; mutate; tx_failed := report |}
  end.

(** [(row.value * BigInt(data.yieldBps)) / 10_000n]. *)
Definition annual (row : LenderRow) (yieldBps : number) : result Z :=
  bps ← bigint_of_number yieldBps; Ok (Z.quot (lr_value row * bps) 10000).

End lender.

(** ** components/InsuranceCoverageBadge.tsx *)

Record Badge := {
  bd_purchaseLoading : bool; bd_claimLoading : bool; bd_coverage : option Fields; bd_premium : option Z;
  bd_claims : list Fields }.

#[export] Instance eta_Badge : Eta Badge := λ s, {|
  bd_purchaseLoading := bd_purchaseLoading s; bd_claimLoading := bd_claimLoading s; bd_coverage := bd_coverage s;
  bd_premium := bd_premium s; bd_claims := bd_claims s |}.

(** [now] is [Date.now()]. *)
Definition tenorDaysFromDueDate (now : Z) (dueDate : number) : number :=
  let secs := num_sub dueDate (Math_floor (num_div (num_of_Z now) (num_of_Z 1000))) in
  Math_max (num_of_Z 0) (Math_floor (num_div secs (num_of_Z 86400))).

Section badge.
Context {W : Type} (X : Chain W).
Context (signTransaction : string → string → string → M W (string * option string)).
Context (wallet : Wallet) (fundedInvoice : Fields).

Local Abbreviation Act := (M (Page W Badge)).

Definition funded_id : result Z := bigint_of_number (num_of fundedInvoice "invoiceId").

Definition mutateCoverage : Act unit := ignore_errors
  (id ← lift_result funded_id;
   coverage ← on_rpc (getCoverageRecord X id);
   set_ui (λ s, s <| bd_coverage := coverage |>)).

(** The estimate is asked for while there is no coverage, the claims once it is
    claimed. *)
Definition load_premium : Act unit :=
  s ← get_ui;
  match bd_coverage s with
  | Some coverage =>
      if bool_of coverage "claimed" then
        id ← lift_result funded_id; claims ← on_rpc (getClaimHistory X id); set_ui (λ s, s <| bd_claims := claims |>)
      else mret tt
  | None =>
      now ← time_now X;
      tenor ← lift_result (bigint_of_number (tenorDaysFromDueDate now (num_of fundedInvoice "dueDate")));
      premium ← on_rpc (estimateInsurancePremium X (big_of fundedInvoice "principal") (text_of fundedInvoice "sme") tenor
                          (text_of fundedInvoice "token"));
      set_ui (λ s, s <| bd_premium := Some premium |>)
  end.

Definition badge_tx (busy : bool → Badge → Badge) (builder : Act string) (message : string) : Transaction W Badge := {|
  tx_busy := busy; tx_build := builder; tx_rejected := or_rejected; tx_submit := submit X quiet_progress;
  tx_done := toast (ToastSuccess message);; mutateCoverage; tx_failed := report |}.

Definition with_wallet (f : string → Act unit) : Act unit :=
  match address_of wallet with
  | None => toast (ToastError "Connect a wallet first.")
  | Some address => f address
  end.

Definition purchase : Act unit := with_wallet (λ address,
  transact X signTransaction address
    (badge_tx (λ b s, s <| bd_purchaseLoading := b |>)
       (id ← lift_result funded_id;
        due ← lift_result (bigint_of_number (num_of fundedInvoice "dueDate"));
        on_rpc (buildPurchaseCoverageTx X address id (big_of fundedInvoice "principal") (text_of fundedInvoice "sme") due
                  (text_of fundedInvoice "token")))
       "Coverage purchased successfully!")).

Definition fileClaim : Act unit := with_wallet (λ address,
  transact X signTransaction address
    (badge_tx (λ b s, s <| bd_claimLoading := b |>)
       (id ← lift_result funded_id; on_rpc (buildFileClaimTx X address id)) "Claim filed successfully!")).

End badge.

(** * Proofs *)

(** ** The slices *)

Lemma quot_sum_bounds {A} (f : A → Z) (total : Z) l :
  (∀ x, x ∈ l → 0 ≤ f x) → 0 < total →
  0 ≤ sum_by (λ x, Z.quot (f x * 10000) total) l ∧
  sum_by (λ x, Z.quot (f x * 10000) total) l * total ≤ sum_by f l * 10000 ∧
  sum_by f l * 10000 ≤ sum_by (λ x, Z.quot (f x * 10000) total) l * total + lengthZ l * (total - 1).
Proof.
  intros Hl Ht. induction l as [|x l IH]; [unfold sum_by, lengthZ; cbn; lia|].
  assert (0 ≤ f x) by (apply Hl; left). destruct IH as (IH1&IH2&IH3); [intros y Hy; apply Hl; by right|].
  unfold sum_by, lengthZ in *. cbn [foldr length] in *. rewrite Nat2Z.inj_succ.
  rewrite Z.quot_div_nonneg by lia. pose proof (Z.div_mod (f x * 10000) total ltac:(lia)).
  pose proof (Z.mod_pos_bound (f x * 10000) total ltac:(lia)). pose proof (Z.div_pos (f x * 10000) total ltac:(lia) ltac:(lia)).
  rewrite !Z.mul_add_distr_r, Z.mul_succ_l. lia.
Qed.

Lemma sum_by_positive {A} (f g : A → Z) l :
  (∀ x, x ∈ l → 0 ≤ f x) → (∀ x, f x = 0 → g x = 0) →
  sum_by g (List.filter (λ x, 0 <? f x) l) = sum_by g l.
Proof.
  intros Hl Hg. induction l as [|x l IH]; [done|]. assert (0 ≤ f x) by (apply Hl; left).
  unfold sum_by in *. cbn [List.filter foldr]. rewrite <-IH by (intros y Hy; apply Hl; by right).
  destruct (Z.ltb_spec 0 (f x)); [done|]. rewrite (Hg x) by lia. lia.
Qed.

(** The slices of the allocation, in hundredths of a percent, are never more than
    a whole together, none is negative, and less than a hundredth of a percent is lost
    for each token. *)
Theorem pie_slices_bound l :
  (∀ r, r ∈ l → 0 ≤ ur_deposited r) → 0 < totalUsdcDeposited l →
  let slices := List.filter (λ r, 0 <? ur_deposited r) l in
  let bps := sum_by (slice_bps (totalUsdcDeposited l)) slices in
  (∀ r, r ∈ slices → 0 ≤ slice_bps (totalUsdcDeposited l) r) ∧ 10000 - lengthZ slices ≤ bps ≤ 10000.
Proof.
  intros Hl Ht slices bps. set (total := totalUsdcDeposited l) in *.
  assert (∀ r, r ∈ slices → 0 ≤ ur_deposited r) as Hs.
  { intros r Hr. apply Hl. subst slices. by apply list_elem_of_In, filter_In, proj1, list_elem_of_In in Hr. }
  assert (sum_by ur_deposited slices = total) as Hsum by (by apply sum_by_positive).
  destruct (quot_sum_bounds ur_deposited total slices Hs Ht) as (H1&H2&H3). rewrite Hsum in H2, H3.
  change (sum_by (λ x, Z.quot (ur_deposited x * 10000) total) slices) with bps in *.
  split.
  - intros r Hr. unfold slice_bps. specialize (Hs r Hr). rewrite Z.quot_div_nonneg by lia. by apply Z.div_pos; lia.
  - pose proof (lengthZ_nonneg slices). nia.
Qed.

(** ** What the actions leave true *)

Section actions.
Context {W : Type} (X : Chain W).
Context (signTransaction : string → string → string → M W (string * option string)).
Context (wallet : Wallet).
Context (I : W → Prop) (signed : string → W → Prop) (me : string).
Context (HW : honest_wallet X signTransaction I signed me) (Hme : address_of wallet = Some me).

Context (fetch : string → M W (bool * result jsval)) (INDEXER_URL : string) (formatUSDC : Z → string).
Context (Hfetch : ∀ url, keeps I (fetch url)).

Inductive portfolio_action : M (Page W PortfolioState) unit → Prop :=
| portfolio_load : portfolio_action (load X fetch INDEXER_URL wallet)
| portfolio_request token :
    portfolio_action (handleRequestWithdrawal X signTransaction fetch INDEXER_URL formatUSDC wallet token)
| portfolio_cancel token : portfolio_action (handleCancelWithdrawal X signTransaction fetch INDEXER_URL wallet token)
| portfolio_drain token : portfolio_action (handleDrainQueue X signTransaction fetch INDEXER_URL wallet token).

Lemma load_keeps : page_keeps I (load X fetch INDEXER_URL wallet).
Proof. keep_page. Qed.
#[local] Hint Resolve load_keeps : page_keep.

Lemma portfolio_action_keeps m : portfolio_action m → page_keeps I m.
Proof.
  destruct 1; unfold handleRequestWithdrawal, handleCancelWithdrawal, handleDrainQueue, queue_handler; rewrite ?Hme;
    keep_page.
Qed.

Lemma claim_keeps token : page_keeps I (claim X signTransaction wallet token).
Proof. unfold claim. rewrite Hme. keep_page. Qed.

Inductive badge_action fundedInvoice : M (Page W Badge) unit → Prop :=
| badge_coverage : badge_action fundedInvoice (mutateCoverage X fundedInvoice)
| badge_premium : badge_action fundedInvoice (load_premium X fundedInvoice)
| badge_purchase : badge_action fundedInvoice (purchase X signTransaction wallet fundedInvoice)
| badge_claim : badge_action fundedInvoice (fileClaim X signTransaction wallet fundedInvoice).

Lemma badge_action_keeps fundedInvoice m : badge_action fundedInvoice m → page_keeps I m.
Proof. destruct 1; unfold purchase, fileClaim, with_wallet; rewrite ?Hme; keep_page. Qed.

End actions.
