(* ===== verification/InvestPages.v ===== *)
(** * Investing: app/invest/page.tsx, tranches, co-funding and secondary-market

    Deposits into and withdrawals from the pool, deposits into a tranche, commitments to
    invoices and their transfer, listings and orders. *)
From S2P Require Import Prelude.
From S2P Require Import JsValue.
From S2P Require Import JsNumber.
From S2P Require Import JsArith.
From S2P Require Import Hex.
From S2P Require Import Sdk.
From S2P Require Import Abi.
From S2P Require Import ContractAbi.
From S2P Require Import RpcPool.
From S2P Require Import Stellar.
From S2P Require Import Amounts.
From S2P Require Import WebAbi.
From S2P Require Import WebPool.
From S2P Require Import WebMarket.
From S2P Require Import WebTranche.
From S2P Require Import WebCache.
From S2P Require Import PageTx.
#[local] Open Scope string_scope.
#[local] Open Scope list_scope.
#[local] Open Scope Z_scope.

(** ** app/invest/page.tsx *)

Inductive InvestMode := deposit | withdraw.

Record InvestState := {
  in_amount : string; in_mode : InvestMode; in_loading : bool; in_txLoading : bool; in_confirmWithdrawOpen : bool;
  in_poolConfig : option Fields; in_position : option Fields; in_acceptedTokens : list jsval; in_selectedToken : string;
  in_tokenTotals : option Fields; in_tokenDepositCap : Z; in_rateModel : option Fields; in_liveRateBps : option number;
  in_kycRequired : bool; in_kycApproved : bool }.

#[export] Instance eta_InvestState : Eta InvestState := λ s, {|
  in_amount := in_amount s; in_mode := in_mode s; in_loading := in_loading s; in_txLoading := in_txLoading s;
  in_confirmWithdrawOpen := in_confirmWithdrawOpen s; in_poolConfig := in_poolConfig s; in_position := in_position s;
  in_acceptedTokens := in_acceptedTokens s; in_selectedToken := in_selectedToken s; in_tokenTotals := in_tokenTotals s;
  in_tokenDepositCap := in_tokenDepositCap s; in_rateModel := in_rateModel s; in_liveRateBps := in_liveRateBps s;
  in_kycRequired := in_kycRequired s; in_kycApproved := in_kycApproved s |}.

(** The cells that are written while the network is waited for: [txStatus], [txHash]
    and [txError]. *)
Record TxCells := { tc_status : string; tc_hash : option string; tc_error : option string }.

(** *** The cap of a token *)

Definition remainingTokenCapacity (s : InvestState) : option Z :=
  match in_tokenTotals s with
  | Some totals =>
      if 0 <? in_tokenDepositCap s then
        Some (if big_of totals "totalDeposited" <? in_tokenDepositCap s
              then in_tokenDepositCap s - big_of totals "totalDeposited" else 0)
      else None
  | None => None
  end.

Definition is_deposit (s : InvestState) : bool := match in_mode s with deposit => true | withdraw => false end.

Definition depositAtCapacity (s : InvestState) : bool :=
  match in_tokenTotals s with
  | Some totals => is_deposit s && (0 <? in_tokenDepositCap s) && (in_tokenDepositCap s <=? big_of totals "totalDeposited")
  | None => false
  end.

(** Computed at every rendering: an amount that is no number throws. *)
Definition depositExceedsCap (s : InvestState) : result bool :=
  match remainingTokenCapacity s with
  | Some remaining =>
      if is_deposit s && (0 <? in_tokenDepositCap s) && negb (String.eqb (in_amount s) "") then
        stroops ← toStroops (parseFloat (in_amount s)); Ok (remaining <? stroops)
      else Ok false
  | None => Ok false
  end.

Definition showDepositWarning (s : InvestState) : bool := is_deposit s && in_kycRequired s && negb (in_kycApproved s).

Section invest.
Context {W : Type} (X : Chain W).
Context (signTransaction : string → string → string → M W (string * option string)).
Context (set_cells : (TxCells → TxCells) → M W unit) (formatUSDC : Z → string) (env : StablecoinIds).
Context (wallet : Wallet).

Local Abbreviation Act := (M (Page W InvestState)).

Definition pickDefaultToken (tokens : list jsval) : string :=
  let usdc := USDC_TOKEN_ID env in
  match tokens with
  | [] => ""
  | t :: _ => if negb (String.eqb usdc "") && existsb (λ v, is_str v usdc) tokens then usdc else js_String t
  end.

Definition keep_token (tokens : list jsval) (prev : string) : string :=
  if negb (String.eqb prev "") && existsb (λ v, is_str v prev) tokens then prev else pickDefaultToken tokens.

Definition loadPool : Act unit :=
  set_ui (λ s, s <| in_loading := true |>);;
  ignore_errors
    (config ← on_rpc (getPoolConfig X);
     tokens ← on_rpc (getAcceptedTokens X);
     set_ui (λ s, s <| in_poolConfig := Some config |> <| in_acceptedTokens := elements_of tokens |>
                    <| in_selectedToken := keep_token (elements_of tokens) (in_selectedToken s) |>));;
  set_ui (λ s, s <| in_loading := false |>).

Definition POOL_CONFIGURED : bool := negb (String.eqb (ch_id X Pool) "").

Definition loadTokenTotals (token : string) : Act unit :=
  if POOL_CONFIGURED then
    try_catch
      (totals ← on_rpc (getPoolTokenTotals X token);
       cap ← on_rpc (getTokenDepositCap X token);
       set_ui (λ s, s <| in_tokenTotals := Some totals |> <| in_tokenDepositCap := cap |>))
      (λ _, set_ui (λ s, s <| in_tokenTotals := None |> <| in_tokenDepositCap := 0 |>))
  else mret tt.

Definition loadRateModel (token : string) : Act unit :=
  if POOL_CONFIGURED then
    try_catch
      (model ← on_rpc (getRateModelConfig X token);
       set_ui (λ s, s <| in_rateModel := model |>);;
       rate ← match model with Some _ => on_rpc (getCurrentRate X token) | None => mret None end;
       set_ui (λ s, s <| in_liveRateBps := rate |>))
      (λ _, set_ui (λ s, s <| in_rateModel := None |> <| in_liveRateBps := None |>))
  else mret tt.

Definition loadPosition (addr token : string) : Act unit := ignore_errors
  (pos ← on_rpc (getInvestorPosition X addr token); set_ui (λ s, s <| in_position := pos |>)).

Definition loadKyc : Act unit := ignore_errors
  (required ← on_rpc (getKycRequired X);
   set_ui (λ s, s <| in_kycRequired := required |>);;
   match address_of wallet with
   | Some address =>
       if (required : bool) then
         investor ← lift_result (parseStellarAddress address);
         approved ← on_rpc (getInvestorKyc X investor);
         set_ui (λ s, s <| in_kycApproved := approved |>)
       else set_ui (λ s, s <| in_kycApproved := true |>)
   | None => set_ui (λ s, s <| in_kycApproved := true |>)
   end).

(** The listener that [submitTx] is given. *)
Definition show_progress (p : TransactionProgress) : M W unit := set_cells (λ _, {|
  tc_status := progress_status p; tc_hash := Some (progress_hash p); tc_error := progress_error p |}).

Definition done_message (mode : InvestMode) (stroops : Z) (token : string) : string :=
  match mode with deposit => "Deposited " | withdraw => "Withdrew " end
  +:+ formatUSDC stroops +:+ " " +:+ stablecoinLabel env token +:+ " successfully.".

Definition invest_tx (address token : string) (s : InvestState) : Transaction W InvestState := {|
  tx_busy := λ b s, s <| in_txLoading := b |>;
  tx_build :=
    (_ ← on_world (set_cells (λ _, {| tc_status := "pending"; tc_hash := None; tc_error := None |}));
     stroops ← lift_result (toStroops (parseFloat (in_amount s)));
     on_rpc (match in_mode s with
             | deposit => buildDepositTx X address token stroops
             | withdraw => buildWithdrawTx X address token stroops
             end));
  tx_rejected := as_it_is;
  tx_submit := submit X show_progress;
  tx_done :=
    (stroops ← lift_result (toStroops (parseFloat (in_amount s)));
     toast (ToastSuccess (done_message (in_mode s) stroops token));;
     _ ← on_world (set_cells (λ c, {| tc_status := "confirmed"; tc_hash := tc_hash c; tc_error := tc_error c |}));
     set_ui (λ s, s <| in_amount := "" |>);;
     loadPool;; loadTokenTotals token;; loadPosition address token);
  tx_failed := λ message,
    toast (ToastError message);;
    on_world (set_cells (λ c, {| tc_status := "failed"; tc_hash := tc_hash c; tc_error := Some message |})) |}.

Definition submitTransaction : Act unit :=
  s ← get_ui;
  match address_of wallet with
  | None => mret tt
  | Some address =>
      if String.eqb (in_amount s) "" || String.eqb (in_selectedToken s) "" then mret tt
      else transact X signTransaction address (invest_tx address (in_selectedToken s) s)
  end.

(** A withdrawal is asked about first. *)
Definition handleSubmit : Act unit :=
  s ← get_ui;
  match in_mode s with
  | withdraw => set_ui (λ s, s <| in_confirmWithdrawOpen := true |>)
  | deposit => submitTransaction
  end.

Definition handleConfirmWithdraw : Act unit :=
  set_ui (λ s, s <| in_confirmWithdrawOpen := false |>);; submitTransaction.

(** What is simulated while an amount is being entered, and when. *)
Definition simulateDeposit (s : InvestState) : result (option (list ScArg)) :=
  match address_of wallet with
  | None => Ok None
  | Some address =>
      exceeds ← depositExceedsCap s;
      if String.eqb (in_selectedToken s) "" || String.eqb (in_amount s) "" || num_leb (parseFloat (in_amount s)) (num_of_Z 0)
         || exceeds || negb (is_deposit s) then Ok None
      else stroops ← toStroops (parseFloat (in_amount s));
           Ok (Some [ArgAddress address; ArgAddress (in_selectedToken s); ArgI128 stroops])
  end.

Definition simulation_enabled (s : InvestState) : result bool :=
  exceeds ← depositExceedsCap s;
  Ok (bool_decide (is_Some (address_of wallet)) && negb (String.eqb (in_selectedToken s) "")
      && negb (String.eqb (in_amount s) "") && num_ltb (num_of_Z 0) (parseFloat (in_amount s)) && is_deposit s
      && negb exceeds && negb (showDepositWarning s)).

(** Whether the button of the form can be pressed, and that of a retry, which does not
    ask about withdrawals again. *)
Definition submit_enabled (simulating : bool) (s : InvestState) : result bool :=
  exceeds ← depositExceedsCap s;
  Ok (negb (in_txLoading s) && negb (String.eqb (in_amount s) "") && negb (String.eqb (in_selectedToken s) "")
      && negb (showDepositWarning s) && negb (depositAtCapacity s) && negb exceeds && negb simulating).
Definition retry_enabled (c : TxCells) (s : InvestState) : bool :=
  String.eqb (tc_status c) "failed" && negb (in_txLoading s) && negb (String.eqb (in_amount s) "")
  && negb (String.eqb (in_selectedToken s) "").

(** [currentUtilizationBps] of the rate curve. *)
Definition currentUtilizationBps (s : InvestState) : number :=
  match in_tokenTotals s with
  | Some totals =>
      if 0 <? big_of totals "totalDeposited"
      then num_of_Z (Z.quot (big_of totals "totalDeployed" * 10000) (big_of totals "totalDeposited")) else num_of_Z 0
  | None => num_of_Z 0
  end.

End invest.

(** ** app/invest/tranches/page.tsx *)

Definition TOKENS : list string := ["USDC"; "USDT"; "EURC"].

Record TranchesState := {
  tn_selectedToken : string; tn_depositAmount : number; tn_showDepositModal : bool; tn_selectedTranche : option TrancheClass;
  tn_pool : option TranchePool; tn_apy : jsval * jsval; tn_loading : bool; tn_depositing : bool }.

#[export] Instance eta_TranchesState : Eta TranchesState := λ s, {|
  tn_selectedToken := tn_selectedToken s; tn_depositAmount := tn_depositAmount s;
  tn_showDepositModal := tn_showDepositModal s; tn_selectedTranche := tn_selectedTranche s; tn_pool := tn_pool s;
  tn_apy := tn_apy s; tn_loading := tn_loading s; tn_depositing := tn_depositing s |}.

(** What a card shows of a tranche, in units of the token. *)
Record TrancheCard := {
  tk_deposited : number; tk_available : number; tk_deployed : number; tk_earned : number; tk_losses : number }.

Definition units (n : Z) : number := num_div (num_of_Z n) (num_of_Z 10000000).

Definition tranche_card (class : TrancheClass) (pool : TranchePool) : TrancheCard :=
  let accounting := match class with TrancheClass_Senior => tp_senior pool | TrancheClass_Junior => tp_junior pool end in
  {| tk_deposited := units (big_of accounting "deposited"); tk_available := units (big_of accounting "available");
     tk_deployed := units (big_of accounting "deployed"); tk_earned := units (big_of accounting "earned");
     tk_losses := units (big_of accounting "losses") |}.

(** The button of a card cannot be pressed when there is no capacity. *)
Definition card_enabled (c : TrancheCard) : bool := negb (num_eqb (tk_available c) (num_of_Z 0)).

Definition seniorTargetApy (pool : option TranchePool) : number :=
  match pool with
  | Some p => num_div (js_Number (get_prop_opt (tp_config p) "senior_target_yield_bps")) (num_of_Z 100)
  | None => num_of_Z 10
  end.

Definition class_name (class : TrancheClass) : string :=
  match class with TrancheClass_Senior => "Senior" | TrancheClass_Junior => "Junior" end.

Section tranches.
Context {W : Type} (X : Chain W).
Context (signTransaction : string → string → string → M W (string * option string)).
Context (fetch : string → M W (bool * result jsval)) (INDEXER_URL : string) (numberText : number → string).
Context (wallet : Wallet).

Local Abbreviation Act := (M (Page W TranchesState)).

Definition fetchTrailingApy (token : string) : Act (jsval * jsval) :=
  '(ok, body) ← on_world (fetch (INDEXER_URL +:+ "/tranches/" +:+ encodeURIComponent token +:+ "/apy"));
  if (ok : bool) then
    data ← lift_result body;
    senior ← lift_result (get_prop data "senior");
    junior ← lift_result (get_prop data "junior");
    mret (js_coalesce (get_prop_opt senior "realizedApyPct") (JNum 0),
          js_coalesce (get_prop_opt junior "realizedApyPct") (JNum 0))
  else throw (EError "indexer unavailable").

Definition load_tranches : Act unit :=
  s ← get_ui;
  set_ui (λ s, s <| tn_loading := true |>);;
  pool ← settled (on_rpc (getTranchePool X (tn_selectedToken s)));
  apy ← or_else (JNum 0, JNum 0) (fetchTrailingApy (tn_selectedToken s));
  set_ui (λ s, s <| tn_pool := match pool with Some p => Some p | None => tn_pool s end |> <| tn_apy := apy |>);;
  set_ui (λ s, s <| tn_loading := false |>).

Definition handleDeposit (tranche : TrancheClass) : Act unit :=
  set_ui (λ s, s <| tn_selectedTranche := Some tranche |> <| tn_showDepositModal := true |>).

Definition confirmDeposit : Act unit :=
  s ← get_ui;
  match address_of wallet, tn_selectedTranche s with
  | Some address, Some class =>
      if negb (w_connected wallet) || num_leb (tn_depositAmount s) (num_of_Z 0) then mret tt
      else
        transact X signTransaction address {|
          tx_busy := λ b s, s <| tn_depositing := b |>;
          tx_build :=
            (amount ← lift_result (toStroops (tn_depositAmount s));
             on_rpc (buildTrancheDepositTx X address (tn_selectedToken s) class amount));
          tx_rejected := as_it_is; tx_submit := submit X quiet_progress;
          tx_done :=
            (toast (ToastSuccess ("Deposited " +:+ numberText (tn_depositAmount s) +:+ " " +:+ tn_selectedToken s +:+ " to "
                                  +:+ class_name class +:+ " tranche"));;
             set_ui (λ s, s <| tn_showDepositModal := false |> <| tn_depositAmount := num_of_Z 0 |>);;
             load_tranches);
          tx_failed := report |}
  | _, _ => mret tt
  end.

End tranches.

(** ** Submitting with a label

    The two pages below wrap [signAndSubmit]: with a label, the submitter is what
    [UseTrackTransaction(label)] returns, called there. *)
Section tracked.
Context {W P : Type} (X : Chain W).
(** What React makes of a hook that an event handler calls; the listener of a label,
    which keeps the tracked transactions as [track] does. *)
Context (hook : result unit) (tracked : string → TransactionProgress → M W unit).

Definition submit_labelled (page : string) (label : string) (signedTxXdr : string) : M (Page W P) unit :=
  submitter ← lift_result
    (if String.eqb label "" then Ok (submit X (tracked page)) else UseTrackTransaction hook (submit X (tracked label)));
  submitter signedTxXdr.

End tracked.

(** ** app/invest/co-funding/page.tsx *)

(** [mutated]: the keys that were given to [mutate], for SWR to read again. *)
Record CoFundingState := {
  cf_txLoading : bool; cf_commitAmounts : number → string; cf_rounds : list Fields; cf_positions : list (number * jsval);
  cf_transferTarget : option number; cf_transferTo : string; cf_transferBps : string; cf_mutated : list SwrKey }.

#[export] Instance eta_CoFundingState : Eta CoFundingState := λ s, {|
  cf_txLoading := cf_txLoading s; cf_commitAmounts := cf_commitAmounts s; cf_rounds := cf_rounds s;
  cf_positions := cf_positions s; cf_transferTarget := cf_transferTarget s; cf_transferTo := cf_transferTo s;
  cf_transferBps := cf_transferBps s; cf_mutated := cf_mutated s |}.

Definition round_status_is (status : string) (r : Fields) : bool := is_str (raw_of r "status") status.
Definition openRounds (s : CoFundingState) : list Fields := List.filter (round_status_is "Open") (cf_rounds s).

(** The percentage that is committed, in hundredths, over 100. *)
Definition committed_pct (r : Fields) : number :=
  if 0 <? big_of r "targetPrincipal"
  then num_div (num_of_Z (Z.quot (big_of r "committedPrincipal" * 10000) (big_of r "targetPrincipal"))) (num_of_Z 100)
  else num_of_Z 0.

Definition round_of (s : CoFundingState) (invoiceId : number) : option Fields :=
  find (λ r, num_eqb (num_of r "invoiceId") invoiceId) (cf_rounds s).

(** The buttons of a position. *)
Definition position_action (s : CoFundingState) (invoiceId : number) (status : string) : bool :=
  match round_of s invoiceId with Some r => round_status_is status r | None => false end.

Section co_funding.
Context {W : Type} (X : Chain W).
Context (signTransaction : string → string → string → M W (string * option string)).
Context (hook : result unit) (tracked : string → TransactionProgress → M W unit).
Context (numberText toFixed2 : number → string) (wallet : Wallet).

Local Abbreviation Act := (M (Page W CoFundingState)).

Definition mutate_co (keys : list SwrKey) : Act unit := set_ui (λ s, s <| cf_mutated := cf_mutated s ++ keys |>).

Definition positions_key (address : string) : SwrKey := KList [JStr "co-funding-positions"; JStr address].

Definition co_tx (builder : Act string) (label : string) (done : Act unit) : Transaction W CoFundingState := {|
  tx_busy := λ b s, s <| cf_txLoading := b |>; tx_build := builder; tx_rejected := or_rejected;
  tx_submit := submit_labelled X hook tracked "Co-Funding" label; tx_done := done; tx_failed := report |}.

Definition handleCommit (round : Fields) : Act unit :=
  s ← get_ui;
  match address_of wallet with
  | None => mret tt
  | Some address =>
      let invoiceId := num_of round "invoiceId" in
      let raw := cf_commitAmounts s invoiceId in
      let amountNum := Number_of_string raw in
      if String.eqb raw "" || negb (isFinite amountNum) || num_leb amountNum (num_of_Z 0)
      then toast (ToastError "Enter a valid commit amount.")
      else
        transact X signTransaction address
          (co_tx
             (investor ← lift_result (parseStellarAddress address);
              amount ← lift_result (toStroops amountNum);
              id ← lift_result (bigint_of_number invoiceId);
              on_rpc (buildCommitToInvoiceTx X investor id amount))
             ("Commit to #" +:+ numberText invoiceId)
             (toast (ToastSuccess ("Committed to invoice #" +:+ numberText invoiceId +:+ "."));;
              set_ui (λ s, s <| cf_commitAmounts := λ n, if num_eqb n invoiceId then "" else cf_commitAmounts s n |>);;
              mutate_co [KText "co-funding-rounds"; positions_key address]))
  end.

Definition handleWithdrawCommitment (invoiceId : number) : Act unit :=
  match address_of wallet with
  | None => mret tt
  | Some address =>
      transact X signTransaction address
        (co_tx
           (investor ← lift_result (parseStellarAddress address);
            id ← lift_result (bigint_of_number invoiceId);
            on_rpc (buildWithdrawCoFundingCommitmentTx X investor id))
           ("Withdraw from #" +:+ numberText invoiceId)
           (toast (ToastSuccess ("Withdrew commitment from invoice #" +:+ numberText invoiceId +:+ "."));;
            mutate_co [KText "co-funding-rounds"; positions_key address]))
  end.

Definition valid_bps (bps : number) : bool :=
  isFinite bps && negb (num_leb bps (num_of_Z 0)) && negb (num_ltb (num_of_Z 10000) bps).

Definition handleTransfer : Act unit :=
  s ← get_ui;
  match address_of wallet, cf_transferTarget s with
  | Some address, Some target =>
      let bps := Number_of_string (cf_transferBps s) in
      if negb (valid_bps bps) then toast (ToastError "Bps must be between 1 and 10000.")
      else
        transact X signTransaction address
          (co_tx
             (from ← lift_result (parseStellarAddress address);
              to ← lift_result (parseStellarAddress (trim (cf_transferTo s)));
              round ← match round_of s target with Some r => mret r | None => throw (EError "Round not found.") end;
              id ← lift_result (bigint_of_number target);
              n ← lift_result (bigint_of_number bps);
              on_rpc (buildTransferCoFundShareTx X from id (text_of round "token") to n))
             ("Transfer #" +:+ numberText target)
             (toast (ToastSuccess ("Transferred " +:+ toFixed2 (num_div bps (num_of_Z 100)) +:+ "% of invoice #"
                                   +:+ numberText target +:+ "."));;
              set_ui (λ s, s <| cf_transferTarget := None |> <| cf_transferTo := "" |>);;
              mutate_co [positions_key address]))
  | _, _ => mret tt
  end.

End co_funding.

(** ** app/invest/secondary-market/page.tsx *)

Record MarketState := {
  sm_txLoading : bool; sm_invoiceId : string; sm_kind : ListingKind; sm_amountOrBps : string; sm_price : string;
  sm_bookInvoiceId : string; sm_bookKind : ListingKind; sm_orderSide : OrderSide; sm_orderAmountOrBps : string;
  sm_orderPrice : string; sm_orderExpiresHours : string; sm_mutated : list SwrKey }.

#[export] Instance eta_MarketState : Eta MarketState := λ s, {|
  sm_txLoading := sm_txLoading s; sm_invoiceId := sm_invoiceId s; sm_kind := sm_kind s;
  sm_amountOrBps := sm_amountOrBps s; sm_price := sm_price s; sm_bookInvoiceId := sm_bookInvoiceId s;
  sm_bookKind := sm_bookKind s; sm_orderSide := sm_orderSide s; sm_orderAmountOrBps := sm_orderAmountOrBps s;
  sm_orderPrice := sm_orderPrice s; sm_orderExpiresHours := sm_orderExpiresHours s; sm_mutated := sm_mutated s |}.

(** [Math.trunc(x)]. *)
Definition Math_trunc (x : number) : number :=
  if num_ltb x (num_of_Z 0) then num_opp (Math_floor (num_opp x)) else Math_floor x.

(** An amount of a position to list or order: basis points of a share, or an amount.
    [inl] is what the page says of a text it does not take. *)
Definition amount_value (kind : ListingKind) (text : string) : result (string + Z) :=
  let n := Number_of_string text in
  match kind with
  | ListingKind_CoFunding =>
      if valid_bps n then v ← bigint_of_number (Math_trunc n); Ok (inr v) else Ok (inl "Bps must be between 1 and 10000.")
  | ListingKind_SingleFunded =>
      if negb (isFinite n) || num_leb n (num_of_Z 0) then Ok (inl "Enter a valid amount.")
      else v ← toStroops n; Ok (inr v)
  end.

(** [!priceNum || priceNum <= 0]. *)
Definition bad_price (n : number) : bool := isNaN n || num_leb n (num_of_Z 0).
Definition valid_id (n : number) : bool := isFinite n && num_ltb (num_of_Z 0) n.

Section market.
Context {W : Type} (X : Chain W).
Context (signTransaction : string → string → string → M W (string * option string)).
Context (hook : result unit) (tracked : string → TransactionProgress → M W unit).
Context (numberText : number → string) (wallet : Wallet).

Local Abbreviation Act := (M (Page W MarketState)).

Definition mutate_market (keys : list SwrKey) : Act unit := set_ui (λ s, s <| sm_mutated := sm_mutated s ++ keys |>).

Definition refreshListings : Act unit :=
  mutate_market (KText "secondary-market-open-listings"
                 :: match address_of wallet with
                    | Some a => [KList [JStr "secondary-market-my-listings"; JStr a]]
                    | None => []
                    end).

Definition bookInvoiceIdNum (s : MarketState) : number := Number_of_string (sm_bookInvoiceId s).
Definition hasValidBookInvoiceId (s : MarketState) : bool := valid_id (bookInvoiceIdNum s).

Definition refreshOrderBook : Act unit :=
  s ← get_ui;
  mutate_market ((if hasValidBookInvoiceId s
                  then [KList [JStr "secondary-market-order-book"; JNum (default 0 (num_to_Z (bookInvoiceIdNum s)));
                               JStr (ListingKind_name (sm_bookKind s))]]
                  else [])
                 ++ match address_of wallet with
                    | Some a => [KList [JStr "secondary-market-my-orders"; JStr a]]
                    | None => []
                    end).

Definition market_tx (builder : Act string) (label : string) (done : Act unit) : Transaction W MarketState := {|
  tx_busy := λ b s, s <| sm_txLoading := b |>; tx_build := builder; tx_rejected := or_rejected;
  tx_submit := submit_labelled X hook tracked "Secondary Market" label; tx_done := done; tx_failed := report |}.

Definition handleCreateListing : Act unit :=
  s ← get_ui;
  match address_of wallet with
  | None => mret tt
  | Some address =>
      let id := Number_of_string (sm_invoiceId s) in
      let priceNum := Number_of_string (sm_price s) in
      if negb (valid_id id) then toast (ToastError "Enter a valid invoice ID.")
      else if bad_price priceNum then toast (ToastError "Enter a valid price.")
      else
        amount ← lift_result (amount_value (sm_kind s) (sm_amountOrBps s));
        match amount with
        | inl message => toast (ToastError message)
        | inr value =>
            transact X signTransaction address
              (market_tx
                 (seller ← lift_result (parseStellarAddress address);
                  price ← lift_result (toStroops priceNum);
                  n ← lift_result (bigint_of_number id);
                  on_rpc (buildListPositionTx X seller n (sm_kind s) value price))
                 ("List invoice #" +:+ numberText id)
                 (toast (ToastSuccess ("Listed a position on invoice #" +:+ numberText id +:+ "."));;
                  set_ui (λ s, s <| sm_invoiceId := "" |> <| sm_amountOrBps := "" |> <| sm_price := "" |>);;
                  refreshListings))
        end
  end.

(** Cancelling and buying a listing, cancelling and expiring an order: what is called,
    and what is said before and after the id. *)
Definition by_id (id : number) (builder : string → Z → M (Rpc (W := W)) string) (label said : string) (refresh : Act unit)
    : Act unit :=
  match address_of wallet with
  | None => mret tt
  | Some address =>
      transact X signTransaction address
        (market_tx
           (a ← lift_result (parseStellarAddress address);
            n ← lift_result (bigint_of_number id);
            on_rpc (builder a n))
           (label +:+ numberText id)
           (toast (ToastSuccess (said +:+ numberText id +:+ "."));; refresh))
  end.

Definition handleCancel (listing : Fields) : Act unit :=
  by_id (num_of listing "listingId") (buildCancelListingTx X) "Cancel listing #" "Cancelled listing #" refreshListings.
Definition handleBuy (listing : Fields) : Act unit :=
  by_id (num_of listing "listingId") (buildBuyListingTx X) "Buy listing #" "Bought listing #" refreshListings.
Definition handleCancelOrder (order : Fields) : Act unit :=
  by_id (num_of order "orderId") (buildCancelOrderTx X) "Cancel order #" "Cancelled order #" refreshOrderBook.
Definition handleExpireOrder (order : Fields) : Act unit :=
  by_id (num_of order "orderId") (buildExpireOrderTx X) "Expire order #" "Expired order #" refreshOrderBook.

(** [now] is the time in milliseconds. *)
Definition expiresAt (now : Z) (text : string) : number :=
  let hours := Number_of_string text in
  if negb (String.eqb text "") && isFinite hours && num_ltb (num_of_Z 0) hours
  then num_add (Math_floor (num_div (num_of_Z now) (num_of_Z 1000))) (Math_round (num_mul hours (num_of_Z 3600)))
  else num_of_Z 0.

Definition side_label (side : OrderSide) : string := toLowerCase (OrderSide_name side).

Definition handlePlaceOrder : Act unit :=
  s ← get_ui;
  match address_of wallet with
  | None => mret tt
  | Some address =>
      let id := bookInvoiceIdNum s in
      let priceNum := Number_of_string (sm_orderPrice s) in
      if negb (hasValidBookInvoiceId s) then toast (ToastError "Enter a valid invoice ID.")
      else if bad_price priceNum then toast (ToastError "Enter a valid price.")
      else
        amount ← lift_result (amount_value (sm_bookKind s) (sm_orderAmountOrBps s));
        match amount with
        | inl message => toast (ToastError message)
        | inr value =>
            now ← time_now X;
            let expires := expiresAt now (sm_orderExpiresHours s) in
            transact X signTransaction address
              (market_tx
                 (owner ← lift_result (parseStellarAddress address);
                  price ← lift_result (toStroops priceNum);
                  n ← lift_result (bigint_of_number id);
                  until ← lift_result (bigint_of_number expires);
                  on_rpc (buildPlaceOrderTx X owner n (sm_bookKind s) (sm_orderSide s) value price (Some until)))
                 ("Place " +:+ side_label (sm_orderSide s) +:+ " on invoice #" +:+ numberText id)
                 (toast (ToastSuccess ("Order placed on invoice #" +:+ numberText id +:+ "."));;
                  set_ui (λ s, s <| sm_orderAmountOrBps := "" |> <| sm_orderPrice := "" |> <| sm_orderExpiresHours := "" |>);;
                  refreshOrderBook))
        end
  end.

End market.

(** * Proofs *)

(** ** Caps *)

(** A deposit for which the button of the form can be pressed is of an amount that
    can be deposited without exceeding the cap of the token, if it has one. *)
Theorem deposit_within_cap simulating s totals :
  submit_enabled simulating s = Ok true → in_mode s = deposit →
  in_tokenTotals s = Some totals → 0 < in_tokenDepositCap s →
  ∃ stroops, toStroops (parseFloat (in_amount s)) = Ok stroops ∧
    big_of totals "totalDeposited" + stroops ≤ in_tokenDepositCap s.
Proof.
  unfold submit_enabled, depositExceedsCap, remainingTokenCapacity, depositAtCapacity, is_deposit.
  intros E Hm Ht Hc. rewrite Hm, Ht in E. rewrite (proj2 (Z.ltb_lt _ _) Hc) in E. cbn [andb] in E.
  destruct (String.eqb (in_amount s) "") eqn:Ea; cbn [negb andb] in E.
  { cbn in E. rewrite andb_false_r in E. done. }
  destruct (toStroops (parseFloat (in_amount s))) as [stroops|e]; [|done]. exists stroops. split; [done|].
  cbn [mbind result_bind] in E. injection E as E. rewrite !andb_true_iff, !negb_true_iff in E.
  destruct E as [[[[[[_ _] _] _] Hat] Hex] _]. apply Z.leb_gt in Hat. apply Z.ltb_ge in Hex.
  rewrite (proj2 (Z.ltb_lt _ _) Hat) in Hex. lia.
Qed.

(** A share of half a basis point is taken, and listed as none. *)
Lemma half_a_basis_point : amount_value ListingKind_CoFunding "0.5" = Ok (inr 0).
Proof. by vm_compute. Qed.

(** The tokens of the tranches page are names, not addresses of contracts. *)
Lemma tranche_tokens_no_addresses : Forall (λ t, isStellarAddress t = false) TOKENS.
Proof. by repeat constructor. Qed.

(** ** Rounds *)

Definition round_read (r : Fields) : Prop :=
  ∃ raw, native Pool_CoFundingRound raw = true ∧ decode coFundingRoundFromScVal raw = Ok r.

Lemma round_has_no_status status r : round_read r → round_status_is status r = false.
Proof.
  intros (raw&Hn&Hd). rewrite (decode_native coFundingRoundFromScVal Pool_CoFundingRound raw eq_refl Hn) in Hd.
  injection Hd as <-. destruct (native_struct _ _ Hn) as [o ->].
  assert (native Pool_CoFundingStatus (obj_get o "status") = true) as Hs by (by eapply native_lookup).
  unfold round_status_is, raw_of, PageTx.value_of, decoded. cbn. by destruct (obj_get o "status").
Qed.

(** Of the co-funding rounds that the pool contract gives, the page shows none as
    open, and none of the actions on a position: the status of a round is the array of
    its name, which is compared with the name. *)
Theorem no_open_rounds s :
  Forall round_read (cf_rounds s) →
  openRounds s = [] ∧ ∀ invoiceId status, position_action s invoiceId status = false.
Proof.
  intros H. split.
  - unfold openRounds. induction H as [|r rs Hr _ IH]; [done|]. cbn [List.filter]. by rewrite round_has_no_status.
  - intros invoiceId status. unfold position_action, round_of. destruct (find _ _) as [r|] eqn:E; [|done].
    apply find_some in E as [Hr _]. apply round_has_no_status. rewrite Forall_forall in H.
    by apply H, list_elem_of_In.
Qed.

(** ** What the actions leave true *)

Section actions.
Context {W : Type} (X : Chain W).
Context (signTransaction : string → string → string → M W (string * option string)).
Context (wallet : Wallet) (me : string) (Hme : address_of wallet = Some me).
Context (set_cells : (TxCells → TxCells) → M W unit) (formatUSDC : Z → string) (env : StablecoinIds).
Context (fetch : string → M W (bool * result jsval)) (INDEXER_URL : string) (numberText toFixed2 : number → string).
Context (hook : result unit) (tracked : string → TransactionProgress → M W unit).

Inductive invest_action : M (Page W InvestState) unit → Prop :=
| invest_pool : invest_action (loadPool X env)
| invest_totals token : invest_action (loadTokenTotals X token)
| invest_rates token : invest_action (loadRateModel X token)
| invest_position addr token : invest_action (loadPosition X addr token)
| invest_kyc : invest_action (loadKyc X wallet)
| invest_transaction : invest_action (submitTransaction X signTransaction set_cells formatUSDC env wallet)
| invest_submit : invest_action (handleSubmit X signTransaction set_cells formatUSDC env wallet)
| invest_confirm : invest_action (handleConfirmWithdraw X signTransaction set_cells formatUSDC env wallet).

Inductive tranches_action : M (Page W TranchesState) unit → Prop :=
| tranches_load : tranches_action (load_tranches X fetch INDEXER_URL)
| tranches_open class : tranches_action (handleDeposit class)
| tranches_confirm : tranches_action (confirmDeposit X signTransaction fetch INDEXER_URL numberText wallet).

(** The handlers that submit with a label. *)
Inductive co_funding_action : M (Page W CoFundingState) unit → Prop :=
| co_commit round : co_funding_action (handleCommit X signTransaction hook tracked numberText wallet round)
| co_withdraw id : co_funding_action (handleWithdrawCommitment X signTransaction hook tracked numberText wallet id)
| co_transfer : co_funding_action (handleTransfer X signTransaction hook tracked numberText toFixed2 wallet).

Inductive market_action : M (Page W MarketState) unit → Prop :=
| market_list : market_action (handleCreateListing X signTransaction hook tracked numberText wallet)
| market_cancel l : market_action (handleCancel X signTransaction hook tracked numberText wallet l)
| market_buy l : market_action (handleBuy X signTransaction hook tracked numberText wallet l)
| market_order : market_action (handlePlaceOrder X signTransaction hook tracked numberText wallet)
| market_cancel_order o : market_action (handleCancelOrder X signTransaction hook tracked numberText wallet o)
| market_expire o : market_action (handleExpireOrder X signTransaction hook tracked numberText wallet o).

Section honest.
Context (I : W → Prop) (signed : string → W → Prop).
Context (HW : honest_wallet X signTransaction I signed me).
Context (Hfetch : ∀ url, keeps I (fetch url)).
Context (Hcells : ∀ f, keeps I (set_cells f)).
Context (Hcells_signed : ∀ xdr f, keeps (ok_and_signed I signed xdr) (set_cells f)).
Context (Htracked : ∀ xdr label p, keeps (ok_and_signed I signed xdr) (tracked label p)).

Lemma progress_submits {P} : submits (P := P) I signed (submit X (show_progress set_cells)).
Proof. eapply submit_submits; [exact HW|]. intros xdr p. apply Hcells_signed. Qed.
#[local] Hint Resolve progress_submits : page_keep.

Lemma labelled_submits {P} page label : submits (P := P) I signed (submit_labelled X hook tracked page label).
Proof.
  intros xdr. unfold submit_labelled, page_keeps.
  assert (∀ l, page_keeps (P := P) (ok_and_signed I signed xdr) (submit X (tracked l) xdr)) as Hl.
  { intros l. eapply submit_submits; [exact HW|]. intros xdr' p. apply Htracked. }
  apply keeps_lift_bind. intros submitter E. destruct (String.eqb label ""); [injection E as <-; apply Hl|].
  unfold UseTrackTransaction in E. destruct hook; [|done]. injection E as <-. apply Hl.
Qed.
#[local] Hint Resolve labelled_submits : page_keep.

Lemma submitTransaction_keeps : page_keeps I (submitTransaction X signTransaction set_cells formatUSDC env wallet).
Proof. unfold submitTransaction. rewrite Hme. keep_page. Qed.
#[local] Hint Resolve submitTransaction_keeps : page_keep.

Lemma invest_action_keeps m : invest_action m → page_keeps I m.
Proof. destruct 1; keep_page. Qed.

Lemma tranches_action_keeps m : tranches_action m → page_keeps I m.
Proof. destruct 1; unfold confirmDeposit; rewrite ?Hme; keep_page. Qed.

Lemma co_funding_action_keeps m : co_funding_action m → page_keeps I m.
Proof. destruct 1; unfold handleCommit, handleWithdrawCommitment, handleTransfer; rewrite ?Hme; keep_page. Qed.

Lemma market_action_keeps m : market_action m → page_keeps I m.
Proof.
  destruct 1; unfold handleCreateListing, handleCancel, handleBuy, handlePlaceOrder, handleCancelOrder, handleExpireOrder,
    by_id, refreshListings; rewrite ?Hme; keep_page.
Qed.
End honest.

(** *** Hooks outside of rendering *)

Section quiet.
Context (I : W → Prop) (HQ : quiet_wallet X signTransaction I me).
Context (e : exn) (Hhook : hook = Throw e).

Lemma labelled_throws {P} page label xdr :
  String.eqb label "" = false → submit_labelled (P := P) X hook tracked page label xdr = throw e.
Proof. intros Hl. unfold submit_labelled. rewrite Hl, Hhook. done. Qed.

Lemma labelled_quiet {P} page c label rest xdr :
  page_keeps (P := P) I (submit_labelled X hook tracked page (String c label +:+ rest) xdr).
Proof. rewrite labelled_throws by done. apply keeps_throw. Qed.
#[local] Hint Resolve labelled_quiet : page_keep.

Lemma co_funding_quiet m : co_funding_action m → page_keeps I m.
Proof.
  destruct 1; unfold handleCommit, handleWithdrawCommitment, handleTransfer; rewrite ?Hme; keep_page.
Qed.

Lemma market_quiet m : market_action m → page_keeps I m.
Proof.
  destruct 1; unfold handleCreateListing, handleCancel, handleBuy, handlePlaceOrder, handleCancelOrder, handleExpireOrder,
    by_id, refreshListings; rewrite ?Hme; keep_page.
Qed.
End quiet.

End actions.

(** The co-funding and secondary-market pages call the hook [UseTrackTransaction]
    where the wallet has already signed. React lets no event handler call a hook: it
    throws, so none of their actions ever sends a transaction, and the user is shown
    the hook's error in place of the result. [sends] counts what is sent. *)
Theorem labelled_pages_send_nothing {W : Type} (X : Chain W) signTransaction wallet me numberText toFixed2 e tracked
    (sends : W → Z) :
  address_of wallet = Some me →
  (∀ n, quiet_wallet X signTransaction (λ w, sends w = n) me) →
  (∀ m p, co_funding_action X signTransaction wallet numberText toFixed2 (Throw e) tracked m →
     sends (world (rpc (net (m p).2))) = sends (world (rpc (net p)))) ∧
  (∀ m p, market_action X signTransaction wallet numberText (Throw e) tracked m →
     sends (world (rpc (net (m p).2))) = sends (world (rpc (net p)))).
Proof.
  intros Hme HQ. split; intros m p Hm.
  - pose proof (co_funding_quiet X signTransaction wallet me Hme numberText toFixed2 (Throw e) tracked
                  (λ w, sends w = sends (world (rpc (net p)))) (HQ _) e eq_refl m Hm) as Hk.
    by apply (keeps_total _ m p Hk).
  - pose proof (market_quiet X signTransaction wallet me Hme numberText (Throw e) tracked
                  (λ w, sends w = sends (world (rpc (net p)))) (HQ _) e eq_refl m Hm) as Hk.
    by apply (keeps_total _ m p Hk).
Qed.
