(* ===== verification/UserPages.v ===== *)
(** * Votes and scores: app/governance/page.tsx, arbitration/jurors and dashboard/credit

    The proposals and the votes of share holders; the jurors' stakes and their secret
    votes, whose salts the browser keeps; the credit profile of a borrower and the
    disputes of attestations. *)
From S2P Require Import Prelude.
From S2P Require Import JsValue.
From S2P Require Import JsNumber.
From S2P Require Import JsArith.
From S2P Require Import Hex.
From S2P Require Import Sdk.
From S2P Require Import Abi.
From S2P Require Import ContractAbi.
From S2P Require Import RpcPool.
From S2P Require Import Stellar.
From S2P Require Import Amounts.
From S2P Require Import WebAbi.
From S2P Require Import WebPool.
From S2P Require Import WebContracts.
From S2P Require Import WebErrors.
From S2P Require Import PageTx.
From Stdlib Require Import Ascii.
Import WebCredit.
Import WebGovernance.
Import WebArbitration.
#[local] Open Scope string_scope.
#[local] Open Scope list_scope.
#[local] Open Scope Z_scope.

(** ** app/governance/page.tsx *)

Definition PROPOSALS_PAGE_SIZE : nat := 10.
Definition STATUS_FILTERS : list string := ["All"; "Active"; "Passed"; "Rejected"; "Executed"; "Expired"].

Record GovernanceState := {
  gv_proposals : list Fields; gv_loading : bool; gv_refreshing : bool; gv_votingPower : option Z;
  gv_config : option Fields; gv_selectedId : option number; gv_submitting : bool; gv_description : string;
  gv_targetContract : string; gv_functionName : string; gv_calldata : string; gv_statusFilter : string;
  gv_visibleCount : nat }.

#[export] Instance eta_GovernanceState : Eta GovernanceState := λ s, {|
  gv_proposals := gv_proposals s; gv_loading := gv_loading s; gv_refreshing := gv_refreshing s;
  gv_votingPower := gv_votingPower s; gv_config := gv_config s; gv_selectedId := gv_selectedId s;
  gv_submitting := gv_submitting s; gv_description := gv_description s; gv_targetContract := gv_targetContract s;
  gv_functionName := gv_functionName s; gv_calldata := gv_calldata s; gv_statusFilter := gv_statusFilter s;
  gv_visibleCount := gv_visibleCount s |}.

(** The order of the ids, which are integers. *)
Definition proposal_rank (p : Fields) : Z := - default 0 (num_to_Z (num_of p "id")).
Definition sortedProposals (s : GovernanceState) : list Fields := sort_by proposal_rank (gv_proposals s).

Definition proposal_is (status : string) (p : Fields) : bool := is_str (raw_of p "status") status.

Definition filteredProposals (s : GovernanceState) : list Fields :=
  if String.eqb (gv_statusFilter s) "All" then sortedProposals s
  else List.filter (proposal_is (gv_statusFilter s)) (sortedProposals s).
Definition visibleProposals (s : GovernanceState) : list Fields := take (gv_visibleCount s) (filteredProposals s).
Definition hasMoreProposals (s : GovernanceState) : bool := (gv_visibleCount s <? length (filteredProposals s))%nat.

(** The visible proposals, which are looked through next, are among [proposals]. *)
Definition selectedProposal (s : GovernanceState) : option Fields :=
  match gv_selectedId s with
  | Some id => find (λ p, num_eqb (num_of p "id") id) (gv_proposals s)
  | None => None
  end.

Section governance.
Context {W : Type} (X : Chain W).
Context (signTransaction : string → string → string → M W (string * option string)).
Context (wallet : Wallet).

Local Abbreviation Act := (M (Page W GovernanceState)).

Definition GOVERNANCE_CONTRACT_ID : string := ch_id X Governance.

Definition first_id (items : list Fields) (selected : option number) : option number :=
  match selected, items with
  | None, p :: _ => Some (num_of p "id")
  | _, _ => selected
  end.

Definition loadProposals : Act unit :=
  if String.eqb GOVERNANCE_CONTRACT_ID "" then set_ui (λ s, s <| gv_refreshing := false |>)
  else
    set_ui (λ s, s <| gv_refreshing := true |>);;
    try_catch
      (items ← on_rpc (listGovernanceProposals X);
       set_ui (λ s, s <| gv_proposals := items |> <| gv_selectedId := first_id items (gv_selectedId s) |>))
      (λ _, toast (ToastError "Unable to load governance proposals."));;
    set_ui (λ s, s <| gv_refreshing := false |>).

Definition loadVotingPower : Act unit :=
  match address_of wallet with
  | None => mret tt
  | Some address =>
      if String.eqb GOVERNANCE_CONTRACT_ID "" then mret tt
      else
        s ← get_ui;
        config ← match gv_config s with
                 | Some c => mret (Some c)
                 | None => c ← on_rpc (getGovernanceConfig X);
                           set_ui (λ s, match c with Some _ => s <| gv_config := c |> | None => s end);; mret c
                 end;
        match config with
        | Some c =>
            balance ← on_rpc (getShareBalance X (text_of c "shareToken") address);
            set_ui (λ s, s <| gv_votingPower := Some balance |>)
        | None => mret tt
        end
  end.

(** The effect that loads both; [loading] ends with them, however they end. *)
Definition governance_effect : Act unit :=
  if String.eqb GOVERNANCE_CONTRACT_ID "" then set_ui (λ s, s <| gv_loading := false |>)
  else
    set_ui (λ s, s <| gv_loading := true |>);;
    finally (loadProposals;; loadVotingPower) (λ s, s <| gv_loading := false |>).

Definition set_status_filter (filter : string) : Act unit :=
  set_ui (λ s, s <| gv_statusFilter := filter |> <| gv_visibleCount := PROPOSALS_PAGE_SIZE |>).
Definition load_more : Act unit := set_ui (λ s, s <| gv_visibleCount := (gv_visibleCount s + PROPOSALS_PAGE_SIZE)%nat |>).

Definition submitGovernanceTx (buildTx : Act string) : Act unit :=
  match w_connected wallet, address_of wallet with
  | true, Some address =>
      transact X signTransaction address {|
        tx_busy := λ b s, s <| gv_submitting := b |>; tx_build := buildTx; tx_rejected := as_it_is;
        tx_submit := submit X quiet_progress;
        tx_done := toast (ToastSuccess "Governance transaction submitted.");; loadProposals; tx_failed := report |}
  | _, _ => toast (ToastError "Connect a wallet first.")
  end.

Definition handleCreateProposal : Act unit :=
  s ← get_ui;
  match address_of wallet with
  | None => mret tt
  | Some address =>
      submitGovernanceTx (on_rpc (buildCreateProposalTx X address (gv_description s) (gv_targetContract s)
                                    (gv_functionName s) (gv_calldata s)));;
      set_ui (λ s, s <| gv_description := "" |> <| gv_targetContract := "" |> <| gv_functionName := "" |>
                     <| gv_calldata := "" |>)
  end.

(** [wallet.address ?? '']. *)
Definition address_or_empty : string := default "" (w_address wallet).

Definition vote (proposal : Fields) (inFavor : bool) : Act unit :=
  submitGovernanceTx (id ← lift_result (bigint_of_number (num_of proposal "id"));
                      on_rpc (buildVoteProposalTx X address_or_empty id inFavor)).
Definition execute_selected (proposal : Fields) : Act unit :=
  submitGovernanceTx (id ← lift_result (bigint_of_number (num_of proposal "id"));
                      on_rpc (buildExecuteProposalTx X address_or_empty id)).

(** When the buttons can be pressed. *)
Definition vote_enabled (s : GovernanceState) (proposal : Fields) : bool :=
  w_connected wallet && negb (String.eqb GOVERNANCE_CONTRACT_ID "") && negb (gv_submitting s) && proposal_is "Active" proposal.
Definition execute_enabled (s : GovernanceState) : bool :=
  match selectedProposal s with
  | Some p => w_connected wallet && negb (String.eqb GOVERNANCE_CONTRACT_ID "") && negb (gv_submitting s)
              && proposal_is "Passed" p
  | None => false
  end.
Definition insufficient_power (s : GovernanceState) : bool :=
  match gv_config s, gv_votingPower s with
  | Some c, Some power => power <? big_of c "minShareBalance"
  | _, _ => false
  end.

End governance.

(** ** app/arbitration/jurors/page.tsx *)

(** *** The salts *)

(** What is stored of a vote: the JSON of [{ vote, salt }], with the codes of the salt's
    bytes; a store keeps the values that were written as JSON. *)
Definition bytes_json (salt : string) : jsval :=
  JArr (map (λ c, JNum (Z.of_nat (nat_of_ascii c))) (String.list_ascii_of_string salt)).
Definition stored_json (vote : bool) (salt : string) : jsval := JObj [("vote", JBool vote); ("salt", bytes_json salt)].

(** [new Uint8Array(salt)]. *)
Definition byte_of (v : jsval) : ascii :=
  match num_to_Z (js_Number v) with Some n => ascii_of_nat (Z.to_nat (n mod 256)) | None => ascii_of_nat 0 end.
Definition Uint8Array (v : jsval) : string := String.string_of_list_ascii (map byte_of (elements_of v)).

Definition saltStorageKey (caseText juror : string) : string := "astera:arbitration:salt:" +:+ caseText +:+ ":" +:+ juror.

(** The two stores of the browser; [None] where there is no window. Writing may fail,
    when a store is full. *)
Record Stores := { localStorage : gmap string jsval; sessionStorage : gmap string jsval }.

Definition getStoredSalt (key : string) (s : option Stores) : option jsval :=
  match s with
  | Some s => match localStorage s !! key with Some v => Some v | None => sessionStorage s !! key end
  | None => None
  end.

Definition saveStoredSalt (local_full session_full : bool) (key : string) (data : jsval) (s : option Stores) : option Stores :=
  match s with
  | Some s => Some {|
      localStorage := if local_full then localStorage s else <[key := data]> (localStorage s);
      sessionStorage := if session_full then sessionStorage s else <[key := data]> (sessionStorage s) |}
  | None => None
  end.

(** *** The page *)

(** A field that is a number or [null], as a condition. *)
Definition truthy_number (v : value) : bool :=
  match v with VNum n => negb (isNaN n || num_eqb n (num_of_Z 0)) | _ => false end.

Record JurorsState := {
  jr_info : option Fields; jr_cases : list Fields; jr_votes : list (number * option (bool * option bool));
  jr_loading : bool; jr_notDeployed : bool; jr_txLoading : bool; jr_stakeInput : string;
  jr_voteChoice : number → option bool; jr_stores : option Stores }.

#[export] Instance eta_JurorsState : Eta JurorsState := λ s, {|
  jr_info := jr_info s; jr_cases := jr_cases s; jr_votes := jr_votes s; jr_loading := jr_loading s;
  jr_notDeployed := jr_notDeployed s; jr_txLoading := jr_txLoading s; jr_stakeInput := jr_stakeInput s;
  jr_voteChoice := jr_voteChoice s; jr_stores := jr_stores s |}.

(** [vote] is the entry of [votes] of a case. *)
Definition vote_of (s : JurorsState) (id : number) : option (bool * option bool) :=
  match find (λ e, num_eqb e.1 id) (jr_votes s) with Some (_, v) => v | None => None end.

(** [now] is in seconds. *)
Definition inCommitPhase (now : number) (c : Fields) : bool :=
  is_str (raw_of c "status") "CommitReveal" && num_leb now (num_of c "commitDeadline").
Definition inRevealPhase (now : number) (c : Fields) : bool :=
  is_str (raw_of c "status") "CommitReveal" && num_ltb (num_of c "commitDeadline") now
  && num_leb now (num_of c "revealDeadline").
Definition shows_commit_vote (now : number) (s : JurorsState) (c : Fields) : bool :=
  inCommitPhase now c && negb (match vote_of s (num_of c "id") with Some (committed, _) => committed | None => false end).
Definition shows_reveal_vote (now : number) (s : JurorsState) (c : Fields) : bool :=
  match vote_of s (num_of c "id") with Some (true, None) => inRevealPhase now c | _ => false end.

Section jurors.
Context {W : Type} (X : Chain W).
Context (signTransaction : string → string → string → M W (string * option string)).
Context (getRandomValues : nat → M W string) (sha256 : string → string).
Context (local_full session_full : bool) (t : string → string) (numberText : number → string) (wallet : Wallet).

Local Abbreviation Act := (M (Page W JurorsState)).

Definition load_vote (address : string) (c : Fields) : Act (number * option (bool * option bool)) :=
  id ← lift_result (bigint_of_number (num_of c "id"));
  v ← on_rpc (getJurorVoteStatus X id address);
  mret (num_of c "id", v).

Definition load_jurors : Act unit :=
  match address_of wallet with
  | None => mret tt
  | Some account =>
      set_ui (λ s, s <| jr_loading := true |>);;
      try_catch
        (address ← lift_result (parseStellarAddress account);
         info ← on_rpc (getJurorInfo X address);
         ids ← on_rpc (getJurorCases X address);
         set_ui (λ s, s <| jr_info := info |>);;
         loaded ← mapM (λ id, n ← lift_result (bigint_of_number id); on_rpc (getArbitrationCase X n)) ids;
         let active := omap (λ c : option Fields, c) loaded in
         set_ui (λ s, s <| jr_cases := active |>);;
         votes ← mapM (load_vote address) active;
         set_ui (λ s, s <| jr_votes := votes |>))
        (λ _, set_ui (λ s, s <| jr_notDeployed := true |>));;
      set_ui (λ s, s <| jr_loading := false |>)
  end.

Definition juror_tx (builder : Act string) (message : string) : Transaction W JurorsState := {|
  tx_busy := λ b s, s <| jr_txLoading := b |>; tx_build := builder; tx_rejected := or_rejected;
  tx_submit := submit X quiet_progress; tx_done := toast (ToastSuccess message);; load_jurors; tx_failed := report |}.

(** [BigInt(Math.round(Number(stakeInput) * 10_000_000))], before the text is looked at. *)
Definition stake_amount (text : string) : result Z :=
  bigint_of_number (Math_round (num_mul (Number_of_string text) (num_of_Z 10000000))).

Definition handleRegister : Act unit :=
  s ← get_ui;
  match address_of wallet with
  | None => mret tt
  | Some address =>
      stakeAmount ← lift_result (stake_amount (jr_stakeInput s));
      if negb (isFinite (Number_of_string (jr_stakeInput s))) || (stakeAmount <=? 0)
      then toast (ToastError (t "errors.invalidStake"))
      else
        transact X signTransaction address
          (juror_tx (operator ← lift_result (parseStellarAddress address); on_rpc (buildRegisterJurorTx X operator stakeAmount))
             (t "toasts.registered"))
  end.

Definition is_deregistering (info : option Fields) : bool :=
  match info with Some i => truthy_number (value_of i "deregisterRequestedAt") | None => false end.

Definition handleDeregister : Act unit :=
  s ← get_ui;
  match address_of wallet with
  | None => mret tt
  | Some address =>
      transact X signTransaction address
        (juror_tx (operator ← lift_result (parseStellarAddress address); on_rpc (buildDeregisterJurorTx X operator))
           (t (if is_deregistering (jr_info s) then "toasts.stakeWithdrawn" else "toasts.deregistrationRequested")))
  end.

Definition save_salt (key : string) (data : jsval) : Act unit :=
  set_ui (λ s, s <| jr_stores := saveStoredSalt local_full session_full key data (jr_stores s) |>).

(** The salt is stored before the vote is committed with it. *)
Definition commit_build (address : string) (caseId : number) (choice : bool) : Act string :=
  juror ← lift_result (parseStellarAddress address);
  salt ← on_world (generateArbitrationSalt getRandomValues);
  save_salt (saltStorageKey (numberText caseId) juror) (stored_json choice salt);;
  id ← lift_result (bigint_of_number caseId);
  on_rpc (buildCommitVoteTx X juror id (computeArbitrationCommitHash sha256 choice salt)).

Definition handleCommit (caseId : number) : Act unit :=
  s ← get_ui;
  match address_of wallet with
  | None => mret tt
  | Some address =>
      match jr_voteChoice s caseId with
      | None => toast (ToastError (t "errors.pickSide"))
      | Some choice =>
          transact X signTransaction address (juror_tx (commit_build address caseId choice) (t "toasts.voteCommitted"))
      end
  end.

Definition reveal_build (juror : string) (caseId : number) (stored : jsval) : Act string :=
  vote ← lift_result (get_prop stored "vote");
  salt ← lift_result (get_prop stored "salt");
  id ← lift_result (bigint_of_number caseId);
  on_rpc (buildRevealVoteTx X juror id (truthy vote) (Uint8Array salt)).

Definition handleReveal (caseId : number) : Act unit :=
  s ← get_ui;
  match address_of wallet with
  | None => mret tt
  | Some address =>
      juror ← lift_result (parseStellarAddress address);
      match getStoredSalt (saltStorageKey (numberText caseId) juror) (jr_stores s) with
      | None => toast (ToastError (t "errors.noStoredSalt"))
      | Some stored =>
          transact X signTransaction address (juror_tx (reveal_build juror caseId stored) (t "toasts.voteRevealed"))
      end
  end.

End jurors.

(** ** app/dashboard/credit/page.tsx *)

Record CreditState := {
  cr_score : option Fields; cr_attestations : list Fields; cr_loading : bool; cr_txLoading : bool;
  cr_disputeTarget : option number; cr_disputeReason : string; cr_simWeightBps : string; cr_simScoreContribution : string;
  cr_simResult : option number; cr_simLoading : bool }.

#[export] Instance eta_CreditState : Eta CreditState := λ s, {|
  cr_score := cr_score s; cr_attestations := cr_attestations s; cr_loading := cr_loading s; cr_txLoading := cr_txLoading s;
  cr_disputeTarget := cr_disputeTarget s; cr_disputeReason := cr_disputeReason s; cr_simWeightBps := cr_simWeightBps s;
  cr_simScoreContribution := cr_simScoreContribution s; cr_simResult := cr_simResult s; cr_simLoading := cr_simLoading s |}.

Section credit.
Context {W : Type} (X : Chain W).
Context (numberText : number → string) (wallet : Wallet).

Local Abbreviation Act := (M (Page W CreditState)).

Definition load_credit : Act unit :=
  match address_of wallet with
  | None => set_ui (λ s, s <| cr_score := None |> <| cr_attestations := [] |> <| cr_loading := false |>)
  | Some address =>
      set_ui (λ s, s <| cr_loading := true |>);;
      try_catch
        (score ← on_rpc (getFullCreditScore X address);
         attestations ← on_rpc (listSmeAttestations X address);
         set_ui (λ s, s <| cr_score := score |> <| cr_attestations := attestations |>))
        (λ _, toast (ToastError "Failed to load credit profile."));;
      set_ui (λ s, s <| cr_loading := false |>)
  end.

(** [NETWORK] is neither declared in nor imported into this module: the argument of
    [signTransaction] cannot be evaluated. *)
Definition credit_signAndSubmit (xdr : string) : Act unit := throw (EReferenceError "NETWORK is not defined").

(** What is wrong with the hypothetical attestation. *)
Definition simulation_error (weightBps scoreContribution : number) : option string :=
  if negb (isFinite weightBps) || num_leb weightBps (num_of_Z 0) || num_ltb (num_of_Z 10000) weightBps
  then Some "Weight must be between 1 and 10000 bps."
  else if negb (isFinite scoreContribution) || num_ltb scoreContribution (num_of_Z 0)
          || num_ltb (num_of_Z 1000) scoreContribution
  then Some "Score contribution must be between 0 and 1000."
  else None.

Definition handleSimulate : Act unit :=
  s ← get_ui;
  match address_of wallet with
  | None => mret tt
  | Some address =>
      let weightBps := Number_of_string (cr_simWeightBps s) in
      let scoreContribution := Number_of_string (cr_simScoreContribution s) in
      match simulation_error weightBps scoreContribution with
      | Some message => toast (ToastError message)
      | None =>
          set_ui (λ s, s <| cr_simLoading := true |>);;
          finally
            (try_catch
               (w ← lift_result (bigint_of_number weightBps);
                c ← lift_result (bigint_of_number scoreContribution);
                result ← on_rpc (simulateScoreWithAttestations X address [(w, c)]);
                set_ui (λ s, s <| cr_simResult := Some result |>))
               (λ e, toast (ToastError (exn_message e))))
            (λ s, s <| cr_simLoading := false |>)
      end
  end.

Definition handleDispute : Act unit :=
  s ← get_ui;
  match address_of wallet, cr_disputeTarget s with
  | Some address, Some target =>
      if String.eqb (trim (cr_disputeReason s)) "" then toast (ToastError "Enter a reason for the dispute.")
      else
        set_ui (λ s, s <| cr_txLoading := true |>);;
        finally
          (try_catch
             (caller ← lift_result (parseStellarAddress address);
              id ← lift_result (bigint_of_number target);
              xdr ← on_rpc (buildDisputeAttestationTx X caller id (trim (cr_disputeReason s)));
              credit_signAndSubmit xdr;;
              toast (ToastSuccess ("Disputed attestation #" +:+ numberText target +:+ "."));;
              set_ui (λ s, s <| cr_disputeTarget := None |> <| cr_disputeReason := "" |>);;
              load_credit)
             (λ e, toast (ToastError (getContractErrorMessage (exn_message e)))))
          (λ s, s <| cr_txLoading := false |>)
  | _, _ => mret tt
  end.

End credit.

(** * Proofs *)

(** ** Salts *)



(** An entry that a full local store has kept hides the one that was saved after it. *)
Lemma older_vote_is_read session_full key data old s :
  localStorage s !! key = Some old →
  getStoredSalt key (saveStoredSalt true session_full key data (Some s)) = Some old.
Proof. intros H. unfold getStoredSalt, saveStoredSalt. cbn [localStorage]. by rewrite H. Qed.

(** ** Statuses *)

Definition proposal_read (p : Fields) : Prop :=
  ∃ raw, native Governance_Proposal raw = true ∧ decode listGovernanceProposals_fields raw = Ok p.
Definition case_read (c : Fields) : Prop :=
  ∃ raw, native Arbitration_DisputeCase raw = true ∧ decode decodeArbitrationCase raw = Ok c.

Lemma proposal_has_no_status status p : proposal_read p → proposal_is status p = false.
Proof. intros (raw&Hn&Hd). exact (union_no_text _ _ _ raw _ "status" "status" _ Hn eq_refl Hd eq_refl). Qed.

Lemma case_has_no_status status c : case_read c → is_str (raw_of c "status") status = false.
Proof. intros (raw&Hn&Hd). exact (union_no_text _ _ _ raw _ "status" "status" _ Hn eq_refl Hd eq_refl). Qed.

(** Nobody can vote. For the proposals that the governance contract lists, the
    buttons to vote and to execute are never enabled, and for the cases that the
    arbitration contract gives the page never offers to commit a vote or to reveal one:
    a status is the array of its name, which is compared with the name. *)
Theorem no_vote_is_offered {W : Type} (X : Chain W) wallet g now j c :
  Forall proposal_read (gv_proposals g) → case_read c →
  Forall (λ p, vote_enabled X wallet g p = false) (gv_proposals g) ∧ execute_enabled X wallet g = false ∧
  shows_commit_vote now j c = false ∧ shows_reveal_vote now j c = false.
Proof.
  intros Hg Hc. split_and!.
  - apply (Forall_impl _ _ _ Hg). intros p Hp. unfold vote_enabled. by rewrite proposal_has_no_status, andb_false_r.
  - unfold execute_enabled, selectedProposal. destruct (gv_selectedId g) as [id|]; [|done].
    destruct (find _ _) as [p|] eqn:E; [|done]. apply find_some in E as [Hp _]. rewrite Forall_forall in Hg.
    rewrite proposal_has_no_status, andb_false_r; [done|]. by apply Hg, list_elem_of_In.
  - unfold shows_commit_vote, inCommitPhase. by rewrite case_has_no_status.
  - unfold shows_reveal_vote, inRevealPhase. rewrite case_has_no_status by done. by destruct (vote_of _ _) as [[[] []]|].
Qed.

(** ** The secret vote *)

Section vote.
Context {W : Type} (X : Chain W).
Context (signTransaction : string → string → string → M W (string * option string)).
Context (getRandomValues : nat → M W string) (sha256 : string → string).
Context (local_full session_full : bool) (t : string → string) (numberText : number → string) (wallet : Wallet).

#[local] Notation commit := (handleCommit X signTransaction getRandomValues sha256 local_full session_full t numberText wallet).

End vote.

(** ** What the actions leave true *)

Section actions.
Context {W : Type} (X : Chain W).
Context (signTransaction : string → string → string → M W (string * option string)) (wallet : Wallet) (me : string).
Context (Hme : address_of wallet = Some me).
Context (getRandomValues : nat → M W string) (sha256 : string → string).
Context (local_full session_full : bool) (t : string → string) (numberText : number → string).

Inductive governance_action : M (Page W GovernanceState) unit → Prop :=
| governance_loads : governance_action (governance_effect X wallet)
| governance_filter f : governance_action (set_status_filter f)
| governance_more : governance_action load_more
| governance_create : governance_action (handleCreateProposal X signTransaction wallet)
| governance_vote p inFavor : governance_action (vote X signTransaction wallet p inFavor)
| governance_execute p : governance_action (execute_selected X signTransaction wallet p).

Inductive jurors_action : M (Page W JurorsState) unit → Prop :=
| jurors_load : jurors_action (load_jurors X wallet)
| jurors_register : jurors_action (handleRegister X signTransaction t wallet)
| jurors_deregister : jurors_action (handleDeregister X signTransaction t wallet)
| jurors_commit id : jurors_action
    (handleCommit X signTransaction getRandomValues sha256 local_full session_full t numberText wallet id)
| jurors_reveal id : jurors_action (handleReveal X signTransaction t numberText wallet id).

Inductive credit_action : M (Page W CreditState) unit → Prop :=
| credit_load : credit_action (load_credit X wallet)
| credit_simulate : credit_action (handleSimulate X wallet)
| credit_dispute : credit_action (handleDispute X numberText wallet).

Context (I : W → Prop) (signed : string → W → Prop).

Section honest.
Context (HW : honest_wallet X signTransaction I signed me).
Context (Hrandom : ∀ n, keeps I (getRandomValues n)).

Lemma governance_action_keeps m : governance_action m → page_keeps I m.
Proof.
  destruct 1; unfold governance_effect, loadVotingPower, handleCreateProposal, vote, execute_selected, submitGovernanceTx;
    rewrite ?Hme; keep_page.
Qed.

Lemma jurors_action_keeps m : jurors_action m → page_keeps I m.
Proof.
  destruct 1; unfold load_jurors, handleRegister, handleDeregister, handleCommit, handleReveal; rewrite ?Hme; keep_page.
Qed.
End honest.

(** No dispute of an attestation is ever signed: whatever reading from the servers
    leaves true stays true. *)
Lemma credit_action_keeps m : reads_keep X I → credit_action m → page_keeps I m.
Proof.
  intros HR. destruct 1; unfold load_credit, handleSimulate, handleDispute; rewrite ?Hme; keep_page.
Qed.
End actions.
