(* ===== verification/AdminRoles.v ===== *)
(** * Roles and their proposals: app/admin/roles/page.tsx

    The form that proposes an action to the access-control contract, the list of the
    proposals with what may be done to each, and what the form shows while nothing was
    entered. *)
From S2P Require Import Prelude.
From S2P Require Import JsValue.
From S2P Require Import JsNumber.
From S2P Require Import JsArith.
From S2P Require Import Sdk.
From S2P Require Import Abi.
From S2P Require Import ContractAbi.
From S2P Require Import RpcPool.
From S2P Require Import Stellar.
From S2P Require Import Amounts.
From S2P Require Import WebAbi.
From S2P Require Import WebAccess.
From S2P Require Import WebErrors.
From S2P Require Import PageTx.
#[local] Open Scope string_scope.
#[local] Open Scope list_scope.
#[local] Open Scope Z_scope.

(** ** What can be proposed *)

Inductive TargetKey :=
  | target_pool | target_invoice | target_credit_score | target_oracle_registry | target_compliance
  | target_governance | target_referral | target_self.

Definition TARGET_CONTRACTS (t : TargetKey) : string * Contract :=
  match t with
  | target_pool => ("Pool", Pool)
  | target_invoice => ("Invoice", Invoice)
  | target_credit_score => ("Credit Score", CreditScore)
  | target_oracle_registry => ("Oracle Registry", OracleRegistry)
  | target_compliance => ("Compliance", Compliance)
  | target_governance => ("Governance", Governance)
  | target_referral => ("Referral", Referral)
  | target_self => ("Access Control (self-management)", AccessControl)
  end.

Definition ACTIONS_BY_TARGET (t : TargetKey) : list string :=
  match t with
  | target_pool => ["SetPaused"; "SetYield"; "SetTreasury"; "WithdrawRevenue"; "SetOracleContract"; "SetKycRequired";
                    "SetInvestorKyc"; "SetMaxUtilization"]
  | target_invoice => ["SetPaused"; "SetOracle"; "RegisterDebtor"; "DeactivateDebtor"; "AddKeeper";
                       "SetInvoiceAccessControl"]
  | target_credit_score => ["SetPaused"; "SetLateThreshold"; "SetScoreThresholds"; "RegisterAttestor";
                            "SetCreditScoreAccessControl"]
  | target_oracle_registry => ["SetOracleRegistryPaused"; "SetOracleRegistryInvoiceContract"; "SetOracleRegistryTreasury";
                               "SetOracleRegistryConfig"; "SlashOracle"; "AdminResolveRound";
                               "SetOracleRegistryAccessControl"]
  | target_compliance => ["SetCompliancePaused"; "RegisterScreener"; "ConfirmScreenerRegistration"; "DeregisterScreener";
                          "SetRescreeningInterval"; "SetScreenerTimelock"; "SetComplianceAccessControl"]
  | target_governance => ["UpdateGovernanceConfig"; "SetCategoryQuorum"; "SetGovernanceAccessControl"]
  | target_referral => ["SetReferralPaused"; "SetReferralPool"; "SetBorrowRewardBps"; "SetDepositRewardBps";
                        "SetReferralAccessControl"]
  | target_self => ["AddSigner"; "RemoveSigner"; "SetThreshold"]
  end.

Definition ACTION_LABELS : list (string * string) :=
  [("SetPaused", "Set Paused"); ("SetYield", "Set Yield (bps)"); ("SetTreasury", "Set Treasury Address");
   ("WithdrawRevenue", "Withdraw Revenue"); ("SetOracleContract", "Set Oracle Contract");
   ("SetKycRequired", "Set KYC Required"); ("SetInvestorKyc", "Set Investor KYC Status");
   ("SetMaxUtilization", "Set Max Utilization (bps)"); ("SetOracle", "Set Oracle Address");
   ("RegisterDebtor", "Register Debtor"); ("DeactivateDebtor", "Deactivate Debtor"); ("AddKeeper", "Add Keeper");
   ("SetLateThreshold", "Set Late Threshold (days)"); ("SetScoreThresholds", "Set Score Thresholds");
   ("RegisterAttestor", "Register Attestor"); ("SetOracleRegistryInvoiceContract", "Set Invoice Contract");
   ("SetOracleRegistryTreasury", "Set Treasury Address"); ("SetOracleRegistryConfig", "Set Registry Config");
   ("SetOracleRegistryPaused", "Set Paused"); ("SlashOracle", "Slash Oracle");
   ("AdminResolveRound", "Admin Resolve Round"); ("SetCompliancePaused", "Set Paused");
   ("RegisterScreener", "Register Screener"); ("ConfirmScreenerRegistration", "Confirm Screener Registration");
   ("DeregisterScreener", "Deregister Screener"); ("SetRescreeningInterval", "Set Rescreening Interval (secs)");
   ("SetScreenerTimelock", "Set Screener Timelock (secs)");
   ("UpdateGovernanceConfig", "Update Config (quorum/pass bps)"); ("SetCategoryQuorum", "Set Category Quorum");
   ("SetReferralPaused", "Set Paused"); ("SetReferralPool", "Set Pool Address");
   ("SetBorrowRewardBps", "Set Borrow Reward (bps)"); ("SetDepositRewardBps", "Set Deposit Reward (bps)");
   ("SetInvoiceAccessControl", "Rotate Access Control"); ("SetCreditScoreAccessControl", "Rotate Access Control");
   ("SetOracleRegistryAccessControl", "Rotate Access Control"); ("SetComplianceAccessControl", "Rotate Access Control");
   ("SetGovernanceAccessControl", "Rotate Access Control"); ("SetReferralAccessControl", "Rotate Access Control");
   ("AddSigner", "Add Signer"); ("RemoveSigner", "Remove Signer"); ("SetThreshold", "Set Threshold")].

Definition ROLE_LABELS : list (string * string) :=
  [("SuperAdmin", "Super Admin"); ("RiskManager", "Risk Manager"); ("TreasuryManager", "Treasury Manager");
   ("ComplianceOfficer", "Compliance Officer"); ("OracleManager", "Oracle Manager")].

(** The value of a table at a key, which is [undefined] where it has none. *)
Fixpoint entry {A} (k : string) (l : list (string * A)) : option A :=
  match l with
  | [] => None
  | (k', v) :: l' => if String.eqb k' k then Some v else entry k l'
  end.

(** ** The summary of a proposed action

    [tag] and [values] are what the reader made of the contract's answer. *)
Definition label_of (role : jsval) : string := default "undefined" (entry (js_String role) ROLE_LABELS).

(** An element in a joined array: [null] and [undefined] are empty. *)
Definition joined (v : jsval) : string := if nullish v then "" else js_String v.

Section summary.
Context (values : list jsval).
#[local] Notation v n := (js_String (arr_get values n)).

Definition summaries : list (string * string) :=
  [("SetPaused", "Set Paused → " +:+ v 0); ("SetYield", "Set Yield → " +:+ v 0 +:+ " bps");
   ("SetTreasury", "Set Treasury → " +:+ v 0); ("WithdrawRevenue", "Withdraw " +:+ v 1 +:+ " from " +:+ v 0);
   ("SetOracleContract", "Set Oracle Contract → " +:+ v 0); ("SetKycRequired", "Set KYC Required → " +:+ v 0);
   ("SetInvestorKyc", "Set Investor KYC → " +:+ v 0 +:+ ": " +:+ v 1);
   ("SetMaxUtilization", "Set Max Utilization → " +:+ v 0 +:+ " bps"); ("SetOracle", "Set Oracle → " +:+ v 0);
   ("RegisterDebtor", "Register Debtor " +:+ quoted (v 0) +:+ " (" +:+ v 1 +:+ "), max exposure " +:+ v 2);
   ("DeactivateDebtor", "Deactivate Debtor " +:+ v 0); ("AddKeeper", "Add Keeper " +:+ v 0);
   ("SetLateThreshold", "Set Late Threshold → " +:+ v 0 +:+ " days");
   ("SetScoreThresholds", "Set Score Thresholds → " +:+ String.concat " / " (map joined values));
   ("RegisterAttestor", "Register Attestor " +:+ v 0 +:+ " (type " +:+ v 1 +:+ ", weight " +:+ v 2 +:+ "bps)");
   ("AddSigner", "Add Signer " +:+ v 1 +:+ " to " +:+ label_of (arr_get values 0));
   ("RemoveSigner", "Remove Signer " +:+ v 1 +:+ " from " +:+ label_of (arr_get values 0));
   ("SetThreshold", "Set " +:+ label_of (arr_get values 0) +:+ " Threshold → " +:+ v 1);
   ("SetOracleRegistryInvoiceContract", "Set Invoice Contract → " +:+ v 0);
   ("SetOracleRegistryTreasury", "Set Treasury → " +:+ js_String (js_coalesce (arr_get values 0) (JStr "(none)")));
   ("SetOracleRegistryConfig",
      "Set Registry Config → min_stake " +:+ v 0 +:+ ", required_votes " +:+ v 1 +:+ ", quorum_bps " +:+ v 2
      +:+ ", round_duration_secs " +:+ v 3 +:+ ", deregister_cooldown_secs " +:+ v 4);
   ("SetOracleRegistryPaused", "Set Paused → " +:+ v 0);
   ("SlashOracle", "Slash Oracle " +:+ v 0 +:+ " by " +:+ v 1 +:+ "bps (round " +:+ v 2 +:+ "): " +:+ v 3);
   ("AdminResolveRound", "Admin Resolve Round for invoice " +:+ v 0 +:+ " → " +:+ v 1 +:+ " (" +:+ v 2 +:+ ")");
   ("SetCompliancePaused", "Set Paused → " +:+ v 0); ("RegisterScreener", "Register Screener " +:+ v 0);
   ("ConfirmScreenerRegistration", "Confirm Screener Registration " +:+ v 0);
   ("DeregisterScreener", "Deregister Screener " +:+ v 0);
   ("SetRescreeningInterval", "Set Rescreening Interval → " +:+ v 0 +:+ "s");
   ("SetScreenerTimelock", "Set Screener Timelock → " +:+ v 0 +:+ "s");
   ("UpdateGovernanceConfig",
      "Update Config → quorum " +:+ v 0 +:+ "bps, pass " +:+ v 1 +:+ "bps, exec delay " +:+ v 2 +:+ "s");
   ("SetCategoryQuorum", "Set Category Quorum (category " +:+ v 0 +:+ ") → " +:+ v 1 +:+ "bps");
   ("SetReferralPaused", "Set Paused → " +:+ v 0); ("SetReferralPool", "Set Pool → " +:+ v 0);
   ("SetBorrowRewardBps", "Set Borrow Reward → " +:+ v 0 +:+ "bps");
   ("SetDepositRewardBps", "Set Deposit Reward → " +:+ v 0 +:+ "bps");
   ("SetInvoiceAccessControl", "Rotate Access Control → " +:+ v 0);
   ("SetCreditScoreAccessControl", "Rotate Access Control → " +:+ v 0);
   ("SetOracleRegistryAccessControl", "Rotate Access Control → " +:+ v 0);
   ("SetComplianceAccessControl", "Rotate Access Control → " +:+ v 0);
   ("SetGovernanceAccessControl", "Rotate Access Control → " +:+ v 0);
   ("SetReferralAccessControl", "Rotate Access Control → " +:+ v 0)].
End summary.

Definition summarizeAction (tag : string) (values : list jsval) : option string := entry tag (summaries values).

(** ** The form *)

(** What the form proposes: a payload, or one that names a role in a text, which is
    encoded like a role whatever it is. *)
Inductive Proposed :=
  | Payload (a : ActionPayload)
  | SignerOf (tag role address : string)
  | ThresholdOf (role : string) (threshold : Z).

Definition proposed_tag (p : Proposed) : string :=
  match p with Payload a => action_tag a | SignerOf tag _ _ => tag | ThresholdOf _ _ => "SetThreshold" end.

Definition named_role (role : string) : ScArg := ArgVec [ArgSymbol role].

Definition proposed_scval (p : Proposed) : ScArg :=
  match p with
  | Payload a => actionPayloadToScVal a
  | SignerOf tag role address => ArgVec [ArgSymbol tag; named_role role; ArgAddress address]
  | ThresholdOf role threshold => ArgVec [ArgSymbol "SetThreshold"; named_role role; ArgU32 threshold]
  end.

(** The texts that were entered. [u32] is what becomes of a number that is given as a
    [u32]: the number, or an error if it is none. *)
Section form.
Context (u32 : number → result Z) (fields : gmap string string).

Definition str (key : string) : string := trim (default "" (fields !! key)).
Definition num (key : string) : result Z := u32 (Number_of_string (default "0" (fields !! key))).
Definition is_true (key : string) : bool := match fields !! key with Some s => String.eqb s "true" | None => false end.

(** [parseStellarAddress(str(key))], [BigInt(str(key) || '0')]. *)
Definition addr (key : string) : result string := parseStellarAddress (str key).
Definition big (key : string) : result Z := BigInt_text (if String.eqb (str key) "" then "0" else str key).

Definition one {A} (f : A → ActionPayload) (v : result A) : result Proposed := x ← v; Ok (Payload (f x)).
Definition value_key (tag : string) : string := tag +:+ "_value".

Definition builders : list (string * result Proposed) :=
  let signer tag := (a ← addr "address"; Ok (SignerOf tag (str "role") a)) in
  [("SetPaused", one SetPaused (Ok (is_true (value_key "SetPaused"))));
   ("SetKycRequired", one SetKycRequired (Ok (is_true (value_key "SetKycRequired"))));
   ("SetYield", one SetYield (num "bps")); ("SetMaxUtilization", one SetMaxUtilization (num "bps"));
   ("SetTreasury", one SetTreasury (addr "address")); ("SetOracleContract", one SetOracleContract (addr "address"));
   ("SetOracle", one SetOracle (addr "address")); ("AddKeeper", one AddKeeper (addr "address"));
   ("WithdrawRevenue", token ← addr "token"; one (WithdrawRevenue token) (big "amount"));
   ("SetInvestorKyc", one (λ a, SetInvestorKyc a (is_true "approved")) (addr "investor"));
   ("RegisterDebtor", one (RegisterDebtor (str "debtorId") (str "debtorName")) (big "maxExposure"));
   ("DeactivateDebtor", one DeactivateDebtor (Ok (str "debtorId")));
   ("SetLateThreshold", one SetLateThreshold (big "days"));
   ("SetScoreThresholds",
      a ← num "excellent"; b ← num "veryGood"; c ← num "good"; one (SetScoreThresholds a b c) (num "fair"));
   ("RegisterAttestor", a ← addr "address"; t ← num "attestorType"; one (RegisterAttestor a t) (num "weightBps"));
   ("AddSigner", signer "AddSigner"); ("RemoveSigner", signer "RemoveSigner");
   ("SetThreshold", n ← num "threshold"; Ok (ThresholdOf (str "role") n));
   ("SetOracleRegistryInvoiceContract", one SetOracleRegistryInvoiceContract (addr "address"));
   ("SetReferralPool", one SetReferralPool (addr "address"));
   ("SetOracleRegistryTreasury",
      if String.eqb (str "treasury") "" then Ok (Payload (SetOracleRegistryTreasury None))
      else one (λ a, SetOracleRegistryTreasury (Some a)) (addr "treasury"));
   ("SetOracleRegistryConfig",
      s ← big "minStake"; v ← num "requiredVotes"; q ← num "quorumBps"; d ← big "roundDurationSecs";
      one (SetOracleRegistryConfig s v q d) (big "deregisterCooldownSecs"));
   ("SetOracleRegistryPaused", one SetOracleRegistryPaused (Ok (is_true (value_key "SetOracleRegistryPaused"))));
   ("SetCompliancePaused", one SetCompliancePaused (Ok (is_true (value_key "SetCompliancePaused"))));
   ("SetReferralPaused", one SetReferralPaused (Ok (is_true (value_key "SetReferralPaused"))));
   ("SlashOracle",
      o ← addr "operator"; b ← num "bps"; one (λ r, SlashOracle o b r (str "evidence")) (big "roundId"));
   ("AdminResolveRound", one (λ i, AdminResolveRound i (is_true "approved") (str "reason")) (big "invoiceId"));
   ("RegisterScreener", one RegisterScreener (addr "screener"));
   ("ConfirmScreenerRegistration", one ConfirmScreenerRegistration (addr "screener"));
   ("DeregisterScreener", one DeregisterScreener (addr "screener"));
   ("SetRescreeningInterval", one SetRescreeningInterval (big "secs"));
   ("SetScreenerTimelock", one SetScreenerTimelock (big "secs"));
   ("UpdateGovernanceConfig",
      q ← num "quorumBps"; p ← num "passBps";
      one (UpdateGovernanceConfig q p) (bigint_of_number (Number_of_string (default "0" (fields !! "executionDelaySecs")))));
   ("SetCategoryQuorum", c ← num "category"; one (SetCategoryQuorum c) (num "quorumBps"));
   ("SetBorrowRewardBps", one SetBorrowRewardBps (num "bps")); ("SetDepositRewardBps", one SetDepositRewardBps (num "bps"));
   ("SetInvoiceAccessControl", one SetInvoiceAccessControl (addr "address"));
   ("SetCreditScoreAccessControl", one SetCreditScoreAccessControl (addr "address"));
   ("SetOracleRegistryAccessControl", one SetOracleRegistryAccessControl (addr "address"));
   ("SetComplianceAccessControl", one SetComplianceAccessControl (addr "address"));
   ("SetGovernanceAccessControl", one SetGovernanceAccessControl (addr "address"));
   ("SetReferralAccessControl", one SetReferralAccessControl (addr "address"))].

(** [None] is the [undefined] of a tag the [switch] has no case for. *)
Definition buildActionPayload (tag : string) : result (option Proposed) :=
  match entry tag builders with Some r => p ← r; Ok (Some p) | None => Ok None end.
End form.

(** *** Its inputs

    A text that is typed, or one of the options of a [<select>], which shows [shown] as
    long as nothing was chosen. *)
Inductive Control :=
  | Typed (key placeholder : string)
  | Chosen (key shown : string) (options : list (string * string)).

Definition control_key (c : Control) : string := match c with Typed key _ | Chosen key _ _ => key end.

Definition shown (fields : gmap string string) (c : Control) : string :=
  match c with Typed key _ => default "" (fields !! key) | Chosen key first _ => default first (fields !! key) end.

Definition switch (tag : string) : list Control :=
  [Chosen (value_key tag) "true" [("true", "true"); ("false", "false")]].
Definition role_choice : Control := Chosen "role" "SuperAdmin" ROLE_LABELS.
Definition any_address : list Control := [Typed "address" "Address (G... or C...)"].

Definition ActionFields_cases : list (string * list Control) :=
  [("SetPaused", switch "SetPaused"); ("SetKycRequired", switch "SetKycRequired");
   ("SetYield", [Typed "bps" "Basis points"]); ("SetMaxUtilization", [Typed "bps" "Basis points"]);
   ("SetTreasury", any_address); ("SetOracleContract", any_address); ("SetOracle", any_address);
   ("AddKeeper", any_address);
   ("WithdrawRevenue", [Typed "token" "Token contract"; Typed "amount" "Amount (stroops)"]);
   ("SetInvestorKyc",
      [Typed "investor" "Investor address"; Chosen "approved" "true" [("true", "Approved"); ("false", "Not approved")]]);
   ("RegisterDebtor", [Typed "debtorId" "Debtor ID"; Typed "debtorName" "Debtor name"; Typed "maxExposure" "Max exposure"]);
   ("DeactivateDebtor", [Typed "debtorId" "Debtor ID"]); ("SetLateThreshold", [Typed "days" "Days"]);
   ("SetScoreThresholds",
      [Typed "excellent" "Excellent"; Typed "veryGood" "Very good"; Typed "good" "Good"; Typed "fair" "Fair"]);
   ("RegisterAttestor",
      [Typed "address" "Attestor address";
       Chosen "attestorType" "0"
         [("0", "Business Registry"); ("1", "Credit Bureau"); ("2", "External Protocol"); ("3", "Manual")];
       Typed "weightBps" "Weight (bps)"]);
   ("AddSigner", [role_choice; Typed "address" "Signer address"]);
   ("RemoveSigner", [role_choice; Typed "address" "Signer address"]);
   ("SetThreshold", [role_choice; Typed "threshold" "New threshold"]);
   ("SetOracleRegistryInvoiceContract", any_address); ("SetReferralPool", any_address);
   ("SetInvoiceAccessControl", any_address); ("SetCreditScoreAccessControl", any_address);
   ("SetOracleRegistryAccessControl", any_address); ("SetComplianceAccessControl", any_address);
   ("SetGovernanceAccessControl", any_address); ("SetReferralAccessControl", any_address);
   ("SetOracleRegistryTreasury", [Typed "treasury" "Treasury address (blank to clear)"]);
   ("SetOracleRegistryConfig",
      [Typed "minStake" "Min stake"; Typed "requiredVotes" "Required votes"; Typed "quorumBps" "Quorum bps";
       Typed "roundDurationSecs" "Round duration (secs)"; Typed "deregisterCooldownSecs" "Deregister cooldown (secs)"]);
   ("SetOracleRegistryPaused", switch "SetOracleRegistryPaused"); ("SetCompliancePaused", switch "SetCompliancePaused");
   ("SetReferralPaused", switch "SetReferralPaused");
   ("SlashOracle",
      [Typed "operator" "Operator address"; Typed "bps" "Bps"; Typed "roundId" "Round ID"; Typed "evidence" "Evidence"]);
   ("AdminResolveRound",
      [Typed "invoiceId" "Invoice ID"; Chosen "approved" "true" [("true", "Approved"); ("false", "Rejected")];
       Typed "reason" "Reason"]);
   ("RegisterScreener", [Typed "screener" "Screener address"]);
   ("ConfirmScreenerRegistration", [Typed "screener" "Screener address"]);
   ("DeregisterScreener", [Typed "screener" "Screener address"]);
   ("SetRescreeningInterval", [Typed "secs" "Seconds"]); ("SetScreenerTimelock", [Typed "secs" "Seconds"]);
   ("UpdateGovernanceConfig",
      [Typed "quorumBps" "Quorum bps"; Typed "passBps" "Pass bps"; Typed "executionDelaySecs" "Execution delay (secs)"]);
   ("SetCategoryQuorum",
      [Chosen "category" "0" [("0", "Parameter Change"); ("1", "Treasury"); ("2", "Critical")];
       Typed "quorumBps" "Quorum bps"]);
   ("SetBorrowRewardBps", [Typed "bps" "Basis points"]); ("SetDepositRewardBps", [Typed "bps" "Basis points"])].

Definition ActionFields (action : string) : list Control := default [] (entry action ActionFields_cases).

(** ** The page *)

Record RolesState := {
  ro_configs : option (list (string * option Fields)); ro_proposals : list (Z * Fields); ro_loading : bool;
  ro_txLoading : bool; ro_role : Role; ro_target : TargetKey; ro_action : string; ro_fields : gmap string string }.

#[export] Instance eta_RolesState : Eta RolesState := λ s, {|
  ro_configs := ro_configs s; ro_proposals := ro_proposals s; ro_loading := ro_loading s; ro_txLoading := ro_txLoading s;
  ro_role := ro_role s; ro_target := ro_target s; ro_action := ro_action s; ro_fields := ro_fields s |}.

Section roles.
Context {W : Type} (X : Chain W).
Context (signTransaction : string → string → string → M W (string * option string)).
Context (u32 : number → result Z) (numberText : Z → string) (wallet : Wallet).

Local Abbreviation Act := (M (Page W RolesState)).

(** *** What is shown *)

Definition some_is (v : jsval) (address : string) : bool := existsb (λ a, is_str a address) (elements_of v).

Definition config_of (s : RolesState) (role : string) : option Fields :=
  match ro_configs s with Some l => default None (entry role l) | None => None end.
Definition isSigner (s : RolesState) (role : string) : bool :=
  match address_of wallet, config_of s role with
  | Some address, Some c => some_is (raw_of c "signers") address
  | _, _ => false
  end.

Definition status_is (p : Fields) (status : string) : bool := is_str (raw_of p "status") status.
Definition role_of (p : Fields) : string := js_String (raw_of p "role").
Definition has_approved (p : Fields) : bool :=
  match address_of wallet with Some address => some_is (raw_of p "approvals") address | None => false end.
Definition connected_address : bool := match address_of wallet with Some _ => true | None => false end.

Definition canApprove (s : RolesState) (p : Fields) : bool :=
  isSigner s (role_of p) && status_is p "Pending" && connected_address && negb (has_approved p).
Definition canRevoke (p : Fields) : bool := has_approved p && (status_is p "Pending" || status_is p "Approved").
Definition canReject (s : RolesState) (p : Fields) : bool := isSigner s (role_of p) && status_is p "Pending".
Definition canExecute (p : Fields) : bool := status_is p "Approved".

(** *** Its handlers *)

Definition load_roles : Act unit :=
  set_ui (λ s, s <| ro_loading := true |>);;
  try_catch
    (configs ← on_rpc (listAllRoleConfigs X);
     props ← on_rpc (listProposals X);
     set_ui (λ s, s <| ro_configs := Some configs |> <| ro_proposals := rev props |>))
    (λ _, toast (ToastError "Failed to load access-control state."));;
  set_ui (λ s, s <| ro_loading := false |>).

Definition choose_target (t : TargetKey) : Act unit :=
  set_ui (λ s, s <| ro_target := t |> <| ro_action := hd "" (ACTIONS_BY_TARGET t) |> <| ro_fields := ∅ |>).
Definition choose_action (a : string) : Act unit := set_ui (λ s, s <| ro_action := a |> <| ro_fields := ∅ |>).
Definition enter (key value : string) : Act unit := set_ui (λ s, s <| ro_fields := <[key := value]> (ro_fields s) |>).

Definition roles_tx (builder : Act string) (done : Act unit) : Transaction W RolesState := {|
  tx_busy := λ b s, s <| ro_txLoading := b |>; tx_build := builder; tx_rejected := or_rejected;
  tx_submit := submit X quiet_progress; tx_done := done;; load_roles;
  tx_failed := λ message, report (getContractErrorMessage message) |}.

Definition propose_build (s : RolesState) (address : string) : Act string :=
  action ← lift_result (buildActionPayload u32 (ro_fields s) (ro_action s));
  match action with
  | None => throw (EError "Fill in the action fields.")
  | Some action =>
      target ← lift_result (parseStellarAddress (ch_id X (TARGET_CONTRACTS (ro_target s)).2));
      proposer ← lift_result (parseStellarAddress address);
      on_rpc (build X proposer (Of AccessControl) "propose_action"
                [roleToScVal (ro_role s); ArgAddress proposer; ArgAddress target; proposed_scval action])
  end.

Definition handlePropose : Act unit :=
  s ← get_ui;
  match address_of wallet with
  | None => mret tt
  | Some address =>
      transact X signTransaction address
        (roles_tx (propose_build s address)
           (toast (ToastSuccess "Proposal submitted.");; set_ui (λ s, s <| ro_fields := ∅ |>)))
  end.

Definition handleSignerAction (builder : string → Z → M (Rpc (W := W)) string) (proposalId : Z) (successMessage : string)
    : Act unit :=
  match address_of wallet with
  | None => mret tt
  | Some address =>
      transact X signTransaction address
        (roles_tx (signer ← lift_result (parseStellarAddress address); on_rpc (builder signer proposalId))
           (toast (ToastSuccess successMessage)))
  end.

Definition approve (id : Z) : Act unit :=
  handleSignerAction (buildApproveActionTx X) id ("Approved proposal #" +:+ numberText id +:+ ".").
Definition revoke (id : Z) : Act unit :=
  handleSignerAction (buildRevokeApprovalTx X) id ("Revoked approval on #" +:+ numberText id +:+ ".").
Definition reject (id : Z) : Act unit :=
  handleSignerAction (buildRejectActionTx X) id ("Rejected proposal #" +:+ numberText id +:+ ".").

Definition handleExecute (proposalId : Z) : Act unit :=
  match address_of wallet with
  | None => mret tt
  | Some address =>
      transact X signTransaction address
        (roles_tx (caller ← lift_result (parseStellarAddress address); on_rpc (buildExecuteActionTx X caller proposalId))
           (toast (ToastSuccess ("Proposal #" +:+ numberText proposalId +:+ " executed."))))
  end.
End roles.

(** * Proofs *)

(** ** What the form proposes *)

Definition ALL_TARGETS : list TargetKey :=
  [target_pool; target_invoice; target_credit_score; target_oracle_registry; target_compliance; target_governance;
   target_referral; target_self].

Definition role_names : list string := map Role_name ALL_ROLES.
Definition names_a_role (tag : string) : bool := one_of ["AddSigner"; "RemoveSigner"; "SetThreshold"] tag.

Section form.
Context (u32 : number → result Z) (fields : gmap string string).

#[local] Notation build_payload := (buildActionPayload u32 fields).

Lemma entry_elem {A} k (l : list (string * A)) v : entry k l = Some v → (k, v) ∈ l.
Proof.
  induction l as [|[k' v'] l IH]; cbn [entry]; [done|]. destruct (String.eqb_spec k' k) as [->|]; [|by right; apply IH].
  intros [= ->]. left.
Qed.

(** Every action that the form offers for a target has a case in the [switch], so the
    message to fill in its fields is never shown. *)
Lemma offered_actions_are_built t tag : tag ∈ ACTIONS_BY_TARGET t → build_payload tag ≠ Ok None.
Proof.
  assert (forallb (λ t, forallb (λ tag, bool_decide (is_Some (entry tag (builders u32 fields)))) (ACTIONS_BY_TARGET t))
            ALL_TARGETS = true) as H by (by vm_compute).
  rewrite forallb_forall in H. specialize (H t). intros Ht. unfold buildActionPayload.
  assert (is_Some (entry tag (builders u32 fields))) as [r ->].
  { assert (In t ALL_TARGETS) as Hin by (destruct t; cbn; tauto). specialize (H Hin). rewrite forallb_forall in H.
    specialize (H tag (proj1 (list_elem_of_In _ _) Ht)). by apply bool_decide_eq_true in H. }
  by destruct r.
Qed.

(** The role a text names is a role of the contract, or it is refused. *)
Lemma named_role_accepted role : accepts AccessControl_Role (named_role role) = one_of role_names role.
Proof.
  unfold one_of, role_names. cbn.
  rewrite !(String.eqb_sym role). repeat (destruct (String.eqb _ role); [done|]). done.
Qed.

Definition well_proposed (tag : string) (p : Proposed) : Prop :=
  proposed_tag p = tag ∧
  accepts AccessControl_ActionPayload (proposed_scval p) =
    negb (String.eqb tag "SetCategoryQuorum") && implb (names_a_role tag) (one_of role_names (str fields "role")).

Lemma payload_well_proposed a : names_a_role (action_tag a) = false → well_proposed (action_tag a) (Payload a).
Proof.
  intros Ha. split; [done|]. rewrite Ha. unfold proposed_scval. rewrite web_payload_accepts. by destruct a.
Qed.

Lemma one_well_proposed {A} (f : A → ActionPayload) (v : result A) tag p :
  one f v = Ok p → (∀ x, action_tag (f x) = tag) → names_a_role tag = false → well_proposed tag p.
Proof.
  unfold one. destruct v as [x|e]; [|done]. intros [= <-] Ht Hn. rewrite <- (Ht x). apply payload_well_proposed. by rewrite Ht.
Qed.

Lemma builders_well_proposed : Forall (λ e, ∀ p, e.2 = Ok p → well_proposed e.1 p) (builders u32 fields).
Proof.
  unfold builders. cbv zeta. repeat (apply Forall_cons; split); [..|by apply Forall_nil_2]; cbn [fst snd]; intros p E.
  all: repeat match type of E with
       | one _ _ = Ok _ => apply (one_well_proposed _ _ _ _ E); done
       | (?r ≫= _) = Ok _ => destruct r; cbn [mbind result_bind] in E; [|done]
       | (if ?b then _ else _) = Ok _ => destruct b
       end.
  all: try (injection E as <-; by apply payload_well_proposed).
  all: injection E as <-; split; [done|]; rewrite <- named_role_accepted; cbn; by rewrite ?andb_true_r.
Qed.

(** What the form builds is the action that was chosen, and it is encoded as the
    contract declares its payloads, but for two cases: the category of a quorum, which
    the contract takes as a union, and a role that was not chosen. *)
Lemma built_action_accepted tag p : build_payload tag = Ok (Some p) →
  proposed_tag p = tag ∧
  accepts AccessControl_ActionPayload (proposed_scval p) =
    negb (String.eqb tag "SetCategoryQuorum") && implb (names_a_role tag) (one_of role_names (str fields "role")).
Proof.
  unfold buildActionPayload. destruct (entry tag _) as [r|] eqn:E; [|done]. apply entry_elem in E.
  destruct r as [q|]; [|done]. intros [= ->]. pose proof builders_well_proposed as H. rewrite Forall_forall in H.
  exact (H _ E p eq_refl).
Qed.
End form.

(** ** What is shown and what is proposed *)

Definition switches : list string :=
  ["SetPaused"; "SetKycRequired"; "SetOracleRegistryPaused"; "SetCompliancePaused"; "SetReferralPaused"].

Section shown_inputs.
Context (u32 : number → result Z) (fields fields' : gmap string string).

Definition agree (tag : string) : Prop :=
  Forall (λ k, fields !! k = fields' !! k) (map control_key (ActionFields tag)).

Lemma read_the_same k : fields !! k = fields' !! k →
  str fields k = str fields' k ∧ num u32 fields k = num u32 fields' k ∧ is_true fields k = is_true fields' k ∧
  addr fields k = addr fields' k ∧ big fields k = big fields' k.
Proof. intros H. unfold addr, big, num, is_true, str. by rewrite H. Qed.

Lemma builders_agree :
  Forall2 (λ e e', e.1 = e'.1 ∧ (agree e.1 → e.2 = e'.2)) (builders u32 fields) (builders u32 fields').
Proof.
  unfold builders. cbv zeta. repeat (apply Forall2_cons; split); [..|apply Forall2_nil]; [..|done];
    cbn [fst snd]; (split; [reflexivity|]); unfold agree; intros H;
    match type of H with Forall _ ?l => let l' := eval vm_compute in l in change l with l' in H end;
    rewrite ?Forall_cons in H; destruct_and?;
    repeat match goal with
    | E : fields !! "executionDelaySecs" = _ |- _ => rewrite E; clear E
    | E : fields !! ?k = _ |- _ => apply read_the_same in E as (?E1 & ?E2 & ?E3 & ?E4 & ?E5)
    end;
    change (value_key "SetPaused") with "SetPaused_value"; change (value_key "SetKycRequired") with "SetKycRequired_value";
    change (value_key "SetOracleRegistryPaused") with "SetOracleRegistryPaused_value";
    change (value_key "SetCompliancePaused") with "SetCompliancePaused_value";
    change (value_key "SetReferralPaused") with "SetReferralPaused_value";
    repeat match goal with E : ?x = ?y |- context [?x] => rewrite E; clear E end; reflexivity.
Qed.

(** What the form proposes depends on nothing but the inputs it shows: two entries
    that agree on them propose the same. *)
Lemma payload_of_shown_inputs tag :
  (∀ c, c ∈ ActionFields tag → fields !! control_key c = fields' !! control_key c) →
  buildActionPayload u32 fields tag = buildActionPayload u32 fields' tag.
Proof.
  intros H. assert (agree tag) as Ha.
  { apply Forall_forall. intros k Hk. apply list_elem_of_fmap in Hk as (c & -> & Hc). auto. }
  unfold buildActionPayload. pose proof builders_agree as HF. revert HF.
  generalize (builders u32 fields') as l'. generalize (builders u32 fields) as l.
  induction 1 as [|[k r] [k' r'] l l' [Hk Hr] _ IH]; [done|]. cbn [fst snd entry] in *. subst k'.
  destruct (String.eqb_spec k tag) as [->|]; [by rewrite Hr|exact IH].
Qed.
End shown_inputs.

(** C17. What the form shows and what it proposes differ as long as its choices are left
    as they are shown. A switch that shows [true] proposes [false]: to leave the form
    at "Set Paused: true" proposes to unpause. An approval that shows [true] is
    proposed as a refusal. A role that shows the super admin is proposed as a role
    without a name, which is none of the contract's. *)
Theorem untouched_choices_are_reversed u32 (fields : gmap string string) :
  (∀ tag, tag ∈ switches → fields !! value_key tag = None →
     map (shown fields) (ActionFields tag) = ["true"] ∧
     ∃ p, buildActionPayload u32 fields tag = Ok (Some p) ∧ proposed_scval p = ArgVec [ArgSymbol tag; ArgBool false]) ∧
  (fields !! "approved" = None →
     map (shown fields) (ActionFields "SetInvestorKyc") = [default "" (fields !! "investor"); "true"] ∧
     (∀ investor, addr fields "investor" = Ok investor →
        buildActionPayload u32 fields "SetInvestorKyc" = Ok (Some (Payload (SetInvestorKyc investor false)))) ∧
     (∀ invoice, big fields "invoiceId" = Ok invoice →
        buildActionPayload u32 fields "AdminResolveRound" =
          Ok (Some (Payload (AdminResolveRound invoice false (str fields "reason")))))) ∧
  (fields !! "role" = None →
     ∀ tag, names_a_role tag = true →
       option_map (shown fields) (head (ActionFields tag)) = Some "SuperAdmin" ∧
       ∀ p, buildActionPayload u32 fields tag = Ok (Some p) →
         accepts AccessControl_ActionPayload (proposed_scval p) = false).
Proof.
  split_and!.
  - intros tag Ht Hf.
    unfold switches in Ht. rewrite !elem_of_cons, elem_of_nil in Ht.
    destruct Ht as [->|[->|[->|[->|[->|[]]]]]];
      (split; [cbn -[lookup value_key]; by rewrite Hf|]); unfold buildActionPayload, builders, is_true;
      cbn [entry String.eqb]; cbn -[lookup value_key]; rewrite Hf; by eexists.
  - intros Hf. split; [cbn -[lookup]; by rewrite Hf|].
    split; intros x Hx; unfold buildActionPayload, builders, is_true, one; cbn -[lookup addr big str];
      by rewrite Hx, Hf.
  - intros Hf tag Ht. split.
    + unfold names_a_role, one_of in Ht. cbn [existsb] in Ht. rewrite !orb_true_iff, !String.eqb_eq in Ht.
      destruct Ht as [->|[->|[->|]]]; [..|done]; cbn -[lookup]; by rewrite Hf.
    + intros p Hp. apply built_action_accepted in Hp as [_ ->]. rewrite Ht. unfold str. rewrite Hf.
      by rewrite andb_false_r.
Qed.

(** ** What the page leaves true *)

Section actions.
Context {W : Type} (X : Chain W).
Context (signTransaction : string → string → string → M W (string * option string)).
Context (u32 : number → result Z) (numberText : Z → string) (wallet : Wallet) (me : string).
Context (Hme : address_of wallet = Some me).

Inductive roles_action : M (Page W RolesState) unit → Prop :=
| roles_load : roles_action (load_roles X)
| roles_target t : roles_action (choose_target t)
| roles_choose a : roles_action (choose_action a)
| roles_enter k v : roles_action (enter k v)
| roles_propose : roles_action (handlePropose X signTransaction u32 wallet)
| roles_approve id : roles_action (approve X signTransaction numberText wallet id)
| roles_revoke id : roles_action (revoke X signTransaction numberText wallet id)
| roles_reject id : roles_action (reject X signTransaction numberText wallet id)
| roles_execute id : roles_action (handleExecute X signTransaction numberText wallet id).

(** What can be done with a proposal: nobody approves what they approved, and what can
    be executed can be neither approved nor rejected. *)
Lemma approve_or_revoke s p : canApprove wallet s p = true →
  canRevoke wallet p = false ∧ canReject wallet s p = true ∧ canExecute p = false.
Proof.
  unfold canApprove, canRevoke, canReject, canExecute. rewrite !andb_true_iff, negb_true_iff.
  intros [[[Hs Hp] _] Ha]. rewrite Hs, Hp, Ha. split_and!; [done..|].
  unfold status_is, is_str in *. destruct (raw_of p "status"); try done. apply String.eqb_eq in Hp. by subst.
Qed.

Context (I : W → Prop) (signed : string → W → Prop) (HW : honest_wallet X signTransaction I signed me).

Lemma proposals_from_keeps id left : rpc_keeps I (proposals_from X id left).
Proof.
  revert id. induction left as [|left IH]; intros id; cbn [proposals_from]; [apply keeps_ret|].
  apply keeps_bind; [unfold getProposal; keep_page|intros p]. apply keeps_bind; [apply IH|intros rest; apply keeps_ret].
Qed.

Lemma listProposals_keeps : rpc_keeps I (listProposals X).
Proof.
  unfold listProposals, when_deployed. destruct (String.eqb _ _); [apply keeps_ret|].
  apply keeps_bind; [unfold getNextProposalId; keep_page|intros n; apply proposals_from_keeps].
Qed.
#[local] Hint Resolve listProposals_keeps : page_keep.

Lemma roles_action_keeps m : roles_action m → page_keeps I m.
Proof.
  destruct 1; unfold approve, revoke, reject, handlePropose, handleSignerAction, handleExecute; rewrite ?Hme; keep_page.
Qed.
End actions.
