(* ===== verification/AdminInvoices.v ===== *)
(** * The administrators' invoices: app/admin/invoices, admin/defaults and admin/dashboard

    The invoices that wait for funding and the rounds that are opened for them, one by
    one or in a batch; the invoices that are overdue; the figures of the dashboard and
    the switch that pauses the protocol. An invoice is what the contract answered, as
    [getInvoice] hands it on. *)
From S2P Require Import Prelude.
From S2P Require Import JsValue.
From S2P Require Import JsNumber.
From S2P Require Import JsArith.
From S2P Require Import Sdk.
From S2P Require Import Abi.
From S2P Require Import ContractAbi.
From S2P Require Import RpcPool.
From S2P Require Import Stellar.
From S2P Require Import WebAbi.
From S2P Require Import WebInvoice.
From S2P Require Import WebPool.
From S2P Require Import PageTx.
#[local] Open Scope string_scope.
#[local] Open Scope list_scope.
#[local] Open Scope Z_scope.

(** ** Values *)

(** [a === b], which [includes] and [Set] use: objects and arrays are never the same. *)
Definition same_value (a b : jsval) : bool :=
  match a, b with
  | JNum m, JNum n | JBig m, JBig n => m =? n
  | JStr s, JStr t => String.eqb s t
  | JBool x, JBool y => Bool.eqb x y
  | JUndef, JUndef | JNull, JNull => true
  | _, _ => false
  end.
Definition includes (l : list jsval) (v : jsval) : bool := existsb (λ x, same_value x v) l.

(** [new Set(l).size]. *)
Fixpoint distinct (l : list jsval) : list jsval :=
  match l with
  | [] => []
  | v :: l' => if includes l' v then distinct l' else v :: distinct l'
  end.

Definition status_is (status : string) (inv : jsval) : bool := is_str (get_prop_opt inv "status") status.
Definition id_of (inv : jsval) : jsval := get_prop_opt inv "id".

(** [l.filter((inv) => inv.status === status)], which throws on an element that is
    [null] or [undefined]. *)
Definition with_status (status : string) (l : list jsval) : result (list jsval) :=
  _ ← mapM (λ inv, get_prop inv "status") l;
  Ok (List.filter (status_is status) l).

(** ** app/admin/invoices/page.tsx *)

Definition PAGE_SIZE : Z := 20.
Definition COFUNDING_DEFAULT_WINDOW_SECS : Z := 7 * 24 * 60 * 60.

Inductive InvoiceTab := tab_pending | tab_funding.
Inductive BatchResult := BatchSuccess | BatchFailed (message : string).
Record Progress := { pr_current : Z; pr_total : Z; pr_finished : bool }.

Record AdminInvoicesState := {
  ai_invoices : list jsval; ai_loading : bool; ai_loadingMore : bool; ai_actionLoading : option jsval;
  ai_totalCount : Z; ai_availableLiquidity : option Z; ai_scannedCount : Z; ai_modal : option jsval;
  ai_activeTab : InvoiceTab; ai_selected : list jsval; ai_batchRunning : bool; ai_batchProgress : option Progress;
  ai_batchResults : gmap string BatchResult; ai_batchInvoices : list jsval }.

#[export] Instance eta_AdminInvoicesState : Eta AdminInvoicesState := λ s, {|
  ai_invoices := ai_invoices s; ai_loading := ai_loading s; ai_loadingMore := ai_loadingMore s;
  ai_actionLoading := ai_actionLoading s; ai_totalCount := ai_totalCount s;
  ai_availableLiquidity := ai_availableLiquidity s; ai_scannedCount := ai_scannedCount s; ai_modal := ai_modal s;
  ai_activeTab := ai_activeTab s; ai_selected := ai_selected s; ai_batchRunning := ai_batchRunning s;
  ai_batchProgress := ai_batchProgress s; ai_batchResults := ai_batchResults s; ai_batchInvoices := ai_batchInvoices s |}.

Definition hasMore (s : AdminInvoicesState) : bool := ai_scannedCount s <? ai_totalCount s.
Definition currentStatusFilter (s : AdminInvoicesState) : string :=
  match ai_activeTab s with tab_funding => "Verified" | tab_pending => "Pending" end.

Definition selectedInvoices (s : AdminInvoicesState) : list jsval :=
  List.filter (λ inv, includes (ai_selected s) (id_of inv)) (ai_invoices s).
(** The amount of an invoice of the contract is a [bigint]; a [number] cannot be added. *)
Definition amount_of (inv : jsval) : result Z :=
  match get_prop_opt inv "amount" with JBig n => Ok n | _ => Throw (ETypeError "Cannot mix BigInt and other types") end.
Definition selectedTotal (s : AdminInvoicesState) : result Z :=
  amounts ← mapM amount_of (selectedInvoices s); Ok (sum_by id amounts).
Definition batchDisplayInvoices (s : AdminInvoicesState) : list jsval :=
  match ai_batchInvoices s with [] => selectedInvoices s | l => l end.
Definition poolHasLiquidity (s : AdminInvoicesState) : result bool :=
  total ← selectedTotal s; Ok (match ai_availableLiquidity s with Some n => total <=? n | None => false end).
Definition canStartBatch (s : AdminInvoicesState) : result bool :=
  enough ← poolHasLiquidity s;
  Ok (negb (match ai_selected s with [] => true | _ => false end) && bool_decide (is_Some (ai_availableLiquidity s)) && enough).

Definition succeeded (r : BatchResult) : bool := match r with BatchSuccess => true | BatchFailed _ => false end.
Definition batchSummary (s : AdminInvoicesState) : nat * nat :=
  let l := map snd (map_to_list (ai_batchResults s)) in
  (length (List.filter succeeded l), length (List.filter (λ r, negb (succeeded r)) l)).

(** The ids of a batch, downwards from [startId]. *)
Definition batch_ids (startId batchSize : Z) : list Z :=
  let endId := Z.max 1 (startId - batchSize + 1) in
  map (λ i, startId - Z.of_nat i) (seq 0 (Z.to_nat (startId - endId + 1))).

(** A count that the contract answered, which is an integer. *)
Definition count_of (n : number) : Z := default 0 (num_to_Z n).

Section invoices.
Context {W : Type} (X : Chain W).
Context (signTransaction : string → string → string → M W (string * option string)).
Context (mock : option (string → M (Rpc (W := W)) (bool * Z * jsval))).
(** What the SDK makes of a value that is given as a number of a contract, or as an
    address. *)
Context (to_u64 to_i128 : jsval → result Z) (to_address : jsval → result string).
Context (t : string → list (string * string) → string) (USDC_TOKEN_ID : string) (wallet : Wallet).

Local Abbreviation Act := (M (Page W AdminInvoicesState)).

Definition fetchBatch (startId batchSize : Z) (status : string) : Act (list jsval) :=
  if startId <? 1 then mret []
  else fetched ← on_rpc (getMultipleInvoices X mock (batch_ids startId batchSize));
       lift_result (with_status status fetched).

Definition loadInvoices : Act unit :=
  s ← get_ui;
  set_ui (λ s, s <| ai_loading := true |>);;
  try_catch
    (n ← on_rpc (getInvoiceCount X);
     let count := count_of n in
     set_ui (λ s, s <| ai_totalCount := count |>);;
     if count =? 0 then set_ui (λ s, s <| ai_invoices := [] |> <| ai_scannedCount := 0 |>)
     else
       pending ← fetchBatch count PAGE_SIZE (currentStatusFilter s);
       set_ui (λ s, s <| ai_invoices := pending |> <| ai_scannedCount := Z.min PAGE_SIZE count |>))
    (λ _, toast (ToastError (t "failedTitle" [("status", toLowerCase (currentStatusFilter s))])));;
  set_ui (λ s, s <| ai_loading := false |>).

Definition loadMore : Act unit :=
  s ← get_ui;
  if ai_loadingMore s || negb (hasMore s) then mret tt
  else
    set_ui (λ s, s <| ai_loadingMore := true |>);;
    try_catch
      (let nextStartId := ai_totalCount s - ai_scannedCount s in
       if nextStartId <? 1 then mret tt
       else
         pending ← fetchBatch nextStartId PAGE_SIZE (currentStatusFilter s);
         set_ui (λ v, v <| ai_invoices := ai_invoices v ++ pending |>
                        <| ai_scannedCount := Z.min (ai_scannedCount v + PAGE_SIZE) (ai_totalCount s) |>))
      (λ _, mret tt);;
    set_ui (λ s, s <| ai_loadingMore := false |>).

Definition load_liquidity : Act unit :=
  if String.eqb USDC_TOKEN_ID "" then mret tt
  else try_catch
         (totals ← on_rpc (getPoolTokenTotals X USDC_TOKEN_ID);
          set_ui (λ s, s <| ai_availableLiquidity := Some (big_of totals "totalDeposited" - big_of totals "totalDeployed") |>))
         (λ _, set_ui (λ s, s <| ai_availableLiquidity := None |>)).

(** A tab that is chosen, with the effects that follow. *)
Definition choose_tab (tab : InvoiceTab) : Act unit :=
  set_ui (λ s, s <| ai_activeTab := tab |> <| ai_selected := [] |> <| ai_batchResults := ∅ |>
                 <| ai_batchProgress := None |> <| ai_batchInvoices := [] |>);;
  loadInvoices.

Definition openApproveModal (inv : jsval) : Act unit := set_ui (λ s, s <| ai_modal := Some inv |>).

Definition toggleInvoiceSelection (id : jsval) : Act unit :=
  set_ui (λ s, s <| ai_selected := if includes (ai_selected s) id
                                   then List.filter (λ x, negb (same_value x id)) (ai_selected s)
                                   else ai_selected s ++ [id] |>).

Definition toggleSelectAll : Act unit :=
  set_ui (λ s, s <| ai_selected := if (length (ai_selected s) =? length (ai_invoices s))%nat then []
                                   else map id_of (ai_invoices s) |>).

(** The round that is opened for an invoice. *)
Definition open_round_build (admin : string) (inv : jsval) : Act string :=
  now ← time_now X;
  due ← lift_result (to_u64 (get_prop_opt inv "dueDate"));
  invoiceId ← lift_result (to_u64 (id_of inv));
  sme ← lift_result (to_address (get_prop_opt inv "owner"));
  principal ← lift_result (to_i128 (get_prop_opt inv "amount"));
  token ← lift_result (to_address (get_prop_opt inv "poolContract"));
  on_rpc (buildOpenCoFundingTx X admin invoiceId token principal sme due
            (now / 1000 + COFUNDING_DEFAULT_WINDOW_SECS) 0 0).

Definition fund_one (admin : string) (inv : jsval) : Act unit :=
  xdr ← open_round_build admin inv;
  signAndSubmit X signTransaction or_rejected (submit X quiet_progress) admin xdr.

Definition record_result (inv : jsval) (r : BatchResult) : Act unit :=
  set_ui (λ s, s <| ai_batchResults := <[js_String (id_of inv) := r]> (ai_batchResults s) |>).

Definition batch_turn (admin : string) (total : Z) (indexed : nat * jsval) : Act unit :=
  let '(index, inv) := indexed in
  set_ui (λ s, s <| ai_batchProgress := Some {| pr_current := Z.of_nat index + 1; pr_total := total; pr_finished := false |} |>);;
  r ← try_catch (fund_one admin inv;; mret BatchSuccess) (λ e, mret (BatchFailed (exn_message e)));
  record_result inv r.

Definition batch_finished (total : Z) (s : AdminInvoicesState) : AdminInvoicesState :=
  s <| ai_batchRunning := false |>
    <| ai_batchProgress := Some (match ai_batchProgress s with
                                 | Some p => {| pr_current := pr_current p; pr_total := pr_total p; pr_finished := true |}
                                 | None => {| pr_current := total; pr_total := total; pr_finished := true |} end) |>.

Definition fund_batch (admin : string) (toFund : list jsval) : Act unit :=
  let total := lengthZ toFund in
  set_ui (λ s, s <| ai_batchInvoices := toFund |> <| ai_batchRunning := true |> <| ai_batchResults := ∅ |>
                 <| ai_batchProgress := Some {| pr_current := 0; pr_total := total; pr_finished := false |} |>);;
  for_each (zip (seq 0 (length toFund)) toFund) (batch_turn admin total);;
  set_ui (batch_finished total);;
  loadInvoices.

Definition handleBatchFunding : Act unit :=
  match address_of wallet with
  | None => toast (ToastError (t "adminNotConnected" []))
  | Some admin =>
      s ← get_ui;
      match selectedInvoices s with [] => mret tt | toFund => fund_batch admin toFund end
  end.

Definition approve_tx (admin : string) (inv : jsval) : Transaction W AdminInvoicesState := {|
  tx_busy := λ b s, s <| ai_actionLoading := if b then Some (id_of inv) else None |>;
  tx_build := open_round_build admin inv; tx_rejected := or_rejected; tx_submit := submit X quiet_progress;
  tx_done := toast (ToastSuccess (t "approvedInvoice" [("id", js_String (id_of inv))]));; loadInvoices; tx_failed := report |}.

Definition handleApprove : Act unit :=
  s ← get_ui;
  match ai_modal s, address_of wallet with
  | Some inv, Some admin =>
      set_ui (λ s, s <| ai_modal := None |>);;
      transact X signTransaction admin (approve_tx admin inv)
  | _, _ => mret tt
  end.
End invoices.

(** ** app/admin/defaults/page.tsx *)

Record DefaultsState := {
  de_invoices : list jsval; de_loading : bool; de_actionLoading : option jsval; de_modal : option jsval }.

#[export] Instance eta_DefaultsState : Eta DefaultsState := λ s, {|
  de_invoices := de_invoices s; de_loading := de_loading s; de_actionLoading := de_actionLoading s; de_modal := de_modal s |}.

(** [now > inv.dueDate], of a number or of [undefined]. *)
Definition due_before (now : Z) (inv : jsval) : bool := num_ltb (js_Number (get_prop_opt inv "dueDate")) (num_of_Z now).
Definition is_overdue (now : Z) (inv : jsval) : bool := status_is "Funded" inv && due_before now inv.

Section defaults.
Context {W : Type} (X : Chain W).
Context (signTransaction : string → string → string → M W (string * option string)).
Context (mock : option (string → M (Rpc (W := W)) (bool * Z * jsval))).
Context (to_u64 : jsval → result Z) (t : string → list (string * string) → string) (wallet : Wallet).

Local Abbreviation Act := (M (Page W DefaultsState)).

(** The loop from [i], with [left] invoices to go. *)
Fixpoint overdue_from (now i : Z) (left : nat) : Act (list jsval) :=
  match left with
  | O => mret []
  | S left' =>
      inv ← on_rpc (getInvoice X mock i);
      _ ← lift_result (get_prop inv "status");
      rest ← overdue_from now (i + 1) left';
      mret (if is_overdue now inv then inv :: rest else rest)
  end.

Definition loadOverdueInvoices : Act unit :=
  set_ui (λ s, s <| de_loading := true |>);;
  try_catch
    (n ← on_rpc (getInvoiceCount X);
     now ← time_now X;
     all ← overdue_from (now / 1000) 1 (Z.to_nat (count_of n));
     set_ui (λ s, s <| de_invoices := all |>))
    (λ _, toast (ToastError (t "loadFailed" [])));;
  set_ui (λ s, s <| de_loading := false |>).

Definition openMarkDefaultModal (inv : jsval) : Act unit := set_ui (λ s, s <| de_modal := Some inv |>).

Definition default_tx (admin : string) (inv : jsval) : Transaction W DefaultsState := {|
  tx_busy := λ b s, s <| de_actionLoading := if b then Some (id_of inv) else None |>;
  tx_build := (id ← lift_result (to_u64 (id_of inv)); on_rpc (buildMarkDefaultedTx X admin id));
  tx_rejected := or_rejected; tx_submit := submit X quiet_progress;
  tx_done := toast (ToastSuccess (t "defaultedInvoice" [("id", js_String (id_of inv))]));; loadOverdueInvoices;
  tx_failed := report |}.

Definition handleMarkDefault : Act unit :=
  s ← get_ui;
  match de_modal s, address_of wallet with
  | Some inv, Some admin =>
      set_ui (λ s, s <| de_modal := None |>);;
      transact X signTransaction admin (default_tx admin inv)
  | _, _ => mret tt
  end.
End defaults.

(** ** app/admin/dashboard/page.tsx *)

Definition THIRTY_DAYS_SECS : Z := 30 * 24 * 60 * 60.
Definition SEVEN_DAYS_SECS : Z := 7 * 24 * 60 * 60.
Definition INVOICE_BATCH_SIZE : nat := 20.

(** [i] steps by [size]; [fuel] is enough when it is the length. *)
Fixpoint chunk_from {A} (fuel : nat) (items : list A) (size : nat) : list (list A) :=
  match fuel, items with
  | O, _ | _, [] => []
  | S fuel', _ => take size items :: chunk_from fuel' (drop size items) size
  end.
Definition chunk {A} (items : list A) (size : nat) : list (list A) := chunk_from (length items) items size.

Record Stats := {
  sn_tvl : Z; sn_deployed : Z; sn_utilization : number; sn_available : Z; sn_activeCount : nat; sn_overdueCount : nat;
  sn_defaulted30dCount : nat; sn_defaultRate : string; sn_activeInvestors : nat; sn_newInvestors7d : nat;
  sn_pendingWithdrawals : nat }.

Definition or_zero (v : jsval) : number := js_Number (js_coalesce v (JNum 0)).
Definition since (now : Z) (v : jsval) : number := num_sub (num_of_Z now) (or_zero v).

Section stats.
Context (toFixed2 : number → string).

(** [nowSecs] is in seconds; the amounts of the active invoices are integers. *)
Definition stats (nowSecs : Z) (invoices : list jsval) : result Stats :=
  let funded := List.filter (λ i, negb (status_is "Pending" i)) invoices in
  let active := List.filter (status_is "Funded") invoices in
  let overdue := List.filter (is_overdue nowSecs) invoices in
  let defaulted := List.filter (status_is "Defaulted") invoices in
  let defaulted30d := List.filter (λ i, num_leb (since nowSecs (get_prop_opt i "fundedAt")) (num_of_Z THIRTY_DAYS_SECS)) defaulted in
  let defaultRate := if (0 <? lengthZ funded)
                     then num_mul (num_div (num_of_Z (lengthZ defaulted)) (num_of_Z (lengthZ funded))) (num_of_Z 100)
                     else num_of_Z 0 in
  amounts ← mapM (λ i, to_BigInt (js_coalesce (get_prop_opt i "amount") (JNum 0))) active;
  let deployed := sum_by id amounts in
  let tvl := 0 in
  let owners l := distinct (map (λ i, get_prop_opt i "owner") l) in
  _ ← mapM (λ i, get_prop i "status") invoices;
  Ok {| sn_tvl := tvl; sn_deployed := deployed;
        sn_utilization := if 0 <? tvl then num_of_Z (Z.quot (deployed * 100) tvl) else num_of_Z 0;
        sn_available := if deployed <? tvl then tvl - deployed else 0;
        sn_activeCount := length active; sn_overdueCount := length overdue; sn_defaulted30dCount := length defaulted30d;
        sn_defaultRate := toFixed2 defaultRate +:+ "%"; sn_activeInvestors := length (owners invoices);
        sn_newInvestors7d := length (owners (List.filter
          (λ i, num_leb (since nowSecs (get_prop_opt i "createdAt")) (num_of_Z SEVEN_DAYS_SECS)) invoices));
        sn_pendingWithdrawals := 0 |}.
End stats.

Record DashboardState := {
  ds_poolConfig : option Fields; ds_invoices : list jsval; ds_loading : bool; ds_lastRefreshed : option Z;
  ds_protocolPaused : bool; ds_pauseModalOpen : bool; ds_pauseSubmitting : bool }.

#[export] Instance eta_DashboardState : Eta DashboardState := λ s, {|
  ds_poolConfig := ds_poolConfig s; ds_invoices := ds_invoices s; ds_loading := ds_loading s;
  ds_lastRefreshed := ds_lastRefreshed s; ds_protocolPaused := ds_protocolPaused s;
  ds_pauseModalOpen := ds_pauseModalOpen s; ds_pauseSubmitting := ds_pauseSubmitting s |}.

Section dashboard.
Context {W : Type} (X : Chain W).
Context (signTransaction : string → string → string → M W (string * option string)).
Context (mock : option (string → M (Rpc (W := W)) (bool * Z * jsval))).
Context (t : string → list (string * string) → string) (wallet : Wallet).

Local Abbreviation Act := (M (Page W DashboardState)).

Definition loadData : Act unit :=
  set_ui (λ s, s <| ds_loading := true |>);;
  try_catch
    (config ← on_rpc (getPoolConfig X);
     n ← on_rpc (getInvoiceCount X);
     paused ← on_rpc (isProtocolPaused X);
     set_ui (λ s, s <| ds_poolConfig := Some config |> <| ds_protocolPaused := paused |>);;
     let ids := map Z.of_nat (seq 1 (Z.to_nat (count_of n))) in
     batches ← mapM (λ group, on_rpc (getMultipleInvoices X mock group)) (chunk ids INVOICE_BATCH_SIZE);
     now ← time_now X;
     set_ui (λ s, s <| ds_invoices := concat batches |> <| ds_lastRefreshed := Some now |>))
    (λ _, toast (ToastError (t "failedToLoad" [])));;
  set_ui (λ s, s <| ds_loading := false |>).

Definition pause_tx (admin : string) (paused : bool) : Transaction W DashboardState := {|
  tx_busy := λ b s, s <| ds_pauseSubmitting := b |>;
  tx_build := on_rpc (if paused then buildUnpauseProtocolTx X admin else buildPauseProtocolTx X admin);
  tx_rejected := or_rejected; tx_submit := submit X quiet_progress;
  tx_done := toast (ToastSuccess (t (if paused then "unpause" else "pause") []));; loadData; tx_failed := report |}.

Definition handlePauseToggleConfirm : Act unit :=
  s ← get_ui;
  match address_of wallet with
  | None => mret tt
  | Some admin =>
      set_ui (λ s, s <| ds_pauseModalOpen := false |>);;
      transact X signTransaction admin (pause_tx admin (ds_protocolPaused s))
  end.
End dashboard.

(** * Proofs *)

(** ** Chunks and batches *)

Lemma chunk_from_concat {A} fuel (items : list A) size :
  (0 < size)%nat → (length items ≤ fuel)%nat → concat (chunk_from fuel items size) = items.
Proof.
  intros Hs. revert items. induction fuel as [|fuel IH]; intros [|x items] Hl; cbn [chunk_from concat]; try done.
  { cbn in Hl. lia. }
  rewrite IH; [apply take_drop|]. rewrite length_drop. cbn in *. lia.
Qed.

Lemma chunk_concat {A} (items : list A) size : (0 < size)%nat → concat (chunk items size) = items.
Proof. intros Hs. by apply chunk_from_concat. Qed.

Lemma chunk_sizes {A} (items : list A) size : Forall (λ c, (length c ≤ size)%nat) (chunk items size).
Proof.
  unfold chunk. generalize (length items). intros fuel. revert items.
  induction fuel as [|fuel IH]; intros [|x items]; cbn [chunk_from]; constructor; [|apply IH].
  rewrite length_take. lia.
Qed.

Lemma batch_ids_range start size id : 1 ≤ start → 1 ≤ size →
  id ∈ batch_ids start size ↔ Z.max 1 (start - size + 1) ≤ id ≤ start.
Proof.
  intros H1 H2. unfold batch_ids. rewrite list_elem_of_fmap. setoid_rewrite elem_of_seq. split.
  - intros (i&->&Hi). lia.
  - intros Hid. exists (Z.to_nat (start - id)). lia.
Qed.

(** ** What a native invoice is to these pages *)

Definition given (l : list jsval) : Prop := Forall (λ v, native Invoice_Invoice v = true) l.

Lemma given_no_status status v : native Invoice_Invoice v = true → status_is status v = false.
Proof.
  intros Hn. destruct (native_struct _ _ Hn) as [o ->]. unfold status_is. cbn [get_prop_opt].
  assert (native Invoice_InvoiceStatus (obj_get o "status") = true) as Hs by (by eapply native_lookup).
  by destruct (obj_get o "status").
Qed.

Lemma given_statuses l : given l → ∃ r, mapM (λ v, get_prop v "status") l = Ok r.
Proof.
  induction 1 as [|v l Hv _ [r IH]]; [by eexists|]. destruct (native_struct _ _ Hv) as [o ->].
  cbn [mapM get_prop mbind result_bind]. rewrite IH. by eexists.
Qed.

Lemma given_filter (P : jsval → bool) l : given l → (∀ v, native Invoice_Invoice v = true → P v = false) → List.filter P l = [].
Proof. intros H HP. induction H as [|v l Hv _ IH]; [done|]. cbn [List.filter]. by rewrite (HP v Hv). Qed.

(** Whatever invoices the contract gives, the administrators' pages see none that
    waits, none that is overdue, and on the dashboard no capital that is deployed:
    every status is the array of a name. There is nothing to fund and nothing to mark
    as defaulted. *)
Theorem administrators_see_no_status toFixed2 now status l :
  given l →
  with_status status l = Ok [] ∧ List.filter (is_overdue now) l = [] ∧
  ∃ s, stats toFixed2 now l = Ok s ∧ sn_deployed s = 0 ∧ sn_tvl s = 0 ∧ sn_activeCount s = 0%nat ∧
       sn_overdueCount s = 0%nat ∧ sn_defaulted30dCount s = 0%nat ∧ sn_available s = 0.
Proof.
  intros H. destruct (given_statuses l H) as [r Hr].
  assert (∀ status, List.filter (status_is status) l = []) as Hno.
  { intros st. apply given_filter; [done|]. intros v. apply given_no_status. }
  assert (List.filter (is_overdue now) l = []) as Hov.
  { apply given_filter; [done|]. intros v Hv. unfold is_overdue. by rewrite given_no_status. }
  split_and!; [unfold with_status; by rewrite Hr, Hno|done|].
  unfold stats. rewrite !Hno, Hov. cbn [mapM mbind result_bind List.filter]. rewrite Hr. by eexists.
Qed.

(** ** The batch *)

Section batch.
Context {W : Type} (X : Chain W).
Context (signTransaction : string → string → string → M W (string * option string)).
Context (mock : option (string → M (Rpc (W := W)) (bool * Z * jsval))).
Context (to_u64 to_i128 : jsval → result Z) (to_address : jsval → result string).
Context (t : string → list (string * string) → string) (USDC_TOKEN_ID : string) (wallet : Wallet).

#[local] Notation turn := (batch_turn X signTransaction to_u64 to_i128 to_address).
#[local] Notation handleBatch := (handleBatchFunding X signTransaction mock to_u64 to_i128 to_address t wallet).

(** What became of an invoice that was tried: no transaction could be built for it, the
    wallet failed, the user refused, the network did not accept what was signed, or it
    did; only then is the invoice a success. *)
Inductive tried (admin : string) (inv : jsval) (p : Page W AdminInvoicesState) : BatchResult → Page W AdminInvoicesState → Prop :=
  | not_built e p' :
      open_round_build X to_u64 to_i128 to_address admin inv p = (Throw e, p') →
      tried admin inv p (BatchFailed (exn_message e)) p'
  | wallet_failed xdr p1 e p' :
      open_round_build X to_u64 to_i128 to_address admin inv p = (Ok xdr, p1) →
      on_world (signTransaction xdr (ch_network X) admin) p1 = (Throw e, p') →
      tried admin inv p (BatchFailed (exn_message e)) p'
  | refused xdr p1 signedTxXdr message p' :
      open_round_build X to_u64 to_i128 to_address admin inv p = (Ok xdr, p1) →
      on_world (signTransaction xdr (ch_network X) admin) p1 = (Ok (signedTxXdr, Some message), p') →
      tried admin inv p (BatchFailed (if String.eqb message "" then "Signing rejected." else message)) p'
  | not_accepted xdr p1 signedTxXdr p2 e p' :
      open_round_build X to_u64 to_i128 to_address admin inv p = (Ok xdr, p1) →
      on_world (signTransaction xdr (ch_network X) admin) p1 = (Ok (signedTxXdr, None), p2) →
      on_net (submitTx X signedTxXdr quiet_progress) p2 = (Throw e, p') →
      tried admin inv p (BatchFailed (exn_message e)) p'
  | opened xdr p1 signedTxXdr p2 status p' :
      open_round_build X to_u64 to_i128 to_address admin inv p = (Ok xdr, p1) →
      on_world (signTransaction xdr (ch_network X) admin) p1 = (Ok (signedTxXdr, None), p2) →
      on_net (submitTx X signedTxXdr quiet_progress) p2 = (Ok status, p') →
      tried admin inv p BatchSuccess p'.

(** Invoices tried one after the other, each on the network that the one before it
    left. *)
Inductive tried_all (admin : string) : list jsval → Submitting (W := W) → list BatchResult → Submitting (W := W) → Prop :=
  | none_left n : tried_all admin [] n [] n
  | one_more inv l n p r p' rs n' :
      net p = n → tried admin inv p r p' → tried_all admin l (net p') rs n' →
      tried_all admin (inv :: l) n (r :: rs) n'.

(** The results by the ids of the invoices, the later one where an id is twice. *)
Definition results_by_id (l : list jsval) (rs : list BatchResult) : gmap string BatchResult :=
  list_to_map (reverse (zip (map (λ v, js_String (id_of v)) l) rs)).

Lemma fund_one_ui K admin inv :
  ui_keeps (W := W) K (fund_one X signTransaction to_u64 to_i128 to_address admin inv).
Proof. keep_ui. Qed.

Lemma fund_one_tried admin inv p :
  let '(r, p') := fund_one X signTransaction to_u64 to_i128 to_address admin inv p in
  tried admin inv p (match r with Ok _ => BatchSuccess | Throw e => BatchFailed (exn_message e) end) p' ∧ ui p' = ui p.
Proof.
  pose proof (fund_one_ui (λ u, u = ui p) admin inv p eq_refl) as Hui.
  destruct (fund_one X signTransaction to_u64 to_i128 to_address admin inv p) as [r p'] eqn:E.
  split; [|by destruct r]. clear Hui.
  unfold fund_one, signAndSubmit, submit in E. unfold mbind at 1, M_bind at 1 in E.
  destruct (open_round_build _ _ _ _ _ _ p) as [[xdr|e] p1] eqn:Eb; [|injection E as <- <-; by apply not_built].
  unfold mbind at 1, M_bind at 1 in E.
  destruct (on_world _ p1) as [[[signedTxXdr [message|]]|e] p2] eqn:Es.
  - injection E as <- <-. by eapply refused.
  - unfold on_net in E. unfold mbind, M_bind in E.
    destruct (submitTx X signedTxXdr quiet_progress (net p2)) as [[status|e] n'] eqn:En; injection E as <- <-.
    + eapply opened; [done..|]. unfold on_net. by rewrite En.
    + eapply not_accepted; [done..|]. unfold on_net. by rewrite En.
  - injection E as <- <-. by eapply wallet_failed.
Qed.

(** After the invoices [done_], tried from the network [n], with the results [rs]. *)
Definition batch_at (admin : string) (n : Submitting (W := W)) (done_ : list jsval) (total : Z)
    (p : Page W AdminInvoicesState) : Prop :=
  ∃ rs, length rs = length done_ ∧ (∀ l rs' n', tried_all admin l (net p) rs' n' → tried_all admin (done_ ++ l) n (rs ++ rs') n') ∧
    ai_batchResults (ui p) = results_by_id done_ rs ∧
    ai_batchProgress (ui p) = Some {| pr_current := lengthZ done_; pr_total := total; pr_finished := false |}.

Lemma batch_turn_triple admin n total done_ inv :
  triple (batch_at admin n done_ total) (turn admin total (length done_, inv))
    (λ _, batch_at admin n (done_ ++ [inv]) total) (λ _, False).
Proof.
  intros p (rs&Hl&Hn&Hr&Hp). unfold batch_turn. unfold mbind at 1, M_bind at 1. unfold set_ui at 1, modify.
  set (p0 := {| ui := _; toasts := toasts p; net := net p |}).
  pose proof (fund_one_tried admin inv p0) as H. unfold mbind at 1, M_bind at 1. unfold try_catch, mbind at 1, M_bind at 1.
  destruct (fund_one X signTransaction to_u64 to_i128 to_address admin inv p0) as [r p1]. destruct H as [Ht Hui].
  set (res := match r with Ok _ => BatchSuccess | Throw e => BatchFailed (exn_message e) end) in *.
  assert (batch_at admin n (done_ ++ [inv]) total
    {| ui := (ui p1) <| ai_batchResults := <[js_String (id_of inv) := res]> (ai_batchResults (ui p1)) |>;
       toasts := toasts p1; net := net p1 |}) as Hb.
  { exists (rs ++ [res]). rewrite !length_app, Hl. split; [done|]. split.
    { intros l rs' n' H. rewrite <-!app_assoc. apply Hn. by apply one_more with p0 p1. }
    rewrite Hui. cbn. split; [|rewrite lengthZ_app; unfold lengthZ; repeat f_equal; cbn; lia].
    rewrite Hr. unfold results_by_id. rewrite map_app, zip_with_app by (by rewrite length_map).
    rewrite reverse_app. reflexivity. }
  by destruct r.
Qed.

Lemma batch_turns admin n total l done_ :
  triple (batch_at admin n done_ total) (for_each (zip (seq (length done_) (length l)) l) (turn admin total))
    (λ _, batch_at admin n (done_ ++ l) total) (λ _, False).
Proof.
  revert done_. induction l as [|inv l IH]; intros done_; cbn [length seq zip zip_with for_each].
  - intros p Hp. cbn. by rewrite app_nil_r.
  - eapply triple_bind; [apply batch_turn_triple|]. intros _ p Hp. pose proof (IH (done_ ++ [inv]) p Hp) as H.
    rewrite length_app, Nat.add_1_r, <-app_assoc in H. exact H.
Qed.

Lemma loadInvoices_returns K :
  (∀ s b, K s → K (s <| ai_loading := b |>)) → (∀ s n, K s → K (s <| ai_totalCount := n |>)) →
  (∀ s l n, K s → K (s <| ai_invoices := l |> <| ai_scannedCount := n |>)) →
  triple (λ p : Page W _, K (ui p)) (loadInvoices X mock t) (λ _ p, K (ui p)) (λ _, False).
Proof.
  intros HK1 HK2 HK3. unfold loadInvoices.
  apply (triple_bind _ _ (λ _ p, K (ui p))); [by intros p Hp|intros s].
  apply (triple_bind _ _ (λ _ p, K (ui p))); [by intros p Hp; apply HK1|intros _].
  apply (triple_bind _ _ (λ _ p, K (ui p))); [|by intros _ p Hp; apply HK1].
  apply (triple_try_catch _ _ _ _ (λ p, K (ui p))); [|by intros e p Hp].
  match goal with |- triple _ ?m _ _ => change (ui_keeps (W := W) K m) end.
  keep_ui.
Qed.

(** C15. A batch reaches its end: the invoices that were selected are tried one after
    the other, whatever becomes of each; the result that is shown for one is a success
    exactly when a transaction was built for it, the wallet signed it, and the network
    accepted what was signed, and otherwise the error that stopped it; the batch is
    then shown as finished, and the invoices are read again. *)
Theorem batch_tries_every_invoice admin p :
  address_of wallet = Some admin → selectedInvoices (ui p) ≠ [] →
  let toFund := selectedInvoices (ui p) in
  let '(r, p') := handleBatch p in
  r = Ok tt ∧
  (∃ rs q, tried_all admin toFund (net p) rs (net q) ∧ ai_batchResults (ui p') = results_by_id toFund rs ∧
     p' = (loadInvoices X mock t q).2) ∧
  ai_batchRunning (ui p') = false ∧
  ai_batchProgress (ui p') =
    Some {| pr_current := lengthZ toFund; pr_total := lengthZ toFund; pr_finished := true |}.
Proof.
  intros Ha Hne toFund. assert (handleBatch p = fund_batch X signTransaction mock to_u64 to_i128 to_address t admin toFund p) as ->.
  { unfold handleBatchFunding, get_ui, get_state, mbind, M_bind, mret, M_ret. subst toFund. rewrite Ha. by destruct (selectedInvoices (ui p)). }
  unfold fund_batch. unfold mbind at 1, M_bind at 1. unfold set_ui at 1, modify.
  match goal with |- context [(for_each _ _ ≫= _) ?x] => set (p0 := x) end.
  pose proof (batch_turns admin (net p) (lengthZ toFund) toFund [] p0) as H.
  assert (batch_at admin (net p) [] (lengthZ toFund) p0) as H0.
  { exists []. split; [done|]. split; [by intros|]. by split. }
  specialize (H H0). unfold mbind at 1, M_bind at 1. cbn [length] in H.
  destruct (for_each _ _ p0) as [[u|e] p1]; [|done]. destruct H as (rs&Hl&Hn&Hr&Hp).
  cbn [app] in Hn, Hr. unfold mbind at 1, M_bind at 1. unfold set_ui at 1, modify.
  set (q := {| ui := batch_finished (lengthZ toFund) (ui p1); toasts := toasts p1; net := net p1 |}).
  pose proof (loadInvoices_returns (λ s, ai_batchResults s = ai_batchResults (ui p1) ∧ ai_batchRunning s = false ∧
    ai_batchProgress s = Some {| pr_current := lengthZ toFund; pr_total := lengthZ toFund; pr_finished := true |})) as H.
  specialize (H (λ s b K, K) (λ s n K, K) (λ s l n K, K) q). cbn beta in H.
  assert (ai_batchResults (ui q) = ai_batchResults (ui p1) ∧ ai_batchRunning (ui q) = false ∧
    ai_batchProgress (ui q) = Some {| pr_current := lengthZ toFund; pr_total := lengthZ toFund; pr_finished := true |}) as H1.
  { cbn. by rewrite Hp. }
  specialize (H H1). destruct (loadInvoices X mock t q) as [[[]|e] p'] eqn:E; [|done].
  clear H1. destruct H as (H1&H2&H3).
  split; [done|]. split; [|by split]. exists rs, q. split.
  - specialize (Hn [] [] (net p1) (none_left _ _)). by rewrite !app_nil_r in Hn.
  - split; [by rewrite H1|by rewrite E].
Qed.
End batch.

(** ** What the actions leave true *)

Section actions.
Context {W : Type} (X : Chain W).
Context (signTransaction : string → string → string → M W (string * option string)).
Context (mock : option (string → M (Rpc (W := W)) (bool * Z * jsval))).
Context (to_u64 to_i128 : jsval → result Z) (to_address : jsval → result string).
Context (t : string → list (string * string) → string) (USDC_TOKEN_ID : string) (wallet : Wallet) (me : string).
Context (Hme : address_of wallet = Some me).

Inductive admin_invoices_action : M (Page W AdminInvoicesState) unit → Prop :=
| ai_act_load : admin_invoices_action (loadInvoices X mock t)
| ai_act_more : admin_invoices_action (loadMore X mock)
| ai_act_liquidity : admin_invoices_action (load_liquidity X USDC_TOKEN_ID)
| ai_act_tab tab : admin_invoices_action (choose_tab X mock t tab)
| ai_act_open inv : admin_invoices_action (openApproveModal inv)
| ai_act_select id : admin_invoices_action (toggleInvoiceSelection id)
| ai_act_select_all : admin_invoices_action toggleSelectAll
| ai_act_batch : admin_invoices_action (handleBatchFunding X signTransaction mock to_u64 to_i128 to_address t wallet)
| ai_act_approve : admin_invoices_action (handleApprove X signTransaction mock to_u64 to_i128 to_address t wallet).

Inductive defaults_action : M (Page W DefaultsState) unit → Prop :=
| de_act_load : defaults_action (loadOverdueInvoices X mock t)
| de_act_open inv : defaults_action (openMarkDefaultModal inv)
| de_act_default : defaults_action (handleMarkDefault X signTransaction mock to_u64 t wallet).

Inductive dashboard_action : M (Page W DashboardState) unit → Prop :=
| ds_act_load : dashboard_action (loadData X mock t)
| ds_act_pause : dashboard_action (handlePauseToggleConfirm X signTransaction mock t wallet).

Context (I : W → Prop) (signed : string → W → Prop) (HW : honest_wallet X signTransaction I signed me).
Context (Hmock : ∀ fetch path, mock = Some fetch → rpc_keeps I (fetch path)).

Lemma getInvoice_keeps id : rpc_keeps I (getInvoice X mock id).
Proof.
  unfold getInvoice, mockFetch. destruct mock as [fetch|] eqn:E; [|keep_page].
  apply keeps_bind; [by apply Hmock|intros [[ok status] body]; keep_page].
Qed.
#[local] Hint Resolve getInvoice_keeps : page_keep.

Lemma getMultipleInvoices_keeps ids : rpc_keeps I (getMultipleInvoices X mock ids).
Proof. unfold getMultipleInvoices. destruct ids; [apply keeps_ret|]. apply mapM_keeps. intros i. apply getInvoice_keeps. Qed.
#[local] Hint Resolve getMultipleInvoices_keeps : page_keep.

Lemma overdue_from_keeps now i left : page_keeps I (overdue_from X mock now i left).
Proof.
  revert i. induction left as [|left IH]; intros i; cbn [overdue_from]; [apply keeps_ret|].
  apply keeps_bind; [keep_page|intros inv]. apply keeps_bind; [keep_page|intros _].
  apply keeps_bind; [apply IH|intros rest; apply keeps_ret].
Qed.
#[local] Hint Resolve overdue_from_keeps : page_keep.

Lemma fund_one_keeps inv : page_keeps I (fund_one X signTransaction to_u64 to_i128 to_address me inv).
Proof.
  unfold fund_one. apply keeps_bind; [unfold open_round_build; keep_page|intros xdr].
  eapply signAndSubmit_keeps; [exact HW|]. by eapply quiet_submits.
Qed.
#[local] Hint Resolve fund_one_keeps : page_keep.

Lemma admin_invoices_keeps m : admin_invoices_action m → page_keeps I m.
Proof. destruct 1; unfold handleBatchFunding, handleApprove; rewrite ?Hme; keep_page. Qed.

Lemma defaults_keeps m : defaults_action m → page_keeps I m.
Proof. destruct 1; unfold handleMarkDefault; rewrite ?Hme; keep_page. Qed.

Lemma dashboard_keeps m : dashboard_action m → page_keeps I m.
Proof. destruct 1; unfold handlePauseToggleConfirm; rewrite ?Hme; keep_page. Qed.
End actions.
