(* ===== verification/SmeDashboard.v ===== *)
(** * The borrower's dashboard: app/dashboard, components/dashboard and CreditScore

    The invoices of the connected wallet, scanned batch by batch from the newest that
    the contract has; the search at the indexer; filters, order and pages, and how they
    are kept in the address of the page; the board of the pipeline; the card of the
    credit score. *)
From S2P Require Import Prelude.
From Stdlib Require Import Ascii.
From S2P Require Import JsValue.
From S2P Require Import JsNumber.
From S2P Require Import JsArith.
From S2P Require Import Sdk.
From S2P Require Import Abi.
From S2P Require Import ContractAbi.
From S2P Require Import RpcPool.
From S2P Require Import Stellar.
From S2P Require Import WebAbi.
From S2P Require Import WebInvoice.
From S2P Require Import WebPool.
From S2P Require Import WebContracts.
Import WebCredit.
From S2P Require Import PageTx.
From S2P Require InvoicePage.
From S2P Require Import AdminInvoices.
#[local] Open Scope string_scope.
#[local] Open Scope list_scope.
#[local] Open Scope Z_scope.

(** ** The rows *)

Record DashboardRow := { dr_invoice : jsval; dr_metadata : Fields }.

Inductive SortOption := created_desc | created_asc | amount_desc | amount_asc | due_asc | due_desc.
Definition SORT_OPTIONS : list (string * SortOption) :=
  [("created-desc", created_desc); ("created-asc", created_asc); ("amount-desc", amount_desc); ("amount-asc", amount_asc);
   ("due-asc", due_asc); ("due-desc", due_desc)].
Definition sort_name (o : SortOption) : string :=
  match o with
  | created_desc => "created-desc" | created_asc => "created-asc" | amount_desc => "amount-desc"
  | amount_asc => "amount-asc" | due_asc => "due-asc" | due_desc => "due-desc"
  end.

Definition STATUS_TABS : list string :=
  ["Pending"; "AwaitingVerification"; "Verified"; "Disputed"; "Funded"; "Paid"; "Defaulted"; "Cancelled"; "Expired"].

Definition DASHBOARD_PAGE_SIZE : nat := 20.

(** A number by which is sorted. The comparator is [NaN], and the order left as it is,
    where a number is none: the key is then the same for all. *)
Definition date_key (x : number) : Z := default 0 (num_to_Z x).
Definition created_key (r : DashboardRow) : Z := date_key (js_Number (get_prop_opt (dr_invoice r) "createdAt")).
Definition amount_key (r : DashboardRow) : Z := big_of (dr_metadata r) "amount".
Definition due_key (r : DashboardRow) : Z := date_key (num_of (dr_metadata r) "dueDate").

Definition sort_key (o : SortOption) (r : DashboardRow) : Z :=
  match o with
  | created_desc => - created_key r | created_asc => created_key r
  | amount_desc => - amount_key r | amount_asc => amount_key r
  | due_asc => due_key r | due_desc => - due_key r
  end.

(** [v.toLowerCase().includes(q)]. *)
Definition lower_includes (q : string) (v : jsval) : result bool :=
  match v with
  | JStr s => Ok (Prelude.includes q (toLowerCase s))
  | _ => Throw (ETypeError "toLowerCase is not a function")
  end.

Definition matches (q : string) (r : DashboardRow) : result bool :=
  in_debtor ← lower_includes q (raw_of (dr_metadata r) "debtor");
  if (in_debtor : bool) then Ok true
  else
    in_description ← lower_includes q (raw_of (dr_metadata r) "description");
    if (in_description : bool) then Ok true else lower_includes q (raw_of (dr_metadata r) "name").

(** A [filter] whose test may throw. *)
Fixpoint filter_result {A} (f : A → result bool) (l : list A) : result (list A) :=
  match l with
  | [] => Ok []
  | x :: l' => b ← f x; rest ← filter_result f l'; Ok (if (b : bool) then x :: rest else rest)
  end.

(** lib/dashboardFilters.ts. *)
Definition row_status (r : DashboardRow) : jsval := get_prop_opt (dr_invoice r) "status".
Definition filterInvoicesByStatuses (rows : list DashboardRow) (statuses : list string) : list DashboardRow :=
  match statuses with
  | [] => rows
  | _ => List.filter (λ r, AdminInvoices.includes (map JStr statuses) (row_status r)) rows
  end.

(** ** The page *)

Inductive DashboardTab := tab_borrower | tab_lender.
Inductive ViewMode := view_list | view_pipeline.
Definition view_name (m : ViewMode) : string := match m with view_list => "list" | view_pipeline => "pipeline" end.

Record ScoreFactors := { sf_finalScore : number; sf_riskAdjustmentPts : number; sf_trendAdjustmentPts : number }.

Record SmeState := {
  da_invoices : list DashboardRow; da_committed : gmap string Z; da_loading : bool; da_loadingMore : bool;
  da_showOnboarding : bool; da_isScoreStale : bool; da_scoreFactors : option ScoreFactors; da_tab : DashboardTab;
  da_search : string; da_debounced : string; da_statusFilters : list string; da_sort : SortOption; da_page : nat;
  da_hydrated : bool; da_viewMode : ViewMode; da_total : Z; da_scanned : Z }.

#[export] Instance eta_SmeState : Eta SmeState := λ s, {|
  da_invoices := da_invoices s; da_committed := da_committed s; da_loading := da_loading s;
  da_loadingMore := da_loadingMore s; da_showOnboarding := da_showOnboarding s; da_isScoreStale := da_isScoreStale s;
  da_scoreFactors := da_scoreFactors s; da_tab := da_tab s; da_search := da_search s; da_debounced := da_debounced s;
  da_statusFilters := da_statusFilters s; da_sort := da_sort s; da_page := da_page s; da_hydrated := da_hydrated s;
  da_viewMode := da_viewMode s; da_total := da_total s; da_scanned := da_scanned s |}.

Definition more_to_scan (s : SmeState) : bool := da_scanned s <? da_total s.
Definition query_of (s : SmeState) : string := trim (da_debounced s).
Definition searching (s : SmeState) : bool := negb (String.eqb (query_of s) "").

Definition searched (s : SmeState) : result (list DashboardRow) :=
  if searching s then filter_result (matches (toLowerCase (query_of s))) (da_invoices s) else Ok (da_invoices s).
Definition filtered (s : SmeState) : result (list DashboardRow) :=
  rows ← searched s; Ok (sort_by (sort_key (da_sort s)) (filterInvoicesByStatuses rows (da_statusFilters s))).
Definition pipelineRows : SmeState → result (list DashboardRow) := searched.

Definition isFiltered (s : SmeState) : bool := searching s || negb (bool_decide (da_statusFilters s = [])).

(** [Math.max(1, Math.ceil(n / PAGE_SIZE))]. *)
Definition pages_of (n : Z) : Z := Z.max 1 ((n + 19) / 20).
Definition totalPages (s : SmeState) : result Z :=
  rows ← filtered s; Ok (pages_of (if String.eqb (da_debounced s) "" then lengthZ rows else da_total s)).
Definition pagedItems (s : SmeState) : result (list DashboardRow) :=
  rows ← filtered s;
  Ok (if String.eqb (da_debounced s) "" then take DASHBOARD_PAGE_SIZE (drop (da_page s * DASHBOARD_PAGE_SIZE) rows) else rows).

Record SmeStats := {
  sm_total : nat; sm_pending : nat; sm_funded : nat; sm_paid : nat; sm_defaulted : nat; sm_totalVolume : Z }.
Definition sme_stats (s : SmeState) : result SmeStats :=
  let count status := length (List.filter (λ r, status_is status (dr_invoice r)) (da_invoices s)) in
  amounts ← mapM (λ r, amount_of (dr_invoice r)) (da_invoices s);
  Ok {| sm_total := length (da_invoices s); sm_pending := count "Pending"; sm_funded := count "Funded";
        sm_paid := count "Paid"; sm_defaulted := count "Defaulted"; sm_totalVolume := sum_by id amounts |}.

(** What stands where the invoices are listed; only the list has the buttons that turn
    the pages, and the one to the next page is what scans further. *)
Inductive Listing :=
  | Loading | CreateFirst | NothingMatches (can_clear : bool) | Board (rows : list DashboardRow)
  | Cards (rows : list DashboardRow) (prev_enabled next_enabled : bool).

Definition listing (s : SmeState) : result Listing :=
  rows ← filtered s;
  if da_loading s then Ok Loading
  else match da_invoices s with
  | [] => Ok CreateFirst
  | _ =>
      match rows with
      | [] => Ok (NothingMatches (isFiltered s))
      | _ =>
          match da_viewMode s with
          | view_pipeline => rows ← pipelineRows s; Ok (Board rows)
          | view_list =>
              items ← pagedItems s; pages ← totalPages s;
              Ok (Cards items (negb (da_page s =? 0)%nat)
                    (negb ((pages - 1 <=? Z.of_nat (da_page s)) && negb (more_to_scan s))))
          end
      end
  end.

(** *** The address of the page

    The parameters of its query, in the order they are set. *)
Definition url_params (s : SmeState) : list (string * string) :=
  (if searching s then [("q", query_of s)] else []) ++
  match da_statusFilters s with [] => [] | l => [("status", String.concat "," l)] end ++
  (match da_sort s with created_desc => [] | o => [("sort", sort_name o)] end) ++
  (if (0 <? da_page s)%nat then [("page", pretty (Z.of_nat (da_page s)))] else []).

Fixpoint get_param (k : string) (l : list (string * string)) : option string :=
  match l with
  | [] => None
  | (k', v) :: l' => if String.eqb k' k then Some v else get_param k l'
  end.

Definition statuses_of (status : option string) : list string :=
  match text_or_none status with
  | Some text => List.filter (λ v, one_of STATUS_TABS v) (split_char ","%char text)
  | None => []
  end.
Definition sort_of (sort : option string) : SortOption :=
  match sort with
  | Some name => match find (λ o, String.eqb o.1 name) SORT_OPTIONS with Some (_, o) => o | None => created_desc end
  | None => created_desc
  end.
(** [Math.max(0, parseInt(params.get('page') ?? '0', 10) || 0)]. *)
Definition page_of (page : option string) : nat := Z.to_nat (default 0 (parseInt (default "0" page))).

Definition from_url (params : list (string * string)) (s : SmeState) : SmeState :=
  let q := default "" (get_param "q" params) in
  s <| da_search := q |> <| da_debounced := q |> <| da_statusFilters := statuses_of (get_param "status" params) |>
    <| da_sort := sort_of (get_param "sort" params) |> <| da_page := page_of (get_param "page" params) |>.

(** The effect of the search, the filters and the order, when one of them was changed. *)
Definition first_page (s : SmeState) : SmeState := if da_hydrated s then s <| da_page := 0%nat |> else s.

(** Reading the address sets new filters, equal to the old ones or not: the effect that
    goes back to the first page follows. *)
Definition hydrate (params : list (string * string)) (s : SmeState) : SmeState :=
  first_page (from_url params (s <| da_hydrated := true |>)).

Definition debounce (s : SmeState) : SmeState :=
  if String.eqb (da_debounced s) (da_search s) then s else first_page (s <| da_debounced := da_search s |>).
Definition set_sort (o : SortOption) (s : SmeState) : SmeState :=
  if String.eqb (sort_name (da_sort s)) (sort_name o) then s else first_page (s <| da_sort := o |>).
Definition toggle_status (tab : string) (s : SmeState) : SmeState :=
  first_page (s <| da_statusFilters := if one_of (da_statusFilters s) tab
                                       then List.filter (λ item, negb (String.eqb item tab)) (da_statusFilters s)
                                       else da_statusFilters s ++ [tab] |>).
Definition all_statuses (s : SmeState) : SmeState := first_page (s <| da_statusFilters := [] |>).
Definition clear_filters (s : SmeState) : SmeState :=
  first_page (s <| da_search := "" |> <| da_debounced := "" |> <| da_statusFilters := [] |>).
Definition prev_page (s : SmeState) : SmeState := s <| da_page := (da_page s - 1)%nat |>.

(** hooks/useDashboardViewMode.ts: what the store holds, once the page is shown. *)
Definition restore_view (stored : option string) (s : SmeState) : SmeState :=
  match stored with
  | Some name => if String.eqb name "list" then s <| da_viewMode := view_list |>
                 else if String.eqb name "pipeline" then s <| da_viewMode := view_pipeline |> else s
  | None => s
  end.

Section sme.
Context {W : Type} (X : Chain W).
Context (mock : option (string → M (Rpc (W := W)) (bool * Z * jsval))).
Context (fetch : string → M W (bool * result jsval)) (INDEXER_URL : string) (form_encode : string → string).
Context (to_u64 : jsval → result Z) (t : string → string) (wallet : Wallet).

Local Abbreviation Act := (M (Page W SmeState)).

Definition my_address : jsval := match w_address wallet with Some a => JStr a | None => JNull end.

(** The rows of the ids whose invoices are the wallet's own. *)
Definition own (row : Z * jsval) : bool := same_value (get_prop_opt row.2 "owner") my_address.
Definition rows_of_ids (ids : list Z) (fetched : list jsval) : Act (list DashboardRow) :=
  _ ← lift_result (mapM (λ inv, get_prop inv "owner") fetched);
  mapM (λ '(id, inv), meta ← on_rpc (getInvoiceMetadata X id); mret {| dr_invoice := inv; dr_metadata := meta |})
    (List.filter own (zip ids fetched)).

Definition committed_of (row : DashboardRow) : Act (option (string * Z)) :=
  or_else None
    (id ← lift_result (to_u64 (id_of (dr_invoice row)));
     record ← on_rpc (getFundedInvoice X id);
     mret (match record with Some f => Some (js_String (id_of (dr_invoice row)), big_of f "committed") | None => None end)).

Definition scan (startId : Z) : Act (list DashboardRow * gmap string Z) :=
  let ids := batch_ids startId 20 in
  fetched ← on_rpc (getMultipleInvoices X mock ids);
  rows ← rows_of_ids ids fetched;
  found ← mapM committed_of (List.filter (λ r, status_is "Pending" (dr_invoice r)) rows);
  mret (rows, list_to_map (rev (omap id found))).

Definition scannedUpTo (startId : Z) : Z := Z.max 1 (startId - 20 + 1) - 1.

Definition search_url (s : SmeState) : string :=
  INDEXER_URL +:+ "/api/invoices/search?q=" +:+ form_encode (query_of s) +:+ "&page=" +:+ pretty (Z.of_nat (da_page s))
  +:+ "&pageSize=20".

Definition search_indexer (s : SmeState) : Act unit :=
  '(ok, body) ← on_world (fetch (search_url s));
  if negb ok then throw (EError "Invoice search failed")
  else
    result ← lift_result body;
    answer ← lift_result (get_prop result "invoiceIds");
    listed ← lift_result (array answer);
    ids ← lift_result (mapM to_u64 listed);
    fetched ← on_rpc (getMultipleInvoices X mock ids);
    rows ← rows_of_ids ids fetched;
    let total := count_of (js_Number (get_prop_opt result "total")) in
    set_ui (λ s, s <| da_invoices := rows |> <| da_committed := ∅ |> <| da_total := total |> <| da_scanned := total |>).

Definition load_newest : Act unit :=
  n ← on_rpc (getInvoiceCount X);
  let count := count_of n in
  set_ui (λ s, s <| da_total := count |>);;
  if count =? 0 then set_ui (λ s, s <| da_invoices := [] |> <| da_committed := ∅ |> <| da_scanned := 0 |>)
  else
    '(rows, committed) ← scan count;
    set_ui (λ s, s <| da_invoices := rows |> <| da_committed := committed |>
                   <| da_scanned := count - Z.max (scannedUpTo count) 0 |>).

Definition load_sme : Act unit :=
  s ← get_ui;
  set_ui (λ s, s <| da_loading := true |>);;
  try_catch (if searching s then search_indexer s else load_newest)
    (λ _, toast (ToastError (t "notifications.loadError")));;
  set_ui (λ s, s <| da_loading := false |>).

Definition scan_more : Act unit :=
  s ← get_ui;
  if da_loadingMore s || negb (more_to_scan s) then mret tt
  else
    set_ui (λ s, s <| da_loadingMore := true |>);;
    try_catch
      (let nextStartId := da_total s - da_scanned s in
       if nextStartId <? 1 then mret tt
       else
         '(rows, committed) ← scan nextStartId;
         set_ui (λ v, v <| da_invoices := da_invoices v ++ rows |> <| da_committed := committed ∪ da_committed v |>
                        <| da_scanned := Z.min (da_scanned v + 20) (da_total s) |>))
      (λ _, mret tt);;
    set_ui (λ s, s <| da_loadingMore := false |>).

Definition next_page : Act unit :=
  s ← get_ui;
  pages ← lift_result (totalPages s);
  let nextPage := S (da_page s) in
  (if (pages <=? Z.of_nat nextPage) && more_to_scan s then scan_more else mret tt);;
  set_ui (λ s, s <| da_page := nextPage |>).

(** The effect of the wallet. *)
Definition wallet_effect : Act unit :=
  if w_connected wallet then load_sme else set_ui (λ s, s <| da_loading := false |>).

(** What follows a change of the state: the page that is shown and the text that is
    searched for are read in [loadInvoices], so the effect that loads runs again when
    one of them is another. *)
Definition rerender (m : Act unit) : Act unit :=
  before ← get_ui;
  m;;
  after ← get_ui;
  if String.eqb (da_debounced before) (da_debounced after) && (da_page before =? da_page after)%nat then mret tt
  else wallet_effect.

Definition load_score : Act unit :=
  match address_of wallet with
  | None => mret tt
  | Some address =>
      result ← on_rpc (getCreditScoreStatus X address);
      match result with
      | None => mret tt
      | Some c =>
          set_ui (λ s, s <| da_isScoreStale := bool_of c "isStale" |>
                         <| da_scoreFactors := Some {| sf_finalScore := num_of c "finalScore";
                                                       sf_riskAdjustmentPts := num_of c "riskAdjustmentPts";
                                                       sf_trendAdjustmentPts := num_of c "trendAdjustmentPts" |} |>)
      end
  end.
End sme.

(** ** components/dashboard/PipelineBoard.tsx and lib/dashboardPipeline.ts *)

Definition PIPELINE_COLUMN_DEFINITIONS : list (string * list string) :=
  [("pending", ["Pending"]); ("awaitingVerification", ["AwaitingVerification"]); ("verified", ["Verified"]);
   ("funded", ["Funded"]); ("paid", ["Paid"])].
Definition ATTENTION_STATUSES : list string := ["Disputed"; "Defaulted"; "Expired"].

Definition has_status (statuses : list string) (r : DashboardRow) : bool :=
  AdminInvoices.includes (map JStr statuses) (row_status r).
Definition isOverdueInvoice (nowUnix : Z) (r : DashboardRow) : bool :=
  negb (has_status ["Paid"] r) && num_ltb (num_of (dr_metadata r) "dueDate") (num_of_Z nowUnix).
Definition isAttentionInvoice (nowUnix : Z) (r : DashboardRow) : bool :=
  has_status ATTENTION_STATUSES r || isOverdueInvoice nowUnix r.

Definition columnData (rows : list DashboardRow) : list (string * list DashboardRow) :=
  map (λ c, (c.1, List.filter (has_status c.2) rows)) PIPELINE_COLUMN_DEFINITIONS.
Definition attentionRows (nowUnix : Z) (rows : list DashboardRow) : list DashboardRow :=
  List.filter (isAttentionInvoice nowUnix) rows.
(** Also the total of a column (PipelineColumn.tsx). *)
Definition rows_total (rows : list DashboardRow) : Z := sum_by amount_key rows.

(** ** components/CreditScore.tsx *)

Inductive PaymentStatus := OnTime | Late | Defaulted.
Record PaymentRecord := { pa_dueDate : number; pa_paidDate : option number; pa_status : PaymentStatus; pa_daysLate : option number }.

(** The history the dashboard gives it. *)
Definition payment_of (r : DashboardRow) : PaymentRecord :=
  let paidAt := js_Number (get_prop_opt (dr_invoice r) "paidAt") in
  let due := num_of (dr_metadata r) "dueDate" in
  let late := num_ltb due paidAt in
  if num_ltb (num_of_Z 0) paidAt
  then {| pa_dueDate := due; pa_paidDate := Some paidAt; pa_status := if late then Late else OnTime;
          pa_daysLate := if late then Some (Math_floor (num_div (num_sub paidAt due) (num_of_Z 86400))) else None |}
  else {| pa_dueDate := due; pa_paidDate := None;
          pa_status := if status_is "Defaulted" (dr_invoice r) then Defaulted else OnTime; pa_daysLate := None |}.
Definition paymentHistory (rows : list DashboardRow) : list PaymentRecord :=
  map payment_of (List.filter (λ r, status_is "Paid" (dr_invoice r) || status_is "Defaulted" (dr_invoice r)) rows).

Definition SCORE_TIERS : list (string * Z) :=
  [("Very Poor", 200); ("Poor", 500); ("Fair", 580); ("Good", 670); ("Very Good", 740); ("Excellent", 800)].

Record CreditProps := {
  cp_paid : Z; cp_funded : Z; cp_defaulted : Z; cp_totalVolume : Z; cp_history : list PaymentRecord;
  cp_finalScore : option number }.

Definition cp_total (p : CreditProps) : Z := cp_paid p + cp_funded p + cp_defaulted p.
Definition paid_rate (p : CreditProps) : number :=
  if 0 <? cp_total p then num_div (num_of_Z (cp_paid p)) (num_of_Z (cp_total p)) else num_of_Z 0.
Definition volumeBonus (p : CreditProps) : number :=
  Math_min (num_div (num_of_Z (cp_totalVolume p)) (num_of_Z 10000000000)) (num_of_Z 50).
Definition estimatedScore (p : CreditProps) : number :=
  Math_round (num_add (num_add (num_of_Z 300) (num_mul (paid_rate p) (num_of_Z 500))) (volumeBonus p)).
Definition score_of (p : CreditProps) : number := default (estimatedScore p) (cp_finalScore p).

Definition at_least (n : Z) (score : number) : bool := num_leb (num_of_Z n) score.
Definition scoreLabel (p : CreditProps) : string :=
  let score := score_of p in
  if negb (0 <? cp_total p) then "No history"
  else if at_least 750 score then "Excellent" else if at_least 650 score then "Good"
  else if at_least 550 score then "Fair" else "Building".
(** Half a circle for 550 points. *)
Definition arc (p : CreditProps) : number :=
  Math_round (num_mul (num_div (num_sub (score_of p) (num_of_Z 300)) (num_of_Z 550)) (num_of_Z 180)).

Definition SECONDS_PER_DAY : number := num_of_Z 86400.
Definition avgPaymentDays (p : CreditProps) : number :=
  let onTimePaid := List.filter (λ r, match pa_status r with OnTime => true | _ => false end) (cp_history p) in
  match onTimePaid with
  | [] => num_of_Z 0
  | _ =>
      let days r := Math_floor (num_div (num_sub (default (pa_dueDate r) (pa_paidDate r)) (pa_dueDate r)) SECONDS_PER_DAY) in
      Math_round (num_div (foldl (λ sum r, num_add sum (days r)) (num_of_Z 0) onTimePaid) (num_of_Z (lengthZ onTimePaid)))
  end.

Definition nextTier (score : number) : option (string * Z) :=
  find (λ tier, num_ltb score (num_of_Z tier.2)) SCORE_TIERS.
Definition currentTier (score : number) : string * Z :=
  foldl (λ tier t, if at_least t.2 score then t else tier) ("Very Poor", 200) SCORE_TIERS.
Definition pointsToNext (score : number) : number :=
  match nextTier score with Some t => num_sub (num_of_Z t.2) score | None => num_of_Z 0 end.

Record Recommendation := { rc_factor : string; rc_stat : string; rc_impact : string; rc_tip : string }.

Section recommendations.
Context (numberText : number → string).

Definition recommendations (p : CreditProps) : list Recommendation :=
  let rate := paid_rate p in
  let total := cp_total p in
  let n := cp_defaulted p in
  let avg := avgPaymentDays p in
  let lateCount := length (List.filter (λ r, match pa_status r with Late => true | _ => false end) (cp_history p)) in
  let four_fifths := num_of_ratio 4 5 in
  [{| rc_factor := "On-time payments"; rc_impact := "High";
      rc_stat := pretty (cp_paid p) +:+ "/" +:+ pretty total +:+ " (" +:+
                 numberText (Math_round (num_mul rate (num_of_Z 100))) +:+ "%)";
      rc_tip := if num_ltb rate four_fifths
                then "Pay your next " +:+
                     numberText (InvoicePage.Math_ceil (num_sub (num_mul four_fifths (num_of_Z total)) (num_of_Z (cp_paid p)))) +:+
                     " invoices on time to reach Good tier"
                else "Keep up the great on-time payment record" |};
   {| rc_factor := "Defaults"; rc_impact := "High";
      rc_stat := if 0 <? n then pretty n +:+ " default" +:+ (if 1 <? n then "s" else "") else "None";
      rc_tip := if 0 <? n then "Avoid defaults — each costs 50 points" else "No defaults — maintain this record" |};
   {| rc_factor := "Payment speed"; rc_impact := "Medium";
      rc_stat := if num_ltb (num_of_Z 0) avg then "Avg " +:+ numberText avg +:+ " days late"
                 else if (0 <? lateCount)%nat then pretty (Z.of_nat lateCount) +:+ " late payment(s)" else "No data";
      rc_tip := if num_ltb (num_of_Z 0) avg then "Try to pay within the due date to boost your score"
                else "Pay invoices as early as possible for maximum points" |};
   {| rc_factor := "Invoice volume"; rc_impact := "Low"; rc_stat := pretty total +:+ " total";
      rc_tip := if total <? 5 then "Create " +:+ pretty (5 - total) +:+
                                   " more invoices to build history faster (+5 pts at 5 invoices)"
                else if total <? 10 then "Reach 10 invoices for another score bonus"
                else "Strong invoice history — keep building" |}].
End recommendations.

(** * Proofs *)

(** ** Scanning *)

Lemma length_filterInvoices rows statuses : (length (filterInvoicesByStatuses rows statuses) ≤ length rows)%nat.
Proof. destruct statuses; [done|apply filter_length_le]. Qed.

Section scanning.
Context {W : Type} (X : Chain W).
Context (mock : option (string → M (Rpc (W := W)) (bool * Z * jsval))).
Context (to_u64 : jsval → result Z) (t : string → string) (wallet : Wallet).

Local Abbreviation Act := (M (Page W SmeState)).

(** The contract has [total] invoices, and answers with them and their metadata. *)
Context (inv : Z → jsval) (meta : Z → Fields) (total : Z).
Definition exists_id (id : Z) : Prop := 1 ≤ id ≤ total.
Context (Hinv : ∀ ids s, Forall exists_id ids → ∃ s', getMultipleInvoices X mock ids s = (Ok (map inv ids), s')).
Context (Hmeta : ∀ id s, exists_id id → ∃ s', getInvoiceMetadata X id s = (Ok (meta id), s')).
Context (Hobject : ∀ id, ∃ o, get_prop (inv id) "owner" = Ok o).

Definition row (id : Z) : DashboardRow := {| dr_invoice := inv id; dr_metadata := meta id |}.
Definition is_mine (id : Z) : bool := own wallet (id, inv id).
Definition own_rows (ids : list Z) : list DashboardRow := map row (List.filter is_mine ids).

(** What leaves the state of the page alone and returns, with [x] or with something. *)
Definition answers {A} (m : Act A) (x : A) : Prop := ∀ p, ∃ p', m p = (Ok x, p') ∧ ui p' = ui p.
Definition returns {A} (m : Act A) : Prop := ∀ p, ∃ x p', m p = (Ok x, p') ∧ ui p' = ui p.

Lemma answers_bind {A B} (m : Act A) (k : A → Act B) x y : answers m x → answers (k x) y → answers (m ≫= k) y.
Proof.
  intros Hm Hk p. destruct (Hm p) as (p1&E1&H1). destruct (Hk p1) as (p2&E2&H2). exists p2. split; [|congruence].
  unfold mbind, M_bind. by rewrite E1.
Qed.
Lemma answers_ret {A} (x : A) : answers (mret x) x.
Proof. intros p. by exists p. Qed.
Lemma answers_lift {A} (x : A) : answers (lift_result (Ok x)) x.
Proof. intros p. by exists p. Qed.
Lemma answers_on_rpc {A} (m : M (Rpc (W := W)) A) x : (∀ s, ∃ s', m s = (Ok x, s')) → answers (on_rpc m) x.
Proof. intros Hm p. unfold on_rpc, on_net. destruct (Hm (rpc (net p))) as [s' ->]. by eexists. Qed.

Lemma answers_mapM {A B} (f : A → Act B) (g : A → B) l : Forall (λ x, answers (f x) (g x)) l → answers (mapM f l) (map g l).
Proof.
  induction 1 as [|x l Hx _ IH]; cbn [mapM map]; [apply answers_ret|].
  eapply answers_bind; [exact Hx|]. eapply answers_bind; [exact IH|apply answers_ret].
Qed.

Lemma own_zip ids : List.filter (own wallet) (zip ids (map inv ids)) = map (λ id, (id, inv id)) (List.filter is_mine ids).
Proof.
  induction ids as [|id ids IH]; [done|]. cbn [map zip zip_with List.filter].
  change (own wallet (id, inv id)) with (is_mine id). fold (zip ids (map inv ids)). rewrite IH. by destruct (is_mine id).
Qed.

Lemma rows_of_ids_answers ids : Forall exists_id ids → answers (rows_of_ids X wallet ids (map inv ids)) (own_rows ids).
Proof.
  intros Hids. unfold rows_of_ids. assert (∃ os, mapM (λ v, get_prop v "owner") (map inv ids) = Ok os) as [os ->].
  { clear Hids. induction ids as [|id ids [os IH]]; [by eexists|]. destruct (Hobject id) as [o Ho].
    cbn [map mapM]. rewrite Ho. cbn [mbind result_bind]. rewrite IH. by eexists. }
  eapply answers_bind; [apply answers_lift|]. rewrite own_zip. unfold own_rows.
  replace (map row (List.filter is_mine ids))
    with (map (λ r : Z * jsval, {| dr_invoice := r.2; dr_metadata := meta r.1 |}) (map (λ id, (id, inv id)) (List.filter is_mine ids)))
    by (rewrite map_map; by apply map_ext).
  apply answers_mapM. apply Forall_fmap, list.Forall_forall. intros id Hid.
  apply list_elem_of_In, filter_In in Hid as [Hid%list_elem_of_In _].
  eapply answers_bind; [apply answers_on_rpc; intros s; apply Hmeta; by eapply list.Forall_forall in Hids|apply answers_ret].
Qed.

Lemma returns_mapM {A B} (f : A → Act B) l : (∀ x, returns (f x)) → returns (mapM f l).
Proof.
  intros Hf. induction l as [|x l IH]; intros p; cbn [mapM]; [by exists [], p|].
  destruct (Hf x p) as (y&p1&E1&H1). destruct (IH p1) as (ys&p2&E2&H2). exists (y :: ys), p2. split; [|congruence].
  unfold mbind at 1, M_bind at 1. rewrite E1. unfold mbind at 1, M_bind at 1. by rewrite E2.
Qed.

Lemma committed_of_returns r : returns (committed_of X to_u64 r).
Proof.
  intros p. unfold committed_of, or_else, try_catch.
  assert (ui_keeps (W := W) (λ s, s = ui p)
    (id ← lift_result (to_u64 (id_of (dr_invoice r))); record ← on_rpc (getFundedInvoice X id);
     mret (match record with Some f => Some (js_String (id_of (dr_invoice r)), big_of f "committed") | None => None end))) as H.
  { apply keeps_bind; [by intros q Hq; unfold lift_result; destruct (to_u64 _)|intros n].
    apply keeps_bind; [apply (on_net_ui (λ s, s = ui p))|intros record; apply keeps_ret]. }
  specialize (H p eq_refl). match goal with |- context [match ?m with _ => _ end] => destruct m as [[x|e] p'] end;
    by eexists _, p'.
Qed.

Lemma scan_answers start p : 1 ≤ start ≤ total → ∃ c p', scan X mock to_u64 wallet start p = (Ok (own_rows (batch_ids start 20), c), p') ∧ ui p' = ui p.
Proof.
  intros Hstart. assert (Forall exists_id (batch_ids start 20)) as Hids.
  { apply list.Forall_forall. intros id Hid. apply (batch_ids_range start 20) in Hid; unfold exists_id; lia. }
  unfold scan. destruct (answers_on_rpc _ _ (λ s, Hinv (batch_ids start 20) s Hids) p) as (p1&E1&H1).
  destruct (rows_of_ids_answers (batch_ids start 20) Hids p1) as (p2&E2&H2).
  destruct (returns_mapM (committed_of X to_u64)
    (List.filter (λ r, status_is "Pending" (dr_invoice r)) (own_rows (batch_ids start 20))) committed_of_returns p2)
    as (c&p3&E3&H3).
  exists (list_to_map (rev (omap id c))), p3. split; [|congruence].
  unfold mbind at 1, M_bind at 1. rewrite E1. unfold mbind at 1, M_bind at 1. rewrite E2.
  unfold mbind at 1, M_bind at 1. by rewrite E3.
Qed.
(** The ids from the newest one down, [n] of them. *)
Definition newest (n : nat) : list Z := map (λ i, total - Z.of_nat i) (seq 0 n).

Lemma newest_next scanned : 0 ≤ scanned < total →
  newest (Z.to_nat (Z.min (scanned + 20) total)) = newest (Z.to_nat scanned) ++ batch_ids (total - scanned) 20.
Proof.
  intros Hs. unfold newest, batch_ids.
  replace (Z.to_nat (Z.min (scanned + 20) total))
    with (Z.to_nat scanned + Z.to_nat (total - scanned - Z.max 1 (total - scanned - 20 + 1) + 1))%nat by lia.
  rewrite seq_app, map_app. f_equal. cbn [Nat.add]. generalize (Z.to_nat (total - scanned - Z.max 1 (total - scanned - 20 + 1) + 1)).
  intros n. apply list_eq. intros i. rewrite !list_lookup_fmap. destruct (decide (i < n)%nat) as [Hi|Hi].
  - rewrite !lookup_seq_lt by done. cbn. f_equal. lia.
  - by rewrite !lookup_seq_ge by lia.
Qed.

Lemma own_rows_app l k : own_rows (l ++ k) = own_rows l ++ own_rows k.
Proof. unfold own_rows. by rewrite List.filter_app, map_app. Qed.

Lemma length_own_rows l : (length (own_rows l) ≤ length l)%nat.
Proof. unfold own_rows. rewrite length_map. apply filter_length_le. Qed.

(** What was scanned so far is shown: of the newest [da_scanned] invoices the wallet's
    own, in their order. *)
Definition listed (s : SmeState) : Prop :=
  da_total s = total ∧ 0 ≤ da_scanned s ≤ total ∧ da_invoices s = own_rows (newest (Z.to_nat (da_scanned s))).

#[local] Notation more := (scan_more X mock to_u64 wallet).

(** What loading and scanning leave as it was. *)
Definition view_of (s : SmeState) : _ :=
  (da_debounced s, da_statusFilters s, da_sort s, da_page s, da_viewMode s, da_hydrated s, da_loadingMore s).

(** [n] more batches were scanned, from [s] on. *)
Definition scanned_more (n : nat) (s s' : SmeState) : Prop :=
  listed s' ∧ view_of s' = view_of s ∧ da_scanned s' = Z.min (da_scanned s + 20 * Z.of_nat n) total.

Lemma scan_more_lists p : listed (ui p) → da_loadingMore (ui p) = false → scanned_more 1 (ui p) (ui (more p).2).
Proof.
  intros (Ht&Hs&Hl) Hm. unfold scan_more, get_ui, get_state, mbind, M_bind, mret, M_ret. rewrite Hm.
  unfold more_to_scan. cbn [orb]. rewrite Ht. destruct (Z.ltb_spec (da_scanned (ui p)) total) as [Hlt|Hge]; cbn [negb].
  - rewrite (proj2 (Z.ltb_ge _ 1)) by lia. cbn [set_ui modify].
    unfold try_catch. set (p0 := {| ui := _; toasts := toasts p; net := net p |}).
    destruct (scan_answers (total - da_scanned (ui p)) p0) as (c&p1&E1&H1); [lia|]. rewrite E1.
    cbn [set_ui modify snd]. unfold set_ui, modify. cbn [snd ui]. rewrite H1. subst p0.
    split; [|split; [cbn; by rewrite <- Hm|cbn; lia]]. split; [exact Ht|]. split; [cbn; lia|].
    cbn. rewrite Hl, newest_next by lia. by rewrite own_rows_app.
  - split; [done|]. split; [done|]. cbn [snd]. lia.
Qed.

Lemma scan_more_returns p : (more p).1 = Ok tt.
Proof.
  unfold scan_more, get_ui, get_state, mbind, M_bind, mret, M_ret. destruct (_ || _); [done|]. cbn [set_ui modify].
  unfold set_ui, modify, try_catch. match goal with |- context [let (r, s') := match ?m with _ => _ end in _] => destruct m as [[x|e] q] end; done.
Qed.

Lemma scan_times_lists n p : listed (ui p) → da_loadingMore (ui p) = false →
  scanned_more n (ui p) (ui (Nat.iter n (λ p, (more p).2) p)).
Proof.
  intros Hl Hm. induction n as [|n (Hl'&Hv&Hs)].
  - split; [done|]. split; [done|]. change (Nat.iter 0 _ p) with p. destruct Hl as (_&Hs&_). lia.
  - cbn [Nat.iter nat_rect]. assert (da_loadingMore (ui (Nat.iter n (λ p, (more p).2) p)) = false) as Hm' by (etransitivity; [exact (f_equal snd Hv)|exact Hm]).
    destruct (scan_more_lists _ Hl' Hm') as (Hl2&Hv2&Hs2). split; [exact Hl2|]. split; [etransitivity; [exact Hv2|exact Hv]|].
    unfold Nat.iter in *. rewrite Hs2, Hs. lia.
Qed.

Context (fetch : string → M W (bool * result jsval)) (INDEXER_URL : string) (form_encode : string → string).
Context (Htotal : 0 ≤ total) (Hsafe : safe total).
Context (Hcount : ∀ s, ∃ s', getInvoiceCount X s = (Ok (num_of_Z total), s')).

#[local] Notation load := (load_sme X mock fetch INDEXER_URL form_encode to_u64 t wallet).

Lemma load_lists p : searching (ui p) = false →
  let s := ui (load p).2 in
  listed s ∧ da_loading s = false ∧ da_scanned s = Z.min 20 total ∧ view_of s = view_of (ui p).
Proof.
  intros Hq. cbv zeta. unfold load_sme, get_ui, get_state, mbind, M_bind, mret, M_ret. rewrite Hq.
  cbn [set_ui modify]. unfold try_catch, load_newest. set (p0 := {| ui := _; toasts := toasts p; net := net p |}).
  destruct (answers_on_rpc _ _ Hcount p0) as (p1&E1&H1). unfold mbind, M_bind. rewrite E1. unfold count_of.
  rewrite num_to_Z_exact by done. cbn [default]. unfold id at 1. cbn [set_ui modify]. change (id total) with total.
  set (p2 := {| ui := _; toasts := toasts p1; net := net p1 |}).
  destruct (Z.eqb_spec total 0) as [H0|Hne].
  - subst p2. cbn. rewrite H1. subst p0. cbn. rewrite H0. split; [|done]. split; [done|]. by rewrite H0.
  - destruct (scan_answers total p2) as (c&p3&E3&H3); [lia|]. rewrite E3. cbn [set_ui modify snd]. unfold set_ui, modify.
    cbn [snd ui]. rewrite H3. subst p2. cbn. rewrite H1. subst p0. cbn.
    assert (total - Z.max (scannedUpTo total) 0 = Z.min 20 total) as Hs by (unfold scannedUpTo; lia).
    rewrite Hs. split; [|done]. split; [done|]. split; [cbn; lia|]. cbn.
    replace (Z.min 20 total) with (Z.min (0 + 20) total) by lia. rewrite newest_next by lia. by rewrite Z.sub_0_r.
Qed.

(** Scanning itself misses no invoice of the wallet: when the newest were loaded and [n]
    more batches were scanned, enough for the [total] that the contract has, the rows are
    those of the wallet's own invoices, each once and newest first, and there is no more
    to scan. (The page does not keep what it has scanned, see [next_page_is_blank].) *)
Theorem every_own_invoice_is_listed n p :
  searching (ui p) = false → da_loadingMore (ui p) = false → total ≤ 20 * (Z.of_nat n + 1) →
  let p' := Nat.iter n (λ p, (more p).2) (load p).2 in
  da_invoices (ui p') = own_rows (newest (Z.to_nat total)) ∧ more_to_scan (ui p') = false ∧
  (∀ id, row id ∈ da_invoices (ui p') → ∃ id', 1 ≤ id' ≤ total ∧ row id' = row id ∧ is_mine id' = true) ∧
  (∀ id, 1 ≤ id ≤ total → is_mine id = true → row id ∈ da_invoices (ui p')).
Proof.
  intros Hq Hm Hn p'. destruct (load_lists p Hq) as (Hl&_&Hs&Hv). injection Hv as _ _ _ _ _ _ Hlm. rewrite Hm in Hlm.
  destruct (scan_times_lists n _ Hl Hlm) as ((Ht&_&Hi)&_&Hs'). fold p' in Hi, Ht, Hs'. rewrite Hs in Hs'.
  replace (Z.min _ _) with total in Hs' by lia. rewrite Hs' in Hi.
  assert (∀ id, id ∈ newest (Z.to_nat total) ↔ 1 ≤ id ≤ total) as Hids.
  { intros id. unfold newest. rewrite list_elem_of_fmap. setoid_rewrite elem_of_seq. split; [intros (i&->&Hi'); lia|].
    intros Hid. exists (Z.to_nat (total - id)). lia. }
  split; [done|]. split; [unfold more_to_scan; rewrite Ht, Hs'; apply Z.ltb_irrefl|].
  rewrite Hi. unfold own_rows. split; intros id.
  - intros (id'&E&Hid)%list_elem_of_fmap. apply list_elem_of_In, filter_In in Hid as [Hid Hmine].
    exists id'. rewrite <- Hids. split_and!; [by apply list_elem_of_In|done|done].
  - intros Hid Hmine. apply list_elem_of_fmap. exists id. split; [done|]. apply list_elem_of_In, filter_In. split; [|done].
    apply list_elem_of_In. by apply Hids.
Qed.
(** C18. There is no second page. The batch that is scanned for the next page is dropped by
    the load that follows every turn of the page, which lists the newest twenty invoices
    again: from a dashboard that lists the wallet's own invoices among those it has
    scanned, the button to the next page leads to a page without any. *)
Theorem next_page_is_blank p :
  da_debounced (ui p) = "" → w_connected wallet = true → listed (ui p) → da_loadingMore (ui p) = false →
  let s := ui (rerender X mock fetch INDEXER_URL form_encode to_u64 t wallet (next_page X mock to_u64 wallet) p).2 in
  da_page s = S (da_page (ui p)) ∧ da_invoices s = own_rows (newest (Z.to_nat (Z.min 20 total))) ∧ pagedItems s = Ok [].
Proof.
  intros Hd Hw Hl Hm s. assert (∀ q, da_debounced q = "" → searched q = Ok (da_invoices q)) as Hall.
  { intros q Hq. unfold searched, searching, query_of. by rewrite Hq. }
  assert (∃ p1, next_page X mock to_u64 wallet p = (Ok tt, p1) ∧ da_page (ui p1) = S (da_page (ui p)) ∧
            da_debounced (ui p1) = "") as (p1&E1&Hp1&Hd1).
  { unfold next_page, totalPages, filtered, get_ui, get_state, mbind, M_bind, mret, M_ret. cbn beta iota. rewrite (Hall _ Hd).
    cbn [result_bind lift_result mret M_ret]. destruct (_ && _); [|by eexists].
    destruct (scan_more_lists p Hl Hm) as (_&Hv&_).
    pose proof (scan_more_returns p) as E.
    destruct (more p) as [r p1]. cbn [fst snd] in *. subst r. eexists. split; [reflexivity|]. injection Hv as H1 H2 H3 H4 H5 H6 H7.
    by rewrite <- Hd, <- H1. }
  assert (s = ui (load p1).2) as ->.
  { subst s. unfold rerender, get_ui, get_state, mbind, M_bind, mret, M_ret. cbn beta iota. rewrite E1.
    rewrite Hp1, (proj2 (Nat.eqb_neq _ _)), andb_false_r by lia. unfold wallet_effect. by rewrite Hw. }
  destruct (load_lists p1) as ((_&_&Hi)&_&Hs&Hv); [unfold searching, query_of; by rewrite Hd1|].
  injection Hv as H1 H2 H3 H4 H5 H6 H7. rewrite Hs in Hi. split; [congruence|]. split; [done|].
  unfold pagedItems, filtered. rewrite Hall by congruence. cbn [mbind result_bind]. rewrite H1, Hd1. cbn [String.eqb].
  f_equal. apply nil_length_inv. rewrite length_take, length_drop, H4, Hp1, sort_by_perm.
  pose proof (length_filterInvoices (da_invoices (ui (load p1).2)) (da_statusFilters (ui (load p1).2))) as Hf.
  rewrite Hi in Hf. pose proof (length_own_rows (newest (Z.to_nat (Z.min 20 total)))) as Ho. unfold newest in Ho at 2.
  rewrite length_map, length_seq in Ho. unfold DASHBOARD_PAGE_SIZE. rewrite Hi. lia.
Qed.
End scanning.

(** ** What is listed *)

(** The rows that are shown come from the invoices, in the order that was chosen: those
    with one of the statuses, when any is chosen, that the search finds. *)
Lemma bind_returns {A B} (m : result A) (f : A → result B) y : m ≫= f = Ok y → ∃ x, m = Ok x ∧ f x = Ok y.
Proof. destruct m as [x|e]; [by exists x|done]. Qed.

Lemma filter_result_filter {A} (f : A → result bool) l r :
  filter_result f l = Ok r → ∀ x, x ∈ r ↔ x ∈ l ∧ f x = Ok true.
Proof.
  revert r. induction l as [|y l IH]; intros r; cbn [filter_result].
  - intros [= <-] x. set_solver.
  - intros (b&Eb&(rest&Er&[= <-])%bind_returns)%bind_returns x. specialize (IH _ Er x).
    destruct b; rewrite ?elem_of_cons, IH; naive_solver congruence.
Qed.

Lemma elem_of_filterInvoices statuses rows r :
  r ∈ filterInvoicesByStatuses rows statuses ↔ r ∈ rows ∧ (statuses = [] ∨ has_status statuses r = true).
Proof.
  unfold filterInvoicesByStatuses, has_status. destruct statuses as [|s l]; [naive_solver|].
  rewrite !list_elem_of_In, filter_In. naive_solver.
Qed.

Theorem filtered_rows s rows :
  filtered s = Ok rows →
  ascending (sort_key (da_sort s)) rows ∧
  ∀ r, r ∈ rows ↔ r ∈ da_invoices s ∧ (da_statusFilters s = [] ∨ has_status (da_statusFilters s) r = true) ∧
                  (searching s = true → matches (toLowerCase (query_of s)) r = Ok true).
Proof.
  intros (found&Ef&[= <-])%bind_returns. split; [apply sort_by_ascending|]. intros r.
  rewrite sort_by_perm, elem_of_filterInvoices. unfold searched in Ef. destruct (searching s).
  - rewrite (filter_result_filter _ _ _ Ef). naive_solver.
  - injection Ef as ->. naive_solver.
Qed.

(** The pages are the rows, each once: as many pages as the page says there are. *)
Theorem pages_are_the_rows (rows : list DashboardRow) :
  concat (map (λ i, take DASHBOARD_PAGE_SIZE (drop (i * DASHBOARD_PAGE_SIZE) rows))
            (seq 0 (Z.to_nat (pages_of (lengthZ rows))))) = rows.
Proof.
  unfold DASHBOARD_PAGE_SIZE.
  assert (∀ n, concat (map (λ i, take 20 (drop (i * 20) rows)) (seq 0 n)) = take (n * 20) rows) as H.
  { induction n as [|n IH]; [done|]. rewrite seq_S, map_app, concat_app, IH. cbn [map concat]. rewrite app_nil_r.
    cbn [Nat.add]. rewrite take_take_drop. f_equal. lia. }
  rewrite H. apply take_ge. unfold pages_of, lengthZ.
  pose proof (Z.div_mod (Z.of_nat (length rows) + 19) 20 ltac:(lia)).
  pose proof (Z.mod_pos_bound (Z.of_nat (length rows) + 19) 20 ltac:(lia)). lia.
Qed.

(** Who owns none of the invoices that were scanned is told to create the first one,
    however many there are left to scan, and has no button that scans them. *)
Theorem nothing_scanned_is_nothing_created s :
  da_loading s = false → da_invoices s = [] → listing s = Ok CreateFirst.
Proof.
  intros Hl Hi. unfold listing, filtered, searched. rewrite Hl, Hi.
  destruct (searching s), (da_statusFilters s); reflexivity.
Qed.

(** ** What the contract's rows are to the page *)

Definition given_row (r : DashboardRow) : Prop := native Invoice_Invoice (dr_invoice r) = true.

Lemma given_has_status statuses r : given_row r → has_status statuses r = false.
Proof.
  intros Hn. destruct (native_struct _ _ Hn) as [o E]. unfold has_status, row_status, AdminInvoices.includes.
  unfold given_row in Hn. rewrite E in Hn |- *. cbn [get_prop_opt].
  assert (native Invoice_InvoiceStatus (obj_get o "status") = true) as Hs by (by eapply native_lookup).
  induction statuses as [|st l IH]; [done|]. cbn [map existsb]. rewrite IH. by destruct (obj_get o "status").
Qed.

Lemma given_filtered statuses rows : Forall given_row rows → List.filter (has_status statuses) rows = [].
Proof. induction 1 as [|r rows Hr _ IH]; [done|]. cbn [List.filter]. by rewrite given_has_status. Qed.

(** Whatever rows the contract gives, a status that is chosen leaves none, every column
    of the board is empty, and what asks for attention is what is past its date, paid
    or not. *)
Theorem no_row_has_a_status rows now st statuses :
  Forall given_row rows →
  filterInvoicesByStatuses rows (st :: statuses) = [] ∧ (∀ c, c ∈ columnData rows → c.2 = []) ∧
  attentionRows now rows = List.filter (λ r, num_ltb (num_of (dr_metadata r) "dueDate") (num_of_Z now)) rows ∧
  paymentHistory rows = [].
Proof.
  intros H. split; [exact (given_filtered (st :: statuses) rows H)|]. split.
  { intros c (d&->&_)%list_elem_of_fmap. by apply given_filtered. }
  unfold attentionRows, isAttentionInvoice, isOverdueInvoice, paymentHistory.
  induction H as [|r rows Hr _ [IH1 IH2]]; [done|]. cbn [List.filter].
  rewrite !given_has_status, !given_no_status by done. cbn [orb negb andb]. rewrite IH1. split; [done|exact IH2].
Qed.

(** ** The address *)

Lemma split_char_app c w s : str_forallb (λ x, negb (Ascii.eqb x c)) w = true →
  split_char c (w +:+ String c s) = w :: split_char c s.
Proof.
  induction w as [|x w IH]; cbn [str_forallb].
  - intros _. rewrite append_empty. cbn [split_char]. by rewrite Ascii.eqb_refl.
  - intros [Hx Hw]%andb_true_iff. rewrite append_cons. cbn [split_char]. rewrite (IH Hw).
    by destruct (Ascii.eqb x c).
Qed.
Lemma split_char_word c w : str_forallb (λ x, negb (Ascii.eqb x c)) w = true → split_char c w = [w].
Proof.
  induction w as [|x w IH]; cbn [str_forallb]; [done|]. intros [Hx Hw]%andb_true_iff. cbn [split_char]. rewrite (IH Hw).
  by destruct (Ascii.eqb x c).
Qed.
Lemma split_concat c l : l ≠ [] → Forall (λ w, str_forallb (λ x, negb (Ascii.eqb x c)) w = true) l →
  split_char c (String.concat (String c "") l) = l.
Proof.
  intros Hl H. induction H as [|w l Hw H IH]; [done|]. destruct l as [|w' l]; [by apply split_char_word|].
  change (String.concat (String c "") (w :: w' :: l)) with (w +:+ (String c "" +:+ String.concat (String c "") (w' :: l))).
  rewrite append_cons, append_empty, split_char_app by done. by rewrite IH.
Qed.

Lemma tabs_have_no_comma w : one_of STATUS_TABS w = true → str_forallb (λ x, negb (Ascii.eqb x ","%char)) w = true.
Proof. intros (t&Ht&->%String.eqb_eq)%existsb_exists. revert t Ht. apply List.Forall_forall. repeat constructor. Qed.

Lemma statuses_of_concat l : l ≠ [] → Forall (λ w, one_of STATUS_TABS w = true) l →
  statuses_of (Some (String.concat "," l)) = l.
Proof.
  intros Hl H. assert (text_or_none (Some (String.concat "," l)) = Some (String.concat "," l)) as E.
  { destruct H as [|w l Hw _]; [done|]. clear Hl. destruct w; [by vm_compute in Hw|]. by destruct l. }
  unfold statuses_of. rewrite E, split_concat; [|done|].
  - clear E Hl. induction H as [|w l' Hw _ IH]; [done|]. cbn [List.filter]. by rewrite Hw, IH.
  - eapply Forall_impl; [exact H|]. exact tabs_have_no_comma.
Qed.

Lemma url_params_read s :
  get_param "q" (url_params s) = (if searching s then Some (query_of s) else None) ∧
  get_param "status" (url_params s) = match da_statusFilters s with [] => None | l => Some (String.concat "," l) end ∧
  get_param "sort" (url_params s) = match da_sort s with created_desc => None | o => Some (sort_name o) end ∧
  get_param "page" (url_params s) = if (0 <? da_page s)%nat then Some (pretty (Z.of_nat (da_page s))) else None.
Proof.
  unfold url_params. destruct (searching s), (da_statusFilters s), (da_sort s), (0 <? da_page s)%nat; by split_and!.
Qed.

Lemma page_of_pretty (n : nat) : page_of (if (0 <? n)%nat then Some (pretty (Z.of_nat n)) else None) = n.
Proof.
  unfold page_of. destruct (Nat.ltb_spec 0 n); cbn [default].
  - change (id (pretty (Z.of_nat n))) with (pretty (Z.of_nat n)). rewrite parseInt_pretty. apply Nat2Z.id.
  - change (Z.to_nat (default 0 (parseInt "0"))) with 0%nat. lia.
Qed.

(** What the address keeps is read back from it, for every query, choice of statuses,
    order and page that the dashboard can be in; and yet a page that is loaded from its
    address starts at the first page. *)
Theorem address_roundtrip s s' :
  Forall (λ w, one_of STATUS_TABS w = true) (da_statusFilters s) →
  from_url (url_params s) s' =
    s' <| da_search := query_of s |> <| da_debounced := query_of s |> <| da_statusFilters := da_statusFilters s |>
       <| da_sort := da_sort s |> <| da_page := da_page s |> ∧
  ∀ params, da_page (hydrate params s') = 0%nat.
Proof.
  intros Hs. split; [|done]. unfold from_url. destruct (url_params_read s) as (->&->&->&->). rewrite page_of_pretty.
  assert (default "" (if searching s then Some (query_of s) else None) = query_of s) as ->.
  { unfold searching. by destruct (String.eqb_spec (query_of s) ""). }
  assert (statuses_of (match da_statusFilters s with [] => None | l => Some (String.concat "," l) end) = da_statusFilters s) as ->.
  { destruct (da_statusFilters s) as [|w l]; [done|by apply statuses_of_concat]. }
  by destruct (da_sort s).
Qed.

(** ** The credit score *)

(** The tier that is shown is the highest that the score reaches, and the next one is
    the lowest that it does not: with a score between them there are as many points to
    go as are shown. *)
Theorem tiers_bracket_the_score (n : Z) :
  safe n →
  ((currentTier (num_of_Z n)).2 ≤ n ∨ n < 200 ∧ currentTier (num_of_Z n) = ("Very Poor", 200)) ∧
  match nextTier (num_of_Z n) with
  | Some tier =>
      n < tier.2 ∧ (∀ other, other ∈ SCORE_TIERS → n < other.2 → tier.2 ≤ other.2) ∧
      (200 ≤ n → (currentTier (num_of_Z n)).2 < tier.2 ∧ pointsToNext (num_of_Z n) = num_of_Z (tier.2 - n))
  | None => 800 ≤ n ∧ currentTier (num_of_Z n) = ("Excellent", 800)
  end.
Proof.
  intros Hn.
  assert (∀ k, safe k → num_leb (num_of_Z k) (num_of_Z n) = (k <=? n)) as Hle by (intros k Hk; by apply num_leb_exact).
  assert (∀ k, safe k → num_ltb (num_of_Z n) (num_of_Z k) = (n <? k)) as Hlt by (intros k Hk; by apply num_ltb_exact).
  unfold pointsToNext, currentTier, nextTier, SCORE_TIERS, at_least. cbn [foldl find fst snd]. rewrite !Hle, !Hlt by done.
  assert (∀ other : string * Z, other ∈ SCORE_TIERS →
    other.2 = 200 ∨ other.2 = 500 ∨ other.2 = 580 ∨ other.2 = 670 ∨ other.2 = 740 ∨ other.2 = 800) as Hof.
  { intros other Ho. repeat (apply elem_of_cons in Ho as [->|Ho]; [cbn; lia|]). by apply elem_of_nil in Ho. }
  repeat match goal with |- context [?k <=? n] => destruct (Z.leb_spec k n); try (exfalso; lia) end;
    repeat match goal with |- context [n <? ?k] => destruct (Z.ltb_spec n k); try (exfalso; lia) end; cbn [snd fst].
  all: split; [first [by right|left; lia]|].
  all: split; [lia|].
  { reflexivity. }
  all: split; [intros other Ho%Hof Hno; lia|].
  all: intros H200; split; [lia|]; apply num_sub_exact; unfold safe in *; lia.
Qed.

(** ** Actions

    What happens on the page: it is shown, the score comes in, the address is read, the
    search, the filters, the order or the page are changed. *)

Section actions.
Context {W : Type} (X : Chain W) (signTransaction : string → string → string → M W (string * option string)).
Context (mock : option (string → M (Rpc (W := W)) (bool * Z * jsval))).
Context (fetch : string → M W (bool * result jsval)) (INDEXER_URL : string) (form_encode : string → string).
Context (to_u64 : jsval → result Z) (t : string → string) (wallet : Wallet).

#[local] Notation effects := (rerender X mock fetch INDEXER_URL form_encode to_u64 t wallet).

Inductive sme_action : M (Page W SmeState) unit → Prop :=
| da_act_shown : sme_action (wallet_effect X mock fetch INDEXER_URL form_encode to_u64 t wallet)
| da_act_score : sme_action (load_score X wallet)
| da_act_view stored : sme_action (set_ui (restore_view stored))
| da_act_address params : sme_action (effects (set_ui (hydrate params)))
| da_act_search : sme_action (effects (set_ui debounce))
| da_act_sort o : sme_action (effects (set_ui (set_sort o)))
| da_act_status tab : sme_action (effects (set_ui (toggle_status tab)))
| da_act_all : sme_action (effects (set_ui all_statuses))
| da_act_clear : sme_action (effects (set_ui clear_filters))
| da_act_prev : sme_action (effects (set_ui prev_page))
| da_act_next : sme_action (effects (next_page X mock to_u64 wallet)).

Context (I : W → Prop) (signed : string → W → Prop) (me : string) (HW : honest_wallet X signTransaction I signed me).
Context (Hmock : ∀ mocked path, mock = Some mocked → rpc_keeps I (mocked path)).
Context (Hfetch : ∀ url, keeps I (fetch url)).

Lemma sme_action_keeps m : sme_action m → page_keeps I m.
Proof.
  assert (∀ mocked path, mock = Some mocked → keeps (λ s : Rpc, I (world s)) (mocked path)) as Hmocked by exact Hmock.
  destruct 1; unfold rerender, next_page, wallet_effect, load_sme, load_newest, search_indexer, scan_more, scan, rows_of_ids;
    keep_page; by apply Hmocked.
Qed.
End actions.
