(* ===== verification/AdminSettings.v ===== *)
(** * Settings: app/admin/yield, exchange-rates, kyc, insurance, tranches and liquidity

    The administrators' forms that set the pool's yield, fees and rate model, the rates
    of the tokens, who has passed the KYC checks, how coverage is priced and how the
    tranches are cut, and the page from which the withdrawal queue is drained. *)
From S2P Require Import Prelude.
From S2P Require Import JsValue.
From S2P Require Import JsNumber.
From S2P Require Import JsArith.
From S2P Require Import Sdk.
From S2P Require Import Abi.
From S2P Require Import ContractAbi.
From S2P Require Import SdkClients.
From S2P Require Import RpcPool.
From S2P Require Import Stellar.
From S2P Require Import Amounts.
From S2P Require Import WebAbi.
From S2P Require RateModel.
From S2P Require Import WebPool.
From S2P Require Import WebTranche.
From S2P Require Import WebMarket.
From S2P Require Import WebKyc.
From S2P Require Import PageTx.
From Stdlib Require Import SpecFloat.
Import InsuranceClient.
Import WebTranche.
#[local] Open Scope string_scope.
#[local] Open Scope list_scope.
#[local] Open Scope Z_scope.

(** ** app/admin/yield/page.tsx *)

Record YieldState := {
  ys_poolConfig : option Fields; ys_newYield : string; ys_newFactoringFee : string; ys_loading : bool;
  ys_txLoading : bool; ys_rateTokens : list jsval; ys_rateToken : string; ys_currentModel : option Fields;
  ys_baseRate : string; ys_kinkUtil : string; ys_slope1 : string; ys_slope2 : string; ys_maxRate : string }.

#[export] Instance eta_YieldState : Eta YieldState := λ s, {|
  ys_poolConfig := ys_poolConfig s; ys_newYield := ys_newYield s; ys_newFactoringFee := ys_newFactoringFee s;
  ys_loading := ys_loading s; ys_txLoading := ys_txLoading s; ys_rateTokens := ys_rateTokens s;
  ys_rateToken := ys_rateToken s; ys_currentModel := ys_currentModel s; ys_baseRate := ys_baseRate s;
  ys_kinkUtil := ys_kinkUtil s; ys_slope1 := ys_slope1 s; ys_slope2 := ys_slope2 s; ys_maxRate := ys_maxRate s |}.

(** A percentage that was entered, in basis points: [Math.round(parseFloat(s) * 100)]. *)
Definition percent_bps (s : string) : number := Math_round (num_mul (parseFloat s) (num_of_Z 100)).
Definition or_zero_text (s : string) : string := if String.eqb s "" then "0" else s.

Definition draftModel (s : YieldState) : RateModel.RateModelConfig := {|
  RateModel.baseRateBps := percent_bps (or_zero_text (ys_baseRate s));
  RateModel.optimalUtilizationBps := percent_bps (or_zero_text (ys_kinkUtil s));
  RateModel.slope1Bps := percent_bps (or_zero_text (ys_slope1 s));
  RateModel.slope2Bps := percent_bps (or_zero_text (ys_slope2 s));
  RateModel.maxRateBps := percent_bps (or_zero_text (ys_maxRate s)) |}.

(** [isNaN(bps) || bps < 0 || bps > limit]. *)
Definition out_of_range (limit : Z) (bps : number) : bool :=
  isNaN bps || num_ltb bps (num_of_Z 0) || num_ltb (num_of_Z limit) bps.

Section yield.
Context {W : Type} (X : Chain W).
Context (signTransaction : string → string → string → M W (string * option string)).
Context (t : string → list (string * string) → string) (numberText : number → string) (stablecoinLabel : string → string).
Context (wallet : Wallet).

Local Abbreviation Act := (M (Page W YieldState)).

Definition percent_text (c : Fields) (name : string) : string := numberText (num_div (num_of c name) (num_of_Z 100)).

Definition load_yield : Act unit :=
  set_ui (λ s, s <| ys_loading := true |>);;
  ignore_errors
    (config ← on_rpc (getPoolConfig X);
     set_ui (λ s, s <| ys_poolConfig := Some config |> <| ys_newYield := percent_text config "yieldBps" |>
                    <| ys_newFactoringFee := percent_text config "factoringFeeBps" |>);;
     answer ← on_rpc (getAcceptedTokens X);
     let tokens := elements_of answer in
     set_ui (λ s, s <| ys_rateTokens := tokens |>
                    <| ys_rateToken := match tokens with
                                       | first :: _ => if String.eqb (ys_rateToken s) "" then js_String first else ys_rateToken s
                                       | [] => ys_rateToken s
                                       end |>));;
  set_ui (λ s, s <| ys_loading := false |>).

(** The effect that follows the choice of a token. *)
Definition show_model (model : option Fields) (s : YieldState) : YieldState :=
  match model with
  | None => s <| ys_currentModel := None |>
  | Some c =>
      s <| ys_currentModel := model |> <| ys_baseRate := percent_text c "baseRateBps" |>
        <| ys_kinkUtil := percent_text c "optimalUtilizationBps" |> <| ys_slope1 := percent_text c "slope1Bps" |>
        <| ys_slope2 := percent_text c "slope2Bps" |> <| ys_maxRate := percent_text c "maxRateBps" |>
  end.
Definition load_model : Act unit :=
  s ← get_ui;
  if String.eqb (ys_rateToken s) "" then mret tt
  else try_catch (model ← on_rpc (getRateModelConfig X (ys_rateToken s)); set_ui (show_model model))
         (λ _, set_ui (λ s, s <| ys_currentModel := None |>)).

Definition draftError (s : YieldState) : option string := RateModel.validateRateModelConfig (draftModel s) (Some t).

Definition yield_tx (builder : Act string) (done : Act unit) : Transaction W YieldState := {|
  tx_busy := λ b s, s <| ys_txLoading := b |>; tx_build := builder; tx_rejected := or_rejected;
  tx_submit := submit X quiet_progress; tx_done := done; tx_failed := report |}.

Definition refresh_config : Act unit :=
  config ← on_rpc (getPoolConfig X); set_ui (λ s, s <| ys_poolConfig := Some config |>).

(** A form of a percentage: its limit in basis points, what is built of it, and the
    keys of its messages. *)
Definition submit_percent (text : string) (limit : Z) (builder : string → Z → M (Rpc (W := W)) string)
    (range_key done_key value_name : string) : Act unit :=
  match address_of wallet with
  | None => mret tt
  | Some admin =>
      let bps := percent_bps text in
      if out_of_range limit bps then toast (ToastError (t range_key []))
      else
        transact X signTransaction admin
          (yield_tx (n ← lift_result (bigint_of_number bps); on_rpc (builder admin n))
             (toast (ToastSuccess (t done_key [(value_name, text); ("bps", numberText bps)]));; refresh_config))
  end.

Definition handleYieldSubmit : Act unit :=
  s ← get_ui; submit_percent (ys_newYield s) 5000 (buildSetYieldTx X) "yieldRangeError" "yieldUpdated" "yield".
Definition handleFactoringFeeSubmit : Act unit :=
  s ← get_ui; submit_percent (ys_newFactoringFee s) 10000 (buildSetFactoringFeeTx X) "feeRangeError" "feeUpdated" "fee".

(** The numbers of a model, which are integers where [draftError] finds none. *)
Definition encoded_model (m : RateModel.RateModelConfig) : result RateModelConfig :=
  base ← bigint_of_number (RateModel.baseRateBps m);
  optimal ← bigint_of_number (RateModel.optimalUtilizationBps m);
  slope1 ← bigint_of_number (RateModel.slope1Bps m);
  slope2 ← bigint_of_number (RateModel.slope2Bps m);
  cap ← bigint_of_number (RateModel.maxRateBps m);
  Ok {| baseRateBps := base; optimalUtilizationBps := optimal; slope1Bps := slope1; slope2Bps := slope2; maxRateBps := cap |}.

Definition handleRateModelSubmit : Act unit :=
  s ← get_ui;
  match address_of wallet with
  | None => mret tt
  | Some admin =>
      let token := ys_rateToken s in
      if String.eqb token "" then mret tt
      else match text_or_none (draftError s) with
      | Some message => toast (ToastError message)
      | None =>
          transact X signTransaction admin
            (yield_tx (config ← lift_result (encoded_model (draftModel s)); on_rpc (buildProposeRateModelTx X admin token config))
               (toast (ToastSuccess (t "rateModelProposed" [("token", stablecoinLabel token)]));;
                model ← on_rpc (getRateModelConfig X token); set_ui (λ s, s <| ys_currentModel := model |>)))
      end
  end.
End yield.

(** ** app/admin/exchange-rates/page.tsx *)

Record PendingRate := { pd_token : string; pd_pct : string; pd_bps : number }.
Record RatesState := {
  er_tokens : list jsval; er_rates : gmap string number; er_loading : bool; er_txLoading : bool;
  er_selectedToken : string; er_newRatePct : string; er_showReviewModal : bool; er_pendingRate : option PendingRate }.

#[export] Instance eta_RatesState : Eta RatesState := λ s, {|
  er_tokens := er_tokens s; er_rates := er_rates s; er_loading := er_loading s; er_txLoading := er_txLoading s;
  er_selectedToken := er_selectedToken s; er_newRatePct := er_newRatePct s;
  er_showReviewModal := er_showReviewModal s; er_pendingRate := er_pendingRate s |}.

Section rates.
Context {W : Type} (X : Chain W).
Context (signTransaction : string → string → string → M W (string * option string)).
Context (u32 : number → result Z) (t : string → list (string * string) → string) (numberText : number → string).
Context (stablecoinLabel : string → string) (wallet : Wallet).

Local Abbreviation Act := (M (Page W RatesState)).

Definition load_rates : Act unit :=
  set_ui (λ s, s <| er_loading := true |>);;
  ignore_errors
    (answer ← on_rpc (getAcceptedTokens X);
     let accepted := elements_of answer in
     set_ui (λ s, s <| er_tokens := accepted |>
                    <| er_selectedToken := match accepted with v :: _ => js_String v | [] => er_selectedToken s end |>);;
     l ← mapM (λ v, rate ← on_rpc (getExchangeRate X (js_String v)); mret (js_String v, rate)) accepted;
     set_ui (λ s, s <| er_rates := list_to_map (rev l) |>));;
  set_ui (λ s, s <| er_loading := false |>).

Definition openReviewModal : Act unit :=
  s ← get_ui;
  match address_of wallet with
  | None => mret tt
  | Some _ =>
      if String.eqb (er_selectedToken s) "" || String.eqb (er_newRatePct s) "" then mret tt
      else
        let bps := percent_bps (er_newRatePct s) in
        if isNaN bps || num_leb bps (num_of_Z 0) then toast (ToastError (t "rateMustBePositive" []))
        else set_ui (λ s, s <| er_pendingRate := Some {| pd_token := er_selectedToken s; pd_pct := er_newRatePct s; pd_bps := bps |} |>
                            <| er_showReviewModal := true |>)
  end.

Definition rate_tx (admin : string) (r : PendingRate) : Transaction W RatesState := {|
  tx_busy := λ b s, s <| er_txLoading := b |>;
  tx_build := (n ← lift_result (u32 (pd_bps r)); on_rpc (buildSetExchangeRateTx X admin (pd_token r) n));
  tx_rejected := or_rejected; tx_submit := submit X quiet_progress;
  tx_done := set_ui (λ s, s <| er_rates := <[pd_token r := pd_bps r]> (er_rates s) |>);;
             toast (ToastSuccess (t "success" [("token", stablecoinLabel (pd_token r)); ("pct", pd_pct r);
                                               ("bps", numberText (pd_bps r))]));;
             set_ui (λ s, s <| er_newRatePct := "" |> <| er_pendingRate := None |>);
  tx_failed := report |}.

Definition confirmAndSubmit : Act unit :=
  s ← get_ui;
  match address_of wallet, er_pendingRate s with
  | Some admin, Some r =>
      set_ui (λ s, s <| er_showReviewModal := false |>);;
      transact X signTransaction admin (rate_tx admin r)
  | _, _ => mret tt
  end.
End rates.

(** ** app/admin/kyc/page.tsx *)

Definition KYC_PAGE_SIZE : nat := 20.

Record KycState := {
  ky_kycRequired : bool; ky_loading : bool; ky_txLoading : bool; ky_pending : list KycInvestor;
  ky_approved : list KycInvestor; ky_pendingPage : nat; ky_approvedPage : nat; ky_lookupAddress : string;
  ky_lookupAddressError : option string; ky_lookupResult : option bool; ky_lookupLoading : bool;
  ky_manageAddress : string; ky_manageAddressError : option string; ky_manageApproved : bool }.

#[export] Instance eta_KycState : Eta KycState := λ s, {|
  ky_kycRequired := ky_kycRequired s; ky_loading := ky_loading s; ky_txLoading := ky_txLoading s;
  ky_pending := ky_pending s; ky_approved := ky_approved s; ky_pendingPage := ky_pendingPage s;
  ky_approvedPage := ky_approvedPage s; ky_lookupAddress := ky_lookupAddress s;
  ky_lookupAddressError := ky_lookupAddressError s; ky_lookupResult := ky_lookupResult s;
  ky_lookupLoading := ky_lookupLoading s; ky_manageAddress := ky_manageAddress s;
  ky_manageAddressError := ky_manageAddressError s; ky_manageApproved := ky_manageApproved s |}.

(** [Math.max(1, Math.ceil(length / PAGE_SIZE))]. *)
Definition pageCount {A} (l : list A) : nat := Nat.max 1 ((length l + (KYC_PAGE_SIZE - 1)) / KYC_PAGE_SIZE).
(** [l.slice((page - 1) * PAGE_SIZE, page * PAGE_SIZE)]. *)
Definition paginated {A} (l : list A) (page : nat) : list A := take KYC_PAGE_SIZE (drop ((page - 1) * KYC_PAGE_SIZE) l).

(** The effects that bring a page back into its range. *)
Definition clamp_pages (s : KycState) : KycState :=
  s <| ky_pendingPage := if (pageCount (ky_pending s) <? ky_pendingPage s)%nat then pageCount (ky_pending s) else ky_pendingPage s |>
    <| ky_approvedPage := if (pageCount (ky_approved s) <? ky_approvedPage s)%nat then pageCount (ky_approved s)
                          else ky_approvedPage s |>.

Section kyc.
Context {W : Type} (X : Chain W).
Context (signTransaction : string → string → string → M W (string * option string)).
Context (getLatestLedger : string → M W Z) (getEvents : string → Z → M W (list (KycEvent X))).
Context (t : string → list (string * string) → string) (wallet : Wallet).

Local Abbreviation Act := (M (Page W KycState)).

Definition loadKycData : Act unit :=
  set_ui (λ s, s <| ky_loading := true |>);;
  ignore_errors
    (required ← on_rpc (getKycRequired X);
     set_ui (λ s, s <| ky_kycRequired := required |>);;
     '(pending, approved) ← on_rpc (fetchKycInvestors X getLatestLedger getEvents);
     set_ui (λ s, s <| ky_pending := pending |> <| ky_approved := approved |> <| ky_pendingPage := 1%nat |>
                    <| ky_approvedPage := 1%nat |>));;
  set_ui (λ s, s <| ky_loading := false |>).

Definition kyc_tx (builder : Act string) (done : Act unit) : Transaction W KycState := {|
  tx_busy := λ b s, s <| ky_txLoading := b |>; tx_build := builder; tx_rejected := or_rejected;
  tx_submit := submit X quiet_progress; tx_done := done; tx_failed := report |}.

Definition handleToggleKyc : Act unit :=
  s ← get_ui;
  match address_of wallet with
  | None => mret tt
  | Some account =>
      let wanted := negb (ky_kycRequired s) in
      transact X signTransaction account
        (kyc_tx (admin ← lift_result (parseStellarAddress account); on_rpc (buildSetKycRequiredTx X admin wanted))
           (set_ui (λ s, s <| ky_kycRequired := negb (ky_kycRequired s) |>);;
            toast (ToastSuccess (t "kycEnabled" [("status", t (if wanted then "enabled" else "disabled") [])]))))
  end.

Definition handleAction (address : string) (approve : bool) : Act unit :=
  match address_of wallet with
  | None => mret tt
  | Some account =>
      transact X signTransaction account
        (kyc_tx (admin ← lift_result (parseStellarAddress account); investor ← lift_result (parseStellarAddress address);
                 on_rpc (buildSetInvestorKycTx X admin investor approve))
           (toast (ToastSuccess (t (if approve then "investorApproved" else "investorRevoked") [("address", str_take 8 address)]));;
            loadKycData))
  end.

Definition kyc_lookup : Act unit :=
  s ← get_ui;
  if String.eqb (ky_lookupAddress s) "" then mret tt
  else
    set_ui (λ s, s <| ky_lookupLoading := true |> <| ky_lookupResult := None |> <| ky_lookupAddressError := None |>);;
    try_catch
      (investor ← lift_result (parseStellarAddress (trim (ky_lookupAddress s)));
       approved ← on_rpc (getInvestorKyc X investor);
       set_ui (λ s, s <| ky_lookupResult := Some approved |>))
      (λ e, set_ui (λ s, s <| ky_lookupAddressError := Some (exn_message e) |> <| ky_lookupResult := None |>));;
    set_ui (λ s, s <| ky_lookupLoading := false |>).

(** [handleAction] reports its own errors, so that the address is cleared in any case. *)
Definition handleManageKyc : Act unit :=
  s ← get_ui;
  if String.eqb (ky_manageAddress s) "" then mret tt
  else
    set_ui (λ s, s <| ky_manageAddressError := None |>);;
    try_catch
      (investor ← lift_result (parseStellarAddress (trim (ky_manageAddress s)));
       handleAction investor (ky_manageApproved s);;
       set_ui (λ s, s <| ky_manageAddress := "" |>))
      (λ e, set_ui (λ s, s <| ky_manageAddressError := Some (exn_message e) |>)).
End kyc.

(** ** app/admin/insurance/page.tsx *)

Definition DEFAULT_PREMIUM_CONFIG : PremiumFields :=
  let n (name : string) (v : Z) := (name, VNum (num_of_Z v)) in
  let tier lo hi m := [n "min_score" lo; n "max_score" hi; n "risk_multiplier_bps" m] in
  {| pf_first := [n "base_rate_bps" 200; n "tenor_bps_per_day" 2];
     pf_risk_tiers := [tier 0 549 20000; tier 550 699 15000; tier 700 1000 10000];
     pf_rest := [n "default_risk_multiplier_bps" 25000; n "min_premium_bps" 50; n "max_premium_bps" 2000;
                 n "default_coverage_bps" 8000] |}.

Record TokenData := { td_reserve : Fields; td_health : Fields; td_minReserve : Z }.

Record InsuranceState := {
  is_tokens : list jsval; is_selectedToken : option string; is_saving : bool; is_fundAmount : string;
  is_minRatioBps : string; is_minReserveInput : string; is_editing : option PremiumFields; is_tokenData : option TokenData;
  is_premium : option PremiumFields; is_poolLink : option jsval }.

#[export] Instance eta_InsuranceState : Eta InsuranceState := λ s, {|
  is_tokens := is_tokens s; is_selectedToken := is_selectedToken s; is_saving := is_saving s;
  is_fundAmount := is_fundAmount s; is_minRatioBps := is_minRatioBps s; is_minReserveInput := is_minReserveInput s;
  is_editing := is_editing s; is_tokenData := is_tokenData s; is_premium := is_premium s; is_poolLink := is_poolLink s |}.

(** [selectedToken ?? tokens?.[0] ?? null]. *)
Definition token_of (s : InsuranceState) : option string :=
  match is_selectedToken s, is_tokens s with
  | Some token, _ => Some token
  | None, v :: _ => Some (js_String v)
  | None, [] => None
  end.

Definition activeConfig (s : InsuranceState) : PremiumFields :=
  match is_editing s, is_premium s with
  | Some c, _ | None, Some c => c
  | None, None => DEFAULT_PREMIUM_CONFIG
  end.

(** A number that is entered for a field of the configuration. *)
Definition set_number (name : string) (x : number) (fields : Fields) : Fields :=
  map (λ f, if String.eqb f.1 name then (name, VNum x) else f) fields.
Definition edit_config (name : string) (x : number) (s : InsuranceState) : InsuranceState :=
  let c := default (activeConfig s) (is_editing s) in
  s <| is_editing := Some {| pf_first := set_number name x (pf_first c); pf_risk_tiers := pf_risk_tiers c;
                             pf_rest := set_number name x (pf_rest c) |} |>.
Definition edit_tier (i : nat) (name : string) (x : number) (s : InsuranceState) : InsuranceState :=
  let c := activeConfig s in
  s <| is_editing := Some {| pf_first := pf_first c;
                             pf_risk_tiers := zip_with (λ j tier, if (j =? i)%nat then set_number name x tier else tier)
                                                (seq 0 (length (pf_risk_tiers c))) (pf_risk_tiers c);
                             pf_rest := pf_rest c |} |>.
Definition start_editing (s : InsuranceState) : InsuranceState := s <| is_editing := Some (activeConfig s) |>.
Definition cancel_editing (s : InsuranceState) : InsuranceState := s <| is_editing := None |>.

Section insurance.
Context {W : Type} (X : Chain W).
Context (signTransaction : string → string → string → M W (string * option string)).
Context (u32 : number → result Z) (wallet : Wallet).

Local Abbreviation Act := (M (Page W InsuranceState)).

Definition loadTokenData (token : string) : M (Rpc (W := W)) TokenData :=
  reserve ← getReserveStatus X token;
  health ← checkReserveHealth X token;
  minReserve ← getMinReserveAmount X token;
  mret {| td_reserve := reserve; td_health := health; td_minReserve := minReserve |}.

Definition mutateTokenData : Act unit :=
  s ← get_ui;
  match token_of s with
  | None => mret tt
  | Some token => ignore_errors (d ← on_rpc (loadTokenData token); set_ui (λ s, s <| is_tokenData := Some d |>))
  end.
Definition mutatePremiumConfig : Act unit :=
  ignore_errors (c ← on_rpc (getPremiumConfig X); set_ui (λ s, s <| is_premium := c |>)).
Definition mutatePoolLink : Act unit :=
  ignore_errors (l ← on_rpc (getInsuranceContractLink X); set_ui (λ s, s <| is_poolLink := l |>)).

Definition tier_of (f : Fields) : result InsuranceRiskTier :=
  lo ← u32 (num_of f "min_score"); hi ← u32 (num_of f "max_score"); m ← u32 (num_of f "risk_multiplier_bps");
  Ok {| min_score := lo; max_score := hi; risk_multiplier_bps := m |}.
Definition encoded_config (c : PremiumFields) : result PremiumConfig :=
  base ← u32 (num_of (pf_first c) "base_rate_bps");
  tenor ← u32 (num_of (pf_first c) "tenor_bps_per_day");
  tiers ← mapM tier_of (pf_risk_tiers c);
  risk ← u32 (num_of (pf_rest c) "default_risk_multiplier_bps");
  lo ← u32 (num_of (pf_rest c) "min_premium_bps");
  hi ← u32 (num_of (pf_rest c) "max_premium_bps");
  coverage ← u32 (num_of (pf_rest c) "default_coverage_bps");
  Ok {| base_rate_bps := base; tenor_bps_per_day := tenor; risk_tiers := tiers; default_risk_multiplier_bps := risk;
        min_premium_bps := lo; max_premium_bps := hi; default_coverage_bps := coverage |}.

Definition saving_tx (builder : Act string) (message : string) (after : Act unit) : Transaction W InsuranceState := {|
  tx_busy := λ b s, s <| is_saving := b |>; tx_build := builder; tx_rejected := or_rejected;
  tx_submit := submit X quiet_progress; tx_done := toast (ToastSuccess message);; after; tx_failed := report |}.

Definition savePremiumConfig : Act unit :=
  s ← get_ui;
  match address_of wallet with
  | None => toast (ToastError "Connect your admin wallet to save on-chain.")
  | Some admin =>
      transact X signTransaction admin
        (saving_tx (c ← lift_result (encoded_config (activeConfig s)); on_rpc (buildSetPremiumConfigTx X admin c))
           "Premium configuration saved on-chain." (set_ui (λ s, s <| is_editing := None |>);; mutatePremiumConfig))
  end.

(** The forms of a token: what was entered, what is built of it, and what clears it. *)
Definition save_for_token (entered : InsuranceState → string) (builder : string → string → string → Act string)
    (message : string) (clear : InsuranceState → InsuranceState) : Act unit :=
  s ← get_ui;
  match address_of wallet, token_of s with
  | Some admin, Some token =>
      if String.eqb token "" || String.eqb (entered s) "" then mret tt
      else transact X signTransaction admin
             (saving_tx (builder admin token (entered s)) message (set_ui clear;; mutateTokenData))
  | _, _ => mret tt
  end.

Definition saveMinCoverageRatio : Act unit :=
  save_for_token is_minRatioBps
    (λ admin token text, n ← lift_result (u32 (Number_of_string text)); on_rpc (buildSetMinCoverageRatioTx X admin token n))
    "Minimum coverage ratio updated." (λ s, s <| is_minRatioBps := "" |>).
Definition saveMinReserveAmount : Act unit :=
  save_for_token is_minReserveInput
    (λ admin token text, n ← lift_result (BigInt_text text); on_rpc (buildSetMinReserveAmountTx X admin token n))
    "Minimum reserve amount updated." (λ s, s <| is_minReserveInput := "" |>).
Definition fundReserve : Act unit :=
  save_for_token is_fundAmount
    (λ admin token text, n ← lift_result (BigInt_text text); on_rpc (buildFundReserveFromTreasuryTx X admin token n))
    "Reserve funded from treasury." (λ s, s <| is_fundAmount := "" |>).

Definition linkPoolToInsurance : Act unit :=
  match address_of wallet with
  | None => mret tt
  | Some admin =>
      let insurance := ch_id X Insurance in
      if String.eqb insurance "" then mret tt
      else transact X signTransaction admin
             (saving_tx (on_rpc (buildSetInsuranceContractTx X admin insurance)) "Pool linked to the insurance reserve."
                mutatePoolLink)
  end.
End insurance.

(** ** app/admin/tranches/page.tsx *)

Record TrancheConfig := { senior_target_yield_bps : number; senior_advance_rate_bps : number; junior_first_loss_bps : number }.
Record TokenTrancheConfig := {
  tc_token : string; tc_enabled : bool; tc_config : TrancheConfig; tc_seniorShareToken : string; tc_juniorShareToken : string }.

#[export] Instance eta_TokenTrancheConfig : Eta TokenTrancheConfig := λ c, {|
  tc_token := tc_token c; tc_enabled := tc_enabled c; tc_config := tc_config c;
  tc_seniorShareToken := tc_seniorShareToken c; tc_juniorShareToken := tc_juniorShareToken c |}.

Definition initial_tranche : TrancheConfig := {|
  senior_target_yield_bps := num_of_Z 1000; senior_advance_rate_bps := num_of_Z 8000; junior_first_loss_bps := num_of_Z 10000 |}.
Definition initial_configs : list TokenTrancheConfig :=
  [{| tc_token := "USDC"; tc_enabled := true; tc_config := initial_tranche; tc_seniorShareToken := "sASTR-SR-USDC";
      tc_juniorShareToken := "sASTR-JR-USDC" |};
   {| tc_token := "USDT"; tc_enabled := false; tc_config := initial_tranche; tc_seniorShareToken := "";
      tc_juniorShareToken := "" |}].

Record TrancheConfigState := {
  ts_selectedToken : string; ts_saving : bool; ts_configs : list TokenTrancheConfig; ts_editing : option TrancheConfig;
  ts_showSaveModal : bool }.

#[export] Instance eta_TrancheConfigState : Eta TrancheConfigState := λ s, {|
  ts_selectedToken := ts_selectedToken s; ts_saving := ts_saving s; ts_configs := ts_configs s; ts_editing := ts_editing s;
  ts_showSaveModal := ts_showSaveModal s |}.

(** [configs.map((c) => (c.token === token ? f(c) : c))]. *)
Definition update_token (token : string) (f : TokenTrancheConfig → TokenTrancheConfig) (l : list TokenTrancheConfig)
    : list TokenTrancheConfig :=
  map (λ c, if String.eqb (tc_token c) token then f c else c) l.
Definition find_token (token : string) (l : list TokenTrancheConfig) : option TokenTrancheConfig :=
  find (λ c, String.eqb (tc_token c) token) l.
Definition currentConfig (s : TrancheConfigState) : option TokenTrancheConfig := find_token (ts_selectedToken s) (ts_configs s).

Section tranche_config.
Context {W : Type} (X : Chain W).
Context (signTransaction : string → string → string → M W (string * option string)).
Context (u32 : number → result Z) (wallet : Wallet).

Local Abbreviation Act := (M (Page W TrancheConfigState)).

Definition set_enabled (token : string) (b : bool) : Act unit :=
  set_ui (λ s, s <| ts_configs := update_token token (λ c, c <| tc_enabled := b |>) (ts_configs s) |>).
Definition handleEnableTranche (token : string) : Act unit := set_enabled token true.
Definition handleDisableTranche (token : string) : Act unit := set_enabled token false.

Definition handleEditConfig (token : string) : Act unit :=
  set_ui (λ s, match find_token token (ts_configs s) with
               | Some c => s <| ts_editing := Some (tc_config c) |> <| ts_selectedToken := token |>
               | None => s end).

Definition handleSaveConfig : Act unit :=
  s ← get_ui;
  match ts_editing s with
  | None => mret tt
  | Some edited =>
      match w_connected wallet, address_of wallet with
      | true, Some admin =>
          let token := ts_selectedToken s in
          transact X signTransaction admin {|
            tx_busy := λ b s, s <| ts_saving := b |>;
            tx_build := (y ← lift_result (u32 (senior_target_yield_bps edited));
                         a ← lift_result (u32 (senior_advance_rate_bps edited));
                         l ← lift_result (u32 (junior_first_loss_bps edited));
                         on_rpc (buildSetTrancheConfigTx X admin token y a l));
            tx_rejected := as_it_is; tx_submit := submit X quiet_progress;
            tx_done := set_ui (λ v, v <| ts_configs := update_token token (λ c, c <| tc_config := edited |>) (ts_configs s) |>
                                      <| ts_editing := None |> <| ts_showSaveModal := false |>);;
                       toast (ToastSuccess (token +:+ " tranche configuration saved on-chain."));
            tx_failed := report |}
      | _, _ => toast (ToastError "Connect your admin wallet to save on-chain.")
      end
  end.
End tranche_config.

(** ** app/admin/liquidity/page.tsx *)

Definition HORIZON_OPTIONS : list Z := [30; 60; 90].

Record TokenLiquidityRow := { lr_token : string; lr_totals : Fields; lr_queue : list Fields; lr_forecast : list Fields }.
Record LiquidityState := {
  lq_rows : list TokenLiquidityRow; lq_loading : bool; lq_error : option string; lq_horizon : Z;
  lq_drainLoading : gmap string bool }.

#[export] Instance eta_LiquidityState : Eta LiquidityState := λ s, {|
  lq_rows := lq_rows s; lq_loading := lq_loading s; lq_error := lq_error s; lq_horizon := lq_horizon s;
  lq_drainLoading := lq_drainLoading s |}.

Definition totalQueuedShares (queue : list Fields) : Z := sum_by (λ r, big_of r "shares") queue.
Definition availableLiquidity (r : TokenLiquidityRow) : Z :=
  big_of (lr_totals r) "totalDeposited" - big_of (lr_totals r) "totalDeployed".

Section liquidity.
Context {W : Type} (X : Chain W).
Context (signTransaction : string → string → string → M W (string * option string)).
Context (t : string → list (string * string) → string) (stablecoinLabel : string → string) (wallet : Wallet).

Local Abbreviation Act := (M (Page W LiquidityState)).

Definition liquidity_row (horizonDays : Z) (v : jsval) : Act TokenLiquidityRow :=
  let token := js_String v in
  totals ← on_rpc (getPoolTokenTotals X token);
  queue ← on_rpc (getWithdrawalQueue X token);
  forecast ← on_rpc (getLiquidityForecast X token horizonDays);
  mret {| lr_token := token; lr_totals := totals; lr_queue := queue; lr_forecast := forecast |}.

Definition load_liquidity (horizonDays : Z) : Act unit :=
  set_ui (λ s, s <| lq_loading := true |> <| lq_error := None |>);;
  try_catch
    (tokens ← on_rpc (getAcceptedTokens X);
     rows ← mapM (liquidity_row horizonDays) (elements_of tokens);
     set_ui (λ s, s <| lq_rows := rows |>))
    (λ _, set_ui (λ s, s <| lq_error := Some (t "error" []) |>));;
  set_ui (λ s, s <| lq_loading := false |>).

Definition choose_horizon (h : Z) : Act unit := set_ui (λ s, s <| lq_horizon := h |>);; load_liquidity h.

Definition handleDrain (token : string) : Act unit :=
  s ← get_ui;
  match address_of wallet with
  | None => toast (ToastError (t "connectWallet" []))
  | Some caller =>
      transact X signTransaction caller {|
        tx_busy := λ b s, s <| lq_drainLoading := <[token := b]> (lq_drainLoading s) |>;
        tx_build := on_rpc (buildDrainWithdrawalQueueTx X caller token); tx_rejected := as_it_is;
        tx_submit := submit X quiet_progress;
        tx_done := toast (ToastSuccess (t "drainSuccess" [("token", stablecoinLabel token)]));; load_liquidity (lq_horizon s);
        tx_failed := report |}
  end.
End liquidity.

(** * Proofs *)

(** ** Rounded numbers *)

Lemma shr_exponent r e n : e ≤ (shr r e n).2.
Proof. destruct n; cbn; lia. Qed.

Lemma binary_round_aux_exponent s m e l :
  match binary_round_aux 53 1024 s m e l with S754_finite _ _ e' => e ≤ e' | _ => True end.
Proof.
  unfold binary_round_aux, shr_fexp.
  pose proof (shr_exponent (shr_record_of_loc m l) e (SpecFloat.fexp 53 1024 (Zdigits2 m + e) - e)) as H1.
  destruct (shr (shr_record_of_loc m l) e _) as [r1 e1]. cbn [snd] in H1.
  set (m2 := round_nearest_even _ _).
  pose proof (shr_exponent (shr_record_of_loc m2 loc_Exact) e1 (SpecFloat.fexp 53 1024 (Zdigits2 m2 + e1) - e1)) as H2.
  destruct (shr (shr_record_of_loc m2 loc_Exact) e1 _) as [r2 e2]. cbn [snd] in H2.
  destruct (shr_m r2); [done| |done]. destruct (e2 <=? 1024 - 53); [lia|done].
Qed.

(** A large integer has no binary places. *)
Lemma large_exponent s p : 2 ^ 53 ≤ Zpos p →
  match binary_round 53 1024 s p 0 with S754_finite _ _ e => 0 ≤ e | _ => True end.
Proof.
  intros Hp. unfold binary_round, shl_align, SpecFloat.fexp. pose proof (JsArith.digits2_pos_spec p) as Hd.
  assert (53 < Zpos (digits2_pos p)) as H53.
  { destruct (Z.lt_ge_cases 53 (Zpos (digits2_pos p))) as [|Hle]; [done|].
    assert (2 ^ Zpos (digits2_pos p) ≤ 2 ^ 53) by (apply Z.pow_le_mono_r; lia). lia. }
  rewrite Z.add_0_r, Z.max_l by (unfold SpecFloat.emin; lia).
  replace (Zpos (digits2_pos p) - 53 - 0) with (Zpos (digits2_pos p) - 53) by lia.
  destruct (Zpos (digits2_pos p) - 53) eqn:E; [lia| |lia]. apply binary_round_aux_exponent.
Qed.

(** What [Math.round] gives, as far as its bounds matter. *)
Definition rounded (x : number) : Prop :=
  (∃ k, x = num_of_Z k) ∨ match x with S754_finite _ _ e => 0 ≤ e | _ => True end.

Lemma rounded_cases k : 2 ^ 53 ≤ Z.abs k → match num_of_Z k with S754_finite _ _ e => 0 ≤ e | _ => True end.
Proof.
  intros Hk. unfold num_of_Z, binary_normalize. destruct k as [|p|p]; [done|apply large_exponent; lia|apply large_exponent; lia].
Qed.

Lemma Math_round_rounded x : rounded (Math_round x).
Proof.
  unfold Math_round. destruct x as [s|s| |s m e]; try (by right). destruct (Z.leb_spec 0 e); [by right|left; by eexists].
Qed.

(** A rounded number that is not out of range is an integer of the range. *)
Lemma rounded_in_range limit x n :
  0 < limit < 2 ^ 52 → rounded x → out_of_range limit x = false → bigint_of_number x = Ok n → 0 ≤ n ≤ limit.
Proof.
  intros Hl Hr Ho Hn. unfold out_of_range in Ho. rewrite !orb_false_iff in Ho. destruct Ho as [[_ Hlo] Hhi].
  assert (match x with S754_finite _ _ e => 0 ≤ e | _ => True end → 0 ≤ n ≤ limit) as Hbig.
  { intros He. unfold bigint_of_number in Hn. destruct x as [s|s| |s m e]; try done; [by injection Hn as <-; lia|].
    destruct s; [done|]. destruct (num_of_Z_represents limit) as (M&k&E&Hk&EM&HM&_); [lia|].
    rewrite E in Hhi. unfold num_ltb, SFltb in Hhi. cbn [SFcompare] in Hhi.
    destruct (Z.compare_spec (- k) e); [|done|lia]. assert (k = 0 ∧ e = 0) as [-> ->].
    { lia. }
    exfalso. cbn in EM. assert (2 ^ 52 ≤ limit) by lia. lia. }
  destruct Hr as [[k ->]|Hr]; [|by apply Hbig].
  destruct (Z.lt_ge_cases (Z.abs k) (2 ^ 53)) as [Hs|Hs]; [|by apply Hbig, rounded_cases].
  destruct (Z.lt_ge_cases k 0) as [Hneg|Hpos].
  - exfalso. destruct k as [|p|p]; [lia|lia|]. rewrite num_of_Z_opp in Hlo.
    destruct (num_of_Z_represents (Zpos p)) as (M&k'&E&_); [lia|]. by rewrite E in Hlo.
  - unfold bigint_of_number in Hn. rewrite num_to_Z_exact in Hn by (unfold safe; lia). injection Hn as <-.
    rewrite num_ltb_exact in Hhi by (unfold safe; lia). apply Z.ltb_ge in Hhi. lia.
Qed.

(** ** Yields and fees *)

Section percentages.
Context {W : Type} (X : Chain W).
Context (signTransaction : string → string → string → M W (string * option string)).
Context (t : string → list (string * string) → string) (numberText : number → string) (wallet : Wallet).

#[local] Notation percent := (submit_percent X signTransaction t numberText wallet).
(** The transaction that sets [n] basis points, with what follows it. *)
Definition percent_tx (admin text : string) (builder : string → Z → M (Rpc (W := W)) string) (done_key name : string) (n : Z)
    : Transaction W YieldState :=
  yield_tx X (on_rpc (builder admin n))
    (toast (ToastSuccess (t done_key [(name, text); ("bps", numberText (percent_bps text))]));; refresh_config X).

Lemma submit_percent_in_range text limit builder range_key done_key name p r p' :
  0 < limit < 2 ^ 52 → percent text limit builder range_key done_key name p = (r, p') → net p' ≠ net p →
  ∃ admin n, address_of wallet = Some admin ∧ 0 ≤ n ≤ limit ∧ bigint_of_number (percent_bps text) = Ok n ∧
    (r, p') = transact X signTransaction admin (percent_tx admin text builder done_key name n) p.
Proof.
  intros Hl E Hnet. unfold submit_percent in E. destruct (address_of wallet) as [admin|]; [|by injection E as <- <-].
  destruct (out_of_range limit (percent_bps text)) eqn:Ho; [by injection E as <- <-|].
  destruct (bigint_of_number (percent_bps text)) as [n|e] eqn:En; [|by injection E as <- <-].
  pose proof (rounded_in_range _ _ _ Hl (Math_round_rounded _) Ho En) as Hn. exists admin, n.
  split_and!; [done|apply Hn|apply Hn|done|by rewrite <- E].
Qed.

(** C14. A yield or a factoring fee that leaves the form, in whatever text it was
    entered, is a number of basis points: at most 5000 for the yield, 10000 for the
    fee. It is what the text rounds to, and what the transaction sets. *)
Theorem percentages_in_range p r p' : net p' ≠ net p →
  (handleYieldSubmit X signTransaction t numberText wallet p = (r, p') →
     ∃ admin n, address_of wallet = Some admin ∧ 0 ≤ n ≤ 5000 ∧ bigint_of_number (percent_bps (ys_newYield (ui p))) = Ok n ∧
       (r, p') = transact X signTransaction admin
         (percent_tx admin (ys_newYield (ui p)) (buildSetYieldTx X) "yieldUpdated" "yield" n) p) ∧
  (handleFactoringFeeSubmit X signTransaction t numberText wallet p = (r, p') →
     ∃ admin n, address_of wallet = Some admin ∧ 0 ≤ n ≤ 10000 ∧ bigint_of_number (percent_bps (ys_newFactoringFee (ui p))) = Ok n ∧
       (r, p') = transact X signTransaction admin
         (percent_tx admin (ys_newFactoringFee (ui p)) (buildSetFactoringFeeTx X) "feeUpdated" "fee" n) p).
Proof. intros Hnet. split; intros E; (eapply submit_percent_in_range; [|exact E|done]; lia). Qed.
End percentages.

(** ** Pages of investors *)

Lemma pages_from {A} (l : list A) k n :
  concat (map (λ page, take KYC_PAGE_SIZE (drop ((page - 1) * KYC_PAGE_SIZE) l)) (seq (S k) n))
  = take (n * KYC_PAGE_SIZE) (drop (k * KYC_PAGE_SIZE) l).
Proof.
  revert k. induction n as [|n IH]; intros k; cbn [seq map concat Nat.mul]; [by rewrite take_0|].
  rewrite IH. replace (S k - 1)%nat with k by lia.
  rewrite <- take_take_drop, drop_drop. do 3 f_equal. lia.
Qed.

(** The pages, one after the other, are the whole list. *)
Lemma pages_cover {A} (l : list A) : concat (map (paginated l) (seq 1 (pageCount l))) = l.
Proof.
  unfold paginated. rewrite (pages_from l 0). rewrite drop_0. apply take_ge. unfold pageCount.
  pose proof (Nat.div_mod (length l + (KYC_PAGE_SIZE - 1)) KYC_PAGE_SIZE) as H.
  pose proof (Nat.mod_upper_bound (length l + (KYC_PAGE_SIZE - 1)) KYC_PAGE_SIZE) as H2.
  unfold KYC_PAGE_SIZE in *. lia.
Qed.

Lemma clamp_pages_in_range s : (1 ≤ ky_pendingPage s → 1 ≤ ky_approvedPage s →
  1 ≤ ky_pendingPage (clamp_pages s) ≤ pageCount (ky_pending s) ∧
  1 ≤ ky_approvedPage (clamp_pages s) ≤ pageCount (ky_approved s))%nat.
Proof.
  intros H1 H2. assert (∀ A (l : list A), (1 ≤ pageCount l)%nat) as Hc by (intros; unfold pageCount; lia).
  pose proof (Hc _ (ky_pending s)). pose proof (Hc _ (ky_approved s)). cbn -[pageCount Nat.ltb].
  destruct (Nat.ltb_spec (pageCount (ky_pending s)) (ky_pendingPage s));
    destruct (Nat.ltb_spec (pageCount (ky_approved s)) (ky_approvedPage s)); lia.
Qed.

(** The tokens of the tranches page are names, not addresses of contracts. *)
Lemma admin_tranche_tokens_no_addresses : Forall (λ c, isStellarAddress (tc_token c) = false) initial_configs.
Proof. by repeat constructor. Qed.

(** ** What the actions leave true *)

Section actions.
Context {W : Type} (X : Chain W).
Context (signTransaction : string → string → string → M W (string * option string)).
Context (u32 : number → result Z) (t : string → list (string * string) → string) (numberText : number → string).
Context (stablecoinLabel : string → string) (getLatestLedger : string → M W Z) (getEvents : string → Z → M W (list (KycEvent X))).
Context (wallet : Wallet) (me : string) (Hme : address_of wallet = Some me).

Inductive yield_action : M (Page W YieldState) unit → Prop :=
| ys_act_load : yield_action (load_yield X numberText)
| ys_act_model : yield_action (load_model X numberText)
| ys_act_yield : yield_action (handleYieldSubmit X signTransaction t numberText wallet)
| ys_act_fee : yield_action (handleFactoringFeeSubmit X signTransaction t numberText wallet)
| ys_act_rate : yield_action (handleRateModelSubmit X signTransaction t stablecoinLabel wallet).

Inductive rates_action : M (Page W RatesState) unit → Prop :=
| er_act_load : rates_action (load_rates X)
| er_act_review : rates_action (openReviewModal t wallet)
| er_act_confirm : rates_action (confirmAndSubmit X signTransaction u32 t numberText stablecoinLabel wallet).

Inductive kyc_action : M (Page W KycState) unit → Prop :=
| ky_act_load : kyc_action (loadKycData X getLatestLedger getEvents)
| ky_act_toggle : kyc_action (handleToggleKyc X signTransaction t wallet)
| ky_act_decide a b : kyc_action (handleAction X signTransaction getLatestLedger getEvents t wallet a b)
| ky_act_lookup : kyc_action (kyc_lookup X)
| ky_act_manage : kyc_action (handleManageKyc X signTransaction getLatestLedger getEvents t wallet).

Inductive insurance_action : M (Page W InsuranceState) unit → Prop :=
| is_act_token : insurance_action (mutateTokenData X)
| is_act_premium : insurance_action (mutatePremiumConfig X)
| is_act_link : insurance_action (mutatePoolLink X)
| is_act_edit name x : insurance_action (set_ui (edit_config name x))
| is_act_tier i name x : insurance_action (set_ui (edit_tier i name x))
| is_act_start : insurance_action (set_ui start_editing)
| is_act_cancel : insurance_action (set_ui cancel_editing)
| is_act_save : insurance_action (savePremiumConfig X signTransaction u32 wallet)
| is_act_ratio : insurance_action (saveMinCoverageRatio X signTransaction u32 wallet)
| is_act_reserve : insurance_action (saveMinReserveAmount X signTransaction wallet)
| is_act_fund : insurance_action (fundReserve X signTransaction wallet)
| is_act_pool : insurance_action (linkPoolToInsurance X signTransaction wallet).

Inductive tranche_config_action : M (Page W TrancheConfigState) unit → Prop :=
| ts_act_enable token : tranche_config_action (handleEnableTranche token)
| ts_act_disable token : tranche_config_action (handleDisableTranche token)
| ts_act_edit token : tranche_config_action (handleEditConfig token)
| ts_act_save : tranche_config_action (handleSaveConfig X signTransaction u32 wallet).

Inductive liquidity_action : M (Page W LiquidityState) unit → Prop :=
| lq_act_horizon h : liquidity_action (choose_horizon X t h)
| lq_act_drain token : liquidity_action (handleDrain X signTransaction t stablecoinLabel wallet token).

Context (I : W → Prop) (signed : string → W → Prop) (HW : honest_wallet X signTransaction I signed me).
Context (Hledger : ∀ u, keeps I (getLatestLedger u)) (Hevents : ∀ u n, keeps I (getEvents u n)).

Lemma split_investors_keeps l : rpc_keeps I (split_investors X l).
Proof.
  induction l as [|[a d] l IH]; cbn [split_investors]; [apply keeps_ret|]. destruct (isStellarAddress a); [|exact IH].
  apply keeps_bind; [unfold getInvestorKyc; keep_page|intros ok].
  apply keeps_bind; [exact IH|intros [pending approved]; apply keeps_ret].
Qed.

Lemma fetchKycInvestors_keeps : rpc_keeps I (fetchKycInvestors X getLatestLedger getEvents).
Proof.
  unfold fetchKycInvestors. apply keeps_try_catch; [|intros e; apply keeps_ret].
  apply keeps_bind; [keep_page|intros n]. apply keeps_bind; [keep_page|intros events].
  apply keeps_bind; [apply split_investors_keeps|intros [pending approved]; apply keeps_ret].
Qed.
#[local] Hint Resolve fetchKycInvestors_keeps : page_keep.

Lemma yield_action_keeps m : yield_action m → page_keeps I m.
Proof.
  destruct 1; unfold handleYieldSubmit, handleFactoringFeeSubmit, submit_percent, handleRateModelSubmit; rewrite ?Hme; keep_page.
Qed.

Lemma rates_action_keeps m : rates_action m → page_keeps I m.
Proof. destruct 1; unfold openReviewModal, confirmAndSubmit; rewrite ?Hme; keep_page. Qed.

Lemma kyc_action_keeps m : kyc_action m → page_keeps I m.
Proof. destruct 1; unfold handleManageKyc, handleToggleKyc, handleAction; rewrite ?Hme; keep_page. Qed.

Lemma insurance_action_keeps m : insurance_action m → page_keeps I m.
Proof.
  destruct 1; unfold savePremiumConfig, saveMinCoverageRatio, saveMinReserveAmount, fundReserve, save_for_token,
    linkPoolToInsurance; rewrite ?Hme; keep_page.
Qed.

Lemma tranche_config_keeps m : tranche_config_action m → page_keeps I m.
Proof. destruct 1; unfold handleSaveConfig; rewrite ?Hme; keep_page. Qed.

Lemma liquidity_action_keeps m : liquidity_action m → page_keeps I m.
Proof. destruct 1; unfold handleDrain; rewrite ?Hme; keep_page. Qed.
End actions.
