(* ===== verification/AdminReviews.v ===== *)
(** * Reviews: app/admin/compliance, admin/attestors, admin/oracles and admin/governance

    The pages of the compliance officers and of those who admit attestors and oracles.
    None of the first three declares or imports [NETWORK], which they give to the
    wallet; the last holds no proposals and sends nothing. *)
From S2P Require Import Prelude.
From S2P Require Import JsValue.
From S2P Require Import JsNumber.
From S2P Require Import JsArith.
From S2P Require Import Sdk.
From S2P Require Import Abi.
From S2P Require Import ContractAbi.
From S2P Require Import RpcPool.
From S2P Require Import Stellar.
From S2P Require Import Amounts.
From S2P Require Import WebAbi.
From S2P Require Import WebContracts.
From S2P Require Import WebErrors.
From S2P Require Import PageTx.
Import WebCredit.
Import WebGovernance.
Import WebCompliance.
#[local] Open Scope string_scope.
#[local] Open Scope list_scope.
#[local] Open Scope Z_scope.

(** ** Signing without a network

    [signAndSubmit] of these pages: the argument [networkPassphrase: NETWORK] cannot be
    evaluated, so neither the wallet nor the network is reached. *)
Section unsigned.
Context {W P : Type}.

Definition unbound_signAndSubmit (xdr : string) : M (Page W P) unit := throw (EReferenceError "NETWORK is not defined").

Definition unsigned (busy : bool → P → P) (builder : M (Page W P) string) (done : M (Page W P) unit)
    (failed : string → M (Page W P) unit) : M (Page W P) unit :=
  set_ui (busy true);;
  finally (try_catch (xdr ← builder; unbound_signAndSubmit xdr;; done) (λ e, failed (exn_message e))) (busy false).
End unsigned.

(** ** app/admin/compliance/page.tsx *)

Record ComplianceState := {
  cm_loading : bool; cm_txLoading : bool; cm_flagged : jsval; cm_pending : jsval; cm_alerts : jsval;
  cm_lookupAddress : string; cm_record : option Fields; cm_history : list Fields; cm_decisionAddress : string;
  cm_decisionStatus : ComplianceStatusUi; cm_decisionReason : string; cm_decisionTier : RiskTierUi;
  cm_decisionNotes : string }.

#[export] Instance eta_ComplianceState : Eta ComplianceState := λ s, {|
  cm_loading := cm_loading s; cm_txLoading := cm_txLoading s; cm_flagged := cm_flagged s; cm_pending := cm_pending s;
  cm_alerts := cm_alerts s; cm_lookupAddress := cm_lookupAddress s; cm_record := cm_record s; cm_history := cm_history s;
  cm_decisionAddress := cm_decisionAddress s; cm_decisionStatus := cm_decisionStatus s;
  cm_decisionReason := cm_decisionReason s; cm_decisionTier := cm_decisionTier s; cm_decisionNotes := cm_decisionNotes s |}.

Section compliance.
Context {W : Type} (X : Chain W).
Context (fetch : string → list (string * string) → M W (bool * jsval)) (base token : string).
Context (t : string → string) (wallet : Wallet).

Local Abbreviation Act := (M (Page W ComplianceState)).

Definition loadQueues : Act unit :=
  set_ui (λ s, s <| cm_loading := true |>);;
  ignore_errors
    (f ← PageTx.or_else (JArr []) (on_rpc (listComplianceFlagged X));
     p ← PageTx.or_else (JArr []) (on_rpc (listCompliancePendingReview X));
     a ← on_world (fetchComplianceServiceFlags fetch base token);
     set_ui (λ s, s <| cm_flagged := f |> <| cm_pending := p |> <| cm_alerts := a |>));;
  set_ui (λ s, s <| cm_loading := false |>).

Definition read_address (addr : string) : Act unit :=
  r ← on_rpc (getComplianceRecord X addr);
  h ← on_rpc (getComplianceHistory X addr);
  set_ui (λ s, s <| cm_record := r |> <| cm_history := h |>).

Definition compliance_lookup : Act unit :=
  s ← get_ui;
  if String.eqb (trim (cm_lookupAddress s)) "" then mret tt
  else
    try_catch
      (addr ← lift_result (parseStellarAddress (trim (cm_lookupAddress s)));
       read_address addr;;
       set_ui (λ s, s <| cm_decisionAddress := addr |>))
      (λ e, toast (ToastError (exn_message e))).

(** A clearance ends after 180 days; [now] is in milliseconds. *)
Definition clearance_until (now : Z) (status : ComplianceStatusUi) : Z :=
  match status with ComplianceStatusUi_Cleared => now / 1000 + 180 * 24 * 60 * 60 | _ => 0 end.
Definition reasonCode_of (text : string) : Z := default 0 (parseInt text).
Definition notesHash_of (notes : string) : string :=
  if String.eqb (str_take 64 notes) "" then "admin-decision" else str_take 64 notes.

Definition decision_build (s : ComplianceState) (account : string) : Act string :=
  screener ← lift_result (parseStellarAddress account);
  address ← lift_result (parseStellarAddress (trim (cm_decisionAddress s)));
  now ← time_now X;
  on_rpc (buildSubmitScreeningResultTx X screener address (cm_decisionStatus s) (reasonCode_of (cm_decisionReason s))
            (cm_decisionTier s) (clearance_until now (cm_decisionStatus s)) (notesHash_of (cm_decisionNotes s))).

Definition handleDecision : Act unit :=
  s ← get_ui;
  match address_of wallet with
  | None => toast (ToastError (t "screeningDecision"))
  | Some account =>
      unsigned (λ b s, s <| cm_txLoading := b |>) (decision_build s account)
        (toast (ToastSuccess (t "submitResult"));; loadQueues;; read_address (trim (cm_decisionAddress s))) report
  end.
End compliance.

(** ** app/admin/attestors/page.tsx *)

Definition ATTESTOR_TYPES : list AttestorType :=
  [AttestorType_BusinessRegistry; AttestorType_CreditBureau; AttestorType_ExternalProtocol; AttestorType_Manual].

Record AttestorsState := {
  at_attestors : list Fields; at_loading : bool; at_txLoading : bool; at_newAddress : string; at_newType : AttestorType;
  at_newWeightBps : string; at_lookupId : string; at_lookupResult : option Fields; at_lookupLoading : bool }.

#[export] Instance eta_AttestorsState : Eta AttestorsState := λ s, {|
  at_attestors := at_attestors s; at_loading := at_loading s; at_txLoading := at_txLoading s;
  at_newAddress := at_newAddress s; at_newType := at_newType s; at_newWeightBps := at_newWeightBps s;
  at_lookupId := at_lookupId s; at_lookupResult := at_lookupResult s; at_lookupLoading := at_lookupLoading s |}.

(** A share of the basis points: finite, positive and at most all of them. *)
Definition is_bps (x : number) : bool :=
  isFinite x && num_ltb (num_of_Z 0) x && num_leb x (num_of_Z 10000).
Definition is_lookup_id (x : number) : bool := isFinite x && num_leb (num_of_Z 0) x.

Section attestors.
Context {W : Type} (X : Chain W).
Context (u32 : number → result Z) (t : string → list (string * string) → string) (numberText : number → string).
Context (wallet : Wallet).

Local Abbreviation Act := (M (Page W AttestorsState)).

Definition load_attestors : Act unit :=
  set_ui (λ s, s <| at_loading := true |>);;
  try_catch (l ← on_rpc (listActiveAttestors X); set_ui (λ s, s <| at_attestors := l |>))
    (λ _, toast (ToastError (t "loadFailed" [])));;
  set_ui (λ s, s <| at_loading := false |>).

Definition attestor_failed (message : string) : Act unit := report (getContractErrorMessage message).
Definition attestors_busy (b : bool) (s : AttestorsState) : AttestorsState := s <| at_txLoading := b |>.

Definition attestor_register : Act unit :=
  s ← get_ui;
  match address_of wallet with
  | None => mret tt
  | Some account =>
      let weightBps := Number_of_string (at_newWeightBps s) in
      if negb (is_bps weightBps) then toast (ToastError (t "weightRangeError" []))
      else
        unsigned attestors_busy
          (admin ← lift_result (parseStellarAddress account);
           address ← lift_result (parseStellarAddress (trim (at_newAddress s)));
           weight ← lift_result (u32 weightBps);
           on_rpc (buildRegisterAttestorTx X admin address (at_newType s) weight))
          (toast (ToastSuccess (t "registerSuccess" [("address", str_take 8 (at_newAddress s))]));;
           set_ui (λ s, s <| at_newAddress := "" |> <| at_newWeightBps := "10000" |>);; load_attestors)
          attestor_failed
  end.

Definition handleDeactivate (address : string) : Act unit :=
  match address_of wallet with
  | None => mret tt
  | Some account =>
      unsigned attestors_busy
        (admin ← lift_result (parseStellarAddress account); on_rpc (buildDeactivateAttestorTx X admin address))
        (toast (ToastSuccess (t "deactivateSuccess" [("address", str_take 8 address)]));; load_attestors)
        attestor_failed
  end.

Definition attestation_lookup : Act unit :=
  s ← get_ui;
  let id := Number_of_string (at_lookupId s) in
  if negb (is_lookup_id id) then toast (ToastError (t "validIdRequired" []))
  else
    set_ui (λ s, s <| at_lookupLoading := true |>);;
    try_catch
      (n ← lift_result (bigint_of_number id); r ← on_rpc (getAttestation X n);
       set_ui (λ s, s <| at_lookupResult := r |>))
      (λ _, toast (ToastError (t "lookupFailed" [])));;
    set_ui (λ s, s <| at_lookupLoading := false |>).

Definition attestation_resolve (upheld : bool) : Act unit :=
  s ← get_ui;
  match address_of wallet, at_lookupResult s with
  | Some account, Some result =>
      let id := num_of result "id" in
      unsigned attestors_busy
        (admin ← lift_result (parseStellarAddress account); n ← lift_result (bigint_of_number id);
         on_rpc (buildResolveAttestationDisputeTx X admin n upheld))
        (toast (ToastSuccess (t (if upheld then "upheldSuccess" else "notUpheldSuccess") [("id", numberText id)]));;
         n ← lift_result (bigint_of_number id); r ← on_rpc (getAttestation X n);
         set_ui (λ s, s <| at_lookupResult := r |>))
        attestor_failed
  | _, _ => mret tt
  end.
End attestors.

(** ** app/admin/oracles/page.tsx *)

(** The round that was looked up: not yet, not found, or found. *)
Inductive RoundView := NoRound | RoundNotFound | RoundFound (r : Fields).
Definition round_view (r : option Fields) : RoundView := match r with Some r => RoundFound r | None => RoundNotFound end.

Record OraclesState := {
  oc_config : option Fields; oc_oracles : list Fields; oc_loading : bool; oc_notDeployed : bool; oc_txLoading : bool;
  oc_slashTarget : option Fields; oc_slashBps : string; oc_lookupId : string; oc_round : RoundView;
  oc_roundLoading : bool; oc_resolveReason : string }.

#[export] Instance eta_OraclesState : Eta OraclesState := λ s, {|
  oc_config := oc_config s; oc_oracles := oc_oracles s; oc_loading := oc_loading s; oc_notDeployed := oc_notDeployed s;
  oc_txLoading := oc_txLoading s; oc_slashTarget := oc_slashTarget s; oc_slashBps := oc_slashBps s;
  oc_lookupId := oc_lookupId s; oc_round := oc_round s; oc_roundLoading := oc_roundLoading s;
  oc_resolveReason := oc_resolveReason s |}.

Section oracles.
Context {W : Type} (X : Chain W).
Context (u32 : number → result Z) (t : string → list (string * string) → string) (numberText toFixed2 : number → string).
Context (wallet : Wallet).

Local Abbreviation Act := (M (Page W OraclesState)).

Definition loadRegistry : Act unit :=
  set_ui (λ s, s <| oc_loading := true |>);;
  try_catch
    (cfg ← on_rpc (getRegistryConfig X);
     addresses ← on_rpc (listActiveOracles X);
     set_ui (λ s, s <| oc_config := Some cfg |>);;
     l ← lift_result (array addresses);
     infos ← mapM (λ addr, on_rpc (getOracleInfo X (js_String addr))) l;
     set_ui (λ s, s <| oc_oracles := omap (λ o : option Fields, o) infos |>))
    (λ _, set_ui (λ s, s <| oc_notDeployed := true |>));;
  set_ui (λ s, s <| oc_loading := false |>).

Definition oracles_busy (b : bool) (s : OraclesState) : OraclesState := s <| oc_txLoading := b |>.

Definition handleSlash : Act unit :=
  s ← get_ui;
  match address_of wallet, oc_slashTarget s with
  | Some account, Some target =>
      let bps := Number_of_string (oc_slashBps s) in
      if negb (is_bps bps) then toast (ToastError (t "slashBpsRangeError" []))
      else
        unsigned oracles_busy
          (admin ← lift_result (parseStellarAddress account);
           operator ← lift_result (parseStellarAddress (text_of target "address"));
           n ← lift_result (u32 bps);
           on_rpc (buildSlashOracleTx X admin operator n))
          (toast (ToastSuccess (t "slashSuccess" [("address", str_take 8 (text_of target "address"));
                                                  ("pct", toFixed2 (num_div bps (num_of_Z 100)))]));;
           set_ui (λ s, s <| oc_slashTarget := None |>);; loadRegistry)
          report
  | _, _ => mret tt
  end.

Definition handleLookupRound : Act unit :=
  s ← get_ui;
  let id := Number_of_string (oc_lookupId s) in
  if negb (is_lookup_id id) then toast (ToastError (t "noRound" []))
  else
    set_ui (λ s, s <| oc_roundLoading := true |> <| oc_round := NoRound |>);;
    try_catch
      (n ← lift_result (bigint_of_number id); r ← on_rpc (getVerificationRound X n);
       set_ui (λ s, s <| oc_round := round_view r |>))
      (λ _, set_ui (λ s, s <| oc_round := RoundNotFound |>));;
    set_ui (λ s, s <| oc_roundLoading := false |>).

Definition round_resolve (approved : bool) : Act unit :=
  s ← get_ui;
  match address_of wallet, oc_round s with
  | Some account, RoundFound round =>
      let id := num_of round "invoiceId" in
      let reason := if String.eqb (oc_resolveReason s) "" then t "manualFallbackResolution" [] else oc_resolveReason s in
      unsigned oracles_busy
        (admin ← lift_result (parseStellarAddress account); n ← lift_result (bigint_of_number id);
         on_rpc (buildAdminResolveRoundTx X admin n approved reason))
        (toast (ToastSuccess (t "roundResolved" [("id", numberText id);
                                                 ("result", t (if approved then "approved" else "rejected") [])]));;
         n ← lift_result (bigint_of_number id); r ← on_rpc (getVerificationRound X n);
         set_ui (λ s, s <| oc_round := round_view r |>))
        report
  | _, _ => mret tt
  end.
End oracles.

(** ** app/admin/governance/page.tsx

    The page keeps no proposals, whatever the contract has, and a vote or an execution
    calls nothing. *)
Record GovernedProposal := {
  gp_id : Z; gp_votes_for : Z; gp_votes_against : Z; gp_snapshot_supply : Z; gp_quorum_bps : Z; gp_pass_bps : Z }.

Definition calculateQuorumMet (p : GovernedProposal) : bool :=
  let totalVotes := gp_votes_for p + gp_votes_against p in
  let quorumThreshold := Z.quot (gp_snapshot_supply p * gp_quorum_bps p) 10000 in
  quorumThreshold <=? totalVotes.

Definition calculatePassThreshold (p : GovernedProposal) : bool :=
  let totalVotes := gp_votes_for p + gp_votes_against p in
  if totalVotes =? 0 then false
  else let passThreshold := Z.quot (gp_votes_for p * 10000) totalVotes in gp_pass_bps p <=? passThreshold.

Record AdminGovernanceState := {
  ag_proposals : list GovernedProposal; ag_loading : bool; ag_actionLoading : option Z }.

#[export] Instance eta_AdminGovernanceState : Eta AdminGovernanceState := λ s, {|
  ag_proposals := ag_proposals s; ag_loading := ag_loading s; ag_actionLoading := ag_actionLoading s |}.

Section admin_governance.
Context {W : Type} (t : string → string) (wallet : Wallet).

Local Abbreviation Act := (M (Page W AdminGovernanceState)).

Definition admin_loadProposals : Act unit :=
  set_ui (λ s, s <| ag_loading := true |>);;
  set_ui (λ s, s <| ag_proposals := [] |>);;
  set_ui (λ s, s <| ag_loading := false |>).

Definition mocked_action (proposalId : Z) (message : string) : Act unit :=
  match address_of wallet with
  | None => toast (ToastError (t "connectWallet"))
  | Some _ =>
      set_ui (λ s, s <| ag_actionLoading := Some proposalId |>);;
      toast (ToastSuccess (t message));;
      admin_loadProposals;;
      set_ui (λ s, s <| ag_actionLoading := None |>)
  end.

Definition handleVote (proposalId : Z) (voteFor : bool) : Act unit := mocked_action proposalId "voteSuccess".
Definition governance_execute (proposalId : Z) : Act unit := mocked_action proposalId "executeSuccess".
End admin_governance.

(** * Proofs *)

(** ** A majority of basis points *)

(** [votes_for / total] of the basis points, rounded down, reach the threshold exactly
    when the votes do. *)
Lemma pass_threshold_spec p : 0 ≤ gp_votes_for p → 0 ≤ gp_votes_against p →
  calculatePassThreshold p = true ↔
  0 < gp_votes_for p + gp_votes_against p ∧
  gp_pass_bps p * (gp_votes_for p + gp_votes_against p) ≤ gp_votes_for p * 10000.
Proof.
  intros Hf Ha. unfold calculatePassThreshold. destruct (Z.eqb_spec (gp_votes_for p + gp_votes_against p) 0) as [E|E].
  - split; [done|]. intros [H _]. lia.
  - rewrite Z.leb_le, Z.quot_div_nonneg by lia. split.
    + intros H. split; [lia|]. pose proof (Z.mul_div_le (gp_votes_for p * 10000) (gp_votes_for p + gp_votes_against p)). nia.
    + intros [_ H]. apply Z.div_le_lower_bound; lia.
Qed.

(** ** What the actions leave true *)

Section actions.
Context {W : Type} (X : Chain W).
Context (fetch : string → list (string * string) → M W (bool * jsval)) (base token : string).
Context (u32 : number → result Z) (t1 : string → string) (t : string → list (string * string) → string).
Context (numberText toFixed2 : number → string) (wallet : Wallet).

Inductive compliance_action : M (Page W ComplianceState) unit → Prop :=
| cm_act_load : compliance_action (loadQueues X fetch base token)
| cm_act_lookup : compliance_action (compliance_lookup X)
| cm_act_decide : compliance_action (handleDecision X fetch base token t1 wallet).

Inductive attestors_action : M (Page W AttestorsState) unit → Prop :=
| at_act_load : attestors_action (load_attestors X t)
| at_act_register : attestors_action (attestor_register X u32 t wallet)
| at_act_deactivate a : attestors_action (handleDeactivate X t wallet a)
| at_act_lookup : attestors_action (attestation_lookup X t)
| at_act_resolve b : attestors_action (attestation_resolve X t numberText wallet b).

Inductive oracles_action : M (Page W OraclesState) unit → Prop :=
| oc_act_load : oracles_action (loadRegistry X)
| oc_act_slash : oracles_action (handleSlash X u32 t toFixed2 wallet)
| oc_act_lookup : oracles_action (handleLookupRound X t)
| oc_act_resolve b : oracles_action (round_resolve X t numberText wallet b).

Inductive admin_governance_action : M (Page W AdminGovernanceState) unit → Prop :=
| ag_act_load : admin_governance_action admin_loadProposals
| ag_act_vote id b : admin_governance_action (handleVote t1 wallet id b)
| ag_act_execute id : admin_governance_action (governance_execute t1 wallet id).

Context (I : W → Prop) (HR : reads_keep X I) (Hfetch : ∀ url h, keeps I (fetch url h)).

Lemma flags_keeps : keeps I (fetchComplianceServiceFlags fetch base token).
Proof.
  unfold fetchComplianceServiceFlags. apply keeps_try_catch; [|intros e; apply keeps_ret].
  apply keeps_bind; [apply Hfetch|intros [ok body]]. destruct ok; [|apply keeps_ret].
  apply keeps_bind; [apply keeps_lift|intros a; apply keeps_ret].
Qed.

Lemma compliance_action_keeps m : compliance_action m → page_keeps I m.
Proof. pose proof flags_keeps. destruct 1; keep_page. Qed.

Lemma attestors_action_keeps m : attestors_action m → page_keeps I m.
Proof. destruct 1; keep_page. Qed.

Lemma oracles_action_keeps m : oracles_action m → page_keeps I m.
Proof. destruct 1; keep_page. Qed.

Lemma admin_governance_keeps m : admin_governance_action m → page_keeps I m.
Proof. destruct 1; keep_page. Qed.
End actions.
