(* ===== verification/Pages.v ===== *)
(** * What the pages send

    The pages of app/invoice/new and app/invoice/import around the handlers of
    WebForms.v and WebImport.v; the actions of all pages, with what they are given
    from outside, and the property they share: nothing reaches the network that
    the user's wallet did not sign. *)
From S2P Require Import Prelude.
From S2P Require Import JsValue.
From S2P Require Import JsNumber.
From S2P Require Import Sdk.
From S2P Require Import RpcPool.
From S2P Require Import Stellar.
From S2P Require Import Amounts.
From S2P Require ContractAbi.
From S2P Require WebHistory.
From S2P Require WebKyc.
From S2P Require WebInvoice.
From S2P Require WebImport.
From S2P Require WebForms.
From S2P Require Import PageTx.
From S2P Require InvoicePage.
From S2P Require Portfolio.
From S2P Require InvestPages.
From S2P Require UserPages.
From S2P Require AdminRoles.
From S2P Require AdminInvoices.
From S2P Require SmeDashboard.
From S2P Require AdminSettings.
From S2P Require AdminReviews.
#[local] Open Scope list_scope.
#[local] Open Scope Z_scope.

Section pages.
Context {W Val : Type} (X : Chain W).

(** What the pages are given: the wallet, the servers beside the RPC nodes, the
    browser's random numbers and stores, the cells of React that a progress report
    fills in, and the texts. *)
Record Environment := {
  en_wallet : Wallet;
  en_sign : string → string → string → M W (string * option string);
  en_mock : option (string → M (Rpc (W := W)) (bool * Z * jsval));
  en_getLatestLedger : string → M W Z;
  en_getEvents : string → Z → M W (list (WebHistory.RawEvent (R := Val)));
  en_getDeposits : string → Z → M W (list (WebKyc.KycEvent X));
  en_fetch : string → M W (bool * result jsval);
  en_fetchFlags : string → list (string * string) → M W (bool * jsval);
  en_getRandomValues : nat → M W string;
  en_set_cells : (InvestPages.TxCells → InvestPages.TxCells) → M W unit;
  en_tracked : string → TransactionProgress → M W unit;
  en_hook : result unit;
  en_scValToNative : Val → result jsval;
  en_sha256 : string → string;
  en_local_full : bool; en_session_full : bool;
  en_u32 : number → result Z; en_to_u64 : jsval → result Z; en_to_i128 : jsval → result Z;
  en_to_address : jsval → result string;
  en_USDC : string; en_stablecoins : StablecoinIds; en_INDEXER_URL : string; en_COMPLIANCE_URL : string;
  en_admin_token : string;
  en_text : string → string; en_texts : string → list (string * string) → string;
  en_formatUSDC : Z → string; en_numberText : number → string; en_intText : Z → string; en_toFixed2 : number → string;
  en_stablecoinLabel : string → string;
  en_form_encode : string → string;
  en_getTime : string → number }.

Context (E : Environment).

(** *** app/invoice/new/page.tsx

    The handler of the form, with the toast it shows; the reading of the greatest
    amount; the estimate of the fee, [fee_of] reading the answer. *)
Definition submit_new_invoice {P} (valid : bool) (form : WebForms.Form) : M (Page W P) unit :=
  shown ← on_net (WebForms.handleSubmit (en_getTime E) X quiet_progress (en_sign E) (w_address (en_wallet E)) valid form);
  match shown with
  | WebForms.ShownNothing => mret tt
  | WebForms.ShownSuccess => toast (ToastSuccess "Invoice tokenized successfully!")
  | WebForms.ShownError message => toast (ToastError message)
  end.

Definition load_max_amount {P} (set : number → P → P) : M (Page W P) unit :=
  n ← on_rpc (WebForms.load_max_amount X); set_ui (set n).

Definition estimate_new_invoice {P} (fee_of : ch_ScVal X → number * number) (set : FeeEstimate → P → P)
    (address : string) (form : WebForms.Form) : M (Page W P) unit :=
  call ← lift_result (WebForms.simulateCreate (en_getTime E) address form);
  let '(method, args) := call in
  fee ← on_rpc (simulateContractCall X fee_of (Of ContractAbi.Invoice) method args address); set_ui (set fee).

(** *** app/invoice/import/page.tsx

    The import, with the toasts of an import that is not begun. *)
Definition start_import : M (Page W WebImport.Import) unit := λ p,
  let '(ui', net') := WebImport.handleStartImport (en_getTime E) X quiet_progress (en_sign E) (w_address (en_wallet E)) (ui p) (net p) in
  (Ok tt, {|
    ui := ui';
    toasts := toasts p ++
      match address_of (en_wallet E) with
      | None => [ToastError "Please connect your wallet"]
      | Some _ =>
          if WebImport.MAX_INVOICES_PER_DAY <? lengthZ (WebImport.validRows (ui p))
          then [ToastError "Maximum 10 invoices per day. Please reduce the number of invoices."] else []
      end;
    net := net' |}).

(** The actions of all pages; what is typed into an input or chosen is a change of the
    page's own state, whichever it is. *)
Inductive page_action : ∀ {P}, M (Page W P) unit → Prop :=
| on_input {P} (f : P → P) : page_action (set_ui f)
| on_new_invoice {P} valid form : page_action (P := P) (submit_new_invoice valid form)
| on_max_amount {P} (set : number → P → P) : page_action (load_max_amount set)
| on_estimate {P} fee_of (set : FeeEstimate → P → P) address form : page_action (estimate_new_invoice fee_of set address form)
| on_import : page_action start_import
| on_invoice id m : InvoicePage.invoice_action X (en_sign E) (en_mock E) (en_scValToNative E) (en_formatUSDC E)
    (en_getLatestLedger E) (en_getEvents E) (en_USDC E) (en_wallet E) id m → page_action m
| on_portfolio m : Portfolio.portfolio_action X (en_sign E) (en_wallet E) (en_fetch E) (en_INDEXER_URL E) (en_formatUSDC E) m →
    page_action m
| on_claim token : page_action (Portfolio.claim X (en_sign E) (en_wallet E) token)
| on_badge funded m : Portfolio.badge_action X (en_sign E) (en_wallet E) funded m → page_action m
| on_invest m : InvestPages.invest_action X (en_sign E) (en_wallet E) (en_set_cells E) (en_formatUSDC E) (en_stablecoins E) m →
    page_action m
| on_tranches m : InvestPages.tranches_action X (en_sign E) (en_wallet E) (en_fetch E) (en_INDEXER_URL E) (en_numberText E) m →
    page_action m
| on_co_funding m : InvestPages.co_funding_action X (en_sign E) (en_wallet E) (en_numberText E) (en_toFixed2 E) (en_hook E)
    (en_tracked E) m → page_action m
| on_market m : InvestPages.market_action X (en_sign E) (en_wallet E) (en_numberText E) (en_hook E) (en_tracked E) m →
    page_action m
| on_governance m : UserPages.governance_action X (en_sign E) (en_wallet E) m → page_action m
| on_jurors m : UserPages.jurors_action X (en_sign E) (en_wallet E) (en_getRandomValues E) (en_sha256 E) (en_local_full E)
    (en_session_full E) (en_text E) (en_numberText E) m → page_action m
| on_credit m : UserPages.credit_action X (en_wallet E) (en_numberText E) m → page_action m
| on_roles m : AdminRoles.roles_action X (en_sign E) (en_u32 E) (en_intText E) (en_wallet E) m → page_action m
| on_admin_invoices m : AdminInvoices.admin_invoices_action X (en_sign E) (en_mock E) (en_to_u64 E) (en_to_i128 E)
    (en_to_address E) (en_texts E) (en_USDC E) (en_wallet E) m → page_action m
| on_defaults m : AdminInvoices.defaults_action X (en_sign E) (en_mock E) (en_to_u64 E) (en_texts E) (en_wallet E) m →
    page_action m
| on_dashboard m : AdminInvoices.dashboard_action X (en_sign E) (en_mock E) (en_texts E) (en_wallet E) m → page_action m
| on_sme_dashboard m : SmeDashboard.sme_action X (en_mock E) (en_fetch E) (en_INDEXER_URL E) (en_form_encode E) (en_to_u64 E)
    (en_text E) (en_wallet E) m → page_action m
| on_yield m : AdminSettings.yield_action X (en_sign E) (en_texts E) (en_numberText E) (en_stablecoinLabel E) (en_wallet E) m →
    page_action m
| on_rates m : AdminSettings.rates_action X (en_sign E) (en_u32 E) (en_texts E) (en_numberText E) (en_stablecoinLabel E)
    (en_wallet E) m → page_action m
| on_kyc m : AdminSettings.kyc_action X (en_sign E) (en_texts E) (en_getLatestLedger E) (en_getDeposits E) (en_wallet E) m →
    page_action m
| on_insurance m : AdminSettings.insurance_action X (en_sign E) (en_u32 E) (en_wallet E) m → page_action m
| on_tranche_config m : AdminSettings.tranche_config_action X (en_sign E) (en_u32 E) (en_wallet E) m → page_action m
| on_liquidity m : AdminSettings.liquidity_action X (en_sign E) (en_texts E) (en_stablecoinLabel E) (en_wallet E) m →
    page_action m
| on_compliance m : AdminReviews.compliance_action X (en_fetchFlags E) (en_COMPLIANCE_URL E) (en_admin_token E) (en_text E)
    (en_wallet E) m → page_action m
| on_attestors m : AdminReviews.attestors_action X (en_u32 E) (en_texts E) (en_numberText E) (en_wallet E) m → page_action m
| on_oracles m : AdminReviews.oracles_action X (en_u32 E) (en_texts E) (en_numberText E) (en_toFixed2 E) (en_wallet E) m →
    page_action m
| on_admin_governance m : AdminReviews.admin_governance_action (en_text E) (en_wallet E) m → page_action m.

(** A page that is used: one action after the other. *)
Inductive used {P} : Page W P → Page W P → Prop :=
| used_not p : used p p
| used_more p q m : used p q → page_action m → used p (m q).2.

(** ** What is outside *)

Context (sent : W → list (ch_Tx X)) (signed_by_user : W → list string).

(** [m] neither sends nor signs. *)
Definition apart (a : list (ch_Tx X)) (b : list string) (w : W) : Prop := sent w = a ∧ signed_by_user w = b.
Definition quiet {A} (m : M W A) : Prop := ∀ a b, keeps (apart a b) m.

(** The servers' reads, the clock and whatever else a page is given neither send nor
    sign; the wallet may sign; [sendTransaction] may send what it is given. *)
Record outside (me : string) : Prop := {
  out_reads : ∀ a b, reads_keep X (apart a b);
  out_sign : ∀ xdr a b, triple (apart a b) (en_sign E xdr (ch_network X) me)
    (λ answer w, apart a b w ∨ sent w = a ∧ signed_by_user w = answer.1 :: b) (λ w, sent w = a ∧ b ⊆ signed_by_user w);
  out_signs : ∀ xdr w signedXdr w', en_sign E xdr (ch_network X) me w = (Ok (signedXdr, None), w') →
    signedXdr ∈ signed_by_user w';
  out_send : ∀ tx u a b, let may_send w := (sent w = a ∨ sent w = tx :: a) ∧ signed_by_user w = b in
    triple (apart a b) (sendTransaction (ch_server X u) tx) (λ _, may_send) may_send;
  out_ledger : ∀ u, quiet (en_getLatestLedger E u);
  out_events : ∀ u n, quiet (en_getEvents E u n);
  out_deposits : ∀ u n, quiet (en_getDeposits E u n);
  out_fetch : ∀ url, quiet (en_fetch E url);
  out_flags : ∀ url h, quiet (en_fetchFlags E url h);
  out_random : ∀ n, quiet (en_getRandomValues E n);
  out_cells : ∀ f, quiet (en_set_cells E f);
  out_tracked : ∀ label p, quiet (en_tracked E label p);
  out_mock : ∀ fetch path a b, en_mock E = Some fetch → rpc_keeps (apart a b) (fetch path) }.

(** Everything that was sent was signed: it is what the SDK reads from a text that the
    wallet returned. *)
Definition sent_was_signed (w : W) : Prop :=
  ∀ tx, tx ∈ sent w → ∃ xdr, xdr ∈ signed_by_user w ∧ ch_fromXDR X xdr (ch_network X) = Ok tx.
Definition signed_in (xdr : string) (w : W) : Prop := xdr ∈ signed_by_user w.

Section proof.
Context (me : string) (HO : outside me) (Hme : address_of (en_wallet E) = Some me).

Lemma quiet_keeps {A} (m : M W A) (J : W → Prop) :
  quiet m → (∀ w w', apart (sent w) (signed_by_user w) w' → J w → J w') → keeps J m.
Proof.
  intros Hm HJ w Hw. specialize (Hm _ _ w (conj eq_refl eq_refl)). destruct (m w) as [[x|e] w']; by eapply HJ.
Qed.

Lemma signed_apart w w' : apart (sent w) (signed_by_user w) w' → sent_was_signed w → sent_was_signed w'.
Proof. intros [Ha Hb] H tx. rewrite Ha, Hb. apply H. Qed.
Lemma signed_in_apart xdr w w' : apart (sent w) (signed_by_user w) w' →
  ok_and_signed sent_was_signed signed_in xdr w → ok_and_signed sent_was_signed signed_in xdr w'.
Proof. intros H [Hs Hx]. split; [by eapply signed_apart|]. destruct H as [_ Hb]. unfold signed_in. by rewrite Hb. Qed.

Lemma reads_of (J : W → Prop) : (∀ w w', apart (sent w) (signed_by_user w) w' → J w → J w') → reads_keep X J.
Proof.
  intros HJ. split; intros; (apply quiet_keeps; [|exact HJ]); intros sa sb;
    [apply rk_account|apply rk_simulate|apply rk_status|eapply rk_sleep]; apply (out_reads _ HO).
Qed.

Lemma honest : honest_wallet X (en_sign E) sent_was_signed signed_in me.
Proof.
  split.
  - apply reads_of, signed_apart.
  - intros xdr. apply reads_of. intros w w'. apply signed_in_apart.
  - intros xdr w Hw. pose proof (out_sign _ HO xdr _ _ w (conj eq_refl eq_refl)) as H.
    pose proof (out_signs _ HO xdr w) as Hs. destruct (en_sign E xdr (ch_network X) me w) as [[[x [s|]]|e] w'].
    + split; [|done]. destruct H as [H|[H1 H2]]; [by eapply signed_apart|].
      intros tx. rewrite H1, H2. intros Htx. destruct (Hw tx Htx) as (y&Hy&Hf). exists y. split; [by right|done].
    + split; [|intros _; by eapply Hs]. destruct H as [H|[H1 H2]]; [by eapply signed_apart|].
      intros tx. rewrite H1, H2. intros Htx. destruct (Hw tx Htx) as (y&Hy&Hf). exists y. split; [by right|done].
    + destruct H as [H1 H2]. intros tx. rewrite H1. intros Htx. destruct (Hw tx Htx) as (y&Hy&Hf).
      exists y. split; [by apply H2|done].
  - intros xdr tx u Hf w [Hw Hx]. pose proof (out_send _ HO tx u (sent w) (signed_by_user w) w (conj eq_refl eq_refl)) as H.
    assert (∀ w', (sent w' = sent w ∨ sent w' = tx :: sent w) ∧ signed_by_user w' = signed_by_user w →
      ok_and_signed sent_was_signed signed_in xdr w') as Hok.
    { intros w' [Hsent Hb]. unfold ok_and_signed, signed_in, sent_was_signed. rewrite Hb. split; [|done].
      intros tx'. destruct Hsent as [-> | ->]; [apply Hw|]. intros [->|Htx]%elem_of_cons; [by exists xdr|by apply Hw]. }
    destruct (sendTransaction _ tx w) as [[r|e] w']; by apply Hok.
Qed.

Lemma quiet_signed {A} (m : M W A) : quiet m → keeps sent_was_signed m.
Proof. intros Hm. by apply quiet_keeps; [|apply signed_apart]. Qed.

Lemma mock_keeps fetch path : en_mock E = Some fetch → rpc_keeps sent_was_signed (fetch path).
Proof.
  intros Hm s Hs. pose proof (out_mock _ HO fetch path _ _ Hm s (conj eq_refl eq_refl)) as H.
  destruct (fetch path s) as [[r|e] s']; by eapply signed_apart.
Qed.

(** *** The pages of new invoices *)

#[local] Notation Net := (Submitting (W := W)).

Lemma net_rpc_keeps J {A} (m : M (Rpc (W := W)) A) : rpc_keeps J m → net_keeps J (WebImport.on_rpc m).
Proof.
  intros Hm s Hs. specialize (Hm (rpc s) Hs). unfold WebImport.on_rpc. destruct (m (rpc s)) as [[a|e] r]; exact Hm.
Qed.

Lemma sign_net xdr :
  triple (λ s : Net, sent_was_signed (world (rpc s)))
    (WebImport.on_world (en_sign E xdr (ch_network X) me))
    (λ answer s, sent_was_signed (world (rpc s)) ∧ (answer.2 = None → signed_in answer.1 (world (rpc s))))
    (λ s, sent_was_signed (world (rpc s))).
Proof.
  intros s Hs. pose proof (hw_sign _ _ _ _ _ honest xdr _ Hs) as H. unfold WebImport.on_world, WebImport.on_rpc. cbn.
  destruct (en_sign E xdr (ch_network X) me (world (rpc s))) as [[a|e] w]; exact H.
Qed.

(** The wallet signs what was built, and what it returned is submitted. *)
Lemma sign_and_submit_net xdr :
  net_keeps sent_was_signed
    (pair ← WebImport.on_world (en_sign E xdr (ch_network X) me);
     let '(signedTxXdr, signError) := pair in
     match signError with
     | Some message => throw (EError message)
     | None => _ ← submitTx X signedTxXdr quiet_progress; mret tt
     end).
Proof.
  unfold net_keeps. eapply triple_bind; [apply sign_net|]. intros [xdr' [message|]]; cbn [snd fst].
  - by intros s [Hs _].
  - assert (net_keeps (ok_and_signed sent_was_signed signed_in xdr') (_ ← submitTx X xdr' quiet_progress; mret tt)) as H.
    { apply keeps_bind; [|intros _; apply keeps_ret]. apply submitTx_keeps.
      - apply (hw_reads_signed _ _ _ _ _ honest).
      - intros q. apply keeps_ret.
      - intros tx u. apply (hw_send _ _ _ _ _ honest). }
    intros s [Hs Hsg]. specialize (H s (conj Hs (Hsg eq_refl))).
    destruct ((_ ← submitTx X xdr' quiet_progress; mret tt) s) as [[a|e] s']; unfold ok_and_signed in H; by destruct H.
Qed.

Lemma create_keeps debtor amount due description hash uri :
  net_keeps sent_was_signed
    (WebImport.on_rpc (WebInvoice.buildCreateInvoiceTx X me debtor amount due description hash uri)).
Proof.
  apply net_rpc_keeps. intros s Hs. unfold WebInvoice.buildCreateInvoiceTx.
  destruct (WebInvoice.validateInvoice debtor amount due _) as [u|e]; [|exact Hs].
  by apply (prepare_keeps X _ (hw_reads _ _ _ _ _ honest)).
Qed.

Lemma submit_form_keeps form :
  net_keeps sent_was_signed (WebForms.submit_form (en_getTime E) X quiet_progress (en_sign E) me form).
Proof.
  unfold WebForms.submit_form, net_keeps. apply keeps_bind; [apply keeps_lift|intros amount].
  apply keeps_bind; [apply create_keeps|intros xdr; apply sign_and_submit_net].
Qed.

Lemma import_row_keeps row :
  net_keeps sent_was_signed (WebImport.import_row (en_getTime E) X quiet_progress (en_sign E) me row).
Proof.
  unfold WebImport.import_row, net_keeps. apply keeps_bind; [apply keeps_lift|intros amount].
  apply keeps_bind; [apply create_keeps|intros xdr; apply sign_and_submit_net].
Qed.

Lemma wallet_me : en_wallet E = {| w_address := Some me; w_connected := w_connected (en_wallet E) |} ∧ me ≠ "".
Proof.
  revert Hme. unfold address_of, text_or_none. destruct (en_wallet E) as [[[|c s]|] b]; cbn; [done| |done]. by intros [= <-].
Qed.

Lemma submit_new_invoice_keeps {P} valid form : page_keeps (P := P) sent_was_signed (submit_new_invoice valid form).
Proof.
  unfold submit_new_invoice. apply keeps_bind; [apply on_net_keeps|intros [| |m]; [apply keeps_ret|apply toast_keeps|apply toast_keeps]].
  destruct wallet_me as [-> Hne]. cbn [w_address].
  assert (∀ a, a ≠ "" → WebForms.handleSubmit (en_getTime E) X quiet_progress (en_sign E) (Some a) valid form =
    if negb valid then mret WebForms.ShownNothing
    else try_catch (WebForms.submit_form (en_getTime E) X quiet_progress (en_sign E) a form;; mret WebForms.ShownSuccess)
           (λ e, mret (WebForms.ShownError (exn_message e)))) as -> by (by intros []); [|exact Hne].
  destruct (negb valid); [apply keeps_ret|]. apply keeps_try_catch; [|intros e; apply keeps_ret].
  apply keeps_bind; [apply submit_form_keeps|intros _; apply keeps_ret].
Qed.

Lemma import_rows_keeps rows : ∀ i p s, sent_was_signed (world (rpc s)) →
  sent_was_signed (world (rpc (WebImport.import_rows (en_getTime E) X quiet_progress (en_sign E) me i rows p s).2)).
Proof.
  induction rows as [|row rows IH]; intros i p s Hs; cbn [WebImport.import_rows]; [exact Hs|].
  pose proof (import_row_keeps row s Hs) as H.
  destruct (WebImport.import_row (en_getTime E) X quiet_progress (en_sign E) me row s) as [[u|e] s']; by apply IH.
Qed.

(** An import leaves the network as it was, or as the turns of its rows leave it. *)
Lemma import_handled a q s : a ≠ "" →
  let handled := WebImport.handleStartImport (en_getTime E) X quiet_progress (en_sign E) (Some a) q s in
  handled.2 = s ∨ ∃ i rows p, handled.2 = (WebImport.import_rows (en_getTime E) X quiet_progress (en_sign E) a i rows p s).2.
Proof.
  intros Ha. unfold WebImport.handleStartImport. destruct a as [|c a]; [done|]. destruct (_ <? _); [by left|right].
  destruct (WebImport.import_rows _ _ _ _ _ _ _ _ s) as [p' s'] eqn:R. eexists _, _, _. exact (f_equal snd (eq_sym R)).
Qed.

Lemma start_import_keeps : page_keeps sent_was_signed start_import.
Proof.
  intros p Hp. unfold start_import. destruct wallet_me as [-> Hne]. cbn [w_address].
  enough (sent_was_signed (world (rpc (WebImport.handleStartImport (en_getTime E) X quiet_progress (en_sign E) (Some me)
    (ui p) (net p)).2))) as H.
  { destruct (WebImport.handleStartImport _ _ _ _ _ _ _) as [q s']. exact H. }
  destruct (import_handled me (ui p) (net p) Hne) as [->|(i&rows&q&->)]; [exact Hp|]. by apply import_rows_keeps.
Qed.

Lemma page_action_keeps {P} (m : M (Page W P) unit) : page_action m → page_keeps sent_was_signed m.
Proof.
  pose proof honest as HW. pose proof mock_keeps as Hmock. pose proof (λ u, quiet_signed _ (out_ledger _ HO u)) as Hledger.
  pose proof (λ url, quiet_signed _ (out_fetch _ HO url)) as Hfetch.
  assert (∀ xdr A (m : M W A), quiet m → keeps (ok_and_signed sent_was_signed signed_in xdr) m) as Hok.
  { intros xdr A m' Hm. apply quiet_keeps; [done|]. intros w w'. apply signed_in_apart. }
  destruct 1.
  - keep_page.
  - apply submit_new_invoice_keeps.
  - unfold load_max_amount, WebForms.load_max_amount, WebInvoice.getMaxInvoiceAmount.
    apply keeps_bind; [|intros n; apply set_ui_keeps]. apply on_rpc_keeps, rpc_or_else_keeps.
    keep_page.
  - unfold estimate_new_invoice, simulateContractCall. keep_page.
  - apply start_import_keeps.
  - eapply InvoicePage.invoice_action_keeps; [done..| |exact Hmock|done]. intros u n. apply quiet_signed, (out_events _ HO).
  - by eapply Portfolio.portfolio_action_keeps.
  - by eapply Portfolio.claim_keeps.
  - by eapply Portfolio.badge_action_keeps.
  - eapply InvestPages.invest_action_keeps; [done..| | |done]; intros; [apply quiet_signed|apply Hok]; apply (out_cells _ HO).
  - by eapply InvestPages.tranches_action_keeps.
  - eapply InvestPages.co_funding_action_keeps; [done..| |done]. intros. apply Hok, (out_tracked _ HO).
  - eapply InvestPages.market_action_keeps; [done..| |done]. intros. apply Hok, (out_tracked _ HO).
  - by eapply UserPages.governance_action_keeps.
  - eapply UserPages.jurors_action_keeps; [done..| |done]. intros n. apply quiet_signed, (out_random _ HO).
  - eapply UserPages.credit_action_keeps; [done|apply HW|done].
  - by eapply AdminRoles.roles_action_keeps.
  - by eapply AdminInvoices.admin_invoices_keeps.
  - by eapply AdminInvoices.defaults_keeps.
  - by eapply AdminInvoices.dashboard_keeps.
  - by eapply SmeDashboard.sme_action_keeps.
  - by eapply AdminSettings.yield_action_keeps.
  - by eapply AdminSettings.rates_action_keeps.
  - eapply AdminSettings.kyc_action_keeps; [done..| |done]. intros u n. apply quiet_signed, (out_deposits _ HO).
  - by eapply AdminSettings.insurance_action_keeps.
  - by eapply AdminSettings.tranche_config_keeps.
  - by eapply AdminSettings.liquidity_action_keeps.
  - eapply AdminReviews.compliance_action_keeps; [apply HW| |done]. intros url h. apply quiet_signed, (out_flags _ HO).
  - eapply AdminReviews.attestors_action_keeps; [apply HW|done].
  - eapply AdminReviews.oracles_action_keeps; [apply HW|done].
  - by eapply AdminReviews.admin_governance_keeps.
Qed.
End proof.

(** C3. The pages send what was signed. However one of the pages of [page_action] is
    used, which are all the pages that submit a transaction, every transaction that it
    has sent is one that the wallet returned as signed: a transaction that the user
    refused, or one that differs from what was signed, is never sent. (The mutations of
    lib/cache.ts, which submit what they are given, are used by no page.) *)
Theorem pages_send_what_was_signed {P} me (p q : Page W P) :
  address_of (en_wallet E) = Some me → outside me → used p q →
  sent_was_signed (world (rpc (net p))) → sent_was_signed (world (rpc (net q))).
Proof.
  intros Hme HO H Hp. induction H as [p|p q m _ IH Hm]; [done|].
  exact (keeps_total _ m q (page_action_keeps me HO Hme m Hm) (IH Hp)).
Qed.
End pages.
