(* ===== verification/PageSamples.v ===== *)
(** * The theorems of the pages at concrete inputs

    A network that remembers what was signed and what was sent, the pages' environment
    on it, and the theorems of the pages applied to it. *)
From S2P Require Import Prelude.
From S2P Require Import JsValue.
From S2P Require Import JsNumber.
From S2P Require Import Sdk.
From S2P Require Import Abi.
From S2P Require Import ContractAbi.
From S2P Require Import RpcPool.
From S2P Require Import Stellar.
From S2P Require Import Amounts.
From S2P Require Import WebAbi.
From S2P Require Import PageTx.
From S2P Require WebInvoice.
From S2P Require InvoicePage.
From S2P Require UserPages.
From S2P Require AdminRoles.
From S2P Require AdminInvoices.
From S2P Require SmeDashboard.
From S2P Require AdminSettings.
From S2P Require Import Pages.
#[local] Open Scope string_scope.
#[local] Open Scope list_scope.
#[local] Open Scope Z_scope.

(** ** A network *)

Record World := { w_time : Z; w_sent : list string; w_signed : list string }.

Definition waits {A} (ms : Z) (r : result A) : M World A :=
  λ w, (r, {| w_time := w_time w + ms; w_sent := w_sent w; w_signed := w_signed w |}).

Definition server : Server World string string jsval := {|
  getAccount a := waits 10 (if isStellarAddress a then Ok a else Throw (EError "invalid encoded string"));
  simulateTransaction tx := waits 20 (Ok (SimSuccess JNull));
  sendTransaction tx := λ w, (Ok {| send_status := "PENDING"; send_hash := "h" |},
    {| w_time := w_time w + 30; w_sent := tx :: w_sent w; w_signed := w_signed w |});
  getTransaction h := waits 40 (Ok "SUCCESS") |}.

Definition chain : Chain World := {|
  ch_server := λ _, server; ch_now := w_time; ch_sleep := λ ms, waits (Z.max 0 ms) (Ok tt); ch_network := "Test";
  ch_id := λ _, "C"; ch_build := λ account _ _ method _, Ok (account +:+ "/" +:+ method);
  ch_assemble := λ tx _, Ok tx; ch_fromXDR := λ xdr _, Ok xdr; ch_scValToNative := λ v, v;
  ch_hash := λ tx, Some (inl tx); ch_balances := λ _, None; ch_error_members := λ e, [("error", JStr e)];
  ch_send_members := λ r, [("status", JStr (send_status r))] |}.

(** The wallet signs, and remembers it. *)
Definition sign (xdr network address : string) : M World (string * option string) := λ w,
  (Ok (xdr +:+ " signed", None), {| w_time := w_time w; w_sent := w_sent w; w_signed := (xdr +:+ " signed") :: w_signed w |}).

Definition GA : string := "GAAZI4TCR3TY5OJHCTJC2A4QSY6CJWJH5IAJTGKIN2ER7LBNVKOCCWNA".
Definition wallet : Wallet := {| w_address := Some GA; w_connected := true |}.

(** What the samples do not call answers at once. *)
Definition nothing {A} : M World A := waits 0 (Throw (EError "not reachable")).
Definition to_int (v : jsval) : result Z :=
  match v with JBig n | JNum n => Ok n | _ => Throw (ETypeError "not an integer") end.
Definition to_addr (v : jsval) : result string :=
  match v with JStr s => Ok s | _ => Throw (ETypeError "not an address") end.
Definition u32 (n : number) : result Z :=
  match num_to_Z n with
  | Some z => if (0 <=? z) && (z <? 2 ^ 32) then Ok z else Throw (EError "not a u32")
  | None => Throw (EError "not a u32")
  end.
Definition text (key : string) : string := key.
Definition texts (key : string) (values : list (string * string)) : string := key.

Definition environment : Environment (Val := jsval) chain := {|
  en_wallet := wallet; en_sign := sign; en_mock := None; en_getLatestLedger := λ _, nothing; en_getEvents := λ _ _, nothing;
  en_getDeposits := λ _ _, nothing; en_fetch := λ _, nothing; en_fetchFlags := λ _ _, nothing;
  en_getRandomValues := λ _, nothing; en_set_cells := λ _, waits 0 (Ok tt); en_tracked := λ _ _, waits 0 (Ok tt);
  en_hook := Throw (EError "Invalid hook call."); en_scValToNative := λ v, Ok v; en_sha256 := text;
  en_local_full := false; en_session_full := false; en_u32 := u32; en_to_u64 := to_int; en_to_i128 := to_int;
  en_to_address := to_addr; en_USDC := ""; en_stablecoins := {| USDC_TOKEN_ID := ""; EURC_TOKEN_ID := ""; USDT_TOKEN_ID := ""; USDP_TOKEN_ID := "" |};
  en_INDEXER_URL := ""; en_COMPLIANCE_URL := ""; en_admin_token := ""; en_text := text; en_texts := texts;
  en_formatUSDC := λ _, ""; en_numberText := λ _, ""; en_intText := λ _, ""; en_toFixed2 := λ _, "";
  en_stablecoinLabel := text; en_form_encode := text; en_getTime := λ _, NaN |}.

Lemma waits_quiet {A} ms (r : result A) : quiet chain w_sent w_signed (waits ms r).
Proof. intros a b w [Ha Hb]. by destruct r. Qed.

Lemma environment_outside : outside chain environment w_sent w_signed GA.
Proof.
  split; try (intros; exact (waits_quiet _ _)).
  - intros a b. split; intros; exact (waits_quiet _ _ a b).
  - intros xdr a b w [Ha Hb]. right. cbn. by rewrite Ha, Hb.
  - intros xdr w signedXdr w' [= <- <-]. cbn. by left.
  - intros tx u a b may_send w [Ha Hb]. cbn. split; [right; exact (f_equal (cons tx) Ha)|exact Hb].
  - done.
Qed.

Definition new_world : World := {| w_time := 0; w_sent := []; w_signed := [] |}.
Definition new_net : Submitting (W := World) := {|
  rpc := Build_Rpc (initPool ["https://a"; "https://b"] 0) new_world; pendingTransactions := ∅ |}.
Definition new_page {P} (s : P) : Page World P := {| ui := s; toasts := []; net := new_net |}.
Definition sent_by {P} (p : Page World P) : list string := w_sent (world (rpc (net p))).

#[local] Transparent query query_or build prepare send read.

(** ** The yield of the pool *)

Definition yield_form (entered : string) : AdminSettings.YieldState := {|
  AdminSettings.ys_poolConfig := None; AdminSettings.ys_newYield := entered; AdminSettings.ys_newFactoringFee := entered;
  AdminSettings.ys_loading := false; AdminSettings.ys_txLoading := false; AdminSettings.ys_rateTokens := [];
  AdminSettings.ys_rateToken := ""; AdminSettings.ys_currentModel := None; AdminSettings.ys_baseRate := "2";
  AdminSettings.ys_kinkUtil := "80"; AdminSettings.ys_slope1 := "6"; AdminSettings.ys_slope2 := "24";
  AdminSettings.ys_maxRate := "50" |}.

Definition submit_yield : M (Page World AdminSettings.YieldState) unit :=
  AdminSettings.handleYieldSubmit chain sign texts (λ _, "") wallet.
Definition yield_page : Page World AdminSettings.YieldState := new_page (yield_form "5.25").

Example yield_sent : sent_by (submit_yield yield_page).2 = [GA +:+ "/set_yield signed"].
Proof. vm_compute. reflexivity. Qed.

Lemma pages_send_what_was_signed_witness :
  sent_by (submit_yield yield_page).2 ≠ [] ∧
  sent_was_signed chain w_sent w_signed (world (rpc (net (submit_yield yield_page).2))).
Proof.
  split; [by vm_compute|].
  apply (pages_send_what_was_signed chain environment w_sent w_signed GA yield_page).
  - reflexivity.
  - exact environment_outside.
  - apply used_more; [constructor|]. apply on_yield, AdminSettings.ys_act_yield.
  - intros tx Htx. by apply elem_of_nil in Htx.
Defined.

Lemma percentages_in_range_witness :
  net (submit_yield yield_page).2 ≠ net yield_page ∧
  ∃ admin n, address_of wallet = Some admin ∧ 0 ≤ n ≤ 5000 ∧
    bigint_of_number (AdminSettings.percent_bps "5.25") = Ok n ∧ n = 525.
Proof.
  assert (net (submit_yield yield_page).2 ≠ net yield_page) as Hnet.
  { intros E. apply (f_equal (λ n : Submitting, w_sent (world (rpc n)))) in E. by vm_compute in E. }
  split; [exact Hnet|].
  destruct (proj1 (AdminSettings.percentages_in_range chain sign texts (λ _, "") wallet yield_page
    (submit_yield yield_page).1 (submit_yield yield_page).2 Hnet)) as (admin&n&Ha&Hn&Eb&_); [apply surjective_pairing|].
  exists admin, n. split_and!; [exact Ha|apply Hn|apply Hn|exact Eb|].
  assert (bigint_of_number (AdminSettings.percent_bps "5.25") = Ok 525) as E by (by vm_compute).
  change (bigint_of_number (AdminSettings.percent_bps "5.25") = Ok n) in Eb. rewrite E in Eb. by injection Eb.
Defined.

(** ** An invoice *)

Definition invoice : jsval :=
  JObj [("id", JNum 7); ("owner", JStr GA); ("amount", JBig 1000); ("status", JArr [JStr "Funded"])].

Definition raw_metadata : jsval :=
  JObj [("amount", JBig 1000); ("debtor", JStr "d"); ("decimals", JNum 7); ("description", JStr "");
        ("due_date", JBig 0); ("image", JStr ""); ("name", JStr "Invoice 7"); ("status", JArr [JStr "Funded"]);
        ("symbol", JStr "INV")].

Definition metadata : Fields := decoded WebInvoice.metadata_fields raw_metadata.

(** Funded for a year at 5 %. *)
Definition funded : Fields :=
  [("principal", VBig 1000); ("factoringFee", VBig 10); ("repaidAmount", VBig 0); ("fundedAt", VNum (num_of_Z 0));
   ("dueDate", VNum (num_of_Z (365 * 86400)))].
Definition config : Fields := [("yieldBps", VNum (num_of_Z 500))].

Definition invoice_view (entered : string) : InvoicePage.InvoiceView := {|
  InvoicePage.iv_invoice := Some invoice; InvoicePage.iv_metadata := Some metadata;
  InvoicePage.iv_poolConfig := Some config; InvoicePage.iv_fundedInvoice := Some funded; InvoicePage.iv_history := [];
  InvoicePage.iv_loading := false; InvoicePage.iv_error := None; InvoicePage.iv_historyLoading := false;
  InvoicePage.iv_historyError := None; InvoicePage.iv_actionLoading := false; InvoicePage.iv_repayAmount := entered;
  InvoicePage.iv_disputeModalOpen := false; InvoicePage.iv_disputeReason := "";
  InvoicePage.iv_defaultDisputeModalOpen := false; InvoicePage.iv_defaultDisputeEvidence := "";
  InvoicePage.iv_defaultDisputeRespondent := ""; InvoicePage.iv_disputeRecord := None;
  InvoicePage.iv_arbitrationCase := None; InvoicePage.iv_arbitrationEvidence := []; InvoicePage.iv_newEvidenceHash := "";
  InvoicePage.iv_collateralConfig := None; InvoicePage.iv_collateralDeposit := None;
  InvoicePage.iv_liveCollateralRatioBps := None; InvoicePage.iv_collateralRiskConfig := None;
  InvoicePage.iv_atRiskSince := None; InvoicePage.iv_collateralAmount := ""; InvoicePage.iv_collateralLoading := false;
  InvoicePage.iv_collateralModalOpen := false; InvoicePage.iv_acceptedTokens := [];
  InvoicePage.iv_collateralToken := ""; InvoicePage.iv_crossAssetRequiredAmount := None;
  InvoicePage.iv_crossAssetPriceLoading := false; InvoicePage.iv_isPrivate := false;
  InvoicePage.iv_privacyLoading := false; InvoicePage.iv_creditScore := None; InvoicePage.iv_coFundingRound := None;
  InvoicePage.iv_commitAmount := ""; InvoicePage.iv_commitLoading := false |}.

Definition invoice_page (entered : string) : Page World InvoicePage.InvoiceView := new_page (invoice_view entered).
Definition repay : M (Page World InvoicePage.InvoiceView) unit :=
  InvoicePage.handleRepay chain sign None (λ v : jsval, Ok v) (λ _, "") (λ _, nothing) (λ _ _, nothing) "" wallet "7".

Example due_of_sample : InvoicePage.remainingDue (invoice_view "") = Ok 1060.
Proof. vm_compute. reflexivity. Qed.
Example repaid_in_full : sent_by (repay (invoice_page "")).2 = [GA +:+ "/repay_invoice signed"].
Proof. vm_compute. reflexivity. Qed.
Example too_much_is_refused : sent_by (repay (invoice_page "1061")).2 = [].
Proof. vm_compute. reflexivity. Qed.

Lemma repay_within_due_witness :
  ∃ due amount, InvoicePage.remainingDue (invoice_view "60") = Ok due ∧ 0 < amount ≤ due ∧ due = 1060.
Proof.
  assert (net (repay (invoice_page "60")).2 ≠ net (invoice_page "60")) as Hnet.
  { intros E. apply (f_equal (λ n : Submitting, w_sent (world (rpc n)))) in E. by vm_compute in E. }
  destruct (InvoicePage.repay_within_due chain sign None (λ v : jsval, Ok v) (λ _, "") (λ _, nothing) (λ _ _, nothing) ""
    wallet "7" (invoice_page "60") (repay (invoice_page "60")).1 (repay (invoice_page "60")).2
    (surjective_pairing _) Hnet) as (address&inv&due&amount&_&_&Hd&Ha&_).
  exists due, amount. split; [exact Hd|]. split; [exact Ha|].
  assert (InvoicePage.remainingDue (invoice_view "60") = Ok 1060) as E by (by vm_compute).
  change (InvoicePage.remainingDue (invoice_view "60") = Ok due) in Hd. rewrite E in Hd. by injection Hd.
Defined.

Lemma invoice_page_breaks_witness :
  native Invoice_InvoiceMetadata raw_metadata = true ∧
  InvoicePage.render wallet (invoice_view "") = Throw (ETypeError "metadata.status.toLowerCase is not a function").
Proof.
  assert (native Invoice_InvoiceMetadata raw_metadata = true) as Hn by (by vm_compute). split; [exact Hn|].
  exact (proj1 (InvoicePage.invoice_page_breaks wallet (invoice_view "") invoice raw_metadata metadata Hn
                  (WebInvoice.web_reads_metadata raw_metadata Hn) eq_refl eq_refl eq_refl eq_refl eq_refl)).
Defined.

(** ** A batch *)

Definition to_fund (id : Z) (token : jsval) : jsval :=
  JObj [("id", JNum id); ("owner", JStr GA); ("amount", JBig 1000); ("dueDate", JNum 5); ("poolContract", token)].

(** The second invoice has no token, and fails. *)
Definition invoices_state : AdminInvoices.AdminInvoicesState := {|
  AdminInvoices.ai_invoices := [to_fund 1 (JStr GA); to_fund 2 JUndef; to_fund 3 (JStr GA)];
  AdminInvoices.ai_loading := false; AdminInvoices.ai_loadingMore := false; AdminInvoices.ai_actionLoading := None;
  AdminInvoices.ai_totalCount := 3; AdminInvoices.ai_availableLiquidity := Some 5000; AdminInvoices.ai_scannedCount := 3;
  AdminInvoices.ai_modal := None; AdminInvoices.ai_activeTab := AdminInvoices.tab_funding;
  AdminInvoices.ai_selected := [JNum 1; JNum 2; JNum 3]; AdminInvoices.ai_batchRunning := false;
  AdminInvoices.ai_batchProgress := None; AdminInvoices.ai_batchResults := ∅; AdminInvoices.ai_batchInvoices := [] |}.

Definition fund_selected : M (Page World AdminInvoices.AdminInvoicesState) unit :=
  AdminInvoices.handleBatchFunding chain sign None to_int to_int to_addr texts wallet.

Example batch_results :
  AdminInvoices.batchSummary (ui (fund_selected (new_page invoices_state)).2) = (2%nat, 1%nat).
Proof. vm_compute. reflexivity. Qed.

Lemma batch_tries_every_invoice_witness :
  AdminInvoices.selectedInvoices invoices_state ≠ [] ∧
  ∃ rs n, AdminInvoices.tried_all chain sign to_int to_int to_addr GA (AdminInvoices.selectedInvoices invoices_state) new_net rs n ∧
    AdminInvoices.ai_batchResults (ui (fund_selected (new_page invoices_state)).2) =
      AdminInvoices.results_by_id (AdminInvoices.selectedInvoices invoices_state) rs.
Proof.
  assert (AdminInvoices.selectedInvoices invoices_state ≠ []) as H by done. split; [exact H|].
  pose proof (AdminInvoices.batch_tries_every_invoice chain sign None to_int to_int to_addr texts wallet GA
                (new_page invoices_state) eq_refl H) as Hb. cbv zeta in Hb. fold fund_selected in Hb.
  destruct (fund_selected (new_page invoices_state)) as [r p']. destruct Hb as (_&(rs&q&Ht&Hr&_)&_).
  exists rs, (net q). split; [exact Ht|exact Hr].
Defined.

(** ** A vote *)




(** ** The roles *)

Lemma untouched_choices_are_reversed_witness :
  map (AdminRoles.shown ∅) (AdminRoles.ActionFields "SetPaused") = ["true"] ∧
  ∃ p, AdminRoles.buildActionPayload u32 ∅ "SetPaused" = Ok (Some p) ∧
    AdminRoles.proposed_scval p = ArgVec [ArgSymbol "SetPaused"; ArgBool false].
Proof.
  apply (proj1 (AdminRoles.untouched_choices_are_reversed u32 ∅) "SetPaused"); [left|by vm_compute].
Defined.

(** ** The borrower's dashboard

    A network that has 45 invoices, all of them the wallet's own. *)

Definition reading : Server World string string jsval := {|
  getAccount a := waits 10 (Ok a);
  simulateTransaction tx := waits 20 (Ok (SimSuccess (
    if String.eqb tx (PLACEHOLDER +:+ "/get_invoice_count") then JNum 45
    else if String.eqb tx (PLACEHOLDER +:+ "/get_invoice") then invoice else raw_metadata)));
  sendTransaction tx := nothing; getTransaction h := nothing |}.

Definition reading_chain : Chain World := {|
  ch_server := λ _, reading; ch_now := w_time; ch_sleep := λ ms, waits (Z.max 0 ms) (Ok tt); ch_network := "Test";
  ch_id := λ _, "C"; ch_build := λ account _ _ method _, Ok (account +:+ "/" +:+ method);
  ch_assemble := λ tx _, Ok tx; ch_fromXDR := λ xdr _, Ok xdr; ch_scValToNative := λ v, v;
  ch_hash := λ tx, Some (inl tx); ch_balances := λ _, None; ch_error_members := λ e, [("error", JStr e)];
  ch_send_members := λ r, [("status", JStr (send_status r))] |}.

Lemma prompt_call {A} (fn : string → M World A) x s :
  (∀ u w, ∃ w', fn u w = (Ok x, w') ∧ w_time w' - w_time w < requestTimeout) →
  ∃ s', Stellar.rpcExecute reading_chain fn s = (Ok x, s').
Proof.
  intros Hfn. unfold Stellar.rpcExecute, RpcPool.rpcExecute, execute. change maxRetries with (S (maxRetries - 1)). cbn [attempts].
  unfold attempt, try_catch, get_connection, on_pool, modify, read_object, lift_world, race, mbind, M_bind, mret, M_ret.
  destruct (getConnection _ _) as [conn P]. cbn beta iota. cbn [pool world].
  match goal with |- context [fn ?u ?w] => destruct (Hfn u w) as (w'&E&Ht) end.
  rewrite E. change (ch_now reading_chain) with w_time. rewrite (proj2 (Z.ltb_lt _ _) Ht). by eexists.
Qed.

Lemma eqb_after p a b : String.eqb (p +:+ a) (p +:+ b) = String.eqb a b.
Proof. induction p as [|c p IH]; [done|]. rewrite !append_cons. cbn [String.eqb]. by rewrite Ascii.eqb_refl, IH. Qed.

Lemma reading_answers (method : string) (args : list ScArg) A (dec : jsval → result A) x s :
  dec (if String.eqb method "get_invoice_count" then JNum 45
       else if String.eqb method "get_invoice" then invoice else raw_metadata) = Ok x →
  ∃ s', query reading_chain (Of Invoice) method args PLACEHOLDER dec s = (Ok x, s').
Proof.
  intros Hdec. unfold query, read, mbind, M_bind, Stellar.simulateTx.
  edestruct (prompt_call (simulate_on reading_chain PLACEHOLDER (Of Invoice) method args)) as [s' ->].
  { intros u w. unfold simulate_on. cbn. eexists. split; [reflexivity|]. cbn. unfold requestTimeout. lia. }
  cbn [retval lift_result ch_scValToNative reading_chain].
  change (PLACEHOLDER +:+ "/get_invoice_count") with (PLACEHOLDER +:+ ("/" +:+ "get_invoice_count")).
  change (PLACEHOLDER +:+ "/get_invoice") with (PLACEHOLDER +:+ ("/" +:+ "get_invoice")).
  rewrite !eqb_after, Hdec. by eexists.
Qed.

Definition dashboard_state : SmeDashboard.SmeState := {|
  SmeDashboard.da_invoices := []; SmeDashboard.da_committed := ∅; SmeDashboard.da_loading := true;
  SmeDashboard.da_loadingMore := false; SmeDashboard.da_showOnboarding := false; SmeDashboard.da_isScoreStale := false;
  SmeDashboard.da_scoreFactors := None; SmeDashboard.da_tab := SmeDashboard.tab_borrower; SmeDashboard.da_search := "";
  SmeDashboard.da_debounced := ""; SmeDashboard.da_statusFilters := []; SmeDashboard.da_sort := SmeDashboard.created_desc;
  SmeDashboard.da_page := 0; SmeDashboard.da_hydrated := true; SmeDashboard.da_viewMode := SmeDashboard.view_list;
  SmeDashboard.da_total := 0; SmeDashboard.da_scanned := 0 |}.

Definition a_dashboard : Page World SmeDashboard.SmeState :=
  (SmeDashboard.load_sme reading_chain None (λ _, nothing) "" text to_int text wallet (new_page dashboard_state)).2.
Definition next_page : M (Page World SmeDashboard.SmeState) unit :=
  SmeDashboard.rerender reading_chain None (λ _, nothing) "" text to_int text wallet
    (SmeDashboard.next_page reading_chain None to_int wallet).

Example twenty_are_listed :
  length (SmeDashboard.da_invoices (ui a_dashboard)) = 20%nat ∧
  match SmeDashboard.listing (ui a_dashboard) with Ok (SmeDashboard.Cards l prev next) => length l = 20%nat ∧ next = true | _ => False end.
Proof. vm_compute. by repeat split. Qed.

Lemma next_page_is_blank_witness :
  w_connected wallet = true ∧
  let s := ui (next_page a_dashboard).2 in
  SmeDashboard.da_page s = 1%nat ∧ length (SmeDashboard.da_invoices s) = 20%nat ∧ SmeDashboard.pagedItems s = Ok [].
Proof.
  split; [reflexivity|].
  assert (∀ ids s, ∃ s', WebInvoice.getMultipleInvoices reading_chain None ids s = (Ok (map (λ _, invoice) ids), s')) as Hinv.
  { intros ids s. assert (∀ ids s, ∃ s', mapM (WebInvoice.getInvoice reading_chain None) ids s = (Ok (map (λ _, invoice) ids), s')) as Hm.
    { clear ids s. intros ids. induction ids as [|id ids IH]; intros s; [by eexists|]. cbn [mapM map].
      assert (∃ s1, WebInvoice.getInvoice reading_chain None id s = (Ok invoice, s1)) as [s1 E1]
        by exact (reading_answers "get_invoice" [ArgU64 id] _ as_raw invoice s eq_refl).
      destruct (IH s1) as [s2 E2]. exists s2. unfold mbind, M_bind in E2 |- *. rewrite E1. by rewrite E2. }
    unfold WebInvoice.getMultipleInvoices. destruct ids; [by eexists|apply Hm]. }
  destruct (SmeDashboard.next_page_is_blank reading_chain None to_int text wallet (λ _, invoice) (λ _, metadata) 45
    (λ ids s _, Hinv ids s)
    (λ id s _, reading_answers "get_metadata" [ArgU64 id] _ WebInvoice.metadataFromRaw metadata s eq_refl)
    (λ id, ex_intro _ (JStr GA) eq_refl) (λ _, nothing) "" text (Zle_0_nat 45) (conj (Zle_0_nat 45) eq_refl)
    (λ s, reading_answers "get_invoice_count" [] _ as_number (num_of_Z 45) s eq_refl) a_dashboard) as (Hp&Hi&Hb).
  - by vm_compute.
  - reflexivity.
  - split; [by vm_compute|]. split; [by vm_compute|]. by vm_compute.
  - by vm_compute.
  - split; [exact Hp|]. split; [|exact Hb]. unfold next_page. rewrite Hi. by vm_compute.
Defined.
