(* ===== verification/ChainSamples.v ===== *)
(** * The theorems of the web application's calls at concrete inputs

    A chain whose servers keep a clock and a log of the calls, with their several
    answers, and the theorems of ReadQueue.v, RpcPool.v, Stellar.v, Amounts.v and
    WebConform.v applied to it; the history of a wallet and an import of three rows on
    the same chain. *)
From S2P Require Import Prelude.
From S2P Require Import JsValue.
From S2P Require Import JsNumber.
From S2P Require Import Sdk.
From S2P Require Import Abi.
From S2P Require Import ContractAbi.
From S2P Require Import ReadQueue.
From S2P Require Import RpcPool.
From S2P Require Import Stellar.
From S2P Require Import Amounts.
From S2P Require Import WebAbi.
From S2P Require WebPool.
From S2P Require WebKyc.
From S2P Require Import WebConform.
From S2P Require WebHistory.
From S2P Require WebImport.
#[local] Open Scope string_scope.
#[local] Open Scope list_scope.
#[local] Open Scope Z_scope.

(** ** A chain *)

(** The time, and what was asked of the servers. *)
Definition World : Type := Z * list string.

(** A call that is logged and takes [ms]. *)
Definition call {A} (entry : string) (ms : Z) (r : result A) : M World A :=
  λ w, (r, (w.1 + ms, w.2 ++ [entry])).

(** Accounts exist at every address that is one; a simulation is answered with [v], a
    submission with [status], and a transaction is found in the state [found]. *)
Definition sample_server (v : jsval) (status found : string) : Server World string string jsval := {|
  getAccount a := call "getAccount" 10 (if isStellarAddress a then Ok a else Throw (EError "invalid encoded string"));
  simulateTransaction tx := call "simulateTransaction" 20 (Ok (SimSuccess v));
  sendTransaction tx := call "sendTransaction" 30 (Ok {| send_status := status; send_hash := "h" |});
  getTransaction h := call "getTransaction" 40 (Ok found) |}.

Definition sample_chain (v : jsval) (status found : string) : Chain World := {|
  ch_server := λ _, sample_server v status found;
  ch_now := fst; ch_sleep := λ ms w, (Ok tt, (w.1 + Z.max 0 ms, w.2)); ch_network := "Test"; ch_id := λ _, "C";
  ch_build := λ account _ _ method _, Ok (account +:+ "/" +:+ method);
  ch_assemble := λ tx _, Ok tx; ch_fromXDR := λ xdr _, Ok xdr; ch_scValToNative := λ v, v;
  ch_hash := λ tx, Some (inl tx); ch_balances := λ _, None; ch_error_members := λ e, [("error", JStr e)];
  ch_send_members := λ r, [("status", JStr (send_status r))] |}.

Definition GA : string := "GAAZI4TCR3TY5OJHCTJC2A4QSY6CJWJH5IAJTGKIN2ER7LBNVKOCCWNA".

Definition fresh : Rpc (W := World) := Build_Rpc (initPool ["https://a"; "https://b"] 0) (0, []).

#[local] Transparent query query_or build prepare.

Example claim_yield_built :
  (WebPool.buildClaimYieldTx (sample_chain JNull "PENDING" "SUCCESS") GA "CT" fresh).1 = Ok (GA +:+ "/claim_yield").
Proof. vm_compute. reflexivity. Qed.

Lemma web_calls_conform_witness :
  web_call (λ X : Chain World, WebPool.buildClaimYieldTx X GA "CT") ∧
  WebPool.buildClaimYieldTx (checked (sample_chain JNull "PENDING" "SUCCESS")) GA "CT" fresh =
  WebPool.buildClaimYieldTx (sample_chain JNull "PENDING" "SUCCESS") GA "CT" fresh.
Proof.
  assert (web_call (λ X : Chain World, WebPool.buildClaimYieldTx X GA "CT")) as H by (apply of_pool; constructor).
  split; [exact H|].
  exact (web_calls_conform (λ X, WebPool.buildClaimYieldTx X GA "CT") (sample_chain JNull "PENDING" "SUCCESS") fresh H).
Defined.

Lemma web_calls_lost_witness :
  web_lost (λ X : Chain World, WebPool.buildDepositTx X GA "CT" 5) ∧
  ∃ e s', WebPool.buildDepositTx (checked (sample_chain JNull "PENDING" "SUCCESS")) GA "CT" 5 fresh = (Throw e, s').
Proof.
  assert (web_lost (λ X : Chain World, WebPool.buildDepositTx X GA "CT" 5)) as H by (apply lost_pool; constructor).
  split; [exact H|].
  exact (web_calls_lost (λ X, WebPool.buildDepositTx X GA "CT" 5) (sample_chain JNull "PENDING" "SUCCESS") fresh H).
Defined.


Lemma placeholder_reads_nothing_witness :
  (∀ u, strict_accounts (ch_server (sample_chain (JBool true) "PENDING" "SUCCESS") u)) ∧
  (∃ e s', WebPool.getKycRequired (sample_chain (JBool true) "PENDING" "SUCCESS") fresh = (Throw e, s')) ∧
  ∃ s', WebPool.getTreasuryAddress (sample_chain (JBool true) "PENDING" "SUCCESS") fresh = (Ok None, s').
Proof.
  assert (∀ u, strict_accounts (ch_server (sample_chain (JBool true) "PENDING" "SUCCESS") u)) as H.
  { intros u address w Ha. cbn. unfold call. rewrite Ha. by eexists _, _. }
  split; [exact H|]. split.
  - apply (placeholder_reads_nothing _ H (λ X, WebPool.getKycRequired X) throws).
    apply (from_listed _ truthy), reads_pool. constructor.
  - apply (placeholder_reads_nothing _ H (λ X, WebPool.getTreasuryAddress X) (λ _, Some None)). constructor.
Defined.

(** ** The queue of reads *)

(** Reads that start and end at once. *)
Definition read_turns (i : nat) : list turn := [Ask i; Settle 0; Microtask].
Definition ten_reads : list turn := concat (map read_turns (seq 0 10)).

Definition after (l : list turn) : Rq := default (initial 0) (steps l (initial 0)).

Lemma after_reachable l : steps l (initial 0) ≠ None → reachable (initial 0) (after l).
Proof.
  intros H. unfold after. destruct (steps l (initial 0)) as [s|] eqn:E; [|done].
  by eapply steps_reachable; [constructor|exact E].
Qed.

(** Ten reads have run within a second; the eleventh waits. *)
Definition busy_second : Rq := after (ten_reads ++ [Ask 10]).
(** Five reads run. *)
Definition five_reads : Rq := after (map Ask (seq 0 5)).

Lemma read_limits_witness :
  reachable (initial 0) busy_second ∧ lengthZ (started busy_second) = 10 ∧
  lengthZ (running busy_second) ≤ maxConcurrent ∧ map fst (started busy_second) `prefix_of` asked busy_second ∧
  ∀ i r a r' b, started busy_second !! i = Some (r, a) → started busy_second !! (i + 10)%nat = Some (r', b) →
    a + windowMs ≤ b.
Proof.
  assert (reachable (initial 0) busy_second) as H by (apply after_reachable; vm_compute; discriminate).
  split; [exact H|]. split; [vm_compute; reflexivity|]. exact (read_limits 0 busy_second H).
Defined.

Lemma rate_wait_bounded_witness :
  rpcReadQueue busy_second = [10%nat] ∧
  ∃ n due, timers busy_second !! n = Some due ∧ due ≤ clock busy_second + windowMs ∧
    ∀ ms, 0 ≤ ms → due ≤ clock busy_second + ms →
      ∃ s', steps [Tick ms; Fire n] busy_second = Some s' ∧ (10%nat, clock busy_second + ms) ∈ started s'.
Proof.
  split; [vm_compute; reflexivity|].
  apply (rate_wait_bounded 0 busy_second 10%nat []);
    [apply after_reachable; vm_compute; discriminate|vm_compute; reflexivity|vm_compute; reflexivity|vm_compute; reflexivity].
Defined.

Lemma sixth_read_freezes_witness :
  let s' := default (initial 0) (steps (Ask 5 :: [Microtask; Tick 5000; Microtask; Microtask]) five_reads) in
  lengthZ (running five_reads) = maxConcurrent ∧ idle s' = false ∧ started s' = started five_reads ∧
  (∀ n, step (Settle n) s' = None) ∧ (∀ n, step (Fire n) s' = None).
Proof.
  split; [vm_compute; reflexivity|].
  apply (sixth_read_freezes 0 five_reads 5 [Microtask; Tick 5000; Microtask; Microtask]);
    [apply after_reachable; vm_compute; discriminate|vm_compute; reflexivity| vm_compute; reflexivity
    |vm_compute; reflexivity|repeat constructor|vm_compute; reflexivity].
Defined.

(** A test that resolves what the first read waits for sees the sixth start. *)
Example resolved_read_is_followed :
  map fst (started (default (initial 0) (steps [Ask 5; Resolve 0; Microtask; Microtask] five_reads))) = seq 0 6.
Proof. vm_compute. reflexivity. Qed.

(** ** The pool of connections *)

Definition pool_history : list (Z * RpcPool.event) :=
  [(1, Begin); (2, Begin); (3, Recycle 0); (4, Begin); (5, End 0 true)].

Lemma in_flight_counts_witness :
  ∃ P calls, pool_steps ["https://a"; "https://b"] pool_history (initPool ["https://a"; "https://b"] 0, []) = Some (P, calls) ∧
    connections P = [3; 1; 2]%nat ∧ calls = [1; 3]%nat ∧
    ∀ r, r ∈ connections P → inFlightRequests (object P r) = occurrences r calls.
Proof.
  eexists _, _. split; [vm_compute; reflexivity|]. split; [reflexivity|]. split; [reflexivity|].
  refine (in_flight_counts ["https://a"; "https://b"] 0 pool_history _ _ _). vm_compute. reflexivity.
Defined.

(** A function that counts its calls and fails. *)
Definition failing : string → M World unit := λ _, call "x" 1 (Throw (EError "fetch failed")).

Lemma sample_sleep ms (w : World) : ∃ w', ch_sleep (sample_chain JNull "" "") ms w = (Ok tt, w').
Proof. by eexists. Qed.

Example failing_calls :
  (execute fst (ch_sleep (sample_chain JNull "" "")) failing fresh).1 = Throw (EError "fetch failed").
Proof. vm_compute. reflexivity. Qed.

Lemma execute_spec_witness :
  counted (pool fresh) ∧
  let '(r, s') := execute fst (ch_sleep (sample_chain JNull "" "")) failing (Build_Rpc (pool fresh) (0, [])) in
  r = Throw (EError "fetch failed") ∧ lengthZ (world s').2 = 3 ∧
  (∃ k, calls_made fst (ch_sleep (sample_chain JNull "" "")) failing 0 k (pool fresh) (0, []) r (pool s') (world s') ∧
     (k <= 3)%nat ∧ ((∃ e, r = Throw e) → k = 3%nat)) ∧
  connections (pool s') = connections (pool fresh) ∧
  (∀ i, (i < length (objects (pool fresh)))%nat →
     inFlightRequests (object (pool s') i) = inFlightRequests (object (pool fresh) i)).
Proof.
  assert (counted (pool fresh)) as Hc by (vm_compute; repeat constructor; discriminate).
  split; [exact Hc|].
  pose proof (execute_spec fst (ch_sleep (sample_chain JNull "" "")) sample_sleep failing (pool fresh) (0, []) Hc) as H.
  destruct (execute _ _ _ _) as [r s'] eqn:E.
  split; [apply (f_equal fst) in E; vm_compute in E; by subst r|].
  split; [apply (f_equal (λ x, (world x.2).2)) in E; cbn [snd] in E; rewrite <- E; vm_compute; reflexivity|exact H].
Defined.

(** ** Submission *)

Definition quiet : TransactionProgress → M World unit := λ _ w, (Ok tt, w).
Definition idle_submitter : Submitting (W := World) := {| rpc := fresh; pendingTransactions := {["other"]} |}.
Definition busy_submitter : Submitting (W := World) := {| rpc := fresh; pendingTransactions := {["tx"]} |}.

Example submitted :
  let '(r, s') := submitTx (sample_chain JNull "PENDING" "SUCCESS") "tx" quiet idle_submitter in
  r = Ok "SUCCESS" ∧ (world (rpc s')).2 = ["sendTransaction"; "getTransaction"].
Proof. vm_compute. split; reflexivity. Qed.

Lemma submit_exclusive_witness :
  let '(r, s') := submitTx (sample_chain JNull "PENDING" "SUCCESS") "tx" quiet busy_submitter in
  ("tx" ∈ pendingTransactions busy_submitter →
     r = Throw (EError "Transaction already in progress") ∧ s' = busy_submitter) ∧
  ("tx" ∉ pendingTransactions busy_submitter →
     pendingTransactions s' = pendingTransactions busy_submitter ∧
     (r, rpc s') = rpcExecute (sample_chain JNull "PENDING" "SUCCESS")
                     (send_and_wait (sample_chain JNull "PENDING" "SUCCESS") quiet "tx") (rpc busy_submitter)).
Proof.
  exact (submit_exclusive (sample_chain JNull "PENDING" "SUCCESS") "tx" quiet "tx" busy_submitter eq_refl).
Defined.

(** Only submissions are counted. *)
Definition sends (w : World) : Z := lengthZ (List.filter (String.eqb "sendTransaction") w.2).

Lemma sends_call {A} entry ms (r : result A) w :
  sends (call entry ms r w).2 = sends w + if String.eqb "sendTransaction" entry then 1 else 0.
Proof.
  unfold sends, call, lengthZ. cbn [snd fst]. rewrite List.filter_app, length_app. cbn [List.filter].
  destruct (String.eqb "sendTransaction" entry); cbn; lia.
Qed.

Lemma failed_submission_sent_thrice_witness :
  ∃ e s', submitTx (sample_chain JNull "ERROR" "SUCCESS") "tx" quiet idle_submitter = (Throw e, s') ∧
    sends (world (rpc s')) = sends (world (rpc idle_submitter)) + 3.
Proof.
  destruct (submitTx (sample_chain JNull "ERROR" "SUCCESS") "tx" quiet idle_submitter) as [[r|e] s'] eqn:E;
    [apply (f_equal fst) in E; vm_compute in E; discriminate E|].
  exists e, s'. split; [reflexivity|].
  refine (failed_submission_sent_thrice (sample_chain JNull "ERROR" "SUCCESS") quiet sends _ _ _ _ sample_sleep "tx" "tx"
            idle_submitter e s' eq_refl _ _ E).
  - intros u tx w. apply (sends_call "sendTransaction").
  - intros u hash w. cbn [sample_chain ch_server sample_server getTransaction].
    rewrite (sends_call "getTransaction"). apply Z.add_0_r.
  - reflexivity.
  - reflexivity.
  - vm_compute. intros H. discriminate H.
  - vm_compute. repeat constructor; discriminate.
Defined.

Lemma takes_call {A} entry ms ms' (r : result A) v status found :
  0 ≤ ms' ≤ ms → r ≠ Throw timed_out → takes (sample_chain v status found) ms' (call entry ms r).
Proof. intros Hms Hr w. cbn. split; [lia|done]. Qed.

(** A network on which no transaction is ever found. *)
Lemma confirmation_timeout_unreachable_witness :
  counted (pool fresh) ∧
  (rpcExecute (sample_chain JNull "PENDING" "NOT_FOUND")
     (send_and_wait (sample_chain JNull "PENDING" "NOT_FOUND") quiet "tx") fresh).1 ≠ Throw timed_out.
Proof.
  assert (counted (pool fresh)) as Hc by (vm_compute; repeat constructor; discriminate).
  split; [exact Hc|].
  refine (confirmation_timeout_unreachable (sample_chain JNull "PENDING" "NOT_FOUND") quiet sample_sleep _ _ _ _ "tx" fresh Hc).
  - intros ms w. cbn. lia.
  - intros u tx. by apply takes_call.
  - intros u hash. by apply takes_call.
  - intros p w. cbn. split; [lia|discriminate].
Defined.

Lemma stroops_roundtrip_witness : toStroops (fromStroops 562949953421311) = Ok 562949953421311.
Proof. apply (stroops_roundtrip 562949953421311). split; [discriminate|reflexivity]. Defined.

(** ** A wallet's history *)

Definition GB : string := "GBAZI4TCR3TY5OJHCTJC2A4QSY6CJWJH5IAJTGKIN2ER7LBNVKOCCWNA".

(** Events whose parts are decoded already. *)
Definition published_event (p : WebHistory.Published) (ledger : Z) : WebHistory.RawEvent (R := jsval) := {|
  WebHistory.re_contractId := Some (if WebHistory.published_by_pool p then "CP" else "CI");
  WebHistory.re_topic := Some [JStr (if WebHistory.published_by_pool p then "pool" else "invoice"); JStr (WebHistory.action_of p)];
  WebHistory.re_value := WebHistory.value_of p; WebHistory.re_ledger := Some ledger;
  WebHistory.re_ledgerClosedAt := None; WebHistory.re_txHash := None; WebHistory.re_pagingToken := None |}.

Definition sample_published : list WebHistory.Published :=
  [WebHistory.p_created 1 GA 500 []; WebHistory.p_created 2 GB 700 []; WebHistory.p_invoice "funded" 1 (JStr GB) [];
   WebHistory.p_move "deposit" GA GB [JBig 5]; WebHistory.p_funded 1 GA 400 []; WebHistory.p_funded 2 GB 600 [];
   WebHistory.p_repaid 1 GA [JBig 9]; WebHistory.p_other false "verified" (JArr [JBig 1; JStr "hash"])].
Definition sample_events : list (WebHistory.RawEvent (R := jsval)) :=
  zip_with published_event sample_published [10; 11; 12; 13; 14; 15; 16; 17].


Example history_listed :
  map (λ h, (WebHistory.he_kind h, WebHistory.he_ledger h)) (WebHistory.parseEvents Ok "CI" "CP" "CU" sample_events GA) =
    [(WebHistory.pool_funded, 14); (WebHistory.invoice_created, 10)].
Proof. vm_compute. reflexivity. Qed.

(** ** An import *)

Definition signed (xdr network owner : string) : M World (string * option string) := λ w, (Ok (xdr, None), w).
Definition in_2030 (s : string) : number := if String.eqb s "2030-01-01" then num_of_Z 1893456000000 else NaN.

Definition nl : string := String WebImport.newline "".
Definition sample_file : string :=
  "debtor_name,amount,due_date" +:+ nl +:+ "Acme,100,2030-01-01" +:+ nl +:+ "Acme,-5,2030-01-01" +:+ nl +:+ "Zeta,7.5,2030-13-01".

Definition empty_import : WebImport.Import := {|
  WebImport.step := WebImport.upload; WebImport.parsedRows := []; WebImport.validRows := [];
  WebImport.currentIndex := 0; WebImport.results := [] |}.
Definition loaded_import : WebImport.Import := WebImport.processFile in_2030 0 "rows.csv" sample_file empty_import.

Definition silent (p : TransactionProgress) : M World unit := λ w, (Ok tt, w).
Definition open_chain : Chain World := sample_chain JNull "PENDING" "SUCCESS".
Definition idle : Submitting (W := World) := {| rpc := fresh; pendingTransactions := ∅ |}.

Lemma loaded_inv : WebImport.import_inv loaded_import.
Proof. apply WebImport.processFile_inv. split; [reflexivity|constructor]. Qed.

Lemma import_tries_all_witness :
  WebImport.import_inv loaded_import ∧
  let '(p', s') := WebImport.handleStartImport in_2030 open_chain silent signed (Some GA) loaded_import idle in
  WebImport.import_inv p' ∧
  ((p' = loaded_import ∧ s' = idle ∧
    (Some GA = None ∨ Some GA = Some "" ∨ WebImport.MAX_INVOICES_PER_DAY < lengthZ (WebImport.validRows loaded_import))) ∨
   (WebImport.step p' = WebImport.results_step ∧ map WebImport.rr_row (WebImport.results p') = WebImport.validRows loaded_import ∧
    lengthZ (WebImport.validRows loaded_import) ≤ WebImport.MAX_INVOICES_PER_DAY ∧
    Forall (λ r, WebImport.rr_invoiceId r = None ↔ WebImport.rr_error r ≠ None) (WebImport.results p'))).
Proof.
  split; [exact loaded_inv|].
  exact (WebImport.import_tries_all in_2030 open_chain silent signed (Some GA) loaded_import idle loaded_inv).
Defined.

(** The row with a month that does not exist is tried too. *)
Example rows_loaded : map WebImport.rowNum (WebImport.validRows loaded_import) = [1; 3].
Proof. vm_compute. reflexivity. Qed.

Lemma results_read_back_witness :
  GA ≠ "" ∧ lengthZ (WebImport.validRows loaded_import) ≤ WebImport.MAX_INVOICES_PER_DAY ∧
  let '(p', s') := WebImport.handleStartImport in_2030 open_chain silent signed (Some GA) loaded_import idle in
  ∃ lines, WebImport.turns in_2030 open_chain silent signed GA 0 (WebImport.validRows loaded_import) idle lines s' ∧
    WebImport.read_csv WebImport.Before "" [] [] (WebImport.downloadResults p') =
      Some (["Row"; "Debtor"; "Amount"; "Due Date"; "Status"; "Invoice ID"; "Error"] :: lines).
Proof.
  assert (GA ≠ "") as H1 by discriminate.
  assert (lengthZ (WebImport.validRows loaded_import) ≤ WebImport.MAX_INVOICES_PER_DAY) as H2 by (vm_compute; discriminate).
  split; [exact H1|]. split; [exact H2|].
  exact (WebImport.results_read_back in_2030 open_chain silent signed GA loaded_import idle H1 H2).
Defined.

(** The third row, whose month does not exist, fails. *)
Example results_listed :
  match WebImport.read_csv WebImport.Before "" [] [] (WebImport.downloadResults
    (WebImport.handleStartImport in_2030 open_chain silent signed (Some GA) loaded_import idle).1) with
  | Some (_ :: lines) => map (firstn 6) lines = [["1"; "Acme"; "100"; "2030-01-01"; "SUCCESS"; "1"];
                                                 ["3"; "Zeta"; "7.5"; "2030-13-01"; "FAILED"; ""]]
  | _ => False
  end.
Proof. vm_compute. reflexivity. Qed.
