(* ===== verification/Samples.v ===== *)
(** * The theorems at concrete inputs

    Sample databases, streams and services, and each theorem with hypotheses
    applied where they hold, over the Postgres that breaks ties by insertion
    order. *)
From S2P Require Import Prelude JsValue JsNumber JsMap Parser Database Db TrancheApy SmeRisk Reorg.
From S2P Require Import PollLoop Backfill Api ApiSpec Sdk Oracle Verifier OracleService Screening Monitor ComplianceApi.
From Stdlib Require Import Ascii.
#[local] Open Scope string_scope.
#[local] Open Scope list_scope.
#[local] Open Scope Z_scope.

#[local] Existing Instance stable_postgres.

(** ** Sample data *)

Definition sample_ids : ContractIds := contract_ids_of_env demo_env.

Definition sample_event (id : string) (type : ContractType) (eventType : string)
    (value : jsval) (ledger : Z) : IndexedEvent := {|
  ev_id := id; ev_contractId := JStr "C1"; ev_contractType := type; ev_eventType := eventType;
  ev_topic := (contract_type_string type, eventType); ev_value := value; ev_actor := None;
  ev_ledgerSequence := ledger; ev_ledgerCloseAt := "2026-01-01T00:00:00.000Z"; ev_txHash := "T";
  ev_createdAt := "2026-01-01T00:00:01.000Z" |}.

(** The database that has stored a list of events. *)
Definition stored (events : list IndexedEvent) : Database := (storeEvents events empty_database).2.

Definition sample_record (id : string) (ledger : Z) (eventType : string) : HorizonRecord := {|
  r_type := "contract"; r_id := Some id; r_paging_token := Some ("tok" +:+ pretty ledger);
  r_contract := JStr "CPOOL"; r_topic := JArr [JStr "pool"; JStr eventType];
  r_value := JArr [JStr "G1"; JStr "5"]; r_ledger_sequence := Some ledger;
  r_created_at := Some "2026-01-01T00:00:00.000Z"; r_transaction_hash := Some "T" |}.

(** ** Storage *)

Definition pool_events : list IndexedEvent :=
  [sample_event "e1" CT_pool "lst_open" (JArr [JStr "L1"]) 10;
   sample_event "e2" CT_pool "lst_open" (JArr [JStr "L2"]) 11;
   sample_event "e3" CT_pool "lst_buy" (JArr [JStr "L1"]) 12;
   sample_event "e4" CT_pool "cf_open" (JArr [JStr "7"]) 13].

Lemma storeEvents_union_witness :
  ∃ new r, storeEvents pool_events (stored (take 1 pool_events))
    = (Ok r, set_events (db_events (stored (take 1 pool_events)) ++ new) (stored (take 1 pool_events)))
    ∧ inserted r = lengthZ new ∧ inserted r + skipped r = 4.
Proof.
  destruct (storeEvents_union (stored (take 1 pool_events)) pool_events) as (new&r&Hs&_&_&Hi&Hn).
  - unfold events_wf. vm_compute. repeat constructor. set_solver.
  - exists new, r. by repeat split.
Defined.

Definition live_records : list HorizonRecord := [sample_record "r1" 10 "deposit"; sample_record "r2" 11 "withdraw"].
Definition back_records : list HorizonRecord := [sample_record "r2" 11 "withdraw"; sample_record "r3" 9 "deposit"].

Lemma ingestion_order_witness :
  ∃ n tbl1 tbl2,
    store_both (parseEvents sample_ids "now1" live_records) (parseEvents sample_ids "now2" back_records)
      empty_database = (Ok n, set_events tbl1 empty_database)
    ∧ store_both (parseEvents sample_ids "now2" back_records) (parseEvents sample_ids "now1" live_records)
      empty_database = (Ok n, set_events tbl2 empty_database)
    ∧ strip_created <$> tbl1 ≡ₚ strip_created <$> tbl2.
Proof.
  eapply (ingestion_order sample_ids "now1" "now2" live_records back_records empty_database).
  - constructor.
  - unfold live_records, back_records. intros r1 r2 H1 H2.
    rewrite !elem_of_cons, elem_of_nil in H1, H2.
    destruct H1 as [->|[->|[]]], H2 as [->|[->|[]]]; vm_compute; done.
  - repeat constructor; by eexists.
  - vm_compute. reflexivity.
  - vm_compute. reflexivity.
Defined.

(** ** Tranche yields and risk signals *)

Definition tranche_stream : list IndexedEvent :=
  [sample_event "t1" CT_tranche "fund" (JArr [JStr "1"; JStr "USDC"; JStr "700"; JStr "300"]) 1;
   sample_event "t2" CT_tranche "repay" (JArr [JStr "1"; JStr "USDC"; JStr "735"; JStr "330"]) 2].

Definition tranche_db : Database := stored tranche_stream.
Definition tranche_db' : Database := (recomputeTrancheApy "now" tranche_db).2.

Lemma recomputeTrancheApy_correct_witness :
  keys_wf ta_key (db_tranche_apy tranche_db')
  ∧ db_tranche_apy tranche_db' = [
      {| ta_token := "USDC"; ta_tranche_class := Senior; ta_realized_principal := "700";
         ta_realized_return := "35"; ta_closed_positions := 1; ta_realized_apy_bps := 500;
         ta_updated_at := "now" |};
      {| ta_token := "USDC"; ta_tranche_class := Junior; ta_realized_principal := "300";
         ta_realized_return := "30"; ta_closed_positions := 1; ta_realized_apy_bps := 1000;
         ta_updated_at := "now" |}].
Proof.
  split; [|by vm_compute].
  pose proof (recomputeTrancheApy_correct "now" tranche_db ltac:(by constructor)) as H.
  unfold tranche_db'. destruct (recomputeTrancheApy "now" tranche_db) as [[u|e] db'] eqn:E.
  - apply H.
  - exfalso. vm_compute in E. discriminate.
Defined.

Lemma getTrancheApy_recomputed_witness :
  figures <$> getTrancheApy tranche_db' (Some "USDC")
  ≡ₚ [("USDC", Senior, (700, 35, 1, 500)); ("USDC", Junior, (300, 30, 1, 1000))].
Proof.
  assert ([("USDC", Senior, (700, 35, 1, 500)); ("USDC", Junior, (300, 30, 1, 1000))]
          = figures_of "USDC" (of_token "USDC" (positions [] (tranche_events tranche_db)))
              <$> [Senior; Junior]) as -> by by vm_compute.
  apply (getTrancheApy_recomputed "now" tranche_db tranche_db' "USDC");
    [by constructor|by vm_compute|done|by vm_compute].
Defined.

Lemma realized_apy_floor_witness :
  -10000 ≤ ta_realized_apy_bps
    {| ta_token := "USDC"; ta_tranche_class := Junior; ta_realized_principal := "300";
       ta_realized_return := "30"; ta_closed_positions := 1; ta_realized_apy_bps := 1000;
       ta_updated_at := "now" |}.
Proof.
  apply (realized_apy_floor "now" tranche_db tranche_db' "USDC" Junior).
  - assert (tranche_events tranche_db = tranche_stream) as -> by by vm_compute.
    split; [|split; [|done]]; intros i t a b [= <- <- <- <-]; vm_compute; (split; [done|split; [done|]]); done.
  - by vm_compute.
  - by vm_compute.
  - by vm_compute.
Defined.

Definition invoice_stream : list IndexedEvent :=
  [sample_event "i1" CT_invoice "created"
     (JArr [JStr "1"; JStr "SME"; JStr "600"; JStr ""; JStr ""; JStr "D1"]) 1;
   sample_event "i2" CT_invoice "created"
     (JArr [JStr "2"; JStr "SME"; JStr "400"; JStr ""; JStr ""; JStr "D2"]) 2].

Definition sme_db : Database := stored invoice_stream.

Lemma recomputeSmeRiskSignals_correct_witness :
  map signal_figures (getSmeRiskSignals (recomputeSmeRiskSignals "now" sme_db).2 (Some "SME"))
  = [sme_figures "SME" (invoices_of "SME" (created_events sme_db))].
Proof.
  pose proof (recomputeSmeRiskSignals_correct "now" sme_db ltac:(by constructor)) as H.
  destruct (recomputeSmeRiskSignals "now" sme_db) as [[u|e] db'] eqn:E.
  - destruct H as (_&_&H). specialize (H "SME" ltac:(done)). cbv zeta in H.
    assert (volume (invoices_of "SME" (created_events sme_db)) =? 0 = false) as Hv by by vm_compute.
    rewrite Hv in H. exact H.
  - exfalso. vm_compute in E. discriminate.
Defined.

(** ** Reorgs and the loops *)

Definition hashed_db : Database :=
  set_ledger_hashes {[ 9 := {| lh_hash := "h9"; lh_prev_hash := "h8" |} ]} empty_database.

Definition forked_tip : LedgerMeta := {| sequence := 10; hash := "h10"; prevHash := "other" |}.

Lemma check_tip_chain_witness :
  chain_linked (db_ledger_hashes (check_tip forked_tip hashed_db).2).
Proof.
  destruct (check_tip forked_tip hashed_db) as [r db'] eqn:E. pose proof E as E'.
  vm_compute in E'. destruct r as [b|e]; [|discriminate].
  apply (check_tip_chain forked_tip hashed_db b db').
  - intros s r1 r2 H1 H2. cbn in H1, H2. apply lookup_singleton_Some in H1 as [<- <-].
    apply lookup_singleton_Some in H2 as [H2 _]. exfalso. lia.
  - intros s Hs. cbn in *. apply lookup_singleton_None. lia.
  - exact E.
Defined.

Definition poll_view (hash_of : Z → result (string * string)) : HorizonView := {|
  hv_effects := λ _, Ok (Some live_records); hv_ledger := hash_of; hv_tip := Ok (Some 20);
  hv_now := "now" |}.

Definition poll_start (db : Database) : PollState Database := {|
  PollLoop.cursor := None; consecutiveFailures := 0; lastProcessedLedger := "0";
  indexerActive := true; eventsIndexedTotal := 0; reorgsDetectedTotal := 0; pollErrorsTotal := 0;
  indexerLagLedgers := None; store := db |}.

Definition no_ledger (n : Z) : result (string * string) := Throw (EError "unavailable").

Definition polled : PollState Database :=
  (poll_iteration sample_ids 5000 (poll_view no_ledger) (poll_start empty_database)).2.

Lemma poll_at_least_once_witness : es_has "r1" (store polled) ∧ PollLoop.cursor polled = Some "tok11".
Proof.
  split; [|by vm_compute].
  apply (poll_at_least_once sample_ids 5000 (poll_view no_ledger) (poll_start empty_database) 5000 polled
    (Some live_records)
    (default (sample_event "" CT_pool "" JUndef 0) (head (parseEvents sample_ids "now" live_records)))).
  - unfold polled. destruct (poll_iteration _ _ _ _) as [d st'] eqn:E. f_equal.
    apply (f_equal fst) in E. vm_compute in E. by rewrite <-E.
  - done.
  - vm_compute. left.
  - by vm_compute.
  - by vm_compute.
Defined.

Definition dead_view : HorizonView := {|
  hv_effects := λ _, Throw (EError "503"); hv_ledger := no_ledger; hv_tip := Throw (EError "503");
  hv_now := "now" |}.

Lemma outage_and_recovery_witness :
  (poll_iterations sample_ids 5000 (replicate 11 dead_view) (poll_start empty_database)).1
  = [1000; 2000; 4000; 8000; 16000; 32000; 60000; 60000; 60000; 60000; 60000].
Proof.
  pose proof (outage_and_recovery sample_ids 5000 (replicate 11 dead_view) (poll_start empty_database)) as H.
  assert (Forall outage (replicate 11 dead_view)) as Hv.
  { apply Forall_replicate. intros c. by eexists. }
  specialize (H Hv eq_refl eq_refl).
  destruct (poll_iterations sample_ids 5000 (replicate 11 dead_view) (poll_start empty_database)) as [d st'].
  destruct H as (->&_). by vm_compute.
Defined.

(** The ledger before the batch's highest was recorded with another hash. *)
Definition forked_db : Database :=
  set_ledger_hashes {[ 10 := {| lh_hash := "h10"; lh_prev_hash := "h9" |} ]} empty_database.
Definition forked_view : HorizonView := poll_view (λ _, Ok ("h11'", "h10'")).
Definition rewound_state : PollState Database :=
  (poll_body sample_ids forked_view (poll_start forked_db)).2.

Lemma reorg_rewinds_witness :
  rewound 11 rewound_state ∧ PollLoop.cursor rewound_state = Some "10".
Proof.
  split; [|by vm_compute].
  assert (11 = tip_ledger (parseEvents sample_ids (hv_now forked_view) (default [] (Some live_records))))
    as -> by by vm_compute.
  apply (reorg_rewinds sample_ids forked_view (poll_start forked_db) rewound_state (Some live_records)).
  - done.
  - unfold rewound_state. destruct (poll_body _ _ _) as [r st'] eqn:E. f_equal.
    apply (f_equal fst) in E. vm_compute in E. by rewrite <-E.
  - by vm_compute.
Defined.

Definition dead_page : PageView := {| pv_effects := λ _, Throw (EError "503"); pv_now := "now" |}.

(** A Horizon that answers with an event of ledger 12. *)
Definition good_page : PageView := {|
  pv_effects := λ _, Ok (Some [sample_record "r12" 12 "deposit"]); pv_now := "now" |}.

(** A database that refuses every batch. *)
#[local] Program Instance refusing_store : EventStore (list string) := {|
  es_storeEvents := λ _, throw (EError "too many clients");
  es_detectReorg := λ _, mret false;
  es_recordLedgerHash := λ _, mret tt;
  es_rollbackFrom := λ _, mret 0;
  es_recomputeTrancheApy := λ _, mret tt;
  es_recomputeSmeRiskSignals := λ _, mret tt;
  es_has := λ i s, i ∈ s |}.
Next Obligation. by intros evs s _. Qed.
Next Obligation. by intros i evs s Hs. Qed.
Next Obligation. by intros i meta s. Qed.
Next Obligation. by intros i meta s. Qed.
Next Obligation. by intros i now s. Qed.
Next Obligation. by intros i now s. Qed.

Definition backfill_start : BackfillState (list string) :=
  {| bf_currentLedger := 10; bf_totalEvents := 0; bf_retryCount := 0; bf_progress := None; bf_store := [] |}.

Lemma backfill_retries_witness :
  backfill_loop sample_ids ["CPOOL"] (Some 20) (replicate 7 dead_page) backfill_start
    = ([2000; 8000; 32000; 60000],
       Finished (Throw (EError "[backfill] Aborting after 8 consecutive failures"))
         (bf_set_retry 10 backfill_start))
  ∧ ∃ st', backfill_loop sample_ids ["CPOOL"] (Some 20) (replicate 7 good_page) backfill_start
      = (replicate 7 2000, Continue 0 st').
Proof.
  split.
  - apply (backfill_retries sample_ids ["CPOOL"] (Some 20) (replicate 7 dead_page) backfill_start);
      [done|]. apply Forall_replicate. intros c. by eexists.
  - destruct (proj2 (backfill_retries sample_ids ["CPOOL"] (Some 20) (replicate 7 good_page)
      backfill_start eq_refl)) as (st'&H&_).
    + apply Forall_replicate. intros c. eexists. split; [done|]. by vm_compute.
    + intros evs s. by eexists.
    + by exists st'.
Defined.

(** ** The HTTP API *)

Lemma getAllEvents_terminates_witness :
  ∃ r, replay_pages 1000 (λ _ _, Ok pool_events) (replay_fuel 1000) 0 0 [] = Some r
    ∧ ∀ evs, r = Ok evs → lengthZ evs ≤ 1000.
Proof. apply (getAllEvents_terminates 1000 (λ _ _, Ok pool_events)). lia. Defined.

Definition pool_db : Database := stored pool_events.

Lemma getAllEvents_complete_witness :
  ∃ evs, getAllEvents_on 10 (λ _, stable_postgres) pool_db (of_type "pool") = Ok evs
    ∧ ev_ledgerSequence <$> evs ≡ₚ [10; 11; 12; 13].
Proof.
  destruct (getAllEvents_complete 10 (λ _, stable_postgres) pool_db (of_type "pool")
    eq_refl eq_refl ltac:(lia)) as (evs&E&_&_&Hp&_).
  exists evs. split; [exact E|]. rewrite Hp. by vm_compute.
Defined.

(** Ties broken by the reverse of the insertion order. *)
Definition reversed_postgres : Postgres.
Proof.
  refine {|
    pg_text := λ v, match v with JStr s => Some s | _ => None end;
    pg_jsonb := Some;
    pg_timestamptz := Some;
    pg_numeric := λ z, Some (pretty z);
    pg_order_by_ledger := λ asc l,
      if asc then sort_by row_ledger_sequence (rev l)
      else sort_by (λ r, - row_ledger_sequence r) (rev l);
    pg_order_tranche_apy := λ l, l;
    pg_order_sme := λ l, l |}.
  - congruence.
  - congruence.
  - intros [] l; rewrite sort_by_perm; symmetry; apply Permutation_rev.
  - intros l. apply sort_by_ascending.
  - intros l. apply sort_by_ascending.
  - done.
  - done.
Defined.

(** A ledger with an event more than a page. *)
Definition busy_db : Database :=
  stored (map (λ k, sample_event (pretty k) CT_pool "lst_open" (JArr []) 10) (seqZ 0 501)).

Definition occurrences (id : string) (r : result (list IndexedEvent)) : nat :=
  match r with Ok evs => length (filter (λ e, ev_id e = id) evs) | Throw _ => 0 end.

(** Two queries that break its ties differently: of the stored events one is
    returned twice and another is missing. *)
Example ties_lose_an_event :
  let r := getAllEvents_on 1000 (λ n, match n with O => stable_postgres | S _ => reversed_postgres end)
    busy_db (of_type "pool") in
  has_id "500" (db_events busy_db) = true ∧ occurrences "500" r = 0%nat ∧ occurrences "0" r = 2%nat.
Proof. by vm_compute. Qed.

Lemma open_market_correct_witness :
  ∃ ids, get_listings_open 10 pool_db = Reply ids ∧ NoDup ids
    ∧ ∀ id, id ∈ ids ↔ pool_event pool_db ["lst_open"] id ∧ ¬ pool_event pool_db ["lst_cncl"; "lst_buy"] id.
Proof. apply (open_market_correct 10 ltac:(lia) pool_db). by vm_compute. Defined.

Lemma cofunding_round_correct_witness :
  round_reply_ok cofunding_status "7" (cofunding_events pool_db "7") (get_cofunding_round 10 pool_db "7").
Proof. apply (cofunding_round_correct 10 ltac:(lia) pool_db "7"); [done|by vm_compute]. Defined.

Definition oracle_db : Database := stored
  [sample_event "o1" CT_oracle_registry "rnd_open" (JArr [JStr "7"]) 1;
   sample_event "o2" CT_oracle_registry "consensus" (JArr [JStr "7"; JBool true]) 2].

Lemma oracle_round_correct_witness :
  round_reply_ok round_status "7" (oracle_round_events oracle_db "7") (get_oracle_round 10 oracle_db "7")
  ∧ oracle_round_events oracle_db "7" ≠ [].
Proof.
  split; [apply (oracle_round_correct 10 ltac:(lia) oracle_db "7"); [done|by vm_compute]|by vm_compute].
Defined.

Definition attestation_db : Database := stored
  [sample_event "a1" CT_credit_score "att_sub" (JArr [JStr "1"; JStr "GSME"]) 1;
   sample_event "a2" CT_credit_score "att_disp" (JArr [JStr "1"]) 2].

Lemma attestations_correct_witness :
  ∃ l, get_attestations 10 attestation_db "GSME" = Reply l ∧ NoDup (an_id <$> l).
Proof.
  destruct (attestations_correct 10 ltac:(lia) attestation_db "GSME") as (l&Hl&Hn&_);
    [done|by vm_compute|by exists l].
Defined.

Lemma search_pages_witness :
  get_invoices_search 10 sme_db (JStr "") (JStr "") (JStr (pretty 0)) (JStr (pretty 1))
  = Reply {| se_invoiceIds := map (λ e, Number_of_string e.1)
               (takeZ 1 (dropZ (0 * 1) (search_results sme_db "" "")));
             se_page := 0; se_pageSize := 1; se_total := lengthZ (search_results sme_db "" "") |}.
Proof.
  apply (search_pages 10 ltac:(lia) sme_db "" ""); [by vm_compute|lia|lia].
Defined.

(** An address flagged at ledger 1 and cleared at ledger 2. *)
Definition screening_db : Database := stored
  [sample_event "s1" CT_compliance "screened" (JArr [JStr "GA"; JStr "Flagged"]) 1;
   sample_event "s2" CT_compliance "screened" (JArr [JStr "GA"; JStr "Cleared"]) 2].

Definition some_pagination (v : jsval) (d m : Z) : result (option Z) := Ok (Some 100).

Lemma flagged_never_cleared_witness :
  ∃ l, get_compliance_flagged some_pagination screening_db JUndef = Reply l ∧ "GA" ∈ fl_address <$> l.
Proof.
  destruct (get_compliance_flagged some_pagination screening_db JUndef) as [l|status error] eqn:E.
  2:{ exfalso. vm_compute in E. discriminate. }
  exists l. split; [done|].
  destruct (flagged_never_cleared 0 ltac:(lia) some_pagination screening_db JUndef l 100
    eq_refl E) as (count&page&Hc&Hp&_&Hin).
  apply Hin. vm_compute in Hc. injection Hc as <-. vm_compute in Hp. injection Hp as <-.
  eexists. split; [right; left|]. split; [by vm_compute|]. split; [by vm_compute|]. vm_compute. left.
Defined.

(** ** The oracle service *)

(** An operation that fails while the counter is positive. *)
Definition flaky : M Z string := λ n,
  if 0 <? n then (Throw (EError "timeout"), n - 1) else (Ok "done", n).

Lemma retryWithBackoff_correct_witness :
  ∃ k s1, Z.of_nat k < 3 ∧ failed_attempts flaky k 2 s1
    ∧ retryWithBackoff flaky DEFAULT_OPTIONS (λ _, 0) 2 = flaky s1.
Proof.
  destruct (retryWithBackoff_correct flaky DEFAULT_OPTIONS (λ _, 0) 2) as (k&s1&Hk&Hf&Hr&_).
  - done.
  - done.
  - done.
  - intros i. split; [done|by vm_compute].
  - exists k, s1. by split_and!.
Defined.

Definition two_queued : QueueSystem :=
  sys_enqueue 5 (sys_enqueue 4 (sys_enqueue 3 (sys_enqueue 2 (sys_enqueue 1 new_system)))).

Lemma two_queued_reachable : rtc queue_step new_system two_queued.
Proof. do 5 (eapply rtc_r; [|apply step_enqueue]). apply rtc_refl. Qed.

Lemma queue_safety_witness : lengthZ (in_flight two_queued) ≤ 3 ∧ queue (vq two_queued) = [4; 5].
Proof. split; [apply queue_safety, two_queued_reachable|by vm_compute]. Defined.

Lemma queue_drains_witness : Wf.Acc (flip queue_task) two_queued.
Proof. apply queue_drains, two_queued_reachable. Defined.

(** A chain whose votes fail because the registry is paused. *)
Definition paused_error : exn := EError "HostError: Error(Contract, #3)".

Definition paused_client : AsteraClient (option ConsensusTracker) := {|
  invoice_get := λ _, mret (JObj [("verification_hash", JStr "h")]);
  invoice_verify := λ _ _ _ _ _ _, throw paused_error;
  registry_getRound := λ id, mret (Some {|
    vr_invoiceId := id; vr_requiredVotes := num_of_Z 1; vr_totalRegisteredOracles := num_of_Z 1;
    vr_weightFor := 0; vr_weightAgainst := 0; vr_totalStakeSnapshot := 0; vr_quorumBps := num_of_Z 0;
    vr_status := JStr "Open"; vr_openedAt := num_of_Z 0; vr_deadline := num_of_Z 0;
    vr_oracleHash := JStr "h" |});
  registry_getOracleInfo := λ _, mret None;
  registry_getRegistryConfig := throw paused_error;
  registry_openRound := λ _ _ _ _, throw paused_error;
  registry_register := λ _ _ _, throw paused_error;
  registry_vote := λ _ _ _ _ _, throw paused_error |}.

Lemma paused_registry_defers_witness :
  ∃ s3, submitVerdict paused_client id (λ t _, t) mret "G" true (λ _, 0) 1 true "r" (JStr "h")
          (Some new_tracker) = (Ok tt, s3)
    ∧ tracker_isPaused id s3 = true.
Proof.
  eapply (paused_registry_defers paused_client id (λ t _, t)); try reflexivity.
  by eexists.
Defined.

(** A chain that logs the transactions it is sent. *)
Definition logging_server : Server (list string) unit string string := {|
  getAccount := λ _, mret tt;
  simulateTransaction := λ tx, mret (SimSuccess tx);
  sendTransaction := λ tx log, (Ok {| send_status := "PENDING"; send_hash := tx |}, log ++ [tx]);
  getTransaction := λ _, mret "SUCCESS" |}.

Definition logging_config : AsteraConfig := {|
  ac_network := "N"; ac_invoiceContractId := "I"; ac_oracleRegistryContractId := Some "R" |}.

Lemma verdicts_never_sent_witness :
  (performVerification
     (new_AsteraClient logging_server (λ _ _ _ m _, Ok m) (λ tx _, Ok tx) (λ x _, Ok x)
        (λ _, JObj []) logging_config)
     (λ _, None) (λ _ s, s) mret "G" false id (λ _, 0) 1 []).2 = [].
Proof.
  apply (verdicts_never_sent logging_server (λ _ _ _ m _, Ok m) (λ tx _, Ok tx) (λ x _, Ok x)
    (λ _, JObj []) logging_config (λ _, None) (λ _ s, s) mret "G" false id (λ _, 0) 1 (λ log, log = [])).
  - split; intros; by intros s.
  - done.
  - done.
  - done.
Defined.

Lemma paused_error_unrecognised_witness :
  isRegistryPausedError
    (as_exn (parseContractError "HostError: Error(Contract, #3)" OracleRegistryErrors)) = false
  ∧ isRegistryPausedError paused_error = true.
Proof. split; [apply paused_error_unrecognised; reflexivity|reflexivity]. Defined.

(** A stream of three effects, the first already handled. *)
Definition created_effect (token id : string) : jsval := JObj
  [("type", JStr "contract_event"); ("paging_token", JStr token); ("contract_id", JStr "I");
   ("topic", JArr [JStr "INVOICE"; JStr "created"]); ("value", JArr [JStr id])].

Definition effect_log : list jsval := [created_effect "t1" "1"; created_effect "t2" "2"; created_effect "t3" "3"].

Definition log_stream (token : string) : list jsval :=
  if String.eqb token "t1" then drop 1 effect_log
  else if String.eqb token "t2" then drop 2 effect_log
  else [].

Lemma log_stream_horizon : horizon_stream effect_log log_stream.
Proof.
  intros pre e post token Hlog Ht. unfold effect_log in Hlog.
  destruct pre as [|a [|b [|c pre]]].
  - injection Hlog as <- <-. vm_compute in Ht. injection Ht as <-. reflexivity.
  - injection Hlog as <- <- <-. vm_compute in Ht. injection Ht as <-. reflexivity.
  - injection Hlog as <- <- <- <-. vm_compute in Ht. injection Ht as <-. reflexivity.
  - exfalso. injection Hlog as _ _ _ Hlog. by destruct pre.
Qed.

(** One effect whose cursor cannot be written, a crash while handling the next,
    then a restart. *)
Definition two_lives : list Life :=
  [{| life_now := 0; life_writes := [Refused]; life_crash := true |};
   {| life_now := 1; life_writes := [Saved; Saved]; life_crash := false |}].

Lemma listener_skips_nothing_witness :
  (lives "I" None "G" id log_stream two_lives (Some "t1")).1 = [2; 3; 2; 3]
  ∧ ∃ handled rest, drop 1 effect_log = handled ++ rest
    ∧ omap (announced_invoice "I" None id) handled
      `sublist_of` (lives "I" None "G" id log_stream two_lives (Some "t1")).1.
Proof.
  split; [by vm_compute|].
  destruct (listener_skips_nothing "I" None "G" id effect_log log_stream two_lives []
    (created_effect "t1" "1") (drop 1 effect_log) "t1") as (handled&rest&He&Hs&_).
  - apply log_stream_horizon.
  - repeat constructor; eexists _, _; by split_and!.
  - by repeat constructor.
  - done.
  - done.
  - by exists handled, rest.
Defined.

(** ** The compliance service *)

Definition five_deposits : list Deposit :=
  map (λ k, {| dep_at := Z.of_nat k; dep_address := "GA"; dep_amount := 1 |}) (seq 0 5).

Lemma structuring_detected_witness :
  al_address <$> alerts (run_deposits default_config five_deposits new_monitor) = ["GA"].
Proof.
  rewrite (structuring_detected default_config ltac:(done) five_deposits); [by vm_compute|].
  repeat constructor; done.
Defined.

Definition sample_config : ComplianceConfig := {|
  cc_screenerSecretKey := "S"; cc_adminToken := "secret"; cc_healthPort := Some 8081;
  cc_screeningProviderUrl := ""; cc_rescreenCheckIntervalMs := Some 3600000;
  cc_monitor := default_config |}.

(** [new URL] refuses a target that begins with two slashes and has no host. *)
Definition sample_pathname (url : string) : option string := if String.eqb url "//" then None else Some url.

Definition sample_request (token : string) : Request := {|
  rq_method := "POST"; rq_url := "/screen";
  rq_headers := λ k, if String.eqb k "x-admin-token" then Some (One token) else None;
  rq_body := Ok (JObj [("address", JStr "GA"); ("submitOnChain", JBool true)]) |}.

(** The chain of the compliance service logs the calls it is sent. *)
Definition screening_server : Server (list ScreeningCall) unit ScreeningCall unit := {|
  getAccount := λ _, mret tt;
  simulateTransaction := λ _, mret (SimSuccess tt);
  sendTransaction := λ c log, (Ok {| send_status := "PENDING"; send_hash := "h" |}, log ++ [c]);
  getTransaction := λ _, mret "SUCCESS" |}.

Definition sample_handle : Request → M (list ScreeningCall) Response :=
  handle (ScreenerProvider0 := mock_provider []) screening_server (λ _ _ c, Ok c) (λ c _, Ok c) sample_config "G"
    sample_pathname (λ _, None) (λ _ s, s) 0.

Lemma admin_endpoints_guarded_witness :
  ¬ authorised sample_config (sample_request "guess") ∧
  sample_handle (sample_request "guess") [] = (Ok (401, BError "unauthorized"), []).
Proof.
  assert (¬ authorised sample_config (sample_request "guess")) as H by (vm_compute; intros [?|[?|?]]; discriminate).
  split; [exact H|].
  exact (proj1 (admin_endpoints_guarded (ScreenerProvider0 := mock_provider []) screening_server (λ _ _ c, Ok c)
    (λ c _, Ok c) sample_config "G" sample_pathname (λ _, None) (λ _ s, s) 0 (sample_request "guess") "/screen" _
    eq_refl eq_refl) H []).
Defined.

Lemma submissions_valid_witness :
  lengthZ (sample_handle (sample_request "secret") []).2 = 1 ∧
  Forall (checked_call valid_result) (sample_handle (sample_request "secret") []).2.
Proof.
  split; [vm_compute; reflexivity|].
  destruct (@submissions_valid _ _ _ _ screening_server (mock_provider []) (λ _ _ c, Ok c) (λ c _, Ok c)
    sample_config "G" sample_pathname (λ _, None) (λ _ s, s) 0 valid_result (mock_provider_valid [])
    (checked_call valid_result) (Forall (checked_call valid_result))) as [H _].
  - split_and!.
    + intros a. by intros s.
    + by intros a i c tx [= <-].
    + by intros tx v tx' [= <-].
    + intros tx Htx. by intros s.
    + intros tx Htx s Hs. cbn. apply Forall_app. split; [done|]. by constructor.
  - done.
  - exact (proj1 (H (sample_request "secret") [] ltac:(constructor))).
Defined.

(** Anyone ends the callback with an exception. *)
Example malformed_target :
  sample_handle {| rq_method := "GET"; rq_url := "//"; rq_headers := λ _, None; rq_body := Ok JNull |} [] =
    (Throw (ETypeError "Invalid URL"), []).
Proof. reflexivity. Qed.
