(* ===== verification/WebSamples.v ===== *)
(** * The theorems of the web application at concrete inputs

    A rate model, a dispatch, a cookie jar, a sign-in with a toy token format,
    event streams and a page, and each theorem with hypotheses applied to them. *)
From S2P Require Import Prelude.
From S2P Require Import JsValue.
From S2P Require Import JsNumber.
From S2P Require Import JsArith.
From S2P Require Import JsMap.
From S2P Require Import Parser.
From S2P Require Import Database.
From S2P Require Import Db.
From S2P Require Import Api.
From S2P Require Import RateModel.
From S2P Require Import WebhookUrl.
From S2P Require Import Notifications.
From S2P Require Import Csrf.
From S2P Require Import Auth.
From S2P Require Import EventStream.
From S2P Require Import Alerts.
From S2P Require Import SseEvents.
From S2P Require Import Backtest.
From S2P Require Import Samples.
From Stdlib Require Import Ascii.
#[local] Open Scope string_scope.
#[local] Open Scope list_scope.
#[local] Open Scope Z_scope.

#[local] Existing Instance stable_postgres.

(** ** Rates *)

Definition sample_rates : Pool.RateModelConfig := {|
  Pool.base_rate_bps := 200; Pool.optimal_utilization_bps := 8000; Pool.slope1_bps := 600;
  Pool.slope2_bps := 3000; Pool.max_rate_bps := 3500 |}.

Lemma sample_rates_u32 : Pool.config_u32 sample_rates.
Proof. unfold Pool.config_u32, Pool.u32, Pool.u32_MAX. cbn. lia. Defined.

Lemma rate_model_lockstep_witness :
  computeCurrentRateBps (num_of_Z 9000) (js_config sample_rates)
  = num_of_Z (Pool.compute_current_rate 9000 sample_rates)
  ∧ Pool.compute_current_rate 9000 sample_rates = 2300.
Proof.
  split; [|done].
  apply (proj2 (rate_model_lockstep sample_rates sample_rates_u32)); [|done].
  unfold Pool.u32, Pool.u32_MAX. lia.
Defined.

Lemma rate_curve_shape_witness :
  computeCurrentRateBps (num_of_Z 0) (js_config sample_rates) = num_of_Z 200
  ∧ computeCurrentRateBps (num_of_Z 8000) (js_config sample_rates) = num_of_Z 800.
Proof.
  destruct (rate_curve_shape sample_rates sample_rates_u32 eq_refl) as (H0&Hk&_). by split.
Defined.

(** ** A dispatch

    The state is the list of the URLs called, and the host that was looked up last
    with what was found. Of two webhook hosts one resolves to a public address, the
    other to a private one. *)

Definition Dispatched : Type := list string * option (string * list (string * Z)).

Definition toy_URL (url : string) : option ParsedURL :=
  if String.eqb url "https://hooks.example/a" then Some {| url_protocol := "https:"; url_hostname := "hooks.example" |}
  else if String.eqb url "https://intranet/a" then Some {| url_protocol := "https:"; url_hostname := "intranet" |}
  else None.

Definition toy_lookup (host : string) : M Dispatched (list (string * Z)) := λ s,
  let found := [(if String.eqb host "hooks.example" then "93.184.216.34" else "10.1.2.3", 4)] in
  (Ok found, (s.1, Some (host, found))).

(** A request that follows redirections may be led anywhere. *)
Definition toy_fetch (url : string) (rq : HttpRequest) : M Dispatched Z := λ s,
  (Ok 200, (s.1 ++ [if String.eqb (hr_redirect rq) "error" || String.eqb url RESEND_URL then url else "https://intranet/a"], s.2)).

Definition toy_env (k : string) : option string :=
  if one_of ["NOTIFICATION_WEBHOOK_SECRET"; "NOTIFICATION_DISPATCH_TOKEN"; "RESEND_API_KEY"] k then Some "s" else None.

Definition toy_dispatch (url : string) : M Dispatched DispatchReply :=
  dispatch_POST toy_env toy_URL toy_lookup toy_fetch (λ _, mret tt) (mret "uuid") (mret "now") (λ secret body, secret)
    (Some "Bearer s")
    (Ok (JObj [("payload", JObj [("event", JStr "INVOICE_FUNDED"); ("recipient", JStr "a@b.c")]);
               ("preferences", JObj [("webhook", JObj [("enabled", JBool true); ("url", JStr url);
                                                       ("events", JArr [JStr "INVOICE_FUNDED"])])])])).

Definition only_known (s : Dispatched) : Prop := Forall (λ u, u = RESEND_URL ∨ u = "https://hooks.example/a") s.1.

(** The last look-up was of the URL's host, and found public addresses only. *)
Definition looked_up (url : string) (s : Dispatched) : Prop :=
  ∃ parsed found, toy_URL url = Some parsed ∧ s.2 = Some (url_hostname parsed, found) ∧
    Forall (λ a, isPrivateAddress a.1 a.2 = false) found.

Lemma looked_up_known url s s' :
  isSafeWebhookUrl toy_URL toy_lookup url s = (Ok true, s') → looked_up url s' ∧ url = "https://hooks.example/a".
Proof.
  unfold isSafeWebhookUrl, toy_URL, looked_up.
  destruct (String.eqb_spec url "https://hooks.example/a") as [->|_].
  - intros [= <-]. split; [|done]. eexists _, _. split; [reflexivity|]. split; [reflexivity|].
    constructor; [by vm_compute|constructor].
  - by destruct (String.eqb url "https://intranet/a").
Qed.

Lemma dispatch_calls_checked_witness :
  (toy_dispatch "https://hooks.example/a" ([], None)).1 = Ok (Delivered false true) ∧
  (toy_dispatch "https://hooks.example/a" ([], None)).2.1 = ["https://hooks.example/a"] ∧
  only_known (toy_dispatch "https://intranet/a" ([], None)).2.
Proof.
  split; [by vm_compute|]. split; [by vm_compute|].
  apply (keeps_total only_known (toy_dispatch "https://intranet/a") ([], None)); [|constructor].
  apply (dispatch_calls_checked _ _ _ _ _ _ _ _ only_known (λ url s, looked_up url s ∧ url = "https://hooks.example/a")).
  split; unfold only_known; try by (intros; intros s Hs).
  - intros url s s' _ E. exact (looked_up_known url s s' E).
  - intros apiKey payload s H. cbn. apply Forall_app. split; [done|]. constructor; [by left|constructor].
  - intros url rq (_&Hr&_) s [H [_ ->]]. cbn. rewrite Hr. apply Forall_app. split; [done|]. constructor; [by right|constructor].
Defined.

(** ** Cookies *)

Lemma csrf_roundtrip_witness :
  ∃ request, csrf_request [("a", "1"); ("csrf_token", "0f12ab34"); ("b", "x=2")] "POST" "/api/notifications/dispatch" []
             = Ok request
    ∧ ∀ u1 u2, middleware (λ _, None) u1 u2 request ≠ InvalidCsrfToken.
Proof.
  apply (csrf_roundtrip (λ _, None) "0f-12" "ab-34"); try done.
  unfold jar_wf. repeat constructor.
Defined.

(** ** Signing in

    A toy token format: the expiry, a dot and the subject, for subjects without
    spaces; its secret is not checked. *)

Definition toy_sign (secret : string) (claims : Claims) : result string :=
  if str_forallb (λ c, negb (is_space c)) (cl_sub claims) && (0 <=? cl_exp claims)
  then Ok (pretty (cl_exp claims) +:+ "." +:+ cl_sub claims) else Throw (EError "bad subject").

Fixpoint split_dot (s : string) : string * string :=
  match s with
  | EmptyString => ("", "")
  | String c s' => if Ascii.eqb c "." then ("", s') else (String c (split_dot s').1, (split_dot s').2)
  end.

Definition toy_jwtVerify (now : Z) (token secret : string) : result (option string) :=
  match parse_signed (split_dot token).1 with
  | Some exp => if now / 1000 <? exp then Ok (Some (split_dot token).2)
                else Throw (EError "exp claim timestamp check failed")
  | None => Throw (EError "Invalid Compact JWS")
  end.

Lemma split_dot_numeral n sub : split_dot (pretty (n : Z) +:+ "." +:+ sub) = (pretty n, sub).
Proof.
  generalize (pretty_Z_numeral n). generalize (pretty n). induction s as [|c s IH]; [done|].
  cbn [str_forallb]. intros [Hc Hs]%andb_prop. rewrite append_cons. cbn [split_dot].
  replace (Ascii.eqb c ".") with false by (revert Hc; clear; by destruct c as [[] [] [] [] [] [] [] []]).
  by rewrite IH.
Qed.

Lemma str_forallb_append p s t : str_forallb p (s +:+ t) = str_forallb p s && str_forallb p t.
Proof.
  induction s as [|c s IH]; [done|]. rewrite append_cons. cbn [str_forallb]. by rewrite IH, andb_assoc.
Qed.

#[local] Instance toy_jose : JoseLaws toy_sign toy_jwtVerify.
Proof.
  split.
  - intros secret claims token now. unfold toy_sign. destruct (_ && _); [|done]. intros [= <-].
    unfold toy_jwtVerify. rewrite split_dot_numeral. cbn. by rewrite parse_signed_pretty.
  - intros secret claims token. unfold toy_sign. destruct (_ && _) eqn:E; [|done]. intros [= <-].
    apply andb_prop in E as [E _]. split.
    + generalize (pretty_Z_nonempty (cl_exp claims)). by destruct (pretty (cl_exp claims)).
    + rewrite !str_forallb_append. rewrite E. cbn [str_forallb].
      rewrite (str_forallb_impl numeral_char); [done| |apply pretty_Z_numeral].
      clear. intros c. by destruct c as [[] [] [] [] [] [] [] []].
Qed.

Definition toy_login (now : Z) (xdr : string) : TokenReply :=
  token_POST (λ _, Some "secret")
    (λ x _, if String.eqb x "signed" then Ok {|
       tx_source := "GS"; tx_timeBounds := None; tx_hash := "h"; tx_signatures := ["s1"; "s2"];
       tx_operations := [{| op_type := "payment"; op_source := Some "GP"; op_name := ""; op_value := None |};
                         {| op_type := "manageData"; op_source := Some "GA"; op_name := "sep0010_auth"; op_value := None |}] |}
     else Throw (EError "bad XDR"))
    (λ _, true) (λ a, Ok a) (λ key hash s, Ok (String.eqb s "s2")) toy_sign
    now (Ok (JObj [("signed_xdr", JStr xdr)])).

Lemma login_flow_witness :
  toy_login 5000 "signed" = Token "86405.GA" 86405
  ∧ ∃ account, me_GET (λ _, Some "secret") toy_jwtVerify 6000 (Some "Bearer 86405.GA") = Authenticated account.
Proof.
  assert (toy_login 5000 "signed" = Token "86405.GA" 86405) as E by (by vm_compute). split; [done|].
  unfold toy_login in E.
  destruct (login_flow _ _ _ _ _ _ _ _ _ _ _ E) as (account&_&_&H). exists account.
  exact (proj1 (H 6000)).
Defined.

Lemma tickets_single_use_witness :
  let calls := [Tickets.Create 0 [1; 255]%nat "GA"; Tickets.Sweep 1000] in
  (Tickets.consumeTicket 299999 "01ff" (Tickets.run_calls calls)).1 = Some "GA"
  ∧ (Tickets.consumeTicket 299999 "01ff"
       (Tickets.run_calls (calls ++ [Tickets.Consume 2000 "01ff"] ++ [Tickets.Sweep 3000]))).1 = None.
Proof.
  intros calls. split.
  - rewrite (proj1 (Tickets.tickets_single_use calls 299999 "01ff" ltac:(repeat constructor; cbn; lia))). done.
  - apply (proj2 (proj2 (Tickets.tickets_single_use calls 2000 "01ff" ltac:(repeat constructor; cbn; lia)))).
    + repeat constructor.
    + repeat constructor; cbn; lia.
Defined.

(** ** Streams *)







(** ** A page *)

Definition toy_page : Page := stop (setPollInterval 1000 (start true None (Some Investor) new_page)).

Lemma page_invariant_witness : page_inv toy_page ∧ intervals toy_page = [].
Proof.
  split; [|done]. apply page_invariant. unfold toy_page.
  eapply rtc_l; [apply (page_start true None (Some Investor))|].
  eapply rtc_l; [apply (page_interval 1000)|].
  eapply rtc_l; [apply page_stop|apply rtc_refl].
Defined.
